(* ===== verification/_CoqProject ===== *)
-Q . S2P
Prelude.v
GoStrings.v
GoFloat.v
GoSort.v
GoHeap.v
Constraints.v
Strategy.v
Engine.v
Replica.v
Reschedule.v
BlockedEvals.v
LoadBalancer.v
HealthFilter.v
RouteGroup.v
Resolver.v
Reconciler.v
DeployStore.v
Deployment.v
DeployRun.v
TokenStore.v
OpQueue.v
Programs.v
Capacity.v
Servers.v
ControlPlane.v
Reservations.v
Scheduler.v
ClusterManager.v
Creations.v
Migrations.v
MigrationRules.v
Transfer.v
TransferRequests.v
Evacuation.v
EvacuationRules.v
PlanRun.v
Membership.v
Migration.v
Network.v
ToyArchives.v
MigrationRun.v
TransferRules.v
Delivery.v
Heartbeat.v
Failover.v
JobQueue.v
ReplicaManager.v
BeaconClient.v
ReconcilerService.v
HealthRunner.v
