(* ===== verification/Prelude.v ===== *)
(** * Forge Plane: a verification development for the orchestration core

    Forge Plane manages game servers on a fleet of machines.  The control
    plane ([src/forge/api], in Go) decides where workloads run, moves them
    between machines, rolls out releases and routes traffic to them; the agent
    on each machine ([src/beacon]) runs the containers, keeps the queue of the
    commands it was given and carries out its side of a move.  This
    development models the part of both that decides, and proves it correct.
    Paths below are relative to [src/forge/api/internal] unless they start
    with [beacon].

    ** How the parts interact

    A request for a server ([http/handlers_servers.go]) goes to the cluster
    manager, which asks the scheduler for a node.  The scheduler reads the
    nodes, keeps those that can take the request, has the placement engine
    score them, and reserves capacity through the reservation manager; the
    cluster manager writes the row of the server, has the node create the
    workload, confirms the reservation, and undoes all of it when a step
    fails.  An application with replicas is placed by the engine's replica
    placement, which charges each placement to a working set; the replica
    manager reserves capacity for a replica, writes its row and starts it
    through the client of the nodes, which has a circuit per node; a replica
    that fails waits in the queue of blocked evaluations and is retried as the
    reschedule policy says.

    Nodes report heartbeats.  The heartbeat monitor classifies each node by
    the age of its last report and its recent history and publishes what
    changed; the failover service hears that a node went offline, opens an
    incident and runs the action of the policy that decides, at most once per
    incident.  Work that takes time is a job of the job queue, leased to one
    worker at a time.

    A server moves by a migration: the service keeps an allocation and
    capacity for it, a worker takes the run through its phases and writes each
    one down, and the two nodes exchange the data by the transfer protocol of
    the agent, with a credential per direction.  An evacuation plan chooses a
    target for every server of a node; it is carried out a few migrations at a
    time, asked for by hand or by the drain of a node, and the ledger of drains
    follows from the events.

    A new image is rolled out by a deployment: a plan of steps kept in the
    database and executed under a lease, with a health gate before traffic
    moves.  A request for a server is routed by the rules of its route group,
    to a backend the health filter trusts, or by the load balancer to a target
    of a target group, on the host the resolver finds.  Health checks
    decide what a target counts as.  The reconciler compares what servers
    should do with what they do, plans and carries out the difference, and
    restarts the servers of targets that are not healthy.

    ** Files

    What the model is written with:
    - [Prelude] (this file), [GoStrings], [GoFloat], [GoSort], [GoHeap]: the
      parts of Go the modelled code uses.  Results and panics, a state monad
      with [let!]/[;;;] notations, 64-bit integers with wrap-around, time,
      [strings], [strconv] and [fmt] on ASCII, binary64 floats (on the Standard
      Library's [SpecFloat]), stable sorting, [container/heap] with the
      interface and the laws its clients discharge; and the tactics and hints
      the other files share.
    - [Programs]: a function that talks to the outside as a tree of requests,
      its runs, programs in a [pool] that interleave at every request, and the
      rely-guarantee rule the concurrent theorems use.

    Placement:
    - [Constraints] ([placement/constraints.go], [scoring.go]), [Strategy]
      ([strategy.go], [types.go]): the constraint language, and the scorers
      behind the interface [Scorer] with the classes [CapacityChecked] and
      [PureScorer].  [Engine] ([engine.go], [explain.go]) and [Replica]
      ([replica.go]).
    - [Reschedule], [BlockedEvals] ([services/replicamanager/reschedule.go],
      [blocked_eval.go]).

    Tables and services on them:
    - [Capacity] ([store/store_capacity.go], [store_reservations.go],
      [store_instances.go]), [Servers] ([store_servers*.go],
      [store_state.go]): the tables, and each SQL statement as a function of
      the clock and the tables, with the constraints of [migrations].
    - [ControlPlane]: the requests of the services and the records exchanged
      with a node ([runtime/runtime.go]).  [Reservations], [Scheduler],
      [ClusterManager]: the services of these names.  [Creations]
      ([http/handlers_servers.go]): creations, deletions, power signals,
      suspensions and expiry that run at once.
    - [Evacuation], [EvacuationRules] ([services/evacuationplanner]): planning.
      [PlanRun] (the same, and [store/store_evacuation.go]): stored plans and
      their execution.
    - [Membership] ([services/clustermembership], [services/drain],
      [services/fencing], [store/store_phase6_drain.go]): nodes that join,
      leave, are drained and come back.

    Replicas:
    - [ReplicaManager] ([services/replicamanager/service.go], [commands.go],
      the passes of [blocked_eval.go], and the operations on replicas of
      [services/scheduler/service.go]): creation, deployment, scaling,
      replacement, deletion, reconciliation and retries as programs of
      requests.
    - [BeaconClient] ([beacon_client.go], [remote_dispatcher.go]): commands to
      a node behind its checks and its circuit.

    Life of a node, and jobs:
    - [Heartbeat] ([services/heartbeatmonitor], [store/store_nodes.go],
      [store_observability.go]): reports, their record, classification and
      evaluation, with the relation of what may happen between two of them.
    - [Failover] ([services/failover], [store/store_failover.go]): policies,
      incidents and actions, in several processes at once.
    - [JobQueue] ([services/queue]): the statements on jobs, workers that may
      die, cancellation and periodic jobs, as a step relation.

    Migration:
    - [Migrations] ([store/store_migrations.go]) and what its statements keep,
      [MigrationRules]; [Migration] ([services/migration/service.go]).
    - [Transfer] ([beacon/internal/transfer/protocol.go],
      [beacon/internal/server/transfer_protocol.go]), behind the interface
      [Archives]; [TransferRequests] and [TransferRules], what its handlers
      ask of a machine and refuse; [Network], control plane and machines
      together with what may go wrong; [Delivery], what the protocol delivers;
      [MigrationRun], the whole of it; [ToyArchives], an instance the examples
      compute with.

    Deployment, traffic, reconciliation:
    - [DeployStore] ([store/store_deployments.go],
      [store_deployment_steps.go], [store_deployment_revisions.go]),
      [Deployment] ([services/deployment]), [DeployRun]: a program logic for
      runs ([triple]) and the theorems.
    - [LoadBalancer] ([services/loadbalancer]); [HealthFilter], [RouteGroup],
      [Resolver] ([services/crossnode]); [HealthRunner]
      ([services/healthcheckrunner]).
    - [Reconciler] ([services/reconciler/diff.go], [drift.go],
      [snapshot.go]), differences and plans; [ReconcilerService]
      ([service.go], [trigger.go], [store/store_reconcile.go]), the passes that
      carry them out.

    The agent:
    - [TokenStore] ([beacon/internal/tokens/store.go]): one-time tickets.
      [OpQueue] ([beacon/internal/server/queue.go]): the queue of commands with
      its journal.

    A Go method on a pointer is a function from the old to the new value of
    the object; a mutex that is held for a whole method makes the method one
    step, and where the code releases it in between the steps are separate and
    other callers act between them.  A service that talks to the database and
    to nodes is a program of requests, and between two of them other programs
    act.  Functions keep their Go names; fields carry a short prefix.

    ** What is proved

    - Placement: filtering is exactly the constraint language; a placed node is
      admissible, has room and has the best score; placement fails only when no
      admissible candidate can be scored; the explanation agrees with the
      decision.  Replica placement never commits more than a node has, answers
      for every replica and prepares the working set of a reference
      definition.
    - Capacity: a reservation is granted exactly when it fits; the scheduler
      only places on a node it has read as up, admissible and with room;
      servers created by any number of concurrent requests never overcommit a
      node; a creation that is alone happens entirely or is undone, and so does
      a suspension, except where only its entry in the audit log failed.
    - Evacuation: a plan answers for every server, takes the best node that has
      room, and never gives a node more than was read of it.  Whatever
      programs execute, observe, cancel and resume it, a plan migrates servers
      only after it was claimed, once, and is only recorded as completed when
      its servers moved; it never has more migrations under way than allowed;
      a plan that is observed ends.
    - Membership: a drain asks for a plan, executes it and only then gives the
      node back, once, and announces that it is drained exactly when there was
      nothing to move or the execution was accepted.
    - Migration: the node the tables name as the owner of a server holds what
      its workload wrote last, as long as rollbacks end and the statements that
      close a run or commit the move take effect as reported; then a migration
      whose worker is not stopped is committed or closed; nothing happens on a
      machine without a credential; an upload that was cut short is delivered
      whole; the tables stay sound.
    - Deployments: an execution has exactly the effects of its plan up to the
      first failing step, whatever fails; where a health endpoint is set,
      traffic only moves after the image was applied and the endpoint answered;
      the gate passes exactly on enough
      consecutive successes; resumption runs the steps that are left; a lease
      has one holder while it lasts.
    - Request path: a target handed out is healthy; round robin is fair, its
      counter is the next index; listening sockets belong to groups; the recorded health of a backend is the
      history of its own checks; rules partition into routes whatever their
      order; resolution never invents a host and its cache stays bounded and
      fresh.
    - The agent: a ticket is spent once; an accepted command runs at most once,
      the verdict of a handler that returned in time is final, and the journal
      recovers what was pending.
    - Rescheduling and waiting: the queue of blocked evaluations refines a map;
      delays follow their policy.
    - Replicas: each replica asked for is answered for once and placed on a
      node with room; a replacement goes to such a node too; for every
      reservation of a deployment one statement that closes it is issued,
      whatever else fails; a command counts
      as delivered only when the node accepted it, once; a circuit is the
      history of its node.
    - Life of a node: a node that was down is healthy again only after enough
      reports in a row were found in the tables, and it gets there when it
      reports; the action of an incident runs at most once, whatever processes
      hear of it.
    - Jobs: while no worker outlives its lease a job has one worker, and at
      most three of its runs have an end on record; no job is stuck.
    - Reconciliation: the difference is the one action that reconciles; a pass
      in which nothing fails and no plan waits brings every server to its
      desired state, and later ones leave it alone; recovery restarts a server
      three times at most.  The status of a target that a process has not seen
      before is a function of the results of its checks.

    Where the code does not do what its comments say, a lemma shows the
    behaviour on a concrete input ([failed_gate_promoted_on_resume],
    [cleanup_deletes_the_new_owner], [cpu_limit_overcommits],
    [replica_reservation_refused], [cancelled_job_runs_again],
    [drained_before_the_servers_moved], [stale_plan_never_expires],
    [answering_target_restarts_its_server], [unlogged_suspension_sticks],
    [panicked_drain_keeps_the_node] and others).

    ** Assumptions, bounds and fuel

    A statement of the database runs whole, and the capacity check and the
    insertion of a reservation see one state of the tables; it may fail, before
    or after it took effect.  Methods of the store that change a row and then
    enter the change in a log ([Servers.then_enter]) may fail in the second
    statement alone.  Ids that are generated are fresh.

    During a migration nobody starts its server, or changes its data other than
    by its workload; one worker of a migration runs at a time and one handler of
    it per node.  The code ignores the errors of the statements that close a
    run, and a rollback can be cut short: [Network.system_step] has the one and
    [MigrationRun.evolves] the other, and a history is marked
    ([Network.marked_step]) from the moment it happens; nothing is claimed of
    the data after that.  The repeated cleanup, which is wrong
    ([cleanup_deletes_the_new_owner]), is left out.

    The theorems on creations that are undone, on suspensions and on the
    convergence of the reconciler are about programs that are alone with the
    tables; a context that expires during a creation is left out.  Evaluations
    of nodes and sweeps over all nodes follow one another.  The theorem on
    incidents has the clocks of the processes differ by at most a bound, and the
    one on workers that none outlives the lease it holds: the code extends
    leases but does not check them.  In the fleet in which the reconciler
    converges ([ReconcilerService.rc_serve]) a command takes effect at once,
    also on a node that is not operable.

    Recursions are structural or carry a bound that is proved enough:
    [try_candidates] has the number of its scores, the loops of
    [container/heap] the length of the array, an upload the four attempts of
    the code.  [gate_ticks] is the number of ticks the health gate's ticker
    wins against its deadline, an arbitrary number.  64-bit integers wrap where
    the code computes with them, columns hold four bytes; theorems that need a
    sum to fit say so.  Floats are binary64 with round to nearest even;
    [Reschedule] takes Go's implementation-specific conversion of an
    out-of-range float to [int64] as a parameter.  Databases, executors, HTTP
    and clocks are arguments or answers, and the theorems hold for all of them
    unless a hypothesis says otherwise.

    ** What is not modelled

    Listings and joins of the store that no modelled service uses; HTTP
    handlers other than the creation of servers; recovery of nodes that are
    lost; generators of gateway configuration; the agent's
    supervision of containers, its files and backups other than the transfer;
    the sessions of the UDP proxy and connections that are being proxied; panics
    other than those the theorems name;
    authentication; clients of clouds, registries, DNS, ACME and third
    parties; and the web interface.  They are database and network glue
    around small decisions, or code outside Go. *)
From Stdlib Require Import ZArith Lia.
From stdpp Require Import base gmap strings list fin_maps.

#[global] Open Scope Z_scope.

Declare Scope go_scope.
Delimit Scope go_scope with go.

(** ** Outcomes of a Go call

    A Go function that returns [(T, error)] returns [Ok t] when the error is
    nil and [Err msg] otherwise, [msg] being [err.Error()]. *)
Inductive result (A : Type) : Type :=
| Ok (a : A)
| Err (msg : string).
Arguments Ok {A} a.
Arguments Err {A} msg.

(** A call that may also panic (an index out of range, a division by zero). *)
Inductive outcome (A : Type) : Type :=
| Returns (a : A)
| Panics.
Arguments Returns {A} a.
Arguments Panics {A}.

(** The rest of a call after a part that may panic. *)
Definition obind {A B} (m : outcome A) (k : A -> outcome B) : outcome B :=
  match m with Returns a => k a | Panics => Panics end.

Notation "'let*' x := m 'in' k" := (obind m (fun x => k))
  (at level 200, x binder, m at level 200, k at level 200, only parsing) : go_scope.

(** A bare [error] value: [None] is nil. *)
Abbreviation error := (option string) (only parsing).

Definition is_ok {A} (r : result A) : bool :=
  match r with Ok _ => true | _ => false end.

Definition from_ok {A} (d : A) (r : result A) : A :=
  match r with Ok a => a | _ => d end.

#[export] Instance result_eq_dec `{EqDecision A} : EqDecision (result A).
Proof. solve_decision. Defined.

(** ** A state monad for code that threads the world through calls *)
Definition St (S A : Type) : Type := S -> A * S.

Definition ret {S A} (a : A) : St S A := fun s => (a, s).

Definition bind {S A B} (m : St S A) (k : A -> St S B) : St S B :=
  fun s => let '(a, s') := m s in k a s'.

Notation "'let!' x := m 'in' k" := (bind m (fun x => k))
  (at level 200, x binder, m at level 200, k at level 200, only parsing) : go_scope.
Notation "m ;;; k" := (bind m (fun _ => k))
  (at level 100, k at level 200, right associativity, only parsing) : go_scope.

Lemma bind_ret_l {S A B} (a : A) (k : A -> St S B) s : bind (ret a) k s = k a s.
Proof. reflexivity. Qed.

Lemma bind_eq {S A B} (m : St S A) (k : A -> St S B) s a s' :
  m s = (a, s') -> bind m k s = k a s'.
Proof. unfold bind. intros ->. reflexivity. Qed.

(** ** Machine integers

    Go's [int] and [int64] on the 64-bit targets the program ships for. *)
Definition min64 : Z := -9223372036854775808.
Definition max64 : Z := 9223372036854775807.

Definition in64 (z : Z) : Prop := min64 <= z <= max64.

Definition wrap64 (z : Z) : Z :=
  (z + 9223372036854775808) mod 18446744073709551616 - 9223372036854775808.

Definition iadd (a b : Z) : Z := wrap64 (a + b).
Definition isub (a b : Z) : Z := wrap64 (a - b).
Definition imul (a b : Z) : Z := wrap64 (a * b).
(** Division truncates toward zero; the caller rules out a zero divisor. *)
Definition idiv (a b : Z) : Z := wrap64 (Z.quot a b).

Infix "+i" := iadd (at level 50, left associativity) : go_scope.
Infix "-i" := isub (at level 50, left associativity) : go_scope.
Infix "*i" := imul (at level 40, left associativity) : go_scope.

Lemma wrap64_in64 z : in64 (wrap64 z).
Proof.
  unfold in64, wrap64, min64, max64.
  pose proof (Z.mod_pos_bound (z + 9223372036854775808) 18446744073709551616). lia.
Qed.

Lemma wrap64_id z : in64 z -> wrap64 z = z.
Proof. unfold in64, wrap64, min64, max64. intros H. rewrite Z.mod_small; lia. Qed.

Lemma iadd_exact a b : in64 (a + b) -> iadd a b = a + b.
Proof. apply wrap64_id. Qed.

Lemma isub_exact a b : in64 (a - b) -> isub a b = a - b.
Proof. apply wrap64_id. Qed.

Lemma imul_exact a b : in64 (a * b) -> imul a b = a * b.
Proof. apply wrap64_id. Qed.

Lemma wrap64_cong a b : (a - b) mod 18446744073709551616 = 0 -> wrap64 a = wrap64 b.
Proof.
  unfold wrap64. intros H. f_equal.
  apply Z.mod_divide in H as [k Hk]; [|lia].
  replace (a + 9223372036854775808) with (b + 9223372036854775808 + k * 18446744073709551616) by lia.
  apply Z_mod_plus_full.
Qed.

Lemma wrap64_shift z : exists k, wrap64 z = z + k * 18446744073709551616.
Proof.
  unfold wrap64. exists (- ((z + 9223372036854775808) / 18446744073709551616)).
  pose proof (Z.div_mod (z + 9223372036854775808) 18446744073709551616). lia.
Qed.

(** ** Time

    A [time.Time] is an instant in nanoseconds (Go's range of instants is far
    wider than 64 bits of nanoseconds, so instants are unbounded integers); a
    [time.Duration] is an int64 of nanoseconds.  [Sub] saturates. *)
Abbreviation Time := Z (only parsing).
Abbreviation Duration := Z (only parsing).

Definition Second : Duration := 1000000000.
Definition Minute : Duration := 60 * Second.
Definition Hour : Duration := 60 * Minute.

(** The zero [time.Time]: January 1, year 1 UTC. *)
Definition zeroTime : Time := -62135596800 * Second.

Definition time_add (t : Time) (d : Duration) : Time := t + d.
Definition time_sub (a b : Time) : Duration := Z.max min64 (Z.min max64 (a - b)).
Definition Before (a b : Time) : bool := a <? b.
Definition After (a b : Time) : bool := b <? a.

(** ** Generic lemmas and automation *)

(** Turns boolean integer comparisons of the context and the goal into
    propositions [lia] reads. *)
Ltac zb :=
  repeat match goal with
  | H : context [Before _ _] |- _ => unfold Before in H
  | H : context [After _ _] |- _ => unfold After in H
  | |- context [Before _ _] => unfold Before
  | |- context [After _ _] => unfold After
  | H : (_ && _)%bool = true |- _ => apply andb_prop in H as [? ?]
  | H : (_ || _)%bool = false |- _ => apply orb_false_elim in H as [? ?]
  | H : negb _ = true |- _ => apply negb_true_iff in H
  | H : negb _ = false |- _ => apply negb_false_iff in H
  | H : (_ <? _) = true |- _ => apply Z.ltb_lt in H
  | H : (_ <? _) = false |- _ => apply Z.ltb_ge in H
  | H : (_ <=? _) = true |- _ => apply Z.leb_le in H
  | H : (_ <=? _) = false |- _ => apply Z.leb_gt in H
  | H : (_ =? _) = true |- _ => apply Z.eqb_eq in H
  | H : (_ =? _) = false |- _ => apply Z.eqb_neq in H
  | H : (_ >? _) = _ |- _ => rewrite Z.gtb_ltb in H
  | H : (_ >=? _) = _ |- _ => rewrite Z.geb_leb in H
  | |- (_ <? _) = true => apply Z.ltb_lt
  | |- (_ <? _) = false => apply Z.ltb_ge
  | |- (_ <=? _) = true => apply Z.leb_le
  | |- (_ <=? _) = false => apply Z.leb_gt
  | |- (_ =? _) = true => apply Z.eqb_eq
  | |- (_ =? _) = false => apply Z.eqb_neq
  end.

(** Case analysis on every [if] and [match] scrutinee of the goal. *)
Ltac split_ifs := repeat (case_match; try done).

(** Splits the string tests a Go [switch] on a string turns into. *)
Ltac seqb :=
  repeat match goal with
  | H : (_ =? _)%string = true |- _ => apply String.eqb_eq in H
  | H : (_ =? _)%string = false |- _ => apply String.eqb_neq in H
  end.

Create HintDb go.
Create Rewrite HintDb go.
#[export] Hint Resolve wrap64_in64 : go.
#[export] Hint Rewrite @bind_ret_l : go.

(** [slices.Contains] on a slice of strings. *)
Definition slices_contains (l : list string) (x : string) : bool :=
  existsb (String.eqb x) l.

Lemma slices_contains_spec l x : slices_contains l x = true <-> x ∈ l.
Proof.
  unfold slices_contains. rewrite existsb_exists, list_elem_of_In. split.
  - intros (y & Hy & ->%String.eqb_eq). done.
  - intros H. exists x. by rewrite String.eqb_refl.
Qed.

Lemma slices_contains_false l x : slices_contains l x = false <-> x ∉ l.
Proof. rewrite <- slices_contains_spec. by destruct (slices_contains l x). Qed.

(** The value Go reads from a map with string keys and an int (or counter)
    value: a missing key reads as zero. *)
Definition zget (m : gmap string Z) (k : string) : Z := default 0 (m !! k).

Lemma zget_insert_eq m k v : zget (<[k := v]> m) k = v.
Proof. unfold zget. by rewrite lookup_insert_eq. Qed.

Lemma zget_insert_ne m k k' v : k <> k' -> zget (<[k := v]> m) k' = zget m k'.
Proof. intros H. unfold zget. by rewrite lookup_insert_ne. Qed.

#[export] Hint Rewrite zget_insert_eq : go.
#[export] Hint Rewrite zget_insert_ne using done : go.

(** Sum of an integer measure over a list. *)
Definition sum_by {A} (f : A -> Z) (l : list A) : Z := foldr (fun a acc => f a + acc) 0 l.

Lemma sum_by_app {A} (f : A -> Z) l1 l2 : sum_by f (l1 ++ l2) = sum_by f l1 + sum_by f l2.
Proof. induction l1 as [|a l1 IH]; simpl; [done|]. rewrite IH. lia. Qed.

Lemma sum_by_perm {A} (f : A -> Z) l1 l2 : l1 ≡ₚ l2 -> sum_by f l1 = sum_by f l2.
Proof. induction 1; simpl; lia. Qed.

Lemma sum_by_nonneg {A} (f : A -> Z) l : (forall a, a ∈ l -> 0 <= f a) -> 0 <= sum_by f l.
Proof.
  induction l as [|a l IH]; intros H; simpl; [done|].
  pose proof (H a ltac:(left)). pose proof (IH ltac:(intros; apply H; by right)). lia.
Qed.

Lemma sum_by_ext {A} (f g : A -> Z) l :
  (forall a, a ∈ l -> f a = g a) -> sum_by f l = sum_by g l.
Proof.
  induction l as [|a l IH]; intros H; simpl; [done|].
  rewrite (H a ltac:(left)), IH; [done|]. intros; apply H; by right.
Qed.

(** Elements of a list with distinct keys are determined by their key. *)
Lemma NoDup_map_inj {A B} (f : A -> B) l a b :
  NoDup (map f l) -> a ∈ l -> b ∈ l -> f a = f b -> a = b.
Proof.
  intros Hnd [i Hi]%list_elem_of_lookup [j Hj]%list_elem_of_lookup E.
  assert (i = j) as ->; [|congruence].
  apply (NoDup_lookup (map f l) i j (f b)); [done|..];
    rewrite list_lookup_fmap, ?Hi, ?Hj; simpl; congruence.
Qed.
