(* ===== verification/GoStrings.v ===== *)
(** * Go strings and formatting

    The functions of [strings], [strconv] and [fmt] the modelled code calls,
    as executable definitions on byte strings.  Case mapping, white space and
    quoting are those of Go on ASCII bytes; a byte above 127 is left as it is
    (Go additionally maps some non-ASCII letters and spaces). *)
From Stdlib Require Import ZArith Lia Ascii DecimalString DecimalZ.
From stdpp Require Import base strings list.
From S2P Require Import Prelude.
#[local] Open Scope string_scope.

(** ** [strings.TrimSpace], [strings.ToLower], [strings.EqualFold] *)
Definition is_space (c : ascii) : bool :=
  match N_of_ascii c with
  | 9%N | 10%N | 11%N | 12%N | 13%N | 32%N => true
  | _ => false
  end.

Definition lower_ascii (c : ascii) : ascii :=
  let n := N_of_ascii c in
  if ((65 <=? n) && (n <=? 90))%N then ascii_of_N (n + 32) else c.

Fixpoint ToLower (s : string) : string :=
  match s with
  | EmptyString => EmptyString
  | String c r => String (lower_ascii c) (ToLower r)
  end.

Fixpoint trim_left (s : string) : string :=
  match s with
  | EmptyString => EmptyString
  | String c r => if is_space c then trim_left r else s
  end.

Fixpoint trim_right (s : string) : string :=
  match s with
  | EmptyString => EmptyString
  | String c r =>
      match trim_right r with
      | EmptyString => if is_space c then EmptyString else String c EmptyString
      | r' => String c r'
      end
  end.

Definition TrimSpace (s : string) : string := trim_right (trim_left s).

Definition EqualFold (a b : string) : bool := (ToLower a =? ToLower b)%string.

(** Go's [<] on strings: byte-wise lexicographic. *)
Definition str_lt (a b : string) : bool := String.ltb a b.

(** ** Formatting verbs *)

(** [strconv.Itoa] and [%d]. *)
Definition itoa (z : Z) : string := NilZero.string_of_int (Z.to_int z).

(** [strconv.Atoi]: an optional sign and decimal digits that fit an int64. *)
Fixpoint atoi_digits (s : string) (acc : Z) : option Z :=
  match s with
  | EmptyString => Some acc
  | String c r =>
      let n := Z.of_N (N_of_ascii c) in
      if ((48 <=? n) && (n <=? 57))%Z then atoi_digits r (10 * acc + (n - 48)) else None
  end.

Definition Atoi (s : string) : option Z :=
  let '(neg, digits) :=
    match s with
    | String "-" r => (true, r)
    | String "+" r => (false, r)
    | _ => (false, s)
    end in
  match digits with
  | EmptyString => None
  | _ =>
      match atoi_digits digits 0 with
      | Some v =>
          let z := (if neg then - v else v)%Z in
          if ((min64 <=? z) && (z <=? max64))%Z then Some z else None
      | None => None
      end
  end.

Example ex_atoi : map Atoi ["30000"; "-7"; "+5"; ""; "1x"; "9223372036854775808"]%list
  = [Some 30000; Some (-7); Some 5; None; None; None]%list.
Proof. vm_compute. reflexivity. Qed.

(** [%q] on a string of ASCII bytes. *)
Definition hex_digit (n : N) : ascii :=
  if (n <? 10)%N then ascii_of_N (n + 48) else ascii_of_N (n + 87).

Definition dquote : string := String (ascii_of_N 34) EmptyString.

Definition quote_byte (c : ascii) : string :=
  match N_of_ascii c with
  | 7%N => "\a" | 8%N => "\b" | 9%N => "\t" | 10%N => "\n"
  | 11%N => "\v" | 12%N => "\f" | 13%N => "\r" | 92%N => "\\"
  | 34%N => "\" ++ dquote
  | n => if ((n <? 32) || (n =? 127))%N
         then "\x" ++ String (hex_digit (n / 16)) (String (hex_digit (n mod 16)) EmptyString)
         else String c EmptyString
  end.

Fixpoint quote_body (s : string) : string :=
  match s with
  | EmptyString => EmptyString
  | String c r => quote_byte c ++ quote_body r
  end.

Definition quote (s : string) : string := dquote ++ quote_body s ++ dquote.

(** [strings.Join] and the [%v] of a slice of strings. *)
Definition Join (l : list string) (sep : string) : string := String.concat sep l.
Definition fmt_strings (l : list string) : string := "[" ++ Join l " " ++ "]".

(** ** Lemmas *)

Lemma str_app_cons c a b : String c a ++ b = String c (a ++ b).
Proof. reflexivity. Qed.

Lemma str_app_nil a : EmptyString ++ a = a.
Proof. reflexivity. Qed.

Lemma string_app_empty_r (s : string) : s ++ "" = s.
Proof. induction s as [|c s IH]; [done | by rewrite str_app_cons, IH]. Qed.

Lemma string_app_assoc (a b c : string) : (a ++ b) ++ c = a ++ (b ++ c).
Proof. induction a as [|x a IH]; [done | by rewrite !str_app_cons, IH]. Qed.

Lemma string_app_inj_l (p a b : string) : p ++ a = p ++ b -> a = b.
Proof. induction p as [|c p IH]; [done|]. rewrite !str_app_cons. intros [= H]. auto. Qed.

Lemma lower_ascii_idem c : lower_ascii (lower_ascii c) = lower_ascii c.
Proof. destruct c as [[] [] [] [] [] [] [] []]; vm_compute; reflexivity. Qed.

Lemma is_space_lower c : is_space (lower_ascii c) = is_space c.
Proof. destruct c as [[] [] [] [] [] [] [] []]; vm_compute; reflexivity. Qed.

Lemma ToLower_idem s : ToLower (ToLower s) = ToLower s.
Proof. induction s as [|c s IH]; simpl; [done|]. by rewrite lower_ascii_idem, IH. Qed.

Lemma trim_left_lower s : trim_left (ToLower s) = ToLower (trim_left s).
Proof.
  induction s as [|c s IH]; simpl; [done|].
  rewrite is_space_lower. by destruct (is_space c).
Qed.

Lemma trim_right_lower s : trim_right (ToLower s) = ToLower (trim_right s).
Proof.
  induction s as [|c s IH]; simpl; [done|].
  rewrite IH, is_space_lower. destruct (trim_right s); simpl; [|done].
  by destruct (is_space c).
Qed.

Lemma TrimSpace_lower s : TrimSpace (ToLower s) = ToLower (TrimSpace s).
Proof. unfold TrimSpace. by rewrite trim_left_lower, trim_right_lower. Qed.

Lemma trim_right_idem s : trim_right (trim_right s) = trim_right s.
Proof.
  induction s as [|c s IH]; simpl; [done|].
  destruct (trim_right s) as [|c' s'] eqn:E.
  - destruct (is_space c) eqn:Ec; [done|]. simpl. by rewrite Ec.
  - change (trim_right (String c (String c' s'))) with
      (match trim_right (String c' s') with
       | EmptyString => if is_space c then EmptyString else String c EmptyString
       | r' => String c r' end).
    by rewrite IH.
Qed.

Lemma trim_left_head s c r : trim_left s = String c r -> is_space c = false.
Proof.
  induction s as [|c' s IH]; simpl; [done|].
  destruct (is_space c') eqn:E; [done|]. by intros [= <- <-].
Qed.

Lemma trim_left_nonspace c r : is_space c = false -> trim_left (String c r) = String c r.
Proof. simpl. by intros ->. Qed.

Lemma trim_right_head c r :
  is_space c = false -> exists r', trim_right (String c r) = String c r'.
Proof. simpl. intros Hc. destruct (trim_right r); rewrite ?Hc; eauto. Qed.

Lemma TrimSpace_idem s : TrimSpace (TrimSpace s) = TrimSpace s.
Proof.
  unfold TrimSpace. destruct (trim_left s) as [|c r] eqn:E; [done|].
  pose proof (trim_left_head _ _ _ E) as Hc.
  destruct (trim_right_head c r Hc) as [r' Hr]. rewrite Hr.
  rewrite trim_left_nonspace by done. rewrite <- Hr. apply trim_right_idem.
Qed.

Lemma EqualFold_refl a : EqualFold a a = true.
Proof. apply String.eqb_refl. Qed.

Lemma EqualFold_sym a b : EqualFold a b = EqualFold b a.
Proof. unfold EqualFold. apply String.eqb_sym. Qed.

(** *** [itoa] is injective and never prints a colon *)
Lemma string_of_uint_inj d1 d2 :
  NilZero.string_of_uint d1 = NilZero.string_of_uint d2 ->
  d1 <> Decimal.Nil -> d2 <> Decimal.Nil -> d1 = d2.
Proof.
  intros H H1 H2. apply (f_equal NilZero.uint_of_string) in H.
  rewrite !NilZero.usu in H by done. congruence.
Qed.

Lemma to_int_not_nil z :
  match Z.to_int z with Decimal.Pos d => d | Decimal.Neg d => d end <> Decimal.Nil.
Proof.
  destruct z as [|p|p]; simpl; [done| |]; apply DecimalPos.Unsigned.to_uint_nonnil.
Qed.

Lemma itoa_inj a b : itoa a = itoa b -> a = b.
Proof.
  unfold itoa. intros H. apply (f_equal NilZero.int_of_string) in H.
  pose proof (to_int_not_nil a) as Ha. pose proof (to_int_not_nil b) as Hb.
  assert (Hi : forall d, match d with Decimal.Pos d => d | Decimal.Neg d => d end <> Decimal.Nil ->
               NilZero.int_of_string (NilZero.string_of_int d) = Some d).
  { intros d Hd. apply NilZero.isi; destruct d; simpl in *; congruence. }
  rewrite !Hi in H by done. injection H as H. by apply DecimalZ.to_int_inj.
Qed.

(** Whether a byte occurs in a string. *)
Fixpoint has_byte (c : ascii) (s : string) : bool :=
  match s with
  | EmptyString => false
  | String c' r => Ascii.eqb c c' || has_byte c r
  end.

Lemma string_of_uint_no_byte c d :
  (N_of_ascii c < 48 \/ 57 < N_of_ascii c)%N -> has_byte c (NilEmpty.string_of_uint d) = false.
Proof.
  intros Hc. induction d; simpl; try done; rewrite IHd, orb_false_r;
    apply Ascii.eqb_neq; intros ->; compute in Hc; destruct Hc; discriminate.
Qed.

Lemma itoa_no_colon z : has_byte ":" (itoa z) = false.
Proof.
  unfold itoa. assert (Hc : (N_of_ascii ":" < 48 \/ 57 < N_of_ascii ":")%N) by (right; reflexivity).
  destruct (Z.to_int z) as [d|d]; simpl; destruct d; try done;
    apply (string_of_uint_no_byte ":"%char _ Hc).
Qed.

(** The text before the last occurrence of a separator is determined when the
    text after it cannot contain the separator. *)
Lemma sep_suffix_inj c s1 s2 t1 t2 :
  has_byte c t1 = false -> has_byte c t2 = false ->
  s1 ++ String c t1 = s2 ++ String c t2 -> s1 = s2 /\ t1 = t2.
Proof.
  revert s2. induction s1 as [|x s1 IH]; intros [|y s2] H1 H2;
    rewrite ?str_app_cons, ?str_app_nil; intros E.
  - by injection E.
  - injection E as -> ->. exfalso. revert H1. clear.
    induction s2 as [|z s2 IH]; rewrite ?str_app_cons; simpl; [by rewrite Ascii.eqb_refl|].
    intros [_ H]%orb_false_elim. auto.
  - injection E as -> <-. exfalso. revert H2. clear.
    induction s1 as [|z s1 IH]; rewrite ?str_app_cons; simpl; [by rewrite Ascii.eqb_refl|].
    intros [_ H]%orb_false_elim. auto.
  - injection E as -> E. destruct (IH s2 H1 H2 E) as [-> ->]. done.
Qed.

(** *** Order on strings *)
Lemma ascii_compare_lt_trans a b c :
  Ascii.compare a b = Lt -> Ascii.compare b c = Lt -> Ascii.compare a c = Lt.
Proof. unfold Ascii.compare. rewrite !N.compare_lt_iff. lia. Qed.

Lemma ascii_compare_refl a : Ascii.compare a a = Eq.
Proof. apply N.compare_refl. Qed.

Lemma str_compare_lt_trans a b c :
  String.compare a b = Lt -> String.compare b c = Lt -> String.compare a c = Lt.
Proof.
  revert b c. induction a as [|x a IH]; intros [|y b] [|z c]; simpl; try done.
  destruct (Ascii.compare x y) eqn:E1; [|  |done].
  - apply Ascii.compare_eq_iff in E1 as ->.
    destruct (Ascii.compare y z); [apply IH|done|done].
  - intros _. destruct (Ascii.compare y z) eqn:E2; [| |done].
    + apply Ascii.compare_eq_iff in E2 as <-. by rewrite E1.
    + by rewrite (ascii_compare_lt_trans _ _ _ E1 E2).
Qed.

Lemma str_compare_refl s : String.compare s s = Eq.
Proof. induction s as [|c s IH]; simpl; [done|]. by rewrite ascii_compare_refl. Qed.

Lemma str_lt_compare a b : str_lt a b = true <-> String.compare a b = Lt.
Proof. unfold str_lt, String.ltb. by destruct (String.compare a b). Qed.

Lemma str_lt_irrefl s : str_lt s s = false.
Proof. unfold str_lt, String.ltb. by rewrite str_compare_refl. Qed.

Lemma str_lt_trans a b c : str_lt a b = true -> str_lt b c = true -> str_lt a c = true.
Proof. rewrite !str_lt_compare. apply str_compare_lt_trans. Qed.

Lemma str_lt_asym a b : str_lt a b = true -> str_lt b a = false.
Proof.
  intros H. destruct (str_lt b a) eqn:E; [|done].
  pose proof (str_lt_trans _ _ _ H E) as F. by rewrite str_lt_irrefl in F.
Qed.

Lemma str_lt_total a b : str_lt a b = false -> str_lt b a = false -> a = b.
Proof.
  unfold str_lt, String.ltb. rewrite (String.compare_antisym b a).
  destruct (String.compare a b) eqn:E; simpl; try done.
  intros _ _. by apply String.compare_eq_iff.
Qed.

(** Negative transitivity: [>=] is transitive. *)
Lemma str_lt_ntrans a b c : str_lt b a = false -> str_lt c b = false -> str_lt c a = false.
Proof.
  intros H1 H2. destruct (str_lt c a) eqn:E; [|done]. exfalso.
  destruct (str_lt a b) eqn:E1.
  - pose proof (str_lt_trans _ _ _ E E1). congruence.
  - pose proof (str_lt_total _ _ E1 H1) as ->. congruence.
Qed.

(** Concatenation of the pieces of a format string. *)
Definition cat (l : list string) : string := foldr String.append EmptyString l.

(** [strings.HasPrefix] and [strings.HasSuffix]. *)
Definition HasPrefix (s p : string) : bool := String.prefix p s.

Definition HasSuffix (s p : string) : bool :=
  let n := String.length s in
  let k := String.length p in
  (k <=? n)%nat && (String.substring (n - k) k s =? p)%string.

(** [strings.Index]: the position of the first occurrence. *)
Definition Index (s sub : string) : option nat := String.index 0 sub s.

Definition Contains (s sub : string) : bool :=
  match Index s sub with Some _ => true | None => false end.

(** [strings.LastIndex] of a one-byte string. *)
Fixpoint LastIndexByte (c : ascii) (s : string) : option nat :=
  match s with
  | EmptyString => None
  | String a r =>
      match LastIndexByte c r with
      | Some i => Some (S i)
      | None => if (a =? c)%char then Some O else None
      end
  end.

(** [s[:n]] and [s[n:]]. *)
Definition str_take (n : nat) (s : string) : string := String.substring 0 n s.
Definition str_drop (n : nat) (s : string) : string := String.substring n (String.length s - n) s.

Definition TrimSuffix (s p : string) : string :=
  if HasSuffix s p then str_take (String.length s - String.length p) s else s.
