(* ===== verification/GoFloat.v ===== *)
(** * Go's [float64]

    IEEE 754 binary64 with round to nearest even, by the executable
    specification of the Standard Library ([SpecFloat], precision 53, maximal
    exponent 1024).  Every Go operation is one correctly rounded operation:
    the model is that of a target on which the compiler does not fuse a
    multiplication and an addition (amd64). *)
From Stdlib Require Import ZArith Lia SpecFloat.
From stdpp Require Import base strings list.
From S2P Require Import Prelude GoStrings.

Abbreviation float := spec_float.

#[export] Instance float_eq_dec : EqDecision spec_float.
Proof. solve_decision. Defined.

Definition fadd (a b : float) : float := SFadd 53 1024 a b.
Definition fsub (a b : float) : float := SFsub 53 1024 a b.
Definition fmul (a b : float) : float := SFmul 53 1024 a b.
Definition fdiv (a b : float) : float := SFdiv 53 1024 a b.

(** The conversion [float64(n)] of an integer. *)
Definition of_int (z : Z) : float := binary_normalize 53 1024 z 0 false.

(** A decimal constant [n / d]: the nearest float64, as the compiler rounds
    an untyped constant. *)
Definition ratio (n d : Z) : float := fdiv (of_int n) (of_int d).

Definition f0 : float := S754_zero false.
Definition f1 : float := of_int 1.

Definition flt (a b : float) : bool := SFltb a b.
Definition fle (a b : float) : bool := SFleb a b.
Definition feq (a b : float) : bool := SFeqb a b.

Definition is_nan (a : float) : bool :=
  match a with S754_nan => true | _ => false end.

Definition signbit (a : float) : bool :=
  match a with
  | S754_zero s | S754_infinity s | S754_finite s _ _ => s
  | S754_nan => false
  end.

(** [math.Max] *)
Definition fmax (x y : float) : float :=
  match x, y with
  | S754_infinity false, _ | _, S754_infinity false => S754_infinity false
  | S754_nan, _ | _, S754_nan => S754_nan
  | S754_zero s, S754_zero _ => if s then y else x
  | _, _ => if flt y x then x else y
  end.

(** [math.Round]: half away from zero. *)
Definition fround (x : float) : float :=
  match x with
  | S754_finite s m e =>
      if 0 <=? e then x
      else
        let d := 2 ^ (- e) in
        let q := Z.pos m / d in
        let r := Z.pos m mod d in
        let n := if d <=? 2 * r then q + 1 else q in
        if n =? 0 then S754_zero s
        else if s then SFopp (of_int n) else of_int n
  | _ => x
  end.

(** [math.Pow(2, k)] for an integral [k]. *)
Definition fpow2 (k : Z) : float := SFldexp 53 1024 f1 k.

(** The conversion of a float64 to an int64: truncation toward zero.  A value
    that does not fit is implementation-dependent in Go: [oor] is the
    platform's answer. *)
Definition ftrunc (x : float) : option Z :=
  match x with
  | S754_zero _ => Some 0
  | S754_finite s m e =>
      let v := if 0 <=? e then Z.pos m * 2 ^ e else Z.pos m / 2 ^ (- e) in
      Some (if s then - v else v)
  | _ => None
  end.

Definition to_int64 (oor : float -> Z) (x : float) : Z :=
  match ftrunc x with
  | Some z => if (min64 <=? z) && (z <=? max64) then z else oor x
  | None => oor x
  end.

(** amd64: every value that does not fit converts to the least int64. *)
Definition oor_amd64 (_ : float) : Z := min64.

(** ** [%.Nf] formatting: the exact value rounded half to even *)
Fixpoint pad_zeros (n : nat) : string :=
  match n with O => EmptyString | S n' => String (Ascii.ascii_of_nat 48) (pad_zeros n') end.

Definition frac_digits (prec : nat) (z : Z) : string :=
  let s := itoa z in
  (pad_zeros (prec - String.length s) ++ s)%string.

Definition fmt_scaled (neg : bool) (prec : nat) (z : Z) : string :=
  let p := 10 ^ Z.of_nat prec in
  ((if neg then "-" else "") ++ itoa (z / p) ++
   match prec with O => "" | _ => "." ++ frac_digits prec (z mod p) end)%string.

Definition fmt_fixed (prec : nat) (x : float) : string :=
  match x with
  | S754_nan => "NaN"%string
  | S754_infinity s => (if s then "-Inf" else "+Inf")%string
  | S754_zero s => fmt_scaled s prec 0
  | S754_finite s m e =>
      let n := Z.pos m * 10 ^ Z.of_nat prec in
      if 0 <=? e then fmt_scaled s prec (n * 2 ^ e)
      else
        let d := 2 ^ (- e) in
        let q := n / d in
        let r := n mod d in
        fmt_scaled s prec
          (match 2 * r ?= d with
           | Lt => q
           | Gt => q + 1
           | Eq => if Z.even q then q else q + 1
           end)
  end.

Example ex_half_even : fmt_fixed 0 (ratio 5 2) = "2"%string.
Proof. vm_compute. reflexivity. Qed.
Example ex_third : fmt_fixed 3 (ratio 1 3) = "0.333"%string.
Proof. vm_compute. reflexivity. Qed.
Example ex_small : fmt_fixed 3 (ratio 1 200) = "0.005"%string.
Proof. vm_compute. reflexivity. Qed.
Example ex_round : fround (ratio 5 2) = of_int 3.
Proof. vm_compute. reflexivity. Qed.

(** ** The order of floats that are not NaN

    [fkey] maps a float to a triple whose lexicographic order is the order of
    the floats. *)
Definition fkey (x : float) : Z * Z * Z :=
  match x with
  | S754_infinity true => (-2, 0, 0)
  | S754_finite true m e => (-1, - e, - Z.pos m)
  | S754_zero _ => (0, 0, 0)
  | S754_finite false m e => (1, e, Z.pos m)
  | S754_infinity false => (2, 0, 0)
  | S754_nan => (3, 0, 0)
  end.

Definition lex3 (a b : Z * Z * Z) : comparison :=
  let '(a1, a2, a3) := a in
  let '(b1, b2, b3) := b in
  match a1 ?= b1 with
  | Eq => match a2 ?= b2 with Eq => a3 ?= b3 | c => c end
  | c => c
  end.

Lemma SFcompare_key a b :
  is_nan a = false -> is_nan b = false -> SFcompare a b = Some (lex3 (fkey a) (fkey b)).
Proof.
  destruct a as [sa|[]| |[] ma ea], b as [sb|[]| |[] mb eb]; simpl; try done; intros _ _.
  rewrite !Z.compare_opp, (Z.compare_antisym ea eb).
  by destruct (ea ?= eb).
Qed.

Lemma lex3_refl a : lex3 a a = Eq.
Proof. destruct a as [[a1 a2] a3]. simpl. by rewrite !Z.compare_refl. Qed.

Lemma lex3_lt a1 a2 a3 b1 b2 b3 :
  lex3 (a1, a2, a3) (b1, b2, b3) = Lt <->
  a1 < b1 \/ (a1 = b1 /\ (a2 < b2 \/ (a2 = b2 /\ a3 < b3))).
Proof.
  simpl. destruct (Z.compare_spec a1 b1), (Z.compare_spec a2 b2), (Z.compare_spec a3 b3);
    split; intros; try done; lia.
Qed.

Lemma lex3_eq a b : lex3 a b = Eq -> a = b.
Proof.
  destruct a as [[a1 a2] a3], b as [[b1 b2] b3]. simpl.
  destruct (Z.compare_spec a1 b1), (Z.compare_spec a2 b2), (Z.compare_spec a3 b3); congruence.
Qed.

Lemma lex3_antisym a b : lex3 b a = CompOpp (lex3 a b).
Proof.
  destruct a as [[a1 a2] a3], b as [[b1 b2] b3]. simpl.
  rewrite (Z.compare_antisym a1 b1), (Z.compare_antisym a2 b2), (Z.compare_antisym a3 b3).
  destruct (a1 ?= b1), (a2 ?= b2), (a3 ?= b3); reflexivity.
Qed.

Lemma lex3_trans a b c : lex3 a b = Lt -> lex3 b c = Lt -> lex3 a c = Lt.
Proof.
  destruct a as [[a1 a2] a3], b as [[b1 b2] b3], c as [[c1 c2] c3].
  rewrite !lex3_lt. lia.
Qed.

Lemma flt_key a b :
  is_nan a = false -> is_nan b = false -> flt a b = true <-> lex3 (fkey a) (fkey b) = Lt.
Proof.
  intros Ha Hb. unfold flt, SFltb. rewrite SFcompare_key by done.
  by destruct (lex3 (fkey a) (fkey b)).
Qed.

Lemma feq_key a b :
  is_nan a = false -> is_nan b = false -> feq a b = true <-> fkey a = fkey b.
Proof.
  intros Ha Hb. unfold feq, SFeqb. rewrite SFcompare_key by done. split.
  - intros H. apply lex3_eq. by destruct (lex3 (fkey a) (fkey b)).
  - intros ->. by rewrite lex3_refl.
Qed.

Lemma flt_not_nan a b : flt a b = true -> is_nan a = false /\ is_nan b = false.
Proof. destruct a as [?|[]| |[]], b as [?|[]| |[]]; done. Qed.

Lemma flt_irrefl a : flt a a = false.
Proof.
  destruct (is_nan a) eqn:E; [by destruct a|].
  destruct (flt a a) eqn:F; [|done]. apply flt_key in F; [|done..].
  by rewrite lex3_refl in F.
Qed.

Lemma flt_asym a b : flt a b = true -> flt b a = false.
Proof.
  intros H. destruct (flt_not_nan _ _ H) as [Ha Hb].
  destruct (flt b a) eqn:F; [|done]. apply flt_key in F; [|done..]. apply flt_key in H; [|done..].
  rewrite lex3_antisym, F in H. done.
Qed.

Lemma flt_trans a b c : flt a b = true -> flt b c = true -> flt a c = true.
Proof.
  intros H1 H2. destruct (flt_not_nan _ _ H1), (flt_not_nan _ _ H2).
  apply flt_key; [done..|]. apply flt_key in H1; [|done..]. apply flt_key in H2; [|done..].
  eauto using lex3_trans.
Qed.

Lemma flt_ntrans a b c :
  is_nan a = false -> is_nan b = false -> is_nan c = false ->
  flt b a = false -> flt c b = false -> flt c a = false.
Proof.
  intros Ha Hb Hc H1 H2. destruct (flt c a) eqn:E; [|done]. exfalso.
  apply flt_key in E; [|done..].
  assert (N1 : lex3 (fkey b) (fkey a) <> Lt) by (rewrite <- flt_key by done; congruence).
  assert (N2 : lex3 (fkey c) (fkey b) <> Lt) by (rewrite <- flt_key by done; congruence).
  rewrite lex3_antisym in N1, N2.
  destruct (lex3 (fkey a) (fkey b)) eqn:E1; [|  |done].
  - apply lex3_eq in E1. rewrite E1 in E. rewrite lex3_antisym, E in N2. done.
  - pose proof (lex3_trans _ _ _ E E1) as E3. rewrite lex3_antisym, E3 in N2. done.
Qed.

Lemma flt_total a b :
  is_nan a = false -> is_nan b = false -> flt a b = false -> flt b a = false -> feq a b = true.
Proof.
  intros Ha Hb H1 H2. apply feq_key; [done..|].
  assert (N1 : lex3 (fkey a) (fkey b) <> Lt) by (rewrite <- flt_key by done; congruence).
  assert (N2 : lex3 (fkey b) (fkey a) <> Lt) by (rewrite <- flt_key by done; congruence).
  rewrite lex3_antisym in N2. apply lex3_eq. by destruct (lex3 (fkey a) (fkey b)).
Qed.

Lemma feq_flt_l a b c : feq a b = true -> flt c b = flt c a.
Proof.
  intros H. destruct (is_nan c) eqn:Hc; [by destruct c, a, b|].
  assert (Ha : is_nan a = false) by (by destruct a as [?|[]| |[]], b as [?|[]| |[]]).
  assert (Hb : is_nan b = false) by (by destruct a as [?|[]| |[]], b as [?|[]| |[]]).
  apply feq_key in H; [|done..].
  unfold flt, SFltb. rewrite !SFcompare_key by done. by rewrite H.
Qed.

Lemma feq_refl a : is_nan a = false -> feq a a = true.
Proof. intros H. by apply feq_key. Qed.

Lemma feq_sym a b : feq a b = feq b a.
Proof.
  destruct (is_nan a) eqn:Ha; [by destruct a, b|].
  destruct (is_nan b) eqn:Hb; [by destruct b, a as [?|[]| |[]]|].
  destruct (feq a b) eqn:E; symmetry.
  - apply feq_key in E; [|done..]. apply feq_key; done.
  - destruct (feq b a) eqn:F; [|done]. apply feq_key in F; [|done..].
    assert (feq a b = true) by (by apply feq_key). congruence.
Qed.

Lemma feq_flt_r a b c : feq a b = true -> flt a c = flt b c.
Proof.
  intros H.
  assert (is_nan a = false /\ is_nan b = false) as [Ha Hb]
    by (by destruct a as [?|[]| |[]], b as [?|[]| |[]]).
  apply feq_key in H; [|done..]. destruct (is_nan c) eqn:Hc.
  { destruct c; try done. by destruct a as [?|[]| |[]], b as [?|[]| |[]]. }
  apply eq_true_iff_eq. rewrite !flt_key by done. by rewrite H.
Qed.

Lemma feq_not_nan a b : feq a b = true -> is_nan a = false /\ is_nan b = false.
Proof. by destruct a as [?|[]| |[]], b as [?|[]| |[]]. Qed.
