(* ===== verification/GoSort.v ===== *)
(** * Sorting

    [sort.SliceStable] with a strict weak order has one possible result, the
    stable permutation in order, and [isort] computes it.  [sort.Slice] may
    permute elements that compare equal: where the modelled code calls it on
    elements with distinct keys the result is again unique
    ([sorted_unique]), which is what the callers' theorems use. *)
From Stdlib Require Import ZArith Lia Sorting.Sorted.
From stdpp Require Import base list sorting sets.
From S2P Require Import Prelude.

Section Sort.
Context {A : Type} (less : A -> A -> bool).

Fixpoint insert_sorted (x : A) (l : list A) : list A :=
  match l with
  | [] => [x]
  | y :: r => if less y x then y :: insert_sorted x r else x :: l
  end.

Definition isort (l : list A) : list A := foldr insert_sorted [] l.

Lemma insert_sorted_perm x l : insert_sorted x l ≡ₚ x :: l.
Proof.
  induction l as [|y r IH]; simpl; [done|].
  destruct (less y x); [|done]. rewrite IH. apply Permutation_swap.
Qed.

Lemma isort_perm l : isort l ≡ₚ l.
Proof. induction l as [|x l IH]; simpl; [done|]. by rewrite insert_sorted_perm, IH. Qed.

(** [in_order a b]: [b] need not come before [a]. *)
Definition in_order (a b : A) : Prop := less b a = false.

Section Order.
Context (P : A -> Prop).
Hypothesis less_asym : forall a b, P a -> P b -> less a b = true -> less b a = false.
Hypothesis less_ntrans : forall a b c, P a -> P b -> P c ->
  less b a = false -> less c b = false -> less c a = false.

Lemma insert_sorted_ok x l :
  P x -> Forall P l -> StronglySorted in_order l -> StronglySorted in_order (insert_sorted x l).
Proof using less_asym less_ntrans.
  intros Hx HP HS. induction HS as [|y r HS IH Hy]; simpl.
  { by repeat constructor. }
  apply Forall_cons in HP as [Py Pr].
  destruct (less y x) eqn:E.
  - constructor; [by apply IH|].
    rewrite insert_sorted_perm. constructor; [|done]. unfold in_order. by apply less_asym.
  - constructor; [by constructor|]. constructor; [done|].
    rewrite Forall_forall in Hy, Pr |- *. intros z Hz.
    apply (less_ntrans x y z); auto. by apply Hy.
Qed.

Lemma isort_sorted l : Forall P l -> StronglySorted in_order (isort l).
Proof using less_asym less_ntrans.
  induction l as [|x l IH]; intros HP; simpl; [constructor|].
  apply Forall_cons in HP as [Px Pl]. apply insert_sorted_ok; auto.
  by rewrite isort_perm.
Qed.

(** The head of a stable sort is the first of the minimal elements. *)
Lemma isort_head x l :
  Forall P (x :: l) ->
  exists h t l1 l2, isort (x :: l) = h :: t /\ x :: l = l1 ++ h :: l2 /\
    (forall y, y ∈ l1 -> less h y = true) /\ (forall y, y ∈ l2 -> less y h = false).
Proof using less_asym less_ntrans.
  revert x. induction l as [|y l IH]; intros x HP.
  { exists x, [], [], []. set_solver. }
  apply Forall_cons in HP as [Px HP].
  destruct (IH y HP) as (h & t & l1 & l2 & Hs & Hl & H1 & H2).
  change (isort (x :: y :: l)) with (insert_sorted x (isort (y :: l))).
  rewrite Hs. simpl. destruct (less h x) eqn:E.
  - exists h, (insert_sorted x t), (x :: l1), l2. rewrite Hl. split_and!; [done..| |done].
    intros z [->|Hz]%elem_of_cons; auto.
  - exists x, (h :: t), [], (y :: l). split_and!; [done..|set_solver|].
    assert (Ph : forall z, z ∈ y :: l -> P z) by (by apply Forall_forall).
    rewrite Hl in Ph |- *.
    assert (Hzh : forall z, z ∈ l1 ++ l2 -> less z h = false).
    { intros z [Hz|Hz]%elem_of_app; [|by apply H2].
      apply less_asym; [apply Ph; set_solver..|by apply H1]. }
    intros z [Hz|[->|Hz]%elem_of_cons]%elem_of_app; [|done|];
      (apply (less_ntrans x h z); [done|apply Ph; set_solver|apply Ph; set_solver|done|];
       apply Hzh; set_solver).
Qed.
End Order.

(** Sorting a sorted list does nothing. *)
Lemma isort_id l : StronglySorted in_order l -> isort l = l.
Proof.
  induction 1 as [|x l HS IH Hx]; simpl; [done|]. rewrite IH.
  destruct Hx as [|y r Hy _]; [done|]. simpl. by rewrite Hy.
Qed.

(** Two sorted permutations agree when elements that tie are equal. *)
Lemma sorted_unique l1 l2 :
  (forall a b, a ∈ l1 -> b ∈ l1 -> less a b = false -> less b a = false -> a = b) ->
  StronglySorted in_order l1 -> StronglySorted in_order l2 -> l1 ≡ₚ l2 -> l1 = l2.
Proof.
  revert l2. induction l1 as [|x l1 IH]; intros l2 Heq H1 H2 HP.
  { by apply Permutation_nil_l in HP. }
  destruct l2 as [|y l2]; [by apply Permutation_sym, Permutation_nil_cons in HP|].
  assert (x = y) as ->.
  { assert (Hx : x ∈ y :: l2) by (rewrite <- HP; left).
    assert (Hy : y ∈ x :: l1) by (rewrite HP; left).
    inversion H1 as [|? ? _ F1]; inversion H2 as [|? ? _ F2]; subst.
    apply elem_of_cons in Hx as [->|Hx]; [done|].
    apply elem_of_cons in Hy as [->|Hy]; [done|].
    rewrite Forall_forall in F1, F2.
    apply Heq; [left|by right| |]; [apply F2|apply F1]; done. }
  f_equal. apply Permutation_cons_inv in HP.
  inversion H1; inversion H2; subst.
  apply IH; auto. intros a b Ha Hb. apply Heq; by right.
Qed.
End Sort.

Arguments in_order {A} less a b /.
