(* ===== verification/GoHeap.v ===== *)
(** * Binary heaps as [container/heap] works them

    Go's [container/heap] sifts through an interface of five methods, which a
    client implements on whatever it keeps its elements in.  [HeapInterface]
    is that interface, [up] to [Fix] are the package's functions on it, and
    [HeapLaws] says when a client's methods act as an array of elements
    compared by a fixed order.  For such a client the functions never index
    out of range, keep the elements, and leave the array heap ordered
    ([push_spec], [Pop_spec], [Remove_spec], [Fix_spec]).

    Indices are Go ints; a loop that would not stop within its fuel counts as
    a panic, which the specifications exclude. *)
From Stdlib Require Import ZArith Lia.
From stdpp Require Import base list.
From S2P Require Import Prelude.
#[local] Open Scope Z_scope.
#[local] Open Scope go_scope.

(** ** The package *)

(** [heap.Interface]: an index out of range panics. *)
Class HeapInterface (S X : Type) := {
  Len : S -> Z;
  Less : S -> Z -> Z -> outcome bool;
  Swap : S -> Z -> Z -> outcome S;
  PushBack : S -> X -> S;
  PopBack : S -> outcome (X * S)
}.

Section Package.
Context {S X : Type} `{HeapInterface S X}.

Fixpoint up_loop (fuel : nat) (h : S) (j : Z) : outcome S :=
  match fuel with
  | O => Panics
  | Datatypes.S fuel =>
      let i := Z.quot (j - 1) 2 in
      if i =? j then Returns h
      else
        let* less := Less h j i in
        if negb less then Returns h
        else let* h := Swap h i j in up_loop fuel h i
  end.

Definition up (h : S) (j : Z) : outcome S := up_loop (Z.to_nat j + 1) h j.

Fixpoint down_loop (fuel : nat) (h : S) (i n : Z) : outcome (Z * S) :=
  match fuel with
  | O => Panics
  | Datatypes.S fuel =>
      let j1 := 2 * i + 1 in
      if (n <=? j1) || (j1 <? 0) then Returns (i, h)
      else
        let j2 := j1 + 1 in
        let* rgt := (if j2 <? n then Less h j2 j1 else Returns false) in
        let j := if rgt then j2 else j1 in
        let* less := Less h j i in
        if negb less then Returns (i, h)
        else let* h := Swap h i j in down_loop fuel h j n
  end.

Definition down (h : S) (i0 n : Z) : outcome (bool * S) :=
  let* r := down_loop (Z.to_nat n + 1) h i0 n in
  Returns (i0 <? fst r, snd r).

Fixpoint Init_loop (k : nat) (n : Z) (h : S) : outcome S :=
  match k with
  | O => Returns h
  | Datatypes.S k => let* r := down h (Z.of_nat k) n in Init_loop k n (snd r)
  end.

Definition Init (h : S) : outcome S := Init_loop (Z.to_nat (Z.quot (Len h) 2)) (Len h) h.

Definition Push (h : S) (x : X) : outcome S :=
  let h := PushBack h x in up h (Len h - 1).

Definition Pop (h : S) : outcome (X * S) :=
  let n := Len h - 1 in
  let* h := Swap h 0 n in
  let* r := down h 0 n in
  PopBack (snd r).

Definition Remove (h : S) (i : Z) : outcome (X * S) :=
  let n := Len h - 1 in
  let* h :=
    (if n =? i then Returns h
     else
       let* h := Swap h i n in
       let* r := down h i n in
       if fst r then Returns (snd r) else up (snd r) i) in
  PopBack h.

Definition Fix (h : S) (i : Z) : outcome S :=
  let* r := down h i (Len h) in
  if fst r then Returns (snd r) else up (snd r) i.
End Package.

(** ** Arrays in heap order *)

Definition parent (j : nat) : nat := Nat.div2 (j - 1).

Lemma parent_lt j : (0 < j -> parent j < j)%nat.
Proof. unfold parent. intros. pose proof (Nat.div2_decr (j - 1) (j - 1)). lia. Qed.

Lemma parent_spec i j : (0 < j -> parent j = i <-> j = 2 * i + 1 \/ j = 2 * i + 2)%nat.
Proof.
  unfold parent. intros. rewrite Nat.div2_div.
  pose proof (Nat.div_mod (j - 1) 2). pose proof (Nat.mod_upper_bound (j - 1) 2). lia.
Qed.

Lemma parent_quot j : (0 < j)%nat -> Z.quot (Z.of_nat j - 1) 2 = Z.of_nat (parent j).
Proof.
  intros. unfold parent. rewrite Nat.div2_div, Nat2Z.inj_div, Nat2Z.inj_sub by lia.
  apply Z.quot_div_nonneg; lia.
Qed.

Definition swap {V} (l : list V) (i j : nat) : list V :=
  match l !! i, l !! j with
  | Some a, Some b => <[i := b]> (<[j := a]> l)
  | _, _ => l
  end.

Section Swap.
Context {V : Type}.
Implicit Types l : list V.

Lemma swap_length l i j : length (swap l i j) = length l.
Proof. unfold swap. split_ifs. by rewrite !length_insert. Qed.

Lemma swap_perm l i j : swap l i j ≡ₚ l.
Proof.
  unfold swap. destruct (l !! i) as [a|] eqn:Hi; [|done]. destruct (l !! j) as [b|] eqn:Hj; [|done].
  destruct (decide (i = j)) as [->|Hij].
  { assert (a = b) as -> by congruence. by rewrite !list_insert_id by (rewrite ?list_lookup_insert_eq; eauto using lookup_lt_Some). }
  apply Permutation_inj. rewrite !length_insert. split; [done|].
  exists (fun k => if decide (k = i) then j else if decide (k = j) then i else k). split.
  - intros x y. repeat case_decide; congruence.
  - intros k. repeat case_decide; subst.
    + rewrite list_lookup_insert_eq; [congruence|]. rewrite length_insert. by eapply lookup_lt_Some.
    + rewrite list_lookup_insert_ne, list_lookup_insert_eq; [congruence|..|done]. by eapply lookup_lt_Some.
    + by rewrite !list_lookup_insert_ne.
Qed.

Lemma swap_lookup l i j k :
  (i < length l)%nat -> (j < length l)%nat ->
  swap l i j !! k = if decide (k = i) then l !! j else if decide (k = j) then l !! i else l !! k.
Proof.
  intros Hi Hj. unfold swap.
  destruct (lookup_lt_is_Some_2 l i Hi) as [a Ha], (lookup_lt_is_Some_2 l j Hj) as [b Hb].
  rewrite Ha, Hb. repeat case_decide; subst.
  - rewrite list_lookup_insert_eq; [done|]. by rewrite length_insert.
  - by rewrite list_lookup_insert_ne, list_lookup_insert_eq.
  - by rewrite !list_lookup_insert_ne.
Qed.
End Swap.

(** ** Order *)
Section Order.
Context {V : Type} (less : V -> V -> bool).
Implicit Types l : list V.

Definition le (a b : V) : Prop := less b a = false.

Definition edge_ok (l : list V) (k : nat) : Prop :=
  forall a b, l !! parent k = Some a -> l !! k = Some b -> le a b.

(** The first [n] elements are in heap order. *)
Definition heap_ok (l : list V) (n : nat) : Prop :=
  forall k, (0 < k < n)%nat -> edge_ok l k.

(** ... except around [i], whose parent and children still agree. *)
Definition grands_ok (l : list V) (n i : nat) : Prop :=
  forall k a b, (0 < i)%nat -> (0 < k < n)%nat -> parent k = i ->
  l !! parent i = Some a -> l !! k = Some b -> le a b.

Definition hole (l : list V) (n i : nat) : Prop :=
  (forall k, (0 < k < n)%nat -> k <> i -> parent k <> i -> edge_ok l k) /\ grands_ok l n i.

Definition children_ok (l : list V) (n i : nat) : Prop :=
  forall k, (0 < k < n)%nat -> parent k = i -> edge_ok l k.

Hypothesis less_asym : forall a b, less a b = true -> less b a = false.
Hypothesis less_ntrans : forall a b c, less b a = false -> less c b = false -> less c a = false.

Lemma le_refl a : le a a.
Proof using less_asym. unfold le. destruct (less a a) eqn:E; [|done]. rewrite <- E. by apply less_asym. Qed.

Lemma le_trans a b c : le a b -> le b c -> le a c.
Proof using less_ntrans. apply less_ntrans. Qed.

Lemma less_le a b : less a b = true -> le a b.
Proof using less_asym. apply less_asym. Qed.

Lemma heap_ok_shorter l n m : (m <= n)%nat -> heap_ok l n -> heap_ok l m.
Proof using. intros ? H k ?. apply H. lia. Qed.

Lemma heap_ok_ext l l' n :
  (forall k, (k < n)%nat -> l !! k = l' !! k) -> heap_ok l n -> heap_ok l' n.
Proof using.
  intros E H k Hk a b. pose proof (parent_lt k). rewrite <- !E by lia. by apply H.
Qed.

(** The root of a heap is a minimum. *)
Lemma heap_root_min l n a k b :
  heap_ok l n -> (k < n)%nat -> l !! 0%nat = Some a -> l !! k = Some b -> le a b.
Proof using less_asym less_ntrans.
  intros H. revert b. induction k as [k IH] using lt_wf_ind. intros b Hk H0 Hb.
  destruct (decide (k = 0)%nat) as [->|].
  { assert (a = b) as -> by congruence. apply le_refl. }
  pose proof (parent_lt k ltac:(lia)).
  destruct (lookup_lt_is_Some_2 l (parent k)) as [c Hc].
  { apply lookup_lt_Some in Hb. lia. }
  apply le_trans with c; [eapply (IH (parent k)); eauto; lia|].
  by apply (H k ltac:(lia)).
Qed.

Lemma hole_insert l n i v : heap_ok l n -> hole (<[i := v]> l) n i.
Proof using less_asym less_ntrans.
  intros H. split.
  - intros k Hk Hki Hpi a b. rewrite !list_lookup_insert_ne by done. by apply H.
  - intros k a b Hi Hk E Ha Hb. pose proof (parent_lt k ltac:(lia)).
    pose proof (parent_lt i Hi).
    rewrite list_lookup_insert_ne in Ha, Hb by lia.
    destruct (lookup_lt_is_Some_2 l i) as [c Hc]; [apply lookup_lt_Some in Hb; lia|].
    apply le_trans with c.
    + apply (H i); [lia|done..].
    + apply (H k); [lia|by rewrite E|done].
Qed.

Lemma hole_close l n i :
  hole l n i -> children_ok l n i -> ((0 < i < n)%nat -> edge_ok l i) -> heap_ok l n.
Proof using.
  intros [H _] Hc Hp k Hk.
  destruct (decide (k = i)) as [->|]; [by apply Hp|].
  destruct (decide (parent k = i)); [by apply Hc|by apply H].
Qed.

(** One step of sifting up. *)
Lemma up_step l n j a b :
  hole l n j -> children_ok l n j -> (0 < j < n)%nat ->
  l !! parent j = Some a -> l !! j = Some b -> less b a = true ->
  let l' := swap l (parent j) j in
  hole l' n (parent j) /\ children_ok l' n (parent j).
Proof using less_asym less_ntrans.
  intros [H Hg] Hc Hj Ha Hb Hlt. pose proof (parent_lt j ltac:(lia)) as Hpj.
  assert (Hlen : (j < length l)%nat) by eauto using lookup_lt_Some.
  assert (LK : forall k, swap l (parent j) j !! k =
    if decide (k = parent j) then Some b else if decide (k = j) then Some a else l !! k).
  { intros k. rewrite swap_lookup, Ha, Hb by lia. done. }
  cbv zeta. split; [split|].
  - intros k Hk Hkp Hpp x y. pose proof (parent_lt k ltac:(lia)).
    rewrite !LK. repeat case_decide; subst; intros; simplify_eq; try lia.
    + eapply (Hg k); eauto. lia.
    + eapply H; eauto.
  - intros k x y Hp0 Hk E. pose proof (parent_lt (parent j) Hp0). pose proof (parent_lt k ltac:(lia)).
    rewrite !LK. repeat case_decide; subst; intros; simplify_eq; try lia.
    + eapply (H (parent j)); eauto; lia.
    + apply le_trans with a.
      * eapply (H (parent j)); eauto; lia.
      * apply (H k); [lia|done|lia|congruence|done].
  - intros k Hk E x y. pose proof (parent_lt k ltac:(lia)).
    rewrite !LK. repeat case_decide; subst; intros; simplify_eq; try lia; try congruence.
    + by apply less_le.
    + apply le_trans with a; [by apply less_le|].
      apply (H k); [lia|done|lia|congruence|done].
Qed.

(** One step of sifting down, to the smaller child [j]. *)
Lemma down_step l n i j a b :
  hole l n i -> (0 < j < n)%nat -> parent j = i ->
  l !! i = Some a -> l !! j = Some b -> less b a = true ->
  (forall k c, (0 < k < n)%nat -> parent k = i -> l !! k = Some c -> le b c) ->
  let l' := swap l i j in
  hole l' n j /\ edge_ok l' j /\ ((0 < i)%nat -> edge_ok l' i).
Proof using less_asym less_ntrans.
  intros [H Hg] Hj Hp Ha Hb Hlt Hmin. pose proof (parent_lt j ltac:(lia)) as Hij.
  assert (Hlen : (j < length l)%nat) by eauto using lookup_lt_Some.
  assert (LK : forall k, swap l i j !! k =
    if decide (k = i) then Some b else if decide (k = j) then Some a else l !! k).
  { intros k. rewrite swap_lookup, Ha, Hb by lia. done. }
  cbv zeta. split; [split|split].
  - intros k Hk Hkj Hpk x y. pose proof (parent_lt k ltac:(lia)).
    rewrite !LK. repeat case_decide; subst; intros; simplify_eq; try lia.
    + eapply Hmin; eauto.
    + eapply (Hg j); eauto; lia.
    + eapply H; eauto.
  - intros k x y _ Hk E. rewrite Hp. pose proof (parent_lt k ltac:(lia)).
    rewrite !LK. repeat case_decide; subst; intros; simplify_eq; try lia.
    apply (H k); [lia|lia|lia|congruence|done].
  - intros x y. rewrite Hp, !LK. repeat case_decide; subst; intros; simplify_eq; try lia.
    by apply less_le.
  - intros Hi x y. pose proof (parent_lt i Hi).
    rewrite !LK. repeat case_decide; subst; intros; simplify_eq; try lia.
    eapply (Hg j); eauto; lia.
Qed.
End Order.

(** ** The package on a lawful client

    [view] is the array the client's methods work on and [inv] what they keep.
    [Push] and [Pop] of the interface change which elements there are; what
    they do is the client's to say. *)
Class HeapLaws {S X V : Type} `{HeapInterface S X}
    (inv : S -> Prop) (view : S -> list V) (less : V -> V -> bool) : Prop := {
  law_Len : forall h, inv h -> Len h = Z.of_nat (length (view h));
  law_Less : forall h i j a b, inv h -> view h !! i = Some a -> view h !! j = Some b ->
    Less h (Z.of_nat i) (Z.of_nat j) = Returns (less a b);
  law_Swap : forall h i j, inv h -> (i < length (view h))%nat -> (j < length (view h))%nat ->
    exists h', Swap h (Z.of_nat i) (Z.of_nat j) = Returns h' /\ inv h' /\
      view h' = swap (view h) i j
}.

Section Specs.
Context {S X V : Type} `{HeapInterface S X} (inv : S -> Prop) (view : S -> list V)
  (less : V -> V -> bool) `{HL : !HeapLaws (X := X) inv view less}.
Hypothesis less_asym : forall a b, less a b = true -> less b a = false.
Hypothesis less_ntrans : forall a b c, less b a = false -> less c b = false -> less c a = false.

Notation heap h n := (heap_ok less (view h) n).

(** What a sift of the first [n] elements leaves. *)
Definition sifted (h h' : S) (n : nat) : Prop :=
  inv h' /\ view h' ≡ₚ view h /\
  forall k, (n <= k)%nat -> view h' !! k = view h !! k.

Lemma sifted_refl h n : inv h -> sifted h h n.
Proof using. done. Qed.

Lemma sifted_trans h1 h2 h3 n : sifted h1 h2 n -> sifted h2 h3 n -> sifted h1 h3 n.
Proof using.
  intros (_ & P1 & L1) (I2 & P2 & L2). split; [done|split; [by rewrite P2|]].
  intros k Hk. by rewrite L2, L1.
Qed.

Lemma sifted_length h h' n : sifted h h' n -> length (view h') = length (view h).
Proof using. intros (_ & P & _). by rewrite P. Qed.

Lemma sifted_swap h i j n h' :
  (i < n)%nat -> (j < n)%nat -> (i < length (view h))%nat -> (j < length (view h))%nat ->
  inv h' -> view h' = swap (view h) i j -> sifted h h' n.
Proof using.
  intros ???? Hi E. split; [done|]. rewrite E. split; [apply swap_perm|].
  intros k Hk. rewrite swap_lookup by done. repeat case_decide; lia || done.
Qed.

Lemma up_loop_spec fuel h j n :
  inv h -> (j < n)%nat -> (n <= length (view h))%nat -> (j < fuel)%nat ->
  hole less (view h) n j -> children_ok less (view h) n j ->
  exists h', up_loop fuel h (Z.of_nat j) = Returns h' /\ sifted h h' n /\ heap h' n.
Proof using HL less_asym less_ntrans.
  revert h j. induction fuel as [|fuel IH]; intros h j Hinv Hj Hn Hf Hhole Hch; [lia|].
  cbn [up_loop]. destruct (decide (j = 0)%nat) as [->|Hj0].
  { exists h. split; [done|]. split; [by apply sifted_refl|].
    eapply hole_close; eauto; lia. }
  rewrite parent_quot by lia. pose proof (parent_lt j ltac:(lia)) as Hp.
  replace (Z.of_nat (parent j) =? Z.of_nat j) with false by (symmetry; apply Z.eqb_neq; lia).
  destruct (lookup_lt_is_Some_2 (view h) j) as [b Hb]; [lia|].
  destruct (lookup_lt_is_Some_2 (view h) (parent j)) as [a Ha]; [lia|].
  rewrite (law_Less h j (parent j) b a) by done. cbn [obind].
  destruct (less b a) eqn:Hlt; cbn [negb].
  - destruct (law_Swap h (parent j) j) as (h1 & -> & Hi1 & Hv1); [done|lia|lia|]. cbn [obind].
    destruct (up_step less less_asym less_ntrans (view h) n j a b) as [Hh1 Hc1]; [done..|lia|done|done|done|].
    rewrite <- Hv1 in Hh1, Hc1.
    assert (S1 : sifted h h1 n) by (apply (sifted_swap h (parent j) j); done || lia).
    destruct (IH h1 (parent j)) as (h2 & -> & S2 & Hok2); [done|lia| |lia|done..|].
    { by rewrite (sifted_length _ _ _ S1). }
    exists h2. split; [done|]. split; [by eapply sifted_trans|done].
  - exists h. split; [done|]. split; [by apply sifted_refl|].
    eapply hole_close; eauto. intros _ x y Hx Hy. by simplify_eq.
Qed.

Lemma up_spec h j n :
  inv h -> (j < n)%nat -> (n <= length (view h))%nat ->
  hole less (view h) n j -> children_ok less (view h) n j ->
  exists h', up h (Z.of_nat j) = Returns h' /\ sifted h h' n /\ heap h' n.
Proof using HL less_asym less_ntrans.
  intros. unfold up. rewrite Nat2Z.id. apply up_loop_spec; auto. lia.
Qed.

(** The child [down] compares with: a smallest one. *)
Lemma pick_child h i n :
  inv h -> (n <= length (view h))%nat -> (2 * i + 1 < n)%nat ->
  exists j b, (let* rgt := (if Z.of_nat (2 * i + 1) + 1 <? Z.of_nat n
                 then Less h (Z.of_nat (2 * i + 1) + 1) (Z.of_nat (2 * i + 1)) else Returns false) in
               Returns (if rgt then Z.of_nat (2 * i + 1) + 1 else Z.of_nat (2 * i + 1)))
              = Returns (Z.of_nat j) /\
    (0 < j < n)%nat /\ parent j = i /\ view h !! j = Some b /\
    forall k c, (0 < k < n)%nat -> parent k = i -> view h !! k = Some c -> le less b c.
Proof using HL less_asym less_ntrans.
  intros Hinv Hn Hc1.
  destruct (lookup_lt_is_Some_2 (view h) (2 * i + 1)) as [b1 Hb1]; [lia|].
  assert (Hk : forall k, (0 < k)%nat -> parent k = i -> (k = 2 * i + 1 \/ k = 2 * i + 2)%nat)
    by (intros; apply parent_spec; lia).
  case_match eqn:E; zb.
  - destruct (lookup_lt_is_Some_2 (view h) (2 * i + 2)) as [b2 Hb2]; [lia|].
    replace (Z.of_nat (2 * i + 1) + 1) with (Z.of_nat (2 * i + 2)) by lia.
    rewrite (law_Less h _ _ b2 b1) by done. cbn [obind].
    destruct (less b2 b1) eqn:Hlt.
    + exists ((2 * i + 2)%nat), b2. split; [done|]. split; [lia|]. split; [apply parent_spec; lia|].
      split; [done|]. intros k c ? Hp Hc. destruct (Hk k) as [-> | ->]; [lia|done|..]; simplify_eq.
      * by apply less_le.
      * by apply le_refl.
    + exists ((2 * i + 1)%nat), b1. split; [done|]. split; [lia|]. split; [apply parent_spec; lia|].
      split; [done|]. intros k c ? Hp Hc. destruct (Hk k) as [-> | ->]; [lia|done|..]; simplify_eq; [by apply le_refl|done].
  - exists ((2 * i + 1)%nat), b1. split; [done|]. split; [lia|]. split; [apply parent_spec; lia|].
    split; [done|]. intros k c ? Hp Hc. destruct (Hk k) as [-> | ->]; [lia|done|..]; simplify_eq; [by apply le_refl|lia].
Qed.

Lemma down_loop_spec fuel h i n :
  inv h -> (n <= length (view h))%nat -> (i < n)%nat -> (n - i < fuel)%nat -> hole less (view h) n i ->
  exists i' h', down_loop fuel h (Z.of_nat i) (Z.of_nat n) = Returns (Z.of_nat i', h') /\
    sifted h h' n /\
    ((i' = i /\ h' = h /\ children_ok less (view h) n i) \/ ((i < i')%nat /\ heap h' n)).
Proof using HL less_asym less_ntrans.
  revert h i. induction fuel as [|fuel IH]; intros h i Hinv Hn Hi Hf Hhole; [lia|].
  cbn [down_loop]. replace (2 * Z.of_nat i + 1) with (Z.of_nat (2 * i + 1)) by lia.
  replace (Z.of_nat (2 * i + 1) <? 0) with false by (symmetry; apply Z.ltb_ge; lia).
  rewrite orb_false_r. destruct (Z.of_nat n <=? Z.of_nat (2 * i + 1)) eqn:E; zb.
  { exists i, h. split; [done|]. split; [by apply sifted_refl|]. left. split_and!; [done..|].
    intros k Hk [Hp|Hp]%parent_spec; lia. }
  destruct (pick_child h i n) as (j & b & Hpick & Hj & Hpj & Hb & Hmin); [done|lia|lia|].
  destruct (if Z.of_nat (2 * i + 1) + 1 <? Z.of_nat n then _ else _) as [rgt|] eqn:Er; [|done].
  cbn [obind] in Hpick |- *.
  assert ((if rgt then Z.of_nat (2 * i + 1) + 1 else Z.of_nat (2 * i + 1)) = Z.of_nat j) as ->
    by congruence.
  pose proof (parent_lt j ltac:(lia)).
  destruct (lookup_lt_is_Some_2 (view h) i) as [a Ha]; [lia|].
  rewrite (law_Less h j i b a) by done. cbn [obind].
  destruct (less b a) eqn:Hlt; cbn [negb].
  - destruct (law_Swap h i j) as (h1 & -> & Hi1 & Hv1); [done|lia|lia|]. cbn [obind].
    destruct (down_step less less_asym less_ntrans (view h) n i j a b) as (Hh1 & Hej & Hei); [done..|].
    rewrite <- Hv1 in Hh1, Hej, Hei.
    assert (S1 : sifted h h1 n) by (apply (sifted_swap h i j); done || lia).
    destruct (IH h1 j) as (i2 & h2 & -> & S2 & Hcase); [done| |lia|lia|done|].
    { by rewrite (sifted_length _ _ _ S1). }
    exists i2, h2. split; [done|]. split; [by eapply sifted_trans|]. right.
    destruct Hcase as [(-> & -> & Hc)|[? Hok]]; (split; [lia|]); [|done].
    eapply hole_close; eauto.
  - exists i, h. split; [done|]. split; [by apply sifted_refl|]. left. split_and!; [done..|].
    intros k Hk Hp x y. rewrite Hp. intros Hx Hy. simplify_eq.
    apply le_trans with b; [done|exact Hlt|by eapply Hmin].
Qed.

Lemma down_spec h i n :
  inv h -> (n <= length (view h))%nat -> (i < n)%nat -> hole less (view h) n i ->
  exists moved h', down h (Z.of_nat i) (Z.of_nat n) = Returns (moved, h') /\ sifted h h' n /\
    if (moved : bool) then heap h' n else h' = h /\ children_ok less (view h) n i.
Proof using HL less_asym less_ntrans.
  intros. unfold down. rewrite Nat2Z.id.
  destruct (down_loop_spec (n + 1) h i n) as (i' & h' & -> & S' & Hc); [done..|lia|done|].
  cbn [obind fst snd]. exists (Z.of_nat i <? Z.of_nat i'), h'. split; [done|]. split; [done|].
  destruct Hc as [(-> & -> & ?)|[? ?]].
  - by rewrite Z.ltb_irrefl.
  - by replace (Z.of_nat i <? Z.of_nat i') with true by (symmetry; apply Z.ltb_lt; lia).
Qed.

(** What [Remove] and [Pop] hand to the client's [PopBack]: [x], the element
    that was at the index, last, after a heap of the others. *)
Definition ready_to_pop (h h' : S) (x : V) : Prop :=
  exists rest, inv h' /\ view h' = rest ++ [x] /\ view h' ≡ₚ view h /\
    heap_ok less rest (length rest).

Lemma ready_to_pop_intro h h1 h2 n x :
  length (view h) = (n + 1)%nat -> sifted h h1 (n + 1) -> sifted h1 h2 n ->
  view h1 !! n = Some x -> heap h2 n -> ready_to_pop h h2 x.
Proof using.
  intros Hlen S1 S2 Hx Hok. pose proof (sifted_length _ _ _ S1). pose proof (sifted_length _ _ _ S2).
  destruct S1 as (_ & P1 & _), S2 as (I2 & P2 & L2).
  assert (E : view h2 = take n (view h2) ++ [x]).
  { rewrite <- (take_drop n (view h2)) at 1. f_equal.
    rewrite (drop_S (view h2) x) by (rewrite L2; done).
    rewrite drop_ge; [done|lia]. }
  exists (take n (view h2)). split; [done|]. split; [done|].
  split; [by rewrite P2|]. rewrite length_take. intros k Hk a b.
  pose proof (parent_lt k ltac:(lia)).
  rewrite !lookup_take_lt by lia. apply Hok. lia.
Qed.

Lemma Pop_spec h x :
  inv h -> heap h (length (view h)) -> view h !! 0%nat = Some x ->
  exists h', Pop h = PopBack h' /\ ready_to_pop h h' x.
Proof using HL less_asym less_ntrans.
  intros Hinv Hok Hx. unfold Pop. rewrite law_Len by done.
  destruct (length (view h)) as [|n] eqn:Hlen; [by destruct (view h)|].
  replace (Z.of_nat (Datatypes.S n) - 1) with (Z.of_nat n) by lia.
  destruct (law_Swap h 0 n) as (h1 & E1 & Hi1 & Hv1); [done|lia..|].
  change (Z.of_nat 0) with 0 in E1. rewrite E1. cbn [obind].
  assert (S1 : sifted h h1 (n + 1)) by (apply (sifted_swap h 0 n); done || lia).
  assert (Hn : view h1 !! n = Some x).
  { rewrite Hv1, swap_lookup by lia. case_decide; [subst; congruence|]. by rewrite decide_True. }
  pose proof (sifted_length _ _ _ S1).
  destruct (decide (n = 0)%nat) as [->|].
  - exists h1. split; [done|].
    eapply ready_to_pop_intro; [|done|by apply sifted_refl|done|]; [lia|]. intros k ?. lia.
  - destruct (down_spec h1 0 n) as (mv & h2 & E2 & S2 & Hc); [done|lia|lia| |].
    { split; [|intros k ????; lia]. intros k Hk Hk0 Hkp. pose proof (parent_lt k ltac:(lia)).
      intros a b. rewrite Hv1, !swap_lookup by lia. rewrite !(decide_False (P := _ = 0%nat)), !decide_False by lia.
      apply Hok. lia. }
    change (Z.of_nat 0) with 0 in E2. rewrite E2. cbn [obind snd]. exists h2. split; [done|].
    eapply ready_to_pop_intro; [|done|done|done|]; [lia|].
    destruct mv; [done|]. destruct Hc as [-> Hc]. intros k Hk.
    destruct (decide (parent k = 0)%nat); [by apply Hc|].
    pose proof (parent_lt k ltac:(lia)).
    intros a b. rewrite Hv1, !swap_lookup by lia. rewrite !(decide_False (P := _ = 0%nat)), !decide_False by lia.
    apply Hok. lia.
Qed.

(** Sifting [i] both ways closes the hole there. *)
Lemma fix_spec h i n :
  inv h -> (n <= length (view h))%nat -> (i < n)%nat -> hole less (view h) n i ->
  exists h', (let* r := down h (Z.of_nat i) (Z.of_nat n) in
              if fst r then Returns (snd r) else up (snd r) (Z.of_nat i)) = Returns h' /\
    sifted h h' n /\ heap h' n.
Proof using HL less_asym less_ntrans.
  intros Hinv Hn Hi Hhole.
  destruct (down_spec h i n) as (mv & h1 & -> & S1 & Hc); [done..|]. cbn [obind fst snd].
  destruct mv; [by exists h1|]. destruct Hc as [-> Hc].
  by apply up_spec.
Qed.

Lemma Fix_spec h i :
  inv h -> (i < length (view h))%nat -> hole less (view h) (length (view h)) i ->
  exists h', Fix h (Z.of_nat i) = Returns h' /\ inv h' /\ view h' ≡ₚ view h /\
    heap h' (length (view h')).
Proof using HL less_asym less_ntrans.
  intros Hinv Hi Hhole. unfold Fix. rewrite law_Len by done.
  destruct (fix_spec h i (length (view h))) as (h' & -> & Hs & Hok); [done|lia|done..|].
  exists h'. rewrite (sifted_length _ _ _ Hs). destruct Hs as (? & ? & ?). done.
Qed.

Lemma Remove_spec h i x :
  inv h -> heap h (length (view h)) -> view h !! i = Some x ->
  exists h', Remove h (Z.of_nat i) = PopBack h' /\ ready_to_pop h h' x.
Proof using HL less_asym less_ntrans.
  intros Hinv Hok Hx. unfold Remove. rewrite law_Len by done.
  pose proof (lookup_lt_Some _ _ _ Hx) as Hi. set (n := (length (view h) - 1)%nat).
  replace (Z.of_nat (length (view h)) - 1) with (Z.of_nat n) by lia.
  destruct (Z.of_nat n =? Z.of_nat i) eqn:E; zb.
  - assert (i = n) as -> by lia. exists h. split; [done|].
    eapply ready_to_pop_intro; [|by apply sifted_refl|by apply sifted_refl|done|]; [lia|].
    eapply heap_ok_shorter; [|done]. lia.
  - destruct (law_Swap h i n) as (h1 & -> & Hi1 & Hv1); [done|lia..|]. cbn [obind].
    assert (S1 : sifted h h1 (n + 1)) by (apply (sifted_swap h i n); done || lia).
    assert (Hn : view h1 !! n = Some x).
    { rewrite Hv1, swap_lookup by lia. rewrite decide_False by lia. by rewrite decide_True. }
    pose proof (sifted_length _ _ _ S1).
    destruct (lookup_lt_is_Some_2 (view h) n) as [v Hv]; [lia|].
    destruct (fix_spec h1 i n) as (h2 & E2 & S2 & Hok2); [done|lia|lia| |].
    { assert (HI : hole less (<[i := v]> (view h)) n i)
        by (apply hole_insert; [done|done|]; apply (heap_ok_shorter _ _ (length (view h))); [lia|done]).
      destruct HI as [HI1 HI2].
      assert (LK : forall k, (k < n)%nat -> view h1 !! k = <[i := v]> (view h) !! k).
      { intros k Hk. rewrite Hv1, swap_lookup by lia. case_decide; subst.
        - rewrite list_lookup_insert_eq; [done|lia].
        - rewrite decide_False by lia. by rewrite list_lookup_insert_ne. }
      split.
      - intros k Hk ?? a b. pose proof (parent_lt k ltac:(lia)). rewrite !LK by lia. by apply HI1.
      - intros k a b ? Hk Hp. pose proof (parent_lt i ltac:(lia)). pose proof (parent_lt k ltac:(lia)).
        rewrite !LK by lia. by apply HI2. }
    rewrite E2. cbn [obind]. exists h2. split; [done|].
    eapply ready_to_pop_intro; eauto. lia.
Qed.

(** [Push], after the client's [PushBack]. *)
Lemma push_spec h l v :
  inv h -> view h = l ++ [v] -> heap_ok less l (length l) ->
  exists h', up h (Len h - 1) = Returns h' /\ inv h' /\ view h' ≡ₚ view h /\
    heap h' (length (view h')).
Proof using HL less_asym less_ntrans.
  intros Hinv Hv Hok. rewrite law_Len by done. rewrite Hv, length_app. cbn [length].
  replace (Z.of_nat (length l + 1) - 1) with (Z.of_nat (length l)) by lia.
  destruct (up_spec h (length l) (length l + 1)) as (h' & -> & Hs & Hok').
  - done.
  - lia.
  - rewrite Hv, length_app. cbn [length]. lia.
  - rewrite Hv. split.
    + intros k Hk ?? a b. pose proof (parent_lt k ltac:(lia)).
      rewrite !lookup_app_l by lia. apply Hok. lia.
    + intros k a b ? Hk Hp. pose proof (parent_lt k ltac:(lia)). lia.
  - intros k Hk Hp. pose proof (parent_lt k ltac:(lia)). lia.
  - exists h'. rewrite (sifted_length _ _ _ Hs), Hv, length_app. cbn [length].
    destruct Hs as (? & ? & ?). by rewrite <- Hv.
Qed.
End Specs.
