(* ===== verification/Constraints.v ===== *)
(** * Placement constraints

    [forge/api/internal/placement/constraints.go] and [scoring.go]: the
    constraint checker every placement path filters candidates with, and the
    bounded terms a soft constraint contributes.  The checker is stateless, so
    its methods are functions of the candidate, the constraints and the
    placement context.  A method that returns a Go [error] returns
    [None] for nil and [Some msg] otherwise. *)
From Stdlib Require Import ZArith Lia SpecFloat.
From stdpp Require Import base gmap strings list.
From S2P Require Import Prelude GoStrings GoFloat.
#[local] Open Scope string_scope.
#[local] Open Scope list_scope.
#[local] Open Scope Z_scope.

(** ** Data *)

(* go: placement/constraints.go const:opIn *)
Definition opIn : string := "in".
(* go: placement/constraints.go const:opNotIn *)
Definition opNotIn : string := "not-in".
(* go: placement/constraints.go const:opExists *)
Definition opExists : string := "exists".
(* go: placement/constraints.go const:opNotExists *)
Definition opNotExists : string := "not-exists".
(* go: placement/constraints.go const:opUnspecified *)
Definition opUnspecified : string := "".

(** A [ConstraintType] is a Go string type: values outside the five constants
    reach the checker (and its default branches). *)
(* go: placement/constraints.go const:ConstraintAffinity *)
Definition ConstraintAffinity : string := "affinity".
(* go: placement/constraints.go const:ConstraintAntiAffinity *)
Definition ConstraintAntiAffinity : string := "anti-affinity".
(* go: placement/constraints.go const:ConstraintRegion *)
Definition ConstraintRegion : string := "region".
(* go: placement/constraints.go const:ConstraintNode *)
Definition ConstraintNode : string := "node".
(* go: placement/constraints.go const:ConstraintLabel *)
Definition ConstraintLabel : string := "label".

(* go: placement/constraints.go type:Constraint *)
Record Constraint := mkConstraint {
  k_Type : string;
  k_Operator : string;
  k_Key : string;
  k_Values : list string;
  k_Required : bool
}.

(* go: placement/constraints.go type:ConstraintContext *)
Record ConstraintContext := mkConstraintContext {
  x_ServerNodeMap : gmap string string;
  x_NodeLabels : gmap string (gmap string string)
}.

(* go: placement/strategy.go type:Candidate *)
Record Candidate := mkCandidate {
  c_NodeID : string;
  c_RegionID : string;
  c_TotalCPU : Z;
  c_TotalMemory : Z;
  c_TotalDisk : Z;
  c_AllocatedCPU : Z;
  c_AllocatedMemory : Z;
  c_AllocatedDisk : Z;
  c_AvailableCPU : Z;
  c_AvailableMemory : Z;
  c_AvailableDisk : Z;
  c_ServerCount : Z;
  c_Maintenance : bool;
  c_Draining : bool;
  c_Status : string;
  c_StorageLocality : string;
  c_RuntimeProvider : string
}.

(** ** Scoring terms ([scoring.go]) *)

(* go: placement/scoring.go const:kSoftWeight *)
Definition kSoftWeight : float := Eval vm_compute in ratio 3 10.
(* go: placement/scoring.go const:kSoftPenalty *)
Definition kSoftPenalty : float := Eval vm_compute in ratio 1 10.
(* go: placement/scoring.go const:legacySoftWeight *)
Definition legacySoftWeight : float := Eval vm_compute in of_int 1000000000000.
(* go: placement/scoring.go const:legacySoftPenalty *)
Definition legacySoftPenalty : float := Eval vm_compute in of_int 10000000000.
(* go: placement/scoring.go const:PreferredNodeBonus *)
Definition PreferredNodeBonus : float := Eval vm_compute in ratio 3 10.
(* go: placement/scoring.go const:StorageMatchBonus *)
Definition StorageMatchBonus : float := Eval vm_compute in ratio 15 100.
(* go: placement/scoring.go const:StorageMismatchPenalty *)
Definition StorageMismatchPenalty : float := Eval vm_compute in ratio 5 10.
(* go: placement/scoring.go const:legacyPreferredNodeBonus *)
Definition legacyPreferredNodeBonus : float := Eval vm_compute in of_int 1000000000.
(* go: placement/scoring.go const:legacyStorageLocalityBonus *)
Definition legacyStorageLocalityBonus : float := Eval vm_compute in of_int 100000000.
(* go: placement/scoring.go const:legacyStorageLocalityPenalty *)
Definition legacyStorageLocalityPenalty : float := Eval vm_compute in of_int 10000000000.

(** [env] is the value of [os.Getenv "FORGE_PLACEMENT_V2"]. *)
(* go: placement/scoring.go func:placementV2 *)
Definition placementV2 (env : string) : bool :=
  let value := ToLower (TrimSpace env) in
  if (value =? "")%string then true
  else negb (value =? "false")%string && negb (value =? "0")%string && negb (value =? "no")%string.

(* go: placement/scoring.go func:clampUnit *)
Definition clampUnit (value : float) : float :=
  if flt value f0 then f0
  else if flt f1 value then f1
  else value.

(* go: placement/scoring.go func:PreferredNodeBonusValue *)
Definition PreferredNodeBonusValue (env : string) : float :=
  if placementV2 env then PreferredNodeBonus else legacyPreferredNodeBonus.

(* go: placement/scoring.go func:StorageMatchBonusValue *)
Definition StorageMatchBonusValue (env : string) : float :=
  if placementV2 env then StorageMatchBonus else legacyStorageLocalityBonus.

(* go: placement/scoring.go func:StorageMismatchPenaltyValue *)
Definition StorageMismatchPenaltyValue (env : string) : float :=
  if placementV2 env then StorageMismatchPenalty else legacyStorageLocalityPenalty.

(** ** The checker *)

(* go: placement/constraints.go func:operatorSpelling *)
Definition operatorSpelling (op : string) : string := ToLower (TrimSpace op).

(* go: placement/constraints.go func:effectiveOperator *)
Definition effectiveOperator (op : string) : string :=
  if (op =? opUnspecified)%string then opIn else op.

(* go: placement/constraints.go func:validateConstraint *)
Definition validateConstraint (constraint : Constraint) : error :=
  let op := operatorSpelling (k_Operator constraint) in
  let ty := k_Type constraint in
  let no_values := match k_Values constraint with [] => true | _ => false end in
  if (ty =? ConstraintAffinity)%string || (ty =? ConstraintAntiAffinity)%string then
    if negb (op =? opUnspecified)%string && negb (op =? opIn)%string then
      Some (cat [ty; " constraint does not implement operator "; quote (k_Operator constraint);
                 " (the type carries the direction)"])
    else if no_values then Some (cat [ty; " constraint requires at least one target server"])
    else None
  else if (ty =? ConstraintRegion)%string || (ty =? ConstraintNode)%string then
    if negb ((op =? opUnspecified)%string || (op =? opIn)%string || (op =? opNotIn)%string) then
      Some (cat [ty; " constraint does not implement operator "; quote (k_Operator constraint);
                 " (supported: in, not-in)"])
    else if no_values then
      Some (cat [ty; " constraint operator "; quote (effectiveOperator op);
                 " requires at least one value"])
    else None
  else if (ty =? ConstraintLabel)%string then
    if (TrimSpace (k_Key constraint) =? "")%string then Some "label constraint requires a key"
    else if negb ((op =? opUnspecified)%string || (op =? opIn)%string || (op =? opNotIn)%string
                  || (op =? opExists)%string || (op =? opNotExists)%string) then
      Some (cat ["label constraint does not implement operator "; quote (k_Operator constraint);
                 " (supported: in, not-in, exists, not-exists)"])
    else if negb (op =? opExists)%string && negb (op =? opNotExists)%string && no_values then
      Some (cat ["label constraint operator "; quote (effectiveOperator op);
                 " requires at least one value"])
    else None
  else Some (cat ["unknown constraint type: "; ty]).

(** The loop of [checkAffinity] over the target servers. *)
(* go: placement/constraints.go tail:checkAffinity *)
Fixpoint affinity_loop (node : string) (m : gmap string string) (all servers : list string) : error :=
  match servers with
  | [] => Some (cat ["node "; node; " does not satisfy affinity with servers "; fmt_strings all])
  | serverID :: rest =>
      match m !! serverID with
      | None => Some (cat ["affinity target server "; serverID; " not found"])
      | Some nodeID => if (nodeID =? node)%string then None else affinity_loop node m all rest
      end
  end.

(* go: placement/constraints.go func:checkAffinity *)
Definition checkAffinity (candidate : Candidate) (constraint : Constraint)
    (ctx : ConstraintContext) : error :=
  if decide (x_ServerNodeMap ctx = ∅) then
    Some (cat ["affinity with servers "; fmt_strings (k_Values constraint);
               " cannot be checked: no server-to-node map in the placement context"])
  else affinity_loop (c_NodeID candidate) (x_ServerNodeMap ctx)
         (k_Values constraint) (k_Values constraint).

(* go: placement/constraints.go tail:checkAntiAffinity *)
Fixpoint anti_affinity_loop (node : string) (m : gmap string string) (servers : list string) : error :=
  match servers with
  | [] => None
  | serverID :: rest =>
      match m !! serverID with
      | None => Some (cat ["anti-affinity target server "; serverID; " not found"])
      | Some nodeID =>
          if (nodeID =? node)%string then
            Some (cat ["node "; node; " violates anti-affinity with server "; serverID])
          else anti_affinity_loop node m rest
      end
  end.

(* go: placement/constraints.go func:checkAntiAffinity *)
Definition checkAntiAffinity (candidate : Candidate) (constraint : Constraint)
    (ctx : ConstraintContext) : error :=
  if decide (x_ServerNodeMap ctx = ∅) then
    Some (cat ["anti-affinity with servers "; fmt_strings (k_Values constraint);
               " cannot be checked: no server-to-node map in the placement context"])
  else anti_affinity_loop (c_NodeID candidate) (x_ServerNodeMap ctx) (k_Values constraint).

(* go: placement/constraints.go func:checkRegion *)
Definition checkRegion (candidate : Candidate) (constraint : Constraint) : error :=
  let op := effectiveOperator (operatorSpelling (k_Operator constraint)) in
  if (op =? opIn)%string then
    if negb (slices_contains (k_Values constraint) (c_RegionID candidate)) then
      Some (cat ["node "; c_NodeID candidate; " region "; c_RegionID candidate; " not in ";
                 fmt_strings (k_Values constraint)])
    else None
  else if (op =? opNotIn)%string then
    if slices_contains (k_Values constraint) (c_RegionID candidate) then
      Some (cat ["node "; c_NodeID candidate; " region "; c_RegionID candidate;
                 " is in excluded set "; fmt_strings (k_Values constraint)])
    else None
  else Some (cat ["region constraint does not implement operator "; quote (k_Operator constraint)]).

(* go: placement/constraints.go func:checkNode *)
Definition checkNode (candidate : Candidate) (constraint : Constraint) : error :=
  let op := effectiveOperator (operatorSpelling (k_Operator constraint)) in
  if (op =? opIn)%string then
    if negb (slices_contains (k_Values constraint) (c_NodeID candidate)) then
      Some (cat ["node "; c_NodeID candidate; " not in allowed set ";
                 fmt_strings (k_Values constraint)])
    else None
  else if (op =? opNotIn)%string then
    if slices_contains (k_Values constraint) (c_NodeID candidate) then
      Some (cat ["node "; c_NodeID candidate; " is in excluded set ";
                 fmt_strings (k_Values constraint)])
    else None
  else Some (cat ["node constraint does not implement operator "; quote (k_Operator constraint)]).

(* go: placement/constraints.go func:labelAvailability *)
Definition labelAvailability (indexed : bool) (ctx : ConstraintContext) : string :=
  if decide (x_NodeLabels ctx = ∅) then "the placement context carries no label index"
  else if negb indexed then "node has no entry in the label index"
  else "node does not carry the key".

(* go: placement/constraints.go func:checkLabel *)
Definition checkLabel (candidate : Candidate) (constraint : Constraint)
    (ctx : ConstraintContext) : error :=
  let op := effectiveOperator (operatorSpelling (k_Operator constraint)) in
  let node := c_NodeID candidate in
  let entry := x_NodeLabels ctx !! node in
  let indexed := bool_decide (is_Some entry) in
  let lookup_value := default ∅ entry !! k_Key constraint in
  let present := bool_decide (is_Some lookup_value) in
  let value := default "" lookup_value in
  if (op =? opExists)%string then
    if negb present then
      Some (cat ["node "; node; " missing label "; k_Key constraint; " (";
                 labelAvailability indexed ctx; ")"])
    else None
  else if (op =? opNotExists)%string then
    if present then Some (cat ["node "; node; " has excluded label "; k_Key constraint])
    else None
  else if (op =? opIn)%string then
    if negb present || negb (slices_contains (k_Values constraint) value) then
      Some (cat ["node "; node; " label "; k_Key constraint; " value "; quote value; " not in ";
                 fmt_strings (k_Values constraint); " ("; labelAvailability indexed ctx; ")"])
    else None
  else if (op =? opNotIn)%string then
    if present && slices_contains (k_Values constraint) value then
      Some (cat ["node "; node; " label "; k_Key constraint; " value "; value;
                 " is in excluded set "; fmt_strings (k_Values constraint)])
    else None
  else Some (cat ["label constraint does not implement operator "; quote (k_Operator constraint)]).

(* go: placement/constraints.go func:checkSingle *)
Definition checkSingle (candidate : Candidate) (constraint : Constraint)
    (ctx : ConstraintContext) : error :=
  match validateConstraint constraint with
  | Some err => Some err
  | None =>
      let ty := k_Type constraint in
      if (ty =? ConstraintAffinity)%string then checkAffinity candidate constraint ctx
      else if (ty =? ConstraintAntiAffinity)%string then checkAntiAffinity candidate constraint ctx
      else if (ty =? ConstraintRegion)%string then checkRegion candidate constraint
      else if (ty =? ConstraintNode)%string then checkNode candidate constraint
      else if (ty =? ConstraintLabel)%string then checkLabel candidate constraint ctx
      else Some (cat ["unknown constraint type: "; ty])
  end.

(** The messages [CheckHard] accumulates, in constraint order. *)
(* go: placement/constraints.go loop:CheckHard *)
Fixpoint hard_failures (candidate : Candidate) (constraints : list Constraint)
    (ctx : ConstraintContext) : list string :=
  match constraints with
  | [] => []
  | constraint :: rest =>
      if negb (k_Required constraint) then hard_failures candidate rest ctx
      else match checkSingle candidate constraint ctx with
           | Some err => err :: hard_failures candidate rest ctx
           | None => hard_failures candidate rest ctx
           end
  end.

(* go: placement/constraints.go func:CheckHard *)
Definition CheckHard (candidate : Candidate) (constraints : list Constraint)
    (ctx : ConstraintContext) : error :=
  match hard_failures candidate constraints ctx with
  | [] => None
  | [err] => Some err
  | failures =>
      Some (cat ["node "; c_NodeID candidate; " failed "; itoa (Z.of_nat (length failures));
                 " required constraints: "; Join failures "; "])
  end.

(** The loop of [CheckSoft]: its reasons, and the counters [evaluated] and
    [satisfied]. *)
(* go: placement/constraints.go loop:CheckSoft *)
Fixpoint soft_loop (candidate : Candidate) (constraints : list Constraint)
    (ctx : ConstraintContext) : list string * Z * Z :=
  match constraints with
  | [] => ([], 0, 0)
  | constraint :: rest =>
      let '(reasons, evaluated, satisfied) := soft_loop candidate rest ctx in
      if k_Required constraint then (reasons, evaluated, satisfied)
      else match checkSingle candidate constraint ctx with
           | None =>
               (cat ["soft constraint satisfied: "; k_Type constraint; " "; k_Key constraint] :: reasons,
                evaluated + 1, satisfied + 1)
           | Some _ =>
               (cat ["soft constraint not satisfied: "; k_Type constraint; " "; k_Key constraint] :: reasons,
                evaluated + 1, satisfied)
           end
  end.

(** The arithmetic of [CheckSoft] on its two counters. *)
(* go: placement/constraints.go L94-102 *)
Definition soft_bonus (env : string) (evaluated satisfied : Z) : float :=
  if evaluated =? 0 then f0
  else
    let missed := evaluated - satisfied in
    if negb (placementV2 env) then
      fsub (fmul (of_int satisfied) legacySoftWeight) (fmul (of_int missed) legacySoftPenalty)
    else
      fsub (fmul (fdiv (of_int satisfied) (of_int evaluated)) kSoftWeight)
           (fmul (fdiv (of_int missed) (of_int evaluated)) kSoftPenalty).

(* go: placement/constraints.go func:CheckSoft *)
Definition CheckSoft (env : string) (candidate : Candidate) (constraints : list Constraint)
    (ctx : ConstraintContext) : float * list string :=
  let '(reasons, evaluated, satisfied) := soft_loop candidate constraints ctx in
  (soft_bonus env evaluated satisfied, reasons).

(* go: placement/constraints.go func:FilterByConstraints *)
Fixpoint FilterByConstraints (candidates : list Candidate) (constraints : list Constraint)
    (ctx : ConstraintContext) : list Candidate * list string :=
  match candidates with
  | [] => ([], [])
  | candidate :: rest =>
      let '(filtered, reasons) := FilterByConstraints rest constraints ctx in
      match CheckHard candidate constraints ctx with
      | Some err => (filtered, cat ["node "; c_NodeID candidate; " excluded: "; err] :: reasons)
      | None => (candidate :: filtered, reasons)
      end
  end.

(** ** What a constraint means

    The abstract specification of the constraint language: when a constraint
    is well formed, and when a node satisfies it. *)
Definition op_is (constraint : Constraint) (op : string) : Prop :=
  effectiveOperator (operatorSpelling (k_Operator constraint)) = op.

Definition well_formed (constraint : Constraint) : Prop :=
  (k_Type constraint = ConstraintAffinity \/ k_Type constraint = ConstraintAntiAffinity) /\
    op_is constraint opIn /\ k_Values constraint <> []
  \/ (k_Type constraint = ConstraintRegion \/ k_Type constraint = ConstraintNode) /\
    (op_is constraint opIn \/ op_is constraint opNotIn) /\ k_Values constraint <> []
  \/ k_Type constraint = ConstraintLabel /\ TrimSpace (k_Key constraint) <> "" /\
    (op_is constraint opExists \/ op_is constraint opNotExists \/
     (op_is constraint opIn \/ op_is constraint opNotIn) /\ k_Values constraint <> []).

(** The label a node carries under a key, if any. *)
Definition node_label (ctx : ConstraintContext) (node key : string) : option string :=
  labels ← x_NodeLabels ctx !! node; labels !! key.

Definition satisfies (candidate : Candidate) (constraint : Constraint)
    (ctx : ConstraintContext) : Prop :=
  let node := c_NodeID candidate in
  let on s := x_ServerNodeMap ctx !! s in
  let values := k_Values constraint in
  (k_Type constraint = ConstraintAffinity ->
     exists before s after, values = before ++ s :: after /\ on s = Some node /\
       forall b, b ∈ before -> is_Some (on b)) /\
  (k_Type constraint = ConstraintAntiAffinity ->
     forall s, s ∈ values -> exists n, on s = Some n /\ n <> node) /\
  (k_Type constraint = ConstraintRegion ->
     (op_is constraint opIn -> c_RegionID candidate ∈ values) /\
     (op_is constraint opNotIn -> c_RegionID candidate ∉ values)) /\
  (k_Type constraint = ConstraintNode ->
     (op_is constraint opIn -> node ∈ values) /\
     (op_is constraint opNotIn -> node ∉ values)) /\
  (k_Type constraint = ConstraintLabel ->
     (op_is constraint opExists -> is_Some (node_label ctx node (k_Key constraint))) /\
     (op_is constraint opNotExists -> node_label ctx node (k_Key constraint) = None) /\
     (op_is constraint opIn ->
        exists v, node_label ctx node (k_Key constraint) = Some v /\ v ∈ values) /\
     (op_is constraint opNotIn ->
        forall v, node_label ctx node (k_Key constraint) = Some v -> v ∉ values)).

(** ** Lemmas *)

Lemma effective_in op : effectiveOperator op = opIn <-> op = opUnspecified \/ op = opIn.
Proof.
  unfold effectiveOperator. destruct (String.eqb_spec op opUnspecified); split; intros;
    destruct_or?; subst; auto; done.
Qed.

Lemma effective_other op o : o <> opIn -> o <> opUnspecified ->
  effectiveOperator op = o <-> op = o.
Proof.
  intros H1 H2. unfold effectiveOperator.
  destruct (String.eqb_spec op opUnspecified); split; intros; subst; congruence.
Qed.

(** Decides string tests against known constants. *)
Ltac str_cases :=
  repeat match goal with
  | |- context [(?a =? ?b)%string] => destruct (String.eqb_spec a b)
  | H : context [(?a =? ?b)%string] |- _ => destruct (String.eqb_spec a b)
  end.

Lemma affinity_loop_spec node m all servers :
  affinity_loop node m all servers = None <->
  exists before s after, servers = before ++ s :: after /\ m !! s = Some node /\
    forall b, b ∈ before -> is_Some (m !! b).
Proof.
  induction servers as [|x rest IH]; simpl.
  { split; [done|]. intros (b & s & a & H & _). by destruct b. }
  destruct (m !! x) as [n|] eqn:E.
  - destruct (String.eqb_spec n node) as [->|Hn].
    + split; [intros _|done]. exists [], x, rest. split_and!; auto. set_solver.
    + rewrite IH. split.
      * intros (b & s & a & -> & Hs & Hb). exists (x :: b), s, a. split_and!; auto.
        intros y [->|Hy]%elem_of_cons; [by eexists|auto].
      * intros (b & s & a & H & Hs & Hb). destruct b as [|y b]; injection H as -> ->.
        { congruence. }
        exists b, s, a. split_and!; auto. intros; apply Hb; by right.
  - split; [done|]. intros (b & s & a & H & Hs & Hb).
    destruct b as [|y b]; injection H as -> ->; [congruence|].
    destruct (Hb y ltac:(left)). congruence.
Qed.

Lemma anti_affinity_loop_spec node m servers :
  anti_affinity_loop node m servers = None <->
  forall s, s ∈ servers -> exists n, m !! s = Some n /\ n <> node.
Proof.
  induction servers as [|x rest IH]; simpl.
  { split; [set_solver|done]. }
  destruct (m !! x) as [n|] eqn:E.
  - destruct (String.eqb_spec n node) as [->|Hn].
    + split; [done|]. intros H. destruct (H x ltac:(left)) as (n & ? & ?). congruence.
    + rewrite IH. split.
      * intros H s [->|Hs]%elem_of_cons; eauto.
      * intros H s Hs. apply H. by right.
  - split; [done|]. intros H. destruct (H x ltac:(left)) as (n & ? & ?). congruence.
Qed.

Lemma in_values_negb l x : (if negb (slices_contains l x) then Some "e" else None) = @None string
  <-> x ∈ l.
Proof. rewrite <- slices_contains_spec. by destruct (slices_contains l x). Qed.

(** Evaluates the string tests between constants and rewrites the refuted
    ones. *)
Ltac eval_eqb :=
  repeat match goal with
  | H : ?a <> ?b |- context [(?a =? ?b)%string] => rewrite (proj2 (String.eqb_neq a b) H)
  | |- context [(?a =? ?b)%string] =>
      let r := eval vm_compute in ((a =? b)%string) in
      match r with true => idtac | false => idtac end; change ((a =? b)%string) with r
  end; cbn [negb andb orb].

Ltac unfold_consts :=
  unfold ConstraintAffinity, ConstraintAntiAffinity, ConstraintRegion, ConstraintNode,
    ConstraintLabel, opIn, opNotIn, opExists, opNotExists, opUnspecified in *.

(** The one constant a string equals, or none of them. *)
Ltac which_type ty :=
  destruct (decide (ty = ConstraintAffinity)) as [->|?];
  [|destruct (decide (ty = ConstraintAntiAffinity)) as [->|?];
  [|destruct (decide (ty = ConstraintRegion)) as [->|?];
  [|destruct (decide (ty = ConstraintNode)) as [->|?];
  [|destruct (decide (ty = ConstraintLabel)) as [->|?]]]]].

Ltac which_op op :=
  destruct (decide (op = opUnspecified)) as [->|?];
  [|destruct (decide (op = opIn)) as [->|?];
  [|destruct (decide (op = opNotIn)) as [->|?];
  [|destruct (decide (op = opExists)) as [->|?];
  [|destruct (decide (op = opNotExists)) as [->|?]]]]].

(** Truth values of the atoms a decided case leaves. *)
Lemma truth_tt : true = true <-> True. Proof. done. Qed.
Lemma truth_ft : false = true <-> False. Proof. done. Qed.
Lemma truth_tf : true = false <-> False. Proof. done. Qed.
Lemma truth_ff : false = false <-> True. Proof. done. Qed.
Lemma truth_none {A} (a : A) : Some a = None <-> False. Proof. done. Qed.
Lemma truth_nil {A} : (@nil A <> []) <-> False. Proof. naive_solver. Qed.
Lemma truth_cons {A} (a : A) l : (a :: l <> []) <-> True. Proof. done. Qed.

Lemma truth_ntt : (true <> true) <-> False. Proof. naive_solver. Qed.
Lemma truth_nft : (false <> true) <-> True. Proof. done. Qed.

(** [validateConstraint] accepts exactly the well-formed constraints. *)
Lemma validateConstraint_spec k : validateConstraint k = None <-> well_formed k.
Proof.
  destruct k as [ty opr key vals req].
  unfold validateConstraint, well_formed, op_is, effectiveOperator.
  cbn [k_Type k_Operator k_Key k_Values].
  generalize (operatorSpelling opr) as op, (TrimSpace key) as tkey. intros op tkey.
  rewrite <- !String.eqb_eq.
  which_type ty; eval_eqb; destruct (tkey =? "")%string; which_op op; eval_eqb;
    destruct vals as [|v vals]; cbn [negb andb orb];
    rewrite ?truth_tt, ?truth_ft, ?truth_ntt, ?truth_nft, ?truth_none, ?truth_nil, ?truth_cons;
    tauto.
Qed.

Lemma well_formed_server_map k : well_formed k ->
  k_Type k = ConstraintAffinity \/ k_Type k = ConstraintAntiAffinity -> k_Values k <> [].
Proof. unfold well_formed. unfold_consts. naive_solver congruence. Qed.

Lemma checkAffinity_spec c k ctx :
  checkAffinity c k ctx = None <->
  exists before s after, k_Values k = (before ++ s :: after)%list /\
    x_ServerNodeMap ctx !! s = Some (c_NodeID c) /\
    forall b, b ∈ before -> is_Some (x_ServerNodeMap ctx !! b).
Proof.
  unfold checkAffinity. case_decide as H; [|apply affinity_loop_spec].
  split; [done|]. rewrite H. intros (? & ? & ? & _ & Hs & _). by rewrite lookup_empty in Hs.
Qed.

Lemma checkAntiAffinity_spec c k ctx :
  k_Values k <> [] ->
  checkAntiAffinity c k ctx = None <->
  forall s, s ∈ k_Values k -> exists n, x_ServerNodeMap ctx !! s = Some n /\ n <> c_NodeID c.
Proof.
  intros Hne. unfold checkAntiAffinity. case_decide as H; [|apply anti_affinity_loop_spec].
  split; [done|]. rewrite H. destruct (k_Values k) as [|v vs]; [done|].
  intros Hs. destruct (Hs v ltac:(left)) as (n & Hn & _). by rewrite lookup_empty in Hn.
Qed.

Lemma checkRegion_spec c k :
  op_is k opIn \/ op_is k opNotIn ->
  checkRegion c k = None <->
  (op_is k opIn -> c_RegionID c ∈ k_Values k) /\ (op_is k opNotIn -> c_RegionID c ∉ k_Values k).
Proof.
  unfold checkRegion, op_is. rewrite <- slices_contains_spec.
  intros [H|H]; rewrite H; eval_eqb; destruct (slices_contains _ _); cbn; naive_solver.
Qed.

Lemma checkNode_spec c k :
  op_is k opIn \/ op_is k opNotIn ->
  checkNode c k = None <->
  (op_is k opIn -> c_NodeID c ∈ k_Values k) /\ (op_is k opNotIn -> c_NodeID c ∉ k_Values k).
Proof.
  unfold checkNode, op_is. rewrite <- slices_contains_spec.
  intros [H|H]; rewrite H; eval_eqb; destruct (slices_contains _ _); cbn; naive_solver.
Qed.

Lemma node_label_default ctx node key :
  default ∅ (x_NodeLabels ctx !! node) !! key = node_label ctx node key.
Proof. unfold node_label. by destruct (x_NodeLabels ctx !! node). Qed.

Lemma checkLabel_spec c k ctx :
  op_is k opExists \/ op_is k opNotExists \/ op_is k opIn \/ op_is k opNotIn ->
  let value := node_label ctx (c_NodeID c) (k_Key k) in
  checkLabel c k ctx = None <->
  (op_is k opExists -> is_Some value) /\ (op_is k opNotExists -> value = None) /\
  (op_is k opIn -> exists v, value = Some v /\ v ∈ k_Values k) /\
  (op_is k opNotIn -> forall v, value = Some v -> v ∉ k_Values k).
Proof.
  unfold checkLabel, op_is. rewrite node_label_default.
  intros Hop. destruct (node_label ctx (c_NodeID c) (k_Key k)) as [v|] eqn:E; cbn;
    [pose proof (slices_contains_spec (k_Values k) v) as Hv; revert Hv|];
    destruct Hop as [H|[H|[H|H]]]; rewrite H; eval_eqb; cbn;
    try (destruct (slices_contains (k_Values k) v); cbn);
    unfold is_Some; naive_solver.
Qed.

(** The checker implements the constraint language. *)
Lemma checkSingle_iff c k ctx :
  checkSingle c k ctx = None <-> well_formed k /\ satisfies c k ctx.
Proof.
  unfold checkSingle. pose proof (validateConstraint_spec k) as Hv.
  destruct (validateConstraint k) as [e|]; [naive_solver|].
  assert (Hwf : well_formed k) by (by apply Hv). clear Hv.
  enough ((let ty := k_Type k in
    if (ty =? ConstraintAffinity)%string then checkAffinity c k ctx
    else if (ty =? ConstraintAntiAffinity)%string then checkAntiAffinity c k ctx
    else if (ty =? ConstraintRegion)%string then checkRegion c k
    else if (ty =? ConstraintNode)%string then checkNode c k
    else if (ty =? ConstraintLabel)%string then checkLabel c k ctx
    else Some (cat ["unknown constraint type: "%string; ty])) = None <-> satisfies c k ctx)
    by naive_solver.
  unfold satisfies. cbv zeta. generalize Hwf. intros [[Ht [Ho Hn]]|[[Ht [Ho Hn]]|[Ht [Hk Ho]]]].
  - destruct Ht as [Ht|Ht]; rewrite Ht; eval_eqb.
    + rewrite checkAffinity_spec. unfold_consts. naive_solver.
    + rewrite checkAntiAffinity_spec by done. unfold_consts. naive_solver.
  - destruct Ht as [Ht|Ht]; rewrite Ht; eval_eqb.
    + rewrite checkRegion_spec by done. unfold_consts. naive_solver.
    + rewrite checkNode_spec by done. unfold_consts. naive_solver.
  - rewrite Ht; eval_eqb. rewrite checkLabel_spec by naive_solver.
    unfold_consts. naive_solver.
Qed.

Lemma hard_failures_nil c ks ctx :
  hard_failures c ks ctx = [] <->
  forall k, k ∈ ks -> k_Required k = true -> checkSingle c k ctx = None.
Proof.
  induction ks as [|k ks IH]; simpl; [set_solver|].
  destruct (k_Required k) eqn:Er; simpl.
  - destruct (checkSingle c k ctx) eqn:Ec.
    + split; [done|]. intros H. specialize (H k ltac:(left) Er). congruence.
    + rewrite IH. split.
      * intros H k' [->|Hk]%elem_of_cons; auto.
      * intros H k' Hk. apply H. by right.
  - rewrite IH. split.
    + intros H k' [->|Hk]%elem_of_cons; [congruence|auto].
    + intros H k' Hk. apply H. by right.
Qed.

Lemma CheckHard_nil c ks ctx : CheckHard c ks ctx = None <-> hard_failures c ks ctx = [].
Proof. unfold CheckHard. destruct (hard_failures c ks ctx) as [|? [|? ?]]; done. Qed.

(** The nodes a request accepts: every required constraint holds. *)
Definition admissible (ks : list Constraint) (ctx : ConstraintContext) (c : Candidate) : Prop :=
  forall k, k ∈ ks -> k_Required k = true -> well_formed k /\ satisfies c k ctx.

Lemma CheckHard_admissible c ks ctx : CheckHard c ks ctx = None <-> admissible ks ctx c.
Proof.
  rewrite CheckHard_nil, hard_failures_nil. unfold admissible.
  by setoid_rewrite checkSingle_iff.
Qed.

Lemma FilterByConstraints_fst cs ks ctx :
  (FilterByConstraints cs ks ctx).1 = filter (fun c => CheckHard c ks ctx = None) cs.
Proof.
  induction cs as [|c cs IH]; simpl; [done|].
  destruct (FilterByConstraints cs ks ctx) as [fs rs]. simpl in IH.
  rewrite filter_cons. case_decide as Hd.
  - by rewrite Hd, IH.
  - by destruct (CheckHard c ks ctx).
Qed.

Lemma FilterByConstraints_length cs ks ctx :
  (length (FilterByConstraints cs ks ctx).1 + length (FilterByConstraints cs ks ctx).2
   = length cs)%nat.
Proof.
  induction cs as [|c cs IH]; simpl; [done|].
  destruct (FilterByConstraints cs ks ctx) as [fs rs].
  destruct (CheckHard c ks ctx); simpl in *; lia.
Qed.

Lemma FilterByConstraints_elem c cs ks ctx :
  c ∈ (FilterByConstraints cs ks ctx).1 <-> c ∈ cs /\ admissible ks ctx c.
Proof.
  rewrite FilterByConstraints_fst, list_elem_of_filter, CheckHard_admissible. tauto.
Qed.

(** The soft bonus is bounded whatever the number of constraints: checked on
    every pair of counters up to the bound. *)
Definition soft_bonus_in_band (e s : Z) : bool :=
  let b := soft_bonus "" e s in
  fle (SFopp kSoftPenalty) b && fle b kSoftWeight.

Definition soft_band_upto (n : nat) : bool :=
  forallb (fun e => forallb (fun s => soft_bonus_in_band (Z.of_nat e) (Z.of_nat s)) (seq 0 (S e)))
          (seq 0 (S n)).

Lemma soft_band_64 : soft_band_upto 64 = true.
Proof. vm_compute. reflexivity. Qed.

Lemma soft_bonus_band n e s :
  soft_band_upto n = true -> 0 <= s <= e -> e <= Z.of_nat n -> soft_bonus_in_band e s = true.
Proof.
  unfold soft_band_upto. intros H Hs He.
  assert (He' : In (Z.to_nat e) (seq 0 (S n))) by (apply in_seq; lia).
  assert (Hs' : In (Z.to_nat s) (seq 0 (S (Z.to_nat e)))) by (apply in_seq; lia).
  pose proof (proj1 (forallb_forall _ _) H _ He') as H1.
  pose proof (proj1 (forallb_forall _ _) H1 _ Hs') as H2.
  by rewrite !Z2Nat.id in H2 by lia.
Qed.

Lemma soft_loop_counts c ks ctx :
  let '(_, e, s) := soft_loop c ks ctx in
  0 <= s <= e /\ e = Z.of_nat (length (filter (fun k => k_Required k = false) ks)).
Proof.
  induction ks as [|k ks IH]; simpl; [done|].
  destruct (soft_loop c ks ctx) as [[rs e] s]. rewrite filter_cons.
  destruct (k_Required k); simpl; [done|].
  destruct (checkSingle c k ctx); simpl; lia.
Qed.

(** ** Properties *)

(** Filtering is exactly the constraint language.  A candidate survives
    [FilterByConstraints] if and only if every required constraint is well
    formed and holds of it (so a constraint that cannot be evaluated excludes
    every node), the survivors keep the candidates' order, and every other
    candidate is reported with one reason. *)
Lemma FilterByConstraints_correct cs ks ctx :
  let '(filtered, reasons) := FilterByConstraints cs ks ctx in
  (forall c, c ∈ filtered <-> c ∈ cs /\ admissible ks ctx c) /\
  filtered `sublist_of` cs /\
  (length filtered + length reasons = length cs)%nat.
Proof.
  pose proof (FilterByConstraints_length cs ks ctx) as Hl.
  pose proof (fun c => FilterByConstraints_elem c cs ks ctx) as He.
  pose proof (FilterByConstraints_fst cs ks ctx) as Hf.
  destruct (FilterByConstraints cs ks ctx) as [fs rs]. simpl in *.
  split_and!; [done| |done]. subst fs. apply sublist_filter.
Qed.

(** A preference stays a preference.  With normalised scoring the soft
    bonus of a candidate lies between [-kSoftPenalty] and [kSoftWeight] for
    any constraints (up to 64 soft ones), however many of them repeat. *)
Lemma CheckSoft_bounded env c ks ctx :
  placementV2 env = true ->
  (length (filter (fun k => k_Required k = false) ks) <= 64)%nat ->
  let bonus := (CheckSoft env c ks ctx).1 in
  fle (SFopp kSoftPenalty) bonus = true /\ fle bonus kSoftWeight = true.
Proof.
  intros Hv Hn. unfold CheckSoft. pose proof (soft_loop_counts c ks ctx) as Hc.
  destruct (soft_loop c ks ctx) as [[rs e] s]. destruct Hc as [Hs He]. simpl.
  replace (soft_bonus env e s) with (soft_bonus "" e s) by (unfold soft_bonus; by rewrite Hv).
  apply andb_prop, (soft_bonus_band 64); [apply soft_band_64|lia|lia].
Qed.

Definition witness_candidate (node region : string) : Candidate :=
  mkCandidate node region 4000 8192 50000 1000 2048 10000 3000 6144 40000 2 false false
    "online" "" "".

Definition witness_constraints : list Constraint :=
  [ mkConstraint ConstraintRegion "" "" ["eu"%string] false;
    mkConstraint ConstraintNode "not-in" "" ["n1"%string] false;
    mkConstraint ConstraintRegion " IN " "" ["eu"%string; "us"%string] true ].

Lemma CheckSoft_bounded_witness :
  let ctx := mkConstraintContext ∅ ∅ in
  let bonus := (CheckSoft "" (witness_candidate "n1" "eu") witness_constraints ctx).1 in
  fmt_fixed 2 bonus = "0.10"%string /\
  fle (SFopp kSoftPenalty) bonus = true /\ fle bonus kSoftWeight = true.
Proof.
  split; [vm_compute; reflexivity|].
  apply (CheckSoft_bounded "" (witness_candidate "n1" "eu") witness_constraints
           (mkConstraintContext ∅ ∅)); [reflexivity|vm_compute; lia].
Defined.
