(* ===== verification/Strategy.v ===== *)
(** * Placement strategies

    [forge/api/internal/placement/strategy.go]: the request-scoped world the
    placement engine runs in, the [Scorer] interface, the four scorers and the
    capacity check they share. *)
From Stdlib Require Import ZArith Lia SpecFloat.
From stdpp Require Import base gmap strings list.
From S2P Require Import Prelude GoStrings GoFloat Constraints.
#[local] Open Scope string_scope.
#[local] Open Scope list_scope.
#[local] Open Scope Z_scope.
#[local] Open Scope go_scope.

(** ** The world of a placement

    [w_ctx] is the caller's [context.Context]: [None] is never cancelled,
    [Some (n, e)] answers nil to [n] more calls of [ctx.Err()] and then [e]
    for good.  [w_rng] counts the draws from the random scorer's source.
    [w_log] is what the engine's logger was handed, newest last. *)
Inductive LogEntry : Type :=
| LogFiltered (reason : string)
| LogFailedScoring (node reason : string)
| LogSelected (node : string) (score : float)
| LogTie (node : string) (score : float) (tied : Z).

Record World := mkWorld {
  w_ctx : option (nat * string);
  w_rng : nat;
  w_log : list LogEntry
}.

Definition ctx_Err : St World error := fun w =>
  match w_ctx w with
  | None => (None, w)
  | Some (O, e) => (Some e, w)
  | Some (S n, e) => (None, mkWorld (Some (n, e)) (w_rng w) (w_log w))
  end.

(** ** Data *)

(* go: placement/strategy.go const:StrategyLeastLoaded *)
Definition StrategyLeastLoaded : string := "least-loaded".
(* go: placement/strategy.go const:StrategyBinPack *)
Definition StrategyBinPack : string := "bin-pack".
(* go: placement/strategy.go const:StrategySpread *)
Definition StrategySpread : string := "spread".
(* go: placement/strategy.go const:StrategyRandom *)
Definition StrategyRandom : string := "random".

(* go: placement/strategy.go type:WorkloadRequest *)
Record WorkloadRequest := mkWorkloadRequest {
  q_CPU : Z;
  q_MemoryMB : Z;
  q_DiskMB : Z;
  q_PreferredNode : string;
  q_RequiredNode : string;
  q_RegionID : string;
  q_StorageLocality : string;
  q_Constraints : list Constraint;
  q_ConstraintCtx : ConstraintContext
}.

(* go: placement/strategy.go type:ScoreResult *)
Record ScoreResult := mkScoreResult {
  sr_NodeID : string;
  sr_Score : float;
  sr_Reasons : list string;
  sr_StorageLocality : string
}.

(** The [Scorer] interface: a name, and a method that may read and change the
    world (the random scorer draws from its source). *)
(* go: placement/strategy.go type:Scorer *)
Record Scorer := mkScorer {
  s_Name : string;
  s_Score : Candidate -> WorkloadRequest -> St World (result (float * list string))
}.

(** ** Capacity *)

(* go: placement/strategy.go func:ensureCapacity *)
Definition ensureCapacity (candidate : Candidate) (request : WorkloadRequest) : error :=
  if (q_CPU request <? 0) || (q_MemoryMB request <? 0) || (q_DiskMB request <? 0) then
    Some "workload resources must not be negative"
  else if (0 <? q_CPU request) && (c_TotalCPU candidate <=? 0) then
    Some (cat ["candidate "; c_NodeID candidate; " has unknown CPU capacity"])
  else if (0 <? q_MemoryMB request) && (c_TotalMemory candidate <=? 0) then
    Some (cat ["candidate "; c_NodeID candidate; " has unknown memory capacity"])
  else if (0 <? q_DiskMB request) && (c_TotalDisk candidate <=? 0) then
    Some (cat ["candidate "; c_NodeID candidate; " has unknown disk capacity"])
  else if (c_AvailableCPU candidate <? q_CPU request)
       || (c_AvailableMemory candidate <? q_MemoryMB request)
       || (c_AvailableDisk candidate <? q_DiskMB request) then
    Some (cat ["candidate "; c_NodeID candidate; " does not have enough capacity"])
  else None.

(* go: placement/strategy.go func:availableRatio *)
Definition availableRatio (env : string) (available total : Z) : float :=
  if total <=? 0 then
    if negb (placementV2 env) then of_int available
    else if available <=? 0 then f0
    else fdiv (of_int available) (of_int (available +i 1000))
  else
    let r := fdiv (of_int available) (of_int total) in
    if negb (placementV2 env) then r else clampUnit r.

(** ** The scorers *)

(* go: placement/strategy.go func:LeastLoadedScorer.Score *)
Definition LeastLoaded_Score (env : string) (candidate : Candidate) (request : WorkloadRequest)
    : result (float * list string) :=
  match ensureCapacity candidate request with
  | Some err => Err err
  | None =>
      let score := fadd (fadd (availableRatio env (c_AvailableMemory candidate) (c_TotalMemory candidate))
                              (availableRatio env (c_AvailableCPU candidate) (c_TotalCPU candidate)))
                        (availableRatio env (c_AvailableDisk candidate) (c_TotalDisk candidate)) in
      let score := if placementV2 env then fdiv score (of_int 3) else score in
      Ok (score,
          [ cat ["available memory: "; itoa (c_AvailableMemory candidate); " MB"];
            cat ["available CPU: "; itoa (c_AvailableCPU candidate); " shares"];
            cat ["available disk: "; itoa (c_AvailableDisk candidate); " MB"] ])
  end.

(** One of the three utilisation ratios of the bin-pack scorer. *)
(* go: placement/strategy.go L121-130 *)
Definition utilization (allocated total : Z) : float :=
  if 0 <? total then fdiv (of_int allocated) (of_int total) else f0.

(* go: placement/strategy.go func:BinPackScorer.Score *)
Definition BinPack_Score (candidate : Candidate) (request : WorkloadRequest)
    : result (float * list string) :=
  match ensureCapacity candidate request with
  | Some err => Err err
  | None =>
      let memUtil := utilization (c_AllocatedMemory candidate) (c_TotalMemory candidate) in
      let cpuUtil := utilization (c_AllocatedCPU candidate) (c_TotalCPU candidate) in
      let diskUtil := utilization (c_AllocatedDisk candidate) (c_TotalDisk candidate) in
      let score := fmax memUtil (fmax cpuUtil diskUtil) in
      let pct u := fmt_fixed 0 (fround (fmul u (of_int 100))) in
      Ok (score,
          [ cat ["memory utilization: "; pct memUtil; "%"];
            cat ["CPU utilization: "; pct cpuUtil; "%"];
            cat ["disk utilization: "; pct diskUtil; "%"];
            cat ["bin-pack score takes the max: "; fmt_fixed 3 score] ])
  end.

(* go: placement/strategy.go func:SpreadScorer.Score *)
Definition Spread_Score (candidate : Candidate) (request : WorkloadRequest)
    : result (float * list string) :=
  match ensureCapacity candidate request with
  | Some err => Err err
  | None =>
      let score := fdiv f1 (fadd f1 (of_int (c_ServerCount candidate))) in
      Ok (score, [ cat ["server count: "; itoa (c_ServerCount candidate)];
                   cat ["inverse weight: "; fmt_fixed 3 score] ])
  end.

(** [rng n] is the [n]-th value the source's [Float64] returns. *)
(* go: placement/strategy.go func:RandomScorer.Score *)
Definition Random_Score (rng : nat -> float) (candidate : Candidate) (request : WorkloadRequest)
    : St World (result (float * list string)) := fun w =>
  match ensureCapacity candidate request with
  | Some err => (Err err, w)
  | None =>
      let score := rng (w_rng w) in
      (Ok (score, [ cat ["random score: "; fmt_fixed 4 score] ]),
       mkWorld (w_ctx w) (S (w_rng w)) (w_log w))
  end.

(* go: placement/strategy.go func:invalidScorer.Score *)
Definition invalid_Score (strategy : string) : result (float * list string) :=
  Err (cat ["unknown placement strategy "; quote strategy]).

(* go: placement/strategy.go type:LeastLoadedScorer *)
Definition LeastLoadedScorer (env : string) : Scorer :=
  mkScorer StrategyLeastLoaded (fun c r => ret (LeastLoaded_Score env c r)).
(* go: placement/strategy.go type:BinPackScorer *)
Definition BinPackScorer : Scorer :=
  mkScorer StrategyBinPack (fun c r => ret (BinPack_Score c r)).
(* go: placement/strategy.go type:SpreadScorer *)
Definition SpreadScorer : Scorer :=
  mkScorer StrategySpread (fun c r => ret (Spread_Score c r)).
(* go: placement/strategy.go type:RandomScorer *)
Definition RandomScorer (rng : nat -> float) : Scorer :=
  mkScorer StrategyRandom (Random_Score rng).
(* go: placement/strategy.go type:invalidScorer *)
Definition invalidScorer (strategy : string) : Scorer :=
  mkScorer strategy (fun _ _ => ret (invalid_Score strategy)).

(* go: placement/strategy.go func:NewScorer *)
Definition NewScorer (env : string) (rng : nat -> float) (strategy : string) : Scorer :=
  if (strategy =? StrategyBinPack)%string then BinPackScorer
  else if (strategy =? StrategySpread)%string then SpreadScorer
  else if (strategy =? StrategyRandom)%string then RandomScorer rng
  else if (strategy =? "")%string || (strategy =? StrategyLeastLoaded)%string then
    LeastLoadedScorer env
  else invalidScorer strategy.

(** ** What a scorer promises the engine *)

(** The capacity a candidate must show for a request. *)
Definition fits (candidate : Candidate) (request : WorkloadRequest) : Prop :=
  (0 <= q_CPU request <= c_AvailableCPU candidate) /\
  (0 <= q_MemoryMB request <= c_AvailableMemory candidate) /\
  (0 <= q_DiskMB request <= c_AvailableDisk candidate) /\
  (0 < q_CPU request -> 0 < c_TotalCPU candidate) /\
  (0 < q_MemoryMB request -> 0 < c_TotalMemory candidate) /\
  (0 < q_DiskMB request -> 0 < c_TotalDisk candidate).

(** A scorer that never scores a candidate the workload does not fit on. *)
Class CapacityChecked (s : Scorer) : Prop :=
  capacity_checked : forall c r w v w', s_Score s c r w = (Ok v, w') -> fits c r.

(** A scorer that neither reads nor changes the world. *)
Class PureScorer (s : Scorer) : Type := {
  pure_score : Candidate -> WorkloadRequest -> result (float * list string);
  pure_score_eq : forall c r w, s_Score s c r w = (pure_score c r, w)
}.
Arguments pure_score s {_} c r.

Lemma ensureCapacity_fits c r : ensureCapacity c r = None <-> fits c r.
Proof. unfold ensureCapacity, fits. repeat case_match; zb; split; intros; try done; lia. Qed.

#[export] Instance LeastLoaded_checked env : CapacityChecked (LeastLoadedScorer env).
Proof.
  intros c r w v w'. simpl. unfold ret, LeastLoaded_Score.
  destruct (ensureCapacity c r) eqn:E; [done|]. intros _. by apply ensureCapacity_fits.
Qed.

#[export] Instance BinPack_checked : CapacityChecked BinPackScorer.
Proof.
  intros c r w v w'. simpl. unfold ret, BinPack_Score.
  destruct (ensureCapacity c r) eqn:E; [done|]. intros _. by apply ensureCapacity_fits.
Qed.

#[export] Instance Spread_checked : CapacityChecked SpreadScorer.
Proof.
  intros c r w v w'. simpl. unfold ret, Spread_Score.
  destruct (ensureCapacity c r) eqn:E; [done|]. intros _. by apply ensureCapacity_fits.
Qed.

#[export] Instance Random_checked rng : CapacityChecked (RandomScorer rng).
Proof.
  intros c r w v w'. simpl. unfold Random_Score.
  destruct (ensureCapacity c r) eqn:E; [done|]. intros _. by apply ensureCapacity_fits.
Qed.

#[export] Instance invalid_checked strategy : CapacityChecked (invalidScorer strategy).
Proof. intros c r w v w'. done. Qed.

#[export] Instance NewScorer_checked env rng strategy : CapacityChecked (NewScorer env rng strategy).
Proof. unfold NewScorer. repeat case_match; apply _. Qed.

#[export] Instance LeastLoaded_pure env : PureScorer (LeastLoadedScorer env) :=
  Build_PureScorer (LeastLoadedScorer env) (LeastLoaded_Score env) (fun c r w => eq_refl).
#[export] Instance BinPack_pure : PureScorer BinPackScorer :=
  Build_PureScorer BinPackScorer BinPack_Score (fun c r w => eq_refl).
#[export] Instance Spread_pure : PureScorer SpreadScorer :=
  Build_PureScorer SpreadScorer Spread_Score (fun c r w => eq_refl).
