(* ===== verification/Engine.v ===== *)
(** * The placement engine

    [forge/api/internal/placement/engine.go] and [explain.go]: filter, score
    and soft-weight every candidate ([evaluate]), pick one ([Place]), rank
    them ([PlaceAll]), and the report that explains a decision
    ([ExplainPlacement], [ExplainScores]). *)
From Stdlib Require Import ZArith Lia SpecFloat Sorting.Sorted.
From stdpp Require Import base gmap strings list.
From S2P Require Import Prelude GoStrings GoFloat GoSort Constraints Strategy.
#[local] Open Scope string_scope.
#[local] Open Scope list_scope.
#[local] Open Scope Z_scope.
#[local] Open Scope go_scope.

(** ** Data *)

(** The checker is stateless; [e_logger] says whether a logger is attached. *)
(* go: placement/engine.go type:Engine *)
Record Engine := mkEngine { e_scorer : Scorer; e_logger : bool }.

(* go: placement/engine.go func:NewEngine *)
Definition NewEngine (scorer : Scorer) : Engine := mkEngine scorer false.

(* go: placement/engine.go func:Engine.WithLogger *)
Definition WithLogger (e : Engine) (attached : bool) : Engine := mkEngine (e_scorer e) attached.

(* go: placement/explain.go type:ScoreFailure *)
Record ScoreFailure := mkScoreFailure { sf_NodeID : string; sf_Reason : string }.

(* go: placement/explain.go type:FilterReason *)
Record FilterReason := mkFilterReason {
  fr_NodeID : string; fr_Constraint : Constraint; fr_Reason : string
}.

(* go: placement/explain.go type:PlacementReport *)
Record PlacementReport := mkPlacementReport {
  pr_Request : WorkloadRequest;
  pr_TotalCandidates : Z;
  pr_FilteredOut : list FilterReason;
  pr_ScoreFailures : list ScoreFailure;
  pr_ScoredCandidates : list ScoreResult;
  pr_Selected : option ScoreResult
}.

(* go: placement/explain.go type:ScoreBreakdown *)
Record ScoreBreakdown := mkScoreBreakdown {
  sb_NodeID : string; sb_BaseScore : float; sb_SoftConstraintBonus : float;
  sb_Reasons : list string
}.

(* go: placement/engine.go const:maxFailureReasons *)
Definition maxFailureReasons : Z := 5.
(* go: placement/engine.go const:maxFailureNodes *)
Definition maxFailureNodes : nat := 5.

(** ** Logging *)

(* go: placement/engine.go func:Engine.log *)
Definition engine_log (e : Engine) (entry : LogEntry) : St World unit := fun w =>
  (tt, if e_logger e then mkWorld (w_ctx w) (w_rng w) (w_log w ++ [entry]) else w).

Fixpoint log_filtered (e : Engine) (reasons : list string) : St World unit :=
  match reasons with
  | [] => ret tt
  | r :: rest => engine_log e (LogFiltered r) ;;; log_filtered e rest
  end.

(** ** The error of a placement nobody can take *)

(** The first loop: the distinct reasons in order of first appearance, and the
    nodes each was reported for. *)
(* go: placement/engine.go L138-145 *)
Fixpoint group_failures (failures : list ScoreFailure) (order : list string)
    (nodesByReason : gmap string (list string)) : list string * gmap string (list string) :=
  match failures with
  | [] => (order, nodesByReason)
  | f :: rest =>
      let seen := nodesByReason !! sf_Reason f in
      group_failures rest
        (match seen with None => order ++ [sf_Reason f] | Some _ => order end)
        (<[sf_Reason f := default [] seen ++ [sf_NodeID f]]> nodesByReason)
  end.

(* go: placement/engine.go L148-159 *)
Fixpoint failure_parts (total i : Z) (order : list string)
    (nodesByReason : gmap string (list string)) : list string :=
  match order with
  | [] => []
  | reason :: rest =>
      if maxFailureReasons <=? i then [cat [itoa (total - i); " further distinct scoring failures"]]
      else
        let nodes := default [] (nodesByReason !! reason) in
        let more := (length nodes - maxFailureNodes)%nat in
        let '(shown, suffix) :=
          if (maxFailureNodes <? length nodes)%nat
          then (take maxFailureNodes nodes, cat [" and "; itoa (Z.of_nat more); " more"])
          else (nodes, "") in
        cat [reason; " ("; Join shown ", "; suffix; ")"]
          :: failure_parts total (i + 1) rest nodesByReason
  end.

(* go: placement/engine.go func:describeScoreFailures *)
Definition describeScoreFailures (failures : list ScoreFailure) : string :=
  let '(order, nodesByReason) := group_failures failures [] ∅ in
  Join (failure_parts (Z.of_nat (length order)) 0 order nodesByReason) "; ".

Section Engine.
(** [env] is the value of [FORGE_PLACEMENT_V2]. *)
Context (env : string).

(** ** Evaluation *)

(* go: placement/engine.go L94-111 *)
Fixpoint evaluate_loop (e : Engine) (req : WorkloadRequest) (filtered : list Candidate)
    (results : list ScoreResult) (failures : list ScoreFailure)
    : St World (list ScoreResult * list ScoreFailure * error) :=
  match filtered with
  | [] => ret (results, failures, None)
  | c :: rest =>
      let! err := ctx_Err in
      match err with
      | Some msg => ret ([], failures, Some (cat ["placement cancelled: "; msg]))
      | None =>
          let! scored := s_Score (e_scorer e) c req in
          match scored with
          | Err msg =>
              engine_log e (LogFailedScoring (c_NodeID c) msg) ;;;
              evaluate_loop e req rest results (failures ++ [mkScoreFailure (c_NodeID c) msg])
          | Ok (score, scoreReasons) =>
              let '(bonus, bonusReasons) := CheckSoft env c (q_Constraints req) (q_ConstraintCtx req) in
              evaluate_loop e req rest
                (results ++ [mkScoreResult (c_NodeID c) (fadd score bonus)
                               (scoreReasons ++ bonusReasons) (c_StorageLocality c)])
                failures
          end
      end
  end.

(* go: placement/engine.go func:Engine.evaluate *)
Definition evaluate (e : Engine) (candidates : list Candidate) (req : WorkloadRequest)
    : St World (list ScoreResult * list ScoreFailure * error) :=
  let '(filtered, reasons) :=
    FilterByConstraints candidates (q_Constraints req) (q_ConstraintCtx req) in
  log_filtered e reasons ;;;
  match filtered with
  | [] => ret ([], [], Some "no viable candidates after constraint filtering")
  | _ =>
      let! '(results, failures, err) := evaluate_loop e req filtered [] [] in
      match err with
      | Some msg => ret ([], failures, Some msg)
      | None =>
          match results with
          | [] =>
              match failures with
              | [] => ret ([], [], Some "no viable candidates after scoring")
              | _ => ret ([], failures, Some (cat ["no viable candidates after scoring: ";
                                                   describeScoreFailures failures]))
              end
          | _ => ret (results, failures, None)
          end
      end
  end.

(** ** Selection *)

(** The scan of [Place]: the best result so far and how many tie with it. *)
(* go: placement/engine.go L48-56 *)
Fixpoint place_scan (best : ScoreResult) (tied : Z) (results : list ScoreResult) : ScoreResult * Z :=
  match results with
  | [] => (best, tied)
  | r :: rest =>
      if flt (sr_Score best) (sr_Score r) then place_scan r 1 rest
      else if feq (sr_Score r) (sr_Score best) then place_scan best (tied + 1) rest
      else place_scan best tied rest
  end.

(* go: placement/engine.go func:Engine.Place *)
Definition Place (e : Engine) (candidates : list Candidate) (req : WorkloadRequest)
    : St World (outcome (result ScoreResult)) :=
  let! '(results, _, err) := evaluate e candidates req in
  match err with
  | Some msg => ret (Returns (Err msg))
  | None =>
      match results with
      | [] => ret Panics
      | first :: rest =>
          let '(best, tied) := place_scan first 1 rest in
          engine_log e (LogSelected (sr_NodeID best) (sr_Score best)) ;;;
          (if 1 <? tied then engine_log e (LogTie (sr_NodeID best) (sr_Score best) tied)
           else ret tt) ;;;
          ret (Returns (Ok best))
      end
  end.

Definition higher_score (a b : ScoreResult) : bool := flt (sr_Score b) (sr_Score a).

(* go: placement/engine.go func:Engine.PlaceAll *)
Definition PlaceAll (e : Engine) (candidates : list Candidate) (req : WorkloadRequest)
    : St World (result (list ScoreResult)) :=
  let! '(results, _, err) := evaluate e candidates req in
  match err with
  | Some msg => ret (Err msg)
  | None => ret (Ok (isort higher_score results))
  end.

(** ** Explanation *)

(* go: placement/explain.go L57-67 *)
Fixpoint first_failed (candidate : Candidate) (hard : list Constraint) (ctx : ConstraintContext)
    : option FilterReason :=
  match hard with
  | [] => None
  | constraint :: rest =>
      match checkSingle candidate constraint ctx with
      | Some err => Some (mkFilterReason (c_NodeID candidate) constraint err)
      | None => first_failed candidate rest ctx
      end
  end.

(* go: placement/explain.go L51-71 *)
Fixpoint explain_filter (hard : list Constraint) (ctx : ConstraintContext)
    (candidates : list Candidate) (out : list FilterReason) (viable : list Candidate)
    : St World (list FilterReason * list Candidate) :=
  match candidates with
  | [] => ret (out, viable)
  | candidate :: rest =>
      let! err := ctx_Err in
      match err with
      | Some _ => ret (out, viable)
      | None =>
          match first_failed candidate hard ctx with
          | Some reason => explain_filter hard ctx rest (out ++ [reason]) viable
          | None => explain_filter hard ctx rest out (viable ++ [candidate])
          end
      end
  end.

(* go: placement/explain.go L73-93 *)
Fixpoint explain_score (scorer : Scorer) (req : WorkloadRequest) (viable : list Candidate)
    (failures : list ScoreFailure) (scored : list ScoreResult)
    : St World (list ScoreFailure * list ScoreResult) :=
  match viable with
  | [] => ret (failures, scored)
  | c :: rest =>
      let! err := ctx_Err in
      match err with
      | Some _ => ret (failures, scored)
      | None =>
          let! s := s_Score scorer c req in
          match s with
          | Err msg => explain_score scorer req rest (failures ++ [mkScoreFailure (c_NodeID c) msg]) scored
          | Ok (score, reasons) =>
              let '(bonus, bonusReasons) := CheckSoft env c (q_Constraints req) (q_ConstraintCtx req) in
              explain_score scorer req rest failures
                (scored ++ [mkScoreResult (c_NodeID c) (fadd score bonus) (reasons ++ bonusReasons) ""])
          end
      end
  end.

(* go: placement/explain.go L95-103 *)
Fixpoint explain_best (best : ScoreResult) (scored : list ScoreResult) : ScoreResult :=
  match scored with
  | [] => best
  | s :: rest => explain_best (if flt (sr_Score best) (sr_Score s) then s else best) rest
  end.

(* go: placement/explain.go func:ExplainPlacement *)
Definition ExplainPlacement (e : Engine) (candidates : list Candidate) (req : WorkloadRequest)
    : St World PlacementReport :=
  let hard := filter (fun k => k_Required k = true) (q_Constraints req) in
  let! '(out, viable) := explain_filter hard (q_ConstraintCtx req) candidates [] [] in
  let! '(failures, scored) := explain_score (e_scorer e) req viable [] [] in
  ret (mkPlacementReport req (Z.of_nat (length candidates)) out failures scored
         (match scored with [] => None | best :: rest => Some (explain_best best rest) end)).

(* go: placement/explain.go func:ExplainScores *)
Fixpoint ExplainScores (scorer : Scorer) (candidates : list Candidate) (req : WorkloadRequest)
    : St World (list ScoreBreakdown) :=
  match candidates with
  | [] => ret []
  | c :: rest =>
      let! s := s_Score scorer c req in
      match s with
      | Err _ => ExplainScores scorer rest req
      | Ok (score, reasons) =>
          let '(bonus, bonusReasons) := CheckSoft env c (q_Constraints req) (q_ConstraintCtx req) in
          let! breakdowns := ExplainScores scorer rest req in
          ret (mkScoreBreakdown (c_NodeID c) score bonus (reasons ++ bonusReasons) :: breakdowns)
      end
  end.
End Engine.

(** ** What a decision is allowed to be *)

(** [r] is the score the engine gives candidate [c]: the scorer's answer in
    some world, plus the soft bonus. *)
Definition scored_as (env : string) (e : Engine) (req : WorkloadRequest) (c : Candidate)
    (r : ScoreResult) : Prop :=
  exists w score reasons w',
    s_Score (e_scorer e) c req w = (Ok (score, reasons), w') /\
    let '(bonus, bonusReasons) := CheckSoft env c (q_Constraints req) (q_ConstraintCtx req) in
    r = mkScoreResult (c_NodeID c) (fadd score bonus) (reasons ++ bonusReasons) (c_StorageLocality c).

(** [b] beats everything in [l], and everything before it strictly. *)
Definition first_best (l : list ScoreResult) (b : ScoreResult) (tied : Z) : Prop :=
  exists l1 l2, l = l1 ++ b :: l2 /\
    (forall x, x ∈ l1 -> flt (sr_Score b) (sr_Score x) = false /\
                         feq (sr_Score x) (sr_Score b) = false) /\
    (forall x, x ∈ l2 -> flt (sr_Score b) (sr_Score x) = false) /\
    tied = Z.of_nat (length (filter (fun x => feq (sr_Score x) (sr_Score b) = true) l2)) + 1.

Lemma first_best_elem l b t : first_best l b t -> b ∈ l.
Proof. intros (l1 & l2 & -> & _). set_solver. Qed.

Lemma first_best_max l b t x :
  first_best l b t -> x ∈ l -> x = b \/ flt (sr_Score b) (sr_Score x) = false.
Proof.
  intros (l1 & l2 & -> & H1 & H2 & _) [Hx|[->|Hx]%elem_of_cons]%elem_of_app; auto.
  right. by apply H1.
Qed.

Lemma place_scan_invariant before best mid tied rs :
  (forall x, x ∈ before -> flt (sr_Score best) (sr_Score x) = false /\
                           feq (sr_Score x) (sr_Score best) = false) ->
  (forall x, x ∈ mid -> flt (sr_Score best) (sr_Score x) = false) ->
  tied = Z.of_nat (length (filter (fun x => feq (sr_Score x) (sr_Score best) = true) mid)) + 1 ->
  let '(b, t) := place_scan best tied rs in first_best (before ++ best :: mid ++ rs) b t.
Proof.
  revert before best mid tied.
  induction rs as [|r rs IH]; intros before best mid tied Hb Hm Ht; simpl.
  { rewrite app_nil_r. exists before, mid. auto. }
  destruct (flt (sr_Score best) (sr_Score r)) eqn:Elt.
  - replace (before ++ best :: mid ++ r :: rs) with ((before ++ best :: mid) ++ r :: [] ++ rs)
      by (by rewrite <- app_assoc).
    apply IH; [|set_solver|done].
    assert (Hall : forall x, x ∈ before ++ best :: mid -> flt (sr_Score best) (sr_Score x) = false).
    { intros x [Hx|[->|Hx]%elem_of_cons]%elem_of_app; auto; [by apply Hb|apply flt_irrefl]. }
    intros x Hx. specialize (Hall x Hx). split.
    + destruct (flt (sr_Score r) (sr_Score x)) eqn:E; [|done].
      by rewrite (flt_trans _ _ _ Elt E) in Hall.
    + destruct (feq (sr_Score x) (sr_Score r)) eqn:E; [|done].
      by rewrite <- (feq_flt_l _ _ _ E), Elt in Hall.
  - replace (before ++ best :: mid ++ r :: rs) with (before ++ best :: (mid ++ [r]) ++ rs)
      by (by rewrite <- app_assoc).
    assert (Hm' : forall x, x ∈ mid ++ [r] -> flt (sr_Score best) (sr_Score x) = false)
      by (intros x [Hx| ->%list_elem_of_singleton]%elem_of_app; auto).
    destruct (feq (sr_Score r) (sr_Score best)) eqn:Efq; apply IH; auto;
      rewrite filter_app, filter_cons, Efq, length_app; case_decide; simpl; done || lia.
Qed.

Lemma place_scan_first_best r rs :
  let '(b, t) := place_scan r 1 rs in first_best (r :: rs) b t.
Proof. apply (place_scan_invariant [] r [] 1 rs); set_solver. Qed.

(** ** Evaluation, for any scorer *)

Lemma evaluate_loop_spec env e req filtered rs0 fs0 w rs fs w' :
  evaluate_loop env e req filtered rs0 fs0 w = ((rs, fs, None), w') ->
  exists rs' fs', rs = rs0 ++ rs' /\ fs = fs0 ++ fs' /\
    (forall r, r ∈ rs' -> exists c, c ∈ filtered /\ scored_as env e req c r) /\
    map sr_NodeID rs' ++ map sf_NodeID fs' ≡ₚ map c_NodeID filtered.
Proof.
  revert rs0 fs0 w. induction filtered as [|c cs IH]; intros rs0 fs0 w H; simpl in H.
  { injection H as <- <- <-. exists [], []. rewrite !app_nil_r. set_solver. }
  unfold bind in H. destruct (ctx_Err w) as [[msg|] w1]; [done|].
  destruct (s_Score (e_scorer e) c req w1) as [[[score reasons]|msg] w2] eqn:Es.
  - destruct (CheckSoft env c _ _) as [bonus breasons] eqn:Eb.
    apply IH in H as (rs' & fs' & -> & -> & Hr & Hp).
    eexists (_ :: rs'), fs'. rewrite <- app_assoc. split_and!; [done..| |simpl; by rewrite Hp].
    intros r [->|Hin]%elem_of_cons.
    + exists c. split; [left|]. exists w1, score, reasons, w2. by rewrite Eb.
    + destruct (Hr r Hin) as (c' & ? & ?). exists c'. split; [by right|done].
  - apply IH in H as (rs' & fs' & -> & -> & Hr & Hp).
    exists rs', (mkScoreFailure (c_NodeID c) msg :: fs'). rewrite <- app_assoc.
    split_and!; [done..| |simpl; by rewrite <- Permutation_middle, Hp].
    intros r Hin. destruct (Hr r Hin) as (c' & ? & ?). exists c'. split; [by right|done].
Qed.

Lemma evaluate_spec env e cs req w rs fs w' :
  evaluate env e cs req w = ((rs, fs, None), w') ->
  rs <> [] /\
  (forall r, r ∈ rs -> exists c, c ∈ cs /\
     admissible (q_Constraints req) (q_ConstraintCtx req) c /\ scored_as env e req c r) /\
  map sr_NodeID rs ++ map sf_NodeID fs
    ≡ₚ map c_NodeID (FilterByConstraints cs (q_Constraints req) (q_ConstraintCtx req)).1.
Proof.
  unfold evaluate. intros H.
  pose proof (fun c => FilterByConstraints_elem c cs (q_Constraints req) (q_ConstraintCtx req)) as He.
  destruct (FilterByConstraints cs _ _) as [filtered reasons].
  unfold bind in H. destruct (log_filtered e reasons w) as [[] w1].
  destruct filtered as [|c0 cs0]; [done|].
  destruct (evaluate_loop env e req (c0 :: cs0) [] [] w1) as [[[rs1 fs1] [msg|]] w2] eqn:El; [done|].
  destruct rs1 as [|r1 rs1]; [by destruct fs1|]. injection H as <- <- <-.
  apply evaluate_loop_spec in El as (rs' & fs' & Er & Ef & Hr & Hp).
  simpl in Er, Ef. subst. split_and!; [done| |done].
  intros r Hin. destruct (Hr r Hin) as (c & Hc & ?). apply He in Hc as [? ?]. eauto.
Qed.

Lemma scored_as_fits env e req c r :
  CapacityChecked (e_scorer e) -> scored_as env e req c r -> fits c req /\ sr_NodeID r = c_NodeID c.
Proof.
  intros Hc (w & score & reasons & w' & Hs & Hr). split; [by eapply Hc|].
  destruct (CheckSoft env c _ _). by subst.
Qed.

Lemma evaluate_never_empty env e cs req w rs fs w' :
  evaluate env e cs req w = ((rs, fs, None), w') -> exists r rest, rs = r :: rest.
Proof. intros H%evaluate_spec. destruct rs as [|r rest]; [naive_solver|eauto]. Qed.

(** The answer of [Place] in terms of the evaluation. *)
Lemma Place_run env e cs req w :
  (Place env e cs req w).1 =
  match (evaluate env e cs req w).1 with
  | (_, _, Some msg) => Returns (Err msg)
  | ([], _, None) => Panics
  | (first :: rest, _, None) => Returns (Ok (place_scan first 1 rest).1)
  end.
Proof.
  unfold Place, bind. destruct (evaluate env e cs req w) as [[[rs fs] [msg|]] w1]; simpl; [by destruct rs|].
  destruct rs as [|r rest]; [done|]. destruct (place_scan r 1 rest) as [best tied].
  unfold engine_log, ret. by destruct (1 <? tied).
Qed.

(** ** Evaluation, for a pure scorer and a context that is not cancelled *)

Section Pure.
Context (env : string) (e : Engine) `{HP : !PureScorer (e_scorer e)} (req : WorkloadRequest).

(** The score of one candidate, or why it has none. *)
Definition score_of (c : Candidate) : result ScoreResult :=
  match pure_score (e_scorer e) c req with
  | Ok (score, reasons) =>
      let '(bonus, bonusReasons) := CheckSoft env c (q_Constraints req) (q_ConstraintCtx req) in
      Ok (mkScoreResult (c_NodeID c) (fadd score bonus) (reasons ++ bonusReasons) (c_StorageLocality c))
  | Err msg => Err msg
  end.

Definition scores (cs : list Candidate) : list ScoreResult :=
  omap (fun c => match score_of c with Ok r => Some r | Err _ => None end) cs.

Definition score_failures (cs : list Candidate) : list ScoreFailure :=
  omap (fun c => match score_of c with
                 | Ok _ => None
                 | Err msg => Some (mkScoreFailure (c_NodeID c) msg)
                 end) cs.

Definition viable (cs : list Candidate) : list Candidate :=
  filter (fun c => CheckHard c (q_Constraints req) (q_ConstraintCtx req) = None) cs.

(** The reference ranking: the admissible candidates that can be scored, in
    candidate order. *)
Definition ranking (cs : list Candidate) : list ScoreResult := scores (viable cs).

Lemma scores_cons c cs :
  scores (c :: cs) = match score_of c with Ok r => r :: scores cs | Err _ => scores cs end.
Proof. unfold scores. simpl. by destruct (score_of c). Qed.

Lemma score_failures_cons c cs :
  score_failures (c :: cs) = match score_of c with
    | Ok _ => score_failures cs
    | Err msg => mkScoreFailure (c_NodeID c) msg :: score_failures cs
    end.
Proof. unfold score_failures. simpl. by destruct (score_of c). Qed.

Lemma scores_length cs : (length (score_failures cs) + length (scores cs) = length cs)%nat.
Proof.
  induction cs as [|c cs IH]; [done|]. rewrite scores_cons, score_failures_cons.
  destruct (score_of c); simpl; lia.
Qed.

Lemma engine_log_ctx entry w : w_ctx (engine_log e entry w).2 = w_ctx w.
Proof using. clear. unfold engine_log. by destruct (e_logger e). Qed.

Lemma log_filtered_ctx reasons w : w_ctx (log_filtered e reasons w).2 = w_ctx w.
Proof using.
  clear. revert w. induction reasons as [|r rest IH]; intros w; simpl; [done|]. unfold bind.
  pose proof (engine_log_ctx (LogFiltered r) w) as Hl.
  destruct (engine_log e (LogFiltered r) w). by rewrite IH.
Qed.

Lemma evaluate_loop_pure cs rs fs w :
  w_ctx w = None ->
  exists w', w_ctx w' = None /\
    evaluate_loop env e req cs rs fs w = ((rs ++ scores cs, fs ++ score_failures cs, None), w').
Proof.
  revert rs fs w. induction cs as [|c cs IH]; intros rs fs w Hw.
  { exists w. simpl. by rewrite !app_nil_r. }
  cbn [evaluate_loop].
  unfold bind, ctx_Err at 1. rewrite Hw, (pure_score_eq c req w).
  rewrite scores_cons, score_failures_cons. unfold score_of.
  destruct (pure_score (e_scorer e) c req) as [[score reasons]|msg].
  - destruct (CheckSoft env c _ _) as [bonus breasons].
    destruct (IH (rs ++ [mkScoreResult (c_NodeID c) (fadd score bonus) (reasons ++ breasons)
                           (c_StorageLocality c)]) fs w Hw) as (w' & Hw' & ->).
    exists w'. by rewrite <- app_assoc.
  - pose proof (engine_log_ctx (LogFailedScoring (c_NodeID c) msg) w) as Hl.
    destruct (engine_log e _ w) as [? w1]. simpl in Hl. rewrite Hw in Hl. cbn beta iota.
    destruct (IH rs (fs ++ [mkScoreFailure (c_NodeID c) msg]) w1 Hl) as (w' & Hw' & ->).
    exists w'. by rewrite <- app_assoc.
Qed.

Lemma evaluate_pure cs w :
  w_ctx w = None ->
  match ranking cs with
  | [] => exists fs msg, (evaluate env e cs req w).1 = ([], fs, Some msg)
  | rs => (evaluate env e cs req w).1 = (rs, score_failures (viable cs), None)
  end.
Proof.
  intros Hw. unfold evaluate, ranking.
  pose proof (FilterByConstraints_fst cs (q_Constraints req) (q_ConstraintCtx req)) as Hf.
  fold (viable cs) in Hf. destruct (FilterByConstraints cs _ _) as [filtered reasons].
  simpl in Hf. subst filtered. unfold bind.
  pose proof (log_filtered_ctx reasons w) as Hl. destruct (log_filtered e reasons w) as [[] w1].
  simpl in Hl. rewrite Hw in Hl.
  destruct (viable cs) as [|v vs]; [by eexists _, _|].
  destruct (evaluate_loop_pure (v :: vs) [] [] w1 Hl) as (w2 & _ & ->). simpl app.
  destruct (scores (v :: vs)) as [|r rs]; [|done].
  destruct (score_failures (v :: vs)); by eexists _, _.
Qed.
End Pure.

(** The explanation does not record the storage locality of a candidate. *)
Definition strip_locality (r : ScoreResult) : ScoreResult :=
  mkScoreResult (sr_NodeID r) (sr_Score r) (sr_Reasons r) "".

Lemma explain_best_scan best t rs :
  explain_best (strip_locality best) (map strip_locality rs)
  = strip_locality (place_scan best t rs).1.
Proof.
  revert best t. induction rs as [|r rs IH]; intros best t; simpl; [done|].
  destruct (flt (sr_Score best) (sr_Score r)); [apply IH|].
  destruct (feq (sr_Score r) (sr_Score best)); apply IH.
Qed.

Lemma first_failed_none c ks ctx :
  first_failed c (filter (fun k => k_Required k = true) ks) ctx = None <-> CheckHard c ks ctx = None.
Proof.
  rewrite CheckHard_nil, hard_failures_nil.
  induction ks as [|k ks IH]; [set_solver|]. rewrite filter_cons.
  case_decide as Hk; simpl.
  - destruct (checkSingle c k ctx) eqn:E.
    + split; [done|]. intros H. specialize (H k ltac:(left) Hk). congruence.
    + rewrite IH. split; [intros H k' [->|?]%elem_of_cons; auto|intros H k' ?; apply H; by right].
  - rewrite IH. split; [intros H k' [->|?]%elem_of_cons; [congruence|auto]|intros H k' ?; apply H; by right].
Qed.

Lemma explain_filter_pure ks ctx cs out via w :
  w_ctx w = None ->
  exists out', explain_filter (filter (fun k => k_Required k = true) ks) ctx cs out via w
    = ((out ++ out', via ++ filter (fun c => CheckHard c ks ctx = None) cs), w) /\
    (length out' + length (filter (fun c => CheckHard c ks ctx = None) cs) = length cs)%nat.
Proof.
  intros Hw. revert out via. induction cs as [|c cs IH]; intros out via; simpl.
  { exists []. by rewrite !app_nil_r. }
  unfold bind, ctx_Err. rewrite Hw, filter_cons. pose proof (first_failed_none c ks ctx) as Hn.
  destruct (first_failed c _ ctx) as [reason|].
  - rewrite decide_False by (intros H; by apply Hn in H).
    destruct (IH (out ++ [reason]) via) as (out' & -> & Hlen).
    exists (reason :: out'). rewrite <- app_assoc. simpl. split; [done|lia].
  - rewrite decide_True by (by apply Hn).
    destruct (IH out (via ++ [c])) as (out' & -> & Hlen).
    exists out'. rewrite <- app_assoc. simpl. split; [done|lia].
Qed.

Lemma explain_score_pure env e `{!PureScorer (e_scorer e)} req cs fs rs w :
  w_ctx w = None ->
  explain_score env (e_scorer e) req cs fs rs w
  = ((fs ++ score_failures env e req cs, rs ++ map strip_locality (scores env e req cs)), w).
Proof.
  intros Hw. revert fs rs. induction cs as [|c cs IH]; intros fs rs.
  { simpl. by rewrite !app_nil_r. }
  cbn [explain_score]. unfold bind, ctx_Err. rewrite Hw, (pure_score_eq c req w).
  rewrite scores_cons, score_failures_cons. unfold score_of.
  destruct (pure_score (e_scorer e) c req) as [[score reasons]|msg].
  - destruct (CheckSoft env c _ _) as [bonus breasons]. rewrite IH. by rewrite <- app_assoc.
  - rewrite IH. by rewrite <- app_assoc.
Qed.

(** ** Ranking *)

Definition no_nan (l : list ScoreResult) : Prop := Forall (fun r => is_nan (sr_Score r) = false) l.

Lemma higher_score_asym a b : higher_score a b = true -> higher_score b a = false.
Proof. apply flt_asym. Qed.

Lemma higher_score_ntrans a b c :
  is_nan (sr_Score a) = false -> is_nan (sr_Score b) = false -> is_nan (sr_Score c) = false ->
  higher_score b a = false -> higher_score c b = false -> higher_score c a = false.
Proof. unfold higher_score. intros Ha Hb Hc H1 H2. by apply (flt_ntrans _ (sr_Score b)). Qed.

(** Two decompositions of a list around its best element are the same. *)
Lemma first_best_unique l b t h l1 l2 :
  no_nan l -> first_best l b t -> l = l1 ++ h :: l2 ->
  (forall y, y ∈ l1 -> higher_score h y = true) ->
  (forall y, y ∈ l2 -> higher_score y h = false) -> b = h.
Proof.
  intros Hnn (k1 & k2 & Hl & K1 & K2 & _) Hl' H1 H2.
  assert (N : forall x, x ∈ l -> is_nan (sr_Score x) = false) by (by apply Forall_forall).
  rewrite Hl' in Hl, N. unfold higher_score in *.
  apply app_eq_inv in Hl as [(k & -> & Hk)|(k & -> & Hk)]; destruct k as [|z k]; simpl in Hk.
  - by injection Hk as -> _.
  - injection Hk as <- ->. pose proof (H1 b ltac:(set_solver)) as Ha.
    pose proof (K2 h ltac:(set_solver)). congruence.
  - by injection Hk as -> _.
  - injection Hk as <- ->. destruct (K1 h ltac:(set_solver)) as [Ka Kb].
    pose proof (H2 b ltac:(set_solver)) as Ha.
    exfalso. enough (feq (sr_Score h) (sr_Score b) = true) by congruence.
    apply flt_total; auto; apply N; set_solver.
Qed.

Lemma sorted_scores l : no_nan l -> StronglySorted (in_order higher_score) (isort higher_score l).
Proof.
  apply (isort_sorted higher_score (fun r => is_nan (sr_Score r) = false));
    eauto using higher_score_asym, higher_score_ntrans.
Qed.

Lemma ranked_head r l :
  no_nan (r :: l) ->
  exists h t l1 l2, isort higher_score (r :: l) = h :: t /\ r :: l = l1 ++ h :: l2 /\
    (forall y, y ∈ l1 -> higher_score h y = true) /\ (forall y, y ∈ l2 -> higher_score y h = false).
Proof.
  apply (isort_head higher_score (fun r => is_nan (sr_Score r) = false));
    eauto using higher_score_asym, higher_score_ntrans.
Qed.

(** ** Properties *)

(** C3: [Place] only ever selects a node it may use, and the best one.  For
    every scorer that checks capacity, the selected result is one of the
    evaluated ones, no evaluated result scores higher, every result before it
    scores strictly less, and its node is one of the candidates, satisfies
    every required constraint and has room for the workload. *)
Theorem Place_selects env e cs req w best w' :
  CapacityChecked (e_scorer e) ->
  Place env e cs req w = (Returns (Ok best), w') ->
  (exists results failures tied,
     (evaluate env e cs req w).1 = (results, failures, None) /\ first_best results best tied) /\
  exists c, c ∈ cs /\ admissible (q_Constraints req) (q_ConstraintCtx req) c /\ fits c req /\
            scored_as env e req c best.
Proof.
  intros Hc H. pose proof (Place_run env e cs req w) as Hr. rewrite H in Hr. simpl in Hr.
  destruct (evaluate env e cs req w) as [[[rs fs] err] w1] eqn:E.
  destruct rs as [|r rest]; destruct err as [msg|]; try done. simpl in Hr.
  injection Hr as ->. pose proof (place_scan_first_best r rest) as Hb.
  destruct (place_scan r 1 rest) as [b t]. split; [by eexists _, _, t|].
  apply evaluate_spec in E as (_ & Hs & _).
  destruct (Hs b (first_best_elem _ _ _ Hb)) as (c & ? & ? & Hsc).
  exists c. split_and!; auto. by apply (scored_as_fits env e req c b).
Qed.

(** [Place] never panics: its first result is read only when there is
    one, whatever the scorer, the candidates and the context do. *)
Lemma Place_never_panics env e cs req w : (Place env e cs req w).1 <> Panics.
Proof.
  rewrite Place_run. destruct (evaluate env e cs req w) as [[[rs fs] err] w1] eqn:E. simpl.
  destruct err as [msg|]; [by destruct rs|].
  apply evaluate_never_empty in E as (r & rest & ->). done.
Qed.

(** C14: [Place] is complete.  With a deterministic scorer and a live context
    it fails exactly when no admissible candidate can be scored, and otherwise
    returns the first best result of the reference ranking. *)
Theorem Place_complete env e (HP : PureScorer (e_scorer e)) cs req w :
  w_ctx w = None ->
  match ranking env e req cs with
  | [] => exists msg, (Place env e cs req w).1 = Returns (Err msg)
  | first :: rest =>
      exists best tied, (Place env e cs req w).1 = Returns (Ok best) /\
                        first_best (first :: rest) best tied
  end.
Proof.
  intros Hw. pose proof (evaluate_pure env e req cs w Hw) as He. rewrite Place_run.
  destruct (ranking env e req cs) as [|r rest].
  - destruct He as (fs & msg & ->). by exists msg.
  - rewrite He. pose proof (place_scan_first_best r rest) as Hb.
    destruct (place_scan r 1 rest) as [b t]. by exists b, t.
Qed.

(** [PlaceAll] ranks exactly what [evaluate] scored, in descending score
    order, and its head is the node [Place] selects in the same world. *)
Lemma PlaceAll_ranked env e cs req w l w' :
  PlaceAll env e cs req w = (Ok l, w') -> no_nan l ->
  StronglySorted (in_order higher_score) l /\
  (exists results failures, (evaluate env e cs req w).1 = (results, failures, None) /\ l ≡ₚ results) /\
  exists best rest, l = best :: rest /\ (Place env e cs req w).1 = Returns (Ok best).
Proof.
  unfold PlaceAll, bind. rewrite Place_run. intros H Hn.
  destruct (evaluate env e cs req w) as [[[rs fs] [msg|]] w1] eqn:E; [done|].
  injection H as <- <-. apply evaluate_never_empty in E as (r & rest & ->).
  assert (Hn' : no_nan (r :: rest)) by (unfold no_nan in *; by rewrite isort_perm in Hn).
  split_and!; [by apply sorted_scores|by exists (r :: rest), fs; rewrite isort_perm|].
  destruct (ranked_head r rest Hn') as (h & t & l1 & l2 & Hs & Hl & H1 & H2).
  exists h, t. split; [done|]. simpl.
  pose proof (place_scan_first_best r rest) as Hb. destruct (place_scan r 1 rest) as [b tied].
  simpl. by rewrite (first_best_unique _ b tied h l1 l2 Hn' Hb Hl H1 H2).
Qed.

(** C30: an explanation names the node the engine selects.  With a
    deterministic scorer and live contexts, [ExplainPlacement] selects what
    [Place] returns (without its storage locality), selects nothing exactly
    when [Place] fails, and accounts for every candidate once. *)
Theorem ExplainPlacement_agrees env e (HP : PureScorer (e_scorer e)) cs req w w2 :
  w_ctx w = None -> w_ctx w2 = None ->
  let report := (ExplainPlacement env e cs req w2).1 in
  match (Place env e cs req w).1 with
  | Returns (Ok best) => pr_Selected report = Some (strip_locality best)
  | Returns (Err _) => pr_Selected report = None
  | Panics => False
  end /\
  (length (pr_FilteredOut report) + length (pr_ScoreFailures report)
   + length (pr_ScoredCandidates report) = length cs)%nat.
Proof.
  intros Hw Hw2. pose proof (evaluate_pure env e req cs w Hw) as He. rewrite Place_run.
  unfold ExplainPlacement, bind.
  destruct (explain_filter_pure (q_Constraints req) (q_ConstraintCtx req) cs [] [] w2 Hw2)
    as (out & -> & Hlen).
  simpl app. fold (viable req cs) in Hlen |- *. rewrite (explain_score_pure env e req) by done.
  fold (ranking env e req cs). unfold ret.
  cbn [fst pr_Selected pr_FilteredOut pr_ScoreFailures pr_ScoredCandidates app]. split.
  - destruct (ranking env e req cs) as [|r rest].
    + by destruct He as (fs & msg & ->).
    + rewrite He. cbn [map fst]. by rewrite (explain_best_scan r 1 rest).
  - pose proof (scores_length env e req (viable req cs)) as Hs.
    change (list_fmap _ _ strip_locality) with (map strip_locality). rewrite length_map.
    unfold ranking. lia.
Qed.

(** ** A concrete fleet *)

Definition live_world : World := mkWorld None 0 [].

Definition witness_fleet : list Candidate :=
  [ witness_candidate "n1" "eu"; witness_candidate "n2" "us"; witness_candidate "n3" "asia" ].

Definition witness_request : WorkloadRequest :=
  mkWorkloadRequest 500 1024 2000 "" "" "eu" "" witness_constraints
    (mkConstraintContext ∅ ∅).

Definition witness_engine : Engine := WithLogger (NewEngine (LeastLoadedScorer "")) true.

(** The node [Place] picks, or the error. *)
Definition placed_on (o : outcome (result ScoreResult)) : string :=
  match o with
  | Returns (Ok r) => sr_NodeID r
  | Returns (Err msg) => msg
  | Panics => "panic"
  end.

Lemma Place_selects_witness :
  let run := Place "" witness_engine witness_fleet witness_request live_world in
  placed_on run.1 = "n1" /\
  forall best, run.1 = Returns (Ok best) ->
  exists c, c ∈ witness_fleet /\
    admissible (q_Constraints witness_request) (q_ConstraintCtx witness_request) c /\
    fits c witness_request /\ scored_as "" witness_engine witness_request c best.
Proof.
  split; [vm_compute; reflexivity|]. intros best H.
  destruct (Place_selects "" witness_engine witness_fleet witness_request live_world best
              (Place "" witness_engine witness_fleet witness_request live_world).2
              (LeastLoaded_checked "")) as [_ Hc]; [|exact Hc].
  rewrite <- H. by destruct (Place _ _ _ _ _).
Defined.

Lemma Place_complete_witness :
  map sr_NodeID (ranking "" witness_engine witness_request witness_fleet) = ["n1"; "n2"] /\
  exists best tied, (Place "" witness_engine witness_fleet witness_request live_world).1
    = Returns (Ok best) /\
    first_best (ranking "" witness_engine witness_request witness_fleet) best tied.
Proof.
  split; [vm_compute; reflexivity|].
  apply (Place_complete "" witness_engine (LeastLoaded_pure "") witness_fleet witness_request
           live_world eq_refl).
Defined.

Lemma PlaceAll_ranked_witness :
  exists l, (PlaceAll "" witness_engine witness_fleet witness_request live_world).1 = Ok l /\
    map sr_NodeID l = ["n1"; "n2"] /\ StronglySorted (in_order higher_score) l.
Proof.
  eexists. split; [vm_compute; reflexivity|]. split; [reflexivity|].
  eapply (PlaceAll_ranked "" witness_engine witness_fleet witness_request live_world);
    [vm_compute; reflexivity|repeat constructor].
Defined.

Lemma ExplainPlacement_agrees_witness :
  let report := (ExplainPlacement "" witness_engine witness_fleet witness_request live_world).1 in
  option_map sr_NodeID (pr_Selected report) = Some "n1" /\
  (length (pr_FilteredOut report) + length (pr_ScoreFailures report)
   + length (pr_ScoredCandidates report) = 3)%nat.
Proof.
  split; [vm_compute; reflexivity|].
  apply (ExplainPlacement_agrees "" witness_engine (LeastLoaded_pure "") witness_fleet
           witness_request live_world live_world eq_refl eq_refl).
Defined.
