(* ===== verification/Replica.v ===== *)
(** * Replica placement

    [forge/api/internal/placement/replica.go]: placing the replicas of one app
    one after the other against a request-scoped working set, so that each
    placement sees the capacity the previous ones took
    ([prepareReplicaPlacement], [apply], [PlaceReplicas],
    [placeSingleReplica]), the storage vocabulary, and the explanation. *)
From Stdlib Require Import ZArith Lia SpecFloat.
From stdpp Require Import base gmap strings list fin_maps.
From S2P Require Import Prelude GoStrings GoFloat Constraints Strategy Engine.
#[local] Open Scope string_scope.
#[local] Open Scope list_scope.
#[local] Open Scope Z_scope.
#[local] Open Scope go_scope.

(** ** Data *)

(* go: placement/replica.go type:ResourceUsage *)
Record ResourceUsage := mkResourceUsage { u_CPU : Z; u_MemoryMB : Z; u_DiskMB : Z }.

(* go: placement/replica.go type:ReplicaSpec *)
Record ReplicaSpec := mkReplicaSpec {
  rs_Index : Z;
  rs_CPU : Z;
  rs_MemoryMB : Z;
  rs_DiskMB : Z;
  rs_RuntimeProvider : string
}.

(* go: placement/replica.go type:ReplicaPlacementRequest *)
Record ReplicaPlacementRequest := mkReplicaPlacementRequest {
  rq_AppID : string;
  rq_Replicas : list ReplicaSpec;
  rq_RegionID : string;
  rq_RequiredNode : string;
  rq_PreferredNode : string;
  rq_RuntimeFilter : string;
  rq_StorageLocality : string;
  rq_Constraints : list Constraint;
  rq_ConstraintCtx : ConstraintContext;
  rq_ExistingNodeMap : gmap string Z;
  rq_ExistingUsage : gmap string ResourceUsage
}.

(* go: placement/replica.go type:ReplicaPlacement *)
Record ReplicaPlacement := mkReplicaPlacement {
  p_Index : Z;
  p_NodeID : string;
  p_Score : float;
  p_Reasons : list string;
  p_RuntimeProvider : string;
  p_Reserved : ResourceUsage
}.

(* go: placement/replica.go type:ReplicaFailure *)
Record ReplicaFailure := mkReplicaFailure { f_Index : Z; f_Reason : string }.

(* go: placement/replica.go type:ReplicaPlacementResult *)
Record ReplicaPlacementResult := mkReplicaPlacementResult {
  res_Placements : list ReplicaPlacement;
  res_Failures : list ReplicaFailure
}.

(* go: placement/replica.go type:replicaPlacementState *)
Record replicaPlacementState := mkState {
  st_candidates : list Candidate;
  st_usedNodeCount : gmap string Z
}.

(* go: placement/replica.go type:scoredPlacement *)
Record scoredPlacement := mkScoredPlacement {
  sp_NodeID : string; sp_Score : float; sp_Reasons : list string
}.

(* go: placement/replica.go type:CandidateExplanation *)
Record CandidateExplanation := mkCandidateExplanation {
  ce_NodeID : string; ce_Score : float; ce_Rejected : bool; ce_Reasons : list string
}.

(* go: placement/replica.go type:ReplicaPlacementExplanation *)
Record ReplicaPlacementExplanation := mkReplicaPlacementExplanation {
  ex_Index : Z; ex_Candidates : list CandidateExplanation
}.

(** Both declared constants; the scoring code below writes [0.1] itself and
    applies no cap. *)
(* go: placement/replica.go const:spreadPenaltyPerInstance *)
Definition spreadPenaltyPerInstance : float := Eval vm_compute in ratio 1 10.
(* go: placement/replica.go const:maxSpreadPenalty *)
Definition maxSpreadPenalty : float := Eval vm_compute in ratio 5 10.

(** ** Storage locality and runtime filters *)

(* go: placement/replica.go func:CanonicalStorageLocality *)
Definition CanonicalStorageLocality (value : string) : string :=
  let v := ToLower (TrimSpace value) in
  if (v =? "")%string then ""
  else if (v =? "local")%string || (v =? "local_only")%string || (v =? "local-only")%string
       || (v =? "localonly")%string then "local"
  else if (v =? "shared")%string || (v =? "shared_storage")%string || (v =? "shared-storage")%string
       || (v =? "sharedstorage")%string then "shared"
  else if (v =? "replicated")%string then "replicated"
  else v.

(* go: placement/replica.go func:candidateStorageLocality *)
Definition candidateStorageLocality (c : Candidate) : string :=
  let got := CanonicalStorageLocality (c_StorageLocality c) in
  if negb (got =? "")%string then got else "local".

(* go: placement/replica.go func:filterByStorageLocality *)
Definition filterByStorageLocality (candidates : list Candidate) (requested : string) : list Candidate :=
  if (TrimSpace requested =? "")%string then candidates
  else filter (fun c => candidateStorageLocality c = CanonicalStorageLocality requested) candidates.

(** Does a candidate run the provider? *)
Definition runs (runtimeProvider : string) (c : Candidate) : bool :=
  EqualFold (c_RuntimeProvider c) runtimeProvider
  || ((c_RuntimeProvider c =? "")%string && EqualFold runtimeProvider "docker").

(* go: placement/replica.go func:filterByRuntime *)
Definition filterByRuntime (candidates : list Candidate) (runtimeProvider : string) : list Candidate :=
  if (runtimeProvider =? "")%string then candidates
  else filter (fun c => runs runtimeProvider c = true) candidates.

(** ** Validation and preparation *)

(* go: placement/replica.go L515-523 *)
Fixpoint check_runtimes (replicas : list ReplicaSpec) : error :=
  match replicas with
  | [] => None
  | r :: rest =>
      let p := rs_RuntimeProvider r in
      if negb (p =? "")%string && negb (p =? "docker")%string
         && (negb (EqualFold p "containerd") && negb (EqualFold p "firecracker")
             && negb (EqualFold p "podman"))
      then Some (cat ["unsupported runtime provider: "; p])
      else check_runtimes rest
  end.

(* go: placement/replica.go func:ValidateReplicaConstraints *)
Definition ValidateReplicaConstraints (req : ReplicaPlacementRequest) : error :=
  match rq_Replicas req with
  | [] => Some "at least one replica is required"
  | _ => if negb (rq_RequiredNode req =? "")%string then check_runtimes (rq_Replicas req) else None
  end.

(** A candidate after [cpu], [mem] and [disk] were taken from what it has
    available. *)
Definition take_available (c : Candidate) (cpu mem disk : Z) : Candidate :=
  mkCandidate (c_NodeID c) (c_RegionID c) (c_TotalCPU c) (c_TotalMemory c) (c_TotalDisk c)
    (c_AllocatedCPU c) (c_AllocatedMemory c) (c_AllocatedDisk c)
    (c_AvailableCPU c -i cpu) (c_AvailableMemory c -i mem) (c_AvailableDisk c -i disk)
    (c_ServerCount c) (c_Maintenance c) (c_Draining c) (c_Status c)
    (c_StorageLocality c) (c_RuntimeProvider c).

(** The exact branch: what the app's instances consume on the node. *)
(* go: placement/replica.go L124-130 *)
Definition subtract_usage (usage : gmap string ResourceUsage) (c : Candidate) : Candidate :=
  match usage !! c_NodeID c with
  | Some u => take_available c (u_CPU u) (u_MemoryMB u) (u_DiskMB u)
  | None => c
  end.

(** The estimated branch: one entry of [ExistingNodeMap]. *)
(* go: placement/replica.go L148-154 *)
Definition subtract_estimate (perCPU perMemory perDisk : Z) (cs : list Candidate)
    (entry : string * Z) : list Candidate :=
  let '(nodeID, count) := entry in
  map (fun c => if (c_NodeID c =? nodeID)%string
                then take_available c (count *i perCPU) (count *i perMemory) (count *i perDisk)
                else c) cs.

(* go: placement/replica.go func:prepareReplicaPlacement *)
Definition prepareReplicaPlacement (candidates : list Candidate) (req : ReplicaPlacementRequest)
    : result replicaPlacementState :=
  match ValidateReplicaConstraints req with
  | Some err => Err err
  | None =>
      match candidates with
      | [] => Err "no candidates available for replica placement"
      | _ =>
          let local := if negb (rq_StorageLocality req =? "")%string
                       then filterByStorageLocality candidates (rq_StorageLocality req)
                       else candidates in
          if negb (rq_StorageLocality req =? "")%string
             && match local with [] => true | _ => false end then
            Err (cat ["no candidates satisfy storage locality "; quote (rq_StorageLocality req)])
          else if decide (rq_ExistingUsage req = ∅) then
            let sum f := foldl (fun acc r => acc +i f r) 0 (rq_Replicas req) in
            let n := Z.max 1 (Z.of_nat (length (rq_Replicas req))) in
            let perCPU := idiv (sum rs_CPU) n in
            let perMemory := idiv (sum rs_MemoryMB) n in
            let perDisk := idiv (sum rs_DiskMB) n in
            Ok (mkState (foldl (subtract_estimate perCPU perMemory perDisk) local
                           (map_to_list (rq_ExistingNodeMap req)))
                  (rq_ExistingNodeMap req))
          else Ok (mkState (map (subtract_usage (rq_ExistingUsage req)) local)
                     (rq_ExistingNodeMap req))
      end
  end.

(* go: placement/replica.go func:replicaReservation *)
Definition replicaReservation (replica : ReplicaSpec) : ResourceUsage :=
  mkResourceUsage (rs_CPU replica) (rs_MemoryMB replica) (rs_DiskMB replica).

(** One candidate after the replica landed on it. *)
(* go: placement/replica.go L182-188 *)
Definition charge (reserved : ResourceUsage) (c : Candidate) : Candidate :=
  mkCandidate (c_NodeID c) (c_RegionID c) (c_TotalCPU c) (c_TotalMemory c) (c_TotalDisk c)
    (c_AllocatedCPU c +i u_CPU reserved) (c_AllocatedMemory c +i u_MemoryMB reserved)
    (c_AllocatedDisk c +i u_DiskMB reserved)
    (c_AvailableCPU c -i u_CPU reserved) (c_AvailableMemory c -i u_MemoryMB reserved)
    (c_AvailableDisk c -i u_DiskMB reserved)
    (c_ServerCount c +i 1) (c_Maintenance c) (c_Draining c) (c_Status c)
    (c_StorageLocality c) (c_RuntimeProvider c).

(* go: placement/replica.go func:replicaPlacementState.apply *)
Definition apply (s : replicaPlacementState) (replica : ReplicaSpec) (nodeID : string)
    : replicaPlacementState :=
  let reserved := replicaReservation replica in
  mkState
    (map (fun c => if negb (c_NodeID c =? nodeID)%string then c else charge reserved c)
         (st_candidates s))
    (<[nodeID := zget (st_usedNodeCount s) nodeID +i 1]> (st_usedNodeCount s)).

(** ** Scoring one replica *)

Definition replica_request (replica : ReplicaSpec) : WorkloadRequest :=
  mkWorkloadRequest (rs_CPU replica) (rs_MemoryMB replica) (rs_DiskMB replica)
    "" "" "" "" [] (mkConstraintContext ∅ ∅).

Section Replica.
Context (env : string).

(** The terms added to the scorer's answer. *)
(* go: placement/replica.go L337-366 *)
Definition replica_terms (c : Candidate) (req : ReplicaPlacementRequest)
    (usedNodeCount : gmap string Z) (score : float) (reasons : list string) : scoredPlacement :=
  let '(bonus, bonusReasons) := CheckSoft env c (rq_Constraints req) (rq_ConstraintCtx req) in
  let score := fadd score bonus in
  let reasons := reasons ++ bonusReasons in
  let '(score, reasons) :=
    if negb (rq_StorageLocality req =? "")%string then
      if (candidateStorageLocality c =? CanonicalStorageLocality (rq_StorageLocality req))%string
      then (fadd score (StorageMatchBonusValue env), reasons ++ ["storage locality match bonus"])
      else (fsub score (StorageMismatchPenaltyValue env),
            reasons ++ ["storage locality mismatch penalty"])
    else (score, reasons) in
  let count := c_ServerCount c +i zget usedNodeCount (c_NodeID c) in
  let '(score, reasons) :=
    if 0 <? count then
      let spreadPenalty := fmul (of_int count) (ratio 1 10) in
      (fsub score spreadPenalty,
       reasons ++ [cat ["anti-affinity spread penalty: -"; fmt_fixed 0 spreadPenalty; " (";
                        itoa count; " instances)"]])
    else (score, reasons) in
  let '(score, reasons) :=
    if negb (rq_PreferredNode req =? "")%string && (c_NodeID c =? rq_PreferredNode req)%string
    then (fadd score f1, reasons ++ ["preferred node bonus"])
    else (score, reasons) in
  mkScoredPlacement (c_NodeID c) score reasons.

(* go: placement/replica.go func:Engine.scoreReplicaCandidate *)
Definition scoreReplicaCandidate (e : Engine) (c : Candidate) (replica : ReplicaSpec)
    (req : ReplicaPlacementRequest) (usedNodeCount : gmap string Z)
    : St World (result scoredPlacement) :=
  let! scored := s_Score (e_scorer e) c (replica_request replica) in
  match scored with
  | Err msg => ret (Err msg)
  | Ok (score, reasons) => ret (Ok (replica_terms c req usedNodeCount score reasons))
  end.

(** [results] is never empty here: the caller has handled that case, so the
    first element is an argument. *)
(* go: placement/replica.go func:bestScoredPlacement *)
Fixpoint bestScoredPlacement (best : scoredPlacement) (results : list scoredPlacement)
    : scoredPlacement :=
  match results with
  | [] => best
  | r :: rest =>
      if flt (sp_Score best) (sp_Score r)
         || (feq (sp_Score r) (sp_Score best) && str_lt (sp_NodeID r) (sp_NodeID best))
      then bestScoredPlacement r rest
      else bestScoredPlacement best rest
  end.

Definition placement_of (replica : ReplicaSpec) (sp : scoredPlacement) : ReplicaPlacement :=
  mkReplicaPlacement (rs_Index replica) (sp_NodeID sp) (sp_Score sp) (sp_Reasons sp)
    (rs_RuntimeProvider replica) (replicaReservation replica).

(* go: placement/replica.go L279-289 *)
Fixpoint score_replicas (e : Engine) (replica : ReplicaSpec) (req : ReplicaPlacementRequest)
    (usedNodeCount : gmap string Z) (cs : list Candidate) (results : list scoredPlacement)
    : St World (result (list scoredPlacement)) :=
  match cs with
  | [] => ret (Ok results)
  | c :: rest =>
      let! err := ctx_Err in
      match err with
      | Some msg => ret (Err (cat ["replica placement cancelled: "; msg]))
      | None =>
          let! sp := scoreReplicaCandidate e c replica req usedNodeCount in
          match sp with
          | Err _ => score_replicas e replica req usedNodeCount rest results
          | Ok sp => score_replicas e replica req usedNodeCount rest (results ++ [sp])
          end
      end
  end.

(* go: placement/replica.go func:Engine.placeSingleReplica *)
Definition placeSingleReplica (e : Engine) (state : replicaPlacementState) (replica : ReplicaSpec)
    (req : ReplicaPlacementRequest) : St World (result ReplicaPlacement) :=
  let filtered := filterByRuntime (st_candidates state) (rs_RuntimeProvider replica) in
  match filtered with
  | [] => ret (Err (cat ["no candidates support runtime "; rs_RuntimeProvider replica]))
  | _ =>
      if negb (rq_RequiredNode req =? "")%string then
        match find (fun c => (c_NodeID c =? rq_RequiredNode req)%string) filtered with
        | None =>
            ret (Err (cat ["required node "; rq_RequiredNode req; " not found or incompatible"]))
        | Some c =>
            match CheckHard c (rq_Constraints req) (rq_ConstraintCtx req) with
            | Some err => ret (Err err)
            | None =>
                let! sp := scoreReplicaCandidate e c replica req (st_usedNodeCount state) in
                match sp with
                | Err err => ret (Err err)
                | Ok sp => ret (Ok (placement_of replica sp))
                end
            end
        end
      else
        let '(constraintFiltered, _) :=
          FilterByConstraints filtered (rq_Constraints req) (rq_ConstraintCtx req) in
        match constraintFiltered with
        | [] => ret (Err "no candidates satisfy replica constraints")
        | _ =>
            let! results := score_replicas e replica req (st_usedNodeCount state)
                              constraintFiltered [] in
            match results with
            | Err err => ret (Err err)
            | Ok [] => ret (Err (cat ["no viable node for replica "; itoa (rs_Index replica)]))
            | Ok (first :: rest) => ret (Ok (placement_of replica (bestScoredPlacement first rest)))
            end
        end
  end.

(** ** Placing every replica *)

(* go: placement/replica.go L210-224 *)
Fixpoint place_loop (e : Engine) (req : ReplicaPlacementRequest) (replicas : list ReplicaSpec)
    (state : replicaPlacementState) (result : ReplicaPlacementResult)
    : St World (ReplicaPlacementResult * error) :=
  match replicas with
  | [] => ret (result, None)
  | replica :: rest =>
      let! err := ctx_Err in
      match err with
      | Some msg => ret (result, Some (cat ["replica placement cancelled: "; msg]))
      | None =>
          let! placement := placeSingleReplica e state replica req in
          match placement with
          | Err msg =>
              place_loop e req rest state
                (mkReplicaPlacementResult (res_Placements result)
                   (res_Failures result ++ [mkReplicaFailure (rs_Index replica) msg]))
          | Ok placement =>
              place_loop e req rest (apply state replica (p_NodeID placement))
                (mkReplicaPlacementResult (res_Placements result ++ [placement])
                   (res_Failures result))
          end
      end
  end.

(** A nil result is [None]. *)
(* go: placement/replica.go func:Engine.PlaceReplicas *)
Definition PlaceReplicas (e : Engine) (candidates : list Candidate) (req : ReplicaPlacementRequest)
    : St World (option ReplicaPlacementResult * error) :=
  match prepareReplicaPlacement candidates req with
  | Err err => ret (None, Some err)
  | Ok state =>
      let! '(result, err) := place_loop e req (rq_Replicas req) state
                               (mkReplicaPlacementResult [] []) in
      match err with
      | Some msg => ret (Some result, Some msg)
      | None =>
          match res_Placements result, res_Failures result with
          | [], first :: _ =>
              ret (Some result,
                   Some (cat ["replica placement failed for all ";
                              itoa (Z.of_nat (length (rq_Replicas req))); " replicas: ";
                              f_Reason first]))
          | _, _ => ret (Some result, None)
          end
      end
  end.

(** ** Explanation *)

(* go: placement/replica.go L447-480 *)
Definition explain_candidate (e : Engine) (c : Candidate) (replica : ReplicaSpec)
    (req : ReplicaPlacementRequest) (usedNodeCount : gmap string Z)
    : St World CandidateExplanation :=
  match CheckHard c (rq_Constraints req) (rq_ConstraintCtx req) with
  | Some err => ret (mkCandidateExplanation (c_NodeID c) f0 true [cat ["hard constraint: "; err]])
  | None =>
      if negb (rq_StorageLocality req =? "")%string
         && negb (candidateStorageLocality c =? CanonicalStorageLocality (rq_StorageLocality req))%string
      then ret (mkCandidateExplanation (c_NodeID c) f0 true
                  [cat ["storage locality "; quote (c_StorageLocality c); " does not satisfy ";
                        quote (rq_StorageLocality req)]])
      else
        let! scored := s_Score (e_scorer e) c (replica_request replica) in
        let '(score, reasons) := match scored with Ok v => v | Err _ => (f0, []) end in
        let '(bonus, bonusReasons) := CheckSoft env c (rq_Constraints req) (rq_ConstraintCtx req) in
        let score := fadd score bonus in
        let reasons := reasons ++ bonusReasons in
        let '(score, reasons) :=
          if negb (rq_StorageLocality req =? "")%string
          then (fadd score (StorageMatchBonusValue env), reasons ++ ["storage locality match bonus"])
          else (score, reasons) in
        let count := c_ServerCount c +i zget usedNodeCount (c_NodeID c) in
        let reasons := if 0 <? count
                       then reasons ++ [cat ["spread penalty: "; itoa count; " existing instances"]]
                       else reasons in
        ret (mkCandidateExplanation (c_NodeID c) score false reasons)
  end.

(* go: placement/replica.go L443-481 *)
Fixpoint explain_candidates (e : Engine) (replica : ReplicaSpec) (req : ReplicaPlacementRequest)
    (usedNodeCount : gmap string Z) (cs : list Candidate) (out : list CandidateExplanation)
    : St World (list CandidateExplanation) :=
  match cs with
  | [] => ret out
  | c :: rest =>
      let! err := ctx_Err in
      match err with
      | Some _ => ret out
      | None =>
          let! ce := explain_candidate e c replica req usedNodeCount in
          explain_candidates e replica req usedNodeCount rest (out ++ [ce])
      end
  end.

(* go: placement/replica.go L482-489 *)
Fixpoint explain_selected (selected : option CandidateExplanation) (cs : list CandidateExplanation)
    : option CandidateExplanation :=
  match cs with
  | [] => selected
  | candidate :: rest =>
      if ce_Rejected candidate
         || match selected with
            | None => false
            | Some s => fle (ce_Score candidate) (ce_Score s)
            end
      then explain_selected selected rest
      else explain_selected (Some candidate) rest
  end.

(* go: placement/replica.go L434-494 *)
Fixpoint explain_replicas (e : Engine) (candidates : list Candidate) (req : ReplicaPlacementRequest)
    (replicas : list ReplicaSpec) (usedNodeCount : gmap string Z)
    (explanations : list ReplicaPlacementExplanation) : St World (list ReplicaPlacementExplanation) :=
  match replicas with
  | [] => ret explanations
  | replica :: rest =>
      let! err := ctx_Err in
      match err with
      | Some _ => ret explanations
      | None =>
          let! cs := explain_candidates e replica req usedNodeCount
                       (filterByRuntime candidates (rs_RuntimeProvider replica)) [] in
          let usedNodeCount :=
            match explain_selected None cs with
            | Some s => <[ce_NodeID s := zget usedNodeCount (ce_NodeID s) +i 1]> usedNodeCount
            | None => usedNodeCount
            end in
          explain_replicas e candidates req rest usedNodeCount
            (explanations ++ [mkReplicaPlacementExplanation (rs_Index replica) cs])
      end
  end.

(* go: placement/replica.go func:ExplainReplicaPlacement *)
Definition ExplainReplicaPlacement (e : Engine) (candidates : list Candidate)
    (req : ReplicaPlacementRequest) : St World (list ReplicaPlacementExplanation) :=
  explain_replicas e candidates req (rq_Replicas req) (rq_ExistingNodeMap req) [].
End Replica.

(** ** The request as a run

    [chosen st replica p c]: [p] is a placement of [replica] on [c], one of
    the candidates of the working set [st], that the constraints, the runtime,
    the pin and the node's remaining capacity all allow. *)
Definition chosen (req : ReplicaPlacementRequest) (st : replicaPlacementState)
    (replica : ReplicaSpec) (p : ReplicaPlacement) (c : Candidate) : Prop :=
  c ∈ st_candidates st /\
  (rs_RuntimeProvider replica = "" \/ runs (rs_RuntimeProvider replica) c = true) /\
  admissible (rq_Constraints req) (rq_ConstraintCtx req) c /\
  fits c (replica_request replica) /\
  (rq_RequiredNode req = "" \/ c_NodeID c = rq_RequiredNode req) /\
  p_NodeID p = c_NodeID c /\ p_Index p = rs_Index replica /\
  p_RuntimeProvider p = rs_RuntimeProvider replica /\
  p_Reserved p = replicaReservation replica.

(** The states the placement loop goes through: each replica fails, or lands
    on a chosen candidate and changes the working set. *)
Inductive run_of (req : ReplicaPlacementRequest) (st0 : replicaPlacementState)
    : list ReplicaSpec -> replicaPlacementState -> ReplicaPlacementResult -> Prop :=
| run_start : run_of req st0 [] st0 (mkReplicaPlacementResult [] [])
| run_fail handled st ps fs replica msg :
    run_of req st0 handled st (mkReplicaPlacementResult ps fs) ->
    run_of req st0 (handled ++ [replica]) st
      (mkReplicaPlacementResult ps (fs ++ [mkReplicaFailure (rs_Index replica) msg]))
| run_place handled st ps fs replica p c :
    run_of req st0 handled st (mkReplicaPlacementResult ps fs) ->
    chosen req st replica p c ->
    run_of req st0 (handled ++ [replica]) (apply st replica (p_NodeID p))
      (mkReplicaPlacementResult (ps ++ [p]) fs).

Lemma filterByRuntime_elem cs provider c :
  c ∈ filterByRuntime cs provider <-> c ∈ cs /\ (provider = "" \/ runs provider c = true).
Proof.
  unfold filterByRuntime. destruct (String.eqb_spec provider "") as [->|H].
  - naive_solver.
  - rewrite list_elem_of_filter. naive_solver.
Qed.

Lemma replica_terms_node env c req used score reasons :
  sp_NodeID (replica_terms env c req used score reasons) = c_NodeID c.
Proof. unfold replica_terms. by repeat case_match. Qed.

Section Chosen.
Context (env : string) (e : Engine) `{HC : !CapacityChecked (e_scorer e)}.

Lemma scoreReplicaCandidate_spec c replica req used w sp w' :
  scoreReplicaCandidate env e c replica req used w = (Ok sp, w') ->
  sp_NodeID sp = c_NodeID c /\ fits c (replica_request replica).
Proof using HC.
  unfold scoreReplicaCandidate, bind.
  destruct (s_Score (e_scorer e) c (replica_request replica) w) as [[[score reasons]|msg] w1] eqn:E;
    [|done].
  injection 1 as <- <-. split; [apply replica_terms_node|by eapply HC].
Qed.

Lemma score_replicas_spec replica req used cs acc w rs w' :
  score_replicas env e replica req used cs acc w = (Ok rs, w') ->
  exists rs', rs = acc ++ rs' /\
    forall sp, sp ∈ rs' -> exists c, c ∈ cs /\ sp_NodeID sp = c_NodeID c /\
                                     fits c (replica_request replica).
Proof using HC.
  revert acc w. induction cs as [|c cs IH]; intros acc w H; simpl in H.
  { injection H as <- <-. exists []. rewrite app_nil_r. set_solver. }
  unfold bind in H. destruct (ctx_Err w) as [[msg|] w1]; [done|].
  destruct (scoreReplicaCandidate env e c replica req used w1) as [[sp|msg] w2] eqn:E.
  - apply scoreReplicaCandidate_spec in E as [En Ef].
    apply IH in H as (rs' & -> & Hr). exists (sp :: rs'). rewrite <- app_assoc. split; [done|].
    intros s [->|Hs]%elem_of_cons; [exists c; split; [left|done]|].
    destruct (Hr s Hs) as (c' & ? & ?). exists c'. split; [by right|done].
  - apply IH in H as (rs' & -> & Hr). exists rs'. split; [done|].
    intros s Hs. destruct (Hr s Hs) as (c' & ? & ?). exists c'. split; [by right|done].
Qed.

Lemma bestScoredPlacement_elem best rs : bestScoredPlacement best rs ∈ best :: rs.
Proof using.
  clear. revert best. induction rs as [|r rs IH]; intros best; simpl; [left|].
  case_match; [specialize (IH r)|specialize (IH best)]; set_solver.
Qed.

Lemma placeSingleReplica_chosen st replica req w p w' :
  placeSingleReplica env e st replica req w = (Ok p, w') ->
  exists c, chosen req st replica p c.
Proof using HC.
  unfold placeSingleReplica, chosen. intros H.
  pose proof (fun c => filterByRuntime_elem (st_candidates st) (rs_RuntimeProvider replica) c) as Hf.
  destruct (filterByRuntime _ _) as [|c0 cs0]; [done|].
  cbn beta iota in H. remember (c0 :: cs0) as cs eqn:Ecs.
  destruct (String.eqb_spec (rq_RequiredNode req) "") as [Hreq|Hreq]; cbn [negb] in H.
  - pose proof (fun c => FilterByConstraints_elem c cs (rq_Constraints req) (rq_ConstraintCtx req)) as He.
    destruct (FilterByConstraints cs _ _) as [fcs reasons]. simpl in He.
    destruct fcs as [|c1 fcs]; [done|]. unfold bind in H.
    destruct (score_replicas _ _ _ _ _ _ _ w) as [[rs|msg] w1] eqn:Es; [|done].
    destruct rs as [|s rs]; [done|]. injection H as <- <-.
    apply score_replicas_spec in Es as (rs' & Hrs & Hs). simpl in Hrs. subst rs'.
    destruct (Hs _ (bestScoredPlacement_elem s rs)) as (c & Hc & Hn & Hfit).
    apply He in Hc as [Hc Ha]. apply Hf in Hc as [Hc Hr]. exists c. naive_solver.
  - destruct (find _ cs) as [c|] eqn:Efind; [|done]. apply find_some in Efind as [Hin Hid%String.eqb_eq].
    destruct (CheckHard c _ _) eqn:Eh; [done|]. apply CheckHard_admissible in Eh.
    unfold bind in H.
    destruct (scoreReplicaCandidate _ _ _ _ _ _ w) as [[sp|msg] w1] eqn:Es; [|done].
    injection H as <- <-. apply scoreReplicaCandidate_spec in Es as [Hn Hfit].
    apply list_elem_of_In, Hf in Hin as [Hc Hr]. exists c. naive_solver.
Qed.

Lemma place_loop_run req st0 replicas handled st ps fs w res err w' :
  run_of req st0 handled st (mkReplicaPlacementResult ps fs) ->
  place_loop env e req replicas st (mkReplicaPlacementResult ps fs) w = ((res, err), w') ->
  exists now rest st', replicas = now ++ rest /\ run_of req st0 (handled ++ now) st' res /\
                       (err = None -> rest = []).
Proof using HC.
  revert handled st ps fs w. induction replicas as [|r rs IH]; intros handled st ps fs w Hrun H.
  { injection H as <- <- <-. exists [], [], st. by rewrite (app_nil_r handled). }
  cbn [place_loop] in H. unfold bind in H. destruct (ctx_Err w) as [[msg|] w1].
  { injection H as <- <- <-. exists [], (r :: rs), st. by rewrite (app_nil_r handled). }
  destruct (placeSingleReplica env e st r req w1) as [[p|msg] w2] eqn:E.
  - apply placeSingleReplica_chosen in E as (c & Hc).
    destruct (IH _ _ _ _ _ (run_place req st0 handled st ps fs r p c Hrun Hc) H)
      as (now & rest & st' & -> & Hr & Hnone).
    exists (r :: now), rest, st'. rewrite <- app_assoc in Hr. auto.
  - destruct (IH _ _ _ _ _ (run_fail req st0 handled st ps fs r msg Hrun) H)
      as (now & rest & st' & -> & Hr & Hnone).
    exists (r :: now), rest, st'. rewrite <- app_assoc in Hr. auto.
Qed.

(** What a call of [PlaceReplicas] amounts to. *)
Lemma PlaceReplicas_run cs req w res err w' :
  PlaceReplicas env e cs req w = ((Some res, err), w') ->
  exists st0 handled rest st', prepareReplicaPlacement cs req = Ok st0 /\
    rq_Replicas req = handled ++ rest /\ run_of req st0 handled st' res /\
    (err = None -> rest = [] /\ (res_Failures res = [] \/ res_Placements res <> [])).
Proof using HC.
  unfold PlaceReplicas. destruct (prepareReplicaPlacement cs req) as [st0|msg]; [|done].
  unfold bind. destruct (place_loop _ _ _ _ _ _ w) as [[res1 err1] w1] eqn:E. intros H.
  pose proof (place_loop_run _ _ _ _ _ _ _ _ _ _ _ (run_start req st0) E)
    as (now & rest & st' & Hr & Hrun & Hnone).
  exists st0, now, rest, st'. destruct err1 as [m1|].
  { by injection H as <- <- <-. }
  destruct res1 as [[|p ps] [|f fs]]; simpl in H; injection H as <- <- <-;
    split_and!; auto; done.
Qed.
End Chosen.

(** ** The working set *)

(** What placement never changes about a candidate. *)
Definition identity (c : Candidate) : string * string * string * string :=
  (c_NodeID c, c_RegionID c, c_StorageLocality c, c_RuntimeProvider c).

Lemma admissible_identity ks ctx c c' :
  identity c = identity c' -> admissible ks ctx c <-> admissible ks ctx c'.
Proof. unfold identity, admissible, satisfies. intros [= -> -> _ _]. done. Qed.

Lemma runs_identity p c c' : identity c = identity c' -> runs p c = runs p c'.
Proof. unfold identity, runs. by intros [= _ _ _ ->]. Qed.

(** The candidates that offer the requested storage. *)
Definition eligible (req : ReplicaPlacementRequest) (c : Candidate) : Prop :=
  TrimSpace (rq_StorageLocality req) = "" \/
  candidateStorageLocality c = CanonicalStorageLocality (rq_StorageLocality req).

#[export] Instance eligible_dec req c : Decision (eligible req c).
Proof. unfold eligible. apply _. Defined.

(** The mean of a resource over the requested replicas. *)
Definition mean (req : ReplicaPlacementRequest) (f : ReplicaSpec -> Z) : Z :=
  idiv (foldl (fun acc r => acc +i f r) 0 (rq_Replicas req))
       (Z.max 1 (Z.of_nat (length (rq_Replicas req)))).

(** What the app's live instances leave available on a candidate: their exact
    usage when the caller reports usage, else the mean replica per instance. *)
Definition prepared_candidate (req : ReplicaPlacementRequest) (c : Candidate) : Candidate :=
  if decide (rq_ExistingUsage req = ∅) then
    match rq_ExistingNodeMap req !! c_NodeID c with
    | Some count => take_available c (count *i mean req rs_CPU) (count *i mean req rs_MemoryMB)
                      (count *i mean req rs_DiskMB)
    | None => c
    end
  else subtract_usage (rq_ExistingUsage req) c.

Lemma subtract_estimates_map p m d l cs :
  NoDup l.*1 ->
  foldl (subtract_estimate p m d) cs l =
  map (fun c => match (list_to_map l : gmap string Z) !! c_NodeID c with
                | Some count => take_available c (count *i p) (count *i m) (count *i d)
                | None => c
                end) cs.
Proof.
  revert cs. induction l as [|[k n] l IH]; intros cs Hnd.
  { simpl. induction cs as [|c cs IHc]; simpl; [done|]. by rewrite lookup_empty, <- IHc. }
  apply NoDup_cons in Hnd as [Hk Hnd]. simpl. rewrite IH by done. rewrite map_map.
  apply map_ext. intros c. destruct (String.eqb_spec (c_NodeID c) k) as [E|E]; simpl.
  - rewrite E, lookup_insert_eq. by rewrite (not_elem_of_list_to_map_1 l k).
  - by rewrite lookup_insert_ne by done.
Qed.

Lemma filterByStorageLocality_eligible cs req :
  filterByStorageLocality cs (rq_StorageLocality req) = filter (eligible req) cs.
Proof.
  unfold filterByStorageLocality. destruct (String.eqb_spec (TrimSpace (rq_StorageLocality req)) "") as [H|H].
  - induction cs as [|c cs IH]; [done|]. rewrite filter_cons, decide_True by (by left). by rewrite <- IH.
  - apply list_filter_iff. intros c. unfold eligible. naive_solver.
Qed.

Lemma local_eligible cs req :
  (if negb (rq_StorageLocality req =? "")%string
   then filterByStorageLocality cs (rq_StorageLocality req) else cs) = filter (eligible req) cs.
Proof.
  rewrite <- filterByStorageLocality_eligible.
  destruct (String.eqb_spec (rq_StorageLocality req) "") as [H|H]; simpl; [|done].
  by rewrite H.
Qed.

Lemma prepared_state cs req st :
  prepareReplicaPlacement cs req = Ok st ->
  st = mkState (map (prepared_candidate req) (filter (eligible req) cs)) (rq_ExistingNodeMap req) /\
  rq_Replicas req <> [] /\ cs <> [] /\ (rq_StorageLocality req <> "" -> filter (eligible req) cs <> []).
Proof.
  unfold prepareReplicaPlacement, ValidateReplicaConstraints.
  destruct (rq_Replicas req) as [|r0 rs0] eqn:Er; [done|].
  destruct (if negb _ then _ else _); [done|]. destruct cs as [|c0 cs0]; [done|].
  remember (c0 :: cs0) as cs eqn:Ecs. rewrite local_eligible.
  destruct (String.eqb_spec (rq_StorageLocality req) "") as [Hl|Hl]; cbn [negb andb];
    [|destruct (filter (eligible req) cs) as [|l0 ls0] eqn:Ef; [done|]];
    unfold prepared_candidate; case_decide; injection 1 as <-; (split; [|by subst cs]);
    try (rewrite subtract_estimates_map by apply NoDup_fst_map_to_list);
    rewrite ?list_to_map_to_list; unfold mean; by rewrite ?Er.
Qed.

Lemma prepared_identity req c : identity (prepared_candidate req c) = identity c.
Proof. unfold prepared_candidate, subtract_usage. by repeat case_match. Qed.

Lemma apply_identity st r n :
  map identity (st_candidates (apply st r n)) = map identity (st_candidates st).
Proof.
  simpl. rewrite map_map. apply map_ext. intros c. by destruct (_ =? _)%string.
Qed.

Lemma run_identity req st0 handled st res :
  run_of req st0 handled st res ->
  map identity (st_candidates st) = map identity (st_candidates st0).
Proof. induction 1; [done|done|]. by rewrite apply_identity. Qed.

Lemma identity_lookup cs cs' c :
  map identity cs = map identity cs' -> c ∈ cs -> exists c', c' ∈ cs' /\ identity c = identity c'.
Proof.
  intros Hm Hc. assert (Hi : identity c ∈ map identity cs') by (rewrite <- Hm; by apply list_elem_of_fmap_2).
  apply list_elem_of_fmap in Hi as (c' & ? & ?). by exists c'.
Qed.

(** A candidate of any working set of the run is one of the caller's. *)
Lemma run_candidate cs req st0 handled st res c :
  prepareReplicaPlacement cs req = Ok st0 -> run_of req st0 handled st res -> c ∈ st_candidates st ->
  exists c', c' ∈ cs /\ eligible req c' /\ identity c = identity c'.
Proof.
  intros Hp Hrun Hc. apply run_identity in Hrun. apply prepared_state in Hp as [-> _]. simpl in Hrun.
  rewrite map_map, (map_ext (fun c => identity (prepared_candidate req c)) identity
                      (prepared_identity req)) in Hrun.
  destruct (identity_lookup _ _ _ Hrun Hc) as (c' & Hc' & ?).
  apply list_elem_of_filter in Hc' as [? ?]. eauto.
Qed.

(** ** Capacity *)

Definition on_node (node : string) (ps : list ReplicaPlacement) : list ReplicaPlacement :=
  filter (fun p => p_NodeID p = node) ps.

(** What the placements reserve of a resource on a node. *)
Definition reserved (us : ResourceUsage -> Z) (node : string) (ps : list ReplicaPlacement) : Z :=
  sum_by (fun p => us (p_Reserved p)) (on_node node ps).

Lemma reserved_snoc us node ps p :
  reserved us node (ps ++ [p])
  = reserved us node ps + if decide (p_NodeID p = node) then us (p_Reserved p) else 0.
Proof.
  unfold reserved, on_node. rewrite filter_app, sum_by_app, filter_cons.
  case_decide; simpl; lia.
Qed.

(** One resource: how to read it off a candidate and off a reservation. *)
Section Resource.
Context (av : Candidate -> Z) (us : ResourceUsage -> Z).
Hypothesis av_charge : forall u c, av (charge u c) = av c -i us u.
Hypothesis av_fits : forall r c, fits c (replica_request r) -> 0 <= us (replicaReservation r) <= av c.

(** A candidate of the working set against the candidate it started as. *)
Definition charged (ps : list ReplicaPlacement) (c0 c : Candidate) : Prop :=
  c_NodeID c = c_NodeID c0 /\
  av c = av c0 - reserved us (c_NodeID c0) ps /\
  0 <= reserved us (c_NodeID c0) ps <= Z.max 0 (av c0).

Lemma charged_step ps c0 c p r cu :
  in64 (av c0) -> charged ps c0 c -> p_Reserved p = replicaReservation r ->
  p_NodeID p = c_NodeID cu -> fits cu (replica_request r) ->
  (c_NodeID c = c_NodeID cu -> c = cu) ->
  charged (ps ++ [p]) c0
    (if negb (c_NodeID c =? p_NodeID p)%string then c else charge (replicaReservation r) c).
Proof using av_charge av_fits.
  intros H64 (Hid & Hav & Hb) Hres Hn Hfit Huniq. unfold charged.
  rewrite reserved_snoc, Hres, Hn. destruct (String.eqb_spec (c_NodeID c) (c_NodeID cu)) as [E|E]; simpl.
  - specialize (Huniq E). subst cu. pose proof (av_fits _ _ Hfit).
    rewrite decide_True by congruence. rewrite av_charge, isub_exact; [|unfold in64, min64, max64 in *; lia].
    split_and!; [done|lia|lia|lia].
  - rewrite decide_False by congruence. split_and!; [done|lia|lia|lia].
Qed.

Lemma run_charged req st0 handled st res :
  Forall (fun c => in64 (av c)) (st_candidates st0) ->
  NoDup (map c_NodeID (st_candidates st0)) ->
  run_of req st0 handled st res ->
  Forall2 (charged (res_Placements res)) (st_candidates st0) (st_candidates st).
Proof using av_charge av_fits.
  intros H64 Hnd. induction 1 as [|? st ps fs r msg Hrun IH|? st ps fs r p c Hrun IH Hch]; [|done|].
  - apply Forall_Forall2_diag, Forall_forall. intros c Hc. unfold charged, reserved. simpl.
    split_and!; [done|lia|lia|lia].
  - simpl in IH |- *. destruct Hch as (Hc & _ & _ & Hfit & _ & Hn & _ & _ & Hres).
    assert (Huniq : forall c', c' ∈ st_candidates st -> c_NodeID c' = c_NodeID c -> c' = c).
    { pose proof (run_identity _ _ _ _ _ Hrun) as Hid.
      apply (f_equal (map (fun '(n, _, _, _) => n))) in Hid. rewrite !map_map in Hid. cbn in Hid.
      change (map c_NodeID (st_candidates st) = map c_NodeID (st_candidates st0)) in Hid.
      intros c' Hc' E. rewrite <- Hid in Hnd. by eapply (NoDup_map_inj c_NodeID). }
    apply Forall2_fmap_r. rewrite Forall_forall in H64.
    apply Forall2_same_length_lookup_2; [by eapply Forall2_length|].
    intros i c0 c' Hi Hj. pose proof (Forall2_lookup_lr _ _ _ _ _ _ IH Hi Hj) as Hcc.
    eapply charged_step; eauto using list_elem_of_lookup_2.
Qed.

Lemma run_no_overcommit req st0 handled st res c0 :
  Forall (fun c => in64 (av c)) (st_candidates st0) ->
  NoDup (map c_NodeID (st_candidates st0)) ->
  run_of req st0 handled st res -> c0 ∈ st_candidates st0 ->
  reserved us (c_NodeID c0) (res_Placements res) <= Z.max 0 (av c0).
Proof using av_charge av_fits.
  intros H64 Hnd Hrun [i Hi]%list_elem_of_lookup.
  pose proof (run_charged _ _ _ _ _ H64 Hnd Hrun) as HF.
  destruct (Forall2_lookup_l _ _ _ _ _ HF Hi) as (c & _ & _ & _ & ?). lia.
Qed.
End Resource.

(** ** The tie-breaker *)

(** [r] replaces [best] in the scan. *)
Definition beats (r best : scoredPlacement) : bool :=
  flt (sp_Score best) (sp_Score r)
  || (feq (sp_Score r) (sp_Score best) && str_lt (sp_NodeID r) (sp_NodeID best)).

Lemma beats_irrefl a : beats a a = false.
Proof. unfold beats. by rewrite flt_irrefl, str_lt_irrefl, andb_false_r. Qed.

Lemma beats_trans a b c : beats a b = true -> beats b c = true -> beats a c = true.
Proof.
  unfold beats. rewrite !orb_true_iff, !andb_true_iff. intros [H1|[H1 S1]] [H2|[H2 S2]].
  - left. by eapply flt_trans.
  - left. rewrite feq_sym in H2. by rewrite (feq_flt_r _ _ _ H2).
  - left. by rewrite <- (feq_flt_l _ _ _ H1) .
  - right. split; [|by eapply str_lt_trans].
    destruct (feq_not_nan _ _ H1), (feq_not_nan _ _ H2).
    apply feq_key in H1, H2; auto. apply feq_key; congruence.
Qed.

Lemma beats_total a b :
  is_nan (sp_Score a) = false -> is_nan (sp_Score b) = false ->
  beats a b = false -> beats b a = false -> sp_NodeID a = sp_NodeID b.
Proof.
  unfold beats. rewrite !orb_false_iff. intros Ha Hb [H1 S1] [H2 S2].
  assert (E : feq (sp_Score a) (sp_Score b) = true) by (by apply flt_total).
  rewrite E in S1. rewrite feq_sym, E in S2. by apply str_lt_total.
Qed.

Lemma bestScoredPlacement_unbeaten best rs seen :
  (forall x, x ∈ seen -> beats x best = false) ->
  forall x, x ∈ seen ++ best :: rs -> beats x (bestScoredPlacement best rs) = false.
Proof.
  revert best seen. induction rs as [|r rs IH]; intros best seen Hs; simpl.
  { intros x [Hx| ->%list_elem_of_singleton]%elem_of_app; [auto|apply beats_irrefl]. }
  fold (beats r best). destruct (beats r best) eqn:E.
  - intros x Hx. apply (IH r (seen ++ [best])); [|rewrite <- app_assoc; exact Hx].
    intros y Hy. destruct (beats y r) eqn:Ey; [|done].
    pose proof (beats_trans _ _ _ Ey E) as Hyb.
    apply elem_of_app in Hy as [Hy| ->%list_elem_of_singleton];
      [by rewrite Hs in Hyb|by rewrite beats_irrefl in Hyb].
  - intros x Hx. apply (IH best (seen ++ [r])).
    + intros y [Hy| ->%list_elem_of_singleton]%elem_of_app; auto.
    + rewrite <- app_assoc. simpl. rewrite elem_of_app, !elem_of_cons in Hx |- *. tauto.
Qed.

(** ** From the run to the request *)

Lemma run_indices req st0 handled st res :
  run_of req st0 handled st res ->
  map p_Index (res_Placements res) ++ map f_Index (res_Failures res) ≡ₚ map rs_Index handled.
Proof.
  induction 1 as [|? st ps fs r msg Hrun IH|? st ps fs r p c Hrun IH Hch]; simpl in *; [done|..];
    rewrite !map_app; simpl.
  - by rewrite app_assoc, IH.
  - destruct Hch as (_ & _ & _ & _ & _ & _ & -> & _).
    rewrite <- app_assoc, (Permutation_app_comm [rs_Index r]), app_assoc, IH. done.
Qed.

Lemma run_placements cs req st0 handled st res p :
  prepareReplicaPlacement cs req = Ok st0 -> run_of req st0 handled st res ->
  p ∈ res_Placements res ->
  exists replica c, replica ∈ handled /\ c ∈ cs /\
     p_Index p = rs_Index replica /\ p_Reserved p = replicaReservation replica /\
     p_NodeID p = c_NodeID c /\ eligible req c /\
     (rs_RuntimeProvider replica = "" \/ runs (rs_RuntimeProvider replica) c = true) /\
     admissible (rq_Constraints req) (rq_ConstraintCtx req) c /\
     (rq_RequiredNode req = "" \/ c_NodeID c = rq_RequiredNode req).
Proof.
  intros Hp. induction 1 as [|? st ps fs r msg Hrun IH|? st ps fs r q c Hrun IH Hch]; simpl in *.
  - set_solver.
  - intros Hin. destruct (IH Hin) as (replica & c & ? & ?). exists replica, c. split; [apply elem_of_app; by left|done].
  - intros [Hin| ->%list_elem_of_singleton]%elem_of_app.
    + destruct (IH Hin) as (replica & c' & ? & ?). exists replica, c'. split; [apply elem_of_app; by left|done].
    + destruct Hch as (Hc & Hr & Ha & _ & Hq & Hn & Hi & _ & Hres).
      destruct (run_candidate cs req st0 _ st _ c Hp Hrun Hc) as (c' & Hc' & He & Hid).
      exists r, c'. rewrite <- (admissible_identity _ _ _ _ Hid), <- (runs_identity _ _ _ Hid).
      assert (c_NodeID c = c_NodeID c') as <- by (by injection Hid).
      split; [apply elem_of_app; right; left|done].
Qed.

Lemma prepared_capacity cs req st0 :
  Forall (fun c => in64 (c_AvailableCPU c) /\ in64 (c_AvailableMemory c) /\ in64 (c_AvailableDisk c)) cs ->
  NoDup (map c_NodeID cs) -> prepareReplicaPlacement cs req = Ok st0 ->
  NoDup (map c_NodeID (st_candidates st0)) /\
  Forall (fun c => in64 (c_AvailableCPU c)) (st_candidates st0) /\
  Forall (fun c => in64 (c_AvailableMemory c)) (st_candidates st0) /\
  Forall (fun c => in64 (c_AvailableDisk c)) (st_candidates st0).
Proof.
  intros H64 Hnd Hp. apply prepared_state in Hp as [-> _]. simpl. split.
  - rewrite map_map, (map_ext _ c_NodeID).
    + eapply sublist_NoDup; [done|]. apply fmap_sublist, sublist_filter.
    + intros c. pose proof (prepared_identity req c) as E. by injection E.
  - rewrite Forall_forall in H64.
    split_and!; apply Forall_forall; intros c (c1 & -> & Hc1)%list_elem_of_fmap;
      apply list_elem_of_filter in Hc1 as [_ Hc1]; destruct (H64 c1 Hc1) as (? & ? & ?);
      unfold prepared_candidate, subtract_usage; repeat case_match; simpl; auto with go;
      apply wrap64_in64.
Qed.

Lemma check_runtimes_error rs msg :
  check_runtimes rs = Some msg -> exists r, r ∈ rs /\ rs_RuntimeProvider r ∉ [""; "docker"].
Proof.
  induction rs as [|r rs IH]; simpl; [done|]. case_match eqn:E; [intros _|intros H].
  - exists r. split; [left|]. apply andb_prop in E as [E _]. apply andb_prop in E as [E1 E2].
    zb. seqb. set_solver.
  - destruct (IH H) as (r' & ? & ?). exists r'. split; [by right|done].
Qed.

Lemma prepared_error cs req msg :
  prepareReplicaPlacement cs req = Err msg ->
  rq_Replicas req = [] \/ cs = [] \/ filter (eligible req) cs = [] \/
  (rq_RequiredNode req <> "" /\ exists r, r ∈ rq_Replicas req /\
     rs_RuntimeProvider r ∉ [""; "docker"]).
Proof.
  unfold prepareReplicaPlacement, ValidateReplicaConstraints.
  destruct (rq_Replicas req) as [|r0 rs0] eqn:Er; [by left|].
  destruct (if negb _ then _ else None) as [m|] eqn:Ev.
  { destruct (String.eqb_spec (rq_RequiredNode req) "") as [Hq|Hq]; cbn [negb] in Ev; [done|].
    apply check_runtimes_error in Ev. auto 6. }
  destruct cs as [|c0 cs0]; [by auto|]. remember (c0 :: cs0) as cs. rewrite local_eligible.
  destruct (negb _ && _) eqn:E; [|by case_decide].
  apply andb_prop in E as [_ E]. destruct (filter (eligible req) cs); [auto|done].
Qed.

(** ** Properties *)

(** C15: replica placement never over-commits a node.  Whatever the replicas,
    the constraints and the (capacity-checking) scorer, the capacity reserved
    on a node by all the placements of one request, failures in between
    included, stays within what the prepared node has available (and is zero
    on a node whose available capacity is negative), for all three resources. *)
Theorem PlaceReplicas_no_overcommit env e cs req w res err w' st0 c :
  CapacityChecked (e_scorer e) ->
  Forall (fun c => in64 (c_AvailableCPU c) /\ in64 (c_AvailableMemory c) /\ in64 (c_AvailableDisk c)) cs ->
  NoDup (map c_NodeID cs) ->
  prepareReplicaPlacement cs req = Ok st0 ->
  PlaceReplicas env e cs req w = ((Some res, err), w') ->
  c ∈ st_candidates st0 ->
  reserved u_CPU (c_NodeID c) (res_Placements res) <= Z.max 0 (c_AvailableCPU c) /\
  reserved u_MemoryMB (c_NodeID c) (res_Placements res) <= Z.max 0 (c_AvailableMemory c) /\
  reserved u_DiskMB (c_NodeID c) (res_Placements res) <= Z.max 0 (c_AvailableDisk c).
Proof.
  intros Hc H64 Hnd Hp HP Hin.
  apply PlaceReplicas_run in HP as (st1 & handled & rest & st' & Hp' & _ & Hrun & _); [|done].
  rewrite Hp in Hp'. injection Hp' as <-.
  destruct (prepared_capacity cs req st0 H64 Hnd Hp) as (Hnd' & H1 & H2 & H3).
  split_and!.
  - by apply (run_no_overcommit c_AvailableCPU u_CPU ltac:(done) ltac:(intros r k Hf; apply Hf) req st0 handled st').
  - by apply (run_no_overcommit c_AvailableMemory u_MemoryMB ltac:(done) ltac:(intros r k Hf; apply Hf) req st0 handled st').
  - by apply (run_no_overcommit c_AvailableDisk u_DiskMB ltac:(done) ltac:(intros r k Hf; apply Hf) req st0 handled st').
Qed.

(** Every replica is answered for, and a placement is a real one.  The
    replicas handled form a prefix of the request (all of it unless the
    context was cancelled), each appears exactly once among the placements and
    failures, a nil error means that not all of them failed, and each
    placement reserves its replica's size on one of the caller's candidates
    that runs its provider, offers the requested storage, satisfies every
    required constraint and is the required node when one is named. *)
Lemma PlaceReplicas_accounts env e cs req w res err w' :
  CapacityChecked (e_scorer e) ->
  PlaceReplicas env e cs req w = ((Some res, err), w') ->
  (exists handled rest, rq_Replicas req = handled ++ rest /\
     map p_Index (res_Placements res) ++ map f_Index (res_Failures res) ≡ₚ map rs_Index handled /\
     (err = None -> rest = [] /\ res_Placements res <> [])) /\
  (forall p, p ∈ res_Placements res -> exists replica c,
     replica ∈ rq_Replicas req /\ c ∈ cs /\
     p_Index p = rs_Index replica /\ p_Reserved p = replicaReservation replica /\
     p_NodeID p = c_NodeID c /\ eligible req c /\
     (rs_RuntimeProvider replica = "" \/ runs (rs_RuntimeProvider replica) c = true) /\
     admissible (rq_Constraints req) (rq_ConstraintCtx req) c /\
     (rq_RequiredNode req = "" \/ c_NodeID c = rq_RequiredNode req)).
Proof.
  intros Hc H. apply PlaceReplicas_run in H as (st0 & handled & rest & st' & Hp & Hreq & Hrun & Herr);
    [|done]. split.
  - exists handled, rest. split_and!; [done|by eapply run_indices|].
    intros E. destruct (Herr E) as [-> [Hf|Hpl]]; split; auto. intros Hpl.
    apply run_indices in Hrun. rewrite Hf, Hpl in Hrun. simpl in Hrun.
    apply Permutation_nil_l, eq_sym, map_eq_nil in Hrun. subst handled.
    by apply prepared_state in Hp as (_ & Hne & _).
  - intros p Hin.
    destruct (run_placements cs req st0 handled st' res p Hp Hrun Hin)
      as (replica & c & Hr & ?). exists replica, c. split; [rewrite Hreq; apply elem_of_app; by left|done].
Qed.

(** Preparation computes the working set of the reference definition.  It
    fails only for an empty request, an empty fleet, storage nobody offers or
    (under a pin) an unsupported runtime; otherwise the working set is the
    eligible candidates in order, each netted once against what the app
    already holds on its node, however the map of existing instances is
    iterated. *)
Lemma prepareReplicaPlacement_correct cs req :
  match prepareReplicaPlacement cs req with
  | Ok st =>
      st_candidates st = map (prepared_candidate req) (filter (eligible req) cs) /\
      st_usedNodeCount st = rq_ExistingNodeMap req /\ rq_Replicas req <> []
  | Err _ =>
      rq_Replicas req = [] \/ cs = [] \/ filter (eligible req) cs = [] \/
      (rq_RequiredNode req <> "" /\ exists r, r ∈ rq_Replicas req /\
         rs_RuntimeProvider r ∉ [""; "docker"])
  end.
Proof.
  destruct (prepareReplicaPlacement cs req) as [st|msg] eqn:E.
  - apply prepared_state in E as (-> & ? & _). done.
  - by eapply prepared_error.
Qed.

(** The winner does not depend on the order of the candidates.  For
    scores that are numbers and distinct nodes, the scan picks the same
    placement from any permutation of the scored candidates. *)
Lemma bestScoredPlacement_permutation a l b l' :
  Forall (fun s => is_nan (sp_Score s) = false) (a :: l) ->
  NoDup (map sp_NodeID (a :: l)) -> a :: l ≡ₚ b :: l' ->
  bestScoredPlacement a l = bestScoredPlacement b l'.
Proof.
  intros Hn Hnd HP. rewrite Forall_forall in Hn.
  pose proof (bestScoredPlacement_elem a l) as H1. pose proof (bestScoredPlacement_elem b l') as H2.
  rewrite <- HP in H2.
  assert (Hid : sp_NodeID (bestScoredPlacement a l) = sp_NodeID (bestScoredPlacement b l')).
  { apply beats_total; auto.
    - apply (bestScoredPlacement_unbeaten b l' []); [set_solver|]. simpl. by rewrite <- HP.
    - apply (bestScoredPlacement_unbeaten a l []); [set_solver|done]. }
  by apply (NoDup_map_inj sp_NodeID (a :: l)).
Qed.

(** ** A concrete request *)

Definition small_candidate (node : string) (cpu : Z) : Candidate :=
  mkCandidate node "eu" 4000 8192 50000 0 0 0 cpu 4096 40000 0 false false "online" "" "".

Definition replica_of (i cpu : Z) : ReplicaSpec := mkReplicaSpec i cpu 1024 5000 "".

Definition witness_replica_request : ReplicaPlacementRequest :=
  mkReplicaPlacementRequest "app" [replica_of 0 900; replica_of 1 900; replica_of 2 900; replica_of 3 900]
    "eu" "" "" "" "" [] (mkConstraintContext ∅ ∅) {[ "n2" := 1 ]} ∅.

Definition witness_replica_fleet : list Candidate :=
  [small_candidate "n1" 2000; small_candidate "n2" 2000].

Definition placements_of (r : option ReplicaPlacementResult * error) : list (Z * string) :=
  match r.1 with
  | Some res => map (fun p => (p_Index p, p_NodeID p)) (res_Placements res)
  | None => []
  end.

Lemma PlaceReplicas_no_overcommit_witness :
  let run := PlaceReplicas "" witness_engine witness_replica_fleet witness_replica_request live_world in
  placements_of run.1 = [(0, "n1"); (1, "n2"); (2, "n1")] /\
  forall st0 res err, prepareReplicaPlacement witness_replica_fleet witness_replica_request = Ok st0 ->
  run.1 = (Some res, err) ->
  forall c, c ∈ st_candidates st0 ->
  reserved u_CPU (c_NodeID c) (res_Placements res) <= Z.max 0 (c_AvailableCPU c).
Proof.
  split; [vm_compute; reflexivity|]. intros st0 res err Hp Hr c Hc.
  refine (proj1 (PlaceReplicas_no_overcommit "" witness_engine witness_replica_fleet
    witness_replica_request live_world res err
    (PlaceReplicas "" witness_engine witness_replica_fleet witness_replica_request live_world).2
    st0 c (LeastLoaded_checked "") _ _ Hp _ Hc)).
  - repeat constructor; simpl; unfold min64, max64; lia.
  - apply (bool_decide_unpack _). vm_compute. exact I.
  - rewrite <- Hr. apply surjective_pairing.
Defined.

Lemma PlaceReplicas_accounts_witness :
  let run := PlaceReplicas "" witness_engine witness_replica_fleet witness_replica_request live_world in
  placements_of run.1 = [(0, "n1"); (1, "n2"); (2, "n1")] /\
  forall res err, run.1 = (Some res, err) -> forall p, p ∈ res_Placements res ->
  exists replica c,
     replica ∈ rq_Replicas witness_replica_request /\ c ∈ witness_replica_fleet /\
     p_Index p = rs_Index replica /\ p_NodeID p = c_NodeID c.
Proof.
  split; [vm_compute; reflexivity|]. intros res err Hr p Hp.
  destruct (PlaceReplicas "" witness_engine witness_replica_fleet witness_replica_request
              live_world) as [r w'] eqn:E. simpl in Hr. subst r.
  destruct (PlaceReplicas_accounts "" witness_engine witness_replica_fleet witness_replica_request
              live_world res err w' (LeastLoaded_checked "") E) as [_ H].
  destruct (H p Hp) as (r & c & H1 & H2 & H3 & _ & H5 & _).
  exact (ex_intro _ r (ex_intro _ c (conj H1 (conj H2 (conj H3 H5))))).
Defined.

Lemma bestScoredPlacement_permutation_witness :
  let a := mkScoredPlacement "n1" f1 [] in
  let b := mkScoredPlacement "n2" f1 [] in
  let c := mkScoredPlacement "n0" f0 [] in
  bestScoredPlacement a [b; c] = a /\ bestScoredPlacement a [b; c] = bestScoredPlacement c [b; a].
Proof.
  split; [vm_compute; reflexivity|]. apply bestScoredPlacement_permutation.
  - repeat constructor.
  - apply (bool_decide_unpack _). vm_compute. exact I.
  - apply (Permutation_rev [_; _; _]).
Defined.

(** ** What the model shows about the comments *)

(** The comment on the spread terms promises a cap of [maxSpreadPenalty]; with
    twenty instances on a node the score drops by two. *)
Lemma spread_penalty_uncapped :
  let c := small_candidate "n1" 2000 in
  let req := witness_replica_request in
  fmt_fixed 2 (sp_Score (replica_terms "" c req {[ "n1" := 20 ]} f0 [])) = "-2.00" /\
  flt (sp_Score (replica_terms "" c req {[ "n1" := 20 ]} f0 [])) (SFopp maxSpreadPenalty) = true.
Proof. split; vm_compute; reflexivity. Qed.

(** A preferred node gets one full point here, not [PreferredNodeBonus]. *)
Lemma preferred_node_term :
  let c := small_candidate "n1" 2000 in
  let req := mkReplicaPlacementRequest "app" [] "eu" "" "n1" "" "" [] (mkConstraintContext ∅ ∅) ∅ ∅ in
  sp_Score (replica_terms "" c req ∅ f0 []) = f1.
Proof. vm_compute. reflexivity. Qed.

(** The explanation leaves the spread penalty out of the score, so the node it
    ranks first need not be the node the engine picks. *)
Lemma explanation_disagrees :
  let fleet := [small_candidate "n1" 2000; small_candidate "n2" 1900] in
  let req := mkReplicaPlacementRequest "app" [replica_of 0 100] "eu" "" "" "" "" []
               (mkConstraintContext ∅ ∅) {[ "n1" := 3 ]} {[ "n3" := mkResourceUsage 0 0 0 ]} in
  placements_of (PlaceReplicas "" witness_engine fleet req live_world).1 = [(0, "n2")] /\
  map (fun x => option_map ce_NodeID (explain_selected None (ex_Candidates x)))
      (ExplainReplicaPlacement "" witness_engine fleet req live_world).1 = [Some "n1"].
Proof. split; vm_compute; reflexivity. Qed.
