(* ===== verification/Reschedule.v ===== *)
(** * The reschedule policy

    [forge/api/internal/services/replicamanager/reschedule.go]: whether and
    when a failed placement is tried again.  A [*ReschedulePolicy] receiver is
    an [option]: [None] is the nil pointer, which the methods accept. *)
From Stdlib Require Import ZArith Lia SpecFloat.
From stdpp Require Import base strings list.
From S2P Require Import Prelude GoStrings GoFloat.
#[local] Open Scope string_scope.
#[local] Open Scope list_scope.
#[local] Open Scope Z_scope.
#[local] Open Scope go_scope.

(** ** [time.Duration.String] *)

(** The digits of a fraction of [prec] digits, trailing zeros dropped. *)
Fixpoint frac_tail (prec : nat) (v : Z) (acc : string) : string :=
  match prec with
  | O => if (acc =? "")%string then "" else cat ["."; acc]
  | S n =>
      let digit := v mod 10 in
      frac_tail n (v / 10)
        (if (acc =? "")%string && (digit =? 0) then "" else cat [itoa digit; acc])
  end.

Definition with_frac (v : Z) (prec : nat) (unit : string) : string :=
  cat [itoa (v / 10 ^ Z.of_nat prec); frac_tail prec (v mod 10 ^ Z.of_nat prec) ""; unit].

Definition micro_unit : string :=
  String (Ascii.ascii_of_N 194) (String (Ascii.ascii_of_N 181) "s").

Definition fmt_duration (d : Duration) : string :=
  let u := Z.abs d in
  let body :=
    if u <? Second then
      if u =? 0 then "0s"
      else if u <? 1000 then with_frac u 0 "ns"
      else if u <? 1000000 then with_frac u 3 micro_unit
      else with_frac u 6 "ms"
    else
      let secs := u / Second in
      let sec := cat [itoa (secs mod 60); frac_tail 9 (u mod Second) ""; "s"] in
      let mins := secs / 60 in
      if mins =? 0 then sec
      else
        let minsec := cat [itoa (mins mod 60); "m"; sec] in
        if mins / 60 =? 0 then minsec else cat [itoa (mins / 60); "h"; minsec] in
  if d <? 0 then cat ["-"; body] else body.

Example ex_duration :
  map fmt_duration [90 * Second; 1500000; 3600 * Second; 0; - 2500000000]
  = ["1m30s"; "1.5ms"; "1h0m0s"; "0s"; "-2.5s"].
Proof. vm_compute. reflexivity. Qed.

(** ** The policy *)

(* go: services/replicamanager/reschedule.go type:ReschedulePolicy *)
Record ReschedulePolicy := mkReschedulePolicy {
  r_Attempts : Z;
  r_Interval : Duration;
  r_Delay : Duration;
  r_DelayFunction : string;
  r_MaxDelay : Duration;
  r_Unlimited : bool
}.

(* go: services/replicamanager/reschedule.go L30-37 *)
Definition DefaultReschedulePolicy : ReschedulePolicy :=
  mkReschedulePolicy 0 (24 * Hour) (30 * Second) "exponential" (1 * Hour) true.

(* go: services/replicamanager/reschedule.go L40-47 *)
Definition DefaultBatchReschedulePolicy : ReschedulePolicy :=
  mkReschedulePolicy 1 (24 * Hour) (5 * Second) "constant" 0 false.

(* go: services/replicamanager/reschedule.go func:ReschedulePolicy.Enabled *)
Definition Enabled (r : option ReschedulePolicy) : bool :=
  match r with
  | None => false
  | Some r => r_Unlimited r || (0 <? r_Attempts r)
  end.

(* go: services/replicamanager/reschedule.go func:ReschedulePolicy.Validate *)
Definition Validate (r : option ReschedulePolicy) : error :=
  match r with
  | None => None
  | Some p =>
      if negb (Enabled r) then None
      else if r_Delay p <? 5 * Second then
        Some (cat ["reschedule delay cannot be less than 5s (got "; fmt_duration (r_Delay p); ")"])
      else if negb (r_DelayFunction p =? "constant")%string
              && negb (r_DelayFunction p =? "exponential")%string
              && negb (r_DelayFunction p =? "fibonacci")%string then
        Some (cat ["invalid delay function "; quote (r_DelayFunction p);
                   ", must be one of [constant exponential fibonacci]"])
      else
        let interval_check :=
          if negb (r_Unlimited p) && (0 <? r_Attempts p) && (r_Interval p <? 15 * Second) then
            Some (cat ["reschedule interval cannot be less than 15s (got ";
                       fmt_duration (r_Interval p); ")"])
          else None in
        if negb (r_DelayFunction p =? "constant")%string then
          if r_MaxDelay p <? 5 * Second then
            Some (cat ["reschedule max delay cannot be less than 5s (got ";
                       fmt_duration (r_MaxDelay p); ")"])
          else if r_MaxDelay p <? r_Delay p then
            Some (cat ["max delay "; fmt_duration (r_MaxDelay p); " cannot be less than delay ";
                       fmt_duration (r_Delay p)])
          else interval_check
        else interval_check
  end.

(** The loop of the fibonacci branch: [n] iterations left, the current pair
    [a], [b] and the last [next]. *)
(* go: services/replicamanager/reschedule.go L111-118 *)
Fixpoint fib_loop (maxDelay : Duration) (n : nat) (a b next : Duration) : Duration * Duration :=
  match n with
  | O => (b, next)
  | S n' =>
      let next := a +i b in
      let next := if (0 <? maxDelay) && (maxDelay <? next) then b +i maxDelay else next in
      fib_loop maxDelay n' b next next
  end.

(** [oor] answers the float conversions that do not fit an int64. *)
(* go: services/replicamanager/reschedule.go func:ReschedulePolicy.NextDelay *)
Definition NextDelay (oor : float -> Z) (r : option ReschedulePolicy) (attempt : Z) : Duration :=
  match r with
  | None => 30 * Second
  | Some r =>
      if attempt <=? 0 then r_Delay r
      else if (r_DelayFunction r =? "constant")%string then r_Delay r
      else if (r_DelayFunction r =? "exponential")%string then
        let delay := fmul (of_int (r_Delay r)) (fpow2 (attempt - 1)) in
        let d := to_int64 oor delay in
        if (0 <? r_MaxDelay r) && (r_MaxDelay r <? d) then r_MaxDelay r else d
      else if (r_DelayFunction r =? "fibonacci")%string then
        if (attempt =? 1) || (attempt =? 2) then
          if (0 <? r_MaxDelay r) && (r_MaxDelay r <? r_Delay r) then r_MaxDelay r else r_Delay r
        else
          let '(b, next) :=
            fib_loop (r_MaxDelay r) (Z.to_nat (attempt - 2)) (r_Delay r) (r_Delay r) 0 in
          if next =? 0 then b else next
      else r_Delay r
  end.

(* go: services/replicamanager/reschedule.go func:ReschedulePolicy.ShouldRetry *)
Definition ShouldRetry (oor : float -> Z) (r : option ReschedulePolicy) (attempts : Z)
    (lastFailure now : Time) : bool * Duration * string :=
  match r with
  | None => (false, 0, "reschedule disabled")
  | Some p =>
      if negb (Enabled r) then (false, 0, "reschedule disabled")
      else if negb (r_Unlimited p) && (0 <? r_Attempts p) && (r_Attempts p <=? attempts) then
        if time_sub now lastFailure <? r_Interval p then
          (false, 0, cat ["attempt cap "; itoa (r_Attempts p); " reached within interval ";
                          fmt_duration (r_Interval p)])
        else (false, 0, cat ["attempt cap "; itoa (r_Attempts p); " exceeded"])
      else
        let delay := NextDelay oor r (attempts +i 1) in
        let elapsed := time_sub now lastFailure in
        if elapsed <? delay then
          (false, delay -i elapsed,
           cat ["backoff "; fmt_duration (delay -i elapsed); " remaining (delay ";
                fmt_duration delay; ")"])
        else (true, 0, "")
  end.

(** ** The specification *)

(** The Fibonacci numbers 1, 1, 2, 3, 5, ... as the pair of consecutive ones. *)
Fixpoint fib_pair (n : nat) : Z * Z :=
  match n with
  | O => (1, 1)
  | S n' => let '(a, b) := fib_pair n' in (b, a + b)
  end.

(** The [attempt]-th one. *)
Definition fib (attempt : Z) : Z := (fib_pair (Z.to_nat (attempt - 1))).1.

(** A policy [Validate] accepts. *)
Definition valid_policy (p : ReschedulePolicy) : Prop :=
  r_Unlimited p = true \/ 0 < r_Attempts p ->
  5 * Second <= r_Delay p /\
  (r_DelayFunction p = "constant" \/
   (r_DelayFunction p = "exponential" \/ r_DelayFunction p = "fibonacci") /\
   5 * Second <= r_MaxDelay p /\ r_Delay p <= r_MaxDelay p) /\
  (r_Unlimited p = false -> 15 * Second <= r_Interval p).

(** The attempts of the window are used up. *)
Definition exhausted (p : ReschedulePolicy) (attempts : Z) : Prop :=
  r_Unlimited p = false /\ r_Attempts p <= attempts.

(** ** Lemmas *)

Lemma fib_pair_pos n : let '(a, b) := fib_pair n in 0 < a <= b.
Proof. induction n as [|n IH]; simpl; [lia|]. destruct (fib_pair n). lia. Qed.

(** One iteration of the loop, its sum in range. *)
Definition fib_next (m a b : Z) : Z := if m <? a + b then b + m else a + b.

Lemma fib_loop_step m n a b x :
  0 < m -> in64 (a + b) -> in64 (b + m) ->
  fib_loop m (S n) a b x = fib_loop m n b (fib_next m a b) (fib_next m a b).
Proof.
  intros Hm H1 H2. simpl. rewrite iadd_exact by done. unfold fib_next.
  replace (0 <? m) with true by (symmetry; by apply Z.ltb_lt). simpl.
  destruct (m <? a + b); [|done]. by rewrite (iadd_exact b m).
Qed.

Lemma fib_loop_bounds m n k a b x :
  0 < a <= b -> 0 < m -> b <= k * m -> 2 * (k + Z.of_nat n) * m <= max64 -> (0 < n)%nat ->
  exists v, fib_loop m n a b x = (v, v) /\ b <= v <= (k + Z.of_nat n) * m.
Proof.
  revert k a b x. induction n as [|n IH]; intros k a b x Hab Hm Hb Hk Hn; [lia|].
  assert (Hr : in64 (a + b) /\ in64 (b + m)) by (unfold in64, min64 in *; nia).
  rewrite fib_loop_step by apply Hr || done.
  assert (Hnext : b < fib_next m a b <= (k + 1) * m).
  { unfold fib_next. destruct (Z.ltb_spec m (a + b)); [lia|]. nia. }
  destruct n as [|n].
  - exists (fib_next m a b). simpl. split; [done|]. nia.
  - destruct (IH (k + 1) b (fib_next m a b) (fib_next m a b)) as (v & -> & Hv); try lia.
    exists v. split; [done|]. lia.
Qed.

Lemma fib_pair_mono i j : (i <= j)%nat -> (fib_pair i).2 <= (fib_pair j).2.
Proof.
  induction 1 as [|j Hij IH]; [lia|]. simpl.
  pose proof (fib_pair_pos j). destruct (fib_pair j). simpl in *. lia.
Qed.

(** As long as the Fibonacci delay fits under the ceiling the loop computes it. *)
Lemma fib_loop_exact d m n k x :
  0 < d -> m <= max64 -> (fib_pair (n + k)).2 * d <= m -> (0 < n)%nat ->
  let v := (fib_pair (n + k)).2 * d in
  fib_loop m n ((fib_pair k).1 * d) ((fib_pair k).2 * d) x = (v, v).
Proof.
  revert k x. induction n as [|n IH]; intros k x Hd Hmax Hm Hn; [lia|].
  pose proof (fib_pair_pos k) as Hk.
  pose proof (fib_pair_mono (S k) (S n + k) ltac:(lia)) as Hle. simpl in Hle.
  pose proof (fib_pair_pos (n + k)) as Hnk.
  simpl in Hm |- *. destruct (fib_pair k) as [a b] eqn:Ek. simpl in *.
  assert (Hsum : a * d + b * d <= m) by nia.
  rewrite iadd_exact by (unfold in64, min64; nia).
  replace (m <? a * d + b * d) with false by (symmetry; apply Z.ltb_ge; lia).
  rewrite andb_false_r. destruct n as [|n].
  - simpl in *. rewrite Ek. simpl. f_equal; lia.
  - replace (S n + k)%nat with (n + S k)%nat in * by lia.
    specialize (IH (S k) (a * d + b * d)). simpl in IH. rewrite Ek in IH. simpl in IH.
    rewrite Z.mul_add_distr_r in IH.
    replace (S (n + S k)) with (S (n + S k))%nat in IH by lia. simpl in IH.
    apply IH; try done; lia.
Qed.

(** ** Properties *)

(** The default policy doubles the delay from thirty seconds and caps it
    at an hour, for each of the first 29 attempts, on every platform. *)
Lemma NextDelay_exponential oor attempt :
  1 <= attempt <= 29 ->
  NextDelay oor (Some DefaultReschedulePolicy) attempt
  = Z.min Hour (30 * Second * 2 ^ (attempt - 1)).
Proof.
  intros H.
  assert (Hin : In attempt (map Z.of_nat (seq 1 29))).
  { apply in_map_iff. exists (Z.to_nat attempt). split; [lia|]. apply in_seq. lia. }
  revert Hin. generalize attempt. apply List.Forall_forall.
  repeat (constructor; [vm_compute; reflexivity|]). constructor.
Qed.

(** The fibonacci delays.  Under a policy whose ceiling is at least its
    delay, the delay of an attempt is exactly the attempt's Fibonacci number
    times the base delay while that fits under the ceiling, it never drops
    below the base delay, and past the ceiling it grows at most by one ceiling
    per attempt (no overflow as long as twice that fits an int64). *)
Lemma NextDelay_fibonacci oor p attempt :
  r_DelayFunction p = "fibonacci" -> 0 < r_Delay p <= r_MaxDelay p ->
  1 <= attempt -> 2 * attempt * r_MaxDelay p <= max64 ->
  let d := NextDelay oor (Some p) attempt in
  (fib attempt * r_Delay p <= r_MaxDelay p -> d = fib attempt * r_Delay p) /\
  r_Delay p <= d <= attempt * r_MaxDelay p.
Proof.
  intros Hf Hd Ha Hmax. unfold NextDelay. rewrite Hf.
  replace (attempt <=? 0) with false by (symmetry; apply Z.leb_gt; lia). cbn [String.eqb Ascii.eqb Bool.eqb].
  destruct (Z.eqb_spec attempt 1) as [->|H1]; [|destruct (Z.eqb_spec attempt 2) as [->|H2]]; cbn [orb].
  1,2: replace (r_MaxDelay p <? r_Delay p) with false by (symmetry; apply Z.ltb_ge; lia);
       rewrite andb_false_r; split; [intros _; change (fib _) with 1|]; lia.
  destruct (fib_loop_bounds (r_MaxDelay p) (Z.to_nat (attempt - 2)) 1 (r_Delay p) (r_Delay p) 0)
    as (v & Hv & Hb); [lia..|]. split.
  - intros Hle. rewrite Hv.
    pose proof (fib_loop_exact (r_Delay p) (r_MaxDelay p) (Z.to_nat (attempt - 2)) 0 0) as He.
    unfold fib in Hle |- *.
    replace (Z.to_nat (attempt - 1)) with (S (Z.to_nat (attempt - 2))) in Hle |- * by lia.
    rewrite Nat.add_0_r in He. simpl in Hle, He |- *.
    destruct (fib_pair (Z.to_nat (attempt - 2))) as [a b]. simpl in Hle, He |- *.
    rewrite !Z.mul_1_l in He. rewrite He in Hv; [|lia..]. injection Hv as <-.
    by destruct (_ =? 0).
  - rewrite Hv. replace (v =? 0) with false by (symmetry; apply Z.eqb_neq; lia). lia.
Qed.

(** [ShouldRetry] decides the policy.  An instance is eligible exactly
    when rescheduling is enabled, its attempts are not used up and the delay
    of its next attempt has passed; it is asked to wait exactly when only the
    delay is missing, for the part of the delay that is left. *)
Lemma ShouldRetry_correct oor p attempts lastFailure now :
  let '(eligible, wait, _) := ShouldRetry oor (Some p) attempts lastFailure now in
  let delay := NextDelay oor (Some p) (attempts +i 1) in
  let elapsed := time_sub now lastFailure in
  let open := Enabled (Some p) = true /\ ~ exhausted p attempts in
  (eligible = true <-> open /\ delay <= elapsed) /\
  (eligible = true -> wait = 0) /\
  (eligible = false -> wait = if bool_decide (open /\ elapsed < delay) then delay -i elapsed else 0).
Proof.
  unfold ShouldRetry, exhausted. cbv zeta.
  generalize (NextDelay oor (Some p) (attempts +i 1)) as delay, (time_sub now lastFailure) as elapsed.
  intros delay elapsed. simpl Enabled.
  destruct (r_Unlimited p), (Z.ltb_spec 0 (r_Attempts p)), (Z.leb_spec (r_Attempts p) attempts);
    cbn [negb andb orb]; try destruct (elapsed <? r_Interval p);
    try destruct (Z.ltb_spec elapsed delay); split_and!; intros;
    try case_bool_decide; try done; naive_solver lia.
Qed.

(** Backing off ends.  An instance told to wait is eligible at every
    instant from the end of the wait on. *)
Lemma ShouldRetry_wait_suffices oor p attempts lastFailure now wait reason now' :
  ShouldRetry oor (Some p) attempts lastFailure now = (false, wait, reason) -> wait <> 0 ->
  0 <= now - lastFailure <= max64 -> NextDelay oor (Some p) (attempts +i 1) <= max64 ->
  now + wait <= now' ->
  ShouldRetry oor (Some p) attempts lastFailure now' = (true, 0, "").
Proof.
  unfold ShouldRetry. destruct (negb (Enabled _)); [congruence|].
  destruct (_ && _ && _); [destruct (_ <? _); congruence|].
  generalize (NextDelay oor (Some p) (attempts +i 1)) as delay. intros delay.
  unfold time_sub, min64, max64.
  destruct (Z.ltb_spec (Z.max (-9223372036854775808) (Z.min 9223372036854775807 (now - lastFailure))) delay);
    [|congruence].
  intros [= <- _] _ Hr Hd Hnow. rewrite isub_exact in Hnow by (unfold in64, min64, max64; lia).
  destruct (Z.ltb_spec (Z.max (-9223372036854775808) (Z.min 9223372036854775807 (now' - lastFailure))) delay);
    [lia|done].
Qed.

(** [Validate] accepts exactly the valid policies. *)
Lemma Validate_correct p : Validate (Some p) = None <-> valid_policy p.
Proof.
  unfold Validate, valid_policy. simpl Enabled.
  destruct (String.eqb_spec (r_DelayFunction p) "constant") as [Ec|Ec];
  destruct (String.eqb_spec (r_DelayFunction p) "exponential") as [Ee|Ee];
  destruct (String.eqb_spec (r_DelayFunction p) "fibonacci") as [Ef|Ef]; try congruence.
  all: destruct (r_Unlimited p) eqn:Eu, (Z.ltb_spec 0 (r_Attempts p)); cbn [negb andb orb].
  all: repeat (case_match; zb); split; try done; try (naive_solver lia).
Qed.

Lemma NextDelay_exponential_witness :
  NextDelay oor_amd64 (Some DefaultReschedulePolicy) 5 = Z.min Hour (30 * Second * 2 ^ 4).
Proof. apply (NextDelay_exponential oor_amd64 5). lia. Defined.

Definition witness_fibonacci : ReschedulePolicy :=
  mkReschedulePolicy 0 (24 * Hour) (10 * Second) "fibonacci" Minute true.

Lemma NextDelay_fibonacci_witness :
  map (NextDelay oor_amd64 (Some witness_fibonacci)) [1; 2; 3; 4; 5; 6]
  = map (fun s => s * Second) [10; 10; 20; 30; 50; 110] /\
  10 * Second <= NextDelay oor_amd64 (Some witness_fibonacci) 6 <= 6 * Minute.
Proof.
  split; [vm_compute; reflexivity|].
  apply (NextDelay_fibonacci oor_amd64 witness_fibonacci 6); vm_compute; repeat split; discriminate.
Defined.

Lemma ShouldRetry_wait_suffices_witness :
  ShouldRetry oor_amd64 (Some witness_fibonacci) 2 0 (5 * Second)
    = (false, 15 * Second, "backoff 15s remaining (delay 20s)") /\
  ShouldRetry oor_amd64 (Some witness_fibonacci) 2 0 (20 * Second) = (true, 0, "").
Proof.
  assert (H : ShouldRetry oor_amd64 (Some witness_fibonacci) 2 0 (5 * Second)
    = (false, 15 * Second, "backoff 15s remaining (delay 20s)")) by (vm_compute; reflexivity).
  split; [exact H|].
  refine (ShouldRetry_wait_suffices oor_amd64 witness_fibonacci 2 0 (5 * Second) (15 * Second) _
            (20 * Second) H _ _ _ _); [done|split; done|done|done].
Defined.

(** ** What the model shows about the comments *)

(** "Capped at MaxDelay" fails at the thirtieth attempt on amd64: the product
    no longer fits an int64, the conversion yields the least int64, which is
    below the cap, and a negative delay never holds a retry back. *)
Lemma exponential_overflow :
  NextDelay oor_amd64 (Some DefaultReschedulePolicy) 30 = min64 /\
  ShouldRetry oor_amd64 (Some DefaultReschedulePolicy) 29 0 0 = (true, 0, "").
Proof. split; vm_compute; reflexivity. Qed.

(** "[MaxDelay] caps the delay": the fibonacci branch goes past it. *)
Lemma fibonacci_above_cap :
  NextDelay oor_amd64 (Some witness_fibonacci) 6 = 110 * Second /\ r_MaxDelay witness_fibonacci = 60 * Second.
Proof. split; vm_compute; reflexivity. Qed.
