(* ===== verification/BlockedEvals.v ===== *)
(** * The queue of blocked evaluations

    [forge/api/internal/services/replicamanager/blocked_eval.go]: placements
    that wait for capacity, kept twice, in a map by instance ID and in a binary
    heap by retry time, both holding pointers to the same objects; an object
    knows its position in the heap.  The model keeps the pointers: [bh_objs] is
    the memory the queue allocated, [pending] and [bh_heap] hold addresses.

    Every method holds the mutex, so a method is one step; its clock reads are
    arguments.  [q_notify] says whether the one-place channel holds a token. *)
From Stdlib Require Import ZArith Lia Sorting.Sorted.
From stdpp Require Import base gmap strings list fin_maps sorting.
From S2P Require Import Prelude GoHeap.
#[local] Open Scope string_scope.
#[local] Open Scope list_scope.
#[local] Open Scope Z_scope.
#[local] Open Scope go_scope.

(** ** Data *)

(* go: services/replicamanager/blocked_eval.go type:pendingPlacement *)
Record pendingPlacement := mkPending {
  pp_AppID : string;
  pp_InstanceID : string;
  pp_LastNodeID : string;
  pp_Attempts : Z;
  pp_NextRetry : Time;
  pp_CreatedAt : Time;
  pp_index : Z
}.

Definition set_index (i : Z) (p : pendingPlacement) : pendingPlacement :=
  mkPending (pp_AppID p) (pp_InstanceID p) (pp_LastNodeID p) (pp_Attempts p)
    (pp_NextRetry p) (pp_CreatedAt p) i.

Abbreviation ptr := positive (only parsing).

(** The heap slice, with the memory its pointers refer to. *)
(* go: services/replicamanager/blocked_eval.go type:blockedEvalHeap *)
Record blockedEvalHeap := mkHeap {
  bh_objs : gmap ptr pendingPlacement;
  bh_heap : list ptr
}.

(** [h[i]] and the object it points to. *)
Definition slot (h : blockedEvalHeap) (i : Z) : outcome ptr :=
  if i <? 0 then Panics
  else match bh_heap h !! Z.to_nat i with Some p => Returns p | None => Panics end.

Definition deref (h : blockedEvalHeap) (p : ptr) : outcome pendingPlacement :=
  match bh_objs h !! p with Some o => Returns o | None => Panics end.

Definition write_index (p : ptr) (i : Z) (h : blockedEvalHeap) : blockedEvalHeap :=
  mkHeap (alter (set_index i) p (bh_objs h)) (bh_heap h).

(* go: services/replicamanager/blocked_eval.go func:blockedEvalHeap.Len *)
Definition heap_Len (h : blockedEvalHeap) : Z := Z.of_nat (length (bh_heap h)).

(* go: services/replicamanager/blocked_eval.go func:blockedEvalHeap.Less *)
Definition heap_Less (h : blockedEvalHeap) (i j : Z) : outcome bool :=
  let* p := slot h i in
  let* a := deref h p in
  let* q := slot h j in
  let* b := deref h q in
  Returns (Before (pp_NextRetry a) (pp_NextRetry b)).

(* go: services/replicamanager/blocked_eval.go func:blockedEvalHeap.Swap *)
Definition heap_Swap (h : blockedEvalHeap) (i j : Z) : outcome blockedEvalHeap :=
  let* p := slot h i in
  let* q := slot h j in
  let h := mkHeap (bh_objs h) (<[Z.to_nat j := p]> (<[Z.to_nat i := q]> (bh_heap h))) in
  let* p := slot h i in
  let h := write_index p i h in
  let* q := slot h j in
  Returns (write_index q j h).

(* go: services/replicamanager/blocked_eval.go func:blockedEvalHeap.Push *)
Definition heap_Push (h : blockedEvalHeap) (item : ptr) : blockedEvalHeap :=
  let n := heap_Len h in
  let h := write_index item n h in
  mkHeap (bh_objs h) (bh_heap h ++ [item]).

(* go: services/replicamanager/blocked_eval.go func:blockedEvalHeap.Pop *)
Definition heap_Pop (h : blockedEvalHeap) : outcome (ptr * blockedEvalHeap) :=
  let n := heap_Len h in
  let* item := slot h (n - 1) in
  let h := write_index item (-1) h in
  Returns (item, mkHeap (bh_objs h) (take (Z.to_nat (n - 1)) (bh_heap h))).

#[export] Instance blocked_heap : HeapInterface blockedEvalHeap ptr := {
  Len := heap_Len;
  Less := heap_Less;
  Swap := heap_Swap;
  PushBack := heap_Push;
  PopBack := heap_Pop
}.

(* go: services/replicamanager/blocked_eval.go type:BlockedEvalQueue *)
Record BlockedEvalQueue := mkQueue {
  q_pending : gmap string ptr;
  q_heap : blockedEvalHeap;
  q_notify : bool
}.

(** ** Operations *)

(* go: services/replicamanager/blocked_eval.go func:NewBlockedEvalQueue *)
Definition NewBlockedEvalQueue : outcome BlockedEvalQueue :=
  let* h := Init (mkHeap ∅ []) in
  Returns (mkQueue ∅ h false).

(** The fields [Enqueue] writes on an entry that is already there; both
    branches of its test on the time store the new time. *)
Definition refresh (appID lastNodeID : string) (attempts : Z) (nextRetry : Time)
    (p : pendingPlacement) : pendingPlacement :=
  mkPending appID (pp_InstanceID p) lastNodeID attempts
    (if Before nextRetry (pp_NextRetry p) then nextRetry else nextRetry)
    (pp_CreatedAt p) (pp_index p).

(* go: services/replicamanager/blocked_eval.go func:BlockedEvalQueue.Enqueue *)
Definition Enqueue (appID instanceID lastNodeID : string) (attempts : Z) (nextRetry now : Time)
    (q : BlockedEvalQueue) : outcome BlockedEvalQueue :=
  match q_pending q !! instanceID with
  | Some existing =>
      let* o := deref (q_heap q) existing in
      let o := refresh appID lastNodeID attempts nextRetry o in
      let h := mkHeap (<[existing := o]> (bh_objs (q_heap q))) (bh_heap (q_heap q)) in
      let* h := Fix h (pp_index o) in
      Returns (mkQueue (q_pending q) h (q_notify q))
  | None =>
      let item := fresh (dom (bh_objs (q_heap q))) in
      let o := mkPending appID instanceID lastNodeID attempts nextRetry now 0 in
      let h := mkHeap (<[item := o]> (bh_objs (q_heap q))) (bh_heap (q_heap q)) in
      let* h := Push h item in
      Returns (mkQueue (<[instanceID := item]> (q_pending q)) h true)
  end.

(* go: services/replicamanager/blocked_eval.go func:BlockedEvalQueue.Remove *)
Definition queue_Remove (instanceID : string) (q : BlockedEvalQueue) : outcome BlockedEvalQueue :=
  match q_pending q !! instanceID with
  | Some item =>
      let* o := deref (q_heap q) item in
      let* r := Remove (q_heap q) (pp_index o) in
      Returns (mkQueue (delete instanceID (q_pending q)) (snd r) (q_notify q))
  | None => Returns q
  end.

(* go: services/replicamanager/blocked_eval.go func:BlockedEvalQueue.PeekNext *)
Definition PeekNext (q : BlockedEvalQueue) : outcome (option pendingPlacement) :=
  if Len (q_heap q) =? 0 then Returns None
  else
    let* orig := slot (q_heap q) 0 in
    let* cp := deref (q_heap q) orig in
    Returns (Some cp).

(* go: services/replicamanager/blocked_eval.go loop:BlockedEvalQueue.PopReady *)
Fixpoint pop_ready_loop (fuel : nat) (now : Time) (q : BlockedEvalQueue)
    (ready : list pendingPlacement) : outcome (list pendingPlacement * BlockedEvalQueue) :=
  match fuel with
  | O => Panics
  | S fuel =>
      let* go_on :=
        (if 0 <? Len (q_heap q) then
           let* p := slot (q_heap q) 0 in
           let* o := deref (q_heap q) p in
           Returns (negb (After (pp_NextRetry o) now))
         else Returns false) in
      if negb go_on then Returns (ready, q)
      else
        let* r := Pop (q_heap q) in
        let* item := deref (snd r) (fst r) in
        pop_ready_loop fuel now
          (mkQueue (delete (pp_InstanceID item) (q_pending q)) (snd r) (q_notify q))
          (ready ++ [item])
  end.

(* go: services/replicamanager/blocked_eval.go func:BlockedEvalQueue.PopReady *)
Definition PopReady (now : Time) (q : BlockedEvalQueue)
    : outcome (list pendingPlacement * BlockedEvalQueue) :=
  pop_ready_loop (length (bh_heap (q_heap q)) + 1) now q [].

(* go: services/replicamanager/blocked_eval.go func:BlockedEvalQueue.Len *)
Definition queue_Len (q : BlockedEvalQueue) : Z := Z.of_nat (size (q_pending q)).

(* go: services/replicamanager/blocked_eval.go func:BlockedEvalQueue.Trigger *)
Definition Trigger (q : BlockedEvalQueue) : BlockedEvalQueue :=
  mkQueue (q_pending q) (q_heap q) true.

(** A receive on the channel of [Notify], which takes the token. *)
(* go: services/replicamanager/blocked_eval.go func:BlockedEvalQueue.Notify *)
Definition Notify (q : BlockedEvalQueue) : bool * BlockedEvalQueue :=
  (q_notify q, mkQueue (q_pending q) (q_heap q) false).

(** Go visits a map in no particular order; this is one. *)
(* go: services/replicamanager/blocked_eval.go func:BlockedEvalQueue.List *)
Definition ListPending (q : BlockedEvalQueue) : list pendingPlacement :=
  omap (fun '(_, p) => bh_objs (q_heap q) !! p) (map_to_list (q_pending q)).

(** A run of the queue: [i3] is retried before [i1], [i2] is withdrawn, and
    [i1]'s time is moved. *)
Example ex_queue :
  (let* q := NewBlockedEvalQueue in
   let* q := Enqueue "a" "i1" "n1" 1 50 0 q in
   let* q := Enqueue "a" "i2" "n1" 1 20 1 q in
   let* q := Enqueue "a" "i3" "" 1 30 2 q in
   let* q := Enqueue "a" "i4" "n2" 1 90 2 q in
   let* q := queue_Remove "i2" q in
   let* q := Enqueue "a" "i1" "n2" 2 40 3 q in
   let* r := PopReady 40 q in
   let* next := PeekNext (snd r) in
   Returns (map pp_InstanceID (fst r), map pp_CreatedAt (fst r), pp_InstanceID <$> next, queue_Len (snd r)))
  = Returns (["i3"; "i1"], [2; 0], Some "i4", 1).
Proof. vm_compute. reflexivity. Qed.

(** ** The contract

    To its callers the queue is a map from instance IDs to entries. *)

(** An entry without its position in the heap. *)
Definition erase : pendingPlacement -> pendingPlacement := set_index 0.

Abbreviation queue_spec := (gmap string pendingPlacement) (only parsing).

Definition abs (q : BlockedEvalQueue) : queue_spec :=
  omap (fun p => erase <$> bh_objs (q_heap q) !! p) (q_pending q).

Definition enqueue_spec (appID instanceID lastNodeID : string) (attempts : Z) (nextRetry now : Time)
    (m : queue_spec) : queue_spec :=
  let created := match m !! instanceID with Some e => pp_CreatedAt e | None => now end in
  <[instanceID := mkPending appID instanceID lastNodeID attempts nextRetry created 0]> m.

(** The entries still in the future at [now]. *)
Definition later (now : Time) (m : queue_spec) : queue_spec :=
  filter (fun '(_, e) => now < pp_NextRetry e) m.

(** ** The heap as an array of addresses with their times *)
Definition time_of (objs : gmap ptr pendingPlacement) (p : ptr) : Time :=
  match objs !! p with Some o => pp_NextRetry o | None => 0 end.

Definition view (h : blockedEvalHeap) : list (ptr * Time) :=
  map (fun p => (p, time_of (bh_objs h) p)) (bh_heap h).

Definition sooner (a b : ptr * Time) : bool := Before (snd a) (snd b).

Lemma sooner_asym a b : sooner a b = true -> sooner b a = false.
Proof. unfold sooner. intros. zb. lia. Qed.

Lemma sooner_ntrans a b c : sooner b a = false -> sooner c b = false -> sooner c a = false.
Proof. unfold sooner. intros. zb. lia. Qed.

(** Every address in the heap is allocated and knows its position. *)
Definition indexed (h : blockedEvalHeap) : Prop :=
  forall i p, bh_heap h !! i = Some p ->
    exists o, bh_objs h !! p = Some o /\ pp_index o = Z.of_nat i.

(** ... and the objects are those of [base], positions apart. *)
Definition heap_inv (base : gmap ptr pendingPlacement) (h : blockedEvalHeap) : Prop :=
  erase <$> bh_objs h = base /\ indexed h.

Lemma indexed_inj h i j p :
  indexed h -> bh_heap h !! i = Some p -> bh_heap h !! j = Some p -> i = j.
Proof. intros H (o & Ho & Hi)%H (o' & Ho' & Hj)%H. simplify_eq. lia. Qed.

Lemma indexed_NoDup h : indexed h -> NoDup (bh_heap h).
Proof. intros H. apply NoDup_alt. intros i j p. by apply indexed_inj. Qed.

Lemma slot_at h i p : bh_heap h !! i = Some p -> slot h (Z.of_nat i) = Returns p.
Proof.
  intros Hp. unfold slot. replace (Z.of_nat i <? 0) with false by (symmetry; apply Z.ltb_ge; lia).
  by rewrite Nat2Z.id, Hp.
Qed.

Lemma erase_alter (objs : gmap ptr pendingPlacement) p i :
  erase <$> alter (set_index i) p objs = erase <$> objs.
Proof.
  apply map_eq. intros k. rewrite !lookup_fmap, lookup_alter. case_decide; [subst|done].
  by destruct (objs !! k).
Qed.

Lemma time_of_erase objs p : time_of (erase <$> objs) p = time_of objs p.
Proof. unfold time_of. rewrite lookup_fmap. by destruct (objs !! p). Qed.

Lemma view_base base h : heap_inv base h -> view h = map (fun p => (p, time_of base p)) (bh_heap h).
Proof. intros [<- _]. apply map_ext. intros p. by rewrite time_of_erase. Qed.

Lemma map_swap {A B} (f : A -> B) l i j : map f (swap l i j) = swap (map f l) i j.
Proof.
  unfold swap. rewrite !list_lookup_fmap. destruct (l !! i), (l !! j); simpl; [|done..].
  by rewrite !list_fmap_insert.
Qed.

Lemma indexed_swap h i j p q :
  indexed h -> bh_heap h !! i = Some p -> bh_heap h !! j = Some q ->
  let objs := alter (set_index (Z.of_nat j)) p (alter (set_index (Z.of_nat i)) q (bh_objs h)) in
  indexed (mkHeap objs (swap (bh_heap h) i j)).
Proof.
  intros Hix Hi Hj objs k r. unfold objs. cbn.
  rewrite swap_lookup, Hi, Hj by eauto using lookup_lt_Some.
  assert (Hne : forall k r, bh_heap h !! k = Some r -> (r = p <-> k = i) /\ (r = q <-> k = j)).
  { intros k' r' Hk'. split; split; intros; subst; try congruence; by eapply indexed_inj. }
  destruct (Hix _ _ Hi) as (op & Hop & _), (Hix _ _ Hj) as (oq & Hoq & _).
  repeat case_decide; intros Hk; simplify_eq; rewrite !lookup_alter.
  - rewrite Hoq, Hop. repeat case_decide; subst; try done; eexists; (split; [done|]); [|done].
    cbn. f_equal. by eapply indexed_inj.
  - rewrite Hop. repeat case_decide; simplify_eq; try done; rewrite ?Hop; by eexists.
  - destruct (Hix _ _ Hk) as (o & -> & ?). destruct (Hne _ _ Hk) as [[??] [??]].
    rewrite !decide_False by (intros ->; tauto). eauto.
Qed.

#[export] Instance blocked_heap_laws base :
  HeapLaws (X := ptr) (heap_inv base) view sooner.
Proof.
  split.
  - intros h _. unfold view. rewrite length_map. done.
  - intros h i j a b [_ Hix]. unfold view. rewrite !list_lookup_fmap.
    intros (p & Hp & ->)%fmap_Some (q & Hq & ->)%fmap_Some.
    destruct (Hix _ _ Hp) as (o & Ho & _), (Hix _ _ Hq) as (o' & Ho' & _).
    cbn. unfold heap_Less, deref. rewrite (slot_at h i p), (slot_at h j q) by done. cbn.
    rewrite Ho. cbn. rewrite Ho'. unfold sooner, time_of. cbn. by rewrite Ho, Ho'.
  - intros h i j [Hb Hix]. unfold view at 1 2. rewrite !length_map. intros Hi Hj.
    destruct (lookup_lt_is_Some_2 _ _ Hi) as [p Hp], (lookup_lt_is_Some_2 _ _ Hj) as [q Hq].
    pose proof (indexed_swap h i j p q Hix Hp Hq) as Hsw. cbv zeta in Hsw.
    eexists. split; [|split; [split; [|exact Hsw]|]].
    + cbn [Swap blocked_heap]. unfold heap_Swap. rewrite (slot_at h i p), (slot_at h j q) by done.
      cbn [obind]. rewrite !Nat2Z.id.
      assert (Hl : bh_heap (mkHeap (bh_objs h) (<[j:=p]> (<[i:=q]> (bh_heap h)))) = swap (bh_heap h) i j).
      { unfold swap. rewrite Hp, Hq. cbn. destruct (decide (i = j)) as [->|].
        - assert (p = q) as -> by congruence. done.
        - by rewrite list_insert_insert_ne. }
      rewrite (slot_at _ i q) by (rewrite Hl, swap_lookup by done; by rewrite decide_True).
      cbn [obind]. rewrite (slot_at _ j p).
      2: { cbn [bh_heap write_index]. cbn [bh_heap] in Hl. rewrite Hl, swap_lookup by done.
           case_decide; [congruence|]. by rewrite decide_True. }
      cbn [obind]. unfold write_index. cbn [bh_objs bh_heap]. cbn [bh_heap] in Hl. rewrite Hl. done.
    + cbn. by rewrite !erase_alter.
    + unfold view. cbn [bh_objs bh_heap]. rewrite map_swap. f_equal.
      * apply map_ext. intros r. f_equal. rewrite <- (time_of_erase (alter _ _ _)), !erase_alter.
        apply time_of_erase.
Qed.

(** ** Well-formed queues

    The heap is in order, its objects know their positions, and the map holds
    exactly the objects of the heap under their instance IDs. *)
Definition holds (objs : gmap ptr pendingPlacement) (l : list ptr) (pending : gmap string ptr) : Prop :=
  forall id p, pending !! id = Some p <-> p ∈ l /\ exists o, objs !! p = Some o /\ pp_InstanceID o = id.

Record queue_wf (q : BlockedEvalQueue) : Prop := {
  wf_indexed : indexed (q_heap q);
  wf_heap : heap_ok sooner (view (q_heap q)) (length (view (q_heap q)));
  wf_pending : holds (bh_objs (q_heap q)) (bh_heap (q_heap q)) (q_pending q)
}.

Definition base_of (q : BlockedEvalQueue) : gmap ptr pendingPlacement := erase <$> bh_objs (q_heap q).

Lemma base_inv q : queue_wf q -> heap_inv (base_of q) (q_heap q).
Proof. intros [? _ _]. done. Qed.

Lemma holds_erase objs l pending : holds (erase <$> objs) l pending <-> holds objs l pending.
Proof.
  unfold holds. setoid_rewrite lookup_fmap. split; intros H id p; rewrite H.
  - destruct (objs !! p); simpl; naive_solver.
  - destruct (objs !! p); simpl; naive_solver.
Qed.

Lemma holds_perm objs l l' pending : l ≡ₚ l' -> holds objs l pending -> holds objs l' pending.
Proof. intros E H id p. by rewrite (H id p), E. Qed.

Lemma abs_base base pending h n :
  heap_inv base h -> abs (mkQueue pending h n) = omap (fun p => base !! p) pending.
Proof.
  intros [<- _]. unfold abs. apply map_eq. intros id. rewrite !lookup_omap.
  cbn. destruct (pending !! id); simpl; [|done]. by rewrite lookup_fmap.
Qed.

Lemma abs_eq q : queue_wf q -> abs q = omap (fun p => base_of q !! p) (q_pending q).
Proof. intros W. rewrite <- (abs_base _ _ _ (q_notify q) (base_inv q W)). by destruct q. Qed.

(** What a heap operation that keeps the elements re-establishes. *)
Lemma wf_after base h pending n :
  heap_inv base h -> heap_ok sooner (view h) (length (view h)) ->
  holds base (bh_heap h) pending -> queue_wf (mkQueue pending h n).
Proof. intros [<- ?] ? Hh. pose proof (proj1 (holds_erase _ _ _) Hh). by split. Qed.

Lemma view_heap h : map fst (view h) = bh_heap h.
Proof. unfold view. rewrite map_map. apply map_id. Qed.

Lemma view_perm h h' : view h ≡ₚ view h' -> bh_heap h ≡ₚ bh_heap h'.
Proof. intros E. rewrite <- !view_heap. by rewrite E. Qed.

Lemma view_lookup h i p :
  bh_heap h !! i = Some p -> view h !! i = Some (p, time_of (bh_objs h) p).
Proof. intros E. unfold view. by rewrite list_lookup_fmap, E. Qed.

Lemma wf_entry q id p :
  queue_wf q -> q_pending q !! id = Some p ->
  exists i o, bh_heap (q_heap q) !! i = Some p /\ bh_objs (q_heap q) !! p = Some o /\
    pp_InstanceID o = id /\ pp_index o = Z.of_nat i.
Proof.
  intros W [[i Hi]%list_elem_of_lookup (o & Ho & Hid)]%(wf_pending q W).
  exists i, o. split_and!; [done..|]. destruct (wf_indexed q W i p Hi) as (o' & ? & ?). congruence.
Qed.

Lemma abs_lookup q id p o :
  q_pending q !! id = Some p -> bh_objs (q_heap q) !! p = Some o -> abs q !! id = Some (erase o).
Proof. intros Hp Ho. unfold abs. rewrite lookup_omap, Hp. simpl. by rewrite Ho. Qed.

Lemma abs_lookup_None q id :
  queue_wf q -> abs q !! id = None <-> q_pending q !! id = None.
Proof.
  intros W. destruct (q_pending q !! id) as [p|] eqn:Hp.
  - destruct (wf_entry q id p W Hp) as (i & o & _ & Ho & _). by rewrite (abs_lookup q id p o).
  - unfold abs. by rewrite lookup_omap, Hp.
Qed.

(** Taking the last element off, as [Remove] and [Pop] do in the end. *)
Lemma pop_back_spec base h h' x :
  ready_to_pop (heap_inv base) view sooner h h' x ->
  exists h'', heap_Pop h' = Returns (fst x, h'') /\ heap_inv base h'' /\
    bh_heap h ≡ₚ fst x :: bh_heap h'' /\ heap_ok sooner (view h'') (length (view h'')).
Proof.
  intros (rest & [Hb Hix] & Hv & Hp & Hok). destruct x as [p t].
  assert (Hh : bh_heap h' = map fst rest ++ [p]) by (by rewrite <- view_heap, Hv, map_app).
  assert (Hlast : bh_heap h' !! length rest = Some p).
  { rewrite Hh, lookup_app_r; rewrite length_map; [|lia]. by rewrite Nat.sub_diag. }
  assert (Hlen : heap_Len h' - 1 = Z.of_nat (length rest)).
  { unfold heap_Len. rewrite Hh, length_app, length_map. cbn [length]. lia. }
  set (h'' := mkHeap (alter (set_index (-1)) p (bh_objs h')) (map fst rest)).
  assert (I2 : heap_inv base h'').
  { split; [cbn; by rewrite erase_alter|]. intros i r Hr. cbn in Hr |- *.
    assert (Hr' : bh_heap h' !! i = Some r) by (rewrite Hh; by apply lookup_app_l_Some).
    destruct (Hix i r Hr') as (o & Ho & ?). rewrite lookup_alter_ne; [by eauto|].
    intros ->. pose proof (indexed_inj h' _ _ r Hix Hr' Hlast).
    apply lookup_lt_Some in Hr. rewrite length_map in Hr. lia. }
  assert (V2 : view h'' = rest).
  { rewrite (view_base base h'' I2). rewrite (view_base base h' (conj Hb Hix)), Hh, map_app in Hv.
    by apply app_inj_tail in Hv as [? _]. }
  exists h''. split; [|split; [done|split]].
  - unfold heap_Pop. rewrite Hlen, (slot_at h' _ p Hlast). cbn [obind].
    rewrite Nat2Z.id. cbn [bh_heap write_index fst]. unfold h''. do 3 f_equal.
    rewrite Hh, take_app_length'; [done|]. by rewrite length_map.
  - apply view_perm in Hp. rewrite <- Hp, Hh. cbn. by rewrite Permutation_app_comm.
  - by rewrite V2.
Qed.

(** ** Each operation meets the contract *)

Lemma holds_new base l pending p o :
  p ∉ l -> pending !! pp_InstanceID o = None -> holds base l pending ->
  holds (<[p := o]> base) (p :: l) (<[pp_InstanceID o := p]> pending).
Proof.
  intros Hp Hn H id r. rewrite lookup_insert, elem_of_cons. case_decide as Hid.
  - subst. split.
    + intros [= <-]. split; [by left|]. exists o. by rewrite lookup_insert_eq.
    + intros [[->|Hr] (o' & Ho' & Hid)]; [done|].
      rewrite lookup_insert_ne in Ho' by (intros ->; done).
      assert (pending !! pp_InstanceID o = Some r) by (apply H; eauto). congruence.
  - rewrite (H id r). split.
    + intros [Hr (o' & Ho' & ?)]. split; [by right|]. exists o'.
      by rewrite lookup_insert_ne by (intros ->; done).
    + intros [[->|Hr] (o' & Ho' & Hid')].
      * rewrite lookup_insert_eq in Ho'. simplify_eq.
      * rewrite lookup_insert_ne in Ho' by (intros ->; done). eauto.
Qed.

Lemma holds_refresh base l pending p o o' :
  base !! p = Some o -> pp_InstanceID o' = pp_InstanceID o ->
  holds base l pending -> holds (<[p := o']> base) l pending.
Proof.
  intros Ho Hid H id r. rewrite (H id r), lookup_insert. case_decide; [subst|done].
  split; intros [? (x & Hx & <-)]; (split; [done|]); simplify_eq; eauto.
Qed.

Lemma holds_drop base p l pending o :
  NoDup (p :: l) -> base !! p = Some o -> holds base (p :: l) pending ->
  holds base l (delete (pp_InstanceID o) pending).
Proof.
  intros [Hp _]%NoDup_cons Ho H id r. rewrite lookup_delete. case_decide as Hid.
  - subst. split; [done|]. intros [Hr (o' & Ho' & Hid)].
    assert (E : pending !! pp_InstanceID o = Some r) by (apply H; split; [by right|eauto]).
    assert (E' : pending !! pp_InstanceID o = Some p) by (apply H; split; [by left|eauto]).
    congruence.
  - rewrite (H id r), elem_of_cons. split; [|naive_solver].
    intros [[->|?] (o' & Ho' & <-)]; [congruence|eauto].
Qed.

Lemma omap_insert_objs base l pending p o o' :
  base !! p = Some o -> pp_InstanceID o' = pp_InstanceID o ->
  holds base l pending -> pending !! pp_InstanceID o = Some p ->
  omap (fun r => <[p := o']> base !! r) pending
  = <[pp_InstanceID o := o']> (omap (fun r => base !! r) pending).
Proof.
  intros Ho Hid H Hp. apply map_eq. intros id. rewrite lookup_omap, lookup_insert.
  case_decide as E; [subst; rewrite Hp; simpl; by rewrite lookup_insert_eq|].
  rewrite lookup_omap. destruct (pending !! id) as [r|] eqn:Hr; simpl; [|done].
  rewrite lookup_insert_ne; [done|]. intros ->.
  apply H in Hr as [_ (x & Hx & <-)]. congruence.
Qed.

Lemma omap_delete_objs (base : gmap ptr pendingPlacement) (pending : gmap string ptr) id :
  omap (fun r => base !! r) (delete id pending) = delete id (omap (fun r => base !! r) pending).
Proof.
  apply map_eq. intros k. rewrite lookup_omap, !lookup_delete.
  case_decide; [done|]. by rewrite lookup_omap.
Qed.

Lemma Enqueue_refreshes appID id node attempts t now q p :
  queue_wf q -> q_pending q !! id = Some p ->
  exists q', Enqueue appID id node attempts t now q = Returns q' /\ queue_wf q' /\
    abs q' = enqueue_spec appID id node attempts t now (abs q) /\ q_notify q' = q_notify q.
Proof.
  intros W Hp. destruct (wf_entry q id p W Hp) as (i & o & Hi & Ho & Hid & Hix).
  unfold Enqueue. rewrite Hp. unfold deref. rewrite Ho. cbn [obind].
  set (o' := refresh appID node attempts t o). set (h := mkHeap _ _).
  assert (Hb : base_of q !! p = Some (erase o)) by (unfold base_of; by rewrite lookup_fmap, Ho).
  set (base := <[p := erase o']> (base_of q)).
  assert (I : heap_inv base h).
  { split; [unfold h, base, base_of; cbn; by rewrite fmap_insert|].
    intros k r Hr. cbn in Hr |- *. rewrite lookup_insert. case_decide; subst.
    - exists o'. split; [done|]. cbn. rewrite Hix. f_equal. by eapply (indexed_inj _ _ _ _ (wf_indexed q W)).
    - by apply (wf_indexed q W). }
  assert (V : view h = <[i := (p, t)]> (view (q_heap q))).
  { rewrite (view_base base h I), (view_base _ _ (base_inv q W)). apply list_eq. intros k.
    cbn [bh_heap h]. rewrite list_lookup_fmap. destruct (decide (k = i)) as [->|Hk].
    - rewrite Hi, list_lookup_insert_eq by (rewrite length_map; by eapply lookup_lt_Some). simpl.
      unfold time_of, base. rewrite lookup_insert_eq. cbn. by destruct (Before _ _).
    - rewrite list_lookup_insert_ne, list_lookup_fmap by done.
      destruct (bh_heap (q_heap q) !! k) as [r|] eqn:Hr; simpl; [|done]. do 2 f_equal.
      unfold time_of, base. rewrite lookup_insert_ne; [done|]. intros ->.
      by pose proof (indexed_inj _ _ _ _ (wf_indexed q W) Hr Hi). }
  assert (Hlt : (i < length (view h))%nat).
  { rewrite V, length_insert. unfold view. rewrite length_map. by eapply lookup_lt_Some. }
  change (pp_index o') with (pp_index o). rewrite Hix.
  destruct (Fix_spec (heap_inv base) view sooner sooner_asym sooner_ntrans h i)
    as (h' & -> & I' & P' & Hok'); [done..| |].
  { rewrite V, length_insert. apply hole_insert; auto using sooner_asym, sooner_ntrans.
    - apply sooner_asym.
    - apply sooner_ntrans.
    - apply (wf_heap q W). }
  cbn [obind]. apply view_perm in P'. cbn [h bh_heap] in P'.
  assert (Hh : holds (base_of q) (bh_heap (q_heap q)) (q_pending q))
    by apply holds_erase, (wf_pending q W).
  eexists. split; [done|]. split; [|split; [|done]].
  - apply (wf_after base); [done..|]. eapply holds_perm; [by symmetry|].
    by eapply holds_refresh.
  - rewrite (abs_base base) by done. unfold base.
    rewrite (omap_insert_objs (base_of q) (bh_heap (q_heap q)) _ p (erase o)); try done.
    2: by rewrite <- Hid in Hp.
    rewrite <- abs_eq by done. unfold enqueue_spec. rewrite (abs_lookup q id p o) by done.
    cbn. rewrite Hid. f_equal. unfold o', erase, set_index. cbn. rewrite Hid.
    by destruct (Before _ _).
Qed.

Lemma Enqueue_adds appID id node attempts t now q :
  queue_wf q -> q_pending q !! id = None ->
  exists q', Enqueue appID id node attempts t now q = Returns q' /\ queue_wf q' /\
    abs q' = enqueue_spec appID id node attempts t now (abs q) /\ q_notify q' = true.
Proof.
  intros W Hp. unfold Enqueue. rewrite Hp.
  set (objs := bh_objs (q_heap q)). set (p := fresh (dom objs)).
  set (o := mkPending appID id node attempts t now 0).
  assert (Hfresh : objs !! p = None) by apply not_elem_of_dom, is_fresh.
  set (h := mkHeap (<[p := o]> objs) (bh_heap (q_heap q))).
  set (base := <[p := erase o]> (base_of q)).
  assert (Hnp : p ∉ bh_heap (q_heap q)).
  { intros [i Hi]%list_elem_of_lookup. destruct (wf_indexed q W i p Hi) as (x & Hx & _).
    unfold objs in Hfresh. congruence. }
  assert (I : heap_inv base (heap_Push h p)).
  { split; [cbn; rewrite erase_alter; unfold base, base_of; by rewrite fmap_insert|].
    intros k r Hr. cbn in Hr |- *. destruct (decide (k < length (bh_heap (q_heap q))))%nat.
    - rewrite lookup_app_l in Hr by done. destruct (wf_indexed q W k r Hr) as (x & Hx & ?).
      rewrite lookup_alter_ne, lookup_insert_ne; eauto; intros ->; apply Hnp; by eapply list_elem_of_lookup_2.
    - pose proof (lookup_lt_Some _ _ _ Hr) as Hl. rewrite length_app in Hl. cbn in Hl.
      assert (k = length (bh_heap (q_heap q))) as -> by lia.
      rewrite lookup_app_r, Nat.sub_diag in Hr by lia. cbn in Hr. simplify_eq.
      rewrite lookup_alter_eq, lookup_insert_eq. by eexists. }
  assert (V : view (heap_Push h p) = view (q_heap q) ++ [(p, t)]).
  { rewrite (view_base base _ I), (view_base _ _ (base_inv q W)). cbn. rewrite map_app. f_equal.
    - apply map_ext_in. intros r Hr%list_elem_of_In. f_equal. unfold time_of, base.
      rewrite lookup_insert_ne; [done|]. by intros ->.
    - cbn. unfold time_of, base. by rewrite lookup_insert_eq. }
  unfold Push. cbn [PushBack blocked_heap].
  destruct (push_spec (heap_inv base) view sooner sooner_asym sooner_ntrans
    (heap_Push h p) (view (q_heap q)) (p, t)) as (h' & E & I' & P' & Hok'); [done|done|apply (wf_heap q W)|].
  rewrite E. cbn [obind]. apply view_perm in P'.
  assert (Hh : holds (base_of q) (bh_heap (q_heap q)) (q_pending q))
    by apply holds_erase, (wf_pending q W).
  assert (Hnew : holds base (p :: bh_heap (q_heap q)) (<[id := p]> (q_pending q)))
    by (apply (holds_new _ _ _ _ (erase o)); done).
  eexists. split; [done|]. split; [|split; [|done]].
  - apply (wf_after base); [done..|]. eapply holds_perm; [|exact Hnew].
    rewrite P'. cbn. by rewrite Permutation_app_comm.
  - rewrite (abs_base base) by done. unfold enqueue_spec.
    rewrite (proj2 (abs_lookup_None q id W) Hp), (abs_eq q W). apply map_eq. intros k.
    rewrite lookup_omap, !lookup_insert. case_decide; simpl.
    + unfold base. by rewrite lookup_insert_eq.
    + rewrite lookup_omap. destruct (q_pending q !! k) as [r|] eqn:Hr; simpl; [|done].
      unfold base. rewrite lookup_insert_ne; [done|]. intros ->.
      by apply Hh in Hr as [? _].
Qed.

Lemma Enqueue_spec appID id node attempts t now q :
  queue_wf q ->
  exists q', Enqueue appID id node attempts t now q = Returns q' /\ queue_wf q' /\
    abs q' = enqueue_spec appID id node attempts t now (abs q) /\
    q_notify q' = (q_notify q || negb (bool_decide (is_Some (abs q !! id))))%bool.
Proof.
  intros W. destruct (q_pending q !! id) as [p|] eqn:Hp.
  - destruct (Enqueue_refreshes appID id node attempts t now q p W Hp) as (q' & ? & ? & ? & Hn).
    exists q'. split_and!; [done..|]. rewrite Hn. destruct (wf_entry q id p W Hp) as (i & o & _ & Ho & _).
    rewrite (abs_lookup q id p o) by done. rewrite bool_decide_true by done. by rewrite orb_false_r.
  - destruct (Enqueue_adds appID id node attempts t now q W Hp) as (q' & ? & ? & ? & Hn).
    exists q'. split_and!; [done..|]. rewrite Hn. rewrite (proj2 (abs_lookup_None q id W) Hp).
    rewrite bool_decide_false by (by intros [? ?]). by rewrite orb_true_r.
Qed.

(** Dropping the entry of [p] from heap and map. *)
Lemma wf_drop q p o h' n :
  queue_wf q -> bh_objs (q_heap q) !! p = Some o -> heap_inv (base_of q) h' ->
  bh_heap (q_heap q) ≡ₚ p :: bh_heap h' -> heap_ok sooner (view h') (length (view h')) ->
  let q' := mkQueue (delete (pp_InstanceID o) (q_pending q)) h' n in
  queue_wf q' /\ abs q' = delete (pp_InstanceID o) (abs q).
Proof.
  intros W Ho I' P' Hok'. cbv zeta. split.
  - apply (wf_after (base_of q)); [done..|].
    change (pp_InstanceID o) with (pp_InstanceID (erase o)). apply (holds_drop _ p).
    + rewrite <- P'. apply indexed_NoDup, W.
    + unfold base_of. by rewrite lookup_fmap, Ho.
    + eapply holds_perm; [exact P'|]. apply holds_erase, W.
  - by rewrite (abs_base (base_of q)), (abs_eq q W), omap_delete_objs.
Qed.

Lemma Remove_ok id q :
  queue_wf q ->
  exists q', queue_Remove id q = Returns q' /\ queue_wf q' /\ abs q' = delete id (abs q) /\
    q_notify q' = q_notify q.
Proof.
  intros W. unfold queue_Remove. destruct (q_pending q !! id) as [p|] eqn:Hp.
  - destruct (wf_entry q id p W Hp) as (i & o & Hi & Ho & Hid & Hix).
    unfold deref. rewrite Ho. cbn [obind]. rewrite Hix.
    destruct (Remove_spec (heap_inv (base_of q)) view sooner sooner_asym sooner_ntrans
      (q_heap q) i (p, time_of (bh_objs (q_heap q)) p)) as (h1 & -> & Hr);
      [by apply base_inv|apply W|by apply view_lookup|].
    destruct (pop_back_spec _ _ _ _ Hr) as (h2 & E & I2 & P2 & Hok2).
    cbn [PopBack blocked_heap]. rewrite E. cbn [obind fst snd].
    eexists. split; [done|]. rewrite <- Hid.
    destruct (wf_drop q p o h2 (q_notify q)) as [? ?]; done.
  - exists q. split_and!; [done..| |done]. rewrite delete_id; [done|]. by apply abs_lookup_None.
Qed.

(** The first object of the heap is due first. *)
Lemma head_min q p o :
  queue_wf q -> bh_heap (q_heap q) !! 0%nat = Some p -> bh_objs (q_heap q) !! p = Some o ->
  abs q !! pp_InstanceID o = Some (erase o) /\ q_pending q !! pp_InstanceID o = Some p /\
  forall id e, abs q !! id = Some e -> pp_NextRetry o <= pp_NextRetry e.
Proof.
  intros W H0 Ho.
  assert (Hp : q_pending q !! pp_InstanceID o = Some p).
  { apply (wf_pending q W). split; [by eapply list_elem_of_lookup_2|eauto]. }
  split; [by eapply abs_lookup|]. split; [done|]. intros id e He.
  destruct (q_pending q !! id) as [r|] eqn:Hr.
  - destruct (wf_entry q id r W Hr) as (k & x & Hk & Hx & _ & _).
    rewrite (abs_lookup q id r x) in He by done. simplify_eq.
    pose proof (heap_root_min sooner sooner_asym sooner_ntrans _ _ _ k _ (wf_heap q W)
      (lookup_lt_Some _ _ _ (view_lookup _ _ _ Hk)) (view_lookup _ _ _ H0) (view_lookup _ _ _ Hk)) as Hle.
    unfold le, sooner, time_of in Hle. cbn in Hle. rewrite Ho, Hx in Hle. zb. cbn. lia.
  - apply (abs_lookup_None q id W) in Hr. congruence.
Qed.

Definition peek_spec (m : queue_spec) (r : option pendingPlacement) : Prop :=
  match r with
  | None => m = ∅
  | Some o => m !! pp_InstanceID o = Some (erase o) /\
              forall id e, m !! id = Some e -> pp_NextRetry o <= pp_NextRetry e
  end.

Lemma empty_abs q : queue_wf q -> bh_heap (q_heap q) = [] -> abs q = ∅.
Proof.
  intros W E. apply map_eq. intros id. rewrite lookup_empty. apply (abs_lookup_None q id W).
  destruct (q_pending q !! id) as [p|] eqn:Hp; [|done].
  destruct (wf_entry q id p W Hp) as (i & o & Hi & _). by rewrite E in Hi.
Qed.

Lemma PeekNext_spec q : queue_wf q -> exists r, PeekNext q = Returns r /\ peek_spec (abs q) r.
Proof.
  intros W. unfold PeekNext. cbn [Len blocked_heap]. unfold heap_Len.
  destruct (bh_heap (q_heap q)) as [|p l] eqn:Hl.
  - exists None. split; [done|]. by apply empty_abs.
  - replace (Z.of_nat (length (p :: l)) =? 0) with false by (symmetry; apply Z.eqb_neq; cbn; lia).
    assert (H0 : bh_heap (q_heap q) !! 0%nat = Some p) by (by rewrite Hl).
    change 0 with (Z.of_nat 0). rewrite (slot_at _ _ _ H0). cbn [obind].
    destruct (wf_indexed q W 0%nat p H0) as (o & Ho & _). unfold deref. rewrite Ho. cbn [obind].
    exists (Some o). split; [done|]. by destruct (head_min q p o W H0 Ho) as (? & _ & ?).
Qed.

(** The entries whose time has come. *)
Definition due (now : Time) (m : queue_spec) : queue_spec :=
  filter (fun '(_, e) => pp_NextRetry e <= now) m.

(** What [PopReady] hands out, in the order it does. *)
Definition pop_spec (now : Time) (m : queue_spec) (ready : list pendingPlacement) : Prop :=
  map erase ready ≡ₚ map snd (map_to_list (due now m)) /\
  StronglySorted (fun a b => pp_NextRetry a <= pp_NextRetry b) ready.

Lemma due_delete now m id e :
  m !! id = Some e -> pp_NextRetry e <= now -> due now m = <[id := e]> (due now (delete id m)).
Proof.
  intros He Hle. unfold due. rewrite <- (insert_delete_id m id e He) at 1.
  by apply map_filter_insert_True.
Qed.

Lemma later_delete now m id e :
  m !! id = Some e -> pp_NextRetry e <= now -> later now (delete id m) = later now m.
Proof.
  intros He Hle. unfold later. apply map_filter_delete_not.
  intros y Hy. simplify_eq. lia.
Qed.

Lemma elem_of_due now m l :
  map erase l ≡ₚ map snd (map_to_list (due now m)) ->
  Forall (fun o => exists id e, m !! id = Some e /\ pp_NextRetry o = pp_NextRetry e) l.
Proof.
  intros P. apply Forall_forall. intros o Ho.
  assert (Hin : erase o ∈ map snd (map_to_list (due now m))).
  { rewrite <- P. by apply list_elem_of_fmap_2. }
  apply list_elem_of_fmap in Hin as ([id x] & E & Hx%elem_of_map_to_list). cbn in E. subst x.
  apply map_lookup_filter_Some in Hx as [Hx _]. by exists id, (erase o).
Qed.

Lemma pop_ready_spec fuel now q ready :
  queue_wf q -> (length (bh_heap (q_heap q)) < fuel)%nat ->
  exists l q', pop_ready_loop fuel now q ready = Returns (ready ++ l, q') /\ queue_wf q' /\
    pop_spec now (abs q) l /\ abs q' = later now (abs q) /\ q_notify q' = q_notify q.
Proof.
  revert q ready. induction fuel as [|fuel IH]; intros q ready W Hf; [lia|].
  cbn [pop_ready_loop]. cbn [Len blocked_heap]. unfold heap_Len.
  destruct (bh_heap (q_heap q)) as [|p l] eqn:Hl.
  { cbn. exists [], q. rewrite app_nil_r, (empty_abs q W Hl). unfold pop_spec, due, later.
    rewrite !map_filter_empty, map_to_list_empty. split_and!; done || constructor. }
  replace (0 <? Z.of_nat (length (p :: l))) with true by (symmetry; apply Z.ltb_lt; cbn; lia).
  assert (H0 : bh_heap (q_heap q) !! 0%nat = Some p) by (by rewrite Hl).
  change (slot (q_heap q) 0) with (slot (q_heap q) (Z.of_nat 0)).
  rewrite (slot_at _ _ _ H0). cbn [obind].
  destruct (wf_indexed q W 0%nat p H0) as (o & Ho & _).
  destruct (head_min q p o W H0 Ho) as (Ha & Hp & Hmin).
  unfold deref at 1. rewrite Ho. cbn [obind]. destruct (After (pp_NextRetry o) now) eqn:Hdue; cbn [negb]; zb.
  { exists [], q. rewrite app_nil_r. unfold pop_spec.
    assert (due now (abs q) = ∅) as ->.
    { apply map_empty_filter_2. intros id e He Hle. apply Hmin in He. cbn in Hle. lia. }
    rewrite map_to_list_empty. split_and!; [done..|constructor| |done].
    symmetry. apply map_filter_id. intros id e He. apply Hmin in He. lia. }
  destruct (Pop_spec (heap_inv (base_of q)) view sooner sooner_asym sooner_ntrans
    (q_heap q) (p, time_of (bh_objs (q_heap q)) p)) as (h1 & -> & Hr);
    [by apply base_inv|apply W|by apply view_lookup|].
  destruct (pop_back_spec _ _ _ _ Hr) as (h2 & E & I2 & P2 & Hok2).
  cbn [PopBack blocked_heap]. rewrite E. cbn [obind fst snd].
  assert (exists o2, bh_objs h2 !! p = Some o2 /\ erase o2 = erase o) as (o2 & Ho2 & Her).
  { destruct I2 as [Hb _]. apply (f_equal (lookup p)) in Hb. unfold base_of in Hb.
    rewrite !lookup_fmap, Ho in Hb. destruct (bh_objs h2 !! p) as [x|]; [|done].
    exists x. split; [done|]. by apply Some_inj in Hb. }
  unfold deref. rewrite Ho2. cbn [obind].
  assert (pp_InstanceID o2 = pp_InstanceID o /\ pp_NextRetry o2 = pp_NextRetry o) as [Hid2 Ht2]
    by (split; [exact (f_equal pp_InstanceID Her)|exact (f_equal pp_NextRetry Her)]). rewrite Hid2.
  destruct (wf_drop q p o h2 (q_notify q) W Ho I2 P2 Hok2) as [W2 A2].
  destruct (IH _ (ready ++ [o2]) W2) as (l' & q' & -> & W' & [HP HS] & A' & N').
  { cbn. apply Permutation_length in P2. cbn in P2. rewrite Hl in P2. cbn in P2, Hf. lia. }
  exists (o2 :: l'), q'. split; [by rewrite <- app_assoc|]. split; [done|].
  rewrite A2 in HP, A'. split; [split|split; [|done]].
  - rewrite (due_delete now (abs q) (pp_InstanceID o) (erase o)) by done.
    rewrite map_to_list_insert.
    2: { unfold due. apply map_lookup_filter_None. left. apply lookup_delete_eq. }
    cbn. rewrite Her. by constructor.
  - constructor; [done|]. eapply Forall_impl; [eapply elem_of_due; exact HP|].
    intros x (id & e & [_ He]%lookup_delete_Some & ->). rewrite Ht2. by eapply Hmin.
  - rewrite A'. by eapply later_delete.
Qed.

Lemma PopReady_spec now q :
  queue_wf q ->
  exists l q', PopReady now q = Returns (l, q') /\ queue_wf q' /\
    pop_spec now (abs q) l /\ abs q' = later now (abs q) /\ q_notify q' = q_notify q.
Proof. intros W. apply pop_ready_spec; [done|lia]. Qed.

(** ** Runs

    The calls other goroutines make, in any order and at any times, and what
    each answers. *)
Inductive queue_call :=
| CEnqueue (appID instanceID lastNodeID : string) (attempts : Z) (nextRetry now : Time)
| CRemove (instanceID : string)
| CPeekNext
| CPopReady (now : Time)
| CLen
| CTrigger
| CNotify.

Inductive queue_answer :=
| ADone
| APeek (r : option pendingPlacement)
| AReady (l : list pendingPlacement)
| ACount (n : Z)
| AToken (b : bool).

Definition run_call (c : queue_call) (q : BlockedEvalQueue) : outcome (queue_answer * BlockedEvalQueue) :=
  match c with
  | CEnqueue a i n k t now => let* q := Enqueue a i n k t now q in Returns (ADone, q)
  | CRemove i => let* q := queue_Remove i q in Returns (ADone, q)
  | CPeekNext => let* r := PeekNext q in Returns (APeek r, q)
  | CPopReady now => let* r := PopReady now q in Returns (AReady (fst r), snd r)
  | CLen => Returns (ACount (queue_Len q), q)
  | CTrigger => Returns (ADone, Trigger q)
  | CNotify => let r := Notify q in Returns (AToken (fst r), snd r)
  end.

Fixpoint run_calls (cs : list queue_call) (q : BlockedEvalQueue)
    : outcome (list queue_answer * BlockedEvalQueue) :=
  match cs with
  | [] => Returns ([], q)
  | c :: cs =>
      let* r := run_call c q in
      let* s := run_calls cs (snd r) in
      Returns (fst r :: fst s, snd s)
  end.

(** The specification of a call: a map and a token, nothing else. *)
Inductive spec_call : queue_call -> queue_spec * bool -> queue_answer -> queue_spec * bool -> Prop :=
| spec_enqueue a i n k t now m tok :
    spec_call (CEnqueue a i n k t now) (m, tok) ADone
      (enqueue_spec a i n k t now m, (tok || negb (bool_decide (is_Some (m !! i))))%bool)
| spec_remove i m tok : spec_call (CRemove i) (m, tok) ADone (delete i m, tok)
| spec_peek m tok r : peek_spec m r -> spec_call CPeekNext (m, tok) (APeek r) (m, tok)
| spec_pop now m tok l :
    pop_spec now m l -> spec_call (CPopReady now) (m, tok) (AReady l) (later now m, tok)
| spec_len m tok : spec_call CLen (m, tok) (ACount (Z.of_nat (size m))) (m, tok)
| spec_trigger m tok : spec_call CTrigger (m, tok) ADone (m, true)
| spec_notify m tok : spec_call CNotify (m, tok) (AToken tok) (m, false).

Inductive spec_calls : list queue_call -> queue_spec * bool -> list queue_answer -> queue_spec * bool -> Prop :=
| spec_nil s : spec_calls [] s [] s
| spec_cons c cs s a s' l s'' :
    spec_call c s a s' -> spec_calls cs s' l s'' -> spec_calls (c :: cs) s (a :: l) s''.

Definition abs_tok (q : BlockedEvalQueue) : queue_spec * bool := (abs q, q_notify q).

Lemma queue_Len_spec q : queue_wf q -> queue_Len q = Z.of_nat (size (abs q)).
Proof.
  intros W. unfold queue_Len. f_equal. rewrite <- !size_dom. f_equal. apply set_eq. intros id.
  rewrite !elem_of_dom, <- !not_eq_None_Some, abs_lookup_None by done. done.
Qed.

Lemma run_call_spec c q :
  queue_wf q ->
  exists a q', run_call c q = Returns (a, q') /\ queue_wf q' /\ spec_call c (abs_tok q) a (abs_tok q').
Proof.
  intros W. destruct c as [a i n k t now|i| |now| | |]; cbn [run_call].
  - destruct (Enqueue_spec a i n k t now q W) as (q' & -> & W' & A & N). exists ADone, q'.
    unfold abs_tok. rewrite A, N. split_and!; [done..|constructor].
  - destruct (Remove_ok i q W) as (q' & -> & W' & A & N). exists ADone, q'.
    unfold abs_tok. rewrite A, N. split_and!; [done..|constructor].
  - destruct (PeekNext_spec q W) as (r & -> & Hr). exists (APeek r), q.
    split_and!; [done..|by constructor].
  - destruct (PopReady_spec now q W) as (l & q' & -> & W' & Hl & A & N). exists (AReady l), q'.
    unfold abs_tok. rewrite A, N. split_and!; [done..|by constructor].
  - exists (ACount (queue_Len q)), q. rewrite (queue_Len_spec q W). split_and!; [done..|constructor].
  - exists ADone, (Trigger q). destruct W. split_and!; [done..|constructor].
  - exists (AToken (q_notify q)), (snd (Notify q)). destruct W. split_and!; [done..|constructor].
Qed.

Lemma run_calls_spec cs q :
  queue_wf q ->
  exists l q', run_calls cs q = Returns (l, q') /\ queue_wf q' /\ spec_calls cs (abs_tok q) l (abs_tok q').
Proof.
  revert q. induction cs as [|c cs IH]; intros q W.
  { exists [], q. split_and!; [done..|constructor]. }
  destruct (run_call_spec c q W) as (a & q1 & E1 & W1 & S1).
  destruct (IH q1 W1) as (l & q2 & E2 & W2 & S2). exists (a :: l), q2.
  cbn [run_calls]. rewrite E1. cbn [obind fst snd]. rewrite E2. cbn [obind fst snd].
  split_and!; [done..|by econstructor].
Qed.

Lemma new_queue : exists q, NewBlockedEvalQueue = Returns q /\ queue_wf q /\ abs_tok q = (∅, false).
Proof.
  exists (mkQueue ∅ (mkHeap ∅ []) false). split; [reflexivity|]. split; [split|].
  - intros i p Hp. by destruct i.
  - intros k Hk. cbn in Hk. lia.
  - intros id p. cbn. rewrite lookup_empty. split; [done|]. by intros [?%elem_of_nil _].
  - reflexivity.
Qed.

(** C17: The queue of blocked evaluations never panics, whatever calls are made
    on it in whatever order: the heap, the positions stored in its objects and
    the map stay consistent, and every answer is the one a plain map from
    instance IDs to entries would give.  In particular [PopReady] stops, hands
    out exactly the entries whose time has come, earliest first, and keeps the
    others; an entry that is enqueued again keeps its creation time; and only a
    new entry or a trigger puts a token in the channel. *)
Theorem queue_refines_map (cs : list queue_call) :
  exists q l q', NewBlockedEvalQueue = Returns q /\ run_calls cs q = Returns (l, q') /\
    queue_wf q' /\ spec_calls cs (∅, false) l (abs_tok q').
Proof.
  destruct new_queue as (q & E & W & A). destruct (run_calls_spec cs q W) as (l & q' & ? & ? & ?).
  exists q, l, q'. by rewrite <- A.
Qed.
