(* ===== verification/LoadBalancer.v ===== *)
(** * The load balancer

    [forge/api/internal/services/loadbalancer/service.go] and the state
    changes of [dataplane.go]: target groups, the four selection algorithms,
    connection counts, target status and the listener table.  Every exported
    method takes the service's mutex for its whole state change, so each is
    one atomic transition of [Service]; [NextTarget] copies the targets under
    the read lock and picks later, so its picking functions take the copied
    targets and an arbitrary later service.  The clock is read by the caller
    ([now]), and the answers of the database and of the network are arguments:
    [db : option error] is [None] without a store and [Some e] when the store
    call returns [e]. *)
From Stdlib Require Import ZArith Lia.
From stdpp Require Import base gmap strings list fin_maps sorting.
From S2P Require Import Prelude GoStrings GoSort.
#[local] Open Scope string_scope.
#[local] Open Scope list_scope.
#[local] Open Scope Z_scope.
#[local] Open Scope go_scope.

(** ** Data *)

(* go: services/loadbalancer/service.go const:AlgorithmRoundRobin *)
Definition AlgorithmRoundRobin : string := "round_robin".
(* go: services/loadbalancer/service.go const:AlgorithmLeastConnections *)
Definition AlgorithmLeastConnections : string := "least_connections".
(* go: services/loadbalancer/service.go const:AlgorithmIPHash *)
Definition AlgorithmIPHash : string := "ip_hash".
(* go: services/loadbalancer/service.go const:AlgorithmWeightedRoundRobin *)
Definition AlgorithmWeightedRoundRobin : string := "weighted_round_robin".
(* go: services/loadbalancer/service.go const:TargetStatusHealthy *)
Definition TargetStatusHealthy : string := "healthy".
(* go: services/loadbalancer/service.go const:TargetStatusUnhealthy *)
Definition TargetStatusUnhealthy : string := "unhealthy".
(* go: services/loadbalancer/service.go const:TargetStatusDraining *)
Definition TargetStatusDraining : string := "draining".

(* go: services/loadbalancer/service.go type:HealthCheckConfig *)
Record HealthCheckConfig := mkHealthCheckConfig {
  hc_Path : string; hc_Port : Z; hc_IntervalSeconds : Z; hc_TimeoutSeconds : Z;
  hc_HealthyThreshold : Z; hc_UnhealthyThreshold : Z
}.

(* go: services/loadbalancer/service.go type:Target *)
Record Target := mkTarget {
  t_ID : string; t_ServerID : string; t_NodeID : string; t_IP : string;
  t_Port : Z; t_Weight : Z; t_Status : string; t_Connections : Z
}.

(* go: services/loadbalancer/service.go type:TargetGroup *)
Record TargetGroup := mkTargetGroup {
  g_ID : string; g_Name : string; g_Algorithm : string; g_Port : Z; g_Protocol : string;
  g_HealthCheck : option HealthCheckConfig; g_Targets : list Target;
  g_CreatedAt : Time; g_UpdatedAt : Time
}.

(** [lb_listeners] and [lb_packets] are the keys of the maps of open TCP
    listeners and UDP sockets; [lb_published] is what the publisher, if any,
    was handed. *)
(* go: services/loadbalancer/service.go type:Service *)
Record Service := mkService {
  lb_groups : gmap string TargetGroup;
  lb_roundRobin : gmap string Z;
  lb_connCount : gmap string Z;
  lb_publisher : bool;
  lb_published : list (string * string * string * string);
  lb_portMin : Z;
  lb_portMax : Z;
  lb_enabled : bool;
  lb_listeners : gset string;
  lb_packets : gset string
}.

(* go: services/loadbalancer/service.go L88-88 *)
Definition ErrGroupNotFound : string := "target group not found".
(* go: services/loadbalancer/service.go L89-89 *)
Definition ErrTargetNotFound : string := "target not found".
(* go: services/loadbalancer/service.go L90-90 *)
Definition ErrNoHealthyTarget : string := "no healthy targets available".

(** ** Field updates *)

Definition set_groups (gs : gmap string TargetGroup) (s : Service) : Service :=
  mkService gs (lb_roundRobin s) (lb_connCount s) (lb_publisher s) (lb_published s)
    (lb_portMin s) (lb_portMax s) (lb_enabled s) (lb_listeners s) (lb_packets s).

Definition set_roundRobin (m : gmap string Z) (s : Service) : Service :=
  mkService (lb_groups s) m (lb_connCount s) (lb_publisher s) (lb_published s)
    (lb_portMin s) (lb_portMax s) (lb_enabled s) (lb_listeners s) (lb_packets s).

Definition set_connCount (m : gmap string Z) (s : Service) : Service :=
  mkService (lb_groups s) (lb_roundRobin s) m (lb_publisher s) (lb_published s)
    (lb_portMin s) (lb_portMax s) (lb_enabled s) (lb_listeners s) (lb_packets s).

Definition set_sockets (ls ps : gset string) (s : Service) : Service :=
  mkService (lb_groups s) (lb_roundRobin s) (lb_connCount s) (lb_publisher s) (lb_published s)
    (lb_portMin s) (lb_portMax s) (lb_enabled s) ls ps.

Definition publish (e : string * string * string * string) (s : Service) : Service :=
  mkService (lb_groups s) (lb_roundRobin s) (lb_connCount s) (lb_publisher s)
    (if lb_publisher s then lb_published s ++ [e] else lb_published s)
    (lb_portMin s) (lb_portMax s) (lb_enabled s) (lb_listeners s) (lb_packets s).

Definition set_targets (ts : list Target) (now : Time) (g : TargetGroup) : TargetGroup :=
  mkTargetGroup (g_ID g) (g_Name g) (g_Algorithm g) (g_Port g) (g_Protocol g) (g_HealthCheck g)
    ts (g_CreatedAt g) now.

Definition set_times (created updated : Time) (g : TargetGroup) : TargetGroup :=
  mkTargetGroup (g_ID g) (g_Name g) (g_Algorithm g) (g_Port g) (g_Protocol g) (g_HealthCheck g)
    (g_Targets g) created updated.

Definition set_status (status : string) (t : Target) : Target :=
  mkTarget (t_ID t) (t_ServerID t) (t_NodeID t) (t_IP t) (t_Port t) (t_Weight t) status
    (t_Connections t).

(** ** Construction and configuration *)

(* go: services/loadbalancer/service.go func:loadBalancerEnvInt *)
Definition loadBalancerEnvInt (env : string -> string) (key : string) (fallback : Z) : Z :=
  match Atoi (TrimSpace (env key)) with
  | None => fallback
  | Some value => if (value <? 1) || (65535 <? value) then fallback else value
  end.

(** The columns of the group and target tables the service reads. *)
Record TargetGroupRow := mkTargetGroupRow {
  gr_ID : string; gr_Name : string; gr_Algorithm : string; gr_Port : Z; gr_Protocol : string;
  gr_HealthCheck : string; gr_CreatedAt : Time; gr_UpdatedAt : Time
}.

Record TargetRow := mkTargetRow {
  tr_ID : string; tr_GroupID : string; tr_ServerID : string; tr_NodeID : string; tr_IP : string;
  tr_Port : Z; tr_Weight : Z; tr_Status : string; tr_Connections : Z
}.

(* go: services/loadbalancer/service.go L149-158 *)
Definition target_of_row (tr : TargetRow) : Target :=
  mkTarget (tr_ID tr) (tr_ServerID tr) (tr_NodeID tr) (tr_IP tr) (tr_Port tr) (tr_Weight tr)
    (tr_Status tr) (tr_Connections tr).

(** [parse] is [json.Unmarshal] into a health check; [targets_of] answers
    [ListTargetsByGroup], with [None] for an error. *)
(* go: services/loadbalancer/service.go L122-160 *)
Fixpoint load_groups (parse : string -> option HealthCheckConfig)
    (targets_of : string -> option (list TargetRow)) (rows : list TargetGroupRow) (s : Service)
    : Service :=
  match rows with
  | [] => s
  | row :: rest =>
      let hc := if (gr_HealthCheck row =? "")%string then None else parse (gr_HealthCheck row) in
      let targets := match targets_of (gr_ID row) with
                     | None => []
                     | Some trs => map target_of_row trs
                     end in
      let group := mkTargetGroup (gr_ID row) (gr_Name row) (gr_Algorithm row) (gr_Port row)
                     (gr_Protocol row) hc targets (gr_CreatedAt row) (gr_UpdatedAt row) in
      load_groups parse targets_of rest
        (set_roundRobin (<[gr_ID row := 0]> (lb_roundRobin s))
           (set_groups (<[gr_ID row := group]> (lb_groups s)) s))
  end.

(** [rows] answers [ListTargetGroups]: [None] for an error. *)
(* go: services/loadbalancer/service.go func:Service.loadFromDB *)
Definition loadFromDB parse targets_of (rows : option (list TargetGroupRow)) (s : Service) : Service :=
  match rows with
  | None => s
  | Some rows => load_groups parse targets_of rows s
  end.

(** [db] is [None] without a store. *)
(* go: services/loadbalancer/service.go func:New *)
Definition New (env : string -> string) (publisher : bool) parse targets_of
    (db : option (option (list TargetGroupRow))) : Service :=
  let svc := mkService ∅ ∅ ∅ publisher []
    (loadBalancerEnvInt env "LOAD_BALANCER_PORT_MIN" 30000)
    (loadBalancerEnvInt env "LOAD_BALANCER_PORT_MAX" 30100)
    (EqualFold (TrimSpace (env "LOAD_BALANCER_ENABLED")) "true") ∅ ∅ in
  match db with
  | None => svc
  | Some rows => loadFromDB parse targets_of rows svc
  end.

(** ** Groups *)

(** The pointed-to group is normalised in place: the result carries it even
    with an error. *)
(* go: services/loadbalancer/service.go func:validateTargetGroup *)
Definition validateTargetGroup (group : option TargetGroup) : error * option TargetGroup :=
  match group with
  | None => (Some "target group is required", None)
  | Some g =>
      if (g_ID g =? "")%string then (Some "target group id is required", Some g)
      else if (g_Name g =? "")%string then (Some "target group name is required", Some g)
      else if (g_Port g <? 1) || (65535 <? g_Port g) then (Some "a valid port is required", Some g)
      else
        let algorithm := if (g_Algorithm g =? "")%string then AlgorithmRoundRobin else g_Algorithm g in
        let with_protocol p := mkTargetGroup (g_ID g) (g_Name g) algorithm (g_Port g) p
                                 (g_HealthCheck g) (g_Targets g) (g_CreatedAt g) (g_UpdatedAt g) in
        if negb ((algorithm =? AlgorithmRoundRobin)%string
                 || (algorithm =? AlgorithmLeastConnections)%string
                 || (algorithm =? AlgorithmIPHash)%string
                 || (algorithm =? AlgorithmWeightedRoundRobin)%string) then
          (Some "unsupported load-balancing algorithm", Some (with_protocol (g_Protocol g)))
        else
          let protocol := if (g_Protocol g =? "")%string then "tcp" else g_Protocol g in
          let protocol := ToLower (TrimSpace protocol) in
          if negb (protocol =? "tcp")%string && negb (protocol =? "udp")%string then
            (Some "protocol must be tcp or udp", Some (with_protocol protocol))
          else (None, Some (with_protocol protocol))
  end.

(* go: services/loadbalancer/service.go func:Service.CreateTargetGroup *)
Definition CreateTargetGroup (s : Service) (group : option TargetGroup) (db : option error)
    (created updated : Time) : error * Service :=
  match validateTargetGroup group with
  | (Some err, _) => (Some err, s)
  | (None, None) => (None, s)
  | (None, Some g) =>
      if (g_Port g <? lb_portMin s) || (lb_portMax s <? g_Port g) then
        (Some (cat ["listener port must be between "; itoa (lb_portMin s); " and ";
                    itoa (lb_portMax s)]), s)
      else
        let g := set_times created updated g in
        match db with
        | Some (Some err) => (Some err, s)
        | _ =>
            (None,
             publish ("target_group_created", g_ID g, g_Name g, g_Algorithm g)
               (set_roundRobin (<[g_ID g := 0]> (lb_roundRobin s))
                  (set_groups (<[g_ID g := g]> (lb_groups s)) s)))
        end
  end.

(* go: services/loadbalancer/service.go func:Service.GetTargetGroup *)
Definition GetTargetGroup (s : Service) (groupID : string) : result TargetGroup :=
  match lb_groups s !! groupID with
  | None => Err ErrGroupNotFound
  | Some g => Ok g
  end.

(* go: services/loadbalancer/dataplane.go func:Service.closeListenerLocked *)
Definition closeListenerLocked (s : Service) (id : string) : Service :=
  set_sockets (lb_listeners s ∖ {[id]}) (lb_packets s ∖ {[id]}) s.

(* go: services/loadbalancer/service.go func:Service.UpdateTargetGroup *)
Definition UpdateTargetGroup (s : Service) (group : option TargetGroup) (db : option error)
    (now : Time) : error * Service :=
  match validateTargetGroup group with
  | (Some err, _) => (Some err, s)
  | (None, None) => (None, s)
  | (None, Some g) =>
      match lb_groups s !! g_ID g with
      | None => (Some ErrGroupNotFound, s)
      | Some _ =>
          let g := set_times (g_CreatedAt g) now g in
          match db with
          | Some (Some err) => (Some err, s)
          | _ =>
              let s := closeListenerLocked s (g_ID g) in
              (None, set_groups (<[g_ID g := g]> (lb_groups s)) s)
          end
      end
  end.

(* go: services/loadbalancer/service.go func:Service.DeleteTargetGroup *)
Definition DeleteTargetGroup (s : Service) (groupID : string) (db : option error) : error * Service :=
  match lb_groups s !! groupID with
  | None => (Some ErrGroupNotFound, s)
  | Some _ =>
      match db with
      | Some (Some err) => (Some err, s)
      | _ =>
          let s := set_groups (delete groupID (lb_groups s)) s in
          let s := set_roundRobin (delete groupID (lb_roundRobin s)) s in
          (None, closeListenerLocked s groupID)
      end
  end.

(** The map's iteration order decides between groups of the same name. *)
(* go: services/loadbalancer/service.go func:Service.ListGroups *)
Definition ListGroups (s : Service) : list TargetGroup :=
  isort (fun a b => str_lt (g_Name a) (g_Name b)) (map snd (map_to_list (lb_groups s))).

(** ** Targets *)

(* go: services/loadbalancer/service.go func:Service.AddTarget *)
Definition AddTarget (s : Service) (groupID serverID nodeID ip : string) (port weight : Z)
    (db : option error) (now : Time) : result Target * Service :=
  match lb_groups s !! groupID with
  | None => (Err ErrGroupNotFound, s)
  | Some group =>
      let target := mkTarget (cat ["t-"; groupID; "-"; serverID; "-"; itoa port]) serverID nodeID ip
                      port (if weight <=? 0 then 1 else weight) TargetStatusHealthy 0 in
      match db with
      | Some (Some err) => (Err err, s)
      | _ =>
          (Ok target,
           set_groups (<[groupID := set_targets (g_Targets group ++ [target]) now group]> (lb_groups s)) s)
      end
  end.

(** The first target with an id, changed or removed; [None] when there is none. *)
Fixpoint update_first (id : string) (f : Target -> Target) (ts : list Target) : option (list Target) :=
  match ts with
  | [] => None
  | t :: rest =>
      if (t_ID t =? id)%string then Some (f t :: rest)
      else option_map (cons t) (update_first id f rest)
  end.

(* go: services/loadbalancer/service.go L380-386 *)
Fixpoint remove_first (id : string) (ts : list Target) : option (list Target) :=
  match ts with
  | [] => None
  | t :: rest =>
      if (t_ID t =? id)%string then Some rest else option_map (cons t) (remove_first id rest)
  end.

(* go: services/loadbalancer/service.go func:Service.RemoveTarget *)
Definition RemoveTarget (s : Service) (groupID targetID : string) (db : option error) (now : Time)
    : error * Service :=
  match lb_groups s !! groupID with
  | None => (Some ErrGroupNotFound, s)
  | Some group =>
      match db with
      | Some (Some err) => (Some err, s)
      | _ =>
          match remove_first targetID (g_Targets group) with
          | None => (Some ErrTargetNotFound, s)
          | Some ts =>
              (None, set_groups (<[groupID := set_targets ts now group]> (lb_groups s)) s)
          end
      end
  end.

(* go: services/loadbalancer/service.go func:Service.SetTargetStatus *)
Definition SetTargetStatus (s : Service) (groupID targetID status : string) (db : option error)
    (now : Time) : error * Service :=
  if negb (status =? TargetStatusHealthy)%string && negb (status =? TargetStatusUnhealthy)%string
     && negb (status =? TargetStatusDraining)%string then (Some "invalid target status", s)
  else
    match lb_groups s !! groupID with
    | None => (Some ErrGroupNotFound, s)
    | Some group =>
        match db with
        | Some (Some err) => (Some err, s)
        | _ =>
            match update_first targetID (set_status status) (g_Targets group) with
            | None => (Some ErrTargetNotFound, s)
            | Some ts =>
                (None, set_groups (<[groupID := set_targets ts now group]> (lb_groups s)) s)
            end
        end
    end.

(** The data plane's own: unknown groups and targets are ignored and the
    group's time stamp stays. *)
(* go: services/loadbalancer/dataplane.go func:Service.setTargetStatus *)
Definition setTargetStatus (s : Service) (groupID targetID status : string) : Service :=
  match lb_groups s !! groupID with
  | None => s
  | Some group =>
      match update_first targetID (set_status status) (g_Targets group) with
      | None => s
      | Some ts =>
          set_groups (<[groupID := set_targets ts (g_UpdatedAt group) group]> (lb_groups s)) s
      end
  end.

(** The loop of [MarkNodeTargets*] over the rows of the node; [now] is the
    clock at each row. *)
(* go: services/loadbalancer/service.go L576-592 *)
Fixpoint mark_rows (status : string) (now : nat -> Time) (rows : list TargetRow) (s : Service)
    : Service :=
  match rows with
  | [] => s
  | t :: rest =>
      let s' :=
        match lb_groups s !! tr_GroupID t with
        | None => s
        | Some group =>
            match update_first (tr_ID t) (set_status status) (g_Targets group) with
            | None => s
            | Some ts =>
                set_groups (<[tr_GroupID t := set_targets ts (now (length rest)) group]> (lb_groups s)) s
            end
        end in
      mark_rows status now rest s'
  end.

(** [node] answers [GetNode] with the node's heartbeat state, [rows] answers
    [ListTargetsByNode]; the store is present. *)
(* go: services/loadbalancer/service.go func:Service.MarkNodeTargetsUnhealthy *)
Definition MarkNodeTargetsUnhealthy (s : Service) (hasStore : bool) (node : result string)
    (rows : result (list TargetRow)) (now : nat -> Time) : error * Service :=
  if negb hasStore then (None, s)
  else match node with
       | Err err => (Some err, s)
       | Ok _ =>
           match rows with
           | Err err => (Some err, s)
           | Ok rows => (None, mark_rows TargetStatusUnhealthy now rows s)
           end
       end.

(* go: services/loadbalancer/service.go func:Service.MarkNodeTargetsHealthy *)
Definition MarkNodeTargetsHealthy (s : Service) (hasStore : bool) (node : result string)
    (rows : result (list TargetRow)) (now : nat -> Time) : error * Service :=
  if negb hasStore then (None, s)
  else match node with
       | Err err => (Some err, s)
       | Ok heartbeat =>
           if negb (heartbeat =? "healthy")%string then (None, s)
           else match rows with
                | Err err => (Some err, s)
                | Ok rows => (None, mark_rows TargetStatusHealthy now rows s)
                end
       end.

(** The event types the service subscribes to. *)
Inductive EventType : Type := EventNodeOffline | EventNodeRecovered | EventOther.

(* go: services/loadbalancer/service.go func:Service.Handle *)
Definition Handle (s : Service) (ty : EventType) (hasStore : bool) (node : result string)
    (rows : result (list TargetRow)) (now : nat -> Time) : error * Service :=
  match ty with
  | EventNodeOffline => MarkNodeTargetsUnhealthy s hasStore node rows now
  | EventNodeRecovered => MarkNodeTargetsHealthy s hasStore node rows now
  | EventOther => (None, s)
  end.

(* go: services/loadbalancer/service.go func:Service.Metrics *)
Definition Metrics (s : Service) : Z * Z * Z :=
  let gs := map snd (map_to_list (lb_groups s)) in
  (Z.of_nat (length gs),
   sum_by (fun g => Z.of_nat (length (g_Targets g))) gs,
   sum_by (fun g => Z.of_nat (length (filter (fun t => t_Status t = TargetStatusHealthy)
                                         (g_Targets g)))) gs).

(** ** Selection *)

(** [targets[idx]] of a slice: a panic when out of range. *)
Definition at_index (targets : list Target) (idx : Z) : outcome Target :=
  if idx <? 0 then Panics
  else match targets !! Z.to_nat idx with
       | Some t => Returns t
       | None => Panics
       end.

(** The caller has checked that [targets] is not empty. *)
(* go: services/loadbalancer/service.go func:Service.nextRoundRobin *)
Definition nextRoundRobin (s : Service) (groupID : string) (targets : list Target)
    : outcome Target * Service :=
  let n := Z.of_nat (length targets) in
  let idx := Z.rem (zget (lb_roundRobin s) groupID) n in
  (at_index targets idx, set_roundRobin (<[groupID := Z.rem (idx +i 1) n]> (lb_roundRobin s)) s).

(** The scan of [nextLeastConnections]: [-1] says that none was seen. *)
(* go: services/loadbalancer/service.go L445-451 *)
Fixpoint least_scan (conns : gmap string Z) (targets : list Target) (minConn : Z)
    (selected : option Target) : option Target :=
  match targets with
  | [] => selected
  | t :: rest =>
      let conn := zget conns (t_ID t) in
      if (minConn =? -1) || (conn <? minConn) then least_scan conns rest conn (Some t)
      else least_scan conns rest minConn selected
  end.

(* go: services/loadbalancer/service.go func:Service.nextLeastConnections *)
Definition nextLeastConnections (s : Service) (targets : list Target) : outcome Target * Service :=
  match least_scan (lb_connCount s) targets (-1) None with
  | None => (Panics, s)
  | Some t =>
      (Returns t,
       set_connCount (<[t_ID t := zget (lb_connCount s) (t_ID t) +i 1]> (lb_connCount s)) s)
  end.

(** FNV-1a on 32 bits ([hash/fnv]). *)
Fixpoint fnv32a (s : string) (h : Z) : Z :=
  match s with
  | EmptyString => h
  | String c r =>
      fnv32a r ((Z.lxor h (Z.of_N (Ascii.N_of_ascii c)) * 16777619) mod 4294967296)
  end.

(* go: services/loadbalancer/service.go func:Service.nextIPHash *)
Definition nextIPHash (targets : list Target) (clientIP : string) : outcome Target :=
  if (clientIP =? "")%string then at_index targets 0
  else at_index targets (Z.rem (fnv32a clientIP 2166136261) (Z.of_nat (length targets))).

(* go: services/loadbalancer/service.go L484-490 *)
Fixpoint weighted_pick (idx cumulative : Z) (targets : list Target) : option Target :=
  match targets with
  | [] => None
  | t :: rest =>
      let cumulative := cumulative +i t_Weight t in
      if idx <? cumulative then Some t else weighted_pick idx cumulative rest
  end.

(* go: services/loadbalancer/service.go func:Service.nextWeightedRoundRobin *)
Definition nextWeightedRoundRobin (s : Service) (targets : list Target) : outcome Target * Service :=
  let totalWeight := foldl (fun acc t => acc +i t_Weight t) 0 targets in
  if totalWeight =? 0 then (at_index targets 0, s)
  else
    let idx := Z.rem (zget (lb_roundRobin s) "__weighted" +i 1) totalWeight in
    let s := set_roundRobin (<["__weighted" := idx]> (lb_roundRobin s)) s in
    match weighted_pick idx 0 targets with
    | Some t => (Returns t, s)
    | None => (at_index targets 0, s)
    end.

Definition healthy (t : Target) : Prop := t_Status t = TargetStatusHealthy.

#[export] Instance healthy_dec t : Decision (healthy t).
Proof. unfold healthy. apply _. Defined.

(** The pick of an algorithm among copied healthy targets. *)
(* go: services/loadbalancer/service.go L416-427 *)
Definition pick (s : Service) (groupID algorithm clientIP : string) (targets : list Target)
    : outcome Target * Service :=
  if (algorithm =? AlgorithmRoundRobin)%string then nextRoundRobin s groupID targets
  else if (algorithm =? AlgorithmLeastConnections)%string then nextLeastConnections s targets
  else if (algorithm =? AlgorithmIPHash)%string then (nextIPHash targets clientIP, s)
  else if (algorithm =? AlgorithmWeightedRoundRobin)%string then nextWeightedRoundRobin s targets
  else nextRoundRobin s groupID targets.

(** [later] is what other calls do between the copy and the pick. *)
(* go: services/loadbalancer/service.go func:Service.NextTarget *)
Definition NextTarget (s : Service) (later : Service -> Service) (groupID clientIP : string)
    : outcome (result Target) * Service :=
  match lb_groups s !! groupID with
  | None => (Returns (Err ErrGroupNotFound), s)
  | Some group =>
      match filter healthy (g_Targets group) with
      | [] => (Returns (Err ErrNoHealthyTarget), s)
      | healthyTargets =>
          let '(o, s') := pick (later s) groupID (g_Algorithm group) clientIP healthyTargets in
          (match o with Returns t => Returns (Ok t) | Panics => Panics end, s')
      end
  end.

(** Both spellings, of [service.go] and [dataplane.go]. *)
(* go: services/loadbalancer/service.go func:Service.ReleaseConnection *)
Definition ReleaseConnection (s : Service) (targetID : string) : Service :=
  if 0 <? zget (lb_connCount s) targetID
  then set_connCount (<[targetID := zget (lb_connCount s) targetID -i 1]> (lb_connCount s)) s
  else s.

(* go: services/loadbalancer/dataplane.go func:Service.releaseConnection *)
Definition releaseConnection : Service -> string -> Service := ReleaseConnection.

(** ** Data plane *)

(** [listen id] says whether the socket could be opened. *)
(* go: services/loadbalancer/dataplane.go func:Service.reconcileListeners *)
Definition reconcileListeners (listen : string -> bool) (s : Service) : Service :=
  foldl (fun s '(id, group) =>
    if (g_Port group <? lb_portMin s) || (lb_portMax s <? g_Port group) then s
    else if (g_Protocol group =? "udp")%string then
      if decide (id ∈ lb_packets s) then s
      else if listen id then set_sockets (lb_listeners s) ({[id]} ∪ lb_packets s) s else s
    else
      if decide (id ∈ lb_listeners s) then s
      else if listen id then set_sockets ({[id]} ∪ lb_listeners s) (lb_packets s) s else s)
  s (map_to_list (lb_groups s)).

(* go: services/loadbalancer/dataplane.go func:Service.closeAll *)
Definition closeAll (s : Service) : Service :=
  let s := foldl closeListenerLocked s (elements (lb_listeners s)) in
  foldl closeListenerLocked s (elements (lb_packets s)).

(** A TCP connection's first step: a target is picked and dialled.  [Some t]
    is a connection proxied to [t] until [proxy_close]. *)
(* go: services/loadbalancer/dataplane.go L137-148 *)
Definition proxy_open (s : Service) (later : Service -> Service) (groupID host : string)
    (dial : Target -> bool) : outcome (option Target) * Service :=
  let '(o, s) := NextTarget s later groupID host in
  match o with
  | Panics => (Panics, s)
  | Returns (Err _) => (Returns None, s)
  | Returns (Ok target) =>
      if dial target then (Returns (Some target), s)
      else (Returns None, setTargetStatus s groupID (t_ID target) TargetStatusUnhealthy)
  end.

(* go: services/loadbalancer/dataplane.go L148-178 *)
Definition proxy_close (s : Service) (target : Target) : Service :=
  releaseConnection s (t_ID target).

(** What a health check's dial reports. *)
Inductive DialResult : Type := DialOk | DialCanceled | DialFailed.

(* go: services/loadbalancer/dataplane.go L309-324 *)
Fixpoint check_targets (dial : Target -> DialResult) (groupID : string) (targets : list Target)
    (s : Service) : Service :=
  match targets with
  | [] => s
  | target :: rest =>
      let s' :=
        if (t_Status target =? TargetStatusDraining)%string then s
        else match dial target with
             | DialOk => setTargetStatus s groupID (t_ID target) TargetStatusHealthy
             | DialCanceled => s
             | DialFailed => setTargetStatus s groupID (t_ID target) TargetStatusUnhealthy
             end in
      check_targets dial groupID rest s'
  end.

(* go: services/loadbalancer/dataplane.go func:Service.runHealthChecks *)
Definition runHealthChecks (dial : Target -> DialResult) (s : Service) : Service :=
  foldl (fun s '(_, group) =>
    if (g_Protocol group =? "udp")%string then s
    else check_targets dial (g_ID group) (g_Targets group) s)
  s (map_to_list (lb_groups s)).

(** ** Lemmas on the counters *)

(** Every round-robin counter is a legal index with room for its increment. *)
Definition rr_ok (s : Service) : Prop := forall k, 0 <= zget (lb_roundRobin s) k < max64.

Lemma rr_ok_insert s s' k v :
  rr_ok s -> 0 <= v < max64 -> lb_roundRobin s' = <[k := v]> (lb_roundRobin s) -> rr_ok s'.
Proof.
  intros H Hv E j. rewrite E. destruct (decide (k = j)) as [->|Hne].
  - by rewrite zget_insert_eq.
  - rewrite zget_insert_ne by done. apply H.
Qed.

Lemma rr_ok_same s s' : rr_ok s -> lb_roundRobin s' = lb_roundRobin s -> rr_ok s'.
Proof. intros H E j. rewrite E. apply H. Qed.

(** The index a counter stands for and the counter after it. *)
Lemma next_index x n :
  0 <= x < max64 -> 0 < n <= max64 ->
  0 <= Z.rem (x +i 1) n < n /\ Z.rem (x +i 1) n = (x + 1) mod n.
Proof.
  intros Hx Hn. rewrite iadd_exact by (unfold in64, min64, max64 in *; lia).
  rewrite Z.rem_mod_nonneg by lia. pose proof (Z.mod_pos_bound (x + 1) n). lia.
Qed.

Lemma at_index_lookup ts i :
  0 <= i < Z.of_nat (length ts) -> exists t, ts !! Z.to_nat i = Some t /\ at_index ts i = Returns t.
Proof.
  intros H. unfold at_index. destruct (Z.ltb_spec i 0); [lia|].
  destruct (lookup_lt_is_Some_2 ts (Z.to_nat i)) as [t Ht]; [lia|]. rewrite Ht. eauto.
Qed.

Lemma nextRoundRobin_run s gid ts :
  ts <> [] -> Z.of_nat (length ts) <= max64 -> rr_ok s ->
  let n := Z.of_nat (length ts) in
  let idx := zget (lb_roundRobin s) gid mod n in
  nextRoundRobin s gid ts
  = (at_index ts idx, set_roundRobin (<[gid := (idx + 1) mod n]> (lb_roundRobin s)) s) /\
  0 <= idx < n.
Proof.
  intros Hne Hlen Hrr. cbv zeta.
  assert (Hn : 0 < Z.of_nat (length ts)) by (destruct ts; [done|simpl; lia]).
  pose proof (Z.mod_pos_bound (zget (lb_roundRobin s) gid) _ Hn) as Hb.
  specialize (Hrr gid). unfold nextRoundRobin.
  rewrite (Z.rem_mod_nonneg (zget _ _)) by lia.
  destruct (next_index (zget (lb_roundRobin s) gid mod Z.of_nat (length ts)) (Z.of_nat (length ts)))
    as [_ ->]; [lia..|]. done.
Qed.

Lemma weighted_pick_elem idx c ts t : weighted_pick idx c ts = Some t -> t ∈ ts.
Proof.
  revert c. induction ts as [|u ts IH]; intros c; simpl; [done|].
  destruct (_ <? _); [intros [= ->]; left|]. intros H. right. by eapply IH.
Qed.

Lemma least_scan_elem conns ts m sel t :
  least_scan conns ts m sel = Some t -> sel = Some t \/ t ∈ ts.
Proof.
  revert m sel. induction ts as [|u ts IH]; intros m sel H; simpl in H; [by left|].
  destruct (_ || _); apply IH in H as [H|H]; set_solver.
Qed.

Lemma least_scan_some conns ts m sel :
  is_Some sel \/ (ts <> [] /\ m = -1) -> is_Some (least_scan conns ts m sel).
Proof.
  revert m sel. induction ts as [|u ts IH]; intros m sel H; simpl; [naive_solver|].
  destruct (_ || _) eqn:E; apply IH; [by left; eexists|].
  destruct H as [H|[_ ->]]; [by left|done].
Qed.

Lemma fnv32a_range s h : 0 <= h < 4294967296 -> 0 <= fnv32a s h < 4294967296.
Proof.
  revert h. induction s as [|c r IH]; intros h H; simpl; [done|].
  apply IH. by apply Z.mod_pos_bound.
Qed.

(** Weights as [AddTarget] stores them, of a sum an int holds. *)
Definition weights_fit (ts : list Target) : Prop :=
  Forall (fun t => 0 <= t_Weight t) ts /\ sum_by t_Weight ts <= max64.

Lemma foldl_weights acc ts :
  0 <= acc -> Forall (fun t => 0 <= t_Weight t) ts -> acc + sum_by t_Weight ts <= max64 ->
  foldl (fun acc t => acc +i t_Weight t) acc ts = acc + sum_by t_Weight ts.
Proof.
  revert acc. induction ts as [|t ts IH]; intros acc Ha Hf Hs; simpl in *; [lia|].
  apply Forall_cons in Hf as [Ht Hf].
  assert (0 <= sum_by t_Weight ts) by (apply sum_by_nonneg; by apply Forall_forall).
  rewrite iadd_exact by (unfold in64, min64; lia). rewrite IH by (done || lia). lia.
Qed.

Lemma total_weight ts :
  weights_fit ts ->
  foldl (fun acc t => acc +i t_Weight t) 0 ts = sum_by t_Weight ts /\ 0 <= sum_by t_Weight ts.
Proof.
  intros [Hf Hs]. split; [by rewrite foldl_weights|]. apply sum_by_nonneg. by apply Forall_forall.
Qed.

(** Whatever the algorithm, a pick among some targets returns one of them and
    keeps the counters legal. *)
Lemma pick_spec s gid alg ip ts :
  ts <> [] -> Z.of_nat (length ts) <= max64 -> weights_fit ts -> rr_ok s ->
  (exists t, (pick s gid alg ip ts).1 = Returns t /\ t ∈ ts) /\ rr_ok (pick s gid alg ip ts).2.
Proof.
  intros Hne Hlen Hw Hrr.
  assert (Hn : 0 < Z.of_nat (length ts)) by (destruct ts; [done|simpl; lia]).
  assert (Hat : forall i, 0 <= i < Z.of_nat (length ts) ->
            exists t, at_index ts i = Returns t /\ t ∈ ts).
  { intros i Hi. destruct (at_index_lookup ts i Hi) as (t & ? & ?). exists t.
    split; [done|by eapply list_elem_of_lookup_2]. }
  assert (HRR : (exists t, (nextRoundRobin s gid ts).1 = Returns t /\ t ∈ ts) /\
                rr_ok (nextRoundRobin s gid ts).2).
  { destruct (nextRoundRobin_run s gid ts Hne Hlen Hrr) as [-> Hi]. cbn [fst snd].
    split; [by apply Hat|]. eapply rr_ok_insert; [done| |done].
    pose proof (Z.mod_pos_bound (zget (lb_roundRobin s) gid mod Z.of_nat (length ts) + 1) _ Hn). lia. }
  unfold pick. destruct (_ =? _)%string; [done|]. destruct (_ =? _)%string.
  { unfold nextLeastConnections.
    destruct (least_scan_some (lb_connCount s) ts (-1) None ltac:(by right)) as [t Ht].
    rewrite Ht. cbn [fst snd]. apply least_scan_elem in Ht as [Ht|Ht]; [done|].
    split; [by exists t|]. by eapply rr_ok_same. }
  destruct (_ =? _)%string.
  { cbn [fst snd]. split; [|done]. unfold nextIPHash. destruct (_ =? _)%string; apply Hat; [lia|].
    rewrite Z.rem_mod_nonneg; [apply Z.mod_pos_bound; lia| |lia]. apply fnv32a_range. lia. }
  destruct (_ =? _)%string; [|done].
  unfold nextWeightedRoundRobin. destruct (total_weight ts Hw) as [-> Hpos].
  destruct (Z.eqb_spec (sum_by t_Weight ts) 0) as [Ht|Ht]; cbn [fst snd].
  { split; [apply Hat; lia|done]. }
  destruct (next_index (zget (lb_roundRobin s) "__weighted") (sum_by t_Weight ts)) as [Hidx _];
    [apply Hrr|destruct Hw; lia|].
  set (idx := Z.rem _ _) in *. assert (0 <= idx < max64) by (destruct Hw; lia).
  destruct (weighted_pick idx 0 ts) as [t|] eqn:E; cbn [fst snd].
  - apply weighted_pick_elem in E. split; [by exists t|]. by eapply rr_ok_insert.
  - split; [apply Hat; lia|]. by eapply rr_ok_insert.
Qed.

(** The key of the weighted counter, which all groups share. *)
Definition weighted_key : string := "__weighted".

(** The counters of the groups.  The weighted one is only compared, never an
    index: weights that are negative or whose sum overflows do no harm. *)
Definition counters_ok (s : Service) : Prop :=
  forall k, k <> weighted_key -> 0 <= zget (lb_roundRobin s) k < max64.

Lemma counters_ok_insert s s' k v :
  counters_ok s -> (k <> weighted_key -> 0 <= v < max64) -> lb_roundRobin s' = <[k := v]> (lb_roundRobin s) ->
  counters_ok s'.
Proof.
  intros H Hv E j Hj. rewrite E. destruct (decide (k = j)) as [->|Hne].
  - rewrite zget_insert_eq. by apply Hv.
  - rewrite zget_insert_ne by done. by apply H.
Qed.

Lemma counters_ok_same s s' : counters_ok s -> lb_roundRobin s' = lb_roundRobin s -> counters_ok s'.
Proof. intros H E j. rewrite E. apply H. Qed.

(** What round robin does to a legal counter. *)
Definition round_robin_at (s : Service) (gid : string) (ts : list Target) : Prop :=
  let n := Z.of_nat (length ts) in
  let idx := zget (lb_roundRobin s) gid mod n in
  0 <= idx < n /\
  nextRoundRobin s gid ts = (at_index ts idx, set_roundRobin (<[gid := (idx + 1) mod n]> (lb_roundRobin s)) s).

Lemma round_robin_legal s gid ts :
  ts <> [] -> Z.of_nat (length ts) <= max64 -> gid <> weighted_key -> counters_ok s -> round_robin_at s gid ts.
Proof.
  intros Hne Hlen Hg Hrr. unfold round_robin_at. cbv zeta.
  assert (Hn : 0 < Z.of_nat (length ts)) by (destruct ts; [done|simpl; lia]).
  pose proof (Z.mod_pos_bound (zget (lb_roundRobin s) gid) _ Hn) as Hb.
  specialize (Hrr gid Hg). unfold nextRoundRobin. split; [done|].
  rewrite (Z.rem_mod_nonneg (zget _ _)) by lia.
  by destruct (next_index (zget (lb_roundRobin s) gid mod Z.of_nat (length ts)) (Z.of_nat (length ts)))
    as [_ ->]; [lia..|].
Qed.

(** Whatever the algorithm and the weights, a pick does not panic and leaves
    the counters legal. *)
Lemma pick_safe s gid alg ip ts :
  ts <> [] -> Z.of_nat (length ts) <= max64 -> gid <> weighted_key -> counters_ok s ->
  (exists t, (pick s gid alg ip ts).1 = Returns t /\ t ∈ ts) /\ counters_ok (pick s gid alg ip ts).2.
Proof.
  intros Hne Hlen Hg Hrr.
  assert (Hn : 0 < Z.of_nat (length ts)) by (destruct ts; [done|simpl; lia]).
  assert (Hat : forall i, 0 <= i < Z.of_nat (length ts) -> exists t, at_index ts i = Returns t /\ t ∈ ts).
  { intros i Hi. destruct (at_index_lookup ts i Hi) as (t & ? & ?). exists t.
    split; [done|by eapply list_elem_of_lookup_2]. }
  assert (HRR : (exists t, (nextRoundRobin s gid ts).1 = Returns t /\ t ∈ ts) /\
                counters_ok (nextRoundRobin s gid ts).2).
  { destruct (round_robin_legal s gid ts Hne Hlen Hg Hrr) as [Hi ->]. cbn [fst snd].
    split; [by apply Hat|]. eapply counters_ok_insert; [done| |done]. intros _.
    pose proof (Z.mod_pos_bound (zget (lb_roundRobin s) gid mod Z.of_nat (length ts) + 1) _ Hn). lia. }
  unfold pick. destruct (_ =? _)%string; [done|]. destruct (_ =? _)%string.
  { unfold nextLeastConnections.
    destruct (least_scan_some (lb_connCount s) ts (-1) None ltac:(by right)) as [t Ht].
    rewrite Ht. cbn [fst snd]. apply least_scan_elem in Ht as [Ht|Ht]; [done|].
    split; [by exists t|]. by eapply counters_ok_same. }
  destruct (_ =? _)%string.
  { cbn [fst snd]. split; [|done]. unfold nextIPHash. destruct (_ =? _)%string; apply Hat; [lia|].
    rewrite Z.rem_mod_nonneg; [apply Z.mod_pos_bound; lia| |lia]. apply fnv32a_range. lia. }
  destruct (_ =? _)%string; [|done].
  unfold nextWeightedRoundRobin. destruct (_ =? 0); cbn [fst snd]; [split; [apply Hat; lia|done]|].
  destruct (weighted_pick _ 0 ts) as [t|] eqn:E; cbn [fst snd].
  - apply weighted_pick_elem in E. split; [by exists t|]. by eapply counters_ok_insert.
  - split; [apply Hat; lia|]. by eapply counters_ok_insert.
Qed.

(** ** Cycling through a list *)

(** Reading a list of [n] elements at [n] consecutive positions modulo [n]
    reads every element once. *)
Lemma cycle_perm {A} (l : list A) (k : Z) :
  0 <= k ->
  map (fun j => l !! Z.to_nat ((k + Z.of_nat j) mod Z.of_nat (length l))) (seq 0 (length l))
  ≡ₚ map Some l.
Proof.
  intros Hk.
  replace (map _ (seq 0 (length l))) with (map Some (rotate (Z.to_nat k) l)).
  { unfold rotate. rewrite map_app, Permutation_app_comm, <- map_app. by rewrite take_drop. }
  apply list_eq. intros i. rewrite !list_lookup_fmap.
  destruct (decide (i < length l)%nat) as [Hi|Hi].
  - rewrite lookup_rotate_r by done. rewrite lookup_seq_lt by done. simpl.
    unfold rotate_nat_add. rewrite Z2Nat.id by done.
    destruct (l !! _) eqn:E; [done|]. apply lookup_ge_None in E.
    pose proof (Z.mod_pos_bound (k + Z.of_nat i) (Z.of_nat (length l))). lia.
  - rewrite lookup_ge_None_2 by (rewrite length_rotate; lia).
    by rewrite lookup_ge_None_2 by (rewrite length_seq; lia).
Qed.

(** [n] consecutive calls of a selection. *)
Fixpoint calls (n : nat) (f : Service -> outcome Target * Service) (s : Service)
    : list (outcome Target) * Service :=
  match n with
  | O => ([], s)
  | S n' => let '(o, s1) := f s in let '(os, s2) := calls n' f s1 in (o :: os, s2)
  end.

(** A selection that reads slot [(counter + shift) mod n] of a cycle of [n]
    slots and leaves the counter one further visits the slots in turn. *)
Lemma calls_cycle (f : Service -> outcome Target * Service) (slot : Z -> outcome Target)
    (key : string) (n shift : Z) m s :
  0 < n <= max64 -> 0 <= shift ->
  (forall s, rr_ok s -> rr_ok (f s).2 /\
     (f s).1 = slot ((zget (lb_roundRobin s) key + shift) mod n) /\
     zget (lb_roundRobin (f s).2) key mod n = (zget (lb_roundRobin s) key + 1) mod n) ->
  rr_ok s ->
  (calls m f s).1
  = map (fun j => slot ((zget (lb_roundRobin s) key + shift + Z.of_nat j) mod n)) (seq 0 m).
Proof.
  intros Hn Hshift Hf. revert s. induction m as [|m IH]; intros s Hs; [done|].
  simpl. destruct (Hf s Hs) as (H2 & H1 & H3). destruct (f s) as [o s1]. simpl in *.
  specialize (IH s1 H2). destruct (calls m f s1) as [os s2]. simpl in IH |- *.
  rewrite IH, H1, Z.add_0_r. f_equal. rewrite <- seq_shift, map_map. apply map_ext. intros j.
  f_equal. rewrite <- Z.add_assoc, <- Zplus_mod_idemp_l, H3, Zplus_mod_idemp_l. f_equal. lia.
Qed.

(** ** Weighted slots *)

(** Each target as often as its weight. *)
Definition slots (ts : list Target) : list Target :=
  flat_map (fun t => replicate (Z.to_nat (t_Weight t)) t) ts.

Lemma slots_length ts :
  Forall (fun t => 0 <= t_Weight t) ts -> Z.of_nat (length (slots ts)) = sum_by t_Weight ts.
Proof.
  induction 1 as [|t ts Ht Hf IH]; [done|]. unfold slots in *. simpl.
  rewrite length_app, length_replicate. lia.
Qed.

Lemma weighted_pick_slots idx c ts :
  Forall (fun t => 0 <= t_Weight t) ts -> 0 <= c -> c + sum_by t_Weight ts <= max64 ->
  c <= idx < c + sum_by t_Weight ts ->
  weighted_pick idx c ts = slots ts !! Z.to_nat (idx - c).
Proof.
  revert c. induction ts as [|t ts IH]; intros c Hf Hc Hm Hi; simpl in *; [lia|].
  apply Forall_cons in Hf as [Ht Hf].
  assert (0 <= sum_by t_Weight ts) by (apply sum_by_nonneg; by apply Forall_forall).
  rewrite iadd_exact by (unfold in64, min64; lia). unfold slots. simpl. fold (slots ts).
  destruct (Z.ltb_spec idx (c + t_Weight t)).
  - rewrite lookup_app_l by (rewrite length_replicate; lia).
    symmetry. apply lookup_replicate. split; [done|lia].
  - rewrite lookup_app_r by (rewrite length_replicate; lia). rewrite length_replicate.
    rewrite IH by (done || lia). f_equal. lia.
Qed.

Definition slot_of (ts : list Target) (i : Z) : outcome Target :=
  match slots ts !! Z.to_nat i with Some t => Returns t | None => Panics end.

Lemma nextWeighted_run ts s :
  weights_fit ts -> 0 < sum_by t_Weight ts -> rr_ok s ->
  let n := sum_by t_Weight ts in
  let idx := (zget (lb_roundRobin s) "__weighted" + 1) mod n in
  nextWeightedRoundRobin s ts
  = (slot_of ts idx, set_roundRobin (<["__weighted" := idx]> (lb_roundRobin s)) s).
Proof.
  intros Hw Hpos Hrr. cbv zeta. unfold nextWeightedRoundRobin. destruct (total_weight ts Hw) as [-> _].
  destruct Hw as [Hf Hs].
  destruct (Z.eqb_spec (sum_by t_Weight ts) 0); [lia|].
  destruct (next_index (zget (lb_roundRobin s) "__weighted") (sum_by t_Weight ts)) as [Hb ->];
    [apply Hrr|lia|].
  pose proof (Z.mod_pos_bound (zget (lb_roundRobin s) "__weighted" + 1) _ Hpos) as Hm.
  rewrite weighted_pick_slots by (done || lia). unfold slot_of. rewrite Z.sub_0_r.
  destruct (slots ts !! _) eqn:E; [done|]. apply lookup_ge_None in E.
  pose proof (slots_length ts Hf). lia.
Qed.

(** ** Least connections *)

Definition conns_ok (s : Service) : Prop := forall k, 0 <= zget (lb_connCount s) k.

Lemma least_scan_min conns ts m sel t :
  (forall u, 0 <= zget conns u) ->
  (m = -1 \/ exists v, sel = Some v /\ m = zget conns (t_ID v)) ->
  least_scan conns ts m sel = Some t ->
  (forall u, u ∈ ts -> zget conns (t_ID t) <= zget conns (t_ID u)) /\
  (m = -1 \/ zget conns (t_ID t) <= m).
Proof.
  intros Hpos. revert m sel. induction ts as [|u ts IH]; intros m sel Hm H; simpl in H.
  { destruct Hm as [->|(v & -> & ->)]; [set_solver|]. injection H as ->. split; [set_solver|]. right. lia. }
  destruct (Z.eqb_spec m (-1)) as [->|Hm1]; simpl in H.
  - apply IH in H as [H1 H2]; [|right; eauto]. specialize (Hpos (t_ID u)).
    split; [|by left]. intros v [->|Hv]%elem_of_cons; [lia|auto].
  - destruct (Z.ltb_spec (zget conns (t_ID u)) m); simpl in H.
    + apply IH in H as [H1 H2]; [|right; eauto]. specialize (Hpos (t_ID u)).
      split; [|right; lia]. intros v [->|Hv]%elem_of_cons; [lia|auto].
    + apply IH in H as [H1 H2]; [|done]. split; [|done].
      intros v [->|Hv]%elem_of_cons; [lia|auto].
Qed.

Lemma nextLeastConnections_run s ts :
  conns_ok s -> ts <> [] ->
  exists t, t ∈ ts /\
    (forall u, u ∈ ts -> zget (lb_connCount s) (t_ID t) <= zget (lb_connCount s) (t_ID u)) /\
    nextLeastConnections s ts =
      (Returns t, set_connCount (<[t_ID t := zget (lb_connCount s) (t_ID t) +i 1]> (lb_connCount s)) s).
Proof.
  intros Hc Hne. unfold nextLeastConnections.
  destruct (least_scan_some (lb_connCount s) ts (-1) None ltac:(by right)) as [t Ht]. rewrite Ht.
  exists t. split_and!; [|eapply least_scan_min; [done|by left|done]|done].
  by apply least_scan_elem in Ht as [?|?].
Qed.

(** ** The service as a transition system *)

(** A slice of targets has a length that is an int, and the ids of the groups
    are UUIDs, never [weighted_key].  The weights are any. *)
Inductive lb_step : Service -> Service -> Prop :=
| step_create s g db c u : lb_step s (CreateTargetGroup s g db c u).2
| step_update s g db now : lb_step s (UpdateTargetGroup s g db now).2
| step_delete s id db : lb_step s (DeleteTargetGroup s id db).2
| step_add s gid sid nid ip p w db now : lb_step s (AddTarget s gid sid nid ip p w db now).2
| step_remove s gid tid db now : lb_step s (RemoveTarget s gid tid db now).2
| step_status s gid tid st db now : lb_step s (SetTargetStatus s gid tid st db now).2
| step_event s ty hasStore node rows now : lb_step s (Handle s ty hasStore node rows now).2
| step_pick s gid alg ip ts :
    ts <> [] -> Z.of_nat (length ts) <= max64 -> gid <> weighted_key ->
    lb_step s (pick s gid alg ip ts).2
| step_release s tid : lb_step s (ReleaseConnection s tid)
| step_dial_failed s gid tid st : lb_step s (setTargetStatus s gid tid st)
| step_listen s listen : lb_step s (reconcileListeners listen s)
| step_close s : lb_step s (closeAll s)
| step_check s dial : lb_step s (runHealthChecks dial s).

(** What a service can become, its store holding what it will. *)
Definition lb_reachable (s : Service) : Prop :=
  exists env publisher parse targets_of db, rtc lb_step (New env publisher parse targets_of db) s.

Lemma foldl_roundRobin {B} (f : Service -> B -> Service) l s :
  (forall s b, lb_roundRobin (f s b) = lb_roundRobin s) ->
  lb_roundRobin (foldl f s l) = lb_roundRobin s.
Proof. intros H. revert s. induction l as [|b l IH]; intros s; simpl; [done|]. by rewrite IH, H. Qed.

Lemma setTargetStatus_roundRobin s gid tid st :
  lb_roundRobin (setTargetStatus s gid tid st) = lb_roundRobin s.
Proof. unfold setTargetStatus. by repeat case_match. Qed.

Lemma mark_rows_roundRobin st now rows s : lb_roundRobin (mark_rows st now rows s) = lb_roundRobin s.
Proof. revert s. induction rows as [|t rows IH]; intros s; simpl; [done|]. rewrite IH. by repeat case_match. Qed.

Lemma check_targets_roundRobin dial gid ts s :
  lb_roundRobin (check_targets dial gid ts s) = lb_roundRobin s.
Proof.
  revert s. induction ts as [|t ts IH]; intros s; simpl; [done|]. rewrite IH.
  repeat case_match; rewrite ?setTargetStatus_roundRobin; done.
Qed.

Lemma load_groups_counters parse targets_of rows s : counters_ok s -> counters_ok (load_groups parse targets_of rows s).
Proof.
  revert s. induction rows as [|row rows IH]; intros s H; simpl; [done|]. apply IH.
  eapply (counters_ok_insert s); [done|by split|done].
Qed.

Lemma New_counters env publisher parse targets_of db : counters_ok (New env publisher parse targets_of db).
Proof.
  unfold New. set (svc := mkService _ _ _ _ _ _ _ _ _ _).
  assert (counters_ok svc) by (intros k _; unfold zget; simpl; by rewrite lookup_empty).
  destruct db as [[rows|]|]; simpl; auto using load_groups_counters.
Qed.

Lemma lb_step_counters s s' : lb_step s s' -> counters_ok s -> counters_ok s'.
Proof.
  intros Hst Hrr. destruct Hst.
  1: { unfold CreateTargetGroup. repeat case_match; simpl; try done;
       (eapply (counters_ok_insert s); [exact Hrr| |reflexivity]); by split. }
  2: { unfold DeleteTargetGroup. repeat case_match; simpl; try done.
       all: intros k Hk; simpl; specialize (Hrr k Hk); unfold zget in *;
         destruct (decide (id = k)) as [->|?];
         [by rewrite lookup_delete_eq|by rewrite lookup_delete_ne]. }
  6: by apply pick_safe.
  all: eapply counters_ok_same; [exact Hrr|].
  - unfold UpdateTargetGroup. by repeat case_match.
  - unfold AddTarget. by repeat case_match.
  - unfold RemoveTarget. by repeat case_match.
  - unfold SetTargetStatus. by repeat case_match.
  - unfold Handle, MarkNodeTargetsUnhealthy, MarkNodeTargetsHealthy.
    repeat case_match; simpl; rewrite ?mark_rows_roundRobin; done.
  - unfold ReleaseConnection. by case_match.
  - apply setTargetStatus_roundRobin.
  - apply foldl_roundRobin. intros s1 [id g]. by repeat case_match.
  - unfold closeAll. by rewrite !foldl_roundRobin.
  - apply foldl_roundRobin. intros s1 [id g]. case_match; [done|]. apply check_targets_roundRobin.
Qed.

Lemma reachable_counters s : lb_reachable s -> counters_ok s.
Proof.
  intros (env & pub & parse & tos & db & H).
  pose proof (New_counters env pub parse tos db) as H0. induction H; eauto using lb_step_counters.
Qed.

(** ** Status changes *)

Lemma update_first_status id st ts ts' :
  update_first id (set_status st) ts = Some ts' -> NoDup (map t_ID ts) ->
  map t_ID ts' = map t_ID ts /\ (forall t, t ∈ ts' -> t_ID t = id -> t_Status t = st) /\
  (forall t, t ∈ ts' -> t_ID t <> id -> t ∈ ts).
Proof.
  revert ts'. induction ts as [|t ts IH]; intros ts' H Hnd; simpl in *; [done|].
  apply NoDup_cons in Hnd as [Hni Hnd].
  destruct (String.eqb_spec (t_ID t) id) as [<-|Hne].
  - injection H as <-. split_and!; [done| |].
    + intros u [->|Hu]%elem_of_cons E; [done|]. exfalso. apply Hni. rewrite <- E.
      by apply list_elem_of_fmap_2.
    + intros u [->|Hu]%elem_of_cons E; [done|]. by right.
  - destruct (update_first id _ ts) as [us|]; [|done]. injection H as <-.
    destruct (IH us eq_refl Hnd) as (H1 & H2 & H3). split_and!.
    + simpl. by rewrite H1.
    + intros u [->|Hu]%elem_of_cons E; [done|auto].
    + intros u [->|Hu]%elem_of_cons E; [left|right; auto].
Qed.

Lemma update_first_none id f ts : update_first id f ts = None -> id ∉ map t_ID ts.
Proof.
  induction ts as [|t ts IH]; simpl; [set_solver|].
  destruct (String.eqb_spec (t_ID t) id) as [->|Hne]; [done|].
  destruct (update_first id f ts); [done|]. intros _. apply not_elem_of_cons. auto.
Qed.

(** The targets of every group have distinct ids. *)
Definition ids_distinct (s : Service) : Prop :=
  forall gid g, lb_groups s !! gid = Some g -> NoDup (map t_ID (g_Targets g)).

(** No target with this id in this group has another status. *)
Definition has_status (st gid id : string) (s : Service) : Prop :=
  forall g t, lb_groups s !! gid = Some g -> t ∈ g_Targets g -> t_ID t = id -> t_Status t = st.

Lemma mark_row_status st now t s :
  ids_distinct s ->
  let s' := mark_rows st now [t] s in
  ids_distinct s' /\ has_status st (tr_GroupID t) (tr_ID t) s' /\
  (forall gid id, has_status st gid id s -> has_status st gid id s').
Proof.
  intros Hd. simpl. destruct (lb_groups s !! tr_GroupID t) as [g|] eqn:Eg.
  2: { split_and!; auto. intros g u Hg. by rewrite Eg in Hg. }
  destruct (update_first _ _ _) as [ts|] eqn:Eu.
  2: { split_and!; auto. intros g' u Hg Hu E. rewrite Eg in Hg. injection Hg as <-.
       apply update_first_none in Eu. exfalso. apply Eu. rewrite <- E. by apply list_elem_of_fmap_2. }
  destruct (update_first_status _ _ _ _ Eu (Hd _ _ Eg)) as (H1 & H2 & H3).
  unfold ids_distinct, has_status. cbn [lb_groups set_groups].
  assert (Hins : forall gid g', <[tr_GroupID t := set_targets ts (now 0%nat) g]> (lb_groups s) !! gid = Some g' ->
     gid = tr_GroupID t /\ g_Targets g' = ts \/ gid <> tr_GroupID t /\ lb_groups s !! gid = Some g').
  { intros gid g' [[<- <-]|[? ?]]%lookup_insert_Some; [by left|by right]. }
  split_and!.
  - intros gid g' [[-> ->]|[_ Hg]]%Hins; [rewrite H1; eauto|eauto].
  - intros g' u [[_ ->]|[? _]]%Hins; [eauto|done].
  - intros gid id Hs g' u Hg' Hu E. destruct (Hins _ _ Hg') as [[-> Ht]|[_ Hg]]; [|eauto].
    rewrite Ht in Hu. destruct (decide (t_ID u = tr_ID t)); eauto.
Qed.

Lemma mark_rows_status st now rows s :
  ids_distinct s ->
  let s' := mark_rows st now rows s in
  (forall t, t ∈ rows -> has_status st (tr_GroupID t) (tr_ID t) s') /\
  (forall gid id, has_status st gid id s -> has_status st gid id s').
Proof.
  cbv zeta. revert s. induction rows as [|t rows IH]; intros s Hd; [split; [set_solver|done]|].
  destruct (mark_row_status st (fun _ => now (length rows)) t s Hd) as (H1 & H2 & H3).
  change (mark_rows st now (t :: rows) s)
    with (mark_rows st now rows (mark_rows st (fun _ => now (length rows)) [t] s)).
  destruct (IH _ H1) as [H4 H5]. split; [|auto].
  intros u [->|Hu]%elem_of_cons; auto.
Qed.

(** ** Sockets *)

(** Every open socket belongs to a group the service still has. *)
Definition sockets_ok (s : Service) : Prop :=
  forall id, id ∈ lb_listeners s ∪ lb_packets s -> is_Some (lb_groups s !! id).

Lemma sockets_ok_grow s s' :
  sockets_ok s -> lb_listeners s' = lb_listeners s -> lb_packets s' = lb_packets s ->
  (forall id, is_Some (lb_groups s !! id) -> is_Some (lb_groups s' !! id)) -> sockets_ok s'.
Proof. intros H E1 E2 Hg id. rewrite E1, E2. auto. Qed.

Lemma insert_grows (m : gmap string TargetGroup) k v id :
  is_Some (m !! id) -> is_Some (<[k := v]> m !! id).
Proof. intros H. destruct (decide (k = id)) as [->|?]; [by rewrite lookup_insert_eq|by rewrite lookup_insert_ne]. Qed.

(** The transitions that leave the sockets alone only ever add groups. *)
Definition grows (s s' : Service) : Prop :=
  lb_listeners s' = lb_listeners s /\ lb_packets s' = lb_packets s /\
  forall id, is_Some (lb_groups s !! id) -> is_Some (lb_groups s' !! id).

Lemma grows_refl s : grows s s. Proof. done. Qed.
Lemma grows_trans a b c : grows a b -> grows b c -> grows a c.
Proof. unfold grows. intros (-> & -> & H1) (-> & -> & H2). auto. Qed.
#[local] Hint Resolve grows_refl insert_grows : core.

Lemma grows_set_groups s k g : grows s (set_groups (<[k := g]> (lb_groups s)) s).
Proof. split_and!; [done..|]. intros id H. by apply insert_grows. Qed.

Lemma grows_setTargetStatus s gid tid st : grows s (setTargetStatus s gid tid st).
Proof. unfold setTargetStatus. repeat case_match; simpl; auto using grows_set_groups. Qed.

Lemma grows_mark_rows st now rows s : grows s (mark_rows st now rows s).
Proof.
  revert s. induction rows as [|t rows IH]; intros s; simpl; [done|].
  eapply grows_trans; [|apply IH]. repeat case_match; simpl; auto using grows_set_groups.
Qed.

Lemma grows_check dial gid ts s : grows s (check_targets dial gid ts s).
Proof.
  revert s. induction ts as [|t ts IH]; intros s; simpl; [done|].
  eapply grows_trans; [|apply IH]. repeat case_match; auto using grows_setTargetStatus.
Qed.

Lemma grows_pick s gid alg ip ts : grows s (pick s gid alg ip ts).2.
Proof.
  unfold pick, nextRoundRobin, nextLeastConnections, nextWeightedRoundRobin.
  repeat case_match; done.
Qed.

Lemma sockets_ok_grows s s' : grows s s' -> sockets_ok s -> sockets_ok s'.
Proof. intros (H1 & H2 & H3) H. by apply (sockets_ok_grow s). Qed.

Lemma sockets_ok_close s id : sockets_ok s -> sockets_ok (closeListenerLocked s id).
Proof. intros H i Hi. apply H. simpl in Hi. set_solver. Qed.

Lemma foldl_inv {B} (I : Service -> Prop) (f : Service -> B -> Service) l s :
  (forall s b, b ∈ l -> I s -> I (f s b)) -> I s -> I (foldl f s l).
Proof.
  revert s. induction l as [|b l IH]; intros s Hf Hs; simpl; [done|].
  apply IH; [intros; apply Hf; [by right|done]|]. apply Hf; [left|done].
Qed.

Lemma reconcile_sockets listen s : sockets_ok s -> sockets_ok (reconcileListeners listen s).
Proof.
  intros H. unfold reconcileListeners.
  assert (Hall : forall id g, (id, g) ∈ map_to_list (lb_groups s) -> lb_groups s !! id = Some g)
    by (intros id g; apply elem_of_map_to_list).
  enough (Hw : let s' := foldl _ s (map_to_list (lb_groups s)) in
                lb_groups s' = lb_groups s /\ sockets_ok s') by apply Hw.
  apply (foldl_inv (fun s' => lb_groups s' = lb_groups s /\ sockets_ok s')); [|done].
  intros s1 [id g] Hin [E Hs]. apply Hall in Hin. rewrite <- E in Hin.
  destruct (_ || _); [done|]. destruct (_ =? _)%string; case_decide; try done; destruct (listen id);
    try done; (split; [done|]); intros i Hi; simpl in Hi;
    (destruct (decide (i = id)) as [->|Hne]; [by eexists|apply Hs; set_solver]).
Qed.

Lemma lb_step_sockets s s' : lb_step s s' -> sockets_ok s -> sockets_ok s'.
Proof.
  intros Hst Hs. destruct Hst.
  12: { unfold closeAll. apply foldl_inv; [by intros; apply sockets_ok_close|].
        apply foldl_inv; [by intros; apply sockets_ok_close|done]. }
  11: by apply reconcile_sockets.
  3: { unfold DeleteTargetGroup. repeat case_match; try done.
       all: intros i Hi; simpl in Hi |- *; rewrite lookup_delete_ne by set_solver; apply Hs; set_solver. }
  2: { unfold UpdateTargetGroup. repeat case_match; try done.
       all: eapply sockets_ok_grows; [apply grows_set_groups|]; by apply sockets_ok_close. }
  all: eapply sockets_ok_grows; [|exact Hs].
  - unfold CreateTargetGroup. repeat case_match; simpl; try done; unfold grows; simpl; auto 6.
  - unfold AddTarget. repeat case_match; simpl; auto using grows_set_groups.
  - unfold RemoveTarget. repeat case_match; simpl; auto using grows_set_groups.
  - unfold SetTargetStatus. repeat case_match; simpl; auto using grows_set_groups.
  - unfold Handle, MarkNodeTargetsUnhealthy, MarkNodeTargetsHealthy.
    repeat case_match; simpl; auto using grows_mark_rows.
  - apply grows_pick.
  - unfold ReleaseConnection. by case_match.
  - apply grows_setTargetStatus.
  - apply (foldl_inv (grows s)); [|done]. intros s1 [id g] _ H1. case_match; [done|].
    eapply grows_trans; [done|]. apply grows_check.
Qed.

Lemma New_sockets env publisher parse targets_of db : sockets_ok (New env publisher parse targets_of db).
Proof.
  unfold New. set (svc := mkService _ _ _ _ _ _ _ _ _ _).
  assert (H0 : sockets_ok svc) by (intros id Hi; simpl in Hi; set_solver).
  destruct db as [[rows|]|]; simpl; auto. clearbody svc. revert svc H0.
  induction rows as [|row rows IH]; intros svc H0; simpl; [done|]. apply IH.
  eapply sockets_ok_grows; [|exact H0]. split_and!; [done..|]. intros id Hi. by apply insert_grows.
Qed.

(** ** Properties *)

(** A target handed out is a healthy target of the group.  In a service
    with legal counters, whatever other calls run between the copy of the
    targets and the pick, [NextTarget] does not panic; it returns a target the
    group had, marked healthy, or the error that says that there is no such
    group or no healthy target in it. *)
Lemma NextTarget_sound s later gid ip :
  rr_ok (later s) ->
  (forall g, lb_groups s !! gid = Some g ->
     Z.of_nat (length (g_Targets g)) <= max64 /\ weights_fit (filter healthy (g_Targets g))) ->
  match (NextTarget s later gid ip).1 with
  | Panics => False
  | Returns (Ok t) => exists g, lb_groups s !! gid = Some g /\ t ∈ g_Targets g /\ healthy t
  | Returns (Err e) =>
      e = ErrGroupNotFound /\ lb_groups s !! gid = None \/
      e = ErrNoHealthyTarget /\ exists g, lb_groups s !! gid = Some g /\
                                          forall t, t ∈ g_Targets g -> ~ healthy t
  end.
Proof.
  intros Hrr Hg. unfold NextTarget. destruct (lb_groups s !! gid) as [g|] eqn:E; [|by left].
  destruct (Hg g eq_refl) as [Hlen Hw].
  pose proof (length_filter healthy (g_Targets g)) as Hle.
  assert (Hin : forall t, t ∈ filter healthy (g_Targets g) <-> healthy t /\ t ∈ g_Targets g)
    by (intros; apply list_elem_of_filter).
  destruct (filter healthy (g_Targets g)) as [|t0 ts] eqn:Ef.
  - right. split; [done|]. exists g. split; [done|]. intros t Ht Hh.
    assert (t ∈ []) as H by (by apply Hin). set_solver.
  - destruct (pick_spec (later s) gid (g_Algorithm g) ip (t0 :: ts)) as [(t & Hp & Ht) _];
      [done|simpl in *; lia|done|done|].
    destruct (pick _ _ _ _ _) as [o s']. simpl in Hp. subst o. exists g.
    apply Hin in Ht as [? ?]. done.
Qed.

(** C28: picks are safe and no listener outlives its group.  In every service
    reachable from [New] by the exported operations, node events, picks,
    connection ends, dials, listener passes and health checks, in any order and
    with any weights: a pick among targets does not panic and returns one of
    them, whatever the algorithm; round robin takes the target at the counter
    modulo their number and leaves the index after it, modulo that number, as
    the counter; and every open TCP listener or UDP listen socket belongs to an
    existing group.  (The id of a group is a UUID, never the key under which the
    weighted algorithm counts.)  Connections that are being proxied and the
    sockets of UDP sessions are not tracked. *)
Theorem reachable_safe s : lb_reachable s ->
  (forall gid alg ip ts, ts <> [] -> Z.of_nat (length ts) <= max64 -> gid <> weighted_key ->
     (exists t, (pick s gid alg ip ts).1 = Returns t /\ t ∈ ts) /\ round_robin_at s gid ts) /\
  sockets_ok s.
Proof.
  intros Hr. split.
  { intros gid alg ip ts Hne Hlen Hg. pose proof (reachable_counters s Hr) as Hc.
    split; [by apply pick_safe|by apply round_robin_legal]. }
  destruct Hr as (env & pub & parse & tos & db & H).
  assert (H0 : sockets_ok (New env pub parse tos db)) by apply New_sockets.
  induction H; eauto using lb_step_sockets.
Qed.

(** Round robin is fair.  As many consecutive calls as there are targets
    return every target exactly once, whatever the counter was. *)
Lemma nextRoundRobin_fair s gid ts :
  ts <> [] -> Z.of_nat (length ts) <= max64 -> rr_ok s ->
  (calls (length ts) (fun s => nextRoundRobin s gid ts) s).1 ≡ₚ map Returns ts.
Proof.
  intros Hne Hlen Hrr. set (n := Z.of_nat (length ts)) in *.
  assert (Hn : 0 < n) by (subst n; destruct ts; [done|simpl; lia]).
  rewrite (calls_cycle _ (at_index ts) gid n 0); [|lia|lia| |done].
  - rewrite (map_ext _ (fun j => from_option Returns Panics
      (ts !! Z.to_nat ((zget (lb_roundRobin s) gid + Z.of_nat j) mod n)))).
    + rewrite <- (map_map (fun j => ts !! _) (from_option Returns Panics)).
      subst n. rewrite (cycle_perm ts (zget (lb_roundRobin s) gid)) by apply Hrr. by rewrite map_map.
    + intros j. rewrite Z.add_0_r. unfold at_index.
      pose proof (Z.mod_pos_bound (zget (lb_roundRobin s) gid + Z.of_nat j) n Hn).
      destruct (Z.ltb_spec ((zget (lb_roundRobin s) gid + Z.of_nat j) mod n) 0); [lia|].
      by destruct (ts !! _).
  - intros s1 H1. destruct (nextRoundRobin_run s1 gid ts Hne Hlen H1) as [-> Hi].
    cbn [fst snd lb_roundRobin set_roundRobin]. rewrite Z.add_0_r, zget_insert_eq. split_and!.
    + eapply rr_ok_insert; [done| |done]. subst n.
      pose proof (Z.mod_pos_bound (zget (lb_roundRobin s1) gid mod Z.of_nat (length ts) + 1) _ Hn). lia.
    + done.
    + by rewrite Zmod_mod, Zplus_mod_idemp_l.
Qed.

(** Weighted round robin is proportional.  Left alone, as many
    consecutive calls as the weights add up to return every target exactly as
    often as its weight. *)
Lemma nextWeightedRoundRobin_proportional s ts :
  weights_fit ts -> 0 < sum_by t_Weight ts -> rr_ok s ->
  (calls (length (slots ts)) (fun s => nextWeightedRoundRobin s ts) s).1 ≡ₚ map Returns (slots ts).
Proof.
  intros Hw Hpos Hrr. pose proof (slots_length ts (proj1 Hw)) as Hlen.
  set (n := sum_by t_Weight ts) in *. assert (Hmax : n <= max64) by apply Hw.
  rewrite (calls_cycle _ (slot_of ts) "__weighted" n 1); [|lia|lia| |done].
  - rewrite (map_ext _ (fun j => from_option Returns Panics
      (slots ts !! Z.to_nat ((zget (lb_roundRobin s) "__weighted" + 1 + Z.of_nat j) mod n)))) by done.
    rewrite <- (map_map (fun j => slots ts !! _) (from_option Returns Panics)). rewrite <- Hlen.
    rewrite cycle_perm by (specialize (Hrr "__weighted"); lia). by rewrite map_map.
  - intros s1 H1. rewrite (nextWeighted_run ts s1 Hw Hpos H1).
    cbn [fst snd lb_roundRobin set_roundRobin]. rewrite zget_insert_eq, Zmod_mod. split_and!; [|done..].
    eapply rr_ok_insert; [done| |done].
    subst n. pose proof (Z.mod_pos_bound (zget (lb_roundRobin s1) "__weighted" + 1) _ Hpos). lia.
Qed.

(** Least connections picks a minimum and stays balanced.  The target
    returned has the fewest connections of all, its count alone goes up by
    one, and if no two targets differed by more than one before, none do
    after. *)
Lemma nextLeastConnections_balanced s ts :
  conns_ok s -> ts <> [] -> (forall t, t ∈ ts -> zget (lb_connCount s) (t_ID t) < max64) ->
  let '(o, s') := nextLeastConnections s ts in
  let c t := zget (lb_connCount s) (t_ID t) in
  let c' t := zget (lb_connCount s') (t_ID t) in
  (exists t, o = Returns t /\ t ∈ ts /\ (forall u, u ∈ ts -> c t <= c u) /\
     forall u, c' u = c u + if decide (t_ID u = t_ID t) then 1 else 0) /\
  ((forall u v, u ∈ ts -> v ∈ ts -> c u <= c v + 1) -> forall u v, u ∈ ts -> v ∈ ts -> c' u <= c' v + 1) /\
  conns_ok s'.
Proof.
  intros Hc Hne Hmax. destruct (nextLeastConnections_run s ts Hc Hne) as (t & Ht & Hmin & ->).
  cbv zeta. cbn [lb_connCount set_connCount].
  pose proof (Hc (t_ID t)) as Ht0. specialize (Hmax t Ht).
  rewrite iadd_exact by (unfold in64, min64, max64 in *; lia).
  assert (Hu : forall k, zget (<[t_ID t := zget (lb_connCount s) (t_ID t) + 1]> (lb_connCount s)) k
                = zget (lb_connCount s) k + if decide (k = t_ID t) then 1 else 0).
  { intros k. case_decide as E; [subst k; by rewrite zget_insert_eq|]. rewrite zget_insert_ne by done. lia. }
  split_and!.
  - exists t. split_and!; auto.
  - intros Hb u v Hu' Hv. rewrite !Hu. specialize (Hb u v Hu' Hv). pose proof (Hmin v Hv).
    destruct (decide (t_ID u = t_ID t)) as [E|E]; [rewrite E in *|]; case_decide; lia.
  - intros k. cbn [lb_connCount set_connCount]. rewrite Hu. specialize (Hc k). case_decide; lia.
Qed.

(** A node that goes offline takes its targets out of rotation.  After
    the event, no target listed for the node is marked healthy, so no later
    selection returns one until its status changes again. *)
Lemma node_offline_drains s heartbeat rows now gid ip t row :
  ids_distinct s -> row ∈ rows ->
  let s' := (Handle s EventNodeOffline true (Ok heartbeat) (Ok rows) now).2 in
  (forall id, (NextTarget s' id gid ip).1 = Returns (Ok t) -> rr_ok (id s') ->
     (forall g, lb_groups s' !! gid = Some g ->
       Z.of_nat (length (g_Targets g)) <= max64 /\ weights_fit (filter healthy (g_Targets g))) ->
     ~ (gid = tr_GroupID row /\ t_ID t = tr_ID row)).
Proof.
  intros Hd Hrow s' later Hnext Hrr Hfit [-> Hid].
  destruct (mark_rows_status TargetStatusUnhealthy now rows s Hd) as [Hm _].
  specialize (Hm row Hrow). change (mark_rows _ now rows s) with s' in Hm.
  unfold NextTarget in Hnext. destruct (lb_groups s' !! tr_GroupID row) as [g|] eqn:E; [|done].
  destruct (Hfit g eq_refl) as [Hlen Hw]. pose proof (length_filter healthy (g_Targets g)) as Hle.
  assert (Hin : forall t, t ∈ filter healthy (g_Targets g) <-> healthy t /\ t ∈ g_Targets g)
    by (intros; apply list_elem_of_filter).
  destruct (filter healthy (g_Targets g)) as [|t0 ts]; [done|].
  destruct (pick_spec (later s') (tr_GroupID row) (g_Algorithm g) ip (t0 :: ts)) as [(u & Hp & Hu) _];
    [done|simpl in *; lia|done|done|].
  destruct (pick _ _ _ _ _) as [o s2]. simpl in Hp. subst o. injection Hnext as ->.
  apply Hin in Hu as [Hh Hu]. unfold healthy in Hh. by rewrite (Hm g t E Hu Hid) in Hh.
Qed.

(** ** A concrete service *)

Definition no_env (_ : string) : string := "".
Definition no_parse (_ : string) : option HealthCheckConfig := None.

Definition empty_service : Service := New no_env false no_parse (fun _ => None) None.

Definition witness_target (id node : string) (weight : Z) : Target :=
  mkTarget id "srv" node "10.0.0.1" 8080 weight TargetStatusHealthy 0.

Definition witness_targets : list Target :=
  [witness_target "a" "n1" 2; witness_target "b" "n2" 1; witness_target "c" "n1" 1].

Definition witness_group (id algorithm : string) : TargetGroup :=
  mkTargetGroup id id algorithm 30001 "tcp" None witness_targets 0 0.

Definition witness_service : Service :=
  (CreateTargetGroup empty_service (Some (witness_group "g" AlgorithmRoundRobin)) None 1 1).2.

Definition target_ids (os : list (outcome Target)) : list string :=
  map (fun o => match o with Returns t => t_ID t | Panics => "panic" end) os.

Lemma witness_fit g :
  lb_groups witness_service !! "g" = Some g ->
  Z.of_nat (length (g_Targets g)) <= max64 /\ weights_fit (filter healthy (g_Targets g)).
Proof.
  intros H. vm_compute in H. injection H as <-. split; [vm_compute; discriminate|].
  vm_compute. split; [repeat constructor; discriminate|discriminate].
Qed.

Lemma witness_rr : rr_ok witness_service.
Proof.
  intros k. unfold zget. change (lb_roundRobin witness_service) with ({["g" := 0]} : gmap string Z).
  destruct (decide (k = "g")) as [->|Hne]; [by rewrite lookup_singleton_eq|by rewrite lookup_singleton_ne].
Qed.

Lemma NextTarget_sound_witness :
  (match (NextTarget witness_service (fun s => s) "g" "1.2.3.4").1 with
   | Returns (Ok t) => t_ID t = "a"
   | _ => False
   end) /\
  forall t, (NextTarget witness_service (fun s => s) "g" "1.2.3.4").1 = Returns (Ok t) -> healthy t.
Proof.
  split; [vm_compute; reflexivity|]. intros t Ht.
  pose proof (NextTarget_sound witness_service (fun s => s) "g" "1.2.3.4" witness_rr witness_fit) as H.
  rewrite Ht in H. destruct H as (g & _ & _ & H). exact H.
Defined.

Lemma reachable_safe_witness :
  let s := reconcileListeners (fun _ => true) witness_service in
  elements (lb_listeners s) = ["g"] /\ round_robin_at s "g" witness_targets /\ sockets_ok s /\ sockets_ok (DeleteTargetGroup s "g" None).2.
Proof.
  cbv zeta. split; [vm_compute; reflexivity|].
  assert (H1 : lb_reachable (reconcileListeners (fun _ => true) witness_service)).
  { exists no_env, false, no_parse, (fun _ => None), None.
    eapply rtc_l; [apply (step_create _ (Some (witness_group "g" AlgorithmRoundRobin)) None 1 1)|].
    eapply rtc_l; [apply step_listen|]. apply rtc_refl. }
  destruct (reachable_safe _ H1) as [Hp Hs]. split; [|split; [exact Hs|]].
  { apply (Hp "g" "" "" witness_targets); [discriminate|vm_compute; discriminate|discriminate]. }
  apply reachable_safe.
  destruct H1 as (e & p & f & t & db & H1). exists e, p, f, t, db.
  eapply rtc_r; [exact H1|apply step_delete].
Defined.

Lemma nextRoundRobin_fair_witness :
  target_ids (calls 3 (fun s => nextRoundRobin s "g" witness_targets) witness_service).1 = ["a"; "b"; "c"] /\
  (calls 3 (fun s => nextRoundRobin s "g" witness_targets) witness_service).1 ≡ₚ map Returns witness_targets.
Proof.
  split; [vm_compute; reflexivity|].
  apply (nextRoundRobin_fair witness_service "g" witness_targets);
    [discriminate|vm_compute; discriminate|apply witness_rr].
Defined.

Lemma nextWeightedRoundRobin_proportional_witness :
  target_ids (calls 4 (fun s => nextWeightedRoundRobin s witness_targets) witness_service).1
    = ["a"; "b"; "c"; "a"] /\
  (calls 4 (fun s => nextWeightedRoundRobin s witness_targets) witness_service).1
    ≡ₚ map Returns (slots witness_targets).
Proof.
  split; [vm_compute; reflexivity|].
  apply (nextWeightedRoundRobin_proportional witness_service witness_targets);
    [split; [repeat constructor; vm_compute; discriminate|vm_compute; discriminate]
    |vm_compute; reflexivity|apply witness_rr].
Defined.

Lemma nextLeastConnections_balanced_witness :
  target_ids (calls 4 (fun s => nextLeastConnections s witness_targets) witness_service).1
    = ["a"; "b"; "c"; "a"] /\
  conns_ok (nextLeastConnections witness_service witness_targets).2.
Proof.
  split; [vm_compute; reflexivity|].
  assert (Hc : conns_ok witness_service)
    by (intros k; unfold zget; change (lb_connCount witness_service) with (∅ : gmap string Z);
        by rewrite lookup_empty).
  pose proof (nextLeastConnections_balanced witness_service witness_targets Hc ltac:(discriminate)) as H.
  destruct (nextLeastConnections witness_service witness_targets) as [o s']. apply H.
  intros t _. unfold zget. change (lb_connCount witness_service) with (∅ : gmap string Z).
  by rewrite lookup_empty.
Defined.

Definition witness_rows : list TargetRow :=
  [ mkTargetRow "a" "g" "srv" "n1" "10.0.0.1" 8080 2 "healthy" 0;
    mkTargetRow "c" "g" "srv" "n1" "10.0.0.1" 8080 1 "healthy" 0 ].

Definition offline_service : Service :=
  (Handle witness_service EventNodeOffline true (Ok "offline") (Ok witness_rows) (fun _ => 2)).2.

Lemma offline_fit g :
  lb_groups offline_service !! "g" = Some g ->
  Z.of_nat (length (g_Targets g)) <= max64 /\ weights_fit (filter healthy (g_Targets g)).
Proof.
  intros H. vm_compute in H. injection H as <-. split; [vm_compute; discriminate|].
  vm_compute. split; [repeat constructor; discriminate|discriminate].
Qed.

Lemma witness_distinct : ids_distinct witness_service.
Proof.
  intros gid g Hg. change (lb_groups witness_service) with
    ({[ "g" := set_times 1 1 (witness_group "g" AlgorithmRoundRobin) ]} : gmap string TargetGroup) in Hg.
  apply lookup_singleton_Some in Hg as [_ <-]. apply (bool_decide_unpack _). vm_compute. exact I.
Qed.

Lemma node_offline_drains_witness :
  (match (NextTarget offline_service (fun s => s) "g" "").1 with
   | Returns (Ok t) => t_ID t = "b"
   | _ => False
   end) /\
  forall t, (NextTarget offline_service (fun s => s) "g" "").1 = Returns (Ok t) -> t_ID t <> "a".
Proof.
  split; [vm_compute; reflexivity|]. intros t Ht E.
  apply (node_offline_drains witness_service "offline" witness_rows (fun _ => 2) "g" "" t
           (mkTargetRow "a" "g" "srv" "n1" "10.0.0.1" 8080 2 "healthy" 0)
           witness_distinct ltac:(left) (fun s => s) Ht).
  - apply (rr_ok_same witness_service); [apply witness_rr|reflexivity].
  - exact offline_fit.
  - split; [reflexivity|exact E].
Defined.

(** ** What the model shows *)

(** The weighted counter is shared by all groups: with two groups of two
    targets of equal weight served in turn, the first group's first target
    is never picked. *)
Lemma weighted_counter_shared :
  let ts1 := [witness_target "a1" "n" 1; witness_target "a2" "n" 1] in
  let ts2 := [witness_target "b1" "n" 1; witness_target "b2" "n" 1] in
  let both s := let '(o, s) := nextWeightedRoundRobin s ts1 in
                (o, (nextWeightedRoundRobin s ts2).2) in
  target_ids (calls 6 both empty_service).1 = ["a2"; "a2"; "a2"; "a2"; "a2"; "a2"].
Proof. vm_compute. reflexivity. Qed.

(** A TCP connection whose dial fails leaves its target's count raised: the
    release is deferred only once the backend is connected. *)
Lemma dial_failure_leaks :
  let s := (CreateTargetGroup empty_service (Some (witness_group "g" AlgorithmLeastConnections)) None 1 1).2 in
  let '(o, s') := proxy_open s (fun s => s) "g" "1.2.3.4" (fun _ => false) in
  o = Returns None /\ zget (lb_connCount s') "a" = 1.
Proof. vm_compute. split; reflexivity. Qed.
