(* ===== verification/HealthFilter.v ===== *)
(** * Backend health

    [forge/api/internal/services/crossnode/health_filter.go]: the recorded
    verdict of each backend, the trust window that turns a record into a
    routing decision, and the life cycle of the goroutine that reaps stale
    records.  Methods hold the filter's lock throughout, so each is one atomic
    function of the state; the clock is read by the caller. *)
From Stdlib Require Import ZArith Lia.
From stdpp Require Import base gmap strings list fin_maps sorting.
From S2P Require Import Prelude GoStrings GoSort.
#[local] Open Scope string_scope.
#[local] Open Scope list_scope.
#[local] Open Scope Z_scope.
#[local] Open Scope go_scope.

(** ** Data *)

(* go: services/crossnode/health_filter.go L13-20 *)
Inductive HealthStatus : Type := HealthUnknown | HealthHealthy | HealthDegraded | HealthDown.

#[export] Instance HealthStatus_eq_dec : EqDecision HealthStatus.
Proof. solve_decision. Defined.

(* go: services/crossnode/health_filter.go type:BackendHealth *)
Record BackendHealth := mkBackendHealth {
  h_ServerID : string; h_NodeID : string; h_Host : string; h_Port : Z;
  h_Status : HealthStatus; h_LastChecked : Time; h_FailCount : Z; h_Reason : string
}.

(* go: services/crossnode/routegroup.go type:BackendAddr *)
Record BackendAddr := mkBackendAddr { b_Host : string; b_Port : Z; b_URL : string; b_Weight : Z }.

(** The fields of the reaper's life cycle are in [Reaper] below. *)
(* go: services/crossnode/health_filter.go type:HealthFilter *)
Record HealthFilter := mkHealthFilter {
  hf_healthState : gmap string BackendHealth;
  hf_threshold : Z;
  hf_interval : Duration
}.

(* go: services/crossnode/health_filter.go const:defaultHealthTrustWindow *)
Definition defaultHealthTrustWindow : Duration := 30 * Second.

(** ** Operations *)

(* go: services/crossnode/health_filter.go func:NewHealthFilter *)
Definition NewHealthFilter (threshold : Z) (interval : Duration) : HealthFilter :=
  mkHealthFilter ∅ (if threshold <=? 0 then 2 else threshold)
    (if interval <=? 0 then defaultHealthTrustWindow else interval).

(* go: services/crossnode/health_filter.go func:backendKey *)
Definition backendKey (host : string) (port : Z) : string := cat [host; ":"; itoa port].

Definition set_state (m : gmap string BackendHealth) (hf : HealthFilter) : HealthFilter :=
  mkHealthFilter m (hf_threshold hf) (hf_interval hf).

(* go: services/crossnode/health_filter.go func:HealthFilter.RecordSuccess *)
Definition RecordSuccess (hf : HealthFilter) (host : string) (port : Z) (now : Time) : HealthFilter :=
  let key := backendKey host port in
  match hf_healthState hf !! key with
  | None =>
      set_state (<[key := mkBackendHealth "" "" host port HealthHealthy now 0 ""]>
                   (hf_healthState hf)) hf
  | Some entry =>
      set_state (<[key := mkBackendHealth (h_ServerID entry) (h_NodeID entry) (h_Host entry)
                            (h_Port entry) HealthHealthy now 0 ""]> (hf_healthState hf)) hf
  end.

(* go: services/crossnode/health_filter.go func:HealthFilter.RecordFailure *)
Definition RecordFailure (hf : HealthFilter) (host : string) (port : Z) (reason : string) (now : Time)
    : HealthFilter :=
  let key := backendKey host port in
  match hf_healthState hf !! key with
  | None =>
      set_state (<[key := mkBackendHealth "" "" host port HealthDegraded now 1 reason]>
                   (hf_healthState hf)) hf
  | Some entry =>
      let failCount := h_FailCount entry +i 1 in
      set_state (<[key := mkBackendHealth (h_ServerID entry) (h_NodeID entry) (h_Host entry)
                            (h_Port entry)
                            (if hf_threshold hf <=? failCount then HealthDown else HealthDegraded)
                            now failCount reason]> (hf_healthState hf)) hf
  end.

(* go: services/crossnode/health_filter.go func:HealthFilter.trustWindow *)
Definition trustWindow (hf : HealthFilter) : Duration :=
  if hf_interval hf <=? 0 then defaultHealthTrustWindow else hf_interval hf.

(* go: services/crossnode/health_filter.go func:HealthFilter.isTrustedLocked *)
Definition isTrustedLocked (hf : HealthFilter) (entry : option BackendHealth) (now : Time) : bool :=
  match entry with
  | None => false
  | Some entry =>
      if negb (bool_decide (h_Status entry = HealthHealthy)) then false
      else negb (Before (h_LastChecked entry) (time_add now (- trustWindow hf)))
  end.

(* go: services/crossnode/health_filter.go func:HealthFilter.IsHealthy *)
Definition IsHealthy (hf : HealthFilter) (host : string) (port : Z) (now : Time) : bool :=
  isTrustedLocked hf (hf_healthState hf !! backendKey host port) now.

(** [now] is the clock as each backend is looked at, by the number of
    backends still to come. *)
(* go: services/crossnode/health_filter.go func:HealthFilter.FilterHealthy *)
Fixpoint FilterHealthy (hf : HealthFilter) (now : nat -> Time) (backends : list BackendAddr)
    : list BackendAddr :=
  match backends with
  | [] => []
  | b :: rest =>
      if isTrustedLocked hf (hf_healthState hf !! backendKey (b_Host b) (b_Port b)) (now (length rest))
      then b :: FilterHealthy hf now rest
      else FilterHealthy hf now rest
  end.

(* go: services/crossnode/health_filter.go func:HealthFilter.GetHealth *)
Definition GetHealth (hf : HealthFilter) (host : string) (port : Z) : BackendHealth :=
  match hf_healthState hf !! backendKey host port with
  | None => mkBackendHealth "" "" host port HealthUnknown zeroTime 0 ""
  | Some entry => entry
  end.

(* go: services/crossnode/health_filter.go L211-216 *)
Definition health_less (a b : BackendHealth) : bool :=
  if negb (h_Host a =? h_Host b)%string then str_lt (h_Host a) (h_Host b)
  else h_Port a <? h_Port b.

(* go: services/crossnode/health_filter.go func:sortHealthEntries *)
Definition sortHealthEntries (entries : list BackendHealth) : list BackendHealth :=
  isort health_less entries.

(* go: services/crossnode/health_filter.go func:HealthFilter.GetAllHealth *)
Definition GetAllHealth (hf : HealthFilter) : list BackendHealth :=
  sortHealthEntries (map snd (map_to_list (hf_healthState hf))).

(* go: services/crossnode/health_filter.go func:HealthFilter.Count *)
Definition Count (hf : HealthFilter) : Z := Z.of_nat (size (hf_healthState hf)).

(* go: services/crossnode/health_filter.go func:HealthFilter.Clear *)
Definition Clear (hf : HealthFilter) (host : string) (port : Z) : HealthFilter :=
  set_state (delete (backendKey host port) (hf_healthState hf)) hf.

(* go: services/crossnode/health_filter.go func:HealthFilter.MarkUnknown *)
Definition MarkUnknown (hf : HealthFilter) (host : string) (port : Z) : HealthFilter :=
  set_state (delete (backendKey host port) (hf_healthState hf)) hf.

(* go: services/crossnode/health_filter.go func:HealthFilter.ClearAll *)
Definition ClearAll (hf : HealthFilter) : HealthFilter := set_state ∅ hf.

(* go: services/crossnode/health_filter.go func:HealthFilter.StaleEntries *)
Definition StaleEntries (hf : HealthFilter) (olderThan : Duration) (now : Time) : list BackendHealth :=
  let cutoff := time_add now (wrap64 (- olderThan)) in
  sortHealthEntries
    (filter (fun entry => Before (h_LastChecked entry) cutoff = true)
       (map snd (map_to_list (hf_healthState hf)))).

(* go: services/crossnode/health_filter.go func:HealthFilter.reapStaleEntries *)
Definition reapStaleEntries (hf : HealthFilter) (olderThan : Duration) (now : Time) : HealthFilter :=
  let cutoff := time_add now (wrap64 (- olderThan)) in
  set_state (filter (fun '(_, entry) => Before (h_LastChecked entry) cutoff = false)
               (hf_healthState hf)) hf.

(** ** The reaper's life cycle

    A reaper is named by the number of the [stop]/[done] channel pair
    [StartReaper] made for it.  [ra_live] holds the goroutines that have not
    yet run [finishReaper]; a [StopReaper] call that has detached a reaper is
    in [ra_closing] until it closes [stop] and then in [ra_waiting] until
    [done] is closed.  [ra_panicked] records a close of a closed channel. *)
(* go: services/crossnode/health_filter.go L41-44 *)
Record Reaper := mkReaper {
  ra_running : bool;
  ra_stop : option nat;
  ra_done : option nat;
  ra_next : nat;
  ra_live : gset nat;
  ra_closing : gset nat;
  ra_waiting : gset nat;
  ra_stop_closed : gset nat;
  ra_done_closed : gset nat;
  ra_panicked : bool
}.

Definition no_reaper : Reaper := mkReaper false None None 0 ∅ ∅ ∅ ∅ ∅ false.

(* go: services/crossnode/health_filter.go func:HealthFilter.StartReaper *)
Definition StartReaper (r : Reaper) : Reaper :=
  if ra_running r then r
  else mkReaper true (Some (ra_next r)) (Some (ra_next r)) (S (ra_next r))
         ({[ra_next r]} ∪ ra_live r) (ra_closing r) (ra_waiting r)
         (ra_stop_closed r) (ra_done_closed r) (ra_panicked r).

(** The deferred exit of [runReaper]'s goroutine [n]. *)
(* go: services/crossnode/health_filter.go func:HealthFilter.finishReaper *)
Definition finishReaper (n : nat) (r : Reaper) : Reaper :=
  let mine := bool_decide (ra_stop r = Some n) in
  mkReaper (if mine then false else ra_running r)
    (if mine then None else ra_stop r) (if mine then None else ra_done r)
    (ra_next r) (ra_live r ∖ {[n]}) (ra_closing r) (ra_waiting r)
    (ra_stop_closed r) ({[n]} ∪ ra_done_closed r)
    (ra_panicked r || bool_decide (n ∈ ra_done_closed r)).

(** [StopReaper] up to its unlock. *)
(* go: services/crossnode/health_filter.go L365-374 *)
Definition stop_detach (r : Reaper) : Reaper :=
  match ra_stop r with
  | Some n =>
      if negb (ra_running r) then r
      else mkReaper false None None (ra_next r) (ra_live r) ({[n]} ∪ ra_closing r) (ra_waiting r)
             (ra_stop_closed r) (ra_done_closed r) (ra_panicked r)
  | None => r
  end.

(** [close(stop)] of a [StopReaper] that detached reaper [n]. *)
(* go: services/crossnode/health_filter.go L376-376 *)
Definition stop_close (n : nat) (r : Reaper) : Reaper :=
  mkReaper (ra_running r) (ra_stop r) (ra_done r) (ra_next r) (ra_live r)
    (ra_closing r ∖ {[n]}) ({[n]} ∪ ra_waiting r)
    ({[n]} ∪ ra_stop_closed r) (ra_done_closed r)
    (ra_panicked r || bool_decide (n ∈ ra_stop_closed r)).

(** [<-done] of that call, once [done] is closed. *)
(* go: services/crossnode/health_filter.go L377-381 *)
Definition stop_return (n : nat) (r : Reaper) : Reaper :=
  mkReaper (ra_running r) (ra_stop r) (ra_done r) (ra_next r) (ra_live r)
    (ra_closing r) (ra_waiting r ∖ {[n]})
    (ra_stop_closed r) (ra_done_closed r) (ra_panicked r).

(** Any number of callers and goroutines, interleaved.  A goroutine may exit
    at any time: its context is done, [stop] is closed, or it panicked. *)
(* go: services/crossnode/health_filter.go func:HealthFilter.runReaper *)
Inductive reaper_step : Reaper -> Reaper -> Prop :=
| reaper_start r : reaper_step r (StartReaper r)
| reaper_exit r n : n ∈ ra_live r -> reaper_step r (finishReaper n r)
| reaper_detach r : reaper_step r (stop_detach r)
| reaper_close r n : n ∈ ra_closing r -> reaper_step r (stop_close n r)
| reaper_return r n :
    n ∈ ra_waiting r -> n ∈ ra_done_closed r -> reaper_step r (stop_return n r).

(** ** Lemmas *)

(** The key is injective over every host and port. *)
Lemma backendKey_inj h p h' p' : backendKey h p = backendKey h' p' -> h = h' /\ p = p'.
Proof.
  unfold backendKey, cat. cbn [foldr]. rewrite !str_app_cons, !str_app_nil, !string_app_empty_r.
  intros H. apply sep_suffix_inj in H as [-> H]; [|apply itoa_no_colon..].
  split; [done|]. by apply itoa_inj.
Qed.

Lemma isTrusted_spec hf entry now :
  isTrustedLocked hf entry now = true <->
  exists e, entry = Some e /\ h_Status e = HealthHealthy /\ now - trustWindow hf <= h_LastChecked e.
Proof.
  unfold isTrustedLocked. destruct entry as [e|]; [|naive_solver].
  destruct (decide (h_Status e = HealthHealthy)) as [Hs|Hs].
  - rewrite bool_decide_true by done. cbn [negb]. rewrite negb_true_iff. unfold Before, time_add.
    rewrite Z.ltb_ge. naive_solver lia.
  - rewrite bool_decide_false by done. naive_solver.
Qed.

(** One recorded event. *)
Inductive HealthEvent : Type :=
| Success (host : string) (port : Z) (now : Time)
| Failure (host : string) (port : Z) (reason : string) (now : Time)
| Forget (host : string) (port : Z).

Definition apply_event (hf : HealthFilter) (e : HealthEvent) : HealthFilter :=
  match e with
  | Success h p t => RecordSuccess hf h p t
  | Failure h p r t => RecordFailure hf h p r t
  | Forget h p => Clear hf h p
  end.

Definition event_key (e : HealthEvent) : string * Z :=
  match e with Success h p _ | Failure h p _ _ | Forget h p => (h, p) end.

(** What the events say about one backend: nothing, or how many failures it
    had since its last success (or since it was first heard of). *)
Definition verdict_step (k : string * Z) (v : option Z) (e : HealthEvent) : option Z :=
  if decide (event_key e = k) then
    match e with
    | Success _ _ _ => Some 0
    | Failure _ _ _ _ => Some (default 0 v + 1)
    | Forget _ _ => None
    end
  else v.

Definition verdict (k : string * Z) (es : list HealthEvent) : option Z := foldl (verdict_step k) None es.

(** The status a verdict stands for. *)
Definition status_of (threshold : Z) (v : option Z) : HealthStatus :=
  match v with
  | None => HealthUnknown
  | Some 0 => HealthHealthy
  | Some n => if threshold <=? n then HealthDown else HealthDegraded
  end.

Definition record_of (threshold : Z) (v : option Z) (entry : option BackendHealth) : Prop :=
  match v, entry with
  | None, None => True
  | Some n, Some e => h_FailCount e = n /\ 0 <= n /\ h_Status e = status_of threshold v
  | _, _ => False
  end.

Lemma event_other hf e h p :
  event_key e <> (h, p) ->
  hf_healthState (apply_event hf e) !! backendKey h p = hf_healthState hf !! backendKey h p.
Proof.
  intros Hne.
  assert (Hk : backendKey (event_key e).1 (event_key e).2 <> backendKey h p).
  { intros [E1 E2]%backendKey_inj. apply Hne. destruct (event_key e). by simpl in *; subst. }
  destruct e as [h' p' t|h' p' r t|h' p']; simpl in *; unfold RecordSuccess, RecordFailure, Clear, set_state;
    [destruct (hf_healthState hf !! backendKey h' p')..|]; simpl;
    by rewrite ?lookup_insert_ne, ?lookup_delete_ne.
Qed.

Lemma apply_event_config hf e :
  hf_threshold (apply_event hf e) = hf_threshold hf /\ hf_interval (apply_event hf e) = hf_interval hf.
Proof.
  destruct e; simpl; unfold RecordSuccess, RecordFailure, Clear; repeat case_match; done.
Qed.

Lemma events_config hf es :
  hf_threshold (foldl apply_event hf es) = hf_threshold hf /\
  hf_interval (foldl apply_event hf es) = hf_interval hf.
Proof.
  revert hf. induction es as [|e es IH]; intros hf; simpl; [done|].
  destruct (IH (apply_event hf e)) as [-> ->]. apply apply_event_config.
Qed.

Lemma verdict_snoc k es e : verdict k (es ++ [e]) = verdict_step k (verdict k es) e.
Proof. unfold verdict. by rewrite foldl_app. Qed.

Lemma verdict_bounds k es n : verdict k es = Some n -> 0 <= n <= Z.of_nat (length es).
Proof.
  revert n. induction es as [|e es IH] using rev_ind; intros n; [done|].
  rewrite verdict_snoc, length_app. unfold verdict_step. simpl. case_decide; [|intros H1; specialize (IH n H1); lia].
  destruct e; intros [= <-]; [lia|]. destruct (verdict k es) as [m|]; simpl; [specialize (IH m eq_refl)|]; lia.
Qed.

Lemma record_step threshold hf e h p v :
  hf_threshold hf = threshold -> 2 <= threshold -> (forall n, v = Some n -> n < max64) ->
  record_of threshold v (hf_healthState hf !! backendKey h p) ->
  record_of threshold (verdict_step (h, p) v e) (hf_healthState (apply_event hf e) !! backendKey h p).
Proof.
  intros Ht H2 Hmax Hrec. unfold verdict_step. case_decide as Hk; [|by rewrite event_other].
  destruct e as [h' p' t|h' p' r t|h' p']; simpl in Hk; injection Hk as -> ->; simpl;
    unfold RecordSuccess, RecordFailure, Clear.
  - destruct (hf_healthState hf !! backendKey h p); simpl; rewrite lookup_insert_eq; done.
  - destruct (hf_healthState hf !! backendKey h p) as [en|], v as [n|]; try done; simpl;
      rewrite lookup_insert_eq; simpl.
    + destruct Hrec as (Hc & Hn & _). specialize (Hmax n eq_refl).
      rewrite iadd_exact by (unfold in64, min64, max64 in *; lia). rewrite Hc, Ht.
      split_and!; [done|lia|]. destruct (n + 1) eqn:E; try lia. done.
    + split_and!; [done|done|]. unfold status_of. destruct (Z.leb_spec threshold (0 + 1)); [lia|done].
  - by rewrite lookup_delete_eq.
Qed.

Lemma events_record hf es h p :
  hf_healthState hf = ∅ -> 2 <= hf_threshold hf -> Z.of_nat (length es) < max64 ->
  record_of (hf_threshold hf) (verdict (h, p) es)
    (hf_healthState (foldl apply_event hf es) !! backendKey h p).
Proof.
  intros He H2. induction es as [|e es IH] using rev_ind; intros Hlen.
  { simpl. by rewrite He, lookup_empty. }
  rewrite length_app in Hlen. simpl in Hlen. rewrite foldl_app, verdict_snoc. simpl.
  apply record_step; [apply events_config|done| |apply IH; lia].
  intros n Hn%verdict_bounds. lia.
Qed.

(** ** The reaper's invariant *)

(** The one reaper on record is running and live and nobody has closed its
    channels; a live goroutine's [done] is open; a detached reaper's [stop] is
    closed once, by the call that detached it, and its goroutine is live or has
    closed [done]; channels not made yet are nowhere. *)
Record reaper_inv (r : Reaper) : Prop := {
  inv_ok : ra_panicked r = false;
  inv_done : ra_done r = ra_stop r;
  inv_running : ra_running r = true <-> is_Some (ra_stop r);
  inv_current n : ra_stop r = Some n ->
    n ∈ ra_live r /\ n ∉ ra_closing r /\ n ∉ ra_waiting r /\ n ∉ ra_stop_closed r;
  inv_live n : n ∈ ra_live r -> n ∉ ra_done_closed r;
  inv_closing n : n ∈ ra_closing r -> n ∉ ra_stop_closed r;
  inv_waiting n : n ∈ ra_waiting r -> n ∈ ra_stop_closed r;
  inv_detached n : n ∈ ra_closing r \/ n ∈ ra_waiting r -> n ∈ ra_live r \/ n ∈ ra_done_closed r;
  inv_fresh n : n ∈ ra_live r \/ n ∈ ra_closing r \/ n ∈ ra_waiting r \/ n ∈ ra_stop_closed r \/
    n ∈ ra_done_closed r -> (n < ra_next r)%nat
}.

(** Membership in the channel sets as a propositional question. *)
Ltac sets :=
  rewrite ?elem_of_union, ?elem_of_difference, ?elem_of_singleton in *; naive_solver.

Lemma reaper_inv_init : reaper_inv no_reaper.
Proof. split; unfold no_reaper; simpl; try done; set_solver. Qed.

Lemma reaper_inv_start r : reaper_inv r -> reaper_inv (StartReaper r).
Proof.
  intros [Hp Hd Hr Hs Hl Hc Hw Hcw Hn]. unfold StartReaper.
  destruct (ra_running r) eqn:E; [split; by rewrite ?E|].
  assert (F : (ra_next r < ra_next r)%nat -> False) by lia.
  split; simpl; try done.
  - intros n [= <-]. clear Hl Hc Hw Hcw. specialize (Hn (ra_next r)). split_and!; sets.
  - intros n. specialize (Hl n). specialize (Hn n). clear Hs Hc Hw Hcw. intros Hi Hi2.
    rewrite elem_of_union, elem_of_singleton in Hi. destruct Hi as [->|Hi]; tauto.
  - intros n Hi. specialize (Hcw n Hi). rewrite elem_of_union. tauto.
  - intros n. specialize (Hn n). rewrite elem_of_union, elem_of_singleton.
    intros [[->|Hi]|Hi]; [lia|..]; (assert (n < ra_next r)%nat by tauto; lia).
Qed.

Lemma reaper_inv_exit r n : n ∈ ra_live r -> reaper_inv r -> reaper_inv (finishReaper n r).
Proof.
  intros Hin [Hp Hd Hr Hs Hl Hc Hw Hcw Hn]. unfold finishReaper.
  rewrite Hp, (bool_decide_false (n ∈ ra_done_closed r)) by auto.
  split; simpl; try done.
  - by case_bool_decide.
  - case_bool_decide; [split; [done|intros [? ?]; done]|done].
  - intros m. case_bool_decide as Hm; [done|]. intros E. destruct (Hs m E) as (? & ? & ? & ?).
    split_and!; try done. apply elem_of_difference. split; [done|]. apply not_elem_of_singleton. congruence.
  - intros m Hi. specialize (Hl m). clear Hs Hc Hw Hcw Hn. sets.
  - intros m Hi. specialize (Hcw m Hi). rewrite elem_of_difference, elem_of_union, elem_of_singleton.
    destruct (decide (m = n)); tauto.
  - intros m Hi. apply Hn. rewrite elem_of_difference, elem_of_union, elem_of_singleton in Hi.
    destruct (decide (m = n)) as [->|]; tauto.
Qed.

Lemma reaper_inv_detach r : reaper_inv r -> reaper_inv (stop_detach r).
Proof.
  intros H. pose proof H as [Hp Hd Hr Hs Hl Hc Hw Hcw Hn]. unfold stop_detach.
  destruct (ra_stop r) as [n|] eqn:E; [|done].
  destruct (ra_running r) eqn:Er; simpl; [|done].
  destruct (Hs n eq_refl) as (H1 & H2 & H3 & H4).
  split; simpl; try done.
  - intros m. rewrite elem_of_union, elem_of_singleton. intros [->|Hi]; [done|auto].
  - intros m. rewrite elem_of_union, elem_of_singleton. intros [[->|Hi]|Hi]; auto.
  - intros m. rewrite elem_of_union, elem_of_singleton. intros Hi. apply Hn.
    destruct (decide (m = n)) as [->|]; tauto.
Qed.

Lemma reaper_inv_close r n : n ∈ ra_closing r -> reaper_inv r -> reaper_inv (stop_close n r).
Proof.
  intros Hin [Hp Hd Hr Hs Hl Hc Hw Hcw Hn]. unfold stop_close.
  rewrite Hp, bool_decide_false by auto.
  assert (Hne : forall m, ra_stop r = Some m -> m <> n) by (intros m E ->; by destruct (Hs n E) as (_ & ? & _)).
  split; simpl; try done.
  - intros m E. specialize (Hne m E). specialize (Hs m E). clear -Hne Hs.
    rewrite elem_of_difference, !elem_of_union, !elem_of_singleton. tauto.
  - intros m. rewrite elem_of_difference, elem_of_union, elem_of_singleton. intros [Hi Hm].
    specialize (Hc m Hi). tauto.
  - intros m. rewrite !elem_of_union, !elem_of_singleton. specialize (Hw m). tauto.
  - intros m. rewrite elem_of_difference, elem_of_union, elem_of_singleton. intros Hi. apply Hcw.
    destruct (decide (m = n)) as [->|]; tauto.
  - intros m. rewrite elem_of_difference, !elem_of_union, !elem_of_singleton. intros Hi. apply Hn.
    destruct (decide (m = n)) as [->|]; tauto.
Qed.

Lemma reaper_inv_return r n : reaper_inv r -> reaper_inv (stop_return n r).
Proof.
  intros [Hp Hd Hr Hs Hl Hc Hw Hcw Hn]. unfold stop_return.
  split; simpl; try done.
  - intros m E. specialize (Hs m E). rewrite elem_of_difference. tauto.
  - intros m. rewrite elem_of_difference. intros [Hi _]. auto.
  - intros m. rewrite elem_of_difference. specialize (Hcw m). tauto.
  - intros m. rewrite elem_of_difference. specialize (Hn m). tauto.
Qed.

Lemma reaper_inv_step r r' : reaper_step r r' -> reaper_inv r -> reaper_inv r'.
Proof.
  intros []; auto using reaper_inv_start, reaper_inv_exit, reaper_inv_detach, reaper_inv_close,
    reaper_inv_return.
Qed.

(** ** Properties *)

(** Only backends with a fresh healthy record are routed to.
    [FilterHealthy] keeps, in order, exactly the backends whose own record is
    healthy and was made within the trust window; an unknown, degraded, down
    or stale backend never passes. *)
Lemma FilterHealthy_correct hf t backends :
  FilterHealthy hf (fun _ => t) backends `sublist_of` backends /\
  forall b, b ∈ FilterHealthy hf (fun _ => t) backends <->
    b ∈ backends /\ exists e, hf_healthState hf !! backendKey (b_Host b) (b_Port b) = Some e /\
      h_Status e = HealthHealthy /\ t - trustWindow hf <= h_LastChecked e.
Proof.
  induction backends as [|b rest [IHs IHe]]; simpl; [split; [done|set_solver]|].
  pose proof (isTrusted_spec hf (hf_healthState hf !! backendKey (b_Host b) (b_Port b)) t) as Hb.
  destruct (isTrustedLocked _ _ _); split.
  - by apply sublist_skip.
  - intros c. rewrite !elem_of_cons, IHe. split; [|naive_solver].
    intros [->|[? ?]]; [|naive_solver]. split; [by left|by apply Hb].
  - by apply sublist_cons.
  - intros c. rewrite IHe, elem_of_cons. split; [naive_solver|].
    intros [[->|?] He]; [|done]. apply Hb in He. done.
Qed.

(** The record of a backend is the history of that backend alone.  Take
    a filter with a threshold of at least two and any sequence of successes,
    failures and clears of any backends.  The status and the failure count
    recorded for a backend are those of its own failures since its last
    success: none means healthy, fewer than the threshold degraded, the
    threshold or more down, and nothing recorded unknown. *)
Lemma health_is_history threshold interval es h p :
  2 <= threshold -> Z.of_nat (length es) < max64 ->
  let hf := foldl apply_event (NewHealthFilter threshold interval) es in
  h_Status (GetHealth hf h p) = status_of threshold (verdict (h, p) es) /\
  (forall n, verdict (h, p) es = Some n -> h_FailCount (GetHealth hf h p) = n) /\
  (forall t, IsHealthy hf h p t = true -> verdict (h, p) es = Some 0).
Proof.
  intros H2 Hlen. cbv zeta.
  assert (Ht : hf_threshold (NewHealthFilter threshold interval) = threshold).
  { unfold NewHealthFilter. simpl. by destruct (Z.leb_spec threshold 0); [lia|]. }
  pose proof (events_record (NewHealthFilter threshold interval) es h p eq_refl) as Hr.
  rewrite Ht in Hr. specialize (Hr H2 Hlen). unfold GetHealth, IsHealthy.
  set (hf := foldl apply_event _ es) in *.
  destruct (hf_healthState hf !! backendKey h p) as [e|], (verdict (h, p) es) as [n|]; try done.
  destruct Hr as (Hc & Hn & Hs). split_and!; [done|by intros m [= <-]|].
  intros t (e' & [= <-] & Hh & _)%isTrusted_spec. rewrite Hh in Hs. unfold status_of in Hs.
  destruct n; [done|by destruct (threshold <=? _)|lia].
Qed.

(** Reaping never changes a routing decision.  Dropping the records
    older than at least the trust window leaves every later answer of
    [IsHealthy], for every backend, as it was. *)
Lemma reap_invisible hf olderThan t h p t' :
  trustWindow hf <= olderThan <= max64 -> t <= t' ->
  IsHealthy (reapStaleEntries hf olderThan t) h p t' = IsHealthy hf h p t'.
Proof.
  intros Hw Ht. unfold IsHealthy. apply eq_true_iff_eq. rewrite !isTrusted_spec.
  change (trustWindow (reapStaleEntries hf olderThan t)) with (trustWindow hf).
  assert (Hpos : 0 <= trustWindow hf).
  { unfold trustWindow. destruct (Z.leb_spec (hf_interval hf) 0); [vm_compute; discriminate|lia]. }
  unfold reapStaleEntries. cbn [hf_healthState set_state]. setoid_rewrite map_lookup_filter_Some.
  rewrite wrap64_id by (unfold in64, min64, max64 in *; lia). unfold Before, time_add.
  setoid_rewrite Z.ltb_ge. split; [naive_solver|].
  intros (e & He & Hs & Hc). exists e. split_and!; auto. lia.
Qed.

(** The reaper's life cycle is safe.  However calls of [StartReaper] and
    [StopReaper] and the exits of reapers interleave, no channel is closed
    twice; [reaperRunning] is true only while the reaper on record is live;
    and a [StopReaper] that waits is waiting for a reaper that has closed
    [done], or that is live with its [stop] closed, so that it can only exit. *)
Lemma reaper_safe r :
  rtc reaper_step no_reaper r ->
  ra_panicked r = false /\
  (ra_running r = true -> exists n, ra_stop r = Some n /\ n ∈ ra_live r) /\
  (forall n, n ∈ ra_waiting r ->
     n ∈ ra_done_closed r \/ (n ∈ ra_live r /\ n ∈ ra_stop_closed r)).
Proof.
  intros H. assert (Hi : reaper_inv r).
  { pose proof reaper_inv_init as H0. induction H; eauto using reaper_inv_step. }
  destruct Hi. split_and!; [done| |].
  - intros Hrun. apply inv_running0 in Hrun as [n Hn]. exists n. split; [done|]. by apply inv_current0.
  - intros n Hn. destruct (inv_detached0 n (or_intror Hn)); auto.
Qed.

Definition witness_events : list HealthEvent :=
  [ Success "10.0.0.1" (-1) 100; Failure "10.0.0.1" (-2) "refused" 110;
    Failure "10.0.0.1" (-1) "timeout" 120; Failure "10.0.0.1" (-1) "timeout" 130;
    Success "10.0.0.1" (-2) 140 ].

Lemma health_is_history_witness :
  let hf := foldl apply_event (NewHealthFilter 2 0) witness_events in
  h_Status (GetHealth hf "10.0.0.1" (-1)) = HealthDown /\
  h_Status (GetHealth hf "10.0.0.1" (-2)) = HealthHealthy.
Proof.
  split.
  - refine (eq_trans (proj1 (health_is_history 2 0 witness_events "10.0.0.1" (-1) _ _)) _);
      [lia|vm_compute; reflexivity|vm_compute; reflexivity].
  - refine (eq_trans (proj1 (health_is_history 2 0 witness_events "10.0.0.1" (-2) _ _)) _);
      [lia|vm_compute; reflexivity|vm_compute; reflexivity].
Defined.

Lemma reap_invisible_witness :
  let hf := foldl apply_event (NewHealthFilter 2 (30 * Second)) [Success "h" 80 0; Success "g" 80 (80 * Second)] in
  size (hf_healthState (reapStaleEntries hf Minute (90 * Second))) = 1%nat /\
  IsHealthy (reapStaleEntries hf Minute (90 * Second)) "g" 80 (95 * Second) = true.
Proof.
  split; [vm_compute; reflexivity|].
  refine (eq_trans (reap_invisible _ _ _ _ _ _ _ _) _);
    [split; vm_compute; discriminate|vm_compute; discriminate|vm_compute; reflexivity].
Defined.

Lemma reaper_safe_witness :
  let r := stop_close 0 (stop_detach (StartReaper no_reaper)) in
  ra_waiting r = {[0%nat]} /\ ra_panicked (finishReaper 0 (StartReaper r)) = false.
Proof.
  cbv zeta. split; [vm_compute; reflexivity|].
  apply reaper_safe.
  eapply rtc_l; [apply reaper_start|]. eapply rtc_l; [apply reaper_detach|].
  eapply rtc_l; [apply (reaper_close _ 0), (bool_decide_unpack _); vm_compute; exact I|].
  eapply rtc_l; [apply reaper_start|].
  eapply rtc_l; [apply (reaper_exit _ 0)|apply rtc_refl].
  apply (bool_decide_unpack _). vm_compute. exact I.
Defined.

(** ** What the model shows *)

(** With a threshold of one, the first failure of a backend never heard of
    leaves it degraded: the threshold is only compared on later failures. *)
Lemma first_failure_not_down :
  h_Status (GetHealth (RecordFailure (NewHealthFilter 1 0) "h" 80 "refused" 0) "h" 80) = HealthDegraded.
Proof. vm_compute. reflexivity. Qed.
