(* ===== verification/RouteGroup.v ===== *)
(** * Route groups

    [forge/api/internal/services/crossnode/routegroup.go]: routing rules
    bucketed by route, and what a group of rules amounts to: its backends, its
    strategy, the servers behind it and the record shown to operators.  The
    code goes out of its way to give the same answer for the same rules in any
    order; a Go map of groups is a [gmap] and a pointer to a rule the rule. *)
From Stdlib Require Import ZArith Lia Sorting.Sorted.
From stdpp Require Import base gmap strings list fin_maps sorting.
From S2P Require Import Prelude GoStrings GoSort HealthFilter.
#[local] Open Scope string_scope.
#[local] Open Scope list_scope.
#[local] Open Scope Z_scope.
#[local] Open Scope go_scope.

(** ** Data *)

(* go: services/trafficmanager/service.go type:RoutingRule *)
Record RoutingRule := mkRoutingRule {
  rr_ID : string; rr_Name : string; rr_ServerID : string; rr_Domain : string; rr_Path : string;
  rr_TargetHost : string; rr_TargetPort : Z; rr_Protocol : string; rr_Strategy : string;
  rr_Weight : Z; rr_Headers : gmap string string; rr_Enabled : bool; rr_WebSocket : bool;
  rr_CreatedAt : Time
}.

(* go: services/crossnode/routegroup.go const:defaultStrategy *)
Definition defaultStrategy : string := "round_robin".

(* go: services/crossnode/routegroup.go type:RouteKey *)
Record RouteKey := mkRouteKey { key_Domain : string; key_Path : string; key_Protocol : string }.

#[export] Instance RouteKey_eq_dec : EqDecision RouteKey.
Proof. solve_decision. Defined.

#[export] Instance RouteKey_countable : Countable RouteKey.
Proof.
  apply (inj_countable' (fun k => (key_Domain k, key_Path k, key_Protocol k))
           (fun '(d, p, q) => mkRouteKey d p q)).
  by intros [].
Defined.

(* go: services/crossnode/routegroup.go type:RouteGroup *)
Record RouteGroup := mkRouteGroup { grp_Key : RouteKey; grp_Rules : list RoutingRule }.

(* go: services/crossnode/routegroup.go type:RouteGenerationRecord *)
Record RouteGenerationRecord := mkRecord {
  rec_RouteKey : RouteKey; rec_GroupID : string; rec_RuleIDs : list string;
  rec_ServerIDs : list string; rec_BackendCount : Z; rec_HasWebSocket : bool;
  rec_Strategy : string; rec_StrategyConflict : string
}.

(** ** Grouping *)

(* go: services/crossnode/routegroup.go L43-53 *)
Definition route_key (rule : RoutingRule) : RouteKey :=
  mkRouteKey (rr_Domain rule)
    (if (rr_Path rule =? "")%string then "/" else rr_Path rule)
    (if (rr_Protocol rule =? "")%string then "http" else rr_Protocol rule).

(* go: services/crossnode/routegroup.go L39-64 *)
Fixpoint group_loop (rules : list RoutingRule) (groups : gmap RouteKey RouteGroup)
    : gmap RouteKey RouteGroup :=
  match rules with
  | [] => groups
  | rule :: rest =>
      if negb (rr_Enabled rule) then group_loop rest groups
      else
        let key := route_key rule in
        let grp := default (mkRouteGroup key []) (groups !! key) in
        group_loop rest (<[key := mkRouteGroup (grp_Key grp) (grp_Rules grp ++ [rule])]> groups)
  end.

Definition by_id (a b : RoutingRule) : bool := str_lt (rr_ID a) (rr_ID b).

(* go: services/crossnode/routegroup.go func:GroupRulesByRoute *)
Definition GroupRulesByRoute (rules : list RoutingRule) : gmap RouteKey RouteGroup :=
  (fun grp => mkRouteGroup (grp_Key grp) (isort by_id (grp_Rules grp))) <$> group_loop rules ∅.

(** ** One group *)

Definition addr_of (rule : RoutingRule) : string :=
  backendKey (rr_TargetHost rule) (rr_TargetPort rule).

Definition rule_weight (rule : RoutingRule) : Z :=
  if rr_Weight rule <=? 0 then 1 else rr_Weight rule.

Definition add_weight (w : Z) (b : BackendAddr) : BackendAddr :=
  mkBackendAddr (b_Host b) (b_Port b) (b_URL b) (b_Weight b +i w).

(* go: services/crossnode/routegroup.go L83-104 *)
Fixpoint backends_loop (rules : list RoutingRule) (index : gmap string nat)
    (backends : list BackendAddr) : list BackendAddr :=
  match rules with
  | [] => backends
  | rule :: rest =>
      if (rr_TargetHost rule =? "")%string then backends_loop rest index backends
      else
        let weight := rule_weight rule in
        let addr := addr_of rule in
        match index !! addr with
        | Some i => backends_loop rest index (alter (add_weight weight) i backends)
        | None =>
            backends_loop rest (<[addr := length backends]> index)
              (backends ++ [mkBackendAddr (rr_TargetHost rule) (rr_TargetPort rule)
                              (cat ["http://"; rr_TargetHost rule; ":"; itoa (rr_TargetPort rule)])
                              weight])
        end
  end.

(* go: services/crossnode/routegroup.go L106-111 *)
Definition backend_less (a b : BackendAddr) : bool :=
  if negb (b_Host a =? b_Host b)%string then str_lt (b_Host a) (b_Host b)
  else b_Port a <? b_Port b.

(* go: services/crossnode/routegroup.go func:RouteGroup.UniqueBackends *)
Definition UniqueBackends (g : RouteGroup) : list BackendAddr :=
  isort backend_less (backends_loop (grp_Rules g) ∅ []).

(* go: services/crossnode/routegroup.go func:RouteGroup.HasWebSocket *)
Definition HasWebSocket (g : RouteGroup) : bool := existsb rr_WebSocket (grp_Rules g).

(** Does a rule ask for a strategy of its own? *)
Definition asks (rule : RoutingRule) : bool :=
  negb (rr_Strategy rule =? "")%string && negb (rr_Strategy rule =? defaultStrategy)%string.

(* go: services/crossnode/routegroup.go func:RouteGroup.Strategy *)
Definition Strategy (g : RouteGroup) : string :=
  let candidates := map rr_Strategy (filter (fun r => asks r = true) (grp_Rules g)) in
  match isort str_lt candidates with
  | [] => defaultStrategy
  | first :: _ => first
  end.

(* go: services/crossnode/routegroup.go L148-153 *)
Fixpoint ids_loop (rules : list RoutingRule) (seen : gset string) : list string :=
  match rules with
  | [] => []
  | rule :: rest =>
      if negb (rr_ServerID rule =? "")%string && negb (bool_decide (rr_ServerID rule ∈ seen))
      then rr_ServerID rule :: ids_loop rest ({[rr_ServerID rule]} ∪ seen)
      else ids_loop rest seen
  end.

(* go: services/crossnode/routegroup.go func:RouteGroup.ServiceIDs *)
Definition ServiceIDs (g : RouteGroup) : list string := isort str_lt (ids_loop (grp_Rules g) ∅).

(* go: services/crossnode/routegroup.go func:groupID *)
Definition groupID (key : RouteKey) : string :=
  cat [key_Domain key; "/"; key_Path key; "/"; key_Protocol key].

(* go: services/crossnode/routegroup.go L179-211 *)
Definition generation_record (key : RouteKey) (grp : RouteGroup) : RouteGenerationRecord :=
  let ruleIDs := isort str_lt (map rr_ID (grp_Rules grp)) in
  let alternatives : gset string :=
    list_to_set (map rr_Strategy (filter (fun r => asks r = true) (grp_Rules grp))) in
  let strategy := Strategy grp in
  let losers := isort str_lt (elements (alternatives ∖ {[strategy]})) in
  mkRecord key (groupID key) ruleIDs (ServiceIDs grp)
    (Z.of_nat (length (UniqueBackends grp))) (HasWebSocket grp) strategy (Join losers ", ").

(* go: services/crossnode/routegroup.go func:BuildRouteGenerationRecords *)
Definition BuildRouteGenerationRecords (groups : gmap RouteKey RouteGroup) : list RouteGenerationRecord :=
  isort (fun a b => str_lt (rec_GroupID a) (rec_GroupID b))
    (map (fun '(key, grp) => generation_record key grp) (map_to_list groups)).

(** ** Orders *)

Lemma by_id_asym a b : by_id a b = true -> by_id b a = false.
Proof. apply str_lt_asym. Qed.

Lemma by_id_ntrans a b c : by_id b a = false -> by_id c b = false -> by_id c a = false.
Proof. unfold by_id. apply str_lt_ntrans. Qed.

Lemma backend_less_spec a b :
  backend_less a b = true <->
  str_lt (b_Host a) (b_Host b) = true \/ (b_Host a = b_Host b /\ b_Port a < b_Port b).
Proof.
  unfold backend_less. destruct (String.eqb_spec (b_Host a) (b_Host b)) as [E|E]; cbn [negb].
  - rewrite E, str_lt_irrefl, Z.ltb_lt. naive_solver.
  - naive_solver.
Qed.

Lemma backend_less_asym a b : backend_less a b = true -> backend_less b a = false.
Proof.
  rewrite <- not_true_iff_false, !backend_less_spec. intros [H|[E H]] [H'|[E' H']].
  - by rewrite (str_lt_asym _ _ H) in H'.
  - by rewrite E', str_lt_irrefl in H.
  - by rewrite E, str_lt_irrefl in H'.
  - lia.
Qed.

Lemma backend_less_total a b :
  backend_less a b = false -> backend_less b a = false -> b_Host a = b_Host b /\ b_Port a = b_Port b.
Proof.
  rewrite <- !not_true_iff_false, !backend_less_spec. intros H1 H2.
  assert (E : b_Host a = b_Host b).
  { apply str_lt_total; apply not_true_iff_false; tauto. }
  split; [done|]. destruct (Z.lt_trichotomy (b_Port a) (b_Port b)) as [?|[?|?]]; tauto || naive_solver.
Qed.

Lemma backend_less_ntrans a b c :
  backend_less b a = false -> backend_less c b = false -> backend_less c a = false.
Proof.
  rewrite <- !not_true_iff_false, !backend_less_spec. intros H1 H2 [H|[E H]].
  - destruct (str_lt (b_Host c) (b_Host b)) eqn:E1; [tauto|].
    destruct (str_lt (b_Host b) (b_Host a)) eqn:E2; [tauto|].
    by rewrite (str_lt_ntrans _ _ _ E2 E1) in H.
  - destruct (str_lt (b_Host c) (b_Host b)) eqn:E1; [tauto|].
    destruct (str_lt (b_Host b) (b_Host a)) eqn:E2; [tauto|].
    rewrite E in E1. pose proof (str_lt_total _ _ E1 E2) as E3.
    destruct (decide (b_Port b < b_Port a)); [apply H1; right; by split|].
    destruct (decide (b_Port c < b_Port b)); [apply H2; right; split; [congruence|done]|lia].
Qed.

(** Sorting distinct keys gives one answer for every permutation. *)
Lemma isort_perm_eq {A} (less : A -> A -> bool) l l' :
  (forall a b, less a b = true -> less b a = false) ->
  (forall a b c, less b a = false -> less c b = false -> less c a = false) ->
  (forall a b, a ∈ l -> b ∈ l -> less a b = false -> less b a = false -> a = b) ->
  l ≡ₚ l' -> isort less l = isort less l'.
Proof.
  intros Ha Hn Hd HP. apply (sorted_unique less).
  - intros a b. rewrite !isort_perm. apply Hd.
  - apply (isort_sorted less (fun _ => True)); eauto using Forall_true.
  - apply (isort_sorted less (fun _ => True)); eauto using Forall_true.
  - by rewrite !isort_perm.
Qed.

(** ** Grouping *)

(** The enabled rules of a route, in the caller's order. *)
Definition rules_of (key : RouteKey) (rules : list RoutingRule) : list RoutingRule :=
  filter (fun r => rr_Enabled r = true /\ route_key r = key) rules.

Lemma group_loop_spec rules groups key :
  group_loop rules groups !! key =
  match groups !! key, rules_of key rules with
  | None, [] => None
  | None, rs => Some (mkRouteGroup key rs)
  | Some g, rs => Some (mkRouteGroup (grp_Key g) (grp_Rules g ++ rs))
  end.
Proof.
  revert groups. induction rules as [|r rules IH]; intros groups; simpl.
  { unfold rules_of. simpl. destruct (groups !! key) as [[k rs]|]; [|done]. simpl. by rewrite app_nil_r. }
  unfold rules_of. rewrite filter_cons. fold (rules_of key rules).
  destruct (rr_Enabled r) eqn:Er; cbn [negb].
  - rewrite IH. destruct (decide (route_key r = key)) as [E|E].
    + rewrite (decide_True (P := true = true /\ _)) by done. rewrite E, lookup_insert_eq.
      destruct (groups !! key) as [g|]; simpl; [by rewrite <- app_assoc|done].
    + rewrite (decide_False (P := true = true /\ _)) by naive_solver. by rewrite lookup_insert_ne.
  - rewrite IH. by rewrite decide_False by naive_solver.
Qed.

(** ** Backends *)

Definition key_of (b : BackendAddr) : string := backendKey (b_Host b) (b_Port b).

(** What the rules of an address weigh together. *)
Definition weight_at (addr : string) (rules : list RoutingRule) : Z :=
  sum_by rule_weight (filter (fun r => rr_TargetHost r <> "" /\ addr_of r = addr) rules).

(** [b] is the backend of some rule, with the weight of all the rules of its
    address. *)
Definition backend_of (rules : list RoutingRule) (b : BackendAddr) : Prop :=
  b_Host b <> "" /\ b_URL b = cat ["http://"; b_Host b; ":"; itoa (b_Port b)] /\
  b_Weight b = weight_at (key_of b) rules /\
  exists r, r ∈ rules /\ rr_TargetHost r = b_Host b /\ rr_TargetPort r = b_Port b.

Lemma rule_weight_pos r : 0 < rule_weight r.
Proof. unfold rule_weight. destruct (Z.leb_spec (rr_Weight r) 0); lia. Qed.

Lemma weight_at_bounds addr rules : 0 <= weight_at addr rules <= sum_by rule_weight rules.
Proof.
  unfold weight_at. induction rules as [|r rules IH]; simpl; [done|].
  rewrite filter_cons. pose proof (rule_weight_pos r). case_decide; simpl; lia.
Qed.

Lemma weight_at_snoc addr rules r :
  weight_at addr (rules ++ [r]) =
  weight_at addr rules + if decide (rr_TargetHost r <> "" /\ addr_of r = addr) then rule_weight r else 0.
Proof.
  unfold weight_at. rewrite filter_app, sum_by_app, filter_cons. case_decide; simpl; lia.
Qed.

(** The loop's invariant: [index] locates every backend, backends have
    distinct addresses, and they are the backends of the rules seen. *)
Definition loop_inv (seen : list RoutingRule) (index : gmap string nat) (bs : list BackendAddr) : Prop :=
  (forall addr i, index !! addr = Some i <-> exists b, bs !! i = Some b /\ key_of b = addr) /\
  (forall b, b ∈ bs -> backend_of seen b) /\
  (forall r, r ∈ seen -> rr_TargetHost r <> "" -> is_Some (index !! addr_of r)).

Lemma backend_of_snoc seen r b w :
  backend_of seen b -> in64 (b_Weight b + w) ->
  (if decide (rr_TargetHost r <> "" /\ addr_of r = key_of b) then rule_weight r = w else w = 0) ->
  backend_of (seen ++ [r]) (if decide (w = 0) then b else add_weight w b).
Proof.
  intros (Hh & Hu & Hw & r' & Hr' & E1 & E2) H64 Hd. pose proof (rule_weight_pos r) as Hp.
  assert (Hb : backend_of (seen ++ [r]) (mkBackendAddr (b_Host b) (b_Port b) (b_URL b) (b_Weight b + w))).
  { split_and!; [done|done| |exists r'; split; [apply elem_of_app; by left|done]].
    cbn [b_Weight]. rewrite weight_at_snoc. change (key_of (mkBackendAddr _ _ _ _)) with (key_of b).
    rewrite Hw. case_decide; lia. }
  destruct (decide (w = 0)) as [Hz|Hz].
  - rewrite Hz, Z.add_0_r in Hb. by destruct b.
  - unfold add_weight. by rewrite iadd_exact.
Qed.

Lemma loop_inv_skip seen index bs r :
  rr_TargetHost r = "" -> sum_by rule_weight (seen ++ [r]) <= max64 ->
  loop_inv seen index bs -> loop_inv (seen ++ [r]) index bs.
Proof.
  intros Hr Hs (H1 & H2 & H3). split_and!; [done| |].
  - intros b Hb. specialize (H2 b Hb). pose proof (weight_at_bounds (key_of b) seen) as Hwb.
    rewrite sum_by_app in Hs. simpl in Hs. pose proof (rule_weight_pos r).
    pose proof (backend_of_snoc seen r b 0 H2) as Hn. rewrite (decide_True (P := 0 = 0)) in Hn by done. apply Hn.
    + destruct H2 as (_ & _ & -> & _). unfold in64, min64. lia.
    + rewrite decide_False; [done|]. naive_solver.
  - intros r' [?| ->%list_elem_of_singleton]%elem_of_app Hne; [auto|congruence].
Qed.

Lemma loop_inv_hit seen index bs r i :
  index !! addr_of r = Some i -> rr_TargetHost r <> "" -> sum_by rule_weight (seen ++ [r]) <= max64 ->
  loop_inv seen index bs ->
  loop_inv (seen ++ [r]) index (alter (add_weight (rule_weight r)) i bs).
Proof.
  intros Hi Hne Hs (H1 & H2 & H3). pose proof (rule_weight_pos r) as Hp.
  rewrite sum_by_app in Hs. simpl in Hs.
  assert (Hkey : forall w b, key_of (add_weight w b) = key_of b) by done.
  split_and!.
  - intros addr j. rewrite H1. destruct (decide (i = j)) as [->|Hij].
    + rewrite list_lookup_alter_eq. destruct (bs !! j) as [b|]; simpl; [|naive_solver].
      split; intros (b' & [= <-] & Hk); eexists; (split; [done|]); by rewrite ?Hkey in *.
    + by rewrite list_lookup_alter_ne.
  - intros b [j Hj]%list_elem_of_lookup.
    assert (Hold : forall b0, bs !! j = Some b0 -> forall w,
              (if decide (rr_TargetHost r <> "" /\ addr_of r = key_of b0) then rule_weight r = w else w = 0) ->
              backend_of (seen ++ [r]) (if decide (w = 0) then b0 else add_weight w b0)).
    { intros b0 Hb0 w Hw. pose proof (H2 b0 (list_elem_of_lookup_2 _ _ _ Hb0)) as Hb.
      apply backend_of_snoc; [done| |done]. destruct Hb as (_ & _ & -> & _).
      pose proof (weight_at_bounds (key_of b0) seen). unfold in64, min64.
      case_decide; lia. }
    destruct (decide (i = j)) as [->|Hij].
    + rewrite list_lookup_alter_eq in Hj. destruct (bs !! j) as [b0|] eqn:Ej; [|done].
      injection Hj as <-. specialize (Hold b0 eq_refl (rule_weight r)).
      rewrite decide_True, decide_False in Hold; [auto|lia|].
      split; [done|]. apply H1 in Hi as (b1 & Hb1 & <-). congruence.
    + rewrite list_lookup_alter_ne in Hj by done. specialize (Hold b Hj 0).
      rewrite (decide_True (P := 0 = 0)) in Hold by done. apply Hold.
      rewrite decide_False; [done|]. intros [_ Hk]. apply Hij.
      assert (Hi2 : index !! addr_of r = Some j) by (apply H1; by exists b). congruence.
  - intros r' [?| ->%list_elem_of_singleton]%elem_of_app Hne'; [auto|by rewrite Hi].
Qed.

Lemma loop_inv_new seen index bs r :
  index !! addr_of r = None -> rr_TargetHost r <> "" -> sum_by rule_weight (seen ++ [r]) <= max64 ->
  loop_inv seen index bs ->
  loop_inv (seen ++ [r]) (<[addr_of r := length bs]> index)
    (bs ++ [mkBackendAddr (rr_TargetHost r) (rr_TargetPort r)
              (cat ["http://"; rr_TargetHost r; ":"; itoa (rr_TargetPort r)]) (rule_weight r)]).
Proof.
  intros Hi Hne Hs (H1 & H2 & H3). rewrite sum_by_app in Hs. simpl in Hs.
  pose proof (rule_weight_pos r) as Hp.
  assert (Hnone : forall b, b ∈ bs -> key_of b <> addr_of r).
  { intros b [i Hb]%list_elem_of_lookup E.
    assert (index !! addr_of r = Some i) by (apply H1; by exists b). congruence. }
  split_and!.
  - intros addr j. split.
    + intros [[<- <-]|[Hne2 Hj]]%lookup_insert_Some.
      * eexists. rewrite lookup_app_r, Nat.sub_diag by lia. done.
      * apply H1 in Hj as (b & Hb & <-). exists b. split; [by apply lookup_app_l_Some|done].
    + intros (b & [Hb|[Hge Hb]]%lookup_app_Some & <-).
      * rewrite lookup_insert_ne; [apply H1; by exists b|].
        intros E. apply (Hnone b); [by eapply list_elem_of_lookup_2|done].
      * apply list_lookup_singleton_Some in Hb as [Hj <-].
        change (key_of _) with (addr_of r). rewrite lookup_insert_eq. f_equal. lia.
  - intros b [Hb| ->%list_elem_of_singleton]%elem_of_app.
    + pose proof (H2 b Hb) as Hold. pose proof (weight_at_bounds (key_of b) seen).
      pose proof (backend_of_snoc seen r b 0 Hold) as Hn. rewrite (decide_True (P := 0 = 0)) in Hn by done. apply Hn.
      * destruct Hold as (_ & _ & -> & _). unfold in64, min64. lia.
      * rewrite decide_False; [done|]. intros [_ E]. by apply (Hnone b Hb).
    + split_and!; [done|done| |exists r; split; [apply elem_of_app; right; left|done]].
      cbn [b_Weight]. change (key_of _) with (addr_of r).
      rewrite weight_at_snoc, decide_True by done.
      enough (weight_at (addr_of r) seen = 0) by lia. unfold weight_at.
      destruct (filter _ seen) as [|r' l] eqn:Ef; [done|]. exfalso.
      assert (Hr' : r' ∈ r' :: l) by left. rewrite <- Ef in Hr'.
      apply list_elem_of_filter in Hr' as [[Hh E] Hr'].
      destruct (H3 r' Hr' Hh) as [i Hi2]. rewrite E in Hi2. congruence.
  - intros r' [?| ->%list_elem_of_singleton]%elem_of_app Hne'.
    + destruct (decide (addr_of r = addr_of r')) as [<-|?];
        [by rewrite lookup_insert_eq|rewrite lookup_insert_ne by done; auto].
    + by rewrite lookup_insert_eq.
Qed.

Lemma backends_loop_inv rules seen index bs :
  sum_by rule_weight (seen ++ rules) <= max64 -> loop_inv seen index bs ->
  exists index', loop_inv (seen ++ rules) index' (backends_loop rules index bs).
Proof.
  revert seen index bs. induction rules as [|r rules IH]; intros seen index bs Hs Hinv.
  { exists index. by rewrite app_nil_r. }
  assert (Hs1 : sum_by rule_weight (seen ++ [r]) <= max64).
  { rewrite sum_by_app in *. simpl in *.
    assert (0 <= sum_by rule_weight rules); [|lia].
    apply sum_by_nonneg. intros a _. pose proof (rule_weight_pos a). lia. }
  replace (seen ++ r :: rules) with ((seen ++ [r]) ++ rules) in * by (by rewrite <- app_assoc).
  cbn [backends_loop]. destruct (String.eqb_spec (rr_TargetHost r) "") as [E|E].
  - apply IH; [done|]. by apply loop_inv_skip.
  - destruct (index !! addr_of r) as [i|] eqn:Ei; (apply IH; [done|]).
    + by apply loop_inv_hit.
    + by apply loop_inv_new.
Qed.

(** What the loop leaves: the backends of the rules, one per address. *)
Lemma backends_loop_spec rules :
  sum_by rule_weight rules <= max64 ->
  NoDup (backends_loop rules ∅ []) /\
  (forall b b', b ∈ backends_loop rules ∅ [] -> b' ∈ backends_loop rules ∅ [] ->
     key_of b = key_of b' -> b = b') /\
  forall b, b ∈ backends_loop rules ∅ [] <-> backend_of rules b.
Proof.
  intros Hs. destruct (backends_loop_inv rules [] ∅ [] Hs) as (index & H1 & H2 & H3).
  { split_and!; [|set_solver..]. intros addr i. rewrite lookup_empty, lookup_nil. naive_solver. }
  simpl in H1, H2, H3. set (bs := backends_loop rules ∅ []) in *.
  assert (Hk : forall i j b b', bs !! i = Some b -> bs !! j = Some b' -> key_of b = key_of b' -> i = j).
  { intros i j b b' Hi Hj E.
    assert (index !! key_of b = Some i) by (apply H1; eauto).
    assert (index !! key_of b = Some j) by (apply H1; eauto). congruence. }
  split_and!.
  - apply NoDup_alt. intros i j b Hi Hj. by eapply Hk.
  - intros b b' [i Hi]%list_elem_of_lookup [j Hj]%list_elem_of_lookup E.
    pose proof (Hk i j b b' Hi Hj E). subst. congruence.
  - intros b. split; [auto|]. intros (Hh & Hu & Hw & r & Hr & E1 & E2).
    destruct (H3 r Hr ltac:(congruence)) as [i Hi]. apply H1 in Hi as (b' & Hb' & Ek).
    unfold addr_of in Ek. rewrite E1, E2 in Ek. unfold key_of in Ek.
    pose proof (H2 b' (list_elem_of_lookup_2 _ _ _ Hb')) as (_ & Hu' & Hw' & _).
    assert (b = b') as ->; [|by eapply list_elem_of_lookup_2].
    pose proof (backendKey_inj _ _ _ _ Ek) as [Eh Ep].
    destruct b as [h p u w], b' as [h' p' u' w']. unfold key_of in *. simpl in *. by subst.
Qed.

Lemma backend_of_perm rules rules' b :
  rules ≡ₚ rules' -> backend_of rules b <-> backend_of rules' b.
Proof.
  intros HP. unfold backend_of.
  assert (E : forall addr, weight_at addr rules = weight_at addr rules').
  { intros addr. apply sum_by_perm. by rewrite HP. }
  rewrite E. setoid_rewrite HP. done.
Qed.

(** A sorted list without ties between distinct positions is strictly sorted. *)
Lemma strict_sorted {A K} (less : A -> A -> bool) (key : A -> K) l :
  (forall a b, less a b = false -> less b a = false -> key a = key b) ->
  NoDup l -> StronglySorted (in_order less) l ->
  (forall a b, a ∈ l -> b ∈ l -> key a = key b -> a = b) ->
  StronglySorted (fun a b => less a b = true) l.
Proof.
  intros Ht Hnd HS Hinj. induction HS as [|a l HS IH HF]; [constructor|].
  apply NoDup_cons in Hnd as [Ha Hnd]. constructor.
  - apply IH; [done|]. intros x y Hx Hy. apply Hinj; by right.
  - rewrite Forall_forall in HF |- *. intros b Hb.
    destruct (less a b) eqn:E; [done|]. exfalso. apply Ha.
    rewrite (Hinj a b); [done|left|by right|]. apply Ht; [done|by apply HF].
Qed.

(** ** Strategy *)

Definition asked (rules : list RoutingRule) : list string :=
  map rr_Strategy (filter (fun r => asks r = true) rules).

Lemma isort_str_head l s t :
  isort str_lt l = s :: t -> s ∈ l /\ forall x, x ∈ l -> str_lt x s = false.
Proof.
  intros H.
  assert (HS : StronglySorted (in_order str_lt) (isort str_lt l)).
  { apply (isort_sorted str_lt (fun _ => True)); eauto using Forall_true, str_lt_asym, str_lt_ntrans. }
  pose proof (isort_perm str_lt l) as HP. rewrite H in HS, HP.
  split; [rewrite <- HP; left|]. intros x. rewrite <- HP.
  intros [->|Hx]%elem_of_cons; [apply str_lt_irrefl|].
  inversion HS as [|? ? _ HF]. rewrite Forall_forall in HF. by apply HF.
Qed.

Lemma isort_str_perm l l' : l ≡ₚ l' -> isort str_lt l = isort str_lt l'.
Proof.
  apply isort_perm_eq; eauto using str_lt_asym, str_lt_ntrans. intros; by apply str_lt_total.
Qed.

(** ** Properties *)

(** Grouping is a partition of the enabled rules.  The group of a route
    exists exactly when some enabled rule describes the route (with "/" and
    "http" for an empty path and protocol), and holds all of its rules, sorted
    by id, and no other. *)
Lemma GroupRulesByRoute_partition rules key :
  GroupRulesByRoute rules !! key =
  match rules_of key rules with
  | [] => None
  | rs => Some (mkRouteGroup key (isort by_id rs))
  end.
Proof.
  unfold GroupRulesByRoute. rewrite lookup_fmap, group_loop_spec, lookup_empty.
  by destruct (rules_of key rules).
Qed.

(** Routes do not depend on the order of the rules.  With distinct rule
    ids and any two orders of the same rules, every route gets the same group. *)
Lemma GroupRulesByRoute_permutation rules rules' :
  NoDup (map rr_ID rules) -> rules ≡ₚ rules' ->
  GroupRulesByRoute rules = GroupRulesByRoute rules'.
Proof.
  intros Hnd HP. apply map_eq. intros key.
  unfold GroupRulesByRoute. rewrite !lookup_fmap, !group_loop_spec, !lookup_empty.
  assert (Hp : rules_of key rules ≡ₚ rules_of key rules') by (unfold rules_of; by rewrite HP).
  assert (Hs : isort by_id (rules_of key rules) = isort by_id (rules_of key rules')).
  { apply isort_perm_eq; eauto using by_id_asym, by_id_ntrans.
    intros a b Ha Hb H1 H2. unfold rules_of in Ha, Hb.
    apply list_elem_of_filter in Ha as [_ Ha], Hb as [_ Hb].
    apply (NoDup_map_inj rr_ID rules); auto. by apply str_lt_total. }
  destruct (rules_of key rules) as [|r rs], (rules_of key rules') as [|r' rs']; simpl.
  - done.
  - by apply Permutation_nil_l in Hp.
  - by apply Permutation_nil_r in Hp.
  - simpl in Hs. by rewrite Hs.
Qed.

(** The backends of a group are its addresses with their summed weights.
    There is one backend per host and port some rule targets (rules without a
    host contribute none), its weight is the sum of the weights of the rules
    with that address (a non-positive weight counting as one), the list is
    sorted by host and port, and any order of the same rules gives the same
    list. *)
Lemma UniqueBackends_correct g :
  sum_by rule_weight (grp_Rules g) <= max64 ->
  (forall b, b ∈ UniqueBackends g <-> backend_of (grp_Rules g) b) /\
  StronglySorted (fun a b => backend_less a b = true) (UniqueBackends g) /\
  (forall g', grp_Rules g ≡ₚ grp_Rules g' -> UniqueBackends g' = UniqueBackends g).
Proof.
  intros Hs. destruct (backends_loop_spec (grp_Rules g) Hs) as (Hnd & Hinj & Hb).
  unfold UniqueBackends. set (bs := backends_loop (grp_Rules g) ∅ []) in *. split_and!.
  - intros b. by rewrite isort_perm.
  - assert (HS : StronglySorted (in_order backend_less) (isort backend_less bs)).
    { apply (isort_sorted backend_less (fun _ => True));
        eauto using Forall_true, backend_less_asym, backend_less_ntrans. }
    apply (strict_sorted backend_less key_of); [|by rewrite isort_perm|done|].
    + intros a b H1 H2. destruct (backend_less_total a b H1 H2) as [E1 E2].
      unfold key_of. by rewrite E1, E2.
    + intros a b. rewrite !isort_perm. apply Hinj.
  - intros g' HP. symmetry. apply isort_perm_eq; eauto using backend_less_asym, backend_less_ntrans.
    + intros a b Ha Hb' H1 H2. destruct (backend_less_total a b H1 H2) as [E1 E2].
      apply Hinj; auto. unfold key_of. by rewrite E1, E2.
    + assert (Hs' : sum_by rule_weight (grp_Rules g') <= max64) by (by rewrite <- (sum_by_perm _ _ _ HP)).
      destruct (backends_loop_spec (grp_Rules g') Hs') as (Hnd' & _ & Hb').
      apply NoDup_Permutation; [done..|]. intros b. rewrite Hb, Hb'.
      by apply backend_of_perm.
Qed.

(** A group's strategy is the least one any rule asks for, whatever the
    order of its rules, and round robin when no rule asks. *)
Lemma Strategy_correct g :
  (asked (grp_Rules g) = [] /\ Strategy g = defaultStrategy \/
   Strategy g ∈ asked (grp_Rules g) /\
   forall s, s ∈ asked (grp_Rules g) -> str_lt s (Strategy g) = false) /\
  forall g', grp_Rules g ≡ₚ grp_Rules g' -> Strategy g' = Strategy g.
Proof.
  unfold Strategy. fold (asked (grp_Rules g)). split.
  - pose proof (isort_perm str_lt (asked (grp_Rules g))) as HP.
    destruct (isort str_lt (asked (grp_Rules g))) as [|s t] eqn:E.
    + left. split; [by apply Permutation_nil_l in HP|done].
    + right. by apply isort_str_head in E.
  - intros g' HP. fold (asked (grp_Rules g')).
    rewrite (isort_str_perm (asked (grp_Rules g')) (asked (grp_Rules g))); [done|].
    unfold asked. by rewrite HP.
Qed.

Definition rule (id host : string) (port weight : Z) (strategy : string) : RoutingRule :=
  mkRoutingRule id id ("srv-" ++ id) "a.example.com" "" host port "" strategy weight ∅ true false 0.

Definition witness_rules : list RoutingRule :=
  [ rule "r2" "10.0.0.2" 80 0 "least_connections"; rule "r1" "10.0.0.1" 80 3 "";
    rule "r3" "10.0.0.2" 80 4 "ip_hash"; rule "r4" "" 80 1 "" ].

Lemma GroupRulesByRoute_permutation_witness :
  map rr_ID (from_option grp_Rules [] (GroupRulesByRoute witness_rules !! mkRouteKey "a.example.com" "/" "http"))
    = ["r1"; "r2"; "r3"; "r4"] /\
  GroupRulesByRoute witness_rules = GroupRulesByRoute (rev witness_rules).
Proof.
  split; [vm_compute; reflexivity|]. apply GroupRulesByRoute_permutation.
  - apply (bool_decide_unpack _). vm_compute. exact I.
  - apply Permutation_rev.
Defined.

Lemma UniqueBackends_correct_witness :
  let g := mkRouteGroup (mkRouteKey "a.example.com" "/" "http") witness_rules in
  map (fun b => (b_Host b, b_Weight b)) (UniqueBackends g) = [("10.0.0.1", 3); ("10.0.0.2", 5)] /\
  (forall b, b ∈ UniqueBackends g <-> backend_of witness_rules b).
Proof.
  split; [vm_compute; reflexivity|].
  apply (UniqueBackends_correct (mkRouteGroup (mkRouteKey "a.example.com" "/" "http") witness_rules)).
  vm_compute. discriminate.
Defined.

(** ** What the model shows *)

(** The id records are sorted by is not injective in the route, so the order
    of two such records is left to the map's iteration. *)
Lemma groupID_collision :
  groupID (mkRouteKey "a" "b" "c/d") = groupID (mkRouteKey "a" "b/c" "d").
Proof. vm_compute. reflexivity. Qed.
