(* ===== verification/Resolver.v ===== *)
(** * Cross-node target resolution

    [forge/api/internal/services/crossnode/resolver.go]: the host a request
    for a server or node is proxied to, from service discovery, the store and
    a bounded cache.  Discovery and the store are not part of this component:
    [discovery] answers the two endpoint queries and [store] the two lookups,
    as they stand during the call; the clock reads are arguments.  The lock is
    held for the cache lookup and for [storeToCache] separately, so a
    resolution is two atomic steps around the store reads. *)
From Stdlib Require Import ZArith Lia.
From stdpp Require Import base gmap strings list fin_maps.
From S2P Require Import Prelude GoStrings.
#[local] Open Scope string_scope.
#[local] Open Scope list_scope.
#[local] Open Scope Z_scope.
#[local] Open Scope go_scope.

(** ** Data *)

(* go: services/crossnode/resolver.go L23-23 *)
Definition ErrNoTarget : string := "crossnode: no reachable target for request".

(* go: services/crossnode/resolver.go const:maxCacheEntries *)
Definition maxCacheEntries : Z := 1024.

(* go: services/crossnode/resolver.go type:resolutionCacheEntry *)
Record resolutionCacheEntry := mkEntry { en_Host : string; en_ExpiresAt : Time }.

(** What the resolver reads of an endpoint: [ep_address] is [None] for an
    invalid address and the printed address otherwise. *)
Record Endpoint := mkEndpoint { ep_healthy : bool; ep_address : option string }.

(** [ResolveAll(server)] and [ListEndpoints{NodeID, HealthyOnly}]. *)
Record Discovery := mkDiscovery {
  d_ResolveAll : string -> list Endpoint;
  d_ListEndpoints : string -> bool -> list Endpoint
}.

(* go: services/crossnode/resolver.go type:ResolutionStore *)
Record ResolutionStore := mkResolutionStore {
  s_GetServerNodeID : string -> result string;
  s_GetNodeHost : string -> result (string * string)
}.

(* go: services/crossnode/resolver.go type:Resolver *)
Record Resolver := mkResolver {
  rv_store : option ResolutionStore;
  rv_cache : gmap string resolutionCacheEntry;
  rv_cacheTTL : Duration;
  rv_discovery : option Discovery
}.

Definition set_cache (c : gmap string resolutionCacheEntry) (r : Resolver) : Resolver :=
  mkResolver (rv_store r) c (rv_cacheTTL r) (rv_discovery r).

(** ** Operations *)

(* go: services/crossnode/resolver.go func:NewResolver *)
Definition NewResolver (store : option ResolutionStore) : Resolver :=
  mkResolver store ∅ (30 * Second) None.

(* go: services/crossnode/resolver.go func:Resolver.ClearCache *)
Definition ClearCache (r : Resolver) : Resolver := set_cache ∅ r.

(* go: services/crossnode/resolver.go func:Resolver.SetCacheTTL *)
Definition SetCacheTTL (r : Resolver) (ttl : Duration) : Resolver :=
  mkResolver (rv_store r) (rv_cache r) ttl (rv_discovery r).

(* go: services/crossnode/resolver.go func:Resolver.SetServiceDiscovery *)
Definition SetServiceDiscovery (r : Resolver) (d : option Discovery) : Resolver :=
  mkResolver (rv_store r) (rv_cache r) (rv_cacheTTL r) d.

(** [Addr.String]: the zero address prints as "invalid IP". *)
Definition addr_string (a : option string) : string := default "invalid IP" a.

(** The first endpoint whose address is valid. *)
(* go: services/crossnode/resolver.go L218-222 *)
Fixpoint first_valid (eps : list Endpoint) : option string :=
  match eps with
  | [] => None
  | ep :: rest => match ep_address ep with Some a => Some a | None => first_valid rest end
  end.

(* go: services/crossnode/resolver.go func:Resolver.ResolveNodeAddress *)
Definition ResolveNodeAddress (r : Resolver) (nodeID : string) : option string :=
  match rv_discovery r with
  | None => None
  | Some d =>
      if (nodeID =? "")%string then None
      else match first_valid (d_ListEndpoints d nodeID true) with
           | Some a => Some a
           | None => first_valid (d_ListEndpoints d nodeID false)
           end
  end.

(* go: services/crossnode/resolver.go func:Resolver.resolveFromDiscovery *)
Definition resolveFromDiscovery (d : option Discovery) (serverID nodeID : string) : string :=
  match d with
  | None => ""
  | Some d =>
      let by_node :=
        if (nodeID =? "")%string then ""
        else match first_valid (d_ListEndpoints d nodeID true) with
             | Some a => a
             | None => default "" (first_valid (d_ListEndpoints d nodeID false))
             end in
      if (serverID =? "")%string then by_node
      else match find ep_healthy (d_ResolveAll d serverID) with
           | Some ep => addr_string (ep_address ep)
           | None => by_node
           end
  end.

(* go: services/crossnode/resolver.go func:Resolver.resolveFromStore *)
Definition resolveFromStore (r : Resolver) (serverID nodeID : string) : result string :=
  let host := resolveFromDiscovery (rv_discovery r) serverID nodeID in
  if negb (host =? "")%string then Ok host
  else
    match rv_store r with
    | None => Err (cat [ErrNoTarget; ": no resolution store for server "; quote serverID;
                        " node "; quote nodeID])
    | Some st =>
        let bound :=
          if (serverID =? "")%string then Ok nodeID
          else match s_GetServerNodeID st serverID with
               | Err err => Err (cat ["crossnode: lookup node for server "; quote serverID; ": "; err])
               | Ok nid => Ok (if (nid =? "")%string then nodeID else nid)
               end in
        match bound with
        | Err err => Err err
        | Ok nodeID =>
            if (nodeID =? "")%string then
              Err (cat [ErrNoTarget; ": server "; quote serverID; " is not bound to a node"])
            else
              match s_GetNodeHost st nodeID with
              | Err err => Err (cat ["crossnode: lookup host for node "; quote nodeID; ": "; err])
              | Ok (publicHostname, fqdn) =>
                  let host := TrimSpace publicHostname in
                  let host := if (host =? "")%string then TrimSpace fqdn else host in
                  if (host =? "")%string then
                    Err (cat [ErrNoTarget; ": node "; quote nodeID;
                              " has no public hostname or FQDN"])
                  else Ok host
              end
        end
    end.

(* go: services/crossnode/resolver.go func:Resolver.storeToCache *)
Definition storeToCache (r : Resolver) (cacheKey host : string) (now : Time) : Resolver :=
  if (host =? "")%string then r
  else
    let kept := filter (fun '(_, e) => Before now (en_ExpiresAt e) = true) (rv_cache r) in
    let kept := if maxCacheEntries <=? Z.of_nat (size kept) then ∅ else kept in
    set_cache (<[cacheKey := mkEntry host (time_add now (rv_cacheTTL r))]> kept) r.

(** [later] is what other calls do to the resolver between the cache lookup
    and the end of the store reads; [now1] and [now2] are the clock at the
    cache lookup and in [storeToCache]. *)
(* go: services/crossnode/resolver.go func:Resolver.ResolveTargetHost *)
Definition ResolveTargetHost (r : Resolver) (later : Resolver -> Resolver) (serverID nodeID : string)
    (now1 now2 : Time) : result string * Resolver :=
  if (serverID =? "")%string && (nodeID =? "")%string then (Err ErrNoTarget, r)
  else
    let cacheKey := cat [serverID; "/"; nodeID] in
    let cached :=
      match rv_cache r !! cacheKey with
      | Some entry => if Before now1 (en_ExpiresAt entry) then Some (en_Host entry) else None
      | None => None
      end in
    match cached with
    | Some host => (Ok host, r)
    | None =>
        let r := later r in
        match resolveFromStore r serverID nodeID with
        | Err err => (Err err, r)
        | Ok host => (Ok host, storeToCache r cacheKey host now2)
        end
    end.

(* go: services/crossnode/resolver.go func:Resolver.DescribeUnreachable *)
Definition DescribeUnreachable (host : string) (port : Z) : string :=
  cat ["backend "; host; ":"; itoa port;
       " was reported unreachable; node connectivity and container health are suggested causes, not a verified diagnosis"].

(** ** Lemmas *)

(** Every cached host is a host, and the cache stays under its ceiling. *)
Definition cache_ok (r : Resolver) : Prop :=
  Z.of_nat (size (rv_cache r)) <= maxCacheEntries /\
  forall k e, rv_cache r !! k = Some e -> en_Host e <> "".

Lemma resolveFromStore_host r serverID nodeID host :
  resolveFromStore r serverID nodeID = Ok host -> host <> "".
Proof.
  unfold resolveFromStore.
  destruct (String.eqb_spec (resolveFromDiscovery (rv_discovery r) serverID nodeID) "") as [E|E];
    cbn [negb]; [|by intros [= <-]].
  destruct (rv_store r) as [st|]; [|done].
  destruct (if (serverID =? "")%string then _ else _) as [n|]; [|done].
  destruct (n =? "")%string; [done|]. destruct (s_GetNodeHost st n) as [[p f]|]; [|done].
  set (h := if (TrimSpace p =? "")%string then _ else _).
  destruct (String.eqb_spec h "") as [Eh|Eh]; [done|]. by intros [= <-].
Qed.

Lemma storeToCache_ok r k host now : cache_ok r -> cache_ok (storeToCache r k host now).
Proof.
  intros [Hs Hh]. unfold storeToCache. destruct (String.eqb_spec host "") as [E|E]; [done|].
  set (kept := filter _ (rv_cache r)).
  set (kept' := if maxCacheEntries <=? Z.of_nat (size kept) then ∅ else kept).
  assert (Hk : Z.of_nat (size kept') < maxCacheEntries /\
               forall k e, kept' !! k = Some e -> en_Host e <> "").
  { subst kept'. destruct (Z.leb_spec maxCacheEntries (Z.of_nat (size kept))).
    - rewrite map_size_empty. split; [done|]. intros ? ?. by rewrite lookup_empty.
    - split; [done|]. intros k' e [He _]%map_lookup_filter_Some. eauto. }
  destruct Hk as [H1 H2]. unfold cache_ok. cbn [rv_cache set_cache]. split.
  - rewrite map_size_insert. case_match; unfold id; lia.
  - intros k' e [[<- <-]|[_ He]]%lookup_insert_Some; [done|eauto].
Qed.

(** One operation of the resolver. *)
Inductive resolver_step : Resolver -> Resolver -> Prop :=
| rv_resolve r k host now : resolver_step r (storeToCache r k host now)
| rv_clear r : resolver_step r (ClearCache r)
| rv_ttl r ttl : resolver_step r (SetCacheTTL r ttl)
| rv_discover r d : resolver_step r (SetServiceDiscovery r d).

Lemma cache_ok_step r r' : resolver_step r r' -> cache_ok r -> cache_ok r'.
Proof.
  intros [] H; [by apply storeToCache_ok| |done|done].
  split; [vm_compute; discriminate|]. intros k e. cbn. by rewrite lookup_empty.
Qed.

Lemma cache_ok_reachable store r : rtc resolver_step (NewResolver store) r -> cache_ok r.
Proof.
  intros H. assert (H0 : cache_ok (NewResolver store)).
  { split; [vm_compute; discriminate|]. intros k e. cbn. by rewrite lookup_empty. }
  induction H; eauto using cache_ok_step.
Qed.

(** ** Properties *)

(** There is no fallback host.  Whatever the caches, stores and
    concurrent calls, a successful resolution names a host that is not empty,
    and a request for neither a server nor a node is an error. *)
Lemma ResolveTargetHost_never_empty store r later serverID nodeID now1 now2 host r' :
  rtc resolver_step (NewResolver store) r ->
  ResolveTargetHost r later serverID nodeID now1 now2 = (Ok host, r') ->
  host <> "" /\ (serverID <> "" \/ nodeID <> "").
Proof.
  intros [_ Hc]%cache_ok_reachable. unfold ResolveTargetHost.
  destruct (String.eqb_spec serverID "") as [E1|E1], (String.eqb_spec nodeID "") as [E2|E2];
    cbn [andb]; try done; intros H; (split; [|tauto]); revert H;
    (destruct (rv_cache r !! _) as [e|] eqn:Ec; [destruct (Before now1 (en_ExpiresAt e))|]);
    try (intros [= <- _]; by eapply Hc);
    (destruct (resolveFromStore _ _ _) as [h|] eqn:Er; [|done]); intros [= <- _];
    by eapply resolveFromStore_host.
Qed.

(** The cache is bounded and only answers while fresh.  After any
    operations it holds at most [maxCacheEntries] entries, and a host answered
    from it comes from an entry that had not expired at the lookup; a failed
    resolution leaves the cache as the store reads found it. *)
Lemma resolution_cache_sound store r later serverID nodeID now1 now2 :
  rtc resolver_step (NewResolver store) r ->
  Z.of_nat (size (rv_cache r)) <= maxCacheEntries /\
  match ResolveTargetHost r later serverID nodeID now1 now2 with
  | (Err _, r') => r' = r \/ r' = later r
  | (Ok host, r') =>
      (exists e, rv_cache r !! cat [serverID; "/"; nodeID] = Some e /\ en_Host e = host /\
                 now1 < en_ExpiresAt e /\ r' = r) \/
      (resolveFromStore (later r) serverID nodeID = Ok host /\
       rv_cache r' !! cat [serverID; "/"; nodeID]
         = Some (mkEntry host (now2 + rv_cacheTTL (later r))))
  end.
Proof.
  intros H. split; [by apply cache_ok_reachable in H as [? _]|]. unfold ResolveTargetHost.
  destruct (_ && _); [by left|]. set (k := cat [serverID; "/"; nodeID]).
  assert (Hmiss : match (match resolveFromStore (later r) serverID nodeID with
                         | Ok host => (Ok host, storeToCache (later r) k host now2)
                         | Err err => (Err err, later r) end) with
                  | (Err _, r') => r' = r \/ r' = later r
                  | (Ok host, r') => (exists e, rv_cache r !! k = Some e /\ en_Host e = host /\
                                         now1 < en_ExpiresAt e /\ r' = r) \/
                      (resolveFromStore (later r) serverID nodeID = Ok host /\
                       rv_cache r' !! k = Some (mkEntry host (now2 + rv_cacheTTL (later r)))) end).
  { destruct (resolveFromStore (later r) serverID nodeID) as [h|] eqn:E; [|by right]. right. split; [done|].
    pose proof (resolveFromStore_host _ _ _ _ E) as Hne. unfold storeToCache.
    destruct (String.eqb_spec h ""); [done|]. cbn [rv_cache set_cache]. by rewrite lookup_insert_eq. }
  destruct (rv_cache r !! k) as [e|] eqn:Ec; [|exact Hmiss].
  destruct (Before now1 (en_ExpiresAt e)) eqn:Eb; [|exact Hmiss].
  left. exists e. zb. done.
Qed.

Definition witness_store : ResolutionStore :=
  mkResolutionStore
    (fun s => if (s =? "srv")%string then Ok "node1" else Err "not found")
    (fun n => if (n =? "node1")%string then Ok ("  ", " n1.example.com ") else Err "not found").

Lemma ResolveTargetHost_never_empty_witness :
  let r := NewResolver (Some witness_store) in
  exists r', ResolveTargetHost r (fun r => r) "srv" "" 0 0 = (Ok "n1.example.com", r') /\
    "n1.example.com" <> "".
Proof.
  eexists. split; [vm_compute; reflexivity|].
  apply (ResolveTargetHost_never_empty (Some witness_store) (NewResolver (Some witness_store))
           (fun r => r) "srv" "" 0 0 "n1.example.com" (ResolveTargetHost (NewResolver (Some witness_store))
             (fun r => r) "srv" "" 0 0).2); [apply rtc_refl|vm_compute; reflexivity].
Defined.

Lemma resolution_cache_sound_witness :
  let r := storeToCache (NewResolver (Some witness_store)) "srv/" "n1.example.com" 0 in
  (ResolveTargetHost r (fun r => r) "srv" "" Second Second).1 = Ok "n1.example.com" /\
  Z.of_nat (size (rv_cache r)) <= maxCacheEntries.
Proof.
  split; [vm_compute; reflexivity|].
  refine (proj1 (resolution_cache_sound (Some witness_store) _ (fun r => r) "srv" "" Second Second _)).
  eapply rtc_l; [apply rv_resolve|apply rtc_refl].
Defined.
