(* ===== verification/Reconciler.v ===== *)
(** * Reconciliation: differences and drift

    [forge/api/internal/services/reconciler/snapshot.go], [diff.go] and
    [drift.go]: the difference between a desired and an observed snapshot of
    one resource, the drift records made from differences, and the plan.  A
    [map[string]any] of details is a [gmap] of the two types the code stores
    in it; the clock is an argument. *)
From Stdlib Require Import ZArith Lia.
From stdpp Require Import base gmap strings list fin_maps.
From S2P Require Import Prelude GoStrings GoSort.
#[local] Open Scope string_scope.
#[local] Open Scope list_scope.
#[local] Open Scope Z_scope.

(** ** Data *)

(* go: services/reconciler/snapshot.go L12-12 *)
Definition ResourceKindServer : string := "server".
(* go: services/reconciler/snapshot.go L13-13 *)
Definition ResourceKindNode : string := "node".
(* go: services/reconciler/snapshot.go L16-16 *)
Definition ResourceKindComposeStack : string := "compose_stack".

(* go: services/reconciler/snapshot.go type:ComposeDesiredState *)
Record ComposeDesiredState := mkComposeDesired {
  cd_ComposeYAML : string; cd_ComposeHash : string; cd_Status : string
}.

(* go: services/reconciler/snapshot.go type:ComposeObservedServiceInfo *)
Record ComposeObservedServiceInfo := mkComposeService {
  cs_Name : string; cs_Image : string; cs_Status : string; cs_State : string
}.

(* go: services/reconciler/snapshot.go type:ComposeObservedState *)
Record ComposeObservedState := mkComposeObserved {
  co_Status : string; co_Services : list ComposeObservedServiceInfo
}.

(* go: services/reconciler/snapshot.go type:DesiredStateSnapshot *)
Record DesiredStateSnapshot := mkDesired {
  ds_ResourceID : string; ds_ResourceKind : string;
  ds_ServerState : option string; ds_NodeState : option string;
  ds_ComposeState : option ComposeDesiredState;
  ds_ConfigHash : string; ds_Generation : Z; ds_TakenAt : Time
}.

(* go: services/reconciler/snapshot.go type:ObservedStateSnapshot *)
Record ObservedStateSnapshot := mkObserved {
  os_ResourceID : string; os_ResourceKind : string;
  os_ServerState : option string; os_NodeState : option string;
  os_ComposeState : option ComposeObservedState;
  os_ConfigHash : string; os_Generation : Z; os_TakenAt : Time
}.

(* go: services/reconciler/snapshot.go L67-67 *)
Definition DiffCreate : string := "create".
(* go: services/reconciler/snapshot.go L68-68 *)
Definition DiffUpdate : string := "update".
(* go: services/reconciler/snapshot.go L69-69 *)
Definition DiffDelete : string := "delete".
(* go: services/reconciler/snapshot.go L70-70 *)
Definition DiffNoOp : string := "noop".

(** The dynamic types stored in a details map. *)
Inductive detail : Type := DString (s : string) | DBool (b : bool).

(* go: services/reconciler/snapshot.go type:ReconcileDiff *)
Record ReconcileDiff := mkDiff {
  df_ResourceID : string; df_ResourceKind : string; df_DiffType : string;
  df_DesiredHash : string; df_ObservedHash : string; df_Description : string;
  df_Details : option (gmap string detail)
}.

(* go: services/reconciler/snapshot.go L86-86 *)
Definition DriftConfigMismatch : string := "config_drift".
(* go: services/reconciler/snapshot.go L87-87 *)
Definition DriftMissingResource : string := "missing_resource".
(* go: services/reconciler/snapshot.go L88-88 *)
Definition DriftOrphanedResource : string := "orphaned_resource".
(* go: services/reconciler/snapshot.go L89-89 *)
Definition DriftStateMismatch : string := "state_mismatch".

(** A details map of a drift may hold nil values: the keys are always there. *)
(* go: services/reconciler/snapshot.go type:DriftRecord *)
Record DriftRecord := mkDrift {
  dr_ResourceID : string; dr_ResourceKind : string; dr_DriftKind : string;
  dr_Desired : string; dr_Observed : string; dr_Severity : string; dr_DetectedAt : Time;
  dr_Details : option (gmap string (option detail))
}.

(* go: services/reconciler/snapshot.go type:ReconcilePlan *)
Record ReconcilePlan := mkPlan {
  pl_ID : string; pl_ResourceID : string; pl_ResourceKind : string;
  pl_Diffs : list ReconcileDiff; pl_Drifts : list DriftRecord;
  pl_Destructive : bool; pl_Confirmed : bool; pl_CreatedAt : Time; pl_ExecutedAt : option Time
}.

(** ** Differences *)

(* go: services/reconciler/diff.go func:computeServerDiffs *)
Definition computeServerDiffs (desired : DesiredStateSnapshot) (observed : ObservedStateSnapshot)
    : list ReconcileDiff :=
  let id := ds_ResourceID desired in
  let dh := ds_ConfigHash desired in
  let oh := os_ConfigHash observed in
  match ds_ServerState desired, os_ServerState observed with
  | None, None => []
  | Some d, None =>
      [mkDiff id ResourceKindServer DiffCreate dh ""
         (cat ["server "; id; ": desired "; d; ", no observed state (create)"]) None]
  | None, Some o =>
      [mkDiff (os_ResourceID observed) ResourceKindServer DiffDelete "" oh
         (cat ["server "; os_ResourceID observed; ": no desired state, observed "; o; " (delete)"]) None]
  | Some d, Some o =>
      let changed := negb (dh =? oh)%string in
      if negb (d =? o)%string then
        [mkDiff id ResourceKindServer DiffUpdate dh oh
           (cat ["server "; id; ": desired "; d; ", observed "; o;
                 if changed then " (config changed)" else ""])
           (Some (<[ "desiredState" := DString d ]> (<[ "observedState" := DString o ]>
                   {[ "configChanged" := DBool changed ]})))]
      else if changed then
        [mkDiff id ResourceKindServer DiffUpdate dh oh
           (cat ["server "; id; ": state matches but configuration differs"])
           (Some (<[ "desiredState" := DString d ]> (<[ "observedState" := DString o ]>
                   {[ "configChanged" := DBool true ]})))]
      else
        [mkDiff id ResourceKindServer DiffNoOp dh oh (cat ["server "; id; ": in sync"]) None]
  end.

(* go: services/reconciler/diff.go func:computeNodeDiffs *)
Definition computeNodeDiffs (desired : DesiredStateSnapshot) (observed : ObservedStateSnapshot)
    : list ReconcileDiff :=
  let id := ds_ResourceID desired in
  let dh := ds_ConfigHash desired in
  let oh := os_ConfigHash observed in
  match ds_NodeState desired, os_NodeState observed with
  | Some d, None =>
      [mkDiff id ResourceKindNode DiffCreate dh ""
         (cat ["node "; id; ": desired "; d; ", no observed state (register)"]) None]
  | None, Some o =>
      [mkDiff (os_ResourceID observed) ResourceKindNode DiffDelete "" oh
         (cat ["node "; os_ResourceID observed; ": no desired state, observed "; o; " (deregister)"]) None]
  | Some d, Some o =>
      if negb (d =? o)%string then
        [mkDiff id ResourceKindNode DiffUpdate dh oh
           (cat ["node "; id; ": desired "; d; ", observed "; o])
           (Some (<[ "desiredState" := DString d ]> {[ "observedState" := DString o ]}))]
      else if negb (dh =? oh)%string then
        [mkDiff id ResourceKindNode DiffUpdate dh oh
           (cat ["node "; id; ": state matches but configuration differs"])
           (Some {[ "configChanged" := DBool true ]})]
      else
        [mkDiff id ResourceKindNode DiffNoOp dh oh (cat ["node "; id; ": in sync"]) None]
  | None, None => []
  end.

(* go: services/reconciler/diff.go func:computeComposeDiffs *)
Definition computeComposeDiffs (desired : DesiredStateSnapshot) (observed : ObservedStateSnapshot)
    : list ReconcileDiff :=
  let id := ds_ResourceID desired in
  let dh := ds_ConfigHash desired in
  let oh := os_ConfigHash observed in
  match ds_ComposeState desired, os_ComposeState observed with
  | None, None =>
      [mkDiff id ResourceKindComposeStack DiffNoOp "" ""
         (cat ["compose stack "; id; ": no state available"]) None]
  | Some _, None =>
      [mkDiff id ResourceKindComposeStack DiffCreate dh ""
         (cat ["compose stack "; id; ": desired exists, no observed state (create)"]) None]
  | None, Some _ =>
      [mkDiff id ResourceKindComposeStack DiffDelete "" oh
         (cat ["compose stack "; id; ": no desired state, observed exists (delete)"]) None]
  | Some d, Some o =>
      let desiredStatus := cd_Status d in
      let observedStatus := co_Status o in
      let hashChanged := negb (dh =? oh)%string in
      if negb (desiredStatus =? observedStatus)%string || hashChanged then
        [mkDiff id ResourceKindComposeStack DiffUpdate dh oh
           (cat ["compose stack "; id; ": desired status "; desiredStatus; ", observed status ";
                 observedStatus; if hashChanged then " (config changed)" else ""])
           (Some (<[ "desiredStatus" := DString desiredStatus ]>
                   (<[ "observedStatus" := DString observedStatus ]>
                     {[ "configChanged" := DBool hashChanged ]})))]
      else
        [mkDiff id ResourceKindComposeStack DiffNoOp dh oh
           (cat ["compose stack "; id; ": in sync"]) None]
  end.

(* go: services/reconciler/diff.go func:computeDiffs *)
Definition computeDiffs (desired : DesiredStateSnapshot) (observed : ObservedStateSnapshot)
    : list ReconcileDiff :=
  let kind := ds_ResourceKind desired in
  if negb (kind =? os_ResourceKind observed)%string then []
  else if (kind =? ResourceKindServer)%string then computeServerDiffs desired observed
  else if (kind =? ResourceKindNode)%string then computeNodeDiffs desired observed
  else if (kind =? ResourceKindComposeStack)%string then computeComposeDiffs desired observed
  else [].

(** ** Plans *)

(* go: services/reconciler/diff.go func:generatePlan *)
Definition generatePlan (resourceID resourceKind : string) (diffs : list ReconcileDiff)
    (drifts : list DriftRecord) : ReconcilePlan :=
  mkPlan "" resourceID resourceKind diffs drifts
    (existsb (fun diff => df_DiffType diff =? DiffDelete)%string diffs) false zeroTime None.

(* go: services/reconciler/drift.go func:isDestructiveAction *)
Definition isDestructiveAction (diff : ReconcileDiff) : bool :=
  (df_DiffType diff =? DiffDelete)%string.

(* go: services/reconciler/drift.go func:requiresConfirmation *)
Definition requiresConfirmation (diffs : list ReconcileDiff) : bool :=
  existsb isDestructiveAction diffs.

(* go: services/reconciler/drift.go func:hasClustersDiverged *)
Definition hasClustersDiverged (desiredGen observedGen : Z) : bool := observedGen <? desiredGen.

(* go: services/reconciler/diff.go type:ResourceDiffSummary *)
Record ResourceDiffSummary := mkSummary {
  su_TotalDiffs : Z; su_Creates : Z; su_Updates : Z; su_Deletes : Z; su_NoOps : Z
}.

(* go: services/reconciler/diff.go func:diffSummaries *)
Definition diffSummaries (diffs : list ReconcileDiff) : ResourceDiffSummary :=
  let count ty := sum_by (fun d => if (df_DiffType d =? ty)%string then 1 else 0) diffs in
  mkSummary (Z.of_nat (length diffs)) (count DiffCreate) (count DiffUpdate) (count DiffDelete)
    (count DiffNoOp).

(* go: services/reconciler/diff.go func:driftSummaries *)
Definition driftSummaries (drifts : list DriftRecord) : Z * Z * Z :=
  let count ty := sum_by (fun d => if (dr_DriftKind d =? ty)%string then 1 else 0) drifts in
  (count DriftConfigMismatch, count DriftMissingResource, count DriftOrphanedResource).

(** A type outside the four reads as zero from the order map. *)
(* go: services/reconciler/diff.go L359-364 *)
Definition diff_order (ty : string) : Z :=
  if (ty =? DiffDelete)%string then 0
  else if (ty =? DiffUpdate)%string then 1
  else if (ty =? DiffCreate)%string then 2
  else if (ty =? DiffNoOp)%string then 3
  else 0.

(* go: services/reconciler/diff.go L365-369 *)
Definition diff_less (a b : ReconcileDiff) : bool :=
  let oa := diff_order (df_DiffType a) in
  let ob := diff_order (df_DiffType b) in
  if negb (oa =? ob) then oa <? ob else str_lt (df_ResourceID a) (df_ResourceID b).

(* go: services/reconciler/diff.go func:sortDiffsByType *)
Definition sortDiffsByType (diffs : list ReconcileDiff) : list ReconcileDiff := isort diff_less diffs.

(** ** Drift *)

(** Reading a details map: a missing key is nil, and a type assertion of the
    wrong type yields the zero value. *)
Definition detail_at (d : option (gmap string detail)) (k : string) : option detail :=
  m ← d; m !! k.

Definition as_bool (v : option detail) : bool :=
  match v with Some (DBool b) => b | _ => false end.

Definition as_string (v : option detail) : string :=
  match v with Some (DString s) => s | _ => "" end.

(** [%v]. *)
Definition fmt_v (v : option detail) : string :=
  match v with
  | None => "<nil>"
  | Some (DString s) => s
  | Some (DBool b) => if b then "true" else "false"
  end.

(** The records of one update. *)
(* go: services/reconciler/drift.go L15-55 *)
Definition update_drifts (now : Time) (diff : ReconcileDiff) : list DriftRecord :=
  let at_ k := detail_at (df_Details diff) k in
  let config :=
    if as_bool (at_ "configChanged") then
      [mkDrift (df_ResourceID diff) (df_ResourceKind diff) DriftConfigMismatch
         (df_DesiredHash diff) (df_ObservedHash diff) "warning" now
         (Some (<[ "desiredState" := at_ "desiredState" ]>
                 {[ "observedState" := at_ "observedState" ]}))]
    else [] in
  let d := as_string (at_ "desiredState") in
  let o := as_string (at_ "observedState") in
  let d := if (d =? "")%string then as_string (at_ "desiredStatus") else d in
  let o := if (o =? "")%string then as_string (at_ "observedStatus") else o in
  let stateChanged := negb (d =? "")%string && negb (o =? "")%string && negb (d =? o)%string in
  let state :=
    if stateChanged then
      [mkDrift (df_ResourceID diff) (df_ResourceKind diff) DriftStateMismatch
         (fmt_v (at_ "desiredState")) (fmt_v (at_ "observedState")) "high" now None]
    else [] in
  config ++ state.

(* go: services/reconciler/drift.go func:Service.detectDrift *)
Definition detectDrift (now : Time) (diffs : list ReconcileDiff) : list DriftRecord :=
  flat_map (fun diff =>
    if (df_DiffType diff =? DiffUpdate)%string then update_drifts now diff
    else if (df_DiffType diff =? DiffCreate)%string then
      [mkDrift (df_ResourceID diff) (df_ResourceKind diff) DriftMissingResource "exists" "not_found"
         "critical" now None]
    else if (df_DiffType diff =? DiffDelete)%string then
      [mkDrift (df_ResourceID diff) (df_ResourceKind diff) DriftOrphanedResource "absent" "exists"
         "high" now None]
    else []) diffs.

(** [plans] answers the store: the states of the resource's plans. *)
(* go: services/reconciler/drift.go func:Service.ensureNoDuplicateReconcile *)
Definition ensureNoDuplicateReconcile (plans : result (list string)) : bool :=
  match plans with
  | Err _ => false
  | Ok states =>
      forallb (fun st => negb ((st =? "pending")%string || (st =? "executing")%string)) states
  end.

(* go: services/reconciler/drift.go func:classifyDrift *)
Definition classifyDrift (drift : DriftRecord) : string :=
  let k := dr_DriftKind drift in
  if (k =? DriftConfigMismatch)%string then "configuration drift"
  else if (k =? DriftMissingResource)%string then "missing resource"
  else if (k =? DriftOrphanedResource)%string then "orphaned resource"
  else if (k =? DriftStateMismatch)%string then "state mismatch"
  else "unknown".

(** ** The abstract specification

    What a snapshot says about its resource, whatever its kind: the desired
    and the observed state, if any. *)
Definition desired_state (d : DesiredStateSnapshot) : option string :=
  if (ds_ResourceKind d =? ResourceKindServer)%string then ds_ServerState d
  else if (ds_ResourceKind d =? ResourceKindNode)%string then ds_NodeState d
  else cd_Status <$> ds_ComposeState d.

Definition observed_state (o : ObservedStateSnapshot) : option string :=
  if (os_ResourceKind o =? ResourceKindServer)%string then os_ServerState o
  else if (os_ResourceKind o =? ResourceKindNode)%string then os_NodeState o
  else co_Status <$> os_ComposeState o.

Definition known_kind (k : string) : Prop :=
  k = ResourceKindServer \/ k = ResourceKindNode \/ k = ResourceKindComposeStack.

(** The one action that reconciles the two. *)
Definition action (d o : option string) (hashes_differ : bool) : option string :=
  match d, o with
  | Some _, None => Some DiffCreate
  | None, Some _ => Some DiffDelete
  | Some a, Some b => Some (if (a =? b)%string then if hashes_differ then DiffUpdate else DiffNoOp
                            else DiffUpdate)
  | None, None => None
  end.

Definition hashes_differ (d : DesiredStateSnapshot) (o : ObservedStateSnapshot) : bool :=
  bool_decide (ds_ConfigHash d <> os_ConfigHash o).

(** The drift kinds a difference stands for. *)
Definition drift_kinds (kind : string) (d o : option string) (hashes_differ : bool) : list string :=
  match d, o with
  | Some _, None => [DriftMissingResource]
  | None, Some _ => [DriftOrphanedResource]
  | Some a, Some b =>
      (if hashes_differ && negb ((kind =? ResourceKindNode)%string && negb (a =? b)%string)
       then [DriftConfigMismatch] else []) ++
      (if (a =? b)%string then [] else [DriftStateMismatch])
  | None, None => []
  end.

(** ** Lemmas *)

Lemma negb_eqb_hash d o :
  negb (ds_ConfigHash d =? os_ConfigHash o)%string = hashes_differ d o.
Proof.
  unfold hashes_differ. destruct (String.eqb_spec (ds_ConfigHash d) (os_ConfigHash o)) as [E|E]; simpl;
    [by rewrite bool_decide_false by naive_solver|by rewrite bool_decide_true].
Qed.

Definition drifts_of (diffs : list ReconcileDiff) : list string :=
  map dr_DriftKind (detectDrift 0 diffs).

(** Evaluates the look-ups in a details map with literal keys. *)
Ltac eval_details :=
  repeat match goal with
  | |- context [@lookup string detail ?M ?I ?k ?m] =>
      let v := eval vm_compute in (@lookup string detail M I k m) in
      change (@lookup string detail M I k m) with v
  end.

(** The specification of one kind's difference function. *)
Definition reconciles (kind : string) (diffs : list ReconcileDiff) (d o : option string) (h : bool) : Prop :=
  match action d o h with
  | Some ty => exists diff, diffs = [diff] /\ df_DiffType diff = ty
  | None => forall diff, diff ∈ diffs -> df_DiffType diff = DiffNoOp
  end /\
  (d <> Some "" -> o <> Some "" -> drifts_of diffs = drift_kinds kind d o h).

Lemma server_reconciles d o :
  reconciles ResourceKindServer (computeServerDiffs d o) (ds_ServerState d) (os_ServerState o)
    (hashes_differ d o).
Proof.
  unfold reconciles, action, drift_kinds, computeServerDiffs. rewrite negb_eqb_hash.
  destruct (ds_ServerState d) as [a|], (os_ServerState o) as [b|]; (split; [|intros Ha Hb]);
    try (by eexists); try done; try set_solver.
  - destruct (a =? b)%string, (hashes_differ d o); by eexists.
  - assert (a <> "" /\ b <> "") as [Ha' Hb'] by naive_solver.
    destruct (a =? b)%string eqn:E, (hashes_differ d o);
      unfold drifts_of, detectDrift, update_drifts; cbn -[String.eqb lookup]; eval_details; cbn [as_string as_bool];
      rewrite ?String.eqb_refl; cbn -[String.eqb];
      rewrite ?(proj2 (String.eqb_neq a "") Ha'), ?(proj2 (String.eqb_neq b "") Hb'), ?E; try done.
Qed.

Lemma node_reconciles d o :
  reconciles ResourceKindNode (computeNodeDiffs d o) (ds_NodeState d) (os_NodeState o)
    (hashes_differ d o).
Proof.
  unfold reconciles, action, drift_kinds, computeNodeDiffs. rewrite negb_eqb_hash.
  destruct (ds_NodeState d) as [a|], (os_NodeState o) as [b|]; (split; [|intros Ha Hb]);
    try (by eexists); try done; try set_solver.
  - destruct (a =? b)%string, (hashes_differ d o); by eexists.
  - assert (a <> "" /\ b <> "") as [Ha' Hb'] by naive_solver.
    destruct (a =? b)%string eqn:E, (hashes_differ d o);
      unfold drifts_of, detectDrift, update_drifts; cbn -[String.eqb lookup]; eval_details; cbn [as_string as_bool];
      rewrite ?String.eqb_refl; cbn -[String.eqb];
      rewrite ?(proj2 (String.eqb_neq a "") Ha'), ?(proj2 (String.eqb_neq b "") Hb'), ?E; try done.
Qed.

Lemma compose_reconciles d o :
  reconciles ResourceKindComposeStack (computeComposeDiffs d o)
    (cd_Status <$> ds_ComposeState d) (co_Status <$> os_ComposeState o) (hashes_differ d o).
Proof.
  unfold reconciles, action, drift_kinds, computeComposeDiffs. rewrite negb_eqb_hash.
  destruct (ds_ComposeState d) as [x|], (os_ComposeState o) as [y|];
    cbn [fmap option_fmap option_map]; (split; [|intros Ha Hb]); try (by eexists); try done; try set_solver;
    set (a := cd_Status x) in *; set (b := co_Status y) in *.
  - destruct (a =? b)%string, (hashes_differ d o); by eexists.
  - clearbody a b. assert (a <> "" /\ b <> "") as [Ha' Hb'] by naive_solver.
    destruct (a =? b)%string eqn:E, (hashes_differ d o);
      unfold drifts_of, detectDrift, update_drifts; cbn -[String.eqb lookup]; eval_details; cbn [as_string as_bool];
      rewrite ?String.eqb_refl; cbn -[String.eqb];
      rewrite ?(proj2 (String.eqb_neq a "") Ha'), ?(proj2 (String.eqb_neq b "") Hb'), ?E; done.
Qed.

(** ** Properties *)

(** The difference of two snapshots is the one action that reconciles
    them.  For a server, a node or a compose stack, [computeDiffs] asks for a
    creation when only the desired state exists, a deletion when only the
    observed one does, an update when both exist and the states or the
    configuration hashes differ, and nothing to do otherwise; snapshots of
    different kinds have no difference. *)
Lemma computeDiffs_correct d o :
  known_kind (ds_ResourceKind d) ->
  (ds_ResourceKind d <> os_ResourceKind o -> computeDiffs d o = []) /\
  (ds_ResourceKind d = os_ResourceKind o ->
   match action (desired_state d) (observed_state o) (hashes_differ d o) with
   | Some ty => exists diff, computeDiffs d o = [diff] /\ df_DiffType diff = ty
   | None => forall diff, diff ∈ computeDiffs d o -> df_DiffType diff = DiffNoOp
   end).
Proof.
  intros Hk. unfold computeDiffs, desired_state, observed_state. split.
  { intros Hne. by rewrite (proj2 (String.eqb_neq _ _) Hne). }
  intros He. rewrite <- He, String.eqb_refl. cbn [negb].
  destruct Hk as [Hk|[Hk|Hk]]; rewrite Hk; cbn [String.eqb Ascii.eqb Bool.eqb];
    [apply server_reconciles|apply node_reconciles|apply compose_reconciles].
Qed.

(** Every difference leaves the drift records it stands for.  For
    snapshots of one known kind whose states are not empty strings, the
    records are a missing resource for a creation, an orphan for a deletion,
    nothing when in sync, and for an update a configuration drift when the
    hashes differ and a state mismatch when the states do (a node whose state
    and configuration both changed records only the state). *)
Lemma detectDrift_complete d o :
  known_kind (ds_ResourceKind d) -> ds_ResourceKind d = os_ResourceKind o ->
  desired_state d <> Some "" -> observed_state o <> Some "" ->
  drifts_of (computeDiffs d o)
  = drift_kinds (ds_ResourceKind d) (desired_state d) (observed_state o) (hashes_differ d o).
Proof.
  intros Hk He. unfold computeDiffs, desired_state, observed_state.
  rewrite <- He, String.eqb_refl. cbn [negb].
  destruct Hk as [Hk|[Hk|Hk]]; rewrite Hk; cbn [String.eqb Ascii.eqb Bool.eqb];
    [apply server_reconciles|apply node_reconciles|apply compose_reconciles].
Qed.

(** A plan is destructive exactly when it needs confirmation, and exactly
    when its drift records name an orphaned resource. *)
Lemma destructive_needs_confirmation id kind diffs now :
  let plan := generatePlan id kind diffs (detectDrift now diffs) in
  pl_Destructive plan = requiresConfirmation diffs /\
  (pl_Destructive plan = true <->
   exists dr, dr ∈ pl_Drifts plan /\ dr_DriftKind dr = DriftOrphanedResource).
Proof.
  split; [done|]. simpl. rewrite existsb_exists. split.
  - intros (diff & Hin & Ht). eexists. split.
    + apply list_elem_of_In, in_flat_map. exists diff. split; [done|].
      apply String.eqb_eq in Ht. rewrite Ht. simpl. by left.
    + done.
  - intros (dr & Hin & Hk). apply list_elem_of_In, in_flat_map in Hin as (diff & Hin & Hdr).
    exists diff. split; [done|]. revert Hdr.
    destruct (String.eqb_spec (df_DiffType diff) DiffUpdate); [|destruct (String.eqb_spec (df_DiffType diff) DiffCreate);
      [|destruct (String.eqb_spec (df_DiffType diff) DiffDelete); [done|done]]].
    + unfold update_drifts. intros [H|H]%in_app_or; revert H; case_match; simpl; try done;
        intros Hor; destruct Hor as [<-|[]]; done.
    + intros Hor. destruct Hor as [<-|[]]. done.
Qed.

Definition witness_desired (st hash : string) : DesiredStateSnapshot :=
  mkDesired "srv1" ResourceKindServer (Some st) None None hash 1 0.
Definition witness_observed (st hash : string) : ObservedStateSnapshot :=
  mkObserved "srv1" ResourceKindServer (Some st) None None hash 1 0.

Lemma computeDiffs_correct_witness :
  exists diff, computeDiffs (witness_desired "running" "h1") (witness_observed "running" "h2") = [diff] /\
    df_DiffType diff = DiffUpdate.
Proof.
  refine (proj2 (computeDiffs_correct (witness_desired "running" "h1") (witness_observed "running" "h2") _) _);
    [by left|reflexivity].
Defined.

Lemma detectDrift_complete_witness :
  drifts_of (computeDiffs (witness_desired "running" "h1") (witness_observed "stopped" "h2"))
  = [DriftConfigMismatch; DriftStateMismatch].
Proof.
  refine (eq_trans (detectDrift_complete (witness_desired "running" "h1") (witness_observed "stopped" "h2")
                      _ _ _ _) _); [by left|reflexivity|done|done|reflexivity].
Defined.

(** ** What the model shows *)

(** The state mismatch of a compose stack is recorded between nil and nil:
    the record reads the server's detail keys, the stack uses others. *)
Lemma compose_state_drift_is_nil :
  let d := mkDesired "c" ResourceKindComposeStack None None (Some (mkComposeDesired "" "" "running")) "h" 1 0 in
  let o := mkObserved "c" ResourceKindComposeStack None None (Some (mkComposeObserved "stopped" [])) "h" 1 0 in
  map (fun dr => (dr_DriftKind dr, dr_Desired dr, dr_Observed dr)) (detectDrift 0 (computeDiffs d o))
  = [(DriftStateMismatch, "<nil>", "<nil>")].
Proof. vm_compute. reflexivity. Qed.

(** A node whose state and configuration both changed records no
    configuration drift. *)
Lemma node_config_drift_missed :
  let d := mkDesired "n" ResourceKindNode None (Some "online") None "h1" 1 0 in
  let o := mkObserved "n" ResourceKindNode None (Some "offline") None "h2" 1 0 in
  drifts_of (computeDiffs d o) = [DriftStateMismatch].
Proof. vm_compute. reflexivity. Qed.
