(* ===== verification/DeployStore.v ===== *)
(** * The deployment tables

    [forge/api/internal/store/store_deployments.go],
    [store_deployment_steps.go] and [store_deployment_revisions.go]: the rows
    of a deployment, its steps and its revisions, and the SQL statements the
    deployment service runs on them, as functions on the three tables.  The
    constraints of the schema are part of the statements: primary keys, one
    active deployment per server, one step per number, one revision per number
    and the foreign keys of the inserts.

    A statement runs in an environment: other writers may change the tables
    before it, it may fail before or after taking effect, and the clock moves.
    The environment is indexed by the number of external calls made so far, so
    it describes every possible run. *)
From Stdlib Require Import ZArith Lia.
From stdpp Require Import base gmap strings list fin_maps.
From coqutil Require Import Datatypes.RecordSettersUsingExistingGetters.
From S2P Require Import Prelude GoStrings GoSort.
Import RecordSetNotations1.
#[local] Open Scope string_scope.
#[local] Open Scope list_scope.
#[local] Open Scope Z_scope.
#[local] Open Scope go_scope.

(** ** Rows *)

(** [executor_id] is read as [COALESCE(executor_id, '')]: "" is NULL. *)
(* go: store/store_deployments.go type:Deployment *)
Record Deployment := mkDeployment {
  dp_ID : string;
  dp_ServerID : string;
  dp_Strategy : string;
  dp_Status : string;
  dp_Image : string;
  dp_BlueTargetID : string;
  dp_GreenTargetID : string;
  dp_ActiveTarget : string;
  dp_HealthCheckPath : string;
  dp_HealthCheckPort : Z;
  dp_HealthCheckHost : string;
  dp_Error : string;
  dp_CurrentRevisionID : option string;
  dp_RolloutStrategy : string;
  dp_TimeoutSeconds : Z;
  dp_HealthGateEnabled : bool;
  dp_HealthGateThreshold : Z;
  dp_HealthGateIntervalMs : Z;
  dp_AutoRollbackEnabled : bool;
  dp_RollbackOnHealthFailure : bool;
  dp_CleanupOnFailure : bool;
  dp_TargetReplicas : Z;
  dp_ProgressPct : Z;
  dp_NextStep : Z;
  dp_TimeoutAt : option Time;
  dp_ExecutorID : string;
  dp_ExecutionLeaseUntil : option Time;
  dp_Version : Z;
  dp_CreatedAt : Time;
  dp_UpdatedAt : Time;
  dp_CompletedAt : option Time
}.

(* go: store/store_deployment_steps.go type:DeploymentStep *)
Record DeploymentStep := mkDeploymentStep {
  ds_ID : string;
  ds_DeploymentID : string;
  ds_StepNumber : Z;
  ds_StepName : string;
  ds_Status : string;
  ds_StartedAt : option Time;
  ds_CompletedAt : option Time;
  ds_Error : string;
  ds_CreatedAt : Time;
  ds_UpdatedAt : Time
}.

(* go: store/store_deployment_revisions.go type:DeploymentRevision *)
Record DeploymentRevision := mkDeploymentRevision {
  dr_ID : string;
  dr_DeploymentID : string;
  dr_RevisionNumber : Z;
  dr_ImageRef : string;
  dr_ComposeManifestRef : string;
  dr_GitCommitSHA : string;
  dr_ConfigHash : string;
  dr_Status : string;
  dr_DeployedAt : option Time;
  dr_Description : string;
  dr_Metadata : string;
  dr_CreatedAt : Time;
  dr_UpdatedAt : Time
}.

Record Tables := mkTables {
  tb_deployments : gmap string Deployment;
  tb_steps : list DeploymentStep;
  tb_revisions : list DeploymentRevision
}.

(* go: store/store_deployments.go L12-12 *)
Definition ErrDeploymentInProgress : string := "deployment already in progress for this server".
(* go: store/store_deployments.go L17-17 *)
Definition ErrDeploymentNotFound : string := "deployment not found".
(* go: store/store_deployments.go L214-214 *)
Definition ErrVersionConflict : string :=
  "version conflict: deployment was modified by another operation".
(* go: store/store_deployment_steps.go L12-12 *)
Definition ErrDeploymentStepNotFound : string := "deployment step not found".
(* go: store/store_deployment_revisions.go L12-12 *)
Definition ErrDeploymentRevisionNotFound : string := "deployment revision not found".

(** What a scan of no row answers. *)
Definition ErrNoRows : string := "no rows in result set".
Definition ErrUnique : string := "duplicate key value violates unique constraint".
Definition ErrForeignKey : string := "insert or update violates foreign key constraint".

(** ** The environment of a run *)

(** What is observable outside the tables: the answers of the node, the
    gateway and the health checks, the events, and the executions started in
    the background.  [Unasked] is a health check that passes because there is no
    endpoint to ask. *)
Inductive Effect :=
| Applied (server image : string)
| Shifted (server from to : string) (weight : Z)
| Checked (passed : bool)
| Unasked
| Published (event subject : string)
| Launched (resume : bool) (deployment : string).

(** [others n] is what other writers do to the tables before the [n]-th call;
    [fault n] says that the [n]-th call, a database call, reports an error
    although ([true]) or before ([false]) it took effect.  The other fields are
    the answers of the code that is not modelled: the runtime and traffic
    executors, the node a server runs on and the host of its URL, the health
    endpoint, how often the health gate's ticker wins against its deadline,
    the SHA-256 of a revision's JSON, and the standard library's URL and
    address parsers. *)
Record Env := mkEnv {
  others : nat -> Tables -> Tables;
  fault : nat -> option (string * bool);
  clock : nat -> Time;
  uuid : nat -> string;
  apply_deployment : nat -> error;
  verify_running : nat -> result bool;
  shift_traffic : nat -> error;
  verify_shift : nat -> result bool;
  control_target : nat -> result string;
  hostname_of : string -> result string;
  http_get : nat -> string -> result Z;
  gate_ticks : nat -> nat;
  config_hash : string -> string -> string;
  local_path : string -> bool;
  loopback : string -> bool
}.

Record World := mkWorld {
  w_tick : nat;
  w_tables : Tables;
  w_log : list Effect;
  w_executing : gset string
}.

(** A call that may fail: [bind] threads the world whatever the outcome, [try]
    returns early on an error, [wrap] is [fmt.Errorf("p: %w", err)]. *)
Definition M (A : Type) : Type := St World (result A).

Definition ok {A} (a : A) : M A := ret (Ok a).
Definition fail {A} (e : string) : M A := ret (Err e).

Definition try {A B} (m : M A) (k : A -> M B) : M B :=
  bind m (fun r => match r with Ok a => k a | Err e => fail e end).

Definition wrap {A} (prefix : string) (m : M A) : M A :=
  bind m (fun r => match r with Ok a => ok a | Err e => fail (cat [prefix; ": "; e]) end).

Notation "'let?' x := m 'in' k" := (try m (fun x => k))
  (at level 200, x binder, m at level 200, k at level 200, only parsing) : go_scope.

Definition emit (e : Effect) : St World unit := fun w => (tt, w <| w_log := w_log w ++ [e] |>).

Section Store.
Context (env : Env).

(** One external call: the world moves on, then [k] gets the call's number. *)
Definition call {A} (k : nat -> St World A) : St World A := fun w =>
  let n := w_tick w in
  k n (w <| w_tick := S n |> <| w_tables := others env n (w_tables w) |>).

Definition time_now : St World Time := call (fun n => ret (clock env n)).
Definition new_uuid : St World string := call (fun n => ret (uuid env n)).

(** A statement on the tables at the database's clock. *)
Definition Statement (A : Type) : Type := Time -> Tables -> result A * Tables.

Definition sql {A} (op : Statement A) : M A :=
  call (fun n w =>
    match fault env n with
    | Some (e, false) => (Err e, w)
    | Some (e, true) => (Err e, w <| w_tables := (op (clock env n) (w_tables w)).2 |>)
    | None => let '(r, tb) := op (clock env n) (w_tables w) in (r, w <| w_tables := tb |>)
    end).

(** ** Deployments *)

(** The predicate of the partial unique index on [deployments(server_id)]. *)
Definition active (status : string) : bool :=
  slices_contains ["pending"; "in_progress"; "provisioning"; "awaiting_health"; "promoting";
                   "rollback_pending"; "rolling_back"] status.

Definition rival (id : string) (d : Deployment) (row : string * Deployment) : bool :=
  active (dp_Status row.2) && (dp_ServerID row.2 =? dp_ServerID d)%string
  && negb (row.1 =? id)%string.

(** Writes the row of [id] unless the index forbids it. *)
Definition write_row (id : string) (d : Deployment) (tb : Tables) : result Tables :=
  if active (dp_Status d) && existsb (rival id d) (map_to_list (tb_deployments tb))
  then Err ErrUnique
  else Ok (tb <| tb_deployments := <[id := d]> (tb_deployments tb) |>).

(** [UPDATE deployments SET ... WHERE id = ... AND guard]; [none] is the error
    for no affected row. *)
Definition update_row (id : string) (guard : Deployment -> bool) (none : string)
    (f : Time -> Deployment -> Deployment) : Statement unit := fun now tb =>
  match tb_deployments tb !! id with
  | Some d =>
      if guard d then
        match write_row id (f now d) tb with
        | Ok tb' => (Ok tt, tb')
        | Err e => (Err e, tb)
        end
      else (Err none, tb)
  | None => (Err none, tb)
  end.

Definition always (d : Deployment) : bool := true.
Definition at_version (v : Z) (d : Deployment) : bool := dp_Version d =? v.
Definition or_keep (new old : string) : string := if (new =? "")%string then old else new.
Definition ends (status : string) : bool :=
  slices_contains ["completed"; "failed"; "rolled_back"; "cancelled"] status.

(** [version = version + 1, updated_at = now()] *)
Definition bump (now : Time) (d : Deployment) : Deployment :=
  d <| dp_Version := dp_Version d + 1 |> <| dp_UpdatedAt := now |>.

(* go: store/store_deployments.go func:Store.CreateDeployment *)
Definition CreateDeployment (d : Deployment) : M unit :=
  sql (fun _ tb =>
    let d := d <| dp_Version := 1 |> <| dp_ExecutorID := "" |> <| dp_ExecutionLeaseUntil := None |> in
    match tb_deployments tb !! dp_ID d with
    | Some _ => (Err ErrUnique, tb)
    | None =>
        match write_row (dp_ID d) d tb with
        | Ok tb' => (Ok tt, tb')
        | Err _ => (Err ErrDeploymentInProgress, tb)
        end
    end).

Definition read_row (id : string) : Statement Deployment := fun _ tb =>
  (match tb_deployments tb !! id with Some d => Ok d | None => Err ErrNoRows end, tb).

(* go: store/store_deployments.go func:Store.GetDeployment *)
Definition GetDeployment (id : string) : M Deployment := sql (read_row id).

(** [ORDER BY created_at DESC] *)
Definition newest_first (a b : Deployment) : bool := dp_CreatedAt b <? dp_CreatedAt a.

(* go: store/store_deployments.go func:Store.ListDeployments *)
Definition ListDeployments (serverID : string) : M (list Deployment) :=
  sql (fun _ tb =>
    (Ok (isort newest_first
           (filter (fun d => (dp_ServerID d =? serverID)%string = true)
              (map snd (map_to_list (tb_deployments tb))))), tb)).

(* go: store/store_deployments.go func:Store.ListAllDeployments *)
Definition ListAllDeployments : M (list Deployment) :=
  sql (fun _ tb => (Ok (isort newest_first (map snd (map_to_list (tb_deployments tb)))), tb)).

(** Every column but the lease's and [created_at]. *)
(* go: store/store_deployments.go func:Store.UpdateDeployment *)
Definition UpdateDeployment (d : Deployment) : M unit :=
  sql (update_row (dp_ID d) always ErrDeploymentNotFound (fun now row =>
    d <| dp_Version := dp_Version row + 1 |> <| dp_UpdatedAt := now |>
      <| dp_ExecutorID := dp_ExecutorID row |>
      <| dp_ExecutionLeaseUntil := dp_ExecutionLeaseUntil row |>
      <| dp_CreatedAt := dp_CreatedAt row |>)).

Definition set_status (status errMsg : string) (now : Time) (d : Deployment) : Deployment :=
  d <| dp_Status := status |> <| dp_Error := or_keep errMsg (dp_Error d) |>
    <| dp_CompletedAt := if ends status then Some now else dp_CompletedAt d |>.

(* go: store/store_deployments.go func:Store.UpdateDeploymentStatus *)
Definition UpdateDeploymentStatus (id status errMsg : string) : M unit :=
  sql (update_row id always ErrDeploymentNotFound (fun now d =>
    set_status status errMsg now d <| dp_UpdatedAt := now |>)).

(* go: store/store_deployments.go func:Store.UpdateDeploymentConfig *)
Definition UpdateDeploymentConfig (id : string) (version : Z)
    (image blueTargetID greenTargetID activeTarget : string) : M unit :=
  sql (update_row id (at_version version) ErrVersionConflict (fun now d =>
    bump now (d <| dp_Image := or_keep image (dp_Image d) |>
                <| dp_BlueTargetID := or_keep blueTargetID (dp_BlueTargetID d) |>
                <| dp_GreenTargetID := or_keep greenTargetID (dp_GreenTargetID d) |>
                <| dp_ActiveTarget := or_keep activeTarget (dp_ActiveTarget d) |>))).

(* go: store/store_deployments.go func:Store.UpdateDeploymentFailure *)
Definition UpdateDeploymentFailure (id : string) (version : Z) (errMsg : string) : M unit :=
  sql (update_row id (at_version version) ErrVersionConflict (fun now d =>
    bump now (d <| dp_Status := "failed" |> <| dp_Error := errMsg |>
                <| dp_CompletedAt := Some now |>))).

(* go: store/store_deployments.go func:Store.UpdateDeploymentRollback *)
Definition UpdateDeploymentRollback (id : string) (version : Z) (activeTarget : string) : M unit :=
  sql (update_row id (at_version version) ErrVersionConflict (fun now d =>
    bump now (d <| dp_Status := "rolled_back" |>
                <| dp_ActiveTarget := or_keep activeTarget (dp_ActiveTarget d) |>
                <| dp_CompletedAt := Some now |>))).

(* go: store/store_deployments.go func:Store.UpdateDeploymentCompletion *)
Definition UpdateDeploymentCompletion (id : string) (version : Z) : M unit :=
  sql (update_row id (at_version version) ErrVersionConflict (fun now d =>
    bump now (d <| dp_Status := "completed" |> <| dp_ProgressPct := 100 |>
                <| dp_CompletedAt := Some now |>))).

(* go: store/store_deployments.go func:Store.UpdateDeploymentCancelled *)
Definition UpdateDeploymentCancelled (id : string) (version : Z) (errMsg : string) : M unit :=
  sql (update_row id (at_version version) ErrVersionConflict (fun now d =>
    bump now (d <| dp_Status := "cancelled" |> <| dp_Error := or_keep errMsg (dp_Error d) |>
                <| dp_CompletedAt := Some now |>))).

(* go: store/store_deployments.go func:Store.UpdateDeploymentStatusVersioned *)
Definition UpdateDeploymentStatusVersioned (id : string) (version : Z) (status errMsg : string)
    : M unit :=
  sql (update_row id (at_version version) ErrVersionConflict (fun now d =>
    bump now (set_status status errMsg now d))).

(* go: store/store_deployments.go func:Store.DeleteDeployment *)
Definition DeleteDeployment (id : string) : M unit :=
  sql (fun _ tb =>
    (Ok tt, mkTables (delete id (tb_deployments tb))
              (filter (fun s => (ds_DeploymentID s =? id)%string = false) (tb_steps tb))
              (filter (fun r => (dr_DeploymentID r =? id)%string = false) (tb_revisions tb)))).

(** ** The execution lease *)

Definition lease_free (now : Time) (d : Deployment) : bool :=
  match dp_ExecutionLeaseUntil d with None => true | Some until => Before until now end
  && negb (ends (dp_Status d)).

Definition claim_row (id executorID : string) (leaseDuration : Duration) : Statement unit :=
  fun now => update_row id (lease_free now) ErrNoRows (fun now d =>
    d <| dp_ExecutorID := executorID |>
      <| dp_ExecutionLeaseUntil := Some (time_add now leaseDuration) |>
      <| dp_UpdatedAt := now |>) now.

(* go: store/store_deployments.go func:Store.ClaimExecutionLease *)
Definition ClaimExecutionLease (id executorID : string) (leaseDuration : Duration) : M bool :=
  let! r := sql (claim_row id executorID leaseDuration) in
  match r with
  | Ok _ => ok true
  | Err e =>
      if negb (e =? ErrNoRows)%string then fail e
      else
        let! r := sql (read_row id) in
        match r with
        | Ok _ => ok false
        | Err e => if (e =? ErrNoRows)%string then fail ErrDeploymentNotFound else fail e
        end
  end.

(* go: store/store_deployments.go func:Store.RenewExecutionLease *)
Definition RenewExecutionLease (id executorID : string) (leaseDuration : Duration) : M bool :=
  let! r := sql (update_row id (fun d => (dp_ExecutorID d =? executorID)%string) ErrNoRows
    (fun now d => d <| dp_ExecutionLeaseUntil := Some (time_add now leaseDuration) |>
                    <| dp_UpdatedAt := now |>)) in
  match r with
  | Ok _ => ok true
  | Err e => if (e =? ErrNoRows)%string then ok false else fail e
  end.

(* go: store/store_deployments.go func:Store.ReleaseExecutionLeaseIfOwner *)
Definition ReleaseExecutionLeaseIfOwner (id executorID : string) : M unit :=
  sql (fun now tb =>
    let '(_, tb') := update_row id
      (fun d => (dp_ExecutorID d =? executorID)%string || (executorID =? "")%string) ErrNoRows
      (fun now d => d <| dp_ExecutorID := "" |> <| dp_ExecutionLeaseUntil := None |>
                      <| dp_UpdatedAt := now |>) now tb in
    (Ok tt, tb')).

(* go: store/store_deployment_steps.go func:Store.UpdateDeploymentProgressVersioned *)
Definition UpdateDeploymentProgressVersioned (id : string) (version progressPct nextStep : Z)
    (timeoutAt : option Time) : M unit :=
  sql (update_row id (at_version version) ErrVersionConflict (fun now d =>
    bump now (d <| dp_ProgressPct := progressPct |> <| dp_NextStep := nextStep |>
                <| dp_TimeoutAt := timeoutAt |>))).

(* go: store/store_deployment_steps.go func:Store.UpdateDeploymentProgress *)
Definition UpdateDeploymentProgress (id : string) (progressPct nextStep : Z)
    (timeoutAt : option Time) : M unit :=
  let? d := sql (read_row id) in
  UpdateDeploymentProgressVersioned id (dp_Version d) progressPct nextStep timeoutAt.

Definition oldest_first (a b : Deployment) : bool := dp_CreatedAt a <? dp_CreatedAt b.

(* go: store/store_deployment_steps.go func:Store.ListInProgressDeployments *)
Definition ListInProgressDeployments : M (list Deployment) :=
  sql (fun _ tb =>
    (Ok (isort oldest_first (filter (fun d => active (dp_Status d) = true)
                              (map snd (map_to_list (tb_deployments tb))))), tb)).

(** ** Steps *)

Definition steps_of (id : string) (tb : Tables) : list DeploymentStep :=
  filter (fun s => (ds_DeploymentID s =? id)%string = true) (tb_steps tb).

Definition same_step (s s' : DeploymentStep) : bool :=
  (ds_ID s' =? ds_ID s)%string ||
  ((ds_DeploymentID s' =? ds_DeploymentID s)%string && (ds_StepNumber s' =? ds_StepNumber s)).

(* go: store/store_deployment_steps.go func:Store.CreateDeploymentStep *)
Definition CreateDeploymentStep (s : DeploymentStep) : M unit :=
  sql (fun _ tb =>
    if existsb (same_step s) (tb_steps tb) then (Err ErrUnique, tb)
    else match tb_deployments tb !! ds_DeploymentID s with
         | Some _ => (Ok tt, tb <| tb_steps := tb_steps tb ++ [s] |>)
         | None => (Err ErrForeignKey, tb)
         end).

(** [ORDER BY step_number ASC] *)
Definition by_number (a b : DeploymentStep) : bool := ds_StepNumber a <? ds_StepNumber b.

(* go: store/store_deployment_steps.go func:Store.ListDeploymentSteps *)
Definition ListDeploymentSteps (id : string) : M (list DeploymentStep) :=
  sql (fun _ tb => (Ok (isort by_number (steps_of id tb)), tb)).

(* go: store/store_deployment_steps.go func:Store.GetDeploymentStep *)
Definition GetDeploymentStep (stepID : string) : M DeploymentStep :=
  sql (fun _ tb =>
    (match find (fun s => (ds_ID s =? stepID)%string) (tb_steps tb) with
     | Some s => Ok s | None => Err ErrNoRows end, tb)).

(** [UPDATE deployment_steps SET ... WHERE id = ...] *)
Definition update_step (stepID : string) (f : Time -> DeploymentStep -> DeploymentStep)
    : Statement unit := fun now tb =>
  if existsb (fun s => (ds_ID s =? stepID)%string) (tb_steps tb)
  then (Ok tt, tb <| tb_steps :=
          map (fun s => if (ds_ID s =? stepID)%string then f now s else s) (tb_steps tb) |>)
  else (Err ErrDeploymentStepNotFound, tb).

Definition set_step_status (status errMsg : string) (sent now : Time) (s : DeploymentStep)
    : DeploymentStep :=
  s <| ds_Status := status |>
    <| ds_StartedAt :=
         if (status =? "in_progress")%string && bool_decide (ds_StartedAt s = None)
         then Some sent else ds_StartedAt s |>
    <| ds_CompletedAt :=
         if slices_contains ["completed"; "failed"; "cancelled"] status
         then Some sent else ds_CompletedAt s |>
    <| ds_Error := or_keep errMsg (ds_Error s) |>
    <| ds_UpdatedAt := now |>.

(* go: store/store_deployment_steps.go func:Store.UpdateDeploymentStepStatus *)
Definition UpdateDeploymentStepStatus (stepID status errMsg : string) : M unit :=
  let! sent := time_now in
  sql (update_step stepID (set_step_status status errMsg sent)).

(** ** Revisions *)

(* go: store/store_deployment_revisions.go func:Store.CreateDeploymentRevision *)
Definition CreateDeploymentRevision (r : DeploymentRevision) : M unit :=
  sql (fun _ tb =>
    if existsb (fun r' => (dr_ID r' =? dr_ID r)%string ||
                  ((dr_DeploymentID r' =? dr_DeploymentID r)%string
                   && (dr_RevisionNumber r' =? dr_RevisionNumber r))) (tb_revisions tb)
    then (Err ErrUnique, tb)
    else match tb_deployments tb !! dr_DeploymentID r with
         | Some _ => (Ok tt, tb <| tb_revisions := tb_revisions tb ++ [r] |>)
         | None => (Err ErrForeignKey, tb)
         end).

(* go: store/store_deployment_revisions.go func:Store.GetDeploymentRevision *)
Definition GetDeploymentRevision (id : string) : M DeploymentRevision :=
  sql (fun _ tb =>
    (match find (fun r => (dr_ID r =? id)%string) (tb_revisions tb) with
     | Some r => Ok r | None => Err ErrNoRows end, tb)).

(** [ORDER BY revision_number DESC LIMIT 1] *)
Definition later_revision (a b : DeploymentRevision) : bool :=
  dr_RevisionNumber b <? dr_RevisionNumber a.

Definition first_row {A} (l : list A) : result A :=
  match l with a :: _ => Ok a | [] => Err ErrNoRows end.

(* go: store/store_deployment_revisions.go func:Store.GetPreviousDeploymentRevision *)
Definition GetPreviousDeploymentRevision (id : string) (currentRevNum : Z) : M DeploymentRevision :=
  sql (fun _ tb =>
    (first_row (isort later_revision
       (filter (fun r => (dr_DeploymentID r =? id)%string && (dr_RevisionNumber r <? currentRevNum)
                         = true) (tb_revisions tb))), tb)).

(* go: store/store_deployment_revisions.go func:Store.GetLatestDeploymentRevision *)
Definition GetLatestDeploymentRevision (id : string) : M DeploymentRevision :=
  sql (fun _ tb =>
    (first_row (isort later_revision
       (filter (fun r => (dr_DeploymentID r =? id)%string = true) (tb_revisions tb))), tb)).

(* go: store/store_deployment_revisions.go func:Store.UpdateDeploymentRevisionStatus *)
Definition UpdateDeploymentRevisionStatus (id status : string) (deployedAt : option Time) : M unit :=
  sql (fun now tb =>
    if existsb (fun r => (dr_ID r =? id)%string) (tb_revisions tb)
    then (Ok tt, tb <| tb_revisions := map (fun r =>
            if (dr_ID r =? id)%string
            then r <| dr_Status := status |> <| dr_DeployedAt := deployedAt |> <| dr_UpdatedAt := now |>
            else r) (tb_revisions tb) |>)
    else (Err ErrDeploymentRevisionNotFound, tb)).

(* go: store/store_deployment_revisions.go func:Store.SupersedeDeploymentRevisions *)
Definition SupersedeDeploymentRevisions (id exceptID : string) : M unit :=
  sql (fun now tb =>
    (Ok tt, tb <| tb_revisions := map (fun r =>
       if (dr_DeploymentID r =? id)%string && negb (dr_ID r =? exceptID)%string
          && (dr_Status r =? "active")%string
       then r <| dr_Status := "superseded" |> <| dr_UpdatedAt := now |>
       else r) (tb_revisions tb) |>)).

(** No affected row is not an error here. *)
Definition update_quietly (id : string) (f : Time -> Deployment -> Deployment) : Statement unit :=
  fun now tb =>
    match update_row id always ErrNoRows f now tb with
    | (Err e, tb') => if (e =? ErrNoRows)%string then (Ok tt, tb') else (Err e, tb')
    | r => r
    end.

(* go: store/store_deployment_revisions.go func:Store.UpdateDeploymentCurrentRevision *)
Definition UpdateDeploymentCurrentRevision (id : string) (revisionID : option string) : M unit :=
  sql (update_quietly id (fun now d =>
    d <| dp_CurrentRevisionID := revisionID |> <| dp_UpdatedAt := now |>)).

(* go: store/store_deployment_revisions.go func:Store.UpdateDeploymentRolloutStrategy *)
Definition UpdateDeploymentRolloutStrategy (id strategy : string) : M unit :=
  sql (update_quietly id (fun now d =>
    d <| dp_RolloutStrategy := strategy |> <| dp_UpdatedAt := now |>)).

End Store.
