(* ===== verification/Deployment.v ===== *)
(** * The deployment step machine

    [forge/api/internal/services/deployment]: how a rollout is created
    ([rollout.go], [service.go]), the plan of a strategy ([steps.go]), its
    execution step by step with the health gate and the promotion of traffic
    ([execution.go], [healthgate.go]), failure handling and rollback
    ([execution.go], [revisions.go]) and the resumption of interrupted
    executions.

    Every function runs against the tables of [DeployStore] in an environment
    that decides what other writers do between two statements, which
    statements fail, and what the node, the gateway and the health endpoint
    answer.  [store.Deployment] and [deployment.Deployment] have the same
    fields and [toServiceDeployment]/[toStoreDeployment] copy all of them, so
    one record stands for both.  A context that expires shows as calls that
    answer an error.  Errors that the code only logs are dropped here. *)
From Stdlib Require Import ZArith Lia Ascii.
From stdpp Require Import base gmap strings list fin_maps.
From coqutil Require Import Datatypes.RecordSettersUsingExistingGetters.
From S2P Require Import Prelude GoStrings GoSort DeployStore.
Import RecordSetNotations1.
#[local] Open Scope string_scope.
#[local] Open Scope list_scope.
#[local] Open Scope Z_scope.
#[local] Open Scope go_scope.

(** ** Names *)

(* go: services/deployment/service.go const:StrategyBlueGreen *)
Definition StrategyBlueGreen : string := "blue-green".
(* go: services/deployment/service.go const:StrategyCanary *)
Definition StrategyCanary : string := "canary".
(* go: services/deployment/service.go const:StrategyRolling *)
Definition StrategyRolling : string := "rolling".
(* go: services/deployment/service.go const:StrategyRecreate *)
Definition StrategyRecreate : string := "recreate".

(* go: services/deployment/service.go L29-40 *)
Inductive Status :=
| StatusPending | StatusProvisioning | StatusInProgress | StatusAwaitingHealth | StatusPromoting
| StatusCompleted | StatusFailed | StatusRollbackPending | StatusRollingBack | StatusRolledBack
| StatusCancelled.

Definition status_text (s : Status) : string :=
  match s with
  | StatusPending => "pending"
  | StatusProvisioning => "provisioning"
  | StatusInProgress => "in_progress"
  | StatusAwaitingHealth => "awaiting_health"
  | StatusPromoting => "promoting"
  | StatusCompleted => "completed"
  | StatusFailed => "failed"
  | StatusRollbackPending => "rollback_pending"
  | StatusRollingBack => "rolling_back"
  | StatusRolledBack => "rolled_back"
  | StatusCancelled => "cancelled"
  end.

(* go: services/deployment/service.go L45-51 *)
Inductive StepStatus :=
| StepStatusPending | StepStatusRunning | StepStatusCompleted | StepStatusFailed
| StepStatusCancelled | StepStatusSkipped.

Definition step_status_text (s : StepStatus) : string :=
  match s with
  | StepStatusPending => "pending"
  | StepStatusRunning => "in_progress"
  | StepStatusCompleted => "completed"
  | StepStatusFailed => "failed"
  | StepStatusCancelled => "cancelled"
  | StepStatusSkipped => "skipped"
  end.

Definition is_status (d : Deployment) (s : Status) : bool := (dp_Status d =? status_text s)%string.
Definition is_step_status (s : DeploymentStep) (st : StepStatus) : bool :=
  (ds_Status s =? step_status_text st)%string.

(* go: services/deployment/steps.go L14-25 *)
Inductive StepName :=
| StepInit | StepDrainOld | StepProvision | StepHealthGate | StepPromote | StepDrainCanary
| StepComplete | StepCleanup | StepRollback | StepScaleUp | StepScaleDown | StepVerify.

Definition step_text (s : StepName) : string :=
  match s with
  | StepInit => "init"
  | StepDrainOld => "drain_old"
  | StepProvision => "provision"
  | StepHealthGate => "health_gate"
  | StepPromote => "promote"
  | StepDrainCanary => "drain_canary"
  | StepComplete => "complete"
  | StepCleanup => "cleanup"
  | StepRollback => "rollback"
  | StepScaleUp => "scale_up"
  | StepScaleDown => "scale_down"
  | StepVerify => "verify"
  end.

Definition all_steps : list StepName :=
  [StepInit; StepDrainOld; StepProvision; StepHealthGate; StepPromote; StepDrainCanary;
   StepComplete; StepCleanup; StepRollback; StepScaleUp; StepScaleDown; StepVerify].

Definition step_of_text (s : string) : option StepName :=
  find (fun n => (step_text n =? s)%string) all_steps.

(* go: services/deployment/service.go const:DefaultTimeoutSeconds *)
Definition DefaultTimeoutSeconds : Z := 300.
(* go: services/deployment/service.go const:DefaultHealthGateThreshold *)
Definition DefaultHealthGateThreshold : Z := 3.
(* go: services/deployment/service.go const:DefaultHealthGateIntervalMs *)
Definition DefaultHealthGateIntervalMs : Z := 5000.
(* go: services/deployment/service.go const:fullTrafficWeight *)
Definition fullTrafficWeight : Z := 100.

(* go: services/deployment/service.go L185-185 *)
Definition ErrNoRuntimeExecutor : string :=
  "no runtime executor is wired, refusing to report success for work that was not performed".
(* go: services/deployment/service.go L188-188 *)
Definition ErrNoTrafficExecutor : string :=
  "no traffic executor is wired, refusing to report a promotion that moved no traffic".
(* go: services/deployment/service.go L192-192 *)
Definition ErrStepNotImplemented : string := "deployment step has no implementation".
(* go: services/deployment/service.go L194-205 *)
Inductive DeploymentError :=
| ErrNotFound | ErrInProgress | ErrInvalidImage | ErrInvalidImageRef | ErrInvalidServer
| ErrNoRollback | ErrNotTerminal | ErrHealthCheckFailed | ErrStepNotFound | ErrDeploymentTimedOut
| ErrAlreadyCancelled | ErrCleanupFailed.

Definition error_text (e : DeploymentError) : string :=
  match e with
  | ErrNotFound => "deployment not found"
  | ErrInProgress => "deployment already in progress for this server"
  | ErrInvalidImage => "image is required"
  | ErrInvalidImageRef => "image reference must contain a digest (@sha256:)"
  | ErrInvalidServer => "serverId is required"
  | ErrNoRollback => "no rollback target available"
  | ErrNotTerminal => "deployment is not in a terminal state"
  | ErrHealthCheckFailed => "health check failed"
  | ErrStepNotFound => "deployment step not found"
  | ErrDeploymentTimedOut => "deployment timed out"
  | ErrAlreadyCancelled => "deployment already cancelled"
  | ErrCleanupFailed => "cleanup of previous deployment failed"
  end.

(* go: services/deployment/revisions.go L54-54 *)
Definition ErrRevisionNotFound : string := "revision not found".
(* go: services/deployment/revisions.go L55-55 *)
Definition ErrNoRevisions : string := "no revisions available".

(** What is attached to the service, and [FORGE_DEPLOY_REQUIRE_TRAFFIC]. *)
(* go: services/deployment/service.go type:Service *)
Record DeploymentService := mkDeploymentService {
  sv_publisher : bool;
  sv_runtimeExecutor : bool;
  sv_traffic : bool;
  isTrafficRequired : bool
}.

(* go: services/deployment/rollout.go type:RolloutRequest *)
Record RolloutRequest := mkRolloutRequest {
  ro_ServerID : string;
  ro_Strategy : string;
  ro_Image : string;
  ro_HealthCheckPath : string;
  ro_HealthCheckPort : Z;
  ro_HealthCheckHost : string;
  ro_CanaryPercent : Z;
  ro_TimeoutSeconds : Z;
  ro_HealthGateEnabled : bool;
  ro_HealthGateThreshold : Z;
  ro_HealthGateIntervalMs : Z;
  ro_AutoRollbackEnabled : bool;
  ro_RollbackOnHealthFailure : bool;
  ro_CleanupOnFailure : bool;
  ro_TargetReplicas : Z
}.

(** ** Images and plans *)

Definition digest_mark : string := "@sha256:".

(* go: services/deployment/rollout.go func:validateImageRef *)
Definition validateImageRef (imageRef : string) : error :=
  if (imageRef =? "")%string then Some (error_text ErrInvalidImage)
  else if negb (Contains imageRef digest_mark) then Some (error_text ErrInvalidImageRef)
  else None.

(* go: services/deployment/rollout.go func:digestImageRef *)
Definition digestImageRef (imageRef : string) : string :=
  match Index imageRef digest_mark with
  | None => imageRef
  | Some idx =>
      let before := str_take idx imageRef in
      let before := match LastIndexByte ":"%char before with
                    | Some lastColon => str_take lastColon before
                    | None => before
                    end in
      cat [before; str_drop idx imageRef]
  end.

(* go: services/deployment/steps.go func:Service.stepsForStrategy *)
Definition stepsForStrategy (strategy : string) (healthGateEnabled : bool) : list StepName :=
  let gated (s : StepName) := if healthGateEnabled then [s] else [] in
  if (strategy =? StrategyRecreate)%string then
    [StepInit; StepProvision] ++ gated StepHealthGate ++ [StepComplete]
  else if (strategy =? StrategyRolling)%string then
    [StepInit; StepScaleUp] ++ gated StepHealthGate ++ [StepScaleDown; StepComplete]
  else if (strategy =? StrategyBlueGreen)%string then
    [StepInit; StepProvision] ++ gated StepHealthGate ++ [StepPromote] ++ gated StepVerify
      ++ [StepDrainOld; StepComplete]
  else if (strategy =? StrategyCanary)%string then
    [StepInit; StepProvision] ++ gated StepHealthGate ++ [StepDrainCanary; StepPromote; StepComplete]
  else [StepInit; StepProvision; StepComplete].

(* go: services/deployment/execution.go L15-20 *)
Definition stepStatusMapping (s : StepName) : option Status :=
  match s with
  | StepProvision => Some StatusProvisioning
  | StepHealthGate | StepVerify => Some StatusAwaitingHealth
  | StepPromote => Some StatusPromoting
  | _ => None
  end.

(* go: services/deployment/rollout.go func:isActiveStatus *)
Definition isActiveStatus (s : string) : bool :=
  existsb (fun st => (status_text st =? s)%string)
    [StatusPending; StatusInProgress; StatusProvisioning; StatusAwaitingHealth; StatusPromoting;
     StatusRollbackPending; StatusRollingBack].

Definition unix (t : Time) : Z := t / Second.

Section Service.
Context (env : Env) (svc : DeploymentService).

(** ** Executors, health checks and events *)

Definition publish (event subject : string) : St World unit :=
  if sv_publisher svc then call env (fun _ => emit (Published event subject)) else ret tt.

Definition ApplyDeployment (serverID image : string) : M unit :=
  call env (fun n => match apply_deployment env n with
                     | Some e => fail e
                     | None => emit (Applied serverID image) ;;; ok tt
                     end).

Definition VerifyRunning (serverID : string) : M bool := call env (fun n => ret (verify_running env n)).

Definition ShiftTraffic (serverID from to : string) (weight : Z) : M unit :=
  call env (fun n => match shift_traffic env n with
                     | Some e => fail e
                     | None => emit (Shifted serverID from to weight) ;;; ok tt
                     end).

Definition VerifyTrafficShift : M bool := call env (fun n => ret (verify_shift env n)).

(* go: services/deployment/healthgate.go func:Service.resolveWorkloadHost *)
Definition resolveWorkloadHost (serverID : string) : M string :=
  if (serverID =? "")%string then fail "deployment has no server"
  else
    let? nodeURL := wrap "resolve node for server" (call env (fun n => ret (control_target env n))) in
    if (nodeURL =? "")%string then fail "node has no base URL"
    else
      let? hostname := wrap "parse node base URL" (ret (hostname_of env nodeURL)) in
      if (hostname =? "")%string then fail (cat ["node base URL "; quote nodeURL; " has no host"])
      else ok hostname.

Definition checked (passed : bool) : St World bool := emit (Checked passed) ;;; ret passed.

Definition has_endpoint (d : Deployment) : bool :=
  negb ((dp_HealthCheckPath d =? "")%string || (dp_HealthCheckPort d =? 0)).

(** [Passed] of the result; the function's own error is always nil. *)
(* go: services/deployment/healthgate.go func:Service.CheckHealth *)
Definition CheckHealth (d : Deployment) : St World bool :=
  if negb (has_endpoint d) then emit Unasked ;;; ret true
  else
    let! host :=
      if (dp_HealthCheckHost d =? "")%string then resolveWorkloadHost (dp_ServerID d)
      else ok (dp_HealthCheckHost d) in
    match host with
    | Err _ => checked false
    | Ok host =>
        let target := cat ["http://"; host; ":"; itoa (dp_HealthCheckPort d); dp_HealthCheckPath d] in
        let! resp := call env (fun n => ret (http_get env n target)) in
        match resp with
        | Err _ => checked false
        | Ok code => checked ((200 <=? code) && (code <? 400))
        end
    end.

Definition set_step (s : StepStatus) (msg : string) (stepID : string) : M unit :=
  UpdateDeploymentStepStatus env stepID (step_status_text s) msg.

(* go: services/deployment/steps.go func:Service.markStepStarted *)
Definition markStepStarted : string -> M unit := set_step StepStatusRunning "".
(* go: services/deployment/steps.go func:Service.markStepCompleted *)
Definition markStepCompleted : string -> M unit := set_step StepStatusCompleted "".
(* go: services/deployment/steps.go func:Service.markStepFailed *)
Definition markStepFailed (stepID errMsg : string) : M unit := set_step StepStatusFailed errMsg stepID.
(* go: services/deployment/steps.go func:Service.markStepSkipped *)
Definition markStepSkipped : string -> M unit := set_step StepStatusSkipped "".

(** The select loop: [ticks] is how many times the ticker wins before the
    deadline does (the interval fits 32 bits, so the ticker never panics). *)
(* go: services/deployment/healthgate.go L113-136 *)
Fixpoint gate_loop (d : Deployment) (threshold : Z) (stepID : string) (ticks : nat)
    (consecutiveSuccesses : Z) : M unit :=
  match ticks with
  | O =>
      let msg := cat ["health gate timed out after "; itoa threshold; " consecutive failures"] in
      markStepFailed stepID msg ;;;
      fail (cat [msg; ": "; error_text ErrHealthCheckFailed])
  | S ticks =>
      let! passed := CheckHealth d in
      if passed then
        let consecutiveSuccesses := consecutiveSuccesses +i 1 in
        if threshold <=? consecutiveSuccesses then ok tt
        else gate_loop d threshold stepID ticks consecutiveSuccesses
      else gate_loop d threshold stepID ticks 0
  end.

Definition gate_threshold (d : Deployment) : Z :=
  if dp_HealthGateThreshold d <=? 0 then DefaultHealthGateThreshold else dp_HealthGateThreshold d.

(* go: services/deployment/healthgate.go func:Service.WaitForHealthGate *)
Definition WaitForHealthGate (d : Deployment) (stepID : string) : M unit :=
  if negb (dp_HealthGateEnabled d) then ok tt
  else call env (fun n => gate_loop d (gate_threshold d) stepID (gate_ticks env n) 0).

(** ** Revisions and rollback *)

Definition new_revision (id deploymentID : string) (number : Z) (image description : string)
    (now : Time) : DeploymentRevision :=
  mkDeploymentRevision id deploymentID number image "" "" (config_hash env image description)
    "pending" None description "{}" now now.

(** [cfg] as the init step fills it: an image and a description. *)
(* go: services/deployment/revisions.go func:Service.CreateRevision *)
Definition CreateRevision (deploymentID image description : string) : M DeploymentRevision :=
  let! d := GetDeployment env deploymentID in
  match d with
  | Err _ => fail (error_text ErrNotFound)
  | Ok _ =>
      let! latest := GetLatestDeploymentRevision env deploymentID in
      let nextNum := match latest with Ok r => dr_RevisionNumber r +i 1 | Err _ => 1 end in
      let! now := time_now env in
      let! id := new_uuid env in
      let rev := new_revision id deploymentID nextNum image description now in
      let? _ := wrap "create revision" (CreateDeploymentRevision env rev) in
      ok rev
  end.

Definition replacing {A} (e : string) (m : M A) : M A :=
  bind m (fun r => match r with Ok a => ok a | Err _ => fail e end).

Definition check (e : error) : M unit := match e with Some msg => fail msg | None => ok tt end.

(** What [RollbackToRevision] does once the tables name the target revision:
    the node has to run it. *)
(* go: services/deployment/revisions.go L194-221 *)
Definition apply_rollback (d : Deployment) (image : string) : M Deployment :=
  if negb (sv_runtimeExecutor svc) then fail ErrNoRuntimeExecutor
  else
    let! applied := ApplyDeployment (dp_ServerID d) image in
    match applied with
    | Err e =>
        let! now := time_now env in
        UpdateDeployment env (d <| dp_Status := status_text StatusFailed |> <| dp_UpdatedAt := now |>) ;;;
        fail (cat ["rollback apply: "; e])
    | Ok _ =>
        let! running := VerifyRunning (dp_ServerID d) in
        let status := match running with Ok true => StatusCompleted | _ => StatusInProgress end in
        let! now := time_now env in
        let d := d <| dp_Status := status_text status |> <| dp_UpdatedAt := now |> in
        let? _ := wrap "finalize rollback" (UpdateDeployment env d) in
        publish "deployment_rolled_back" (dp_ID d) ;;; ok d
    end.

(* go: services/deployment/revisions.go func:Service.RollbackToRevision *)
Definition RollbackToRevision (deploymentID revisionID : string) : M Deployment :=
  let? sd := replacing (error_text ErrNotFound) (GetDeployment env deploymentID) in
  let? target := replacing ErrRevisionNotFound (GetDeploymentRevision env revisionID) in
  if negb (dr_DeploymentID target =? deploymentID)%string
  then fail "revision does not belong to this deployment"
  else
    let? _ := wrap "rollback target revision" (check (validateImageRef (dr_ImageRef target))) in
    let? _ := wrap "update deployment status for rollback"
      (UpdateDeploymentStatusVersioned env deploymentID (dp_Version sd) (status_text StatusInProgress) "") in
    let! now := time_now env in
    let d := sd <| dp_Image := dr_ImageRef target |>
                <| dp_Status := status_text StatusInProgress |> <| dp_UpdatedAt := now |> in
    let? _ := wrap "update deployment image for rollback" (UpdateDeployment env d) in
    let? _ := wrap "update current revision"
      (UpdateDeploymentCurrentRevision env deploymentID (Some revisionID)) in
    let? _ := wrap "supersede revisions" (SupersedeDeploymentRevisions env deploymentID revisionID) in
    let! now := time_now env in
    let? _ := wrap "activate revision"
      (UpdateDeploymentRevisionStatus env revisionID "active" (Some now)) in
    apply_rollback d (dr_ImageRef target).

(* go: services/deployment/revisions.go func:Service.RollbackToPrevious *)
Definition RollbackToPrevious (deploymentID : string) : M Deployment :=
  let? sd := replacing (error_text ErrNotFound) (GetDeployment env deploymentID) in
  match dp_CurrentRevisionID sd with
  | None => fail ErrNoRevisions
  | Some current =>
      let? currentRev := replacing ErrRevisionNotFound (GetDeploymentRevision env current) in
      let? prevRev := replacing ErrNoRevisions
        (GetPreviousDeploymentRevision env deploymentID (dr_RevisionNumber currentRev)) in
      RollbackToRevision deploymentID (dr_ID prevRev)
  end.

(** ** Steps *)

(** Refuses a step that needs a live workload. *)
(* go: services/deployment/execution.go func:Service.requireWorkloadRunning *)
Definition requireWorkloadRunning (d : Deployment) (step : StepName) : M unit :=
  if negb (sv_runtimeExecutor svc) then fail (cat [step_text step; " step: "; ErrNoRuntimeExecutor])
  else
    let! running := VerifyRunning (dp_ServerID d) in
    match running with
    | Err e => fail (cat [step_text step; " step: verify workload on "; dp_ServerID d; ": "; e])
    | Ok false => fail (cat [step_text step; " step: workload "; dp_ServerID d; " is not running"])
    | Ok true => ok tt
    end.

Definition live_step (step : StepName) (event : string) (d : Deployment) : M Deployment :=
  let? _ := requireWorkloadRunning d step in
  publish event (dp_ServerID d) ;;; ok d.

(* go: services/deployment/execution.go func:Service.executeDrainOldStep *)
Definition executeDrainOldStep := live_step StepDrainOld "deployment_draining".
(* go: services/deployment/execution.go func:Service.executeDrainCanaryStep *)
Definition executeDrainCanaryStep := live_step StepDrainCanary "canary_draining".
(* go: services/deployment/execution.go func:Service.executeScaleUpStep *)
Definition executeScaleUpStep := live_step StepScaleUp "rolling_scale_up".
(* go: services/deployment/execution.go func:Service.executeScaleDownStep *)
Definition executeScaleDownStep := live_step StepScaleDown "rolling_scale_down".

(** The target id of a blue-green or canary deployment. *)
(* go: services/deployment/execution.go L230-240 *)
Definition set_green_target (d : Deployment) (now : Time) : M Deployment :=
  if (dp_Strategy d =? StrategyBlueGreen)%string || (dp_Strategy d =? StrategyCanary)%string then
    let! t := time_now env in
    let greenID := cat [dp_ServerID d; "-target-"; itoa (unix t)] in
    let? fresh := wrap "re-fetch deployment" (GetDeployment env (dp_ID d)) in
    let? _ := wrap "update deployment config"
      (UpdateDeploymentConfig env (dp_ID d) (dp_Version fresh) "" "" greenID "") in
    ok (d <| dp_GreenTargetID := greenID |> <| dp_UpdatedAt := now |>)
  else ok d.

(* go: services/deployment/execution.go func:Service.executeInitStep *)
Definition executeInitStep (d : Deployment) : M Deployment :=
  let? _ := wrap "init step" (check (validateImageRef (dp_Image d))) in
  let? rev := wrap "snapshot revision"
    (CreateRevision (dp_ID d) (dp_Image d) (cat [dp_Strategy d; " rollout: "; dp_Image d])) in
  let! now := time_now env in
  UpdateDeploymentRevisionStatus env (dr_ID rev) "active" (Some now) ;;;
  UpdateDeploymentCurrentRevision env (dp_ID d) (Some (dr_ID rev)) ;;;
  set_green_target (d <| dp_CurrentRevisionID := Some (dr_ID rev) |>) now.

(* go: services/deployment/execution.go func:Service.executeProvisionStep *)
Definition executeProvisionStep (d : Deployment) : M Deployment :=
  if negb (sv_runtimeExecutor svc) then fail (cat ["provision step: "; ErrNoRuntimeExecutor])
  else
    let? _ := wrap (cat ["provision step: apply "; dp_Image d; " to "; dp_ServerID d])
      (ApplyDeployment (dp_ServerID d) (dp_Image d)) in
    publish "deployment_provisioning" (dp_ServerID d) ;;; ok d.

(** Traffic moves before the switch is recorded. *)
(* go: services/deployment/execution.go L275-289 *)
Definition move_traffic (d : Deployment) (oldTarget newTarget : string) : M unit :=
  if sv_traffic svc then
    let? _ := wrap (cat ["promote step: shift traffic to "; newTarget])
      (ShiftTraffic (dp_ServerID d) oldTarget newTarget fullTrafficWeight) in
    let? shifted := wrap "promote step: verify traffic shift" VerifyTrafficShift in
    if shifted then ok tt
    else fail (cat ["promote step: traffic shift to "; newTarget; " could not be confirmed"])
  else if isTrafficRequired svc then fail (cat ["promote step: "; ErrNoTrafficExecutor])
  else ok tt.

(* go: services/deployment/execution.go func:Service.executePromoteStep *)
Definition executePromoteStep (d : Deployment) : M Deployment :=
  let oldTarget := dp_ActiveTarget d in
  let newTarget := if (oldTarget =? "blue")%string then "green" else "blue" in
  let? _ := move_traffic d oldTarget newTarget in
  let? fresh := wrap "re-fetch deployment" (GetDeployment env (dp_ID d)) in
  let? _ := wrap "update deployment config"
    (UpdateDeploymentConfig env (dp_ID d) (dp_Version fresh) "" "" "" newTarget) in
  let! now := time_now env in
  publish "deployment_promoted" (dp_ServerID d) ;;;
  ok (d <| dp_ActiveTarget := newTarget |> <| dp_UpdatedAt := now |>).

(* go: services/deployment/execution.go func:Service.executeCleanupStep *)
Definition executeCleanupStep (d : Deployment) : M Deployment :=
  fail (cat ["cleanup step: "; ErrStepNotImplemented]).

(* go: services/deployment/execution.go func:Service.executeRollbackStep *)
Definition executeRollbackStep (d : Deployment) : M Deployment :=
  let? _ := wrap "rollback step" (RollbackToPrevious (dp_ID d)) in ok d.

Definition keeping (d : Deployment) (m : M unit) : M Deployment := let? _ := m in ok d.

Definition run_action (name : StepName) (stepID : string) (d : Deployment) : M Deployment :=
  match name with
  | StepInit => executeInitStep d
  | StepProvision => executeProvisionStep d
  | StepHealthGate | StepVerify => keeping d (WaitForHealthGate d stepID)
  | StepPromote => executePromoteStep d
  | StepDrainOld => executeDrainOldStep d
  | StepDrainCanary => executeDrainCanaryStep d
  | StepScaleUp => executeScaleUpStep d
  | StepScaleDown => executeScaleDownStep d
  | StepComplete => ok d
  | StepCleanup => executeCleanupStep d
  | StepRollback => executeRollbackStep d
  end.

Definition announce (name : StepName) (d : Deployment) : St World unit :=
  match stepStatusMapping name with
  | Some status => UpdateDeploymentStatus env (dp_ID d) (status_text status) "" ;;; ret tt
  | None => ret tt
  end.

(** The deployment the step leaves behind when it succeeds. *)
(* go: services/deployment/execution.go func:Service.executeStep *)
Definition executeStep (d : Deployment) (step : DeploymentStep) : M Deployment :=
  match step_of_text (ds_StepName step) with
  | Some name => announce name d ;;; run_action name (ds_ID step) d
  | None => fail (cat ["unknown step: "; ds_StepName step])
  end.

(** ** Execution *)

(** The rollback an execution that failed may trigger. *)
(* go: services/deployment/execution.go L396-435 *)
Definition auto_rollback (d : Deployment) (stepErr : string) : St World unit :=
  if negb (dp_AutoRollbackEnabled d || dp_RollbackOnHealthFailure d) then ret tt
  else
    publish "auto_rollback_triggered" (dp_ServerID d) ;;;
    UpdateDeploymentStatus env (dp_ID d) (status_text StatusRollbackPending) stepErr ;;;
    let! rollback := RollbackToPrevious (dp_ID d) in
    match rollback with
    | Err _ => publish "auto_rollback_failed" (dp_ServerID d)
    | Ok _ =>
        UpdateDeploymentStatus env (dp_ID d) (status_text StatusRollingBack) "" ;;;
        let! now := time_now env in
        let! rollbackFresh := GetDeployment env (dp_ID d) in
        (match rollbackFresh with
         | Ok fresh => UpdateDeploymentRollback env (dp_ID d) (dp_Version fresh) "" ;;; ret tt
         | Err _ => ret tt
         end) ;;;
        publish "auto_rollback_completed" (dp_ServerID d)
    end.

(* go: services/deployment/execution.go func:Service.handleStepFailure *)
Definition handleStepFailure (d : Deployment) (stepErr : string) : St World unit :=
  let! now := time_now env in
  let! fresh := GetDeployment env (dp_ID d) in
  (match fresh with
   | Ok fresh => UpdateDeploymentFailure env (dp_ID d) (dp_Version fresh) stepErr ;;; ret tt
   | Err _ => ret tt
   end) ;;;
  auto_rollback d stepErr ;;;
  publish "deployment_failed" (dp_ServerID d) ;;;
  if dp_CleanupOnFailure d then publish "deployment_cleanup" (dp_ServerID d) else ret tt.

(* go: services/deployment/steps.go func:Service.updateProgress *)
Definition updateProgress : string -> Z -> Z -> option Time -> M unit := UpdateDeploymentProgress env.

(** One iteration for a pending step: [total] is the number of steps of the
    plan.  On an error the deployment the failure handler gets is the one
    before the step; the fields a step sets are not read there. *)
(* go: services/deployment/execution.go L97-119 *)
Definition run_step (d : Deployment) (timeoutAt : option Time) (total : Z) (step : DeploymentStep)
    : M Deployment :=
  markStepStarted (ds_ID step) ;;;
  updateProgress (dp_ID d) (idiv (ds_StepNumber step *i 100) total) (ds_StepNumber step +i 1) timeoutAt ;;;
  let! r := executeStep d step in
  match r with
  | Err e => markStepFailed (ds_ID step) e ;;; handleStepFailure d e ;;; fail e
  | Ok d => markStepCompleted (ds_ID step) ;;; ok d
  end.

(* go: services/deployment/execution.go L92-120 *)
Fixpoint run_steps (d : Deployment) (timeoutAt : option Time) (total : Z) (steps : list DeploymentStep)
    : M Deployment :=
  match steps with
  | [] => ok d
  | step :: rest =>
      if negb (is_step_status step StepStatusPending) then run_steps d timeoutAt total rest
      else let? d := run_step d timeoutAt total step in run_steps d timeoutAt total rest
  end.

(* go: services/deployment/steps.go loop:Service.createSteps *)
Fixpoint create_steps (deploymentID : string) (i : Z) (stepDefs : list StepName) : M unit :=
  match stepDefs with
  | [] => ok tt
  | name :: rest =>
      let! now := time_now env in
      let! id := new_uuid env in
      let? _ := wrap (cat ["create step "; itoa i])
        (CreateDeploymentStep env
           (mkDeploymentStep id deploymentID i (step_text name) (step_status_text StepStatusPending)
              None None "" now now)) in
      create_steps deploymentID (i + 1) rest
  end.

(* go: services/deployment/steps.go func:Service.createSteps *)
Definition createSteps (deploymentID strategy : string) (healthGateEnabled : bool) : M unit :=
  create_steps deploymentID 0 (stepsForStrategy strategy healthGateEnabled).

Definition timeout_of (d : Deployment) : Duration :=
  let timeout := dp_TimeoutSeconds d *i Second in
  if timeout <=? 0 then DefaultTimeoutSeconds *i Second else timeout.

(** Runs a list of steps and records the completion. *)
(* go: services/deployment/execution.go L132-139 *)
Definition finish_run (id : string) : M unit :=
  let? fresh := wrap "re-fetch deployment" (GetDeployment env id) in
  wrap "update deployment completion" (UpdateDeploymentCompletion env id (dp_Version fresh)).

(** [ExecuteDeployment] once the lease is claimed. *)
(* go: services/deployment/execution.go L42-154 *)
Definition execute_claimed (id : string) : M unit :=
  let! startTime := time_now env in
  let? sd := wrap "get deployment" (GetDeployment env id) in
  if negb (is_status sd StatusPending)
  then fail (cat ["deployment "; id; " is not in pending state (current: "; dp_Status sd; ")"])
  else
    let? _ := wrap "start deployment"
      (UpdateDeploymentStatusVersioned env id (dp_Version sd) (status_text StatusInProgress) "") in
    let? _ := wrap "create steps" (createSteps id (dp_Strategy sd) (dp_HealthGateEnabled sd)) in
    let? d := wrap "re-fetch deployment" (GetDeployment env id) in
    let! now := time_now env in
    let timeoutAt := Some (time_add now (timeout_of d)) in
    updateProgress id 0 0 timeoutAt ;;;
    publish "deployment_execution_started" (dp_ServerID d) ;;;
    let? steps := wrap "list steps" (ListDeploymentSteps env id) in
    let? d := run_steps d timeoutAt (Z.of_nat (length steps)) steps in
    let! finished := time_now env in
    let? _ := finish_run id in
    publish "deployment_completed" (dp_ServerID d) ;;; ok tt.

Definition set_executing (f : gset string -> gset string) : St World unit :=
  fun w => (tt, w <| w_executing := f (w_executing w) |>).

(** Runs [body] under a fresh executor's lease; the executing entry is dropped
    whatever happens. *)
(* go: services/deployment/execution.go L26-40 *)
Definition under_lease (id : string) (body : M unit) : M unit :=
  let! r :=
    let! executorID := new_uuid env in
    let? claimed := wrap "claim lease" (ClaimExecutionLease env id executorID (5 * Minute)) in
    if negb claimed then fail (cat ["deployment "; id; " is already being executed by another worker"])
    else
      let! r := body in
      ReleaseExecutionLeaseIfOwner env id executorID ;;; ret r in
  set_executing (fun s => s ∖ {[id]}) ;;; ret r.

(* go: services/deployment/execution.go func:Service.ExecuteDeployment *)
Definition ExecuteDeployment (id : string) : M unit := under_lease id (execute_claimed id).

(** ** Resuming *)

Definition open_step (s : DeploymentStep) : bool :=
  is_step_status s StepStatusPending || is_step_status s StepStatusRunning.

(** The first loop of [resumeFromStep]: where to start, once a step left
    running is made pending again (or, an init step that did its work,
    completed). *)
(* go: services/deployment/execution.go L542-562 *)
Fixpoint find_start (d : Deployment) (total : Z) (i : nat) (steps : list DeploymentStep)
    : St World nat :=
  match steps with
  | [] => ret O
  | step :: rest =>
      if is_step_status step StepStatusRunning then
        UpdateDeploymentStepStatus env (ds_ID step) (step_status_text StepStatusPending) "" ;;;
        if (ds_StepName step =? step_text StepInit)%string && bool_decide (dp_CurrentRevisionID d <> None)
        then
          markStepCompleted (ds_ID step) ;;;
          updateProgress (dp_ID d) (idiv (Z.of_nat (S i) *i 100) total) (Z.of_nat (S i)) (dp_TimeoutAt d) ;;;
          ret (S i)
        else ret i
      else if is_step_status step StepStatusPending then ret i
      else find_start d total (S i) rest
  end.

(* go: services/deployment/execution.go L529-627 *)
Definition resume_claimed (id : string) : M unit :=
  let? d := wrap "get deployment" (GetDeployment env id) in
  let? steps := wrap "list steps" (ListDeploymentSteps env id) in
  let! startIndex := find_start d (Z.of_nat (length steps)) 0 steps in
  let? steps := wrap "list steps after resume" (ListDeploymentSteps env id) in
  let! now := time_now env in
  let timeoutAt := Some (time_add now (timeout_of d)) in
  let? _ := run_steps d timeoutAt (Z.of_nat (length steps)) (drop startIndex steps) in
  finish_run id.

(* go: services/deployment/execution.go func:Service.resumeFromStep *)
Definition resumeFromStep (id : string) : M unit := under_lease id (resume_claimed id).

(** Starts an execution in the background unless one is under way here. *)
Definition launch (resume : bool) (id : string) : St World unit := fun w =>
  if bool_decide (id ∈ w_executing w) then (tt, w)
  else (set_executing (fun s => {[id]} ∪ s) ;;; emit (Launched resume id)) w.

(* go: services/deployment/rollout.go func:Service.launchExecution *)
Definition launchExecution : string -> St World unit := launch false.

Definition timed_out (d : Deployment) : St World bool :=
  match dp_TimeoutAt d with
  | None => ret false
  | Some at_ => let! now := time_now env in ret (After now at_)
  end.

(* go: services/deployment/execution.go L457-514 *)
Fixpoint resume_loop (pending : list Deployment) : St World unit :=
  match pending with
  | [] => ret tt
  | d :: rest =>
      let! late := timed_out d in
      (if late then
         let! now := time_now env in
         let! r := UpdateDeploymentFailure env (dp_ID d) (dp_Version d)
                     "deployment timed out during API restart" in
         match r with
         | Ok _ => publish "deployment_timed_out" (dp_ServerID d)
         | Err _ => ret tt
         end
       else if is_status d StatusPending then launch false (dp_ID d)
       else if existsb (is_status d)
                 [StatusInProgress; StatusProvisioning; StatusAwaitingHealth; StatusPromoting;
                  StatusRollingBack; StatusRollbackPending] then launch true (dp_ID d)
       else ret tt) ;;;
      resume_loop rest
  end.

(* go: services/deployment/execution.go func:Service.ResumeDeployments *)
Definition ResumeDeployments : M unit :=
  let? pending := wrap "list in-progress deployments" (ListInProgressDeployments env) in
  resume_loop pending ;;; ok tt.

(* go: services/deployment/execution.go L638-653 *)
Fixpoint cleanup_loop (cutoff : Time) (ds : list Deployment) (count : Z) : St World Z :=
  match ds with
  | [] => ret count
  | d :: rest =>
      if existsb (is_status d) [StatusFailed; StatusCancelled; StatusRolledBack]
         && Before (dp_CreatedAt d) cutoff && dp_CleanupOnFailure d
      then
        let! r := DeleteDeployment env (dp_ID d) in
        cleanup_loop cutoff rest (match r with Ok _ => count +i 1 | Err _ => count end)
      else cleanup_loop cutoff rest count
  end.

(* go: services/deployment/execution.go func:Service.CleanupFailedDeployments *)
Definition CleanupFailedDeployments (olderThan : Duration) : M Z :=
  let? sds := ListAllDeployments env in
  let! now := time_now env in
  let! count := cleanup_loop (time_add now (isub 0 olderThan)) sds 0 in
  ok count.

(** ** Creating deployments *)

(** A fresh row as the creation paths fill it. *)
Definition new_deployment (id serverID strategy image path : string) (port : Z) (host : string)
    (now : Time) : Deployment :=
  mkDeployment id serverID strategy (status_text StatusPending) image "" "" "" path port host ""
    None "" 0 false 0 0 false false false 0 0 0 None "" None 0 now now None.

Definition with_targets (blue green : string) (d : Deployment) : Deployment :=
  d <| dp_BlueTargetID := blue |> <| dp_GreenTargetID := green |> <| dp_ActiveTarget := "blue" |>.

(** Blue-green and canary deployments have named targets. *)
(* go: services/deployment/service.go L372-381 *)
Definition name_targets (strategy serverID : string) (now : Time) (d : Deployment) : Deployment :=
  if (strategy =? StrategyBlueGreen)%string then
    with_targets (cat [serverID; "-blue"]) (cat [serverID; "-green-"; itoa (unix now)]) d
  else if (strategy =? StrategyCanary)%string then
    with_targets (cat [serverID; "-stable"]) (cat [serverID; "-canary-"; itoa (unix now)]) d
  else d.

(** The check every creation path makes first. *)
(* go: services/deployment/rollout.go L130-138 *)
Definition none_active (prefix serverID : string) : M unit :=
  let? existing := wrap prefix (ListDeployments env serverID) in
  if existsb (fun d => isActiveStatus (dp_Status d)) existing then fail (error_text ErrInProgress)
  else ok tt.

(* go: services/deployment/service.go func:Service.startDeployment *)
Definition startDeployment (serverID strategy newImage healthCheckPath : string)
    (healthCheckPort : Z) : M Deployment :=
  if (serverID =? "")%string then fail (error_text ErrInvalidServer)
  else
    let? _ := check (validateImageRef newImage) in
    let newImage := digestImageRef newImage in
    let? _ := none_active "check existing deployments" serverID in
    let! now := time_now env in
    let! id := new_uuid env in
    let d := name_targets strategy serverID now
               (new_deployment id serverID strategy newImage healthCheckPath healthCheckPort "" now) in
    let? _ := wrap "create deployment" (CreateDeployment env d) in
    publish "deployment_started" serverID ;;; ok d.

(* go: services/deployment/service.go func:Service.StartBlueGreen *)
Definition StartBlueGreen (serverID : string) := startDeployment serverID StrategyBlueGreen.
(* go: services/deployment/service.go func:Service.StartCanary *)
Definition StartCanary (serverID : string) := startDeployment serverID StrategyCanary.
(* go: services/deployment/service.go func:Service.StartRolling *)
Definition StartRolling (serverID : string) := startDeployment serverID StrategyRolling.
(* go: services/deployment/service.go func:Service.StartRecreate *)
Definition StartRecreate (serverID : string) := startDeployment serverID StrategyRecreate.

Definition or_default (z default : Z) : Z := if z <=? 0 then default else z.

(* go: services/deployment/rollout.go func:applyRolloutRequest *)
Definition applyRolloutRequest (d : Deployment) (req : RolloutRequest) : Deployment :=
  d <| dp_RolloutStrategy := ro_Strategy req |>
    <| dp_HealthCheckHost := ro_HealthCheckHost req |>
    <| dp_TimeoutSeconds := or_default (ro_TimeoutSeconds req) DefaultTimeoutSeconds |>
    <| dp_HealthGateEnabled := ro_HealthGateEnabled req |>
    <| dp_HealthGateThreshold := or_default (ro_HealthGateThreshold req) DefaultHealthGateThreshold |>
    <| dp_HealthGateIntervalMs := or_default (ro_HealthGateIntervalMs req) DefaultHealthGateIntervalMs |>
    <| dp_AutoRollbackEnabled := ro_AutoRollbackEnabled req |>
    <| dp_RollbackOnHealthFailure := ro_RollbackOnHealthFailure req |>
    <| dp_CleanupOnFailure := ro_CleanupOnFailure req |>
    <| dp_TargetReplicas := or_default (ro_TargetReplicas req) 1 |>
    <| dp_ProgressPct := 0 |> <| dp_NextStep := 0 |>.

(* go: services/deployment/rollout.go func:validateHealthGateTarget *)
Definition validateHealthGateTarget (req : RolloutRequest) : error :=
  if (ro_HealthCheckPort req <? 0) || (65535 <? ro_HealthCheckPort req)
  then Some "health check port is out of range"
  else if negb (ro_HealthCheckPath req =? "")%string
          && (negb (local_path env (ro_HealthCheckPath req))
              || negb (HasPrefix (ro_HealthCheckPath req) "/")
              || HasPrefix (ro_HealthCheckPath req) "//")
  then Some "health check path must be a local absolute path"
  else
    let host := TrimSuffix (ToLower (TrimSpace (ro_HealthCheckHost req))) "." in
    if (host =? "")%string || (host =? "localhost")%string then None
    else if loopback env host then None
    else Some "health checks may only target the local deployment gateway".

(** What a creation path does with its row: insert, record the strategy,
    announce, execute. *)
(* go: services/deployment/rollout.go L155-172 *)
Definition record_and_launch (d : Deployment) (event : string) : M Deployment :=
  let? _ := wrap "create deployment" (CreateDeployment env d) in
  let? _ := wrap "set rollout strategy" (UpdateDeploymentRolloutStrategy env (dp_ID d) (dp_Strategy d)) in
  publish event (dp_ServerID d) ;;;
  launchExecution (dp_ID d) ;;;
  ok d.

Definition plain_rollout (strategy event : string) (req : RolloutRequest) : M Deployment :=
  let? _ := none_active "check existing" (ro_ServerID req) in
  let! now := time_now env in
  let! id := new_uuid env in
  record_and_launch
    (applyRolloutRequest
       (new_deployment id (ro_ServerID req) strategy (ro_Image req) (ro_HealthCheckPath req)
          (ro_HealthCheckPort req) (ro_HealthCheckHost req) now) req) event.

(* go: services/deployment/rollout.go func:Service.recreateRollout *)
Definition recreateRollout : RolloutRequest -> M Deployment :=
  plain_rollout StrategyRecreate "deployment_started".
(* go: services/deployment/rollout.go func:Service.rollingRollout *)
Definition rollingRollout : RolloutRequest -> M Deployment :=
  plain_rollout StrategyRolling "rolling_update_started".

(* go: services/deployment/rollout.go func:Service.blueGreenRollout *)
Definition blueGreenRollout (req : RolloutRequest) : M Deployment :=
  let? dep := StartBlueGreen (ro_ServerID req) (ro_Image req) (ro_HealthCheckPath req)
                (ro_HealthCheckPort req) in
  let! now := time_now env in
  let dep := (applyRolloutRequest dep req) <| dp_Status := status_text StatusPending |>
                                         <| dp_UpdatedAt := now |> in
  let? _ := wrap "update deployment" (UpdateDeployment env dep) in
  let? _ := wrap "set rollout strategy"
    (UpdateDeploymentRolloutStrategy env (dp_ID dep) (dp_Strategy dep)) in
  launchExecution (dp_ID dep) ;;;
  ok dep.

(** [canaryPercent] only appears in the event. *)
(* go: services/deployment/rollout.go func:Service.canaryRollout *)
Definition canaryRollout (req : RolloutRequest) : M Deployment :=
  let? _ := none_active "check existing" (ro_ServerID req) in
  let! now := time_now env in
  let! id := new_uuid env in
  let! later := time_now env in
  record_and_launch
    (applyRolloutRequest
       (with_targets (cat [ro_ServerID req; "-stable"])
          (cat [ro_ServerID req; "-canary-"; itoa (unix later)])
          (new_deployment id (ro_ServerID req) StrategyCanary (ro_Image req)
             (ro_HealthCheckPath req) (ro_HealthCheckPort req) (ro_HealthCheckHost req) now)) req)
    "canary_update_started".

Definition set_request (image strategy : string) (req : RolloutRequest) : RolloutRequest :=
  req <| ro_Image := image |> <| ro_Strategy := strategy |>.

(* go: services/deployment/rollout.go func:Service.StartRollout *)
Definition StartRollout (req : RolloutRequest) : M Deployment :=
  if (ro_ServerID req =? "")%string then fail (error_text ErrInvalidServer)
  else
    let? _ := check (validateImageRef (ro_Image req)) in
    let? _ := check (validateHealthGateTarget req) in
    let strategy := if (ro_Strategy req =? "")%string then StrategyRecreate else ro_Strategy req in
    let req := set_request (digestImageRef (ro_Image req)) strategy req in
    if (strategy =? StrategyRecreate)%string then recreateRollout req
    else if (strategy =? StrategyRolling)%string then rollingRollout req
    else if (strategy =? StrategyBlueGreen)%string then blueGreenRollout req
    else if (strategy =? StrategyCanary)%string then canaryRollout req
    else fail (cat ["unknown rollout strategy: "; strategy]).

(** ** Administration *)

Definition ended (s : Status) (now : Time) (d : Deployment) : Deployment :=
  d <| dp_Status := status_text s |> <| dp_UpdatedAt := now |> <| dp_CompletedAt := Some now |>.

(* go: services/deployment/service.go func:Service.CompleteDeployment *)
Definition CompleteDeployment (id : string) : M Deployment :=
  let? sd := replacing (error_text ErrNotFound) (GetDeployment env id) in
  let? _ := wrap "update deployment" (UpdateDeploymentCompletion env id (dp_Version sd)) in
  let! now := time_now env in
  publish "deployment_completed" id ;;;
  ok (ended StatusCompleted now sd <| dp_ProgressPct := 100 |>).

Fixpoint cancel_steps (steps : list DeploymentStep) : St World unit :=
  match steps with
  | [] => ret tt
  | s :: rest =>
      (if open_step s then
         UpdateDeploymentStepStatus env (ds_ID s) (step_status_text StepStatusCancelled)
           "deployment cancelled" ;;; ret tt
       else ret tt) ;;;
      cancel_steps rest
  end.

(* go: services/deployment/service.go func:Service.CancelDeployment *)
Definition CancelDeployment (id : string) : M Deployment :=
  let? sd := replacing (error_text ErrNotFound) (GetDeployment env id) in
  if is_status sd StatusCancelled then fail (error_text ErrAlreadyCancelled)
  else if negb (isActiveStatus (dp_Status sd))
  then fail "can only cancel pending or in-progress deployments"
  else
    let? _ := wrap "update deployment" (UpdateDeploymentCancelled env id (dp_Version sd) "") in
    let! now := time_now env in
    let! steps := ListDeploymentSteps env id in
    (match steps with Ok steps => cancel_steps steps | Err _ => ret tt end) ;;;
    publish "deployment_cancelled" id ;;;
    ok (ended StatusCancelled now sd).

(* go: services/deployment/service.go func:Service.SetDeploymentStatus *)
Definition SetDeploymentStatus (id : string) (status : Status) (errMsg : string) : M unit :=
  let? sd := replacing (error_text ErrNotFound) (GetDeployment env id) in
  UpdateDeploymentStatusVersioned env id (dp_Version sd) (status_text status) errMsg.

(* go: services/deployment/service.go func:Service.Rollback *)
Definition Rollback (id : string) : M Deployment :=
  let? sd := replacing (error_text ErrNotFound) (GetDeployment env id) in
  if (dp_ActiveTarget sd =? "blue")%string then fail (error_text ErrNoRollback)
  else
    let? _ := wrap "update deployment" (UpdateDeploymentRollback env id (dp_Version sd) "blue") in
    let! now := time_now env in
    publish "deployment_rolled_back" id ;;;
    ok (ended StatusRolledBack now (sd <| dp_ActiveTarget := "blue" |>)).

(* go: services/deployment/service.go func:Service.CleanupDeployment *)
Definition CleanupDeployment (id : string) : M unit :=
  let? sd := replacing (error_text ErrNotFound) (GetDeployment env id) in
  if negb (existsb (is_status sd) [StatusFailed; StatusCancelled; StatusRolledBack])
  then fail (error_text ErrNotTerminal)
  else UpdateDeploymentCancelled env id (dp_Version sd) (cat ["cleaned up after "; dp_Status sd]).

(* go: services/deployment/steps.go func:Service.ListSteps *)
Definition ListSteps (id : string) : M (list DeploymentStep) := ListDeploymentSteps env id.

(* go: services/deployment/steps.go func:Service.GetStep *)
Definition GetStep (stepID : string) : M DeploymentStep :=
  replacing (error_text ErrStepNotFound) (GetDeploymentStep env stepID).

End Service.
