(* ===== verification/DeployRun.v ===== *)
(** * What an execution of a deployment does

    The theorems about [Deployment]: the effects of an execution are those of
    the steps of its plan in order, up to the first failing step; traffic only
    moves to a target after the image was applied and the health gate passed;
    the health gate passes exactly on enough consecutive successes; an
    interrupted execution resumes with the steps that were left; and the
    execution lease has one holder.

    [triple T m Q] is the program logic of the proofs: from tables that
    satisfy [T], [m] appends some effects to the log and [Q] holds of its
    result, these effects and the tables it leaves, whatever the environment
    answers.  Its rules follow the code's [let!] and [let?]. *)
From Stdlib Require Import ZArith Lia Sorting.Sorted.
From stdpp Require Import base gmap strings list fin_maps.
From coqutil Require Import Datatypes.RecordSettersUsingExistingGetters.
From S2P Require Import Prelude GoStrings GoSort DeployStore Deployment.
Import RecordSetNotations1.
#[local] Open Scope string_scope.
#[local] Open Scope list_scope.
#[local] Open Scope Z_scope.
#[local] Open Scope go_scope.

(** ** The logic *)

(** Effects on the world outside: events and launches are not. *)
Definition physical (e : Effect) : bool :=
  match e with Applied _ _ | Shifted _ _ _ _ | Checked _ | Unasked => true | _ => false end.

(** The trace of a health check. *)
Definition check_effect (d : Deployment) (passed : bool) : Effect := if has_endpoint d then Checked passed else Unasked.

Definition effects (w : World) : list Effect := filter (fun e => physical e = true) (w_log w).

Definition triple {A} (T : Tables -> Prop) (m : St World A)
    (Q : A -> list Effect -> Tables -> Prop) : Prop :=
  forall w, T (w_tables w) ->
    exists tr, effects (m w).2 = effects w ++ tr /\ Q (m w).1 tr (w_tables (m w).2).

Create HintDb triple.

Section Logic.
Context (env : Env).

Lemma triple_ret {A} (a : A) (T : Tables -> Prop) (Q : A -> list Effect -> Tables -> Prop) :
  (forall tb, T tb -> Q a [] tb) -> triple T (ret a) Q.
Proof. intros H w Hw. exists []. rewrite app_nil_r. split; [done|by apply H]. Qed.

Lemma triple_conseq {A} (T T' : Tables -> Prop) (m : St World A)
    (Q Q' : A -> list Effect -> Tables -> Prop) :
  triple T m Q -> (forall tb, T' tb -> T tb) -> (forall a tr tb, Q a tr tb -> Q' a tr tb) ->
  triple T' m Q'.
Proof. intros H HT HQ w Hw. destruct (H w (HT _ Hw)) as (tr & E & HQr). eauto. Qed.

Lemma triple_bind {A B} (T : Tables -> Prop) (m : St World A) (k : A -> St World B)
    (Q : A -> list Effect -> Tables -> Prop) (R : B -> list Effect -> Tables -> Prop) :
  triple T m Q ->
  (forall a tr, triple (Q a tr) (k a) (fun b tr' tb => R b (tr ++ tr') tb)) ->
  triple T (bind m k) R.
Proof.
  intros Hm Hk w Hw. unfold bind. destruct (Hm w Hw) as (tr & E & HQ).
  destruct (m w) as [a w1]. simpl in *.
  destruct (Hk a tr w1 HQ) as (tr' & E' & HR).
  exists (tr ++ tr'). rewrite E', E, (assoc_L app). done.
Qed.

(** After a call that has no effects. *)
Lemma triple_after {A B} (T T' : Tables -> Prop) (m : St World A) (k : A -> St World B)
    (R : B -> list Effect -> Tables -> Prop) :
  triple T m (fun _ tr tb => tr = [] /\ T' tb) ->
  (forall a, triple T' (k a) R) -> triple T (bind m k) R.
Proof.
  intros Hm Hk. apply (triple_bind _ _ _ _ _ Hm). intros a tr w [-> Hw]. apply (Hk a w Hw).
Qed.

Lemma triple_try {A B} (T : Tables -> Prop) (m : M A) (k : A -> M B)
    (Q : A -> list Effect -> Tables -> Prop) (R : result B -> list Effect -> Tables -> Prop) :
  triple T m (fun r tr tb => match r with Ok a => Q a tr tb | Err e => R (Err e) tr tb end) ->
  (forall a tr, triple (Q a tr) (k a) (fun b tr' tb => R b (tr ++ tr') tb)) ->
  triple T (try m k) R.
Proof.
  intros Hm Hk. apply (triple_bind _ _ _ _ _ Hm). intros [a|e] tr; [apply Hk|].
  apply triple_ret. intros tb. by rewrite app_nil_r.
Qed.

Lemma triple_wrap {A} p (T : Tables -> Prop) (m : M A) (Q : result A -> list Effect -> Tables -> Prop) :
  triple T m (fun r tr tb =>
    match r with Ok a => Q (Ok a) tr tb | Err e => Q (Err (cat [p; ": "; e])) tr tb end) ->
  triple T (wrap p m) Q.
Proof.
  intros Hm. apply (triple_bind _ _ _ _ _ Hm).
  intros [a|e] tr; apply triple_ret; intros tb; by rewrite app_nil_r.
Qed.

Lemma triple_call {A} (T : Tables -> Prop) (k : nat -> St World A)
    (Q : A -> list Effect -> Tables -> Prop) :
  (forall n tb, T tb -> T (others env n tb)) -> (forall n, triple T (k n) Q) ->
  triple T (call env k) Q.
Proof.
  intros HT Hk w Hw. unfold call.
  destruct (Hk (w_tick w) (mkWorld (S (w_tick w)) (others env (w_tick w) (w_tables w))
                             (w_log w) (w_executing w))) as (tr & E & HQ); [by apply HT|].
  exists tr. split; [exact E|exact HQ].
Qed.

Lemma triple_emit e (T : Tables -> Prop) :
  triple T (emit e) (fun _ tr tb => tr = (if physical e then [e] else []) /\ T tb).
Proof.
  intros w Hw. exists (if physical e then [e] else []). split; [|done].
  unfold effects. change (w_log (emit e w).2) with (w_log w ++ [e]).
  rewrite filter_app. f_equal. by destruct e.
Qed.

Lemma triple_sql {A} (T : Tables -> Prop) (op : Statement A)
    (Q : result A -> list Effect -> Tables -> Prop) :
  (forall n tb, T tb -> T (others env n tb)) ->
  (forall now tb, T tb ->
     Q (op now tb).1 [] (op now tb).2 /\
     forall e, Q (Err e) [] tb /\ Q (Err e) [] (op now tb).2) ->
  triple T (sql env op) Q.
Proof.
  intros HT H. apply triple_call; [done|]. intros n w Hw. exists []. rewrite app_nil_r.
  destruct (H (clock env n) (w_tables w) Hw) as [H1 H2].
  destruct (fault env n) as [[e [|]]|]; simpl; [split; [done|apply H2]..|].
  destruct (op (clock env n) (w_tables w)) as [r tb]. done.
Qed.

(** A statement that keeps a table property. *)
Lemma sql_keeps {A} (T : Tables -> Prop) (op : Statement A) :
  (forall n tb, T tb -> T (others env n tb)) ->
  (forall now tb, T tb -> T (op now tb).2) ->
  triple T (sql env op) (fun _ tr tb => tr = [] /\ T tb).
Proof. intros HT H. apply triple_sql; [done|]. eauto 10. Qed.
End Logic.

(** ** Tables an execution runs on *)

(** The columns of a deployment that an execution reads and never writes. *)
Definition config (d : Deployment) :=
  (dp_ID d, dp_ServerID d, dp_Strategy d, dp_Image d, dp_HealthGateEnabled d,
   dp_HealthGateThreshold d, dp_AutoRollbackEnabled d, dp_RollbackOnHealthFailure d, has_endpoint d).

(** The row of the deployment, its configuration [c] and its steps. *)
Definition stored (id : string) (d : Deployment) (steps : list DeploymentStep) (tb : Tables) : Prop :=
  (exists d', tb_deployments tb !! id = Some d' /\ config d' = config d) /\ steps_of id tb = steps.

(** Other writers leave this deployment's row and steps alone. *)
Definition undisturbed (env : Env) (id : string) : Prop :=
  forall n tb, tb_deployments (others env n tb) !! id = tb_deployments tb !! id /\
               steps_of id (others env n tb) = steps_of id tb.

Lemma write_row_steps id k d tb tb' : write_row k d tb = Ok tb' -> steps_of id tb' = steps_of id tb.
Proof. unfold write_row. case_match; [done|]. by intros [= <-]. Qed.

Lemma write_row_lookup k d tb tb' :
  write_row k d tb = Ok tb' -> tb_deployments tb' = <[k := d]> (tb_deployments tb).
Proof. unfold write_row. case_match; [done|]. by intros [= <-]. Qed.

Lemma update_row_stored id d steps g none f now tb :
  (forall now d', config (f now d') = config d') ->
  stored id d steps tb -> stored id d steps (update_row id g none f now tb).2.
Proof.
  intros Hf [(d' & E & Hc) Hs]. unfold update_row. rewrite E.
  destruct (g d'); [|by split; [exists d'|]].
  destruct (write_row id (f now d') tb) as [tb'|] eqn:Hw; [|by split; [exists d'|]]. simpl.
  split; [|by rewrite (write_row_steps _ _ _ _ _ Hw)]. exists (f now d').
  rewrite (write_row_lookup _ _ _ _ Hw), lookup_insert_eq. by rewrite Hf.
Qed.

Section Undisturbed.
Context (env : Env) (id : string) (d : Deployment).
Hypothesis Hother : undisturbed env id.

Lemma others_stored steps n tb : stored id d steps tb -> stored id d steps (others env n tb).
Proof using Hother. destruct (Hother n tb) as [E1 E2]. unfold stored. by rewrite E1, E2. Qed.

Lemma update_keeps steps g none f :
  (forall now d', config (f now d') = config d') ->
  triple (stored id d steps) (sql env (update_row id g none f))
    (fun _ tr tb => tr = [] /\ stored id d steps tb).
Proof using Hother.
  intros Hf. apply sql_keeps; [intros; by apply others_stored|].
  intros. by apply update_row_stored.
Qed.

Lemma read_keeps steps :
  triple (stored id d steps) (GetDeployment env id)
    (fun r tr tb => tr = [] /\ stored id d steps tb /\
                    forall d', r = Ok d' -> config d' = config d).
Proof using Hother.
  apply triple_sql; [intros; by apply others_stored|].
  intros now tb Hs. split; [|done]. split_and!; [done..|].
  destruct Hs as [(d' & E & Hc) _]. simpl. rewrite E. by intros d'' [= <-].
Qed.

Lemma list_steps_keeps steps :
  triple (stored id d steps) (ListDeploymentSteps env id)
    (fun r tr tb => tr = [] /\ stored id d steps tb /\
                    forall l, r = Ok l -> l = isort by_number steps).
Proof using Hother.
  apply triple_sql; [intros; by apply others_stored|].
  intros now tb Hs. split; [|done]. split_and!; [done..|].
  destruct Hs as [_ Hs]. simpl. rewrite Hs. by intros l [= <-].
Qed.

Lemma clock_keeps steps {A} (k : nat -> A) :
  triple (stored id d steps) (call env (fun n => ret (k n)))
    (fun _ tr tb => tr = [] /\ stored id d steps tb).
Proof using Hother.
  apply triple_call; [intros; by apply others_stored|]. intros n. by apply triple_ret.
Qed.

Lemma publish_keeps svc event subject steps :
  triple (stored id d steps) (publish env svc event subject)
    (fun _ tr tb => tr = [] /\ stored id d steps tb).
Proof using Hother.
  unfold publish. destruct (sv_publisher svc); [|by apply triple_ret].
  apply triple_call; [intros; by apply others_stored|]. intros _. apply triple_emit.
Qed.
End Undisturbed.

(** ** Calls without effects *)

Definition quiet {A} (m : St World A) : Prop := triple (fun _ => True) m (fun _ tr _ => tr = []).

Section Quiet.
Context (env : Env) (svc : DeploymentService).

Lemma quiet_ret {A} (a : A) : quiet (ret a).
Proof. by apply triple_ret. Qed.

Lemma quiet_ok {A} (a : A) : quiet (ok a).
Proof. apply quiet_ret. Qed.

Lemma quiet_fail {A} e : quiet (@fail A e).
Proof. apply quiet_ret. Qed.

Lemma quiet_bind {A B} (m : St World A) (k : A -> St World B) :
  quiet m -> (forall a, quiet (k a)) -> quiet (bind m k).
Proof.
  intros Hm Hk. apply (triple_after (fun _ => True) (fun _ => True)); [|done].
  eapply triple_conseq; [exact Hm|done|]. by intros.
Qed.

Lemma quiet_try {A B} (m : M A) (k : A -> M B) : quiet m -> (forall a, quiet (k a)) -> quiet (try m k).
Proof. intros Hm Hk. apply quiet_bind; [done|]. intros [a|e]; [done|apply quiet_ret]. Qed.

Lemma quiet_wrap {A} p (m : M A) : quiet m -> quiet (wrap p m).
Proof. intros Hm. apply quiet_bind; [done|]. intros [a|e]; apply quiet_ret. Qed.

Lemma quiet_replacing {A} e (m : M A) : quiet m -> quiet (replacing e m).
Proof. intros Hm. apply quiet_bind; [done|]. intros [a|?]; apply quiet_ret. Qed.

Lemma quiet_sql {A} (op : Statement A) : quiet (sql env op).
Proof. by apply triple_sql. Qed.

Lemma quiet_call {A} (k : nat -> St World A) : (forall n, quiet (k n)) -> quiet (call env k).
Proof. intros H. by apply triple_call. Qed.

Lemma quiet_publish event subject : quiet (publish env svc event subject).
Proof.
  unfold publish. destruct (sv_publisher svc); [|apply quiet_ret].
  apply quiet_call. intros _. apply (triple_conseq _ _ _ _ _ (triple_emit _ (fun _ => True))); [done|].
  by intros ? ? ? [-> _].
Qed.

Lemma quiet_check e : quiet (check e).
Proof. destruct e; apply quiet_ret. Qed.
End Quiet.

#[export] Hint Resolve quiet_ret quiet_ok quiet_fail quiet_sql quiet_publish quiet_check : triple.

(** Proves [quiet m] by following the code of [m]. *)
Ltac quiet :=
  repeat first
    [ solve [auto with triple nocore]
    | apply quiet_try; [|intros] | apply quiet_bind; [|intros] | apply quiet_wrap
    | apply quiet_replacing | apply quiet_call; intros | progress (cbv zeta) | case_match ].

(** After a quiet call. *)
Lemma triple_quiet {A B} (m : St World A) (k : A -> St World B)
    (R : B -> list Effect -> Tables -> Prop) :
  quiet m -> (forall a, triple (fun _ => True) (k a) R) -> triple (fun _ => True) (bind m k) R.
Proof.
  intros Hm Hk. apply (triple_after (fun _ => True) (fun _ => True)); [|done].
  eapply triple_conseq; [exact Hm|done|]. by intros.
Qed.

Section Actions.
Context (env : Env) (svc : DeploymentService).

Lemma quiet_status id status msg : quiet (UpdateDeploymentStepStatus env id status msg).
Proof. unfold UpdateDeploymentStepStatus, time_now. quiet. Qed.

Lemma quiet_progress id p n t : quiet (UpdateDeploymentProgress env id p n t).
Proof. unfold UpdateDeploymentProgress, UpdateDeploymentProgressVersioned. quiet. Qed.

Lemma quiet_live_step step event d : quiet (live_step env svc step event d).
Proof. unfold live_step, requireWorkloadRunning, VerifyRunning, fail, ok. quiet. Qed.

Lemma quiet_set_green_target d now : quiet (set_green_target env d now).
Proof. unfold set_green_target, time_now, GetDeployment, UpdateDeploymentConfig, ok. quiet. Qed.

Lemma quiet_CreateRevision id image desc : quiet (CreateRevision env id image desc).
Proof.
  unfold CreateRevision, time_now, new_uuid, GetDeployment, GetLatestDeploymentRevision,
    CreateDeploymentRevision, fail, ok. quiet.
Qed.

Lemma quiet_executeInitStep d : quiet (executeInitStep env d).
Proof.
  unfold executeInitStep, time_now, UpdateDeploymentRevisionStatus, UpdateDeploymentCurrentRevision.
  apply quiet_try; [quiet|]. intros _.
  apply quiet_try; [apply quiet_wrap, quiet_CreateRevision|]. intros rev.
  apply quiet_bind; [quiet|]. intros now.
  repeat (apply quiet_bind; [apply quiet_sql|intros _]).
  apply quiet_set_green_target.
Qed.
End Actions.
#[export] Hint Resolve quiet_status quiet_progress quiet_live_step quiet_executeInitStep : triple.

(** ** The health gate *)

(** Successes at the end of a list of check results. *)
Definition streak (cs : list bool) : Z := foldl (fun (n : Z) (c : bool) => if c then n + 1 else 0) 0 cs.

(** The last check is the first to complete [k] successes in a row. *)
Definition first_pass (k : Z) (cs : list bool) : Prop :=
  k <= streak cs /\ forall i, (i < length cs)%nat -> streak (take i cs) < k.

Definition never_passes (k : Z) (cs : list bool) : Prop := forall i, streak (take i cs) < k.

Lemma streak_snoc cs c : streak (cs ++ [c]) = if c then streak cs + 1 else 0.
Proof. unfold streak. by rewrite foldl_app. Qed.

Lemma streak_nonneg cs : 0 <= streak cs.
Proof. induction cs as [|c cs IH] using rev_ind; [done|]. rewrite streak_snoc. destruct c; lia. Qed.

(** A streak is a run of successes. *)
Lemma streak_run cs : exists pre, cs = pre ++ replicate (Z.to_nat (streak cs)) true.
Proof.
  induction cs as [|c cs [pre IH]] using rev_ind; [by exists []|].
  rewrite streak_snoc. destruct c; [|by exists (cs ++ [false]); rewrite app_nil_r].
  exists pre. pose proof (streak_nonneg cs).
  rewrite Z2Nat.inj_add, replicate_add, (assoc_L app) by lia. by rewrite <- IH.
Qed.

(** Successes needed in a row come in a row at the end. *)
Lemma first_pass_run k cs :
  0 <= k -> first_pass k cs -> exists pre, cs = pre ++ replicate (Z.to_nat k) true.
Proof.
  intros Hk [H _]. destruct (streak_run cs) as [pre E].
  replace (Z.to_nat (streak cs)) with (Z.to_nat (streak cs - k) + Z.to_nat k)%nat in E by lia.
  rewrite replicate_add, (assoc_L app) in E. eauto.
Qed.

Lemma never_passes_snoc k cs c : never_passes k cs -> streak (cs ++ [c]) < k -> never_passes k (cs ++ [c]).
Proof.
  intros H Hs i. destruct (decide (length (cs ++ [c]) <= i)%nat) as [Hi|Hi].
  - by rewrite take_ge.
  - rewrite length_app in Hi. simpl in Hi. rewrite take_app_le by lia. apply H.
Qed.

Lemma first_pass_snoc k cs c : never_passes k cs -> k <= streak (cs ++ [c]) -> first_pass k (cs ++ [c]).
Proof.
  intros H Hs. split; [done|]. intros i Hi. rewrite length_app in Hi. simpl in Hi.
  rewrite take_app_le by lia. apply H.
Qed.

Section Gate.
Context (env : Env) (svc : DeploymentService).

Lemma triple_checked b (T : Tables -> Prop) :
  triple T (checked b) (fun a tr tb => a = b /\ tr = [Checked b] /\ T tb).
Proof.
  apply (triple_bind _ _ _ _ _ (triple_emit (Checked b) T)). intros [] tr.
  apply triple_ret. intros tb [-> H]. done.
Qed.

Lemma quiet_resolveWorkloadHost s : quiet (resolveWorkloadHost env s).
Proof. unfold resolveWorkloadHost. quiet. Qed.

Lemma CheckHealth_trace d :
  triple (fun _ => True) (CheckHealth env d) (fun b tr _ => tr = [check_effect d b]).
Proof.
  unfold CheckHealth, check_effect. destruct (has_endpoint d); cbn [negb].
  2: { apply (triple_bind _ _ _ _ _ (triple_emit Unasked (fun _ => True))). intros [] tr. apply triple_ret. by intros tb [-> _]. }
  assert (Hc : forall b, triple (fun _ => True) (checked b) (fun b tr _ => tr = [Checked b])).
  { intros b. apply (triple_conseq _ _ _ _ _ (triple_checked b (fun _ => True))); [done|].
    by intros a tr tb (-> & -> & _). }
  apply triple_quiet.
  { destruct (_ =? _)%string; [apply quiet_resolveWorkloadHost|apply quiet_ok]. }
  intros [host|e]; [|apply Hc].
  apply triple_quiet; [quiet|]. intros [code|e]; apply Hc.
Qed.

Lemma gate_loop_trace d k stepID ticks h :
  k <= max64 -> never_passes k h ->
  triple (fun _ => True) (gate_loop env d k stepID ticks (streak h)) (fun r tr _ =>
    exists cs, tr = map (check_effect d) cs /\ (length cs <= ticks)%nat /\
      match r with
      | Ok _ => first_pass k (h ++ cs)
      | Err _ => length cs = ticks /\ never_passes k (h ++ cs)
      end).
Proof.
  intros Hk. revert h. induction ticks as [|ticks IH]; intros h Hh; cbn [gate_loop].
  - apply triple_quiet; [apply quiet_status|]. intros _. apply triple_ret.
    intros _ _. exists []. rewrite app_nil_r. done.
  - apply (triple_bind _ _ _ _ _ (CheckHealth_trace d)). intros passed tr.
    assert (Hlt : streak h < k) by (specialize (Hh (length h)); by rewrite firstn_all in Hh).
    pose proof (streak_nonneg h) as H0. pose proof (streak_snoc h passed) as Hs.
    intros w ->. destruct passed.
    + rewrite iadd_exact by (unfold in64, min64, max64 in *; lia).
      destruct (Z.leb_spec k (streak h + 1)) as [Hle|Hgt].
      * exists []. rewrite app_nil_r. split; [done|]. exists [true].
        split_and!; [done|simpl; lia|]. apply first_pass_snoc; [done|lia].
      * rewrite <- Hs. specialize (IH (h ++ [true]) (never_passes_snoc k h true Hh ltac:(lia))).
        destruct (IH w I) as (tr & E & cs & -> & Hl & Hr). exists (map (check_effect d) cs). split; [done|].
        exists (true :: cs). rewrite <- (assoc_L app) in Hr. split_and!; [done|simpl; lia|].
        destruct (gate_loop _ _ _ _ _ _ w).1; [done|]. destruct Hr. simpl. auto.
    + rewrite <- Hs.
      specialize (IH (h ++ [false]) (never_passes_snoc k h false Hh ltac:(lia))).
      destruct (IH w I) as (tr & E & cs & -> & Hl & Hr). exists (map (check_effect d) cs). split; [done|].
      exists (false :: cs). rewrite <- (assoc_L app) in Hr. split_and!; [done|simpl; lia|].
      destruct (gate_loop _ _ _ _ _ _ w).1; [done|]. destruct Hr. simpl. auto.
Qed.
End Gate.

(** ** What each step may do *)

(** A rollback applies at most one image. *)
Definition rollback_trace (tr : list Effect) : Prop :=
  tr = [] \/ exists server image, tr = [Applied server image].

Definition gate_trace (d : Deployment) (tr : list Effect) : Prop :=
  if dp_HealthGateEnabled d
  then exists cs, tr = map (check_effect d) cs /\ first_pass (gate_threshold d) cs
  else tr = [].

Definition other_target (from : string) : string := if (from =? "blue")%string then "green" else "blue".

Definition shift (d : Deployment) (tr : list Effect) : Prop :=
  exists from, tr = [Shifted (dp_ServerID d) from (other_target from) 100].

(** The effects of a step that succeeds, *)
Definition step_trace (svc : DeploymentService) (d : Deployment) (name : StepName)
    (tr : list Effect) : Prop :=
  match name with
  | StepProvision => tr = [Applied (dp_ServerID d) (dp_Image d)]
  | StepHealthGate | StepVerify => gate_trace d tr
  | StepPromote => if sv_traffic svc then shift d tr else tr = []
  | StepRollback => rollback_trace tr
  | _ => tr = []
  end.

(** and of one that fails. *)
Definition partial_trace (d : Deployment) (name : StepName) (tr : list Effect) : Prop :=
  match name with
  | StepHealthGate | StepVerify =>
      exists cs, tr = map (check_effect d) cs /\ never_passes (gate_threshold d) cs
  | StepPromote => tr = [] \/ shift d tr
  | StepRollback => rollback_trace tr
  | _ => tr = []
  end.

(** Without effects on either outcome. *)
Lemma triple_quiet_try {A B} (m : M A) (k : A -> M B)
    (R : result B -> list Effect -> Tables -> Prop) :
  quiet m -> (forall e tb, R (Err e) [] tb) -> (forall a, triple (fun _ => True) (k a) R) ->
  triple (fun _ => True) (try m k) R.
Proof.
  intros Hm He Hk. apply triple_quiet; [done|]. intros [a|e]; [apply Hk|].
  by apply triple_ret.
Qed.

(** Nothing after [m] has effects. *)
Lemma triple_then_quiet {A B} (m : St World A) (k : A -> St World B) (P : list Effect -> Prop) :
  triple (fun _ => True) m (fun _ tr _ => P tr) -> (forall a, quiet (k a)) ->
  triple (fun _ => True) (bind m k) (fun _ tr _ => P tr).
Proof.
  intros Hm Hk. apply (triple_bind _ _ _ _ _ Hm). intros a tr w Hw.
  destruct (Hk a w I) as (tr' & E & ->). exists []. split; [exact E|]. by rewrite app_nil_r.
Qed.

Section Steps.
Context (env : Env) (svc : DeploymentService).

Lemma ApplyDeployment_trace server image :
  triple (fun _ => True) (ApplyDeployment env server image) (fun r tr _ =>
    match r with Ok _ => tr = [Applied server image] | Err _ => tr = [] end).
Proof.
  apply triple_call; [done|]. intros n. destruct (apply_deployment env n); [by apply triple_ret|].
  apply (triple_bind _ _ _ _ _ (triple_emit (Applied server image) (fun _ => True))).
  intros [] tr. apply triple_ret. by intros tb [-> _].
Qed.

Lemma ShiftTraffic_trace server from to weight :
  triple (fun _ => True) (ShiftTraffic env server from to weight) (fun r tr _ =>
    match r with Ok _ => tr = [Shifted server from to weight] | Err _ => tr = [] end).
Proof.
  apply triple_call; [done|]. intros n. destruct (shift_traffic env n); [by apply triple_ret|].
  apply (triple_bind _ _ _ _ _ (triple_emit (Shifted server from to weight) (fun _ => True))).
  intros [] tr. apply triple_ret. by intros tb [-> _].
Qed.

Lemma apply_rollback_trace d image :
  triple (fun _ => True) (apply_rollback env svc d image) (fun _ tr _ => rollback_trace tr).
Proof.
  unfold apply_rollback. destruct (sv_runtimeExecutor svc); cbn [negb].
  2:{ apply triple_ret. by left. }
  apply triple_then_quiet.
  - eapply triple_conseq; [apply ApplyDeployment_trace|done|].
    intros [[]|e] tr _ ->; [right; eauto|by left].
  - unfold time_now, UpdateDeployment, VerifyRunning. intros [[]|e]; quiet.
Qed.

Lemma RollbackToRevision_trace id rev :
  triple (fun _ => True) (RollbackToRevision env svc id rev) (fun _ tr _ => rollback_trace tr).
Proof.
  unfold RollbackToRevision, GetDeployment, GetDeploymentRevision, UpdateDeploymentStatusVersioned,
    UpdateDeployment, UpdateDeploymentCurrentRevision, SupersedeDeploymentRevisions,
    UpdateDeploymentRevisionStatus, time_now.
  apply triple_quiet_try; [quiet|by left|]. intros sd.
  apply triple_quiet_try; [quiet|by left|]. intros target.
  case_match; [apply triple_ret; by left|].
  do 2 (apply triple_quiet_try; [quiet|by left|]; intros []).
  apply triple_quiet; [quiet|]. intros now. cbv zeta.
  do 3 (apply triple_quiet_try; [quiet|by left|]; intros []).
  apply triple_quiet; [quiet|]. intros now'.
  apply triple_quiet_try; [quiet|by left|]. intros [].
  apply apply_rollback_trace.
Qed.

Lemma RollbackToPrevious_trace id :
  triple (fun _ => True) (RollbackToPrevious env svc id) (fun _ tr _ => rollback_trace tr).
Proof.
  unfold RollbackToPrevious, GetDeployment, GetDeploymentRevision, GetPreviousDeploymentRevision.
  apply triple_quiet_try; [quiet|by left|]. intros sd.
  destruct (dp_CurrentRevisionID sd) as [current|]; [|apply triple_ret; by left].
  apply triple_quiet_try; [quiet|by left|]. intros cur.
  apply triple_quiet_try; [quiet|by left|]. intros prev.
  apply RollbackToRevision_trace.
Qed.

Lemma handleStepFailure_trace d e :
  triple (fun _ => True) (handleStepFailure env svc d e) (fun _ tr _ => rollback_trace tr).
Proof.
  unfold handleStepFailure, time_now, GetDeployment, UpdateDeploymentFailure.
  apply triple_quiet; [quiet|]. intros now. apply triple_quiet; [quiet|]. intros fresh.
  apply triple_quiet; [quiet|]. intros _.
  apply triple_then_quiet; [|intros _; quiet].
  unfold auto_rollback. destruct (negb _); [apply triple_ret; by left|].
  apply triple_quiet; [quiet|]. intros _.
  unfold UpdateDeploymentStatus. apply triple_quiet; [quiet|]. intros _.
  apply triple_then_quiet; [apply RollbackToPrevious_trace|].
  unfold time_now, GetDeployment, UpdateDeploymentRollback. intros [?|?]; quiet.
Qed.

Lemma WaitForHealthGate_trace d stepID :
  gate_threshold d <= max64 -> 0 < gate_threshold d ->
  triple (fun _ => True) (WaitForHealthGate env d stepID) (fun r tr _ =>
    match r with
    | Ok _ => gate_trace d tr
    | Err _ => exists cs, tr = map (check_effect d) cs /\ never_passes (gate_threshold d) cs
    end).
Proof.
  intros Hk Hk0. unfold WaitForHealthGate, gate_trace.
  destruct (dp_HealthGateEnabled d); cbn [negb]; [|by apply triple_ret].
  apply triple_call; [done|]. intros n.
  eapply triple_conseq; [apply (gate_loop_trace env d _ stepID _ [] Hk); by intros [|i]|done|].
  intros [[]|e] tr _ (cs & -> & _ & H); [eauto|]. destruct H as [_ H]. eauto.
Qed.
End Steps.

(** ** Running a plan *)

Inductive plan_trace (svc : DeploymentService) (d : Deployment) : list StepName -> list Effect -> Prop :=
| plan_trace_nil : plan_trace svc d [] []
| plan_trace_cons name rest tr1 tr2 :
    step_trace svc d name tr1 -> plan_trace svc d rest tr2 ->
    plan_trace svc d (name :: rest) (tr1 ++ tr2).

(** The steps before the failing one ran, the failing one in part, the rest
    not at all; then possibly a rollback. *)
Definition failed_trace (svc : DeploymentService) (d : Deployment) (plan : list StepName)
    (tr : list Effect) : Prop :=
  exists before name after tr1 tr2 tr3,
    plan = before ++ name :: after /\ tr = tr1 ++ tr2 ++ tr3 /\
    plan_trace svc d before tr1 /\ partial_trace d name tr2 /\ rollback_trace tr3.

Lemma failed_trace_cons svc d name rest tr1 tr2 :
  step_trace svc d name tr1 -> failed_trace svc d rest tr2 ->
  failed_trace svc d (name :: rest) (tr1 ++ tr2).
Proof.
  intros H (before & n & after & t1 & t2 & t3 & -> & -> & Hb & Hp & Hr).
  exists (name :: before), n, after, (tr1 ++ t1), t2, t3. rewrite (assoc_L app).
  split_and!; try done. by constructor.
Qed.

Lemma step_trace_config svc d d' name tr :
  config d' = config d -> step_trace svc d' name tr -> step_trace svc d name tr.
Proof.
  unfold config. intros [= _ Hs _ Hi Hg Ht _ _ He].
  unfold step_trace, gate_trace, gate_threshold, shift, check_effect. by rewrite Hs, Hi, Hg, Ht, He.
Qed.

Lemma plan_trace_config svc d d' plan tr :
  config d' = config d -> plan_trace svc d' plan tr -> plan_trace svc d plan tr.
Proof. intros Hc. induction 1; constructor; [|done]. by eapply step_trace_config. Qed.

Lemma failed_trace_config svc d d' plan tr :
  config d' = config d -> failed_trace svc d' plan tr -> failed_trace svc d plan tr.
Proof.
  intros Hc (b & n & a & t1 & t2 & t3 & -> & -> & Hb & Hp & Hr).
  exists b, n, a, t1, t2, t3. split_and!; [done..|by eapply plan_trace_config| |done].
  revert Hp. unfold config in Hc. injection Hc as _ Hs _ Hi Hg Ht _ _ He.
  unfold partial_trace, gate_threshold, shift, check_effect. by rewrite Hs, Ht, He.
Qed.

Lemma step_of_text_of name : step_of_text (step_text name) = Some name.
Proof. by destruct name. Qed.

Section Run.
Context (env : Env) (svc : DeploymentService).

Definition action_post (d : Deployment) (name : StepName) (r : result Deployment) (tr : list Effect) : Prop :=
  match r with
  | Ok d' => step_trace svc d name tr /\ config d' = config d
  | Err _ => partial_trace d name tr
  end.

(** An action that has no effects and keeps the configuration. *)
Definition tame (d : Deployment) (m : M Deployment) : Prop :=
  triple (fun _ => True) m (fun r tr _ =>
    tr = [] /\ match r with Ok d' => config d' = config d | Err _ => True end).

Lemma tame_ok d d' : config d' = config d -> tame d (ok d').
Proof. intros H. by apply triple_ret. Qed.

Lemma tame_try {A} d (m : M A) k : quiet m -> (forall a, tame d (k a)) -> tame d (try m k).
Proof. intros Hm Hk. by apply triple_quiet_try. Qed.

Lemma tame_bind {A} d (m : St World A) k : quiet m -> (forall a, tame d (k a)) -> tame d (bind m k).
Proof. intros Hm Hk. by apply triple_quiet. Qed.

Lemma tame_action d name m :
  tame d m -> (forall tr, tr = [] -> step_trace svc d name tr) ->
  (forall tr, tr = [] -> partial_trace d name tr) ->
  triple (fun _ => True) m (fun r tr _ => action_post d name r tr).
Proof.
  intros H H1 H2. eapply triple_conseq; [exact H|done|].
  intros [d'|e] tr _ [-> Hc]; simpl; auto.
Qed.

Lemma executeInitStep_tame d : tame d (executeInitStep env d).
Proof.
  unfold executeInitStep, time_now, UpdateDeploymentRevisionStatus, UpdateDeploymentCurrentRevision.
  apply tame_try; [quiet|]. intros _.
  apply tame_try; [apply quiet_wrap, quiet_CreateRevision|]. intros rev.
  apply tame_bind; [quiet|]. intros now. repeat (apply tame_bind; [apply quiet_sql|intros _]).
  unfold set_green_target, time_now, GetDeployment, UpdateDeploymentConfig.
  case_match; [|by apply tame_ok].
  apply tame_bind; [quiet|]. intros t. cbv zeta.
  do 2 (apply tame_try; [quiet|]; intros ?). by apply tame_ok.
Qed.

Lemma live_step_tame step event d : tame d (live_step env svc step event d).
Proof.
  unfold live_step, requireWorkloadRunning, VerifyRunning.
  apply tame_try; [quiet|]. intros _. apply tame_bind; [quiet|]. intros _. by apply tame_ok.
Qed.

Lemma executeProvisionStep_trace d :
  triple (fun _ => True) (executeProvisionStep env svc d)
    (fun r tr _ => action_post d StepProvision r tr).
Proof.
  unfold executeProvisionStep. destruct (negb _); [by apply triple_ret|].
  apply (triple_bind _ _ _ (fun r tr _ => match r with
           | Ok _ => tr = [Applied (dp_ServerID d) (dp_Image d)] | Err _ => tr = [] end)).
  - apply triple_wrap. eapply triple_conseq; [apply ApplyDeployment_trace|done|]. by intros [[]|e].
  - intros [[]|e] tr.
    + apply (triple_bind _ _ _ (fun _ tr' _ => tr' = [] /\ tr = [Applied (dp_ServerID d) (dp_Image d)])).
      * intros w ->. destruct (quiet_publish env svc "deployment_provisioning" (dp_ServerID d) w I)
          as (tr' & E & ->). eauto.
      * intros _ tr'. apply triple_ret. by intros tb [-> ->].
    + apply triple_ret. by intros tb ->.
Qed.

Lemma move_traffic_trace d :
  let to := other_target (dp_ActiveTarget d) in
  triple (fun _ => True) (move_traffic env svc d (dp_ActiveTarget d) to) (fun r tr _ =>
    match r with
    | Ok _ => if sv_traffic svc then shift d tr else tr = []
    | Err _ => tr = [] \/ shift d tr
    end).
Proof.
  intros to. unfold move_traffic. destruct (sv_traffic svc).
  2:{ destruct (isTrafficRequired svc); apply triple_ret; auto. }
  apply (triple_bind _ _ _ (fun r tr _ => match r with Ok _ => shift d tr | Err _ => tr = [] end)).
  { apply triple_wrap. eapply triple_conseq; [apply ShiftTraffic_trace|done|].
    intros [[]|e] tr _ ->; [by exists (dp_ActiveTarget d)|done]. }
  intros [[]|e] tr; [|apply triple_ret; intros tb ->; by left].
  intros w Hs. set (rest := try _ _).
  assert (Hq : quiet rest) by (unfold rest, VerifyTrafficShift; quiet).
  destruct (Hq w I) as (tr' & E & ->). exists []. split; [exact E|]. rewrite app_nil_r.
  destruct (rest w).1; [done|by right].
Qed.

Lemma executePromoteStep_trace d :
  triple (fun _ => True) (executePromoteStep env svc d)
    (fun r tr _ => action_post d StepPromote r tr).
Proof.
  unfold executePromoteStep. fold (other_target (dp_ActiveTarget d)).
  apply (triple_bind _ _ _ _ _ (move_traffic_trace d)). intros [[]|e] tr.
  2:{ apply triple_ret. intros tb H. by rewrite app_nil_r. }
  set (rest := try _ _).
  assert (Ht : tame d rest).
  { unfold rest, GetDeployment, UpdateDeploymentConfig, time_now.
    do 2 (apply tame_try; [quiet|]; intros ?). do 2 (apply tame_bind; [quiet|]; intros ?).
    by apply tame_ok. }
  intros w Hs. destruct (Ht w I) as (tr' & E & -> & Hc). exists []. split; [exact E|].
  rewrite app_nil_r. destruct (rest w).1; simpl; [done|].
  destruct (sv_traffic svc); [by right|by left].
Qed.

Lemma keeping_gate_trace d stepID name :
  gate_threshold d <= max64 -> name = StepHealthGate \/ name = StepVerify ->
  triple (fun _ => True) (keeping d (WaitForHealthGate env d stepID))
    (fun r tr _ => action_post d name r tr).
Proof.
  intros Hk Hname.
  assert (H0 : 0 < gate_threshold d).
  { unfold gate_threshold, DefaultHealthGateThreshold. destruct (Z.leb_spec (dp_HealthGateThreshold d) 0); lia. }
  apply (triple_bind _ _ _ _ _ (WaitForHealthGate_trace env d stepID Hk H0)).
  intros [[]|e] tr; apply triple_ret; intros tb H; rewrite app_nil_r; by destruct Hname as [-> | ->].
Qed.

Lemma run_action_trace d name stepID :
  gate_threshold d <= max64 ->
  triple (fun _ => True) (run_action env svc name stepID d) (fun r tr _ => action_post d name r tr).
Proof.
  intros Hk. destruct name; simpl;
    try (apply tame_action; [apply live_step_tame|done|done]).
  - apply tame_action; [apply executeInitStep_tame|done|done].
  - apply executeProvisionStep_trace.
  - apply keeping_gate_trace; auto.
  - apply executePromoteStep_trace.
  - apply tame_action; [by apply tame_ok|done|done].
  - by apply triple_ret.
  - unfold executeRollbackStep.
    apply (triple_bind _ _ _ (fun _ tr _ => rollback_trace tr)).
    { apply triple_wrap. eapply triple_conseq; [apply RollbackToPrevious_trace|done|]. by intros []. }
    intros [d'|e] tr; apply triple_ret; intros tb H; by rewrite app_nil_r.
  - apply keeping_gate_trace; auto.
Qed.
End Run.

Section Plan.
Context (env : Env) (svc : DeploymentService).

Lemma bind_ret_result {A B} (m : St World A) (b : B) w : (bind m (fun _ => ret b) w).1 = b.
Proof. unfold bind. by destruct (m w). Qed.

Lemma executeStep_trace d name step :
  gate_threshold d <= max64 -> ds_StepName step = step_text name ->
  triple (fun _ => True) (executeStep env svc d step) (fun r tr _ => action_post svc d name r tr).
Proof.
  intros Hk E. unfold executeStep. rewrite E, step_of_text_of.
  apply triple_quiet; [unfold announce, UpdateDeploymentStatus; quiet|].
  intros _. by apply run_action_trace.
Qed.

Lemma run_step_trace d timeoutAt total name step :
  gate_threshold d <= max64 -> ds_StepName step = step_text name ->
  triple (fun _ => True) (run_step env svc d timeoutAt total step) (fun r tr _ =>
    match r with
    | Ok d' => step_trace svc d name tr /\ config d' = config d
    | Err _ => failed_trace svc d [name] tr
    end).
Proof.
  intros Hk E. unfold run_step, markStepStarted, markStepCompleted, markStepFailed, set_step, updateProgress.
  apply triple_quiet; [quiet|]. intros _. apply triple_quiet; [quiet|]. intros _.
  apply (triple_bind _ _ _ _ _ (executeStep_trace d name step Hk E)). intros [d'|e] tr w H; simpl in H.
  - set (rest := bind _ _). assert (Hq : quiet rest) by (unfold rest; quiet).
    destruct (Hq w I) as (tr' & E' & ->). exists []. split; [exact E'|].
    rewrite app_nil_r. unfold rest, ok. by rewrite bind_ret_result.
  - set (rest := bind _ _).
    assert (Ht : triple (fun _ => True) rest (fun r tr _ => is_ok r = false /\ rollback_trace tr)).
    { unfold rest. apply triple_quiet; [quiet|]. intros _.
      apply (triple_bind _ _ _ _ _ (handleStepFailure_trace env svc d e)). intros _ tr3.
      apply triple_ret. intros tb. by rewrite app_nil_r. }
    destruct (Ht w I) as (tr3 & E3 & Hr & H3). exists tr3. split; [exact E3|].
    destruct (rest w).1; [done|].
    exists [], name, [], [], tr, tr3. split_and!; try done. constructor.
Qed.

(** The pending steps of a list run as the plan they name. *)
Lemma run_steps_trace d timeoutAt total rows plan :
  gate_threshold d <= max64 ->
  map ds_StepName (filter (fun s => is_step_status s StepStatusPending = true) rows)
    = map step_text plan ->
  triple (fun _ => True) (run_steps env svc d timeoutAt total rows) (fun r tr _ =>
    match r with
    | Ok d' => plan_trace svc d plan tr /\ config d' = config d
    | Err _ => failed_trace svc d plan tr
    end).
Proof.
  revert d plan. induction rows as [|row rows IH]; intros d plan Hk Hp.
  { destruct plan; [|done]. apply triple_ret. intros _ _. split; [constructor|done]. }
  cbn [run_steps]. rewrite filter_cons in Hp.
  destruct (is_step_status row StepStatusPending) eqn:Hrow; cbn [negb];
    [rewrite decide_True in Hp by done|rewrite decide_False in Hp by done; by apply IH].
  destruct plan as [|name plan]; [done|]. injection Hp as Hname Hp.
  apply (triple_bind _ _ _ _ _ (run_step_trace d timeoutAt total name row Hk Hname)).
  intros [d'|e] tr.
  - intros w [Hs Hc].
    assert (Hk' : gate_threshold d' <= max64).
    { revert Hc. unfold config, gate_threshold. by intros [= _ _ _ _ _ -> _ _ _]. }
    destruct (IH d' plan Hk' Hp w I) as (tr' & E & H). exists tr'. split; [exact E|].
    destruct (run_steps _ _ _ _ _ rows w).1.
    + destruct H as [H Hc']. split; [|congruence]. constructor; [done|]. by eapply plan_trace_config.
    + apply failed_trace_cons; [done|]. by eapply failed_trace_config.
  - apply triple_ret. intros tb (b & n & a & t1 & t2 & t3 & Heq & -> & Hb & Hpt & Hr).
    rewrite app_nil_r. destruct b; [|by destruct b]. injection Heq as <- <-.
    exists [], name, plan, t1, t2, t3. done.
Qed.

(** Recording the completion. *)
Definition completed (id : string) (tb : Tables) : Prop :=
  exists d, tb_deployments tb !! id = Some d /\ dp_Status d = "completed" /\ dp_ProgressPct d = 100.

Lemma finish_run_completes id :
  triple (fun _ => True) (finish_run env id)
    (fun r tr tb => tr = [] /\ (is_ok r = true -> completed id tb)).
Proof.
  unfold finish_run, GetDeployment, UpdateDeploymentCompletion.
  apply triple_quiet_try; [quiet|done|]. intros fresh. apply triple_wrap.
  eapply (triple_conseq (fun _ => True) _ _ (fun r tr tb => tr = [] /\ (is_ok r = true -> completed id tb)));
    [|done|by intros [?|?] tr tb].
  apply triple_sql; [done|]. intros now tb _. split; [|done]. split; [done|].
  unfold update_row. destruct (tb_deployments tb !! id) as [d|] eqn:E; [|done].
  destruct (at_version _ _); [|done].
  destruct (write_row _ _ _) as [tb'|] eqn:Hw; [|done]. intros _.
  eexists. simpl. rewrite (write_row_lookup _ _ _ _ Hw), lookup_insert_eq. done.
Qed.
End Plan.

(** ** The rows of a fresh plan *)

Fixpoint fresh_rows (id : string) (i : Z) (names : list StepName) (rows : list DeploymentStep) : Prop :=
  match names, rows with
  | [], [] => True
  | name :: names, row :: rows =>
      ds_StepName row = step_text name /\ is_step_status row StepStatusPending = true /\
      ds_StepNumber row = i /\ ds_DeploymentID row = id /\ fresh_rows id (i + 1) names rows
  | _, _ => False
  end.

Lemma fresh_rows_pending id i names rows :
  fresh_rows id i names rows ->
  map ds_StepName (filter (fun s => is_step_status s StepStatusPending = true) rows)
    = map step_text names.
Proof.
  revert i rows. induction names as [|name names IH]; intros i [|row rows] H; try done.
  destruct H as (Hn & Hp & _ & _ & H). rewrite filter_cons, decide_True by done. simpl.
  rewrite Hn. f_equal. by eapply IH.
Qed.

Lemma fresh_rows_above id i names rows :
  fresh_rows id i names rows -> Forall (fun s => i <= ds_StepNumber s) rows.
Proof.
  revert i rows. induction names as [|name names IH]; intros i [|row rows] H; try done.
  destruct H as (_ & _ & Hi & _ & H). constructor; [lia|].
  eapply Forall_impl; [by eapply IH|]. simpl. intros s ?. lia.
Qed.

Lemma fresh_rows_sorted id i names rows :
  fresh_rows id i names rows -> isort by_number rows = rows.
Proof.
  intros H. apply isort_id. revert i rows H.
  induction names as [|name names IH]; intros i [|row rows] H; try done; [constructor|].
  destruct H as (_ & _ & Hi & _ & H). constructor; [by eapply IH|].
  eapply Forall_impl; [by eapply fresh_rows_above|].
  simpl. unfold by_number. intros s ?. apply Z.ltb_ge. lia.
Qed.

Lemma fresh_rows_app id i names1 names2 rows1 rows2 :
  fresh_rows id i names1 rows1 -> fresh_rows id (i + Z.of_nat (length names1)) names2 rows2 ->
  fresh_rows id i (names1 ++ names2) (rows1 ++ rows2).
Proof.
  revert i rows1. induction names1 as [|n names1 IH]; intros i [|r rows1] H1 H2; try done.
  - simpl in *. by rewrite Z.add_0_r in H2.
  - destruct H1 as (? & ? & ? & ? & H1). simpl. split_and!; try done. apply IH; [done|].
    simpl length in H2. by replace (i + 1 + Z.of_nat (length names1))
      with (i + Z.of_nat (S (length names1))) by lia.
Qed.

Section Prefix.
Context (env : Env) (svc : DeploymentService) (id : string) (d : Deployment).
Hypothesis Hother : undisturbed env id.

Notation kept rows := (fun _ tr tb => tr = [] /\ stored id d rows tb).

Lemma kept_after {A B} rows rows' (m : St World A) (k : A -> St World B)
    (R : B -> list Effect -> Tables -> Prop) :
  triple (stored id d rows) m (kept rows') -> (forall a, triple (stored id d rows') (k a) R) ->
  triple (stored id d rows) (bind m k) R.
Proof. apply triple_after. Qed.

Lemma kept_try {A B} rows (m : M A) (k : A -> M B) (R : result B -> list Effect -> Tables -> Prop) :
  triple (stored id d rows) m (kept rows) ->
  (forall e tb, stored id d rows tb -> R (Err e) [] tb) ->
  (forall a, triple (stored id d rows) (k a) R) -> triple (stored id d rows) (try m k) R.
Proof.
  intros Hm He Hk. eapply kept_after; [exact Hm|]. intros [a|e]; [apply Hk|].
  apply triple_ret. auto.
Qed.

Lemma kept_wrap {A} rows p (m : M A) :
  triple (stored id d rows) m (kept rows) -> triple (stored id d rows) (wrap p m) (kept rows).
Proof.
  intros Hm. apply triple_wrap. eapply triple_conseq; [exact Hm|done|]. by intros [?|?].
Qed.

Lemma steps_of_snoc tb s :
  steps_of id (tb <| tb_steps := tb_steps tb ++ [s] |>)
  = steps_of id tb ++ if (ds_DeploymentID s =? id)%string then [s] else [].
Proof.
  unfold steps_of. change (tb_steps (tb <| tb_steps := _ |>)) with (tb_steps tb ++ [s]).
  rewrite filter_app. f_equal. rewrite filter_cons, filter_nil.
  by destruct (_ =? _)%string.
Qed.

Lemma create_steps_rows names i rows :
  triple (stored id d rows) (create_steps env id i names) (fun r tr tb =>
    tr = [] /\ (is_ok r = true -> exists new, fresh_rows id i names new /\ stored id d (rows ++ new) tb)).
Proof using Hother.
  revert i rows. induction names as [|name names IH]; intros i rows; cbn [create_steps].
  { apply triple_ret. intros tb H. split; [done|]. intros _. exists []. by rewrite app_nil_r. }
  unfold time_now, new_uuid.
  eapply kept_after; [by apply clock_keeps|]. intros now.
  eapply kept_after; [by apply clock_keeps|]. intros uid.
  set (row := mkDeploymentStep _ _ _ _ _ _ _ _ _ _).
  apply (triple_bind _ _ _ (fun r tr tb => tr = [] /\ (is_ok r = true -> stored id d (rows ++ [row]) tb))).
  { apply triple_wrap.
    eapply (triple_conseq (stored id d rows) _ _
      (fun r tr tb => tr = [] /\ (is_ok r = true -> stored id d (rows ++ [row]) tb)));
      [|done|by intros [?|?] tr tb].
    apply triple_sql; [intros; by apply others_stored|].
    intros now' tb [Hrow Hs]. split; [|done]. split; [done|].
    case_match; [done|]. case_match; [|done]. intros _. split; [done|].
    cbn [snd]. rewrite (steps_of_snoc tb row), Hs. simpl. by rewrite String.eqb_refl. }
  intros [[]|e] tr.
  - intros w [-> H]. destruct (IH (i + 1) (rows ++ [row]) w (H eq_refl)) as (tr & E & -> & HR).
    exists []. split; [exact E|]. split; [done|]. intros Hok.
    destruct (HR Hok) as (new & Hnew & Hst). exists (row :: new).
    split; [done|]. by rewrite <- (assoc_L app) in Hst.
  - apply triple_ret. by intros tb [-> _].
Qed.
End Prefix.

(** ** The whole execution *)

Section Execution.
Context (env : Env) (svc : DeploymentService) (id : string) (d : Deployment).
Hypothesis Hother : undisturbed env id.

Notation kept T := (fun _ tr tb => tr = [] /\ T tb).

Lemma others_completed n tb : completed id tb -> completed id (others env n tb).
Proof using Hother.
  intros (d' & E & H). destruct (Hother n tb) as [E' _]. exists d'. by rewrite E'.
Qed.

Lemma completed_call {A} (k : nat -> A) :
  triple (completed id) (call env (fun n => ret (k n))) (kept (completed id)).
Proof using Hother.
  apply triple_call; [intros; by apply others_completed|]. intros n. by apply triple_ret.
Qed.

Lemma completed_publish event subject :
  triple (completed id) (publish env svc event subject) (kept (completed id)).
Proof using Hother.
  unfold publish. destruct (sv_publisher svc); [|by apply triple_ret].
  apply triple_call; [intros; by apply others_completed|]. intros _. apply triple_emit.
Qed.

Lemma release_completed executorID :
  triple (completed id) (ReleaseExecutionLeaseIfOwner env id executorID) (kept (completed id)).
Proof using Hother.
  apply sql_keeps; [intros; by apply others_completed|].
  intros now tb (d' & E & Hs & Hp). unfold update_row. rewrite E.
  destruct (_ || _); [|by exists d'].
  destruct (write_row _ _ _) as [tb'|] eqn:Hw; [|by exists d'].
  eexists. simpl. rewrite (write_row_lookup _ _ _ _ Hw), lookup_insert_eq. done.
Qed.

Lemma claim_kept rows executorID dur :
  triple (stored id d rows) (ClaimExecutionLease env id executorID dur) (kept (stored id d rows)).
Proof using Hother.
  unfold ClaimExecutionLease. eapply triple_after.
  { apply sql_keeps; [intros; by apply others_stored|].
    intros now tb Hs. by apply (update_row_stored id d rows (lease_free now)). }
  intros [[]|e]; [by apply triple_ret|].
  destruct (negb _); [by apply triple_ret|].
  eapply triple_after.
  { apply sql_keeps; [intros; by apply others_stored|]. intros now tb Hs. exact Hs. }
  intros [?|e']; [by apply triple_ret|]. destruct (_ =? _)%string; by apply triple_ret.
Qed.

(** Holding the lease adds no effects and keeps a completion. *)
Lemma under_lease_trace rows body (P : result unit -> list Effect -> Prop) :
  (forall e, P (Err e) []) ->
  triple (stored id d rows) body (fun r tr tb => P r tr /\ (is_ok r = true -> completed id tb)) ->
  triple (stored id d rows) (under_lease env id body)
    (fun r tr tb => P r tr /\ (is_ok r = true -> completed id tb)).
Proof using Hother.
  intros HP Hbody. unfold under_lease.
  apply (triple_bind _ _ _ (fun r tr tb => P r tr /\ (is_ok r = true -> completed id tb))).
  2:{ intros r tr w H. exists []. split; [by rewrite app_nil_r|]. by rewrite app_nil_r. }
  unfold new_uuid.
  eapply (kept_after id d); [by apply clock_keeps|]. intros executorID.
  apply (kept_try id d); [apply kept_wrap, claim_kept|by intros|]. intros [|]; cbn [negb].
  2:{ apply triple_ret. done. }
  apply (triple_bind _ _ _ _ _ Hbody). intros r tr w [H1 H2].
  assert (Hq : forall w, effects (ReleaseExecutionLeaseIfOwner env id executorID w).2 = effects w).
  { intros w'. destruct (quiet_sql env (fun now tb =>
      let '(_, tb') := update_row id
        (fun d => (dp_ExecutorID d =? executorID)%string || (executorID =? "")%string) ErrNoRows
        (fun now d => d <| dp_ExecutorID := "" |> <| dp_ExecutionLeaseUntil := None |>
                        <| dp_UpdatedAt := now |>) now tb in (Ok tt, tb')) w' I) as (t & E & ->).
    by rewrite app_nil_r in E. }
  exists []. rewrite !app_nil_r. unfold bind.
  pose proof (Hq w) as E. destruct (ReleaseExecutionLeaseIfOwner env id executorID w) as [o w1] eqn:Ew.
  split; [exact E|]. split; [done|]. intros Hok. simpl in Hok.
  destruct (release_completed executorID w (H2 Hok)) as (? & _ & _ & H). by rewrite Ew in H.
Qed.

(** Running pending steps and recording the completion. *)
Lemma finish_trace d2 timeoutAt total rows plan (k : Deployment -> M unit) :
  gate_threshold d <= max64 -> config d2 = config d ->
  map ds_StepName (filter (fun s => is_step_status s StepStatusPending = true) rows)
    = map step_text plan ->
  (forall d3, triple (fun _ => True) (k d3)
     (fun r tr tb => tr = [] /\ (is_ok r = true -> completed id tb))) ->
  triple (fun _ => True) (let? d3 := run_steps env svc d2 timeoutAt total rows in k d3) (fun r tr tb =>
    match r with Ok _ => plan_trace svc d plan tr | Err _ => failed_trace svc d plan tr \/ plan_trace svc d plan tr end
    /\ (is_ok r = true -> completed id tb)).
Proof.
  intros Hk Hc Hp Hfin.
  assert (Hk2 : gate_threshold d2 <= max64).
  { revert Hc. unfold config, gate_threshold. by intros [= _ _ _ _ _ -> _ _ _]. }
  apply (triple_bind _ _ _ _ _ (run_steps_trace env svc d2 timeoutAt total rows plan Hk2 Hp)).
  intros [d3|e] tr.
  - intros w [H _]. destruct (Hfin d3 w I) as (tr' & E & -> & H'). exists []. split; [exact E|].
    rewrite app_nil_r. apply (plan_trace_config _ _ _ _ _ Hc) in H.
    split; [|done]. destruct (k d3 w).1; auto.
  - apply triple_ret. intros tb H. rewrite app_nil_r. split; [|done]. left.
    by eapply failed_trace_config.
Qed.

(** A read that says something of its answer, [T'] of the answer and the
    tables from then on. *)
Lemma know_try {A B} (T : Tables -> Prop) (T' : A -> Tables -> Prop) p (m : M A) (k : A -> M B)
    (R : result B -> list Effect -> Tables -> Prop) :
  triple T m (fun r tr tb => tr = [] /\ forall a, r = Ok a -> T' a tb) ->
  (forall e tb, R (Err e) [] tb) -> (forall a, triple (T' a) (k a) R) ->
  triple T (let? a := wrap p m in k a) R.
Proof.
  intros Hm He Hk.
  apply (triple_bind _ _ _ (fun r tr tb => tr = [] /\ forall a, r = Ok a -> T' a tb)).
  - apply triple_wrap. eapply triple_conseq; [exact Hm|done|]. intros [a|e] tr tb [-> H]; auto.
    split; [done|]. by intros.
  - intros [a|e] tr w [-> H]; [by apply Hk, H|]. exists []. split; [by rewrite app_nil_r|apply He].
Qed.

Lemma triple_pure {A} (K : Prop) (T : Tables -> Prop) (m : St World A) Q :
  (K -> triple T m Q) -> triple (fun tb => K /\ T tb) m Q.
Proof. intros H w [HK HT]. by apply H. Qed.

Lemma triple_exists {A X} (K : X -> Prop) (T : X -> Tables -> Prop) (m : St World A) Q :
  (forall x, K x -> triple (T x) m Q) -> triple (fun tb => exists x, K x /\ T x tb) m Q.
Proof. intros H w (x & HK & HT). by apply (H x HK). Qed.

Lemma read_known rows :
  triple (stored id d rows) (GetDeployment env id) (fun r tr tb =>
    tr = [] /\ forall d', r = Ok d' -> config d' = config d /\ stored id d rows tb).
Proof using Hother.
  apply (triple_conseq _ _ _ _ _ (read_keeps env id d Hother rows)); [done|].
  intros r tr tb (-> & Hs & H). auto.
Qed.

Lemma list_known rows :
  triple (stored id d rows) (ListDeploymentSteps env id) (fun r tr tb =>
    tr = [] /\ forall l, r = Ok l -> l = isort by_number rows /\ stored id d rows tb).
Proof using Hother.
  apply (triple_conseq _ _ _ _ _ (list_steps_keeps env id d Hother rows)); [done|].
  intros r tr tb (-> & Hs & H). auto.
Qed.

Lemma create_steps_known names :
  triple (stored id d []) (create_steps env id 0 names) (fun r tr tb =>
    tr = [] /\ forall u, r = Ok u -> exists rows, fresh_rows id 0 names rows /\ stored id d rows tb).
Proof using Hother.
  apply (triple_conseq _ _ _ _ _ (create_steps_rows env id d Hother names 0 [])); [done|].
  intros r tr tb [-> H]. split; [done|]. intros u ->. by apply H.
Qed.

Lemma progress_kept rows p n t :
  triple (stored id d rows) (UpdateDeploymentProgress env id p n t) (kept (stored id d rows)).
Proof using Hother.
  unfold UpdateDeploymentProgress. apply (kept_try id d); [|done|].
  - apply (triple_conseq _ _ _ _ _ (read_keeps env id d Hother rows)); [done|].
    by intros r tr tb (-> & Hs & _).
  - intros d'. by apply update_keeps.
Qed.

(** The end of a run that got through its plan. *)
Lemma execution_end event subject :
  triple (fun _ => True)
    (let! _ := call env (fun n => ret (clock env n)) in
     let? _ := finish_run env id in publish env svc event subject ;;; ok tt)
    (fun r tr tb => tr = [] /\ (is_ok r = true -> completed id tb)).
Proof using Hother.
  apply triple_quiet; [quiet|]. intros _.
  apply (triple_bind _ _ _ _ _ (finish_run_completes env id)). intros [[]|e] tr.
  - intros w [-> H]. specialize (H eq_refl).
    pose proof (triple_after _ _ _ (fun _ => ok tt) (fun r tr tb => tr = [] /\ completed id tb)
      (completed_publish event subject) (fun _ => triple_ret _ _ _ (fun tb H => conj eq_refl H))) as Ht.
    destruct (Ht w H) as (tr & E & -> & Hc). exists []. split; [exact E|]. auto.
  - apply triple_ret. intros tb [-> _]. done.
Qed.

(** What an execution may have done. *)
Definition run_outcome (plan : list StepName) (r : result unit) (tr : list Effect) : Prop :=
  match r with
  | Ok _ => plan_trace svc d plan tr
  | Err _ => tr = [] \/ failed_trace svc d plan tr \/ plan_trace svc d plan tr
  end.

Lemma execute_claimed_trace :
  dp_HealthGateThreshold d <= max64 ->
  triple (stored id d []) (execute_claimed env svc id) (fun r tr tb =>
    run_outcome (stepsForStrategy (dp_Strategy d) (dp_HealthGateEnabled d)) r tr /\
    (is_ok r = true -> completed id tb)).
Proof using Hother.
  intros Hth.
  assert (Hk : gate_threshold d <= max64).
  { unfold gate_threshold, DefaultHealthGateThreshold, max64 in *. destruct (_ <=? 0); lia. }
  unfold execute_claimed, time_now, updateProgress.
  eapply (kept_after id d); [by apply clock_keeps|]. intros start.
  eapply know_try; [apply (read_known [])|by split; [left|]|]. intros sd.
  apply triple_pure. intros Hsd.
  destruct (negb _); [apply triple_ret; intros tb _; split; [by left|done]|].
  apply (kept_try id d); [apply kept_wrap; by apply update_keeps|by split; [left|]|]. intros [].
  replace (dp_Strategy sd) with (dp_Strategy d) by (unfold config in Hsd; congruence).
  replace (dp_HealthGateEnabled sd) with (dp_HealthGateEnabled d) by (unfold config in Hsd; congruence).
  set (plan := stepsForStrategy _ _).
  eapply know_try; [apply create_steps_known|by split; [left|]|]. intros [].
  apply triple_exists. intros rows Hrows.
  eapply know_try; [apply (read_known rows)|by split; [left|]|]. intros d2.
  apply triple_pure. intros Hd2.
  eapply (kept_after id d); [by apply clock_keeps|]. intros now. cbv zeta.
  eapply (kept_after id d); [by apply progress_kept|]. intros _.
  eapply (kept_after id d); [by apply publish_keeps|]. intros _.
  eapply know_try; [by apply list_known|by split; [left|]|]. intros steps.
  apply triple_pure. intros ->. rewrite (fresh_rows_sorted _ _ _ _ Hrows).
  eapply triple_conseq.
  - apply (finish_trace d2 _ _ rows plan (fun d3 => _) Hk Hd2 (fresh_rows_pending _ _ _ _ Hrows)).
    intros d3. apply execution_end.
  - done.
  - intros [[]|e] tr tb [H1 H2]; split; [done..|by right|done].
Qed.
End Execution.

(** ** Executing a deployment *)

(** C24: an execution follows its plan.  Whatever the node, the gateway and the
    health endpoint answer and whichever statements fail, as long as nobody
    else writes this deployment's rows: a successful execution had exactly the
    effects of the strategy's steps in order (the image applied, the health
    gate passed, traffic shifted) and left the row completed at 100 percent; a
    failed one had the effects of the steps before the failing one, part of
    those of the failing step, and at most the application of a rollback
    image. *)
Theorem ExecuteDeployment_follows_plan env svc id d w :
  undisturbed env id -> tb_deployments (w_tables w) !! id = Some d ->
  steps_of id (w_tables w) = [] -> dp_HealthGateThreshold d <= max64 ->
  let '(r, w') := ExecuteDeployment env svc id w in
  let plan := stepsForStrategy (dp_Strategy d) (dp_HealthGateEnabled d) in
  exists tr, effects w' = effects w ++ tr /\
    match r with
    | Ok _ => plan_trace svc d plan tr /\ completed id (w_tables w')
    | Err _ => tr = [] \/ failed_trace svc d plan tr \/ plan_trace svc d plan tr
    end.
Proof.
  intros Hother Hd Hs Hk. unfold ExecuteDeployment.
  pose proof (under_lease_trace env id d Hother [] _ (run_outcome svc d _)
    (fun e => or_introl eq_refl) (execute_claimed_trace env svc id d Hother Hk)) as H.
  destruct (H w) as (tr & E & Hr & Hc); [split; [by exists d|done]|].
  destruct (under_lease _ _ _ w) as [[[]|e] w']; simpl in *; eauto.
Qed.

(** A plan that starts with the image and the gate: nothing shifts before. *)
Lemma gated_trace svc d rest tr s from to weight :
  dp_HealthGateEnabled d = true ->
  let plan := [StepInit; StepProvision; StepHealthGate] ++ rest in
  failed_trace svc d plan tr \/ plan_trace svc d plan tr ->
  Shifted s from to weight ∈ tr ->
  exists cs tr', tr = Applied (dp_ServerID d) (dp_Image d) :: map (check_effect d) cs ++ tr' /\
    first_pass (gate_threshold d) cs.
Proof.
  intros Hg plan.
  assert (Hpre : forall b tr1, plan_trace svc d ([StepInit; StepProvision; StepHealthGate] ++ b) tr1 ->
    exists cs tr', tr1 = Applied (dp_ServerID d) (dp_Image d) :: map (check_effect d) cs ++ tr' /\
      first_pass (gate_threshold d) cs).
  { intros b tr1 H. inversion H as [|? ? t1 t2 H1 H2]; subst. simpl in H1. subst.
    inversion H2 as [|? ? t3 t4 H3 H4]; subst. simpl in H3. subst.
    inversion H4 as [|? ? t5 t6 H5 H6]; subst. simpl in H5. unfold gate_trace in H5.
    rewrite Hg in H5. destruct H5 as (cs & -> & Hp). by exists cs, t6. }
  assert (Hno : forall cs, Shifted s from to weight ∉ map (check_effect d) cs).
  { intros cs (c & ? & _)%list_elem_of_fmap. unfold check_effect in *. by destruct (has_endpoint d). }
  intros [(b & n & a & t1 & t2 & t3 & Hb & -> & H1 & H2 & H3)|H] Hin; [|by eapply Hpre].
  assert (Hr : Shifted s from to weight ∉ t3).
  { destruct H3 as [-> | (? & ? & ->)]; [by intros H%elem_of_nil|].
    intros [H|H%elem_of_nil]%elem_of_cons; done. }
  destruct b as [|b0 b]; [|destruct b as [|b1 b]; [|destruct b as [|b2 b]]].
  - injection Hb as <- _. simpl in H2. subst. inversion H1; subst. done.
  - injection Hb as <- <- _. simpl in H2. subst. inversion H1 as [|? ? ? ? Ha Hn]; subst.
    inversion Hn; subst. simpl in Ha. subst. done.
  - injection Hb as <- <- <- _. destruct H2 as (cs & -> & _).
    inversion H1 as [|? ? ? ? Ha Hn]; subst. inversion Hn as [|? ? ? ? Hc Hn']; subst.
    inversion Hn'; subst. simpl in Ha, Hc. subst. simpl in Hin.
    apply elem_of_cons in Hin as [?|Hin]; [done|].
    apply elem_of_app in Hin as [Hin|Hin]; [destruct (Hno _ Hin)|destruct (Hr Hin)].
  - injection Hb as <- <- <- Hb. destruct (Hpre b t1 H1) as (cs & tr' & -> & Hp).
    exists cs, (tr' ++ t2 ++ t3). split; [|done]. simpl. by rewrite <- (assoc_L app).
Qed.

(** C23: traffic only moves to a checked release.  In an execution of a gated
    blue-green or canary deployment with a health endpoint (a path and a port;
    without them the gate passes and nothing is asked), whatever calls and
    statements fail, a shift of traffic comes after the deployment's image was
    applied on its server and the health endpoint then answered the threshold
    number of successes in a row.  The execution is the first one (the
    deployment has no steps yet, so the whole plan is created), and nobody else
    writes the deployment's row and steps meanwhile. *)
Theorem promotion_is_gated env svc id d w :
  undisturbed env id -> tb_deployments (w_tables w) !! id = Some d ->
  steps_of id (w_tables w) = [] -> dp_HealthGateThreshold d <= max64 ->
  dp_HealthGateEnabled d = true -> has_endpoint d = true -> dp_Strategy d ∈ [StrategyBlueGreen; StrategyCanary] ->
  forall tr s from to weight,
  effects (ExecuteDeployment env svc id w).2 = effects w ++ tr -> Shifted s from to weight ∈ tr ->
  exists checks tr',
    tr = Applied (dp_ServerID d) (dp_Image d) :: map Checked checks
         ++ replicate (Z.to_nat (gate_threshold d)) (Checked true) ++ tr'.
Proof.
  intros Hother Hd Hs Hk Hg Hep Hst tr s from to weight E Hin.
  pose proof (under_lease_trace env id d Hother [] _ (run_outcome svc d _)
    (fun e => or_introl eq_refl) (execute_claimed_trace env svc id d Hother Hk)) as H.
  destruct (H w) as (tr2 & E2 & Hr & _); [split; [by exists d|done]|].
  fold (ExecuteDeployment env svc id) in E2, Hr. rewrite E2 in E. apply app_inv_head in E. subst tr2.
  rewrite Hg in Hr.
  assert (Hplan : exists rest, stepsForStrategy (dp_Strategy d) true
                    = [StepInit; StepProvision; StepHealthGate] ++ rest).
  { apply elem_of_cons in Hst as [-> | [-> | Hno%elem_of_nil]%elem_of_cons]; [by eexists..|done]. }
  destruct Hplan as [rest Hplan]. rewrite Hplan in Hr.
  assert (Ht : failed_trace svc d ([StepInit; StepProvision; StepHealthGate] ++ rest) tr
               \/ plan_trace svc d ([StepInit; StepProvision; StepHealthGate] ++ rest) tr).
  { unfold run_outcome in Hr. destruct (ExecuteDeployment env svc id w).1; [by right|].
    destruct Hr as [-> | Hr]; [by apply elem_of_nil in Hin|done]. }
  destruct (gated_trace svc d rest tr s from to weight Hg Ht Hin) as (cs & tr' & -> & Hp).
  destruct (first_pass_run (gate_threshold d) cs) as [pre ->]; [|done|].
  { unfold gate_threshold, DefaultHealthGateThreshold. destruct (Z.leb_spec (dp_HealthGateThreshold d) 0); lia. }
  exists pre, tr'. rewrite map_app, <- (assoc_L app). unfold check_effect. rewrite Hep. do 3 f_equal. apply (fmap_replicate Checked).
Qed.

(** The health gate passes exactly on enough consecutive successes.  When
    the gate is on, the checks made are at most as many as the ticker allowed
    before the deadline; the gate passes at the first check that completes the
    threshold number of successes in a row, and fails when all the checks the
    deadline allowed were made without that. *)
Lemma WaitForHealthGate_correct env d stepID w :
  dp_HealthGateEnabled d = true -> dp_HealthGateThreshold d <= max64 ->
  let '(r, w') := WaitForHealthGate env d stepID w in
  let ticks := gate_ticks env (w_tick w) in
  exists checks, effects w' = effects w ++ map (check_effect d) checks /\
    match r with
    | Ok _ => (length checks <= ticks)%nat /\ first_pass (gate_threshold d) checks
    | Err _ => length checks = ticks /\ never_passes (gate_threshold d) checks
    end.
Proof.
  intros Hg Hth.
  assert (Hk : 0 < gate_threshold d <= max64).
  { unfold gate_threshold, DefaultHealthGateThreshold, max64 in *.
    destruct (Z.leb_spec (dp_HealthGateThreshold d) 0); lia. }
  unfold WaitForHealthGate. rewrite Hg. cbn [negb]. unfold call.
  set (w1 := _ <| w_tables := _ |>).
  destruct (gate_loop_trace env d (gate_threshold d) stepID (gate_ticks env (w_tick w)) []
              (proj2 Hk) ltac:(by intros [|i]; apply Hk) w1 I) as (tr & E & cs & -> & Hl & Hr).
  change (streak []) with 0 in *.
  destruct (gate_loop _ _ _ _ _ _ w1) as [[[]|e] w']; exists cs; split; [exact E|done|exact E|done].
Qed.

(** ** Resuming a deployment *)

(** The steps an interruption leaves: the one that was under way or next, not
    the first of all, and pending ones. *)
Definition interrupted (rest : list DeploymentStep) : Prop :=
  match rest with
  | [] => False
  | cur :: todo =>
      open_step cur = true /\ ds_StepName cur <> step_text StepInit /\
      Forall (fun s => is_step_status s StepStatusPending = true) todo
  end.

Section Resume.
Context (env : Env) (svc : DeploymentService) (id : string) (d : Deployment).
Hypothesis Hother : undisturbed env id.
Hypothesis Hfault : forall n, fault env n = None.

(** Making a step pending again, on the rows of the deployment. *)
Definition reset_row (stepID : string) (sent now : Time) (s : DeploymentStep) : DeploymentStep :=
  if (ds_ID s =? stepID)%string then set_step_status "pending" "" sent now s else s.

Lemma reset_row_keeps stepID sent now s :
  ds_DeploymentID (reset_row stepID sent now s) = ds_DeploymentID s /\
  ds_StepName (reset_row stepID sent now s) = ds_StepName s /\
  ds_StepNumber (reset_row stepID sent now s) = ds_StepNumber s.
Proof. unfold reset_row. by destruct (_ =? _)%string. Qed.

Lemma reset_row_pending stepID sent now s :
  is_step_status s StepStatusPending = true \/ ds_ID s = stepID ->
  is_step_status (reset_row stepID sent now s) StepStatusPending = true.
Proof.
  unfold reset_row. intros [H | <-]; [by destruct (_ =? _)%string|]. by rewrite String.eqb_refl.
Qed.

Lemma steps_of_reset stepID sent now l :
  filter (fun s => (ds_DeploymentID s =? id)%string = true) (map (reset_row stepID sent now) l)
  = map (reset_row stepID sent now) (filter (fun s => (ds_DeploymentID s =? id)%string = true) l).
Proof.
  induction l as [|s l IH]; [done|]. simpl map. rewrite !filter_cons.
  destruct (reset_row_keeps stepID sent now s) as (-> & _). rewrite IH.
  by destruct (decide _).
Qed.

(** A sorted list stays sorted when the numbers are kept. *)
Lemma sorted_map (f : DeploymentStep -> DeploymentStep) l :
  (forall s, ds_StepNumber (f s) = ds_StepNumber s) ->
  StronglySorted (in_order by_number) l -> StronglySorted (in_order by_number) (map f l).
Proof.
  intros Hf. induction 1 as [|s l HS IH Hs]; simpl; constructor; [done|].
  apply Forall_map. eapply Forall_impl; [exact Hs|]. intros s'. simpl. unfold by_number.
  by rewrite !Hf.
Qed.

Lemma reset_stored rows step :
  step ∈ rows ->
  triple (stored id d rows) (UpdateDeploymentStepStatus env (ds_ID step) "pending" "")
    (fun _ tr tb => tr = [] /\ exists sent now, stored id d (map (reset_row (ds_ID step) sent now) rows) tb).
Proof using Hother Hfault.
  intros Hin. unfold UpdateDeploymentStepStatus, time_now.
  eapply (kept_after id d); [by apply clock_keeps|]. intros sent.
  apply triple_call; [intros; by apply others_stored|]. intros n w [Hd Hs].
  rewrite (Hfault n). unfold update_step.
  assert (existsb (fun s => (ds_ID s =? ds_ID step)%string) (tb_steps (w_tables w)) = true) as ->.
  { apply existsb_exists. exists step. rewrite String.eqb_refl. split; [|done].
    apply list_elem_of_In. rewrite <- Hs in Hin. by apply list_elem_of_filter in Hin as [_ ?]. }
  exists []. rewrite app_nil_r. split; [done|]. split; [done|].
  exists sent, (clock env n). split; [exact Hd|].
  rewrite <- Hs. apply (steps_of_reset (ds_ID step) sent (clock env n)).
Qed.

(** The rows resumption continues with. *)
Definition ready (skip : nat) (plan : list StepName) (rows : list DeploymentStep) : Prop :=
  isort by_number rows = rows /\
  map ds_StepName (filter (fun s => is_step_status s StepStatusPending = true) (drop skip rows))
    = map step_text plan.

Lemma pending_names plan rest :
  Forall (fun s => is_step_status s StepStatusPending = true) rest ->
  map ds_StepName rest = map step_text plan ->
  map ds_StepName (filter (fun s => is_step_status s StepStatusPending = true) rest)
    = map step_text plan.
Proof.
  intros H <-. f_equal. induction H as [|s l Hs H IH]; [done|].
  rewrite filter_cons, decide_True by done. by rewrite IH.
Qed.

Lemma ready_reset plan before cur todo stepID sent now :
  StronglySorted (in_order by_number) (before ++ cur :: todo) ->
  Forall (fun s => is_step_status s StepStatusPending = true) todo ->
  is_step_status cur StepStatusPending = true \/ ds_ID cur = stepID ->
  map ds_StepName (cur :: todo) = map step_text plan ->
  ready (length before) plan (map (reset_row stepID sent now) (before ++ cur :: todo)).
Proof.
  intros HS Ht Hc Hn. split.
  - apply isort_id, sorted_map; [apply reset_row_keeps|done].
  - rewrite map_app, drop_app_length' by (by rewrite length_map).
    apply pending_names.
    + simpl. constructor; [by apply reset_row_pending|]. apply Forall_map.
      eapply Forall_impl; [exact Ht|]. intros s Hs. apply reset_row_pending. by left.
    + rewrite <- Hn. rewrite map_map. apply map_ext. intros s. apply reset_row_keeps.
Qed.

Lemma find_start_ready d0 total plan before done_ cur todo i :
  StronglySorted (in_order by_number) (before ++ cur :: todo) ->
  Forall (fun s => open_step s = false) done_ -> interrupted (cur :: todo) ->
  map ds_StepName (cur :: todo) = map step_text plan ->
  (i + length done_ = length before)%nat ->
  triple (stored id d (before ++ cur :: todo)) (find_start env d0 total i (done_ ++ cur :: todo))
    (fun k tr tb => tr = [] /\ k = length before /\
       exists rows, ready (length before) plan rows /\ stored id d rows tb).
Proof using Hother Hfault.
  intros HS Hd Hi Hn. destruct Hi as (Ho & Hname & Ht). revert i.
  induction Hd as [|s done_ Hs Hd IH]; intros i Hl; simpl app; cbn [find_start].
  - simpl in Hl. rewrite Nat.add_0_r in Hl. subst i.
    destruct (is_step_status cur StepStatusRunning) eqn:Hr.
    + eapply (triple_bind _ _ _ _ _ (reset_stored _ cur ltac:(by apply elem_of_app; right; left))).
      intros [[]|e] tr; apply String.eqb_neq in Hname; rewrite Hname; cbn [andb];
        apply triple_ret; intros tb (-> & sent & now & Hst);
        (split; [done|]; split; [done|]; eexists; split; [|exact Hst]; apply ready_reset; auto).
    + unfold open_step in Ho. rewrite Hr, orb_false_r in Ho. rewrite Ho.
      apply triple_ret. intros tb Hst. split; [done|]. split; [done|].
      exists (before ++ cur :: todo). split; [|done].
      split; [by apply isort_id|]. rewrite drop_app_length. apply pending_names; [by constructor|done].
  - unfold open_step in Hs. apply orb_false_elim in Hs as [Hp Hr]. rewrite Hp, Hr.
    apply IH. simpl in Hl. lia.
Qed.
End Resume.

Lemma resume_claimed_trace env svc id d before rest plan :
  undisturbed env id -> (forall n, fault env n = None) ->
  dp_HealthGateThreshold d <= max64 ->
  StronglySorted (in_order by_number) (before ++ rest) ->
  Forall (fun s => open_step s = false) before -> interrupted rest ->
  map ds_StepName rest = map step_text plan ->
  triple (stored id d (before ++ rest)) (resume_claimed env svc id) (fun r tr tb =>
    run_outcome svc d plan r tr /\ (is_ok r = true -> completed id tb)).
Proof.
  intros Hother Hfault Hth HS Hb Hi Hn. destruct rest as [|cur todo]; [done|].
  assert (Hk : gate_threshold d <= max64).
  { unfold gate_threshold, DefaultHealthGateThreshold, max64 in *. destruct (_ <=? 0); lia. }
  unfold resume_claimed, time_now.
  eapply know_try; [by apply read_known|by split; [left|]|]. intros d2.
  apply triple_pure. intros Hd2.
  eapply know_try; [by apply list_known|by split; [left|]|]. intros steps.
  apply triple_pure. intros ->. rewrite isort_id by done.
  apply (triple_bind _ _ _ _ _ (find_start_ready env id d Hother Hfault d2 _ plan before before cur
           todo 0 HS Hb Hi Hn eq_refl)).
  intros k tr w (-> & -> & rows & [Hsort Hnames] & Hst). revert w Hst. change (app (@nil Effect)) with (fun l : list Effect => l).
  cbv beta.
  match goal with |- forall w, _ -> exists tr, effects (?m w).2 = _ /\ ?Q => 
    change (triple (stored id d rows) m (fun r tr tb => run_outcome svc d plan r tr /\ (is_ok r = true -> completed id tb))) end.
  eapply know_try; [by apply list_known|by split; [left|]|]. intros steps.
  apply triple_pure. intros ->. rewrite Hsort.
  eapply (kept_after id d); [by apply clock_keeps|]. intros now. cbv zeta.
  eapply triple_conseq.
  - apply (finish_trace env svc id d d2 _ _ (drop (length before) rows) plan (fun _ => _) Hk Hd2 Hnames).
    intros _. apply finish_run_completes.
  - done.
  - intros [[]|e] tr tb [H1 H2]; split; [done..|by right|done].
Qed.

(** An interrupted execution resumes with the steps that are left.  When
    the statements succeed and nobody else writes this deployment's rows, a
    resumption runs the interrupted step (again, when it was under way) and
    the pending steps after it, in order and with the guarantees of a first
    execution, and completes the deployment if they all succeed; the steps
    before it are not run again, however they ended. *)
Lemma resumeFromStep_runs_the_rest env svc id d w before rest plan :
  undisturbed env id -> (forall n, fault env n = None) ->
  tb_deployments (w_tables w) !! id = Some d -> dp_HealthGateThreshold d <= max64 ->
  steps_of id (w_tables w) = before ++ rest ->
  StronglySorted (in_order by_number) (before ++ rest) ->
  Forall (fun s => open_step s = false) before -> interrupted rest ->
  map ds_StepName rest = map step_text plan ->
  let '(r, w') := resumeFromStep env svc id w in
  exists tr, effects w' = effects w ++ tr /\
    match r with
    | Ok _ => plan_trace svc d plan tr /\ completed id (w_tables w')
    | Err _ => tr = [] \/ failed_trace svc d plan tr \/ plan_trace svc d plan tr
    end.
Proof.
  intros Hother Hfault Hd Hth Hs HS Hb Hi Hn. unfold resumeFromStep.
  pose proof (under_lease_trace env id d Hother _ _ (run_outcome svc d plan)
    (fun e => or_introl eq_refl)
    (resume_claimed_trace env svc id d before rest plan Hother Hfault Hth HS Hb Hi Hn)) as H.
  destruct (H w) as (tr & E & Hr & Hc); [split; [by exists d|done]|].
  destruct (under_lease _ _ _ w) as [[[]|e] w']; simpl in *; eauto.
Qed.

(** ** The execution lease *)

(** A database at one instant, with nobody else writing. *)
Definition at_time (now : Time) : Env :=
  mkEnv (fun _ tb => tb) (fun _ => None) (fun _ => now) (fun _ => "") (fun _ => None)
    (fun _ => Ok true) (fun _ => None) (fun _ => Ok true) (fun _ => Err "") (fun _ => Err "")
    (fun _ _ => Err "") (fun _ => O) (fun _ _ => "") (fun _ => true) (fun _ => true).

Definition on_tables {A} (m : M A) (tb : Tables) : result A * Tables :=
  let '(r, w) := m (mkWorld 0 tb [] ∅) in (r, w_tables w).

(** What may happen to the lease of [id]: the calls of the executors, and any
    statement that leaves the row with its lease columns. *)
Inductive LeaseOp :=
| Claim (executor : string) (d : Duration)
| Renew (executor : string) (d : Duration)
| Release (executor : string)
| Write (f : Tables -> Tables).

Definition lease_op (id : string) (now : Time) (op : LeaseOp) (tb : Tables) : Tables :=
  match op with
  | Claim e dur => (on_tables (ClaimExecutionLease (at_time now) id e dur) tb).2
  | Renew e dur => (on_tables (RenewExecutionLease (at_time now) id e dur) tb).2
  | Release e => (on_tables (ReleaseExecutionLeaseIfOwner (at_time now) id e) tb).2
  | Write f => f tb
  end.

Definition lease_columns (d : Deployment) := (dp_ExecutorID d, dp_ExecutionLeaseUntil d).

(** Operations of other executors while [holder]'s lease runs until [until]. *)
Definition foreign (id holder : string) (until now : Time) (op : LeaseOp) : Prop :=
  now <= until /\
  match op with
  | Claim e _ | Renew e _ | Release e => e <> holder /\ e <> ""
  | Write f => forall tb, lease_columns <$> tb_deployments (f tb) !! id
                          = lease_columns <$> tb_deployments tb !! id
  end.

Definition holds (id holder : string) (until : Time) (tb : Tables) : Prop :=
  lease_columns <$> tb_deployments tb !! id = Some (holder, Some until).

Lemma holds_row id holder until tb :
  holds id holder until tb ->
  exists d, tb_deployments tb !! id = Some d /\ dp_ExecutorID d = holder /\
            dp_ExecutionLeaseUntil d = Some until.
Proof.
  unfold holds, lease_columns. destruct (tb_deployments tb !! id) as [d|]; [|done].
  intros [= <- E]. by exists d.
Qed.

(** A claim while the lease runs is refused and changes nothing. *)
Lemma claim_refused id holder until now e dur tb :
  holds id holder until tb -> now <= until ->
  on_tables (ClaimExecutionLease (at_time now) id e dur) tb = (Ok false, tb).
Proof.
  intros (d & E & _ & Hu)%holds_row Hn. destruct tb as [deps steps revs]. simpl in E.
  unfold on_tables, ClaimExecutionLease, sql, call, bind, claim_row, update_row, lease_free.
  simpl. rewrite E, Hu. unfold Before. destruct (Z.ltb_spec until now); [lia|]. simpl.
  by rewrite E.
Qed.

Lemma foreign_holds id holder until now op tb :
  foreign id holder until now op -> holds id holder until tb ->
  holds id holder until (lease_op id now op tb).
Proof.
  intros [Hn Hop] H. destruct op as [e dur|e dur|e|f]; simpl.
  - by rewrite (claim_refused id holder until now e dur tb H Hn).
  - destruct Hop as [Hne _]. pose proof H as (d & E & Hd & _)%holds_row.
    destruct tb as [deps steps revs]. simpl in E.
    unfold on_tables, RenewExecutionLease, sql, call, bind, update_row. simpl. rewrite E, Hd.
    destruct (String.eqb_spec holder e); [congruence|done].
  - destruct Hop as [Hne Hne']. pose proof H as (d & E & Hd & _)%holds_row.
    destruct tb as [deps steps revs]. simpl in E.
    unfold on_tables, ReleaseExecutionLeaseIfOwner, sql, call, bind, update_row. simpl. rewrite E, Hd.
    destruct (String.eqb_spec holder e); [congruence|].
    destruct (String.eqb_spec e ""); [congruence|done].
  - unfold holds. by rewrite Hop.
Qed.

(** A lease has one holder.  Once an executor's claim succeeds, then
    whatever other executors claim, renew or release and whatever else is
    written to the row, every claim of another executor is refused until the
    duration of the lease is over. *)
Lemma lease_exclusive id e1 dur1 t1 tb tb1 ops e2 dur2 t2 :
  on_tables (ClaimExecutionLease (at_time t1) id e1 dur1) tb = (Ok true, tb1) ->
  Forall (fun '(now, op) => foreign id e1 (t1 + dur1) now op) ops -> t2 <= t1 + dur1 ->
  let tb2 := foldl (fun tb '(now, op) => lease_op id now op tb) tb1 ops in
  on_tables (ClaimExecutionLease (at_time t2) id e2 dur2) tb2 = (Ok false, tb2).
Proof.
  intros Hc Hops Ht tb2. apply (claim_refused id e1 (t1 + dur1)); [|done].
  assert (H1 : holds id e1 (t1 + dur1) tb1).
  { revert Hc. destruct tb as [deps steps revs].
    unfold on_tables, ClaimExecutionLease, sql, call, bind, claim_row, update_row. simpl.
    destruct (deps !! id) as [d|] eqn:E; [|simpl; rewrite E; done].
    destruct (lease_free t1 d); simpl; [|rewrite E; done].
    destruct (write_row _ _ _) as [tb'|msg] eqn:Hw; simpl.
    - intros [= <-]. unfold holds, const. by rewrite (write_row_lookup _ _ _ _ Hw), lookup_insert_eq.
    - destruct (negb _); simpl; [done|]. by rewrite E. }
  unfold tb2. clear tb2 Hc. revert tb1 H1.
  induction Hops as [|[now op] ops Hop _ IH]; intros tb1 H1; simpl; [done|].
  apply IH. by apply foreign_holds.
Qed.

(** ** Concrete runs *)

(** A gated blue-green deployment whose health endpoint is at port 80. *)
Definition witness_deployment (autoRollback : bool) : Deployment :=
  mkDeployment "d" "srv" StrategyBlueGreen "pending" "r/app@sha256:1" "srv-blue" "srv-green" "blue"
    "/health" 80 "localhost" "" None "blue-green" 300 true 2 100 autoRollback false false 1 0 0 None
    "" None 1 0 0 None.

Definition witness_world (autoRollback : bool) (steps : list DeploymentStep) : World :=
  mkWorld 0 (mkTables {[ "d" := witness_deployment autoRollback ]} steps []) [] ∅.

(** Every call succeeds, the clock ticks a second per call; [status] is the
    health endpoint's answer, [others] the other writers. *)
Definition witness_env (status : Z) (other : nat -> Tables -> Tables) : Env :=
  mkEnv other (fun _ => None) (fun n => Z.of_nat n * Second)
    (fun n => cat ["id"; itoa (Z.of_nat n)]) (fun _ => None) (fun _ => Ok true) (fun _ => None)
    (fun _ => Ok true) (fun _ => Ok "http://n1") (fun s => Ok s) (fun _ _ => Ok status)
    (fun _ => 5%nat) (fun _ _ => "hash") (fun _ => true) (fun _ => true).

Definition nobody (n : nat) (tb : Tables) : Tables := tb.
Definition witness_service : DeploymentService := mkDeploymentService true true true false.

Lemma nobody_undisturbed status id : undisturbed (witness_env status nobody) id.
Proof. done. Qed.

Definition step_statuses (w : World) : list (string * string) :=
  map (fun s => (ds_StepName s, ds_Status s)) (tb_steps (w_tables w)).
Definition row_status (w : World) : option (string * string) :=
  (fun d => (dp_Status d, dp_ActiveTarget d)) <$> tb_deployments (w_tables w) !! "d".

Lemma ExecuteDeployment_follows_plan_witness :
  row_status (ExecuteDeployment (witness_env 200 nobody) witness_service "d" (witness_world false [])).2
    = Some ("completed", "green") /\
  exists tr, plan_trace witness_service (witness_deployment false)
    [StepInit; StepProvision; StepHealthGate; StepPromote; StepVerify; StepDrainOld; StepComplete] tr.
Proof.
  split; [vm_compute; reflexivity|].
  pose proof (ExecuteDeployment_follows_plan (witness_env 200 nobody) witness_service "d"
    (witness_deployment false) (witness_world false []) (nobody_undisturbed 200 "d") eq_refl eq_refl
    ltac:(vm_compute; discriminate)) as H.
  destruct (ExecuteDeployment _ _ _ _) as [r w'] eqn:E.
  assert (Hr : r = Ok tt).
  { change r with (fst (r, w')). rewrite <- E. vm_compute. reflexivity. }
  subst r. destruct H as (tr & _ & Hp & _). exists tr. exact Hp.
Defined.

Lemma promotion_is_gated_witness :
  let run := ExecuteDeployment (witness_env 200 nobody) witness_service "d" (witness_world false []) in
  existsb (fun e => match e with Shifted _ _ _ _ => true | _ => false end) (effects run.2) = true /\
  exists checks tr', effects run.2 =
    Applied "srv" "r/app@sha256:1" :: map Checked checks ++ [Checked true; Checked true] ++ tr'.
Proof.
  pose proof (promotion_is_gated (witness_env 200 nobody) witness_service "d"
    (witness_deployment false) (witness_world false []) (nobody_undisturbed 200 "d") eq_refl eq_refl
    ltac:(vm_compute; discriminate) eq_refl eq_refl ltac:(left)) as H.
  split; [vm_compute; reflexivity|].
  assert (Hin : Shifted "srv" "blue" "green" 100 ∈ effects
    (ExecuteDeployment (witness_env 200 nobody) witness_service "d" (witness_world false [])).2).
  { apply list_elem_of_In. vm_compute. auto 10. }
  revert H Hin. generalize (effects (ExecuteDeployment (witness_env 200 nobody) witness_service "d"
    (witness_world false [])).2). intros tr H Hin.
  exact (H tr "srv" "blue" "green" 100 eq_refl Hin).
Defined.

Lemma WaitForHealthGate_correct_witness :
  let run := WaitForHealthGate (witness_env 500 nobody) (witness_deployment false) "s" (witness_world false []) in
  is_ok run.1 = false /\ exists checks, effects run.2 = map Checked checks /\ length checks = 5%nat.
Proof.
  split; [vm_compute; reflexivity|].
  pose proof (WaitForHealthGate_correct (witness_env 500 nobody) (witness_deployment false) "s"
    (witness_world false []) eq_refl ltac:(vm_compute; discriminate)) as H.
  destruct (WaitForHealthGate _ _ _ _) as [r w'] eqn:E.
  assert (Hr : is_ok r = false).
  { change r with (fst (r, w')). rewrite <- E. vm_compute. reflexivity. }
  destruct r; [discriminate|]. destruct H as (cs & Hc & Hl & _). exists cs. exact (conj Hc Hl).
Defined.

Definition row (n : Z) (name : StepName) (st : StepStatus) : DeploymentStep :=
  mkDeploymentStep (step_text name) "d" n (step_text name) (step_status_text st) None None "" 0 0.

(** Stopped while the health gate was under way. *)
Definition stopped_steps : list DeploymentStep :=
  [row 0 StepInit StepStatusCompleted; row 1 StepProvision StepStatusCompleted]
  ++ [row 2 StepHealthGate StepStatusRunning; row 3 StepPromote StepStatusPending;
      row 4 StepVerify StepStatusPending; row 5 StepDrainOld StepStatusPending;
      row 6 StepComplete StepStatusPending].

Lemma resumeFromStep_runs_the_rest_witness :
  row_status (resumeFromStep (witness_env 200 nobody) witness_service "d" (witness_world false stopped_steps)).2
    = Some ("completed", "green") /\
  exists tr, plan_trace witness_service (witness_deployment false)
    [StepHealthGate; StepPromote; StepVerify; StepDrainOld; StepComplete] tr.
Proof.
  split; [vm_compute; reflexivity|].
  assert (HS : StronglySorted (in_order by_number) (take 2 stopped_steps ++ drop 2 stopped_steps)).
  { repeat (constructor; [|repeat (constructor; [vm_compute; reflexivity|]); constructor]). constructor. }
  assert (Hb : Forall (fun s => open_step s = false) (take 2 stopped_steps)).
  { repeat (constructor; [vm_compute; reflexivity|]). constructor. }
  assert (Hi : interrupted (drop 2 stopped_steps)).
  { split; [vm_compute; reflexivity|]. split; [vm_compute; discriminate|].
    repeat (constructor; [vm_compute; reflexivity|]). constructor. }
  pose proof (resumeFromStep_runs_the_rest (witness_env 200 nobody) witness_service "d"
    (witness_deployment false) (witness_world false stopped_steps)
    (take 2 stopped_steps) (drop 2 stopped_steps)
    [StepHealthGate; StepPromote; StepVerify; StepDrainOld; StepComplete]
    (nobody_undisturbed 200 "d") (fun _ => eq_refl) ltac:(vm_compute; reflexivity)
    ltac:(vm_compute; discriminate) ltac:(vm_compute; reflexivity) HS Hb Hi
    ltac:(vm_compute; reflexivity)) as H.
  destruct (resumeFromStep _ _ _ _) as [r w'] eqn:E.
  assert (Hr : r = Ok tt).
  { change r with (fst (r, w')). rewrite <- E. vm_compute. reflexivity. }
  subst r. destruct H as (tr & _ & Hp & _). exists tr. exact Hp.
Defined.

Definition witness_tables : Tables := w_tables (witness_world false []).

Lemma lease_exclusive_witness :
  exists tb1, on_tables (ClaimExecutionLease (at_time 0) "d" "e1" (5 * Minute)) witness_tables = (Ok true, tb1) /\
  on_tables (ClaimExecutionLease (at_time (4 * Minute)) "d" "e2" (5 * Minute)) tb1 = (Ok false, tb1).
Proof.
  eexists. split; [vm_compute; reflexivity|].
  refine (lease_exclusive "d" "e1" (5 * Minute) 0 witness_tables _ [] "e2" (5 * Minute) (4 * Minute) _ _ _).
  - vm_compute. reflexivity.
  - constructor.
  - vm_compute. discriminate.
Defined.

(** ** Where the code falls short *)

(** A release whose health gate failed is promoted by the next resumption.
    With automatic rollback and no earlier revision (an execution creates one
    revision, so there is none), the failed deployment is left in
    "rollback_pending", which [ResumeDeployments] takes for an interrupted
    execution; the failed gate is not run again, the next pending step is the
    promotion. *)
Lemma failed_gate_promoted_on_resume :
  let failed := ExecuteDeployment (witness_env 500 nobody) witness_service "d" (witness_world true []) in
  let resumed := (ResumeDeployments (witness_env 500 nobody) witness_service ;;;
                  resumeFromStep (witness_env 200 nobody) witness_service "d") failed.2 in
  is_ok failed.1 = false /\ row_status failed.2 = Some ("rollback_pending", "blue") /\
  last (w_log (ResumeDeployments (witness_env 500 nobody) witness_service failed.2).2)
    = Some (Launched true "d") /\
  resumed.1 = Ok tt /\ row_status resumed.2 = Some ("completed", "green") /\
  ("health_gate", "failed") ∈ step_statuses resumed.2.
Proof.
  cbv zeta. split_and!; try (vm_compute; reflexivity).
  apply list_elem_of_In. vm_compute. auto.
Qed.

(** Cancelling does not stop an execution under way, which then records the
    deployment as completed. *)
Definition cancel_at (k n : nat) (tb : Tables) : Tables :=
  if (n =? k)%nat
  then w_tables (CancelDeployment (witness_env 200 nobody) witness_service "d" (mkWorld 0 tb [] ∅)).2
  else tb.

Lemma cancelled_deployment_completes :
  let run := ExecuteDeployment (witness_env 200 (cancel_at 40)) witness_service "d" (witness_world false []) in
  run.1 = Ok tt /\ row_status run.2 = Some ("completed", "green") /\
  ("complete", "completed") ∈ step_statuses run.2.
Proof.
  split_and!; [vm_compute; reflexivity..|]. apply list_elem_of_In. vm_compute. auto 10.
Qed.

(** The lease is taken for five minutes and never renewed, so a second
    executor can claim a deployment whose first execution still runs. *)
Lemma lease_lapses_during_execution :
  let '(claimed, tb1) := on_tables (ClaimExecutionLease (at_time 0) "d" "e1" (5 * Minute)) witness_tables in
  claimed = Ok true /\
  (on_tables (ClaimExecutionLease (at_time (5 * Minute + 1)) "d" "e2" (5 * Minute)) tb1).1 = Ok true.
Proof. vm_compute. done. Qed.

(** The port of a registry is taken for a tag: the image name is lost. *)
Lemma registry_port_is_dropped :
  digestImageRef "localhost:5000/app@sha256:1" = "localhost@sha256:1".
Proof. vm_compute. reflexivity. Qed.

(** After a rollback the row still names the revision rolled back from: the
    final write restores the value read at the start. *)
Definition two_revisions : list DeploymentRevision :=
  [mkDeploymentRevision "rev1" "d" 1 "r/app@sha256:0" "" "" "" "superseded" None "" "{}" 0 0;
   mkDeploymentRevision "rev2" "d" 2 "r/app@sha256:1" "" "" "" "active" None "" "{}" 0 0].

Lemma rollback_keeps_current_revision :
  let d := (witness_deployment false) <| dp_CurrentRevisionID := Some "rev2" |> in
  let run := RollbackToPrevious (witness_env 200 nobody) witness_service "d"
               (mkWorld 0 (mkTables {[ "d" := d ]} [] two_revisions) [] ∅) in
  is_ok run.1 = true /\ effects run.2 = [Applied "srv" "r/app@sha256:0"] /\
  (dp_CurrentRevisionID <$> tb_deployments (w_tables run.2) !! "d") = Some (Some "rev2").
Proof. vm_compute. done. Qed.

(** When making the interrupted step pending again fails, resumption skips it. *)
Definition reset_fails (n : nat) : option (string * bool) :=
  if (n =? 5)%nat then Some ("connection lost", false) else None.

Lemma failed_reset_skips_step :
  let env := witness_env 200 nobody in
  let env := mkEnv (others env) reset_fails (clock env) (uuid env) (apply_deployment env)
               (verify_running env) (shift_traffic env) (verify_shift env) (control_target env)
               (hostname_of env) (http_get env) (gate_ticks env) (config_hash env) (local_path env)
               (loopback env) in
  let run := resumeFromStep env witness_service "d" (witness_world false stopped_steps) in
  run.1 = Ok tt /\ head (effects run.2) = Some (Shifted "srv" "blue" "green" 100).
Proof. vm_compute. done. Qed.
