(* ===== verification/TokenStore.v ===== *)
(** * The agent's one-time ticket store

    [beacon/internal/tokens/store.go]: which tickets this process issued
    ([ts_tokens]) and which were spent ([ts_spent]), each with the instant it
    stops mattering.  Every method holds the lock, so a method is one step; its
    clock reads are arguments.  A nil store and a nil map are part of the code:
    a nil store is [None], a nil map reads and is filled like an empty one. *)
From Stdlib Require Import ZArith Lia.
From stdpp Require Import base gmap strings list fin_maps.
From S2P Require Import Prelude GoStrings.
#[local] Open Scope string_scope.
#[local] Open Scope list_scope.
#[local] Open Scope Z_scope.
#[local] Open Scope go_scope.

(** ** Data *)

(* go: beacon/tokens/store.go const:maxTracked *)
Definition maxTracked : Z := 65536.
(* go: beacon/tokens/tokens.go const:absoluteMaxLifetime *)
Definition absoluteMaxLifetime : Duration := 12 * Hour.

(* go: beacon/tokens/store.go type:TokenStore *)
Record TokenStore := mkTokenStore {
  ts_tokens : gmap string Time;
  ts_spent : gmap string Time;
  ts_lost : bool
}.

(* go: beacon/tokens/store.go func:NewTokenStore *)
Definition NewTokenStore : TokenStore := mkTokenStore ∅ ∅ false.

Definition set_tokens (m : gmap string Time) (ts : TokenStore) : TokenStore :=
  mkTokenStore m (ts_spent ts) (ts_lost ts).
Definition set_spent (m : gmap string Time) (ts : TokenStore) : TokenStore :=
  mkTokenStore (ts_tokens ts) m (ts_lost ts).
Definition set_lost (ts : TokenStore) : TokenStore :=
  mkTokenStore (ts_tokens ts) (ts_spent ts) true.

(** ** Operations *)

(* go: beacon/tokens/store.go func:NormalizeID *)
Definition NormalizeID (id : string) : string := TrimSpace id.
#[global] Arguments NormalizeID : simpl never.

(** The entries whose expiry is still ahead. *)
Definition unexpired (now : Time) (m : gmap string Time) : gmap string Time :=
  filter (fun '(_, expiry) => Before now expiry = true) m.

(* go: beacon/tokens/store.go func:TokenStore.sweepLocked *)
Definition sweepLocked (now : Time) (ts : TokenStore) : TokenStore :=
  set_tokens (unexpired now (ts_tokens ts)) ts.

(* go: beacon/tokens/store.go func:TokenStore.sweepSpentLocked *)
Definition sweepSpentLocked (now : Time) (ts : TokenStore) : TokenStore :=
  set_spent (unexpired now (ts_spent ts)) ts.

Definition count (m : gmap string Time) : Z := Z.of_nat (size m).

(* go: beacon/tokens/store.go func:TokenStore.IsValid *)
Definition IsValid (ts : option TokenStore) (uniqueID : string) (now : Time)
    : bool * option TokenStore :=
  match ts with
  | None => (false, None)
  | Some st =>
      let uniqueID := NormalizeID uniqueID in
      if (uniqueID =? "")%string then (false, ts)
      else match ts_tokens st !! uniqueID with
           | None => (false, ts)
           | Some expiry =>
               if negb (Before now expiry)
               then (false, Some (set_tokens (delete uniqueID (ts_tokens st)) st))
               else (default zeroTime (ts_spent st !! uniqueID) =? zeroTime, ts)
           end
  end.

(** Makes room for a spend, or not. *)
Definition room_for_spend (now : Time) (st : TokenStore) : TokenStore :=
  if maxTracked <=? count (ts_spent st) then sweepSpentLocked now st else st.

(* go: beacon/tokens/store.go func:TokenStore.ConsumeUntil *)
Definition ConsumeUntil (ts : option TokenStore) (uniqueID : string) (until now : Time)
    : bool * option TokenStore :=
  match ts with
  | None => (false, None)
  | Some st =>
      let uniqueID := NormalizeID uniqueID in
      if (uniqueID =? "")%string then (false, ts)
      else
        let replay := match ts_spent st !! uniqueID with
                      | Some entry => Before now entry
                      | None => false
                      end in
        if replay then (false, ts)
        else
          let exists_ := ts_tokens st !! uniqueID in
          let expiry := default until exists_ in
          if negb (After expiry now) then
            (false, Some (match exists_ with
                          | Some _ => set_tokens (delete uniqueID (ts_tokens st)) st
                          | None => st
                          end))
          else
            let st := room_for_spend now st in
            if maxTracked <=? count (ts_spent st) then (false, Some (set_lost st))
            else
              (true, Some (set_spent (<[uniqueID := expiry]> (ts_spent st))
                             (set_tokens (delete uniqueID (ts_tokens st)) st)))
  end.

(* go: beacon/tokens/store.go func:TokenStore.Consume *)
Definition Consume (ts : option TokenStore) (uniqueID : string) (now1 now2 : Time)
    : bool * option TokenStore :=
  ConsumeUntil ts uniqueID (time_add now1 absoluteMaxLifetime) now2.

(* go: beacon/tokens/store.go func:TokenStore.Redeemed *)
Definition Redeemed (ts : option TokenStore) (uniqueID : string) (now : Time)
    : bool * option TokenStore :=
  match ts with
  | None => (true, None)
  | Some st =>
      let uniqueID := NormalizeID uniqueID in
      if (uniqueID =? "")%string then (true, ts)
      else if ts_lost st then (true, ts)
      else match ts_spent st !! uniqueID with
           | None => (false, ts)
           | Some expiry =>
               if negb (Before now expiry)
               then (false, Some (set_spent (delete uniqueID (ts_spent st)) st))
               else (true, ts)
           end
  end.

(** [now1] is read before the lock is taken, [now2] by the sweep. *)
(* go: beacon/tokens/store.go func:TokenStore.Add *)
Definition AddToken (ts : option TokenStore) (uniqueID : string) (expiry now1 now2 : Time)
    : bool * option TokenStore :=
  match ts with
  | None => (false, None)
  | Some st =>
      let uniqueID := NormalizeID uniqueID in
      if (uniqueID =? "")%string || negb (Before now1 expiry) then (false, ts)
      else
        let st := if maxTracked <=? count (ts_tokens st) then sweepLocked now2 st else st in
        if maxTracked <=? count (ts_tokens st) then (false, Some (set_lost st))
        else (true, Some (set_tokens (<[uniqueID := expiry]> (ts_tokens st)) st))
  end.

(* go: beacon/tokens/store.go func:TokenStore.Cleanup *)
Definition Cleanup (ts : option TokenStore) (now : Time) : option TokenStore :=
  match ts with
  | None => None
  | Some st => Some (sweepSpentLocked now (sweepLocked now st))
  end.

(* go: beacon/tokens/store.go func:TokenStore.LostEntries *)
Definition LostEntries (ts : option TokenStore) : bool :=
  match ts with None => true | Some st => ts_lost st end.

(** ** Runs *)

(** A call, with what it needs besides the clock. *)
Inductive TokenCall :=
| CallIsValid (id : string)
| CallConsume (id : string) (earlier : Time)
| CallConsumeUntil (id : string) (until : Time)
| CallRedeemed (id : string)
| CallAdd (id : string) (expiry earlier : Time)
| CallCleanup.

Definition token_call (c : TokenCall) (now : Time) (ts : option TokenStore)
    : bool * option TokenStore :=
  match c with
  | CallIsValid id => IsValid ts id now
  | CallConsume id earlier => Consume ts id earlier now
  | CallConsumeUntil id until => ConsumeUntil ts id until now
  | CallRedeemed id => Redeemed ts id now
  | CallAdd id expiry earlier => AddToken ts id expiry earlier now
  | CallCleanup => (true, Cleanup ts now)
  end.

(** Calls one after the other, each at its instant. *)
Definition token_run (calls : list (Time * TokenCall)) (ts : option TokenStore) : option TokenStore :=
  foldl (fun ts '(now, c) => (token_call c now ts).2) ts calls.

(** ** Lemmas *)

(** [id] was spent and the spend is remembered until [x]. *)
Definition spent_until (id : string) (x : Time) (ts : option TokenStore) : Prop :=
  exists st, ts = Some st /\ ts_spent st !! NormalizeID id = Some x.

Lemma unexpired_lookup now m k x :
  now < x -> m !! k = Some x -> unexpired now m !! k = Some x.
Proof.
  intros Hn Hm. apply map_lookup_filter_Some. split; [done|].
  unfold Before. by apply Z.ltb_lt.
Qed.

Lemma unexpired_size now m : (size (unexpired now m) <= size m)%nat.
Proof. apply map_size_filter. Qed.

(** No call before [x] forgets a spend. *)
Lemma spent_kept c now id x ts :
  now < x -> spent_until id x ts -> spent_until id x (token_call c now ts).2.
Proof.
  intros Hn (st & -> & Hs).
  assert (Hfound : spent_until id x (Some st)) by (by exists st).
  assert (Hcons : forall id' until, spent_until id x (ConsumeUntil (Some st) id' until now).2).
  { intros id' until. simpl. destruct (_ =? "")%string; [done|].
    destruct (decide (NormalizeID id' = NormalizeID id)) as [E|E].
    { rewrite E, Hs. unfold Before. by replace (now <? x) with true by (symmetry; apply Z.ltb_lt; lia). }
    destruct (match ts_spent st !! NormalizeID id' with Some _ => _ | None => _ end); [done|].
    destruct (negb _); [destruct (ts_tokens st !! _); by eexists|].
    assert (Hroom : ts_spent (room_for_spend now st) !! NormalizeID id = Some x).
    { unfold room_for_spend. case_match; [by apply unexpired_lookup|done]. }
    case_match; simpl; [by eexists|]. eexists. split; [done|]. simpl.
    by rewrite lookup_insert_ne. }
  destruct c as [id'|id' e|id' until|id'|id' expiry e|]; simpl token_call; [|apply Hcons..| | |].
  - simpl. destruct (_ =? "")%string; [done|]. destruct (ts_tokens st !! _); [|done].
    destruct (negb _); [by eexists|done].
  - simpl. destruct (_ =? "")%string; [done|]. destruct (ts_lost st); [done|].
    destruct (ts_spent st !! NormalizeID id') as [x'|] eqn:E; [|done].
    unfold Before. destruct (Z.ltb_spec now x') as [Hx|Hx]; [done|]. simpl.
    eexists. split; [done|]. simpl. rewrite lookup_delete_ne; [done|]. intros Heq.
    rewrite Heq, Hs in E. injection E. lia.
  - simpl. destruct (_ || _); [done|]. case_match; case_match; simpl; by eexists.
  - eexists. split; [done|]. simpl. by apply unexpired_lookup.
Qed.

Lemma run_spent_kept calls id x ts :
  Forall (fun '(now, _) => now < x) calls -> spent_until id x ts ->
  spent_until id x (token_run calls ts).
Proof.
  intros H. revert ts. induction H as [|[now c] calls Hn _ IH]; intros ts Hs; [done|].
  simpl. by apply IH, spent_kept.
Qed.

(** How long a spend is remembered. *)
Definition remembered (st : TokenStore) (id : string) (until : Time) : Time :=
  default until (ts_tokens st !! NormalizeID id).

Lemma ConsumeUntil_spends st id until now ts' :
  ConsumeUntil (Some st) id until now = (true, ts') ->
  now < remembered st id until /\ spent_until id (remembered st id until) ts'.
Proof.
  simpl. unfold remembered. destruct (_ =? "")%string; [done|].
  destruct (match ts_spent st !! _ with Some _ => _ | None => _ end); [done|].
  unfold After. destruct (Z.ltb_spec now (default until (ts_tokens st !! NormalizeID id))) as [Hn|Hn]; [|done].
  cbn [negb]. case_match; [done|]. intros [= <-]. split; [done|].
  eexists. split; [done|]. simpl. apply lookup_insert_eq.
Qed.

(** ** Properties *)

(** C29: a ticket is spent once.  After a ticket was consumed, no sequence of
    calls, whatever they are and in whatever order, makes a second consumption
    of it succeed before the instant the spend is remembered for (the ticket's
    recorded expiry, or the given one for a ticket issued elsewhere), under any
    spelling of its id; and until then it counts as redeemed. *)
Theorem ticket_spent_once st id until now ts' calls id' until' now' :
  ConsumeUntil (Some st) id until now = (true, ts') ->
  let x := remembered st id until in
  Forall (fun '(t, _) => t < x) calls -> now' < x -> NormalizeID id' = NormalizeID id ->
  let ts := token_run calls ts' in
  (ConsumeUntil ts id' until' now').1 = false /\ (Redeemed ts id' now').1 = true.
Proof.
  intros Hc x Hcalls Hn Hid ts. apply ConsumeUntil_spends in Hc as [Hx Hs].
  destruct (run_spent_kept calls id x ts' Hcalls Hs) as (st' & E & Hs'). subst ts. rewrite E.
  simpl. rewrite Hid, Hs'. unfold Before.
  replace (now' <? x) with true by (symmetry; by apply Z.ltb_lt).
  destruct (_ =? "")%string; [done|]. by destruct (ts_lost st').
Qed.

(** What every reachable store satisfies. *)
Definition bounded (ts : TokenStore) : Prop :=
  count (ts_tokens ts) <= maxTracked /\ count (ts_spent ts) <= maxTracked.

Lemma count_insert (m : gmap string Time) k v :
  count m < maxTracked -> count (<[k := v]> m) <= maxTracked.
Proof.
  unfold count. destruct (m !! k) eqn:E.
  - rewrite map_size_insert_Some by eauto. lia.
  - rewrite map_size_insert_None by done. lia.
Qed.

Lemma count_delete (m : gmap string Time) k : count (delete k m) <= count m.
Proof. unfold count. rewrite map_size_delete. destruct (m !! k); simpl; lia. Qed.

Lemma count_unexpired now m : count (unexpired now m) <= count m.
Proof. unfold count. pose proof (unexpired_size now m). lia. Qed.

Definition all_bounded (ts : option TokenStore) : Prop := forall st, ts = Some st -> bounded st.

Lemma ConsumeUntil_bounded ts id until now :
  all_bounded ts -> all_bounded (ConsumeUntil ts id until now).2.
Proof.
  intros H. destruct ts as [st|]; [|done]. pose proof (H st eq_refl) as [Ht Hs].
  simpl. destruct (_ =? "")%string; [done|].
  destruct (match ts_spent st !! _ with Some _ => _ | None => _ end); [done|].
  destruct (negb _).
  { destruct (ts_tokens st !! _); intros st' [= <-]; split; simpl; try done.
    etransitivity; [apply count_delete|done]. }
  assert (Hroom : bounded (room_for_spend now st)).
  { unfold room_for_spend. case_match; split; simpl; try done.
    etransitivity; [apply count_unexpired|done]. }
  destruct Hroom as [Ht' Hs']. destruct (Z.leb_spec maxTracked (count (ts_spent (room_for_spend now st))));
    intros st' [= <-]; split; simpl; try done.
  - etransitivity; [apply count_delete|done].
  - by apply count_insert.
Qed.

Lemma token_call_bounded c now ts : all_bounded ts -> all_bounded (token_call c now ts).2.
Proof.
  intros H. destruct c as [id|id e|id until|id|id expiry e|]; simpl token_call;
    try by apply ConsumeUntil_bounded.
  all: destruct ts as [st|]; [|done]; pose proof (H st eq_refl) as [Ht Hs]; simpl.
  - destruct (_ =? "")%string; [done|]. destruct (ts_tokens st !! _); [|done].
    destruct (negb _); [|done]. intros st' [= <-]. split; simpl; [|done].
    etransitivity; [apply count_delete|done].
  - destruct (_ =? "")%string; [done|]. destruct (ts_lost st); [done|].
    destruct (ts_spent st !! _); [|done]. destruct (negb _); [|done].
    intros st' [= <-]. split; simpl; [done|]. etransitivity; [apply count_delete|done].
  - destruct (_ || _); [done|].
    set (st2 := if maxTracked <=? count (ts_tokens st) then sweepLocked now st else st).
    assert (H2 : bounded st2).
    { unfold st2. case_match; split; simpl; try done. etransitivity; [apply count_unexpired|done]. }
    destruct H2 as [Ht2 Hs2]. destruct (Z.leb_spec maxTracked (count (ts_tokens st2)));
      intros st' [= <-]; split; simpl; try done. by apply count_insert.
  - intros st' [= <-]. split; simpl; (etransitivity; [apply count_unexpired|done]).
Qed.

Lemma token_call_lost c now ts : LostEntries ts = true -> LostEntries (token_call c now ts).2 = true.
Proof.
  intros H. destruct ts as [st|]; [|by destruct c]. simpl in H.
  destruct c; simpl; unfold room_for_spend; repeat first [done | case_match; simpl in * ].
Qed.

(** The store is bounded and fails closed.  However the calls interleave,
    it never tracks more than [maxTracked] issued or spent tickets; a live
    ticket that was not spent is consumed, unless the spend cannot be recorded,
    which marks the store; the mark stays, and a marked store answers that any
    ticket was redeemed. *)
Lemma store_fails_closed calls more id now :
  let ts := token_run calls (Some NewTokenStore) in
  (exists st, ts = Some st /\ count (ts_tokens st) <= maxTracked /\ count (ts_spent st) <= maxTracked) /\
  (forall st x, ts = Some st -> NormalizeID id <> "" ->
     (forall e, ts_spent st !! NormalizeID id = Some e -> e <= now) -> now < remembered st id x ->
     (ConsumeUntil ts id x now).1 = true \/ LostEntries (ConsumeUntil ts id x now).2 = true) /\
  (LostEntries ts = true ->
     LostEntries (token_run more ts) = true /\ (Redeemed (token_run more ts) id now).1 = true).
Proof.
  assert (Hb : all_bounded (token_run calls (Some NewTokenStore))).
  { assert (H0 : all_bounded (Some NewTokenStore)) by (by intros st [= <-]).
    revert H0. generalize (Some NewTokenStore). induction calls as [|[t c] calls IH]; intros ts H; [done|].
    simpl. by apply IH, token_call_bounded. }
  assert (Hsome : exists st, token_run calls (Some NewTokenStore) = Some st).
  { clear Hb. generalize NewTokenStore. induction calls as [|[t c] calls IH]; intros st; [by exists st|].
    simpl. destruct c; simpl; repeat case_match; apply IH. }
  destruct Hsome as [st Hst]. intros ts. unfold ts. rewrite Hst in *. split_and!.
  - exists st. split; [done|]. by apply Hb.
  - intros st2 x [= <-] Hid Hfree Hlive. simpl. apply String.eqb_neq in Hid. rewrite Hid.
    assert ((match ts_spent st !! NormalizeID id with
             | Some entry => Before now entry | None => false end) = false) as ->.
    { destruct (ts_spent st !! NormalizeID id) as [e|]; [|done].
      apply Z.ltb_ge. by apply Hfree. }
    unfold remembered in Hlive. unfold After.
    destruct (Z.ltb_spec now (default x (ts_tokens st !! NormalizeID id))); [|lia].
    cbn [negb]. case_match; [by right|by left].
  - intros H.
    assert (Hm : LostEntries (token_run more (Some st)) = true).
    { revert H. generalize (Some st). induction more as [|[t c] more IH]; intros s H; [done|].
      simpl. by apply IH, token_call_lost. }
    split; [done|]. destruct (token_run more (Some st)) as [st'|]; [|done]. simpl in *.
    rewrite Hm. by destruct (_ =? "")%string.
Qed.

(** ** A concrete store *)

Lemma ticket_spent_once_witness :
  let ts := (ConsumeUntil (Some NewTokenStore) "ticket" (10 * Second) Second).2 in
  let ts := token_run [(2 * Second, CallCleanup); (3 * Second, CallConsume "other" 0)] ts in
  (ConsumeUntil ts " ticket " (20 * Second) (4 * Second)).1 = false /\
  (Redeemed ts " ticket " (4 * Second)).1 = true.
Proof.
  refine (ticket_spent_once NewTokenStore "ticket" (10 * Second) Second _ _ " ticket " (20 * Second)
            (4 * Second) _ _ _ _).
  - vm_compute. reflexivity.
  - repeat constructor; vm_compute; reflexivity.
  - vm_compute. reflexivity.
  - vm_compute. reflexivity.
Defined.

Lemma store_fails_closed_witness :
  let ts := token_run [(0, CallAdd "a" (5 * Second) 0)] (Some NewTokenStore) in
  (ConsumeUntil ts "a" 0 Second).1 = true \/ LostEntries (ConsumeUntil ts "a" 0 Second).2 = true.
Proof.
  refine (proj1 (proj2 (store_fails_closed [(0, CallAdd "a" (5 * Second) 0)] [] "a" Second))
            (mkTokenStore {[ "a" := 5 * Second ]} ∅ false) 0 _ _ _ _).
  - vm_compute. reflexivity.
  - vm_compute. discriminate.
  - intros e He. vm_compute in He. discriminate.
  - vm_compute. reflexivity.
Defined.
