(* ===== verification/OpQueue.v ===== *)
(** * The agent's operation queue

    [beacon/internal/server/queue.go]: power commands wait in a bounded
    channel for a few workers, and every change of an operation is written to
    a journal (SQLite) from which the next process resumes.

    The map, the channel and the workers hold pointers to shared operations;
    the model keeps the memory ([oq_objs]) and the addresses.  A method that
    holds the mutex throughout is one step; [EnqueueCommandWithTTL],
    [processOp], [Start] and [Shutdown] release it, and their parts are
    separate steps ([world_step]) between which everything else may happen.

    A statement on the journal succeeds, fails, or takes effect and reports an
    error ([write]); the tables and their constraints are part of the
    statements.  Clock reads are arguments. *)
From Stdlib Require Import ZArith Lia.
From stdpp Require Import base gmap strings list fin_maps.
From coqutil Require Import Datatypes.RecordSettersUsingExistingGetters.
From S2P Require Import Prelude GoStrings GoSort.
Import RecordSetNotations1.
#[local] Open Scope string_scope.
#[local] Open Scope list_scope.
#[local] Open Scope Z_scope.
#[local] Open Scope go_scope.

(** ** Data *)

(* go: beacon/server/queue.go const:StatusPending *)
Definition StatusPending : string := "pending".
(* go: beacon/server/queue.go const:StatusRunning *)
Definition StatusRunning : string := "running".
(* go: beacon/server/queue.go const:StatusCompleted *)
Definition StatusCompleted : string := "completed".
(* go: beacon/server/queue.go const:StatusFailed *)
Definition StatusFailed : string := "failed".
(* go: beacon/server/queue.go const:StatusCancelled *)
Definition StatusCancelled : string := "cancelled".

(* go: beacon/server/queue.go const:ErrQueueFull *)
Definition ErrQueueFull : string := "operation queue is full".
(* go: beacon/server/queue.go const:ErrQueueStopped *)
Definition ErrQueueStopped : string := "operation queue is stopped".
(* go: beacon/server/queue.go const:ErrOperationNotFound *)
Definition ErrOperationNotFound : string := "operation not found".

(* go: beacon/server/queue.go type:Operation *)
Record Operation := mkOp {
  op_ID : string;
  op_CommandID : string;
  op_ServerID : string;
  op_Type : string;
  op_Status : string;
  op_Error : string;
  op_CreatedAt : Time;
  op_StartedAt : Time;
  op_CompletedAt : Time;
  op_TTL : Duration;
  op_Progress : string;
  op_ProgressPct : Z;
  op_ResultData : string;
  op_Acknowledged : bool
}.

(** A row of [beacon_operations]; [None] is NULL. *)
(* go: beacon/server/queue.go L111-114 *)
Record Row := mkRow {
  w_command_id : option string;
  w_server_id : string;
  w_type : string;
  w_status : string;
  w_error : string;
  w_created_at : Time;
  w_started_at : option Time;
  w_completed_at : option Time;
  w_ttl : option Z;
  w_progress : string;
  w_progress_pct : Z;
  w_result_data : string;
  w_acknowledged : Z
}.

Abbreviation Journal := (gmap string Row) (only parsing).
Abbreviation ptr := positive (only parsing).

(** [oq_db] is the open journal; a memory-only queue has none.  [oq_dbopen]
    says whether it has been closed; a closed database refuses statements. *)
(* go: beacon/server/queue.go type:OperationQueue *)
Record OperationQueue := mkOQ {
  oq_objs : gmap ptr Operation;
  oq_operations : gmap string ptr;
  oq_serverOps : gmap string (list string);
  oq_ch : list ptr;
  oq_concurrency : Z;
  oq_nextID : Z;
  oq_db : option Journal;
  oq_dbopen : bool;
  oq_started : bool;
  oq_closed : bool
}.

(** The capacity of the channel. *)
(* go: beacon/server/queue.go L144-145 *)
Definition channel_capacity : Z := 64.

(* go: beacon/server/queue.go func:newOperationQueue *)
Definition newOperationQueue (concurrency : Z) (db : option Journal) : OperationQueue :=
  let concurrency := if concurrency <? 1 then 1 else concurrency in
  let concurrency := if 4 <? concurrency then 4 else concurrency in
  mkOQ ∅ ∅ ∅ [] concurrency 0 db true false false.

(** ** The journal *)

(* go: beacon/server/queue.go func:nullTime *)
Definition nullTime (v : Time) : option Time := if v =? zeroTime then None else Some v.

(* go: beacon/server/queue.go func:ttlNanos *)
Definition ttlNanos (d : Duration) : option Z := if d <=? 0 then None else Some d.

Definition nullif_empty (s : string) : option string := if (s =? "")%string then None else Some s.

(** The values [persist] binds. *)
(* go: beacon/server/queue.go L537-551 *)
Definition row_of (op : Operation) : Row :=
  mkRow (nullif_empty (op_CommandID op)) (op_ServerID op) (op_Type op) (op_Status op) (op_Error op)
    (op_CreatedAt op) (nullTime (op_StartedAt op)) (nullTime (op_CompletedAt op)) (ttlNanos (op_TTL op))
    (op_Progress op) (op_ProgressPct op) (op_ResultData op) (if op_Acknowledged op then 1 else 0).

Definition taken (id : string) (c : option string) (t : Journal) : bool :=
  match c with
  | None => false
  | Some c => existsb (fun '(id', r) => negb (id' =? id)%string && bool_decide (w_command_id r = Some c))%bool
                (map_to_list t)
  end.

(** [INSERT ... ON CONFLICT(id) DO UPDATE]: a known ID updates the columns the
    statement names, a new one may collide with the unique command ID. *)
(* go: beacon/server/queue.go func:OperationQueue.persist *)
Definition upsert (op : Operation) (t : Journal) : result Journal :=
  let x := row_of op in
  match t !! op_ID op with
  | Some r =>
      Ok (<[op_ID op := mkRow (w_command_id r) (w_server_id r) (w_type r) (w_status x) (w_error x)
              (w_created_at r) (w_started_at x) (w_completed_at x) (w_ttl r)
              (w_progress x) (w_progress_pct x) (w_result_data x) (w_acknowledged x)]> t)
  | None =>
      if taken (op_ID op) (w_command_id x) t
      then Err "UNIQUE constraint failed: beacon_operations.command_id"
      else Ok (<[op_ID op := x]> t)
  end.

(** How one statement fares. *)
Inductive write := WOk | WFails (msg : string) | WTakesEffect (msg : string).

Definition persist (w : write) (op : Operation) (q : OperationQueue) : error * OperationQueue :=
  match oq_db q with
  | None => (None, q)
  | Some t =>
      if negb (oq_dbopen q) then (Some "sql: database is closed", q)
      else match w with
      | WFails msg => (Some msg, q)
      | _ =>
          match upsert op t with
          | Err msg => (Some msg, q)
          | Ok t => (match w with WTakesEffect msg => Some msg | _ => None end, q <| oq_db := Some t |>)
          end
      end
  end.

(** The row [DELETE ... WHERE id = ? AND status = 'pending'] removes. *)
Definition delete_pending (id : string) (t : Journal) : Journal :=
  match t !! id with
  | Some r => if (w_status r =? StatusPending)%string then delete id t else t
  | None => t
  end.

(** ** Shared operations *)

Definition get (q : OperationQueue) (id : string) : option (ptr * Operation) :=
  match oq_operations q !! id with
  | Some p => match oq_objs q !! p with Some op => Some (p, op) | None => None end
  | None => None
  end.

Definition put (p : ptr) (op : Operation) (q : OperationQueue) : OperationQueue :=
  q <| oq_objs := <[p := op]> (oq_objs q) |>.

(** Writes the object, then its row. *)
Definition put_persist (w : write) (p : ptr) (op : Operation) (q : OperationQueue)
    : error * OperationQueue := persist w op (put p op q).

(** The registered operations. *)
Definition registered (q : OperationQueue) : list (ptr * Operation) :=
  omap (fun '(_, p) => (fun op => (p, op)) <$> oq_objs q !! p) (map_to_list (oq_operations q)).

(** ** Methods that hold the mutex throughout *)

(* go: beacon/server/queue.go func:OperationQueue.SetProgress *)
Definition SetProgress (w : write) (id progress : string) (pct : Z) (q : OperationQueue)
    : error * OperationQueue :=
  match get q id with
  | None => (Some ErrOperationNotFound, q)
  | Some (p, op) => put_persist w p (op <| op_Progress := progress |> <| op_ProgressPct := pct |>) q
  end.

(* go: beacon/server/queue.go func:OperationQueue.SetError *)
Definition SetError (w : write) (id errMsg : string) (now : Time) (q : OperationQueue)
    : error * OperationQueue :=
  match get q id with
  | None => (Some ErrOperationNotFound, q)
  | Some (p, op) =>
      put_persist w p
        (op <| op_Error := errMsg |> <| op_Status := StatusFailed |> <| op_CompletedAt := now |>) q
  end.

(* go: beacon/server/queue.go func:OperationQueue.AckCommand *)
Definition AckCommand (w : write) (id : string) (q : OperationQueue) : error * OperationQueue :=
  match get q id with
  | None => (Some ErrOperationNotFound, q)
  | Some (p, op) =>
      if negb (op_Status op =? StatusPending)%string && negb (op_Status op =? StatusRunning)%string
      then (Some (cat ["cannot ack operation in state "; op_Status op]), q)
      else put_persist w p (op <| op_Acknowledged := true |>) q
  end.

(* go: beacon/server/queue.go func:OperationQueue.SetResult *)
Definition SetResult (w : write) (id resultData : string) (q : OperationQueue)
    : error * OperationQueue :=
  match get q id with
  | None => (Some ErrOperationNotFound, q)
  | Some (p, op) => put_persist w p (op <| op_ResultData := resultData |>) q
  end.

Definition is_expired (now : Time) (op : Operation) : bool :=
  (0 <? op_TTL op) && (op_TTL op <? time_sub now (op_CreatedAt op)).

Definition expire (now : Time) (op : Operation) : Operation :=
  op <| op_Status := StatusFailed |> <| op_Error := "command expired" |> <| op_CompletedAt := now |>.

(** A sweep over the operations: [f] rewrites those it returns [Some] for, and
    each rewritten one is journaled; failures are only logged. *)
Definition sweep_one (w : string -> write) (f : Operation -> option Operation)
    (acc : Z * OperationQueue) (e : string * ptr) : Z * OperationQueue :=
  match oq_objs (snd acc) !! snd e with
  | Some op =>
      match f op with
      | Some op' => (fst acc + 1, snd (put_persist (w (op_ID op)) (snd e) op' (snd acc)))
      | None => acc
      end
  | None => acc
  end.

Definition sweep (w : string -> write) (f : Operation -> option Operation) (q : OperationQueue)
    : Z * OperationQueue :=
  foldl (sweep_one w f) (0, q) (map_to_list (oq_operations q)).

(* go: beacon/server/queue.go func:OperationQueue.ExpireExpired *)
Definition ExpireExpired (w : string -> write) (now : Time) (q : OperationQueue) : Z * OperationQueue :=
  sweep w (fun op =>
    if (op_Status op =? StatusPending)%string && is_expired now op
    then Some (expire now op) else None) q.

(* go: beacon/server/queue.go func:OperationQueue.ServersWithPending *)
Definition ServersWithPending (q : OperationQueue) : gset string :=
  list_to_set (map (fun '(_, op) => op_ServerID op)
    (filter (fun '(_, op) => op_Status op = StatusPending) (registered q))).

(* go: beacon/server/queue.go func:OperationQueue.GetStatus *)
Definition GetStatus (id : string) (q : OperationQueue) : result Operation :=
  match get q id with Some (_, op) => Ok op | None => Err ErrOperationNotFound end.

(* go: beacon/server/queue.go func:OperationQueue.ListByServer *)
Definition ListByServer (server : string) (q : OperationQueue) : list Operation :=
  omap (fun id => snd <$> get q id) (default [] (oq_serverOps q !! server)).

(* go: beacon/server/queue.go func:OperationQueue.ListPendingByServer *)
Definition ListPendingByServer (server : string) (q : OperationQueue) : list Operation :=
  filter (fun op => op_Status op = StatusPending) (ListByServer server q).

(** ** Enqueueing *)

(** The operation a command ID already names, if any.  Go looks through the
    map in no particular order; the IDs of registered commands are distinct
    ([oq_ok]), so there is at most one to find. *)
Definition find_command (commandID : string) (q : OperationQueue) : option Operation :=
  (fun e => snd (snd e)) <$> list_find (fun e => op_CommandID (snd e) = commandID) (registered q).

Inductive registration :=
| Answered (r : result Operation)
| Registered (p : ptr) (op : Operation).

Definition take_last (l : list string) : list string := take (length l - 1) l.

(** [EnqueueCommandWithTTL] until it releases the mutex.  [uuid] is the fresh
    UUID, [now] the clock. *)
(* go: beacon/server/queue.go L402-444 *)
Definition enqueue_register (w : write) (commandID serverID typ : string) (ttl : Duration)
    (uuid : string) (now : Time) (q : OperationQueue) : registration * OperationQueue :=
  if oq_closed q then (Answered (Err ErrQueueStopped), q)
  else
    match (if (commandID =? "")%string then None else find_command commandID q) with
    | Some existing =>
        if negb (op_ServerID existing =? serverID)%string
        then (Answered (Err (cat ["command "; commandID; " already refers to server ";
                                  op_ServerID existing; ", not "; serverID])), q)
        else (Answered (Ok existing), q)
    | None =>
        let q := q <| oq_nextID := oq_nextID q +i 1 |> in
        let id := match oq_db q with None => cat ["op-"; itoa (oq_nextID q)] | Some _ => uuid end in
        let op := mkOp id commandID serverID typ StatusPending "" now zeroTime zeroTime ttl "" 0 "" false in
        let p := fresh (dom (oq_objs q)) in
        let ids := default [] (oq_serverOps q !! serverID) ++ [id] in
        let q := put p op q <| oq_operations := <[id := p]> (oq_operations q) |>
                            <| oq_serverOps := <[serverID := ids]> (oq_serverOps q) |> in
        match persist w op q with
        | (Some err, q) =>
            (Answered (Err err),
             q <| oq_operations := delete id (oq_operations q) |>
               <| oq_serverOps := <[serverID := take_last ids]> (oq_serverOps q) |>)
        | (None, q) => (Registered p op, q)
        end
    end.

(** The send of the [select], when the channel has room. *)
(* go: beacon/server/queue.go L445-454 *)
Definition enqueue_send (p : ptr) (q : OperationQueue) : option OperationQueue :=
  if Z.of_nat (length (oq_ch q)) <? channel_capacity
  then Some (q <| oq_ch := oq_ch q ++ [p] |>) else None.

Fixpoint remove_first (id : string) (ids : list string) : list string :=
  match ids with
  | [] => []
  | x :: r => if (x =? id)%string then r else x :: remove_first id r
  end.

(* go: beacon/server/queue.go func:OperationQueue.removeUnqueued *)
Definition removeUnqueued (w : write) (p : ptr) (q : OperationQueue) : OperationQueue :=
  match oq_objs q !! p with
  | None => q
  | Some op =>
      if negb (bool_decide (oq_operations q !! op_ID op = Some p))
         || negb (op_Status op =? StatusPending)%string then q
      else
        let q := q <| oq_operations := delete (op_ID op) (oq_operations q) |> in
        let ids := remove_first (op_ID op) (default [] (oq_serverOps q !! op_ServerID op)) in
        let q := q <| oq_serverOps := if bool_decide (ids = []) then delete (op_ServerID op) (oq_serverOps q)
                                      else <[op_ServerID op := ids]> (oq_serverOps q) |> in
        match oq_db q with
        | None => q
        | Some t =>
            match w with
            | WFails _ => q
            | _ => if oq_dbopen q then q <| oq_db := Some (delete_pending (op_ID op) t) |> else q
            end
        end
  end.

(** ** Processing *)

(** [processOp] until the handler: whether the operation runs. *)
(* go: beacon/server/queue.go L252-269 *)
Definition begin_op (w : write) (now : Time) (p : ptr) (q : OperationQueue) : bool * OperationQueue :=
  match oq_objs q !! p with
  | None => (false, q)
  | Some op =>
      if negb (op_Status op =? StatusPending)%string then (false, q)
      else if is_expired now op then (false, snd (put_persist w p (expire now op) q))
      else (true, snd (put_persist w p (op <| op_Status := StatusRunning |> <| op_StartedAt := now |>) q))
  end.

(** What [processOp] makes of the operation when the handler returned [opErr]
    ("" for nil) and the context reports [ctxErr]. *)
(* go: beacon/server/queue.go L276-315 *)
Definition verdict (journaled : bool) (ctxErr : error) (opErr : string) (now : Time) (op : Operation)
    : Operation :=
  match ctxErr with
  | Some ce =>
      if journaled then
        op <| op_Status := StatusPending |> <| op_Error := "" |>
           <| op_StartedAt := zeroTime |> <| op_CompletedAt := zeroTime |>
      else
        op <| op_Status := StatusCancelled |>
           <| op_Error := if (opErr =? "")%string then ce else opErr |> <| op_CompletedAt := now |>
  | None =>
      let op := op <| op_CompletedAt := now |> in
      if negb (opErr =? "")%string then op <| op_Status := StatusFailed |> <| op_Error := opErr |>
      else if (op_Status op =? StatusFailed)%string then op
      else op <| op_Status := StatusCompleted |> <| op_Error := "" |>
  end.

Definition journaled (q : OperationQueue) : bool := match oq_db q with Some _ => true | None => false end.

(* go: beacon/server/queue.go func:OperationQueue.processOp *)
Definition finish_op (w : write) (ctxErr : error) (opErr : string) (now : Time) (p : ptr)
    (q : OperationQueue) : OperationQueue :=
  match oq_objs q !! p with
  | None => q
  | Some op => snd (put_persist w p (verdict (journaled q) ctxErr opErr now op) q)
  end.

(** ** Life cycle *)

(** The first part of [Start]: the operations its feeder will deliver. *)
(* go: beacon/server/queue.go func:OperationQueue.Start *)
Definition Start (q : OperationQueue) : list ptr * OperationQueue :=
  if oq_started q then ([], q)
  else (map fst (filter (fun '(_, op) => op_Status op = StatusPending) (registered q)),
        q <| oq_started := true |>).

(** [Shutdown] until it cancels the context. *)
(* go: beacon/server/queue.go L577-591 *)
Definition shutdown_close (now : Time) (q : OperationQueue) : OperationQueue :=
  if oq_closed q then q
  else
    let q := q <| oq_closed := true |> in
    if journaled q then q
    else snd (sweep (fun _ => WOk) (fun op =>
      if (op_Status op =? StatusPending)%string
      then Some (op <| op_Status := StatusCancelled |> <| op_CompletedAt := now |>) else None) q).

(** ... and after the workers returned or the grace period ended. *)
(* go: beacon/server/queue.go func:OperationQueue.Shutdown *)
Definition shutdown_settle (w : string -> write) (now : Time) (q : OperationQueue) : OperationQueue :=
  snd (sweep w (fun op =>
    if (op_Status op =? StatusPending)%string || (op_Status op =? StatusRunning)%string then
      Some (if journaled q
            then op <| op_Status := StatusPending |> <| op_StartedAt := zeroTime |> <| op_Error := "" |>
            else op <| op_Status := StatusCancelled |> <| op_CompletedAt := now |>)
    else None) q).

(** ... and then closes the database, the mutex released. *)
(* go: beacon/server/queue.go L624-631 *)
Definition journal_close (q : OperationQueue) : OperationQueue := q <| oq_dbopen := false |>.

(** A row read back; a running operation starts over. *)
Definition of_row (id : string) (r : Row) : Operation :=
  mkOp id (default "" (w_command_id r)) (w_server_id r) (w_type r) (w_status r) (w_error r)
    (w_created_at r) (default zeroTime (w_started_at r)) (default zeroTime (w_completed_at r))
    (default 0 (w_ttl r)) (w_progress r) (w_progress_pct r) (w_result_data r)
    (negb (w_acknowledged r =? 0)).

Definition was_running (op : Operation) : bool := (op_Status op =? StatusRunning)%string.

Definition reset_running (op : Operation) : Operation :=
  if was_running op
  then op <| op_Status := StatusPending |> <| op_StartedAt := zeroTime |> <| op_Error := "" |> else op.

Definition load_row (acc : list ptr * OperationQueue) (e : string * Row) : list ptr * OperationQueue :=
  let q := snd acc in
  let op := of_row (fst e) (snd e) in
  let p := fresh (dom (oq_objs q)) in
  let ids := default [] (oq_serverOps q !! op_ServerID op) ++ [op_ID op] in
  ((if was_running op then fst acc ++ [p] else fst acc),
   put p (reset_running op) q <| oq_operations := <[op_ID op := p]> (oq_operations q) |>
      <| oq_serverOps := <[op_ServerID op := ids]> (oq_serverOps q) |>).

Fixpoint persist_all (w : nat -> write) (ps : list ptr) (q : OperationQueue) : error * OperationQueue :=
  match ps with
  | [] => (None, q)
  | p :: ps =>
      match oq_objs q !! p with
      | None => persist_all (fun n => w (S n)) ps q
      | Some op =>
          match persist (w O) op q with
          | (Some err, q) => (Some err, q)
          | (None, q) => persist_all (fun n => w (S n)) ps q
          end
      end
  end.

Definition older (a b : string * Row) : bool := w_created_at (snd a) <? w_created_at (snd b).

(* go: beacon/server/queue.go func:OperationQueue.loadJournal *)
Definition loadJournal (w : nat -> write) (q : OperationQueue) : error * OperationQueue :=
  match oq_db q with
  | None => (None, q)
  | Some t =>
      let r := foldl load_row ([], q) (isort older (map_to_list t)) in
      persist_all w (fst r) (snd r)
  end.

(** Opening the file; an error closes it again. *)
(* go: beacon/server/queue.go func:NewPersistentOperationQueue *)
Definition NewPersistentOperationQueue (concurrency : Z) (t : Journal) (w : nat -> write)
    : result OperationQueue :=
  match loadJournal w (newOperationQueue concurrency (Some t)) with
  | (None, q) => Ok q
  | (Some err, _) => Err err
  end.

(** ** The running system

    What the goroutines of a process do, in any interleaving.  [w_sending] are
    the operations registered by calls that have not reached their [select],
    [w_rejected] those whose call gave up and is about to withdraw them,
    [w_feed] what [Start]'s feeder still has to deliver; [w_cancelled] is the
    error of the workers' context. *)
Inductive worker := WIdle | WGot (p : ptr) | WRunning (p : ptr).

Inductive event :=
| EvStart (id : string) (live : bool)
| EvDone (id : string)
| EvRestart.

Record World := mkWorld {
  w_queue : OperationQueue;
  w_sending : list ptr;
  w_rejected : list ptr;
  w_feed : list ptr;
  w_workers : list worker;
  w_cancelled : error;
  w_hist : list event
}.

Definition fresh_world (q : OperationQueue) (hist : list event) : World :=
  mkWorld q [] [] [] [] None hist.

(** The events of this process, most recent first. *)
Fixpoint this_life (hist : list event) : list event :=
  match hist with
  | [] => []
  | EvRestart :: _ => []
  | e :: l => e :: this_life l
  end.

Definition id_of (q : OperationQueue) (p : ptr) : string :=
  match oq_objs q !! p with Some op => op_ID op | None => "" end.

(** A UUID that was never used. *)
Definition fresh_id (uuid : string) (W : World) : Prop :=
  (forall p op, oq_objs (w_queue W) !! p = Some op -> op_ID op <> uuid) /\
  (forall t, oq_db (w_queue W) = Some t -> t !! uuid = None) /\
  (forall e, e ∈ w_hist W -> e <> EvDone uuid /\ forall b, e <> EvStart uuid b).

Definition is_live (W : World) : bool := match w_cancelled W with None => true | Some _ => false end.

Section Steps.
(** Which outcomes the statements of the journal may have. *)
Context (allowed : write -> Prop).

(** Calls that hold the mutex throughout. *)
Inductive call_step : OperationQueue -> OperationQueue -> Prop :=
| call_progress w id s pct q : allowed w -> call_step q (snd (SetProgress w id s pct q))
| call_error w id s now q : allowed w -> call_step q (snd (SetError w id s now q))
| call_ack w id q : allowed w -> call_step q (snd (AckCommand w id q))
| call_result w id s q : allowed w -> call_step q (snd (SetResult w id s q))
| call_expire w now q : (forall id, allowed (w id)) -> call_step q (snd (ExpireExpired w now q))
| call_close now q : call_step q (shutdown_close now q).

(** [NewServer] of the agent starts the queue right after it made it, before
    anything can stop it; [Start] itself does not look at [oq_closed]. *)
Inductive world_step : World -> World -> Prop :=
| step_call q' W : call_step (w_queue W) q' -> world_step W (W <| w_queue := q' |>)
| step_register w c s typ ttl uuid now r q' W :
    allowed w -> fresh_id uuid W -> oq_nextID (w_queue W) < max64 ->
    enqueue_register w c s typ ttl uuid now (w_queue W) = (r, q') ->
    world_step W (W <| w_queue := q' |>
                    <| w_sending := match r with Registered p _ => p :: w_sending W | _ => w_sending W end |>)
| step_send l1 p l2 q' W :
    w_sending W = l1 ++ p :: l2 -> enqueue_send p (w_queue W) = Some q' ->
    world_step W (W <| w_queue := q' |> <| w_sending := l1 ++ l2 |>)
| step_reject l1 p l2 W :
    w_sending W = l1 ++ p :: l2 ->
    world_step W (W <| w_sending := l1 ++ l2 |> <| w_rejected := p :: w_rejected W |>)
| step_withdraw w l1 p l2 W :
    allowed w -> w_rejected W = l1 ++ p :: l2 ->
    world_step W (W <| w_queue := removeUnqueued w p (w_queue W) |> <| w_rejected := l1 ++ l2 |>)
| step_start W :
    oq_started (w_queue W) = false -> oq_closed (w_queue W) = false ->
    world_step W (W <| w_queue := snd (Start (w_queue W)) |> <| w_feed := fst (Start (w_queue W)) |>
                    <| w_workers := replicate (Z.to_nat (oq_concurrency (w_queue W))) WIdle |>)
| step_feed p l q' W :
    w_feed W = p :: l -> enqueue_send p (w_queue W) = Some q' ->
    world_step W (W <| w_queue := q' |> <| w_feed := l |>)
| step_feed_stops e W : w_cancelled W = Some e -> world_step W (W <| w_feed := [] |>)
| step_receive p l l1 l2 W :
    oq_ch (w_queue W) = p :: l -> w_workers W = l1 ++ WIdle :: l2 ->
    world_step W (W <| w_queue := (w_queue W) <| oq_ch := l |> |> <| w_workers := l1 ++ WGot p :: l2 |>)
| step_exit e l1 l2 W :
    w_cancelled W = Some e -> w_workers W = l1 ++ WIdle :: l2 ->
    world_step W (W <| w_workers := l1 ++ l2 |>)
| step_skip w now p q' l1 l2 W :
    allowed w -> w_workers W = l1 ++ WGot p :: l2 -> begin_op w now p (w_queue W) = (false, q') ->
    world_step W (W <| w_queue := q' |> <| w_workers := l1 ++ WIdle :: l2 |>)
| step_begin w now p q' l1 l2 W :
    allowed w -> w_workers W = l1 ++ WGot p :: l2 -> begin_op w now p (w_queue W) = (true, q') ->
    world_step W (W <| w_queue := q' |> <| w_workers := l1 ++ WRunning p :: l2 |>
                    <| w_hist := EvStart (id_of (w_queue W) p) (is_live W) :: w_hist W |>)
| step_finish w opErr now p l1 l2 W :
    allowed w -> w_workers W = l1 ++ WRunning p :: l2 ->
    world_step W (W <| w_queue := finish_op w (w_cancelled W) opErr now p (w_queue W) |>
                    <| w_workers := l1 ++ WIdle :: l2 |>
                    <| w_hist := if is_live W then EvDone (id_of (w_queue W) p) :: w_hist W else w_hist W |>)
| step_cancel e W :
    oq_started (w_queue W) = true -> w_cancelled W = None -> world_step W (W <| w_cancelled := Some e |>)
| step_settle w now W :
    (forall id, allowed (w id)) -> oq_closed (w_queue W) = true ->
    (oq_started (w_queue W) = true -> w_cancelled W <> None) ->
    world_step W (W <| w_queue := shutdown_settle w now (w_queue W) |>)
| step_journal_close W :
    oq_closed (w_queue W) = true -> (oq_started (w_queue W) = true -> w_cancelled W <> None) ->
    world_step W (W <| w_queue := journal_close (w_queue W) |>)
| step_restart concurrency t w q' W :
    (forall n, allowed (w n)) -> oq_db (w_queue W) = Some t ->
    NewPersistentOperationQueue concurrency t w = Ok q' ->
    world_step W (fresh_world q' (EvRestart :: w_hist W)).

Inductive reachable (W0 : World) : World -> Prop :=
| reach_init : reachable W0 W0
| reach_step W W' : reachable W0 W -> world_step W W' -> reachable W0 W'.
End Steps.

(** Where the agent begins: an empty queue, with or without a journal. *)
Definition initial_world (concurrency : Z) (journal : bool) : World :=
  fresh_world (newOperationQueue concurrency (if journal then Some ∅ else None)) [].

(** ** Updates

    Most steps rewrite operations in place: [upd T q q'] says that [q'] has the
    operations of [q], each related to the old one by [T] and with the same
    identity, and that nothing else but the journal's rows changed. *)
Definition ident (op : Operation) : string * string * string * string * Time * Duration :=
  (op_ID op, op_CommandID op, op_ServerID op, op_Type op, op_CreatedAt op, op_TTL op).

Definition terminal (s : string) : Prop := s <> StatusPending /\ s <> StatusRunning.

Record upd (T : ptr -> Operation -> Operation -> Prop) (q q' : OperationQueue) : Prop := {
  upd_operations : oq_operations q' = oq_operations q;
  upd_serverOps : oq_serverOps q' = oq_serverOps q;
  upd_ch : oq_ch q' = oq_ch q;
  upd_started : oq_started q' = oq_started q;
  upd_nextID : oq_nextID q' = oq_nextID q;
  upd_journaled : journaled q' = journaled q;
  upd_dbopen : oq_dbopen q' = oq_dbopen q;
  upd_closed : oq_closed q = true -> oq_closed q' = true;
  upd_objs : forall p op, oq_objs q !! p = Some op ->
    exists op', oq_objs q' !! p = Some op' /\ ident op' = ident op /\ T p op op';
  upd_dom : forall p, oq_objs q !! p = None -> oq_objs q' !! p = None
}.

Lemma upd_trans T1 T2 T3 q1 q2 q3 :
  (forall p a b c, T1 p a b -> T2 p b c -> T3 p a c) -> upd T1 q1 q2 -> upd T2 q2 q3 -> upd T3 q1 q3.
Proof.
  intros HT U1 U2. destruct U1, U2. split; try congruence; try by auto.
  intros p op Hp. destruct (upd_objs0 p op Hp) as (op2 & Hp2 & I2 & H2).
  destruct (upd_objs1 p op2 Hp2) as (op3 & Hp3 & I3 & H3).
  exists op3. split_and!; [done|congruence|by eapply HT].
Qed.

Lemma upd_mono (T T' : ptr -> Operation -> Operation -> Prop) q q' :
  (forall p a b, T p a b -> T' p a b) -> upd T q q' -> upd T' q q'.
Proof.
  intros HT []. split; auto. intros p op Hp. destruct (upd_objs0 p op Hp) as (op' & ? & ? & ?); eauto.
Qed.

Lemma upd_refl (T : ptr -> Operation -> Operation -> Prop) q : (forall p a, T p a a) -> upd T q q.
Proof. intros HT. split; eauto. Qed.

(** The object of [p] in the new state, from either side. *)
Lemma upd_back T q q' p op' :
  upd T q q' -> oq_objs q' !! p = Some op' ->
  exists op, oq_objs q !! p = Some op /\ ident op' = ident op /\ T p op op'.
Proof.
  intros U Hp. destruct (oq_objs q !! p) as [op|] eqn:E.
  - destruct (upd_objs _ _ _ U p op E) as (x & ? & ? & ?). assert (x = op') as -> by congruence. by exists op.
  - apply (upd_dom _ _ _ U) in E. congruence.
Qed.

Lemma upd_get T q q' id p op' :
  upd T q q' -> get q' id = Some (p, op') ->
  exists op, get q id = Some (p, op) /\ ident op' = ident op /\ T p op op'.
Proof.
  intros U. unfold get. rewrite (upd_operations _ _ _ U).
  destruct (oq_operations q !! id) as [r|]; [|done].
  destruct (oq_objs q' !! r) as [x|] eqn:E; [|done]. intros [= -> ->].
  destruct (upd_back T q q' p op' U E) as (op & -> & ? & ?). eauto.
Qed.

Lemma journaled_same q q' : (oq_db q' = None <-> oq_db q = None) -> journaled q' = journaled q.
Proof.
  intros [H1 H2]. unfold journaled. destruct (oq_db q'), (oq_db q); try done.
  - by specialize (H2 eq_refl).
  - by specialize (H1 eq_refl).
Qed.

Lemma persist_frame w op q :
  exists d, snd (persist w op q) = q <| oq_db := d |> /\ (d = None <-> oq_db q = None).
Proof.
  unfold persist. destruct (oq_db q) as [t|] eqn:E.
  2: { exists None. split; [|done]. destruct q; cbn in *. by rewrite E. }
  assert (Q : q = q <| oq_db := Some t |>) by (destruct q; cbn in *; by rewrite E).
  destruct (oq_dbopen q); cbn.
  - destruct w; cbn; try (by exists (Some t)); destruct (upsert op t) as [t'|?]; cbn;
      try (by exists (Some t)); by exists (Some t').
  - by exists (Some t).
Qed.

(** Rewriting the object at [p] and journaling it. *)
Lemma put_persist_upd w p op op' q (T : ptr -> Operation -> Operation -> Prop) :
  oq_objs q !! p = Some op -> ident op' = ident op -> T p op op' ->
  (forall r a, r <> p -> T r a a) -> upd T q (snd (put_persist w p op' q)).
Proof.
  intros Hp Hi HT Hr. unfold put_persist.
  destruct (persist_frame w op' (put p op' q)) as (d & -> & Hd). cbn in Hd.
  split; try done.
  - by apply journaled_same.
  - intros r a Ha. change (oq_objs _) with (<[p := op']> (oq_objs q)).
    rewrite lookup_insert. case_decide as E; [|by eauto].
    subst r. rewrite Hp in Ha. injection Ha as <-. eauto.
  - intros r Ha. change (oq_objs _) with (<[p := op']> (oq_objs q)).
    rewrite lookup_insert_ne; [done|congruence].
Qed.

Lemma sweep_upd w f q (T : ptr -> Operation -> Operation -> Prop) :
  (forall p a, T p a a) -> (forall p a b c, T p a b -> T p b c -> T p a c) ->
  (forall p op op', f op = Some op' -> ident op' = ident op /\ T p op op') ->
  upd T q (snd (sweep w f q)).
Proof.
  intros Hr Ht Hf. unfold sweep.
  assert (G : forall l acc, upd T (snd acc) (snd (foldl (sweep_one w f) acc l))).
  { induction l as [|e l IH]; intros acc; cbn; [by apply upd_refl|].
    eapply (upd_trans T T T); [done| |apply IH]. unfold sweep_one.
    destruct (oq_objs (snd acc) !! e.2) as [op|] eqn:E; [|by apply upd_refl].
    destruct (f op) as [op'|] eqn:Ef; [|by apply upd_refl]. cbn.
    destruct (Hf e.2 op op' Ef). by eapply put_persist_upd. }
  apply (G _ (0, q)).
Qed.

(** A change other calls make never puts an operation back to pending or to
    running. *)
Definition outside (_ : ptr) (a b : Operation) : Prop :=
  (op_Status b = StatusPending -> op_Status a = StatusPending) /\
  (op_Status b = StatusRunning -> op_Status a = StatusRunning).

Lemma outside_refl p a : outside p a a.
Proof. done. Qed.

Lemma outside_trans p a b c : outside p a b -> outside p b c -> outside p a c.
Proof. unfold outside. naive_solver. Qed.

Lemma get_Some q id p op : get q id = Some (p, op) -> oq_operations q !! id = Some p /\ oq_objs q !! p = Some op.
Proof.
  unfold get. destruct (oq_operations q !! id) as [r|]; [|done].
  destruct (oq_objs q !! r) eqn:E; [|done]. by intros [= -> ->].
Qed.

Lemma call_upd allowed q q' : call_step allowed q q' -> upd outside q q'.
Proof.
  pose proof outside_refl.
  assert (P : forall w id f q, (forall op, ident (f op) = ident op /\ outside 1%positive op (f op)) ->
    upd outside q (snd match get q id with
      | None => (Some ErrOperationNotFound, q) | Some (p, op) => put_persist w p (f op) q end)).
  { intros w id f q0 Hf. destruct (get q0 id) as [[p op]|] eqn:E; [|by apply upd_refl].
    apply get_Some in E as [_ E]. destruct (Hf op). by eapply put_persist_upd. }
  destruct 1.
  - apply (P w id (fun op => op <| op_Progress := s |> <| op_ProgressPct := pct |>)). done.
  - apply (P w id (fun op => op <| op_Error := s |> <| op_Status := StatusFailed |> <| op_CompletedAt := now |>)).
    intros op. split; [done|]. by split.
  - unfold AckCommand. destruct (get q id) as [[p op]|] eqn:E; [|by apply upd_refl].
    apply get_Some in E as [_ E]. case_match; [by apply upd_refl|]. by eapply put_persist_upd.
  - apply (P w id (fun op => op <| op_ResultData := s |>)). done.
  - apply sweep_upd; [done|apply outside_trans|]. intros p op op'. case_match; [|done].
    intros [= <-]. split; [done|]. by split.
  - unfold shutdown_close. case_match; [by apply upd_refl|].
    assert (U : upd outside q (q <| oq_closed := true |>)) by (split; cbn; eauto).
    case_match; [done|]. eapply (upd_trans outside outside outside); [apply outside_trans|exact U|].
    apply sweep_upd; [done|apply outside_trans|]. intros p op op'. case_match; [|done].
    intros [= <-]. split; [done|]. by split.
Qed.

(** ** Well-formed queues *)

(** The map holds each operation under its ID, allocated operations have
    distinct IDs, a command ID names at most one registered operation, and the
    per-server lists hold the registered operations of the server, once. *)
Record oq_ok (q : OperationQueue) : Prop := {
  ok_ids : forall id p, oq_operations q !! id = Some p ->
    exists op, oq_objs q !! p = Some op /\ op_ID op = id;
  ok_distinct : forall p1 p2 o1 o2, oq_objs q !! p1 = Some o1 -> oq_objs q !! p2 = Some o2 ->
    op_ID o1 = op_ID o2 -> p1 = p2;
  ok_commands : forall id1 id2 p1 p2 o1 o2, get q id1 = Some (p1, o1) -> get q id2 = Some (p2, o2) ->
    op_CommandID o1 <> "" -> op_CommandID o1 = op_CommandID o2 -> id1 = id2;
  ok_lists : forall s, NoDup (default [] (oq_serverOps q !! s));
  ok_servers : forall s id, id ∈ default [] (oq_serverOps q !! s) <->
    exists p op, get q id = Some (p, op) /\ op_ServerID op = s;
  ok_serial : oq_db q = None -> forall p op, oq_objs q !! p = Some op ->
    exists n, op_ID op = cat ["op-"; itoa n] /\ n <= oq_nextID q
}.

Lemma ident_ID a b : ident a = ident b -> op_ID a = op_ID b.
Proof. by intros [=]. Qed.
Lemma ident_Command a b : ident a = ident b -> op_CommandID a = op_CommandID b.
Proof. by intros [=]. Qed.
Lemma ident_Server a b : ident a = ident b -> op_ServerID a = op_ServerID b.
Proof. by intros [=]. Qed.
#[local] Hint Resolve ident_ID ident_Command ident_Server : core.
#[local] Opaque ident.

Lemma get_registered q id p op : oq_ok q -> get q id = Some (p, op) -> op_ID op = id.
Proof. intros O [H Hp]%get_Some. destruct (ok_ids q O id p H) as (x & ? & ?). congruence. Qed.

Lemma get_intro q id p op :
  oq_operations q !! id = Some p -> oq_objs q !! p = Some op -> get q id = Some (p, op).
Proof. intros H Hp. unfold get. by rewrite H, Hp. Qed.

Lemma registered_spec q p op : (p, op) ∈ registered q <-> exists id, get q id = Some (p, op).
Proof.
  unfold registered. rewrite list_elem_of_omap. split.
  - intros ([id r] & Hin%elem_of_map_to_list & E). exists id.
    destruct (oq_objs q !! r) eqn:Er; [|done]. injection E as -> ->. by apply get_intro.
  - intros (id & [H Hp]%get_Some). exists (id, p). split; [by apply elem_of_map_to_list|]. by rewrite Hp.
Qed.

Lemma find_command_Some c q op :
  find_command c q = Some op -> op_CommandID op = c /\ exists id p, get q id = Some (p, op).
Proof.
  unfold find_command. intros ([i [p x]] & (E & Hc & _)%list_find_Some & ->)%fmap_Some. split; [done|].
  apply list_elem_of_lookup_2, registered_spec in E as [id E]. by exists id, p.
Qed.

Lemma find_command_None c q id p op :
  find_command c q = None -> get q id = Some (p, op) -> op_CommandID op <> c.
Proof.
  unfold find_command. intros E%fmap_None Hg.
  apply list_find_None in E. rewrite Forall_forall in E.
  apply (E (p, op)). apply registered_spec. by exists id.
Qed.

Lemma upd_get_1 T q q' id p op :
  upd T q q' -> get q id = Some (p, op) ->
  exists op', get q' id = Some (p, op') /\ ident op' = ident op /\ T p op op'.
Proof.
  intros U [H Hp]%get_Some. destruct (upd_objs _ _ _ U p op Hp) as (op' & ? & ? & ?).
  exists op'. split; [|done]. apply get_intro; [|done]. by rewrite (upd_operations _ _ _ U).
Qed.

Lemma upd_ok T q q' : upd T q q' -> oq_ok q -> oq_ok q'.
Proof.
  intros U O. split.
  - intros id p. rewrite (upd_operations _ _ _ U). intros (op & Hp & Hid)%(ok_ids q O).
    destruct (upd_objs _ _ _ U p op Hp) as (op' & ? & ? & _). exists op'. split; [done|].
    rewrite <- Hid. by auto.
  - intros p1 p2 o1 o2 (x1 & ? & I1 & _)%(upd_back _ _ _ _ _ U) (x2 & ? & I2 & _)%(upd_back _ _ _ _ _ U) E.
    apply (ok_distinct q O p1 p2 x1 x2); [done..|]. rewrite <- (ident_ID _ _ I1), <- (ident_ID _ _ I2). done.
  - intros id1 id2 p1 p2 o1 o2 (x1 & G1 & I1 & _)%(upd_get _ _ _ _ _ _ U) (x2 & G2 & I2 & _)%(upd_get _ _ _ _ _ _ U).
    rewrite (ident_Command _ _ I1), (ident_Command _ _ I2). by apply (ok_commands q O id1 id2 p1 p2).
  - intros s. rewrite (upd_serverOps _ _ _ U). apply O.
  - intros s id. rewrite (upd_serverOps _ _ _ U), (ok_servers q O s id). split.
    + intros (p & op & G & <-). destruct (upd_get_1 _ _ _ _ _ _ U G) as (op' & ? & ? & _). eauto.
    + intros (p & op & G & <-). destruct (upd_get _ _ _ _ _ _ U G) as (op' & ? & ? & _).
      exists p, op'. split; [done|]. symmetry. by auto.
  - intros Hdb p op' (op & Hp & I & _)%(upd_back _ _ _ _ _ U).
    assert (oq_db q = None).
    { pose proof (upd_journaled _ _ _ U) as J. unfold journaled in J. rewrite Hdb in J. by destruct (oq_db q). }
    rewrite (upd_nextID _ _ _ U), (ident_ID _ _ I). by apply O with p.
Qed.

(** Allocating an operation, registering it or not. *)
Section Alloc.
Context (q : OperationQueue) (p : ptr) (op : Operation) (q' : OperationQueue).
Hypothesis O : oq_ok q.
Hypothesis Hp : oq_objs q !! p = None.
Hypothesis Hfresh : forall r x, oq_objs q !! r = Some x -> op_ID x <> op_ID op.
Hypothesis Hobjs : oq_objs q' = <[p := op]> (oq_objs q).
Hypothesis Hserial : oq_db q' = None ->
  oq_db q = None /\ oq_nextID q <= oq_nextID q' /\
  exists n, op_ID op = cat ["op-"; itoa n] /\ n <= oq_nextID q'.

Lemma alloc_lookup r x : oq_objs q' !! r = Some x <-> (r = p /\ x = op) \/ oq_objs q !! r = Some x.
Proof using All.
  rewrite Hobjs, lookup_insert. case_decide; [subst|naive_solver].
  rewrite Hp. naive_solver.
Qed.

Lemma alloc_distinct p1 p2 o1 o2 :
  oq_objs q' !! p1 = Some o1 -> oq_objs q' !! p2 = Some o2 -> op_ID o1 = op_ID o2 -> p1 = p2.
Proof using All.
  rewrite !alloc_lookup. intros [[-> ->]|H1] [[-> ->]|H2] E; [done|..|by eapply O].
  - by apply Hfresh in H2.
  - by apply Hfresh in H1.
Qed.

Lemma alloc_serial : oq_db q' = None -> forall r x, oq_objs q' !! r = Some x ->
  exists n, op_ID x = cat ["op-"; itoa n] /\ n <= oq_nextID q'.
Proof using All.
  intros Hd r x. rewrite alloc_lookup. destruct (Hserial Hd) as (Hd0 & Hle & Hn).
  intros [[-> ->]|H]; [done|]. destruct (ok_serial q O Hd0 r x H) as (n & ? & ?).
  exists n. split; [done|]. lia.
Qed.

Lemma fresh_unregistered : oq_operations q !! op_ID op = None.
Proof using All.
  destruct (oq_operations q !! op_ID op) as [r|] eqn:E; [|done].
  apply (ok_ids q O) in E as (x & Hx & Hid). by apply Hfresh in Hx.
Qed.

Lemma alloc_get_old id r x : get q id = Some (r, x) -> r <> p.
Proof using All. intros [_ H]%get_Some ->. congruence. Qed.

(** Not registered. *)
Lemma alloc_ok :
  oq_operations q' = oq_operations q ->
  (forall s, default [] (oq_serverOps q' !! s) = default [] (oq_serverOps q !! s)) ->
  oq_ok q' /\ forall id, get q' id = get q id.
Proof using All.
  intros Ho Hs.
  assert (G : forall id, get q' id = get q id).
  { intros id. unfold get. rewrite Ho. destruct (oq_operations q !! id) as [r|] eqn:E; [|done].
    destruct (ok_ids q O id r E) as (x & Hx & _).
    rewrite (proj2 (alloc_lookup r x)) by (by right). by rewrite Hx. }
  split; [|done]. split.
  - intros id r. rewrite Ho. intros (x & ? & ?)%(ok_ids q O). exists x. rewrite alloc_lookup. auto.
  - apply alloc_distinct.
  - intros id1 id2 p1 p2 o1 o2. rewrite !G. apply O.
  - intros s. rewrite Hs. apply O.
  - intros s id. rewrite Hs, G. apply O.
  - apply alloc_serial.
Qed.

(** Registered, as the last of its server's operations. *)
Lemma alloc_registered_ok :
  (forall id r x, get q id = Some (r, x) -> op_CommandID op <> "" -> op_CommandID x <> op_CommandID op) ->
  oq_operations q' = <[op_ID op := p]> (oq_operations q) ->
  oq_serverOps q' =
    <[op_ServerID op := default [] (oq_serverOps q !! op_ServerID op) ++ [op_ID op]]> (oq_serverOps q) ->
  oq_ok q' /\ forall id, get q' id = if decide (id = op_ID op) then Some (p, op) else get q id.
Proof using All.
  intros Hc Ho Hs. pose proof fresh_unregistered as Hnew.
  assert (G : forall id, get q' id = if decide (id = op_ID op) then Some (p, op) else get q id).
  { intros id. unfold get. rewrite Ho, lookup_insert. repeat case_decide; subst; try done.
    - rewrite (proj2 (alloc_lookup p op)); auto.
    - destruct (oq_operations q !! id) as [r|] eqn:E; [|done].
      destruct (ok_ids q O id r E) as (x & Hx & _).
      rewrite (proj2 (alloc_lookup r x)) by (by right). by rewrite Hx. }
  split; [|done].
  assert (Hnot : op_ID op ∉ default [] (oq_serverOps q !! op_ServerID op)).
  { rewrite (ok_servers q O). intros (r & x & [Hx _]%get_Some & _). congruence. }
  split.
  - intros id r. rewrite Ho, lookup_insert. case_decide.
    + intros [= <-]. exists op. rewrite alloc_lookup. auto.
    + intros (x & ? & ?)%(ok_ids q O). exists x. rewrite alloc_lookup. auto.
  - apply alloc_distinct.
  - intros id1 id2 p1 p2 o1 o2. rewrite !G. repeat case_decide; subst; intros G1 G2 Hne E; simplify_eq; try done.
    + by edestruct Hc; eauto.
    + edestruct Hc; [exact G1| |by rewrite E]. congruence.
    + by eapply O.
  - intros s. rewrite Hs, lookup_insert. case_decide; [|apply O]. subst. cbn.
    apply NoDup_app. split_and!; [apply O| |apply NoDup_singleton].
    intros x Hx ->%list_elem_of_singleton. done.
  - intros s id. rewrite Hs, lookup_insert, G. case_decide as Es; cbn.
    + subst. rewrite elem_of_app, list_elem_of_singleton, (ok_servers q O).
      case_decide; [subst; naive_solver|]. naive_solver.
    + rewrite (ok_servers q O). case_decide; [subst|done]. unfold get. rewrite Hnew. naive_solver.
  - apply alloc_serial.
Qed.
End Alloc.

Lemma itoa_op_inj a b : cat ["op-"; itoa a] = cat ["op-"; itoa b] -> a = b.
Proof.
  unfold cat. cbn [foldr]. rewrite !string_app_empty_r. intros E.
  by apply itoa_inj, (string_app_inj_l "op-").
Qed.

(** What registering leaves of the rest. *)
Record register_post (w : write) (r : registration) (q q' : OperationQueue) : Prop := {
  rp_ch : oq_ch q' = oq_ch q;
  rp_started : oq_started q' = oq_started q;
  rp_journaled : journaled q' = journaled q;
  rp_old : forall p op, oq_objs q !! p = Some op -> oq_objs q' !! p = Some op;
  rp_new : forall p op, oq_objs q' !! p = Some op -> oq_objs q !! p = Some op \/
    (op_Status op = StatusPending /\ oq_objs q !! p = None /\
     forall r x, oq_objs q !! r = Some x -> op_ID x <> op_ID op);
  rp_get : forall id, get q' id = get q id \/
    exists p op, r = Registered p op /\ id = op_ID op /\ get q' id = Some (p, op);
  rp_reg : forall p op, r = Registered p op -> oq_objs q' !! p = Some op
}.

Lemma register_same w r q : (forall p op, r <> Registered p op) -> register_post w r q q.
Proof. intros Hr. split; auto. intros p op ->. by edestruct Hr. Qed.

Lemma take_last_app l x : take_last (l ++ [x]) = l.
Proof. unfold take_last. rewrite length_app. cbn. by rewrite Nat.add_sub, take_app_length. Qed.

Lemma enqueue_register_spec w c s typ ttl uuid now q r q' :
  oq_ok q -> (forall p op, oq_objs q !! p = Some op -> op_ID op <> uuid) ->
  min64 <= oq_nextID q < max64 ->
  enqueue_register w c s typ ttl uuid now q = (r, q') ->
  oq_ok q' /\ min64 <= oq_nextID q' /\ register_post w r q q'.
Proof.
  intros O Hu Hn. unfold enqueue_register. destruct (oq_closed q).
  { intros [= <- <-]. split; [done|]. split; [lia|]. by apply register_same. }
  destruct (if (c =? "")%string then None else find_command c q) as [e|] eqn:Ef.
  { destruct (negb _); intros [= <- <-]; (split; [done|]); (split; [lia|]); by apply register_same. }
  set (id := match oq_db (q <| oq_nextID := oq_nextID q +i 1 |>) with
             | None => cat ["op-"; itoa (oq_nextID (q <| oq_nextID := oq_nextID q +i 1 |>))] | Some _ => uuid end).
  set (op := mkOp id c s typ StatusPending "" now zeroTime zeroTime ttl "" 0 "" false).
  cbn zeta. set (p := fresh _). set (ids := default [] _ ++ [id]). set (q1 := put p op _ <| _ := _ |> <| _ := _ |>).
  assert (Hnext : oq_nextID q +i 1 = oq_nextID q + 1) by (apply iadd_exact; unfold in64; lia).
  assert (Hp : oq_objs q !! p = None) by apply (not_elem_of_dom (oq_objs q)), is_fresh.
  assert (Hid : forall r0 x, oq_objs q !! r0 = Some x -> op_ID x <> op_ID op).
  { intros r0 x Hx. cbn. unfold id. cbn. destruct (oq_db q) eqn:Ed; [by eapply Hu|].
    destruct (ok_serial q O Ed r0 x Hx) as (n & -> & Hle). intros E%itoa_op_inj. change (n = oq_nextID q +i 1) in E. lia. }
  destruct (persist_frame w op q1) as (d & E & Hd). change (oq_db q1) with (oq_db q) in Hd.
  destruct (persist w op q1) as [err q2] eqn:Ep. cbn [snd] in E. subst q2.
  assert (HS : forall q', oq_db q' = d -> oq_nextID q' = oq_nextID q +i 1 -> oq_db q' = None ->
    oq_db q = None /\ oq_nextID q <= oq_nextID q' /\
    exists n, op_ID op = cat ["op-"; itoa n] /\ n <= oq_nextID q').
  { intros x Hx Hnx Hnone. split; [naive_solver|]. rewrite Hnx. split; [lia|].
    exists (oq_nextID q +i 1). split; [|lia]. cbn. unfold id. cbn.
    assert (oq_db q = None) as -> by naive_solver. done. }
  assert (J : forall x, oq_db x = d -> journaled x = journaled q).
  { intros x Hx. apply journaled_same. by rewrite Hx. }
  assert (Hc : forall id r x, get q id = Some (r, x) -> op_CommandID op <> "" -> op_CommandID x <> op_CommandID op).
  { intros id' r0 x Hx Hne. cbn in Hne |- *. destruct (c =? "")%string eqn:Ec; seqb; [done|].
    by eapply find_command_None. }
  assert (K : forall x, oq_objs x = <[p := op]> (oq_objs q) ->
    (forall r y, oq_objs q !! r = Some y -> oq_objs x !! r = Some y) /\
    forall r y, oq_objs x !! r = Some y -> oq_objs q !! r = Some y \/
      (op_Status y = StatusPending /\ oq_objs q !! r = None /\
       forall r0 x0, oq_objs q !! r0 = Some x0 -> op_ID x0 <> op_ID y)).
  { intros x Hx. split; intros r0 y; rewrite Hx.
    - intros Hy. rewrite lookup_insert_ne; [done|congruence].
    - rewrite lookup_insert. case_decide; [|by auto]. intros [= <-]. subst r0. by right. }
  destruct err as [err|]; intros [= <- <-].
  - match goal with |- oq_ok ?x /\ _ => set (q' := x) end.
    destruct (alloc_ok q p op q' O Hp Hid eq_refl (HS q' eq_refl eq_refl)) as [O' G].
    + change (oq_operations q') with (delete id (<[id := p]> (oq_operations q))).
      apply delete_insert_id. by apply (fresh_unregistered q p op q' O Hp Hid eq_refl (HS q' eq_refl eq_refl)).
    + intros s'. change (oq_serverOps q') with (<[s := take_last ids]> (<[s := ids]> (oq_serverOps q))).
      rewrite insert_insert_eq, lookup_insert. case_decide; [subst|done]. unfold ids. by rewrite take_last_app.
    + split; [done|]. split; [change (min64 <= oq_nextID q +i 1); lia|]. destruct (K q' eq_refl). split; try done; [by apply J|by left; apply G].
  - match goal with |- oq_ok ?x /\ _ => set (q' := x) end.
    destruct (alloc_registered_ok q p op q' O Hp Hid eq_refl (HS q' eq_refl eq_refl) Hc eq_refl eq_refl) as [O' G].
    split; [done|]. split; [change (min64 <= oq_nextID q +i 1); lia|]. destruct (K q' eq_refl). split; try done; [by apply J| |].
    + intros id'. rewrite G. case_decide; [right; exists p, op; subst; split_and!; done|by left].
    + intros p' op' [= <- <-]. change (oq_objs q') with (<[p := op]> (oq_objs q)). apply lookup_insert_eq.
Qed.

Lemma remove_first_elem id ids x : NoDup ids -> x ∈ remove_first id ids <-> x ∈ ids /\ x <> id.
Proof.
  induction ids as [|y l IH]; cbn; intros Hn; [set_solver|].
  apply NoDup_cons in Hn as [Hy Hl]. destruct (y =? id)%string eqn:E; seqb.
  - subst. set_solver.
  - rewrite !elem_of_cons, IH by done. naive_solver.
Qed.

Lemma remove_first_NoDup id ids : NoDup ids -> NoDup (remove_first id ids).
Proof.
  induction ids as [|y l IH]; cbn; intros Hn; [done|].
  pose proof Hn as [Hy Hl]%NoDup_cons. destruct (y =? id)%string; [done|].
  apply NoDup_cons. split; [|by apply IH]. rewrite remove_first_elem by done. tauto.
Qed.

Record removed (p : ptr) (q q' : OperationQueue) : Prop := {
  rm_objs : oq_objs q' = oq_objs q;
  rm_ch : oq_ch q' = oq_ch q;
  rm_started : oq_started q' = oq_started q;
  rm_nextID : oq_nextID q' = oq_nextID q;
  rm_journaled : journaled q' = journaled q;
  rm_get : forall id, get q' id = get q id \/
    (get q' id = None /\ exists op, get q id = Some (p, op) /\ op_Status op = StatusPending);
  rm_gone : forall id op, get q' id = Some (p, op) -> op_Status op <> StatusPending
}.

Lemma removeUnqueued_spec w p q : oq_ok q -> oq_ok (removeUnqueued w p q) /\ removed p q (removeUnqueued w p q).
Proof.
  intros O. unfold removeUnqueued. destruct (oq_objs q !! p) as [op|] eqn:Hp.
  2: { split; [done|]. split; auto. intros id x [_ H]%get_Some. congruence. }
  case_match eqn:E.
  { split; [done|]. split; auto. intros id x G. pose proof (get_registered q id p x O G) as <-.
    apply get_Some in G as [H Hx]. assert (x = op) as -> by congruence.
    rewrite bool_decide_true in E by done. cbn in E. zb. by seqb. }
  apply orb_false_elim in E as [E1 E2]. zb. apply bool_decide_eq_true in E1. seqb.
  set (ids := remove_first _ _). match goal with |- oq_ok (match _ with None => ?x | _ => _ end) /\ _ => set (q1 := x) end.
  set (q2 := match oq_db q1 with None => _ | _ => _ end).
  assert (F : exists d, q2 = q1 <| oq_db := d |> /\ (d = None <-> oq_db q = None)).
  { unfold q2. change (oq_db q1) with (oq_db q). destruct (oq_db q) as [t|] eqn:Ed.
    - assert (q1 = q1 <| oq_db := Some t |>) by (unfold q1; destruct q; cbn in *; by subst).
      destruct w; try (by exists (Some t)); destruct (oq_dbopen q1); try (by exists (Some t));
        by eexists (Some _).
    - exists None. split; [|done]. unfold q1. destruct q; cbn in *; by subst. }
  destruct F as (d & -> & Hd). set (q' := q1 <| oq_db := d |>).
  assert (Ho : oq_operations q' = delete (op_ID op) (oq_operations q)) by done.
  assert (Hobj : oq_objs q' = oq_objs q) by done.
  assert (G : forall id, get q' id = if decide (id = op_ID op) then None else get q id).
  { intros id. unfold get. rewrite Ho, Hobj, lookup_delete. repeat case_decide; subst; done. }
  assert (Gp : get q (op_ID op) = Some (p, op)) by (by apply get_intro).
  assert (Hs : forall s, default [] (oq_serverOps q' !! s) =
    if decide (s = op_ServerID op) then ids else default [] (oq_serverOps q !! s)).
  { intros s. change (oq_serverOps q') with
      (if bool_decide (ids = []) then delete (op_ServerID op) (oq_serverOps q)
       else <[op_ServerID op := ids]> (oq_serverOps q)).
    case_bool_decide as Ei; [rewrite lookup_delete|rewrite lookup_insert]; repeat case_decide; cbn; congruence. }
  split.
  - split.
    + intros id r. rewrite Ho, Hobj. intros [_ H]%lookup_delete_Some. by apply O.
    + rewrite Hobj. apply O.
    + intros id1 id2 p1 p2 o1 o2. rewrite !G. repeat case_decide; try done. by apply O.
    + intros s. rewrite Hs. case_decide; [|apply O]. apply remove_first_NoDup, O.
    + intros s id. rewrite Hs, G. case_decide as Es.
      * unfold ids. rewrite remove_first_elem by apply O. rewrite (ok_servers q O). subst s.
        case_decide; naive_solver.
      * rewrite (ok_servers q O). case_decide; [subst; naive_solver|done].
    + intros Hd0 r x. rewrite Hobj. apply O. naive_solver.
  - split; try done.
    + by apply journaled_same.
    + intros id. rewrite G. case_decide; [subst; right; eauto|by left].
    + intros id x. rewrite G. case_decide as Ei; [done|]. intros Hx.
      apply (get_registered q id p x O) in Hx as Hid. apply get_Some in Hx as [_ Hx]. congruence.
Qed.

(** ** The parts of processing and shutdown as updates *)

Definition only_at (p : ptr) (P : Operation -> Operation -> Prop) (r : ptr) (a b : Operation) : Prop :=
  if decide (r = p) then P a b else a = b.

Lemma put_persist_at w p op op' q (P : Operation -> Operation -> Prop) :
  oq_objs q !! p = Some op -> ident op' = ident op -> P op op' ->
  upd (only_at p P) q (snd (put_persist w p op' q)).
Proof.
  intros Hp Hi HP. eapply put_persist_upd; [done..| |].
  - unfold only_at. by rewrite decide_True.
  - intros r a Hr. unfold only_at. by rewrite decide_False.
Qed.

(** An operation that is begun was pending and in time; it runs now. *)
Lemma begin_op_true w now p q q' :
  begin_op w now p q = (true, q') ->
  exists op, oq_objs q !! p = Some op /\ op_Status op = StatusPending /\ is_expired now op = false /\
    upd (only_at p (fun _ b => op_Status b = StatusRunning)) q q'.
Proof.
  unfold begin_op. destruct (oq_objs q !! p) as [op|] eqn:Hp; [|done].
  destruct (op_Status op =? StatusPending)%string eqn:Es; cbn [negb]; [|done]. seqb.
  destruct (is_expired now op) eqn:Ee; [done|]. intros [= <-].
  exists op. split_and!; [done..|]. by eapply put_persist_at.
Qed.

Lemma begin_op_false w now p q q' :
  begin_op w now p q = (false, q') ->
  upd outside q q' /\ forall op, oq_objs q' !! p = Some op -> op_Status op <> StatusPending.
Proof.
  unfold begin_op. destruct (oq_objs q !! p) as [op|] eqn:Hp.
  2: { intros [= <-]. split; [apply upd_refl, outside_refl|]. congruence. }
  destruct (op_Status op =? StatusPending)%string eqn:Es; cbn [negb].
  - destruct (is_expired now op); [|done]. intros [= <-].
    assert (U : upd (only_at p (fun _ b => op_Status b = StatusFailed)) q
              (snd (put_persist w p (expire now op) q))) by (by eapply put_persist_at).
    split.
    + eapply upd_mono; [|exact U]. intros r a b. unfold only_at. case_decide; intros Hb; [|by subst].
      unfold outside. by rewrite Hb.
    + intros x Hx. destruct (upd_back _ _ _ _ _ U Hx) as (y & _ & _ & Hs). unfold only_at in Hs.
      rewrite decide_True in Hs by done. by rewrite Hs.
  - seqb. intros [= <-]. split; [apply upd_refl, outside_refl|]. intros x Hx. congruence.
Qed.

(** A run that was not cut short ends in a verdict. *)
Lemma finish_op_upd w ctxErr opErr now p op q :
  oq_objs q !! p = Some op ->
  upd (only_at p (fun _ b => ctxErr = None -> terminal (op_Status b))) q
    (finish_op w ctxErr opErr now p q).
Proof.
  intros Hp. unfold finish_op. rewrite Hp.
  eapply put_persist_at; [done|by unfold verdict; repeat case_match|].
  intros ->. unfold verdict. destruct (negb _); [by split|]. cbn.
  destruct (op_Status op =? StatusFailed)%string eqn:E; seqb; cbn; [|by split]. by rewrite E.
Qed.

(** Settling leaves verdicts alone. *)
Lemma shutdown_settle_upd w now q :
  upd (fun _ a b => terminal (op_Status a) -> op_Status b = op_Status a) q (shutdown_settle w now q).
Proof.
  unfold shutdown_settle. cbv zeta. lazymatch goal with |- context [sweep w ?g q] => set (f := g) end.
  pose proof (sweep_upd w f q (fun _ a b => terminal (op_Status a) -> op_Status b = op_Status a)) as U.
  destruct U; [done| | |by split].
  - intros p a b c H1 H2 Ht. rewrite H2; rewrite H1; done.
  - intros p op op' Hf. unfold f in Hf. destruct (_ || _)%bool eqn:E; [|done]. injection Hf as <-.
    split; [by destruct (journaled q)|]. intros [H1 H2]. exfalso.
    apply orb_true_iff in E as [E|E]; by apply String.eqb_eq in E.
Qed.

(** ** The journal's constraint *)

Definition commands_unique (t : Journal) : Prop :=
  forall id1 id2 r1 r2 c, t !! id1 = Some r1 -> t !! id2 = Some r2 ->
    w_command_id r1 = Some c -> w_command_id r2 = Some c -> id1 = id2.

Lemma taken_false id c t id' r :
  taken id (Some c) t = false -> t !! id' = Some r -> w_command_id r = Some c -> id' = id.
Proof.
  unfold taken. intros H Hr Hc. destruct (decide (id' = id)) as [|Hne]; [done|]. exfalso.
  assert (existsb (fun '(id0, r0) => negb (id0 =? id)%string && bool_decide (w_command_id r0 = Some c))%bool
    (map_to_list t) = true); [|congruence].
  apply existsb_exists. exists (id', r). split; [by apply list_elem_of_In, elem_of_map_to_list|].
  rewrite bool_decide_true by done. apply String.eqb_neq in Hne. by rewrite Hne.
Qed.

Lemma upsert_unique op t t' : commands_unique t -> upsert op t = Ok t' -> commands_unique t'.
Proof.
  intros U. unfold upsert. destruct (t !! op_ID op) as [r|] eqn:E.
  - intros [= <-] id1 id2 r1 r2 c. rewrite !lookup_insert. repeat case_decide; intros; simplify_eq/=; try done.
    + by eapply (U (op_ID op) id2).
    + by eapply (U id1 (op_ID op)).
    + by eapply U.
  - destruct (taken _ _ _) eqn:Et; [done|]. intros [= <-] id1 id2 r1 r2 c.
    intros H1 H2 C1 C2.
    apply lookup_insert_Some in H1 as [[<- <-]|[? H1]], H2 as [[<- <-]|[? H2]]; cbn in *.
    + done.
    + rewrite C1 in Et. symmetry. by eapply taken_false.
    + rewrite C2 in Et. by eapply taken_false.
    + by eapply U.
Qed.

Definition db_ok (q : OperationQueue) : Prop := forall t, oq_db q = Some t -> commands_unique t.

Lemma persist_db w op q : db_ok q -> db_ok (snd (persist w op q)).
Proof.
  intros D t. unfold persist. destruct (oq_db q) as [t0|] eqn:E; [|exact (D t)].
  assert (U0 : commands_unique t0) by by apply D.
  destruct (oq_dbopen q); [|exact (D t)].
  destruct w; try exact (D t); cbn [negb];
    destruct (upsert op t0) as [t1|] eqn:Eu; try exact (D t);
    cbn; intros [= <-]; by eapply upsert_unique.
Qed.

Lemma put_persist_db w p op q : db_ok q -> db_ok (snd (put_persist w p op q)).
Proof. intros D. apply persist_db. exact D. Qed.

Lemma sweep_db w f q : db_ok q -> db_ok (snd (sweep w f q)).
Proof.
  intros D. unfold sweep.
  assert (G : forall l acc, db_ok (snd acc) -> db_ok (snd (foldl (sweep_one w f) acc l))).
  { induction l as [|e l IH]; intros acc Ha; cbn; [done|]. apply IH. unfold sweep_one.
    repeat case_match; try done. by apply put_persist_db. }
  by apply (G _ (0, q)).
Qed.

Lemma call_db allowed q q' : call_step allowed q q' -> db_ok q -> db_ok q'.
Proof.
  destruct 1; intros D; unfold SetProgress, SetError, AckCommand, SetResult, shutdown_close;
    repeat case_match; try done; try (by apply put_persist_db); try (by apply sweep_db).
Qed.

Lemma begin_db w now p q : db_ok q -> db_ok (snd (begin_op w now p q)).
Proof. intros D. unfold begin_op. repeat case_match; try done; by apply put_persist_db. Qed.

Lemma finish_db w ctxErr opErr now p q : db_ok q -> db_ok (finish_op w ctxErr opErr now p q).
Proof. intros D. unfold finish_op. case_match; [by apply put_persist_db|done]. Qed.

Lemma settle_db w now q : db_ok q -> db_ok (shutdown_settle w now q).
Proof. intros D. unfold shutdown_settle. by apply sweep_db. Qed.

Lemma register_db w c s typ ttl uuid now q : db_ok q -> db_ok (snd (enqueue_register w c s typ ttl uuid now q)).
Proof.
  intros D. unfold enqueue_register. destruct (oq_closed q); [done|].
  destruct (if (c =? "")%string then _ else _); [by destruct (negb _)|]. cbv zeta.
  match goal with |- context [persist w ?o ?x] => pose proof (persist_db w o x D) as Hd;
    destruct (persist w o x) as [[err|] q1] end; exact Hd.
Qed.

Lemma delete_pending_unique id t : commands_unique t -> commands_unique (delete_pending id t).
Proof.
  intros U. unfold delete_pending. repeat case_match; try done.
  intros id1 id2 r1 r2 c [_ ?]%lookup_delete_Some [_ ?]%lookup_delete_Some. by apply U.
Qed.

Lemma remove_db w p q : db_ok q -> db_ok (removeUnqueued w p q).
Proof.
  intros D. unfold removeUnqueued. destruct (oq_objs q !! p) as [op|]; [|done]. case_match; [done|].
  cbv zeta. match goal with |- db_ok (match oq_db ?x with _ => _ end) =>
    assert (D1 : db_ok x) by exact D; generalize dependent x end.
  intros q1 D1. destruct (oq_db q1) as [t|] eqn:E; [|done].
  assert (commands_unique (delete_pending (op_ID op) t)) by by apply delete_pending_unique, D1.
  destruct w; try done; destruct (oq_dbopen q1); try done; by intros ? [= <-].
Qed.

(** ** Reading the journal back *)

Definition row_lookup (l : list (string * Row)) (id : string) : option Row :=
  (list_to_map l : gmap string Row) !! id.

(** A row's command, as far as it constrains the load. *)
Definition commands_distinct (l : list (string * Row)) : Prop :=
  forall id1 id2 r1 r2 c, (id1, r1) ∈ l -> (id2, r2) ∈ l -> c <> "" ->
    w_command_id r1 = Some c -> w_command_id r2 = Some c -> id1 = id2.

Definition loaded_op (id : string) (r : Row) : Operation := reset_running (of_row id r).

Lemma loaded_op_ID id r : op_ID (loaded_op id r) = id.
Proof. unfold loaded_op, reset_running. by case_match. Qed.
Lemma loaded_op_Server id r : op_ServerID (loaded_op id r) = w_server_id r.
Proof. unfold loaded_op, reset_running. by case_match. Qed.
Lemma loaded_op_Command id r : op_CommandID (loaded_op id r) = default "" (w_command_id r).
Proof. unfold loaded_op, reset_running. by case_match. Qed.
Lemma loaded_op_Status id r :
  op_Status (loaded_op id r) = if (w_status r =? StatusRunning)%string then StatusPending else w_status r.
Proof. unfold loaded_op, reset_running, was_running. cbn. by case_match. Qed.

(** All that is allocated while loading is registered. *)
Definition only_registered (q : OperationQueue) : Prop :=
  forall p op, oq_objs q !! p = Some op -> get q (op_ID op) = Some (p, op).

(** What loading the rows [l] added to [q0], whose rows they are not. *)
Record load_post (q0 q : OperationQueue) (l : list (string * Row)) : Prop := {
  lp_ok : oq_ok q;
  lp_registered : only_registered q;
  lp_get : forall id, snd <$> get q id =
    match row_lookup l id with Some r => Some (loaded_op id r) | None => snd <$> get q0 id end;
  lp_rest : oq_ch q = oq_ch q0 /\ oq_started q = oq_started q0 /\ oq_db q = oq_db q0 /\
    oq_nextID q = oq_nextID q0 /\ oq_dbopen q = oq_dbopen q0 /\ oq_closed q = oq_closed q0 /\
    oq_concurrency q = oq_concurrency q0
}.

Lemma load_row_spec acc id r :
  oq_ok (snd acc) -> only_registered (snd acc) -> oq_db (snd acc) <> None ->
  get (snd acc) id = None ->
  (forall id' p x, get (snd acc) id' = Some (p, x) -> default "" (w_command_id r) <> "" ->
     op_CommandID x <> default "" (w_command_id r)) ->
  load_post (snd acc) (snd (load_row acc (id, r))) [(id, r)] /\
  forall id', get (snd (load_row acc (id, r))) id' =
    if decide (id' = id) then Some (fresh (dom (oq_objs (snd acc))), loaded_op id r) else get (snd acc) id'.
Proof.
  intros O R Hdb Hid Hc. set (q := snd acc) in *. set (q' := snd (load_row acc (id, r))).
  set (p := fresh (dom (oq_objs q))). set (op := loaded_op id r).
  assert (Hp : oq_objs q !! p = None) by apply (not_elem_of_dom (oq_objs q)), is_fresh.
  assert (Hne : forall r0 x, oq_objs q !! r0 = Some x -> op_ID x <> op_ID op).
  { intros r0 x Hx E. apply R in Hx. unfold op in E. rewrite loaded_op_ID in E. congruence. }
  assert (Hobjs : oq_objs q' = <[p := op]> (oq_objs q)) by done.
  assert (HS : oq_db q' = None -> oq_db q = None /\ oq_nextID q <= oq_nextID q' /\
    exists n, op_ID op = cat ["op-"; itoa n] /\ n <= oq_nextID q') by (intros E; by destruct Hdb).
  assert (Hops : oq_operations q' = <[op_ID op := p]> (oq_operations q))
    by (unfold op; by rewrite loaded_op_ID).
  assert (Hsrv : oq_serverOps q' =
    <[op_ServerID op := default [] (oq_serverOps q !! op_ServerID op) ++ [op_ID op]]> (oq_serverOps q))
    by (unfold op; by rewrite loaded_op_ID, loaded_op_Server).
  destruct (alloc_registered_ok q p op q' O Hp Hne Hobjs HS) as [O' G]; [|done..|].
  { unfold op. rewrite loaded_op_Command. done. }
  assert (Hoid : op_ID op = id) by apply loaded_op_ID.
  split; [|intros id'; by rewrite G, Hoid].
  split; [done| | |done].
  - intros p0 x. rewrite (alloc_lookup q p op q' O Hp Hne Hobjs HS), G, Hoid. intros [[-> ->]|Hx].
    + by rewrite decide_True.
    + rewrite decide_False; [by apply R|]. intros E. apply Hne in Hx. congruence.
  - intros id'. rewrite G, Hoid. unfold row_lookup. cbn.
    rewrite lookup_insert, lookup_empty. case_decide as E1.
    + rewrite decide_True by done. by rewrite E1.
    + by rewrite decide_False by congruence.
Qed.

Lemma load_rows_spec l acc :
  oq_ok (snd acc) -> only_registered (snd acc) -> oq_db (snd acc) <> None ->
  NoDup (map fst l) -> (forall id r, (id, r) ∈ l -> get (snd acc) id = None) ->
  commands_distinct l ->
  (forall id r id' p x, (id, r) ∈ l -> get (snd acc) id' = Some (p, x) ->
     default "" (w_command_id r) <> "" -> op_CommandID x <> default "" (w_command_id r)) ->
  load_post (snd acc) (snd (foldl load_row acc l)) l.
Proof.
  revert acc. induction l as [|[id r] l IH]; intros acc O R Hdb Hnd Hnew Hcd Hc; cbn [foldl].
  { by split. }
  cbn in Hnd. apply NoDup_cons in Hnd as [Hid Hnd].
  destruct (load_row_spec acc id r) as [[O1 R1 G1 (E1 & E2 & E3 & E4 & E5 & E6 & E7)] _];
    [done..|by eapply Hnew; left|intros; eapply Hc; [left|done..]|].
  remember (load_row acc (id, r)) as acc1 eqn:Eacc.
  assert (Gn : forall id', get (snd acc1) id' = None <-> id' <> id /\ get (snd acc) id' = None).
  { intros id'. specialize (G1 id'). unfold row_lookup in G1. cbn in G1.
    rewrite lookup_insert, lookup_empty in G1.
    case_decide as E; split.
    - intros Hn. by rewrite Hn in G1.
    - intros [H _]. by destruct H.
    - intros Hn. rewrite Hn in G1. split; [done|]. symmetry in G1. by apply fmap_None in G1.
    - intros [_ Hn]. rewrite Hn in G1. by apply fmap_None in G1. }
  assert (Gs : forall id' p x, get (snd acc1) id' = Some (p, x) ->
    (id' = id /\ x = loaded_op id r) \/ exists p', get (snd acc) id' = Some (p', x)).
  { intros id' p x Hx. specialize (G1 id'). rewrite Hx in G1. unfold row_lookup in G1. cbn in G1.
    rewrite lookup_insert, lookup_empty in G1. case_decide.
    - left. subst. injection G1 as ->. done.
    - right. destruct (get (snd acc) id') as [[p' y]|]; [|done]. injection G1 as <-. eauto. }
  assert (Hne : forall id' r', (id', r') ∈ l -> id' <> id).
  { intros id' r' Hin ->. apply Hid. apply list_elem_of_fmap. by exists (id, r'). }
  destruct (IH acc1) as [O2 R2 G2 (F1 & F2 & F3 & F4 & F5 & F6 & F7)]; [done|done|congruence|done|..].
  - intros id' r' Hin. apply Gn. split; [by eapply Hne|]. eapply Hnew. by right.
  - intros a b r1 r2 c Ha Hb. eapply Hcd; by right.
  - intros id1 r1 id' p x Hin Hx Hcn. destruct (Gs _ _ _ Hx) as [[-> ->]|[p' Hx']].
    + rewrite loaded_op_Command. intros E. apply (Hne _ _ Hin).
      destruct (w_command_id r1) as [c1|] eqn:C1; cbn in *; [|done].
      destruct (w_command_id r) as [c|] eqn:C; cbn in *; subst; [|done].
      eapply (Hcd id1 id r1 r c1); [by right|by left|done..].
    + eapply Hc; [by right|done..].
  - split; [done..| |split_and!; congruence].
    intros id'. rewrite G2, G1. unfold row_lookup. cbn. rewrite !lookup_insert, lookup_empty.
    destruct ((list_to_map l : gmap string Row) !! id') as [r'|] eqn:El.
    + rewrite decide_False; [done|]. intros <-. apply elem_of_list_to_map_2 in El. by apply (Hne _ _ El).
    + by case_decide.
Qed.

Lemma persist_all_frame w ps q err q' :
  persist_all w ps q = (err, q') -> db_ok q ->
  db_ok q' /\ exists d, q' = q <| oq_db := d |> /\ (d = None <-> oq_db q = None).
Proof.
  revert w q. induction ps as [|p ps IH]; intros w q; cbn [persist_all].
  - intros [= <- <-] D. split; [done|]. exists (oq_db q). split; [by destruct q|done].
  - destruct (oq_objs q !! p) as [op|]; [|apply IH].
    destruct (persist_frame (w O) op q) as (d & E & Hd). intros H D.
    pose proof (persist_db (w O) op q D) as D1.
    destruct (persist (w O) op q) as [[e|] q1]; cbn [snd] in *; subst q1.
    + injection H as <- <-. eauto.
    + apply IH in H as (D2 & d2 & -> & Hd2); [|done]. split; [done|]. exists d2. split; [by destruct q|].
      rewrite Hd2. exact Hd.
Qed.

Lemma isort_NoDup {A B} less (l : list (A * B)) : NoDup (map fst l) -> NoDup (map fst (isort less l)).
Proof. by rewrite isort_perm. Qed.

(** The state the rows of a journal describe. *)
Record opened (t : Journal) (q : OperationQueue) : Prop := {
  op_ok : oq_ok q;
  op_registered : only_registered q;
  op_get : forall id, snd <$> get q id = loaded_op id <$> t !! id;
  op_rest : oq_ch q = [] /\ oq_started q = false /\ oq_nextID q = 0 /\ oq_dbopen q = true /\
    oq_closed q = false /\ oq_db q <> None
}.

Lemma newOperationQueue_ok c db : oq_ok (newOperationQueue c db) /\ only_registered (newOperationQueue c db) /\
  forall id, get (newOperationQueue c db) id = None.
Proof.
  split; [split|split]; try done; intros; cbn in *; try set_solver.
  apply NoDup_nil_2.
Qed.

Lemma load_all_spec c t :
  commands_unique t ->
  load_post (newOperationQueue c (Some t))
    (snd (foldl load_row ([], newOperationQueue c (Some t)) (isort older (map_to_list t))))
    (isort older (map_to_list t)).
Proof.
  intros U. destruct (newOperationQueue_ok c (Some t)) as (O & R & G).
  apply (load_rows_spec _ ([], newOperationQueue c (Some t))); cbn [snd]; try done.
  - apply isort_NoDup, NoDup_fst_map_to_list.
  - intros id1 id2 r1 r2 c0. rewrite !isort_perm, !elem_of_map_to_list. intros ?? _. by eapply U.
Qed.

Lemma open_journal_spec c t w q :
  commands_unique t -> NewPersistentOperationQueue c t w = Ok q -> opened t q /\ db_ok q.
Proof.
  intros U. unfold NewPersistentOperationQueue, loadJournal. change (oq_db (newOperationQueue c (Some t))) with (Some t).
  cbv beta iota zeta. pose proof (load_all_spec c t U) as L.
  set (q1 := foldl load_row _ _) in *. destruct (persist_all w (fst q1) (snd q1)) as [[e|] q2] eqn:E; [done|].
  intros [= <-]. destruct L as [O R G (F1 & F2 & F3 & F4 & F5 & F6 & F7)].
  apply persist_all_frame in E as (D & d & -> & Hd).
  2: { intros t'. rewrite F3. intros [= <-]. done. }
  rewrite F3 in Hd. split; [|done]. split.
  - eapply (upd_ok (fun _ _ _ => True)); [|exact O]. split; try done; [|by eauto].
    unfold journaled. rewrite F3. cbn. destruct d; [done|]. by destruct Hd as [Hd _]; specialize (Hd eq_refl).
  - exact R.
  - intros id. change (get ((snd q1) <| oq_db := d |>) id) with (get (snd q1) id). rewrite G.
    unfold row_lookup.
    assert (E : (list_to_map (isort older (map_to_list t)) : gmap string Row) = t).
    { rewrite (list_to_map_proper _ (map_to_list t)); [apply list_to_map_to_list| |apply isort_perm].
      apply isort_NoDup, NoDup_fst_map_to_list. }
    rewrite E. destruct (t !! id); [done|]. by destruct (newOperationQueue_ok c (Some t)) as (_ & _ & ->).
  - cbn. rewrite F1, F2, F4, F5, F6. split_and!; try done. naive_solver.
Qed.

(** ** The invariant of a process *)

Fixpoint got (l : list worker) : list ptr :=
  match l with [] => [] | WGot p :: l => p :: got l | _ :: l => got l end.

Fixpoint running (l : list worker) : list ptr :=
  match l with [] => [] | WRunning p :: l => p :: running l | _ :: l => running l end.

Lemma got_app l1 l2 : got (l1 ++ l2) = got l1 ++ got l2.
Proof. induction l1 as [|[]]; cbn; by rewrite ?IHl1. Qed.
Lemma running_app l1 l2 : running (l1 ++ l2) = running l1 ++ running l2.
Proof. induction l1 as [|[]]; cbn; by rewrite ?IHl1. Qed.
Lemma got_replicate n : got (replicate n WIdle) = [].
Proof. by induction n. Qed.
Lemma running_replicate n : running (replicate n WIdle) = [].
Proof. by induction n. Qed.

(** The operations on their way to a worker. *)
Definition en_route (W : World) : list ptr :=
  oq_ch (w_queue W) ++ w_sending W ++ w_rejected W ++ w_feed W ++ got (w_workers W).

Record world_ok (W : World) : Prop := {
  wo_queue : oq_ok (w_queue W);
  wo_db : db_ok (w_queue W);
  wo_next : min64 <= oq_nextID (w_queue W);
  wo_alloc : forall p, p ∈ en_route W ++ running (w_workers W) -> is_Some (oq_objs (w_queue W) !! p);
  wo_route : oq_started (w_queue W) = true -> w_cancelled W = None ->
    forall id p op, get (w_queue W) id = Some (p, op) -> op_Status op = StatusPending -> p ∈ en_route W;
  wo_idle : oq_started (w_queue W) = false ->
    w_feed W = [] /\ w_workers W = [] /\ w_cancelled W = None /\ this_life (w_hist W) = [];
  wo_known : forall id, (exists b, EvStart id b ∈ this_life (w_hist W)) \/ EvDone id ∈ this_life (w_hist W) ->
    exists p op, oq_objs (w_queue W) !! p = Some op /\ op_ID op = id;
  wo_once : w_cancelled W = None -> forall p op, oq_objs (w_queue W) !! p = Some op ->
    EvStart (op_ID op) true ∈ this_life (w_hist W) -> op_Status op <> StatusPending;
  wo_done : forall p op, oq_objs (w_queue W) !! p = Some op ->
    EvDone (op_ID op) ∈ this_life (w_hist W) -> terminal (op_Status op) /\ p ∉ running (w_workers W);
  wo_running : w_cancelled W = None -> NoDup (running (w_workers W)) /\
    forall p op, p ∈ running (w_workers W) -> oq_objs (w_queue W) !! p = Some op ->
      op_Status op <> StatusPending
}.

Lemma ok_ch q l : oq_ok q -> oq_ok (q <| oq_ch := l |>).
Proof. intros []. by split. Qed.

(** Steps that rewrite operations as other calls do. *)
Lemma wok_outside W q' :
  world_ok W -> upd outside (w_queue W) q' -> db_ok q' -> world_ok (W <| w_queue := q' |>).
Proof.
  intros WO U D. pose proof (upd_ch _ _ _ U) as Ech. pose proof (upd_started _ _ _ U) as Est.
  destruct W as [q s r f ws c h]. destruct WO.
  match goal with |- world_ok ?x => change x with (mkWorld q' s r f ws c h) end.
  split; cbn [w_queue w_cancelled w_hist w_workers w_sending w_rejected w_feed] in *.
  - by eapply upd_ok.
  - done.
  - by rewrite (upd_nextID _ _ _ U).
  - intros p Hp. destruct (wo_alloc0 p) as [op Hop].
    { unfold en_route in *. cbn in *. by rewrite Ech in Hp. }
    destruct (upd_objs _ _ _ U p op Hop) as (op' & -> & _). done.
  - intros Hs Hc id p op' (op & G & _ & T)%(upd_get _ _ _ _ _ _ U) Hst.
    unfold en_route. cbn. rewrite Ech. rewrite Est in Hs.
    eapply wo_route0; [done..|]. by apply T.
  - rewrite Est. exact wo_idle0.
  - intros id Hid. destruct (wo_known0 id Hid) as (p & op & Hp & <-).
    destruct (upd_objs _ _ _ U p op Hp) as (op' & ? & I & _). exists p, op'. split; [done|]. by auto.
  - intros Hc p op' (op & Hp & I & T)%(upd_back _ _ _ _ _ U). rewrite (ident_ID _ _ I).
    intros Hev Hst. apply (wo_once0 Hc p op Hp Hev). by apply T.
  - intros p op' (op & Hp & I & T)%(upd_back _ _ _ _ _ U). rewrite (ident_ID _ _ I).
    intros Hev. destruct (wo_done0 p op Hp Hev) as [[H1 H2] ?]. split; [|done].
    split; intros E; apply T in E; done.
  - intros Hc. destruct (wo_running0 Hc) as [? H]. split; [done|].
    intros p op' Hin (op & Hp & I & T)%(upd_back _ _ _ _ _ U) Hst.
    apply (H p op Hin Hp). by apply T.
Qed.

(** Steps that only move operations on, or withdraw one. *)
Lemma wok_moves W W' :
  world_ok W -> oq_ok (w_queue W') -> db_ok (w_queue W') ->
  oq_objs (w_queue W') = oq_objs (w_queue W) ->
  oq_started (w_queue W') = oq_started (w_queue W) -> oq_nextID (w_queue W') = oq_nextID (w_queue W) ->
  w_cancelled W' = w_cancelled W -> w_hist W' = w_hist W ->
  running (w_workers W') = running (w_workers W) ->
  (forall p, p ∈ en_route W' -> p ∈ en_route W) ->
  (w_cancelled W = None -> forall id p op, get (w_queue W') id = Some (p, op) ->
    op_Status op = StatusPending -> get (w_queue W) id = Some (p, op) /\ (p ∈ en_route W -> p ∈ en_route W')) ->
  (w_feed W = [] -> w_feed W' = []) -> (w_workers W = [] -> w_workers W' = []) ->
  world_ok W'.
Proof.
  intros [] O D Eo Es En Ec Eh Er Hin Hout Hf Hw. split; try done; rewrite ?Eo, ?Es, ?En, ?Ec, ?Eh, ?Er; try done.
  - intros p. rewrite elem_of_app. intros [Hp|Hp]; apply wo_alloc0, elem_of_app; auto.
  - intros Hs Hc id p op G Hst. destruct (Hout Hc id p op G Hst) as [G' Hr]. eauto.
  - intros Hs. destruct (wo_idle0 Hs) as (? & ? & ? & ?). split_and!; auto.
Qed.

Lemma got_set l1 w l2 : got (l1 ++ w :: l2) = got l1 ++ got [w] ++ got l2.
Proof. rewrite got_app. by destruct w. Qed.
Lemma running_set l1 w l2 : running (l1 ++ w :: l2) = running l1 ++ running [w] ++ running l2.
Proof. rewrite running_app. by destruct w. Qed.

Lemma send_inv p q q' : enqueue_send p q = Some q' -> q' = q <| oq_ch := oq_ch q ++ [p] |>.
Proof. unfold enqueue_send. case_match; [|done]. by intros [= <-]. Qed.

(** Unfolds the operations on their way after a record update. *)
Ltac eroute := unfold en_route; cbn; unfold const; cbn.

Lemma step_send_ok l1 p l2 q' W :
  world_ok W -> w_sending W = l1 ++ p :: l2 -> enqueue_send p (w_queue W) = Some q' ->
  world_ok (W <| w_queue := q' |> <| w_sending := l1 ++ l2 |>).
Proof.
  intros WO Es ->%send_inv. apply (wok_moves W); try done.
  - apply ok_ch, WO.
  - apply WO.
  - eroute. rewrite Es. set_solver.
  - intros _ id r op G _. split; [exact G|]. eroute. rewrite Es. set_solver.
Qed.

Lemma step_reject_ok l1 p l2 W :
  world_ok W -> w_sending W = l1 ++ p :: l2 ->
  world_ok (W <| w_sending := l1 ++ l2 |> <| w_rejected := p :: w_rejected W |>).
Proof.
  intros WO Es. apply (wok_moves W); try done; try apply WO.
  - eroute. rewrite Es. set_solver.
  - intros _ id r op G _. split; [exact G|]. eroute. rewrite Es. set_solver.
Qed.

Lemma step_withdraw_ok w l1 p l2 W :
  world_ok W -> w_rejected W = l1 ++ p :: l2 ->
  world_ok (W <| w_queue := removeUnqueued w p (w_queue W) |> <| w_rejected := l1 ++ l2 |>).
Proof.
  intros WO Er. pose proof (remove_db w p (w_queue W) (wo_db W WO)) as D.
  destruct (removeUnqueued_spec w p (w_queue W) (wo_queue W WO)) as [O P].
  revert O P D. generalize (removeUnqueued w p (w_queue W)). intros q' O [] D.
  apply (wok_moves W); try done.
  - eroute. rewrite rm_ch0, Er. set_solver.
  - intros _ id r op G Hst. change (get q' id = Some (r, op)) in G. destruct (rm_get0 id) as [E|[E _]]; [|congruence].
    split; [congruence|]. assert (r <> p) by (intros ->; by eapply rm_gone0).
    eroute. rewrite rm_ch0, Er. set_solver.
Qed.

Lemma step_feed_ok p l q' W :
  world_ok W -> w_feed W = p :: l -> enqueue_send p (w_queue W) = Some q' ->
  world_ok (W <| w_queue := q' |> <| w_feed := l |>).
Proof.
  intros WO Ef ->%send_inv. apply (wok_moves W); try done.
  - apply ok_ch, WO.
  - apply WO.
  - eroute. rewrite Ef. set_solver.
  - intros _ id r op G _. split; [exact G|]. eroute. rewrite Ef. set_solver.
  - by rewrite Ef.
Qed.

Lemma step_feed_stops_ok e W :
  world_ok W -> w_cancelled W = Some e -> world_ok (W <| w_feed := [] |>).
Proof.
  intros WO Ec. apply (wok_moves W); try done; try apply WO; [|congruence].
  eroute. set_solver.
Qed.

Lemma step_receive_ok p l l1 l2 W :
  world_ok W -> oq_ch (w_queue W) = p :: l -> w_workers W = l1 ++ WIdle :: l2 ->
  world_ok (W <| w_queue := (w_queue W) <| oq_ch := l |> |> <| w_workers := l1 ++ WGot p :: l2 |>).
Proof.
  intros WO Ech Ew. apply (wok_moves W); try done; try apply WO.
  - apply ok_ch, WO.
  - cbn. unfold const. by rewrite Ew, !running_set.
  - eroute. rewrite Ech, Ew, !got_set. cbn. set_solver.
  - intros _ id r op G _. split; [exact G|].
    eroute. rewrite Ech, Ew, !got_set. cbn. set_solver.
  - intros E. rewrite E in Ew. by destruct l1.
Qed.

Lemma step_exit_ok e l1 l2 W :
  world_ok W -> w_cancelled W = Some e -> w_workers W = l1 ++ WIdle :: l2 ->
  world_ok (W <| w_workers := l1 ++ l2 |>).
Proof.
  intros WO Ec Ew. apply (wok_moves W); try done; try apply WO.
  - cbn. unfold const. by rewrite Ew, running_set, running_app.
  - eroute. rewrite Ew, got_set, got_app. cbn. set_solver.
  - congruence.
  - intros E. rewrite E in Ew. by destruct l1.
Qed.

Lemma step_register_ok w c s typ ttl uuid now r q' W :
  world_ok W -> fresh_id uuid W -> oq_nextID (w_queue W) < max64 ->
  enqueue_register w c s typ ttl uuid now (w_queue W) = (r, q') ->
  world_ok (W <| w_queue := q' |>
              <| w_sending := match r with Registered p _ => p :: w_sending W | _ => w_sending W end |>).
Proof.
  intros WO [Hu _] Hn E.
  pose proof (register_db w c s typ ttl uuid now (w_queue W) (wo_db W WO)) as D. rewrite E in D.
  destruct (enqueue_register_spec w c s typ ttl uuid now (w_queue W) r q') as (O & Hnx & P);
    [apply WO|done|split; [apply WO|done]|done|].
  destruct P. destruct W as [q sd rj f ws cn h]. destruct WO. cbn [w_queue w_sending w_cancelled] in *.
  match goal with |- world_ok ?x => change x with
    (mkWorld q' match r with Registered p _ => p :: sd | _ => sd end rj f ws cn h) end.
  assert (Hnew : forall p op, oq_objs q' !! p = Some op -> oq_objs q !! p = Some op \/
    (op_Status op = StatusPending /\ p ∉ running ws /\
     (forall b, EvStart (op_ID op) b ∉ this_life h) /\ EvDone (op_ID op) ∉ this_life h)).
  { intros p op [?|(Hst & Hp & Hid)]%rp_new0; [by left|right]. split; [done|].
    split; [intros Hin; destruct (wo_alloc0 p) as [x Hx]; [apply elem_of_app; by right|cbn in Hx; congruence]|].
    split; [intros b Hin|intros Hin]; destruct (wo_known0 (op_ID op)) as (x & y & Hx & Hy); cbn; eauto;
      by eapply Hid. }
  split; cbn [w_queue w_cancelled w_hist w_workers w_sending w_rejected w_feed]; try done.
  - intros p Hp. assert (Hc : (exists op, r = Registered p op) \/ p ∈ en_route (mkWorld q sd rj f ws cn h) ++ running ws).
    { revert Hp. unfold en_route. cbn. rewrite rp_ch0. destruct r as [|p' op']; [by right|].
      destruct (decide (p = p')) as [->|Hne]; [by left; eauto|]. right. set_solver. }
    destruct Hc as [(op & ->)|Hc]; [by rewrite (rp_reg0 p op)|].
    destruct (wo_alloc0 p Hc) as [x Hx]. by rewrite (rp_old0 p x Hx).
  - rewrite rp_started0. intros Hs Hc id p op G Hst. unfold en_route. cbn. rewrite rp_ch0.
    destruct (rp_get0 id) as [E'|(p' & op' & -> & -> & G')].
    + rewrite E' in G. pose proof (wo_route0 Hs Hc id p op G Hst) as Hp.
      unfold en_route in Hp. cbn in Hp. clear - Hp. destruct r; set_solver.
    + rewrite G in G'. injection G' as -> ->. set_solver.
  - by rewrite rp_started0.
  - intros id Hid. destruct (wo_known0 id Hid) as (p & op & Hp & <-). eauto.
  - intros Hc p op [Hp|(_ & _ & Hn1 & _)]%Hnew Hev; [by apply (wo_once0 Hc p op)|]. by destruct (Hn1 true).
  - intros p op [Hp|(_ & _ & _ & Hn1)]%Hnew Hev; [by apply (wo_done0 p op)|]. done.
  - intros Hc. destruct (wo_running0 Hc) as [? H]. split; [done|].
    intros p op Hin [Hp|(_ & Hn1 & _)]%Hnew; [by apply (H p op)|done].
Qed.

Lemma step_start_ok W :
  world_ok W -> oq_started (w_queue W) = false ->
  world_ok (W <| w_queue := snd (Start (w_queue W)) |> <| w_feed := fst (Start (w_queue W)) |>
              <| w_workers := replicate (Z.to_nat (oq_concurrency (w_queue W))) WIdle |>).
Proof.
  intros WO Hs. unfold Start. rewrite Hs. cbn [fst snd].
  destruct W as [q sd rj f ws cn h]. destruct WO. cbn [w_queue] in *.
  destruct (wo_idle0 Hs) as (Hf & Hw & Hc & Hh). cbn in Hf, Hw, Hc, Hh.
  set (ps := map fst _). set (n := Z.to_nat _).
  match goal with |- world_ok ?x => change x with
    (mkWorld (q <| oq_started := true |>) sd rj ps (replicate n WIdle) cn h) end.
  assert (Hps : forall p, p ∈ ps <-> exists id op, get q id = Some (p, op) /\ op_Status op = StatusPending).
  { intros p. unfold ps. rewrite list_elem_of_fmap. split.
    - intros ([p' op] & -> & [Hst [id G]%registered_spec]%list_elem_of_filter). eauto.
    - intros (id & op & G & Hst). exists (p, op). split; [done|]. apply list_elem_of_filter.
      split; [done|]. apply registered_spec. eauto. }
  split; cbn [w_queue w_cancelled w_hist w_workers w_sending w_rejected w_feed]; try done.
  - by destruct wo_queue0.
  - intros p. unfold en_route. cbn. rewrite got_replicate, running_replicate, !app_nil_r. intros Hp.
    destruct (decide (p ∈ ps)) as [(id & op & [_ Hop]%get_Some & _)%Hps|Hn]; [by rewrite Hop|].
    apply wo_alloc0. unfold en_route. cbn. subst. clear - Hp Hn. set_solver.
  - intros _ _ id p op G Hst. unfold en_route. cbn.
    assert (p ∈ ps) by (apply Hps; eauto). set_solver.
  - intros p op Hp Hev. rewrite Hh in Hev. by apply not_elem_of_nil in Hev.
  - intros _. rewrite running_replicate. split; [apply NoDup_nil_2|]. by intros p op ?%elem_of_nil.
Qed.

Lemma step_skip_ok w now p q' l1 l2 W :
  world_ok W -> w_workers W = l1 ++ WGot p :: l2 -> begin_op w now p (w_queue W) = (false, q') ->
  world_ok (W <| w_queue := q' |> <| w_workers := l1 ++ WIdle :: l2 |>).
Proof.
  intros WO Ew E. destruct (begin_op_false _ _ _ _ _ E) as [U Hnp].
  pose proof (begin_db w now p (w_queue W) (wo_db W WO)) as D. rewrite E in D.
  assert (WO1 : world_ok (W <| w_queue := q' |>)) by (by apply wok_outside).
  apply (wok_moves (W <| w_queue := q' |>)); try done; try apply WO1.
  - cbn. unfold const. by rewrite Ew, !running_set.
  - eroute. rewrite Ew, !got_set. cbn. set_solver.
  - intros _ id r op G Hst. split; [exact G|]. change (get q' id = Some (r, op)) in G.
    apply get_Some in G as [_ G]. assert (r <> p) by (intros ->; by apply Hnp in G).
    eroute. rewrite Ew, !got_set. cbn. set_solver.
  - cbn. intros E'. rewrite E' in Ew. by destruct l1.
Qed.

Lemma upd_alloc T q q' p : upd T q q' -> is_Some (oq_objs q !! p) -> is_Some (oq_objs q' !! p).
Proof. intros U [op Hp]. by destruct (upd_objs _ _ _ U p op Hp) as (op' & -> & _). Qed.

Lemma upd_known T q q' id :
  upd T q q' -> (exists p op, oq_objs q !! p = Some op /\ op_ID op = id) ->
  exists p op, oq_objs q' !! p = Some op /\ op_ID op = id.
Proof.
  intros U (p & op & Hp & <-). destruct (upd_objs _ _ _ U p op Hp) as (op' & ? & I & _).
  exists p, op'. split; [done|]. by auto.
Qed.

Lemma step_begin_ok w now p q' l1 l2 W :
  world_ok W -> w_workers W = l1 ++ WGot p :: l2 -> begin_op w now p (w_queue W) = (true, q') ->
  world_ok (W <| w_queue := q' |> <| w_workers := l1 ++ WRunning p :: l2 |>
              <| w_hist := EvStart (id_of (w_queue W) p) (is_live W) :: w_hist W |>).
Proof.
  intros WO Ew E. destruct (begin_op_true _ _ _ _ _ E) as (op & Hp & Hst & _ & U).
  pose proof (begin_db w now p (w_queue W) (wo_db W WO)) as D. rewrite E in D.
  unfold id_of. rewrite Hp. destruct W as [q sd rj f ws cn h]. destruct WO. cbn [w_queue w_workers] in *. subst ws.
  match goal with |- world_ok ?x => change x with (mkWorld q' sd rj f (l1 ++ WRunning p :: l2) cn
    (EvStart (op_ID op) (is_live (mkWorld q sd rj f (l1 ++ WGot p :: l2) cn h)) :: h)) end.
  cbn [w_queue w_cancelled w_hist w_workers w_sending w_rejected w_feed] in *.
  assert (Back : forall r x', oq_objs q' !! r = Some x' -> exists x, oq_objs q !! r = Some x /\ op_ID x' = op_ID x /\ (r <> p -> x' = x) /\ (r = p -> op_Status x' = StatusRunning)).
  { intros r x' (x & Hx & I & T)%(upd_back _ _ _ _ _ U). exists x. split_and!; [done|by auto|..];
      unfold only_at in T; case_decide; naive_solver. }
  assert (Started : oq_started q = true).
  { destruct (oq_started q) eqn:Es; [done|]. destruct (wo_idle0 eq_refl) as (_ & Hw & _). by destruct l1. }
  assert (Hnr : w_cancelled (mkWorld q sd rj f (l1 ++ WGot p :: l2) cn h) = None -> p ∉ running (l1 ++ WGot p :: l2)).
  { intros Hc Hin. destruct (wo_running0 Hc) as [_ H]. by apply (H p op Hin Hp). }
  cbn [w_cancelled] in *.
  split; cbn [w_queue w_cancelled w_hist w_workers w_sending w_rejected w_feed this_life]; try done.
  - by eapply upd_ok.
  - by rewrite (upd_nextID _ _ _ U).
  - intros r Hr. eapply upd_alloc; [exact U|]. apply wo_alloc0. revert Hr.
    unfold en_route. cbn. rewrite (upd_ch _ _ _ U), !got_set, !running_set. cbn. clear. set_solver.
  - intros _ Hc id r x' (x & G & _ & T)%(upd_get _ _ _ _ _ _ U) Hx. unfold only_at in T.
    case_decide as Er; [subst; by rewrite T in Hx|]. subst x'.
    pose proof (wo_route0 Started Hc id r x G Hx) as Hin. revert Hin.
    unfold en_route. cbn. rewrite (upd_ch _ _ _ U), !got_set. cbn. clear - Er. set_solver.
  - rewrite (upd_started _ _ _ U), Started. done.
  - intros id Hid. eapply upd_known; [exact U|].
    destruct (decide (id = op_ID op)) as [->|Hne]; [by exists p, op|].
    apply wo_known0. destruct Hid as [[b Hb]|Hb]; [left; exists b|right]; set_solver.
  - intros Hc r x' (x & Hx & -> & Hn & Hy)%Back Hev. destruct (decide (r = p)) as [->|Hr]; [by rewrite Hy|].
    rewrite Hn by done. apply (wo_once0 Hc r x Hx).
    assert (op_ID x <> op_ID op) by (intros Eid; apply Hr; by eapply (ok_distinct q)).
    set_solver.
  - intros r x' (x & Hx & -> & Hn & Hy)%Back Hev.
    destruct (wo_done0 r x Hx) as [Ht Hnin]; [set_solver|].
    destruct (decide (r = p)) as [->|Hr].
    { exfalso. assert (x = op) as -> by congruence. by destruct Ht. }
    rewrite Hn by done. split; [done|]. rewrite running_set in Hnin |- *. cbn in *. set_solver.
  - intros Hc. destruct (wo_running0 Hc) as [Hnd H]. specialize (Hnr Hc).
    rewrite running_set in Hnd, H, Hnr |- *. cbn in *. split.
    + rewrite <- Permutation_middle. by apply NoDup_cons.
    + intros r x' Hin (x & Hx & _ & Hn & Hy)%Back.
      destruct (decide (r = p)) as [->|Hr]; [by rewrite Hy|]. rewrite Hn by done.
      apply (H r x); [set_solver|done].
Qed.

Lemma step_finish_ok w opErr now p l1 l2 W :
  world_ok W -> w_workers W = l1 ++ WRunning p :: l2 ->
  world_ok (W <| w_queue := finish_op w (w_cancelled W) opErr now p (w_queue W) |>
              <| w_workers := l1 ++ WIdle :: l2 |>
              <| w_hist := if is_live W then EvDone (id_of (w_queue W) p) :: w_hist W else w_hist W |>).
Proof.
  intros WO Ew. destruct (wo_alloc W WO p) as [op Hp].
  { apply elem_of_app. right. rewrite Ew, running_set. cbn. set_solver. }
  pose proof (finish_op_upd w (w_cancelled W) opErr now p op (w_queue W) Hp) as U.
  pose proof (finish_db w (w_cancelled W) opErr now p (w_queue W) (wo_db W WO)) as D.
  unfold id_of, is_live. rewrite Hp. revert U D. generalize (finish_op w (w_cancelled W) opErr now p (w_queue W)).
  intros q' U D. destruct W as [q sd rj f ws cn h]. destruct WO. cbn [w_queue w_workers] in *. subst ws.
  match goal with |- world_ok ?x => change x with (mkWorld q' sd rj f (l1 ++ WIdle :: l2) cn
    (if match cn with None => true | Some _ => false end then EvDone (op_ID op) :: h else h)) end.
  cbn [w_queue w_cancelled w_hist w_workers w_sending w_rejected w_feed] in *.
  assert (Back : forall r x', oq_objs q' !! r = Some x' -> exists x, oq_objs q !! r = Some x /\
    op_ID x' = op_ID x /\ (r <> p -> x' = x) /\ (r = p -> cn = None -> terminal (op_Status x'))).
  { intros r x' (x & Hx & I & T)%(upd_back _ _ _ _ _ U). exists x. split; [done|]. split; [by auto|].
    unfold only_at in T. case_decide; split; intros; subst; auto; done. }
  assert (Started : oq_started q = true).
  { destruct (oq_started q) eqn:Es; [done|]. destruct (wo_idle0 eq_refl) as (_ & Hw & _). by destruct l1. }
  assert (Sub : forall r, r ∈ running (l1 ++ WIdle :: l2) -> r ∈ running (l1 ++ WRunning p :: l2)).
  { intros r. rewrite !running_set, !elem_of_app. cbn. rewrite elem_of_nil. intuition. }
  assert (Dn : EvDone (op_ID op) ∈ this_life h -> False).
  { intros Hev. destruct (wo_done0 p op Hp Hev) as [_ Hn]. apply Hn. rewrite running_set, !elem_of_app.
    right; left. cbn. by left. }
  assert (Hist : forall e, e ∈ this_life (if match cn with None => true | Some _ => false end then EvDone (op_ID op) :: h else h) ->
    (e = EvDone (op_ID op) /\ cn = None) \/ e ∈ this_life h).
  { intros e. destruct cn; [by right|]. cbn. rewrite elem_of_cons. intuition. }
  split; cbn [w_queue w_cancelled w_hist w_workers w_sending w_rejected w_feed]; try done.
  - by eapply upd_ok.
  - by rewrite (upd_nextID _ _ _ U).
  - intros r Hr. eapply upd_alloc; [exact U|]. apply wo_alloc0. revert Hr.
    unfold en_route. cbn. rewrite (upd_ch _ _ _ U), !got_set, !running_set. cbn. clear. set_solver.
  - intros _ Hc id r x' (x & G & _ & T)%(upd_get _ _ _ _ _ _ U) Hx. unfold only_at in T.
    case_decide as Er; [subst r; by destruct (T Hc)|]. subst x'.
    pose proof (wo_route0 Started Hc id r x G Hx) as Hin. revert Hin.
    unfold en_route. cbn. rewrite (upd_ch _ _ _ U), !got_set. cbn. done.
  - rewrite (upd_started _ _ _ U), Started. done.
  - intros id Hid. eapply upd_known; [exact U|].
    destruct Hid as [[b [[? _]|Hb]%Hist]|[[[= ->] _]|Hb]%Hist]; [done|..|by exists p, op|]; apply wo_known0; eauto.
  - intros Hc r x' (x & Hx & -> & Hn & Hy)%Back Hev. destruct (decide (r = p)) as [->|Hr].
    { by destruct (Hy eq_refl Hc). }
    rewrite Hn by done. apply Hist in Hev as [[? _]|Hev]; [done|]. by apply (wo_once0 Hc r x Hx).
  - intros r x' (x & Hx & -> & Hn & Hy)%Back Hev. destruct (decide (r = p)) as [->|Hr].
    + assert (x = op) as -> by congruence. apply Hist in Hev as [[_ Hc]|Hev]; [|by destruct Dn].
      split; [by apply Hy|]. destruct (wo_running0 Hc) as [Hnd _]. revert Hnd.
      rewrite !running_set. cbn. rewrite <- Permutation_middle, NoDup_cons. by intros [? _].
    + rewrite Hn by done. apply Hist in Hev as [[[= Eid] _]|Hev]; [by destruct Hr; eapply (ok_distinct q)|].
      destruct (wo_done0 r x Hx Hev) as [? Hni]. split; [done|]. intros Hin. by apply Hni, Sub.
  - intros Hc. destruct (wo_running0 Hc) as [Hnd H]. split.
    + revert Hnd. rewrite !running_set. cbn. rewrite <- Permutation_middle, NoDup_cons. by intros [_ ?].
    + intros r x' Hin (x & Hx & _ & Hn & Hy)%Back. destruct (decide (r = p)) as [->|Hr].
      { by destruct (Hy eq_refl Hc). }
      rewrite Hn by done. apply (H r x); [by apply Sub|done].
Qed.

Lemma step_cancel_ok e W :
  world_ok W -> oq_started (w_queue W) = true -> world_ok (W <| w_cancelled := Some e |>).
Proof.
  intros WO Hs. destruct W as [q sd rj f ws cn h]. destruct WO.
  match goal with |- world_ok ?x => change x with (mkWorld q sd rj f ws (Some e) h) end.
  cbn [w_queue] in *. split; try done. intros Hn. cbn in Hn. congruence.
Qed.

Lemma step_settle_ok w now W :
  world_ok W -> (oq_started (w_queue W) = true -> w_cancelled W <> None) ->
  world_ok (W <| w_queue := shutdown_settle w now (w_queue W) |>).
Proof.
  intros WO Hc. pose proof (shutdown_settle_upd w now (w_queue W)) as U.
  pose proof (settle_db w now (w_queue W) (wo_db W WO)) as D.
  revert U D. generalize (shutdown_settle w now (w_queue W)). intros q' U D.
  destruct W as [q sd rj f ws cn h]. destruct WO.
  match goal with |- world_ok ?x => change x with (mkWorld q' sd rj f ws cn h) end.
  cbn [w_queue w_cancelled w_hist w_workers w_sending w_rejected w_feed] in *.
  assert (Q : cn = None -> oq_started q = false).
  { intros E. destruct (oq_started q); [by destruct Hc|done]. }
  split; cbn [w_queue w_cancelled w_hist w_workers w_sending w_rejected w_feed]; try done.
  - by eapply upd_ok.
  - by rewrite (upd_nextID _ _ _ U).
  - intros r Hr. eapply upd_alloc; [exact U|]. apply wo_alloc0. revert Hr.
    unfold en_route. cbn. by rewrite (upd_ch _ _ _ U).
  - rewrite (upd_started _ _ _ U). intros Hs E. apply Q in E. congruence.
  - by rewrite (upd_started _ _ _ U).
  - intros id Hid. eapply upd_known; [exact U|]. by apply wo_known0.
  - intros E p op _ Hev. destruct (wo_idle0 (Q E)) as (_ & _ & _ & Hh). rewrite Hh in Hev.
    by apply not_elem_of_nil in Hev.
  - intros p op' (op & Hp & I & T)%(upd_back _ _ _ _ _ U). rewrite (ident_ID _ _ I). intros Hev.
    destruct (wo_done0 p op Hp Hev) as [Ht ?]. by rewrite T.
  - intros E. destruct (wo_idle0 (Q E)) as (_ & -> & _). split; [apply NoDup_nil_2|]. by intros p op ?%elem_of_nil.
Qed.

Lemma step_journal_close_ok W : world_ok W -> world_ok (W <| w_queue := journal_close (w_queue W) |>).
Proof.
  intros WO. apply (wok_moves W); try done; try apply WO. by destruct (wo_queue W WO).
Qed.

Lemma fresh_world_ok q hist :
  oq_ok q -> db_ok q -> oq_ch q = [] -> oq_started q = false -> min64 <= oq_nextID q ->
  this_life hist = [] -> world_ok (fresh_world q hist).
Proof.
  intros O D Ech Es Hn Hh. split; cbn; try done; rewrite ?Hh.
  - intros p. unfold en_route. cbn. rewrite Ech. by intros ?%elem_of_nil.
  - by rewrite Es.
  - by intros id [[b ?%elem_of_nil]|?%elem_of_nil].
  - by intros _ p op _ ?%elem_of_nil.
  - by intros p op _ ?%elem_of_nil.
  - intros _. split; [apply NoDup_nil_2|]. by intros p op ?%elem_of_nil.
Qed.

Lemma world_step_ok allowed W W' : world_step allowed W W' -> world_ok W -> world_ok W'.
Proof.
  intros S WO. destruct S.
  - apply wok_outside; [done|by eapply call_upd|]. eapply call_db; [done|apply WO].
  - by eapply step_register_ok.
  - by eapply step_send_ok.
  - by eapply step_reject_ok.
  - by eapply step_withdraw_ok.
  - by apply step_start_ok.
  - by eapply step_feed_ok.
  - by eapply step_feed_stops_ok.
  - by eapply step_receive_ok.
  - by eapply step_exit_ok.
  - by eapply step_skip_ok.
  - by eapply step_begin_ok.
  - by eapply step_finish_ok.
  - by apply step_cancel_ok.
  - by apply step_settle_ok.
  - by apply step_journal_close_ok.
  - destruct (open_journal_spec concurrency t w q') as [[O _ _ (E1 & E2 & E3 & _)] D]; [by apply WO|done|].
    apply fresh_world_ok; try done. rewrite E3. done.
Qed.

Lemma initial_world_ok c j : world_ok (initial_world c j).
Proof.
  apply fresh_world_ok; try done; [apply newOperationQueue_ok|].
  intros t Ht. cbn in Ht. destruct j; [|done]. injection Ht as <-. by intros id1 id2 r1 r2 c0 ?%lookup_empty_Some.
Qed.

Lemma reachable_ok allowed c j W : reachable allowed (initial_world c j) W -> world_ok W.
Proof. induction 1; [apply initial_world_ok|by eapply world_step_ok]. Qed.

(** ** What the queue guarantees *)

(** A history in which no operation is started again after its verdict, nor
    twice while the process is not shutting down, within one process. *)
Inductive well_run : list event -> Prop :=
| run_nil : well_run []
| run_restart h : well_run h -> well_run (EvRestart :: h)
| run_done id h : well_run h -> well_run (EvDone id :: h)
| run_start id live h :
    well_run h -> EvDone id ∉ this_life h -> (live = true -> EvStart id true ∉ this_life h) ->
    well_run (EvStart id live :: h).

Lemma begin_well_run w now p q' l1 l2 W :
  world_ok W -> well_run (w_hist W) -> w_workers W = l1 ++ WGot p :: l2 ->
  begin_op w now p (w_queue W) = (true, q') ->
  well_run (EvStart (id_of (w_queue W) p) (is_live W) :: w_hist W).
Proof.
  intros WO R Ew E. destruct (begin_op_true _ _ _ _ _ E) as (op & Hp & Hst & _ & _).
  unfold id_of. rewrite Hp. constructor; [done|..].
  - intros Hev. by destruct (wo_done W WO p op Hp Hev) as [[? _] _].
  - intros Hl Hev. unfold is_live in Hl. destruct (w_cancelled W) eqn:Ec; [done|].
    by apply (wo_once W WO Ec p op Hp Hev).
Qed.

Lemma reachable_well_run allowed c j W : reachable allowed (initial_world c j) W -> well_run (w_hist W).
Proof.
  induction 1 as [|W W' R IH S]; [constructor|]. pose proof (reachable_ok _ _ _ _ R) as WO.
  destruct S; try exact IH.
  - by eapply begin_well_run.
  - change (well_run (if is_live W then EvDone (id_of (w_queue W) p) :: w_hist W else w_hist W)).
    destruct (is_live W); [by constructor|done].
  - by constructor.
Qed.

(** C16: An operation is run at most once by a process, however its queue is
    used and whatever its journal does: a handler is never started for an
    operation that already got its verdict, and never started twice before
    shutdown begins, even when the operation reached the workers twice. *)
Theorem operation_runs_once (allowed : write -> Prop) (c : Z) (j : bool) (W : World)
    (HW : reachable allowed (initial_world c j) W) :
  well_run (w_hist W).
Proof. by eapply reachable_well_run. Qed.

(** While the queue runs, a registered operation that is still pending is
    on its way to a worker: in the channel, with the call that registered it,
    with the feeder of [Start], or in a worker's hands.  None is forgotten. *)
Lemma pending_is_en_route (allowed : write -> Prop) (c : Z) (j : bool) (W : World)
    (HW : reachable allowed (initial_world c j) W)
    (id : string) (p : ptr) (op : Operation)
    (Hstarted : oq_started (w_queue W) = true) (Hlive : w_cancelled W = None)
    (Hget : get (w_queue W) id = Some (p, op)) (Hpending : op_Status op = StatusPending) :
  p ∈ en_route W.
Proof. by eapply wo_route; [eapply reachable_ok| | | |]. Qed.

(** What a call of [EnqueueCommandWithTTL] answers before its [select]. *)
Definition registers (c s typ : string) (ttl : Duration) (now : Time) (q q' : OperationQueue)
    (r : registration) : Prop :=
  match r with
  | Registered p op =>
      op_CommandID op = c /\ op_ServerID op = s /\ op_Type op = typ /\ op_TTL op = ttl /\
      op_Status op = StatusPending /\ op_CreatedAt op = now /\ op_Acknowledged op = false /\
      get q (op_ID op) = None /\
      forall id, get q' id = if decide (id = op_ID op) then Some (p, op) else get q id
  | Answered (Ok op) => q' = q /\ c <> "" /\ op_CommandID op = c /\ op_ServerID op = s
  | Answered (Err _) => forall id, get q' id = get q id
  end.

Definition must_answer (c s : string) (q : OperationQueue) (r : registration) : Prop :=
  (oq_closed q = true -> r = Answered (Err ErrQueueStopped)) /\
  (oq_closed q = false -> c <> "" -> forall id p op, get q id = Some (p, op) -> op_CommandID op = c ->
     r = Answered (if (op_ServerID op =? s)%string then Ok op
                   else Err (cat ["command "; c; " already refers to server "; op_ServerID op; ", not "; s]))).

Lemma register_registers w c s typ ttl uuid now q r q' :
  oq_ok q -> (forall p op, oq_objs q !! p = Some op -> op_ID op <> uuid) ->
  min64 <= oq_nextID q < max64 ->
  enqueue_register w c s typ ttl uuid now q = (r, q') -> registers c s typ ttl now q q' r.
Proof.
  intros O Hu Hn E. destruct (enqueue_register_spec _ _ _ _ _ _ _ _ _ _ O Hu Hn E) as (O' & _ & []).
  destruct r as [[op|msg]|p op].
  - revert E. unfold enqueue_register. destruct (oq_closed q); [done|].
    destruct (if (c =? "")%string then None else find_command c q) as [e|] eqn:Ef.
    + destruct (c =? "")%string eqn:Ec; [done|]. seqb. apply find_command_Some in Ef as [Hc _].
      destruct (op_ServerID e =? s)%string eqn:Es; cbn [negb]; [|done]. seqb. by intros [= <- <-].
    + cbv zeta. by destruct (persist _ _ _) as [[err|] q1].
  - intros id. by destruct (rp_get0 id) as [?|(? & ? & ? & _)].
  - assert (Hreg : op_CommandID op = c /\ op_ServerID op = s /\ op_Type op = typ /\ op_TTL op = ttl /\
      op_Status op = StatusPending /\ op_CreatedAt op = now /\ op_Acknowledged op = false /\
      oq_operations q' !! op_ID op = Some p /\ oq_objs q !! p = None).
    { revert E. unfold enqueue_register. destruct (oq_closed q); [done|].
      destruct (if (c =? "")%string then None else find_command c q) as [e|]; [by destruct (negb _)|].
      cbv zeta. match goal with |- context [persist w ?o ?x] =>
        destruct (persist_frame w o x) as (d & Ed & _); destruct (persist w o x) as [[err|] q1] end; [done|].
      cbn [snd] in Ed. subst q1. intros [= <- <- <-]. split_and!; try done; [apply lookup_insert_eq|].
      apply (not_elem_of_dom (oq_objs q)), is_fresh. }
    destruct Hreg as (? & ? & ? & ? & ? & ? & ? & Hops & Hp). split_and!; try done.
    + destruct (get q (op_ID op)) as [[p0 x]|] eqn:G; [|done]. exfalso.
      pose proof (get_registered q _ p0 x O G) as Hid. apply get_Some in G as [_ Hx].
      apply rp_old0 in Hx as Hx'. pose proof (rp_reg0 p op eq_refl) as Hop.
      assert (p0 = p) as -> by (eapply (ok_distinct q' O'); eauto). congruence.
    + intros id. case_decide as Ei.
      * subst. apply get_intro; [done|by apply rp_reg0].
      * destruct (rp_get0 id) as [?|(p1 & o1 & [= <- <-] & ? & _)]; done.
Qed.

Lemma register_must_answer w c s typ ttl uuid now q r q' :
  oq_ok q -> enqueue_register w c s typ ttl uuid now q = (r, q') -> must_answer c s q r.
Proof.
  intros O H. unfold enqueue_register in H. split; intros Hcl; rewrite Hcl in H.
  - by injection H.
  - intros Hc id p op G Hop. apply String.eqb_neq in Hc as Hc'. rewrite Hc' in H.
    destruct (find_command c q) as [e|] eqn:Ef.
    + apply find_command_Some in Ef as [He (id' & p' & G')].
      assert (id' = id) as -> by (eapply (ok_commands q O); [exact G'|exact G|congruence|congruence]).
      assert (e = op) as -> by congruence.
      destruct (op_ServerID op =? s)%string; by injection H.
    + exfalso. by eapply find_command_None.
Qed.

(** Enqueueing a command answers what the caller may rely on.  A stopped
    queue refuses; a command that is already registered for the same server
    returns that very operation and changes nothing, for another server it is
    refused; otherwise a new pending operation with the given command, server,
    type and time limit is registered under a new ID, or, when the journal
    refuses it, nothing is.  At most one registered operation has a given
    command ID. *)
Lemma enqueue_is_idempotent (allowed : write -> Prop) (k : Z) (j : bool) (W : World)
    (w : write) (c s typ : string) (ttl : Duration) (uuid : string) (now : Time)
    (r : registration) (q' : OperationQueue)
    (HW : reachable allowed (initial_world k j) W) (Hfresh : fresh_id uuid W)
    (Hnext : oq_nextID (w_queue W) < max64)
    (Hcall : enqueue_register w c s typ ttl uuid now (w_queue W) = (r, q')) :
  must_answer c s (w_queue W) r /\ registers c s typ ttl now (w_queue W) q' r /\
  forall id1 id2 p1 p2 o1 o2, get q' id1 = Some (p1, o1) -> get q' id2 = Some (p2, o2) ->
    op_CommandID o1 <> "" -> op_CommandID o1 = op_CommandID o2 -> id1 = id2.
Proof.
  pose proof (reachable_ok _ _ _ _ HW) as WO. destruct Hfresh as [Hu _].
  assert (min64 <= oq_nextID (w_queue W) < max64) by (split; [apply WO|done]).
  pose proof (wo_queue W WO) as O. split; [by eapply register_must_answer|].
  split; [by eapply register_registers|].
  apply (enqueue_register_spec _ _ _ _ _ _ _ _ _ _ O Hu H Hcall).
Qed.

(** ** The journal of a process whose statements succeed *)

Definition clean (w : write) : Prop := w = WOk.

(** The rows of the registered operations are up to date. *)
Definition synced (q : OperationQueue) : Prop :=
  oq_dbopen q = true -> forall t, oq_db q = Some t ->
    forall id p op, get q id = Some (p, op) -> t !! id = Some (row_of op).

(** A row [persist] could have written. *)
Definition normal (id : string) (r : Row) : Prop := row_of (of_row id r) = r.

Definition rows_normal (q : OperationQueue) : Prop :=
  forall t id r, oq_db q = Some t -> t !! id = Some r -> normal id r.

#[local] Transparent ident.
Lemma ident_row a b : ident a = ident b ->
  w_command_id (row_of a) = w_command_id (row_of b) /\ w_server_id (row_of a) = w_server_id (row_of b) /\
  w_type (row_of a) = w_type (row_of b) /\ w_created_at (row_of a) = w_created_at (row_of b) /\
  w_ttl (row_of a) = w_ttl (row_of b).
Proof. intros [= E1 E2 E3 E4 E5 E6]. cbn. by rewrite E2, E3, E4, E5, E6. Qed.
#[local] Opaque ident.

Lemma nullTime_back x : nullTime (default zeroTime (nullTime x)) = nullTime x.
Proof. unfold nullTime. destruct (x =? zeroTime) eqn:E; cbn; [done|]. by rewrite E. Qed.

Lemma nullif_back s : nullif_empty (default "" (nullif_empty s)) = nullif_empty s.
Proof. unfold nullif_empty. destruct (s =? "")%string eqn:E; cbn; [done|]. by rewrite E. Qed.

Lemma ttlNanos_back d : ttlNanos (default 0 (ttlNanos d)) = ttlNanos d.
Proof. unfold ttlNanos. destruct (d <=? 0) eqn:E; cbn; [done|]. by rewrite E. Qed.

Lemma row_of_normal id op : normal id (row_of op).
Proof.
  unfold normal, of_row, row_of. cbn. rewrite nullif_back, !nullTime_back, ttlNanos_back.
  by destruct (op_Acknowledged op).
Qed.

(** A row an update wrote over a normal one. *)
Definition updated_row (op : Operation) (r : Row) : Row :=
  let x := row_of op in
  mkRow (w_command_id r) (w_server_id r) (w_type r) (w_status x) (w_error x)
    (w_created_at r) (w_started_at x) (w_completed_at x) (w_ttl r)
    (w_progress x) (w_progress_pct x) (w_result_data x) (w_acknowledged x).

Lemma updated_row_normal id op r : normal id r -> normal id (updated_row op r).
Proof.
  unfold normal, updated_row, of_row, row_of. destruct r. cbn. intros [= E1 E2 E3 E4 E5].
  rewrite E1, E4, !nullTime_back. by destruct (op_Acknowledged op).
Qed.

Lemma updated_row_same a b : ident b = ident a -> updated_row b (row_of a) = row_of b.
Proof.
  intros I. destruct (ident_row _ _ I) as (E1 & E2 & E3 & E4 & E5). unfold updated_row.
  by rewrite <- E1, <- E2, <- E3, <- E4, <- E5.
Qed.

(** The three things [upsert] can do. *)
Lemma upsert_cases op t :
  (exists r, t !! op_ID op = Some r /\ upsert op t = Ok (<[op_ID op := updated_row op r]> t)) \/
  (t !! op_ID op = None /\ upsert op t = Ok (<[op_ID op := row_of op]> t)) \/
  (t !! op_ID op = None /\ exists msg, upsert op t = Err msg).
Proof.
  unfold upsert. destruct (t !! op_ID op) as [r|] eqn:E; [by left; eauto|]. right.
  destruct (taken _ _ _); eauto.
Qed.

(** What [persist] does to the table. *)
Lemma persist_cases w op q t :
  oq_db q = Some t ->
  exists t', oq_db (snd (persist w op q)) = Some t' /\
    (t' = t \/ exists r, t' = <[op_ID op := r]> t /\
       ((exists r0, t !! op_ID op = Some r0 /\ r = updated_row op r0) \/ (t !! op_ID op = None /\ r = row_of op))).
Proof.
  intros E. unfold persist. rewrite E. destruct (oq_dbopen q); [|exists t; by auto].
  assert (G : exists t', oq_db (snd match upsert op t with
      | Ok t0 => (match w with WTakesEffect msg => Some msg | _ => None end, q <| oq_db := Some t0 |>)
      | Err msg => (Some msg, q) end) = Some t' /\ (t' = t \/ exists r, t' = <[op_ID op := r]> t /\
       ((exists r0, t !! op_ID op = Some r0 /\ r = updated_row op r0) \/ (t !! op_ID op = None /\ r = row_of op)))).
  { destruct (upsert_cases op t) as [(r & H & ->)|[(H & ->)|(H & msg & ->)]]; eexists; (split; [done|]); eauto 10. }
  cbn [negb]. destruct w; [exact G|exists t; by auto|exact G].
Qed.

(** [persist] on an open journal that works. *)
Lemma persist_clean op q t :
  oq_db q = Some t -> oq_dbopen q = true ->
  (exists r0, t !! op_ID op = Some r0 /\
     persist WOk op q = (None, q <| oq_db := Some (<[op_ID op := updated_row op r0]> t) |>)) \/
  (t !! op_ID op = None /\ persist WOk op q = (None, q <| oq_db := Some (<[op_ID op := row_of op]> t) |>)) \/
  (t !! op_ID op = None /\ exists msg, persist WOk op q = (Some msg, q)).
Proof.
  intros E Eo. unfold persist. rewrite E, Eo. cbn [negb].
  destruct (upsert_cases op t) as [(r & H & ->)|[(H & ->)|(H & msg & ->)]]; eauto 10.
Qed.

(** The invariant of the journal: well-formed, normal and up to date. *)
Record journal_ok (q : OperationQueue) : Prop := {
  jo_queue : oq_ok q;
  jo_normal : rows_normal q;
  jo_synced : synced q
}.

Lemma persist_normal w op q : rows_normal q -> rows_normal (snd (persist w op q)).
Proof.
  intros N t id r. destruct (oq_db q) as [t0|] eqn:E.
  - destruct (persist_cases w op q t0 E) as (t' & -> & Hc). intros [= ->].
    destruct Hc as [->|(x & -> & Hx)]; [by apply N|]. rewrite lookup_insert. case_decide; [|by apply N].
    intros [= <-]. destruct Hx as [(r0 & Hr & ->)|[_ ->]]; [|apply row_of_normal].
    eapply updated_row_normal, N; [done|]. congruence.
  - destruct (persist_frame w op q) as (d & -> & Hd). intros Ht. cbn in Ht. unfold const in Ht. naive_solver.
Qed.

Lemma put_persist_journal_ok p op op' q :
  journal_ok q -> oq_objs q !! p = Some op -> ident op' = ident op ->
  journal_ok (snd (put_persist WOk p op' q)).
Proof.
  intros [O N Sy] Hp I.
  assert (U : upd (fun _ _ _ => True) q (snd (put_persist WOk p op' q))) by (by eapply put_persist_upd).
  split; [by eapply upd_ok|by apply persist_normal|].
  intros Hopen t Ht id r x G. rewrite (upd_dbopen _ _ _ U) in Hopen. unfold put_persist in *.
  set (q1 := put p op' q) in *.
  assert (Hid : op_ID op' = op_ID op) by auto.
  assert (G1 : get q1 id = Some (r, x)).
  { destruct (persist_frame WOk op' q1) as (d & E & _). rewrite E in G. exact G. }
  apply get_Some in G1 as [Hops Hx]. change (oq_operations q !! id = Some r) in Hops.
  change (<[p := op']> (oq_objs q) !! r = Some x) in Hx.
  destruct (oq_db q) as [t0|] eqn:Edb.
  2: { pose proof (persist_frame WOk op' q1) as (d & E & Hd). rewrite E in Ht. cbn in Ht. unfold const in Ht.
       destruct Hd as [_ Hd]. by rewrite (Hd Edb) in Ht. }
  rewrite lookup_insert in Hx. case_decide as Er.
  - injection Hx as <-. subst r.
    assert (id = op_ID op) as -> by (symmetry; eapply get_registered; [done|by apply get_intro]).
    pose proof (Sy Hopen t0 Edb _ _ _ (get_intro q _ p op Hops Hp)) as Hrow.
    destruct (persist_clean op' q1 t0 Edb Hopen) as [(r0 & Hr0 & E)|[(Hn & E)|(Hn & msg & E)]];
      rewrite Hid in *; try congruence.
    rewrite E in Ht. cbn in Ht. unfold const in Ht. injection Ht as <-.
    rewrite lookup_insert_eq. assert (r0 = row_of op) as -> by congruence. by rewrite updated_row_same.
  - assert (Gx : get q id = Some (r, x)) by by apply get_intro.
    assert (Hne : op_ID op' <> id).
    { rewrite Hid. intros E. apply Er. eapply (ok_distinct q O p r op x); [done|done|].
      by rewrite (get_registered q id r x). }
    pose proof (Sy Hopen t0 Edb _ _ _ Gx) as Hrow.
    destruct (persist_cases WOk op' q1 t0 Edb) as (t' & Et & Hc). rewrite Ht in Et. injection Et as <-.
    destruct Hc as [->|(y & -> & _)]; [done|]. by rewrite lookup_insert_ne.
Qed.

Lemma sweep_journal_ok f q :
  (forall op op', f op = Some op' -> ident op' = ident op) -> journal_ok q ->
  journal_ok (snd (sweep (fun _ => WOk) f q)).
Proof.
  intros Hf Jq. unfold sweep.
  assert (G : forall l acc, journal_ok (snd acc) -> journal_ok (snd (foldl (sweep_one (fun _ => WOk) f) acc l))).
  { induction l as [|e l IH]; intros acc Ha; cbn [foldl]; [done|]. apply IH. unfold sweep_one.
    destruct (oq_objs (snd acc) !! snd e) as [op|] eqn:E; [|done]. destruct (f op) as [op'|] eqn:Ef; [|done].
    eapply put_persist_journal_ok; [done|done|by apply Hf]. }
  by apply (G _ (0, q)).
Qed.

Lemma sweep_ext w w' f q : (forall id, w id = w' id) -> sweep w f q = sweep w' f q.
Proof.
  intros E. unfold sweep. generalize (0, q). induction (map_to_list _) as [|e l IH]; intros acc; [done|].
  cbn [foldl]. rewrite IH. f_equal. unfold sweep_one. repeat case_match; rewrite ?E; done.
Qed.

Lemma journal_ok_meta q q' :
  oq_objs q' = oq_objs q -> oq_operations q' = oq_operations q -> oq_serverOps q' = oq_serverOps q ->
  oq_nextID q' = oq_nextID q -> oq_db q' = oq_db q -> (oq_dbopen q' = true -> oq_dbopen q = true) ->
  journal_ok q -> journal_ok q'.
Proof.
  intros E1 E2 E3 E4 E5 E6 [O N Sy].
  assert (G : forall id, get q' id = get q id) by (intros id; unfold get; by rewrite E1, E2).
  split.
  - destruct O. split; rewrite ?E1, ?E2, ?E3, ?E4, ?E5; try done.
    + intros id1 id2 p1 p2 o1 o2. rewrite !G. apply ok_commands0.
    + intros s id. rewrite G. apply ok_servers0.
  - intros t id r. rewrite E5. apply N.
  - intros Ho t Ht id p op. rewrite G. rewrite E5 in Ht. by apply Sy; auto.
Qed.

Lemma call_journal_ok q q' : call_step clean q q' -> journal_ok q -> journal_ok q'.
Proof.
  destruct 1; intros Jq; try match goal with H : clean _ |- _ => rewrite H end.
  - unfold SetProgress. destruct (get q id) as [[p op]|] eqn:G; [|done]. apply get_Some in G as [_ G].
    by eapply put_persist_journal_ok.
  - unfold SetError. destruct (get q id) as [[p op]|] eqn:G; [|done]. apply get_Some in G as [_ G].
    by eapply put_persist_journal_ok.
  - unfold AckCommand. destruct (get q id) as [[p op]|] eqn:G; [|done]. apply get_Some in G as [_ G].
    destruct (_ && _)%bool; [done|]. by eapply put_persist_journal_ok.
  - unfold SetResult. destruct (get q id) as [[p op]|] eqn:G; [|done]. apply get_Some in G as [_ G].
    by eapply put_persist_journal_ok.
  - unfold ExpireExpired. rewrite (sweep_ext w (fun _ => WOk)) by done. apply sweep_journal_ok; [|done].
    intros op op'. case_match; [|done]. by intros [= <-].
  - unfold shutdown_close. destruct (oq_closed q); [done|].
    assert (J1 : journal_ok (q <| oq_closed := true |>)) by (by apply (journal_ok_meta q)).
    case_match; [done|]. apply sweep_journal_ok; [|done]. intros op op'. case_match; [|done]. by intros [= <-].
Qed.

Lemma begin_journal_ok now p q : journal_ok q -> journal_ok (snd (begin_op WOk now p q)).
Proof.
  intros Jq. unfold begin_op. destruct (oq_objs q !! p) as [op|] eqn:G; [|done].
  destruct (negb _); [done|]. destruct (is_expired now op); by eapply put_persist_journal_ok.
Qed.

Lemma finish_journal_ok ctxErr opErr now p q :
  journal_ok q -> journal_ok (finish_op WOk ctxErr opErr now p q).
Proof.
  intros Jq. unfold finish_op. destruct (oq_objs q !! p) as [op|] eqn:G; [|done].
  eapply put_persist_journal_ok; [done|done|]. unfold verdict. by repeat case_match.
Qed.

Lemma settle_journal_ok w now q :
  (forall id, clean (w id)) -> journal_ok q -> journal_ok (shutdown_settle w now q).
Proof.
  intros Hw Jq. unfold shutdown_settle. rewrite (sweep_ext w (fun _ => WOk)) by done.
  apply sweep_journal_ok; [|done]. intros op op'. case_match; [|done]. intros [= <-]. by case_match.
Qed.

Lemma register_journal_ok c s typ ttl uuid now q r q' :
  journal_ok q -> (forall p op, oq_objs q !! p = Some op -> op_ID op <> uuid) ->
  (forall t, oq_db q = Some t -> t !! uuid = None) -> min64 <= oq_nextID q < max64 ->
  enqueue_register WOk c s typ ttl uuid now q = (r, q') -> journal_ok q'.
Proof.
  intros [O N Sy] Hu Ht Hn E.
  destruct (enqueue_register_spec _ _ _ _ _ _ _ _ _ _ O Hu Hn E) as (O' & _ & P).
  pose proof (register_registers _ _ _ _ _ _ _ _ _ _ O Hu Hn E) as HR.
  split; [done|..]; clear P O'; revert E HR; unfold enqueue_register;
    (destruct (oq_closed q); [by intros [= <- <-]|]);
    (destruct (if (c =? "")%string then None else find_command c q) as [e|];
       [by destruct (negb _); intros [= <- <-]|]); cbv zeta;
    match goal with |- context [persist WOk ?o ?x] => set (op := o) end;
    match goal with |- context [persist WOk _ ?x] => set (q1 := x) end.
  - pose proof (persist_normal WOk op q1 N) as N1. destruct (persist WOk op q1) as [[err|] q2];
      intros [= <- <-] _; exact N1.
  - destruct (oq_db q) as [t0|] eqn:Edb.
    2: { destruct (persist_frame WOk op q1) as (d & E & Hd). change (oq_db q1) with (oq_db q) in Hd.
         assert (d = None) as -> by (by apply Hd).
         destruct (persist WOk op q1) as [[err|] q2]; cbn [snd] in E; subst q2; intros [= <- <-] _ _ t; done. }
    destruct (oq_dbopen q) eqn:Eo.
    2: { destruct (persist_frame WOk op q1) as (d & E & _).
         destruct (persist WOk op q1) as [[err|] q2]; cbn [snd] in E; subst q2; intros [= <- <-] _ Ho;
         change (oq_dbopen q = true) in Ho; congruence. }
    assert (Hidop : op_ID op = uuid) by (unfold op; cbn; unfold const; by rewrite Edb).
    pose proof (Ht t0 eq_refl) as Hnone.
    destruct (persist_clean op q1 t0 Edb Eo) as [(r0 & Hr0 & ->)|[(_ & ->)|(_ & msg & ->)]];
      [rewrite Hidop in Hr0; congruence|..]; intros [= <- <-] HR Ho t Et id p x G.
    + destruct HR as (_ & _ & _ & _ & _ & _ & _ & _ & HG). rewrite HG in G.
      cbn in Et. unfold const in Et. injection Et as <-. rewrite lookup_insert.
      case_decide as E1.
      * injection G as <- <-. by rewrite decide_True by done.
      * rewrite decide_False by done. by apply (Sy Eo t0 Edb id p x).
    + cbn [registers] in HR. rewrite HR in G. cbn in Et. unfold const in Et.
      assert (t = t0) as -> by congruence. by apply (Sy Eo t0 Edb id p x).
Qed.

Lemma remove_journal_ok p q : journal_ok q -> journal_ok (removeUnqueued WOk p q).
Proof.
  intros [O N Sy]. destruct (removeUnqueued_spec WOk p q O) as [O' R]. split; [done|..]; clear O'; revert R.
  - intros _ t id r. unfold removeUnqueued. destruct (oq_objs q !! p) as [op|]; [|apply N].
    destruct (_ || _)%bool; [apply N|]. cbv zeta.
    match goal with |- context [match oq_db ?x with _ => _ end] => change (oq_db x) with (oq_db q);
      change (oq_dbopen x) with (oq_dbopen q) end.
    destruct (oq_db q) as [t0|] eqn:Edb; [|intros Et; cbn in Et; unfold const in Et; congruence].
    destruct (oq_dbopen q); [|intros Et; cbn in Et; unfold const in Et; by apply N].
    cbn. unfold const. intros [= <-]. unfold delete_pending.
    repeat case_match; try (by apply N). intros [_ ?]%lookup_delete_Some. by eapply N.
  - intros []. intros Ho t Et id r x G.
    destruct (rm_get0 id) as [E|[E _]]; [|congruence]. rewrite E in G.
    assert (Hne : forall op, oq_objs q !! p = Some op -> oq_operations q !! op_ID op = Some p ->
      op_Status op = StatusPending -> op_ID op <> id).
    { intros op Hp Hops Hst Eid. apply (rm_gone0 id op); [|done]. rewrite E. apply get_intro; [|done]. by subst. }
    revert Ho Et. clear E rm_get0 rm_gone0 rm_objs0 rm_ch0 rm_started0 rm_nextID0 rm_journaled0.
    unfold removeUnqueued. destruct (oq_objs q !! p) as [op|] eqn:Hp; [|intros Ho Et; by apply (Sy Ho t Et id r x)].
    destruct (_ || _)%bool eqn:Eb; [intros Ho Et; by apply (Sy Ho t Et id r x)|].
    apply orb_false_elim in Eb as [E1 E2]. zb. apply bool_decide_eq_true in E1. seqb.
    specialize (Hne op eq_refl E1 E2). cbv zeta.
    match goal with |- context [match oq_db ?x with _ => _ end] => change (oq_db x) with (oq_db q);
      change (oq_dbopen x) with (oq_dbopen q) end.
    destruct (oq_db q) as [t0|] eqn:Edb; [|intros _ Et; cbn in Et; unfold const in Et; congruence].
    destruct (oq_dbopen q) eqn:Eo; [|intros Ho; cbn in Ho; congruence].
    intros _. cbn. unfold const. intros [= <-]. unfold delete_pending.
    pose proof (Sy Eo t0 Edb id r x G) as Hrow.
    repeat case_match; try done. by rewrite lookup_delete_ne.
Qed.

(** Which operations [loadJournal] writes back: those that were running. *)
Definition resumed (L : list (string * Row)) (acc : list ptr * OperationQueue) : Prop :=
  (forall p, p ∈ fst acc -> exists id op, get (snd acc) id = Some (p, op)) /\
  (forall id p op, get (snd acc) id = Some (p, op) -> exists r, (id, r) ∈ L /\ op = loaded_op id r /\
     (was_running (of_row id r) = true -> p ∈ fst acc)).

Lemma load_rows_resumed L l acc :
  oq_ok (snd acc) -> only_registered (snd acc) -> oq_db (snd acc) <> None ->
  NoDup (map fst l) -> (forall id r, (id, r) ∈ l -> get (snd acc) id = None) ->
  commands_distinct L -> (forall e, e ∈ l -> e ∈ L) -> resumed L acc ->
  resumed L (foldl load_row acc l).
Proof.
  revert acc. induction l as [|[id r] l IH]; intros acc O R Hdb Hnd Hnew Hcd Hsub Hres; cbn [foldl]; [done|].
  cbn in Hnd. apply NoDup_cons in Hnd as [Hid Hnd].
  destruct Hres as [H1 H2].
  destruct (load_row_spec acc id r) as [[O1 R1 _ (_ & _ & E3 & _)] G1]; [done..|by eapply Hnew; left| |].
  { intros id' p x Hx Hne E. destruct (H2 _ _ _ Hx) as (r' & Hin & -> & _).
    rewrite loaded_op_Command in E. destruct (w_command_id r) as [c|] eqn:Ec; cbn in *; [|done].
    destruct (w_command_id r') as [c'|] eqn:Ec'; cbn in *; subst; [|done].
    assert (id' = id) as ->.
    { eapply (Hcd id' id r' r c); [done|apply Hsub; by left|done..]. }
    pose proof (Hnew id r ltac:(left)). congruence. }
  assert (Hfst : fst (load_row acc (id, r)) =
    if was_running (of_row id r) then fst acc ++ [fresh (dom (oq_objs (snd acc)))] else fst acc) by done.
  remember (load_row acc (id, r)) as acc1 eqn:Eacc. clear Eacc.
  assert (Hn : get (snd acc) id = None) by (eapply Hnew; by left).
  apply IH; [done|done|congruence|done| |done| |].
  - intros id' r' Hin. rewrite G1. case_decide as Ei; [|eapply Hnew; by right]. subst id'. exfalso. apply Hid.
    apply list_elem_of_fmap. by exists (id, r').
  - intros e He. apply Hsub. by right.
  - split.
    + intros p. rewrite Hfst. destruct (was_running (of_row id r)).
      * rewrite elem_of_app, list_elem_of_singleton. intros [Hp|Hp]; [|subst p].
        -- destruct (H1 p Hp) as (id' & op & G). exists id', op. rewrite G1.
           rewrite decide_False; [done|]. intros ->. congruence.
        -- exists id, (loaded_op id r). rewrite G1. by rewrite decide_True.
      * intros Hp. destruct (H1 p Hp) as (id' & op & G). exists id', op. rewrite G1.
        rewrite decide_False; [done|]. intros ->. congruence.
    + intros id' p op. rewrite G1. case_decide as Ei.
      * intros [= <- <-]. subst id'. exists r. split; [apply Hsub; by left|]. split; [done|].
        intros Hw. rewrite Hfst, Hw. apply elem_of_app. right. by apply list_elem_of_singleton.
      * intros G. destruct (H2 _ _ _ G) as (r' & ? & ? & Hw). exists r'. split_and!; [done..|].
        intros Hr. rewrite Hfst. specialize (Hw Hr). case_match; [|done]. apply elem_of_app. by left.
Qed.

Lemma persist_all_clean ps q t :
  oq_ok q -> oq_db q = Some t -> oq_dbopen q = true ->
  (forall p, p ∈ ps -> exists id op, get q id = Some (p, op)) ->
  (forall id p op, get q id = Some (p, op) -> exists a, ident op = ident a /\
     t !! id = Some (row_of a) /\ (a = op \/ p ∈ ps)) ->
  exists t', persist_all (fun _ => WOk) ps q = (None, q <| oq_db := Some t' |>) /\
    forall id p op, get q id = Some (p, op) -> t' !! id = Some (row_of op).
Proof.
  revert q t. induction ps as [|p ps IH]; intros q t O Edb Eo Hps Hrow; cbn [persist_all].
  { exists t. split; [by destruct q; cbn in *; subst|]. intros id p op G.
    destruct (Hrow _ _ _ G) as (a & _ & ? & Ha). destruct Ha as [->|Ha]; [done|]. by apply elem_of_nil in Ha. }
  destruct (Hps p ltac:(left)) as (id & op & G). pose proof G as [Hops Hp]%get_Some. rewrite Hp.
  assert (Hid : op_ID op = id) by by eapply get_registered.
  destruct (Hrow _ _ _ G) as (a & I & Ha & _).
  destruct (persist_clean op q t Edb Eo) as [(r0 & Hr0 & ->)|[(Hn & _)|(Hn & _)]];
    rewrite Hid in *; try congruence.
  assert (r0 = row_of a) as -> by congruence. rewrite (updated_row_same a op I).
  destruct (IH (q <| oq_db := Some (<[id := row_of op]> t) |>) (<[id := row_of op]> t)) as (t' & E & Ht').
  - apply (upd_ok (fun _ _ _ => True) q); [|done]. split; try done; [|by eauto].
    apply journaled_same. cbn. unfold const. rewrite Edb. done.
  - done.
  - done.
  - intros r Hr. destruct (Hps r ltac:(by right)) as (i & o & Go). by exists i, o.
  - intros i r o Go. change (get q i = Some (r, o)) in Go. rewrite lookup_insert. case_decide as Ei.
    + subst i. assert (o = op) as -> by congruence. exists op. by auto.
    + destruct (Hrow _ _ _ Go) as (b & ? & ? & Hb). exists b. split_and!; [done..|].
      destruct Hb as [Hb|Hb]; [by left|]. apply elem_of_cons in Hb as [Hb|Hb]; [|by right].
      exfalso. apply Ei. subst r.
      pose proof (get_registered q i p o O Go). apply get_Some in Go as [_ Go]. congruence.
  - exists t'. rewrite E. split; [by destruct q|]. intros i r o Go. by eapply Ht'.
Qed.

(** Opening a journal of normal rows succeeds and leaves it up to date. *)
Lemma open_journal_clean c t :
  commands_unique t -> (forall id r, t !! id = Some r -> normal id r) ->
  exists q, NewPersistentOperationQueue c t (fun _ => WOk) = Ok q /\ opened t q /\ journal_ok q.
Proof.
  intros U N. pose proof (load_all_spec c t U) as [O R G (F1 & F2 & F3 & F4 & F5 & F6 & F7)].
  assert (Res : resumed (isort older (map_to_list t))
    (foldl load_row ([], newOperationQueue c (Some t)) (isort older (map_to_list t)))).
  { destruct (newOperationQueue_ok c (Some t)) as (O0 & R0 & G0).
    apply load_rows_resumed; cbn [snd fst]; try done.
    - apply isort_NoDup, NoDup_fst_map_to_list.
    - intros id1 id2 r1 r2 c0. rewrite !isort_perm, !elem_of_map_to_list. intros ?? _. by eapply U.
    - split; [by intros p ?%elem_of_nil|]. intros id p op. by rewrite G0. }
  unfold NewPersistentOperationQueue, loadJournal.
  change (oq_db (newOperationQueue c (Some t))) with (Some t) in *. cbv beta iota zeta.
  set (q1 := foldl load_row _ _) in *. destruct Res as [H1 H2].
  destruct (persist_all_clean (fst q1) (snd q1) t O F3 F5 H1) as (t' & E & Ht').
  { intros id p op Gp. destruct (H2 _ _ _ Gp) as (r & Hin & -> & Hw).
    rewrite isort_perm, elem_of_map_to_list in Hin. exists (of_row id r). split_and!.
    - unfold loaded_op, reset_running. by case_match.
    - rewrite Hin. f_equal. symmetry. by eapply N.
    - unfold loaded_op, reset_running. destruct (was_running (of_row id r)); [by right; apply Hw|by left]. }
  rewrite E. eexists. split; [done|].
  assert (Op : NewPersistentOperationQueue c t (fun _ => WOk) = Ok ((snd q1) <| oq_db := Some t' |>)).
  { unfold NewPersistentOperationQueue, loadJournal.
    change (oq_db (newOperationQueue c (Some t))) with (Some t). cbv beta iota zeta. fold q1. by rewrite E. }
  destruct (open_journal_spec c t (fun _ => WOk) _ U Op) as [Hop D]. split; [done|].
  split; [apply Hop| |].
  - assert (N1 : rows_normal (snd q1)).
    { intros t0 id r. rewrite F3. intros [= <-]. apply N. }
    clear - E N1. revert E N1. generalize (snd q1) (fst q1). intros q ps.
    generalize (q <| oq_db := Some t' |>). intros q' E N1.
    assert (Hgen : forall w ps q err q', persist_all w ps q = (err, q') -> rows_normal q -> rows_normal q').
    { clear. intros w ps. revert w. induction ps as [|p ps IH]; intros w q err q'; cbn [persist_all].
      { by intros [= <- <-]. }
      destruct (oq_objs q !! p) as [op|]; [|apply IH]. intros E N.
      pose proof (persist_normal (w O) op q N) as N1.
      destruct (persist (w O) op q) as [[e|] q1]; [by injection E as <- <-|]. by eapply IH. }
    by eapply Hgen.
  - intros _ t0 Et id p op Gp. cbn in Et. unfold const in Et. injection Et as <-. by eapply Ht'.
Qed.

(** ** Verdicts are final *)

Section Final.
(** The operations that got their verdict. *)
Context (H : string -> Prop).

Definition objs_final (q : OperationQueue) : Prop :=
  forall p op, oq_objs q !! p = Some op -> H (op_ID op) -> terminal (op_Status op).

Definition rows_final (q : OperationQueue) : Prop :=
  forall t id r, oq_db q = Some t -> t !! id = Some r -> H id -> terminal (w_status r).

Lemma persist_rows_final w op q :
  rows_final q -> (H (op_ID op) -> terminal (op_Status op)) -> rows_final (snd (persist w op q)).
Proof.
  intros R Ht t id r. destruct (oq_db q) as [t0|] eqn:E.
  - destruct (persist_cases w op q t0 E) as (t' & -> & Hc). intros [= ->].
    destruct Hc as [->|(x & -> & Hx)]; [by apply R|]. rewrite lookup_insert. case_decide; [|by apply R].
    subst id. intros [= <-] Hh. specialize (Ht Hh). by destruct Hx as [(r0 & _ & ->)|[_ ->]].
  - destruct (persist_frame w op q) as (d & -> & [_ Hd]). intros Hdb. cbn in Hdb. unfold const in Hdb.
    rewrite (Hd E) in Hdb. done.
Qed.

Lemma put_persist_final w p op op' q :
  objs_final q -> rows_final q -> oq_objs q !! p = Some op -> ident op' = ident op ->
  (H (op_ID op) -> terminal (op_Status op')) ->
  objs_final (snd (put_persist w p op' q)) /\ rows_final (snd (put_persist w p op' q)).
Proof.
  intros O R Hp I Ht. assert (Hid : op_ID op' = op_ID op) by auto. split.
  - unfold put_persist. destruct (persist_frame w op' (put p op' q)) as (d & -> & _).
    intros r x. change (<[p := op']> (oq_objs q) !! r = Some x -> H (op_ID x) -> terminal (op_Status x)).
    rewrite lookup_insert. case_decide; [|apply O]. intros [= <-]. by rewrite Hid.
  - apply persist_rows_final; [exact R|]. by rewrite Hid.
Qed.

Lemma sweep_final w f q :
  (forall op op', f op = Some op' -> ident op' = ident op /\ ~ terminal (op_Status op)) ->
  objs_final q -> rows_final q -> objs_final (snd (sweep w f q)) /\ rows_final (snd (sweep w f q)).
Proof.
  intros Hf O R. unfold sweep.
  assert (G : forall l acc, objs_final (snd acc) /\ rows_final (snd acc) ->
    objs_final (snd (foldl (sweep_one w f) acc l)) /\ rows_final (snd (foldl (sweep_one w f) acc l))).
  { induction l as [|e l IH]; intros acc Ha; cbn [foldl]; [done|]. apply IH. unfold sweep_one.
    destruct (oq_objs (snd acc) !! snd e) as [op|] eqn:E; [|done]. destruct (f op) as [op'|] eqn:Ef; [|done].
    destruct (Hf _ _ Ef), Ha. eapply put_persist_final; [done..|]. intros Hh.
    match goal with X : ~ terminal _ |- _ => destruct X end. eauto. }
  by apply (G _ (0, q)).
Qed.

Lemma call_final allowed q q' :
  call_step allowed q q' -> objs_final q -> rows_final q -> objs_final q' /\ rows_final q'.
Proof.
  destruct 1; intros O R.
  - unfold SetProgress. destruct (get q id) as [[p op]|] eqn:G; [|done]. apply get_Some in G as [_ G].
    eapply put_persist_final; try done. by apply O with p.
  - unfold SetError. destruct (get q id) as [[p op]|] eqn:G; [|done]. apply get_Some in G as [_ G].
    eapply put_persist_final; try done.
  - unfold AckCommand. destruct (get q id) as [[p op]|] eqn:G; [|done]. apply get_Some in G as [_ G].
    destruct (_ && _)%bool; [done|]. eapply put_persist_final; try done. by apply O with p.
  - unfold SetResult. destruct (get q id) as [[p op]|] eqn:G; [|done]. apply get_Some in G as [_ G].
    eapply put_persist_final; try done. by apply O with p.
  - apply sweep_final; [|done..]. intros op op'. destruct (_ && _)%bool eqn:E; [|done].
    zb. intros [= <-]. split; [done|]. seqb. intros [? _]. done.
  - unfold shutdown_close. destruct (oq_closed q); [done|].
    destruct (journaled _); [done|]. apply sweep_final; [|done..]. intros op op'. case_match eqn:E; [|done].
    intros [= <-]. split; [done|]. seqb. intros [? _]. done.
Qed.

Lemma settle_final w now q :
  objs_final q -> rows_final q -> objs_final (shutdown_settle w now q) /\ rows_final (shutdown_settle w now q).
Proof.
  intros O R. apply sweep_final; [|done..]. intros op op'. destruct (_ || _)%bool eqn:E; [|done].
  intros [= <-]. split; [by destruct (journaled q)|]. intros [? ?].
  apply orb_true_iff in E as [E|E]; by apply String.eqb_eq in E.
Qed.

Lemma begin_final w now p q :
  objs_final q -> rows_final q ->
  objs_final (snd (begin_op w now p q)) /\ rows_final (snd (begin_op w now p q)).
Proof.
  intros O R. unfold begin_op. destruct (oq_objs q !! p) as [op|] eqn:G; [|done].
  destruct (op_Status op =? StatusPending)%string eqn:E; cbn [negb]; [|done]. seqb.
  assert (Hn : ~ H (op_ID op)) by (intros Hh; destruct (O p op G Hh); done).
  destruct (is_expired now op); eapply put_persist_final; try done; by intros ?%Hn.
Qed.

Lemma persist_all_final w ps q err q' :
  persist_all w ps q = (err, q') -> objs_final q -> rows_final q -> rows_final q'.
Proof.
  revert w q. induction ps as [|p ps IH]; intros w q; cbn [persist_all]; [by intros [= <- <-]|].
  destruct (oq_objs q !! p) as [op|] eqn:G; [|apply IH]. intros E Ob R.
  pose proof (persist_rows_final (w 0%nat) op q R (Ob p op G)) as R1.
  destruct (persist_frame (w 0%nat) op q) as (d & Ed & _).
  destruct (persist (w 0%nat) op q) as [[e|] q1]; cbn [snd] in *; [by injection E as <- <-|].
  subst q1. by eapply IH.
Qed.
End Final.

Definition was_done (W : World) (id : string) : Prop := EvDone id ∈ w_hist W.

(** The invariant of a journaled process whose statements succeed. *)
Record clean_ok (W : World) : Prop := {
  co_world : world_ok W;
  co_journal : journal_ok (w_queue W);
  co_db : oq_db (w_queue W) <> None;
  co_open : oq_dbopen (w_queue W) = false ->
    oq_closed (w_queue W) = true /\ (oq_started (w_queue W) = true -> w_cancelled W <> None);
  co_objs : objs_final (was_done W) (w_queue W);
  co_rows : rows_final (was_done W) (w_queue W);
  co_running : forall p op, p ∈ running (w_workers W) -> oq_objs (w_queue W) !! p = Some op ->
    ~ was_done W (op_ID op)
}.

Lemma journaled_db q q' : journaled q' = journaled q -> oq_db q <> None -> oq_db q' <> None.
Proof. unfold journaled. by destruct (oq_db q), (oq_db q'). Qed.

(** Steps that update operations in place. *)
Lemma clean_update W q' T :
  clean_ok W -> world_ok (W <| w_queue := q' |>) -> upd T (w_queue W) q' -> journal_ok q' ->
  objs_final (was_done W) q' -> rows_final (was_done W) q' -> clean_ok (W <| w_queue := q' |>).
Proof.
  intros [] WO U Jq Ob R. split; try done.
  - by eapply journaled_db; [apply U|].
  - cbn. unfold const. rewrite (upd_dbopen _ _ _ U), (upd_started _ _ _ U). intros Ho.
    destruct (co_open0 Ho). split; [|done]. by apply (upd_closed _ _ _ U).
  - intros p op' Hin (op & Hp & I & _)%(upd_back _ _ _ _ _ U). rewrite (ident_ID _ _ I).
    by apply (co_running0 p op).
Qed.

(** Steps that keep the objects and the rows. *)
Lemma clean_moves W W' :
  clean_ok W -> world_ok W' ->
  oq_objs (w_queue W') = oq_objs (w_queue W) -> oq_operations (w_queue W') = oq_operations (w_queue W) ->
  oq_serverOps (w_queue W') = oq_serverOps (w_queue W) -> oq_nextID (w_queue W') = oq_nextID (w_queue W) ->
  oq_db (w_queue W') = oq_db (w_queue W) -> oq_dbopen (w_queue W') = oq_dbopen (w_queue W) ->
  oq_closed (w_queue W') = oq_closed (w_queue W) ->
  (oq_closed (w_queue W) = true -> oq_started (w_queue W') = oq_started (w_queue W)) ->
  (w_cancelled W <> None -> w_cancelled W' <> None) -> w_hist W' = w_hist W ->
  (forall p, p ∈ running (w_workers W') -> p ∈ running (w_workers W)) -> clean_ok W'.
Proof.
  intros [] WO E1 E2 E3 E4 E5 E6 E7 E8 E9 E10 E11. split; try done.
  - eapply journal_ok_meta; try done. by rewrite E6.
  - by rewrite E5.
  - rewrite E6, E7. intros Ho. destruct (co_open0 Ho) as [Hcl Hc]. rewrite (E8 Hcl). auto.
  - intros p op. unfold was_done. rewrite E1, E10. apply co_objs0.
  - intros t id r. unfold was_done. rewrite E5, E10. apply co_rows0.
  - intros p op Hin. unfold was_done. rewrite E1, E10. by apply co_running0, E11.
Qed.

Lemma register_final H w c s typ ttl uuid now q r q' :
  oq_db q <> None -> ~ H uuid -> objs_final H q -> rows_final H q ->
  enqueue_register w c s typ ttl uuid now q = (r, q') ->
  objs_final H q' /\ rows_final H q' /\ oq_dbopen q' = oq_dbopen q /\ oq_closed q' = oq_closed q /\
  (forall p op, oq_objs q' !! p = Some op -> oq_objs q !! p = Some op \/ op_ID op = uuid).
Proof.
  intros Hdb Hu Ob R. unfold enqueue_register. destruct (oq_closed q) eqn:Ecl; [intros [= <- <-]; split_and!; auto|].
  destruct (if (c =? "")%string then None else find_command c q) as [e|];
    [destruct (negb _); intros [= <- <-]; split_and!; auto|]. cbv zeta.
  match goal with |- context [persist w ?o ?x] => set (op := o) end.
  match goal with |- context [persist w _ ?x] => set (q1 := x) end.
  assert (Hid : op_ID op = uuid).
  { unfold op. cbn. unfold const. by destruct (oq_db q). }
  set (p := fresh (dom (oq_objs (q <| oq_nextID := oq_nextID q +i 1 |>)))) in *.
  assert (R1 : rows_final H (snd (persist w op q1))).
  { apply persist_rows_final; [exact R|]. by rewrite Hid. }
  destruct (persist_frame w op q1) as (d & Ed & _).
  assert (Hobj : forall q2, oq_objs q2 = <[p := op]> (oq_objs q) ->
    objs_final H q2 /\ forall p0 x, oq_objs q2 !! p0 = Some x -> oq_objs q !! p0 = Some x \/ op_ID x = uuid).
  { intros q2 E2. split; intros p0 x; rewrite E2; intros [[<- <-]|[_ Hx]]%lookup_insert_Some; auto.
    - by rewrite Hid.
    - by apply (Ob p0). }
  destruct (persist w op q1) as [[err|] q2]; cbn [snd] in *; subst q2; intros [= <- <-];
    (split; [by apply Hobj|split; [exact R1|split; [done|split; [exact Ecl|by apply Hobj]]]]).
Qed.

Lemma remove_final H p q :
  oq_ok q -> objs_final H q -> rows_final H q ->
  objs_final H (removeUnqueued WOk p q) /\ rows_final H (removeUnqueued WOk p q) /\
  oq_dbopen (removeUnqueued WOk p q) = oq_dbopen q /\ oq_closed (removeUnqueued WOk p q) = oq_closed q.
Proof.
  intros O Ob R. destruct (removeUnqueued_spec WOk p q O) as [_ Rm].
  split; [intros r x; rewrite (rm_objs _ _ _ Rm); apply Ob|]. clear Rm.
  unfold removeUnqueued. destruct (oq_objs q !! p) as [op|]; [|done].
  destruct (_ || _)%bool; [done|]. cbv zeta.
  match goal with |- context [match oq_db ?x with _ => _ end] => change (oq_db x) with (oq_db q);
    change (oq_dbopen x) with (oq_dbopen q) end.
  destruct (oq_db q) as [t0|] eqn:Edb.
  2: { split; [|done]. intros t id r Et. cbn in Et. unfold const in Et. congruence. }
  destruct (oq_dbopen q) eqn:Eo.
  - split; [|done]. intros t id r Et. cbn in Et. unfold const in Et. injection Et as <-.
    unfold delete_pending. repeat case_match; try (by apply R). intros [_ ?]%lookup_delete_Some. by eapply R.
  - split; [|done]. intros t id r Et. cbn in Et. unfold const in Et. by apply R.
Qed.

Lemma clean_begin w now p q' l1 l2 W :
  clean w -> clean_ok W -> w_workers W = l1 ++ WGot p :: l2 ->
  begin_op w now p (w_queue W) = (true, q') ->
  clean_ok (W <| w_queue := q' |> <| w_workers := l1 ++ WRunning p :: l2 |>
              <| w_hist := EvStart (id_of (w_queue W) p) (is_live W) :: w_hist W |>).
Proof.
  intros -> C Ew E. destruct (begin_op_true _ _ _ _ _ E) as (op & Hp & Hst & _ & U).
  pose proof (step_begin_ok WOk now p q' l1 l2 W (co_world W C) Ew E) as WO.
  pose proof (begin_journal_ok now p (w_queue W) (co_journal W C)) as Jq.
  pose proof (begin_final (was_done W) WOk now p (w_queue W) (co_objs W C) (co_rows W C)) as [Ob R].
  rewrite E in Jq, Ob, R. cbn [snd] in *.
  assert (Hd : forall id, was_done (W <| w_queue := q' |> <| w_workers := l1 ++ WRunning p :: l2 |>
              <| w_hist := EvStart (id_of (w_queue W) p) (is_live W) :: w_hist W |>) id <-> was_done W id).
  { intros id. unfold was_done. cbn. unfold const. rewrite elem_of_cons. naive_solver. }
  destruct C. split; try done.
  - by eapply journaled_db; [apply U|].
  - cbn. unfold const. rewrite (upd_dbopen _ _ _ U), (upd_started _ _ _ U). intros Ho.
    destruct (co_open0 Ho). split; [|done]. by apply (upd_closed _ _ _ U).
  - intros r x Hx Hh%Hd. by apply (Ob r).
  - intros t id r Et Hr Hh%Hd. by apply (R t id r).
  - intros r x' Hin (x & Hx & I & _)%(upd_back _ _ _ _ _ U). rewrite Hd, (ident_ID _ _ I).
    cbn in Hin. unfold const in Hin. rewrite running_set, !elem_of_app in Hin. cbn in Hin.
    destruct (decide (r = p)) as [->|Hr].
    + intros Hh. assert (x = op) as -> by congruence. by destruct (co_objs0 p op Hp Hh).
    + apply (co_running0 r x); [|done]. rewrite Ew, running_set, !elem_of_app. cbn.
      rewrite list_elem_of_singleton in Hin. tauto.
Qed.

Lemma put_persist_row p op q t :
  oq_db q = Some t -> oq_dbopen q = true ->
  forall t' r, oq_db (snd (put_persist WOk p op q)) = Some t' -> t' !! op_ID op = Some r ->
  w_status r = op_Status op.
Proof.
  intros Et Eo t' r. unfold put_persist.
  destruct (persist_clean op (put p op q) t Et Eo) as [(r0 & Hr0 & ->)|[(Hn & ->)|(Hn & msg & ->)]];
    cbn; unfold const.
  - intros [= <-]. rewrite lookup_insert_eq. by intros [= <-].
  - intros [= <-]. rewrite lookup_insert_eq. by intros [= <-].
  - rewrite Et. intros [= <-]. congruence.
Qed.

Lemma clean_finish w opErr now p l1 l2 W :
  clean w -> clean_ok W -> w_workers W = l1 ++ WRunning p :: l2 ->
  clean_ok (W <| w_queue := finish_op w (w_cancelled W) opErr now p (w_queue W) |>
              <| w_workers := l1 ++ WIdle :: l2 |>
              <| w_hist := if is_live W then EvDone (id_of (w_queue W) p) :: w_hist W else w_hist W |>).
Proof.
  intros -> C Ew. pose proof (step_finish_ok WOk opErr now p l1 l2 W (co_world W C) Ew) as WO.
  assert (Hin : p ∈ running (w_workers W)).
  { rewrite Ew, running_set, !elem_of_app. cbn. right; left. by apply list_elem_of_singleton. }
  destruct (wo_alloc W (co_world W C) p) as [op Hp]; [by apply elem_of_app; right|].
  pose proof (finish_op_upd WOk (w_cancelled W) opErr now p op (w_queue W) Hp) as U.
  pose proof (finish_journal_ok (w_cancelled W) opErr now p (w_queue W) (co_journal W C)) as Jq.
  pose proof (co_running W C p op Hin Hp) as Hnd.
  assert (F : objs_final (was_done W) (finish_op WOk (w_cancelled W) opErr now p (w_queue W)) /\
              rows_final (was_done W) (finish_op WOk (w_cancelled W) opErr now p (w_queue W))).
  { unfold finish_op. rewrite Hp. eapply put_persist_final; [apply C|apply C|done| |by intros ?%Hnd].
    unfold verdict. by repeat case_match. }
  destruct F as [Ob R].
  assert (Hrow : is_live W = true -> forall t r,
    oq_db (finish_op WOk (w_cancelled W) opErr now p (w_queue W)) = Some t -> t !! op_ID op = Some r ->
    terminal (w_status r)).
  { intros Hl t r. destruct (oq_db (w_queue W)) as [t0|] eqn:Edb; [|by destruct (co_db W C)].
    unfold is_live in Hl. destruct (w_cancelled W) eqn:Ec; [done|].
    assert (Eo : oq_dbopen (w_queue W) = true).
    { destruct (oq_dbopen (w_queue W)) eqn:E; [done|]. destruct (co_open W C E) as [_ Hc].
      destruct (oq_started (w_queue W)) eqn:Es; [by rewrite Ec in Hc; destruct Hc|].
      destruct (wo_idle W (co_world W C) Es) as (_ & Hw & _). rewrite Hw in Ew. by destruct l1. }
    destruct (upd_objs _ _ _ U p op Hp) as (op' & Hp' & I & T). unfold only_at in T.
    rewrite decide_True in T by done. revert Hp' T. unfold finish_op. rewrite Hp.
    set (v := verdict _ _ _ _ _). intros Hp' T Et Hr.
    assert (op' = v) as ->.
    { unfold put_persist in Hp'. destruct (persist_frame WOk v (put p v (w_queue W))) as (d & E & _).
      rewrite E in Hp'. change (<[p := v]> (oq_objs (w_queue W)) !! p = Some op') in Hp'.
      rewrite lookup_insert_eq in Hp'. by injection Hp'. }
    rewrite <- (ident_ID _ _ I) in Hr. rewrite (put_persist_row p v (w_queue W) t0 Edb Eo t r Et Hr). auto. }
  unfold id_of in *. rewrite Hp in *.
  revert WO U Jq Ob R Hrow. generalize (finish_op WOk (w_cancelled W) opErr now p (w_queue W)).
  intros q' WO U Jq Ob R Hrow.
  assert (Hd : forall id, was_done (W <| w_queue := q' |> <| w_workers := l1 ++ WIdle :: l2 |>
      <| w_hist := if is_live W then EvDone (op_ID op) :: w_hist W else w_hist W |>) id ->
      was_done W id \/ (id = op_ID op /\ is_live W = true)).
  { intros id. unfold was_done. cbn. unfold const. destruct (is_live W); [|by left].
    rewrite elem_of_cons. intros [[= ->]|?]; auto. }
  destruct C. split; try done.
  - by eapply journaled_db; [apply U|].
  - cbn. unfold const. rewrite (upd_dbopen _ _ _ U), (upd_started _ _ _ U). intros Ho.
    destruct (co_open0 Ho). split; [|done]. by apply (upd_closed _ _ _ U).
  - intros r x Hx [Hh|[Eid Hl]]%Hd; [by apply (Ob r)|].
    destruct (upd_back _ _ _ _ _ U Hx) as (y & Hy & I & T). unfold only_at in T.
    assert (r = p) as -> by (eapply (ok_distinct _ (wo_queue W co_world0)); eauto; by rewrite <- (ident_ID _ _ I)).
    rewrite decide_True in T by done. unfold is_live in Hl. destruct (w_cancelled W); auto; done.
  - intros t id r Et Hr [Hh|[-> Hl]]%Hd; [by apply (R t id r)|]. by eapply Hrow.
  - intros r x' Hr Hx Hh. destruct (upd_back _ _ _ _ _ U Hx) as (x & Hx0 & I & _).
    cbn in Hr. unfold const in Hr. rewrite (ident_ID _ _ I) in Hh.
    assert (Hr' : r ∈ running (w_workers W)).
    { rewrite Ew. revert Hr. rewrite !running_set, !elem_of_app. cbn. rewrite elem_of_nil. tauto. }
    apply Hd in Hh as [Hh|[Eid Hl]]; [by eapply co_running0|].
    assert (r = p) as -> by (by eapply (ok_distinct _ (wo_queue W co_world0))).
    unfold is_live in Hl. destruct (w_cancelled W) eqn:Ec; [done|].
    destruct (wo_running W co_world0 Ec) as [Hnd' _]. rewrite Ew in Hnd'. revert Hnd' Hr.
    rewrite !running_set. cbn. rewrite <- Permutation_middle, NoDup_cons. tauto.
Qed.

Lemma persist_all_ext w w' ps q : (forall n, w n = w' n) -> persist_all w ps q = persist_all w' ps q.
Proof.
  revert w w' q. induction ps as [|p ps IH]; intros w w' q E; cbn [persist_all]; [done|].
  destruct (oq_objs q !! p) as [op|]; [|by apply IH]. rewrite E.
  destruct (persist (w' 0%nat) op q) as [[e|] q1]; [done|]. by apply IH.
Qed.

Lemma open_ext c t w w' : (forall n, w n = w' n) ->
  NewPersistentOperationQueue c t w = NewPersistentOperationQueue c t w'.
Proof.
  intros E. unfold NewPersistentOperationQueue, loadJournal.
  change (oq_db (newOperationQueue c (Some t))) with (Some t). cbv beta iota zeta.
  by rewrite (persist_all_ext w w').
Qed.

Lemma clean_restart c t w q' W :
  (forall n, clean (w n)) -> clean_ok W -> oq_db (w_queue W) = Some t ->
  NewPersistentOperationQueue c t w = Ok q' -> clean_ok (fresh_world q' (EvRestart :: w_hist W)).
Proof.
  intros Hw C Et E. rewrite (open_ext c t w (fun _ => WOk)) in E by done.
  pose proof (wo_db W (co_world W C) t Et) as U.
  assert (N : forall id r, t !! id = Some r -> normal id r).
  { intros id r. by apply (jo_normal _ (co_journal W C)). }
  destruct (open_journal_clean c t U N) as (q1 & E1 & [O Rg G (F1 & F2 & F3 & F4 & F5 & F6)] & Jq).
  assert (q1 = q') as -> by congruence.
  assert (WO : world_ok (fresh_world q' (EvRestart :: w_hist W))).
  { apply fresh_world_ok; try done; [|by rewrite F3].
    by destruct (open_journal_spec c t _ q' U E). }
  assert (Hd : forall id, was_done (fresh_world q' (EvRestart :: w_hist W)) id <-> was_done W id).
  { intros id. unfold was_done. cbn. rewrite elem_of_cons. naive_solver. }
  assert (Ob : objs_final (was_done W) q').
  { intros p op Hp Hh. apply Rg in Hp as Gp. pose proof (G (op_ID op)) as Ge. rewrite Gp in Ge.
    destruct (t !! op_ID op) as [r|] eqn:Er; [|done]. cbn in Ge. injection Ge as Eop.
    destruct (co_rows W C t (op_ID op) r Et Er Hh) as [H1 H2]. rewrite Eop, loaded_op_Status.
    destruct (w_status r =? StatusRunning)%string eqn:Es; seqb; done. }
  assert (R : rows_final (was_done W) q').
  { unfold NewPersistentOperationQueue, loadJournal in E.
    change (oq_db (newOperationQueue c (Some t))) with (Some t) in E. cbv beta iota zeta in E.
    destruct (load_all_spec c t U) as [_ _ _ (_ & _ & L3 & _)].
    set (q2 := foldl load_row _ _) in *.
    destruct (persist_all (fun _ => WOk) (fst q2) (snd q2)) as [[e|] q3] eqn:Ep; [done|].
    injection E as ->. eapply persist_all_final; [exact Ep| |].
    - apply persist_all_frame in Ep as (_ & d & -> & _); [exact Ob|].
      intros t0. rewrite L3. by intros [= <-].
    - intros t0 id r. rewrite L3. intros [= <-]. by apply (co_rows W C). }
  split; try done.
  - cbn. congruence.
  - intros p op Hp Hh%Hd. by apply (Ob p).
  - intros t0 id r Et0 Hr Hh%Hd. by apply (R t0 id r).
  - by intros p op ?%elem_of_nil.
Qed.

Lemma clean_step_ok W W' : world_step clean W W' -> clean_ok W -> clean_ok W'.
Proof.
  intros S C. pose proof (world_step_ok _ _ _ S (co_world W C)) as WO. destruct S.
  - destruct (call_final (was_done W) _ _ _ H (co_objs W C) (co_rows W C)).
    eapply clean_update; [done|done|by eapply call_upd|eapply call_journal_ok; [done|apply C]|done|done].
  - destruct H0 as (Hu & Ht & Hh). rewrite H in *. pose proof (co_world W C) as WO0.
    assert (Hn : min64 <= oq_nextID (w_queue W) < max64) by (split; [apply WO0|done]).
    pose proof (register_journal_ok c s typ ttl uuid now (w_queue W) r q' (co_journal W C) Hu Ht Hn H2) as Jq.
    destruct (register_final (was_done W) WOk c s typ ttl uuid now (w_queue W) r q') as (Ob & R & Eo & Ecl & Hobj);
      [apply C| |apply C|apply C|done|].
    { intros Hd. by destruct (Hh _ Hd) as [[] _]. }
    destruct (enqueue_register_spec WOk c s typ ttl uuid now (w_queue W) r q' (wo_queue W WO0) Hu Hn H2)
      as (_ & _ & P).
    destruct C. split; try done.
    + eapply journaled_db; [apply P|done].
    + change (oq_dbopen q' = false -> oq_closed q' = true /\ (oq_started q' = true -> w_cancelled W <> None)).
      rewrite Eo, Ecl, (rp_started _ _ _ _ P). done.
    + intros p op Hin Hp. destruct (Hobj p op Hp) as [Hp'| ->]; [by apply (co_running0 p)|].
      intros Hd. by destruct (Hh _ Hd) as [[] _].
  - apply send_inv in H0 as ->. by apply (clean_moves W).
  - by apply (clean_moves W).
  - rewrite H in *.
    destruct (remove_final (was_done W) p (w_queue W)) as (Ob & R & Eo & Ecl);
      [apply C|apply C|apply C|].
    destruct (removeUnqueued_spec WOk p (w_queue W) (jo_queue _ (co_journal W C))) as [_ Rm].
    pose proof (remove_journal_ok p (w_queue W) (co_journal W C)) as Jq.
    revert WO Ob R Eo Ecl Rm Jq. generalize (removeUnqueued WOk p (w_queue W)). intros q' WO Ob R Eo Ecl Rm Jq.
    destruct C. split; try done.
    + eapply journaled_db; [apply Rm|done].
    + change (oq_dbopen q' = false -> oq_closed q' = true /\ (oq_started q' = true -> w_cancelled W <> None)).
      rewrite Eo, Ecl, (rm_started _ _ _ Rm). done.
    + intros r op Hin Hp. change (oq_objs q' !! r = Some op) in Hp. rewrite (rm_objs _ _ _ Rm) in Hp.
      by apply (co_running0 r).
  - unfold Start in *. rewrite H in *. apply (clean_moves W); try done.
    + cbn. congruence.
    + cbn. unfold const. rewrite running_replicate. by intros p ?%elem_of_nil.
  - apply send_inv in H0 as ->. by apply (clean_moves W).
  - by apply (clean_moves W).
  - apply (clean_moves W); try done. intros r. cbn. unfold const. rewrite H0, !running_set. done.
  - apply (clean_moves W); try done. intros r. cbn. unfold const. rewrite H0, running_set, running_app. done.
  - destruct (begin_op_false _ _ _ _ _ H1) as [U _]. rewrite H in *.
    pose proof (begin_journal_ok now p (w_queue W) (co_journal W C)) as Jq.
    pose proof (begin_final (was_done W) WOk now p (w_queue W) (co_objs W C) (co_rows W C)) as [Ob R].
    pose proof (begin_db WOk now p (w_queue W) (wo_db W (co_world W C))) as D.
    rewrite H1 in Jq, Ob, R, D.
    assert (C1 : clean_ok (W <| w_queue := q' |>)).
    { eapply clean_update; try done. apply wok_outside; [apply C|done|done]. }
    apply (clean_moves (W <| w_queue := q' |>)); try done.
    intros r. cbn. unfold const. rewrite H0, !running_set. done.
  - by eapply clean_begin.
  - by eapply clean_finish.
  - apply (clean_moves W); try done.
  - destruct (settle_final (was_done W) w now (w_queue W) (co_objs W C) (co_rows W C)).
    eapply clean_update; [done|done|apply shutdown_settle_upd|by apply settle_journal_ok; [|apply C]|done|done].
  - destruct C. split; try done. by eapply (journal_ok_meta (w_queue W)).
  - by eapply clean_restart.
Qed.

Lemma initial_clean_ok c : clean_ok (initial_world c true).
Proof.
  split; try done; [apply initial_world_ok| |by intros t id r _ _ ?%elem_of_nil]. split.
  - apply newOperationQueue_ok.
  - intros t id r. cbn. intros [= <-]. by rewrite lookup_empty.
  - intros _ t _ id p op. by destruct (newOperationQueue_ok c (Some ∅)) as (_ & _ & ->).
Qed.

Lemma reachable_clean c W : reachable clean (initial_world c true) W -> clean_ok W.
Proof. induction 1; [apply initial_clean_ok|by eapply clean_step_ok]. Qed.

(** An operation as a restart resumes it: a running one starts over, and a
    negative time limit, which the journal stores as none, is none. *)
Definition restored (op : Operation) : Operation := reset_running (op <| op_TTL := Z.max 0 (op_TTL op) |>).

Lemma of_row_of op : of_row (op_ID op) (row_of op) = op <| op_TTL := Z.max 0 (op_TTL op) |>.
Proof.
  unfold of_row, row_of. destruct op as [id c s ty st e cr sa co ttl pr pc rd ack]. cbn.
  assert (E1 : default "" (nullif_empty c) = c).
  { unfold nullif_empty. by destruct (c =? "")%string eqn:E; seqb. }
  assert (E2 : forall x, default zeroTime (nullTime x) = x).
  { intros x. unfold nullTime. destruct (x =? zeroTime) eqn:E; zb; by subst. }
  assert (E3 : default 0 (ttlNanos ttl) = Z.max 0 ttl).
  { unfold ttlNanos. destruct (ttl <=? 0) eqn:E; zb; cbn; lia. }
  rewrite E1, !E2, E3. by destruct ack.
Qed.

(** C27: The journal is a faithful copy.  If the agent dies at any moment while
    its journal works, opening the journal again succeeds and yields every
    operation that was registered, with the same contents, except that an
    operation caught running is pending again; and nothing the queue still
    holds is lost. *)
Theorem journal_recovers (c c' : Z) (W : World) (t : Journal)
    (HW : reachable clean (initial_world c true) W)
    (Hopen : oq_dbopen (w_queue W) = true) (Hdb : oq_db (w_queue W) = Some t) :
  exists q', NewPersistentOperationQueue c' t (fun _ => WOk) = Ok q' /\
    (forall id p op, get (w_queue W) id = Some (p, op) -> exists p', get q' id = Some (p', restored op)) /\
    (forall id p' op', get q' id = Some (p', op') -> is_Some (t !! id)).
Proof.
  pose proof (reachable_clean c W HW) as C. pose proof (wo_db W (co_world W C) t Hdb) as U.
  assert (N : forall id r, t !! id = Some r -> normal id r).
  { intros id r. by apply (jo_normal _ (co_journal W C)). }
  destruct (open_journal_clean c' t U N) as (q' & E & Op & _). exists q'. split; [done|]. split.
  - intros id p op G. pose proof (jo_synced _ (co_journal W C) Hopen t Hdb id p op G) as Hrow.
    pose proof (op_get t q' Op id) as Gq. rewrite Hrow in Gq. cbn in Gq.
    destruct (get q' id) as [[p' op']|]; [|done]. cbn in Gq. injection Gq as ->. exists p'. do 2 f_equal.
    unfold loaded_op. rewrite <- (get_registered _ _ _ _ (jo_queue _ (co_journal W C)) G).
    by rewrite of_row_of.
  - intros id p' op' G. pose proof (op_get t q' Op id) as Gq. rewrite G in Gq. by destruct (t !! id).
Qed.

(** No operation starts after its verdict, whatever happened in between. *)
Inductive never_replayed : list event -> Prop :=
| nr_nil : never_replayed []
| nr_restart h : never_replayed h -> never_replayed (EvRestart :: h)
| nr_done id h : never_replayed h -> never_replayed (EvDone id :: h)
| nr_start id live h : never_replayed h -> EvDone id ∉ h -> never_replayed (EvStart id live :: h).

(** C26: A command whose handler returned before the queue was told to stop, and
    so got its verdict (completed or failed), is never run again, not even by a
    later process: as long as the journal takes what is written to it, the
    handler of such an operation is never started again, across any number of
    crashes and restarts.  Nothing is claimed of a handler that returns after
    the stop, which gets no verdict, nor of a failure that was only reported from
    outside (SetError) while the handler ran into the stop: both are reset and
    run again by the next process. *)
Theorem verdict_is_final (c : Z) (W : World) (HW : reachable clean (initial_world c true) W) :
  never_replayed (w_hist W).
Proof.
  induction HW as [|W W' R IH S]; [constructor|]. pose proof (reachable_clean c W R) as C.
  destruct S; try exact IH.
  - change (never_replayed (EvStart (id_of (w_queue W) p) (is_live W) :: w_hist W)). constructor; [done|].
    destruct (begin_op_true _ _ _ _ _ H1) as (op & Hp & Hst & _). unfold id_of. rewrite Hp.
    intros Hd. by destruct (co_objs W C p op Hp Hd).
  - change (never_replayed (if is_live W then EvDone (id_of (w_queue W) p) :: w_hist W else w_hist W)).
    destruct (is_live W); [by constructor|done].
  - by constructor.
Qed.

(** ** A run

    A journaled queue with two workers starts, a command is registered, sent,
    received and begun. *)
Definition ex_start : World :=
  let W := initial_world 2 true in
  W <| w_queue := snd (Start (w_queue W)) |> <| w_feed := fst (Start (w_queue W)) |>
    <| w_workers := replicate (Z.to_nat (oq_concurrency (w_queue W))) WIdle |>.

Definition ex_call (uuid : string) (W : World) : registration * OperationQueue :=
  enqueue_register WOk "c1" "s1" "start" (5 * Second) uuid 100 (w_queue W).

Definition do_register (uuid : string) (W : World) : World :=
  let e := ex_call uuid W in
  W <| w_queue := snd e |>
    <| w_sending := match fst e with Registered p _ => p :: w_sending W | _ => w_sending W end |>.

Definition ex_registered : World := do_register "u1" ex_start.

Definition ex_sent : World :=
  ex_registered <| w_queue := (w_queue ex_registered) <| oq_ch := [1%positive] |> |> <| w_sending := [] ++ [] |>.

Definition ex_received : World :=
  ex_sent <| w_queue := (w_queue ex_sent) <| oq_ch := [] |> |> <| w_workers := [] ++ WGot 1%positive :: [WIdle] |>.

Definition ex_begun : World :=
  let q := w_queue ex_received in
  ex_received <| w_queue := snd (begin_op WOk 200 1%positive q) |>
    <| w_workers := [] ++ WRunning 1%positive :: [WIdle] |>
    <| w_hist := EvStart (id_of q 1%positive) (is_live ex_received) :: w_hist ex_received |>.

Lemma ex_fresh uuid W : oq_objs (w_queue W) = ∅ -> oq_db (w_queue W) = Some ∅ -> w_hist W = [] -> fresh_id uuid W.
Proof.
  intros E1 E2 E3. split_and!; rewrite ?E1, ?E2, ?E3.
  - intros p op. by rewrite lookup_empty.
  - intros t [= <-]. apply lookup_empty.
  - by intros e ?%elem_of_nil.
Qed.

Lemma pair_eta {A B} (x : A * B) a : fst x = a -> x = (a, snd x).
Proof. intros <-. apply surjective_pairing. Qed.

Lemma ex_registered_reachable : reachable clean (initial_world 2 true) ex_registered.
Proof.
  eapply (reach_step _ _ ex_start).
  - eapply reach_step; [apply reach_init|]. by apply step_start.
  - eapply step_register; [done|by apply ex_fresh|done|]. apply surjective_pairing.
Qed.

Lemma ex_begun_reachable : reachable clean (initial_world 2 true) ex_begun.
Proof.
  eapply (reach_step _ _ ex_received).
  - eapply (reach_step _ _ ex_sent).
    + eapply reach_step; [apply ex_registered_reachable|].
      apply (step_send _ [] 1%positive []); vm_compute; reflexivity.
    + apply (step_receive _ 1%positive [] [] [WIdle]); vm_compute; reflexivity.
  - apply (step_begin _ WOk 200 1%positive _ [] [WIdle]); [done|vm_compute; reflexivity|].
    apply pair_eta. vm_compute. reflexivity.
Qed.

Lemma operation_runs_once_witness :
  w_hist ex_begun = [EvStart "u1" true] /\ well_run (w_hist ex_begun).
Proof.
  split; [vm_compute; reflexivity|]. apply (operation_runs_once clean 2 true). exact ex_begun_reachable.
Defined.

Lemma pending_is_en_route_witness : 1%positive ∈ en_route ex_registered.
Proof.
  refine (pending_is_en_route clean 2 true ex_registered ex_registered_reachable "u1" 1%positive
    (mkOp "u1" "c1" "s1" "start" StatusPending "" 100 zeroTime zeroTime (5 * Second) "" 0 "" false) _ _ _ _);
    vm_compute; reflexivity.
Defined.

Lemma enqueue_is_idempotent_witness :
  must_answer "c1" "s1" (w_queue ex_start) (fst (ex_call "u1" ex_start)).
Proof.
  refine (proj1 (enqueue_is_idempotent clean 2 true ex_start WOk "c1" "s1" "start" (5 * Second) "u1" 100
    (fst (ex_call "u1" ex_start)) (snd (ex_call "u1" ex_start)) _ _ _ _)).
  - eapply reach_step; [apply reach_init|]. by apply step_start.
  - by apply ex_fresh.
  - vm_compute. reflexivity.
  - apply surjective_pairing.
Defined.

Lemma journal_recovers_witness :
  exists q', NewPersistentOperationQueue 1 (default ∅ (oq_db (w_queue ex_begun))) (fun _ => WOk) = Ok q' /\
    (forall id p op, get (w_queue ex_begun) id = Some (p, op) -> exists p', get q' id = Some (p', restored op)) /\
    (forall id p' op', get q' id = Some (p', op') -> is_Some (default ∅ (oq_db (w_queue ex_begun)) !! id)).
Proof.
  apply (journal_recovers 2 1 ex_begun (default ∅ (oq_db (w_queue ex_begun))) ex_begun_reachable);
    vm_compute; reflexivity.
Defined.

Lemma verdict_is_final_witness : never_replayed (w_hist ex_begun).
Proof. apply (verdict_is_final 2). exact ex_begun_reachable. Defined.

(** What the restart makes of the command that was running. *)
Example ex_restart :
  match NewPersistentOperationQueue 1 (default ∅ (oq_db (w_queue ex_begun))) (fun _ => WOk) with
  | Ok q => map (fun op => (op_ID op, op_Status op, op_StartedAt op =? zeroTime, op_TTL op)) (ListByServer "s1" q)
  | Err _ => []
  end = [("u1", StatusPending, true, 5 * Second)].
Proof. vm_compute. reflexivity. Qed.

(** ** Where the queue does not do what it promises *)

(** A second call with the same command is answered with the registered
    operation; the first call then gives up and withdraws it.  The second
    caller was told its command is queued, and nothing will run it. *)
Lemma acknowledged_command_is_lost :
  exists W, reachable clean (initial_world 2 true) W /\
    (exists op, fst (ex_call "u2" ex_registered) = Answered (Ok op) /\ op_ID op = "u1") /\
    get (w_queue W) "u1" = None /\ en_route W = [] /\ w_hist W = [].
Proof.
  set (W1 := do_register "u2" ex_registered).
  set (W2 := W1 <| w_sending := [] ++ [] |> <| w_rejected := 1%positive :: w_rejected W1 |>).
  exists (W2 <| w_queue := removeUnqueued WOk 1%positive (w_queue W2) |> <| w_rejected := [] ++ [] |>).
  split_and!; [|eexists; split; vm_compute; reflexivity|vm_compute; reflexivity..].
  eapply (reach_step _ _ W2); [eapply (reach_step _ _ W1); [eapply reach_step; [apply ex_registered_reachable|]|]|].
  - eapply step_register; [done| |vm_compute; reflexivity|apply surjective_pairing].
    split_and!.
    + intros p op Hp. assert (p = 1%positive) as ->.
      { change (<[1%positive := mkOp "u1" "c1" "s1" "start" StatusPending "" 100 zeroTime zeroTime (5 * Second) "" 0 "" false]>
          (∅ : gmap ptr Operation) !! p = Some op) in Hp.
        by apply lookup_insert_Some in Hp as [[<- _]|[_ ?%lookup_empty_Some]]. }
      vm_compute in Hp. injection Hp as <-. done.
    + intros t Ht. vm_compute in Ht. injection Ht as <-. vm_compute. reflexivity.
    + by intros e ?%elem_of_nil.
  - apply (step_reject _ [] 1%positive []). vm_compute. reflexivity.
  - apply (step_withdraw _ WOk [] 1%positive []); [done|]. vm_compute. reflexivity.
Qed.

(** The panel reports that a running command failed; the agent is then told to
    stop.  The report is erased and the command is replayed after the restart. *)
Lemma reported_failure_is_erased :
  let q1 := snd (SetError WOk "u1" "disk full" 250 (w_queue ex_begun)) in
  let q2 := finish_op WOk (Some "context canceled") "" 300 1%positive q1 in
  (op_Status <$> (snd <$> get q1 "u1")) = Some StatusFailed /\
  (fun op => (op_Status op, op_Error op)) <$> (snd <$> get q2 "u1") = Some (StatusPending, "").
Proof. vm_compute. split; reflexivity. Qed.

(** An operation registered before [Start] and rejected after it is delivered
    all the same: the feeder kept its pointer. *)
Lemma withdrawn_operation_is_delivered :
  let q0 := newOperationQueue 1 (Some ∅) in
  let r := enqueue_register WOk "c1" "s1" "start" 0 "u1" 100 q0 in
  let s := Start (snd r) in
  let q := removeUnqueued WOk 1%positive (snd s) in
  fst s = [1%positive] /\ get q "u1" = None /\ fst (begin_op WOk 200 1%positive q) = true.
Proof. vm_compute. split_and!; reflexivity. Qed.
