(* ===== verification/Programs.v ===== *)
(** * Programs that run concurrently

    A Go function that talks to the outside (the database, a node, the clock)
    is a tree of its requests, each with a continuation for every answer: the
    code's control flow, with nothing said about the answers.  Several such
    programs run at once in a [pool]: at each step one of them has one request
    answered, or the environment moves.

    The proofs are modular.  [wp t p Q w] says that thread [t], wherever it is
    in [p], keeps the shared invariant and disturbs no other thread more than
    these rely on, whatever they do in between; [pool_safe] puts the threads
    together. *)
From Stdlib Require Import ZArith Lia.
From stdpp Require Import base gmap list fin_maps relations.
From S2P Require Import Prelude.
#[local] Open Scope list_scope.

Inductive prog (E : Type -> Type) (A : Type) : Type :=
| Ret (a : A)
| Vis (X : Type) (e : E X) (k : X -> prog E A).
Arguments Ret {E A} a.
Arguments Vis {E A X} e k.

Fixpoint pbind {E A B} (m : prog E A) (k : A -> prog E B) : prog E B :=
  match m with
  | Ret a => k a
  | Vis e k' => Vis e (fun x => pbind (k' x) k)
  end.

Definition request {E A} (e : E A) : prog E A := Vis e Ret.

Notation "'let^' x := m 'in' k" := (pbind m (fun x => k))
  (at level 200, x binder, m at level 200, k at level 200, only parsing) : go_scope.

(** Every request of the program is one of these, whatever is answered. *)
Fixpoint only {E A} (ok : forall X, E X -> Prop) (p : prog E A) : Prop :=
  match p with
  | Ret _ => True
  | Vis e k => ok _ e /\ forall x, only ok (k x)
  end.

Lemma only_bind {E A B} (ok : forall X, E X -> Prop) (m : prog E A) (k : A -> prog E B) :
  only ok m -> (forall a, only ok (k a)) -> only ok (pbind m k).
Proof.
  intros Hm Hk. induction m as [a|X e k' IH]; [apply Hk|]. destruct Hm as [He Hm].
  split; [done|]. intros x. by apply IH.
Qed.

Lemma only_request {E A} (ok : forall X, E X -> Prop) (e : E A) : ok _ e -> only ok (request e).
Proof. by split. Qed.

Lemma only_mono {E A} (ok ok' : forall X, E X -> Prop) (p : prog E A) :
  (forall X e, ok X e -> ok' X e) -> only ok p -> only ok' p.
Proof. intros H. induction p as [a|X e k IH]; [done|]. intros [He Hk]. split; auto. Qed.

(** Whatever is answered, what the program returns is one of these. *)
Fixpoint yields {E A} (F : A -> Prop) (p : prog E A) : Prop :=
  match p with Ret a => F a | Vis e k => forall x, yields F (k x) end.

Lemma yields_bind {E A B} (G : A -> Prop) (F : B -> Prop) (m : prog E A) (k : A -> prog E B) :
  yields G m -> (forall a, G a -> yields F (k a)) -> yields F (pbind m k).
Proof.
  intros Hm Hk. induction m as [a|X e k' IH]; [by apply Hk|]. intros x. apply IH, Hm.
Qed.

Lemma yields_any {E A} (p : prog E A) : yields (fun _ => True) p.
Proof. induction p as [a|X e k IH]; [done|]. intros x. apply IH. Qed.

(** The requests of a run with their answers, and what the run returned. *)
Definition exchange (E : Type -> Type) : Type := { X : Type & (E X * X)%type }.

Definition answered {E X} (e : E X) (x : X) : exchange E := existT X (e, x).

Fixpoint returns {E A} (p : prog E A) (tr : list (exchange E)) (a : A) : Prop :=
  match p, tr with
  | Ret b, [] => b = a
  | Vis e k, ev :: tr => exists x, ev = answered e x /\ returns (k x) tr a
  | _, _ => False
  end.

Lemma returns_bind {E A B} (m : prog E A) (k : A -> prog E B) tr b :
  returns (pbind m k) tr b ->
  exists a tr1 tr2, tr = tr1 ++ tr2 /\ returns m tr1 a /\ returns (k a) tr2 b.
Proof.
  revert tr. induction m as [a|X e k' IH]; intros tr H; [by exists a, [], tr|].
  destruct tr as [|ev tr]; [done|]. destruct H as (x & -> & H).
  apply IH in H as (a & tr1 & tr2 & -> & H1 & H2). exists a, (answered e x :: tr1), tr2.
  split_and!; [done| |done]. by exists x.
Qed.

Lemma returns_bind_back {E A B} (m : prog E A) (k : A -> prog E B) tr1 tr2 a b :
  returns m tr1 a -> returns (k a) tr2 b -> returns (pbind m k) (tr1 ++ tr2) b.
Proof.
  revert tr1. induction m as [c|X e k' IH]; intros [|ev tr1] Hm Hk; try done; [cbn in Hm; by subst c|].
  destruct Hm as (x & -> & Hm). exists x. split; [done|]. by apply IH.
Qed.

Lemma returns_request {E A B} (e : E A) (k : A -> prog E B) tr b :
  returns (pbind (request e) k) tr b ->
  exists a tr', tr = answered e a :: tr' /\ returns (k a) tr' b.
Proof. destruct tr as [|ev tr]; [done|]. intros (a & -> & H). by exists a, tr. Qed.

(** ** One program alone

    [run_alone h p w]: the run of [p] when [h] answers its requests. *)
Section Alone.
Context {E : Type -> Type} {W : Type} (h : forall X, E X -> W -> X * W).

Fixpoint run_alone {A} (p : prog E A) (w : W) : list (exchange E) * A * W :=
  match p with
  | Ret a => ([], a, w)
  | Vis e k =>
      let x := fst (h _ e w) in
      let '(tr, a, w') := run_alone (k x) (snd (h _ e w)) in (answered e x :: tr, a, w')
  end.

Definition trace_alone {A} (p : prog E A) (w : W) : list (exchange E) := fst (fst (run_alone p w)).
Definition answer_alone {A} (p : prog E A) (w : W) : A := snd (fst (run_alone p w)).
Definition world_alone {A} (p : prog E A) (w : W) : W := snd (run_alone p w).

Lemma returns_alone {A} (p : prog E A) w : returns p (trace_alone p w) (answer_alone p w).
Proof.
  unfold trace_alone, answer_alone. revert w. induction p as [a|X e k IH]; intros w; [done|].
  cbn [run_alone]. specialize (IH (fst (h X e w)) (snd (h X e w))).
  destruct (run_alone _ _) as [[tr a] w']. cbn in *. by exists (fst (h X e w)).
Qed.

Lemma world_alone_vis {A X} (e : E X) (k : X -> prog E A) w :
  world_alone (Vis e k) w = world_alone (k (fst (h X e w))) (snd (h X e w)).
Proof. unfold world_alone. cbn [run_alone]. by destruct (run_alone _ _) as [[tr a] w']. Qed.

Lemma answer_alone_vis {A X} (e : E X) (k : X -> prog E A) w :
  answer_alone (Vis e k) w = answer_alone (k (fst (h X e w))) (snd (h X e w)).
Proof. unfold answer_alone. cbn [run_alone]. by destruct (run_alone _ _) as [[tr a] w']. Qed.

Lemma world_alone_bind {A B} (m : prog E A) (k : A -> prog E B) w :
  world_alone (pbind m k) w = world_alone (k (answer_alone m w)) (world_alone m w).
Proof.
  unfold world_alone, answer_alone. revert w. induction m as [a|X e k' IH]; intros w; [done|].
  cbn [pbind run_alone]. specialize (IH (fst (h X e w)) (snd (h X e w))).
  destruct (run_alone (k' _) _) as [[tr a] w1], (run_alone (pbind _ _) _) as [[tr' a'] w1']. exact IH.
Qed.

Lemma answer_alone_bind {A B} (m : prog E A) (k : A -> prog E B) w :
  answer_alone (pbind m k) w = answer_alone (k (answer_alone m w)) (world_alone m w).
Proof.
  unfold world_alone, answer_alone. revert w. induction m as [a|X e k' IH]; intros w; [done|].
  cbn [pbind run_alone]. specialize (IH (fst (h X e w)) (snd (h X e w))).
  destruct (run_alone (k' _) _) as [[tr a] w1], (run_alone (pbind _ _) _) as [[tr' a'] w1']. exact IH.
Qed.

(** What the requests of a program keep, the program keeps. *)
Lemma alone_only {A} (ok : forall X, E X -> Prop) (R : W -> W -> Prop) `{!PreOrder R} (p : prog E A) w :
  (forall X (e : E X) w, ok X e -> R w (snd (h X e w))) -> only ok p -> R w (world_alone p w).
Proof.
  intros H. unfold world_alone. revert w. induction p as [a|X e k IH]; intros w; [done|].
  intros [He Hk]. cbn [run_alone]. specialize (IH (fst (h X e w)) (snd (h X e w)) (Hk _)).
  destruct (run_alone _ _) as [[tr a] w']. etransitivity; [by apply H|exact IH].
Qed.

Lemma alone_yields {A} (F : A -> Prop) (p : prog E A) w : yields F p -> F (answer_alone p w).
Proof.
  unfold answer_alone. revert w. induction p as [a|X e k IH]; intros w; [done|]. intros Hp.
  cbn [run_alone]. specialize (IH (fst (h X e w)) (snd (h X e w)) (Hp _)).
  by destruct (run_alone _ _) as [[tr a] w'].
Qed.
End Alone.

(** ** Runs that may stop anywhere

    [runs p w o w']: from [w] the program came to [w']; it returned, or it was
    stopped between two requests.  [holds I p Q w]: every state on the way
    satisfies [I], and what is returned satisfies [Q]. *)
Section Runs.
Context {E : Type -> Type} {W : Type} (step : forall X, E X -> W -> X -> W -> Prop).

Fixpoint runs {A} (p : prog E A) (w : W) (o : option A) (w' : W) : Prop :=
  (o = None /\ w' = w) \/
  match p with
  | Ret a => o = Some a /\ w' = w
  | Vis e k => exists x w1, step _ e w x w1 /\ runs (k x) w1 o w'
  end.

Fixpoint holds {A} (I : W -> Prop) (p : prog E A) (Q : A -> W -> Prop) (w : W) : Prop :=
  match p with
  | Ret a => Q a w
  | Vis e k => forall x w1, step _ e w x w1 -> I w1 /\ holds I (k x) Q w1
  end.

Lemma holds_bind {A B} I (m : prog E A) (k : A -> prog E B) (Q : B -> W -> Prop) w :
  holds I m (fun a w' => holds I (k a) Q w') w -> holds I (pbind m k) Q w.
Proof.
  revert w. induction m as [a|X e k' IH]; intros w H; [exact H|].
  intros x w1 Hs. destruct (H x w1 Hs) as [HI Hk]. split; [exact HI|]. by apply IH.
Qed.

Lemma holds_mono {A} (I I' : W -> Prop) (p : prog E A) (Q Q' : A -> W -> Prop) w :
  (forall w, I w -> I' w) -> (forall a w, Q a w -> Q' a w) -> holds I p Q w -> holds I' p Q' w.
Proof.
  intros HI HQ. revert w. induction p as [a|X e k IH]; intros w H; [by apply HQ|].
  intros x w1 Hs. destruct (H x w1 Hs) as [H1 H2]. split; [by apply HI|]. by apply IH.
Qed.

Lemma holds_post {A} I (p : prog E A) (Q Q' : A -> W -> Prop) w :
  holds I p Q w -> (forall a w, Q a w -> Q' a w) -> holds I p Q' w.
Proof. intros H HQ. by eapply holds_mono; [done|apply HQ|]. Qed.

Lemma runs_holds {A} I (p : prog E A) Q w o w' :
  I w -> holds I p Q w -> runs p w o w' -> I w' /\ forall a, o = Some a -> Q a w'.
Proof.
  revert w. induction p as [a|X e k IH]; intros w HI H Hr; cbn [runs] in Hr.
  - destruct Hr as [[-> ->]|[-> ->]]; (split; [exact HI|]); [done|]. intros ? [= <-]. exact H.
  - destruct Hr as [[-> ->]|(x & w1 & Hs & Hr)]; [done|]. destruct (H x w1 Hs) as [HI1 Hk]. by apply (IH x w1).
Qed.

Lemma runs_bind {A B} (m : prog E A) (k : A -> prog E B) w a w1 o w2 :
  runs m w (Some a) w1 -> runs (k a) w1 o w2 -> runs (pbind m k) w o w2.
Proof.
  revert w. induction m as [b|X e k' IH]; intros w Hm Hk; cbn [runs] in Hm.
  - destruct Hm as [[? _]|[[= ->] ->]]; [done|exact Hk].
  - destruct Hm as [[? _]|(x & w' & Hs & Hm)]; [done|]. right. exists x, w'. split; [exact Hs|]. by apply IH.
Qed.

(** Requests that keep [I]. *)
Lemma holds_and {A} (I I' : W -> Prop) (p : prog E A) (Q Q' : A -> W -> Prop) w :
  holds I p Q w -> holds I' p Q' w -> holds (fun w => I w /\ I' w) p (fun a w => Q a w /\ Q' a w) w.
Proof.
  revert w. induction p as [a|X e k IH]; intros w H H'; [by split|].
  intros x w1 Hs. destruct (H x w1 Hs), (H' x w1 Hs). split; [done|]. by apply IH.
Qed.

Lemma holds_only {A} (ok : forall X, E X -> Prop) I (p : prog E A) w :
  (forall X (e : E X) w x w', ok X e -> I w -> step X e w x w' -> I w') ->
  only ok p -> I w -> holds I p (fun _ => I) w.
Proof.
  intros Hs. revert w. induction p as [a|X e k IH]; intros w Ho HI; [exact HI|].
  destruct Ho as [He Ho]. intros x w1 H1. assert (I w1) by (by eapply Hs). split; [done|]. by apply IH.
Qed.

(** A run can always go on to the end. *)
Lemma runs_total {A} (p : prog E A) w :
  (forall X (e : E X) w, exists x w', step X e w x w') -> exists a w', runs p w (Some a) w'.
Proof.
  intros Ht. revert w. induction p as [a|X e k IH]; intros w; [by exists a, w; right|].
  destruct (Ht X e w) as (x & w1 & Hs). destruct (IH x w1) as (a & w' & Hr).
  exists a, w'. right. by exists x, w1.
Qed.

(** What [h] answers is a run, when [h] answers as [step] allows. *)
Lemma runs_alone (h : forall X, E X -> W -> X * W) {A} (p : prog E A) w :
  (forall X e w, step X e w (fst (h X e w)) (snd (h X e w))) ->
  runs p w (Some (answer_alone h p w)) (world_alone h p w).
Proof.
  intros Hh. unfold answer_alone, world_alone. revert w. induction p as [a|X e k IH]; intros w; [by right|].
  cbn [run_alone]. specialize (IH (fst (h X e w)) (snd (h X e w))).
  destruct (run_alone _ _ _) as [[tr a] w']. right. by exists (fst (h X e w)), (snd (h X e w)).
Qed.
End Runs.

Section Pool.
Context {E : Type -> Type} {W : Type}.
(** How the world answers a request of a thread, and moves by itself. *)
Context (step : nat -> forall X, E X -> W -> X -> W -> Prop) (env : W -> W -> Prop).

Record pool := mkPool { shared : W; threads : gmap nat (prog E unit) }.

(** [start]: the programs a thread may be started with. *)
Context (start : prog E unit -> Prop) (leave : nat -> W -> W).

Inductive pool_step : pool -> pool -> Prop :=
| pool_run t X (e : E X) k w ts x w' :
    ts !! t = Some (Vis e k) -> step t X e w x w' ->
    pool_step (mkPool w ts) (mkPool w' (<[t := k x]> ts))
| pool_env w ts w' : env w w' -> pool_step (mkPool w ts) (mkPool w' ts)
| pool_start t p w ts :
    ts !! t = None -> start p -> pool_step (mkPool w ts) (mkPool w (<[t := p]> ts))
| pool_end t w ts :
    ts !! t = Some (Ret tt) -> pool_step (mkPool w ts) (mkPool (leave t w) (delete t ts)).

(** ** Rely and guarantee *)

Context (I : W -> Prop) (R : nat -> W -> W -> Prop).

(** [R t] is what thread [t] relies on the others for. *)
Context `{R_pre : !forall t, PreOrder (R t)}.

Fixpoint wp {A} (t : nat) (p : prog E A) (Q : A -> W -> Prop) (w : W) : Prop :=
  match p with
  | Ret a => Q a w
  | Vis e k => forall w1 x w2, R t w w1 -> I w1 -> step t _ e w1 x w2 ->
      I w2 /\ (forall t', t' <> t -> R t' w1 w2) /\ wp t (k x) Q w2
  end.

Lemma wp_mono {A} t (p : prog E A) (Q Q' : A -> W -> Prop) w :
  (forall a w', Q a w' -> Q' a w') -> wp t p Q w -> wp t p Q' w.
Proof.
  intros HQ. revert w. induction p as [a|X e k IH]; intros w; [apply HQ|].
  intros H w1 x w2 HR HI Hs. destruct (H w1 x w2 HR HI Hs) as (H1 & H2 & H3). auto.
Qed.

Lemma wp_bind {A B} t (m : prog E A) (k : A -> prog E B) (Q : B -> W -> Prop) w :
  wp t m (fun a w' => wp t (k a) Q w') w -> wp t (pbind m k) Q w.
Proof.
  revert w. induction m as [a|X e k' IH]; intros w; [done|].
  intros H w1 x w2 HR HI Hs. destruct (H w1 x w2 HR HI Hs) as (H1 & H2 & H3). auto.
Qed.

(** What a thread knows and the others cannot take away. *)
Definition stable (t : nat) (P : W -> Prop) : Prop := forall w w', P w -> R t w w' -> P w'.

Lemma stable_true t : stable t (fun _ => True).
Proof. done. Qed.

Lemma stable_and t P P' : stable t P -> stable t P' -> stable t (fun w => P w /\ P' w).
Proof. intros H H' w w' [HP HP'] HR. split; [by eapply H|by eapply H']. Qed.

(** A program of which only safety matters does not mind what the others do. *)
Lemma wp_stable {A} t (p : prog E A) w w' :
  R t w w' -> wp t p (fun _ _ => True) w -> wp t p (fun _ _ => True) w'.
Proof.
  destruct p as [a|X e k]; [done|]. intros HR H w1 x w2 HR' HI Hs. apply (H w1); [|done..].
  by transitivity w'.
Qed.

Lemma wp_yields {A} t (p : prog E A) (F : A -> Prop) (Q : A -> W -> Prop) w :
  yields F p -> wp t p Q w -> wp t p (fun a w' => F a /\ Q a w') w.
Proof.
  revert w. induction p as [a|X e k IH]; intros w HF H; [done|].
  intros w1 x w2 HR HI Hs. destruct (H w1 x w2 HR HI Hs) as (H1 & H2 & H3). split_and!; [done..|]. by apply IH.
Qed.

(** Requests that keep [P] and disturb nobody. *)
Lemma wp_only {A} t (ok : forall X, E X -> Prop) (P : W -> Prop) (p : prog E A) w :
  stable t P ->
  (forall X (e : E X) w1 x w2, ok X e -> P w1 -> I w1 -> step t X e w1 x w2 ->
     I w2 /\ (forall t', t' <> t -> R t' w1 w2) /\ P w2) ->
  only ok p -> P w -> wp t p (fun _ => P) w.
Proof.
  intros HP Hok. revert w. induction p as [a|X e k IH]; intros w Ho Hw; [done|].
  destruct Ho as [He Hk]. intros w1 x w2 HR HI Hs.
  destruct (Hok X e w1 x w2 He) as (H1 & H2 & H3); [by eapply HP|done..|]. auto.
Qed.

(** The rule of a request, from what the thread knows to what it learns. *)
Lemma wp_request {A X} t (e : E X) (k : X -> prog E A) (P : W -> Prop) (P' : X -> W -> Prop)
    (Q : A -> W -> Prop) w :
  stable t P ->
  (forall w1 x w2, P w1 -> I w1 -> step t X e w1 x w2 ->
     I w2 /\ (forall t', t' <> t -> R t' w1 w2) /\ P' x w2) ->
  (forall x w2, P' x w2 -> wp t (k x) Q w2) ->
  P w -> wp t (pbind (request e) k) Q w.
Proof.
  intros HP Hs Hk Hw w1 x w2 HR HI Hst. destruct (Hs w1 x w2) as (H1 & H2 & H3); [by eapply HP|done..|].
  split_and!; [done..|]. by apply Hk.
Qed.

Definition safe (c : pool) : Prop :=
  I (shared c) /\ forall t p, threads c !! t = Some p -> wp t p (fun _ _ => True) (shared c).

Context (env_ok : forall w w', I w -> env w w' -> I w' /\ forall t, R t w w').
Context (leave_ok : forall t w, I w -> I (leave t w) /\ forall t', t' <> t -> R t' w (leave t w)).
Context (start_ok : forall p, start p -> forall t w, wp t p (fun _ _ => True) w).

Lemma pool_safe c c' : safe c -> rtc pool_step c c' -> safe c'.
Proof using env_ok leave_ok start_ok R_pre.
  intros Hs H. induction H as [|c c1 c2 H _ IH]; [done|]. apply IH. clear IH.
  destruct H as [t X e k w ts x w' Ht Hst|w ts w' He|t p w ts Ht Hp|t w ts Ht];
    destruct Hs as [HI HT]; cbn [shared threads] in *.
  - pose proof (HT t _ Ht) as Hw. destruct (Hw w x w' ltac:(reflexivity) HI Hst) as (HI' & HG & Hk).
    split; [done|]. intros t' p'. cbn [shared threads].
    destruct (decide (t' = t)) as [->|Hne]; [rewrite lookup_insert_eq; by intros [= <-]|].
    rewrite lookup_insert_ne by done. intros Hp. eapply wp_stable; [by apply HG|by apply HT].
  - destruct (env_ok _ _ HI He) as [HI' HR]. split; [done|]. intros t p Hp.
    eapply wp_stable; [apply HR|by apply HT].
  - split; [done|]. intros t' p'. cbn [shared threads].
    destruct (decide (t' = t)) as [->|Hne]; [rewrite lookup_insert_eq; intros [= <-]; by apply start_ok|].
    rewrite lookup_insert_ne by done. apply HT.
  - destruct (leave_ok t _ HI) as [HI' HR]. split; [done|]. intros t' p'. cbn [shared threads].
    intros [Hne Hp]%lookup_delete_Some. eapply wp_stable; [by apply HR|by apply HT].
Qed.

End Pool.
Arguments pool : clear implicits.

(** ** A schedule

    [turns] says whose request is answered next; a thread without one is
    passed over. *)
Section Schedule.
Context {E : Type -> Type} {W : Type} (h : nat -> forall X, E X -> W -> X * W).

Definition turn (t : nat) (c : pool E W) : pool E W :=
  match threads c !! t with
  | Some (Vis e k) =>
      mkPool (snd (h t _ e (shared c))) (<[t := k (fst (h t _ e (shared c)))]> (threads c))
  | _ => c
  end.

Definition run_schedule (turns : list nat) (c : pool E W) : pool E W := foldl (fun c t => turn t c) c turns.

Lemma run_schedule_steps (step : nat -> forall X, E X -> W -> X -> W -> Prop) env start leave turns c :
  (forall t X e w, step t X e w (fst (h t X e w)) (snd (h t X e w))) ->
  rtc (pool_step step env start leave) c (run_schedule turns c).
Proof.
  intros Hh. revert c. induction turns as [|t turns IH]; intros c; [done|]. cbn [run_schedule foldl].
  etransitivity; [|apply IH]. unfold turn. destruct c as [w ts]. cbn [threads shared].
  destruct (ts !! t) as [[a|X e k]|] eqn:Et; [done| |done]. apply rtc_once. by eapply pool_run.
Qed.
End Schedule.
