(* ===== verification/Capacity.v ===== *)
(** * The capacity tables

    [forge/api/internal/store/store_capacity.go], [store_reservations.go] and
    [store_instances.go]: what a node has, what runs on it, what is promised
    on it, and the SQL statements on these tables as functions.  The
    constraints of the schema are part of the statements: primary keys, foreign
    keys, the unique index and the status check of [instances], the enums of
    [placement_reservations], and the 4-byte integers of the columns and casts.

    A statement is a function of the database clock ([now()], the start of its
    transaction) and of the tables; one transaction whose statements all
    concern rows it locks is one function.  [CreatePlacementReservation] is
    not: between its two reads other sessions may commit, and this is its
    argument [between]. *)
From Stdlib Require Import ZArith Lia Floats.SpecFloat.
From stdpp Require Import base gmap strings list fin_maps.
From coqutil Require Import Datatypes.RecordSettersUsingExistingGetters.
From S2P Require Import Prelude GoStrings GoSort.
Import RecordSetNotations1.
#[local] Open Scope string_scope.
#[local] Open Scope list_scope.
#[local] Open Scope Z_scope.
#[local] Open Scope go_scope.

(** ** Errors

    Callers tell the reservation errors apart with [errors.Is]; the rest are
    texts. *)
(* go: store/store_reservations.go L17-29 *)
Inductive StoreError :=
| ErrReservationNodeNotFound
| ErrReservationServerBusy
| ErrReservationMigrationBusy
| ErrReservationCapacityExceeded (detail : string)
| ErrText (msg : string).

Definition store_error_text (e : StoreError) : string :=
  match e with
  | ErrReservationNodeNotFound => "node not found"
  | ErrReservationServerBusy => "server already has an active placement reservation"
  | ErrReservationMigrationBusy => "migration already has an active placement reservation"
  | ErrReservationCapacityExceeded detail =>
      cat ["reserved capacity exceeds available capacity"; detail]
  | ErrText msg => msg
  end.

Inductive answer (A : Type) : Type :=
| Got (a : A)
| Failed (e : StoreError).
Arguments Got {A} a.
Arguments Failed {A} e.

Definition abind {A B} (m : answer A) (k : A -> answer B) : answer B :=
  match m with Got a => k a | Failed e => Failed e end.

Notation "'let+' x := m 'in' k" := (abind m (fun x => k))
  (at level 200, x binder, m at level 200, k at level 200, only parsing) : go_scope.

Definition ErrNoRows : StoreError := ErrText "no rows in result set".
Definition ErrUnique : StoreError := ErrText "duplicate key value violates unique constraint".
Definition ErrForeignKey : StoreError := ErrText "insert or update violates foreign key constraint".
Definition ErrCheck : StoreError := ErrText "new row violates check constraint".
Definition ErrEnum : StoreError := ErrText "invalid input value for enum".
Definition ErrRange : StoreError := ErrText "integer out of range".

(** The 4-byte integers of the database. *)
Definition int4 (z : Z) : bool := (-2147483648 <=? z) && (z <=? 2147483647).
Definition cast_int4 (z : Z) : answer Z := if int4 z then Got z else Failed ErrRange.

(** ** Rows *)

(* go: store/store_instances.go type:ReplicaApplication *)
Record ReplicaApplication := mkReplicaApplication {
  ra_ID : string;
  ra_Name : string;
  ra_Replicas : Z;
  ra_CPU : Z;
  ra_MemoryMB : Z;
  ra_DiskMB : Z;
  ra_RuntimeProvider : string;
  ra_Image : string;
  ra_Status : string;
  ra_Generation : Z;
  ra_CreatedAt : Time;
  ra_UpdatedAt : Time
}.

(* go: store/store_instances.go type:CreateReplicaAppRequest *)
Record CreateReplicaAppRequest := mkCreateReplicaAppRequest {
  ca_Name : string;
  ca_Replicas : Z;
  ca_CPU : Z;
  ca_MemoryMB : Z;
  ca_DiskMB : Z;
  ca_RuntimeProvider : string;
  ca_Image : string
}.

(** The last field is the column [replacement_attempts], which the Go struct
    does not read. *)
(* go: store/store_instances.go type:Instance *)
Record Instance := mkInstance {
  in_ID : string;
  in_AppID : string;
  in_Idx : Z;
  in_NodeID : string;
  in_Status : string;
  in_CPU : Z;
  in_MemoryMB : Z;
  in_DiskMB : Z;
  in_AllocationID : option string;
  in_PlacementID : string;
  in_ReservationID : option string;
  in_RuntimeProvider : string;
  in_CreatedAt : Time;
  in_UpdatedAt : Time;
  in_attempts : Z
}.

(* go: store/store_instances.go type:PlacementDecision *)
Record PlacementDecision := mkPlacementDecision {
  pd_ID : string;
  pd_InstanceID : string;
  pd_NodeID : string;
  pd_AppID : string;
  pd_Idx : Z;
  pd_Score : spec_float;
  pd_Accepted : bool;
  pd_Reasons : list string;
  pd_RuntimeProvider : string;
  pd_CreatedAt : Time;
  pd_TenantID : option string
}.

(* go: store/store.go type:CreatePlacementReservationRequest *)
Record CreatePlacementReservationRequest := mkReservationRequest {
  rr_ServerID : string;
  rr_NodeID : string;
  rr_MigrationID : string;
  rr_ReservationType : string;
  rr_Status : string;
  rr_ReservedBy : string;
  rr_CPU : Z;
  rr_Memory : Z;
  rr_Disk : Z;
  rr_ExpiresAt : Time
}.

(* go: store/store.go type:PlacementReservation *)
Record PlacementReservation := mkReservation {
  pr_ID : string;
  pr_ServerID : option string;
  pr_NodeID : string;
  pr_MigrationID : option string;
  pr_ReservationType : string;
  pr_Status : string;
  pr_ReservedBy : string;
  pr_CPU : Z;
  pr_Memory : Z;
  pr_Disk : Z;
  pr_ExpiresAt : Time;
  pr_ConfirmedAt : option Time;
  pr_CancelledAt : option Time;
  pr_ExpiredAt : option Time;
  pr_UsedAt : option Time;
  pr_CreatedAt : Time;
  pr_UpdatedAt : Time
}.

(* go: store/store.go type:ReservedCapacity *)
Record ReservedCapacity := mkReserved {
  rc_NodeID : string;
  rc_CPU : Z;
  rc_Memory : Z;
  rc_Disk : Z;
  rc_Reserved : Z
}.

(* go: store/store_capacity.go type:NodeCapacitySnapshot *)
Record NodeCapacitySnapshot := mkSnapshot {
  ns_NodeID : string;
  ns_RegionID : string;
  ns_TotalCPU : Z;
  ns_TotalMemory : Z;
  ns_TotalDisk : Z;
  ns_AllocatedCPU : Z;
  ns_AvailableCPU : Z;
  ns_AllocatedMemory : Z;
  ns_AvailableMemory : Z;
  ns_AllocatedDisk : Z;
  ns_AvailableDisk : Z;
  ns_ServerCount : Z;
  ns_UpdatedAt : Time
}.

(** The columns of [nodes], [regions], [allocations] and [servers] the modelled
    code reads; [None] is NULL. *)
Record NodeRow := mkNodeRow {
  nd_ID : string;
  nd_Name : string;
  nd_RegionID : option string;
  nd_cpu_threads : option Z;
  nd_node_memory_mb : option Z;
  nd_memory_mb : option Z;
  nd_node_disk_mb : option Z;
  nd_disk_mb : option Z;
  nd_ActualState : string;
  nd_DesiredState : string;
  nd_Maintenance : bool;
  nd_Draining : bool;
  nd_RuntimeProvider : string;
  nd_HeartbeatState : string
}.

Record RegionRow := mkRegionRow {
  rg_ID : string;
  rg_Slug : string;
  rg_Name : string;
  rg_Enabled : bool
}.

Record AllocationRow := mkAllocationRow {
  al_ID : string;
  al_NodeID : string;
  al_Port : Z;
  al_ServerID : option string
}.

Record ServerRow := mkServerRow {
  sv_ID : string;
  sv_NodeID : string;
  sv_Status : string;
  sv_cpu_shares : Z;
  sv_memory_mb : Z;
  sv_disk_mb : Z;
  sv_DesiredState : string;
  sv_ActualState : string;
  sv_Suspended : bool;
  sv_TransferState : string;
  sv_Installed : bool;
  sv_ConfigSyncPending : bool;
  sv_desired_generation : Z;
  sv_observed_generation : Z;
  sv_CreatedAt : Time
}.

(** The rows keyed by their primary keys.  Of [migrations], [users] and
    [migration_allocation_reservations] only the keys are kept, of [eggs] the
    default memory and the first image. *)
Record Db := mkDb {
  db_nodes : gmap string NodeRow;
  db_regions : list RegionRow;
  db_allocations : gmap string AllocationRow;
  db_reserved_allocations : gset string;
  db_users : gset string;
  db_eggs : gmap string (Z * string);
  db_servers : gmap string ServerRow;
  db_migrations : gset string;
  db_apps : gmap string ReplicaApplication;
  db_instances : gmap string Instance;
  db_reservations : gmap string PlacementReservation;
  db_decisions : list PlacementDecision
}.

(** ** Sums over a table *)

Definition msum {A} (f : A -> Z) (m : gmap string A) : Z := map_fold (fun _ a acc => f a + acc) 0 m.

Definition count {A} (_ : A) : Z := 1.

(** [SUM(f) FILTER (WHERE p)] *)
Definition where_ {A} (p : A -> bool) (f : A -> Z) (a : A) : Z := if p a then f a else 0.

(** ** Capacity of a node *)

Definition occupies (s : string) (i : Instance) : bool :=
  (in_NodeID i =? s)%string &&
  negb ((in_Status i =? "removing") || (in_Status i =? "failed"))%string.

Definition deployed_on (n : string) (s : ServerRow) : bool :=
  (sv_NodeID s =? n)%string && negb (sv_Status s =? "deleted")%string.

(** The sums over [servers] and [instances], each cast to [int], and their sum. *)
Definition allocated (f : ServerRow -> Z) (g : Instance -> Z) (nodeID : string) (db : Db) : answer Z :=
  let+ a := cast_int4 (msum (where_ (deployed_on nodeID) f) (db_servers db)) in
  let+ b := cast_int4 (msum (where_ (occupies nodeID) g) (db_instances db)) in
  cast_int4 (a + b).

(** [status IN ('pending', 'active') AND expires_at > now()] *)
Definition open_status (s : string) : bool := ((s =? "pending") || (s =? "active"))%string.
Definition live (now : Time) (r : PlacementReservation) : bool :=
  open_status (pr_Status r) && After (pr_ExpiresAt r) now.

Definition held_on (n : string) (now : Time) (r : PlacementReservation) : bool :=
  (pr_NodeID r =? n)%string && live now r.

(* go: store/store_reservations.go func:Store.activeReservedCapacity *)
Definition activeReservedCapacity (nodeID : string) (now : Time) (db : Db) : answer ReservedCapacity :=
  let sum f := cast_int4 (msum (where_ (held_on nodeID now) f) (db_reservations db)) in
  let+ cpu := sum pr_CPU in
  let+ memory := sum pr_Memory in
  let+ disk := sum pr_Disk in
  Got (mkReserved "" cpu memory disk 0).

(* go: store/store_reservations.go func:Store.ActiveReservedCapacity *)
Definition ActiveReservedCapacity := activeReservedCapacity.

(* go: store/store_capacity.go func:availableResource *)
Definition availableResource (total allocated : Z) : Z :=
  if total <=? 0 then 0
  else let available := total -i allocated in if available <? 0 then 0 else available.

(** [COALESCE(NULLIF(a, 0), b, 0)] *)
Definition coalesce_nonzero (a b : option Z) : Z :=
  match a with Some z => if z =? 0 then default 0 b else z | None => default 0 b end.

Definition total_cpu (n : NodeRow) : Z := default 0 (nd_cpu_threads n) *i 1024.
Definition total_memory (n : NodeRow) : Z := coalesce_nonzero (nd_node_memory_mb n) (nd_memory_mb n).
Definition total_disk (n : NodeRow) : Z := coalesce_nonzero (nd_node_disk_mb n) (nd_disk_mb n).

(** The row of the query shared by the three snapshots: the totals and what is
    allocated, before what is reserved. *)
(* go: store/store_capacity.go L54-90 *)
Definition scan_capacity (now : Time) (db : Db) (n : NodeRow) : answer NodeCapacitySnapshot :=
  let+ cpu := allocated sv_cpu_shares in_CPU (nd_ID n) db in
  let+ memory := allocated sv_memory_mb in_MemoryMB (nd_ID n) db in
  let+ disk := allocated sv_disk_mb in_DiskMB (nd_ID n) db in
  let+ servers := allocated count count (nd_ID n) db in
  Got (mkSnapshot (nd_ID n) (default "" (nd_RegionID n)) (total_cpu n) (total_memory n) (total_disk n)
         cpu 0 memory 0 disk 0 servers now).

(* go: store/store_capacity.go L91-98 *)
Definition with_reserved (reserved : ReservedCapacity) (s : NodeCapacitySnapshot) : NodeCapacitySnapshot :=
  s <| ns_AvailableCPU := availableResource (ns_TotalCPU s) (ns_AllocatedCPU s +i rc_CPU reserved) |>
    <| ns_AvailableMemory := availableResource (ns_TotalMemory s) (ns_AllocatedMemory s +i rc_Memory reserved) |>
    <| ns_AvailableDisk := availableResource (ns_TotalDisk s) (ns_AllocatedDisk s +i rc_Disk reserved) |>.

(** The two statements may read different states of the tables: [db1] for what
    is allocated, [db2] for what is reserved. *)
(* go: store/store_capacity.go func:Store.nodeCapacitySnapshotTx *)
Definition nodeCapacitySnapshotTx (nodeID : string) (now : Time) (db1 db2 : Db)
    : answer NodeCapacitySnapshot :=
  match db_nodes db1 !! nodeID with
  | None => Failed ErrNoRows
  | Some n =>
      let+ snapshot := scan_capacity now db1 n in
      let+ reserved := activeReservedCapacity nodeID now db2 in
      Got (with_reserved reserved snapshot)
  end.

(* go: store/store_capacity.go func:Store.NodeCapacitySnapshot *)
Definition NodeCapacitySnapshot_ (nodeID : string) (now now' : Time) (db1 db2 : Db) :=
  match db_nodes db1 !! nodeID with
  | None => Failed ErrNoRows
  | Some n =>
      let+ snapshot := scan_capacity now db1 n in
      let+ reserved := activeReservedCapacity nodeID now' db2 in
      Got (with_reserved reserved snapshot)
  end.

(** [FOR UPDATE] adds the row's lock to the first statement; it answers the same. *)
(* go: store/store_capacity.go func:Store.lockedNodeCapacitySnapshotTx *)
Definition lockedNodeCapacitySnapshotTx := nodeCapacitySnapshotTx.

(* go: store/store_capacity.go func:Store.LockNodeCapacitySnapshot *)
Definition LockNodeCapacitySnapshot := lockedNodeCapacitySnapshotTx.

Fixpoint amap {A B} (f : A -> answer B) (l : list A) : answer (list B) :=
  match l with
  | [] => Got []
  | a :: l => let+ b := f a in let+ bs := amap f l in Got (b :: bs)
  end.

Definition by_name (a b : NodeRow) : bool := str_lt (nd_Name a) (nd_Name b).

Definition values {A} (m : gmap string A) : list A := map snd (map_to_list m).

Lemma elem_of_values {A} (x : A) m : x ∈ values m <-> exists k, m !! k = Some x.
Proof.
  unfold values. rewrite list_elem_of_fmap. split.
  - intros ([k y] & -> & H%elem_of_map_to_list). by exists k.
  - intros [k H]. exists (k, x). split; [done|]. by apply elem_of_map_to_list.
Qed.

(** [later i] is the state of the tables when the [i]-th reserved sum is read. *)
(* go: store/store_capacity.go func:Store.RegionCapacitySnapshots *)
Definition RegionCapacitySnapshots (regionID : string) (now : Time) (db : Db)
    (later : nat -> Time * Db) : answer (list NodeCapacitySnapshot) :=
  let in_region n := bool_decide (nd_RegionID n = Some regionID) in
  let+ snapshots := amap (scan_capacity now db) (isort by_name (filter in_region (values (db_nodes db)))) in
  amap (fun '(i, s) =>
          let '(now, db) := later i in
          let+ reserved := activeReservedCapacity (ns_NodeID s) now db in Got (with_reserved reserved s))
       (combine (seq 0 (length snapshots)) snapshots).

Definition by_port (a b : AllocationRow) : bool := al_Port a <? al_Port b.

(* go: store/store_capacity.go func:Store.FindAvailableAllocation *)
Definition FindAvailableAllocation (nodeID : string) (db : Db) : answer AllocationRow :=
  let free a := (al_NodeID a =? nodeID)%string && bool_decide (al_ServerID a = None) &&
                bool_decide (al_ID a ∉ db_reserved_allocations db) in
  match isort by_port (filter (fun a => free a = true) (values (db_allocations db))) with
  | a :: _ => Got a
  | [] => Failed (ErrText "no available allocation on selected node")
  end.

(** ** Reservations *)

(* go: store/store.go L2119-2129 *)
Inductive PlacementReservationStatus :=
| ReservationPending | ReservationActive | ReservationCompleted | ReservationExpired
| ReservationCancelled | ReservationCanceled | ReservationUsed.

Definition reservation_status (s : PlacementReservationStatus) : string :=
  match s with
  | ReservationPending => "pending"
  | ReservationActive => "active"
  | ReservationCompleted => "completed"
  | ReservationExpired => "expired"
  | ReservationCancelled => "cancelled"
  | ReservationCanceled => "canceled"
  | ReservationUsed => "used"
  end.

(** The enums of the schema. *)
Definition reservation_statuses : list string := ["pending"; "active"; "completed"; "expired"; "cancelled"].
(* go: store/store.go L2131-2138 *)
Definition reservation_types : list string := ["placement"; "migration"; "recovery"; "evacuation"].

Definition expire (now : Time) (r : PlacementReservation) : PlacementReservation :=
  r <| pr_Status := "expired" |> <| pr_ExpiredAt := Some now |> <| pr_UpdatedAt := now |>.

Definition overdue (now : Time) (r : PlacementReservation) : bool :=
  open_status (pr_Status r) && negb (After (pr_ExpiresAt r) now).

(** [UPDATE placement_reservations SET status = 'expired' ... WHERE ... expires_at <= now()] *)
Definition expire_overdue (now : Time) (db : Db) : Db :=
  db <| db_reservations := (fun r => if overdue now r then expire now r else r) <$> db_reservations db |>.

Definition nullable (s : string) : option string := if (s =? "")%string then None else Some s.

(** [EXISTS(SELECT 1 ... WHERE p AND status IN (...) AND expires_at > now())] *)
Definition exists_live (now : Time) (p : PlacementReservation -> bool) (db : Db) : bool :=
  existsb (fun r => p r && live now r) (values (db_reservations db)).

(** The insert with the constraints of the table. *)
Definition insert_reservation (r : PlacementReservation) (db : Db) : answer Db :=
  if bool_decide (is_Some (db_reservations db !! pr_ID r)) then Failed ErrUnique
  else if negb (slices_contains reservation_types (pr_ReservationType r)) then Failed ErrEnum
  else if negb (slices_contains reservation_statuses (pr_Status r)) then Failed ErrEnum
  else if negb (int4 (pr_CPU r) && int4 (pr_Memory r) && int4 (pr_Disk r)) then Failed ErrRange
  else if negb (bool_decide (is_Some (db_nodes db !! pr_NodeID r))) then Failed ErrForeignKey
  else if match pr_ServerID r with
          | Some s => negb (bool_decide (is_Some (db_servers db !! s))) | None => false end
  then Failed ErrForeignKey
  else if match pr_MigrationID r with
          | Some m => negb (bool_decide (m ∈ db_migrations db)) | None => false end
  then Failed ErrForeignKey
  else Got (db <| db_reservations := <[pr_ID r := r]> (db_reservations db) |>).

(* go: store/store_reservations.go func:Store.GetPlacementReservation *)
Definition GetPlacementReservation (reservationID : string) (db : Db) : answer PlacementReservation :=
  match db_reservations db !! reservationID with Some r => Got r | None => Failed ErrNoRows end.

(* go: store/store_reservations.go L32-53 *)
Definition reservation_request (wall : Time) (req : CreatePlacementReservationRequest)
    : answer CreatePlacementReservationRequest :=
  if (rr_NodeID req =? "")%string then Failed (ErrText "nodeId is required")
  else if (rr_CPU req <? 0) || (rr_Memory req <? 0) || (rr_Disk req <? 0)
  then Failed (ErrText "reservation capacity must not be negative")
  else if (rr_CPU req =? 0) && (rr_Memory req =? 0) && (rr_Disk req =? 0)
  then Failed (ErrText "reservation must request capacity")
  else
    let req := if (rr_ReservationType req =? "")%string
               then req <| rr_ReservationType := "placement" |> else req in
    let req := if (rr_Status req =? "")%string then req <| rr_Status := "active" |> else req in
    Got (if rr_ExpiresAt req =? zeroTime then req <| rr_ExpiresAt := time_add wall (10 * Minute) |> else req).

(** What the capacity check refuses, in the order of the code. *)
(* go: store/store_reservations.go L110-118 *)
Definition check_capacity (req : CreatePlacementReservationRequest) (capacity : NodeCapacitySnapshot)
    : answer unit :=
  let over what available requested unit_ :=
    Failed (ErrReservationCapacityExceeded
      (cat [": "; what; " available "; itoa available; unit_; ", requested "; itoa requested; unit_])) in
  if (0 <? rr_CPU req) && (ns_AvailableCPU capacity <? rr_CPU req)
  then over "cpu" (ns_AvailableCPU capacity) (rr_CPU req) ""
  else if (0 <? rr_Memory req) && (ns_AvailableMemory capacity <? rr_Memory req)
  then over "memory" (ns_AvailableMemory capacity) (rr_Memory req) " MB"
  else if (0 <? rr_Disk req) && (ns_AvailableDisk capacity <? rr_Disk req)
  then over "disk" (ns_AvailableDisk capacity) (rr_Disk req) " MB"
  else Got tt.

(** The transaction: overdue reservations expire, the node's row is locked,
    the server and the migration must have no live reservation, and what is
    left on the node must do.  [wall] is the process's clock, [now] the
    transaction's; [between] is what other sessions commit between the two
    reads of the capacity.  An error rolls everything back. *)
(* go: store/store_reservations.go func:Store.CreatePlacementReservation *)
Definition CreatePlacementReservation (req : CreatePlacementReservationRequest) (id : string)
    (wall now : Time) (between : Db -> Db) (db : Db) : answer PlacementReservation * Db :=
  let rollback e := (Failed e, between db) in
  match reservation_request wall req with
  | Failed e => (Failed e, db)
  | Got req =>
      let db1 := expire_overdue now db in
      match db_nodes db1 !! rr_NodeID req with
      | None => rollback ErrReservationNodeNotFound
      | Some _ =>
          if negb (rr_ServerID req =? "")%string &&
             exists_live now (fun r => bool_decide (pr_ServerID r = Some (rr_ServerID req))) db1
          then rollback ErrReservationServerBusy
          else if negb (rr_MigrationID req =? "")%string &&
                  exists_live now (fun r => bool_decide (pr_MigrationID r = Some (rr_MigrationID req))) db1
          then rollback ErrReservationMigrationBusy
          else
            let db2 := between db1 in
            match (let+ capacity := nodeCapacitySnapshotTx (rr_NodeID req) now db1 db2 in
                   let+ _ := check_capacity req capacity in
                   let+ db3 := insert_reservation
                     (mkReservation id (nullable (rr_ServerID req)) (rr_NodeID req)
                        (nullable (rr_MigrationID req)) (rr_ReservationType req) (rr_Status req) ""
                        (rr_CPU req) (rr_Memory req) (rr_Disk req) (rr_ExpiresAt req)
                        None None None None now now) db2 in
                   Got db3) with
            | Failed e => rollback e
            | Got db3 => (GetPlacementReservation id db3, db3)
            end
      end
  end.

(** ** Transitions of a reservation *)

Definition close_reservation (status : string) (now : Time) (r : PlacementReservation) : PlacementReservation :=
  r <| pr_Status := status |> <| pr_UpdatedAt := now |>
    <| pr_ConfirmedAt := if (status =? "completed")%string then Some now else pr_ConfirmedAt r |>
    <| pr_CancelledAt := if (status =? "cancelled")%string then Some now else pr_CancelledAt r |>
    <| pr_ExpiredAt := if (status =? "expired")%string then Some now else pr_ExpiredAt r |>.

(* go: store/store_reservations.go func:Store.UpdatePlacementReservationStatus *)
Definition UpdatePlacementReservationStatus (reservationID status : string) (now : Time) (db : Db)
    : answer PlacementReservation * Db :=
  if negb (slices_contains reservation_statuses status) then (Failed ErrEnum, db)
  else
    match db_reservations db !! reservationID with
    | Some r =>
        if open_status (pr_Status r) then
          let r := close_reservation status now r in
          (Got r, db <| db_reservations := <[reservationID := r]> (db_reservations db) |>)
        else (Failed (ErrText "reservation not found or already terminal"), db)
    | None => (Failed (ErrText "reservation not found or already terminal"), db)
    end.

(** [UPDATE ... WHERE p RETURNING id], each row then read again.  The rows come
    in no specified order. *)
Definition update_where (p : PlacementReservation -> bool) (f : PlacementReservation -> PlacementReservation)
    (db : Db) : list PlacementReservation * Db :=
  let hit := filter (fun r => p r = true) (values (db_reservations db)) in
  (map f hit, db <| db_reservations := (fun r => if p r then f r else r) <$> db_reservations db |>).

(* go: store/store_reservations.go func:Store.ExpirePlacementReservations *)
Definition ExpirePlacementReservations (now : Time) (db : Db) : answer (list PlacementReservation) * Db :=
  let r := update_where (overdue now) (expire now) db in (Got (fst r), snd r).

(* go: store/store_reservations.go func:Store.UpdatePlacementReservationsForMigration *)
Definition UpdatePlacementReservationsForMigration (migrationID status : string) (now : Time) (db : Db)
    : answer (list PlacementReservation) * Db :=
  if negb (slices_contains reservation_statuses status) then (Failed ErrEnum, db)
  else
    let r := update_where
      (fun r => bool_decide (pr_MigrationID r = Some migrationID) && open_status (pr_Status r))
      (close_reservation status now) db in
    (Got (fst r), snd r).

Definition newest_first (a b : PlacementReservation) : bool :=
  (pr_CreatedAt b <? pr_CreatedAt a) ||
  ((pr_CreatedAt a =? pr_CreatedAt b) && str_lt (pr_ID a) (pr_ID b)).

(* go: store/store_reservations.go func:Store.ListPlacementReservations *)
Definition ListPlacementReservations (db : Db) : answer (list PlacementReservation) :=
  Got (isort newest_first (values (db_reservations db))).

(* go: store/store_reservations.go func:Store.PlacementReservationsTotal *)
Definition PlacementReservationsTotal (db : Db) : Z := Z.of_nat (size (db_reservations db)).

(** ** Applications *)

Definition positive_or (d z : Z) : Z := if z <=? 0 then d else z.

(* go: store/store_instances.go func:Store.GetReplicaApp *)
Definition GetReplicaApp (id : string) (db : Db) : answer ReplicaApplication :=
  match db_apps db !! id with Some a => Got a | None => Failed ErrNoRows end.

(* go: store/store_instances.go func:Store.CreateReplicaApp *)
Definition CreateReplicaApp (req : CreateReplicaAppRequest) (id : string) (now : Time) (db : Db)
    : answer ReplicaApplication * Db :=
  let replicas := if ca_Replicas req <? 1 then 1 else ca_Replicas req in
  let cpu := positive_or 1024 (ca_CPU req) in
  let memory := positive_or 2048 (ca_MemoryMB req) in
  let disk := positive_or 10240 (ca_DiskMB req) in
  let provider := if (ca_RuntimeProvider req =? "")%string then "docker" else ca_RuntimeProvider req in
  let image := if (ca_Image req =? "")%string then "nginx:alpine" else ca_Image req in
  if negb (int4 replicas && int4 cpu && int4 memory && int4 disk) then (Failed ErrRange, db)
  else if bool_decide (is_Some (db_apps db !! id)) then (Failed ErrUnique, db)
  else
    let a := mkReplicaApplication id (ca_Name req) replicas cpu memory disk provider image
               "pending" 0 now now in
    (Got a, db <| db_apps := <[id := a]> (db_apps db) |>).

Definition app_by_name (a b : ReplicaApplication) : bool := str_lt (ra_Name a) (ra_Name b).

(* go: store/store_instances.go func:Store.ListReplicaApps *)
Definition ListReplicaApps (db : Db) : answer (list ReplicaApplication) :=
  Got (isort app_by_name (values (db_apps db))).

(** [UPDATE replica_applications ... WHERE id = $1], then the row read again:
    an absent row is not an error of the update. *)
Definition update_app (id : string) (f : ReplicaApplication -> ReplicaApplication) (db : Db)
    : answer ReplicaApplication * Db :=
  let db := db <| db_apps := alter f id (db_apps db) |> in (GetReplicaApp id db, db).

(* go: store/store_instances.go func:Store.UpdateReplicaAppReplicas *)
Definition UpdateReplicaAppReplicas (appID : string) (replicas : Z) (now : Time) (db : Db)
    : answer ReplicaApplication * Db :=
  if replicas <? 0 then (Failed (ErrText "replicas must be non-negative"), db)
  else if negb (int4 replicas) then (Failed ErrRange, db)
  else update_app appID (fun a => a <| ra_Replicas := replicas |> <| ra_UpdatedAt := now |>) db.

(* go: store/store_instances.go func:Store.UpdateReplicaAppStatus *)
Definition UpdateReplicaAppStatus (appID status : string) (now : Time) (db : Db)
    : answer ReplicaApplication * Db :=
  update_app appID (fun a => a <| ra_Status := status |> <| ra_UpdatedAt := now |>) db.

(* go: store/store_instances.go func:Store.IncrementReplicaAppGeneration *)
Definition IncrementReplicaAppGeneration (appID : string) (now : Time) (db : Db) : answer Z * Db :=
  match db_apps db !! appID with
  | None => (Failed ErrNoRows, db)
  | Some a =>
      let gen := ra_Generation a + 1 in
      if negb (int4 gen) then (Failed ErrRange, db)
      else (Got gen, db <| db_apps :=
              <[appID := a <| ra_Generation := gen |> <| ra_UpdatedAt := now |>]> (db_apps db) |>)
  end.

(** The foreign keys of [instances] and [placement_decisions] cascade. *)
(* go: store/store_instances.go func:Store.DeleteReplicaApp *)
Definition DeleteReplicaApp (appID : string) (db : Db) : answer unit * Db :=
  let kept := filter (fun p => in_AppID (snd p) <> appID) (db_instances db) in
  (Got tt, db <| db_apps := delete appID (db_apps db) |>
              <| db_instances := kept |>
              <| db_decisions := filter (fun d => pd_AppID d <> appID /\ is_Some (kept !! pd_InstanceID d))
                                   (db_decisions db) |>).

(** ** Instances *)

(** [CHECK (status IN (...))] *)
Definition instance_statuses : list string :=
  ["pending"; "provisioning"; "running"; "stopped"; "failed"; "removing"].

(* go: store/store_instances.go func:Store.GetInstance *)
Definition GetInstance (id : string) (db : Db) : answer Instance :=
  match db_instances db !! id with Some i => Got i | None => Failed ErrNoRows end.

Definition insert_instance (i : Instance) (db : Db) : answer Db :=
  if negb (int4 (in_Idx i) && int4 (in_CPU i) && int4 (in_MemoryMB i) && int4 (in_DiskMB i))
  then Failed ErrRange
  else if bool_decide (is_Some (db_instances db !! in_ID i)) then Failed ErrUnique
  else if existsb (fun j => (in_AppID j =? in_AppID i)%string && (in_Idx j =? in_Idx i))
            (values (db_instances db)) then Failed ErrUnique
  else if negb (bool_decide (is_Some (db_apps db !! in_AppID i))) then Failed ErrForeignKey
  else if negb (bool_decide (is_Some (db_nodes db !! in_NodeID i))) then Failed ErrForeignKey
  else Got (db <| db_instances := <[in_ID i := i]> (db_instances db) |>).

(** The two ids are fresh UUIDs.  In a transaction the row is visible to the
    others when it commits. *)
(* go: store/store_instances.go func:Store.CreateInstance *)
Definition CreateInstance (appID nodeID : string) (idx cpu memoryMB diskMB : Z) (runtimeProvider : string)
    (id placementID : string) (now : Time) (db : Db) : answer Instance * Db :=
  let provider := if (runtimeProvider =? "")%string then "docker" else runtimeProvider in
  let i := mkInstance id appID idx nodeID "pending" cpu memoryMB diskMB None placementID None
             provider now now 0 in
  match insert_instance i db with
  | Failed e => (Failed e, db)
  | Got db => (GetInstance id db, db)
  end.

(* go: store/store_instances.go func:Store.GetInstanceReplacementAttempts *)
Definition GetInstanceReplacementAttempts (id : string) (db : Db) : answer Z :=
  match db_instances db !! id with Some i => Got (in_attempts i) | None => Failed ErrNoRows end.

(* go: store/store_instances.go func:Store.IncrementInstanceReplacementAttempts *)
Definition IncrementInstanceReplacementAttempts (id : string) (now : Time) (db : Db) : answer Z * Db :=
  match db_instances db !! id with
  | None => (Failed ErrNoRows, db)
  | Some i =>
      let n := in_attempts i + 1 in
      if negb (int4 n) then (Failed ErrRange, db)
      else (Got n, db <| db_instances :=
              <[id := i <| in_attempts := n |> <| in_UpdatedAt := now |>]> (db_instances db) |>)
  end.

(** [UPDATE instances SET ... WHERE id = $1] of columns without constraints. *)
Definition update_instance (id : string) (f : Instance -> Instance) (db : Db) : Db :=
  db <| db_instances := alter f id (db_instances db) |>.

(* go: store/store_instances.go func:Store.ResetInstanceReplacementAttempts *)
Definition ResetInstanceReplacementAttempts (id : string) (now : Time) (db : Db) : answer unit * Db :=
  (Got tt, update_instance id (fun i => i <| in_attempts := 0 |> <| in_UpdatedAt := now |>) db).

Definition by_idx (a b : Instance) : bool := in_Idx a <? in_Idx b.
Definition by_created (a b : Instance) : bool := in_CreatedAt a <? in_CreatedAt b.

Definition instances_where (p : Instance -> bool) (db : Db) : list Instance :=
  filter (fun i => p i = true) (values (db_instances db)).

(* go: store/store_instances.go func:Store.ListInstancesByApp *)
Definition ListInstancesByApp (appID : string) (db : Db) : answer (list Instance) :=
  Got (isort by_idx (instances_where (fun i => in_AppID i =? appID)%string db)).

(* go: store/store_instances.go func:Store.ListInstancesByNode *)
Definition ListInstancesByNode (nodeID : string) (db : Db) : answer (list Instance) :=
  Got (isort by_created (instances_where (fun i => in_NodeID i =? nodeID)%string db)).

(* go: store/store_instances.go func:Store.ListRunningInstancesOnNode *)
Definition ListRunningInstancesOnNode (nodeID : string) (db : Db) : answer (list Instance) :=
  Got (isort by_created (instances_where (occupies nodeID) db)).

(* go: store/store_instances.go func:Store.InstanceCapacityOnNode *)
Definition InstanceCapacityOnNode (nodeID : string) (db : Db) : answer (Z * Z * Z) :=
  let sum f := cast_int4 (msum (where_ (occupies nodeID) f) (db_instances db)) in
  let+ cpu := sum in_CPU in
  let+ memory := sum in_MemoryMB in
  let+ disk := sum in_DiskMB in
  Got (cpu, memory, disk).

(** A status outside the check of the table is refused, but only when there is
    a row to update. *)
(* go: store/store_instances.go func:Store.UpdateInstanceStatus *)
Definition UpdateInstanceStatus (id status : string) (now : Time) (db : Db) : answer Instance * Db :=
  if bool_decide (is_Some (db_instances db !! id)) && negb (slices_contains instance_statuses status)
  then (Failed ErrCheck, db)
  else
    let db := update_instance id (fun i => i <| in_Status := status |> <| in_UpdatedAt := now |>) db in
    (GetInstance id db, db).

(* go: store/store_instances.go func:Store.UpdateInstanceNode *)
Definition UpdateInstanceNode (id nodeID : string) (now : Time) (db : Db) : answer Instance * Db :=
  if bool_decide (is_Some (db_instances db !! id)) && negb (bool_decide (is_Some (db_nodes db !! nodeID)))
  then (Failed ErrForeignKey, db)
  else
    let db := update_instance id (fun i => i <| in_NodeID := nodeID |> <| in_UpdatedAt := now |>) db in
    (GetInstance id db, db).

(** [reservation_id] has no foreign key. *)
(* go: store/store_instances.go func:Store.AssignInstanceReservation *)
Definition AssignInstanceReservation (id reservationID : string) (now : Time) (db : Db)
    : answer Instance * Db :=
  let db := update_instance id
    (fun i => i <| in_ReservationID := Some reservationID |> <| in_UpdatedAt := now |>) db in
  (GetInstance id db, db).

(* go: store/store_instances.go func:Store.DeleteInstance *)
Definition DeleteInstance (id : string) (db : Db) : answer unit * Db :=
  (Got tt, db <| db_instances := delete id (db_instances db) |>
              <| db_decisions := filter (fun d => pd_InstanceID d <> id) (db_decisions db) |>).

(** ** Placement decisions *)

(* go: store/store_instances.go func:Store.CreatePlacementDecision *)
Definition CreatePlacementDecision (instanceID nodeID appID : string) (idx : Z) (score : spec_float)
    (accepted : bool) (reasons : list string) (runtimeProvider id : string) (now : Time) (db : Db)
    : answer PlacementDecision * Db :=
  let d := mkPlacementDecision id instanceID nodeID appID idx score accepted reasons runtimeProvider now None in
  if negb (int4 idx) then (Failed ErrRange, db)
  else if existsb (fun e => pd_ID e =? id)%string (db_decisions db) then (Failed ErrUnique, db)
  else if negb (bool_decide (is_Some (db_instances db !! instanceID)) &&
                bool_decide (is_Some (db_nodes db !! nodeID)) &&
                bool_decide (is_Some (db_apps db !! appID))) then (Failed ErrForeignKey, db)
  else (Got d, db <| db_decisions := db_decisions db ++ [d] |>).

Definition decision_newest (a b : PlacementDecision) : bool := pd_CreatedAt b <? pd_CreatedAt a.

(* go: store/store_instances.go func:Store.ListPlacementDecisionsByApp *)
Definition ListPlacementDecisionsByApp (appID : string) (db : Db) : answer (list PlacementDecision) :=
  Got (isort decision_newest (filter (fun d => pd_AppID d = appID) (db_decisions db))).

Definition latest_first (a b : PlacementDecision) : bool :=
  str_lt (pd_InstanceID a) (pd_InstanceID b) ||
  ((pd_InstanceID a =? pd_InstanceID b)%string && decision_newest a b).

(** [DISTINCT ON]: the first row of each group of equal instance ids. *)
Fixpoint first_of_each (l : list PlacementDecision) : list PlacementDecision :=
  match l with
  | a :: ((b :: _) as r) =>
      let rest := first_of_each r in
      if (pd_InstanceID a =? pd_InstanceID b)%string
      then match rest with _ :: t => a :: t | [] => [a] end
      else a :: rest
  | l => l
  end.

(* go: store/store_instances.go func:Store.ListLatestPlacementPerInstance *)
Definition ListLatestPlacementPerInstance (appID : string) (db : Db) : answer (list PlacementDecision) :=
  Got (first_of_each (isort latest_first (filter (fun d => pd_AppID d = appID) (db_decisions db)))).

(** ** Lemmas on sums *)

Lemma msum_empty {A} (f : A -> Z) : msum f ∅ = 0.
Proof. apply map_fold_empty. Qed.

Lemma msum_insert_new {A} (f : A -> Z) (m : gmap string A) k a :
  m !! k = None -> msum f (<[k := a]> m) = f a + msum f m.
Proof. intros H. unfold msum. rewrite map_fold_insert_L; [done|intros; lia|done]. Qed.

Lemma msum_delete {A} (f : A -> Z) (m : gmap string A) k a :
  m !! k = Some a -> msum f m = f a + msum f (delete k m).
Proof.
  intros H. rewrite <- (insert_delete_id m k a H) at 1. apply msum_insert_new, lookup_delete_eq.
Qed.

Lemma msum_delete_none {A} (f : A -> Z) (m : gmap string A) k :
  m !! k = None -> msum f (delete k m) = msum f m.
Proof. intros H. by rewrite delete_id. Qed.

Lemma msum_insert {A} (f : A -> Z) (m : gmap string A) k a :
  msum f (<[k := a]> m) = f a + msum f (delete k m).
Proof. rewrite <- insert_delete_eq. apply msum_insert_new, lookup_delete_eq. Qed.

Lemma msum_update {A} (f : A -> Z) (m : gmap string A) k a b :
  m !! k = Some a -> msum f (<[k := b]> m) = msum f m - f a + f b.
Proof. intros H. rewrite msum_insert, (msum_delete f m k a H). lia. Qed.

Lemma msum_ext {A} (f g : A -> Z) (m : gmap string A) :
  (forall k a, m !! k = Some a -> f a = g a) -> msum f m = msum g m.
Proof.
  induction m as [|k a m Hk IH] using map_ind; intros H; [done|].
  rewrite !msum_insert_new by done. rewrite (H k a) by apply lookup_insert_eq.
  rewrite IH; [done|]. intros k' a' H'. apply (H k'). rewrite lookup_insert_ne; [done|congruence].
Qed.

Lemma msum_le {A} (f g : A -> Z) (m : gmap string A) :
  (forall k a, m !! k = Some a -> f a <= g a) -> msum f m <= msum g m.
Proof.
  induction m as [|k a m Hk IH] using map_ind; intros H; [done|].
  rewrite !msum_insert_new by done. specialize (H k a (lookup_insert_eq m k a)) as Ha.
  assert (msum f m <= msum g m); [|lia].
  apply IH. intros k' a' H'. apply (H k'). rewrite lookup_insert_ne; [done|congruence].
Qed.

Lemma msum_fmap {A B} (f : B -> Z) (g : A -> B) (m : gmap string A) :
  msum f (g <$> m) = msum (fun a => f (g a)) m.
Proof.
  induction m as [|k a m Hk IH] using map_ind; [by rewrite fmap_empty|].
  rewrite fmap_insert, !msum_insert_new, IH; [done|done|]. by rewrite lookup_fmap, Hk.
Qed.

Lemma msum_zero {A} (m : gmap string A) : msum (fun _ => 0) m = 0.
Proof. induction m as [|k a m Hk IH] using map_ind; [done|]. by rewrite msum_insert_new, IH. Qed.

Lemma msum_nonneg {A} (f : A -> Z) (m : gmap string A) :
  (forall k a, m !! k = Some a -> 0 <= f a) -> 0 <= msum f m.
Proof. intros H. rewrite <- (msum_zero m). by apply msum_le. Qed.

(** A row taken out of a sum of non-negative measures leaves no more. *)
Lemma msum_delete_le {A} (f : A -> Z) (m : gmap string A) k :
  (forall k a, m !! k = Some a -> 0 <= f a) -> msum f (delete k m) <= msum f m.
Proof.
  intros H. destruct (m !! k) as [a|] eqn:E; [|by rewrite delete_id].
  rewrite (msum_delete f m k a E). pose proof (H k a E). lia.
Qed.

Lemma msum_subset {A} (f : A -> Z) (m m' : gmap string A) :
  (forall k a, m' !! k = Some a -> 0 <= f a) -> m ⊆ m' -> msum f m <= msum f m'.
Proof.
  revert m'. induction m as [|k a m Hk IH] using map_ind; intros m' Hf Hs.
  { rewrite msum_empty. by apply msum_nonneg. }
  assert (E : m' !! k = Some a) by (apply (lookup_weaken _ _ _ _ (lookup_insert_eq m k a) Hs)).
  rewrite (msum_insert_new f m k a Hk), (msum_delete f m' k a E).
  assert (msum f m <= msum f (delete k m')); [|lia]. apply IH.
  - intros k' a' H'. apply lookup_delete_Some in H' as [_ H']. eauto.
  - apply map_subseteq_spec. intros k' a' H'. rewrite lookup_delete_ne by congruence.
    eapply lookup_weaken; [|exact Hs]. rewrite lookup_insert_ne; [done|congruence].
Qed.

Lemma where_nonneg {A} (p : A -> bool) (f : A -> Z) a : 0 <= f a -> 0 <= where_ p f a.
Proof. unfold where_. destruct (p a); lia. Qed.

(** ** What is committed on a node, per resource *)

Inductive resource := Cpu | Memory | Disk.

Definition server_use (r : resource) : ServerRow -> Z :=
  match r with Cpu => sv_cpu_shares | Memory => sv_memory_mb | Disk => sv_disk_mb end.
Definition instance_use (r : resource) : Instance -> Z :=
  match r with Cpu => in_CPU | Memory => in_MemoryMB | Disk => in_DiskMB end.
Definition reserved_use (r : resource) : PlacementReservation -> Z :=
  match r with Cpu => pr_CPU | Memory => pr_Memory | Disk => pr_Disk end.
Definition requested (r : resource) : CreatePlacementReservationRequest -> Z :=
  match r with Cpu => rr_CPU | Memory => rr_Memory | Disk => rr_Disk end.
Definition total (r : resource) : NodeRow -> Z :=
  match r with Cpu => total_cpu | Memory => total_memory | Disk => total_disk end.
Definition available (r : resource) : NodeCapacitySnapshot -> Z :=
  match r with Cpu => ns_AvailableCPU | Memory => ns_AvailableMemory | Disk => ns_AvailableDisk end.

(** What runs on a node, and what is promised to others. *)
Definition running_load (r : resource) (n : string) (db : Db) : Z :=
  msum (where_ (deployed_on n) (server_use r)) (db_servers db) +
  msum (where_ (occupies n) (instance_use r)) (db_instances db).
Definition promised_load (r : resource) (n : string) (now : Time) (db : Db) : Z :=
  msum (where_ (held_on n now) (reserved_use r)) (db_reservations db).
Definition load (r : resource) (n : string) (now : Time) (db : Db) : Z :=
  running_load r n db + promised_load r n now db.

(** Columns of type [integer], none of them negative. *)
Definition node_ok (n : NodeRow) : Prop :=
  0 <= default 0 (nd_cpu_threads n) <= 2147483647 /\
  0 <= total_memory n <= 2147483647 /\ 0 <= total_disk n <= 2147483647.

Lemma int4_in z : int4 z = true -> -2147483648 <= z <= 2147483647.
Proof. unfold int4. intros H. zb. lia. Qed.

Lemma cast_int4_got z z' : cast_int4 z = Got z' -> z' = z /\ -2147483648 <= z <= 2147483647.
Proof. unfold cast_int4. destruct (int4 z) eqn:E; [|done]. intros [= <-]. split; [done|by apply int4_in]. Qed.

Ltac answers :=
  repeat match goal with
  | H : abind ?m _ = Got _ |- _ => destruct m eqn:?; [cbn [abind] in H|done]
  | H : cast_int4 _ = Got _ |- _ => apply cast_int4_got in H as [? ?]
  | H : Got _ = Got _ |- _ => injection H; clear H; intros; subst
  end.

Lemma allocated_got r n db z :
  allocated (server_use r) (instance_use r) n db = Got z ->
  z = running_load r n db /\ -2147483648 <= z <= 2147483647.
Proof. unfold allocated, running_load. intros H. answers. lia. Qed.

Lemma node_total_in r n : node_ok n -> 0 <= total r n <= 2199023254528.
Proof.
  intros (Hc & Hm & Hd). destruct r; simpl; [|lia..]. unfold total_cpu.
  rewrite imul_exact by (unfold in64, min64, max64; lia). lia.
Qed.

Lemma availableResource_spec t a :
  0 <= t <= 2199023254528 -> -4294967296 <= a <= 4294967296 ->
  availableResource t a = Z.max 0 (t - a) \/ t = 0 /\ availableResource t a = 0.
Proof.
  intros Ht Ha. unfold availableResource. destruct (Z.leb_spec t 0); [right; lia|left].
  rewrite isub_exact by (unfold in64, min64, max64; lia). cbv zeta.
  destruct (Z.ltb_spec (t - a) 0); lia.
Qed.

(** The snapshot answers what is left: of what runs in one state of the tables
    and of what is promised in the other. *)
Lemma snapshot_available n now db1 db2 s row :
  nodeCapacitySnapshotTx n now db1 db2 = Got s -> db_nodes db1 !! n = Some row -> nd_ID row = n ->
  node_ok row -> forall r,
  available r s = Z.max 0 (total r row - (running_load r n db1 + promised_load r n now db2)) \/
  total r row = 0 /\ available r s = 0.
Proof.
  unfold nodeCapacitySnapshotTx. intros H Hr <- Hok. rewrite Hr in H. unfold scan_capacity in H.
  unfold activeReservedCapacity in H. intros k. answers.
  repeat match goal with
  | H : allocated sv_cpu_shares _ _ _ = _ |- _ => apply (allocated_got Cpu) in H as [-> ?]
  | H : allocated sv_memory_mb _ _ _ = _ |- _ => apply (allocated_got Memory) in H as [-> ?]
  | H : allocated sv_disk_mb _ _ _ = _ |- _ => apply (allocated_got Disk) in H as [-> ?]
  end.
  pose proof (node_total_in k row Hok) as Ht.
  assert (Hb : -2147483648 <= running_load k (nd_ID row) db1 <= 2147483647 /\
    -2147483648 <= promised_load k (nd_ID row) now db2 <= 2147483647) by (by destruct k).
  match goal with |- available k ?s = _ \/ _ =>
    replace (available k s) with (availableResource (total k row)
      (running_load k (nd_ID row) db1 +i promised_load k (nd_ID row) now db2)) by (by destruct k) end.
  rewrite iadd_exact by (unfold in64, min64, max64; lia). apply availableResource_spec; lia.
Qed.

(** Evaluates record updates. *)
Ltac recs := cbn; unfold const; cbn.
Tactic Notation "recs" "in" ident(H) := cbn in H; unfold const in H; cbn in H.

(** Rows are stored under their ids, and no row takes a negative amount. *)
Record db_ok (db : Db) : Prop := {
  ok_nodes : forall n row, db_nodes db !! n = Some row -> nd_ID row = n /\ node_ok row;
  ok_servers : forall k s, db_servers db !! k = Some s -> forall r, 0 <= server_use r s;
  ok_instances : forall k i, db_instances db !! k = Some i ->
    in_ID i = k /\ forall r, 0 <= instance_use r i;
  ok_reservations : forall k p, db_reservations db !! k = Some p ->
    pr_ID p = k /\ forall r, 0 <= reserved_use r p
}.

Lemma running_nonneg r n db : db_ok db -> 0 <= running_load r n db.
Proof.
  intros O. unfold running_load.
  assert (0 <= msum (where_ (deployed_on n) (server_use r)) (db_servers db)).
  { apply msum_nonneg. intros k s H. apply where_nonneg. by eapply ok_servers. }
  assert (0 <= msum (where_ (occupies n) (instance_use r)) (db_instances db)); [|lia].
  apply msum_nonneg. intros k s Hk. apply where_nonneg. by eapply ok_instances.
Qed.

Lemma promised_nonneg r n t db : db_ok db -> 0 <= promised_load r n t db.
Proof.
  intros O. apply msum_nonneg. intros k s H. apply where_nonneg. by eapply ok_reservations.
Qed.

Lemma live_expire t now p : now <= t -> overdue now p = true -> live t p = false.
Proof. unfold overdue, live, After. intros H Ho. zb. rewrite andb_false_iff. right. zb. lia. Qed.

Lemma expired_not_live t now p : live t (expire now p) = false.
Proof. done. Qed.

(** Marking what is overdue frees nothing that still counted. *)
Lemma expire_overdue_promised r n t now db :
  now <= t -> promised_load r n t (expire_overdue now db) = promised_load r n t db.
Proof.
  intros H. unfold promised_load, expire_overdue. recs. rewrite msum_fmap.
  apply msum_ext. intros k p _. destruct (overdue now p) eqn:E; [|done].
  unfold where_, held_on. rewrite (expired_not_live t now p), (live_expire t now p H E).
  by rewrite !andb_false_r.
Qed.

Lemma expire_overdue_ok now db : db_ok db -> db_ok (expire_overdue now db).
Proof.
  intros [H1 H2 H3 H4]. split; [done..|]. intros k p H. recs in H. rewrite lookup_fmap in H.
  destruct (db_reservations db !! k) as [q|] eqn:E; [|done]. injection H as <-.
  destruct (H4 k q E) as [Hq Hu]. destruct (overdue now q); [|done].
  split; [done|]. intros r. specialize (Hu r). by destruct r.
Qed.

Lemma overdue_live_or now p : open_status (pr_Status p) = true -> overdue now p = negb (live now p).
Proof. unfold overdue, live. intros ->. done. Qed.

Lemma insert_reservation_got p db db' :
  insert_reservation p db = Got db' ->
  db' = db <| db_reservations := <[pr_ID p := p]> (db_reservations db) |> /\
  db_reservations db !! pr_ID p = None /\ is_Some (db_nodes db !! pr_NodeID p) /\
  pr_Status p ∈ reservation_statuses /\ pr_ReservationType p ∈ reservation_types /\
  (forall s, pr_ServerID p = Some s -> is_Some (db_servers db !! s)) /\
  (forall m, pr_MigrationID p = Some m -> m ∈ db_migrations db).
Proof.
  unfold insert_reservation. case_bool_decide as Hid; [done|].
  destruct (slices_contains reservation_types _) eqn:Ht; [|done].
  destruct (slices_contains reservation_statuses _) eqn:Hst; [|done].
  destruct (int4 _ && int4 _ && int4 _); [|done]. cbn [negb].
  case_bool_decide as Hn; [|done]. cbn [negb].
  apply slices_contains_spec in Ht, Hst.
  intros H. split_and!; try done.
  - destruct (pr_ServerID p); [case_bool_decide; [|done]|]; destruct (pr_MigrationID p);
      try (case_bool_decide; [|done]); cbn in H; congruence.
  - by apply eq_None_not_Some.
  - intros s E. rewrite E in H. case_bool_decide; done.
  - intros m E. rewrite E in H. destruct (pr_ServerID p); [case_bool_decide; [|done]|];
      cbn [negb] in H; case_bool_decide; done.
Qed.

(** What the defaulting of a request keeps and guarantees. *)
Lemma reservation_request_got wall req req' :
  reservation_request wall req = Got req' ->
  rr_NodeID req' = rr_NodeID req /\ rr_ServerID req' = rr_ServerID req /\
  rr_MigrationID req' = rr_MigrationID req /\
  (forall r, requested r req' = requested r req /\ 0 <= requested r req') /\
  (exists r, 0 < requested r req') /\
  (rr_Status req = "" -> rr_Status req' = "active") /\
  (rr_ExpiresAt req = zeroTime -> rr_ExpiresAt req' = wall + 10 * Minute).
Proof.
  unfold reservation_request. destruct (rr_NodeID req =? "")%string; [done|].
  destruct ((_ <? 0) || _ || _) eqn:E1; [done|]. destruct (_ && _ && _) eqn:E2; [done|].
  zb. assert (Hpos : exists r, 0 < requested r req).
  { destruct (Z.eqb_spec (rr_CPU req) 0); [destruct (Z.eqb_spec (rr_Memory req) 0);
      [destruct (Z.eqb_spec (rr_Disk req) 0); [done|exists Disk]|exists Memory]|exists Cpu]; simpl; lia. }
  assert (Hn : forall r, 0 <= requested r req) by (intros []; simpl; lia).
  clear - Hpos Hn. destruct req as [s n m ty st by_ c me d ex].
  recs. destruct (ty =? "")%string; recs; destruct (String.eqb_spec st ""); recs;
    destruct (Z.eqb_spec ex zeroTime); intros [= <-]; split_and!;
    first [done | intros []; (split; [done|]); [apply (Hn Cpu)|apply (Hn Memory)|apply (Hn Disk)]
          | destruct Hpos as [[] Hr]; [by exists Cpu|by exists Memory|by exists Disk]].
Qed.

Lemma check_capacity_got req s u :
  check_capacity req s = Got u -> forall r, 0 < requested r req -> requested r req <= available r s.
Proof.
  unfold check_capacity. destruct (_ && _) eqn:E1; [done|]. destruct ((0 <? rr_Memory req) && _) eqn:E2; [done|].
  destruct ((0 <? rr_Disk req) && _) eqn:E3; [done|].
  intros _ [] H; simpl in *; [apply andb_false_iff in E1 as []|apply andb_false_iff in E2 as []|
    apply andb_false_iff in E3 as []]; zb; lia.
Qed.

Lemma check_capacity_failed req s e :
  check_capacity req s = Failed e ->
  (exists d, e = ErrReservationCapacityExceeded d) /\
  exists r, 0 < requested r req /\ available r s < requested r req.
Proof.
  unfold check_capacity. destruct (_ && _) eqn:E1.
  { zb. intros [= <-]. split; [eauto|]. exists Cpu. done. }
  destruct ((0 <? rr_Memory req) && _) eqn:E2.
  { zb. intros [= <-]. split; [eauto|]. exists Memory. done. }
  destruct ((0 <? rr_Disk req) && _) eqn:E3; [|done].
  zb. intros [= <-]. split; [eauto|]. exists Disk. done.
Qed.

Lemma insert_reservation_error p db e :
  insert_reservation p db = Failed e ->
  e ∈ [ErrUnique; ErrEnum; ErrRange; ErrForeignKey].
Proof.
  unfold insert_reservation. repeat (case_match || case_bool_decide); intros [= <-]; set_solver.
Qed.

Definition new_reservation (req : CreatePlacementReservationRequest) (id : string) (now : Time) :=
  mkReservation id (nullable (rr_ServerID req)) (rr_NodeID req)
    (nullable (rr_MigrationID req)) (rr_ReservationType req) (rr_Status req) ""
    (rr_CPU req) (rr_Memory req) (rr_Disk req) (rr_ExpiresAt req) None None None None now now.

(** The successful run of the transaction, taken apart. *)
Lemma create_got req id wall now between db res db' :
  CreatePlacementReservation req id wall now between db = (Got res, db') ->
  exists req' capacity row, reservation_request wall req = Got req' /\
    db_nodes db !! rr_NodeID req = Some row /\
    let db1 := expire_overdue now db in
    let db2 := between db1 in
    nodeCapacitySnapshotTx (rr_NodeID req) now db1 db2 = Got capacity /\
    check_capacity req' capacity = Got tt /\
    insert_reservation (new_reservation req' id now) db2 = Got db' /\
    res = new_reservation req' id now /\
    (rr_ServerID req <> "" ->
     exists_live now (fun r => bool_decide (pr_ServerID r = Some (rr_ServerID req))) db1 = false) /\
    (rr_MigrationID req <> "" ->
     exists_live now (fun r => bool_decide (pr_MigrationID r = Some (rr_MigrationID req))) db1 = false).
Proof.
  unfold CreatePlacementReservation. destruct (reservation_request wall req) as [req'|e] eqn:Er; [|done].
  destruct (reservation_request_got _ _ _ Er) as (En & Es & Em & _). rewrite En, Es, Em.
  cbv zeta. change (db_nodes (expire_overdue now db)) with (db_nodes db).
  destruct (db_nodes db !! rr_NodeID req) as [row|] eqn:Hrow; [|done].
  destruct (negb (rr_ServerID req =? "")%string && _) eqn:Hs; [done|].
  destruct (negb (rr_MigrationID req =? "")%string && _) eqn:Hm; [done|].
  destruct (nodeCapacitySnapshotTx _ _ _ _) as [capacity|] eqn:Ec; [|done]. cbn [abind].
  destruct (check_capacity req' capacity) as [[]|] eqn:Ek; [|done]. cbn [abind].
  rewrite <- En, <- Es, <- Em. fold (new_reservation req' id now).
  destruct (insert_reservation (new_reservation req' id now) _) as [db3|] eqn:Ei; [|done].
  cbn [abind]. intros [= E1 <-]. exists req', capacity, row. rewrite ?En, ?Es, ?Em in *.
  split_and!; try done.
  - destruct (insert_reservation_got _ _ _ Ei) as [-> _]. unfold GetPlacementReservation in E1. recs in E1.
    rewrite lookup_insert_eq in E1. by injection E1.
  - intros Hne. apply andb_false_iff in Hs as [Hs|]; [|done]. zb. seqb. done.
  - intros Hne. apply andb_false_iff in Hm as [Hm|]; [|done]. zb. seqb. done.
Qed.

Lemma exists_live_false now p db :
  exists_live now p db = false ->
  forall k r, db_reservations db !! k = Some r -> p r = true -> live now r = false.
Proof.
  unfold exists_live. intros H k r Hk Hp. destruct (live now r) eqn:El; [|done].
  assert (existsb (fun r => p r && live now r) (values (db_reservations db)) = true); [|congruence].
  apply existsb_exists. exists r. rewrite Hp, El. split; [|done].
  apply list_elem_of_In, list_elem_of_fmap. exists (k, r). split; [done|]. by apply elem_of_map_to_list.
Qed.

Lemma promised_insert r n t p db :
  db_reservations db !! pr_ID p = None ->
  promised_load r n t (db <| db_reservations := <[pr_ID p := p]> (db_reservations db) |>) =
  promised_load r n t db + where_ (held_on n t) (reserved_use r) p.
Proof. intros H. unfold promised_load. recs. rewrite msum_insert_new by done. lia. Qed.

Lemma reserved_use_new r req id now : reserved_use r (new_reservation req id now) = requested r req.
Proof. by destruct r. Qed.

Lemma snapshot_error n now db1 db2 e :
  nodeCapacitySnapshotTx n now db1 db2 = Failed e -> e = ErrNoRows \/ e = ErrRange.
Proof.
  unfold nodeCapacitySnapshotTx, scan_capacity, activeReservedCapacity, allocated, cast_int4.
  destruct (db_nodes db1 !! n); [|intros [= <-]; auto].
  repeat (case_match; cbn [abind]); intros [= <-]; auto.
Qed.

(** Reservations are not part of what runs. *)
Lemma running_reservations r n db m :
  running_load r n (db <| db_reservations := m |>) = running_load r n db.
Proof. done. Qed.

Lemma create_got_fits db req id wall now res db' :
  db_ok db -> CreatePlacementReservation req id wall now (fun d => d) db = (Got res, db') ->
      db_reservations db' !! id = Some res /\
      (forall r n, load r n now db' =
         load r n now db + if held_on n now res then requested r req else 0) /\
      (forall row, db_nodes db !! rr_NodeID req = Some row -> forall r, 0 < requested r req ->
         load r (rr_NodeID req) now db + requested r req <= total r row) /\
      (forall k p, db_reservations db' !! k = Some p -> live now p = true -> k <> id ->
         (rr_ServerID req <> "" -> pr_ServerID p <> Some (rr_ServerID req)) /\
         (rr_MigrationID req <> "" -> pr_MigrationID p <> Some (rr_MigrationID req))).
Proof.
  intros O E. apply create_got in E as (req' & c & row & Er & Hrow & Hc & Hk & Hi & -> & Hs & Hm).
  apply insert_reservation_got in Hi as (-> & Hnew & _).
  destruct (reservation_request_got _ _ _ Er) as (En & _ & _ & Hreq & _).
  pose proof (expire_overdue_ok now db O) as O1.
  split_and!.
  + recs. by rewrite lookup_insert_eq.
  + intros r n. unfold load. rewrite promised_insert, expire_overdue_promised by done.
    unfold where_. rewrite reserved_use_new. rewrite (proj1 (Hreq r)).
    rewrite running_reservations. unfold expire_overdue. rewrite running_reservations. lia.
  + intros row' Hrow' r Hr. rewrite Hrow in Hrow'. injection Hrow' as <-.
    pose proof (check_capacity_got _ _ _ Hk r) as Ha. rewrite (proj1 (Hreq r)) in Ha.
    destruct (ok_nodes db O _ _ Hrow) as [Hid Hok].
    pose proof (snapshot_available _ _ _ _ _ row Hc Hrow Hid Hok r) as Hav.
    rewrite expire_overdue_promised in Hav by done. unfold load.
    change (running_load r (rr_NodeID req) (expire_overdue now db)) with (running_load r (rr_NodeID req) db) in Hav.
    specialize (Ha Hr). lia.
  + intros k p Hp Hl Hne. recs in Hp. rewrite lookup_insert_ne in Hp by done.
    split; intros Hx Hy; [pose proof (exists_live_false _ _ _ (Hs Hx) k p Hp) as HH
                         |pose proof (exists_live_false _ _ _ (Hm Hx) k p Hp) as HH];
      rewrite Hl in HH; rewrite bool_decide_true in HH by done; by specialize (HH eq_refl).
Qed.

(** An error rolls back. *)
Lemma create_failed_same db req id wall now e db' :
  CreatePlacementReservation req id wall now (fun d => d) db = (Failed e, db') -> db' = db.
Proof.
  unfold CreatePlacementReservation. destruct (reservation_request wall req) as [req'|]; [|by intros [= _ <-]].
  cbv zeta. destruct (db_nodes _ !! _); [|by intros [= _ <-]].
  destruct (_ && _); [by intros [= _ <-]|]. destruct (_ && _); [by intros [= _ <-]|].
  destruct (nodeCapacitySnapshotTx _ _ _ _) as [c|]; cbn [abind]; [|by intros [= _ <-]].
  destruct (check_capacity req' c); cbn [abind]; [|by intros [= _ <-]].
  destruct (insert_reservation _ _) as [db3|] eqn:Ei; cbn [abind]; [|by intros [= _ <-]].
  apply insert_reservation_got in Ei as (-> & _). unfold GetPlacementReservation. recs.
  by rewrite lookup_insert_eq.
Qed.

Lemma create_refused db req id wall now e db' :
  db_ok db -> CreatePlacementReservation req id wall now (fun d => d) db = (Failed e, db') ->
      db' = db /\
      forall d, e = ErrReservationCapacityExceeded d ->
      exists row r, db_nodes db !! rr_NodeID req = Some row /\ 0 < requested r req /\
        total r row < load r (rr_NodeID req) now db + requested r req.
Proof.
  intros O E. unfold CreatePlacementReservation in E.
  destruct (reservation_request wall req) as [req'|] eqn:Er.
  2:{ injection E as <- <-. split; [done|]. intros d ->.
      revert Er. unfold reservation_request. repeat case_match; done. }
  destruct (reservation_request_got _ _ _ Er) as (En & Es & Em & Hreq & _). rewrite En, Es, Em in E.
  cbv zeta in E. change (db_nodes (expire_overdue now db)) with (db_nodes db) in E.
  destruct (db_nodes db !! rr_NodeID req) as [row|] eqn:Hrow; [|injection E as <- <-; by split].
  destruct (negb (rr_ServerID req =? "")%string && _); [injection E as <- <-; by split|].
  destruct (negb (rr_MigrationID req =? "")%string && _); [injection E as <- <-; by split|].
  destruct (nodeCapacitySnapshotTx _ _ _ _) as [c|e'] eqn:Ec; cbn [abind] in E.
  2:{ injection E as <- <-. split; [done|]. intros d ->. exfalso.
      by destruct (snapshot_error _ _ _ _ _ Ec). }
  destruct (check_capacity req' c) as [[]|e'] eqn:Ek; cbn [abind] in E.
  2:{ injection E as <- <-. split; [done|]. intros d _. exists row.
      apply check_capacity_failed in Ek as [_ (r & Hr & Hav)]. exists r.
      rewrite (proj1 (Hreq r)) in Hr, Hav. destruct (ok_nodes db O _ _ Hrow) as [Hid Hok].
      pose proof (snapshot_available _ _ _ _ _ row Ec Hrow Hid Hok r) as Hs.
      rewrite expire_overdue_promised in Hs by done.
      change (running_load r (rr_NodeID req) (expire_overdue now db)) with (running_load r (rr_NodeID req) db) in Hs.
      pose proof (running_nonneg r (rr_NodeID req) db O).
      pose proof (promised_nonneg r (rr_NodeID req) now db O). split_and!; [done..|]. unfold load. lia. }
  destruct (insert_reservation _ _) as [db3|e'] eqn:Ei; cbn [abind] in E.
  + apply insert_reservation_got in Ei as (-> & _). unfold GetPlacementReservation in E.
    recs in E. by rewrite lookup_insert_eq in E.
  + injection E as <- <-. split; [done|]. intros d ->. apply insert_reservation_error in Ei.
    clear - Ei. set_solver.
Qed.

(** ** Properties *)

(** C6: A reservation is a promise the node can keep.  When one is created,
    what runs on its node and what is promised there, the new reservation
    included, fits each resource it asked for; nothing changes on any other
    node, and the server and the migration it is for have no other live
    reservation.  It is refused for lack of capacity only when a resource it
    asks for is really short, and a refusal leaves the tables as they were. *)
Theorem reservation_fits db req id wall now
    (O : db_ok db) :
  match CreatePlacementReservation req id wall now (fun d => d) db with
  | (Got res, db') =>
      db_reservations db' !! id = Some res /\
      (forall r n, load r n now db' =
         load r n now db + if held_on n now res then requested r req else 0) /\
      (forall row, db_nodes db !! rr_NodeID req = Some row -> forall r, 0 < requested r req ->
         load r (rr_NodeID req) now db + requested r req <= total r row) /\
      (forall k p, db_reservations db' !! k = Some p -> live now p = true -> k <> id ->
         (rr_ServerID req <> "" -> pr_ServerID p <> Some (rr_ServerID req)) /\
         (rr_MigrationID req <> "" -> pr_MigrationID p <> Some (rr_MigrationID req)))
  | (Failed e, db') =>
      db' = db /\
      forall d, e = ErrReservationCapacityExceeded d ->
      exists row r, db_nodes db !! rr_NodeID req = Some row /\ 0 < requested r req /\
        total r row < load r (rr_NodeID req) now db + requested r req
  end.
Proof.
  destruct (CreatePlacementReservation _ _ _ _ _ _) as [[res|e] db'] eqn:E;
    [by eapply create_got_fits|by eapply create_refused].
Qed.

(** ** Tables to try the properties on *)

Definition example_node (id region : string) (memory : Z) : NodeRow :=
  mkNodeRow id (cat ["node "; id]) (Some region) (Some 4) None (Some memory) None (Some 100000)
    "online" "active" false false "docker" "healthy".

Definition example_server : ServerRow :=
  mkServerRow "s1" "a" "running" 1024 2048 5000 "running" "running" false "idle" true false 1 1 0.

Definition example_reservation : PlacementReservation :=
  mkReservation "r1" None "a" None "placement" "active" "" 1024 1024 1000 700 None None None None 0 0.

(** One node holds a server and a reservation, the other is empty. *)
Definition example_db : Db :=
  mkDb (list_to_map [("a", example_node "a" "eu" 8192); ("b", example_node "b" "eu" 4096)])
    [mkRegionRow "eu" "europe" "Europe" true]
    (list_to_map [("p1", mkAllocationRow "p1" "a" 25565 (Some "s1")); ("p2", mkAllocationRow "p2" "a" 25566 None);
                  ("p3", mkAllocationRow "p3" "b" 25565 None)])
    ∅ {["u1"]} {["egg" := (1024, "image:1")]} {["s1" := example_server]} ∅ ∅ ∅
    {["r1" := example_reservation]} [].

Ltac rows H :=
  repeat (apply lookup_insert_Some in H as [[<- <-]|[_ H]] || (apply lookup_singleton_Some in H as [<- <-]));
  try (by rewrite lookup_empty in H).

Lemma example_db_ok : db_ok example_db.
Proof.
  split; intros k x H; cbn in H; rows H; (split; [done|]) || idtac;
    try (unfold node_ok, total_memory, total_disk; cbn; lia); intros []; cbn; lia.
Qed.

Definition example_request : CreatePlacementReservationRequest :=
  mkReservationRequest "" "a" "" "" "" "" 1024 4096 10240 zeroTime.

Lemma reservation_fits_witness :
  (exists res db', CreatePlacementReservation example_request "r2" 600 600 (fun d => d) example_db = (Got res, db') /\
     load Memory "a" 600 example_db = 3072 /\ load Memory "a" 600 db' = 7168) /\
  match CreatePlacementReservation example_request "r2" 600 600 (fun d => d) example_db with
  | (Got res, db') => load Memory "a" 600 example_db + 4096 <= 8192
  | (Failed _, _) => False
  end.
Proof.
  split; [eexists _, _; split_and!; vm_compute; reflexivity|].
  pose proof (reservation_fits example_db example_request "r2" 600 600 example_db_ok) as H.
  assert (E : exists res db', CreatePlacementReservation example_request "r2" 600 600 (fun d => d) example_db =
    (Got res, db')) by (eexists _, _; vm_compute; reflexivity).
  destruct E as (res & db' & E). rewrite E in *. destruct H as (_ & _ & H & _).
  exact (H (example_node "a" "eu" 8192) eq_refl Memory ltac:(done)).
Defined.
