(* ===== verification/Servers.v ===== *)
(** * Servers in the tables

    [forge/api/internal/store]: the statements that create and update a server
    ([store_servers.go]), remove it ([store_servers_lifecycle.go]), and record
    its states and its installation ([store_state.go],
    [store_servers_control.go]).

    Audit rows and state transitions are left out.  [startup] is the outcome of
    the statements on startup variables, whose rules are not modelled. *)
From Stdlib Require Import ZArith Lia Floats.SpecFloat.
From stdpp Require Import base gmap strings list fin_maps.
From coqutil Require Import Datatypes.RecordSettersUsingExistingGetters.
From S2P Require Import Prelude GoStrings GoSort Programs Capacity.
Import RecordSetNotations1.
#[local] Open Scope string_scope.
#[local] Open Scope list_scope.
#[local] Open Scope Z_scope.
#[local] Open Scope go_scope.

(** ** Creation *)

(* go: store/store.go type:CreateServerRequest *)
Record CreateServerRequest := mkCreateServerRequest {
  cs_Name : string;
  cs_NodeID : string;
  cs_OwnerID : string;
  cs_TemplateID : string;
  cs_AllocationID : string;
  cs_AdditionalAllocationIDs : list string;
  cs_MemoryMB : Z;
  cs_CPUShares : Z;
  cs_CPULimit : Z;
  cs_DiskMB : Z;
  cs_DatabaseLimit : Z;
  cs_BackupLimit : Z;
  cs_AllocationLimit : Z;
  cs_IOWeight : Z;
  cs_SwapMB : Z;
  cs_Threads : string;
  cs_OOMDisabled : bool;
  cs_DockerImage : string;
  cs_StartupCommand : string;
  cs_StartupVariables : gmap string string;
  cs_RuntimeProvider : string;
  cs_SkipScripts : bool;
  cs_DockerLabels : gmap string string
}.

(** What the request leaves open: the memory is the egg's, the weight 500. *)
(* go: store/store_servers.go L205-211 *)
Definition server_defaults (egg_memory : Z) (req : CreateServerRequest) : CreateServerRequest :=
  let req := if cs_MemoryMB req <=? 0 then req <| cs_MemoryMB := egg_memory |> else req in
  if cs_IOWeight req =? 0 then req <| cs_IOWeight := 500 |> else req.

(* go: store/store_servers.go L215-217 *)
Definition invalid_limits (req : CreateServerRequest) : bool :=
  (cs_MemoryMB req <=? 0) || (cs_CPUShares req <=? 0) || (cs_CPULimit req <? 0) ||
  (cs_DiskMB req <=? 0) || (cs_DatabaseLimit req <? 0) || (cs_BackupLimit req <? 0) ||
  (cs_AllocationLimit req <? 0) || (cs_IOWeight req <? 10) || (1000 <? cs_IOWeight req) ||
  (cs_SwapMB req <? -1).

(** The allocations of the request, each once: they exist, are free and on the
    node.  [FOR UPDATE] locks their rows until the transaction ends. *)
(* go: store/store_servers.go L231-249 *)
Fixpoint lock_allocations (node : string) (ids seen : list string) (db : Db) : answer (list string) :=
  match ids with
  | [] => Got seen
  | a :: ids =>
      if (a =? "")%string || slices_contains seen a then lock_allocations node ids seen db
      else
        match db_allocations db !! a with
        | None => Failed (ErrText "allocation not found")
        | Some row =>
            if bool_decide (is_Some (al_ServerID row)) then Failed (ErrText "allocation already assigned")
            else if negb (al_NodeID row =? node)%string
            then Failed (ErrText "allocation does not belong to selected node")
            else lock_allocations node ids (a :: seen) db
        end
  end.

(** [UPDATE allocations SET server_id = $1 WHERE id = $2], for each of [ids]. *)
Definition assign_allocations (server : string) (ids : list string) (db : Db) : Db :=
  db <| db_allocations := foldr (alter (fun a => a <| al_ServerID := Some server |>)) (db_allocations db) ids |>.

Definition limits_int4 (req : CreateServerRequest) : bool :=
  forallb int4 [cs_MemoryMB req; cs_CPUShares req; cs_CPULimit req; cs_DiskMB req; cs_DatabaseLimit req;
                cs_BackupLimit req; cs_AllocationLimit req; cs_IOWeight req; cs_SwapMB req].

Definition new_server (req : CreateServerRequest) (id : string) (now : Time) : ServerRow :=
  mkServerRow id (cs_NodeID req) "provisioning" (cs_CPUShares req) (cs_MemoryMB req) (cs_DiskMB req)
    "stopped" "stopped" false "idle" false false 1 0 now.

(** One transaction: an error leaves nothing behind.  The answer is the id of
    the row, which [GetServer] reads back. *)
(* go: store/store_servers.go func:Store.CreateServer *)
Definition insert_server (req : CreateServerRequest) (id : string) (now : Time) (startup : answer unit) (db : Db)
    : answer string * Db :=
  let egg := default (0, "") (db_eggs db !! cs_TemplateID req) in
  let req := server_defaults (fst egg) req in
  match (if invalid_limits req then Failed (ErrText "invalid server resource limits")
         else if negb (bool_decide (cs_OwnerID req ∈ db_users db)) then Failed (ErrText "owner not found")
         else if fst egg <=? 0 then Failed (ErrText "egg not found")
         else if (TrimSpace (cs_DockerImage req) =? "")%string && (snd egg =? "")%string
         then Failed (ErrText "egg has no docker images")
         else if negb (bool_decide (is_Some (db_nodes db !! cs_NodeID req)))
         then Failed (ErrText "node not found")
         else
           let+ seen := lock_allocations (cs_NodeID req)
             (cs_AllocationID req :: cs_AdditionalAllocationIDs req) [] db in
           if (cs_AllocationID req =? "")%string then Failed (ErrText "primary allocation is required")
           else if (0 <? cs_AllocationLimit req) && (cs_AllocationLimit req <? Z.of_nat (length seen))
           then Failed (ErrText "requested allocations exceed allocation limit")
           else if negb (limits_int4 req) then Failed ErrRange
           else if bool_decide (is_Some (db_servers db !! id)) then Failed ErrUnique
           else
             let+ _ := startup in
             Got (assign_allocations id seen
                    (db <| db_servers := <[id := new_server req id now]> (db_servers db) |>))) with
  | Failed e => (Failed e, db)
  | Got db' => (Got id, db')
  end.

(** ** Update

    Of the columns it may set, [servers] keeps here the capacity and the flag
    of the pending configuration. *)
(* go: store/store.go type:UpdateServerRequest *)
Record UpdateServerRequest := mkUpdateServerRequest {
  us_Name : option string;
  us_Description : option string;
  us_OwnerID : option string;
  us_MemoryMB : option Z;
  us_CPUShares : option Z;
  us_CPULimit : option Z;
  us_DiskMB : option Z;
  us_DatabaseLimit : option Z;
  us_BackupLimit : option Z;
  us_AllocationLimit : option Z;
  us_IOWeight : option Z;
  us_SwapMB : option Z;
  us_Threads : option string;
  us_OOMDisabled : option bool;
  us_DockerImage : option string;
  us_StartupCommand : option string;
  us_PrimaryAllocationID : option string
}.

(** The minimum counts only when [strict]. *)
(* go: store/store_servers.go func:invalidOptionalInt *)
Definition invalidOptionalInt (value : option Z) (minimum : Z) (strict : bool) : bool :=
  match value with
  | None => false
  | Some v => if strict then v <? minimum else v <? 0
  end.

Definition set_ {A} (o : option A) : bool := bool_decide (is_Some o).

(* go: store/store_servers.go func:Store.UpdateServer *)
Definition UpdateServer (id : string) (req : UpdateServerRequest) (db : Db) : answer unit * Db :=
  let limits := [us_MemoryMB req; us_CPUShares req; us_CPULimit req; us_DiskMB req; us_DatabaseLimit req;
                 us_BackupLimit req; us_AllocationLimit req] in
  match
    (if match us_Name req with Some n => (TrimSpace n =? "")%string | None => false end
     then Failed (ErrText "name cannot be empty")
     else if match us_OwnerID req with Some o => (TrimSpace o =? "")%string | None => false end
     then Failed (ErrText "ownerId cannot be empty")
     else if existsb (fun o => invalidOptionalInt o 0 false) limits ||
             invalidOptionalInt (us_IOWeight req) 10 true || invalidOptionalInt (us_SwapMB req) (-1) true
     then Failed (ErrText "invalid server resource limits")
     else if match us_IOWeight req with Some w => 1000 <? w | None => false end
     then Failed (ErrText "ioWeight must be between 10 and 1000")
     else
       match db_servers db !! id with
       | None => Failed (ErrText "server not found")
       | Some row =>
           if match us_OwnerID req with Some o => negb (bool_decide (o ∈ db_users db)) | None => false end
           then Failed (ErrText "owner not found")
           else if match us_PrimaryAllocationID req with
                   | Some a => (TrimSpace a =? "")%string | None => false end
           then Failed (ErrText "primaryAllocationId cannot be empty")
           else if match us_PrimaryAllocationID req with
                   | Some a => negb (bool_decide ((al_ServerID <$> db_allocations db !! a) = Some (Some id)))
                   | None => false end
           then Failed (ErrText "allocation not assigned to server")
           else if negb (forallb (fun o => int4 (default 0 o)) (us_SwapMB req :: us_IOWeight req :: limits))
           then Failed ErrRange
           else
             let runtimeChanged := set_ (us_Name req) || set_ (us_MemoryMB req) || set_ (us_CPUShares req) ||
               set_ (us_CPULimit req) || set_ (us_DiskMB req) || set_ (us_IOWeight req) ||
               set_ (us_SwapMB req) || set_ (us_Threads req) || set_ (us_OOMDisabled req) ||
               set_ (us_DockerImage req) || set_ (us_StartupCommand req) ||
               set_ (us_PrimaryAllocationID req) in
             Got (row <| sv_memory_mb := default (sv_memory_mb row) (us_MemoryMB req) |>
                      <| sv_cpu_shares := default (sv_cpu_shares row) (us_CPUShares req) |>
                      <| sv_disk_mb := default (sv_disk_mb row) (us_DiskMB req) |>
                      <| sv_ConfigSyncPending := runtimeChanged || sv_ConfigSyncPending row |>)
       end) with
  | Failed e => (Failed e, db)
  | Got row => (Got tt, db <| db_servers := <[id := row]> (db_servers db) |>)
  end.

(** ** Removal *)

(** The foreign keys of reservations set NULL. *)
Definition forget_server (id : string) (db : Db) : Db :=
  db <| db_servers := delete id (db_servers db) |>
     <| db_allocations := (fun a => if bool_decide (al_ServerID a = Some id)
                                    then a <| al_ServerID := None |> else a) <$> db_allocations db |>
     <| db_reservations := (fun r => if bool_decide (pr_ServerID r = Some id)
                                     then r <| pr_ServerID := None |> else r) <$> db_reservations db |>.

(* go: store/store_servers_lifecycle.go func:Store.hardDeleteServer *)
Definition hardDeleteServer (id : string) (db : Db) : answer unit * Db :=
  if bool_decide (is_Some (db_servers db !! id)) then (Got tt, forget_server id db)
  else (Failed (ErrText "server not found"), db).

(* go: store/store_servers_lifecycle.go func:Store.HardDeleteServer *)
Definition HardDeleteServer := hardDeleteServer.

(** The row on the orphan has no foreign key and is left out. *)
(* go: store/store_servers_lifecycle.go func:Store.RecordOrphanAndHardDeleteServer *)
Definition RecordOrphanAndHardDeleteServer (id daemonError : string) (db : Db) : answer unit * Db :=
  if (daemonError =? "")%string
  then (Failed (ErrText "daemon error is required for orphan remediation"), db)
  else hardDeleteServer id db.

(** ** States *)

(** The enums of the schema. *)
Definition desired_states : list string := ["running"; "stopped"].
(* go: store/store.go L2221-2233 *)
Definition actual_states : list string :=
  ["offline"; "starting"; "running"; "stopping"; "stopped"; "installing"; "restoring_backup"; "crashed";
   "terminating"; "terminated"; "unknown"].

(* go: store/store_state.go func:serverStatusFromActual *)
Definition serverStatusFromActual (actual : string) : string :=
  if (actual =? "running")%string then "running"
  else if (actual =? "installing")%string then "installing"
  else if (actual =? "restoring_backup")%string then "restoring_backup"
  else if (actual =? "crashed")%string then "install_failed"
  else if (actual =? "unknown")%string then "unknown"
  else "stopped".

Definition set_desired (desired : string) (s : ServerRow) : ServerRow :=
  s <| sv_desired_generation := if (sv_DesiredState s =? desired)%string then sv_desired_generation s
                                else sv_desired_generation s + 1 |>
    <| sv_DesiredState := desired |>.

Definition set_actual (actual : string) (s : ServerRow) : ServerRow :=
  s <| sv_observed_generation :=
         if slices_contains desired_states (sv_DesiredState s) && (sv_DesiredState s =? actual)%string
         then sv_desired_generation s else sv_observed_generation s |>
    <| sv_ActualState := actual |>
    <| sv_Status := serverStatusFromActual actual |>.

(** An update of one server's row, by the column it sets. *)
Inductive ServerChange :=
| Suspended_ (b : bool)
| Desired (state : string)
| Actual (state : string)
| Provisioned
| InstallState (state : string)
| ConfigSynced
| ConfigSyncFailed.

Definition update_server (id : string) (f : ServerRow -> ServerRow) (db : Db) : answer unit * Db :=
  match db_servers db !! id with
  | Some s => (Got tt, db <| db_servers := <[id := f s]> (db_servers db) |>)
  | None => (Failed (ErrText "server not found"), db)
  end.

(** A change that is entered in the audit log or in the history of states, by a
    second statement outside of any transaction: when only that one fails
    ([entry] is its answer) the change stays and the caller gets the error. *)
Definition then_enter (entry : answer unit) (r : answer unit * Db) : answer unit * Db :=
  match fst r with Got _ => (entry, snd r) | Failed _ => r end.

(* go: store/store_servers.go func:Store.SetServerSuspended *)
Definition SetServerSuspended (id : string) (suspended : bool) (entry : answer unit) (db : Db) : answer unit * Db :=
  then_enter entry (update_server id (fun s => s <| sv_Suspended := suspended |>) db).

(** The state before, read first; only a transition is entered. *)
Definition transition_entry (previous state : string) (entry : answer unit) : answer unit :=
  if (previous =? state)%string then Got tt else entry.

(** The cast of the state is checked when there is a row to update. *)
(* go: store/store_state.go func:Store.SetServerDesiredState *)
Definition SetServerDesiredState (id desired : string) (entry : answer unit) (db : Db) : answer unit * Db :=
  match db_servers db !! id with
  | None => (Failed (ErrText "server not found"), db)
  | Some s =>
      if negb (slices_contains desired_states desired) then (Failed ErrEnum, db)
      else then_enter (transition_entry (sv_DesiredState s) desired entry) (update_server id (set_desired desired) db)
  end.

(* go: store/store_state.go func:Store.SetServerActualState *)
Definition SetServerActualState (id actual : string) (entry : answer unit) (db : Db) : answer unit * Db :=
  match db_servers db !! id with
  | None => (Failed (ErrText "server not found"), db)
  | Some s =>
      if negb (slices_contains actual_states actual) then (Failed ErrEnum, db)
      else then_enter (transition_entry (sv_ActualState s) actual entry) (update_server id (set_actual actual) db)
  end.

(* go: store/store_servers_control.go func:Store.SetServerProvisioned *)
Definition SetServerProvisioned (id : string) (entry : answer unit) (db : Db) : answer unit * Db :=
  then_enter entry
    (update_server id (fun s => s <| sv_Status := "created" |> <| sv_ActualState := "stopped" |>
                                  <| sv_Installed := false |>) db).

(* go: store/store_servers_control.go func:Store.SetServerInstallState *)
Definition SetServerInstallState (id state : string) (entry : answer unit) (db : Db) : answer unit * Db :=
  let set_ status installed :=
    then_enter entry
      (update_server id (fun s => s <| sv_Status := status |> <| sv_Installed := installed |>) db) in
  if (state =? "installing")%string then set_ "installing" false
  else if (state =? "installed")%string then set_ "stopped" true
  else if (state =? "failed")%string then set_ "install_failed" false
  else (Failed (ErrText (cat ["invalid install state "; quote state])), db).

(* go: store/store_servers_control.go func:Store.MarkServerConfigSynced *)
Definition MarkServerConfigSynced (id : string) :=
  update_server id (fun s => s <| sv_ConfigSyncPending := false |>).

(* go: store/store_servers_control.go func:Store.MarkServerConfigSyncFailed *)
Definition MarkServerConfigSyncFailed (id : string) :=
  update_server id (fun s => s <| sv_ConfigSyncPending := true |>).

(** [entry] answers the second statement, where there is one. *)
Definition change_server (id : string) (c : ServerChange) (entry : answer unit) : Db -> answer unit * Db :=
  match c with
  | Suspended_ b => SetServerSuspended id b entry
  | Desired state => SetServerDesiredState id state entry
  | Actual state => SetServerActualState id state entry
  | Provisioned => SetServerProvisioned id entry
  | InstallState state => SetServerInstallState id state entry
  | ConfigSynced => MarkServerConfigSynced id
  | ConfigSyncFailed => MarkServerConfigSyncFailed id
  end.

(* go: store/store_nodes.go func:Store.ResetNodeServerStates *)
Definition ResetNodeServerStates (nodeID : string) (db : Db) : answer unit * Db :=
  let reset s :=
    if (sv_NodeID s =? nodeID)%string && slices_contains ["installing"; "restoring_backup"] (sv_Status s)
    then s <| sv_Installed := (sv_Status s =? "installing")%string || sv_Installed s |>
           <| sv_Status := "stopped" |>
    else s in
  (Got tt, db <| db_servers := reset <$> db_servers db |>).

(** ** Well-formed tables

    What the schema promises of the rows, and what the code relies on when it
    adds them up. *)

Definition node_row_ok (k : string) (n : NodeRow) : Prop := nd_ID n = k /\ node_ok n.

Definition server_row_ok (db : Db) (k : string) (s : ServerRow) : Prop :=
  sv_ID s = k /\ sv_Status s <> "deleted" /\ is_Some (db_nodes db !! sv_NodeID s) /\
  forall r, 0 <= server_use r s.

(** An assigned allocation is on the node of its server. *)
Definition allocation_row_ok (db : Db) (a : AllocationRow) : Prop :=
  forall id, al_ServerID a = Some id ->
  exists s, db_servers db !! id = Some s /\ sv_NodeID s = al_NodeID a.

Definition instance_row_ok (db : Db) (k : string) (i : Instance) : Prop :=
  in_ID i = k /\ in_Status i ∈ instance_statuses /\ is_Some (db_apps db !! in_AppID i) /\
  is_Some (db_nodes db !! in_NodeID i) /\ forall r, 0 <= instance_use r i.

Definition reservation_row_ok (db : Db) (k : string) (p : PlacementReservation) : Prop :=
  pr_ID p = k /\ pr_Status p ∈ reservation_statuses /\ pr_ReservationType p ∈ reservation_types /\
  is_Some (db_nodes db !! pr_NodeID p) /\
  (forall s, pr_ServerID p = Some s -> is_Some (db_servers db !! s)) /\
  forall r, 0 <= reserved_use r p.

Definition decision_row_ok (db : Db) (d : PlacementDecision) : Prop :=
  is_Some (db_instances db !! pd_InstanceID d) /\ is_Some (db_nodes db !! pd_NodeID d) /\
  is_Some (db_apps db !! pd_AppID d).

Record tables_ok (db : Db) : Prop := {
  to_nodes : map_Forall node_row_ok (db_nodes db);
  to_servers : map_Forall (server_row_ok db) (db_servers db);
  to_allocations : map_Forall (fun _ => allocation_row_ok db) (db_allocations db);
  to_instances : map_Forall (instance_row_ok db) (db_instances db);
  to_unique : forall k i k' i', db_instances db !! k = Some i -> db_instances db !! k' = Some i' ->
    in_AppID i = in_AppID i' -> in_Idx i = in_Idx i' -> k = k';
  to_reservations : map_Forall (reservation_row_ok db) (db_reservations db);
  to_decisions : forall d, d ∈ db_decisions db -> decision_row_ok db d
}.

Lemma tables_db_ok db : tables_ok db -> db_ok db.
Proof.
  intros T. split; intros k x H.
  - by apply (to_nodes db T).
  - by apply (to_servers db T k x H).
  - destruct (to_instances db T k x H) as (? & _ & _ & _ & ?). done.
  - destruct (to_reservations db T k x H) as (? & _ & _ & _ & _ & ?). done.
Qed.

(** The statements that write.  Ids are fresh UUIDs where the code makes them;
    an instance is created with the amounts of its application. *)
Inductive db_step (db : Db) : Db -> Prop :=
| step_reserve req id wall now :
    db_step db (snd (CreatePlacementReservation req id wall now (fun d => d) db))
| step_close id status now : db_step db (snd (UpdatePlacementReservationStatus id status now db))
| step_expire now : db_step db (snd (ExpirePlacementReservations now db))
| step_close_migration migration status now :
    db_step db (snd (UpdatePlacementReservationsForMigration migration status now db))
| step_insert_server req id now startup : db_step db (snd (insert_server req id now startup db))
| step_update_server id req : db_step db (snd (UpdateServer id req db))
| step_change_server id c entry : db_step db (snd (change_server id c entry db))
| step_remove_server id : db_step db (snd (HardDeleteServer id db))
| step_remove_orphan id err : db_step db (snd (RecordOrphanAndHardDeleteServer id err db))
| step_reset_servers node : db_step db (snd (ResetNodeServerStates node db))
| step_create_app req id now : db_step db (snd (CreateReplicaApp req id now db))
| step_app_replicas id replicas now : db_step db (snd (UpdateReplicaAppReplicas id replicas now db))
| step_app_status id status now : db_step db (snd (UpdateReplicaAppStatus id status now db))
| step_app_generation id now : db_step db (snd (IncrementReplicaAppGeneration id now db))
| step_delete_app id : db_step db (snd (DeleteReplicaApp id db))
| step_create_instance app node idx cpu memory disk provider id placement now :
    0 <= cpu -> 0 <= memory -> 0 <= disk ->
    db_step db (snd (CreateInstance app node idx cpu memory disk provider id placement now db))
| step_attempts id now : db_step db (snd (IncrementInstanceReplacementAttempts id now db))
| step_reset_attempts id now : db_step db (snd (ResetInstanceReplacementAttempts id now db))
| step_instance_status id status now : db_step db (snd (UpdateInstanceStatus id status now db))
| step_instance_node id node now : db_step db (snd (UpdateInstanceNode id node now db))
| step_assign_reservation id reservation now : db_step db (snd (AssignInstanceReservation id reservation now db))
| step_delete_instance id : db_step db (snd (DeleteInstance id db))
| step_decision inst node app idx score accepted reasons provider id now :
    db_step db (snd (CreatePlacementDecision inst node app idx score accepted reasons provider id now db)).

(** *** One table at a time *)

Lemma set_reservations_ok db m :
  tables_ok db -> map_Forall (reservation_row_ok db) m -> tables_ok (db <| db_reservations := m |>).
Proof. intros [] H. split; assumption. Qed.

Lemma set_apps_ok db m :
  tables_ok db -> (forall k, is_Some (db_apps db !! k) -> is_Some (m !! k)) ->
  tables_ok (db <| db_apps := m |>).
Proof.
  intros [] H. split; try assumption.
  - intros k i Hi. destruct (to_instances0 k i Hi) as (? & ? & ? & ? & ?). split_and!; try done. by apply H.
  - intros d Hd. destruct (to_decisions0 d Hd) as (? & ? & ?). split_and!; try done. by apply H.
Qed.

(** The servers that were there still are, on their nodes. *)
Lemma set_servers_ok db m :
  tables_ok db -> map_Forall (server_row_ok db) m ->
  (forall k s, db_servers db !! k = Some s -> exists s', m !! k = Some s' /\ sv_NodeID s' = sv_NodeID s) ->
  tables_ok (db <| db_servers := m |>).
Proof.
  intros [] H Hk. split; try assumption.
  - intros k a Ha id E. destruct (to_allocations0 k a Ha id E) as (s & Hs & En).
    destruct (Hk _ _ Hs) as (s' & Hs' & En'). exists s'. split; [done|]. by rewrite En'.
  - intros k p Hp. destruct (to_reservations0 k p Hp) as (? & ? & ? & ? & Hf & ?). split_and!; try done.
    intros s E. destruct (Hf s E) as [x Hx]. destruct (Hk _ _ Hx) as (x' & ? & _). by exists x'.
Qed.

Lemma set_allocations_ok db m :
  tables_ok db -> map_Forall (fun _ => allocation_row_ok db) m -> tables_ok (db <| db_allocations := m |>).
Proof. intros [] H. split; assumption. Qed.

Definition instances_ok (db : Db) (m : gmap string Instance) : Prop :=
  map_Forall (instance_row_ok db) m /\
  (forall k i k' i', m !! k = Some i -> m !! k' = Some i' ->
     in_AppID i = in_AppID i' -> in_Idx i = in_Idx i' -> k = k').

Lemma set_instances_ok db m :
  tables_ok db -> instances_ok db m -> (forall k, is_Some (db_instances db !! k) -> is_Some (m !! k)) ->
  tables_ok (db <| db_instances := m |>).
Proof.
  intros [] [H1 H2] Hk. split; try assumption.
  intros d Hd. destruct (to_decisions0 d Hd) as (? & ? & ?). split_and!; try done. by apply Hk.
Qed.

Lemma set_decisions_ok db l :
  tables_ok db -> (forall d, d ∈ l -> decision_row_ok db d) -> tables_ok (db <| db_decisions := l |>).
Proof. intros [] H. split; assumption. Qed.

Lemma forall_fmap {A} (P : string -> A -> Prop) (f : A -> A) (m : gmap string A) :
  (forall k x, P k x -> P k (f x)) -> map_Forall P m -> map_Forall P (f <$> m).
Proof.
  intros Hf H k y E. rewrite lookup_fmap in E. destruct (m !! k) as [x|] eqn:Ex; [|done].
  injection E as <-. apply Hf, (H k x Ex).
Qed.

Lemma forall_alter {A} (P : string -> A -> Prop) (f : A -> A) (m : gmap string A) k :
  (forall x, P k x -> P k (f x)) -> map_Forall P m -> map_Forall P (alter f k m).
Proof.
  intros Hf H k' y E. apply lookup_alter_Some in E as [(<- & x & Ex & ->)|[_ E]]; [|by apply H].
  apply Hf, (H k x Ex).
Qed.

Lemma close_row_ok db k status now p :
  status ∈ reservation_statuses -> reservation_row_ok db k p ->
  reservation_row_ok db k (close_reservation status now p).
Proof.
  intros Hst (H1 & H2 & H3 & H4 & H5 & H6). split_and!; try done. intros r. specialize (H6 r). by destruct r.
Qed.

Lemma expire_row_ok db k now p : reservation_row_ok db k p -> reservation_row_ok db k (expire now p).
Proof.
  intros (H1 & H2 & H3 & H4 & H5 & H6). split_and!; try done; [set_solver|].
  intros r. specialize (H6 r). by destruct r.
Qed.

Lemma update_where_ok p f db :
  tables_ok db -> (forall k r, reservation_row_ok db k r -> reservation_row_ok db k (f r)) ->
  tables_ok (snd (update_where p f db)).
Proof.
  intros T Hf. apply (set_reservations_ok db _ T). apply forall_fmap; [|by apply to_reservations].
  intros k r Hr. destruct (p r); auto.
Qed.

Lemma expire_overdue_tables now db : tables_ok db -> tables_ok (expire_overdue now db).
Proof. intros T. exact (update_where_ok (overdue now) (expire now) db T (fun k p => expire_row_ok db k now p)). Qed.

Lemma reserve_ok req id wall now db :
  tables_ok db -> tables_ok (snd (CreatePlacementReservation req id wall now (fun d => d) db)).
Proof.
  intros T. destruct (CreatePlacementReservation _ _ _ _ _ _) as [[res|e] db'] eqn:E.
  - apply create_got in E as (req' & c & row & Er & _ & _ & _ & Hi & -> & _ & _).
    apply insert_reservation_got in Hi as (-> & _ & Hn & Hst & Hty & Hs & _).
    apply set_reservations_ok; [by apply expire_overdue_tables|].
    apply map_Forall_insert_2; [|exact (to_reservations _ (expire_overdue_tables now db T))].
    split_and!; try done. intros r. rewrite reserved_use_new.
    by destruct (reservation_request_got _ _ _ Er) as (_ & _ & _ & Hr & _), (Hr r).
  - by apply create_refused in E as [-> _]; [|apply tables_db_ok].
Qed.

Lemma close_ok id status now db :
  tables_ok db -> tables_ok (snd (UpdatePlacementReservationStatus id status now db)).
Proof.
  intros T. unfold UpdatePlacementReservationStatus.
  destruct (slices_contains _ _) eqn:Hs; [|done]. destruct (db_reservations db !! id) as [p|] eqn:Ep; [|done].
  destruct (open_status _); [|done]. apply set_reservations_ok; [done|].
  apply map_Forall_insert_2; [|by apply to_reservations]. apply slices_contains_spec in Hs.
  apply close_row_ok; [done|]. by apply (to_reservations db T).
Qed.

Lemma close_migration_ok m status now db :
  tables_ok db -> tables_ok (snd (UpdatePlacementReservationsForMigration m status now db)).
Proof.
  intros T. unfold UpdatePlacementReservationsForMigration. destruct (slices_contains _ _) eqn:Hs; [|done].
  apply update_where_ok; [done|]. apply slices_contains_spec in Hs. intros k r. by apply close_row_ok.
Qed.

(** *** Servers *)

(** An update that leaves the row where it is, with no less than nothing. *)
Definition stays_ok (s s' : ServerRow) : Prop :=
  sv_ID s' = sv_ID s /\ sv_NodeID s' = sv_NodeID s /\ sv_Status s' <> "deleted" /\
  forall r, 0 <= server_use r s'.

Lemma set_row_ok db id s s' :
  tables_ok db -> db_servers db !! id = Some s -> stays_ok s s' ->
  tables_ok (db <| db_servers := <[id := s']> (db_servers db) |>).
Proof.
  intros T Hs (E1 & E2 & E3 & E4). destruct (to_servers db T id s Hs) as (H1 & H2 & H3 & H4).
  apply set_servers_ok; [done| |].
  - apply map_Forall_insert_2; [|by apply to_servers]. split_and!; [congruence|done| |done]. by rewrite E2.
  - intros k x Hx. destruct (decide (k = id)) as [->|Hne].
    + exists s'. rewrite lookup_insert_eq. split; [done|]. congruence.
    + exists x. by rewrite lookup_insert_ne.
Qed.

Lemma update_server_ok id f db :
  (forall s, server_row_ok db id s -> stays_ok s (f s)) ->
  tables_ok db -> tables_ok (snd (update_server id f db)).
Proof.
  intros Hf T. unfold update_server. destruct (db_servers db !! id) as [s|] eqn:Es; [|done].
  apply (set_row_ok db id s); [done..|]. by apply Hf, (to_servers db T).
Qed.

Lemma serverStatusFromActual_ok a : serverStatusFromActual a <> "deleted".
Proof. unfold serverStatusFromActual. by repeat case_match. Qed.

Lemma entered_tables entry r : snd (then_enter entry r) = snd r.
Proof. unfold then_enter. by destruct (fst r). Qed.

Lemma change_server_ok id c entry db : tables_ok db -> tables_ok (snd (change_server id c entry db)).
Proof.
  intros T. assert (Hr : forall s, server_row_ok db id s ->
    sv_Status s <> "deleted" /\ 0 <= sv_cpu_shares s /\ 0 <= sv_memory_mb s /\ 0 <= sv_disk_mb s).
  { intros s (_ & H & _ & Hu). split_and!; [done|apply (Hu Cpu)|apply (Hu Memory)|apply (Hu Disk)]. }
  destruct c; cbn [change_server];
    unfold SetServerSuspended, SetServerDesiredState, SetServerActualState, SetServerProvisioned,
      SetServerInstallState, MarkServerConfigSynced, MarkServerConfigSyncFailed;
    repeat (case_match; try done); rewrite ?entered_tables;
    (apply update_server_ok; [|done]); intros s' (A1 & A2 & A3 & A4)%Hr;
    (split_and!; [done|done| |intros []; done]); try done; apply serverStatusFromActual_ok.
Qed.

Lemma update_row_ok id req db : tables_ok db -> tables_ok (snd (UpdateServer id req db)).
Proof.
  intros T. unfold UpdateServer. cbv zeta.
  repeat match goal with |- context [if ?b then Failed _ else _] => destruct b eqn:?; [done|] end.
  destruct (db_servers db !! id) as [s|] eqn:Es; [|done].
  repeat match goal with |- context [if ?b then Failed _ else _] => destruct b eqn:?; [done|] end.
  apply (set_row_ok db id s); [done..|]. destruct (to_servers db T id s Es) as (_ & H2 & _ & H4).
  split_and!; try done.
  match goal with H : _ || _ || _ = false |- _ => apply orb_false_iff in H as [[H _]%orb_false_iff _]; revert H end.
  cbn [existsb]. unfold invalidOptionalInt. intros H.
  repeat (apply orb_false_iff in H as [? H]).
  intros r. specialize (H4 r). destruct r; cbn; unfold const; cbn;
    match goal with |- 0 <= default _ ?o => destruct o; cbn in *; zb; lia end.
Qed.

(** What a locked list of allocations is: each was free, on the node. *)
Lemma lock_allocations_got node ids seen db l :
  lock_allocations node ids seen db = Got l ->
  (forall a, a ∈ seen -> exists row, db_allocations db !! a = Some row /\ al_ServerID row = None /\ al_NodeID row = node) ->
  forall a, a ∈ l -> exists row, db_allocations db !! a = Some row /\ al_ServerID row = None /\ al_NodeID row = node.
Proof.
  revert seen. induction ids as [|b ids IH]; intros seen H Hs; cbn [lock_allocations] in H; [by injection H as <-|].
  destruct (_ || _); [by eapply IH|]. destruct (db_allocations db !! b) as [row|] eqn:Eb; [|done].
  case_bool_decide as Hf; [done|]. destruct (String.eqb_spec (al_NodeID row) node) as [En|]; [|done].
  cbn [negb] in H. eapply IH; [exact H|]. intros a [->|Ha]%elem_of_cons; [|by apply Hs].
  exists row. split_and!; [done| |done]. by apply eq_None_not_Some.
Qed.

Lemma lookup_assigned id l db a row :
  db_allocations (assign_allocations id l db) !! a = Some row ->
  exists row0, db_allocations db !! a = Some row0 /\
    (row = row0 \/ a ∈ l /\ row = row0 <| al_ServerID := Some id |>).
Proof.
  unfold assign_allocations. recs. generalize (db_allocations db) as m. intros m. revert row.
  induction l as [|b l IH]; intros row H; cbn [foldr] in H; [by exists row; auto|].
  apply lookup_alter_Some in H as [(<- & x & Hx & ->)|[_ H]].
  - destruct (IH x Hx) as (row0 & H0 & [->|[_ ->]]); exists row0; (split; [done|right]); (split; [left|]); by destruct row0.
  - destruct (IH row H) as (row0 & H0 & [->|[Hl ->]]); exists row0; (split; [done|]); [by left|right].
    split; [by right|done].
Qed.

Lemma server_defaults_got egg req :
  let req' := server_defaults egg req in
  cs_NodeID req' = cs_NodeID req /\ cs_AllocationID req' = cs_AllocationID req /\
  cs_CPUShares req' = cs_CPUShares req /\ cs_DiskMB req' = cs_DiskMB req /\
  cs_MemoryMB req' = (if cs_MemoryMB req <=? 0 then egg else cs_MemoryMB req).
Proof. unfold server_defaults. destruct (_ <=? 0), (_ =? 0); done. Qed.

(** The successful insertion, taken apart. *)
Lemma insert_server_got req id now startup db id' db' :
  insert_server req id now startup db = (Got id', db') ->
  exists req' ids, req' = server_defaults (fst (default (0, "") (db_eggs db !! cs_TemplateID req))) req /\
    id' = id /\ db_servers db !! id = None /\ is_Some (db_nodes db !! cs_NodeID req) /\
    0 < cs_MemoryMB req' /\ 0 < cs_CPUShares req' /\ 0 < cs_DiskMB req' /\
    lock_allocations (cs_NodeID req) (cs_AllocationID req :: cs_AdditionalAllocationIDs req') [] db = Got ids /\
    cs_AllocationID req <> "" /\
    db' = assign_allocations id ids
            (db <| db_servers := <[id := new_server req' id now]> (db_servers db) |>).
Proof.
  unfold insert_server. cbv zeta.
  set (req' := server_defaults _ req). assert (Er : req' = server_defaults (fst (default (0, "") (db_eggs db !! cs_TemplateID req))) req) by reflexivity.
  destruct (server_defaults_got (fst (default (0, "") (db_eggs db !! cs_TemplateID req))) req) as (En & Ea & _).
  fold req' in En, Ea. clearbody req'.
  match goal with |- context [if ?b then Failed _ else _] => destruct b eqn:Hl; [done|] end.
  repeat match goal with |- context [if ?b then Failed (ErrText _) else _] => destruct b eqn:?; [done|] end.
  destruct (lock_allocations _ _ _ _) as [ids|] eqn:Ek; [|done]. cbn [abind].
  repeat match goal with |- context [if ?b then Failed _ else _] => destruct b eqn:?; [done|] end.
  destruct startup; [|done]. cbn [abind]. intros [= <- <-]. exists req', ids.
  zb. repeat match goal with H : bool_decide _ = _ |- _ => first [apply bool_decide_eq_true in H|apply bool_decide_eq_false in H] end.
  rewrite En, Ea in *. unfold invalid_limits in Hl.
  repeat apply orb_false_iff in Hl as [Hl ?]. zb. seqb.
  split_and!; try done; try lia. by apply eq_None_not_Some.
Qed.

Lemma insert_server_ok req id now startup db :
  tables_ok db -> tables_ok (snd (insert_server req id now startup db)).
Proof.
  intros T. destruct (insert_server _ _ _ _ _) as [[id'|e] db'] eqn:E.
  2:{ unfold insert_server in E. cbv zeta in E.
      match type of E with match ?m with _ => _ end = _ => destruct m end; [done|by injection E as _ <-]. }
  apply insert_server_got in E as (req' & ids & Er & -> & Hf & Hn & Hm & Hc & Hd & Hl & _ & ->).
  cbn [snd]. destruct (server_defaults_got (fst (default (0, "") (db_eggs db !! cs_TemplateID req))) req) as (En & _).
  rewrite <- Er in En.
  assert (Ts : tables_ok (db <| db_servers := <[id := new_server req' id now]> (db_servers db) |>)).
  { apply set_servers_ok; [done| |].
    - apply map_Forall_insert_2; [|by apply to_servers].
      split_and!; [done|done| |intros []; cbn; lia]. cbn. by rewrite En.
    - intros k s Hk. exists s. rewrite lookup_insert_ne by congruence. done. }
  apply set_allocations_ok; [done|]. intros a row Ha.
  apply lookup_assigned in Ha as (row0 & Ha & [->|[Hin ->]]); [by apply (to_allocations _ Ts a)|].
  intros x [= <-]. exists (new_server req' id now). split; [apply lookup_insert_eq|].
  destruct (lock_allocations_got _ _ _ _ _ Hl ltac:(by intros ? ?%elem_of_nil) a Hin) as (row1 & Ha1 & _ & En1).
  recs in Ha. rewrite Ha1 in Ha. injection Ha as <-. cbn. congruence.
Qed.

Lemma lookup_unassigned id (m : gmap string AllocationRow) (a : string) row :
  ((fun a => if bool_decide (al_ServerID a = Some id) then a <| al_ServerID := None |> else a) <$> m) !! a = Some row ->
  exists row0 : AllocationRow, m !! a = Some row0 /\ al_NodeID row = al_NodeID row0 /\
    (al_ServerID row = al_ServerID row0 /\ al_ServerID row0 <> Some id \/ al_ServerID row = None).
Proof.
  rewrite lookup_fmap. destruct (m !! a) as [row0|]; [|done]. cbn. intros [= <-]. exists row0.
  case_bool_decide; cbn; auto.
Qed.

Lemma forget_server_ok id db : tables_ok db -> tables_ok (forget_server id db).
Proof.
  intros T. destruct T as [T1 T2 T3 T4 T5 T6 T7]. split; try assumption.
  - intros k s Hs. recs in Hs. apply lookup_delete_Some in Hs as [_ Hs]. exact (T2 k s Hs).
  - intros k a Ha. recs in Ha. apply lookup_unassigned in Ha as (a0 & Ha0 & En & [[Es Hne]|Es]).
    + intros x Ex. rewrite Es in Ex. destruct (T3 k a0 Ha0 x Ex) as (s & Hs & E). exists s.
      split; [|by rewrite En]. recs. rewrite lookup_delete_ne; [done|]. congruence.
    + intros x Ex. congruence.
  - intros k p Hp. recs in Hp. rewrite lookup_fmap in Hp.
    destruct (db_reservations db !! k) as [q|] eqn:Eq; [|done]. injection Hp as <-.
    destruct (T6 k q Eq) as (H1 & H2 & H3 & H4 & H5 & H6).
    case_bool_decide as Hq; split_and!; try done.
    + intros r. specialize (H6 r). by destruct r.
    + intros s E. recs. destruct (H5 s E) as [x Hx]. exists x. rewrite lookup_delete_ne; [done|]. congruence.
Qed.

Lemma remove_server_ok id db : tables_ok db -> tables_ok (snd (hardDeleteServer id db)).
Proof. intros T. unfold hardDeleteServer. case_bool_decide; [by apply forget_server_ok|done]. Qed.

Lemma reset_servers_ok node db : tables_ok db -> tables_ok (snd (ResetNodeServerStates node db)).
Proof.
  intros T. unfold ResetNodeServerStates. cbn [snd]. cbv zeta.
  apply set_servers_ok; [done| |].
  - apply forall_fmap; [|by apply to_servers]. intros k s (H1 & H2 & H3 & H4).
    case_match; split_and!; try done. intros r. specialize (H4 r). by destruct r.
  - intros k s Hs. rewrite lookup_fmap, Hs. eexists. split; [done|]. by case_match.
Qed.

(** *** Applications and instances *)

Lemma update_app_ok id f db : tables_ok db -> tables_ok (snd (update_app id f db)).
Proof.
  intros T. apply set_apps_ok; [done|]. intros k [x Hx].
  destruct (decide (k = id)) as [->|]; [exists (f x)|exists x];
    [by rewrite lookup_alter_eq, Hx|by rewrite lookup_alter_ne].
Qed.

Lemma insert_app_ok id a db : tables_ok db -> tables_ok (db <| db_apps := <[id := a]> (db_apps db) |>).
Proof.
  intros T. apply set_apps_ok; [done|]. intros k [x Hx].
  destruct (decide (k = id)) as [->|]; [exists a|exists x]; [by rewrite lookup_insert_eq|by rewrite lookup_insert_ne].
Qed.

(** An update that keeps the key, the application and the index. *)
Definition same_slot (i i' : Instance) : Prop :=
  in_ID i' = in_ID i /\ in_AppID i' = in_AppID i /\ in_Idx i' = in_Idx i.

Lemma set_instance_ok db id f :
  tables_ok db -> (forall i, db_instances db !! id = Some i -> same_slot i (f i) /\ instance_row_ok db id (f i)) ->
  tables_ok (update_instance id f db).
Proof.
  intros T Hf. apply set_instances_ok; [done| |].
  - split.
    + intros k i Hi. apply lookup_alter_Some in Hi as [(<- & x & Hx & ->)|[_ Hi]]; [by apply Hf|].
      by apply (to_instances db T).
    + assert (Hslot : forall k i, alter f id (db_instances db) !! k = Some i ->
        exists i0, db_instances db !! k = Some i0 /\ in_AppID i = in_AppID i0 /\ in_Idx i = in_Idx i0).
      { intros k i Hi. apply lookup_alter_Some in Hi as [(<- & x & Hx & ->)|[_ Hi]]; [|by exists i].
        exists x. destruct (Hf x Hx) as [(_ & ? & ?) _]. done. }
      intros k i k' i' Hi Hi' Ea Ex. apply Hslot in Hi as (j & Hj & Ej & Fj), Hi' as (j' & Hj' & Ej' & Fj').
      apply (to_unique db T k j k' j'); congruence.
  - intros k [x Hx]. destruct (decide (k = id)) as [->|]; [exists (f x)|exists x];
      [by rewrite lookup_alter_eq, Hx|by rewrite lookup_alter_ne].
Qed.

Lemma instance_same_row db k i i' :
  instance_row_ok db k i -> in_ID i' = in_ID i -> in_AppID i' = in_AppID i -> in_NodeID i' = in_NodeID i ->
  in_Status i' ∈ instance_statuses -> (forall r, instance_use r i' = instance_use r i) ->
  instance_row_ok db k i'.
Proof.
  intros (H1 & H2 & H3 & H4 & H5) E1 E2 E3 Hs Eu. unfold instance_row_ok. rewrite E1, E2, E3.
  split_and!; try done. intros r. rewrite Eu. apply H5.
Qed.

(** A column that none of the constraints is about. *)
Lemma set_column_ok db id f :
  tables_ok db ->
  (forall i, same_slot i (f i) /\ in_NodeID (f i) = in_NodeID i /\ in_Status (f i) = in_Status i /\
     forall r, instance_use r (f i) = instance_use r i) ->
  tables_ok (update_instance id f db).
Proof.
  intros T Hf. apply set_instance_ok; [done|]. intros i Hi. destruct (Hf i) as ((E1 & E2 & E3) & E4 & E5 & E6).
  split; [done|]. pose proof (to_instances db T id i Hi) as Hr. eapply instance_same_row; try done.
  rewrite E5. apply Hr.
Qed.

Lemma insert_instance_ok i db db' :
  tables_ok db -> in_Status i ∈ instance_statuses -> (forall r, 0 <= instance_use r i) ->
  insert_instance i db = Got db' -> tables_ok db'.
Proof.
  intros T Hs Hu. unfold insert_instance. destruct (negb _); [done|].
  case_bool_decide as Hid; [done|]. destruct (existsb _ _) eqn:Ex; [done|].
  case_bool_decide as Ha; [|done]. case_bool_decide as Hn; [|done]. intros [= <-].
  assert (Hnew : forall k j, db_instances db !! k = Some j -> in_AppID j = in_AppID i -> in_Idx j = in_Idx i -> False).
  { intros k j Hj E1 E2. rewrite <- not_true_iff_false in Ex. apply Ex, existsb_exists. exists j.
    rewrite E1, E2, String.eqb_refl, Z.eqb_refl. split; [|done].
    apply list_elem_of_In, list_elem_of_fmap. exists (k, j). split; [done|]. by apply elem_of_map_to_list. }
  apply set_instances_ok; [done|split|].
  - apply map_Forall_insert_2; [|by apply to_instances]. by split_and!.
  - intros k j k' j' Hj Hj' E1 E2. apply lookup_insert_Some in Hj as [[<- <-]|[? Hj]], Hj' as [[<- <-]|[? Hj']];
      [done|exfalso; by eapply (Hnew k' j')|exfalso; by eapply (Hnew k j)|by eapply (to_unique db T k j k' j')].
  - intros k [x Hx]. destruct (decide (k = in_ID i)) as [->|]; [exists i|exists x];
      [by rewrite lookup_insert_eq|by rewrite lookup_insert_ne].
Qed.

Lemma delete_app_ok id db : tables_ok db -> tables_ok (snd (DeleteReplicaApp id db)).
Proof.
  intros [T1 T2 T3 T4 T5 T6 T7]. split; try assumption; recs.
  - intros k i Hi. apply map_lookup_filter_Some in Hi as [Hi Hne]. destruct (T4 k i Hi) as (H1 & H2 & H3 & H4 & H5).
    split_and!; try done. recs. by rewrite lookup_delete_ne.
  - intros k i k' i' Hi Hi'. apply map_lookup_filter_Some in Hi as [Hi _], Hi' as [Hi' _]. by eapply T5.
  - intros d [[Hne Hk] Hd]%list_elem_of_filter. destruct (T7 d Hd) as (H1 & H2 & H3).
    split_and!; try done. recs. by rewrite lookup_delete_ne.
Qed.

Lemma delete_instance_ok id db : tables_ok db -> tables_ok (snd (DeleteInstance id db)).
Proof.
  intros [T1 T2 T3 T4 T5 T6 T7]. split; try assumption; recs.
  - intros k i Hi. apply lookup_delete_Some in Hi as [_ Hi]. exact (T4 k i Hi).
  - intros k i k' i' Hi Hi'. apply lookup_delete_Some in Hi as [_ Hi], Hi' as [_ Hi']. by eapply T5.
  - intros d [Hne Hd]%list_elem_of_filter. destruct (T7 d Hd) as (H1 & H2 & H3).
    split_and!; try done. recs. by rewrite lookup_delete_ne.
Qed.

Lemma decision_ok inst node app idx score accepted reasons provider id now db :
  tables_ok db ->
  tables_ok (snd (CreatePlacementDecision inst node app idx score accepted reasons provider id now db)).
Proof.
  intros T. unfold CreatePlacementDecision. destruct (negb _); [done|]. destruct (existsb _ _); [done|].
  destruct (negb _) eqn:E; [done|]. zb. repeat match goal with H : bool_decide _ = true |- _ => apply bool_decide_eq_true in H end.
  apply set_decisions_ok; [done|]. intros d [Hd|Hd%list_elem_of_singleton]%elem_of_app; [by apply (to_decisions db T)|].
  subst d.   by split_and!.
Qed.

Lemma expire_ok now db : tables_ok db -> tables_ok (snd (ExpirePlacementReservations now db)).
Proof. apply expire_overdue_tables. Qed.

Lemma remove_orphan_ok id err db :
  tables_ok db -> tables_ok (snd (RecordOrphanAndHardDeleteServer id err db)).
Proof. unfold RecordOrphanAndHardDeleteServer. destruct (_ =? _)%string; [done|apply remove_server_ok]. Qed.

Lemma create_app_ok req id now db : tables_ok db -> tables_ok (snd (CreateReplicaApp req id now db)).
Proof.
  intros T. unfold CreateReplicaApp. cbv zeta. destruct (negb (_ && _)); [done|]. case_bool_decide; [done|].
  by apply insert_app_ok.
Qed.

Lemma app_replicas_ok id n now db : tables_ok db -> tables_ok (snd (UpdateReplicaAppReplicas id n now db)).
Proof.
  intros T. unfold UpdateReplicaAppReplicas. destruct (_ <? _); [done|]. destruct (negb _); [done|].
  by apply update_app_ok.
Qed.

Lemma app_generation_ok id now db : tables_ok db -> tables_ok (snd (IncrementReplicaAppGeneration id now db)).
Proof.
  intros T. unfold IncrementReplicaAppGeneration. destruct (_ !! _); [|done]. cbv zeta.
  destruct (negb _); [done|]. by apply insert_app_ok.
Qed.

Lemma create_instance_ok app node idx cpu memory disk provider id placement now db :
  0 <= cpu -> 0 <= memory -> 0 <= disk -> tables_ok db ->
  tables_ok (snd (CreateInstance app node idx cpu memory disk provider id placement now db)).
Proof.
  intros Hc Hm Hd T. unfold CreateInstance. cbv zeta.
  destruct (insert_instance _ db) as [db'|e] eqn:E; [|done].
  eapply insert_instance_ok; [done| | |exact E]; [set_solver|by intros []].
Qed.

Ltac column := apply set_column_ok; [done|]; intros i; split_and!; try done; by intros [].

Lemma attempts_ok id now db : tables_ok db -> tables_ok (snd (IncrementInstanceReplacementAttempts id now db)).
Proof.
  intros T. unfold IncrementInstanceReplacementAttempts. destruct (db_instances db !! id) as [j|] eqn:Ej; [|done].
  cbv zeta. destruct (negb _); [done|]. cbn [snd].
  assert (E : <[id := j <| in_attempts := in_attempts j + 1 |> <| in_UpdatedAt := now |>]> (db_instances db) =
    alter (fun i => i <| in_attempts := in_attempts i + 1 |> <| in_UpdatedAt := now |>) id (db_instances db)).
  { apply map_eq. intros k. destruct (decide (k = id)) as [->|];
      [by rewrite lookup_insert_eq, lookup_alter_eq, Ej|by rewrite lookup_insert_ne, lookup_alter_ne]. }
  rewrite E. change (tables_ok (update_instance id
    (fun i => i <| in_attempts := in_attempts i + 1 |> <| in_UpdatedAt := now |>) db)). column.
Qed.

Lemma reset_attempts_ok id now db : tables_ok db -> tables_ok (snd (ResetInstanceReplacementAttempts id now db)).
Proof. intros T. cbn [snd ResetInstanceReplacementAttempts]. column. Qed.

Lemma assign_reservation_ok id rid now db : tables_ok db -> tables_ok (snd (AssignInstanceReservation id rid now db)).
Proof. intros T. unfold AssignInstanceReservation. cbn [snd]. column. Qed.

Lemma instance_status_ok id status now db : tables_ok db -> tables_ok (snd (UpdateInstanceStatus id status now db)).
Proof.
  intros T. unfold UpdateInstanceStatus. destruct (_ && _) eqn:E; [done|]. cbn [snd].
  apply set_instance_ok; [done|]. intros i Hi. split; [done|].
  eapply instance_same_row; [by apply (to_instances db T)|done..| |by intros []].
  rewrite bool_decide_true in E by (rewrite Hi; done). cbn in E. zb.
  apply slices_contains_spec. done.
Qed.

Lemma instance_node_ok id node now db : tables_ok db -> tables_ok (snd (UpdateInstanceNode id node now db)).
Proof.
  intros T. unfold UpdateInstanceNode. destruct (_ && _) eqn:E; [done|]. cbn [snd].
  apply set_instance_ok; [done|]. intros i Hi. split; [done|].
  rewrite bool_decide_true in E by (rewrite Hi; done). cbn in E. zb. apply bool_decide_eq_true in E.
  destruct (to_instances db T id i Hi) as (H1 & H2 & H3 & H4 & H5). split_and!; try done.
  intros r. specialize (H5 r). by destruct r.
Qed.

Create HintDb tables.
#[local] Hint Resolve reserve_ok close_ok expire_ok close_migration_ok insert_server_ok update_row_ok
  change_server_ok remove_server_ok remove_orphan_ok reset_servers_ok create_app_ok app_replicas_ok
  update_app_ok app_generation_ok delete_app_ok create_instance_ok attempts_ok reset_attempts_ok
  instance_status_ok instance_node_ok assign_reservation_ok delete_instance_ok decision_ok : tables.

Lemma db_step_ok db db' : tables_ok db -> db_step db db' -> tables_ok db'.
Proof. intros T Hs. destruct Hs; auto with tables. by apply update_app_ok. Qed.

(** ** Property *)

(** Every statement keeps the tables well formed: rows stay under their
    keys, the foreign keys and the checks of the schema hold, no amount is
    negative, an assigned allocation is on the node of its server, and no two
    instances of an application have the same index. *)
Lemma statements_keep_tables db db' : tables_ok db -> rtc db_step db db' -> tables_ok db'.
Proof.
  intros T H. induction H as [|db db1 db2 Hs _ IH]; [done|]. by apply IH, (db_step_ok db).
Qed.

(** ** The example tables *)

Lemma example_tables_ok : tables_ok example_db.
Proof.
  split; try (intros k x H; cbn in H; rows H).
  all: try (by (split; [done|]; unfold node_ok, total_memory, total_disk; cbn; lia)).
  - split_and!; [done|done|by eexists|intros []; cbn; lia].
  - intros id [= <-]. exists example_server. by split.
  - done.
  - done.
  - intros i' Hi. cbn in Hi. by rewrite lookup_empty in Hi.
  - split_and!; [done|set_solver|set_solver|by eexists|done|intros []; cbn; lia].
  - intros d Hd. by apply elem_of_nil in Hd.
Qed.

Definition example_create : CreateServerRequest :=
  mkCreateServerRequest "second" "a" "u1" "egg" "p2" [] 0 1024 0 2000 0 0 0 0 0 "" false "" "" ∅ "" false ∅.

Lemma statements_keep_tables_witness :
  exists db', rtc db_step example_db db' /\ (db_servers db' !! "s1") = None /\
    is_Some (db_allocations db' !! "p2" ≫= al_ServerID) /\ tables_ok db'.
Proof.
  set (db1 := snd (insert_server example_create "s2" 600 (Got tt) example_db)).
  set (db2 := snd (HardDeleteServer "s1" db1)).
  assert (Hs : rtc db_step example_db db2).
  { eapply rtc_l; [apply (step_insert_server _ example_create "s2" 600 (Got tt))|].
    apply rtc_once, (step_remove_server _ "s1"). }
  exists db2. split_and!; [done|vm_compute; reflexivity|by vm_compute; eexists|].
  exact (statements_keep_tables example_db db2 example_tables_ok Hs).
Defined.
