(* ===== verification/ControlPlane.v ===== *)
(** * Requests of the control plane

    What the services of the control plane ask of the outside ([Eff]): the
    statements on the tables, the calls of the runtime on a node
    ([forge/api/internal/runtime]), events, metrics, the clock.  A function of
    a service is a program ([prog Eff]).  [serve] answers the requests of a
    program that has the control plane to itself. *)
From Stdlib Require Import ZArith Lia Floats.SpecFloat.
From stdpp Require Import base gmap strings list fin_maps.
From coqutil Require Import Datatypes.RecordSettersUsingExistingGetters.
From S2P Require Import Prelude GoStrings GoSort Strategy Programs Capacity Servers.
Import RecordSetNotations1.
#[local] Open Scope string_scope.
#[local] Open Scope list_scope.
#[local] Open Scope Z_scope.
#[local] Open Scope go_scope.

(** ** What a node is told about a server *)

(* go: store/store.go type:ServerControlTarget *)
Record ServerControlTarget := mkServerControlTarget {
  ct_ServerID : string;
  ct_NodeURL : string;
  ct_NodeToken : string;
  ct_RuntimeProvider : string
}.

(* go: store/store.go type:ServerRuntimeAllocation *)
Record ServerRuntimeAllocation := mkServerRuntimeAllocation {
  sa_ID : string;
  sa_IP : string;
  sa_Port : Z;
  sa_ContainerPort : Z;
  sa_Protocol : string
}.

(* go: store/store.go type:ServerMount *)
Record ServerMount := mkServerMount {
  sm_ID : string;
  sm_Name : string;
  sm_Source : string;
  sm_Target : string;
  sm_ReadOnly : bool;
  sm_UserMountable : bool
}.

(* go: store/store.go type:RegistryCredential *)
Record RegistryCredential := mkRegistryCredential {
  cr_Username : string;
  cr_Password : string;
  cr_IdentityToken : string;
  cr_ServerAddress : string
}.

(* go: store/store.go type:ServerProvisionTarget *)
Record ServerProvisionTarget := mkServerProvisionTarget {
  pt_ServerID : string;
  pt_EggID : string;
  pt_Name : string;
  pt_NodeURL : string;
  pt_NodeToken : string;
  pt_RuntimeProvider : string;
  pt_Image : string;
  pt_StartupCommand : string;
  pt_InstallScript : string;
  pt_InstallContainer : string;
  pt_InstallEntrypoint : string;
  pt_ConfigJSON : string;
  pt_FileDenylist : string;
  pt_Environment : gmap string string;
  pt_Mounts : list ServerMount;
  pt_MemoryMB : Z;
  pt_SwapMB : Z;
  pt_CPUShares : Z;
  pt_CPULimit : Z;
  pt_DiskMB : Z;
  pt_IOWeight : Z;
  pt_Threads : string;
  pt_OOMDisabled : bool;
  pt_ContainerUID : Z;
  pt_ContainerGID : Z;
  pt_AllocationIP : string;
  pt_AllocationPort : Z;
  pt_Allocations : list ServerRuntimeAllocation;
  pt_Suspended : bool;
  pt_Installed : bool;
  pt_Status : string;
  pt_SkipScripts : bool;
  pt_DockerLabels : gmap string string;
  pt_RegistryAuth : option RegistryCredential
}.

(* go: runtime/runtime.go type:Target *)
Record RuntimeTarget := mkRuntimeTarget {
  t_NodeID : string;
  t_NodeURL : string;
  t_NodeToken : string;
  t_ServerID : string;
  t_Provider : string
}.

(* go: runtime/runtime.go type:Port *)
Record Port := mkPort { po_HostIP : string; po_HostPort : Z; po_ContainerPort : Z; po_Protocol : string }.
(* go: runtime/runtime.go type:Mount *)
Record Mount := mkMount { mo_Source : string; mo_Target : string; mo_ReadOnly : bool }.
(* go: runtime/runtime.go type:RegistryAuth *)
Record RegistryAuth := mkRegistryAuth {
  ra_Username : string;
  ra_Password : string;
  ra_IdentityToken : string;
  ra_RegistryToken : string;
  ra_ServerAddress : string
}.

(** The fields the control plane fills; the rest keep their zero values. *)
(* go: runtime/runtime.go type:CreateServerRequest *)
Record RuntimeCreateRequest := mkRuntimeCreateRequest {
  rq_ServerID : string;
  rq_Name : string;
  rq_Image : string;
  rq_Command : list string;
  rq_Env : list string;
  rq_Ports : list Port;
  rq_Mounts : list Mount;
  rq_MemoryMB : Z;
  rq_SwapMB : Z;
  rq_CPUShares : Z;
  rq_CPULimit : Z;
  rq_DiskMB : Z;
  rq_IOWeight : Z;
  rq_Threads : string;
  rq_OOMDisabled : bool;
  rq_UID : Z;
  rq_GID : Z;
  rq_RegistryAuth : option RegistryAuth
}.

(* go: runtime/runtime.go type:InstallRequest *)
Record InstallRequest := mkInstallRequest {
  ir_ServerID : string;
  ir_Image : string;
  ir_Entrypoint : string;
  ir_Script : string;
  ir_Env : gmap string string
}.

(** ** What it answers *)

(* go: runtime/runtime.go type:InstallResponse *)
Record InstallResponse := mkInstallResponse {
  is_ServerID : string;
  is_Accepted : bool;
  is_Mode : string;
  is_ExitCode : Z;
  is_Logs : string
}.

(* go: runtime/runtime.go type:PowerResponse *)
Record PowerResponse := mkPowerResponse {
  pw_ServerID : string;
  pw_Signal : string;
  pw_Accepted : bool;
  pw_Mode : string
}.

(* go: runtime/runtime.go type:Inspection *)
Record Inspection := mkInspection {
  i_ServerID : string;
  i_Exists : bool;
  i_Provider : string;
  i_Running : bool;
  i_Status : string;
  i_StartedAt : Time;
  i_StateKnown : bool
}.

(** The calls of the runtime, with what they answer.  [CreateWorkload] answers
    whether the node accepted. *)
Inductive NodeCall : Type -> Type :=
| SyncConfiguration : NodeCall unit
| CreateWorkload (req : RuntimeCreateRequest) : NodeCall bool
| InstallWorkload (req : InstallRequest) : NodeCall InstallResponse
| ReinstallWorkload (req : InstallRequest) : NodeCall InstallResponse
| DeleteWorkload : NodeCall PowerResponse
| StartWorkload : NodeCall PowerResponse
| StopWorkload : NodeCall PowerResponse
| RestartWorkload : NodeCall PowerResponse
| KillWorkload : NodeCall PowerResponse
| InspectWorkload : NodeCall Inspection
| ResizeWorkload (memoryMB cpu : Z) : NodeCall unit.

(** ** Requests *)

Inductive Metric :=
| PlacementReservationsTotal_ | ReservationConflictsTotal | ReservationExpirationsTotal
| PlacementRejectionsTotal | CapacityExceededTotal
| EvacuationPlansTotal | EvacuationCandidatesTotal | EvacuationValidationFailuresTotal
| StorageLocalSkippedTotal | OrphanDetectionTotal
| MigrationTotal | MigrationCompletedTotal | MigrationFailedTotal | CleanupCompletedTotal
| ReconciliationTotal | ReconciliationFailures.

Inductive Event :=
| EventReservation (kind : string) (r : PlacementReservation)
| EventNodeCapacityExceeded (node resource : string) (available requested : Z)
| EventPlacementCreated (region node allocation : string) (manual : bool)
| EventServerCreated (server : string)
| EventServerDeleted (server : string) (orphaned : bool)
| EventServerPower (kind server signal : string)
| EventDesiredState (server state signal : string)
| EventSuspended (server : string) (suspended : bool)
| EventActualState (server state reason : string)
| EventRemediate (server node reason : string) (healthy : bool)
| EventEvacuation (kind subject : string)
| EventMigration (kind migration : string).

(** [Read] is a query; the other requests of the database change it, and are
    told apart because the proofs treat each differently.  [ControlTarget] and
    [ProvisionTarget] join rows with credentials that are decrypted on the way.
    [Compute] is a call of the placement engine, whose world (context, random
    source, log) is its own. *)
Inductive Eff : Type -> Type :=
| Read {A} (q : Time -> Db -> answer A) : Eff (answer A)
| Reserve (req : CreatePlacementReservationRequest) : Eff (answer PlacementReservation)
| CloseReservation (id status : string) : Eff (answer PlacementReservation)
| ExpireAll : Eff (answer (list PlacementReservation))
| CloseForMigration (migration status : string) : Eff (answer (list PlacementReservation))
| InsertServer (req : CreateServerRequest) : Eff (answer string)
| SetServer (id : string) (c : ServerChange) : Eff (answer unit)
| ChangeServer (id : string) (req : UpdateServerRequest) : Eff (answer unit)
| RemoveServer (id : string) (orphan : option string) : Eff (answer unit)
| ResetServers (node : string) : Eff (answer unit)
| ControlTarget (id : string) : Eff (answer ServerControlTarget)
| ProvisionTarget (id : string) : Eff (answer ServerProvisionTarget)
| MountsOf (id : string) : Eff (answer (list ServerMount))
| OnNode {A} (t : RuntimeTarget) (c : NodeCall A) : Eff (result A)
| ContextErr : Eff error
| Clock : Eff Time
| Compute {A} (m : St Strategy.World A) : Eff A
| Predict (node : string) : Eff (result (option (spec_float * spec_float * spec_float)))
| Count (m : Metric) : Eff unit
| Publish (e : Event) : Eff unit.

Abbreviation P := (prog Eff) (only parsing).

(** A call that returns [(T, error)]: early return on an error. *)
Definition ptry {A B} (m : P (answer A)) (k : A -> P (answer B)) : P (answer B) :=
  pbind m (fun r => match r with Got a => k a | Failed e => Ret (Failed e) end).

Notation "'let?^' x := m 'in' k" := (ptry m (fun x => k))
  (at level 200, x binder, m at level 200, k at level 200, only parsing) : go_scope.
Notation "m ;;^ k" := (pbind m (fun _ => k))
  (at level 100, k at level 200, right associativity, only parsing) : go_scope.

Definition got {A} (a : A) : P (answer A) := Ret (Got a).
Definition fails {A} (msg : string) : P (answer A) := Ret (Failed (ErrText msg)).

Fixpoint for_each {A} (l : list A) (body : A -> P unit) : P unit :=
  match l with [] => Ret tt | a :: l => body a ;;^ for_each l body end.

(** [m] only for what it does. *)
Definition ignore {A} (m : P A) : P unit := m ;;^ Ret tt.

(** Errors of the runtime as errors of the services. *)
Definition of_result {A} (r : result A) : answer A :=
  match r with Ok a => Got a | Err e => Failed (ErrText e) end.

(** ** Runs of the programs *)

Lemma returns_ret {E A} (a b : A) tr : returns (E := E) (Ret a) tr b -> tr = [] /\ a = b.
Proof. by destruct tr. Qed.

Lemma returns_one {E X} (e : E X) tr x : returns (request e) tr x -> tr = [answered e x].
Proof. intros H. destruct tr as [|ev tr]; [done|]. destruct H as (y & -> & [-> ->]%returns_ret). done. Qed.

Lemma returns_try {A B} (m : P (answer A)) (k : A -> P (answer B)) tr b :
  returns (ptry m k) tr (Got b) ->
  exists a tr1 tr2, tr = tr1 ++ tr2 /\ returns m tr1 (Got a) /\ returns (k a) tr2 (Got b).
Proof.
  intros (r & tr1 & tr2 & -> & H1 & H2)%returns_bind. destruct r as [a|e]; [|by apply returns_ret in H2 as [_ H2]].
  by exists a, tr1, tr2.
Qed.

(** Was this answered in the run? *)
Definition happened {X} (e : Eff X) (x : X) (tr : list (exchange Eff)) : Prop := answered e x ∈ tr.

Lemma happened_app {X} (e : Eff X) x tr1 tr2 :
  happened e x tr1 \/ happened e x tr2 -> happened e x (tr1 ++ tr2).
Proof. unfold happened. by rewrite elem_of_app. Qed.

Lemma happened_app_iff {X} (e : Eff X) x tr1 tr2 :
  happened e x (tr1 ++ tr2) <-> happened e x tr1 \/ happened e x tr2.
Proof. unfold happened. by rewrite elem_of_app. Qed.

Lemma happened_head {X} (e : Eff X) x tr : happened e x (answered e x :: tr).
Proof. left. Qed.

Lemma happened_cons {X} (e : Eff X) x ev tr : happened e x tr -> happened e x (ev :: tr).
Proof. by right. Qed.

#[export] Hint Resolve happened_head happened_cons : go.

(** Takes a run of a bind, a try or a [Ret] apart. *)
Ltac run :=
  repeat match goal with
  | H : returns (ptry _ _) _ (Got _) |- _ => apply returns_try in H as (? & ? & ? & -> & ? & ?)
  | H : returns (pbind (request _) _) _ _ |- _ => apply returns_request in H as (? & ? & -> & ?)
  | H : returns (pbind _ _) _ _ |- _ => apply returns_bind in H as (? & ? & ? & -> & ? & ?)
  | H : returns (got _) _ _ |- _ => apply returns_ret in H as [-> ?]
  | H : returns (fails _) _ _ |- _ => apply returns_ret in H as [-> ?]
  | H : returns (Ret _) _ _ |- _ => apply returns_ret in H as [-> ?]
  | H : returns (request _) _ _ |- _ => apply returns_one in H as ->
  | H : ?x = Got _ |- _ => is_var x; subst x
  | H : Got _ = Got _ |- _ => injection H; clear H; intros; subst
  | H : Failed _ = Got _ |- _ => discriminate H
  | H : Got _ = Failed _ |- _ => discriminate H
  end; subst.

Ltac hap := unfold happened in *; rewrite ?elem_of_app, ?elem_of_cons; auto 10.

(** *** Programs by their requests *)

(** Requests that change nothing. *)
Definition quiet (X : Type) (e : Eff X) : Prop :=
  match e with
  | Read _ | ControlTarget _ | ProvisionTarget _ | MountsOf _ | OnNode _ _ | ContextErr | Clock | Compute _ | Predict _
  | Count _ | Publish _ => True
  | _ => False
  end.

(** Goes through the text of a program; what it calls is in the hints. *)
Create HintDb requests.
Ltac requests :=
  unfold ptry, got, fails, ignore;
  repeat first
    [ exact I | assumption | solve [auto with requests nocore]
    | match goal with
      | |- only _ (pbind _ _) => apply only_bind; [|intros]
      | |- only _ (request _) => apply only_request; exact I
      | |- only _ (Ret _) => exact I
      | |- only _ (match ?x with _ => _ end) => destruct x
      | |- only _ (let '(_, _) := ?x in _) => destruct x
      end ].

Lemma for_each_only {A} ok (l : list A) body :
  (forall a, only ok (body a)) -> only ok (for_each l body).
Proof. intros H. induction l as [|a l IH]; [exact I|]. cbn [for_each]. apply only_bind; [apply H|by intros]. Qed.

(** ** Answers to a program that runs alone *)

(** The tables, the clock, the world of the engine, and the number of ids
    given out. *)
Record World := mkWorld {
  w_db : Db;
  w_now : Time;
  w_engine : Strategy.World;
  w_ids : nat
}.

Definition fresh_id (n : nat) : string := cat ["id-"; itoa (Z.of_nat n)].

Section Serve.
(** What nodes and their credentials answer, and what the statement that enters
    a change of a server in the logs answers; servers have no mounts. *)
Context (on_node : forall A, RuntimeTarget -> NodeCall A -> result A)
        (control_target : string -> answer ServerControlTarget)
        (provision_target : string -> answer ServerProvisionTarget)
        (entry : string -> ServerChange -> answer unit).

Definition serve (X : Type) (e : Eff X) : World -> X * World :=
  match e in Eff X return World -> X * World with
  | Read q => fun w => (q (w_now w) (w_db w), w)
  | Reserve req => fun w =>
      let r := CreatePlacementReservation req (fresh_id (w_ids w)) (w_now w) (w_now w) (fun d => d) (w_db w) in
      (fst r, w <| w_db := snd r |> <| w_ids := S (w_ids w) |>)
  | CloseReservation id status => fun w =>
      let r := UpdatePlacementReservationStatus id status (w_now w) (w_db w) in (fst r, w <| w_db := snd r |>)
  | ExpireAll => fun w =>
      let r := ExpirePlacementReservations (w_now w) (w_db w) in (fst r, w <| w_db := snd r |>)
  | CloseForMigration id status => fun w =>
      let r := UpdatePlacementReservationsForMigration id status (w_now w) (w_db w) in
      (fst r, w <| w_db := snd r |>)
  | InsertServer req => fun w =>
      let r := insert_server req (fresh_id (w_ids w)) (w_now w) (Got tt) (w_db w) in
      (fst r, w <| w_db := snd r |> <| w_ids := S (w_ids w) |>)
  | SetServer id c => fun w => let r := change_server id c (entry id c) (w_db w) in (fst r, w <| w_db := snd r |>)
  | ChangeServer id req => fun w => let r := UpdateServer id req (w_db w) in (fst r, w <| w_db := snd r |>)
  | RemoveServer id orphan => fun w =>
      let r := match orphan with
               | Some err => RecordOrphanAndHardDeleteServer id err (w_db w)
               | None => HardDeleteServer id (w_db w) end in (fst r, w <| w_db := snd r |>)
  | ResetServers node => fun w =>
      let r := ResetNodeServerStates node (w_db w) in (fst r, w <| w_db := snd r |>)
  | ControlTarget id => fun w => (control_target id, w)
  | ProvisionTarget id => fun w => (provision_target id, w)
  | MountsOf id => fun w => (Got [], w)
  | @OnNode A t c => fun w => (on_node A t c, w)
  | ContextErr => fun w => (None, w)
  | Clock => fun w => (w_now w, w)
  | Compute m => fun w => let r := m (w_engine w) in (fst r, w <| w_engine := snd r |>)
  | Predict _ => fun w => (Ok None, w)
  | Count _ => fun w => (tt, w)
  | Publish _ => fun w => (tt, w)
  end.
End Serve.

(** Every entry is made. *)
Definition entered (id : string) (c : ServerChange) : answer unit := Got tt.
