(* ===== verification/Reservations.v ===== *)
(** * The reservation manager

    [forge/api/internal/services/reservations/service.go]: the manager through
    which the services reserve, confirm, cancel and expire capacity.  Its
    expiry loop only repeats [ExpireReservations].

    Logging is left out.  The manager's mutex only protects its counters, so
    [increment] is one request. *)
From Stdlib Require Import ZArith Lia Floats.SpecFloat.
From stdpp Require Import base gmap strings list fin_maps.
From coqutil Require Import Datatypes.RecordSettersUsingExistingGetters.
From S2P Require Import Prelude GoStrings GoSort Programs Capacity Servers ControlPlane.
Import RecordSetNotations1.
#[local] Open Scope string_scope.
#[local] Open Scope list_scope.
#[local] Open Scope Z_scope.
#[local] Open Scope go_scope.

(** ** The manager *)

(** The publisher may be absent, the store too, and so may the manager. *)
(* go: services/reservations/service.go type:Manager *)
Record ReservationManager := mkReservationManager { rm_store : bool; rm_publisher : bool }.

(* go: services/reservations/service.go const:ErrUnavailable *)
Definition ErrUnavailable : string := "reservation manager is not configured".
(* go: services/reservations/service.go const:errReservationIDRequired *)
Definition errReservationIDRequired : string := "reservation id is required".

(* go: services/reservations/service.go func:IsConflict *)
Definition IsConflict (err : StoreError) : bool :=
  match err with
  | ErrReservationCapacityExceeded _ | ErrReservationServerBusy | ErrReservationMigrationBusy => true
  | _ => false
  end.

(* go: services/reservations/service.go func:ValidateReservationRequest *)
Definition ValidateReservationRequest (now : Time) (req : CreatePlacementReservationRequest) : error :=
  if (TrimSpace (rr_NodeID req) =? "")%string then Some "nodeId is required"
  else if (rr_CPU req <? 0) || (rr_Memory req <? 0) || (rr_Disk req <? 0)
  then Some "reservation capacity must not be negative"
  else if (rr_CPU req =? 0) && (rr_Memory req =? 0) && (rr_Disk req =? 0)
  then Some "reservation must request capacity"
  else if negb (rr_ExpiresAt req =? zeroTime) && negb (After (rr_ExpiresAt req) now)
  then Some "reservation expiry must be in the future"
  else if negb (rr_ReservationType req =? "")%string &&
          negb (slices_contains reservation_types (rr_ReservationType req))
  then Some (cat ["unknown reservation type "; quote (rr_ReservationType req)])
  else if negb (rr_Status req =? "")%string && negb (open_status (rr_Status req))
  then Some (cat ["reservation status "; quote (rr_Status req); " cannot hold capacity"])
  else None.

Section Manager.
Context (m : option ReservationManager).

(* go: services/reservations/service.go func:Manager.reservationStore *)
Definition reservationStore : answer unit :=
  match m with
  | Some mgr => if rm_store mgr then Got tt else Failed (ErrText ErrUnavailable)
  | None => Failed (ErrText ErrUnavailable)
  end.

(* go: services/reservations/service.go func:Manager.publish *)
Definition publish_reservation (kind : string) (r : PlacementReservation) : P unit :=
  match m with
  | Some mgr => if rm_publisher mgr then request (Publish (EventReservation kind r)) else Ret tt
  | None => Ret tt
  end.

(* go: services/reservations/service.go func:Manager.increment *)
Definition increment (c : Metric) : P unit :=
  match m with Some _ => request (Count c) | None => Ret tt end.

(* go: services/reservations/service.go func:Manager.CreateReservation *)
Definition CreateReservation (req : CreatePlacementReservationRequest) : P (answer PlacementReservation) :=
  let^ now := request Clock in
  match ValidateReservationRequest now req with
  | Some err => fails err
  | None =>
      match reservationStore with
      | Failed e => Ret (Failed e)
      | Got _ =>
          let^ r := request (Reserve req) in
          match r with
          | Failed e =>
              (if IsConflict e then increment ReservationConflictsTotal else Ret tt) ;;^
              Ret (Failed e)
          | Got reservation =>
              increment PlacementReservationsTotal_ ;;^
              publish_reservation "ReservationCreated" reservation ;;^
              got reservation
          end
      end
  end.

(* go: services/reservations/service.go func:Manager.transitionReservation *)
Definition transitionReservation (reservationID status kind : string) : P (answer PlacementReservation) :=
  match reservationStore with
  | Failed e => Ret (Failed e)
  | Got _ =>
      if (TrimSpace reservationID =? "")%string then fails errReservationIDRequired
      else
        let?^ reservation := request (CloseReservation reservationID status) in
        publish_reservation kind reservation ;;^
        got reservation
  end.

(* go: services/reservations/service.go func:Manager.ConfirmReservation *)
Definition ConfirmReservation (id : string) := transitionReservation id "completed" "ReservationConfirmed".
(* go: services/reservations/service.go func:Manager.CancelReservation *)
Definition CancelReservation (id : string) := transitionReservation id "cancelled" "ReservationCancelled".
(* go: services/reservations/service.go func:Manager.ExpireReservation *)
Definition ExpireReservation (id : string) : P (answer PlacementReservation) :=
  let?^ reservation := transitionReservation id "expired" "ReservationExpired" in
  increment ReservationExpirationsTotal ;;^
  got reservation.

(* go: services/reservations/service.go func:Manager.ExpireReservations *)
Definition ExpireReservations : P (answer (list PlacementReservation)) :=
  match reservationStore with
  | Failed e => Ret (Failed e)
  | Got _ =>
      let?^ reservations := request ExpireAll in
      for_each reservations (fun r =>
        increment ReservationExpirationsTotal ;;^ publish_reservation "ReservationExpired" r) ;;^
      got reservations
  end.

(* go: services/reservations/service.go func:Manager.updateMigrationReservations *)
Definition updateMigrationReservations (migrationID status kind : string) : P unit :=
  match reservationStore with
  | Failed _ => Ret tt
  | Got _ =>
      if (TrimSpace migrationID =? "")%string then Ret tt
      else
        let^ r := request (CloseForMigration migrationID status) in
        match r with
        | Failed _ => Ret tt
        | Got reservations => for_each reservations (publish_reservation kind)
        end
  end.

(* go: services/reservations/service.go func:Manager.CompleteMigrationReservations *)
Definition CompleteMigrationReservations (id : string) :=
  updateMigrationReservations id "completed" "ReservationConfirmed".
(* go: services/reservations/service.go func:Manager.CancelMigrationReservations *)
Definition CancelMigrationReservations (id : string) :=
  updateMigrationReservations id "cancelled" "ReservationCancelled".

(* go: services/reservations/service.go func:Manager.ListReservations *)
Definition ListReservations : P (answer (list PlacementReservation)) :=
  match reservationStore with
  | Failed e => Ret (Failed e)
  | Got _ => request (Read (fun _ => ListPlacementReservations))
  end.

(* go: services/reservations/service.go func:Manager.GetReservation *)
Definition GetReservation (reservationID : string) : P (answer PlacementReservation) :=
  match reservationStore with
  | Failed e => Ret (Failed e)
  | Got _ =>
      if (TrimSpace reservationID =? "")%string then fails errReservationIDRequired
      else request (Read (fun _ => GetPlacementReservation reservationID))
  end.

End Manager.

Lemma publish_reservation_quiet m k p : only quiet (publish_reservation m k p).
Proof. unfold publish_reservation. requests. Qed.

Lemma increment_quiet m c : only quiet (increment m c).
Proof. unfold increment. requests. Qed.

#[export] Hint Resolve publish_reservation_quiet increment_quiet : requests.
