(* ===== verification/Scheduler.v ===== *)
(** * The scheduler

    [forge/api/internal/services/scheduler] ([service.go], [constraints.go],
    [scoring.go]): the service that finds a node for a server.  It reads the
    nodes, keeps those that can take the request, has the placement engine
    score them, and reserves capacity on the best one that still has it.

    [PlaceServer] and what it calls are programs: between two of its reads the
    tables may change.  The predictive scorer is a request ([Predict]); its
    history and rules are not modelled. *)
From Stdlib Require Import ZArith Lia Ascii Floats.SpecFloat.
From stdpp Require Import base gmap strings list fin_maps.
From coqutil Require Import Datatypes.RecordSettersUsingExistingGetters.
From S2P Require Import Prelude GoStrings GoFloat GoSort Constraints Strategy Engine Replica Programs Capacity Servers ControlPlane Reservations.
Import RecordSetNotations1.
#[local] Open Scope string_scope.
#[local] Open Scope list_scope.
#[local] Open Scope Z_scope.
#[local] Open Scope go_scope.

(** ** Requests of the domain *)

(* go: domain/domain.go L145-152 *)
Definition constraint_types : list string := ["required"; "preferred"; "forbidden"].

(* go: domain/domain.go type:PlacementConstraint *)
Record PlacementConstraint := mkPlacementConstraint {
  pc_Type : string;
  pc_Key : string;
  pc_Operator : string;
  pc_Value : string
}.

(* go: domain/domain.go type:PlacementRequest *)
Record PlacementRequest := mkPlacementRequest {
  p_ServerID : string;
  p_RegionID : string;
  p_Region : string;
  p_PreferredNode : string;
  p_RequiredNode : string;
  p_NodeID : string;
  p_AllocationID : string;
  p_SkipReservation : bool;
  p_StorageLocality : string;
  p_RuntimeProvider : string;
  p_Constraints : list PlacementConstraint;
  p_MemoryMB : Z;
  p_CPUShares : Z;
  p_CPU : Z;
  p_DiskMB : Z
}.

(* go: domain/domain.go type:PlacementDecision *)
Record Decision := mkDecision {
  d_RegionID : string;
  d_NodeID : string;
  d_AllocationID : string;
  d_ReservationID : string;
  d_Manual : bool;
  d_Score : spec_float;
  d_Reasons : list string
}.

(* go: services/scheduler/service.go type:NodeScore *)
Record NodeScore := mkNodeScore { no_Node : NodeRow; no_Score : spec_float; no_Reason : string }.

(** ** Normalisation *)

(* go: services/scheduler/service.go func:firstNonEmpty *)
Fixpoint firstNonEmpty (values : list string) : string :=
  match values with
  | [] => ""
  | v :: rest => if negb (TrimSpace v =? "")%string then v else firstNonEmpty rest
  end.

(* go: services/scheduler/service.go func:normalizePlacementConstraints *)
Definition normalizePlacementConstraints (l : list PlacementConstraint) : list PlacementConstraint :=
  filter (fun c => pc_Key c <> "")
    (map (fun c => mkPlacementConstraint (ToLower (TrimSpace (pc_Type c))) (ToLower (TrimSpace (pc_Key c)))
                     (ToLower (TrimSpace (pc_Operator c))) (TrimSpace (pc_Value c))) l).

(* go: services/scheduler/scoring.go func:canonicalStorageLocality *)
Definition canonicalStorageLocality := CanonicalStorageLocality.

Definition zero_or (d z : Z) : Z := if z =? 0 then d else z.

(* go: services/scheduler/service.go func:normalizeRequest *)
Definition normalizeRequest (req : PlacementRequest) : PlacementRequest :=
  mkPlacementRequest (p_ServerID req)
    (TrimSpace (firstNonEmpty [p_RegionID req; p_Region req])) (p_Region req)
    (TrimSpace (p_PreferredNode req))
    (TrimSpace (firstNonEmpty [p_RequiredNode req; p_NodeID req])) (p_NodeID req)
    (TrimSpace (p_AllocationID req)) (p_SkipReservation req)
    (canonicalStorageLocality (p_StorageLocality req)) (TrimSpace (p_RuntimeProvider req))
    (normalizePlacementConstraints (p_Constraints req))
    (zero_or 2048 (p_MemoryMB req)) (p_CPUShares req)
    (zero_or 1024 (zero_or (p_CPUShares req) (p_CPU req)))
    (zero_or 10240 (p_DiskMB req)).

(** ** Constraints in the engine's vocabulary *)

(** [strings.Split] by a one-byte separator. *)
Fixpoint split_on (c : ascii) (s : string) : list string :=
  match s with
  | EmptyString => [""]
  | String d rest =>
      if (d =? c)%char then "" :: split_on c rest
      else match split_on c rest with w :: ws => String d w :: ws | [] => [String d ""] end
  end.

(* go: services/scheduler/service.go func:splitConstraintValues *)
Definition splitConstraintValues (value : string) : list string :=
  filter (fun p => p <> "") (map TrimSpace (split_on "," value)).

Definition one_of (l : list string) (op : string) : bool := slices_contains l op.

(* go: services/scheduler/service.go func:normalizeConstraintOperator *)
Definition normalizeConstraintOperator (op : string) : string :=
  if one_of ["eq"; "in"; ""] op then "in"
  else if one_of ["neq"; "notin"; "not-in"] op then "not-in"
  else if (op =? "exists")%string then "exists"
  else if one_of ["not-exists"; "notexists"] op then "not-exists"
  else op.

(* go: services/scheduler/service.go func:invertConstraintOperator *)
Definition invertConstraintOperator (op : string) : string :=
  if one_of ["eq"; "in"; ""] op then "not-in"
  else if one_of ["neq"; "notin"; "not-in"] op then "in"
  else if (op =? "exists")%string then "not-exists"
  else if one_of ["not-exists"; "notexists"] op then "exists"
  else op.

(* go: services/scheduler/service.go loop:toPlacementConstraints *)
Definition toPlacementConstraint (c : PlacementConstraint) : Constraint :=
  let key := ToLower (TrimSpace (pc_Key c)) in
  let op := ToLower (TrimSpace (pc_Operator c)) in
  mkConstraint
    (if (key =? "region")%string then ConstraintRegion
     else if one_of ["node_id"; "node"] key then ConstraintNode
     else ConstraintLabel)
    (if (pc_Type c =? "forbidden")%string then invertConstraintOperator op
     else normalizeConstraintOperator op)
    key (splitConstraintValues (pc_Value c)) (negb (pc_Type c =? "preferred")%string).

(* go: services/scheduler/service.go func:toPlacementConstraints *)
Definition toPlacementConstraints (l : list PlacementConstraint) : list Constraint :=
  map toPlacementConstraint l.

(* go: services/scheduler/service.go func:filterablePlacementConstraints *)
Definition filterablePlacementConstraints (l : list Constraint) : list Constraint :=
  filter (fun c => k_Type c = ConstraintRegion \/ k_Type c = ConstraintNode) l.

(* go: services/scheduler/service.go func:toWorkloadRequest *)
Definition toWorkloadRequest (req : PlacementRequest) (ctx : ConstraintContext) : WorkloadRequest :=
  mkWorkloadRequest (p_CPU req) (p_MemoryMB req) (p_DiskMB req) (p_PreferredNode req) (p_RequiredNode req)
    (p_RegionID req) (p_StorageLocality req) (toPlacementConstraints (p_Constraints req)) ctx.

(** ** Nodes *)

(* go: services/scheduler/service.go func:HasCapacity *)
Definition HasCapacity (total available requested : Z) : bool :=
  if requested <=? 0 then true
  else if total <=? 0 then false
  else requested <=? available.

(* go: services/scheduler/service.go func:requiresRuntimeProviderFilter *)
Definition requiresRuntimeProviderFilter (provider : string) : bool :=
  let provider := TrimSpace provider in
  negb (provider =? "")%string && negb (EqualFold provider "docker").

Definition runs_provider (runtime : string) (n : NodeRow) : bool :=
  let provider := TrimSpace (nd_RuntimeProvider n) in
  EqualFold provider runtime || ((provider =? "")%string && EqualFold runtime "docker").

(* go: services/scheduler/service.go func:filterByRuntimeProvider *)
Definition filterByRuntimeProvider (nodes : list NodeRow) (runtime : string) : list NodeRow :=
  let runtime := TrimSpace runtime in
  if (runtime =? "")%string then nodes else filter (fun n => runs_provider runtime n = true) nodes.

(* go: services/scheduler/service.go func:nodeRegionEnabled *)
Definition nodeRegionEnabled (n : NodeRow) (regions : list RegionRow) : bool :=
  match nd_RegionID n with
  | None => true
  | Some id => match find (fun r => rg_ID r =? id)%string regions with
               | Some r => rg_Enabled r | None => false end
  end.

(* go: services/scheduler/service.go func:regionIDOf *)
Definition regionIDOf (n : NodeRow) : string := default "" (nd_RegionID n).

(* go: services/scheduler/scoring.go func:storageLocalityForProvider *)
Definition storageLocalityForProvider (provider : string) : string :=
  if one_of ["nfs"; "shared"] (ToLower (TrimSpace provider)) then "shared" else "local".

(* go: services/scheduler/scoring.go func:storageLocalityEqual *)
Definition storageLocalityEqual (a b : string) : bool :=
  (canonicalStorageLocality a =? canonicalStorageLocality b)%string.

(* go: services/scheduler/service.go func:nodeToCandidate *)
Definition nodeToCandidate (s : NodeCapacitySnapshot) (n : NodeRow) : Candidate :=
  let status :=
    if nd_Maintenance n || (nd_DesiredState n =? "maintenance")%string then "maintenance"
    else if nd_Draining n || (nd_DesiredState n =? "draining")%string then "draining"
    else "online" in
  mkCandidate (nd_ID n) (regionIDOf n) (ns_TotalCPU s) (ns_TotalMemory s) (ns_TotalDisk s)
    (ns_AllocatedCPU s) (ns_AllocatedMemory s) (ns_AllocatedDisk s)
    (ns_AvailableCPU s) (ns_AvailableMemory s) (ns_AvailableDisk s) (ns_ServerCount s)
    (nd_Maintenance n) (nd_Draining n) status (storageLocalityForProvider (nd_RuntimeProvider n))
    (nd_RuntimeProvider n).

(** Is the node up, wanted and in the region asked for? *)
Definition node_up (n : NodeRow) : bool :=
  (nd_ActualState n =? "online")%string &&
  negb (nd_DesiredState n =? "maintenance")%string && negb (nd_DesiredState n =? "draining")%string &&
  negb (nd_Maintenance n) && negb (nd_Draining n).

Definition in_region (region : string) (n : NodeRow) : bool :=
  (region =? "")%string || bool_decide (nd_RegionID n = Some region).

(** ** Operator constraints ([ConstraintScheduler]) *)

(* go: services/scheduler/constraints.go func:ConstraintScheduler.AddConstraint *)
Definition AddConstraint (c : PlacementConstraint) (l : list PlacementConstraint) := l ++ [c].

(** Out of range does nothing. *)
(* go: services/scheduler/constraints.go func:ConstraintScheduler.RemoveConstraint *)
Definition RemoveConstraint (index : Z) (l : list PlacementConstraint) : list PlacementConstraint :=
  if (0 <=? index) && (index <? Z.of_nat (length l))
  then take (Z.to_nat index) l ++ drop (S (Z.to_nat index)) l else l.

(* go: services/scheduler/constraints.go func:ConstraintScheduler.getConstraintValue *)
Definition getConstraintValue (key : string) (n : NodeRow) : answer string :=
  if (key =? "region")%string then Got (regionIDOf n)
  else if (key =? "node_id")%string then Got (nd_ID n)
  else if (key =? "name")%string then Got (nd_Name n)
  else Failed (ErrText (cat ["unknown constraint key "; quote key])).

(* go: services/scheduler/constraints.go func:ConstraintScheduler.evaluateConstraint *)
Definition evaluateConstraint (c : PlacementConstraint) (n : NodeRow) : answer bool :=
  let+ value := getConstraintValue (pc_Key c) n in
  let listed := existsb (fun p => TrimSpace p =? value)%string (split_on "," (pc_Value c)) in
  if (pc_Operator c =? "eq")%string then Got (value =? pc_Value c)%string
  else if (pc_Operator c =? "neq")%string then Got (negb (value =? pc_Value c)%string)
  else if (pc_Operator c =? "in")%string then Got listed
  else if (pc_Operator c =? "notin")%string then Got (negb listed)
  else if (pc_Operator c =? "exists")%string then Got (negb (value =? "")%string)
  else Failed (ErrText (cat ["unknown constraint operator "; quote (pc_Operator c)])).

(* go: services/scheduler/constraints.go func:ConstraintScheduler.meetsAllConstraints *)
Fixpoint meetsAllConstraints (l : list PlacementConstraint) (n : NodeRow) : answer bool :=
  match l with
  | [] => Got true
  | c :: rest =>
      let+ matched := evaluateConstraint c n in
      if (pc_Type c =? "required")%string then
        if matched then meetsAllConstraints rest n else Got false
      else if (pc_Type c =? "forbidden")%string then
        if matched then Got false else meetsAllConstraints rest n
      else if (pc_Type c =? "preferred")%string then meetsAllConstraints rest n
      else Failed (ErrText (cat ["unknown constraint type "; quote (pc_Type c)]))
  end.

Fixpoint evaluate_nodes (l : list PlacementConstraint) (nodes : list NodeRow) : P (answer (list NodeRow)) :=
  match nodes with
  | [] => got []
  | n :: rest =>
      let^ err := request ContextErr in
      match err with
      | Some e => fails (cat ["constraint evaluation cancelled: "; e])
      | None =>
          match meetsAllConstraints l n with
          | Failed e => Ret (Failed e)
          | Got ok => let?^ result := evaluate_nodes l rest in got (if ok then n :: result else result)
          end
      end
  end.

(* go: services/scheduler/constraints.go func:ConstraintScheduler.EvaluateConstraints *)
Definition EvaluateConstraints (l : list PlacementConstraint) (nodes : list NodeRow)
    : P (answer (list NodeRow)) :=
  match l with [] => got nodes | _ => evaluate_nodes l nodes end.

(** ** The service *)

(** The predictive scorer, the constraint scheduler, the reservation manager
    and the publisher are optional; [sc_placementV2] is the value of
    [FORGE_PLACEMENT_V2]. *)
(* go: services/scheduler/service.go type:Scheduler *)
Record Scheduler := mkScheduler {
  sc_engine : Engine;
  sc_publisher : bool;
  sc_predictive : bool;
  sc_constraints : option (list PlacementConstraint);
  sc_reservations : option ReservationManager;
  sc_placementV2 : string
}.

(** Normalised and legacy terms. *)
(* go: services/scheduler/scoring.go func:preferredNodeBonus *)
Definition preferredNodeBonus (env : string) : float :=
  if placementV2 env then ratio 30 100 else of_int 1000000000.
(* go: services/scheduler/scoring.go func:storageLocalityBonus *)
Definition storageLocalityBonus (env : string) : float :=
  if placementV2 env then ratio 15 100 else of_int 100000000.
(* go: services/scheduler/scoring.go func:storageLocalityPenalty *)
Definition storageLocalityPenalty (env : string) : float :=
  if placementV2 env then ratio 50 100 else of_int 10000000000.

(** The statements. *)
Definition nodes_read : Eff (answer (list NodeRow)) :=
  Read (fun _ db => Got (isort by_name (values (db_nodes db)))).
Definition regions_read : Eff (answer (list RegionRow)) := Read (fun _ db => Got (db_regions db)).
Definition capacity_read (nodeID : string) : Eff (answer NodeCapacitySnapshot) :=
  Read (fun now db => nodeCapacitySnapshotTx nodeID now db db).

Definition ListNodes : P (answer (list NodeRow)) := request nodes_read.
Definition ListRegions : P (answer (list RegionRow)) := request regions_read.
Definition ReadCapacity (nodeID : string) : P (answer NodeCapacitySnapshot) :=
  request (capacity_read nodeID).

(** Servers join their nodes; the map holds the name of the node. *)
Definition server_nodes (db : Db) : gmap string string :=
  omap (fun s => nd_Name <$> db_nodes db !! sv_NodeID s) (db_servers db).

(* go: services/scheduler/service.go func:Scheduler.serverNodeConstraintCtx *)
Definition serverNodeConstraintCtx : P (answer ConstraintContext) :=
  request (Read (fun _ db => Got (mkConstraintContext (server_nodes db) ∅))).

(** An unreadable server list leaves the context empty. *)
Definition constraint_context : P ConstraintContext :=
  let^ r := serverNodeConstraintCtx in
  Ret match r with Got c => c | Failed _ => mkConstraintContext ∅ ∅ end.

(** Matching ids win over slugs and names only by the order of the regions. *)
(* go: services/scheduler/service.go func:Scheduler.resolveRegionID *)
Definition resolveRegionID (value : string) : P (answer string) :=
  let?^ regions := ListRegions in
  let needle := ToLower (TrimSpace value) in
  got match find (fun r => (ToLower (rg_ID r) =? needle)%string || (ToLower (rg_Slug r) =? needle)%string
                        || (ToLower (rg_Name r) =? needle)%string) regions with
      | Some r => rg_ID r | None => "" end.

Section Service.
Context (s : Scheduler).

(* go: services/scheduler/service.go func:Scheduler.recordPlacementRejection *)
Definition recordPlacementRejection : P unit := request (Count PlacementRejectionsTotal).

(* go: services/scheduler/service.go func:Scheduler.recordCapacityExceeded *)
Definition recordCapacityExceeded (nodeID resource : string) (available requested : Z) : P unit :=
  request (Count PlacementRejectionsTotal) ;;^
  request (Count CapacityExceededTotal) ;;^
  if sc_publisher s then request (Publish (EventNodeCapacityExceeded nodeID resource available requested))
  else Ret tt.

Definition reject : P bool := recordPlacementRejection ;;^ Ret false.

(** The body of the loop for one node: is it kept? *)
(* go: services/scheduler/service.go L209-263 *)
Definition keep_node (req : PlacementRequest) (regions : list RegionRow) (hard : list Constraint)
    (ctx : ConstraintContext) (n : NodeRow) : P bool :=
  if negb (nodeRegionEnabled n regions) then reject
  else if negb (p_RequiredNode req =? "")%string && negb (nd_ID n =? p_RequiredNode req)%string then Ret false
  else if negb (node_up n) then reject
  else if negb (in_region (p_RegionID req) n) then reject
  else
    let^ r := ReadCapacity (nd_ID n) in
    match r with
    | Failed _ => reject
    | Got c =>
        if negb (HasCapacity (ns_TotalCPU c) (ns_AvailableCPU c) (p_CPU req)) then
          recordCapacityExceeded (nd_ID n) "cpu" (ns_AvailableCPU c) (p_CPU req) ;;^ Ret false
        else if negb (HasCapacity (ns_TotalMemory c) (ns_AvailableMemory c) (p_MemoryMB req)) then
          recordCapacityExceeded (nd_ID n) "memory" (ns_AvailableMemory c) (p_MemoryMB req) ;;^ Ret false
        else if negb (HasCapacity (ns_TotalDisk c) (ns_AvailableDisk c) (p_DiskMB req)) then
          recordCapacityExceeded (nd_ID n) "disk" (ns_AvailableDisk c) (p_DiskMB req) ;;^ Ret false
        else if negb (p_StorageLocality req =? "")%string &&
                negb (storageLocalityEqual (p_StorageLocality req)
                        (storageLocalityForProvider (nd_RuntimeProvider n))) then reject
        else
          let candidate := mkCandidate (nd_ID n) (regionIDOf n) 0 0 0 0 0 0 0 0 0 0 false false "" "" "" in
          if negb (bool_decide (hard = [])) && bool_decide (is_Some (CheckHard candidate hard ctx))
          then reject else Ret true
    end.

Fixpoint filter_loop (req : PlacementRequest) (regions : list RegionRow) (hard : list Constraint)
    (ctx : ConstraintContext) (nodes : list NodeRow) : P (answer (list NodeRow)) :=
  match nodes with
  | [] => got []
  | n :: rest =>
      let^ err := request ContextErr in
      match err with
      | Some e => fails (cat ["node filtering cancelled: "; e])
      | None =>
          let^ kept := keep_node req regions hard ctx n in
          let?^ filtered := filter_loop req regions hard ctx rest in
          got (if kept then n :: filtered else filtered)
      end
  end.

(* go: services/scheduler/service.go func:Scheduler.FilterNodes *)
Definition FilterNodes (req : PlacementRequest) (nodes : list NodeRow) : P (answer (list NodeRow)) :=
  let req := normalizeRequest req in
  let?^ regions := ListRegions in
  let hard := filterablePlacementConstraints (toPlacementConstraints (p_Constraints req)) in
  let^ ctx := constraint_context in
  let?^ filtered := filter_loop req regions hard ctx nodes in
  match sc_constraints s with
  | Some l => EvaluateConstraints l filtered
  | None => got filtered
  end.

(** The candidates whose capacity can be read, with their nodes, and the
    reasons of the others. *)
(* go: services/scheduler/service.go L319-335 *)
Fixpoint read_candidates (what : string) (nodes : list NodeRow)
    : P (answer (list (NodeRow * Candidate) * list string)) :=
  match nodes with
  | [] => got ([], [])
  | n :: rest =>
      let^ err := request ContextErr in
      match err with
      | Some e => fails (cat [what; e])
      | None =>
          let^ r := ReadCapacity (nd_ID n) in
          match r with
          | Failed e =>
              recordPlacementRejection ;;^
              let?^ rs := read_candidates what rest in
              got (fst rs, cat [nd_ID n; ": "; store_error_text e] :: snd rs)
          | Got snapshot =>
              let?^ rs := read_candidates what rest in
              got ((n, nodeToCandidate snapshot n) :: fst rs, snd rs)
          end
      end
  end.

(** The terms of the scheduler on top of a score of the engine. *)
(* go: services/scheduler/service.go L349-380 *)
Definition finish_score (req : PlacementRequest) (n : NodeRow) (r : ScoreResult) : P NodeScore :=
  let reason := Join (sr_Reasons r) "; " in
  let^ '(score, reason) :=
    (if sc_predictive s then
       let^ p := request (Predict (nd_ID n)) in
       match p with
       | Ok (Some (trend, affinity, anti)) =>
           Ret (fsub (fadd (fmul (sr_Score r) (fadd f1 trend)) affinity) anti,
                cat [reason; "; predictive: trend="; fmt_fixed 4 trend; " affinity="; fmt_fixed 4 affinity;
                     " anti-affinity="; fmt_fixed 4 anti])
       | _ => Ret (sr_Score r, reason)
       end
     else Ret (sr_Score r, reason)) in
  let '(score, reason) :=
    if negb (p_PreferredNode req =? "")%string && (nd_ID n =? p_PreferredNode req)%string
    then (fadd score (preferredNodeBonus (sc_placementV2 s)), "preferred node") else (score, reason) in
  let '(score, reason) :=
    if negb (p_StorageLocality req =? "")%string then
      if storageLocalityEqual (p_StorageLocality req) (sr_StorageLocality r)
      then (fadd score (storageLocalityBonus (sc_placementV2 s)), cat [reason; "; storage locality match bonus"])
      else (fsub score (storageLocalityPenalty (sc_placementV2 s)),
            cat [reason; "; storage locality mismatch penalty"])
    else (score, reason) in
  Ret (mkNodeScore n score reason).

Fixpoint finish_scores (req : PlacementRequest) (nodeMap : gmap string NodeRow) (results : list ScoreResult)
    : P (list NodeScore) :=
  match results with
  | [] => Ret []
  | r :: rest =>
      match nodeMap !! sr_NodeID r with
      | None => finish_scores req nodeMap rest
      | Some n =>
          let^ x := finish_score req n r in
          let^ scores := finish_scores req nodeMap rest in
          Ret (x :: scores)
      end
  end.

(** The map of the candidates' nodes: of equal ids the last stays. *)
Definition node_map (l : list (NodeRow * Candidate)) : gmap string NodeRow :=
  foldl (fun m x => <[nd_ID (fst x) := fst x]> m) ∅ l.

(* go: services/scheduler/service.go func:Scheduler.ScoreNodes *)
Definition ScoreNodes (req : PlacementRequest) (nodes : list NodeRow) : P (answer (list NodeScore)) :=
  let req := normalizeRequest req in
  let^ ctx := constraint_context in
  let?^ rs := read_candidates "node scoring cancelled: " nodes in
  let '(candidates, unreadable) := rs in
  match candidates, unreadable with
  | [], [] => got []
  | [], _ =>
      fails (cat ["node capacity is unknown for all "; itoa (Z.of_nat (length unreadable));
                  " candidate node(s): "; Join unreadable "; "])
  | _, _ =>
      let^ r := request (Compute (PlaceAll (sc_placementV2 s) (sc_engine s) (map snd candidates)
                                    (toWorkloadRequest req ctx))) in
      match r with
      | Err e => fails e
      | Ok results => let^ scores := finish_scores req (node_map candidates) results in got scores
      end
  end.

(** ** [PlaceServer] *)

Definition higher_node_score (a b : NodeScore) : bool := flt (no_Score b) (no_Score a).

Definition reservation_for (req : PlacementRequest) (n : NodeRow) : CreatePlacementReservationRequest :=
  mkReservationRequest "" (nd_ID n) "" "placement" "" "" (p_CPU req) (p_MemoryMB req) (p_DiskMB req) zeroTime.

(** Reserves on one node; without a manager, straight in the store. *)
(* go: services/scheduler/service.go L136-154 *)
Definition reserve_on (req : PlacementRequest) (n : NodeRow) : P (answer PlacementReservation) :=
  match sc_reservations s with
  | Some mgr => CreateReservation (Some mgr) (reservation_for req n)
  | None => request (Reserve (reservation_for req n))
  end.

Definition decide_on (req : PlacementRequest) (x : NodeScore) (reservationID : string) : Decision :=
  mkDecision (if (p_RegionID req =? "")%string then regionIDOf (no_Node x) else p_RegionID req)
    (nd_ID (no_Node x)) (p_AllocationID req) reservationID (negb (p_RequiredNode req =? "")%string)
    (no_Score x) [no_Reason x; "reserved capacity on placed node"].

(* go: services/scheduler/service.go L129-183 *)
Fixpoint reserve_first (req : PlacementRequest) (scores : list NodeScore) : P (answer Decision) :=
  match scores with
  | [] => fails "insufficient capacity on all candidate nodes"
  | x :: rest =>
      let^ err := request ContextErr in
      match err with
      | Some e => fails (cat ["placement cancelled: "; e])
      | None =>
          if p_SkipReservation req then got (decide_on req x "")
          else
            let^ r := reserve_on req (no_Node x) in
            match r with
            | Got reservation => got (decide_on req x (pr_ID reservation))
            | Failed e =>
                if IsConflict e then reserve_first req rest
                else fails (cat ["reserve capacity on node "; nd_ID (no_Node x); ": "; store_error_text e])
            end
      end
  end.

(** The region may be given by id, slug or name. *)
Definition resolve_region (req : PlacementRequest) : P (answer PlacementRequest) :=
  if (p_RegionID req =? "")%string then got req
  else
    let?^ resolved := resolveRegionID (p_RegionID req) in
    got (if (resolved =? "")%string then req else req <| p_RegionID := resolved |>).

(** The nodes that run what the request asks for. *)
Definition of_runtime (req : PlacementRequest) (nodes : list NodeRow) : list NodeRow :=
  if requiresRuntimeProviderFilter (p_RuntimeProvider req)
  then filterByRuntimeProvider nodes (p_RuntimeProvider req) else nodes.

(* go: services/scheduler/service.go func:Scheduler.PlaceServer *)
Definition PlaceServer (req : PlacementRequest) : P (answer Decision) :=
  let?^ req := resolve_region (normalizeRequest req) in
  if (p_RegionID req =? "")%string && (p_RequiredNode req =? "")%string
  then fails "regionId or required node is required"
  else
    let?^ nodes := ListNodes in
    let?^ filtered := FilterNodes req nodes in
    match of_runtime req filtered with
    | [] => fails "no nodes satisfy placement constraints"
    | filtered =>
        let?^ scores := ScoreNodes req filtered in
        match scores with
        | [] => fails "no nodes available for placement"
        | _ => reserve_first req (isort higher_node_score scores)
        end
    end.

End Service.

(** ** Runs of the programs *)

(** What a node kept by the filter was found to be. *)
Record suitable (req : PlacementRequest) (regions : list RegionRow) (n : NodeRow) : Prop := {
  su_region_enabled : nodeRegionEnabled n regions = true;
  su_required : p_RequiredNode req = "" \/ nd_ID n = p_RequiredNode req;
  su_up : node_up n = true;
  su_region : p_RegionID req = "" \/ nd_RegionID n = Some (p_RegionID req);
  su_storage : p_StorageLocality req = "" \/
    storageLocalityEqual (p_StorageLocality req) (storageLocalityForProvider (nd_RuntimeProvider n)) = true
}.

Definition fits (req : PlacementRequest) (c : NodeCapacitySnapshot) : Prop :=
  HasCapacity (ns_TotalCPU c) (ns_AvailableCPU c) (p_CPU req) = true /\
  HasCapacity (ns_TotalMemory c) (ns_AvailableMemory c) (p_MemoryMB req) = true /\
  HasCapacity (ns_TotalDisk c) (ns_AvailableDisk c) (p_DiskMB req) = true.

Lemma subset_mid {A} (x : A) l1 l2 : l1 ⊆ x :: l1 ++ l2.
Proof. intros y Hy. right. apply elem_of_app. by left. Qed.

Lemma subset_tail {A} (x : A) l1 l2 l3 : l2 ⊆ x :: l1 ++ l2 ++ l3.
Proof. intros y Hy. right. rewrite !elem_of_app. auto. Qed.

Section Runs.
Context (s : Scheduler).

Lemma reject_false tr : returns reject tr true -> False.
Proof. intros H. unfold reject, recordPlacementRejection in H. run. done. Qed.

Lemma exceeded_false node what a b tr :
  returns (recordCapacityExceeded s node what a b ;;^ Ret false) tr true -> False.
Proof. intros H. run. done. Qed.

Lemma kept_node req regions hard ctx n tr :
  returns (keep_node s req regions hard ctx n) tr true ->
  suitable req regions n /\
  (exists c, happened (capacity_read (nd_ID n)) (Got c) tr /\ fits req c) /\
  (hard = [] \/ CheckHard (mkCandidate (nd_ID n) (regionIDOf n) 0 0 0 0 0 0 0 0 0 0 false false "" "" "") hard ctx = None).
Proof.
  unfold keep_node, ReadCapacity. destruct (nodeRegionEnabled n regions) eqn:E1; [|by intros []%reject_false].
  cbn [negb]. destruct (_ && _) eqn:E2; [intros H; run; done|].
  destruct (node_up n) eqn:E3; [|by intros []%reject_false].
  destruct (in_region _ n) eqn:E4; [|by intros []%reject_false]. cbn [negb].
  intros (r & tr' & -> & H)%returns_request.
  destruct r as [c|e]; [|by apply reject_false in H].
  destruct (HasCapacity (ns_TotalCPU c) _ _) eqn:C1; cbn [negb] in H; [|by apply exceeded_false in H].
  destruct (HasCapacity (ns_TotalMemory c) _ _) eqn:C2; cbn [negb] in H; [|by apply exceeded_false in H].
  destruct (HasCapacity (ns_TotalDisk c) _ _) eqn:C3; cbn [negb] in H; [|by apply exceeded_false in H].
  destruct (_ && negb (storageLocalityEqual _ _)) eqn:E5; [by apply reject_false in H|].
  destruct (_ && _) eqn:E6 in H; [by apply reject_false in H|].
  split_and!.
  - split; [done| |done| |].
    + apply andb_false_iff in E2 as [E2|E2]; zb; seqb; auto.
    + unfold in_region in E4. apply orb_true_iff in E4 as [E4|E4]; [seqb; auto|].
      right. by apply bool_decide_eq_true in E4.
    + apply andb_false_iff in E5 as [E5|E5]; zb; seqb; auto.
  - exists c. split; [apply happened_head|done].
  - apply andb_false_iff in E6 as [E6|E6]; zb; [left|right].
    + by apply bool_decide_eq_true in E6.
    + apply bool_decide_eq_false in E6. by apply eq_None_not_Some.
Qed.

Lemma filtered_nodes req regions hard ctx nodes tr l n :
  returns (filter_loop s req regions hard ctx nodes) tr (Got l) -> n ∈ l ->
  n ∈ nodes /\ exists tr0, tr0 ⊆ tr /\ returns (keep_node s req regions hard ctx n) tr0 true.
Proof.
  revert tr l. induction nodes as [|m nodes IH]; intros tr l H Hn; cbn [filter_loop] in H; run.
  { by apply elem_of_nil in Hn. }
  destruct x as [e|]; run. destruct x as [|]; [apply elem_of_cons in Hn as [->|Hn]|];
    [split; [left|]; eexists; (split; [|eassumption]); apply subset_mid|..];
    (match goal with Hf : returns (filter_loop _ _ _ _ _ _) _ _ |- _ =>
       destruct (IH _ _ Hf Hn) as (Hin & tr0 & Hs & Hk) end;
     split; [by right|]; exists tr0; split; [|exact Hk]; etrans; [exact Hs|apply subset_tail]).
Qed.

Lemma evaluated_nodes l nodes tr r n :
  returns (EvaluateConstraints l nodes) tr (Got r) -> n ∈ r ->
  n ∈ nodes /\ meetsAllConstraints l n = Got true.
Proof.
  unfold EvaluateConstraints. destruct l as [|c l]; [intros H Hn; run; done|]. generalize (c :: l) as k.
  clear c l. intros k. revert tr r. induction nodes as [|m nodes IH]; intros tr r H Hn; cbn [evaluate_nodes] in H; run.
  { by apply elem_of_nil in Hn. }
  destruct x as [e|]; run. destruct (meetsAllConstraints k m) as [b|] eqn:E; run.
  destruct b; [apply elem_of_cons in Hn as [->|Hn]; [split; [left|done]|]|];
    (match goal with Hf : returns (evaluate_nodes _ _) _ _ |- _ => destruct (IH _ _ Hf Hn) as [? ?] end;
     split; [by right|done]).
Qed.

Lemma filter_nodes req nodes tr l n :
  returns (FilterNodes s req nodes) tr (Got l) -> n ∈ l ->
  let q := normalizeRequest req in
  n ∈ nodes /\
  (exists regions, happened regions_read (Got regions) tr /\ suitable q regions n) /\
  (exists c, happened (capacity_read (nd_ID n)) (Got c) tr /\ fits q c) /\
  (exists ctx, let hard := filterablePlacementConstraints (toPlacementConstraints (p_Constraints q)) in
     hard = [] \/ CheckHard (mkCandidate (nd_ID n) (regionIDOf n) 0 0 0 0 0 0 0 0 0 0 false false "" "" "") hard ctx = None) /\
  (forall k, sc_constraints s = Some k -> meetsAllConstraints k n = Got true).
Proof.
  intros H Hn q. unfold FilterNodes, ListRegions in H. cbv zeta in H. fold q in H. run.
  match goal with Hf : returns (filter_loop _ _ _ _ _ _) _ (Got ?l0) |- _ => rename l0 into l1; rename Hf into Hfilter end.
  assert (Hl : n ∈ l1 /\ forall k, sc_constraints s = Some k -> meetsAllConstraints k n = Got true).
  { destruct (sc_constraints s) as [k|]; run; [|done].
    match goal with He : returns (EvaluateConstraints _ _) _ _ |- _ =>
      destruct (evaluated_nodes _ _ _ _ _ He Hn) as [? ?] end. split; [done|]. by intros ? [= <-]. }
  destruct Hl as [Hl Hk]. destruct (filtered_nodes _ _ _ _ _ _ _ _ Hfilter Hl) as (Hin & tr0 & Hs & Hkeep).
  apply kept_node in Hkeep as (Hsu & (c & Hc & Hf) & Hh).
  split_and!; [done|eexists; split; [apply happened_head|exact Hsu]| |eexists; exact Hh|done].
  exists c. split; [|done]. apply happened_cons, happened_app. right. apply happened_app. left. by apply Hs.
Qed.

Lemma read_candidates_nodes what nodes tr l u :
  returns (read_candidates what nodes) tr (Got (l, u)) -> forall x, x ∈ l -> fst x ∈ nodes.
Proof.
  revert tr l u. induction nodes as [|m nodes IH]; intros tr l u H x Hx; cbn [read_candidates] in H;
    unfold ReadCapacity, recordPlacementRejection in H; run.
  { by apply elem_of_nil in Hx. }
  match goal with H : returns (match ?o with Some _ => _ | None => _ end) _ _ |- _ =>
    destruct o as [e|]; run end.
  match goal with H : returns (match ?o with Got _ => _ | Failed _ => _ end) _ _ |- _ =>
    destruct o as [c|e]; run end;
  match goal with Hf : returns (read_candidates _ _) _ (Got ?r) |- _ => destruct r as [l' u'] end; cbn [fst snd] in *.
  - apply elem_of_cons in Hx as [->|Hx]; [left|]. right. by eapply IH.
  - right. by eapply IH.
Qed.

Lemma node_map_nodes l k n : node_map l !! k = Some n -> exists x, x ∈ l /\ fst x = n.
Proof.
  unfold node_map. rewrite <- (reverse_involutive l). revert n. generalize (reverse l) as r. clear l.
  induction r as [|x r IH]; intros n; [done|].
  rewrite reverse_cons, foldl_app. cbn [foldl]. intros [[_ <-]|[_ H]]%lookup_insert_Some.
  - exists x. split; [|done]. apply elem_of_app. right. by left.
  - apply IH in H as (y & Hy & E). exists y. split; [|done]. apply elem_of_app. by left.
Qed.

Lemma finish_score_node req n r tr x : returns (finish_score s req n r) tr x -> no_Node x = n.
Proof.
  unfold finish_score. intros H. apply returns_bind in H as ([score reason] & tr1 & tr2 & -> & _ & H).
  repeat case_match; run; subst; reflexivity.
Qed.

Lemma finish_scores_nodes req m results tr l x :
  returns (finish_scores s req m results) tr l -> x ∈ l -> exists k, m !! k = Some (no_Node x).
Proof.
  revert tr l. induction results as [|r results IH]; intros tr l H Hx; cbn [finish_scores] in H; run.
  { by apply elem_of_nil in Hx. }
  destruct (m !! sr_NodeID r) as [n|] eqn:E; run; [|by eapply IH].
  apply elem_of_cons in Hx as [->|Hx]; [|by eapply IH].
  exists (sr_NodeID r). rewrite E. f_equal. symmetry. by eapply finish_score_node.
Qed.

Lemma scored_nodes req nodes tr l x :
  returns (ScoreNodes s req nodes) tr (Got l) -> x ∈ l -> no_Node x ∈ nodes.
Proof.
  unfold ScoreNodes. intros H Hx. cbv zeta in H. run.
  match goal with H : returns (let '(_, _) := ?r in _) _ _ |- _ => destruct r as [cs u] end.
  assert (Hr : exists results tr', returns (finish_scores s (normalizeRequest req) (node_map cs) results) tr' l \/ l = []).
  { destruct cs as [|c cs].
    - destruct u; run. exists [], []. by right.
    - run. match goal with H : returns (match ?o with Ok _ => _ | Err _ => _ end) _ _ |- _ =>
        destruct o as [results|e]; run end. eexists results, _. left. eassumption. }
  destruct Hr as (results & tr' & [Hr| ->]); [|by apply elem_of_nil in Hx].
  destruct (finish_scores_nodes _ _ _ _ _ _ Hr Hx) as [k Hk]. apply node_map_nodes in Hk as (y & Hy & <-).
  by eapply read_candidates_nodes.
Qed.

Lemma reserved req n tr r :
  returns (reserve_on s req n) tr r ->
  (exists res, r = Got res /\ happened (Reserve (reservation_for req n)) (Got res) tr) \/
  (exists e, r = Failed e /\
     (IsConflict e = true -> happened (Reserve (reservation_for req n)) (Failed e) tr)).
Proof.
  unfold reserve_on. destruct (sc_reservations s) as [mgr|].
  2:{ intros ->%returns_one. destruct r as [res|e]; [left; exists res|right; exists e];
        eauto using happened_head. }
  unfold CreateReservation. intros (now & tr' & -> & H)%returns_request.
  destruct (ValidateReservationRequest now (reservation_for req n)) as [err|]; [run; right; by eexists|].
  destruct (reservationStore (Some mgr)) as [u|e] eqn:Es.
  2:{ run. right. exists e. split; [done|]. unfold reservationStore in Es. destruct (rm_store mgr); [done|].
      by injection Es as <-. }
  apply returns_request in H as (x & tr1 & -> & H). destruct x as [res|e]; run; [left|right];
    (eexists; split; [reflexivity|]); eauto using happened_head, happened_cons.
Qed.

(** The walk over the ranked candidates ends at the first that is not refused
    for a conflict. *)
Lemma reserve_first_got req scores tr d :
  returns (reserve_first s req scores) tr (Got d) ->
  exists before x after reservationID, scores = before ++ x :: after /\
    d = decide_on req x reservationID /\
    (forall y, y ∈ before -> exists e, IsConflict e = true /\
       happened (Reserve (reservation_for req (no_Node y))) (Failed e) tr) /\
    (p_SkipReservation req = false ->
     exists r, happened (Reserve (reservation_for req (no_Node x))) (Got r) tr /\ reservationID = pr_ID r).
Proof.
  revert tr. induction scores as [|x scores IH]; intros tr H; cbn [reserve_first] in H; run.
  match goal with H : returns (match ?o with Some _ => _ | None => _ end) _ _ |- _ =>
    destruct o as [e|]; run end.
  destruct (p_SkipReservation req) eqn:Esk; run.
  { exists [], x, scores, "". split_and!; try done. by intros y ?%elem_of_nil. }
  match goal with H : returns (reserve_on _ _ _) _ _ |- _ => apply reserved in H as [(r & -> & Hr)|(e & -> & Hr)] end; run.
  - exists [], x, scores, (pr_ID r). split_and!; [done..|by intros y ?%elem_of_nil|].
    intros _. exists r. split; [|done]. apply happened_cons, happened_app. by left.
  - destruct (IsConflict e) eqn:Ec; run.
    match goal with H : returns (reserve_first _ _ _) _ _ |- _ =>
      destruct (IH _ H) as (before & y & after & id & -> & -> & Hb & Hok) end.
    exists (x :: before), y, after, id. split_and!; [done..| |].
    + intros z [->|Hz]%elem_of_cons; [exists e|destruct (Hb z Hz) as (e' & He' & Hh); exists e'];
        (split; [done|]); apply happened_cons, happened_app; auto.
    + intros Hs. destruct (Hok Hs) as (r & Hh & Eid). exists r. split; [|done].
      apply happened_cons, happened_app. by right.
Qed.
End Runs.

(** ** Programs that only read

    Filtering and scoring change nothing; a placement only reserves. *)
Section Quiet.
Context (s : Scheduler).

Lemma reject_quiet : only quiet reject.
Proof. unfold reject, recordPlacementRejection. requests. Qed.

Lemma exceeded_quiet node what a b : only quiet (recordCapacityExceeded s node what a b).
Proof. unfold recordCapacityExceeded. requests. Qed.

#[local] Hint Resolve reject_quiet exceeded_quiet : requests.

Lemma keep_node_quiet req regions hard ctx n : only quiet (keep_node s req regions hard ctx n).
Proof. unfold keep_node, ReadCapacity. cbv zeta. requests. Qed.

#[local] Hint Resolve keep_node_quiet : requests.

Lemma filter_loop_quiet req regions hard ctx nodes : only quiet (filter_loop s req regions hard ctx nodes).
Proof. induction nodes as [|n nodes IH]; [exact I|]. cbn [filter_loop]. requests. Qed.

Lemma evaluate_nodes_quiet l nodes : only quiet (evaluate_nodes l nodes).
Proof. induction nodes as [|n nodes IH]; [exact I|]. cbn [evaluate_nodes]. requests. Qed.

Lemma read_candidates_quiet what nodes : only quiet (read_candidates what nodes).
Proof.
  induction nodes as [|n nodes IH]; [exact I|]. cbn [read_candidates]. unfold ReadCapacity, recordPlacementRejection.
  requests.
Qed.

Lemma finish_score_quiet req n r : only quiet (finish_score s req n r).
Proof. unfold finish_score. cbv zeta. requests. Qed.

#[local] Hint Resolve filter_loop_quiet evaluate_nodes_quiet read_candidates_quiet finish_score_quiet : requests.

Lemma finish_scores_quiet req m l : only quiet (finish_scores s req m l).
Proof. induction l as [|r l IH]; [exact I|]. cbn [finish_scores]. requests. Qed.

#[local] Hint Resolve finish_scores_quiet : requests.

Lemma FilterNodes_quiet req nodes : only quiet (FilterNodes s req nodes).
Proof.
  unfold FilterNodes, ListRegions, constraint_context, serverNodeConstraintCtx, EvaluateConstraints. cbv zeta.
  requests.
Qed.

Lemma ScoreNodes_quiet req nodes : only quiet (ScoreNodes s req nodes).
Proof. unfold ScoreNodes, constraint_context, serverNodeConstraintCtx. cbv zeta. requests. Qed.

Lemma resolve_region_quiet req : only quiet (resolve_region req).
Proof. unfold resolve_region, resolveRegionID, ListRegions. cbv zeta. requests. Qed.
End Quiet.

#[export] Hint Resolve FilterNodes_quiet ScoreNodes_quiet resolve_region_quiet : requests.

(** ** What a constraint of a request means *)

Definition spelling (s : string) : string := ToLower (TrimSpace s).

(** A constraint on the region or the node itself, which the scheduler
    enforces while it filters. *)
Definition on_region (c : PlacementConstraint) : bool := (spelling (pc_Key c) =? "region")%string.
Definition on_node (c : PlacementConstraint) : bool := one_of ["node_id"; "node"] (spelling (pc_Key c)).

(** The value is one of the listed ones, or is not: "forbidden" turns the
    operator round, and an operator that is neither accepts no value. *)
Definition honours (c : PlacementConstraint) (value : string) : Prop :=
  let listed := value ∈ splitConstraintValues (pc_Value c) in
  let op := spelling (pc_Operator c) in
  splitConstraintValues (pc_Value c) <> [] /\
  (op ∈ ["eq"; "in"; ""] /\ (listed <-> pc_Type c <> "forbidden") \/
   op ∈ ["neq"; "notin"; "not-in"] /\ (listed <-> pc_Type c = "forbidden")).

Lemma spelling_idem s : spelling (spelling s) = spelling s.
Proof. unfold spelling. by rewrite TrimSpace_lower, TrimSpace_idem, ToLower_idem. Qed.

(** The engine's operator for a spelling: membership, its negation, or one the
    engine refuses for regions and nodes. *)
Lemma translated_operator c :
  let op := spelling (pc_Operator c) in
  let k := toPlacementConstraint c in
  let forbidden := (pc_Type c =? "forbidden")%string in
  (op ∈ ["eq"; "in"; ""] /\ op_is k (if forbidden then opNotIn else opIn)) \/
  (op ∈ ["neq"; "notin"; "not-in"] /\ op_is k (if forbidden then opIn else opNotIn)) \/
  (op ∉ ["eq"; "in"; ""] /\ op ∉ ["neq"; "notin"; "not-in"] /\ ~ op_is k opIn /\ ~ op_is k opNotIn).
Proof.
  intros op k forbidden. unfold op_is, k, toPlacementConstraint. cbn [k_Operator].
  fold (spelling (pc_Operator c)). fold op. fold forbidden.
  unfold normalizeConstraintOperator, invertConstraintOperator, one_of.
  destruct (slices_contains ["eq"; "in"; ""] op) eqn:E1.
  { left. apply slices_contains_spec in E1. split; [done|]. by destruct forbidden. }
  destruct (slices_contains ["neq"; "notin"; "not-in"] op) eqn:E2.
  { right. left. apply slices_contains_spec in E2. split; [done|]. by destruct forbidden. }
  right. right. apply slices_contains_false in E1, E2. split_and!; [done..| |].
  all: destruct (String.eqb_spec op "exists") as [E3|E3]; [by destruct forbidden|].
  all: destruct (slices_contains ["not-exists"; "notexists"] op); [by destruct forbidden|].
  all: assert (Es : operatorSpelling op = op) by apply spelling_idem.
  all: destruct forbidden; rewrite Es; unfold effectiveOperator, opUnspecified, opIn, opNotIn;
    destruct (String.eqb_spec op "") as [E5|E5]; set_solver.
Qed.

Lemma translated_type c :
  on_region c = true \/ on_node c = true ->
  k_Type (toPlacementConstraint c) = (if on_region c then ConstraintRegion else ConstraintNode).
Proof.
  unfold toPlacementConstraint, on_region, on_node, spelling. cbn [k_Type].
  destruct (_ =? "region")%string; [done|]. intros [|H]; [done|]. by rewrite H.
Qed.

Lemma satisfies_region c k ctx :
  k_Type k = ConstraintRegion -> satisfies c k ctx <->
  (op_is k opIn -> c_RegionID c ∈ k_Values k) /\ (op_is k opNotIn -> c_RegionID c ∉ k_Values k).
Proof. unfold satisfies. intros ->. unfold_consts. naive_solver. Qed.

Lemma satisfies_node c k ctx :
  k_Type k = ConstraintNode -> satisfies c k ctx <->
  (op_is k opIn -> c_NodeID c ∈ k_Values k) /\ (op_is k opNotIn -> c_NodeID c ∉ k_Values k).
Proof. unfold satisfies. intros ->. unfold_consts. naive_solver. Qed.

Lemma well_formed_place k :
  k_Type k = ConstraintRegion \/ k_Type k = ConstraintNode ->
  well_formed k <-> (op_is k opIn \/ op_is k opNotIn) /\ k_Values k <> [].
Proof. unfold well_formed. intros [->| ->]; unfold_consts; naive_solver. Qed.

Definition place_value (c : PlacementConstraint) (x : Candidate) : string :=
  if on_region c then c_RegionID x else c_NodeID x.

(** The translation keeps the meaning: the engine's checker accepts a
    translated constraint exactly when the node honours the constraint. *)
Lemma honours_translated c x ctx :
  on_region c = true \/ on_node c = true ->
  checkSingle x (toPlacementConstraint c) ctx = None <-> honours c (place_value c x).
Proof.
  intros H. pose proof (translated_type c H) as Ht. rewrite checkSingle_iff.
  set (k := toPlacementConstraint c) in *.
  assert (Hs : satisfies x k ctx <->
    (op_is k opIn -> place_value c x ∈ k_Values k) /\ (op_is k opNotIn -> place_value c x ∉ k_Values k)).
  { unfold place_value. destruct (on_region c); [by apply satisfies_region|by apply satisfies_node]. }
  rewrite Hs, well_formed_place by (rewrite Ht; destruct (on_region c); auto). clear Hs Ht H.
  change (k_Values k) with (splitConstraintValues (pc_Value c)). unfold honours.
  pose proof (translated_operator c) as Ho. cbv zeta in Ho. fold k in Ho.
  assert (Hx : ~ (op_is k opIn /\ op_is k opNotIn)) by (intros [H1 H2]; unfold op_is in *; rewrite H1 in H2; discriminate H2).
  assert (Hy : ~ (spelling (pc_Operator c) ∈ ["eq"; "in"; ""] /\
    spelling (pc_Operator c) ∈ ["neq"; "notin"; "not-in"])).
  { intros [H1 H2]. repeat (apply elem_of_cons in H1 as [H1|H1]); try (by apply elem_of_nil in H1);
      rewrite H1 in H2; repeat (apply elem_of_cons in H2 as [H2|H2]); try done; by apply elem_of_nil in H2. }
  revert Hx Hy Ho. destruct (String.eqb_spec (pc_Type c) "forbidden") as [Ef|Ef];
    generalize (op_is k opIn), (op_is k opNotIn), (spelling (pc_Operator c) ∈ ["eq"; "in"; ""]),
      (spelling (pc_Operator c) ∈ ["neq"; "notin"; "not-in"]),
      (place_value c x ∈ splitConstraintValues (pc_Value c)),
      (splitConstraintValues (pc_Value c) <> []); clear - Ef; intros; tauto.
Qed.

(** The region and node constraints of a request, the preferred ones aside. *)
Definition binding (c : PlacementConstraint) : Prop :=
  pc_Type c <> "preferred" /\ (on_region c = true \/ on_node c = true).

Lemma filterable_honours l x ctx :
  (let hard := filterablePlacementConstraints (toPlacementConstraints l) in
   hard = [] \/ CheckHard x hard ctx = None) <->
  forall c, c ∈ l -> binding c -> honours c (place_value c x).
Proof.
  cbv zeta. transitivity (CheckHard x (filterablePlacementConstraints (toPlacementConstraints l)) ctx = None).
  { split; [|auto]. intros [->|H]; [|done]. by apply CheckHard_nil. }
  rewrite CheckHard_nil, hard_failures_nil. unfold filterablePlacementConstraints, toPlacementConstraints. split.
  - intros H c Hc [Hp Hk]. apply (honours_translated c x ctx Hk). apply H.
    + apply list_elem_of_filter. split; [|by apply list_elem_of_fmap; exists c].
      rewrite (translated_type c Hk). destruct (on_region c); auto.
    + cbn [k_Required toPlacementConstraint]. by destruct (String.eqb_spec (pc_Type c) "preferred").
  - intros H k [Ht (c & -> & Hc)%list_elem_of_fmap]%list_elem_of_filter Hr.
    assert (Hk : on_region c = true \/ on_node c = true).
    { revert Ht. cbn [toPlacementConstraint k_Type]. unfold on_region, on_node, spelling.
      destruct (_ =? "region")%string; [auto|]. destruct (one_of _ _); [auto|]. intros [?|?]; done. }
    apply (honours_translated c x ctx Hk), H; [done|]. split; [|done].
    cbn [k_Required toPlacementConstraint] in Hr. by destruct (String.eqb_spec (pc_Type c) "preferred").
Qed.

(** ** Properties *)

(** The request a placement works with: normalised, the region replaced by the
    id of the region it names. *)
Definition resolved (req req' : PlacementRequest) (tr : list (exchange Eff)) : Prop :=
  let q := normalizeRequest req in
  req' = q \/
  exists regions r, happened regions_read (Got regions) tr /\ r ∈ regions /\
    ToLower (TrimSpace (p_RegionID q)) ∈ [ToLower (rg_ID r); ToLower (rg_Slug r); ToLower (rg_Name r)] /\
    req' = q <| p_RegionID := rg_ID r |>.

Lemma resolve_region_resolved req req' tr :
  returns (resolve_region (normalizeRequest req)) tr (Got req') -> resolved req req' tr.
Proof.
  unfold resolve_region, resolveRegionID, ListRegions, resolved. generalize (normalizeRequest req) as q. intros q.
  destruct (p_RegionID q =? "")%string; intros H; run; [by left|].
  match goal with |- context [find ?f ?l] => destruct (find f l) as [r|] eqn:E end; [|by left].
  destruct (rg_ID r =? "")%string; [by left|right].
  apply find_some in E as [Hin He]. eexists _, r. split_and!;
    [apply happened_app; left; apply happened_app; left; apply happened_head|by apply list_elem_of_In| |done].
  repeat apply orb_true_iff in He as [He|He]; seqb; rewrite <- He; set_solver.
Qed.

Lemma running_nodes req nodes n :
  n ∈ of_runtime req nodes ->
  n ∈ nodes /\ (requiresRuntimeProviderFilter (p_RuntimeProvider req) = true ->
     runs_provider (TrimSpace (p_RuntimeProvider req)) n = true).
Proof.
  unfold of_runtime.
  destruct (requiresRuntimeProviderFilter (p_RuntimeProvider req)) eqn:E; [|done].
  unfold filterByRuntimeProvider. revert E. unfold requiresRuntimeProviderFilter.
  destruct (TrimSpace (p_RuntimeProvider req) =? "")%string; [done|].
  intros _ [? ?]%list_elem_of_filter. auto.
Qed.

(** C4: A placement decision is sound, whatever changes while it is made.
    The node it names was read from the database, up and wanted, in an enabled
    region and in the one asked for, the required one if one is required, with
    room for the request when its capacity was read; it honours every region
    and node constraint of the request and every constraint of the operators,
    and runs the runtime asked for.  The capacity was reserved on that very
    node for the amounts of the request, unless the caller reserves itself; and
    a candidate with a better score was passed over only because the store
    refused it for a conflict. *)
Theorem PlaceServer_sound s req tr d (H : returns (PlaceServer s req) tr (Got d)) :
  exists req' n nodes regions c, let q := normalizeRequest req' in
    resolved req req' tr /\
    happened nodes_read (Got nodes) tr /\ n ∈ nodes /\ d_NodeID d = nd_ID n /\
    happened regions_read (Got regions) tr /\ suitable q regions n /\
    happened (capacity_read (nd_ID n)) (Got c) tr /\ fits q c /\
    (forall k, k ∈ p_Constraints q -> binding k ->
       honours k (if on_region k then regionIDOf n else nd_ID n)) /\
    (forall l, sc_constraints s = Some l -> meetsAllConstraints l n = Got true) /\
    (requiresRuntimeProviderFilter (p_RuntimeProvider req') = true ->
       runs_provider (TrimSpace (p_RuntimeProvider req')) n = true) /\
    exists filtered trf scores trs before x after, n = no_Node x /\
      returns (FilterNodes s req' nodes) trf (Got filtered) /\ trf ⊆ tr /\
      returns (ScoreNodes s req' (of_runtime req' filtered)) trs (Got scores) /\ trs ⊆ tr /\
      isort higher_node_score scores = before ++ x :: after /\
      (forall y, y ∈ before -> exists e, IsConflict e = true /\
         happened (Reserve (reservation_for req' (no_Node y))) (Failed e) tr) /\
      (p_SkipReservation req' = false -> exists r,
         happened (Reserve (reservation_for req' n)) (Got r) tr /\ d_ReservationID d = pr_ID r).
Proof.
  unfold PlaceServer, ListNodes in H. run.
  match goal with H : returns (resolve_region _) ?t (Got ?r) |- _ =>
    rename r into req', t into tr1; apply resolve_region_resolved in H as Hres; clear H end.
  destruct (_ && _) in *; run.
  match goal with H : returns (FilterNodes _ _ _) ?t (Got ?l) |- _ =>
    rename l into kept, t into tr2, H into HF end.
  match goal with |- context [answered nodes_read (Got ?l)] => rename l into nodes end.
  pose proof (running_nodes req' kept) as Hrun.
  destruct (of_runtime req' kept) as [|n0 running] eqn:Erun; run.
  match goal with H : returns (ScoreNodes _ _ _) ?t (Got ?l) |- _ =>
    rename l into scores, t into tr3, H into Hsc end.
  destruct scores as [|x0 scores']; run.
  set (scores := x0 :: scores') in *.
  match goal with H : returns (reserve_first _ _ _) ?t _ |- _ => rename t into tr4;
    destruct (reserve_first_got _ _ _ _ _ H) as (before & x & after & id & Eso & -> & Hb & Hr) end.
  assert (Hx : x ∈ scores).
  { rewrite <- (isort_perm higher_node_score scores), Eso.
    apply elem_of_app. right. left. }
  destruct (Hrun _ (scored_nodes _ _ _ _ _ _ Hsc Hx)) as [Hkept Hprov].
  destruct (filter_nodes _ _ _ _ _ _ HF Hkept) as (Hin & (regions & Hreg & Hsu) & (c & Hc & Hfit) & (ctx & Hhard) & Hops).
  exists req', (no_Node x), nodes, regions, c. cbv zeta.
  split_and!; try done; try by hap.
  - destruct Hres as [->|(rs & r & Hh & Hrest)]; [by left|right; exists rs, r].
    split; [by hap|done].
  - intros k Hk Hbind. apply (proj1 (filterable_honours _ _ _) Hhard k Hk Hbind).
  - exists kept, tr2, scores, tr3, before, x, after. rewrite Erun.
    split_and!; [done|done| |done| |done| |]; try (by intros ev Hev; hap).
    + intros y Hy. destruct (Hb y Hy) as (e & He & Hh). exists e. split; [done|]. by hap.
    + intros Hs. destruct (Hr Hs) as (r & Hh & ->). exists r. split; [|done]. by hap.
Qed.

(** ** A placement on the example tables *)

Definition example_scheduler : Scheduler :=
  mkScheduler (NewEngine (LeastLoadedScorer "")) false false
    (Some [mkPlacementConstraint "required" "region" "eq" "eu"]) (Some (mkReservationManager true true)) "".

Definition example_placement : PlacementRequest :=
  mkPlacementRequest "" "Europe" "" "" "" "" "" false "" ""
    [mkPlacementConstraint "forbidden" "node" "eq" "b"] 1024 1024 0 1000.

Definition example_world : World := ControlPlane.mkWorld example_db 600 (Strategy.mkWorld None 0 []) 0.
Definition example_serve : forall X, Eff X -> World -> X * World :=
  serve (fun _ _ _ => Err "no node") (fun _ => Failed ErrNoRows) (fun _ => Failed ErrNoRows) entered.

Lemma PlaceServer_sound_witness :
  exists d tr, returns (PlaceServer example_scheduler example_placement) tr (Got d) /\
    d_NodeID d = "a" /\ d_ReservationID d = "id-0" /\
    exists n c, happened (capacity_read (nd_ID n)) (Got c) tr /\ nd_ID n = "a".
Proof.
  pose proof (returns_alone example_serve (PlaceServer example_scheduler example_placement) example_world) as H.
  set (tr := trace_alone _ _ _) in H. clearbody tr.
  destruct (answer_alone example_serve (PlaceServer example_scheduler example_placement) example_world) as [d|e] eqn:E;
    [|vm_compute in E; discriminate E].
  assert (Ed : d_NodeID d = "a" /\ d_ReservationID d = "id-0") by (vm_compute in E; injection E as <-; by split).
  destruct (PlaceServer_sound _ _ _ _ H) as (req' & n & nodes & regions & c & _ & _ & _ & En & _ & _ & Hc & _).
  exists d, tr. destruct Ed as [E1 E2]. split_and!; [done..|]. exists n, c. split; [done|]. by rewrite <- En.
Defined.
