(* ===== verification/ClusterManager.v ===== *)
(** * The cluster manager

    [forge/api/internal/services/clustermanager/service.go]: the lifecycle of a
    server.  It finds a place for a new server, reserves capacity there, writes
    its row, has the node create the workload, and undoes what it did when a
    step fails; it sends power signals, suspends, installs, deletes, and reads
    back what runs.

    Every function is a program: between two of its requests other requests
    may change the tables and the node. *)
From Stdlib Require Import ZArith Lia Floats.SpecFloat.
From stdpp Require Import base gmap strings list fin_maps.
From coqutil Require Import Datatypes.RecordSettersUsingExistingGetters.
From S2P Require Import Prelude GoStrings GoSort Constraints Strategy Engine Programs Capacity Servers ControlPlane Reservations Scheduler.
Import RecordSetNotations1.
#[local] Open Scope string_scope.
#[local] Open Scope list_scope.
#[local] Open Scope Z_scope.
#[local] Open Scope go_scope.

(** The runtime, the reservation manager and the publisher are optional. *)
(* go: services/clustermanager/service.go type:Service *)
Record ClusterManager := mkClusterManager {
  cm_runtime : bool;
  cm_scheduler : Scheduler;
  cm_reservations : option ReservationManager;
  cm_publisher : bool
}.

Definition ErrRuntimeUnavailable : string := "runtime unavailable".

(* go: services/clustermanager/service.go func:firstNonEmpty *)
Fixpoint firstTrimmed (values : list string) : string :=
  match values with
  | [] => ""
  | v :: rest => if negb (TrimSpace v =? "")%string then TrimSpace v else firstTrimmed rest
  end.

(* go: services/clustermanager/service.go func:firstNonZero *)
Fixpoint firstNonZero (values : list Z) : Z :=
  match values with
  | [] => 0
  | v :: rest => if negb (v =? 0) then v else firstNonZero rest
  end.

Definition newline : string := String (Ascii.ascii_of_nat 10) "".

(** [errors.Join]: one text per line. *)
Definition join_errors (l : list StoreError) : StoreError :=
  ErrText (Join (map store_error_text l) newline).

Definition wrap (what : string) (e : StoreError) : StoreError := ErrText (cat [what; ": "; store_error_text e]).

(** ** What the node is told *)

(* go: services/clustermanager/service.go func:runtimeTargetFromProvision *)
Definition runtimeTargetFromProvision (t : ServerProvisionTarget) : RuntimeTarget :=
  mkRuntimeTarget "" (pt_NodeURL t) (pt_NodeToken t) (pt_ServerID t) (pt_RuntimeProvider t).

(* go: services/clustermanager/service.go func:runtimeTarget *)
Definition runtimeTarget (t : ServerControlTarget) : RuntimeTarget :=
  mkRuntimeTarget "" (ct_NodeURL t) (ct_NodeToken t) (ct_ServerID t) (ct_RuntimeProvider t).

(** The variables of the egg win over the ones every server gets. *)
Definition server_environment (t : ServerProvisionTarget) : gmap string string :=
  pt_Environment t ∪
  list_to_map [("SERVER_MEMORY", itoa (pt_MemoryMB t)); ("SERVER_IP", pt_AllocationIP t);
               ("SERVER_PORT", itoa (pt_AllocationPort t))].

Definition needs_eula (image : string) : bool := Contains image "itzg/minecraft-server".

Definition runtime_port (a : ServerRuntimeAllocation) : Port :=
  mkPort (sa_IP a) (sa_Port a)
    (if sa_ContainerPort a =? 0 then sa_Port a else sa_ContainerPort a)
    (if (sa_Protocol a =? "")%string then "tcp" else sa_Protocol a).

Definition runtime_mount (m : ServerMount) : Mount := mkMount (sm_Source m) (sm_Target m) (sm_ReadOnly m).

Definition runtime_auth (c : RegistryCredential) : RegistryAuth :=
  mkRegistryAuth (cr_Username c) (cr_Password c) (cr_IdentityToken c) "" (cr_ServerAddress c).

Definition by_key (a b : string * string) : bool := str_lt (fst a) (fst b).

(* go: services/clustermanager/service.go func:runtimeCreateRequest *)
Definition runtimeCreateRequest (t : ServerProvisionTarget) : RuntimeCreateRequest :=
  let env := map (fun '(k, v) => cat [k; "="; v]) (isort by_key (map_to_list (server_environment t))) in
  mkRuntimeCreateRequest (pt_ServerID t) (pt_Name t) (pt_Image t)
    (if needs_eula (pt_Image t) then [] else ["/bin/sh"; "-lc"; pt_StartupCommand t])
    (if needs_eula (pt_Image t) then env ++ ["EULA=TRUE"] else env)
    (map runtime_port (pt_Allocations t)) (map runtime_mount (pt_Mounts t))
    (pt_MemoryMB t) (pt_SwapMB t) (pt_CPUShares t) (pt_CPULimit t) (pt_DiskMB t) (pt_IOWeight t)
    (pt_Threads t) (pt_OOMDisabled t) (pt_ContainerUID t) (pt_ContainerGID t)
    (runtime_auth <$> pt_RegistryAuth t).

(* go: services/clustermanager/service.go func:runtimeInstallRequest *)
Definition runtimeInstallRequest (t : ServerProvisionTarget) : InstallRequest :=
  mkInstallRequest (pt_ServerID t) (pt_InstallContainer t) (pt_InstallEntrypoint t) (pt_InstallScript t)
    (server_environment t).

(* go: services/clustermanager/service.go func:runtimeEnvironment *)
Definition runtimeEnvironment (environment : gmap string string) (image : string) : gmap string string :=
  if needs_eula image then <["EULA" := "TRUE"]> environment else environment.

(* go: services/clustermanager/service.go func:serverActualFromSignal *)
Definition serverActualFromSignal (signal : string) : string :=
  if slices_contains ["start"; "restart"] signal then "running" else "stopped".

(** The lifecycle reading of a node in the panel's words, with the reason. *)
(* go: services/clustermanager/service.go func:actualStateFromInspection *)
Definition actualStateFromInspection (inspection : Inspection) (previous : string) : string * string :=
  if negb (i_StateKnown inspection) then
    (if (previous =? "running")%string then "unknown" else previous, "node exposes no lifecycle state")
  else if i_Running inspection then ("running", "runtime state reports running")
  else if negb (i_Exists inspection) then ("stopped", "runtime state reports no container")
  else ("stopped", cat ["runtime state reports "; i_Status inspection]).

(** ** Statements *)

(* go: store/store_servers.go func:Store.GetServer *)
Definition server_row (id : string) (db : Db) : answer ServerRow :=
  match db_servers db !! id with
  | Some s => if bool_decide (is_Some (db_nodes db !! sv_NodeID s)) then Got s else Failed ErrNoRows
  | None => Failed ErrNoRows
  end.

Definition GetServer (id : string) : P (answer ServerRow) := request (Read (fun _ => server_row id)).

Definition GetNode (id : string) : P (answer NodeRow) :=
  request (Read (fun _ db => match db_nodes db !! id with Some n => Got n | None => Failed ErrNoRows end)).

Definition newest_server (a b : ServerRow) : bool := sv_CreatedAt b <? sv_CreatedAt a.

(** The columns the list selects; a field without one has its zero value. *)
Definition listed (s : ServerRow) : ServerRow :=
  mkServerRow (sv_ID s) "" (sv_Status s) (sv_cpu_shares s) (sv_memory_mb s) (sv_disk_mb s) (sv_DesiredState s)
    (sv_ActualState s) false "" false false 0 0 zeroTime.

(* go: store/store_nodes.go func:Store.ListServersForNode *)
Definition ListServersForNode (nodeID : string) : P (answer (list ServerRow)) :=
  request (Read (fun _ db =>
    Got (map listed (isort newest_server (filter (fun s => sv_NodeID s = nodeID) (values (db_servers db))))))).

Section Manager.
Context (s : ClusterManager).

(* go: services/clustermanager/service.go func:Service.publish *)
Definition publish (e : Event) : P unit := if cm_publisher s then request (Publish e) else Ret tt.

(* go: services/clustermanager/service.go func:Service.cancelReservation *)
Definition cancelReservation (id : string) : P unit :=
  match cm_reservations s with
  | Some mgr => if negb (id =? "")%string then ignore (CancelReservation (Some mgr) id) else Ret tt
  | None => Ret tt
  end.

(** ** Creation *)

(* go: services/clustermanager/service.go func:Service.syncProvisionTarget *)
Definition syncProvisionTarget (t : ServerProvisionTarget) : P (answer unit) :=
  let^ r := request (OnNode (runtimeTargetFromProvision t) SyncConfiguration) in
  match r with
  | Err e => ignore (request (SetServer (pt_ServerID t) ConfigSyncFailed)) ;;^ fails e
  | Ok _ => request (SetServer (pt_ServerID t) ConfigSynced)
  end.

(** The flag says whether the workload may exist on the node. *)
(* go: services/clustermanager/service.go func:Service.provisionServer *)
Definition provisionServer (id : string) : P (bool * option StoreError) :=
  let^ r := request (ProvisionTarget id) in
  match r with
  | Failed e => Ret (false, Some e)
  | Got target =>
      let^ r := syncProvisionTarget target in
      match r with
      | Failed e => Ret (false, Some e)
      | Got _ =>
          let^ r := request (OnNode (runtimeTargetFromProvision target)
                               (CreateWorkload (runtimeCreateRequest target))) in
          match r with
          | Err e => Ret (false, Some (ErrText e))
          | Ok false => Ret (false, Some (ErrText "runtime rejected server creation"))
          | Ok true =>
              let^ r := request (SetServer id Provisioned) in
              match r with
              | Failed e => Ret (true, Some e)
              | Got _ => Ret (true, None)
              end
          end
      end
  end.

(** The error to report, after the workload and the row are gone as far as
    that can be had. *)
(* go: services/clustermanager/service.go func:Service.compensateCreateFailure *)
Definition compensateCreateFailure (id : string) (workloadCreated : bool) (cause : StoreError) : P StoreError :=
  let^ r := request (ControlTarget id) in
  match r with
  | Failed e => Ret (join_errors [cause; e])
  | Got target =>
      let remove :=
        let^ r := request (RemoveServer id None) in
        match r with Failed e => Ret (join_errors [cause; e]) | Got _ => Ret cause end in
      if workloadCreated then
        let^ r := request (OnNode (runtimeTarget target) DeleteWorkload) in
        match r with
        | Err deleteErr =>
            let^ r := request (RemoveServer id (Some deleteErr)) in
            match r with
            | Failed e => Ret (join_errors [cause; ErrText deleteErr; e])
            | Got _ => Ret (join_errors [cause; ErrText deleteErr])
            end
        | Ok _ => remove
        end
      else remove
  end.

(** The reservation this service makes when the placement made none. *)
(* go: services/clustermanager/service.go L112-120 *)
Definition own_reservation (req : CreateServerRequest) (placementReq : PlacementRequest) (now : Time) :=
  mkReservationRequest "" (cs_NodeID req) "" "placement" "active" ""
    (firstNonZero [p_CPU placementReq; p_CPUShares placementReq; cs_CPUShares req])
    (firstNonZero [p_MemoryMB placementReq; cs_MemoryMB req])
    (firstNonZero [p_DiskMB placementReq; cs_DiskMB req]) (time_add now (10 * Minute)).

(* go: services/clustermanager/service.go L87-93 *)
Definition complete_placement (req : CreateServerRequest) (p : PlacementRequest) : PlacementRequest :=
  p <| p_NodeID := firstTrimmed [p_NodeID p; cs_NodeID req] |>
    <| p_RequiredNode := firstTrimmed [p_RequiredNode p; cs_NodeID req] |>
    <| p_AllocationID := firstTrimmed [p_AllocationID p; cs_AllocationID req] |>
    <| p_RuntimeProvider := firstTrimmed [p_RuntimeProvider p; cs_RuntimeProvider req] |>
    <| p_MemoryMB := firstNonZero [p_MemoryMB p; cs_MemoryMB req] |>
    <| p_CPUShares := firstNonZero [p_CPUShares p; cs_CPUShares req] |>
    <| p_DiskMB := firstNonZero [p_DiskMB p; cs_DiskMB req] |>.

(** The allocation of the decision, or the first free one of the node. *)
(* go: services/clustermanager/service.go L98-108 *)
Definition choose_allocation (decision : Decision) : P (answer Decision) :=
  if (d_AllocationID decision =? "")%string then
    let?^ allocation := request (Read (fun _ => FindAvailableAllocation (d_NodeID decision))) in
    got (decision <| d_AllocationID := al_ID allocation |>
                  <| d_Reasons := d_Reasons decision ++ ["selected first available allocation on placed node"] |>)
  else got decision.

(** The reservation of the decision, read again, or one of its own. *)
(* go: services/clustermanager/service.go L109-132 *)
Definition ensure_reservation (req : CreateServerRequest) (placementReq : PlacementRequest)
    (decision : Decision) : P (answer Decision) :=
  match (d_ReservationID decision =? "")%string, cm_reservations s with
  | true, Some mgr =>
      let^ now := request Clock in
      let?^ reservation := CreateReservation (Some mgr) (own_reservation req placementReq now) in
      got (decision <| d_ReservationID := pr_ID reservation |>
                    <| d_Reasons := d_Reasons decision ++ ["reserved capacity on placed node"] |>)
  | true, None => got decision
  | false, m =>
      let?^ _ := GetReservation m (d_ReservationID decision) in got decision
  end.

(** Cancels, undoes, and reports. *)
(* go: services/clustermanager/service.go L153-156 *)
Definition undo_create {A} (reservationID id : string) (created : bool) (e : StoreError) : P (answer A) :=
  cancelReservation reservationID ;;^
  let^ e := compensateCreateFailure id created e in Ret (Failed e).

(* go: services/clustermanager/service.go L157-162 *)
Definition confirm (reservationID id : string) : P (answer unit) :=
  match cm_reservations s with
  | Some mgr =>
      if negb (reservationID =? "")%string then
        let^ r := ConfirmReservation (Some mgr) reservationID in
        match r with Failed e => undo_create reservationID id true e | Got _ => got tt end
      else got tt
  | None => got tt
  end.

(** From the row on: the workload, the confirmation, the row as it is now. *)
(* go: services/clustermanager/service.go L147-171 *)
Definition finish_creation (decision : Decision) (id : string) : P (answer (ServerRow * Decision)) :=
  let^ r := (if cm_runtime s then provisionServer id
             else Ret (false, Some (ErrText ErrRuntimeUnavailable))) in
  match r with
  | (created, Some e) => undo_create (d_ReservationID decision) id created e
  | (_, None) =>
      let?^ _ := confirm (d_ReservationID decision) id in
      let?^ server := GetServer id in
      publish (EventServerCreated id) ;;^
      got (server, decision)
  end.

(* go: services/clustermanager/service.go func:Service.CreateServer *)
Definition CreateServer (req : CreateServerRequest) (placementReq : PlacementRequest)
    : P (answer (ServerRow * Decision)) :=
  if (TrimSpace (cs_Name req) =? "")%string || (TrimSpace (cs_TemplateID req) =? "")%string
  then fails "name and templateId are required"
  else if (TrimSpace (cs_OwnerID req) =? "")%string then fails "ownerId is required"
  else
    let placementReq := complete_placement req placementReq in
    let?^ decision := PlaceServer (cm_scheduler s) placementReq in
    let req := req <| cs_NodeID := d_NodeID decision |> in
    let?^ decision := choose_allocation decision in
    let req := req <| cs_AllocationID := d_AllocationID decision |> in
    let?^ decision := ensure_reservation req placementReq decision in
    publish (EventPlacementCreated (d_RegionID decision) (d_NodeID decision) (d_AllocationID decision)
               (d_Manual decision)) ;;^
    let^ r := request (InsertServer req) in
    match r with
    | Failed e => cancelReservation (d_ReservationID decision) ;;^ Ret (Failed e)
    | Got id => finish_creation decision id
    end.

(** Without the installation: the data was restored before. *)
(* go: services/clustermanager/service.go func:Service.ProvisionRecoveredServer *)
Definition ProvisionRecoveredServer (id : string) : P (answer unit) :=
  if negb (cm_runtime s) then fails ErrRuntimeUnavailable
  else
    let?^ target := request (ProvisionTarget id) in
    let?^ _ := syncProvisionTarget target in
    let^ r := request (OnNode (runtimeTargetFromProvision target)
                         (CreateWorkload (runtimeCreateRequest target))) in
    match r with
    | Err e => fails e
    | Ok false => fails "runtime rejected recovered server creation"
    | Ok true => got tt
    end.

(** ** Installation *)

(** The response comes with an error too. *)
(* go: services/clustermanager/service.go func:Service.runInstaller *)
Definition runInstaller (id : string) (reinstall reinstaller : bool)
    : P (option InstallResponse * option StoreError) :=
  let failed e := Ret (None, Some e) in
  if negb (cm_runtime s) then failed (ErrText ErrRuntimeUnavailable)
  else
    let^ r := request (ProvisionTarget id) in
    match r with
    | Failed e => failed e
    | Got target =>
        let^ r := request (SetServer id (InstallState "installing")) in
        match r with
        | Failed e => failed e
        | Got _ =>
            let install_failed response e :=
              ignore (request (SetServer id (InstallState "failed"))) ;;^ Ret (response, Some e) in
            let^ r := syncProvisionTarget target in
            match r with
            | Failed e => install_failed None e
            | Got _ =>
                let t := runtimeTargetFromProvision target in
                let call := runtimeInstallRequest target in
                let^ r :=
                  (if reinstall then
                     if reinstaller then request (OnNode t (ReinstallWorkload call))
                     else Ret (Err "runtime does not support reinstall")
                   else request (OnNode t (InstallWorkload call))) in
                match r with
                | Err e => install_failed None (ErrText e)
                | Ok response =>
                    if negb (is_Accepted response) || negb (is_ExitCode response =? 0)
                    then install_failed (Some response)
                           (ErrText (cat ["runtime install failed: accepted="; if is_Accepted response then "true" else "false";
                                          " exitCode="; itoa (is_ExitCode response)]))
                    else
                      let^ r := request (SetServer id (InstallState "installed")) in
                      match r with
                      | Failed e => Ret (Some response, Some e)
                      | Got _ => Ret (Some response, None)
                      end
                end
            end
        end
    end.

(* go: services/clustermanager/service.go func:Service.InstallServer *)
Definition InstallServer (id : string) := runInstaller id false true.
(** [reinstaller]: does the runtime implement [Reinstaller]? *)
(* go: services/clustermanager/service.go func:Service.ReinstallServer *)
Definition ReinstallServer (id : string) (reinstaller : bool) := runInstaller id true reinstaller.

(* go: services/clustermanager/service.go func:Service.SyncServerConfiguration *)
Definition SyncServerConfiguration (id : string) : P (answer unit) :=
  if negb (cm_runtime s) then fails ErrRuntimeUnavailable
  else let?^ target := request (ProvisionTarget id) in syncProvisionTarget target.

(** ** Power *)

(* go: services/clustermanager/service.go func:Service.sendRuntimePower *)
Definition sendRuntimePower (t : RuntimeTarget) (signal : string) : P (result PowerResponse) :=
  if (signal =? "start")%string then request (OnNode t StartWorkload)
  else if (signal =? "stop")%string then request (OnNode t StopWorkload)
  else if (signal =? "restart")%string then request (OnNode t RestartWorkload)
  else if (signal =? "kill")%string then request (OnNode t KillWorkload)
  else Ret (Err "unsupported power signal").

(* go: services/clustermanager/service.go func:Service.publishServerPowerEvents *)
Definition publishServerPowerEvents (id signal : string) : P unit :=
  publish (EventActualState id (serverActualFromSignal signal) signal) ;;^
  if (signal =? "start")%string then publish (EventServerPower "ServerStarted" id signal)
  else if slices_contains ["stop"; "kill"] signal then publish (EventServerPower "ServerStopped" id signal)
  else if (signal =? "restart")%string then publish (EventServerPower "ServerRestarted" id signal)
  else Ret tt.

(* go: services/clustermanager/service.go func:Service.sendPower *)
Definition sendPower (id signal : string) : P (answer PowerResponse) :=
  if negb (cm_runtime s) then fails ErrRuntimeUnavailable
  else
    let?^ target := request (ControlTarget id) in
    let^ r := sendRuntimePower (runtimeTarget target) signal in
    match r with
    | Err e => fails e
    | Ok response =>
        let?^ _ := request (SetServer id (Actual (serverActualFromSignal signal))) in
        publishServerPowerEvents id signal ;;^
        got (mkPowerResponse
               (if (pw_ServerID response =? "")%string then id else pw_ServerID response)
               (if (pw_Signal response =? "")%string then signal else pw_Signal response)
               true (pw_Mode response))
    end.

(* go: services/clustermanager/service.go func:Service.StartServer *)
Definition StartServer (id : string) := sendPower id "start".
(* go: services/clustermanager/service.go func:Service.StopServer *)
Definition StopServer (id : string) := sendPower id "stop".
(* go: services/clustermanager/service.go func:Service.RestartServer *)
Definition RestartServer (id : string) := sendPower id "restart".
(* go: services/clustermanager/service.go func:Service.KillServer *)
Definition KillServer (id : string) := sendPower id "kill".

(** The flag is checked before the desired state is written. *)
(* go: services/clustermanager/service.go func:Service.RequestServerPower *)
Definition RequestServerPower (id signal : string) : P (answer PowerResponse * string) :=
  let up := slices_contains ["start"; "restart"] signal in
  let desired := if up then "running" else "stopped" in
  let^ r :=
    (if up then
       let?^ server := GetServer id in
       if sv_Suspended server then fails "cannot start or restart a suspended server" else got tt
     else got tt) in
  match r with
  | Failed e => Ret (Failed e, desired)
  | Got _ =>
      let^ r := request (SetServer id (Desired desired)) in
      match r with
      | Failed e => Ret (Failed e, desired)
      | Got _ =>
          publish (EventDesiredState id desired signal) ;;^
          let^ r := sendPower id signal in Ret (r, desired)
      end
  end.

(** ** Suspension *)

(** [restoreCtx] is never cancelled; a failed rollback is only logged. *)
(* go: services/clustermanager/service.go func:Service.setSuspension *)
Definition setSuspension (id : string) (suspended : bool) : P (answer unit) :=
  let^ r := GetServer id in
  match r with
  | Failed e => Ret (Failed (wrap "load server" e))
  | Got server =>
      if negb (sv_TransferState server =? "")%string && negb (sv_TransferState server =? "idle")%string
      then fails (cat ["cannot change suspension while a transfer is in state "; quote (sv_TransferState server)])
      else if negb suspended then
        let?^ _ := request (SetServer id (Suspended_ false)) in
        publish (EventSuspended id false) ;;^ got tt
      else if sv_Suspended server then got tt
      else
        let?^ _ := request (SetServer id (Suspended_ true)) in
        let^ r := StopServer id in
        match r with
        | Failed e =>
            ignore (request (SetServer id (Suspended_ false))) ;;^
            Ret (Failed (wrap "stop workload for suspension" e))
        | Got _ => publish (EventSuspended id true) ;;^ got tt
        end
  end.

(* go: services/clustermanager/service.go func:Service.SuspendServer *)
Definition SuspendServer (id : string) := setSuspension id true.
(* go: services/clustermanager/service.go func:Service.UnsuspendServer *)
Definition UnsuspendServer (id : string) := setSuspension id false.

(** ** Removal *)

(** Forced, the row goes even if the node could not be asked; the error comes
    with the answer. *)
(* go: services/clustermanager/service.go func:Service.DeleteServer *)
Definition DeleteServer (id : string) (force : bool) : P (option PowerResponse * option StoreError) :=
  let^ r := request (ControlTarget id) in
  match r with
  | Failed e => Ret (None, Some e)
  | Got target =>
      let^ r := (if cm_runtime s then request (OnNode (runtimeTarget target) DeleteWorkload)
                 else Ret (Err ErrRuntimeUnavailable)) in
      match r with
      | Err daemonErr =>
          if negb force then Ret (None, Some (ErrText daemonErr))
          else
            let^ r := request (RemoveServer (ct_ServerID target) (Some daemonErr)) in
            match r with
            | Failed e => Ret (None, Some (join_errors [ErrText daemonErr; e]))
            | Got _ =>
                publish (EventServerDeleted (ct_ServerID target) true) ;;^
                Ret (Some (mkPowerResponse (ct_ServerID target) "" true "force"), Some (ErrText daemonErr))
            end
      | Ok response =>
          let^ r := request (RemoveServer (ct_ServerID target) None) in
          match r with
          | Failed e => Ret (None, Some e)
          | Got _ =>
              publish (EventServerDeleted (ct_ServerID target) false) ;;^
              Ret (Some response, None)
          end
      end
  end.

(** ** What runs *)

(** The state recorded, or read from the node when either side says it runs.
    The answer comes with the error of the write. *)
(* go: services/clustermanager/service.go func:Service.RefreshServerActualState *)
Definition RefreshServerActualState (id : string) : P (string * option StoreError) :=
  let^ r := GetServer id in
  match r with
  | Failed e => Ret ("unknown", Some e)
  | Got server =>
      if negb (cm_runtime s) ||
         (negb (sv_DesiredState server =? "running")%string && negb (sv_ActualState server =? "running")%string)
      then Ret (sv_ActualState server, None)
      else
        let^ r := request (ControlTarget id) in
        match r with
        | Failed e => Ret ("unknown", Some e)
        | Got target =>
            let^ r := request (OnNode (runtimeTarget target) InspectWorkload) in
            match r with
            | Err e => Ret ("unknown", Some (ErrText e))
            | Ok inspection =>
                let '(actual, reason) := actualStateFromInspection inspection (sv_ActualState server) in
                if (actual =? sv_ActualState server)%string then Ret (actual, None)
                else
                  let^ r := request (SetServer id (Actual actual)) in
                  match r with
                  | Failed e => Ret (actual, Some e)
                  | Got _ => publish (EventActualState id actual reason) ;;^ Ret (actual, None)
                  end
            end
        end
  end.

(** The events that ask for a remedy; both conditions are never true at once. *)
(* go: services/clustermanager/service.go L560-588 *)
Definition reconcile_server (nodeID : string) (nodeHealthy : bool) (server : ServerRow) : P unit :=
  (if (sv_DesiredState server =? "running")%string && negb (sv_ActualState server =? "running")%string
   then publish (EventRemediate (sv_ID server) nodeID
                   "reconciliation: desired state is running but actual state differs" nodeHealthy)
   else Ret tt) ;;^
  if (sv_DesiredState server =? "stopped")%string && (sv_ActualState server =? "running")%string
  then publish (EventRemediate (sv_ID server) nodeID
                  "reconciliation: server should be stopped but is still running" nodeHealthy)
  else Ret tt.

(* go: services/clustermanager/service.go func:Service.ReconcileNode *)
Definition ReconcileNode (nodeID : string) : P (answer unit) :=
  let^ r := request (ResetServers nodeID) in
  match r with
  | Failed e => Ret (Failed (wrap "reset node server states" e))
  | Got _ =>
      let^ r := GetNode nodeID in
      match r with
      | Failed e => Ret (Failed (wrap "get node" e))
      | Got node =>
          let^ r := ListServersForNode nodeID in
          match r with
          | Failed e => Ret (Failed (wrap "list servers for node" e))
          | Got servers =>
              for_each servers (reconcile_server nodeID (nd_HeartbeatState node =? "healthy")%string) ;;^ got tt
          end
      end
  end.

(** ** Size *)

Definition resize_request (memoryMB cpu : Z) : UpdateServerRequest :=
  mkUpdateServerRequest None None None (Some memoryMB) (Some cpu) None None None None None None None
    None None None None None.

(** The row first, then the workload; nothing looks at the node's capacity. *)
(* go: services/clustermanager/service.go func:Service.ResizeServer *)
Definition ResizeServer (id : string) (memoryMB cpu : Z) : P (answer unit) :=
  let^ r := request (ChangeServer id (resize_request memoryMB cpu)) in
  match r with
  | Failed e => Ret (Failed (wrap "update server resources" e))
  | Got _ =>
      let^ r := request (ControlTarget id) in
      match r with
      | Failed e => Ret (Failed (wrap "get server target" e))
      | Got target =>
          let^ r := request (OnNode (runtimeTarget target) (ResizeWorkload memoryMB cpu)) in
          match r with
          | Err e => Ret (Failed (wrap "resize runtime server" (ErrText e)))
          | Ok _ => got tt
          end
      end
  end.

End Manager.

(** ** Capacity of a region *)

(* go: services/clustermanager/service.go type:RegionCapacity *)
Record RegionCapacity := mkRegionCapacity {
  rn_RegionID : string;
  rn_Nodes : list NodeCapacitySnapshot;
  rn_AllocatedCPU : Z;
  rn_AvailableCPU : Z;
  rn_AllocatedMemory : Z;
  rn_AvailableMemory : Z;
  rn_AllocatedDisk : Z;
  rn_AvailableDisk : Z;
  rn_ServerCount : Z
}.

Definition int_sum (f : NodeCapacitySnapshot -> Z) (l : list NodeCapacitySnapshot) : Z :=
  foldl (fun acc x => acc +i f x) 0 l.

(** [snapshots]: the answer of [RegionCapacitySnapshots]. *)
(* go: services/clustermanager/service.go func:Service.RegionCapacity *)
Definition region_capacity (regionID : string) (snapshots : list NodeCapacitySnapshot) : RegionCapacity :=
  mkRegionCapacity regionID snapshots (int_sum ns_AllocatedCPU snapshots) (int_sum ns_AvailableCPU snapshots)
    (int_sum ns_AllocatedMemory snapshots) (int_sum ns_AvailableMemory snapshots)
    (int_sum ns_AllocatedDisk snapshots) (int_sum ns_AvailableDisk snapshots)
    (int_sum ns_ServerCount snapshots).

(** ** Suspension *)

Section Alone.
Context (s : ClusterManager) (on_node : forall A, RuntimeTarget -> NodeCall A -> result A)
  (control_target : string -> answer ServerControlTarget)
  (provision_target : string -> answer ServerProvisionTarget)
  (entry : string -> ServerChange -> answer unit).
Notation alone := (serve on_node control_target provision_target entry).

Lemma update_server_found id f db row :
  db_servers db !! id = Some row ->
  update_server id f db = (Got tt, db <| db_servers := <[id := f row]> (db_servers db) |>).
Proof. unfold update_server. by intros ->. Qed.

Lemma entered_got id f db row :
  db_servers db !! id = Some row -> then_enter (Got tt) (update_server id f db) = update_server id f db.
Proof. intros H. unfold then_enter. by rewrite (update_server_found _ _ _ row H). Qed.

Notation answer p w := (answer_alone alone p w) (only parsing).
Notation after p w := (world_alone alone p w) (only parsing).

Lemma publish_after e w : after (publish s e) w = w.
Proof. unfold publish. by destruct (cm_publisher s). Qed.

(** One request. *)
Lemma request_answer {X} (e : Eff X) w : answer (request e) w = fst (alone X e w).
Proof. done. Qed.
Lemma request_after {X} (e : Eff X) w : after (request e) w = snd (alone X e w).
Proof. done. Qed.

Lemma on_alone {A} t (c : NodeCall A) w : alone _ (OnNode t c) w = (on_node A t c, w).
Proof. done. Qed.
Lemma control_alone id w : alone _ (ControlTarget id) w = (control_target id, w).
Proof. done. Qed.
Lemma target_alone id w : alone _ (ProvisionTarget id) w = (provision_target id, w).
Proof. done. Qed.
Lemma read_alone {A} (q : Time -> Db -> Capacity.answer A) w : alone _ (Read q) w = (q (w_now w) (w_db w), w).
Proof. done. Qed.

Ltac steps :=
  repeat (progress (rewrite ?answer_alone_bind, ?world_alone_bind, ?request_answer, ?request_after,
    ?on_alone, ?control_alone, ?target_alone, ?read_alone; cbn [fst snd])).

Lemma power_events_after id signal w : after (publishServerPowerEvents s id signal) w = w.
Proof.
  unfold publishServerPowerEvents. rewrite world_alone_bind, publish_after.
  repeat case_match; rewrite ?publish_after; done.
Qed.

(** A change of a row that is there. *)
Definition changed (id : string) (f : ServerRow -> ServerRow) (row : ServerRow) (w : World) : World :=
  w <| w_db := (w_db w) <| db_servers := <[id := f row]> (db_servers (w_db w)) |> |>.

Lemma set_alone id c f a row w :
  db_servers (w_db w) !! id = Some row ->
  change_server id c (entry id c) (w_db w) = then_enter a (update_server id f (w_db w)) ->
  alone _ (SetServer id c) w = (a, changed id f row w).
Proof.
  intros Hrow Hc. cbn [serve]. rewrite Hc. by rewrite (update_server_found _ _ _ row).
Qed.

Lemma set_flag_alone id b row w :
  db_servers (w_db w) !! id = Some row ->
  alone _ (SetServer id (Suspended_ b)) w =
    (entry id (Suspended_ b), changed id (fun s => s <| sv_Suspended := b |>) row w).
Proof. intros H. by apply set_alone. Qed.

Lemma set_stopped_alone id row w :
  db_servers (w_db w) !! id = Some row ->
  alone _ (SetServer id (Actual (serverActualFromSignal "stop"))) w =
    (transition_entry (sv_ActualState row) "stopped" (entry id (Actual "stopped")), changed id (set_actual "stopped") row w).
Proof. intros H. apply set_alone; [done|]. cbn [change_server]. unfold SetServerActualState. by rewrite H. Qed.

(** The node stopped the server; a change of it was not entered. *)
Definition node_stopped (id : string) : Prop :=
  exists target response, control_target id = Got target /\
    on_node _ (runtimeTarget target) StopWorkload = Ok response.
Definition not_entered (id : string) (c : ServerChange) : Prop := exists e, entry id c = Failed e.

(** A stop of a server that has a row. *)
Lemma stop_alone id w row :
  db_servers (w_db w) !! id = Some row ->
  match answer (StopServer s id) w with
  | Got _ => node_stopped id /\ after (StopServer s id) w = changed id (set_actual "stopped") row w
  | Failed _ => after (StopServer s id) w = w \/
      node_stopped id /\ not_entered id (Actual "stopped") /\ sv_ActualState row <> "stopped" /\
      after (StopServer s id) w = changed id (set_actual "stopped") row w
  end.
Proof.
  intros Hrow. unfold StopServer, sendPower. destruct (cm_runtime s); cbn [negb]; [|by left].
  unfold ptry. steps.
  destruct (control_target id) as [target|e] eqn:Et; [|by left].
  rewrite !answer_alone_bind, !world_alone_bind. unfold sendRuntimePower. cbn [String.eqb Ascii.eqb Bool.eqb].
  rewrite request_answer, request_after. cbn [serve fst snd].
  destruct (on_node _ _ StopWorkload) as [resp|e] eqn:Eo; [|by left].
  assert (Hn : node_stopped id) by (by exists target, resp).
  steps. rewrite (set_stopped_alone id row w Hrow). cbn [fst snd]. unfold transition_entry.
  destruct (String.eqb_spec (sv_ActualState row) "stopped") as [|Hne];
    [|destruct (entry id (Actual "stopped")) as [[]|e] eqn:Ee]; try (right; split_and!; [done|by exists e|done|done]);
    by rewrite !answer_alone_bind, !world_alone_bind, power_events_after.
Qed.

(** C25: What suspending and unsuspending leave behind, whatever the node does,
    when the UPDATEs of the row themselves are carried out and nobody else
    changes the tables.  On success the flag is as asked, nothing but the
    server's row has changed, and a server that was not suspended before has
    been stopped by its node and is recorded so.  On an error the tables are as
    they were, except where the error is that of the statement that enters the
    change in the audit log or the history, after the UPDATE took effect: the
    flag is then as asked although nothing was stopped, or the server, stopped
    by its node and recorded so, has its flag back. *)
Theorem suspension_all_or_nothing id b w :
  let w' := world_alone alone (setSuspension s id b) w in
  let put row' := (w_db w) <| db_servers := <[id := row']> (db_servers (w_db w)) |> in
  match answer_alone alone (setSuspension s id b) w with
  | Failed _ => w_db w' = w_db w \/ exists row, server_row id (w_db w) = Got row /\
      (not_entered id (Suspended_ b) /\ w_db w' = put (row <| sv_Suspended := b |>) \/
       b = true /\ sv_Suspended row = false /\ sv_ActualState row <> "stopped" /\
         not_entered id (Actual "stopped") /\ node_stopped id /\ w_db w' = put (set_actual "stopped" row))
  | Got _ => exists row row', server_row id (w_db w) = Got row /\
      sv_TransferState row ∈ [""; "idle"] /\
      w_db w' = put row' /\ sv_Suspended row' = b /\
      (b = true -> sv_Suspended row = false -> sv_ActualState row' = "stopped" /\ node_stopped id)
  end.
Proof.
  intros w' put. unfold w', setSuspension, GetServer. clear w'.
  steps.
  unfold server_row. destruct (db_servers (w_db w) !! id) as [row|] eqn:Erow; [|by left].
  case_bool_decide; [|by left]. destruct (_ && _) eqn:Et; [by left|].
  assert (Htr : sv_TransferState row ∈ [""; "idle"]).
  { apply andb_false_iff in Et as [Et|Et]; zb; seqb; rewrite Et; set_solver. }
  destruct b; cbn [negb].
  - destruct (sv_Suspended row) eqn:Es.
    + exists row, row. split_and!; [done|done| |done|intros _; congruence].
      unfold put. rewrite insert_id by done. by destruct w as [[] ? ? ?].
    + unfold ptry. steps.
      rewrite (set_flag_alone id true row w Erow). cbn [fst snd].
      set (row1 := row <| sv_Suspended := true |>). set (w1 := changed id _ row w).
      destruct (entry id (Suspended_ true)) as [[]|e] eqn:Ee;
        [|right; exists row; split; [done|left; split; [by exists e|done]]].
      assert (H1 : db_servers (w_db w1) !! id = Some row1) by apply lookup_insert_eq.
      pose proof (stop_alone id w1 row1 H1) as Hstop.
      steps.
      destruct (answer (StopServer s id) w1) as [resp|e].
      * destruct Hstop as [Ht ->]. rewrite !answer_alone_bind, !world_alone_bind, publish_after.
        exists row, (set_actual "stopped" row1). split_and!; [done|done| |done|done].
        unfold put, w1, changed. recs. by rewrite insert_insert_eq.
      * unfold ignore. steps. cbn [answer_alone world_alone run_alone].
        assert (Eback : row1 <| sv_Suspended := false |> = row) by (unfold row1; destruct row; cbn in *; by subst).
        destruct Hstop as [-> |(Ht & Hu & Ha & ->)].
        -- left. rewrite (set_flag_alone id false row1 w1 H1). cbn [fst snd].
           unfold w1, changed. recs. rewrite insert_insert_eq.
           unfold const in Eback. rewrite Eback, insert_id by done. by destruct (w_db w).
        -- right. exists row. split; [done|]. right. split_and!; [done..|].
           rewrite (set_flag_alone id false (set_actual "stopped" row1)) by apply lookup_insert_eq. cbn [fst snd].
           assert (Ef : (set_actual "stopped" row1) <| sv_Suspended := false |> = set_actual "stopped" row)
             by (unfold row1; destruct row; cbn in *; by subst).
           unfold const in Ef. unfold put, w1, changed. recs. rewrite !insert_insert_eq, Ef. by destruct (w_db w).
  - unfold ptry. steps.
    rewrite (set_flag_alone id false row w Erow). cbn [fst snd].
    destruct (entry id (Suspended_ false)) as [[]|e] eqn:Ee;
      [|right; exists row; split; [done|left; split; [by exists e|done]]].
    rewrite !answer_alone_bind, !world_alone_bind, publish_after.
    exists row, (row <| sv_Suspended := false |>). by split_and!.
Qed.

(** When the suspension is not entered in the audit log, the server is marked
    suspended and keeps running; asking again succeeds without stopping it. *)
Lemma unlogged_suspension_sticks id row w e :
  server_row id (w_db w) = Got row -> sv_TransferState row = "idle" -> sv_Suspended row = false ->
  entry id (Suspended_ true) = Failed e ->
  let w1 := after (setSuspension s id true) w in
  answer (setSuspension s id true) w = Failed e /\
  server_row id (w_db w1) = Got (row <| sv_Suspended := true |>) /\
  answer (setSuspension s id true) w1 = Got tt /\ after (setSuspension s id true) w1 = w1.
Proof.
  intros Hrow Ht Hs He. assert (H := Hrow). unfold server_row in H.
  destruct (db_servers (w_db w) !! id) as [row0|] eqn:Er; [|done]. case_bool_decide as Hn; [|done]. injection H as ->.
  assert (E1 : after (setSuspension s id true) w = changed id (fun s => s <| sv_Suspended := true |>) row w /\
    answer (setSuspension s id true) w = Failed e).
  { unfold setSuspension, GetServer. steps. rewrite Hrow, Ht. cbn [String.eqb Ascii.eqb Bool.eqb negb andb].
    rewrite Hs. unfold ptry. steps. rewrite (set_flag_alone id true row w Er), He. by cbn [fst snd]. }
  destruct E1 as [-> E1]. set (w1 := changed id _ row w).
  assert (R1 : server_row id (w_db w1) = Got (row <| sv_Suspended := true |>)).
  { unfold server_row, w1, changed. recs. rewrite lookup_insert_eq. by rewrite bool_decide_true. }
  split; [exact E1|]. split; [exact R1|]. unfold setSuspension, GetServer. steps. rewrite R1. recs. by rewrite Ht.
Qed.


(** ** Creation *)

Lemma insert_server_failed req id now startup db e db' :
  insert_server req id now startup db = (Failed e, db') -> db' = db.
Proof.
  unfold insert_server. cbv zeta. match goal with |- match ?m with _ => _ end = _ -> _ => destruct m end; [done|].
  by intros [= _ <-].
Qed.

(** Requests that leave servers, allocations and nodes alone. *)
Definition off_servers (X : Type) (e : Eff X) : Prop :=
  match e with
  | InsertServer _ | SetServer _ _ | ChangeServer _ _ | RemoveServer _ _ | ResetServers _ => False
  | _ => True
  end.

Record same_servers (w w' : World) : Prop := {
  ss_servers : db_servers (w_db w') = db_servers (w_db w);
  ss_allocations : db_allocations (w_db w') = db_allocations (w_db w);
  ss_nodes : db_nodes (w_db w') = db_nodes (w_db w)
}.

#[export] Instance same_servers_pre : PreOrder same_servers.
Proof. split; [done|]. intros w1 w2 w3 [] []. split; congruence. Qed.

Lemma create_reservation_servers req id wall now db :
  let db' := snd (CreatePlacementReservation req id wall now (fun d => d) db) in
  db_servers db' = db_servers db /\ db_allocations db' = db_allocations db /\ db_nodes db' = db_nodes db.
Proof.
  cbv zeta. destruct (CreatePlacementReservation _ _ _ _ _ _) as [[res|e] db'] eqn:E.
  - apply create_got in E as (req' & c & row & _ & _ & _ & _ & Hi & _).
    by apply insert_reservation_got in Hi as (-> & _).
  - by apply create_failed_same in E as ->.
Qed.

Lemma off_servers_same X (e : Eff X) w : off_servers X e -> same_servers w (snd (alone X e w)).
Proof.
  destruct e; cbn [off_servers]; try done; intros _; cbn [serve snd]; try done.
  - destruct (create_reservation_servers req (fresh_id (w_ids w)) (w_now w) (w_now w) (w_db w)) as (H1 & H2 & H3).
    split; [exact H1|exact H2|exact H3].
  - unfold UpdatePlacementReservationStatus. split; by repeat case_match.
  - unfold UpdatePlacementReservationsForMigration. split; by repeat case_match.
Qed.

Lemma off_servers_after {A} (p : P A) w : only off_servers p -> same_servers w (after p w).
Proof. apply alone_only; [apply _|]. apply off_servers_same. Qed.

Lemma quiet_off {A} (p : P A) : only quiet p -> only off_servers p.
Proof. apply only_mono. by intros X []. Qed.

#[local] Hint Resolve quiet_off : requests.

Lemma create_reservation_off m req : only off_servers (CreateReservation m req).
Proof. unfold CreateReservation. requests. Qed.

Lemma transition_off m id status kind : only off_servers (transitionReservation m id status kind).
Proof. unfold transitionReservation. requests. Qed.

#[local] Hint Resolve create_reservation_off transition_off : requests.

Lemma reserve_first_off c q scores : only off_servers (reserve_first c q scores).
Proof. induction scores as [|x scores IH]; [exact I|]. cbn [reserve_first]. unfold reserve_on. requests. Qed.

#[local] Hint Resolve reserve_first_off : requests.

Lemma PlaceServer_off c p : only off_servers (PlaceServer c p).
Proof. unfold PlaceServer, ListNodes. requests. Qed.

Lemma choose_allocation_off d : only off_servers (choose_allocation d).
Proof. unfold choose_allocation. requests. Qed.

Lemma ensure_reservation_off req q d : only off_servers (ensure_reservation s req q d).
Proof. unfold ensure_reservation, GetReservation. requests. Qed.

Lemma cancelReservation_off id : only off_servers (cancelReservation s id).
Proof. unfold cancelReservation, CancelReservation. requests. Qed.

(** Before its row, a creation touches no server. *)
Lemma before_row {A} (p : P A) w : only off_servers p -> same_servers w (after p w).
Proof. apply off_servers_after. Qed.

(** The steps before it keep the node, and the allocation once it is chosen. *)
Lemma choose_allocation_node d :
  yields (fun a => match a with Got d' => d_NodeID d' = d_NodeID d | Failed _ => True end) (choose_allocation d).
Proof.
  unfold choose_allocation. destruct (_ =? _)%string; [|done]. unfold ptry.
  apply (yields_bind (fun _ => True)); [apply yields_any|]. by intros [a|e] _.
Qed.

Lemma ensure_reservation_place req q d :
  yields (fun a => match a with
                   | Got d' => d_NodeID d' = d_NodeID d /\ d_AllocationID d' = d_AllocationID d
                   | Failed _ => True end) (ensure_reservation s req q d).
Proof.
  unfold ensure_reservation, ptry.
  destruct (_ =? _)%string; [destruct (cm_reservations s); [|done]|];
    repeat (apply (yields_bind (fun _ => True)); [apply yields_any|]; intros ? _); by case_match.
Qed.

(** *** From the row on *)

Lemma changed_changed id f g row w : changed id g (f row) (changed id f row w) = changed id (fun s => g (f s)) row w.
Proof. unfold changed. recs. by rewrite insert_insert_eq. Qed.

Lemma changed_row id f row w : db_servers (w_db (changed id f row w)) !! id = Some (f row).
Proof. apply lookup_insert_eq. Qed.

Context (Hprovision : forall id t, provision_target id = Got t -> pt_ServerID t = id)
        (Hcontrol : forall id, exists t, control_target id = Got t)
        (Hdelete : forall t e, on_node _ t DeleteWorkload = Err e -> e <> "").

(** The row of the server after its provisioning. *)
Lemma provision_alone id w row :
  db_servers (w_db w) !! id = Some row ->
  exists f, after (provisionServer id) w = changed id f row w /\ sv_NodeID (f row) = sv_NodeID row /\
    forall created, answer (provisionServer id) w = (created, None) ->
      sv_Status (f row) = "created" /\ sv_Installed (f row) = false.
Proof.
  intros Hrow. assert (Same : exists f, w = changed id f row w /\ sv_NodeID (f row) = sv_NodeID row).
  { exists (fun s => s). split; [|done]. unfold changed. rewrite insert_id by done. by destruct w as [[] ? ? ?]. }
  unfold provisionServer. steps.
  destruct (provision_target id) as [t|e] eqn:Et; [|destruct Same as (f & ? & ?); by exists f].
  pose proof (Hprovision id t Et) as Eid. unfold syncProvisionTarget.
  steps.
  destruct (on_node _ _ SyncConfiguration) as [[]|e].
  2:{ unfold ignore. steps.
      rewrite Eid, (set_alone id ConfigSyncFailed _ _ row w Hrow (eq_sym (entered_got _ _ _ _ Hrow))). cbn [fst snd].
      eexists. split_and!; [reflexivity|done|done]. }
  steps. rewrite Eid, (set_alone id ConfigSynced _ _ row w Hrow (eq_sym (entered_got _ _ _ _ Hrow))). cbn [fst snd].
  steps.
  destruct (on_node _ _ (CreateWorkload _)) as [[]|e]; try (by eexists; split_and!; [reflexivity|done|done]).
  steps.
  rewrite (set_alone id Provisioned _ (entry id Provisioned) _ _ (changed_row id _ row w) eq_refl). cbn [fst snd].
  rewrite changed_changed. destruct (entry id Provisioned); (eexists; split_and!; [reflexivity|done|]); by intros created _.
Qed.

Lemma compensate_alone id created cause w :
  is_Some (db_servers (w_db w) !! id) ->
  after (compensateCreateFailure id created cause) w = w <| w_db := forget_server id (w_db w) |>.
Proof.
  intros Hrow. unfold compensateCreateFailure. steps.
  destruct (Hcontrol id) as [t ->].
  assert (Hremove : forall k, after (let^ r := request (RemoveServer id None) in
      match r with Failed e => Ret (k e) | Got _ => Ret cause end) w = w <| w_db := forget_server id (w_db w) |>).
  { intros k. steps.
    cbn [serve fst snd]. unfold HardDeleteServer, hardDeleteServer. by rewrite bool_decide_true. }
  destruct created; [|apply Hremove].
  steps.
  destruct (on_node _ _ DeleteWorkload) as [resp|e] eqn:Ed; [apply Hremove|].
  steps.
  cbn [serve fst snd]. unfold RecordOrphanAndHardDeleteServer, hardDeleteServer.
  destruct (String.eqb_spec e "") as [->|_]; [by apply Hdelete in Ed|]. by rewrite bool_decide_true.
Qed.

Lemma undo_alone {A} rid id created e w :
  is_Some (db_servers (w_db w) !! id) ->
  exists w1 e', same_servers w w1 /\ answer (undo_create (A := A) s rid id created e) w = Failed e' /\
    after (undo_create (A := A) s rid id created e) w = w1 <| w_db := forget_server id (w_db w1) |>.
Proof.
  intros Hrow. unfold undo_create. rewrite !answer_alone_bind, !world_alone_bind.
  pose proof (before_row (cancelReservation s rid) w (cancelReservation_off rid)) as S.
  set (w1 := after (cancelReservation s rid) w) in *. eexists w1, _. split_and!; [done|reflexivity|].
  change (after (Ret _) ?x) with x. rewrite compensate_alone; [done|]. by rewrite (ss_servers _ _ S).
Qed.

(** The confirmation closes the reservation or the row goes again. *)
Lemma confirm_alone rid id w :
  is_Some (db_servers (w_db w) !! id) ->
  match answer (confirm s rid id) w with
  | Got _ => same_servers w (after (confirm s rid id) w) /\
      (cm_reservations s <> None -> rid <> "" ->
       exists p, db_reservations (w_db (after (confirm s rid id) w)) !! rid = Some p /\ pr_Status p = "completed")
  | Failed _ => exists w1, same_servers w w1 /\
      after (confirm s rid id) w = w1 <| w_db := forget_server id (w_db w1) |>
  end.
Proof.
  intros Hrow. unfold confirm. destruct (cm_reservations s) as [m|]; [|by split].
  destruct (String.eqb_spec rid "") as [->|Hne]; cbn [negb]; [by split|].
  rewrite !answer_alone_bind, !world_alone_bind. unfold ConfirmReservation.
  pose proof (before_row (transitionReservation (Some m) rid "completed" "ReservationConfirmed") w
    (transition_off _ _ _ _)) as S.
  destruct (answer (transitionReservation _ _ _ _) w) as [res|e] eqn:Ea.
  - cbn [answer_alone world_alone run_alone fst snd got]. split; [exact S|]. intros _ _.
    revert Ea. unfold transitionReservation. destruct (reservationStore (Some m)); [|done].
    destruct (TrimSpace rid =? "")%string; [done|]. unfold ptry. steps. cbn [serve fst snd].
    unfold UpdatePlacementReservationStatus. cbn [slices_contains existsb String.eqb Ascii.eqb Bool.eqb orb negb].
    destruct (db_reservations (w_db w) !! rid) as [p|]; [|done]. destruct (open_status _); [|done].
    steps. intros _. exists (close_reservation "completed" (w_now w) p). split; [|done].
    unfold publish_reservation. destruct (rm_publisher m); apply lookup_insert_eq.
  - destruct (undo_alone (A := unit) rid id true e _ (ltac:(by rewrite (ss_servers _ _ S)))) as (w1 & e' & S1 & -> & ->).
    exists w1. split; [|done]. by etransitivity.
Qed.

Lemma lookup_assign id ids db (a : string) :
  db_allocations (assign_allocations id ids db) !! a =
  (fun x => if decide (a ∈ ids) then x <| al_ServerID := Some id |> else x) <$> db_allocations db !! a.
Proof.
  change (db_allocations (assign_allocations id ids db)) with
    (foldr (alter (fun x => x <| al_ServerID := Some id |>)) (db_allocations db) ids).
  generalize (db_allocations db) as m. intros m.
  induction ids as [|b ids IH]; cbn [foldr].
  - destruct (m !! a); cbn; [|done]. by rewrite decide_False by apply not_elem_of_nil.
  - destruct (decide (a = b)) as [->|Hne].
    + rewrite lookup_alter_eq, IH. destruct (m !! b); cbn; [|done]. rewrite (decide_True (P := b ∈ b :: ids)) by left.
      by case_decide.
    + rewrite lookup_alter_ne by done. rewrite IH. destruct (m !! a); cbn; [|done]. f_equal.
      do 2 case_decide; try done; set_solver.
Qed.

(** The insertion undone. *)
Lemma forget_inserted id req now db0 db1 w row :
  (forall a x, db_allocations db0 !! a = Some x -> al_ServerID x <> Some id) ->
  insert_server req id now (Got tt) db0 = (Got id, db1) ->
  db_servers (w_db w) = <[id := row]> (db_servers db0) -> db_allocations (w_db w) = db_allocations db1 ->
  db_servers (forget_server id (w_db w)) = db_servers db0 /\
  db_allocations (forget_server id (w_db w)) = db_allocations db0.
Proof.
  intros T E Es Ea. apply insert_server_got in E as (req' & ids & _ & _ & Hnew & _ & _ & _ & _ & Hl & _ & ->).
  assert (H : forall a, db_allocations (w_db w) !! a =
    (fun x => if decide (a ∈ ids) then x <| al_ServerID := Some id |> else x) <$> db_allocations db0 !! a).
  { intros a. rewrite Ea. exact (lookup_assign id ids (db0 <| db_servers := <[id := new_server req' id now]> (db_servers db0) |>) a). }
  unfold forget_server. recs. split; [by rewrite Es, delete_insert_eq, delete_id|].
  apply map_eq. intros a. rewrite lookup_fmap, H.
  destruct (db_allocations db0 !! a) as [x|] eqn:Ex; [|done]. cbn. f_equal.
  pose proof (T a x Ex) as Hx.
  case_decide as Hin.
  - destruct (lock_allocations_got _ _ _ _ _ Hl ltac:(by intros ? ?%elem_of_nil) a Hin) as (x' & Hx' & Hn & _).
    assert (x' = x) as -> by congruence. recs. rewrite bool_decide_true by done. destruct x; cbn in *. by subst.
  - by rewrite bool_decide_false.
Qed.


Lemma publish_answer_after e w : same_servers w (after (publish s e) w).
Proof. by rewrite publish_after. Qed.

(** The row after the insertion, whatever became of the provisioning. *)
Lemma provisioned_alone id w row :
  db_servers (w_db w) !! id = Some row ->
  let p := if cm_runtime s then provisionServer id else Ret (false, Some (ErrText ErrRuntimeUnavailable)) in
  exists f, after p w = changed id f row w /\ sv_NodeID (f row) = sv_NodeID row /\
    forall created, answer p w = (created, None) -> sv_Status (f row) = "created".
Proof.
  intros Hrow. destruct (cm_runtime s); cbv zeta.
  - destruct (provision_alone id w row Hrow) as (f & H1 & H2 & H3). exists f. split_and!; [done..|].
    intros created Hc. by apply (H3 created).
  - exists (fun s => s). split_and!; [|done|done]. unfold changed. rewrite insert_id by done. by destruct w as [[] ? ? ?].
Qed.

(** The allocations asked for are among the locked ones. *)
Lemma lock_allocations_all node ids seen db l :
  lock_allocations node ids seen db = Got l ->
  (forall a, a ∈ seen -> a ∈ l) /\ (forall a, a ∈ ids -> a <> "" -> a ∈ l).
Proof.
  revert seen. induction ids as [|b ids IH]; intros seen H; cbn [lock_allocations] in H.
  { injection H as <-. split; [done|]. by intros a ?%elem_of_nil. }
  destruct (_ || _) eqn:E.
  - destruct (IH _ H) as [H1 H2]. split; [done|]. intros a [->|Ha]%elem_of_cons Hne; [|by apply H2].
    apply H1. apply orb_true_iff in E as [E|E]; [by seqb|by apply slices_contains_spec in E].
  - destruct (db_allocations db !! b) as [row|]; [|done]. case_bool_decide; [done|]. destruct (negb _); [done|].
    destruct (IH _ H) as [H1 H2]. split; [intros a Ha; apply H1; by right|].
    intros a [->|Ha]%elem_of_cons Hne; [apply H1; left|by apply H2].
Qed.

(** What a creation made of [w0]. *)
Definition created_from (w0 w' : World) (row : ServerRow) (d : Decision) (id : string) : Prop :=
  db_servers (w_db w0) !! id = None /\
  db_servers (w_db w') = <[id := row]> (db_servers (w_db w0)) /\
  sv_NodeID row = d_NodeID d /\ sv_Status row = "created" /\
  (exists a, db_allocations (w_db w0) !! d_AllocationID d = Some a /\ al_NodeID a = d_NodeID d /\
     al_ServerID a = None /\
     db_allocations (w_db w') !! d_AllocationID d = Some (a <| al_ServerID := Some id |>)) /\
  (cm_reservations s <> None -> d_ReservationID d <> "" ->
   exists r, db_reservations (w_db w') !! d_ReservationID d = Some r /\ pr_Status r = "completed").

(** The tables with the inserted row, and what finishing makes of them. *)
Lemma finish_alone req id d w0 w :
  (forall a x, db_allocations (w_db w0) !! a = Some x -> al_ServerID x <> Some id) ->
  insert_server req id (w_now w0) (Got tt) (w_db w0) = (Got id, w_db w) ->
  cs_NodeID req = d_NodeID d -> cs_AllocationID req = d_AllocationID d ->
  let w' := after (finish_creation s d id) w in
  match answer (finish_creation s d id) w with
  | Failed _ => db_servers (w_db w') = db_servers (w_db w0) /\
                db_allocations (w_db w') = db_allocations (w_db w0)
  | Got (row, d') => d' = d /\ created_from w0 w' row d id
  end.
Proof using Hcontrol Hdelete Hprovision.
  intros Hfree Ei Hn Ha w'. unfold w', finish_creation. clear w'.
  destruct (insert_server_got _ _ _ _ _ _ _ Ei) as (req' & ids & Er & _ & Hnew & Hnode & _ & _ & _ & Hl & Hal & Edb).
  destruct (server_defaults_got (fst (default (0, "") (db_eggs (w_db w0) !! cs_TemplateID req))) req) as (En & _).
  rewrite <- Er in En. set (row0 := new_server req' id (w_now w0)) in *.
  assert (Es : db_servers (w_db w) = <[id := row0]> (db_servers (w_db w0))) by (by rewrite Edb).
  destruct (provisioned_alone id w row0 ltac:(rewrite Es; apply lookup_insert_eq)) as (f & Hpa & Hpn & Hpc).
  set (prov := if cm_runtime s then _ else _) in *.
  assert (Es1 : db_servers (w_db (after prov w)) = <[id := f row0]> (db_servers (w_db w0))).
  { rewrite Hpa. change (<[id := f row0]> (db_servers (w_db w)) = <[id := f row0]> (db_servers (w_db w0))).
    rewrite Es. apply insert_insert_eq. }
  assert (Ea1 : db_allocations (w_db (after prov w)) = db_allocations (w_db w)) by (by rewrite Hpa).
  assert (Ed1 : db_nodes (w_db (after prov w)) = db_nodes (w_db w0)) by (rewrite Hpa; unfold changed; recs; by rewrite Edb).
  rewrite !answer_alone_bind, !world_alone_bind. set (w1 := after prov w) in *.
  assert (Hundone : forall w2, same_servers w1 w2 ->
    db_servers (forget_server id (w_db w2)) = db_servers (w_db w0) /\
    db_allocations (forget_server id (w_db w2)) = db_allocations (w_db w0)).
  { intros w2 S2. apply (forget_inserted id req (w_now w0) (w_db w0) (w_db w) w2 (f row0)); [done|done|..].
    - by rewrite (ss_servers _ _ S2).
    - by rewrite (ss_allocations _ _ S2). }
  assert (Hrow1 : is_Some (db_servers (w_db w1) !! id)) by (rewrite Es1, lookup_insert_eq; by eexists).
  destruct (answer prov w) as [created [e|]].
  { destruct (undo_alone (A := ServerRow * Decision) (d_ReservationID d) id created e w1 Hrow1) as (w2 & e' & S2 & -> & ->).
    by apply Hundone. }
  unfold ptry. rewrite !answer_alone_bind, !world_alone_bind.
  pose proof (confirm_alone (d_ReservationID d) id w1 Hrow1) as Hconf.
  destruct (answer (confirm s (d_ReservationID d) id) w1) as [[]|e].
  2:{ destruct Hconf as (w2 & S2 & ->). by apply Hundone. }
  destruct Hconf as [S2 Hres]. set (w2 := after (confirm s (d_ReservationID d) id) w1) in *.
  unfold GetServer. steps. unfold server_row.
  rewrite (ss_servers _ _ S2), (ss_nodes _ _ S2), Es1, lookup_insert_eq, Ed1, Hpn. cbn [sv_NodeID row0 new_server].
  rewrite En. rewrite bool_decide_true by exact Hnode. steps. rewrite publish_after.
  cbn [answer_alone world_alone run_alone got fst snd].
  destruct (lock_allocations_all _ _ _ _ _ Hl) as [_ Hin]. specialize (Hin _ (list_elem_of_here _ _) Hal).
  destruct (lock_allocations_got _ _ _ _ _ Hl ltac:(by intros ? ?%elem_of_nil) _ Hin) as (a & Ha1 & Ha2 & Ha3).
  split; [done|]. split_and!; [done|by rewrite (ss_servers _ _ S2)|by rewrite Hpn, <- Hn, <- En|by apply (Hpc created)| |exact Hres].
  exists a. rewrite <- Ha. split_and!; [done|congruence|done|].
  rewrite (ss_allocations _ _ S2), Ea1, Edb, lookup_assign.
  change (db_allocations (_ <| db_servers := _ |>)) with (db_allocations (w_db w0)).
  rewrite Ha1. cbn [fmap option_fmap option_map]. by rewrite decide_True.
Qed.

(** C5: Creating a server is all or nothing, whatever the nodes answer, when
    the creation is alone with the tables, its statements are carried out (those
    that only enter a change in the audit log may fail) and the context of the
    request does not expire on the way.  On success the tables hold one more
    server, on the node of the decision and created there, the allocation of the
    decision, free before, is its own, and the reservation is closed as
    completed; on an error servers and allocations are as they were. *)
Theorem creation_all_or_nothing req p w (T : tables_ok (w_db w)) :
  let w' := after (CreateServer s req p) w in
  match answer (CreateServer s req p) w with
  | Failed _ => db_servers (w_db w') = db_servers (w_db w) /\
                db_allocations (w_db w') = db_allocations (w_db w)
  | Got (row, d) => exists id, created_from w w' row d id
  end.
Proof using Hcontrol Hdelete Hprovision.
  intros w'. unfold w', CreateServer, ptry. clear w'. cbv zeta.
  destruct (_ || _); [done|]. destruct (_ =? _)%string; [done|].
  set (q := complete_placement req p). rewrite !answer_alone_bind, !world_alone_bind.
  pose proof (before_row (PlaceServer (cm_scheduler s) q) w (PlaceServer_off _ _)) as S1.
  destruct (answer (PlaceServer _ _) w) as [d|e]; [|split; apply S1].
  set (w1 := after (PlaceServer _ _) w) in *. clearbody w1. rewrite !answer_alone_bind, !world_alone_bind.
  pose proof (before_row (choose_allocation d) w1 (choose_allocation_off d)) as S2.
  pose proof (alone_yields alone _ (choose_allocation d) w1 (choose_allocation_node d)) as Hd.
  destruct (answer (choose_allocation d) w1) as [d1|e]; [|split; (etransitivity; [apply S2|apply S1])].
  set (w2 := after (choose_allocation d) w1) in *. clearbody w2.
  set (req2 := req <| cs_NodeID := d_NodeID d |> <| cs_AllocationID := d_AllocationID d1 |>).
  rewrite !answer_alone_bind, !world_alone_bind.
  pose proof (before_row (ensure_reservation s req2 q d1) w2 (ensure_reservation_off _ _ _)) as S3.
  pose proof (alone_yields alone _ (ensure_reservation s req2 q d1) w2 (ensure_reservation_place _ _ _)) as Hd2.
  destruct (answer (ensure_reservation s req2 q d1) w2) as [d2|e];
    [|split; (etransitivity; [apply S3|etransitivity; [apply S2|apply S1]])].
  set (w3 := after (ensure_reservation s req2 q d1) w2) in *. clearbody w3. destruct Hd2 as [Hd2 Hd3].
  assert (SS : same_servers w w3) by (etransitivity; [exact S1|etransitivity; [exact S2|exact S3]]).
  clear S1 S2 S3. rewrite !answer_alone_bind, !world_alone_bind, !publish_after, request_answer, request_after.
  cbn [serve fst snd]. set (id := fresh_id (w_ids w3)).
  destruct (insert_server req2 id (w_now w3) (Got tt) (w_db w3)) as [[id'|e] db4] eqn:Ei; cbn [fst snd].
  - assert (Hnew : id' = id /\ db_servers (w_db w3) !! id = None) by (apply insert_server_got in Ei; naive_solver).
    destruct Hnew as [-> Hnew].
    assert (Hfree : forall a x, db_allocations (w_db w3) !! a = Some x -> al_ServerID x <> Some id).
    { intros a x Ha Hx. rewrite (ss_allocations _ _ SS) in Ha. rewrite (ss_servers _ _ SS) in Hnew.
      destruct (to_allocations _ T a x Ha id Hx) as (srv & Hsrv & _). congruence. }
    pose proof (finish_alone req2 id d2 w3 (w3 <| w_db := db4 |> <| w_ids := S (w_ids w3) |>) Hfree Ei) as Hf.
    specialize (Hf ltac:(unfold req2; recs; congruence) ltac:(unfold req2; recs; congruence)).
    cbv zeta in Hf. rewrite <- (ss_servers _ _ SS), <- (ss_allocations _ _ SS).
    destruct (answer (finish_creation s d2 id) _) as [[row d']|e]; [|apply Hf]. destruct Hf as [-> Hf]. exists id. revert Hf. unfold created_from.
    by rewrite (ss_servers _ _ SS), (ss_allocations _ _ SS).
  - rewrite answer_alone_bind, world_alone_bind. apply insert_server_failed in Ei as ->.
    set (w4 := w3 <| w_db := w_db w3 |> <| w_ids := S (w_ids w3) |>).
    pose proof (before_row (cancelReservation s (d_ReservationID d2)) w4 (cancelReservation_off _)) as S4.
    split; [rewrite <- (ss_servers _ _ SS)|rewrite <- (ss_allocations _ _ SS)]; apply S4.
Qed.
End Alone.

(** ** A creation on the example tables *)

Definition example_target (id : string) : ServerProvisionTarget :=
  mkServerProvisionTarget id "egg" "" "" "" "" "image:1" "run" "" "" "" "" "" ∅ [] 0 0 0 0 0 0 "" false 0 0
    "" 0 [] false false "" false ∅ None.

(** A node that takes every workload. *)
Definition willing_node (A : Type) (t : RuntimeTarget) (c : NodeCall A) : result A :=
  match c in NodeCall A return result A with
  | CreateWorkload _ => Ok true
  | SyncConfiguration => Ok tt
  | ResizeWorkload _ _ => Ok tt
  | InstallWorkload _ => Ok (mkInstallResponse "" true "" 0 "")
  | ReinstallWorkload _ => Ok (mkInstallResponse "" true "" 0 "")
  | InspectWorkload => Ok (mkInspection "" true "" true "running" 0 true)
  | _ => Ok (mkPowerResponse "" "" true "")
  end.

Definition example_control (id : string) : answer ServerControlTarget :=
  Got (mkServerControlTarget id "" "" "docker").

Definition example_manager : ClusterManager :=
  mkClusterManager true example_scheduler (Some (mkReservationManager true false)) false.

Definition example_server_request : CreateServerRequest :=
  mkCreateServerRequest "one" "" "u1" "egg" "" [] 4000 1024 0 2000 0 0 0 0 0 "" false "" "" ∅ "" false ∅.
Definition example_place : PlacementRequest :=
  mkPlacementRequest "" "eu" "" "" "" "" "" false "" "" [] 0 0 0 0.
Definition example_targets (id : string) : answer ServerProvisionTarget := Got (example_target id).
Definition refusing_node (A : Type) (t : RuntimeTarget) (c : NodeCall A) : result A := Err "no node".

(** With a node that takes the workload, and with one that refuses it. *)
Lemma creation_all_or_nothing_witness :
  let create := CreateServer example_manager example_server_request example_place in
  (exists row d, answer_alone (serve willing_node example_control example_targets entered) create example_world = Got (row, d) /\
     exists id, created_from example_manager example_world
       (world_alone (serve willing_node example_control example_targets entered) create example_world) row d id) /\
  (exists e, answer_alone (serve refusing_node example_control example_targets entered) create example_world = Failed e /\
     db_servers (w_db (world_alone (serve refusing_node example_control example_targets entered) create example_world)) =
     db_servers example_db).
Proof.
  cbv zeta. split.
  - pose proof (creation_all_or_nothing example_manager willing_node example_control example_targets entered
      ltac:(by intros id t [= <-]) ltac:(by intros id; eexists) ltac:(done)
      example_server_request example_place example_world example_tables_ok) as H. cbv zeta in H.
    destruct (answer_alone _ _ _) as [[row d]|e] eqn:E; [exists row, d; split; [reflexivity|exact H]|].
    vm_compute in E. discriminate E.
  - pose proof (creation_all_or_nothing example_manager refusing_node example_control example_targets entered
      ltac:(by intros id t [= <-]) ltac:(by intros id; eexists) ltac:(by intros t e [= <-])
      example_server_request example_place example_world example_tables_ok) as H. cbv zeta in H.
    destruct (answer_alone _ _ _) as [[row d]|e] eqn:E; [vm_compute in E; discriminate E|].
    exists e. split; [reflexivity|exact (proj1 H)].
Defined.
