(* ===== verification/Creations.v ===== *)
(** * Servers created at once

    The API server handles every request in a goroutine of its own, so
    creations of servers run side by side, with deletions, power signals and
    suspensions, and the expiry of reservations.  Each is one thread of a
    [pool]; the tables are shared.

    A statement runs whole: its transaction takes the row locks it needs, and
    the capacity check and the insertion of a reservation see one state of the
    tables.  Any statement may fail, before or after it took effect, and nodes
    answer what they like.  A reservation is used for an insertion while it is
    live: the request takes less than the ten minutes the reservation lasts and
    nobody cancels it meanwhile. *)
From Stdlib Require Import ZArith Lia Floats.SpecFloat.
From stdpp Require Import base gmap strings list fin_maps relations.
From coqutil Require Import Datatypes.RecordSettersUsingExistingGetters.
From S2P Require Import Prelude GoStrings GoSort Constraints Strategy Engine Programs Capacity Servers ControlPlane Reservations Scheduler ClusterManager.
Import RecordSetNotations1.
#[local] Open Scope string_scope.
#[local] Open Scope list_scope.
#[local] Open Scope Z_scope.
#[local] Open Scope go_scope.

(** ** What is shared

    Beside the tables and the clock: the reservation each thread holds for an
    insertion to come, and the reservations an insertion has used. *)
Record Shared := mkShared {
  sh_db : Db;
  sh_now : Time;
  sh_claims : gmap nat string;
  sh_used : gset string
}.

(** A statement with the outcome [r]: it succeeds, or fails before or after
    taking effect. *)
Definition stated {A} (r : answer A * Db) (w : Shared) (x : answer A) (w' : Shared) : Prop :=
  (x = fst r /\ w' = w <| sh_db := snd r |>) \/
  (exists e, x = Failed e) /\ (w' = w \/ w' = w <| sh_db := snd r |>).

(** The thread holds a reservation that is live. *)
Definition claim_live (t : nat) (w : Shared) : Prop :=
  forall id, sh_claims w !! t = Some id ->
  exists p, db_reservations (sh_db w) !! id = Some p /\ live (sh_now w) p = true.

(** What thread [t]'s request does to [w]. *)
Definition answers_to (t : nat) (X : Type) (e : Eff X) (w : Shared) : X -> Shared -> Prop :=
  match e in Eff X return X -> Shared -> Prop with
  | Read q => fun x w' => w' = w /\ (x = q (sh_now w) (sh_db w) \/ exists e, x = Failed e)
  | Reserve req => fun x w' =>
      (exists e, x = Failed e) /\ w' = w \/
      exists id wall res db', id <> "" /\ db_reservations (sh_db w) !! id = None /\
        CreatePlacementReservation req id wall (sh_now w) (fun d => d) (sh_db w) = (Got res, db') /\
        (x = Got res /\ w' = w <| sh_db := db' |> <| sh_claims := <[t := id]> (sh_claims w) |> \/
         (exists e, x = Failed e) /\ w' = w <| sh_db := db' |>)
  | CloseReservation id status => fun x w' =>
      stated (UpdatePlacementReservationStatus id status (sh_now w) (sh_db w)) w x w'
  | ExpireAll => fun x w' => stated (ExpirePlacementReservations (sh_now w) (sh_db w)) w x w'
  | CloseForMigration id status => fun x w' =>
      stated (UpdatePlacementReservationsForMigration id status (sh_now w) (sh_db w)) w x w'
  | InsertServer req => fun x w' =>
      (exists e, x = Failed e) /\ w' = w \/
      claim_live t w /\
      exists id startup db', insert_server req id (sh_now w) startup (sh_db w) = (Got id, db') /\
        (x = Got id \/ exists e, x = Failed e) /\
        w' = w <| sh_db := db' |> <| sh_claims := delete t (sh_claims w) |>
               <| sh_used := match sh_claims w !! t with
                             | Some c => {[c]} ∪ sh_used w | None => sh_used w end |>
  | SetServer id c => fun x w' => exists entry, stated (change_server id c entry (sh_db w)) w x w'
  | ChangeServer id req => fun x w' => stated (UpdateServer id req (sh_db w)) w x w'
  | RemoveServer id orphan => fun x w' =>
      stated (match orphan with
              | Some err => RecordOrphanAndHardDeleteServer id err (sh_db w)
              | None => HardDeleteServer id (sh_db w) end) w x w'
  | ResetServers node => fun x w' => stated (ResetNodeServerStates node (sh_db w)) w x w'
  | ControlTarget _ | ProvisionTarget _ | MountsOf _ | OnNode _ _ | ContextErr | Clock | Compute _ | Predict _
  | Count _ | Publish _ => fun _ w' => w' = w
  end.

(** Time passes. *)
Definition time_passes (w w' : Shared) : Prop := exists now, sh_now w <= now /\ w' = w <| sh_now := now |>.

Definition drop_claim (t : nat) (w : Shared) : Shared := w <| sh_claims := delete t (sh_claims w) |>.

(** ** What a thread is *)

(** A creation whose reservation covers resource [r] of the row it inserts. *)
Definition covers (r : resource) (req : CreateServerRequest) (p : PlacementRequest) : Prop :=
  let q := normalizeRequest (complete_placement req p) in
  match r with
  | Cpu => 0 < cs_CPUShares req <= p_CPU q
  | Memory => 0 < cs_MemoryMB req <= p_MemoryMB q
  | Disk => 0 < cs_DiskMB req <= p_DiskMB q
  end.

(** Creations go through a scheduler and a reservation manager that are
    configured; the other requests are of any kind but a resize. *)
Inductive handles (r : resource) : prog Eff unit -> Prop :=
| handles_create s req p :
    (exists publisher, cm_reservations s = Some (mkReservationManager true publisher)) ->
    covers r req p -> handles r (ignore (CreateServer s req p))
| handles_delete s id force : handles r (ignore (DeleteServer s id force))
| handles_power s id signal : handles r (ignore (RequestServerPower s id signal))
| handles_suspend s id b : handles r (ignore (setSuspension s id b))
| handles_install s id reinstall reinstaller : handles r (ignore (runInstaller s id reinstall reinstaller))
| handles_sync s id : handles r (ignore (SyncServerConfiguration s id))
| handles_refresh s id : handles r (ignore (RefreshServerActualState s id))
| handles_reconcile s node : handles r (ignore (ReconcileNode s node))
| handles_expire m : handles r (ignore (ExpireReservations m)).

(** ** What is kept

    No node is promised twice: what runs on it and the live reservations that
    no insertion has used fit its capacity. *)
Section Resource.
Context (r : resource).

Definition unused (w : Shared) (n : string) (p : PlacementReservation) : bool :=
  held_on n (sh_now w) p && bool_decide (pr_ID p ∉ sh_used w).

Definition unused_load (n : string) (w : Shared) : Z :=
  msum (where_ (unused w n) (reserved_use r)) (db_reservations (sh_db w)).

Record kept (w : Shared) : Prop := {
  k_tables : tables_ok (sh_db w);
  k_used : forall id, id ∈ sh_used w -> is_Some (db_reservations (sh_db w) !! id);
  k_claims : forall t id, sh_claims w !! t = Some id ->
    is_Some (db_reservations (sh_db w) !! id) /\ id ∉ sh_used w;
  k_distinct : forall t t' id, sh_claims w !! t = Some id -> sh_claims w !! t' = Some id -> t = t';
  k_fits : forall n row, db_nodes (sh_db w) !! n = Some row ->
    running_load r n (sh_db w) + unused_load n w <= total r row
}.

(** The same promise, whatever became of it. *)
Definition same_promise (p p' : PlacementReservation) : Prop :=
  pr_ID p' = pr_ID p /\ pr_NodeID p' = pr_NodeID p /\ reserved_use r p' = reserved_use r p.

(** What a thread relies on: its claim stays, and the row it names. *)
Definition relies (t : nat) (w w' : Shared) : Prop :=
  sh_claims w' !! t = sh_claims w !! t /\
  forall id p, sh_claims w !! t = Some id -> db_reservations (sh_db w) !! id = Some p ->
  exists p', db_reservations (sh_db w') !! id = Some p' /\ same_promise p p'.

#[export] Instance relies_pre t : PreOrder (relies t).
Proof.
  split.
  - intros w. split; [done|]. intros id p _ Hp. by exists p.
  - intros w1 w2 w3 [E1 H1] [E2 H2]. split; [congruence|]. intros id p Hc Hp.
    destruct (H1 id p Hc Hp) as (p' & Hp' & A1 & A2 & A3).
    destruct (H2 id p') as (p'' & Hp'' & B1 & B2 & B3); [congruence|done|].
    exists p''. split; [done|]. split_and!; congruence.
Qed.

(** *** Statements that promise nothing *)

(** The nodes are the same, no more runs, and no reservation comes to life. *)
Record no_more (now : Time) (db db' : Db) : Prop := {
  nm_tables : tables_ok db';
  nm_nodes : db_nodes db' = db_nodes db;
  nm_running : forall n, running_load r n db' <= running_load r n db;
  nm_kept : forall k p, db_reservations db !! k = Some p ->
    exists p', db_reservations db' !! k = Some p' /\ same_promise p p';
  nm_live : forall k p', db_reservations db' !! k = Some p' ->
    exists p, db_reservations db !! k = Some p /\ same_promise p p' /\ (live now p' = true -> live now p = true)
}.

Lemma msum_le_lookup {A} (f g : A -> Z) (m m' : gmap string A) :
  (forall k a, m !! k = Some a -> 0 <= f a) ->
  (forall k a', m' !! k = Some a' -> exists a, m !! k = Some a /\ g a' <= f a) -> msum g m' <= msum f m.
Proof.
  revert m. induction m' as [|k a' m' Hk IH] using map_ind; intros m Hf H.
  { rewrite msum_empty. by apply msum_nonneg. }
  destruct (H k a') as (a & Ha & Hle); [apply lookup_insert_eq|].
  rewrite (msum_insert_new g m' k a' Hk), (msum_delete f m k a Ha).
  assert (msum g m' <= msum f (delete k m)); [|lia]. apply IH.
  - intros k' b Hb. apply lookup_delete_Some in Hb as [_ Hb]. eauto.
  - intros k' b Hb. assert (k' <> k) by congruence. destruct (H k' b) as (c & Hc & Hle'); [by rewrite lookup_insert_ne|].
    exists c. by rewrite lookup_delete_ne.
Qed.

Lemma kept_nonneg w k p :
  kept w -> db_reservations (sh_db w) !! k = Some p -> 0 <= reserved_use r p.
Proof. intros K Hp. by destruct (to_reservations _ (k_tables w K) k p Hp) as (_ & _ & _ & _ & _ & H). Qed.

(** A world that promises no more: later, or after such a statement. *)
Lemma kept_no_more w db' now' :
  kept w -> sh_now w <= now' -> no_more now' (sh_db w) db' ->
  let w' := w <| sh_db := db' |> <| sh_now := now' |> in
  kept w' /\ forall t, relies t w w'.
Proof.
  intros K Hn N w'. split.
  - split; recs.
    + apply N.
    + intros id Hi. destruct (k_used w K id Hi) as [p Hp]. destruct (nm_kept _ _ _ N id p Hp) as (p' & ? & _).
      by exists p'.
    + intros t id Hc. destruct (k_claims w K t id Hc) as [[p Hp] Hu].
      destruct (nm_kept _ _ _ N id p Hp) as (p' & ? & _). split; [by exists p'|done].
    + apply K.
    + intros n row Hrow. rewrite (nm_nodes _ _ _ N) in Hrow. pose proof (k_fits w K n row Hrow).
      pose proof (nm_running _ _ _ N n).
      assert (unused_load n w' <= unused_load n w); [|lia].
      apply msum_le_lookup; [intros k p Hp; apply where_nonneg; by eapply kept_nonneg|].
      intros k p' Hp'. destruct (nm_live _ _ _ N k p' Hp') as (p & Hp & (E1 & E2 & E3) & Hl).
      exists p. split; [done|]. pose proof (kept_nonneg w k p K Hp).
      unfold where_, unused, held_on, w'. recs. rewrite E1, E2, E3.
      destruct (pr_NodeID p =? n)%string; [|done]. cbn [andb].
      destruct (live now' p') eqn:L'; cbn [andb]; [|destruct (_ && _); lia].
      specialize (Hl eq_refl). unfold live, After in Hl |- *. apply andb_true_iff in Hl as [-> Hl]. zb.
      replace (sh_now w <? pr_ExpiresAt p) with true by (symmetry; zb; lia). done.
  - intros t. split; [done|]. intros id p _ Hp. apply (nm_kept _ _ _ N id p Hp).
Qed.

(** *** The statements one by one *)

Lemma no_more_refl now db : tables_ok db -> no_more now db db.
Proof.
  intros T. split; [done|done|lia| |].
  - intros k p Hp. by exists p.
  - intros k p Hp. by exists p.
Qed.

(** Reservations rewritten in place, none reopened. *)
Lemma no_more_reservations now db (p : PlacementReservation -> bool) f :
  tables_ok db -> tables_ok (snd (update_where p f db)) ->
  (forall x, same_promise x (f x)) ->
  (forall x, p x = true -> live now (f x) = true -> live now x = true) ->
  no_more now db (snd (update_where p f db)).
Proof.
  intros T T' Hf Hl. split; [done|done|done| |].
  - intros k x Hx. recs. rewrite lookup_fmap, Hx. eexists. split; [done|]. destruct (p x); [apply Hf|done].
  - intros k x' Hx'. recs in Hx'. rewrite lookup_fmap in Hx'.
    destruct (db_reservations db !! k) as [x|] eqn:Ex; [|done]. injection Hx' as <-. exists x.
    split; [done|]. destruct (p x) eqn:Ep; [|done]. split; [apply Hf|by apply Hl].
Qed.

Lemma close_promise status now p : same_promise p (close_reservation status now p).
Proof. unfold same_promise. split_and!; [done..|]. by destruct r. Qed.

Lemma expire_promise now p : same_promise p (expire now p).
Proof. unfold same_promise. split_and!; [done..|]. by destruct r. Qed.

Lemma no_more_expire now db : tables_ok db -> no_more now db (snd (ExpirePlacementReservations now db)).
Proof.
  intros T. apply (no_more_reservations now db (overdue now) (expire now)); [done|by apply expire_ok|intros; apply expire_promise|].
  intros x Hx Hl. by rewrite expired_not_live in Hl.
Qed.

Lemma open_live now p p' :
  open_status (pr_Status p) = true -> pr_ExpiresAt p' = pr_ExpiresAt p -> live now p' = true -> live now p = true.
Proof. unfold live. intros -> ->. by intros [_ ->]%andb_true_iff. Qed.

Lemma no_more_close_migration now db m status :
  tables_ok db -> no_more now db (snd (UpdatePlacementReservationsForMigration m status now db)).
Proof.
  intros T. pose proof (close_migration_ok m status now db T) as T'.
  unfold UpdatePlacementReservationsForMigration in *. destruct (negb _); [by apply no_more_refl|].
  apply no_more_reservations; [done|done|intros; apply close_promise|].
  intros x [_ Hx]%andb_true_iff. by apply open_live.
Qed.

Lemma no_more_close now db id status :
  tables_ok db -> no_more now db (snd (UpdatePlacementReservationStatus id status now db)).
Proof.
  intros T. pose proof (close_ok id status now db T) as T'. unfold UpdatePlacementReservationStatus in *.
  destruct (negb _); [by apply no_more_refl|]. destruct (db_reservations db !! id) as [p|] eqn:Ep; [|by apply no_more_refl].
  destruct (open_status _) eqn:Eo; [|by apply no_more_refl]. split; [done|done|done| |]; intros k x Hx.
  - destruct (decide (k = id)) as [->|Hne].
    + exists (close_reservation status now p). recs. rewrite lookup_insert_eq. split; [done|].
      rewrite Ep in Hx. injection Hx as <-. apply close_promise.
    + exists x. recs. by rewrite lookup_insert_ne.
  - recs in Hx. apply lookup_insert_Some in Hx as [[<- <-]|[_ Hx]].
    + exists p. split_and!; [done|apply close_promise|by apply open_live].
    + by exists x.
Qed.

(** Servers that stay where they are and as large as they are. *)
Lemma no_more_servers now db m :
  tables_ok db -> tables_ok (db <| db_servers := m |>) ->
  (forall k s', m !! k = Some s' -> exists s, db_servers db !! k = Some s /\
     sv_NodeID s' = sv_NodeID s /\ server_use r s' = server_use r s) ->
  no_more now db (db <| db_servers := m |>).
Proof.
  intros T T' Hm. split; [done|done| | |].
  - intros n. unfold running_load. recs.
    assert (msum (where_ (deployed_on n) (server_use r)) m <=
            msum (where_ (deployed_on n) (server_use r)) (db_servers db)); [|lia].
    apply msum_le_lookup.
    + intros k s Hs. apply where_nonneg. apply (to_servers db T k s Hs).
    + intros k s' Hs'. destruct (Hm k s' Hs') as (s & Hs & E1 & E2). exists s. split; [done|].
      unfold where_, deployed_on. rewrite E1, E2. destruct (to_servers db T k s Hs) as (_ & Hd & _).
      destruct (sv_NodeID s =? n)%string; [|done]. cbn [andb].
      destruct (String.eqb_spec (sv_Status s) "deleted"); [done|]. cbn [negb].
      destruct (negb _); [done|]. apply (to_servers db T k s Hs).
  - intros k p Hp. by exists p.
  - intros k p Hp. by exists p.
Qed.

Lemma no_more_row now db id f :
  tables_ok db -> tables_ok (snd (update_server id f db)) ->
  (forall s, sv_NodeID (f s) = sv_NodeID s /\ server_use r (f s) = server_use r s) ->
  no_more now db (snd (update_server id f db)).
Proof.
  intros T T' Hf. unfold update_server in *. destruct (db_servers db !! id) as [s|] eqn:Es; [|by apply no_more_refl].
  apply no_more_servers; [done..|]. intros k s' Hs'. apply lookup_insert_Some in Hs' as [[<- <-]|[_ Hs']].
  - exists s. split; [done|]. apply Hf.
  - by exists s'.
Qed.

Lemma no_more_change now db id c entry : tables_ok db -> no_more now db (snd (change_server id c entry db)).
Proof.
  intros T. pose proof (change_server_ok id c entry db T) as T'. destruct c; cbn [change_server] in *;
    unfold SetServerSuspended, SetServerDesiredState, SetServerActualState, SetServerProvisioned,
      SetServerInstallState, MarkServerConfigSynced, MarkServerConfigSyncFailed in *;
    repeat (case_match; try by apply no_more_refl); rewrite ?entered_tables in *;
    (apply no_more_row; [done..|]); intros s'; by destruct r.
Qed.

Lemma no_more_reset now db node : tables_ok db -> no_more now db (snd (ResetNodeServerStates node db)).
Proof.
  intros T. pose proof (reset_servers_ok node db T) as T'. unfold ResetNodeServerStates in *.
  apply no_more_servers; [done..|]. intros k s' Hs'. rewrite lookup_fmap in Hs'.
  destruct (db_servers db !! k) as [s|]; [|done]. injection Hs' as <-. exists s. split; [done|].
  case_match; [|done]. by destruct r.
Qed.

Lemma no_more_forget now db id : tables_ok db -> no_more now db (forget_server id db).
Proof.
  intros T. split; [by apply forget_server_ok|done| | |].
  - intros n. unfold running_load, forget_server. recs.
    pose proof (msum_delete_le (where_ (deployed_on n) (server_use r)) (db_servers db) id) as H.
    assert (msum (where_ (deployed_on n) (server_use r)) (delete id (db_servers db)) <=
            msum (where_ (deployed_on n) (server_use r)) (db_servers db)); [|lia].
    apply H. intros k s Hs. apply where_nonneg. apply (to_servers db T k s Hs).
  - intros k p Hp. recs. rewrite lookup_fmap, Hp. eexists. split; [done|].
    case_bool_decide; [|done]. unfold same_promise. split_and!; [done..|]. by destruct r.
  - intros k p' Hp'. recs in Hp'. rewrite lookup_fmap in Hp'.
    destruct (db_reservations db !! k) as [p|]; [|done]. injection Hp' as <-. exists p. split; [done|].
    case_bool_decide; [|done]. unfold same_promise. split; [|done]. split_and!; [done..|]. by destruct r.
Qed.

Lemma no_more_remove now db id : tables_ok db -> no_more now db (snd (HardDeleteServer id db)).
Proof.
  intros T. unfold HardDeleteServer, hardDeleteServer. case_bool_decide; [by apply no_more_forget|by apply no_more_refl].
Qed.

Lemma no_more_orphan now db id err : tables_ok db -> no_more now db (snd (RecordOrphanAndHardDeleteServer id err db)).
Proof.
  intros T. unfold RecordOrphanAndHardDeleteServer. destruct (_ =? _)%string; [by apply no_more_refl|by apply no_more_remove].
Qed.

(** *** Requests that promise nothing *)

Definition harmless (X : Type) (e : Eff X) : Prop :=
  match e with Reserve _ | InsertServer _ | ChangeServer _ _ => False | _ => True end.

Lemma stated_kept {A} (res : answer A * Db) w x w' :
  kept w -> no_more (sh_now w) (sh_db w) (snd res) -> stated res w x w' ->
  kept w' /\ forall t, relies t w w'.
Proof.
  intros K N H. assert (E : w' = w \/ w' = w <| sh_db := snd res |>) by (destruct H as [[_ ->]|[_ [->| ->]]]; auto).
  destruct E as [->| ->]; [split; [done|reflexivity]|].
  assert (Hs : w <| sh_db := snd res |> = w <| sh_db := snd res |> <| sh_now := sh_now w |>) by by destruct w.
  rewrite Hs. by apply kept_no_more.
Qed.

Lemma harmless_kept t X (e : Eff X) w x w' :
  harmless X e -> kept w -> answers_to t X e w x w' -> kept w' /\ forall t', relies t' w w'.
Proof.
  intros Hh K. pose proof (k_tables w K) as T.
  assert (Same : kept w /\ forall t', relies t' w w) by (split; [done|reflexivity]).
  destruct e; cbn [harmless answers_to] in *; try done; intros H;
    try (destruct H as [-> _]; exact Same); try (subst w'; exact Same);
    try (eapply stated_kept; [done| |exact H]).
  - by apply no_more_close.
  - by apply no_more_expire.
  - by apply no_more_close_migration.
  - destruct H as [entry H]. eapply stated_kept; [done| |exact H]. by apply no_more_change.
  - destruct orphan; [by apply no_more_orphan|by apply no_more_remove].
  - by apply no_more_reset.
Qed.

(** *** A reservation, and its use *)

(** Thread [t] holds reservation [id] of [amount] on node [n]. *)
Definition holds (t : nat) (id n : string) (amount : Z) (w : Shared) : Prop :=
  sh_claims w !! t = Some id /\ exists p, db_reservations (sh_db w) !! id = Some p /\
    pr_ID p = id /\ pr_NodeID p = n /\ amount <= reserved_use r p.

Lemma holds_stable t id n amount : stable relies t (holds t id n amount).
Proof.
  intros w w' [Hc (p & Hp & E1 & E2 & Ha)] [Ec H]. split; [congruence|].
  destruct (H id p Hc Hp) as (p' & Hp' & F1 & F2 & F3). exists p'. split_and!; [done|congruence..|lia].
Qed.

Lemma held_unused now n w p : unused w n p = true -> held_on n now p = true \/ sh_now w <> now.
Proof. unfold unused. intros [H _]%andb_true_iff. destruct (decide (sh_now w = now)) as [<-|]; auto. Qed.

Lemma unused_promised n w : kept w -> unused_load n w <= promised_load r n (sh_now w) (sh_db w).
Proof.
  intros K. apply msum_le_lookup; intros k p Hp; [apply where_nonneg; by eapply kept_nonneg|].
  exists p. split; [done|]. pose proof (kept_nonneg w k p K Hp). unfold where_, unused.
  destruct (held_on _ _ _); [|done]. cbn [andb]. case_bool_decide; lia.
Qed.

Lemma unused_load_expire n w :
  unused_load n (w <| sh_db := expire_overdue (sh_now w) (sh_db w) |>) = unused_load n w.
Proof.
  unfold unused_load, expire_overdue. recs. rewrite msum_fmap. apply msum_ext. intros k p _.
  destruct (overdue _ p) eqn:Eo; [|done]. unfold where_, unused, held_on.
  rewrite expired_not_live, (live_expire _ _ p (Z.le_refl _) Eo). by rewrite !andb_false_r.
Qed.

Lemma unused_insert n w db p :
  db_reservations db !! pr_ID p = None ->
  unused_load n (w <| sh_db := db <| db_reservations := <[pr_ID p := p]> (db_reservations db) |> |>) =
  where_ (unused w n) (reserved_use r) p + unused_load n (w <| sh_db := db |>).
Proof. intros H. unfold unused_load. recs. by rewrite msum_insert_new. Qed.

(** What a created reservation changes. *)
Lemma reserved_kept req id wall w res db' :
  kept w -> db_reservations (sh_db w) !! id = None ->
  CreatePlacementReservation req id wall (sh_now w) (fun d => d) (sh_db w) = (Got res, db') ->
  kept (w <| sh_db := db' |>) /\ (forall t, relies t w (w <| sh_db := db' |>)) /\
  db_reservations db' !! id = Some res /\ pr_ID res = id /\ pr_NodeID res = rr_NodeID req /\
  reserved_use r res = requested r req.
Proof.
  intros K Hnew E. pose proof (k_tables w K) as T.
  assert (T' : tables_ok db') by (pose proof (reserve_ok req id wall (sh_now w) (sh_db w) T) as H; by rewrite E in H).
  pose proof (create_got_fits _ _ _ _ _ _ _ (tables_db_ok _ T) E) as (_ & _ & Hfit & _).
  apply create_got in E as (req' & c & row & Er & Hrow & _ & _ & Hi & -> & _).
  destruct (reservation_request_got _ _ _ Er) as (En & _ & _ & Hreq & _).
  apply insert_reservation_got in Hi as (-> & Hnew' & _). cbn [pr_ID new_reservation] in *.
  assert (Hu : id ∉ sh_used w) by (intros [p Hp]%(k_used w K); congruence).
  assert (Keep : forall k p, db_reservations (sh_db w) !! k = Some p -> exists p',
    <[id := new_reservation req' id (sh_now w)]> (db_reservations (expire_overdue (sh_now w) (sh_db w))) !! k = Some p' /\
    same_promise p p').
  { intros k p Hp. rewrite lookup_insert_ne by congruence. recs. rewrite lookup_fmap, Hp. eexists. split; [done|].
    destruct (overdue _ _); [apply expire_promise|done]. }
  split_and!.
  - split; [done| | |exact (k_distinct w K)|].
    + intros k Hk. destruct (k_used w K k Hk) as [p Hp]. destruct (Keep k p Hp) as (p' & ? & _). by exists p'.
    + intros t k Hc. destruct (k_claims w K t k Hc) as [[p Hp] ?]. destruct (Keep k p Hp) as (p' & ? & _).
      split; [by exists p'|done].
    + intros n nrow Hn. pose proof (k_fits w K n nrow Hn) as Hf.
      pose proof (unused_insert n w (expire_overdue (sh_now w) (sh_db w)) (new_reservation req' id (sh_now w)) Hnew') as Hx.
      rewrite unused_load_expire in Hx. cbn [pr_ID new_reservation] in Hx. rewrite Hx.
      unfold where_ at 1, unused at 1, held_on. cbn [pr_NodeID pr_ID new_reservation]. rewrite En.
      match goal with |- running_load r n ?d + _ <= _ =>
        change (running_load r n d) with (running_load r n (sh_db w)) end.
      destruct (String.eqb_spec (rr_NodeID req) n) as [<-|]; [|cbn [andb]; lia].
      assert (Er' : reserved_use r (new_reservation req' id (sh_now w)) = requested r req)
        by (rewrite reserved_use_new; apply Hreq).
      rewrite Er'. destruct (Z.leb_spec (requested r req) 0) as [Hz|Hp].
      { destruct (_ && _); [|lia]. lia. }
      specialize (Hfit nrow Hn r Hp). unfold load in Hfit. pose proof (unused_promised (rr_NodeID req) w K) as Hup.
      destruct (_ && _); lia.
  - intros t. split; [done|]. intros k p _ Hp. by apply Keep.
  - recs. apply lookup_insert_eq.
  - done.
  - done.
  - rewrite reserved_use_new. apply Hreq.
Qed.

Lemma unused_claimed t id n p w :
  sh_claims w !! t = Some id -> kept w -> db_reservations (sh_db w) !! id = Some p -> live (sh_now w) p = true ->
  msum (where_ (unused (w <| sh_used := {[id]} ∪ sh_used w |>) n) (reserved_use r)) (db_reservations (sh_db w)) =
  unused_load n w - (if (pr_NodeID p =? n)%string then reserved_use r p else 0).
Proof.
  intros Hc K Hp Hl. destruct (k_claims w K t id Hc) as [_ Hu].
  destruct (to_reservations _ (k_tables w K) id p Hp) as (Eid & _).
  unfold unused_load. rewrite !(msum_delete _ _ id p Hp).
  assert (E : msum (where_ (unused (w <| sh_used := {[id]} ∪ sh_used w |>) n) (reserved_use r)) (delete id (db_reservations (sh_db w))) =
    msum (where_ (unused w n) (reserved_use r)) (delete id (db_reservations (sh_db w)))).
  { apply msum_ext. intros k q Hq. apply lookup_delete_Some in Hq as [Hne Hq].
    destruct (to_reservations _ (k_tables w K) k q Hq) as (Ek & _).
    unfold where_, unused. recs.
    rewrite (bool_decide_ext (pr_ID q ∉ {[id]} ∪ sh_used w) (pr_ID q ∉ sh_used w)); [done|]. rewrite Ek. set_solver. }
  rewrite E. unfold where_, unused, held_on. recs. rewrite Hl, Eid.
  rewrite bool_decide_false by set_solver. rewrite bool_decide_true by done.
  destruct (_ =? _)%string; cbn; lia.
Qed.

(** The row an insertion adds, where, and what becomes of the rest. *)
Lemma inserted_load req id now startup db id' db' n :
  tables_ok db -> insert_server req id now startup db = (Got id', db') ->
  db_nodes db' = db_nodes db /\ db_reservations db' = db_reservations db /\
  running_load r n db' = running_load r n db +
    if (cs_NodeID req =? n)%string then
      match r with
      | Cpu => cs_CPUShares req
      | Memory => cs_MemoryMB (server_defaults (fst (default (0, "") (db_eggs db !! cs_TemplateID req))) req)
      | Disk => cs_DiskMB req
      end else 0.
Proof.
  intros T E. apply insert_server_got in E as (req' & ids & Er & -> & Hf & _ & Hm & Hc & Hd & _ & _ & ->).
  destruct (server_defaults_got (fst (default (0, "") (db_eggs db !! cs_TemplateID req))) req) as (En & _ & Ec & Ed & _).
  rewrite <- Er in *. split_and!; [done|done|]. unfold running_load, assign_allocations. recs.
  rewrite msum_insert_new by done. unfold where_ at 1, deployed_on. cbn [sv_NodeID sv_Status new_server]. rewrite En.
  destruct (_ =? _)%string; cbn [andb negb]; [|lia]. cbn [String.eqb]. destruct r; cbn; lia.
Qed.

Definition row_amount (req : CreateServerRequest) : Z :=
  match r with Cpu => cs_CPUShares req | Memory => cs_MemoryMB req | Disk => cs_DiskMB req end.

Lemma insert_kept t req w x w' id n amount :
  kept w -> holds t id n amount w -> cs_NodeID req = n -> 0 < row_amount req <= amount ->
  answers_to t _ (InsertServer req) w x w' ->
  kept w' /\ forall t', t' <> t -> relies t' w w'.
Proof.
  intros K [Hc (p & Hp & Eid & En & Ha)] Hn Hr [[_ ->]|(Hlive & sid & startup & db' & E & _ & ->)].
  { split; [done|]. intros; reflexivity. }
  destruct (Hlive id Hc) as (p' & Hp' & Hl). rewrite Hp in Hp'. injection Hp' as <-.
  pose proof (k_tables w K) as T. destruct (k_claims w K t id Hc) as [_ Hu].
  assert (T' : tables_ok db')
    by (pose proof (insert_server_ok req sid (sh_now w) startup (sh_db w) T) as H; by rewrite E in H).
  pose proof (fun n' => inserted_load req sid _ _ _ _ _ n' T E) as Hload.
  destruct (Hload n) as (Hnodes & Hres & _). rewrite Hc. split.
  - split; [done| | | |].
    + intros k Hk. recs in Hk. recs. rewrite Hres.
      apply elem_of_union in Hk as [->%elem_of_singleton|Hk]; [by exists p|by apply (k_used w K)].
    + intros t' k Hk. recs in Hk. apply lookup_delete_Some in Hk as [Hne Hk].
      destruct (k_claims w K t' k Hk) as [Hs Hu']. recs. rewrite Hres. split; [done|].
      intros [->%elem_of_singleton|?]%elem_of_union; [|done]. apply Hne. by eapply (k_distinct w K).
    + intros t1 t2 k H1 H2. recs in H1. recs in H2.
      apply lookup_delete_Some in H1 as [_ H1], H2 as [_ H2]. by eapply (k_distinct w K).
    + intros n' row Hrow. recs in Hrow. rewrite Hnodes in Hrow. pose proof (k_fits w K n' row Hrow) as Hf.
      match goal with |- running_load r n' ?d + _ <= _ => change d with db' end.
      match goal with |- _ + unused_load n' ?w' <= _ => replace (unused_load n' w') with
        (msum (where_ (unused (w <| sh_used := {[id]} ∪ sh_used w |>) n') (reserved_use r)) (db_reservations (sh_db w)))
        by (unfold unused_load; recs; by rewrite Hres) end.
      rewrite (unused_claimed t id n' p w Hc K Hp Hl). destruct (Hload n') as (_ & _ & ->).
      rewrite Hn, En. destruct (String.eqb_spec n n') as [<-|]; [|lia].
      unfold row_amount in Hr. destruct r; [lia| |lia].
      destruct (server_defaults_got (fst (default (0, "") (db_eggs (sh_db w) !! cs_TemplateID req))) req) as (_ & _ & _ & _ & ->).
      destruct (Z.leb_spec (cs_MemoryMB req) 0); lia.
  - intros t' Hne. split; [by recs; rewrite lookup_delete_ne|]. intros k q Hk Hq. exists q. recs. by rewrite Hres.
Qed.

Lemma claims_kept_on_claim t w id res :
  kept w -> db_reservations (sh_db w) !! id = Some res -> id ∉ sh_used w ->
  (forall t' , sh_claims w !! t' <> Some id) ->
  kept (w <| sh_claims := <[t := id]> (sh_claims w) |>).
Proof.
  intros K Hp Hu Hf. split; [apply K|apply K| | |exact (k_fits w K)].
  - intros t' k Hk. recs in Hk. apply lookup_insert_Some in Hk as [[<- <-]|[_ Hk]]; [by split; [exists res|]|].
    by apply (k_claims w K t').
  - intros t1 t2 k H1 H2. recs in H1. recs in H2.
    apply lookup_insert_Some in H1 as [[<- <-]|[? H1]], H2 as [[<- E2]|[? H2]]; try done.
    + by apply Hf in H2.
    + subst k. by apply Hf in H1.
    + by eapply (k_distinct w K).
Qed.

Definition promised_to (t : nat) (n : string) (amount : Z) (x : answer PlacementReservation) (w : Shared) : Prop :=
  match x with Got res => pr_ID res <> "" /\ holds t (pr_ID res) n amount w | Failed _ => True end.

Lemma reserve_kept t req w x w' :
  kept w -> answers_to t _ (Reserve req) w x w' ->
  kept w' /\ (forall t', t' <> t -> relies t' w w') /\ promised_to t (rr_NodeID req) (requested r req) x w'.
Proof.
  intros K [[[e ->] ->]|(id & wall & res & db' & Hid & Hnew & E & H)].
  { split_and!; [done|intros; reflexivity|done]. }
  destruct (reserved_kept req id wall w res db' K Hnew E) as (K' & HR & Hp & Eid & En & Er).
  destruct H as [[-> ->]|[[e ->] ->]]; [|split_and!; [done|intros; apply HR|done]].
  assert (Hu : id ∉ sh_used w) by (intros [p ?]%(k_used w K); congruence).
  assert (Hf : forall t', sh_claims w !! t' <> Some id).
  { intros t' Hc. destruct (k_claims w K t' id Hc) as [[p ?] _]. congruence. }
  split_and!.
  - exact (claims_kept_on_claim t (w <| sh_db := db' |>) id res K' Hp Hu Hf).
  - intros t' Hne. destruct (HR t') as [_ H]. split; [by recs; rewrite lookup_insert_ne|]. exact H.
  - cbn [promised_to]. rewrite Eid. split; [done|]. split; [apply lookup_insert_eq|].
    exists res. split_and!; [done..|lia].
Qed.

(** *** The programs *)

Abbreviation wpc := (wp answers_to kept relies) (only parsing).

Lemma wp_harmless {A} t (p : P A) (Q : Shared -> Prop) w :
  stable relies t Q -> only harmless p -> Q w -> wpc t p (fun _ => Q) w.
Proof.
  intros HQ Hp Hw. eapply wp_only; [exact HQ| |exact Hp|exact Hw].
  intros X e w1 x w2 He HQ1 K Hs. destruct (harmless_kept t X e w1 x w2 He K Hs) as [K2 HR].
  split_and!; [done|intros; apply HR|]. by eapply HQ.
Qed.

Lemma wp_safe {A} t (p : P A) w : only harmless p -> wpc t p (fun _ _ => True) w.
Proof. intros Hp. by apply (wp_harmless t p (fun _ => True)). Qed.

Lemma wp_try {A B} t (m : P (answer A)) (k : A -> P (answer B)) Q w :
  wpc t m (fun a w' => match a with Got a => wpc t (k a) Q w' | Failed e => Q (Failed e) w' end) w ->
  wpc t (ptry m k) Q w.
Proof. intros H. apply wp_bind. eapply wp_mono; [|exact H]. by intros [a|e] w'. Qed.

Lemma wp_harmless_bind {A B} t (m : P A) (k : A -> P B) (I : Shared -> Prop) Q w :
  stable relies t I -> only harmless m -> (forall a w', I w' -> wpc t (k a) Q w') -> I w ->
  wpc t (pbind m k) Q w.
Proof.
  intros HI Hm Hk Hw. apply wp_bind. eapply wp_mono; [|by apply (wp_harmless t m I)].
  intros a w' Hw'. by apply Hk.
Qed.

Lemma wp_reserve {A} t req (k : answer PlacementReservation -> P A) Q w :
  (forall x w', promised_to t (rr_NodeID req) (requested r req) x w' -> wpc t (k x) Q w') ->
  wpc t (pbind (request (Reserve req)) k) Q w.
Proof.
  intros Hk. apply (wp_request _ _ _ t (Reserve req) k (fun _ => True)
    (promised_to t (rr_NodeID req) (requested r req))); [done| |exact Hk|done].
  intros w1 x w2 _ K Hs. by eapply reserve_kept.
Qed.
End Resource.

Lemma quiet_harmless {A} (p : P A) : only quiet p -> only harmless p.
Proof. apply only_mono. by intros X []. Qed.

#[local] Hint Resolve quiet_harmless : requests.

Section Harmless.
Context (s : ClusterManager).

Lemma publish_harmless e : only harmless (publish s e).
Proof. unfold publish. requests. Qed.

Lemma transition_harmless m id status kind : only harmless (transitionReservation m id status kind).
Proof. unfold transitionReservation. requests. Qed.

#[local] Hint Resolve publish_harmless transition_harmless : requests.

Lemma cancel_harmless id : only harmless (cancelReservation s id).
Proof. unfold cancelReservation, CancelReservation. requests. Qed.

Lemma expire_harmless m : only harmless (ExpireReservations m).
Proof. unfold ExpireReservations. requests. apply for_each_only. intros p. requests. Qed.

Lemma sync_harmless t : only harmless (syncProvisionTarget t).
Proof. unfold syncProvisionTarget. requests. Qed.

Lemma compensate_harmless id created cause : only harmless (compensateCreateFailure id created cause).
Proof. unfold compensateCreateFailure. requests. Qed.

#[local] Hint Resolve cancel_harmless sync_harmless compensate_harmless : requests.

Lemma provision_harmless id : only harmless (provisionServer id).
Proof. unfold provisionServer. requests. Qed.

Lemma undo_harmless {A} rid id created e : only harmless (undo_create (A := A) s rid id created e).
Proof. unfold undo_create. requests. Qed.

#[local] Hint Resolve provision_harmless undo_harmless : requests.

Lemma confirm_harmless rid id : only harmless (confirm s rid id).
Proof. unfold confirm, ConfirmReservation. requests. Qed.

Lemma power_events_harmless id signal : only harmless (publishServerPowerEvents s id signal).
Proof. unfold publishServerPowerEvents. requests. Qed.

#[local] Hint Resolve confirm_harmless power_events_harmless : requests.

Lemma send_power_harmless id signal : only harmless (sendPower s id signal).
Proof. unfold sendPower, sendRuntimePower. requests. Qed.

#[local] Hint Resolve send_power_harmless : requests.

Lemma request_power_harmless id signal : only harmless (RequestServerPower s id signal).
Proof. unfold RequestServerPower, GetServer. cbv zeta. requests. Qed.

Lemma suspension_harmless id b : only harmless (setSuspension s id b).
Proof. unfold setSuspension, GetServer, StopServer. requests. Qed.

Lemma install_harmless id reinstall reinstaller : only harmless (runInstaller s id reinstall reinstaller).
Proof. unfold runInstaller. cbv zeta. requests. Qed.

Lemma sync_server_harmless id : only harmless (SyncServerConfiguration s id).
Proof. unfold SyncServerConfiguration. requests. Qed.

Lemma delete_harmless id force : only harmless (DeleteServer s id force).
Proof. unfold DeleteServer. requests. Qed.

Lemma refresh_harmless id : only harmless (RefreshServerActualState s id).
Proof. unfold RefreshServerActualState, GetServer. requests. Qed.

Lemma reconcile_harmless node : only harmless (ReconcileNode s node).
Proof.
  unfold ReconcileNode, GetNode, ListServersForNode. requests. apply for_each_only. intros x. unfold reconcile_server.
  requests.
Qed.
End Harmless.

#[local] Hint Resolve publish_harmless cancel_harmless provision_harmless undo_harmless confirm_harmless
  delete_harmless request_power_harmless suspension_harmless install_harmless sync_server_harmless
  refresh_harmless reconcile_harmless expire_harmless : requests.

Section Creation.
Context (r : resource).
Abbreviation wpc := (wp answers_to (kept r) (relies r)) (only parsing).

Lemma wp_CreateReservation t m req w :
  wpc t (CreateReservation m req) (promised_to r t (rr_NodeID req) (requested r req)) w.
Proof.
  unfold CreateReservation. apply (wp_harmless_bind r t _ _ (fun _ => True)); [done|by apply only_request| |done].
  intros now w1 _. destruct (ValidateReservationRequest now req); [exact I|]. destruct (reservationStore m); [|exact I].
  apply wp_reserve. intros x w2 Hx. destruct x as [res|e].
  - apply (wp_harmless_bind r t _ _ (promised_to r t (rr_NodeID req) (requested r req) (Got res))).
    + intros v v' [? H] HR. split; [done|]. by eapply holds_stable.
    + requests.
    + intros _ w3 Hw3. apply (wp_harmless_bind r t _ _ (promised_to r t (rr_NodeID req) (requested r req) (Got res)));
        [|requests|by intros _ w4 Hw4|exact Hw3].
      intros v v' [? H] HR. split; [done|]. by eapply holds_stable.
    + exact Hx.
  - apply (wp_harmless_bind r t _ _ (fun _ => True)); [done| |by intros|done].
    destruct (IsConflict e); [requests|exact I].
Qed.

(** *** Placement *)

Definition same_amounts (q q' : PlacementRequest) : Prop :=
  p_CPU q' = p_CPU q /\ p_MemoryMB q' = p_MemoryMB q /\ p_DiskMB q' = p_DiskMB q /\
  p_SkipReservation q' = p_SkipReservation q.

Lemma resolve_region_amounts q :
  yields (fun a => match a with Got q' => same_amounts q q' | Failed _ => True end) (resolve_region q).
Proof.
  unfold resolve_region. destruct (_ =? _)%string; [done|]. unfold ptry.
  apply (yields_bind (fun _ => True)); [apply yields_any|]. intros [id|e] _; [|done]. cbn.
  destruct (_ =? _)%string; done.
Qed.

Definition placed_amount (q : PlacementRequest) : Z :=
  match r with Cpu => p_CPU q | Memory => p_MemoryMB q | Disk => p_DiskMB q end.

(** What a decision tells its thread. *)
Definition decided (t : nat) (skip : bool) (amount : Z) (x : answer Decision) (w : Shared) : Prop :=
  match x with
  | Got d => if skip then d_ReservationID d = ""
             else d_ReservationID d <> "" /\ holds r t (d_ReservationID d) (d_NodeID d) amount w
  | Failed _ => True
  end.

Lemma decided_stable t skip amount x : stable (relies r) t (decided t skip amount x).
Proof.
  intros w w' H HR. destruct x as [d|e]; [|done]. cbn in *. destruct skip; [done|].
  destruct H as [? H]. split; [done|]. by eapply holds_stable.
Qed.

Lemma wp_reserve_on t s q n w :
  wpc t (reserve_on s q n) (promised_to r t (nd_ID n) (placed_amount q)) w.
Proof.
  assert (E : placed_amount q = requested r (reservation_for q n)) by (unfold placed_amount; destruct r; reflexivity). rewrite E.
  unfold reserve_on. destruct (sc_reservations s).
  - apply (wp_CreateReservation t _ (reservation_for q n)).
  - exact (wp_reserve r t (reservation_for q n) Ret _ w (fun x w' H => H)).
Qed.

Lemma wp_reserve_first t s q scores w :
  wpc t (reserve_first s q scores) (decided t (p_SkipReservation q) (placed_amount q)) w.
Proof.
  revert w. induction scores as [|x scores IH]; intros w; [exact I|]. cbn [reserve_first].
  apply (wp_harmless_bind r t _ _ (fun _ => True)); [done|by apply only_request| |done].
  intros [e|] w1 _; [exact I|]. destruct (p_SkipReservation q); [done|].
  apply wp_bind. eapply wp_mono; [|apply wp_reserve_on].
  intros [res|e] w2 H; [exact H|]. destruct (IsConflict e); [apply IH|exact I].
Qed.

Lemma wp_PlaceServer t s p w :
  wpc t (PlaceServer s p)
    (decided t (p_SkipReservation p) (placed_amount (normalizeRequest p))) w.
Proof.
  unfold PlaceServer, ListNodes. apply wp_try. eapply wp_mono; [|apply wp_yields;
    [apply resolve_region_amounts|apply wp_safe, quiet_harmless, resolve_region_quiet]].
  intros [q|e] w1 [Hq _]; [|exact I]. destruct Hq as (E1 & E2 & E3 & E4).
  assert (E : placed_amount q = placed_amount (normalizeRequest p)) by (unfold placed_amount; destruct r; congruence).
  change (p_SkipReservation (normalizeRequest p)) with (p_SkipReservation p) in E4. rewrite <- E, <- E4. clear E E1 E2 E3 E4.
  destruct (_ && _); [exact I|].
  apply wp_try. eapply wp_mono; [|apply wp_safe; by apply only_request]. intros [nodes|e] w2 _; [|exact I].
  apply wp_try. eapply wp_mono; [|apply wp_safe, quiet_harmless, FilterNodes_quiet]. intros [kept_|e] w3 _; [|exact I].
  destruct (of_runtime q kept_) as [|n l]; [exact I|].
  apply wp_try. eapply wp_mono; [|apply wp_safe, quiet_harmless, ScoreNodes_quiet]. intros [scores|e] w4 _; [|exact I].
  destruct scores; [exact I|]. apply wp_reserve_first.
Qed.

(** *** Creation *)

Lemma wp_insert {A} t req (k : answer string -> P A) id n amount Q w :
  cs_NodeID req = n -> 0 < row_amount r req <= amount ->
  (forall x w', wpc t (k x) Q w') -> holds r t id n amount w ->
  wpc t (pbind (request (InsertServer req)) k) Q w.
Proof.
  intros Hn Ha Hk. apply (wp_request _ _ _ t (InsertServer req) k (holds r t id n amount) (fun _ _ => True)).
  - apply holds_stable.
  - intros w1 x w2 H K Hs. destruct (insert_kept r t req w1 x w2 id n amount K H Hn Ha Hs) as [K2 HR]. done.
  - intros x w2 _. apply Hk.
Qed.

(** The service's own reservation covers what the scheduler's would. *)
Lemma own_amount req req' p now :
  0 < row_amount r req -> row_amount r req' = row_amount r req ->
  requested r (own_reservation req' (complete_placement req p) now) =
  placed_amount (normalizeRequest (complete_placement req p)).
Proof.
  unfold row_amount, placed_amount. intros H E. destruct r; cbn -[firstNonZero firstNonEmpty TrimSpace ToLower];
    unfold const; cbn -[firstNonZero firstNonEmpty TrimSpace ToLower]; rewrite ?E; cbn [firstNonZero]; unfold zero_or;
    repeat (case_match; zb; try lia).
Qed.

Lemma choose_allocation_keeps d :
  yields (fun a => match a with
                   | Got d' => d_NodeID d' = d_NodeID d /\ d_ReservationID d' = d_ReservationID d
                   | Failed _ => True end) (choose_allocation d).
Proof.
  unfold choose_allocation. destruct (_ =? _)%string; [|done]. unfold ptry.
  apply (yields_bind (fun _ => True)); [apply yields_any|]. by intros [a|e] _.
Qed.

Lemma choose_allocation_harmless d : only harmless (choose_allocation d).
Proof. unfold choose_allocation. requests. Qed.

(** After it, the thread holds a reservation on the node of the decision. *)
Lemma wp_ensure t s publisher req q d amount w :
  cm_reservations s = Some (mkReservationManager true publisher) -> cs_NodeID req = d_NodeID d ->
  (forall now, requested r (own_reservation req q now) = amount) ->
  decided t (p_SkipReservation q) amount (Got d) w ->
  wpc t (ensure_reservation s req q d)
    (fun a w' => match a with
                 | Got d' => d_NodeID d' = d_NodeID d /\ exists id, holds r t id (d_NodeID d) amount w'
                 | Failed _ => True end) w.
Proof.
  intros Em En Ea Hd. unfold ensure_reservation. rewrite Em. cbn [decided] in Hd.
  destruct (p_SkipReservation q).
  - rewrite Hd. cbn [String.eqb].
    apply (wp_harmless_bind r t _ _ (fun _ => True)); [done|by apply only_request| |done].
    intros now w1 _. apply wp_try. eapply wp_mono; [|apply wp_CreateReservation].
    intros [res|e] w2 H; [|exact I]. destruct H as [_ H]. split; [done|]. exists (pr_ID res).
    rewrite <- (Ea now), <- En. exact H.
  - destruct Hd as [Hne Hh]. destruct (String.eqb_spec (d_ReservationID d) "") as [|_]; [done|].
    apply wp_try. eapply wp_mono; [|apply (wp_harmless r t _ (holds r t (d_ReservationID d) (d_NodeID d) amount));
      [apply holds_stable|unfold GetReservation; requests|exact Hh]].
    intros [res|e] w2 H; [|exact I]. split; [done|]. by exists (d_ReservationID d).
Qed.

Lemma covers_amount req p :
  covers r req p -> 0 < row_amount r req <= placed_amount (normalizeRequest (complete_placement req p)).
Proof. unfold covers, row_amount, placed_amount. by destruct r. Qed.

Lemma wp_CreateServer t s publisher req p w :
  cm_reservations s = Some (mkReservationManager true publisher) -> covers r req p ->
  wpc t (CreateServer s req p) (fun _ _ => True) w.
Proof.
  intros Em Hc. apply covers_amount in Hc. unfold CreateServer. cbv zeta.
  destruct (_ || _); [exact I|]. destruct (_ =? _)%string; [exact I|].
  set (q := complete_placement req p) in *. set (amount := placed_amount (normalizeRequest q)) in *.
  apply wp_try. eapply wp_mono; [|apply wp_PlaceServer]. intros [d|e] w1 Hd; [|exact I].
  apply wp_try. eapply wp_mono; [|apply wp_yields; [apply choose_allocation_keeps|
    apply (wp_harmless r t _ (decided t (p_SkipReservation q) amount (Got d)));
      [apply decided_stable|apply choose_allocation_harmless|exact Hd]]].
  intros [d1|e] w2 [Hk Hd1]; [|exact I]. destruct Hk as [En Er].
  apply wp_try. eapply wp_mono; [|apply (wp_ensure t s publisher _ q d1 amount); [exact Em|by cbn| |]].
  2:{ intros now. apply (own_amount req _ p now); [lia|]. by destruct r. }
  2:{ cbn [decided] in *. destruct (p_SkipReservation q); [by rewrite Er|by rewrite En, Er]. }
  intros [d2|e] w3 H; [|exact I]. destruct H as (En2 & id & Hh).
  apply (wp_harmless_bind r t _ _ (holds r t id (d_NodeID d1) amount)); [apply holds_stable|apply publish_harmless| |exact Hh].
  intros _ w4 Hh4. apply (wp_insert t _ _ id (d_NodeID d1) amount); [by cbn|by destruct r| |exact Hh4].
  intros x w5. apply wp_safe. unfold finish_creation, GetServer. requests.
Qed.

Lemma handled_safe t p w : handles r p -> wpc t p (fun _ _ => True) w.
Proof.
  intros H. destruct H as [s req p [publisher Em] Hc| | | | | | | | ]; unfold ignore;
    [apply wp_bind; eapply wp_mono; [|by eapply wp_CreateServer]; done|..];
    apply wp_safe; requests.
Qed.

Lemma time_kept w w' : kept r w -> time_passes w w' -> kept r w' /\ forall t, relies r t w w'.
Proof.
  intros K (now & Hle & ->).
  assert (E : w <| sh_now := now |> = w <| sh_db := sh_db w |> <| sh_now := now |>) by (by destruct w).
  rewrite E. apply kept_no_more; [done|done|]. by apply no_more_refl, (k_tables r w K).
Qed.

Lemma drop_kept t w : kept r w -> kept r (drop_claim t w) /\ forall t', t' <> t -> relies r t' w (drop_claim t w).
Proof.
  intros K. unfold drop_claim. split.
  - split; [apply K|apply K| | |exact (k_fits r w K)].
    + intros t' id H. recs in H. apply lookup_delete_Some in H as [_ H]. by apply (k_claims r w K t').
    + intros t1 t2 id H1 H2. recs in H1. recs in H2. apply lookup_delete_Some in H1 as [_ H1], H2 as [_ H2].
      by eapply (k_distinct r w K).
  - intros t' Hne. split; [by recs; rewrite lookup_delete_ne|]. intros id p _ Hp. by exists p.
Qed.
End Creation.

(** The tables when the API server starts: nothing is held. *)
Definition at_start (db : Db) (now : Time) : Shared := mkShared db now ∅ ∅.

Lemma start_kept r db now :
  tables_ok db -> (forall n row, db_nodes db !! n = Some row -> load r n now db <= total r row) ->
  kept r (at_start db now).
Proof.
  intros T H. split; [done| | | |].
  - intros id Hid. by apply elem_of_empty in Hid.
  - intros t id Hc. cbn in Hc. by rewrite lookup_empty in Hc.
  - intros t t' id Hc. cbn in Hc. by rewrite lookup_empty in Hc.
  - intros n row Hrow. cbn [sh_db at_start] in *. specialize (H n row Hrow). unfold load in H.
    assert (unused_load r n (at_start db now) <= promised_load r n now db); [|lia].
    apply msum_le_lookup; intros k p Hp; [apply where_nonneg; apply (to_reservations _ T k p Hp)|].
    exists p. split; [done|]. unfold where_, unused. cbn [sh_now sh_used at_start].
    rewrite (bool_decide_true (pr_ID p ∉ ∅)) by set_solver. by rewrite andb_true_r.
Qed.

(** ** The HTTP handler

    [forge/api/internal/http/handlers_servers.go]: how the body of a request
    becomes the two requests of a creation. *)

(* go: http/server.go type:CreateServerRequest *)
Record CreateServerBody := mkCreateServerBody {
  cb_Name : string;
  cb_NodeID : string;
  cb_RegionID : string;
  cb_Region : string;
  cb_RequiredNode : string;
  cb_PreferredNode : string;
  cb_OwnerID : string;
  cb_TemplateID : string;
  cb_AllocationID : string;
  cb_AdditionalAllocationIDs : list string;
  cb_MemoryMB : option Z;
  cb_CPUShares : option Z;
  cb_CPU : option Z;
  cb_DiskMB : option Z;
  cb_DatabaseLimit : option Z;
  cb_BackupLimit : option Z;
  cb_AllocationLimit : option Z;
  cb_IOWeight : option Z;
  cb_SwapMB : option Z;
  cb_Threads : string;
  cb_OOMDisabled : bool;
  cb_DockerImage : string;
  cb_StartupCommand : string;
  cb_StartupVariables : gmap string string;
  cb_RuntimeProvider : string
}.

(* go: http/handlers_servers.go func:createResourceValue *)
Definition createResourceValue (value : option Z) (fallback : Z) : Z := default fallback value.

(** [defaultMemoryMB]: of the egg, when the body names no memory. *)
(* go: http/handlers_servers.go L859-915 *)
Definition create_requests (body : CreateServerBody) (defaultMemoryMB : Z)
    : answer (CreateServerRequest * PlacementRequest) :=
  let memoryMB := createResourceValue (cb_MemoryMB body) defaultMemoryMB in
  let cpuShares := createResourceValue (cb_CPUShares body) 1024 in
  let cpuLimit := createResourceValue (cb_CPU body) 0 in
  let diskMB := createResourceValue (cb_DiskMB body) 10240 in
  let databaseLimit := createResourceValue (cb_DatabaseLimit body) 0 in
  let backupLimit := createResourceValue (cb_BackupLimit body) 0 in
  let allocationLimit := createResourceValue (cb_AllocationLimit body) 0 in
  let ioWeight := createResourceValue (cb_IOWeight body) 500 in
  let swapMB := createResourceValue (cb_SwapMB body) 0 in
  if (memoryMB <=? 0) || (cpuShares <=? 0) || (diskMB <=? 0) || (cpuLimit <? 0) || (databaseLimit <? 0) ||
     (backupLimit <? 0) || (allocationLimit <? 0) || (swapMB <? -1) || (ioWeight <? 10) || (1000 <? ioWeight)
  then Failed (ErrText "invalid server resource limits")
  else Got
    (mkCreateServerRequest (cb_Name body) (cb_NodeID body) (cb_OwnerID body) (cb_TemplateID body)
       (cb_AllocationID body) (cb_AdditionalAllocationIDs body) memoryMB cpuShares cpuLimit diskMB
       databaseLimit backupLimit allocationLimit ioWeight swapMB (cb_Threads body) (cb_OOMDisabled body)
       (cb_DockerImage body) (cb_StartupCommand body) (cb_StartupVariables body) (cb_RuntimeProvider body)
       false ∅,
     mkPlacementRequest "" (cb_RegionID body) (cb_Region body) (cb_PreferredNode body) (cb_RequiredNode body)
       (cb_NodeID body) (cb_AllocationID body) false "" "" [] memoryMB cpuShares cpuLimit diskMB).

(** The handler's creations cover memory and disk.  They cover CPU only when
    no CPU limit is given: with one, the limit is reserved and the shares are
    counted. *)
Lemma body_covers body d req p r :
  create_requests body d = Got (req, p) -> (r = Cpu -> default 0 (cb_CPU body) = 0) -> covers r req p.
Proof.
  unfold create_requests. cbv zeta. destruct (_ || _) eqn:E; [done|]. intros [= <- <-] Hcpu.
  repeat apply orb_false_iff in E as [E ?]. zb. unfold createResourceValue in *.
  unfold covers. destruct r; cbn -[firstNonEmpty firstTrimmed TrimSpace ToLower];
    unfold const; cbn -[firstNonEmpty firstTrimmed TrimSpace ToLower]; unfold zero_or.
  - rewrite (Hcpu eq_refl). cbn [Z.eqb]. repeat (case_match; zb; try lia).
  - repeat (case_match; zb; try lia).
  - repeat (case_match; zb; try lia).
Qed.

(** ** Property *)

(** C1: Creating servers never overcommits a node.  However many requests run
    at once and however they interleave, whatever statements fail or nodes
    answer, what runs on a node never exceeds its capacity in a resource that
    the creations' reservations cover. *)
Theorem creations_never_overcommit r db now ts c
    (T : tables_ok db)
    (Hfits : forall n row, db_nodes db !! n = Some row -> load r n now db <= total r row)
    (Hstart : forall t p, ts !! t = Some p -> handles r p)
    (H : rtc (pool_step answers_to time_passes (handles r) drop_claim) (mkPool (at_start db now) ts) c) :
  forall n row, db_nodes (sh_db (shared c)) !! n = Some row ->
  running_load r n (sh_db (shared c)) <= total r row.
Proof.
  intros n row Hrow.
  assert (K : kept r (shared c)).
  { eapply (pool_safe answers_to time_passes (handles r) drop_claim (kept r) (relies r)); [..|exact H].
    - intros w w'. apply time_kept.
    - intros t w. apply drop_kept.
    - intros p Hp t w. by apply handled_safe.
    - split; [by apply start_kept|]. intros t p Hp. apply handled_safe. by eapply Hstart. }
  pose proof (k_fits r _ K n row Hrow).
  assert (0 <= unused_load r n (shared c)); [|lia].
  apply msum_nonneg. intros k p Hp. apply where_nonneg. by eapply kept_nonneg.
Qed.

(** ** Three creations on the example tables *)

Definition world_of (w : Shared) : World := ControlPlane.mkWorld (sh_db w) (sh_now w) (Strategy.mkWorld None 0 []) 0.

Definition no_answer : StoreError := ErrText "connection reset".

(** One of the ways the world may answer. *)
Definition answer_now (t : nat) (X : Type) (e : Eff X) (w : Shared) : X * Shared :=
  match e in Eff X return X * Shared with
  | Reserve req =>
      let id := fresh_id (size (db_reservations (sh_db w))) in
      if bool_decide (db_reservations (sh_db w) !! id = None) then
        match CreatePlacementReservation req id (sh_now w) (sh_now w) (fun d => d) (sh_db w) with
        | (Got res, db) => (Got res, w <| sh_db := db |> <| sh_claims := <[t := id]> (sh_claims w) |>)
        | (Failed e, _) => (Failed e, w)
        end
      else (Failed no_answer, w)
  | InsertServer req =>
      match sh_claims w !! t with
      | Some c =>
          if match db_reservations (sh_db w) !! c with Some p => live (sh_now w) p | None => false end then
            match insert_server req (fresh_id (size (db_servers (sh_db w)))) (sh_now w) (Got tt) (sh_db w) with
            | (Got id, db) => (Got id, w <| sh_db := db |> <| sh_claims := delete t (sh_claims w) |>
                                         <| sh_used := {[c]} ∪ sh_used w |>)
            | (Failed e, _) => (Failed e, w)
            end
          else (Failed no_answer, w)
      | None => (Failed no_answer, w)
      end
  | e => let r := serve willing_node example_control (fun id => Got (example_target id)) entered _ e (world_of w) in
         (fst r, w <| sh_db := w_db (snd r) |>)
  end.

Lemma answer_now_allowed t X e w : answers_to t X e w (fst (answer_now t X e w)) (snd (answer_now t X e w)).
Proof.
  assert (E : w <| sh_db := sh_db w |> = w) by (by destruct w).
  destruct e; cbn -[CreatePlacementReservation insert_server]; unfold const; rewrite ?E; try done;
    try (by left); try (by split; [|left]); try (by eexists; left).
  - case_bool_decide as Hn; [|by left; split; [eexists|]].
    destruct (CreatePlacementReservation _ _ _ _ _ _) as [[res|e] db] eqn:Ec; [|by left; split; [eexists|]].
    right. exists (fresh_id (size (db_reservations (sh_db w)))), (sh_now w), res, db. by split_and!; [..|left].
  - destruct (sh_claims w !! t) as [c|] eqn:Hc; [|by left; split; [eexists|]].
    destruct (db_reservations (sh_db w) !! c) as [p|] eqn:Hp; [|by left; split; [eexists|]].
    destruct (live (sh_now w) p) eqn:Hl; [|by left; split; [eexists|]].
    destruct (insert_server _ _ _ _ _) as [[id|e] db] eqn:Ei; [|by left; split; [eexists|]].
    right. split; [intros id' Hid; rewrite Hc in Hid; injection Hid as <-; by exists p|].
    exists id, (Got tt), db. assert (id = fresh_id (size (db_servers (sh_db w)))) as -> by (by apply insert_server_got in Ei as (? & ? & _ & -> & _)).
    split_and!; [done|by left|done].
Qed.

Definition creation_on (name : string) : prog Eff unit :=
  ignore (CreateServer example_manager
    (mkCreateServerRequest name "" "u1" "egg" "" [] 4000 1024 0 2000 0 0 0 0 0 "" false "" "" ∅ "" false ∅)
    (mkPlacementRequest "" "eu" "" "" "" "" "" false "" "" [] 0 0 0 0)).

Definition example_threads : gmap nat (prog Eff unit) :=
  <[1%nat := creation_on "one"]> (<[2%nat := creation_on "two"]> {[3%nat := creation_on "three"]}).

(** Each thread in turn. *)
Definition example_turns : list nat := concat (repeat [1; 2; 3]%nat 40).

Definition example_end : pool Eff Shared :=
  run_schedule answer_now example_turns (mkPool (at_start example_db 600) example_threads).

Lemma example_covers name : covers Memory
  (mkCreateServerRequest name "" "u1" "egg" "" [] 4000 1024 0 2000 0 0 0 0 0 "" false "" "" ∅ "" false ∅)
  (mkPlacementRequest "" "eu" "" "" "" "" "" false "" "" [] 0 0 0 0).
Proof. vm_compute. by split. Qed.

Lemma creation_handled name : handles Memory (creation_on name).
Proof. apply handles_create; [by exists false|apply example_covers]. Qed.

Lemma example_threads_handled t p : example_threads !! t = Some p -> handles Memory p.
Proof.
  unfold example_threads. intros [[_ <-]|[_ [[_ <-]|[_ [_ <-]%lookup_singleton_Some]]%lookup_insert_Some]]%lookup_insert_Some;
    apply creation_handled.
Qed.

Lemma example_fits n row : db_nodes example_db !! n = Some row -> load Memory n 600 example_db <= total Memory row.
Proof. intros H. cbn in H. rows H; vm_compute; discriminate. Qed.

(** Two of the three find room, on different nodes; the third is refused. *)
Lemma creations_never_overcommit_witness :
  (length (map_to_list (db_servers (sh_db (shared example_end)))) = 3)%nat /\
  running_load Memory "b" (sh_db (shared example_end)) = 4000 /\
  running_load Memory "a" (sh_db (shared example_end)) <= 8192.
Proof.
  split_and!; [vm_compute; reflexivity..|].
  apply (creations_never_overcommit Memory example_db 600 example_threads example_end example_tables_ok example_fits
    example_threads_handled (run_schedule_steps answer_now answers_to time_passes (handles Memory) drop_claim
      example_turns _ answer_now_allowed) "a" (example_node "a" "eu" 8192)).
  vm_compute. reflexivity.
Defined.

(** With a CPU limit the reservation is of the limit, in percent, while the
    row counts shares: two creations through the handler overcommit the CPU of
    a node that had room for neither. *)
Definition limited_body (name : string) : CreateServerBody :=
  mkCreateServerBody name "a" "" "" "" "" "u1" "egg" "" [] (Some 500) (Some 4000) (Some 100) (Some 2000)
    None None None None None "" false "" "" ∅ "".

Definition limited_creation (name : string) : prog Eff unit :=
  match create_requests (limited_body name) 1024 with
  | Got (req, p) => ignore (CreateServer example_manager req p)
  | Failed _ => Ret tt
  end.

Lemma cpu_limit_overcommits :
  let c := run_schedule answer_now (repeat 1%nat 60)
    (mkPool (at_start example_db 600) {[1%nat := limited_creation "one"]}) in
  total Cpu (example_node "a" "eu" 8192) = 4096 /\ running_load Cpu "a" (sh_db (shared c)) = 5024.
Proof. vm_compute. by split. Qed.

(** A start that read the flag before a suspension set it still runs after the
    suspension stopped the workload: the server ends up suspended and running. *)
Lemma suspended_server_started :
  let start := ignore (RequestServerPower example_manager "s1" "restart") in
  let suspend := ignore (SuspendServer example_manager "s1") in
  let c := run_schedule answer_now (1%nat :: repeat 2%nat 20 ++ repeat 1%nat 20)
    (mkPool (at_start example_db 600) (<[1%nat := start]> {[2%nat := suspend]})) in
  threads c !! 2%nat = Some (Ret tt) /\
  exists row, db_servers (sh_db (shared c)) !! "s1" = Some row /\
    sv_Suspended row = true /\ sv_ActualState row = "running".
Proof. vm_compute. split; [done|]. eexists. split_and!; reflexivity. Qed.
