(* ===== verification/Migrations.v ===== *)
(** * Migrations in the tables

    [forge/api/internal/store/store_migrations.go]: a migration moves a server
    from its node to another.  Three tables hold it: [migrations], what is to
    be moved where and how that stands; [migration_runs], the durable progress
    of the transfer with the lease of the worker on it; and
    [migration_allocation_reservations], the allocation of the target node that
    is kept for the server.  The statements are functions of these and of the
    capacity tables.

    The primary allocation of a server, the credential hashes of a run and the
    times of the history are left out. *)
From Stdlib Require Import ZArith Lia.
From stdpp Require Import base gmap strings list fin_maps.
From coqutil Require Import Datatypes.RecordSettersUsingExistingGetters.
From S2P Require Import Prelude GoStrings GoSort Programs Capacity Servers.
Import RecordSetNotations1.
#[local] Open Scope string_scope.
#[local] Open Scope list_scope.
#[local] Open Scope Z_scope.
#[local] Open Scope go_scope.

(** ** Rows *)

(* go: store/store.go type:CreateMigrationRequest *)
Record CreateMigrationRequest := mkCreateMigrationRequest {
  cm_ServerID : string;
  cm_SourceNodeID : string;
  cm_TargetNodeID : string
}.

Record MigrationRow := mkMigrationRow {
  mg_ServerID : string;
  mg_SourceNodeID : string;
  mg_TargetNodeID : string;
  mg_Status : string;
  mg_FailureReason : string;
  mg_CreatedAt : Time
}.

(** The columns of [migration_runs]. *)
(* go: store/store.go type:MigrationRun *)
Record MigrationRun := mkMigrationRun {
  mr_ProtocolVersion : string;
  mr_Phase : string;
  mr_IdempotencyKey : string;
  mr_Attempt : Z;
  mr_LeaseOwner : option string;
  mr_lease_expires_at : option Time;
  mr_TargetAllocationID : option string;
  mr_ArchiveSize : Z;
  mr_ArchiveChecksum : string;
  mr_CleanupPending : bool;
  mr_LastError : string;
  mr_updated_at : Time
}.

(* go: store/store.go type:MigrationHistory *)
Record MigrationHistory := mkMigrationHistory {
  mh_MigrationID : string;
  mh_FromStatus : string;
  mh_ToStatus : string;
  mh_Reason : string
}.

(** A migration joined with its run. *)
(* go: store/store.go type:Migration *)
Record Migration := mkMigration {
  m_ID : string;
  m_ServerID : string;
  m_SourceNodeID : string;
  m_TargetNodeID : string;
  m_Status : string;
  m_FailureReason : string;
  m_TransferPhase : string;
  m_IdempotencyKey : string;
  m_ArchiveSize : Z;
  m_ArchiveChecksum : string;
  m_CleanupPending : bool;
  m_History : list MigrationHistory
}.

(** [tb_held] maps an allocation to the migration it is kept for.  The keys of
    [tb_migrations] and of [tb_held] are the sets of the same name in [Db]. *)
Record Tables := mkTables {
  tb_db : Db;
  tb_migrations : gmap string MigrationRow;
  tb_runs : gmap string MigrationRun;
  tb_held : gmap string string;
  tb_history : list MigrationHistory
}.

(** The values of the enum [migration_status]. *)
(* go: store/store.go L1897-1909 *)
Definition migration_statuses : list string :=
  ["planned"; "preparing"; "transferring"; "restoring"; "completed"; "failed"; "cancelled"; "pending";
   "in_progress"; "cancelling"].

Definition terminal_phase (phase : string) : bool :=
  slices_contains ["completed"; "failed"; "cancelled"] phase.

(** The allocations of [tb_held] as [FindAvailableAllocation] sees them. *)
Definition set_held (m : gmap string string) (t : Tables) : Tables :=
  t <| tb_held := m |> <| tb_db := (tb_db t) <| db_reserved_allocations := dom m |> |>.

(** [DELETE FROM migration_allocation_reservations WHERE migration_id = $1] *)
Definition release_held (id : string) (t : Tables) : Tables :=
  set_held (filter (fun p => p.2 <> id) (tb_held t)) t.

Definition record_history (id from to reason : string) (t : Tables) : Tables :=
  t <| tb_history := tb_history t ++ [mkMigrationHistory id from to reason] |>.

Definition set_run (id : string) (f : MigrationRun -> MigrationRun) (t : Tables) : Tables :=
  t <| tb_runs := alter f id (tb_runs t) |>.

(** ** Migrations *)

(* go: store/store_migrations.go func:Store.ListMigrationHistory *)
Definition ListMigrationHistory (id : string) (t : Tables) : list MigrationHistory :=
  filter (fun h => mh_MigrationID h = id) (tb_history t).

Definition joined (id : string) (m : MigrationRow) (run : option MigrationRun) : Migration :=
  mkMigration id (mg_ServerID m) (mg_SourceNodeID m) (mg_TargetNodeID m) (mg_Status m) (mg_FailureReason m)
    (from_option mr_Phase "" run) (from_option mr_IdempotencyKey "" run) (from_option mr_ArchiveSize 0 run)
    (from_option mr_ArchiveChecksum "" run) (from_option mr_CleanupPending false run) [].

(* go: store/store_migrations.go func:Store.GetMigration *)
Definition GetMigration (id : string) (t : Tables) : answer Migration :=
  match tb_migrations t !! id with
  | Some m => Got ((joined id m (tb_runs t !! id)) <| m_History := ListMigrationHistory id t |>)
  | None => Failed ErrNoRows
  end.

(** The error of a foreign key comes first, as the row is inserted first. *)
(* go: store/store_migrations.go func:Store.CreateMigration *)
Definition CreateMigration (req : CreateMigrationRequest) (id : string) (now : Time) (t : Tables)
    : answer Migration * Tables :=
  if bool_decide (is_Some (tb_migrations t !! id)) then (Failed ErrUnique, t)
  else if negb (bool_decide (is_Some (db_servers (tb_db t) !! cm_ServerID req)) &&
                bool_decide (is_Some (db_nodes (tb_db t) !! cm_SourceNodeID req)) &&
                bool_decide (is_Some (db_nodes (tb_db t) !! cm_TargetNodeID req)))
  then (Failed ErrForeignKey, t)
  else
    let row := mkMigrationRow (cm_ServerID req) (cm_SourceNodeID req) (cm_TargetNodeID req) "planned" "" now in
    let t' := record_history id "" "planned" "migration created"
      (t <| tb_migrations := <[id := row]> (tb_migrations t) |>
         <| tb_db := (tb_db t) <| db_migrations := {[id]} ∪ db_migrations (tb_db t) |> |>) in
    (GetMigration id t', t').

Definition newest_migration (a b : string * MigrationRow) : bool :=
  if mg_CreatedAt b.2 <? mg_CreatedAt a.2 then true
  else (mg_CreatedAt a.2 =? mg_CreatedAt b.2) && str_lt a.1 b.1.

(* go: store/store_migrations.go func:Store.ListMigrations *)
Definition ListMigrations (t : Tables) : list Migration :=
  map (fun p => joined p.1 p.2 (tb_runs t !! p.1)) (isort newest_migration (map_to_list (tb_migrations t))).

(* go: store/store_migrations.go func:Store.GetActiveMigrationForServer *)
Definition GetActiveMigrationForServer (server : string) (t : Tables) : answer Migration :=
  match isort (fun a b => mg_CreatedAt b.2 <? mg_CreatedAt a.2)
          (filter (fun p => mg_ServerID p.2 = server /\ terminal_phase (mg_Status p.2) = false)
             (map_to_list (tb_migrations t))) with
  | p :: _ => Got (joined p.1 p.2 (tb_runs t !! p.1))
  | [] => Failed ErrNoRows
  end.

(* go: store/store_migrations.go func:Store.MigrationsTotal *)
Definition MigrationsTotal (t : Tables) : Z := Z.of_nat (size (tb_migrations t)).

(* go: store/store_migrations.go func:Store.UpdateMigrationStatus *)
Definition UpdateMigrationStatus (id status reason : string) (t : Tables) : answer Migration * Tables :=
  match tb_migrations t !! id with
  | None => (Failed ErrNoRows, t)
  | Some m =>
      if negb (slices_contains migration_statuses status) then (Failed ErrEnum, t)
      else
        let m' := m <| mg_Status := status |>
                    <| mg_FailureReason := if (status =? "failed")%string then reason else mg_FailureReason m |> in
        let t' := record_history id (mg_Status m) status reason
                    (t <| tb_migrations := <[id := m']> (tb_migrations t) |>) in
        (GetMigration id t', t')
  end.

(* go: store/store_migrations.go func:Store.ServerNodeID *)
Definition ServerNodeID (server : string) (t : Tables) : answer string :=
  match db_servers (tb_db t) !! server with Some s => Got (sv_NodeID s) | None => Failed ErrNoRows end.

(** ** Runs *)

(* go: store/store_migrations.go func:Store.GetMigrationRun *)
Definition GetMigrationRun (id : string) (t : Tables) : answer MigrationRun :=
  match tb_runs t !! id with Some r => Got r | None => Failed ErrNoRows end.

Definition by_id (a b : AllocationRow) : bool := str_lt (al_ID a) (al_ID b).

(** [locked] are the rows other sessions hold, which [SKIP LOCKED] passes
    over. *)
Definition free_allocations (node : string) (locked : gset string) (t : Tables) : list AllocationRow :=
  isort by_id (filter (fun a => al_NodeID a = node /\ al_ServerID a = None /\ tb_held t !! al_ID a = None /\
                                al_ID a ∉ locked) (values (db_allocations (tb_db t)))).

(** A run that exists is answered as it is; a new one takes the first free
    allocation of the target. *)
(* go: store/store_migrations.go func:Store.EnsureMigrationRun *)
Definition EnsureMigrationRun (id version key : string) (locked : gset string) (now : Time) (t : Tables)
    : answer MigrationRun * Tables :=
  match tb_runs t !! id with
  | Some run => (Got run, t)
  | None =>
      match (let+ m := match tb_migrations t !! id with
                       | Some m => Got m | None => Failed (ErrText "target node has no available allocation") end in
             match free_allocations (mg_TargetNodeID m) locked t with
             | [] => Failed (ErrText "target node has no available allocation")
             | a :: _ =>
                 if existsb (fun r => (mr_IdempotencyKey r =? key)%string) (values (tb_runs t))
                 then Failed ErrUnique
                 else if existsb (fun m' => (m' =? id)%string) (values (tb_held t)) then Failed ErrUnique
                 else Got (al_ID a)
             end) with
      | Failed e => (Failed e, t)
      | Got a =>
          let run := mkMigrationRun version "planned" key 0 None None (Some a) 0 "" false "" now in
          let t' := set_held (<[a := id]> (tb_held t)) (t <| tb_runs := <[id := run]> (tb_runs t) |>) in
          (GetMigrationRun id t', t')
      end
  end.

(** A run may be claimed while nobody holds an unexpired lease, or by its
    holder. *)
Definition claimable (worker : string) (now : Time) (run : MigrationRun) : bool :=
  negb (terminal_phase (mr_Phase run)) &&
  (match mr_lease_expires_at run with None => true | Some e => Before e now end ||
   bool_decide (mr_LeaseOwner run = Some worker)).

(* go: store/store_migrations.go func:Store.ClaimMigrationRun *)
Definition ClaimMigrationRun (id worker : string) (lease : Duration) (now : Time) (t : Tables)
    : answer MigrationRun * Tables :=
  match tb_runs t !! id with
  | Some run =>
      if negb (claimable worker now run) then (Failed (ErrText "migration run is already claimed"), t)
      else if negb (int4 (mr_Attempt run + 1)) then (Failed ErrRange, t)
      else
        let t' := set_run id (fun r => r <| mr_LeaseOwner := Some worker |>
                    <| mr_lease_expires_at := Some (time_add now (lease `quot` Second * Second)) |>
                    <| mr_Attempt := mr_Attempt r + 1 |> <| mr_updated_at := now |>) t in
        (GetMigrationRun id t', t')
  | None => (Failed (ErrText "migration run is already claimed"), t)
  end.

(** Whatever the phase and the owner of the row are. *)
(* go: store/store_migrations.go func:Store.UpdateMigrationRun *)
Definition UpdateMigrationRun (id phase lastError : string) (size : Z) (checksum : string) (now : Time) (t : Tables)
    : answer MigrationRun * Tables :=
  let t' := set_run id (fun r => r <| mr_Phase := phase |> <| mr_LastError := lastError |>
              <| mr_ArchiveSize := if 0 <? size then size else mr_ArchiveSize r |>
              <| mr_ArchiveChecksum := if (checksum =? "")%string then mr_ArchiveChecksum r else checksum |>
              <| mr_lease_expires_at := Some (time_add now (2 * Minute)) |> <| mr_updated_at := now |>) t in
  (GetMigrationRun id t', t').

(** The hashes themselves are not kept. *)
(* go: store/store_migrations.go func:Store.SetMigrationCredentialHashes *)
Definition SetMigrationCredentialHashes (id : string) (now : Time) (t : Tables) : answer unit * Tables :=
  (Got tt, set_run id (fun r => r <| mr_updated_at := now |>) t).

Definition run_ids (p : MigrationRun -> bool) (t : Tables) : list string :=
  map fst (isort (fun a b => mr_updated_at a.2 <? mr_updated_at b.2)
             (filter (fun x => p x.2 = true) (map_to_list (tb_runs t)))).

(* go: store/store_migrations.go func:Store.ReclaimableMigrationIDs *)
Definition ReclaimableMigrationIDs (now : Time) : Tables -> list string :=
  run_ids (fun r => negb (terminal_phase (mr_Phase r)) &&
                    match mr_lease_expires_at r with None => true | Some e => Before e now end).

(* go: store/store_migrations.go func:Store.CleanupPendingMigrationIDs *)
Definition CleanupPendingMigrationIDs : Tables -> list string :=
  run_ids (fun r => (mr_Phase r =? "completed")%string && mr_CleanupPending r).

(** ** The end of a migration *)

(** Ownership and allocations change hands in one transaction: the server
    must still be where the migration found it, and the allocation free. *)
Definition move_server (server source target allocation : string) (db : Db) : Db :=
  let give a := if (al_ID a =? allocation)%string then a <| al_ServerID := Some server |> else a in
  let free a := if bool_decide (al_ServerID a = Some server) && (al_NodeID a =? source)%string
                then a <| al_ServerID := None |> else a in
  db <| db_allocations := (fun a => free (give a)) <$> db_allocations db |>
     <| db_servers := alter (fun s => s <| sv_NodeID := target |> <| sv_TransferState := "completed" |>
                                        <| sv_ConfigSyncPending := false |>) server (db_servers db) |>.

(* go: store/store_migrations.go func:Store.FinalizeMigration *)
Definition FinalizeMigration (id : string) (now : Time) (t : Tables) : answer unit * Tables :=
  match tb_migrations t !! id, tb_runs t !! id with
  | Some m, Some run =>
      match mr_TargetAllocationID run with
      | None => (Failed (ErrText "cannot scan NULL into *string"), t)
      | Some allocation =>
          if (mr_Phase run =? "completed")%string then (Got tt, t)
          else if negb (mr_Phase run =? "destination_created")%string
          then (Failed (ErrText "destination has not reported restored and created"), t)
          else
            match db_servers (tb_db t) !! mg_ServerID m with
            | None => (Failed ErrNoRows, t)
            | Some s =>
                if negb (sv_NodeID s =? mg_SourceNodeID m)%string
                then (Failed (ErrText "server source ownership changed during migration"), t)
                else if match db_allocations (tb_db t) !! allocation with
                        | Some a => negb (bool_decide (al_ServerID a = None) &&
                                          (al_NodeID a =? mg_TargetNodeID m)%string)
                        | None => true end
                then (Failed (ErrText "target allocation is no longer available"), t)
                else
                  let t' := t <| tb_db := move_server (mg_ServerID m) (mg_SourceNodeID m) (mg_TargetNodeID m)
                                            allocation (tb_db t) |>
                              <| tb_migrations := <[id := m <| mg_Status := "completed" |>
                                                            <| mg_FailureReason := "" |>]> (tb_migrations t) |> in
                  let t' := set_run id (fun r => r <| mr_Phase := "completed" |> <| mr_CleanupPending := true |>
                              <| mr_LeaseOwner := None |> <| mr_lease_expires_at := None |>
                              <| mr_updated_at := now |>) (release_held id t') in
                  (Got tt, record_history id "restoring" "completed"
                             "destination verified, restored, and container created; ownership committed" t')
            end
      end
  | _, _ => (Failed ErrNoRows, t)
  end.

(* go: store/store_migrations.go func:Store.MarkMigrationCleanupComplete *)
Definition MarkMigrationCleanupComplete (id : string) (now : Time) (t : Tables) : answer unit * Tables :=
  (Got tt, set_run id (fun r => if (mr_Phase r =? "completed")%string
             then r <| mr_CleanupPending := false |> <| mr_updated_at := now |> else r) t).

(** The run ends without a move, unless it is completed. *)
Definition close_run (id phase : string) (now : Time) (f : MigrationRun -> MigrationRun) (t : Tables) : Tables :=
  set_run id (fun r => if (mr_Phase r =? "completed")%string then r
                       else (f r) <| mr_Phase := phase |> <| mr_CleanupPending := false |> <| mr_LeaseOwner := None |>
                              <| mr_lease_expires_at := None |> <| mr_updated_at := now |>) (release_held id t).

(* go: store/store_migrations.go func:Store.CancelMigrationRun *)
Definition CancelMigrationRun (id : string) (now : Time) (t : Tables) : answer unit * Tables :=
  (Got tt, close_run id "cancelled" now (fun r => r) t).

(* go: store/store_migrations.go func:Store.FailMigrationRun *)
Definition FailMigrationRun (id reason : string) (now : Time) (t : Tables) : answer unit * Tables :=
  (Got tt, close_run id "failed" now (fun r => r <| mr_LastError := reason |>) t).
