(* ===== verification/MigrationRules.v ===== *)
(** * The migration tables stay sound

    What the statements of [Migrations] keep, together with those of the other
    services on the same tables, and what the commit of a migration does. *)
From Stdlib Require Import ZArith Lia.
From stdpp Require Import base gmap strings list fin_maps relations.
From coqutil Require Import Datatypes.RecordSettersUsingExistingGetters.
From S2P Require Import Prelude GoStrings GoSort Programs Strategy Capacity Servers ControlPlane Scheduler ClusterManager Migrations.
Import RecordSetNotations1.
#[local] Open Scope string_scope.
#[local] Open Scope list_scope.
#[local] Open Scope Z_scope.
#[local] Open Scope go_scope.

(** ** What the other services leave alone

    The nodes stay, and of an allocation only the server changes. *)
Record frame (db db' : Db) : Prop := {
  fr_nodes : db_nodes db' = db_nodes db;
  fr_allocations a : match db_allocations db !! a, db_allocations db' !! a with
                     | Some row, Some row' => al_ID row' = al_ID row /\ al_NodeID row' = al_NodeID row
                     | None, None => True
                     | _, _ => False
                     end
}.

Lemma frame_same db db' : db_nodes db' = db_nodes db -> db_allocations db' = db_allocations db -> frame db db'.
Proof. intros H1 H2. split; [done|]. intros a. rewrite H2. by destruct (db_allocations db !! a). Qed.

Lemma frame_refl db : frame db db.
Proof. by apply frame_same. Qed.

Lemma frame_trans db1 db2 db3 : frame db1 db2 -> frame db2 db3 -> frame db1 db3.
Proof.
  intros [H1 H2] [H3 H4]. split; [congruence|]. intros a. specialize (H2 a). specialize (H4 a).
  destruct (db_allocations db1 !! a), (db_allocations db2 !! a), (db_allocations db3 !! a); try done.
  destruct H2, H4. split; congruence.
Qed.

(** Rewriting the rows of the allocations one by one. *)
Lemma frame_fmap db db' (f : AllocationRow -> AllocationRow) : db_nodes db' = db_nodes db ->
  db_allocations db' = f <$> db_allocations db ->
  (forall a, al_ID (f a) = al_ID a /\ al_NodeID (f a) = al_NodeID a) -> frame db db'.
Proof.
  intros H1 H2 Hf. split; [done|]. intros a. rewrite H2, lookup_fmap. destruct (db_allocations db !! a); [apply Hf|done].
Qed.

Lemma assign_frame id l db : frame db (assign_allocations id l db).
Proof.
  split; [done|]. intros a. unfold assign_allocations. recs. generalize (db_allocations db) as m. intros m.
  induction l as [|b l IH]; cbn [foldr]; [by destruct (m !! a)|].
  destruct (decide (a = b)) as [->|Hne]; [rewrite lookup_alter_eq|by rewrite lookup_alter_ne].
  by destruct (m !! b), (foldr _ m l !! b).
Qed.

Lemma update_server_frame id f db : frame db (snd (update_server id f db)).
Proof. unfold update_server. destruct (db_servers db !! id); [by apply frame_same|apply frame_refl]. Qed.

Lemma change_server_frame id c entry db : frame db (snd (change_server id c entry db)).
Proof.
  destruct c; cbn [change_server];
    unfold SetServerSuspended, SetServerDesiredState, SetServerActualState, SetServerProvisioned,
      SetServerInstallState, MarkServerConfigSynced, MarkServerConfigSyncFailed;
    repeat (case_match; try apply frame_refl); rewrite ?entered_tables; apply update_server_frame.
Qed.

Lemma reserve_frame req id wall now db : tables_ok db ->
  frame db (snd (CreatePlacementReservation req id wall now (fun d => d) db)).
Proof.
  intros T. destruct (CreatePlacementReservation _ _ _ _ _ _) as [[res|e] db'] eqn:E.
  - apply create_got in E as (req' & c & row & _ & _ & _ & _ & Hi & -> & _ & _).
    by apply insert_reservation_got in Hi as (-> & _); apply frame_same.
  - apply create_refused in E as [-> _]; [apply frame_refl|by apply tables_db_ok].
Qed.

Lemma insert_server_frame req id now startup db : frame db (snd (insert_server req id now startup db)).
Proof.
  destruct (insert_server _ _ _ _ _) as [[id'|e] db'] eqn:E.
  - apply insert_server_got in E as (req' & ids & _ & -> & _ & _ & _ & _ & _ & _ & _ & ->). cbn [snd].
    eapply frame_trans; [|apply assign_frame]. by apply frame_same.
  - unfold insert_server in E. cbv zeta in E.
    match type of E with match ?m with _ => _ end = _ => destruct m end; [done|]. injection E as _ <-. apply frame_refl.
Qed.

Lemma delete_server_frame id db : frame db (snd (hardDeleteServer id db)).
Proof.
  unfold hardDeleteServer. case_bool_decide; [|apply frame_refl]. eapply frame_fmap; [done|reflexivity|].
  intros a. cbv beta. by case_bool_decide.
Qed.

Lemma step_frame db db' : tables_ok db -> db_step db db' -> frame db db'.
Proof.
  intros T [].
  - by apply reserve_frame.
  - unfold UpdatePlacementReservationStatus. repeat case_match; by apply frame_same.
  - by apply frame_same.
  - unfold UpdatePlacementReservationsForMigration. repeat case_match; by apply frame_same.
  - apply insert_server_frame.
  - unfold UpdateServer. repeat case_match; simplify_eq; by apply frame_same.
  - apply change_server_frame.
  - apply delete_server_frame.
  - unfold RecordOrphanAndHardDeleteServer. case_match; [apply frame_refl|apply delete_server_frame].
  - by apply frame_same.
  - unfold CreateReplicaApp. repeat case_match; simplify_eq; by apply frame_same.
  - unfold UpdateReplicaAppReplicas. repeat case_match; simplify_eq; by apply frame_same.
  - unfold UpdateReplicaAppStatus. repeat case_match; simplify_eq; by apply frame_same.
  - unfold IncrementReplicaAppGeneration. repeat case_match; simplify_eq; by apply frame_same.
  - by apply frame_same.
  - unfold CreateInstance, insert_instance. repeat case_match; simplify_eq; by apply frame_same.
  - unfold IncrementInstanceReplacementAttempts. repeat case_match; simplify_eq; by apply frame_same.
  - by apply frame_same.
  - unfold UpdateInstanceStatus. repeat case_match; simplify_eq; by apply frame_same.
  - unfold UpdateInstanceNode. repeat case_match; simplify_eq; by apply frame_same.
  - by apply frame_same.
  - by apply frame_same.
  - unfold CreatePlacementDecision. repeat case_match; simplify_eq; by apply frame_same.
Qed.

(** ** Sound tables *)

(** Rows refer to rows that are there; a run has an allocation of the target
    node; an allocation is kept for at most one migration, a migration keeps at
    most the allocation of its run; no two runs share an idempotency key. *)
Record migrations_ok (t : Tables) : Prop := {
  mk_db : tables_ok (tb_db t);
  mk_keys : map_Forall (fun a row => al_ID row = a) (db_allocations (tb_db t));
  mk_rows : map_Forall (fun _ m => is_Some (db_servers (tb_db t) !! mg_ServerID m) /\
    is_Some (db_nodes (tb_db t) !! mg_SourceNodeID m) /\ is_Some (db_nodes (tb_db t) !! mg_TargetNodeID m) /\
    mg_Status m ∈ migration_statuses) (tb_migrations t);
  mk_runs : map_Forall (fun id r => exists m a row, tb_migrations t !! id = Some m /\
    mr_TargetAllocationID r = Some a /\ db_allocations (tb_db t) !! a = Some row /\
    al_NodeID row = mg_TargetNodeID m) (tb_runs t);
  mk_held : map_Forall (fun a id => exists r, tb_runs t !! id = Some r /\ mr_TargetAllocationID r = Some a) (tb_held t);
  mk_unique id r id' r' : tb_runs t !! id = Some r -> tb_runs t !! id' = Some r' ->
    mr_IdempotencyKey r = mr_IdempotencyKey r' -> id = id';
  mk_migrations : db_migrations (tb_db t) = dom (tb_migrations t);
  mk_reserved : db_reserved_allocations (tb_db t) = dom (tb_held t)
}.

(** A statement of another service; with a server go its migrations, and with
    these their runs, what is kept for them and their history ([ON DELETE
    CASCADE]). *)
Definition cascade (db : Db) (t : Tables) : Tables :=
  let migrations := filter (fun p => is_Some (db_servers db !! mg_ServerID p.2)) (tb_migrations t) in
  let held := filter (fun p => is_Some (migrations !! p.2)) (tb_held t) in
  mkTables (db <| db_migrations := dom migrations |> <| db_reserved_allocations := dom held |>) migrations
    (filter (fun p => is_Some (migrations !! p.1)) (tb_runs t)) held
    (filter (fun h => is_Some (migrations !! mh_MigrationID h)) (tb_history t)).

Inductive table_step (t : Tables) : Tables -> Prop :=
| ts_other db : db_step (tb_db t) db -> table_step t (cascade db t)
| ts_create req id now : table_step t (snd (CreateMigration req id now t))
| ts_status id status reason : table_step t (snd (UpdateMigrationStatus id status reason t))
| ts_ensure id version key locked now : table_step t (snd (EnsureMigrationRun id version key locked now t))
| ts_claim id worker lease now : table_step t (snd (ClaimMigrationRun id worker lease now t))
| ts_advance id phase lastError size checksum now :
    table_step t (snd (UpdateMigrationRun id phase lastError size checksum now t))
| ts_hashes id now : table_step t (snd (SetMigrationCredentialHashes id now t))
| ts_finalize id now : table_step t (snd (FinalizeMigration id now t))
| ts_cleaned id now : table_step t (snd (MarkMigrationCleanupComplete id now t))
| ts_cancel id now : table_step t (snd (CancelMigrationRun id now t))
| ts_fail id reason now : table_step t (snd (FailMigrationRun id reason now t)).

Lemma set_keys_ok db ms rs : tables_ok db ->
  tables_ok (db <| db_migrations := ms |> <| db_reserved_allocations := rs |>).
Proof. intros []. split; assumption. Qed.

Lemma set_reserved_ok db rs : tables_ok db -> tables_ok (db <| db_reserved_allocations := rs |>).
Proof. intros []. split; assumption. Qed.

(** An update of a run that keeps its allocation and its key. *)
Definition same_slot_run (r r' : MigrationRun) : Prop :=
  mr_TargetAllocationID r' = mr_TargetAllocationID r /\ mr_IdempotencyKey r' = mr_IdempotencyKey r.

Lemma set_run_ok id f t : (forall r, same_slot_run r (f r)) -> migrations_ok t -> migrations_ok (set_run id f t).
Proof.
  intros Hf [D K R U H Q M S]. unfold set_run.
  assert (Hl : forall k r', alter f id (tb_runs t) !! k = Some r' -> exists r, tb_runs t !! k = Some r /\ same_slot_run r r').
  { intros k r' [(<- & r & Hr & ->)|[_ Hr]]%lookup_alter_Some; [by exists r|by exists r']. }
  split; try assumption.
  - intros k r' (r & Hr & E & _)%Hl. destruct (U k r Hr) as (m & a & row & ? & ? & ? & ?).
    exists m, a, row. by rewrite E.
  - intros a k Ha. destruct (H a k Ha) as (r & Hr & E). cbn [tb_runs].
    change (exists r, alter f id (tb_runs t) !! k = Some r /\ mr_TargetAllocationID r = Some a).
    destruct (decide (k = id)) as [->|Hne]; [exists (f r); rewrite lookup_alter_eq, Hr|exists r; by rewrite lookup_alter_ne].
    split; [done|]. by rewrite (proj1 (Hf r)).
  - intros k1 r1 k2 r2 (x1 & H1 & _ & E1)%Hl (x2 & H2 & _ & E2)%Hl E. apply (Q k1 x1 k2 x2); [done..|congruence].
Qed.

Lemma release_ok id t : migrations_ok t -> migrations_ok (release_held id t).
Proof.
  intros [D K R U H Q M S]. unfold release_held, set_held. split; try done.
  - by apply set_reserved_ok.
  - intros a k Ha. change (filter (fun p : string * string => p.2 <> id) (tb_held t) !! a = Some k) in Ha.
    apply map_lookup_filter_Some in Ha as [Ha _]. by apply H.
Qed.

Lemma history_ok id from to reason t : migrations_ok t -> migrations_ok (record_history id from to reason t).
Proof. intros []. split; assumption. Qed.

Lemma close_run_ok id phase now f t : (forall r, same_slot_run r (f r)) -> migrations_ok t -> migrations_ok (close_run id phase now f t).
Proof.
  intros Hf H. apply set_run_ok; [|by apply release_ok]. intros r. destruct (_ =? _)%string; [done|apply Hf].
Qed.

Lemma cascade_ok db t : migrations_ok t -> db_step (tb_db t) db -> migrations_ok (cascade db t).
Proof.
  intros [D K R U H Q M S] Hs. destruct (step_frame _ _ D Hs) as [Fn Fa].
  assert (D' : tables_ok db) by (by apply (db_step_ok _ _ D)).
  set (ms := filter (fun p => is_Some (db_servers db !! mg_ServerID p.2)) (tb_migrations t)).
  split; [by apply set_keys_ok|..]; unfold cascade; fold ms; cbn [tb_db tb_migrations tb_runs tb_held]; recs; try done.
  - intros a row Ha. specialize (Fa a). rewrite Ha in Fa. destruct (db_allocations (tb_db t) !! a) as [row0|] eqn:E; [|done].
    destruct Fa as [-> _]. by apply (K a row0).
  - intros k m [Hm Hserver]%map_lookup_filter_Some. destruct (R k m Hm) as (_ & H2 & H3 & H4). by rewrite Fn.
  - intros k r [Hr [m Hm]]%map_lookup_filter_Some. cbn in Hm. destruct (U k r Hr) as (m' & a & row & E1 & E2 & E3 & E4).
    pose proof Hm as [Hm' _]%map_lookup_filter_Some. rewrite E1 in Hm'. injection Hm' as <-.
    specialize (Fa a). rewrite E3 in Fa. destruct (db_allocations db !! a) as [row'|] eqn:E; [|done]. destruct Fa as [_ Fb].
    exists m', a, row'. split_and!; [done..|congruence].
  - intros a k [Ha Hk]%map_lookup_filter_Some. destruct (H a k Ha) as (r & Hr & E). exists r. split; [|done].
    by apply map_lookup_filter_Some.
  - intros k1 r1 k2 r2 [H1 _]%map_lookup_filter_Some [H2 _]%map_lookup_filter_Some. by apply Q.
Qed.

Lemma create_ok req id now t : migrations_ok t -> migrations_ok (snd (CreateMigration req id now t)).
Proof.
  intros [D K R U H Q M S]. unfold CreateMigration. case_bool_decide as Hid; [by split|].
  destruct (negb _) eqn:E; [by split|]. apply negb_false_iff in E. apply andb_prop in E as [[E1 E2]%andb_prop E3].
  apply bool_decide_eq_true in E1, E2, E3. cbn [snd]. apply history_ok. split; try assumption.
  - destruct D. by split.
  - apply map_Forall_insert_2; [|exact R]. split_and!; [done..|]. cbn. set_solver.
  - intros k r Hr. destruct (U k r Hr) as (m & a & row & Hm & Hrest). exists m, a, row. split; [|done].
    cbn [tb_migrations]. change (<[id := mkMigrationRow (cm_ServerID req) (cm_SourceNodeID req) (cm_TargetNodeID req) "planned" "" now]> (tb_migrations t) !! k = Some m).
    rewrite lookup_insert_ne; [done|]. intros ->. apply Hid. by eexists.
  - change ({[id]} ∪ db_migrations (tb_db t) = dom (<[id := mkMigrationRow (cm_ServerID req) (cm_SourceNodeID req) (cm_TargetNodeID req) "planned" "" now]> (tb_migrations t))).
    by rewrite dom_insert_L, M.
Qed.

(** An update of a migration that keeps the server and the nodes. *)
Lemma set_migration_ok id m m' t : migrations_ok t -> tb_migrations t !! id = Some m ->
  mg_ServerID m' = mg_ServerID m -> mg_SourceNodeID m' = mg_SourceNodeID m -> mg_TargetNodeID m' = mg_TargetNodeID m ->
  mg_Status m' ∈ migration_statuses -> migrations_ok (t <| tb_migrations := <[id := m']> (tb_migrations t) |>).
Proof.
  intros [D K R U H Q M S] Hm E1 E2 E3 Hst. split; try assumption.
  - apply map_Forall_insert_2; [|exact R]. destruct (R id m Hm) as (A1 & A2 & A3 & _). rewrite E1, E2, E3. by split_and!.
  - intros k r Hr. destruct (U k r Hr) as (m0 & a & row & Hm0 & A1 & A2 & A3).
    change (exists m0 a row, <[id := m']> (tb_migrations t) !! k = Some m0 /\ mr_TargetAllocationID r = Some a /\
      db_allocations (tb_db t) !! a = Some row /\ al_NodeID row = mg_TargetNodeID m0).
    destruct (decide (k = id)) as [->|Hne]; [|exists m0, a, row; by rewrite lookup_insert_ne].
    exists m', a, row. rewrite lookup_insert_eq. split_and!; [done..|]. rewrite E3. congruence.
  - change (db_migrations (tb_db t) = dom (<[id := m']> (tb_migrations t))). rewrite dom_insert_L, M.
    apply elem_of_dom_2 in Hm. set_solver.
Qed.

Lemma status_ok id status reason t : migrations_ok t -> migrations_ok (snd (UpdateMigrationStatus id status reason t)).
Proof.
  intros T. unfold UpdateMigrationStatus. destruct (tb_migrations t !! id) as [m|] eqn:Em; [|done].
  destruct (negb _) eqn:E; [done|]. apply negb_false_iff, slices_contains_spec in E. cbn [snd]. apply history_ok.
  by eapply set_migration_ok.
Qed.

Lemma free_allocation node locked t a rest : free_allocations node locked t = a :: rest ->
  exists k, db_allocations (tb_db t) !! k = Some a /\ al_NodeID a = node /\ al_ServerID a = None /\ tb_held t !! al_ID a = None.
Proof.
  unfold free_allocations. intros H. assert (Ha : a ∈ isort by_id (filter (fun a => al_NodeID a = node /\ al_ServerID a = None /\ tb_held t !! al_ID a = None /\ al_ID a ∉ locked) (values (db_allocations (tb_db t))))) by (rewrite H; left).
  rewrite isort_perm in Ha. apply list_elem_of_filter in Ha as ((H1 & H2 & H3 & _) & Ha).
  apply elem_of_values in Ha as [k Ha]. by exists k.
Qed.

Lemma ensure_ok id version key locked now t : migrations_ok t -> migrations_ok (snd (EnsureMigrationRun id version key locked now t)).
Proof.
  intros T. unfold EnsureMigrationRun. destruct (tb_runs t !! id) as [run|] eqn:Er; [done|].
  destruct (tb_migrations t !! id) as [m|] eqn:Em; [|done]. cbn [abind].
  destruct (free_allocations _ _ _) as [|a rest] eqn:Ef; [done|].
  destruct (existsb _ (values (tb_runs t))) eqn:Ek; [done|]. destruct (existsb _ (values (tb_held t))) eqn:Eh; [done|].
  cbn [snd]. apply free_allocation in Ef as (k & Ha & Hn & Hs & Hh). destruct T as [D K R U H Q M S].
  assert (Hk : al_ID a = k) by (by apply (K k a)). rewrite Hk in *.
  unfold set_held. split; try assumption.
  - by apply set_reserved_ok.
  - apply map_Forall_insert_2; [|exact U]. by exists m, k, a.
  - apply map_Forall_insert_2.
    + eexists. split; [apply lookup_insert_eq|done].
    + intros b i Hb. destruct (H b i Hb) as (r & Hr & E). exists r. split; [|done].
      change (<[id := mkMigrationRun version "planned" key 0 None None (Some k) 0 "" false "" now]> (tb_runs t) !! i = Some r).
      rewrite lookup_insert_ne; [done|]. intros ->. congruence.
  - assert (Hfresh : forall i r, tb_runs t !! i = Some r -> mr_IdempotencyKey r <> key).
    { intros i r Hr E. apply not_true_iff_false in Ek. apply Ek, existsb_exists. exists r. split; [|by apply String.eqb_eq].
      apply list_elem_of_In, elem_of_values. by exists i. }
    intros k1 r1 k2 r2 H1 H2 E. recs in H1. recs in H2.
    apply lookup_insert_Some in H1 as [[<- <-]|[? H1]]; apply lookup_insert_Some in H2 as [[<- <-]|[? H2]]; [done|..].
    + by destruct (Hfresh _ _ H2).
    + by destruct (Hfresh _ _ H1).
    + by eapply Q.
  - done.
Qed.

(** ** The commit *)

(** What a commit found, and what it left. *)
Record moves (id : string) (now : Time) (t t' : Tables) : Prop := {
  mv_before : exists m run s a row,
    tb_migrations t !! id = Some m /\ tb_runs t !! id = Some run /\ db_servers (tb_db t) !! mg_ServerID m = Some s /\
    mr_Phase run = "destination_created" /\ sv_NodeID s = mg_SourceNodeID m /\
    mr_TargetAllocationID run = Some a /\ db_allocations (tb_db t) !! a = Some row /\ al_ServerID row = None /\
    al_NodeID row = mg_TargetNodeID m /\
    tb_db t' = move_server (mg_ServerID m) (mg_SourceNodeID m) (mg_TargetNodeID m) a (tb_db (release_held id t)) /\
    tb_migrations t' = <[id := m <| mg_Status := "completed" |> <| mg_FailureReason := "" |>]> (tb_migrations t) /\
    tb_runs t' = alter (fun r => r <| mr_Phase := "completed" |> <| mr_CleanupPending := true |>
              <| mr_LeaseOwner := None |> <| mr_lease_expires_at := None |> <| mr_updated_at := now |>) id (tb_runs t) /\
    tb_held t' = filter (fun p => p.2 <> id) (tb_held t)
}.

Lemma finalize_cases id now t x t' : FinalizeMigration id now t = (x, t') ->
  (t' = t /\ (exists e, x = Failed e)) \/
  (t' = t /\ x = Got tt /\ exists run, tb_runs t !! id = Some run /\ mr_Phase run = "completed") \/
  (x = Got tt /\ moves id now t t').
Proof.
  unfold FinalizeMigration. intros H.
  destruct (tb_migrations t !! id) as [m|] eqn:Em; [|injection H as <- <-; left; by eauto].
  destruct (tb_runs t !! id) as [run|] eqn:Er; [|injection H as <- <-; left; by eauto].
  destruct (mr_TargetAllocationID run) as [a|] eqn:Ea; [|injection H as <- <-; left; by eauto].
  destruct (mr_Phase run =? "completed")%string eqn:Ec; seqb; [injection H as <- <-; right; left; by eauto|].
  destruct (mr_Phase run =? "destination_created")%string eqn:Ed; seqb; [|injection H as <- <-; left; by eauto].
  cbn [negb] in H. destruct (db_servers (tb_db t) !! mg_ServerID m) as [s|] eqn:Es; [|injection H as <- <-; left; by eauto].
  destruct (sv_NodeID s =? mg_SourceNodeID m)%string eqn:En; seqb; [|injection H as <- <-; left; by eauto].
  cbn [negb] in H. destruct (db_allocations (tb_db t) !! a) as [row|] eqn:Erow; [|injection H as <- <-; left; by eauto].
  destruct (negb (_ && _)) eqn:Ef; [injection H as <- <-; left; by eauto|].
  apply negb_false_iff, andb_prop in Ef as [Ef1 Ef2]. apply bool_decide_eq_true in Ef1. seqb.
  injection H as <- <-. right; right. split; [done|]. split. exists m, run, s, a, row. by split_and!.
Qed.

(** One allocation at the commit. *)
Definition handed_over (server source allocation : string) (row : AllocationRow) : AllocationRow :=
  if (al_ID row =? allocation)%string
  then if (al_NodeID row =? source)%string then row <| al_ServerID := None |> else row <| al_ServerID := Some server |>
  else if bool_decide (al_ServerID row = Some server) && (al_NodeID row =? source)%string
       then row <| al_ServerID := None |> else row.

Lemma moved_allocations server source target allocation db :
  db_allocations (move_server server source target allocation db) = handed_over server source allocation <$> db_allocations db.
Proof.
  unfold move_server. recs. apply map_fmap_ext. intros k row _. unfold handed_over.
  destruct (al_ID row =? allocation)%string; [|done]. cbn. unfold const. rewrite bool_decide_true by done. cbn.
  by destruct (al_NodeID row =? source)%string; destruct row.
Qed.

Lemma handed_over_same server source allocation row :
  al_ID (handed_over server source allocation row) = al_ID row /\ al_NodeID (handed_over server source allocation row) = al_NodeID row.
Proof. unfold handed_over. by repeat case_match. Qed.

Lemma move_ok server source target a row db s : tables_ok db -> db_servers db !! server = Some s ->
  sv_NodeID s = source -> is_Some (db_nodes db !! target) ->
  db_allocations db !! a = Some row -> al_NodeID row = target -> map_Forall (fun k r => al_ID r = k) (db_allocations db) ->
  tables_ok (move_server server source target a db).
Proof.
  intros T Hs Hn Ht Ha Hna K. destruct T as [T1 T2 T3 T4 T5 T6 T7].
  assert (Hserver : forall k x, db_servers db !! k = Some x -> is_Some (db_servers (move_server server source target a db) !! k)).
  { intros k x Hk. unfold move_server. recs. destruct (decide (k = server)) as [->|Hne];
      [rewrite lookup_alter_eq, Hk|rewrite lookup_alter_ne, Hk by done]; by eexists. }
  split; try assumption.
  - intros k x Hk. unfold move_server in Hk. recs in Hk. apply lookup_alter_Some in Hk as [(<- & x0 & Hx0 & ->)|[_ Hk]]; [|by apply T2].
    destruct (T2 server x0 Hx0) as (A1 & A2 & A3 & A4). split_and!; [done..|]. intros r. specialize (A4 r). by destruct r.
  - intros k x Hk. rewrite moved_allocations, lookup_fmap in Hk. destruct (db_allocations db !! k) as [x0|] eqn:E; [|done].
    injection Hk as <-. intros owner Howner. pose proof (T3 k x0 E) as H0.
    assert (Hmoved : db_servers (move_server server source target a db) !! server = Some (s <| sv_NodeID := target |> <| sv_TransferState := "completed" |> <| sv_ConfigSyncPending := false |>))
      by (unfold move_server; recs; by rewrite lookup_alter_eq, Hs).
    unfold handed_over in *. destruct (al_ID x0 =? a)%string eqn:Eid; seqb.
    + assert (k = a) as -> by (by rewrite <- (K k x0 E)). rewrite Ha in E. injection E as <-.
      destruct (al_NodeID row =? source)%string; [done|]. injection Howner as <-. eexists. split; [exact Hmoved|]. cbn. done.
    + destruct (bool_decide _ && _) eqn:Ef; [done|]. destruct (H0 owner Howner) as (s0 & Hs0 & En).
      destruct (decide (owner = server)) as [->|Hne].
      * rewrite Hs in Hs0. injection Hs0 as <-. rewrite bool_decide_true in Ef by done. cbn in Ef. seqb. congruence.
      * exists s0. split; [|done]. unfold move_server. recs. by rewrite lookup_alter_ne.
  - intros k p Hp. destruct (T6 k p Hp) as (A1 & A2 & A3 & A4 & A5 & A6). split_and!; try done.
    intros o Ho. destruct (A5 o Ho) as [x Hx]. by eapply Hserver.
Qed.

Lemma move_tables_ok server source target a row s t : migrations_ok t -> db_servers (tb_db t) !! server = Some s ->
  sv_NodeID s = source -> is_Some (db_nodes (tb_db t) !! target) ->
  db_allocations (tb_db t) !! a = Some row -> al_NodeID row = target ->
  migrations_ok (t <| tb_db := move_server server source target a (tb_db t) |>).
Proof.
  intros [D K R U H Q M S] Hs Hn Ht Ha Hna. split; try assumption.
  - by eapply move_ok.
  - intros k x Hk. cbn [tb_db] in Hk.
    change (db_allocations (move_server server source target a (tb_db t)) !! k = Some x) in Hk.
    rewrite moved_allocations, lookup_fmap in Hk. destruct (db_allocations (tb_db t) !! k) as [x0|] eqn:E; [|done].
    injection Hk as <-. rewrite (proj1 (handed_over_same _ _ _ x0)). by apply (K k x0).
  - intros k m Hm. destruct (R k m Hm) as (Hserver & H2). split; [|exact H2]. unfold move_server. recs.
    destruct (decide (mg_ServerID m = server)) as [->|Hne]; [rewrite lookup_alter_eq, Hs; by eexists|by rewrite lookup_alter_ne].
  - intros k r Hr. destruct (U k r Hr) as (m & b & row' & H1 & H2 & H3 & H4).
    exists m, b, (handed_over server source a row'). split_and!; [done..| |by rewrite (proj2 (handed_over_same _ _ _ row'))].
    change (db_allocations (move_server server source target a (tb_db t)) !! b = Some (handed_over server source a row')).
    by rewrite moved_allocations, lookup_fmap, H3.
Qed.

Lemma same_tables_ok t t' : tb_db t' = tb_db t -> tb_migrations t' = tb_migrations t -> tb_runs t' = tb_runs t ->
  tb_held t' = tb_held t -> migrations_ok t -> migrations_ok t'.
Proof. intros E1 E2 E3 E4 []. split; by rewrite ?E1, ?E2, ?E3, ?E4. Qed.

Lemma completed_status : "completed" ∈ migration_statuses.
Proof. by apply slices_contains_spec. Qed.

Lemma finalize_ok id now t : migrations_ok t -> migrations_ok (snd (FinalizeMigration id now t)).
Proof.
  intros T. destruct (FinalizeMigration id now t) as [x t'] eqn:E. cbn [snd].
  apply finalize_cases in E as [[-> _]|[[-> _]|[_ Hmv]]]; [done..|].
  destruct Hmv as [(m & run & s & a & row & Hm & Hr & Hs & _ & Hn & Ha & Hrow & Hf & Hna & Edb & Ems & Ers & Ehs)].
  destruct (mk_rows _ T id m Hm) as (_ & _ & Ht & _).
  assert (T1 := move_tables_ok (mg_ServerID m) (mg_SourceNodeID m) (mg_TargetNodeID m) a row s (release_held id t)
    (release_ok id t T) Hs Hn Ht Hrow Hna).
  set (m' := m <| mg_Status := "completed" |> <| mg_FailureReason := "" |>) in *.
  assert (Hst : mg_Status m' = "completed") by done. pose proof completed_status as Hc. rewrite <- Hst in Hc.
  assert (T2 := set_migration_ok id m m' _ T1 Hm eq_refl eq_refl eq_refl Hc).
  assert (T3 := set_run_ok id (fun r => r <| mr_Phase := "completed" |> <| mr_CleanupPending := true |>
              <| mr_LeaseOwner := None |> <| mr_lease_expires_at := None |> <| mr_updated_at := now |>) _ ltac:(done) T2).
  by eapply same_tables_ok; [..|exact T3].
Qed.

Lemma table_step_ok t t' : migrations_ok t -> table_step t t' -> migrations_ok t'.
Proof.
  intros T [].
  - by apply cascade_ok.
  - by apply create_ok.
  - by apply status_ok.
  - by apply ensure_ok.
  - unfold ClaimMigrationRun. repeat (case_match; try exact T). by apply set_run_ok.
  - by apply set_run_ok.
  - by apply set_run_ok.
  - by apply finalize_ok.
  - apply set_run_ok; [|exact T]. intros r. by case_match.
  - by apply close_run_ok.
  - by apply close_run_ok.
Qed.


(** What belongs to the server after a commit. *)
Lemma handed_over_mine server source a row : (al_ID row = a -> al_NodeID row <> source) ->
  (al_ServerID row = Some server -> al_NodeID row = source) ->
  al_ServerID (handed_over server source a row) = Some server <-> al_ID row = a.
Proof.
  intros Hne Hhome. unfold handed_over. destruct (al_ID row =? a)%string eqn:Ei; seqb.
  - destruct (al_NodeID row =? source)%string eqn:En; seqb; [by destruct (Hne Ei)|]. by cbn.
  - destruct (bool_decide _ && _) eqn:Eb; cbn; [by split|]. split; [|done]. intros Hs.
    rewrite bool_decide_true in Eb by done. cbn in Eb. seqb. by destruct Eb; apply Hhome.
Qed.

Lemma handed_over_others server source a row other : other <> server -> al_ServerID row = None \/ al_ID row <> a ->
  al_ServerID (handed_over server source a row) = Some other <-> al_ServerID row = Some other.
Proof.
  intros Hne Hfree. unfold handed_over. destruct (al_ID row =? a)%string eqn:Ei; seqb.
  - destruct Hfree as [->|]; [|done]. destruct (_ =? _)%string; cbn; [done|]. split; [by intros [= ->]|done].
  - destruct (bool_decide _ && _) eqn:Eb; [|done]. apply andb_prop in Eb as [Eb _]. apply bool_decide_eq_true in Eb.
    rewrite Eb. cbn. split; [done|]. by intros [= ->].
Qed.

(** A completed run is committed already. *)
Lemma finalize_again id run now t : migrations_ok t -> tb_runs t !! id = Some run -> mr_Phase run = "completed" ->
  FinalizeMigration id now t = (Got tt, t).
Proof.
  intros T Hr Hp. destruct (mk_runs _ T id run Hr) as (m & a & _ & Hm & Ha & _).
  unfold FinalizeMigration. by rewrite Hm, Hr, Ha, Hp.
Qed.


(** ** A migration on the example tables *)

(** [s1] is to go from [a] to [b], and the destination was created. *)
Definition planned_tables : Tables :=
  snd (EnsureMigrationRun "m1" "v1" "key" ∅ 600
        (snd (CreateMigration (mkCreateMigrationRequest "s1" "a" "b") "m1" 600 (mkTables example_db ∅ ∅ ∅ [])))).
Definition created_tables : Tables := snd (UpdateMigrationRun "m1" "destination_created" "" 0 "" 700 planned_tables).
Definition committed_tables : Tables := snd (FinalizeMigration "m1" 800 created_tables).

Lemma example_migrations_ok : migrations_ok (mkTables example_db ∅ ∅ ∅ []).
Proof.
  split; [exact example_tables_ok| |done..]. intros k x H. cbn in H. rows H; done.
Qed.

Lemma example_steps : rtc table_step (mkTables example_db ∅ ∅ ∅ []) created_tables.
Proof.
  eapply rtc_l; [apply (ts_create _ (mkCreateMigrationRequest "s1" "a" "b") "m1" 600)|].
  eapply rtc_l; [apply (ts_ensure _ "m1" "v1" "key" ∅ 600)|]. apply rtc_once, ts_advance.
Qed.


Lemma created_ok : migrations_ok created_tables.
Proof.
  assert (T := example_migrations_ok). assert (H := example_steps).
  induction H as [|t1 t2 t3 Hs _ IH]; [done|]. by apply IH, (table_step_ok t1).
Qed.


(** ** Where the statements let something through *)

(** A run that was cancelled is revived by the next report of a worker that did
    not hear of it, and commits into an allocation that is kept for another
    migration by then. *)
Lemma cancelled_run_commits :
  let t1 := snd (CancelMigrationRun "m1" 650 planned_tables) in
  let t2 := snd (EnsureMigrationRun "m2" "v1" "key2" ∅ 660
                   (snd (CreateMigration (mkCreateMigrationRequest "s1" "a" "b") "m2" 660 t1))) in
  let t3 := snd (UpdateMigrationRun "m1" "destination_created" "" 0 "" 670 t2) in
  let r := FinalizeMigration "m1" 680 t3 in
  (mr_Phase <$> tb_runs t1 !! "m1") = Some "cancelled" /\ fst r = Got tt /\
  (al_ServerID <$> db_allocations (tb_db (snd r)) !! "p3") = Some (Some "s1") /\ tb_held (snd r) !! "p3" = Some "m2".
Proof. by vm_compute. Qed.

(** The commit leaves the transfer state at [completed], and nothing sets it
    back: the server can neither be suspended nor unsuspended. *)
Lemma migrated_server_not_suspended :
  let w := ControlPlane.mkWorld (tb_db committed_tables) 900 (Strategy.mkWorld None 0 []) 0 in
  let ask p := answer_alone (serve willing_node example_control example_targets entered) p w in
  ask (SuspendServer example_manager "s1") =
    Failed (ErrText (cat ["cannot change suspension while a transfer is in state "; quote "completed"])) /\
  ask (UnsuspendServer example_manager "s1") = ask (SuspendServer example_manager "s1").
Proof. by vm_compute. Qed.
