(* ===== verification/Transfer.v ===== *)
(** * The transfer of a server's data between two nodes

    [beacon/internal/transfer/protocol.go], the engine that archives, uploads,
    restores, activates and cancels, and
    [beacon/internal/server/transfer_protocol.go], its HTTP side.  What a
    migration has reached on a node is a metadata file per direction and the
    files of its directory [.transfers/<id>]; only the cancel functions of
    running operations live in memory.

    A method is a program over what it asks of the machine ([NodeEff]): each
    file operation may fail, before or after it took effect, and the process
    may stop between any two.  Tar, gzip, SHA-256 and the walk over the
    server's directory are behind the interface [Archives].  The engine's lock
    is left out: a migration's requests reach a node one at a time. *)
From Stdlib Require Import ZArith Lia Ascii Init.Byte.
From stdpp Require Import base gmap strings list fin_maps.
From coqutil Require Import Datatypes.RecordSettersUsingExistingGetters.
From S2P Require Import Prelude GoStrings Programs.
Import RecordSetNotations1.
#[local] Open Scope string_scope.
#[local] Open Scope list_scope.
#[local] Open Scope Z_scope.
#[local] Open Scope go_scope.

Abbreviation Bytes := (list byte) (only parsing).

(** ** Archives

    [pack] is [createSecureArchive] on the content of a server's directory,
    [unpack] is [extractSecureArchive] into an empty one, [digest] is SHA-256
    in hexadecimal. *)
Class Archives := {
  Tree : Type;
  empty_tree : Tree;
  pack : Tree -> result Bytes;
  unpack : Bytes -> result Tree;
  digest : Bytes -> string
}.

(** What the clients rely on: an archive restores to what it [carried], and
    digests are lower-case and do not collide. *)
Class ArchivesOk (AR : Archives) := {
  carried : Tree -> Tree;
  unpack_pack t b : pack t = Ok b -> unpack b = Ok (carried t);
  digest_lower b : ToLower (digest b) = digest b;
  digest_inj b b' : digest b = digest b' -> b = b'
}.

(** ** Data *)

(* go: beacon/transfer/protocol.go const:ProtocolVersion *)
Definition ProtocolVersion : string := "forge-beacon-transfer/v1".

(* go: beacon/transfer/protocol.go L28-31 *)
Definition DirectionSourceControl : string := "source-control".
Definition DirectionDestinationUpload : string := "destination-upload".

(* go: beacon/transfer/protocol.go L33-41 *)
Inductive TransferError :=
| ErrUnauthorized
| ErrExpired
| ErrReplayed
| ErrOffsetMismatch
| ErrChecksumMismatch
| ErrTransferBounds
| ErrInvalidBinding
| ErrOther (msg : string).

Definition transfer_error_text (e : TransferError) : string :=
  match e with
  | ErrUnauthorized => "invalid transfer credential"
  | ErrExpired => "transfer credential expired"
  | ErrReplayed => "transfer credential has already been consumed"
  | ErrOffsetMismatch => "transfer offset does not match destination offset"
  | ErrChecksumMismatch => "transfer checksum mismatch"
  | ErrTransferBounds => "transfer exceeds declared total size"
  | ErrInvalidBinding => "transfer credential binding mismatch"
  | ErrOther msg => msg
  end.

Inductive reply (A : Type) : Type :=
| Done (a : A)
| Refused (e : TransferError).
Arguments Done {A} a.
Arguments Refused {A} e.

(* go: beacon/transfer/protocol.go type:CredentialClaims *)
Record CredentialClaims := mkClaims {
  cc_Version : string;
  cc_MigrationID : string;
  cc_ServerID : string;
  cc_SourceNodeID : string;
  cc_TargetNodeID : string;
  cc_Direction : string;
  cc_ExpiresAt : Time
}.

(* go: beacon/transfer/protocol.go type:CredentialRegistration *)
Record CredentialRegistration := mkRegistration {
  rg_Claims : CredentialClaims;
  rg_CredentialHash : string
}.

(* go: beacon/transfer/protocol.go type:Metadata *)
Record Metadata := mkMetadata {
  x_Version : string;
  x_MigrationID : string;
  x_ServerID : string;
  x_SourceNodeID : string;
  x_TargetNodeID : string;
  x_Direction : string;
  x_Phase : string;
  x_CredentialHash : string;
  x_ExpiresAt : Time;
  x_ConsumedAt : option Time;
  x_ArchiveSize : Z;
  x_Offset : Z;
  x_Checksum : string;
  x_Error : string;
  x_UpdatedAt : Time
}.

(** ** What a method asks of the machine *)

(** What the other side of an upload answers: nothing, a status outside 2xx,
    or the value. *)
Inductive http (A : Type) : Type :=
| NoReply (e : string)
| Conflict
| BadStatus (status : string)
| Reply (a : A).
Arguments NoReply {A} e.
Arguments Conflict {A}.
Arguments BadStatus {A} status.
Arguments Reply {A} a.

Record Upload := mkUpload {
  up_Credential : string;
  up_MigrationID : string;
  up_Offset : Z;
  up_Length : Z;
  up_Checksum : string
}.

(** [LoadMeta] answers [None] when there is no file.  [WriteIncoming] writes
    at an offset and syncs, and answers how much was written.  [Discard]
    answers [false] when there is no such directory.  [HeadOffset] and
    [PatchArchive] go to the destination. *)
Inductive NodeEff : Type -> Type :=
| Now : NodeEff Time
| CtxErr : NodeEff error
| LoadMeta (id direction : string) : NodeEff (result (option Metadata))
| SaveMeta (m : Metadata) : NodeEff error
| IsActive (id : string) : NodeEff bool
| SetActive (id : string) (b : bool) : NodeEff unit
| MakeArchive (id server : string) : NodeEff (result (string * Z))
| OpenArchive (id : string) (offset : Z) : NodeEff (result Bytes)
| OpenIncoming (id : string) : NodeEff (result Z)
| WriteIncoming (id : string) (offset : Z) (data : Bytes) : NodeEff (Z * error)
| IncomingChecksum (id : string) : NodeEff (result string)
| StagingExists (id : string) : NodeEff (result bool)
| MakeStaging (id : string) : NodeEff error
| Extract (id : string) : NodeEff error
| PreviousExists (id : string) : NodeEff (result bool)
| ServerExists (server : string) : NodeEff (result bool)
| SetAside (server id : string) : NodeEff error
| Activate (server id : string) : NodeEff error
| PutBack (server id : string) : NodeEff error
| Discard (server id : string) : NodeEff (result bool)
| UndoDiscard (server id : string) : NodeEff error
| RemoveDiscarded (id : string) : NodeEff unit
| RemoveIncoming (id : string) : NodeEff unit
| RemoveLeftovers (id : string) : NodeEff unit
| RemoveTransfer (id : string) : NodeEff unit
| RemoveServerData (server : string) : NodeEff error
| MakeServerDir (server : string) : NodeEff error
| ApplyConfiguration (server : string) : NodeEff error
| InspectContainer (server : string) : NodeEff (result (bool * bool))
| StopContainer (server : string) : NodeEff error
| StartContainer (server : string) : NodeEff error
| CreateContainer (server : string) : NodeEff error
| DeleteContainer (server : string) : NodeEff error
| RemoveBackups (server : string) : NodeEff error
| HeadOffset (url credential id : string) : NodeEff (http Z)
| PatchArchive (url : string) (u : Upload) (body : Bytes) : NodeEff (http Metadata).

Abbreviation N := (prog NodeEff) (only parsing).

Definition done {A} (a : A) : N (reply A) := Ret (Done a).
Definition refuse {A} (e : TransferError) : N (reply A) := Ret (Refused e).
Definition refuse_with {A} (msg : string) : N (reply A) := refuse (ErrOther msg).

Definition rbind {A B} (m : N (reply A)) (k : A -> N (reply B)) : N (reply B) :=
  pbind m (fun r => match r with Done a => k a | Refused e => refuse e end).

(** A request that answers an [error]: early return when it is not nil. *)
Definition guard {B} (m : N error) (k : N (reply B)) : N (reply B) :=
  pbind m (fun e => match e with Some msg => refuse_with msg | None => k end).

(** A request that answers a value or an error. *)
Definition value {A B} (m : N (result A)) (k : A -> N (reply B)) : N (reply B) :=
  pbind m (fun r => match r with Ok a => k a | Err msg => refuse_with msg end).

Notation "'let/^' x := m 'in' k" := (rbind m (fun x => k))
  (at level 200, x binder, m at level 200, k at level 200, only parsing) : go_scope.
Notation "m ;;/ k" := (pbind m (fun _ => k))
  (at level 100, k at level 200, right associativity, only parsing) : go_scope.

(** ** Identifiers and claims *)

(** On an identifier without a slash [filepath.Base] is the identity. *)
(* go: beacon/transfer/protocol.go func:safeID *)
Definition safeID (value : string) : bool :=
  negb ((value =? "")%string || (128 <? Z.of_nat (String.length value)) || (value =? ".")%string ||
        (value =? "..")%string || has_byte "/" value || has_byte "\" value || has_byte zero value ||
        Contains value "..").

(* go: beacon/transfer/protocol.go func:validDirection *)
Definition validDirection (direction : string) : bool :=
  (direction =? DirectionSourceControl)%string || (direction =? DirectionDestinationUpload)%string.

(* go: beacon/transfer/protocol.go func:validateClaims *)
Definition validateClaims (c : CredentialClaims) : error :=
  if negb (cc_Version c =? ProtocolVersion)%string || (cc_MigrationID c =? "")%string ||
     (cc_ServerID c =? "")%string || (cc_SourceNodeID c =? "")%string || (cc_TargetNodeID c =? "")%string ||
     (cc_ExpiresAt c =? zeroTime)
  then Some "incomplete transfer credential claims"
  else if negb (validDirection (cc_Direction c)) then Some "invalid transfer credential direction"
  else if negb (safeID (cc_MigrationID c) && safeID (cc_ServerID c) && safeID (cc_SourceNodeID c) &&
                safeID (cc_TargetNodeID c))
  then Some "invalid transfer credential binding"
  else None.

(* go: beacon/transfer/protocol.go func:validateMetadata *)
Definition validateMetadata (m : Metadata) : error :=
  validateClaims (mkClaims (x_Version m) (x_MigrationID m) (x_ServerID m) (x_SourceNodeID m)
                    (x_TargetNodeID m) (x_Direction m) (x_ExpiresAt m)).

Definition is_hex (c : ascii) : bool :=
  let n := N_of_ascii c in
  ((48 <=? n) && (n <=? 57) || (97 <=? n) && (n <=? 102) || (65 <=? n) && (n <=? 70))%N.

(** 64 hexadecimal digits. *)
Definition is_digest (s : string) : bool :=
  (String.length s =? 64)%nat && forallb is_hex (String.list_ascii_of_string s).

(** ** The engine *)

Section Engine.
Context {AR : Archives}.

(* go: beacon/transfer/protocol.go func:HashCredential *)
Definition HashCredential (credential : string) : string := digest (String.list_byte_of_string credential).

(* go: beacon/transfer/protocol.go func:Engine.load *)
Definition load (id direction : string) : N (result (option Metadata)) :=
  if negb (safeID id && validDirection direction) then Ret (Err "invalid transfer binding")
  else request (LoadMeta id direction).

(* go: beacon/transfer/protocol.go func:Engine.save *)
Definition save (m : Metadata) : N error :=
  if negb (safeID (x_MigrationID m) && validDirection (x_Direction m)) then Ret (Some "invalid transfer binding")
  else match validateMetadata m with Some e => Ret (Some e) | None => request (SaveMeta m) end.

Definition same_binding (m : Metadata) (c : CredentialClaims) : bool :=
  ((x_Version m =? cc_Version c) && (x_ServerID m =? cc_ServerID c) &&
   (x_SourceNodeID m =? cc_SourceNodeID c) && (x_TargetNodeID m =? cc_TargetNodeID c) &&
   (x_Direction m =? cc_Direction c))%string.

(** A registration replaces the credential of the direction and keeps what the
    transfer has reached. *)
(* go: beacon/transfer/protocol.go func:Engine.Register *)
Definition Register (reg : CredentialRegistration) : N (reply unit) :=
  let c := rg_Claims reg in
  match validateClaims c with
  | Some e => refuse_with e
  | None =>
      let^ now := request Now in
      if Before (cc_ExpiresAt c) now then refuse ErrExpired
      else if negb (is_digest (rg_CredentialHash reg)) then refuse_with "credentialHash must be a SHA-256 hex digest"
      else
        value (load (cc_MigrationID c) (cc_Direction c)) (fun found =>
        match found with
        | Some meta =>
            if negb (same_binding meta c) then refuse ErrInvalidBinding
            else
              let^ now := request Now in
              guard (save (meta <| x_CredentialHash := ToLower (rg_CredentialHash reg) |>
                                <| x_ExpiresAt := cc_ExpiresAt c |> <| x_ConsumedAt := None |>
                                <| x_UpdatedAt := now |>)) (done tt)
        | None =>
            let^ now := request Now in
            guard (save (mkMetadata ProtocolVersion (cc_MigrationID c) (cc_ServerID c) (cc_SourceNodeID c)
                           (cc_TargetNodeID c) (cc_Direction c) "authorized" (ToLower (rg_CredentialHash reg))
                           (cc_ExpiresAt c) None 0 0 "" "" now)) (done tt)
        end)
  end.

(* go: beacon/transfer/protocol.go func:Engine.authorizeLocked *)
Definition authorizeLocked (id direction credential : string) : N (reply Metadata) :=
  if negb (safeID id && validDirection direction) then refuse ErrUnauthorized
  else
    let^ r := load id direction in
    match r with
    | Err _ | Ok None => refuse ErrUnauthorized
    | Ok (Some meta) =>
        match validateMetadata meta with
        | Some _ => refuse ErrInvalidBinding
        | None =>
            if negb ((x_Version meta =? ProtocolVersion) && (x_MigrationID meta =? id) &&
                     (x_Direction meta =? direction))%string
            then refuse ErrInvalidBinding
            else match x_ConsumedAt meta with
                 | Some _ => refuse ErrReplayed
                 | None =>
                     let^ now := request Now in
                     if negb (Before now (x_ExpiresAt meta)) then refuse ErrExpired
                     else if negb (HashCredential credential =? x_CredentialHash meta)%string
                     then refuse ErrUnauthorized
                     else done meta
                 end
        end
    end.

(* go: beacon/transfer/protocol.go func:Engine.Authorize *)
Definition Authorize := authorizeLocked.

(** [_ = e.save(meta)]: best effort, then the error. *)
Definition save_and_refuse {A} (m : Metadata) (e : TransferError) : N (reply A) := save m ;;/ refuse e.

Definition at_phase (phase msg : string) (now : Time) (m : Metadata) : Metadata :=
  m <| x_Phase := phase |> <| x_Error := msg |> <| x_UpdatedAt := now |>.

(* go: beacon/transfer/protocol.go func:Engine.PrepareSource *)
Definition PrepareSource (id credential : string) : N (reply Metadata) :=
  if negb (safeID id) then refuse_with "invalid migration ID"
  else
    let/^ meta := authorizeLocked id DirectionSourceControl credential in
    if ((x_Phase meta =? "archived") || (x_Phase meta =? "uploaded"))%string then done meta
    else
      let^ active := request (IsActive id) in
      if active : bool then refuse_with "transfer operation is already active"
      else
        request (SetActive id true) ;;/
        let^ now := request Now in
        let meta := meta <| x_Phase := "archiving" |> <| x_UpdatedAt := now |> in
        let^ e := save meta in
        match e with
        | Some msg => request (SetActive id false) ;;/ refuse_with msg
        | None =>
            if negb (safeID (x_ServerID meta)) then refuse_with "invalid transfer credential binding"
            else
              let^ r := request (MakeArchive id (x_ServerID meta)) in
              request (SetActive id false) ;;/
              let^ now := request Now in
              match r with
              | Err msg => save_and_refuse (at_phase "failed" msg now meta) (ErrOther msg)
              | Ok (checksum, size) =>
                  let meta := at_phase "archived" "" now meta <| x_Checksum := checksum |>
                                <| x_ArchiveSize := size |> <| x_Offset := 0 |> in
                  guard (save meta) (done meta)
              end
        end.

(** The archive from the offset on, with the metadata. *)
(* go: beacon/transfer/protocol.go func:Engine.SourceArchive *)
Definition SourceArchive (id credential : string) (offset : Z) : N (reply (Bytes * Metadata)) :=
  if negb (safeID id) then refuse_with "invalid migration ID"
  else
    let/^ meta := authorizeLocked id DirectionSourceControl credential in
    if negb (slices_contains ["archived"; "uploading"; "uploaded"] (x_Phase meta))
    then refuse_with "source archive is not ready"
    else if (offset <? 0) || (x_ArchiveSize meta <? offset) then refuse ErrOffsetMismatch
    else value (request (OpenArchive id offset)) (fun body => done (body, meta)).

(* go: beacon/transfer/protocol.go func:Engine.DestinationOffset *)
Definition DestinationOffset (id credential : string) : N (reply Metadata) :=
  if negb (safeID id) then refuse_with "invalid migration ID"
  else authorizeLocked id DirectionDestinationUpload credential.

Definition maxArchive : Z := 32 * 1024 * 1024 * 1024.

(** What arrives of a request's body: its bytes, and the error that ended it
    when it was cut short. *)
Record Body := mkBody { bd_bytes : Bytes; bd_err : error }.

(** [io.LimitReader] stops one byte after what is expected. *)
Definition limited (remaining : Z) (b : Body) : Bytes * error :=
  (take (Z.to_nat (remaining + 1)) (bd_bytes b),
   if Z.of_nat (length (bd_bytes b)) <=? remaining then bd_err b else None).

Definition join_texts (l : list string) : string := Join (filter (fun s => s <> "") l) (String (Ascii.ascii_of_nat 10) "").

(** After the copy: the offset it reached, and whether that is all of it. *)
(* go: beacon/transfer/protocol.go L521-555 *)
Definition finish_append (id checksum : string) (offset total written : Z) (copyErr : error) (meta : Metadata)
    : N (reply Metadata) :=
  request (SetActive id false) ;;/
  let^ now := request Now in
  let meta := meta <| x_Offset := offset +i written |> <| x_UpdatedAt := now |> in
  if bool_decide (is_Some copyErr) || (total - offset <? written) then
    let msg := join_texts [default "" copyErr;
      if total - offset <? written then transfer_error_text ErrTransferBounds else ""] in
    save_and_refuse (meta <| x_Error := msg |>) (ErrOther msg)
  else if x_Offset meta <? total then save meta ;;/ done meta
  else
    let^ actual := request (IncomingChecksum id) in
    match actual with
    | Err msg => save_and_refuse (meta <| x_Error := msg |>) (ErrOther msg)
    | Ok actual =>
        if negb (EqualFold actual checksum)
        then save_and_refuse (meta <| x_Phase := "failed" |> <| x_Error := transfer_error_text ErrChecksumMismatch |>)
               ErrChecksumMismatch
        else
          let meta := meta <| x_Phase := "verified" |> <| x_Error := "" |> in
          save meta ;;/ done meta
    end.

(** What is refused before anything is written, in the order of the code. *)
(* go: beacon/transfer/protocol.go L466-481 *)
Definition append_refused (offset total : Z) (checksum : string) (meta : Metadata) : option TransferError :=
  if ((x_Phase meta =? "restored") || (x_Phase meta =? "activated"))%string then Some ErrReplayed
  else if (total <=? 0) || (maxArchive <? total) || (offset <? 0) || negb (offset =? x_Offset meta) || (total <? offset)
  then Some ErrOffsetMismatch
  else if negb (x_ArchiveSize meta =? 0) && negb (x_ArchiveSize meta =? total) then Some ErrTransferBounds
  else if negb (x_Checksum meta =? "")%string && negb (EqualFold (x_Checksum meta) checksum)
  then Some ErrChecksumMismatch
  else None.

(* go: beacon/transfer/protocol.go func:Engine.AppendDestination *)
Definition AppendDestination (id credential : string) (offset total : Z) (checksum : string) (body : Body)
    : N (reply Metadata) :=
  if negb (safeID id) then refuse_with "invalid migration ID"
  else if has_byte zero checksum then refuse_with "invalid transfer metadata"
  else
    let/^ meta := authorizeLocked id DirectionDestinationUpload credential in
    match append_refused offset total checksum meta with
    | Some e => refuse e
    | None =>
        let^ active := request (IsActive id) in
        if active : bool then refuse_with "transfer operation is already active"
        else
          let^ now := request Now in
          let meta := meta <| x_ArchiveSize := total |> <| x_Checksum := ToLower checksum |>
                           <| x_Phase := "uploading" |> <| x_UpdatedAt := now |> in
          guard (save meta)
            (value (request (OpenIncoming id)) (fun size =>
             if negb (size =? offset) then refuse ErrOffsetMismatch
             else
               request (SetActive id true) ;;/
               let '(data, readErr) := limited (total - offset) body in
               let^ r := request (WriteIncoming id offset data) in
               let '(written, writeErr) := r in
               finish_append id checksum offset total written
                 (match writeErr with Some _ => writeErr | None => readErr end) meta))
    end.

(** The staged content becomes the server's, what was there before is set
    aside. *)
(* go: beacon/transfer/protocol.go func:activateWithRollback *)
Definition activateWithRollback (server id : string) : N error :=
  if negb (safeID server && safeID id) then Ret (Some "invalid transfer binding")
  else
    let^ r := request (PreviousExists id) in
    match r with
    | Err e => Ret (Some e)
    | Ok true => Ret (Some "prior rollback directory exists; refusing to overwrite recovery data")
    | Ok false =>
        let^ r := request (ServerExists server) in
        match r with
        | Err e => Ret (Some e)
        | Ok hadCanonical =>
            let^ aside := (if hadCanonical : bool then request (SetAside server id) else Ret None) in
            match aside with
            | Some e => Ret (Some e)
            | None =>
                let^ e := request (Activate server id) in
                match e with
                | Some e => if hadCanonical then request (PutBack server id) ;;/ Ret (Some e) else Ret (Some e)
                | None => Ret None
                end
            end
        end
    end.

(* go: beacon/transfer/protocol.go func:Engine.RestoreDestination *)
Definition RestoreDestination (id credential : string) : N (reply Metadata) :=
  if negb (safeID id) then refuse_with "invalid migration ID"
  else
    let/^ meta := authorizeLocked id DirectionDestinationUpload credential in
    if (x_Phase meta =? "restored")%string then done meta
    else if negb (x_Phase meta =? "verified")%string then refuse_with "destination archive is not verified"
    else
      let^ active := request (IsActive id) in
      if active : bool then refuse_with "transfer operation is already active"
      else
        value (request (StagingExists id)) (fun staged =>
        if staged : bool then refuse_with "restore staging already exists; cancel the prior attempt before retrying"
        else
          guard (request (MakeStaging id))
            (request (SetActive id true) ;;/
             let^ now := request Now in
             let meta := meta <| x_Phase := "restoring" |> <| x_UpdatedAt := now |> in
             save meta ;;/
             let^ extracted := request (Extract id) in
             let^ e := (match extracted with None => activateWithRollback (x_ServerID meta) id | Some msg => Ret (Some msg) end) in
             request (SetActive id false) ;;/
             let^ now := request Now in
             match e with
             | Some msg => save_and_refuse (at_phase "failed" msg now meta) (ErrOther msg)
             | None =>
                 let meta := at_phase "restored" "" now meta in
                 guard (save meta) (request (RemoveIncoming id) ;;/ done meta)
             end)).

Definition consumed (phase : string) (now : Time) (m : Metadata) : Metadata :=
  m <| x_Phase := phase |> <| x_ConsumedAt := Some now |> <| x_UpdatedAt := now |>.

(* go: beacon/transfer/protocol.go func:Engine.FinalizeDestination *)
Definition FinalizeDestination (id credential : string) : N (reply unit) :=
  if negb (safeID id) then refuse_with "invalid migration ID"
  else
    let/^ meta := authorizeLocked id DirectionDestinationUpload credential in
    if negb (x_Phase meta =? "restored")%string then refuse_with "destination is not restored"
    else
      let^ now := request Now in
      guard (save (consumed "activated" now meta)) (request (RemoveLeftovers id) ;;/ done tt).

(** Marks one direction; answers the server whose restored data is to be
    rolled back. *)
(* go: beacon/transfer/protocol.go L810-821 *)
Definition cancel_direction (id direction : string) : N (option string) :=
  let^ r := load id direction in
  match r with
  | Ok (Some meta) =>
      if bool_decide (validateMetadata meta = None) && (x_MigrationID meta =? id)%string then
        let^ now := request Now in
        save (consumed "cancelled" now meta) ;;/
        Ret (if ((direction =? DirectionDestinationUpload) &&
                 ((x_Phase meta =? "restored") || (x_Phase meta =? "activated")))%string
             then Some (x_ServerID meta) else None)
      else Ret None
  | _ => Ret None
  end.

(** What a restoration set aside comes back, also when the restored data is
    gone; when nothing was set aside the restored data stays. *)
(* go: beacon/transfer/protocol.go L827-847 *)
Definition roll_back (id : string) (server : option string) : N (reply unit) :=
  match server with
  | None => done tt
  | Some server =>
      if negb (safeID server) then refuse_with "invalid transfer binding"
      else
        let^ r := request (PreviousExists id) in
        match r with
        | Ok true =>
            request (RemoveDiscarded id) ;;/
            let^ e := request (Discard server id) in
            match e with
            | Err e => refuse_with (cat ["stage cancelled restore: "; e])
            | Ok _ =>
                let^ e := request (PutBack server id) in
                match e with
                | Some e => request (UndoDiscard server id) ;;/
                            refuse_with (cat ["roll back cancelled restore: "; e])
                | None => request (RemoveDiscarded id) ;;/ done tt
                end
            end
        | _ => done tt
        end
  end.

(* go: beacon/transfer/protocol.go func:Engine.Cancel *)
Definition Cancel (id : string) : N (reply unit) :=
  if negb (safeID id) then refuse_with "invalid migration ID"
  else
    request (SetActive id false) ;;/
    cancel_direction id DirectionSourceControl ;;/
    let^ server := cancel_direction id DirectionDestinationUpload in
    let/^ _ := roll_back id server in
    request (RemoveTransfer id) ;;/ done tt.

(* go: beacon/transfer/protocol.go func:Engine.CleanupSource *)
Definition CleanupSource (id credential : string) : N (reply unit) :=
  if negb (safeID id) then refuse_with "invalid migration ID"
  else
    let/^ meta := authorizeLocked id DirectionSourceControl credential in
    let^ now := request Now in
    guard (save (consumed "cleaned" now meta))
      (if negb (safeID (x_ServerID meta)) then refuse_with "invalid transfer binding"
       else guard (request (RemoveServerData (x_ServerID meta))) (done tt)).

(** ** The HTTP side *)

(* go: beacon/server/transfer_protocol.go func:isSafeMigrationID *)
Definition isSafeMigrationID (value : string) : bool := safeID value.

(* go: beacon/server/transfer_protocol.go func:writeTransferError *)
Definition transfer_status (e : TransferError) : Z :=
  match e with
  | ErrUnauthorized | ErrExpired | ErrReplayed => 401
  | ErrOffsetMismatch | ErrChecksumMismatch | ErrInvalidBinding => 409
  | ErrTransferBounds | ErrOther _ => 400
  end.

(** The answer of a handler as the other side sees it. *)
Definition as_http {A} (r : reply A) : http A :=
  match r with
  | Done a => Reply a
  | Refused e => if transfer_status e =? 409 then Conflict else BadStatus (itoa (transfer_status e))
  end.

Definition with_id {A} (id : string) (k : N (reply A)) : N (reply A) :=
  if negb (isSafeMigrationID id) then refuse_with "invalid migration ID" else k.

(* go: beacon/server/transfer_protocol.go func:Server.registerTransferCredential *)
Definition registerTransferCredential (reg : CredentialRegistration) : N (reply unit) := Register reg.

(** The workload stops before its data is archived. *)
(* go: beacon/server/transfer_protocol.go func:Server.prepareTransferSource *)
Definition prepareTransferSource (id credential : string) : N (reply Metadata) :=
  with_id id
    (let/^ claims := Authorize id DirectionSourceControl credential in
     if (x_ServerID claims =? "")%string then refuse_with "invalid server binding"
     else
       let^ r := request (InspectContainer (x_ServerID claims)) in
       match r with
       | Err e => refuse_with (cat ["inspect source container: "; e])
       | Ok (exists_, running) =>
           if (exists_ : bool) && running then
             let^ e := request (StopContainer (x_ServerID claims)) in
             match e with
             | Some e => refuse_with (cat ["stop source server: "; e])
             | None => PrepareSource id credential
             end
           else PrepareSource id credential
       end).

(* go: beacon/server/transfer_protocol.go type:sourcePushRequest *)
Record sourcePushRequest := mkPushRequest {
  sp_DestinationURL : string;
  sp_DestinationCredential : string;
  sp_IdempotencyKey : string
}.

(** One negotiation and upload; [None] tries again.  The destination says how
    much it has, the rest is sent. *)
(* go: beacon/server/transfer_protocol.go L183-241 *)
Definition push_once (id sourceCredential : string) (req : sourcePushRequest) : N (option (reply Metadata)) :=
  let stop r := Ret (Some r) in
  let^ head := request (HeadOffset (sp_DestinationURL req) (sp_DestinationCredential req) id) in
  match head with
  | NoReply e => stop (Refused (ErrOther e))
  | Conflict => stop (Refused (ErrOther "destination offset negotiation failed: 409"))
  | BadStatus s => stop (Refused (ErrOther (cat ["destination offset negotiation failed: "; s])))
  | Reply offset =>
      if offset <? 0 then stop (Refused (ErrOther "destination returned invalid upload offset"))
      else
        let^ r := SourceArchive id sourceCredential offset in
        match r with
        | Refused e => stop (Refused e)
        | Done (body, source) =>
            let^ patched := request (PatchArchive (sp_DestinationURL req)
              (mkUpload (sp_DestinationCredential req) id offset (x_ArchiveSize source) (x_Checksum source)) body) in
            match patched with
            | NoReply _ =>
                let^ err := request CtxErr in
                match err with Some e => stop (Refused (ErrOther e)) | None => Ret None end
            | Conflict => Ret None
            | BadStatus s => stop (Refused (ErrOther (cat ["destination upload failed: "; s])))
            | Reply destination =>
                if negb (x_Phase destination =? "verified")%string
                then stop (Refused (ErrOther "destination did not verify complete archive"))
                else stop (Done destination)
            end
        end
  end.

Fixpoint push_attempts (attempts : nat) (id credential : string) (req : sourcePushRequest) : N (reply Metadata) :=
  match attempts with
  | O => refuse_with "destination offset remained inconsistent after retries"
  | S attempts =>
      let^ r := push_once id credential req in
      match r with Some r => Ret r | None => push_attempts attempts id credential req end
  end.

(** [valid_destination] is [validatedTransferDestination]: HTTPS, or HTTP to
    the machine itself, and no link-local address. *)
Context (valid_destination : string -> bool).

(* go: beacon/server/transfer_protocol.go func:Server.pushArchive *)
Definition pushArchive (id credential : string) (req : sourcePushRequest) : N (reply Metadata) :=
  if negb (isSafeMigrationID id) then refuse_with "invalid migration ID"
  else if negb (valid_destination (sp_DestinationURL req)) then refuse_with "invalid transfer destination URL"
  else push_attempts 4 id credential req.

(* go: beacon/server/transfer_protocol.go func:Server.pushTransferSource *)
Definition pushTransferSource (id credential : string) (req : sourcePushRequest) : N (reply Metadata) :=
  if (sp_DestinationURL req =? "")%string || (sp_DestinationCredential req =? "")%string
  then refuse_with "destinationUrl and destinationCredential are required"
  else if has_byte zero (sp_DestinationURL req) || has_byte zero (sp_DestinationCredential req) ||
          has_byte zero (sp_IdempotencyKey req)
  then refuse_with "invalid transfer request"
  else
    with_id id
      (if negb (valid_destination (sp_DestinationURL req)) then refuse_with "invalid destinationUrl"
       else pushArchive id credential req).

(* go: beacon/server/transfer_protocol.go func:Server.destinationTransferOffset *)
Definition destinationTransferOffset (id credential : string) : N (reply Z) :=
  with_id id (let/^ meta := DestinationOffset id credential in done (x_Offset meta)).

(* go: beacon/server/transfer_protocol.go func:Server.receiveTransferChunk *)
Definition receiveTransferChunk (u : Upload) (body : Body) : N (reply Metadata) :=
  with_id (up_MigrationID u)
    (if (up_Checksum u =? "")%string || has_byte zero (up_Checksum u) then refuse_with "invalid upload metadata"
     else AppendDestination (up_MigrationID u) (up_Credential u) (up_Offset u) (up_Length u) (up_Checksum u) body).

(* go: beacon/server/transfer_protocol.go func:Server.restoreTransferDestination *)
Definition restoreTransferDestination (id credential : string) : N (reply Metadata) :=
  with_id id (RestoreDestination id credential).

(* go: beacon/server/transfer_protocol.go func:Server.finalizeTransferDestination *)
Definition finalizeTransferDestination (id credential : string) : N (reply unit) :=
  with_id id (FinalizeDestination id credential).

(** A credential of either direction will do, and the outcome is not looked
    at. *)
(* go: beacon/server/transfer_protocol.go func:Server.cancelProtocolTransfer *)
Definition cancelProtocolTransfer (id credential : string) : N (reply unit) :=
  with_id id
    (let^ r := Authorize id DirectionSourceControl credential in
     match r with
     | Done _ => Cancel id ;;/ done tt
     | Refused e =>
         let^ r := Authorize id DirectionDestinationUpload credential in
         match r with Done _ => Cancel id ;;/ done tt | Refused _ => refuse e end
     end).

(** A container that is already gone is as good as deleted. *)
(* go: beacon/server/transfer_protocol.go func:Server.cleanupTransferSource *)
Definition cleanupTransferSource (id credential : string) : N (reply unit) :=
  with_id id
    (let/^ meta := Authorize id DirectionSourceControl credential in
     let^ e := request (DeleteContainer (x_ServerID meta)) in
     match e with
     | Some e => refuse_with (cat ["delete source container: "; e])
     | None => CleanupSource id credential
     end).

(** ** The workload on a node

    The parts of the agent's handlers that touch the container and the data of
    a server: creation makes the directory if there is none, deletion removes
    it. *)
(* go: beacon/server/server.go L982-990 *)
Definition createWorkload (server : string) : N (reply unit) :=
  guard (request (MakeServerDir server)) (guard (request (CreateContainer server)) (done tt)).

(* go: beacon/server/server.go func:Server.delete *)
Definition deleteWorkload (server : string) : N (reply unit) :=
  guard (request (DeleteContainer server))
    (guard (request (RemoveBackups server)) (guard (request (RemoveServerData server)) (done tt))).

Definition startWorkload (server : string) : N (reply unit) :=
  guard (request (StartContainer server)) (done tt).

Definition syncWorkload (server : string) : N (reply unit) :=
  guard (request (ApplyConfiguration server)) (done tt).

Definition inspectWorkload (server : string) : N (reply bool) :=
  value (request (InspectContainer server)) (fun r => done (fst r)).
End Engine.
