(* ===== verification/TransferRequests.v ===== *)
(** * What the handlers of the transfer ask of a machine

    Classes of requests, and that each handler of [Transfer] makes only such
    requests, whatever it is answered. *)
From stdpp Require Import base strings.
From S2P Require Import Prelude GoStrings Programs Transfer.

(** Requests to the machine itself, and those that start nothing. *)
Definition own (X : Type) (e : NodeEff X) : Prop :=
  match e with HeadOffset _ _ _ | PatchArchive _ _ _ => False | _ => True end.

Definition unstarted (X : Type) (e : NodeEff X) : Prop :=
  match e with HeadOffset _ _ _ | PatchArchive _ _ _ | StartContainer _ => False | _ => True end.

(** Requests that touch neither data nor containers. *)
Definition files_only (X : Type) (e : NodeEff X) : Prop :=
  match e with
  | Now | CtxErr | LoadMeta _ _ | SaveMeta _ | IsActive _ | SetActive _ _ | RemoveLeftovers _ | RemoveTransfer _
  | RemoveIncoming _ | RemoveDiscarded _ => True
  | _ => False
  end.

Ltac handler_requests :=
  repeat first
    [ exact I
    | progress unfold with_id, rbind, guard, value, refuse_with, refuse, done, save_and_refuse
    | match goal with
      | |- only _ (pbind _ _) => apply only_bind; [|intros]
      | |- only _ (request _) => apply only_request; exact I
      | |- only _ (Ret _) => exact I
      | |- only _ (match ?x with _ => _ end) => destruct x
      | |- only _ (save _) => unfold save
      | |- only _ (load _ _) => unfold load
      | |- only _ (Authorize _ _ _) => unfold Authorize
      | |- only _ (authorizeLocked _ _ _) => unfold authorizeLocked
      | |- only _ (cancel_direction _ _) => unfold cancel_direction
      | |- only _ (roll_back _ _) => unfold roll_back
      | |- only _ (Cancel _) => unfold Cancel
      | |- only _ (activateWithRollback _ _) => unfold activateWithRollback
      | |- only _ (PrepareSource _ _) => unfold PrepareSource
      | |- only _ (CleanupSource _ _) => unfold CleanupSource
      end ].

Section Requests.
Context {AR : Archives}.

Lemma register_requests reg : only files_only (registerTransferCredential reg).
Proof using Type. unfold registerTransferCredential, Register. handler_requests. Qed.

Lemma finalize_requests i c : only files_only (finalizeTransferDestination i c).
Proof using Type. unfold finalizeTransferDestination, FinalizeDestination. handler_requests. Qed.

Lemma cancel_requests i c : only unstarted (cancelProtocolTransfer i c).
Proof using Type. unfold cancelProtocolTransfer. handler_requests. Qed.

Lemma delete_requests s : only unstarted (deleteWorkload s).
Proof using Type. unfold deleteWorkload. handler_requests. Qed.

Lemma cleanup_requests i c : only unstarted (cleanupTransferSource i c).
Proof using Type. unfold cleanupTransferSource. handler_requests. Qed.

Lemma prepare_requests i c : only own (prepareTransferSource i c).
Proof using Type. unfold prepareTransferSource. handler_requests. Qed.

Lemma restore_requests i c : only own (restoreTransferDestination i c).
Proof using Type. unfold restoreTransferDestination, RestoreDestination. handler_requests. Qed.

Lemma create_requests s : only own (createWorkload s).
Proof using Type. unfold createWorkload. handler_requests. Qed.
Lemma sync_requests s : only own (syncWorkload s).
Proof using Type. unfold syncWorkload. handler_requests. Qed.
Lemma inspect_requests s : only own (inspectWorkload s).
Proof using Type. unfold inspectWorkload. handler_requests. Qed.
Lemma start_requests s : only own (startWorkload s).
Proof using Type. unfold startWorkload. handler_requests. Qed.

Lemma files_own X (e : NodeEff X) : files_only X e -> own X e.
Proof using Type. by destruct e. Qed.
Lemma files_unstarted X (e : NodeEff X) : files_only X e -> unstarted X e.
Proof using Type. by destruct e. Qed.
Lemma unstarted_own X (e : NodeEff X) : unstarted X e -> own X e.
Proof using Type. by destruct e. Qed.

Lemma offset_requests i c : only own (destinationTransferOffset i c).
Proof using Type. unfold destinationTransferOffset, DestinationOffset. handler_requests. Qed.

Lemma archive_requests i c n : only own (SourceArchive i c n).
Proof using Type. unfold SourceArchive. handler_requests. Qed.

Lemma receive_requests u b : only own (receiveTransferChunk u b).
Proof using Type. unfold receiveTransferChunk, AppendDestination, finish_append. handler_requests. Qed.
End Requests.
