(* ===== verification/Evacuation.v ===== *)
(** * Evacuation plans

    [forge/api/internal/services/evacuationplanner/service.go]: where the
    servers of a node could go.  A plan has an item per server, with the node
    chosen for it; what earlier items of the plan take is counted against later
    ones.

    Planning is a program of requests.  The execution of a stored plan is in
    [PlanRun]. *)
From Stdlib Require Import ZArith Lia Ascii Floats.SpecFloat.
From stdpp Require Import base gmap strings list fin_maps.
From coqutil Require Import Datatypes.RecordSettersUsingExistingGetters.
From S2P Require Import Prelude GoStrings GoFloat GoSort Constraints Strategy Engine Replica Programs Capacity Servers ControlPlane Reservations Scheduler ClusterManager.
Import RecordSetNotations1.
#[local] Open Scope string_scope.
#[local] Open Scope list_scope.
#[local] Open Scope Z_scope.
#[local] Open Scope go_scope.

(** ** Data *)

(* go: store/store.go type:EvacuationItem *)
Record EvacuationItem := mkEvacuationItem {
  ei_ID : string;
  ei_PlanID : string;
  ei_ServerID : string;
  ei_SourceNodeID : string;
  ei_TargetNodeID : string;
  ei_Eligible : bool;
  ei_Reason : string;
  ei_MigrationID : string;
  ei_Status : string;
  ei_Error : option string
}.

(* go: store/store.go type:EvacuationPlan *)
Record EvacuationPlan := mkEvacuationPlan {
  ev_ID : string;
  ev_NodeID : string;
  ev_Status : string;
  ev_Items : list EvacuationItem
}.

(* go: services/evacuationplanner/service.go type:CapacityImpact *)
Record CapacityImpact := mkImpact {
  im_AvailableCPUAfter : Z;
  im_AvailableMemoryAfter : Z;
  im_AvailableDiskAfter : Z
}.

(* go: services/evacuationplanner/service.go type:PlanItem *)
Record PlanItem := mkPlanItem {
  pi_Item : EvacuationItem;
  pi_CapacityImpact : option CapacityImpact
}.

(* go: services/evacuationplanner/service.go type:PlanResult *)
Record PlanResult := mkPlanResult {
  pl_Plan : EvacuationPlan;
  pl_Items : list PlanItem;
  pl_Preview : bool
}.

(* go: services/evacuationplanner/service.go L22-27 *)
Inductive ReplacementPolicy := AutoReplace | Protect.
(* go: services/evacuationplanner/service.go L29-35 *)
Inductive StorageLocality := StorageLocalOnly | StorageReplicated | StorageShared.

(** The scheduler, and whether a publisher and a store of mounts are there. *)
(* go: services/evacuationplanner/service.go type:Service *)
Record Planner := mkPlanner {
  ep_scheduler : Scheduler;
  ep_publisher : bool;
  ep_mountStore : bool
}.

(** ** Storage *)

(* go: services/evacuationplanner/service.go func:isNetworkStorage *)
Definition isNetworkStorage (source : string) : bool :=
  Contains source "://" || (Contains source "@" && Contains source ":").

(** The first mount that can be written decides. *)
Fixpoint mounts_locality (mounts : list ServerMount) : StorageLocality :=
  match mounts with
  | [] => StorageReplicated
  | m :: mounts =>
      if negb (sm_Source m =? "")%string && negb (sm_ReadOnly m)
      then if isNetworkStorage (sm_Source m) then StorageShared else StorageLocalOnly
      else mounts_locality mounts
  end.

(* go: services/evacuationplanner/service.go func:Service.ReplacementPolicyForServer *)
Definition ReplacementPolicyForServer (locality : StorageLocality) : ReplacementPolicy :=
  match locality with StorageLocalOnly => Protect | StorageShared | StorageReplicated => AutoReplace end.

Section Planner.
Context (s : Planner).

(* go: services/evacuationplanner/service.go func:Service.publish *)
Definition publish_plan (kind subject : string) : P unit :=
  if ep_publisher s then request (Publish (EventEvacuation kind subject)) else Ret tt.

(** An unreadable server counts as replicated; callers drop the error. *)
(* go: services/evacuationplanner/service.go func:Service.StorageLocality *)
Definition storage_locality (serverID : string) : P StorageLocality :=
  if negb (ep_mountStore s) then Ret StorageReplicated
  else
    let^ r := request (MountsOf serverID) in
    match r with Failed _ => Ret StorageReplicated | Got mounts => Ret (mounts_locality mounts) end.

(** ** Candidates *)

(** What is left on a node after the server came to it.  A total that is not
    known is not checked. *)
(* go: services/evacuationplanner/service.go func:Service.ValidateCapacity *)
Definition ValidateCapacity (nodeID : string) (server : ServerRow) : P (answer CapacityImpact) :=
  let?^ snapshot := ReadCapacity nodeID in
  let impact := mkImpact (ns_AvailableCPU snapshot -i sv_cpu_shares server)
                         (ns_AvailableMemory snapshot -i sv_memory_mb server)
                         (ns_AvailableDisk snapshot -i sv_disk_mb server) in
  if (0 <? ns_TotalCPU snapshot) && (im_AvailableCPUAfter impact <? 0) then fails "cpu capacity exceeded"
  else if (0 <? ns_TotalMemory snapshot) && (im_AvailableMemoryAfter impact <? 0)
  then fails "memory capacity exceeded"
  else if (0 <? ns_TotalDisk snapshot) && (im_AvailableDiskAfter impact <? 0) then fails "disk capacity exceeded"
  else got impact.

(** The index of the first of the highest scores. *)
Fixpoint best_index (i best : nat) (score : spec_float) (rest : list NodeScore) : nat :=
  match rest with
  | [] => best
  | x :: rest => if flt score (no_Score x) then best_index (S i) i (no_Score x) rest
                 else best_index (S i) best score rest
  end.

Definition pop_best (scores : list NodeScore) : option (NodeScore * list NodeScore) :=
  match scores with
  | [] => None
  | x :: rest =>
      let i := best_index 1 0 (no_Score x) rest in
      match scores !! i with Some best => Some (best, take i scores ++ drop (S i) scores) | None => None end
  end.

(** Counted from what the plan left on the node, or from the node itself. *)
(* go: services/evacuationplanner/service.go L508-516 *)
Definition impact_on (server : ServerRow) (impact : CapacityImpact) (reserved : option CapacityImpact)
    : option CapacityImpact :=
  match reserved with
  | None => Some impact
  | Some existing =>
      let impact := mkImpact (im_AvailableCPUAfter existing -i sv_cpu_shares server)
                             (im_AvailableMemoryAfter existing -i sv_memory_mb server)
                             (im_AvailableDiskAfter existing -i sv_disk_mb server) in
      if (im_AvailableCPUAfter impact <? 0) || (im_AvailableMemoryAfter impact <? 0) ||
         (im_AvailableDiskAfter impact <? 0) then None else Some impact
  end.

(** [fuel] is the number of scores: each round drops one. *)
(* go: services/evacuationplanner/service.go L493-522 *)
Fixpoint try_candidates (fuel : nat) (server : ServerRow) (reserved : gmap string CapacityImpact)
    (scores : list NodeScore) (lastReason : string) : P (option (NodeRow * CapacityImpact) * string) :=
  match fuel, pop_best scores with
  | S fuel, Some (best, scores) =>
      let selected := no_Node best in
      let^ r := ValidateCapacity (nd_ID selected) server in
      match r with
      | Failed e => try_candidates fuel server reserved scores (store_error_text e)
      | Got impact =>
          match impact_on server impact (reserved !! nd_ID selected) with
          | None => try_candidates fuel server reserved scores "candidate capacity exhausted by evacuation plan"
          | Some impact => Ret (Some (selected, impact), "candidate selected")
          end
      end
  | _, _ => Ret (None, if (lastReason =? "")%string then "no candidate has enough capacity" else lastReason)
  end.

Definition move_request (server : ServerRow) (source : NodeRow) : PlacementRequest :=
  mkPlacementRequest "" (default "" (nd_RegionID source)) "" "" "" "" "" false "" "" []
    (sv_memory_mb server) 0 (sv_cpu_shares server) (sv_disk_mb server).

(* go: services/evacuationplanner/service.go func:Service.findCandidates *)
Definition findCandidates (server : ServerRow) (source : NodeRow) (candidates : list NodeRow)
    (reserved : gmap string CapacityImpact) : P (option (NodeRow * CapacityImpact) * string) :=
  let req := move_request server source in
  let^ r := FilterNodes (ep_scheduler s) req candidates in
  match r with
  | Failed e => Ret (None, store_error_text e)
  | Got filtered =>
      match filter (fun n => nd_ID n <> nd_ID source) filtered with
      | [] => Ret (None, "no eligible candidate nodes")
      | available =>
          let^ r := ScoreNodes (ep_scheduler s) req available in
          match r with
          | Failed _ | Got [] => Ret (None, "no scored candidate nodes")
          | Got scores => try_candidates (length scores) server reserved scores ""
          end
      end
  end.

(* go: services/evacuationplanner/service.go func:Service.FindCandidates *)
Definition FindCandidates (server : ServerRow) (source : NodeRow) (candidates : list NodeRow)
    : P (option (NodeRow * CapacityImpact) * string) := findCandidates server source candidates ∅.

(** ** Plans *)

Definition item_of (server : ServerRow) (source : NodeRow) (target : string) (eligible : bool) (reason : string)
    : EvacuationItem :=
  mkEvacuationItem "" "" (sv_ID server) (nd_ID source) target eligible reason "" "" None.

(** One server: its item, and what the plan then has on the nodes. *)
(* go: services/evacuationplanner/service.go L562-625 *)
Definition plan_server (source : NodeRow) (nodes : list NodeRow) (reserved : gmap string CapacityImpact)
    (server : ServerRow) : P (PlanItem * gmap string CapacityImpact) :=
  let^ locality := storage_locality (sv_ID server) in
  match locality with
  | StorageLocalOnly =>
      request (Count StorageLocalSkippedTotal) ;;^
      Ret (mkPlanItem (item_of server source "" false "storage locality is local-only; cannot migrate") None, reserved)
  | _ =>
      match ReplacementPolicyForServer locality with
      | Protect =>
          request (Count EvacuationValidationFailuresTotal) ;;^
          Ret (mkPlanItem (item_of server source "" false
                 "replacement policy is protect; manual intervention required") None, reserved)
      | AutoReplace =>
          let^ r := findCandidates server source nodes reserved in
          match r with
          | (Some (selected, impact), reason) =>
              if (nd_ID selected =? "")%string then
                request (Count EvacuationValidationFailuresTotal) ;;^
                Ret (mkPlanItem (item_of server source "" false reason) (Some impact), reserved)
              else
                request (Count EvacuationCandidatesTotal) ;;^
                publish_plan "candidate selected" (sv_ID server) ;;^
                Ret (mkPlanItem (item_of server source (nd_ID selected) true reason) (Some impact),
                     <[nd_ID selected := impact]> reserved)
          | (None, reason) =>
              request (Count EvacuationValidationFailuresTotal) ;;^
              Ret (mkPlanItem (item_of server source "" false reason) None, reserved)
          end
      end
  end.

Fixpoint plan_servers (source : NodeRow) (nodes : list NodeRow) (reserved : gmap string CapacityImpact)
    (servers : list ServerRow) : P (list PlanItem) :=
  match servers with
  | [] => Ret []
  | server :: servers =>
      let^ r := plan_server source nodes reserved server in
      let^ items := plan_servers source nodes (snd r) servers in
      Ret (fst r :: items)
  end.

(* go: services/evacuationplanner/service.go func:evacuationPlanStatus *)
Definition evacuationPlanStatus (items : list PlanItem) : string :=
  match items with
  | [] => "completed"
  | _ => if forallb (fun i => ei_Eligible (pi_Item i)) items then "pending" else "failed"
  end.

(* go: services/evacuationplanner/service.go func:planStoreItems *)
Definition planStoreItems (items : list PlanItem) : list EvacuationItem := map pi_Item items.

(* go: services/evacuationplanner/service.go func:Service.evaluateNode *)
Definition evaluateNode (nodeID : string) (preview : bool) : P (answer PlanResult) :=
  let?^ source := GetNode nodeID in
  let?^ servers := ListServersForNode nodeID in
  let?^ nodes := ListNodes in
  let^ items := plan_servers source nodes ∅ servers in
  got (mkPlanResult (mkEvacuationPlan "" nodeID (evacuationPlanStatus items) (planStoreItems items)) items preview).

(* go: services/evacuationplanner/service.go func:Service.PreviewPlan *)
Definition PreviewPlan (nodeID : string) : P (answer PlanResult) := evaluateNode nodeID true.

(** ** Orphans *)

(* go: services/evacuationplanner/service.go type:OrphanedWorkload *)
Record OrphanedWorkload := mkOrphan {
  or_ServerID : string;
  or_NodeID : string;
  or_Status : string;
  or_StorageLocality : StorageLocality;
  or_ReplacementPolicy : ReplacementPolicy
}.

Fixpoint orphans_of (node : NodeRow) (servers : list ServerRow) : P (list OrphanedWorkload) :=
  match servers with
  | [] => Ret []
  | server :: servers =>
      if (sv_Status server =? "deleted")%string || sv_Suspended server then orphans_of node servers
      else
        let^ locality := storage_locality (sv_ID server) in
        request (Count OrphanDetectionTotal) ;;^
        let^ rest := orphans_of node servers in
        Ret (mkOrphan (sv_ID server) (nd_ID node) (sv_Status server) locality
               (ReplacementPolicyForServer locality) :: rest)
  end.

Fixpoint orphans_on (nodes : list NodeRow) : P (list OrphanedWorkload) :=
  match nodes with
  | [] => Ret []
  | node :: nodes =>
      if ((nd_HeartbeatState node =? "offline") || (nd_HeartbeatState node =? "unreachable"))%string then
        let^ r := ListServersForNode (nd_ID node) in
        match r with
        | Failed _ => orphans_on nodes
        | Got servers =>
            let^ found := orphans_of node servers in
            let^ rest := orphans_on nodes in
            Ret (found ++ rest)
        end
      else orphans_on nodes
  end.

(* go: services/evacuationplanner/service.go func:Service.DetectOrphans *)
Definition DetectOrphans : P (answer (list OrphanedWorkload)) :=
  let^ r := ListNodes in
  match r with
  | Failed e => fails (cat ["list nodes: "; store_error_text e])
  | Got nodes => let^ orphans := orphans_on nodes in got orphans
  end.
End Planner.
