(* ===== verification/EvacuationRules.v ===== *)
(** * Evacuation plans keep to the capacity

    What a plan of [Evacuation] promises: an item for every server, targets
    that were found suitable, and no node given more than was read of it.  The
    choice of a node is the best one that has room. *)
From Stdlib Require Import ZArith Lia Ascii Floats.SpecFloat.
From stdpp Require Import base gmap strings list fin_maps.
From coqutil Require Import Datatypes.RecordSettersUsingExistingGetters.
From S2P Require Import Prelude GoStrings GoFloat GoSort Constraints Strategy Engine Replica Programs Capacity Servers ControlPlane Reservations Scheduler ClusterManager Evacuation.
Import RecordSetNotations1.
#[local] Open Scope string_scope.
#[local] Open Scope list_scope.
#[local] Open Scope Z_scope.
#[local] Open Scope go_scope.

(** ** The best score *)

(** The index found so far holds [score], and no earlier one is higher. *)
Lemma best_index_spec l i best score rest :
  l !! best = Some score -> (best < i)%nat -> drop i l = rest ->
  (forall j x, (j < i)%nat -> l !! j = Some x -> flt (no_Score score) (no_Score x) = false) ->
  exists x, l !! best_index i best (no_Score score) rest = Some x /\
    forall y, y ∈ l -> flt (no_Score x) (no_Score y) = false.
Proof.
  revert i best score. induction rest as [|z rest IH]; intros i best score Hb Hi Hd Hmax; cbn [best_index].
  - exists score. split; [done|]. intros y [j Hj]%list_elem_of_lookup. apply (Hmax j); [|done].
    apply lookup_lt_Some in Hj. assert (length (drop i l) = 0)%nat by (by rewrite Hd). rewrite length_drop in H. lia.
  - assert (Hz : l !! i = Some z) by (rewrite <- (Nat.add_0_r i), <- lookup_drop, Hd; done).
    assert (Hd' : drop (S i) l = rest) by (rewrite <- Nat.add_1_r, <- drop_drop, Hd; done).
    destruct (flt (no_Score score) (no_Score z)) eqn:E.
    + apply (IH (S i) i z); [done|lia|done|]. intros j x Hj Hx. destruct (decide (j = i)) as [->|Hne].
      * rewrite Hz in Hx. injection Hx as <-. apply flt_irrefl.
      * apply not_true_is_false. intros Hlt. pose proof (flt_trans _ _ _ E Hlt) as Ht.
        rewrite (Hmax j x) in Ht; [done|lia|done].
    + apply (IH (S i) best score); [done|lia|done|]. intros j x Hj Hx. destruct (decide (j = i)) as [->|Hne].
      * rewrite Hz in Hx. by injection Hx as <-.
      * apply (Hmax j x); [lia|done].
Qed.

(** The highest score, and what is left. *)
Lemma pop_best_spec scores best rest : pop_best scores = Some (best, rest) ->
  scores ≡ₚ best :: rest /\ forall x, x ∈ scores -> flt (no_Score best) (no_Score x) = false.
Proof.
  unfold pop_best. destruct scores as [|x l]; [done|].
  destruct (best_index_spec (x :: l) 1 0 x l eq_refl ltac:(lia) eq_refl) as (b & Hb & Hmax).
  { intros [|j] y Hj Hy; [injection Hy as <-; apply flt_irrefl|lia]. }
  rewrite Hb. intros [= <- <-]. split; [|exact Hmax].
  rewrite <- (take_drop_middle _ _ _ Hb) at 1. symmetry. apply Permutation_middle.
Qed.

Lemma pop_best_some scores : scores <> [] -> exists best rest, pop_best scores = Some (best, rest).
Proof.
  unfold pop_best. destruct scores as [|x l]; [done|]. intros _.
  destruct (best_index_spec (x :: l) 1 0 x l eq_refl ltac:(lia) eq_refl) as (b & Hb & _).
  { intros [|j] y Hj Hy; [injection Hy as <-; apply flt_irrefl|lia]. }
  rewrite Hb. by eexists _, _.
Qed.

(** ** The search for a candidate *)

Definition impact_after (r : resource) : CapacityImpact -> Z :=
  match r with Cpu => im_AvailableCPUAfter | Memory => im_AvailableMemoryAfter | Disk => im_AvailableDiskAfter end.
Definition snapshot_total (r : resource) : NodeCapacitySnapshot -> Z :=
  match r with Cpu => ns_TotalCPU | Memory => ns_TotalMemory | Disk => ns_TotalDisk end.
Definition snapshot_available (r : resource) : NodeCapacitySnapshot -> Z :=
  match r with Cpu => ns_AvailableCPU | Memory => ns_AvailableMemory | Disk => ns_AvailableDisk end.

(** What is left of a node, read as [c], when the server goes there. *)
Definition left_on (server : ServerRow) (c : NodeCapacitySnapshot) : CapacityImpact :=
  mkImpact (ns_AvailableCPU c -i sv_cpu_shares server) (ns_AvailableMemory c -i sv_memory_mb server)
    (ns_AvailableDisk c -i sv_disk_mb server).

(** No known total is exceeded. *)
Definition room_on (server : ServerRow) (c : NodeCapacitySnapshot) : Prop :=
  forall r, 0 < snapshot_total r c -> 0 <= impact_after r (left_on server c).

Section Rules.
Context (s : Planner).

Lemma validate_got node server tr im : returns (ValidateCapacity node server) tr (Got im) ->
  exists c, tr = [answered (capacity_read node) (Got c)] /\ room_on server c /\ im = left_on server c.
Proof.
  unfold ValidateCapacity, ReadCapacity. intros H. run.
  match goal with H : returns (if _ then _ else _) _ _ |- _ => rename H into Hr end. revert Hr. cbn [im_AvailableCPUAfter im_AvailableMemoryAfter im_AvailableDiskAfter].
  destruct (_ && _) eqn:E1; [by intros [_ ?]%returns_ret|]. destruct (_ && _) eqn:E2 in |- *; [by intros [_ ?]%returns_ret|].
  destruct (_ && _) eqn:E3 in |- *; [by intros [_ ?]%returns_ret|]. intros [-> [= <-]]%returns_ret.
  eexists. split; [reflexivity|]. split; [|done]. intros [] Ht; cbn in *; unfold left_on; cbn; lia.
Qed.

Lemma validate_failed node server tr e : returns (ValidateCapacity node server) tr (Failed e) ->
  exists a, tr = [answered (capacity_read node) a] /\ forall c, a = Got c -> ~ room_on server c.
Proof.
  unfold ValidateCapacity, ReadCapacity. intros H. apply returns_bind in H as (a & tr1 & tr2 & -> & H1 & H2).
  apply returns_one in H1 as ->. exists a. destruct a as [c|e']; [|apply returns_ret in H2 as [-> _]; by split].
  cbn [im_AvailableCPUAfter im_AvailableMemoryAfter im_AvailableDiskAfter] in H2.
  revert H2.
  destruct ((0 <? ns_TotalCPU c) && _) eqn:E1; [intros [-> _]%returns_ret; split; [done|]; intros c' [= <-] Hr; specialize (Hr Cpu); cbn in Hr; lia|].
  destruct ((0 <? ns_TotalMemory c) && _) eqn:E2; [intros [-> _]%returns_ret; split; [done|]; intros c' [= <-] Hr; specialize (Hr Memory); cbn in Hr; lia|].
  destruct ((0 <? ns_TotalDisk c) && _) eqn:E3; [intros [-> _]%returns_ret; split; [done|]; intros c' [= <-] Hr; specialize (Hr Disk); cbn in Hr; lia|].
  by intros [_ ?]%returns_ret.
Qed.

(** A candidate was tried and had no room, by itself or with what the plan has
    given it already. *)
Definition refused_by (server : ServerRow) (reserved : gmap string CapacityImpact) (tr : list (exchange Eff)) (y : NodeScore) : Prop :=
  exists a, happened (capacity_read (nd_ID (no_Node y))) a tr /\
    forall c, a = Got c -> ~ room_on server c \/ impact_on server (left_on server c) (reserved !! nd_ID (no_Node y)) = None.

Lemma refused_more server reserved tr tr' y : tr ⊆ tr' -> refused_by server reserved tr y -> refused_by server reserved tr' y.
Proof. intros Hs (a & H & Ha). exists a. split; [by apply Hs|done]. Qed.

(** One candidate of the search. *)
Lemma try_one fuel server reserved best rest scores reason tr r : pop_best scores = Some (best, rest) ->
  returns (try_candidates (S fuel) server reserved scores reason) tr r ->
  (exists c im, tr = [answered (capacity_read (nd_ID (no_Node best))) (Got c)] /\ room_on server c /\
     impact_on server (left_on server c) (reserved !! nd_ID (no_Node best)) = Some im /\
     fst r = Some (no_Node best, im)) \/
  (exists a tr' reason', tr = answered (capacity_read (nd_ID (no_Node best))) a :: tr' /\
     refused_by server reserved [answered (capacity_read (nd_ID (no_Node best))) a] best /\
     returns (try_candidates fuel server reserved rest reason') tr' r).
Proof.
  intros Hp H. cbn [try_candidates] in H. rewrite Hp in H. apply returns_bind in H as ([im|e] & tr1 & tr2 & -> & H1 & H2).
  - apply validate_got in H1 as (c & -> & Hroom & ->).
    destruct (impact_on _ _ _) as [im|] eqn:Ei; [left|right].
    + apply returns_ret in H2 as [-> <-]. by exists c, im.
    + exists (Got c), tr2. eexists. split; [done|]. split; [|exact H2]. exists (Got c). split; [apply happened_head|].
      intros c' [= <-]. by right.
  - apply validate_failed in H1 as (a & -> & Hno). right. exists a, tr2. eexists. split; [done|]. split; [|exact H2].
    exists a. split; [apply happened_head|]. intros c Hc. left. by apply Hno.
Qed.

Lemma try_mono f1 f2 server reserved best rest scores reason : pop_best scores = Some (best, rest) ->
  (forall reason tr r, returns (try_candidates f1 server reserved rest reason) tr r ->
     returns (try_candidates f2 server reserved rest reason) tr r) ->
  forall tr r, returns (try_candidates (S f1) server reserved scores reason) tr r ->
    returns (try_candidates (S f2) server reserved scores reason) tr r.
Proof.
  intros Hp Hf tr r H. cbn [try_candidates] in *. rewrite Hp in *.
  apply returns_bind in H as (a & tr1 & tr2 & -> & H1 & H2). eapply returns_bind_back; [exact H1|]. revert H2.
  destruct a as [im|e]; [destruct (impact_on _ _ _); [done|apply Hf]|apply Hf].
Qed.

(** C18: The search tries the candidates from the highest score down and takes
    the first that has room: those before it were refused, none of those after
    it has a higher score, and with none chosen all were refused.  It ends with
    at most one read per candidate, and more rounds than candidates change
    nothing. *)
Theorem candidates_best_first server reserved scores reason extra tr r :
  returns (try_candidates (length scores + extra) server reserved scores reason) tr r ->
  returns (try_candidates (length scores) server reserved scores reason) tr r /\ (length tr <= length scores)%nat /\
  exists tried rest, scores ≡ₚ tried ++ rest /\ (forall y, y ∈ tried -> refused_by server reserved tr y) /\
    (forall y z, y ∈ tried -> z ∈ rest -> flt (no_Score y) (no_Score z) = false) /\
    match fst r with
    | None => rest = []
    | Some (selected, impact) => exists x rest' c, rest = x :: rest' /\ selected = no_Node x /\
        (forall z, z ∈ rest' -> flt (no_Score x) (no_Score z) = false) /\
        happened (capacity_read (nd_ID selected)) (Got c) tr /\ room_on server c /\
        impact_on server (left_on server c) (reserved !! nd_ID selected) = Some impact
    end.
Proof.
  remember (length scores) as n eqn:En. revert scores reason tr r En.
  induction n as [|n IH]; intros scores reason tr r En H; destruct scores as [|x0 scores0]; try discriminate En.
  { assert (Hr : tr = [] /\ fst r = None) by (destruct extra; cbn in H; apply returns_ret in H as [-> <-]; done).
    destruct Hr as [-> Hr]. split; [by destruct extra|]. split; [done|]. exists [], []. rewrite Hr.
    split_and!; [done|by intros y ?%elem_of_nil|by intros y z ?%elem_of_nil|done]. }
  destruct (pop_best_some (x0 :: scores0) ltac:(done)) as (best & rest & Hp).
  destruct (pop_best_spec _ _ _ Hp) as [Hperm Hmax].
  assert (Hn : n = length rest) by (apply Permutation_length in Hperm; cbn in *; lia).
  split; [revert H; apply (try_mono _ _ _ _ _ _ _ _ Hp); intros reason' tr' r' H'; exact (proj1 (IH rest reason' tr' r' Hn H'))|].
  pose proof (try_one _ _ _ _ _ _ _ _ _ Hp H) as [(c & im & -> & Hroom & Him & Hr)|(a & tr' & reason' & -> & Href & H')].
  - split; [cbn; lia|]. exists [], (best :: rest). rewrite Hr. split_and!; [done|by intros y ?%elem_of_nil|by intros y z ?%elem_of_nil|].
    exists best, rest, c. split_and!; [done|done| |apply happened_head|done|done].
    intros z Hz. apply Hmax. rewrite Hperm. by right.
  - destruct (IH rest reason' tr' r Hn H') as (_ & Hlen & tried & rest' & Hperm' & Htried & Hle & Hend).
    split; [cbn; lia|]. exists (best :: tried), rest'.
    assert (Hin : forall z, z ∈ rest' -> flt (no_Score best) (no_Score z) = false).
    { intros z Hz. apply Hmax. rewrite Hperm, Hperm'. right. apply elem_of_app. by right. }
    split_and!.
    + by rewrite Hperm, Hperm'.
    + intros y [->|Hy]%elem_of_cons; [eapply refused_more; [|exact Href]|eapply refused_more; [|by apply Htried]];
        intros ev Hev; [apply list_elem_of_singleton in Hev as ->; left|by right].
    + intros y z [->|Hy]%elem_of_cons Hz; [by apply Hin|by apply Hle].
    + destruct (fst r) as [[sel im]|]; [|done]. destruct Hend as (x & rest2 & c & -> & -> & Hx & Hh & Hroom & Him).
      exists x, rest2, c. split_and!; try done. by apply happened_cons.
Qed.
End Rules.

(** ** A whole plan *)

Section Plans.
Context (s : Planner).

Lemma try_got fuel server reserved scores reason tr sel im msg :
  returns (try_candidates fuel server reserved scores reason) tr (Some (sel, im), msg) ->
  exists x c, x ∈ scores /\ sel = no_Node x /\ happened (capacity_read (nd_ID sel)) (Got c) tr /\ room_on server c /\
    impact_on server (left_on server c) (reserved !! nd_ID sel) = Some im.
Proof.
  revert scores reason tr. induction fuel as [|fuel IH]; intros scores reason tr H; [by apply returns_ret in H as [_ ?]|].
  destruct (pop_best scores) as [[best rest]|] eqn:Hp; [|cbn [try_candidates] in H; rewrite Hp in H; by apply returns_ret in H as [_ ?]].
  pose proof (pop_best_spec _ _ _ Hp) as [Hperm _].
  pose proof (try_one _ _ _ _ _ _ _ _ _ Hp H) as [(c & im' & -> & Hroom & Him & Hr)|(a & tr' & reason' & -> & _ & H')].
  - injection Hr as -> ->. exists best, c. split_and!; [rewrite Hperm; left|done|apply happened_head|done|done].
  - destruct (IH _ _ _ H') as (x & c & Hx & -> & Hh & Hrest). exists x, c.
    split_and!; [rewrite Hperm; by right|done|by apply happened_cons|apply Hrest..].
Qed.

(** The node found for a server: another one, that the filter kept, with room. *)
Record found (source : NodeRow) (nodes : list NodeRow) (server : ServerRow) (reserved : gmap string CapacityImpact)
    (tr : list (exchange Eff)) (sel : NodeRow) (im : CapacityImpact) : Prop := {
  fo_node : sel ∈ nodes;
  fo_other : nd_ID sel <> nd_ID source;
  fo_suitable : exists regions, happened regions_read (Got regions) tr /\
    suitable (normalizeRequest (move_request server source)) regions sel;
  fo_room : exists c, happened (capacity_read (nd_ID sel)) (Got c) tr /\ room_on server c /\
    impact_on server (left_on server c) (reserved !! nd_ID sel) = Some im
}.

Lemma find_found source nodes server reserved tr sel im msg :
  returns (findCandidates s server source nodes reserved) tr (Some (sel, im), msg) ->
  found source nodes server reserved tr sel im.
Proof.
  unfold findCandidates. intros H. apply returns_bind in H as ([l|e] & tr1 & tr2 & -> & H1 & H); [|by apply returns_ret in H as [_ ?]].
  destruct (filter _ l) as [|x0 available] eqn:Ef; [by apply returns_ret in H as [_ ?]|].
  apply returns_bind in H as ([[|x scores]|e] & tr3 & tr4 & -> & H2 & H); [by apply returns_ret in H as [_ ?]| |by apply returns_ret in H as [_ ?]].
  apply try_got in H as (y & c & Hy & -> & Hh & Hroom & Him).
  pose proof (scored_nodes _ _ _ _ _ _ H2 Hy) as Hin. rewrite <- Ef in Hin. apply list_elem_of_filter in Hin as [Hne Hin].
  destruct (filter_nodes _ _ _ _ _ _ H1 Hin) as (Hnode & (regions & Hreg & Hsuit) & _). split; [done|done| |].
  - exists regions. split; [|exact Hsuit]. apply happened_app. by left.
  - exists c. split; [|done]. apply happened_app. right. apply happened_app. by right.
Qed.

Lemma plan_server_item source nodes reserved server tr item reserved' :
  returns (plan_server s source nodes reserved server) tr (item, reserved') ->
  ei_ServerID (pi_Item item) = sv_ID server /\
  if ei_Eligible (pi_Item item)
  then exists sel im, found source nodes server reserved tr sel im /\ ei_TargetNodeID (pi_Item item) = nd_ID sel /\
         reserved' = <[nd_ID sel := im]> reserved
  else reserved' = reserved.
Proof.
  unfold plan_server. intros H. apply returns_bind in H as (l & tr1 & tr2 & -> & _ & H).
  assert (Hauto : returns (let^ r := findCandidates s server source nodes reserved in
          match r with
          | (Some (selected, impact), reason) =>
              if (nd_ID selected =? "")%string then
                request (Count EvacuationValidationFailuresTotal) ;;^
                Ret (mkPlanItem (item_of server source "" false reason) (Some impact), reserved)
              else
                request (Count EvacuationCandidatesTotal) ;;^
                publish_plan s "candidate selected" (sv_ID server) ;;^
                Ret (mkPlanItem (item_of server source (nd_ID selected) true reason) (Some impact),
                     <[nd_ID selected := impact]> reserved)
          | (None, reason) =>
              request (Count EvacuationValidationFailuresTotal) ;;^
              Ret (mkPlanItem (item_of server source "" false reason) None, reserved)
          end) tr2 (item, reserved') -> ei_ServerID (pi_Item item) = sv_ID server /\
  if ei_Eligible (pi_Item item)
  then exists sel im, found source nodes server reserved (tr1 ++ tr2) sel im /\ ei_TargetNodeID (pi_Item item) = nd_ID sel /\
         reserved' = <[nd_ID sel := im]> reserved
  else reserved' = reserved).
  { clear H. intros H. apply returns_bind in H as ([[[sel im]|] msg] & tr3 & tr4 & -> & H1 & H); [|by run; simplify_eq].
    destruct (nd_ID sel =? "")%string; run; simplify_eq; (split; [done|]); [done|]. cbn.
    exists sel, im. split; [|done]. apply find_found in H1 as [A1 A2 (rs & A3 & A4) (c & A5 & A6)].
    split; [done|done|exists rs|exists c]; (split; [|done]); rewrite !happened_app_iff; auto. }
  destruct l; [run; simplify_eq; done|exact (Hauto H)..].
Qed.

(** What the plan gives to the node [n]. *)
Definition given (r : resource) (n : string) (servers : list ServerRow) (items : list PlanItem) : Z :=
  sum_by (fun p => if ei_Eligible (pi_Item p.2) && (ei_TargetNodeID (pi_Item p.2) =? n)%string then server_use r p.1 else 0)
    (zip servers items).

Definition small (v : ServerRow) : Prop := forall r, 0 <= server_use r v <= 2147483647.

(** What is recorded of a node is what was read of it less what was given. *)
Record accounts (cap : string -> NodeCapacitySnapshot) (reserved : gmap string CapacityImpact) (used : string -> resource -> Z) : Prop := {
  ac_recorded n im : reserved !! n = Some im -> forall r,
    impact_after r im = snapshot_available r (cap n) - used n r /\ -2147483647 <= impact_after r im <= max64 /\
    (0 < snapshot_total r (cap n) -> 0 <= impact_after r im);
  ac_untouched n : reserved !! n = None -> forall r, used n r = 0
}.

Lemma left_exact server c : small server -> (forall r, 0 <= snapshot_available r c <= max64) -> forall r,
  impact_after r (left_on server c) = snapshot_available r c - server_use r server.
Proof.
  intros Hs Hc r. specialize (Hs r). specialize (Hc r). unfold max64 in Hc.
  destruct r; cbn in *; (rewrite isub_exact; [done|unfold in64, min64, max64; lia]).
Qed.

Lemma accounts_give cap reserved used server node im : accounts cap reserved used -> small server ->
  (forall n r, 0 <= snapshot_available r (cap n) <= max64) -> room_on server (cap node) ->
  impact_on server (left_on server (cap node)) (reserved !! node) = Some im ->
  accounts cap (<[node := im]> reserved) (fun n r => used n r + if (node =? n)%string then server_use r server else 0).
Proof.
  intros [Hr Hu] Hs Hav Hroom Him. pose proof (left_exact server (cap node) Hs (Hav node)) as Hl.
  assert (Hnew : forall r, impact_after r im = snapshot_available r (cap node) - (used node r + server_use r server) /\
    -2147483647 <= impact_after r im <= max64 /\ (0 < snapshot_total r (cap node) -> 0 <= impact_after r im)).
  { destruct (reserved !! node) as [ex|] eqn:Ex; cbn [impact_on] in Him.
    - set (im2 := mkImpact _ _ _) in Him. destruct (_ || _ || _) eqn:E; [done|]. injection Him as <-.
      assert (H2 : forall r, impact_after r im2 = impact_after r ex - server_use r server).
      { intros r. destruct (Hr node ex Ex r) as (_ & Hb & _). specialize (Hs r). unfold im2, max64 in *.
        destruct r; cbn in *; (rewrite isub_exact; [done|unfold in64, min64, max64; lia]). }
      intros r. rewrite H2. destruct (Hr node ex Ex r) as (-> & Hb & _). specialize (Hs r). 
      assert (H : 0 <= impact_after r im2) by (apply orb_false_iff in E as [[? ?]%orb_false_iff ?]; zb; by destruct r).
      rewrite H2 in H.
      destruct (Hr node ex Ex r) as (E1 & _). split_and!; lia.
    - injection Him as <-. intros r. rewrite (Hu node Ex r), Hl. specialize (Hs r). specialize (Hav node r).
      split_and!; [lia|lia|lia|]. intros Ht. rewrite <- Hl. by apply Hroom. }
  split.
  - intros n i. destruct (decide (n = node)) as [->|Hne].
    + rewrite lookup_insert_eq. intros [= <-] r. rewrite String.eqb_refl. apply Hnew.
    + rewrite lookup_insert_ne by done. intros Hi r. rewrite (proj2 (String.eqb_neq node n)) by done.
      rewrite Z.add_0_r. by apply Hr.
  - intros n. destruct (decide (n = node)) as [->|Hne]; [by rewrite lookup_insert_eq|].
    rewrite lookup_insert_ne by done. intros Hi r. rewrite (proj2 (String.eqb_neq node n)) by done. by rewrite (Hu n Hi r).
Qed.

(** What an item says of its server. *)
Definition item_for (source : NodeRow) (nodes : list NodeRow) (tr : list (exchange Eff)) (server : ServerRow) (item : PlanItem) : Prop :=
  ei_ServerID (pi_Item item) = sv_ID server /\
  (ei_Eligible (pi_Item item) = true -> exists sel regions, sel ∈ nodes /\ ei_TargetNodeID (pi_Item item) = nd_ID sel /\
     nd_ID sel <> nd_ID source /\ happened regions_read (Got regions) tr /\
     suitable (normalizeRequest (move_request server source)) regions sel).

Lemma item_for_more source nodes tr tr' server item : tr ⊆ tr' -> item_for source nodes tr server item -> item_for source nodes tr' server item.
Proof.
  intros Hs [H1 H2]. split; [done|]. intros He. destruct (H2 He) as (sel & rs & A1 & A2 & A3 & A4 & A5).
  exists sel, rs. split_and!; try done. by apply Hs.
Qed.

Lemma plan_servers_sound cap source nodes reserved used servers tr items :
  (forall n r, 0 <= snapshot_available r (cap n) <= max64) ->
  accounts cap reserved used -> (forall v, v ∈ servers -> small v) ->
  (forall n c, happened (capacity_read n) (Got c) tr -> c = cap n) ->
  returns (plan_servers s source nodes reserved servers) tr items ->
  Forall2 (item_for source nodes tr) servers items /\
  forall n r, 0 < snapshot_total r (cap n) -> used n r + given r n servers items <= snapshot_available r (cap n).
Proof.
  intros Hav. revert reserved used tr items. induction servers as [|v servers IH]; intros reserved used tr items Hac Hsm Hcap H.
  { apply returns_ret in H as [-> <-]. split; [done|]. intros n r Ht. cbn. rewrite Z.add_0_r.
    destruct (reserved !! n) as [im|] eqn:E; [|by rewrite (ac_untouched _ _ _ Hac n E); apply Hav].
    destruct (ac_recorded _ _ _ Hac n im E r) as (E1 & _ & E2). specialize (E2 Ht). lia. }
  cbn [plan_servers] in H. apply returns_bind in H as ([item reserved'] & tr1 & tr2 & -> & H1 & H).
  apply returns_bind in H as (rest & tr3 & tr4 & -> & H2 & H). apply returns_ret in H as [-> <-]. cbn [snd fst] in *.
  rewrite app_nil_r in *. apply plan_server_item in H1 as [Hid Hit].
  assert (Hcap3 : forall n c, happened (capacity_read n) (Got c) tr3 -> c = cap n)
    by (intros n c Hh; apply Hcap, happened_app; by right).
  assert (Hsm' : forall v, v ∈ servers -> small v) by (intros x Hx; apply Hsm; by right).
  destruct (ei_Eligible (pi_Item item)) eqn:Ee.
  - destruct Hit as (sel & im & [F1 F2 (rs & F3 & F4) (c & F5 & F6 & F7)] & Ht & ->).
    assert (c = cap (nd_ID sel)) as -> by (apply Hcap, happened_app; by left).
    pose proof (accounts_give cap reserved used v (nd_ID sel) im Hac (Hsm v ltac:(left)) Hav F6 F7) as Hac'.
    destruct (IH _ _ _ _ Hac' Hsm' Hcap3 H2) as [HF Hg]. split.
    + constructor; [|eapply Forall2_impl; [exact HF|]; intros; eapply item_for_more; [|done]; set_solver].
      split; [done|]. intros _. exists sel, rs. split_and!; try done. apply happened_app. by left.
    + intros n r Htot. specialize (Hg n r Htot). unfold given in *. cbn [zip_with sum_by foldr fst snd].
      unfold sum_by in *. rewrite Ee, Ht. cbn [andb]. lia.
  - subst reserved'. destruct (IH _ _ _ _ Hac Hsm' Hcap3 H2) as [HF Hg]. split.
    + constructor; [|eapply Forall2_impl; [exact HF|]; intros; eapply item_for_more; [|done]; set_solver].
      split; [done|]. by rewrite Ee.
    + intros n r Htot. specialize (Hg n r Htot). unfold given in *. cbn [zip_with sum_by foldr fst snd].
      unfold sum_by in *. rewrite Ee. cbn [andb]. lia.
Qed.

Definition servers_read (nodeID : string) : Eff (answer (list ServerRow)) :=
  Read (fun _ db => Got (map listed (isort newest_server (filter (fun s => sv_NodeID s = nodeID) (values (db_servers db)))))).

(** C11: A plan has one item for each server of the node, in their order.  An
    eligible item names another node that the scheduler's filter kept, and all
    the servers that a node is to take fit together into what was read of it,
    in every resource it has a total for. *)
Theorem plan_never_overcommits nodeID preview tr plan cap :
  returns (evaluateNode s nodeID preview) tr (Got plan) ->
  (forall n c, happened (capacity_read n) (Got c) tr -> c = cap n) ->
  (forall n r, 0 <= snapshot_available r (cap n) <= max64) ->
  (forall servers, happened (servers_read nodeID) (Got servers) tr -> forall v, v ∈ servers -> small v) ->
  exists source servers nodes, happened (servers_read nodeID) (Got servers) tr /\ happened nodes_read (Got nodes) tr /\
    Forall2 (item_for source nodes tr) servers (pl_Items plan) /\
    forall n r, 0 < snapshot_total r (cap n) -> given r n servers (pl_Items plan) <= snapshot_available r (cap n).
Proof.
  intros H Hcap Hav Hsm. unfold evaluateNode, GetNode, ListServersForNode, ListNodes in H. run.
  match goal with H : returns (plan_servers _ ?a ?b _ ?c) _ ?i |- _ =>
    rename a into source; rename b into nodes; rename c into servers; rename i into items; rename H into Hp end; match type of Hp with returns _ ?t _ => rename t into tr0 end.
  rewrite app_nil_r in *. cbn [app] in *.
  exists source, servers, nodes. split; [apply happened_cons, happened_head|]. split; [do 2 apply happened_cons; apply happened_head|].
  cbn [pl_Items].
  assert (H0 : accounts cap ∅ (fun _ _ => 0)) by (by split; [intros n im Hn; rewrite lookup_empty in Hn|]).
  assert (H1 : forall v, v ∈ servers -> small v)
    by (intros v Hv; eapply Hsm; [|exact Hv]; apply happened_cons, happened_head).
  destruct (plan_servers_sound cap source nodes ∅ (fun _ _ => 0) servers tr0 items Hav H0 H1) as [HF Hg]; [|exact Hp|].
  - intros n c Hh. apply Hcap. by do 3 apply happened_cons.
  - split; [|intros n r Ht; by apply Hg]. eapply Forall2_impl; [exact HF|]. intros v i Hi.
    eapply item_for_more; [|exact Hi]. set_solver.
Qed.
End Plans.

(** ** Two plans on the example tables *)

(** What a read answers in fixed tables. *)
Definition read_of (now : Time) (db : Db) (ev : exchange Eff) : Prop :=
  match ev with
  | existT X (e, x) => match e in Eff X return X -> Prop with Read q => fun x => x = q now db | _ => fun _ => True end x
  end.

Lemma quiet_reads on_node control provision entry {A} (p : prog Eff A) w : only quiet p ->
  Forall (read_of (w_now w) (w_db w)) (trace_alone (serve on_node control provision entry) p w).
Proof.
  unfold trace_alone. revert w. induction p as [a|X e k IH]; intros w Ho; [constructor|]. destruct Ho as [He Hk].
  cbn [run_alone]. specialize (IH (fst (serve on_node control provision entry X e w)) (snd (serve on_node control provision entry X e w)) (Hk _)).
  assert (Hw : w_now (snd (serve on_node control provision entry X e w)) = w_now w /\ w_db (snd (serve on_node control provision entry X e w)) = w_db w)
    by (destruct e; done).
  destruct Hw as [E1 E2]. rewrite E1, E2 in IH. destruct (run_alone _ _ _) as [[tr a] w']. constructor; [|exact IH].
  by destruct e.
Qed.

Lemma happened_read {A} (q : Time -> Db -> answer A) x now db tr : Forall (read_of now db) tr -> happened (Read q) x tr -> x = q now db.
Proof. intros Hf Hh. rewrite Forall_forall in Hf. exact (Hf _ Hh). Qed.

Section Quiet.
Context (s : Planner).

Lemma try_quiet fuel server reserved scores reason : only quiet (try_candidates fuel server reserved scores reason).
Proof.
  revert scores reason. induction fuel as [|fuel IH]; intros scores reason; cbn [try_candidates]; [done|].
  destruct (pop_best scores) as [[best rest]|]; [|done]. apply only_bind.
  - unfold ValidateCapacity, ReadCapacity. split; [done|]. intros [c|e]; [|done]. cbn. by repeat case_match.
  - intros [im|e]; [destruct (impact_on _ _ _); [done|apply IH]|apply IH].
Qed.

Lemma plan_server_quiet source nodes reserved server : only quiet (plan_server s source nodes reserved server).
Proof.
  unfold plan_server. apply only_bind.
  { unfold storage_locality. destruct (negb _); [done|]. split; [done|]. by intros [l|e]. }
  assert (Hc : only quiet (findCandidates s server source nodes reserved)).
  { unfold findCandidates. apply only_bind; [apply FilterNodes_quiet|]. intros [l|e]; [|done].
    destruct (filter _ l) as [|x0 l']; [done|]. apply only_bind; [apply ScoreNodes_quiet|].
    intros [[|x scores]|e]; [done|apply try_quiet|done]. }
  assert (Hp : forall k, only quiet (publish_plan s k (sv_ID server))) by (intros k; unfold publish_plan; by case_match).
  intros l; destruct l; [by split|..]; (apply only_bind; [exact Hc|]; intros [[[sel im]|] msg]; [case_match|]; try (by split));
    (split; [done|]; intros u; apply only_bind; [done|]; intros u2; apply only_bind; [apply Hp|done]).
Qed.

Lemma evaluate_quiet node preview : only quiet (evaluateNode s node preview).
Proof.
  unfold evaluateNode. split; [done|]. intros [source|e]; [|done]. split; [done|]. intros [servers|e]; [|done].
  split; [done|]. intros [nodes|e]; [|done]. cbn [pbind]. apply only_bind; [|by intros].
  generalize (∅ : gmap string CapacityImpact) as reserved. induction servers as [|v servers IH]; intros reserved; [done|].
  cbn [plan_servers]. apply only_bind; [apply plan_server_quiet|]. intros r. apply only_bind; [apply IH|by intros].
Qed.
End Quiet.

Definition example_planner : Planner := mkPlanner example_scheduler false false.
Definition example_evacuation : prog Eff (answer PlanResult) := evaluateNode example_planner "a" true.
Definition example_cap (n : string) : NodeCapacitySnapshot :=
  match nodeCapacitySnapshotTx n 600 example_db example_db with
  | Got c => c | Failed _ => mkSnapshot n "" 0 0 0 0 0 0 0 0 0 0 0 end.

Lemma example_cap_known n : n <> "a" -> n <> "b" -> example_cap n = mkSnapshot n "" 0 0 0 0 0 0 0 0 0 0 0.
Proof. intros Ha Hb. unfold example_cap, nodeCapacitySnapshotTx. cbn. by rewrite !lookup_insert_ne. Qed.

Lemma example_cap_available n r : 0 <= snapshot_available r (example_cap n) <= max64.
Proof.
  destruct (decide (n = "a")) as [->|Ha]; [destruct r; by vm_compute|].
  destruct (decide (n = "b")) as [->|Hb]; [destruct r; by vm_compute|].
  rewrite example_cap_known by done. destruct r; by vm_compute.
Qed.

(** The server of [a] goes to [b], which has room for it. *)
Lemma plan_never_overcommits_witness :
  exists plan, answer_alone example_serve example_evacuation example_world = Got plan /\
    (ei_TargetNodeID ∘ pi_Item <$> pl_Items plan) = ["b"] /\
    given Memory "b" [listed example_server] (pl_Items plan) <= snapshot_available Memory (example_cap "b").
Proof.
  pose proof (returns_alone example_serve example_evacuation example_world) as H.
  pose proof (quiet_reads (fun _ _ _ => Err "no node") (fun _ => Failed ErrNoRows) (fun _ => Failed ErrNoRows) entered
    example_evacuation example_world (evaluate_quiet example_planner "a" true)) as Hq.
  change (serve _ _ _ _) with example_serve in Hq. set (tr := trace_alone _ _ _) in *. clearbody tr.
  destruct (answer_alone example_serve example_evacuation example_world) as [plan|e] eqn:E; [|vm_compute in E; discriminate E].
  exists plan. split; [done|].
  assert (Es : forall servers, happened (servers_read "a") (Got servers) tr -> servers = [listed example_server])
    by (intros servers Hs; apply (happened_read _ _ _ _ _ Hq) in Hs; vm_compute in Hs; by injection Hs).
  destruct (plan_never_overcommits example_planner "a" true tr plan example_cap H) as (source & servers & nodes & Hs & _ & _ & Hg).
  - intros n c Hh. apply (happened_read _ _ _ _ _ Hq) in Hh. unfold example_cap.
    change (w_now example_world) with 600 in Hh. change (w_db example_world) with example_db in Hh. rewrite <- Hh. reflexivity.
  - apply example_cap_available.
  - intros servers Hs. rewrite (Es servers Hs). intros v [->|[]%elem_of_nil]%elem_of_cons. intros []; cbn; lia.
  - rewrite (Es servers Hs) in Hg. split; [vm_compute in E; injection E as <-; reflexivity|]. by apply Hg.
Defined.

(** Two candidates: the one with the higher score has no room. *)
Definition example_scores : list NodeScore :=
  [mkNodeScore (example_node "b" "eu" 4096) (of_int 1) ""; mkNodeScore (example_node "a" "eu" 8192) (of_int 2) ""].
Definition large_server : ServerRow := example_server <| sv_disk_mb := 96000 |>.
Definition example_search : prog Eff (option (NodeRow * CapacityImpact) * string) :=
  try_candidates (length example_scores + 3) large_server ∅ example_scores "".

Lemma candidates_best_first_witness :
  exists tried rest x im, example_scores ≡ₚ tried ++ x :: rest /\
    fst (answer_alone example_serve example_search example_world) = Some (no_Node x, im) /\ nd_ID (no_Node x) = "b" /\
    forall y, y ∈ tried -> refused_by large_server ∅ (trace_alone example_serve example_search example_world) y.
Proof.
  pose proof (returns_alone example_serve example_search example_world) as H.
  remember (trace_alone example_serve example_search example_world) as tr. clear Heqtr.
  remember (answer_alone example_serve example_search example_world) as r eqn:Er. unfold example_search in H.
  destruct (candidates_best_first large_server ∅ example_scores "" 3 tr r H) as (_ & _ & tried & rest & Hp & Ht & _ & He).
  assert (Hn : (nd_ID <$> (fst <$> fst r)) = Some "b") by (rewrite Er; by vm_compute). clear Er H.
  destruct r as [[[sel im]|] msg]; [|done]. cbn [fst] in He. destruct He as (x & rest' & c & -> & -> & _).
  exists tried, rest', x, im. split; [exact Hp|]. split; [done|]. split; [by injection Hn|exact Ht].
Defined.

(** ** What the code does beyond what it says *)

(** A suspended server on a node that is offline is reported as an orphan: the
    list of the servers of a node does not select the column. *)
Definition offline_world : World :=
  example_world <| w_db := example_db <| db_nodes := <["a" := (example_node "a" "eu" 8192) <| nd_HeartbeatState := "offline" |>]> (db_nodes example_db) |>
    <| db_servers := {["s1" := example_server <| sv_Suspended := true |>]} |> |>.

Lemma suspended_server_is_an_orphan :
  (or_ServerID <$> match answer_alone example_serve (DetectOrphans example_planner) offline_world with Got l => l | Failed _ => [] end)
  = ["s1"].
Proof. by vm_compute. Qed.
