(* ===== verification/PlanRun.v ===== *)
(** * Evacuation plans that are carried out

    [forge/api/internal/services/evacuationplanner/service.go]: a plan is
    stored with an item per server ([store/store_evacuation.go]), claimed by
    one execution, and carried out a few migrations at a time; an observer
    writes down how they end and starts the next.  A restarted process takes
    the plans up that are running.

    A function is a program over [EvEff].  The service of migrations is behind
    [EvCreate], [EvPrepare], [EvExecute], [EvCancelMigration] and [EvStatus].
    A goroutine is a program of its own; [ticks] is the number of ticks an
    observer sees before its context ends.  Correlation ids and logging are
    left out. *)
From Stdlib Require Import ZArith Lia.
From stdpp Require Import base gmap strings list fin_maps relations.
From coqutil Require Import Datatypes.RecordSettersUsingExistingGetters.
From S2P Require Import Prelude GoStrings GoSort Programs Capacity Servers ControlPlane Scheduler Evacuation EvacuationRules.
Import RecordSetNotations1.
#[local] Open Scope string_scope.
#[local] Open Scope list_scope.
#[local] Open Scope Z_scope.
#[local] Open Scope go_scope.

(** ** Tables *)

(** The columns of a server that keep an older copy of it from running. *)
Record Fence := mkFence { fc_Generation : Z; fc_LeaseExpiry : option Time }.

Record PlanRow := mkPlanRow { pw_NodeID : string; pw_Status : string; pw_CreatedAt : Time }.

Record EvTables := mkEvTables {
  et_fences : gmap string Fence;
  et_plans : gmap string PlanRow;
  et_items : gmap string EvacuationItem
}.

(* go: store/store.go L1822-1826 *)
Definition plan_statuses : list string := ["pending"; "running"; "completed"; "cancelled"; "failed"].

(* go: store/store_evacuation.go func:evacuationItemInitialStatus *)
Definition evacuationItemInitialStatus (item : EvacuationItem) : string :=
  if ei_Eligible item then "pending" else "failed".

(* go: store/store_evacuation.go func:evacuationItemInitialError *)
Definition evacuationItemInitialError (item : EvacuationItem) : error :=
  if ei_Eligible item || (ei_Reason item =? "")%string then None else Some (ei_Reason item).

(** A server that moves gets a new generation, and an hour. *)
(* go: store/store_evacuation.go L30-42 *)
Definition fence_server (item : EvacuationItem) (now : Time) (fences : gmap string Fence)
    : answer (gmap string Fence) :=
  if ei_Eligible item && negb (ei_TargetNodeID item =? "")%string then
    match fences !! ei_ServerID item with
    | None => Failed (ErrText (cat ["server "; ei_ServerID item; " not found while fencing evacuation plan"]))
    | Some f =>
        if max64 <? fc_Generation f + 1 then Failed ErrRange
        else Got (<[ei_ServerID item := mkFence (fc_Generation f + 1) (Some (now + Hour))]> fences)
    end
  else Got fences.

Definition stored_item (planID id : string) (item : EvacuationItem) : EvacuationItem :=
  mkEvacuationItem id planID (ei_ServerID item) (ei_SourceNodeID item) (ei_TargetNodeID item) (ei_Eligible item)
    (ei_Reason item) "" (evacuationItemInitialStatus item) (evacuationItemInitialError item).

(* go: store/store_evacuation.go L25-49 *)
Fixpoint insert_items (planID : string) (now : Time) (items : list (string * EvacuationItem)) (db : EvTables)
    : answer EvTables :=
  match items with
  | [] => Got db
  | (id, item) :: items =>
      match fence_server item now (et_fences db) with
      | Failed e => Failed e
      | Got fences =>
          match et_items db !! id with
          | Some _ => Failed ErrUnique
          | None => insert_items planID now items
                      (mkEvTables fences (et_plans db) (<[id := stored_item planID id item]> (et_items db)))
          end
      end
  end.

(** One transaction; the caller generates the ids. *)
(* go: store/store_evacuation.go func:Store.CreateEvacuationPlan *)
Definition insert_plan (planID : string) (ids : list string) (nodeID status : string) (items : list EvacuationItem)
    (now : Time) (db : EvTables) : answer unit * EvTables :=
  if negb (slices_contains plan_statuses status) then (Failed ErrEnum, db)
  else
    match et_plans db !! planID with
    | Some _ => (Failed ErrUnique, db)
    | None =>
        match insert_items planID now (zip ids items)
                (mkEvTables (et_fences db) (<[planID := mkPlanRow nodeID status now]> (et_plans db)) (et_items db)) with
        | Failed e => (Failed e, db)
        | Got db' => (Got tt, db')
        end
    end.

(** The row of a plan, without its items. *)
Definition plan_row (planID : string) (db : EvTables) : answer PlanRow :=
  match et_plans db !! planID with Some p => Got p | None => Failed ErrNoRows end.

(** Items of a plan are of one transaction, so their ids order them. *)
(* go: store/store_evacuation.go func:Store.ListEvacuationItems *)
Definition ListEvacuationItems (planID : string) (db : EvTables) : answer (list EvacuationItem) :=
  Got (isort (fun a b => str_lt (ei_ID a) (ei_ID b)) (filter (fun i => ei_PlanID i = planID) (values (et_items db)))).

Definition older (a b : string * PlanRow) : bool :=
  (pw_CreatedAt a.2 <? pw_CreatedAt b.2) || (pw_CreatedAt a.2 =? pw_CreatedAt b.2) && str_lt a.1 b.1.

Definition plan_ids (status : string) (db : EvTables) : answer (list string) :=
  if negb (slices_contains plan_statuses status) then Failed ErrEnum
  else Got (map fst (isort older (filter (fun p => pw_Status p.2 = status) (map_to_list (et_plans db))))).

Definition change_plan (planID : string) (from : string -> bool) (status : string) (db : EvTables)
    : answer bool * EvTables :=
  if negb (slices_contains plan_statuses status) then (Failed ErrEnum, db)
  else
    match et_plans db !! planID with
    | Some p =>
        if from (pw_Status p)
        then (Got true, mkEvTables (et_fences db) (<[planID := mkPlanRow (pw_NodeID p) status (pw_CreatedAt p)]> (et_plans db)) (et_items db))
        else (Got false, db)
    | None => (Got false, db)
    end.

(* go: store/store_evacuation.go L149-153 *)
Definition claim_plan (planID : string) : EvTables -> answer bool * EvTables :=
  change_plan planID (fun s => (s =? "pending")%string) "running".

(* go: store/store_evacuation.go L167-171 *)
Definition cancel_plan (planID : string) : EvTables -> answer bool * EvTables :=
  change_plan planID (fun s => (s =? "running")%string) "cancelled".

(* go: store/store_evacuation.go L182-184 *)
Definition set_plan (planID status : string) : EvTables -> answer bool * EvTables :=
  change_plan planID (fun _ => true) status.

(** A row that is gone is not an error. *)
(* go: store/store_evacuation.go func:Store.UpdateEvacuationItemExecution *)
Definition UpdateEvacuationItemExecution (itemID migrationID status : string) (itemErr : error) (db : EvTables)
    : EvTables :=
  match et_items db !! itemID with
  | None => db
  | Some i =>
      mkEvTables (et_fences db) (et_plans db)
        (<[itemID := mkEvacuationItem (ei_ID i) (ei_PlanID i) (ei_ServerID i) (ei_SourceNodeID i) (ei_TargetNodeID i)
             (ei_Eligible i) (ei_Reason i) migrationID status itemErr]> (et_items db))
  end.

(** ** Requests *)

Inductive EvEff : Type -> Type :=
| EvCtl {A} (e : Eff A) : EvEff A
| EvInsert (nodeID status : string) (items : list EvacuationItem) : EvEff (answer string)
| EvPlanRow (planID : string) : EvEff (answer PlanRow)
| EvItems (planID : string) : EvEff (answer (list EvacuationItem))
| EvPlanIDs (status : string) : EvEff (answer (list string))
| EvClaim (planID : string) : EvEff (answer bool)
| EvCancel (planID : string) : EvEff (answer bool)
| EvSetPlan (planID status : string) : EvEff (answer bool)
| EvSetItem (itemID migrationID status : string) (err : error) : EvEff error
| EvCreate (serverID sourceNodeID targetNodeID : string) : EvEff (answer string)
| EvPrepare (migrationID : string) : EvEff error
| EvExecute (migrationID : string) : EvEff error
| EvCancelMigration (migrationID : string) : EvEff error
| EvStatus (migrationID : string) : EvEff (answer string)
| EvObservers {A} (f : gset string -> A * gset string) : EvEff A
| EvGo (planID : string) : EvEff unit.

Definition E_ (A : Type) : Type := prog EvEff A.

Fixpoint lift {A} (p : prog Eff A) : E_ A :=
  match p with Ret a => Ret a | Vis e k => Vis (EvCtl e) (fun x => lift (k x)) end.

Definition etry {A B} (m : E_ (answer A)) (k : A -> E_ (answer B)) : E_ (answer B) :=
  pbind m (fun r => match r with Got a => k a | Failed e => Ret (Failed e) end).
Notation "'let?^' x := m 'in' k" := (etry m (fun x => k))
  (at level 200, x binder, m at level 200, k at level 200, only parsing) : go_scope.
Notation "m ;;^ k" := (pbind m (fun _ => k))
  (at level 100, k at level 200, right associativity, only parsing) : go_scope.

Definition efails {A} (msg : string) : E_ (answer A) := Ret (Failed (ErrText msg)).

(** Two queries: the row, and then the items. *)
(* go: store/store_evacuation.go func:Store.GetEvacuationPlan *)
Definition GetEvacuationPlan (planID : string) : E_ (answer EvacuationPlan) :=
  let?^ row := request (EvPlanRow planID) in
  let?^ items := request (EvItems planID) in
  Ret (Got (mkEvacuationPlan planID (pw_NodeID row) (pw_Status row) items)).

Fixpoint get_plans (ids : list string) : E_ (answer (list EvacuationPlan)) :=
  match ids with
  | [] => Ret (Got [])
  | id :: ids =>
      let?^ plan := GetEvacuationPlan id in
      let?^ plans := get_plans ids in
      Ret (Got (plan :: plans))
  end.

(* go: store/store_evacuation.go func:Store.ListEvacuationPlansByStatus *)
Definition ListEvacuationPlansByStatus (status : string) : E_ (answer (list EvacuationPlan)) :=
  let?^ ids := request (EvPlanIDs status) in
  get_plans ids.

(** The plan, and whether this call claimed it. *)
(* go: store/store_evacuation.go func:Store.StartEvacuationPlan *)
Definition StartEvacuationPlan (planID : string) : E_ (answer (EvacuationPlan * bool)) :=
  let?^ claimed := request (EvClaim planID) in
  let?^ plan := GetEvacuationPlan planID in
  Ret (Got (plan, claimed)).

(* go: store/store_evacuation.go func:Store.CancelEvacuationPlan *)
Definition CancelEvacuationPlan (planID : string) : E_ (answer EvacuationPlan) :=
  let?^ cancelled := request (EvCancel planID) in
  if cancelled : bool then GetEvacuationPlan planID else efails "evacuation plan is not running".

(* go: store/store_evacuation.go func:Store.UpdateEvacuationPlanStatus *)
Definition UpdateEvacuationPlanStatus (planID status : string) : E_ (answer EvacuationPlan) :=
  let?^ _ := request (EvSetPlan planID status) in
  GetEvacuationPlan planID.

Definition CreateEvacuationPlan (nodeID status : string) (items : list EvacuationItem) : E_ (answer EvacuationPlan) :=
  let?^ planID := request (EvInsert nodeID status items) in
  GetEvacuationPlan planID.

(** ** The service *)

(* go: services/evacuationplanner/service.go const:maxConcurrentEvacuationMigrations *)
Definition maxConcurrentEvacuationMigrations : Z := 2.

Definition in_progress (item : EvacuationItem) : bool :=
  ((ei_Status item =? "preparing") || (ei_Status item =? "running"))%string.

Definition active (items : list EvacuationItem) : Z := Z.of_nat (length (filter (fun i => in_progress i = true) items)).

(* go: services/evacuationplanner/service.go func:evacuationPlanFinished *)
Definition evacuationPlanFinished (items : list EvacuationItem) : bool :=
  forallb (fun i => negb ((ei_Status i =? "pending")%string || in_progress i)) items.

(** Only a migration that ended counts. *)
(* go: services/evacuationplanner/service.go func:evacuationMigrationOutcome *)
Definition evacuationMigrationOutcome (status : string) : string :=
  if (status =? "completed")%string then "completed"
  else if ((status =? "failed") || (status =? "cancelled"))%string then "failed"
  else "pending".

Section Service.
(** The planner, and whether the service of migrations is there. *)
Context (s : Planner) (executor : bool).

Definition publish (kind subject : string) : E_ unit := lift (publish_plan s kind subject).

(** A migration that is asked for, and what went wrong: the text is the
    item's error. *)
Inductive Started := Running | NotStarted (migrationID : string) (err : string) | Interrupted (err : string).

(* go: services/evacuationplanner/service.go L264-295 *)
Definition start_item (item : EvacuationItem) : E_ Started :=
  if (ei_TargetNodeID item =? "")%string then Ret (NotStarted "" "eligible evacuation item has no target node")
  else
    let^ r := request (EvCreate (ei_ServerID item) (ei_SourceNodeID item) (ei_TargetNodeID item)) in
    match r with
    | Failed e => Ret (NotStarted "" (cat ["create migration: "; store_error_text e]))
    | Got migrationID =>
        let^ err := request (EvSetItem (ei_ID item) migrationID "preparing" None) in
        match err with
        | Some e => Ret (Interrupted e)
        | None =>
            let^ err := request (EvPrepare migrationID) in
            match err with
            | Some e => Ret (NotStarted migrationID (cat ["prepare migration: "; e]))
            | None =>
                let^ err := request (EvExecute migrationID) in
                match err with
                | Some e => Ret (NotStarted migrationID (cat ["execute migration: "; e]))
                | None =>
                    let^ err := request (EvSetItem (ei_ID item) migrationID "running" None) in
                    Ret (match err with Some e => Interrupted e | None => Running end)
                end
            end
        end
    end.

(* go: services/evacuationplanner/service.go L257-296 *)
Fixpoint start_items (running : Z) (items : list EvacuationItem) : E_ error :=
  match items with
  | [] => Ret None
  | item :: items =>
      if maxConcurrentEvacuationMigrations <=? running then Ret None
      else if negb (ei_Eligible item) || negb (ei_Status item =? "pending")%string then start_items running items
      else
        let^ r := start_item item in
        match r with
        | Running => start_items (running + 1) items
        | Interrupted e => Ret (Some e)
        | NotStarted migrationID e =>
            let^ err := request (EvSetItem (ei_ID item) migrationID "failed" (Some e)) in
            match err with Some e => Ret (Some e) | None => start_items running items end
        end
  end.

(* go: services/evacuationplanner/service.go func:Service.startAvailableItems *)
Definition startAvailableItems (plan : EvacuationPlan) : E_ error :=
  if negb executor then Ret (Some "migration executor unavailable")
  else start_items (active (ev_Items plan)) (ev_Items plan).

(* go: services/evacuationplanner/service.go func:Service.failPlan *)
Definition failPlan (planID : string) : E_ (answer EvacuationPlan) :=
  let^ r := UpdateEvacuationPlanStatus planID "failed" in
  publish "plan failed" planID ;;^
  match r with Failed e => Ret (Failed e) | Got _ => GetEvacuationPlan planID end.

(* go: services/evacuationplanner/service.go loop:Service.reconcileItems *)
Fixpoint reconcile_items (items : list EvacuationItem) : E_ error :=
  match items with
  | [] => Ret None
  | item :: items =>
      if negb (in_progress item) || (ei_MigrationID item =? "")%string then reconcile_items items
      else
        let^ r := request (EvStatus (ei_MigrationID item)) in
        match r with
        | Failed _ => reconcile_items items
        | Got status =>
            let outcome := evacuationMigrationOutcome status in
            let^ err :=
              if (outcome =? "completed")%string
              then request (EvSetItem (ei_ID item) (ei_MigrationID item) "completed" None)
              else if (outcome =? "failed")%string
              then request (EvSetItem (ei_ID item) (ei_MigrationID item) "failed"
                     (Some (cat ["migration ended with status "; status])))
              else Ret None in
            match err with Some e => Ret (Some e) | None => reconcile_items items end
        end
  end.

(* go: services/evacuationplanner/service.go func:Service.reconcileItems *)
Definition reconcileItems (plan : EvacuationPlan) : E_ error :=
  if negb executor then Ret (Some "migration executor unavailable") else reconcile_items (ev_Items plan).

(* go: services/evacuationplanner/service.go func:Service.completePlan *)
Definition completePlan (plan : EvacuationPlan) : E_ unit :=
  let failed := existsb (fun i => (ei_Status i =? "failed")%string) (ev_Items plan) in
  let status := if failed then "failed" else "completed" in
  let^ r := UpdateEvacuationPlanStatus (ev_ID plan) status in
  match r with
  | Failed _ => Ret tt
  | Got _ => publish (if failed then "plan failed" else "plan completed") (ev_ID plan)
  end.

(* go: services/evacuationplanner/service.go func:Service.observePlan *)
Fixpoint observePlan (ticks : nat) (planID : string) : E_ unit :=
  let^ r := GetEvacuationPlan planID in
  match r with
  | Failed _ => Ret tt
  | Got plan =>
      if negb (ev_Status plan =? "running")%string then Ret tt
      else
        let^ err := reconcileItems plan in
        match err with
        | Some _ => failPlan planID ;;^ Ret tt
        | None =>
            let^ r := GetEvacuationPlan planID in
            match r with
            | Failed _ => Ret tt
            | Got plan =>
                if evacuationPlanFinished (ev_Items plan) then completePlan plan
                else
                  let^ err := startAvailableItems plan in
                  match err with
                  | Some _ => failPlan planID ;;^ Ret tt
                  | None => match ticks with O => Ret tt | S ticks => observePlan ticks planID end
                  end
            end
        end
  end.

(** The goroutine of an observer. *)
(* go: services/evacuationplanner/service.go L155-169 *)
Definition observer (ticks : nat) (planID : string) : E_ unit :=
  observePlan ticks planID ;;^
  request (EvObservers (fun l => (tt, l ∖ {[planID]}))).

(** One observer per plan in a process. *)
(* go: services/evacuationplanner/service.go func:Service.startObserver *)
Definition startObserver (planID : string) : E_ unit :=
  let^ observed := request (EvObservers (fun l => (bool_decide (planID ∈ l), {[planID]} ∪ l))) in
  if observed : bool then Ret tt else request (EvGo planID).

Fixpoint start_observers (plans : list EvacuationPlan) : E_ unit :=
  match plans with
  | [] => Ret tt
  | plan :: plans => startObserver (ev_ID plan) ;;^ start_observers plans
  end.

(** A pass of the loop of [Start]. *)
(* go: services/evacuationplanner/service.go func:Service.resumeRunningPlans *)
Definition resumeRunningPlans : E_ unit :=
  let^ r := ListEvacuationPlansByStatus "running" in
  match r with Failed _ => Ret tt | Got plans => start_observers plans end.

(* go: services/evacuationplanner/service.go func:Service.ExecutePlan *)
Definition ExecutePlan (planID : string) : E_ (answer EvacuationPlan) :=
  if negb executor then efails "migration executor unavailable"
  else
    let?^ started := StartEvacuationPlan planID in
    if negb (started.2) then Ret (Got started.1)
    else
      let^ err := startAvailableItems started.1 in
      match err with
      | Some _ => failPlan planID
      | None => startObserver planID ;;^ GetEvacuationPlan planID
      end.

(* go: services/evacuationplanner/service.go loop:Service.CancelPlan *)
Fixpoint cancel_items (items : list EvacuationItem) : E_ (answer unit) :=
  match items with
  | [] => Ret (Got tt)
  | item :: items =>
      if in_progress item && negb (ei_MigrationID item =? "")%string then
        let^ err := request (EvCancelMigration (ei_MigrationID item)) in
        match err with
        | Some e => efails (cat ["cancel migration "; ei_MigrationID item; ": "; e])
        | None => cancel_items items
        end
      else cancel_items items
  end.

(* go: services/evacuationplanner/service.go func:Service.CancelPlan *)
Definition CancelPlan (planID : string) : E_ (answer EvacuationPlan) :=
  if negb executor then efails "migration executor unavailable"
  else
    let?^ plan := GetEvacuationPlan planID in
    if negb (ev_Status plan =? "running")%string then efails "evacuation plan is not running"
    else let?^ _ := cancel_items (ev_Items plan) in CancelEvacuationPlan planID.

(* go: services/evacuationplanner/service.go func:Service.CreatePlan *)
Definition CreatePlan (nodeID : string) : E_ (answer PlanResult) :=
  let?^ result := lift (evaluateNode s nodeID false) in
  let status := evacuationPlanStatus (pl_Items result) in
  let^ r := CreateEvacuationPlan nodeID status (planStoreItems (pl_Items result)) in
  match r with
  | Failed e =>
      request (EvCtl (Count EvacuationValidationFailuresTotal)) ;;^
      publish "plan failed" nodeID ;;^
      Ret (Failed e)
  | Got plan =>
      request (EvCtl (Count EvacuationPlansTotal)) ;;^
      publish "plan created" (ev_ID plan) ;;^
      (if (status =? "failed")%string then publish "plan failed" (ev_ID plan) else Ret tt) ;;^
      Ret (Got (mkPlanResult plan (pl_Items result) false))
  end.

(* go: services/evacuationplanner/service.go func:Service.GetPlan *)
Definition GetPlan (planID : string) : E_ (answer EvacuationPlan) := GetEvacuationPlan planID.
End Service.

(** ** Plans of several processes at once

    Every call and every observer is a thread of a pool, in any number of API
    processes.  [vw_plans] keeps each plan as it was stored, [vw_claims] the
    claims that were granted, [vw_created] the migrations that were asked for
    with what was answered, [vw_ended] the states that were reported. *)
Record Creation := mkCreation { cr_Answer : answer string; cr_Server : string; cr_Source : string; cr_Target : string }.

Record EvWorld := mkEvWorld {
  vw_db : EvTables;
  vw_now : Time;
  vw_observers : nat -> gset string;
  vw_plans : gmap string (list EvacuationItem);
  vw_claims : list string;
  vw_created : list Creation;
  vw_ended : list (string * string)
}.

Section Executions.
Context (process : nat -> nat).

(** An answer that tells what happened, or an error. *)
Definition told {A} (a x : answer A) : Prop := x = a \/ exists e, x = Failed e.

(** A statement that does [r], or fails. *)
Definition stated {A} (r : answer A * EvTables) (w : EvWorld) (x : answer A) (w' : EvWorld) : Prop :=
  (w' = w /\ exists e, x = Failed e) \/ (told (fst r) x /\ w' = w <| vw_db := snd r |>).

Definition fresh_item (w : EvWorld) (id : string) : Prop :=
  forall p l i, vw_plans w !! p = Some l -> i ∈ l -> ei_ID i <> id.

Definition ev_step (t : nat) (X : Type) (e : EvEff X) : EvWorld -> X -> EvWorld -> Prop :=
  match e in EvEff X return EvWorld -> X -> EvWorld -> Prop with
  | EvCtl _ => fun w _ w' => w' = w
  | EvInsert nodeID status items => fun w x w' =>
      (w' = w /\ exists e, x = Failed e) \/
      exists planID ids, vw_plans w !! planID = None /\ length ids = length items /\ NoDup ids /\
        (forall id, id ∈ ids -> fresh_item w id) /\
        match insert_plan planID ids nodeID status items (vw_now w) (vw_db w) with
        | (Got tt, db') => told (Got planID) x /\
            w' = w <| vw_db := db' |>
                   <| vw_plans := <[planID := zip_with (stored_item planID) ids items]> (vw_plans w) |>
        | (Failed e, _) => x = Failed e /\ w' = w
        end
  | EvPlanRow p => fun w x w' => w' = w /\ told (plan_row p (vw_db w)) x
  | EvItems p => fun w x w' => w' = w /\ told (ListEvacuationItems p (vw_db w)) x
  | EvPlanIDs status => fun w x w' => w' = w /\ told (plan_ids status (vw_db w)) x
  | EvClaim p => fun w x w' =>
      match claim_plan p (vw_db w) with
      | (Got true, db') => (w' = w /\ exists e, x = Failed e) \/
          (told (Got true) x /\ w' = w <| vw_db := db' |> <| vw_claims := vw_claims w ++ [p] |>)
      | (r, _) => told r x /\ w' = w
      end
  | EvCancel p => fun w x w' => stated (cancel_plan p (vw_db w)) w x w'
  | EvSetPlan p status => fun w x w' => stated (set_plan p status (vw_db w)) w x w'
  | EvSetItem id m status err => fun w x w' =>
      (w' = w /\ x <> None) \/ w' = w <| vw_db := UpdateEvacuationItemExecution id m status err (vw_db w) |>
  | EvCreate server source target => fun w x w' =>
      w' = w <| vw_created := vw_created w ++ [mkCreation x server source target] |>
  | EvPrepare _ => fun w _ w' => w' = w
  | EvExecute _ => fun w _ w' => w' = w
  | EvCancelMigration _ => fun w _ w' => w' = w
  | EvStatus m => fun w x w' =>
      w' = w <| vw_ended := vw_ended w ++ match x with Got status => [(m, status)] | Failed _ => [] end |>
  | EvObservers f => fun w x w' =>
      let r := f (vw_observers w (process t)) in
      x = fst r /\ w' = w <| vw_observers := fun p => if (p =? process t)%nat then snd r else vw_observers w p |>
  | EvGo _ => fun w _ w' => w' = w
  end.

(** What else happens: time passes, processes start again, plans go with their
    node, items with their server, and an item loses the reference to a
    migration or a target that is gone. *)
Definition faded (i i' : EvacuationItem) : Prop :=
  ei_ID i' = ei_ID i /\ ei_PlanID i' = ei_PlanID i /\ ei_ServerID i' = ei_ServerID i /\
  ei_SourceNodeID i' = ei_SourceNodeID i /\ ei_Eligible i' = ei_Eligible i /\ ei_Status i' = ei_Status i /\
  (ei_TargetNodeID i' = "" \/ ei_TargetNodeID i' = ei_TargetNodeID i) /\
  (ei_MigrationID i' = "" \/ ei_MigrationID i' = ei_MigrationID i).

Definition ev_env (w w' : EvWorld) : Prop :=
  vw_now w <= vw_now w' /\
  (forall p row, et_plans (vw_db w') !! p = Some row -> et_plans (vw_db w) !! p = Some row) /\
  (forall id i', et_items (vw_db w') !! id = Some i' -> exists i, et_items (vw_db w) !! id = Some i /\ faded i i') /\
  vw_plans w' = vw_plans w /\ vw_claims w' = vw_claims w /\ vw_created w' = vw_created w /\ vw_ended w' = vw_ended w.

(** What runs: requests of users and of other services, and goroutines. *)
Definition caller (p : E_ unit) : Prop :=
  exists s executor, (exists nodeID, p = (CreatePlan s nodeID ;;^ Ret tt)) \/
    (exists planID, p = (ExecutePlan s executor planID ;;^ Ret tt)) \/
    (exists planID, p = (CancelPlan executor planID ;;^ Ret tt)) \/
    (exists ticks planID, p = observer s executor ticks planID) \/ p = resumeRunningPlans.

Definition stays (t : nat) (w : EvWorld) : EvWorld := w.

(** *** The invariant *)

Definition has_migration (m : string) (i : EvacuationItem) (w : EvWorld) : Prop :=
  exists target, mkCreation (Got m) (ei_ServerID i) (ei_SourceNodeID i) target ∈ vw_created w.

(** A migration that took the server from the node was reported complete. *)
Definition moved (i : EvacuationItem) (w : EvWorld) : Prop :=
  exists m, has_migration m i w /\ (m, "completed") ∈ vw_ended w.

Definition item_statuses : list string := ["pending"; "preparing"; "running"; "completed"; "failed"].

(** A stored item, or one that was read, and the item it was at first. *)
Definition row_of (p : string) (i : EvacuationItem) (w : EvWorld) : Prop :=
  exists l i0, vw_plans w !! p = Some l /\ i0 ∈ l /\ ei_PlanID i = p /\ ei_ID i = ei_ID i0 /\
    ei_ServerID i = ei_ServerID i0 /\ ei_SourceNodeID i = ei_SourceNodeID i0 /\
    (ei_TargetNodeID i = "" \/ ei_TargetNodeID i = ei_TargetNodeID i0).

Definition row_ok (i : EvacuationItem) (w : EvWorld) : Prop :=
  row_of (ei_PlanID i) i w /\ ei_Status i ∈ item_statuses /\
  (ei_MigrationID i = "" \/ has_migration (ei_MigrationID i) i w) /\
  (ei_Status i = "completed" -> moved i w).

Definition all_moved (p : string) (w : EvWorld) : Prop :=
  exists l, vw_plans w !! p = Some l /\
    forall i, i ∈ l -> is_Some (et_items (vw_db w) !! ei_ID i) -> moved i w.

Definition all_eligible (p : string) (w : EvWorld) : Prop :=
  exists l, vw_plans w !! p = Some l /\ Forall (fun i => ei_Eligible i = true) l.

Definition plan_ok (p : string) (status : string) (w : EvWorld) : Prop :=
  is_Some (vw_plans w !! p) /\
  (status = "pending" -> p ∉ vw_claims w /\ all_eligible p w) /\
  (status = "running" -> p ∈ vw_claims w) /\
  (status = "completed" -> all_moved p w).

(** The migration was asked for by a plan that was claimed. *)
Definition creation_ok (c : Creation) (w : EvWorld) : Prop :=
  exists p l i, p ∈ vw_claims w /\ vw_plans w !! p = Some l /\ i ∈ l /\
    cr_Server c = ei_ServerID i /\ cr_Source c = ei_SourceNodeID i /\ cr_Target c = ei_TargetNodeID i.

Record ev_inv (w : EvWorld) : Prop := {
  iw_rows : forall id i, et_items (vw_db w) !! id = Some i -> ei_ID i = id /\ row_ok i w;
  iw_same : forall p l i p' l' i', vw_plans w !! p = Some l -> i ∈ l -> vw_plans w !! p' = Some l' -> i' ∈ l' ->
    ei_ID i = ei_ID i' -> i = i';
  iw_of : forall p l i, vw_plans w !! p = Some l -> i ∈ l -> ei_PlanID i = p;
  iw_plans : forall p row, et_plans (vw_db w) !! p = Some row -> plan_ok p (pw_Status row) w;
  iw_claims : NoDup (vw_claims w);
  iw_claimed : forall p, p ∈ vw_claims w -> all_eligible p w;
  iw_created : forall c, c ∈ vw_created w -> creation_ok c w
}.

(** What everybody relies on: nothing is forgotten, and an item that is gone
    does not come back. *)
Definition ev_rely (t : nat) (w w' : EvWorld) : Prop :=
  (forall p l, vw_plans w !! p = Some l -> vw_plans w' !! p = Some l) /\
  (forall p, p ∈ vw_claims w -> p ∈ vw_claims w') /\
  (forall c, c ∈ vw_created w -> c ∈ vw_created w') /\
  (forall x, x ∈ vw_ended w -> x ∈ vw_ended w') /\
  (forall p l i, vw_plans w !! p = Some l -> i ∈ l ->
     is_Some (et_items (vw_db w') !! ei_ID i) -> is_Some (et_items (vw_db w) !! ei_ID i)).

#[local] Instance ev_rely_pre t : PreOrder (ev_rely t).
Proof.
  split; [by intros w; split_and!|].
  intros a b c (H1 & H2 & H3 & H4 & H5) (K1 & K2 & K3 & K4 & K5). split_and!; [eauto..|].
  intros p l i Hl Hi Hc. eapply H5, K5; eauto.
Qed.

Lemma has_migration_stable t m i w w' : has_migration m i w -> ev_rely t w w' -> has_migration m i w'.
Proof using Type. intros [target H] (_ & _ & Hc & _). exists target. by apply Hc. Qed.

Lemma moved_stable t i w w' : moved i w -> ev_rely t w w' -> moved i w'.
Proof using Type.
  intros (m & H & He) HR. exists m. split; [by eapply has_migration_stable|]. destruct HR as (_ & _ & _ & K & _). by apply K.
Qed.

Lemma row_of_stable t p i w w' : row_of p i w -> ev_rely t w w' -> row_of p i w'.
Proof using Type. intros (l & i0 & Hl & Hrest) (Hp & _). exists l, i0. split; [by apply Hp|done]. Qed.

Lemma row_ok_stable t i w w' : row_ok i w -> ev_rely t w w' -> row_ok i w'.
Proof using Type.
  intros (H1 & H2 & H3 & H4) HR. split_and!; [by eapply row_of_stable|done| |].
  - destruct H3 as [-> | H3]; [by left|right; by eapply has_migration_stable].
  - intros Hs. eapply moved_stable; [by apply H4|done].
Qed.

Lemma all_moved_stable t p w w' : all_moved p w -> ev_rely t w w' -> all_moved p w'.
Proof using Type.
  intros (l & Hl & H) HR. exists l. pose proof HR as (Hp & _ & _ & _ & Hi). split; [by apply Hp|].
  intros i Hin Hs. eapply moved_stable; [|exact HR]. apply H; [done|]. by eapply Hi.
Qed.

Lemma all_eligible_stable t p w w' : all_eligible p w -> ev_rely t w w' -> all_eligible p w'.
Proof using Type. intros (l & Hl & H) (Hp & _). exists l. by split; [apply Hp|]. Qed.

Lemma creation_ok_stable t c w w' : creation_ok c w -> ev_rely t w w' -> creation_ok c w'.
Proof using Type.
  intros (p & l & i & Hp & Hl & Hrest) (K1 & K2 & _). exists p, l, i. split; [by apply K2|]. split; [by apply K1|done].
Qed.

Lemma faded_row_ok i i' w : row_ok i w -> faded i i' -> row_ok i' w.
Proof using Type.
  intros (H1 & H2 & H3 & H4) (E1 & E2 & E3 & E4 & E5 & E6 & E7 & E8). split_and!.
  - destruct H1 as (l & i0 & Hl & Hi & _ & K1 & K2 & K3 & K4). exists l, i0. rewrite E1, E2, E3, E4.
    split_and!; try done. destruct E7 as [-> | ->]; [by left|done].
  - by rewrite E6.
  - destruct E8 as [E8|E8]; rewrite E8; [by left|]. destruct H3 as [-> | [target H3]]; [by left|]. right. exists target. by rewrite E3, E4.
  - rewrite E6. intros Hs. destruct (H4 Hs) as (m & [target Hm] & He). exists m. split; [|done]. exists target. by rewrite E3, E4.
Qed.

Lemma faded_refl i : faded i i.
Proof using Type. split_and!; auto. Qed.

(** Whatever happens to the items and the plans that are there. *)
Lemma inv_change w w' :
  ev_inv w -> vw_plans w' = vw_plans w -> vw_claims w' = vw_claims w ->
  (forall c, c ∈ vw_created w -> c ∈ vw_created w') -> (forall x, x ∈ vw_ended w -> x ∈ vw_ended w') ->
  (forall c, c ∈ vw_created w' -> c ∈ vw_created w \/ creation_ok c w) ->
  (forall id i', et_items (vw_db w') !! id = Some i' -> exists i, et_items (vw_db w) !! id = Some i /\
     (faded i i' \/ ei_ID i' = id /\ row_ok i' w)) ->
  (forall p row', et_plans (vw_db w') !! p = Some row' -> exists row, et_plans (vw_db w) !! p = Some row /\
     (pw_Status row' = pw_Status row \/ pw_Status row' = "failed" \/ pw_Status row' = "cancelled" \/
      (pw_Status row' = "completed" /\ all_moved p w))) ->
  ev_inv w' /\ forall t, ev_rely t w w'.
Proof using Type.
  intros H Ep Ec Hc He Hnew Hi Hp.
  assert (HR : forall t, ev_rely t w w').
  { intros t. split_and!; [by rewrite Ep|by rewrite Ec|done|done|]. intros p l i Hl Hin [i' Hs].
    destruct (Hi _ _ Hs) as (i0 & E & _). by rewrite E. }
  destruct H as [H1 H2 H3 H4 H5 H6 H7].
  split; [|done]. split.
  - intros id i' Hs. destruct (Hi _ _ Hs) as (i & E & [Hf| [Eid Hok]]).
    + destruct (H1 id i E) as [Eid Hok]. split; [destruct Hf as [-> _]; done|].
      eapply row_ok_stable; [by eapply faded_row_ok|exact (HR 0%nat)].
    + split; [done|]. eapply row_ok_stable; [done|exact (HR 0%nat)].
  - by rewrite Ep.
  - by rewrite Ep.
  - intros p row' Hs. destruct (Hp p row' Hs) as (row & E & Hst). destruct (H4 p row E) as (K1 & K2 & K3 & K4).
    split; [by rewrite Ep|].
    destruct Hst as [Es| [Es| [Es| [Es Hm]]]]; rewrite Es; [|done|done|].
    + rewrite Ec. split_and!; [|done|].
      * intros Hst. destruct (K2 Hst) as [Hn Hel]. split; [done|]. eapply all_eligible_stable; [done|exact (HR 0%nat)].
      * intros Hst. eapply all_moved_stable; [by apply K4|exact (HR 0%nat)].
    + split_and!; [done|done|]. intros _. eapply all_moved_stable; [done|exact (HR 0%nat)].
  - by rewrite Ec.
  - intros p Hp'. rewrite Ec in Hp'. eapply all_eligible_stable; [by apply H6|exact (HR 0%nat)].
  - intros c Hc'. eapply creation_ok_stable; [|exact (HR 0%nat)]. destruct (Hnew c Hc') as [Ho|Ho]; [by apply H7|done].
Qed.

Lemma plan_inv_env w w' : ev_inv w -> ev_env w w' -> ev_inv w' /\ forall t, ev_rely t w w'.
Proof using Type.
  intros H (_ & Hp & Hi & Ep & Ec & Ecr & Een). apply inv_change; try done; try (by rewrite ?Ecr, ?Een).
  - intros c. rewrite Ecr. by left.
  - intros id i' Hs. destruct (Hi _ _ Hs) as (i & E & Hf). eauto.
  - intros p row' Hs. exists row'. split; [by apply Hp|by left].
Qed.

Lemma inv_db w w' :
  ev_inv w -> vw_plans w' = vw_plans w -> vw_claims w' = vw_claims w -> vw_created w' = vw_created w ->
  vw_ended w' = vw_ended w -> vw_db w' = vw_db w -> ev_inv w' /\ forall t, ev_rely t w w'.
Proof using Type.
  intros H Ep Ec Ecr Een Ed. apply inv_change; try done; rewrite ?Ecr, ?Een, ?Ed; try done.
  - by left.
  - intros id i' Hs. exists i'. split; [done|]. left. apply faded_refl.
  - intros p row' Hs. exists row'. split; [done|by left].
Qed.

(** Changing the status of a plan. *)
Lemma change_plan_inv p from status w x w' :
  ev_inv w -> status = "failed" \/ status = "cancelled" \/ (status = "completed" /\ all_moved p w) ->
  stated (change_plan p from status (vw_db w)) w x w' -> ev_inv w' /\ forall t, ev_rely t w w'.
Proof using Type.
  intros H Hs [[-> _]| [_ ->]]; [by apply inv_db|]. unfold change_plan.
  assert (Hsame : ev_inv (w <| vw_db := vw_db w |>) /\ forall t, ev_rely t w (w <| vw_db := vw_db w |>)) by (by apply inv_db).
  destruct (slices_contains _ _); [|exact Hsame]. cbn [negb].
  destruct (et_plans (vw_db w) !! p) as [row|] eqn:E; [|exact Hsame]. destruct (from _); [|exact Hsame].
  apply inv_change; try done; recs.
  - by left.
  - intros id i' Hi. exists i'. split; [done|]. left. apply faded_refl.
  - intros q row' Hq. change (<[p := mkPlanRow (pw_NodeID row) status (pw_CreatedAt row)]> (et_plans (vw_db w)) !! q = Some row') in Hq.
    apply lookup_insert_Some in Hq as [[<- <-]| [Hne Hq]].
    + exists row. split; [done|]. cbn [pw_Status]. destruct Hs as [Hs| [Hs|Hs]]; auto.
    + exists row'. split; [done|by left].
Qed.

(** Claiming a plan. *)
Lemma claim_inv p w x w' t0 :
  ev_inv w -> ev_step t0 _ (EvClaim p) w x w' ->
  (ev_inv w' /\ forall t, ev_rely t w w') /\ (x = Got true -> p ∈ vw_claims w').
Proof using Type.
  intros H Hs. cbn [ev_step] in Hs. unfold claim_plan, change_plan in Hs.
  change (slices_contains plan_statuses "running") with true in Hs. cbn [negb] in Hs.
  destruct (et_plans (vw_db w) !! p) as [row|] eqn:E; [|destruct Hs as [[-> | [e ->]] ->]; (split; [by apply inv_db|done])].
  destruct (String.eqb_spec (pw_Status row) "pending") as [Hpend|];
    [|destruct Hs as [[-> | [e ->]] ->]; (split; [by apply inv_db|done])].
  destruct Hs as [[-> [e ->]]| [Hx ->]]; [split; [by apply inv_db|done]|].
  destruct (iw_plans w H p row E) as (_ & Hp & _). destruct (Hp Hpend) as [Hn Hel].
  match goal with |- (ev_inv ?w' /\ _) /\ _ => set (w1 := w') end.
  assert (Hcl : vw_claims w1 = vw_claims w ++ [p]) by done.
  assert (Hrow : forall q row', et_plans (vw_db w1) !! q = Some row' ->
    (q = p /\ pw_Status row' = "running") \/ (q <> p /\ et_plans (vw_db w) !! q = Some row')).
  { intros q row' Hq. apply (lookup_insert_Some (et_plans (vw_db w))) in Hq as [[<- <-]| [Hne Hq]]; [by left|by right]. }
  assert (HR : forall t, ev_rely t w w1).
  { intros t. split_and!; [done| |done|done|done]. intros q Hq. rewrite Hcl. apply elem_of_app. by left. }
  destruct H as [H1 H2 H3 H4 H5 H6 H7].
  split; [split; [|exact HR]|intros _; rewrite Hcl; apply elem_of_app; right; by apply list_elem_of_singleton].
  split; [|done|done| | | |].
  - intros id i Hi. destruct (H1 id i Hi) as [Ei Hok]. split; [done|]. eapply row_ok_stable; [done|exact (HR 0%nat)].
  - intros q row' Hq. destruct (Hrow q row' Hq) as [[-> Hst]| [Hne Hq']].
    + split; [destruct Hel as (l & Hl & _); by exists l|]. rewrite Hst, Hcl. split_and!; [done| |done].
      intros _. apply elem_of_app. right. by apply list_elem_of_singleton.
    + destruct (H4 q row' Hq') as (K1 & K2 & K3 & K4). split; [done|]. rewrite Hcl. split_and!.
      * intros Hst. destruct (K2 Hst) as [Hnq Helq]. split; [|done]. intros [?|Hin]%elem_of_app; [done|].
        by apply list_elem_of_singleton in Hin.
      * intros Hst. apply elem_of_app. left. by apply K3.
      * exact K4.
  - rewrite Hcl. apply NoDup_app. split; [done|]. split; [|apply NoDup_singleton].
    intros q Hq ->%list_elem_of_singleton. done.
  - intros q Hq. rewrite Hcl in Hq. apply elem_of_app in Hq as [Hq| ->%list_elem_of_singleton]; [by apply H6|exact Hel].
  - intros c Hc. eapply creation_ok_stable; [by apply H7|exact (HR 0%nat)].
Qed.

(** A plan that is stored. *)
Lemma insert_items_rows p now zs db db' :
  insert_items p now zs db = Got db' ->
  et_plans db' = et_plans db /\
  forall id i, et_items db' !! id = Some i ->
    et_items db !! id = Some i \/ exists item, (id, item) ∈ zs /\ i = stored_item p id item.
Proof using Type.
  revert db. induction zs as [|[id item] zs IH]; intros db H; cbn [insert_items] in H; [injection H as <-; auto|].
  destruct (fence_server _ _ _) as [fences|]; [|done]. destruct (et_items db !! id); [done|].
  apply IH in H as [E H]. split; [exact E|]. intros k i Hi. destruct (H k i Hi) as [Ho|(x & Hx & ->)].
  - apply (lookup_insert_Some (et_items db)) in Ho as [[<- <-]|[_ Ho]]; [|by left].
    right. exists item. split; [left|done].
  - right. exists x. split; [by right|done].
Qed.

Lemma stored_zip p (ids : list string) (items : list EvacuationItem) id item :
  (id, item) ∈ zip ids items -> stored_item p id item ∈ zip_with (stored_item p) ids items.
Proof using Type.
  intros (n & x & y & [= -> ->] & Hx & Hy)%elem_of_lookup_zip_with. apply elem_of_lookup_zip_with. by exists n, x, y.
Qed.

(** What [CreatePlan] stores: a plan that can be claimed moves every server. *)
Definition storable (status : string) (items : list EvacuationItem) : Prop :=
  (status = "pending" -> Forall (fun i => ei_Eligible i = true) items) /\ status <> "running" /\
  (status = "completed" -> items = []).

Lemma insert_inv t0 nodeID status items w x w' :
  ev_inv w -> storable status items -> ev_step t0 _ (EvInsert nodeID status items) w x w' ->
  (ev_inv w' /\ forall t, ev_rely t w w') /\ (forall p, x = Got p -> is_Some (vw_plans w' !! p)).
Proof using Type.
  intros H (Hpe & Hru & Hco) Hs. cbn [ev_step] in Hs.
  destruct Hs as [[-> [e ->]]|(p & ids & Hfresh & Hlen & Hnd & Hids & Hs)]; [split; [by apply inv_db|done]|].
  unfold insert_plan in Hs.
  destruct (slices_contains _ _); [|destruct Hs as [-> ->]; split; [by apply inv_db|done]]. cbn [negb] in Hs.
  destruct (et_plans (vw_db w) !! p) eqn:Ep; [destruct Hs as [-> ->]; split; [by apply inv_db|done]|].
  destruct (insert_items _ _ _ _) as [db'|e] eqn:Ei; [|destruct Hs as [-> ->]; split; [by apply inv_db|done]].
  apply insert_items_rows in Ei as [Epl Hrows]. cbn [et_plans et_items] in Epl, Hrows.
  destruct Hs as [Hx ->]. set (l := zip_with (stored_item p) ids items) in *.
  match goal with |- (ev_inv ?w' /\ _) /\ _ => set (w1 := w') end.
  assert (Hpl : forall q k, vw_plans w1 !! q = Some k <-> (q = p /\ k = l) \/ (q <> p /\ vw_plans w !! q = Some k)).
  { intros q k. change (vw_plans w1) with (<[p := l]> (vw_plans w)). rewrite lookup_insert_Some. naive_solver. }
  assert (Hold : forall q k, vw_plans w !! q = Some k -> vw_plans w1 !! q = Some k).
  { intros q k Hq. apply Hpl. right. split; [|done]. intros ->. congruence. }
  assert (Hl : forall i, i ∈ l -> exists id item, i = stored_item p id item /\ id ∈ ids /\ item ∈ items).
  { intros i (n & id & item & -> & Hid & Hit)%elem_of_lookup_zip_with. exists id, item.
    split_and!; [done|by eapply list_elem_of_lookup_2|by eapply list_elem_of_lookup_2]. }
  assert (Hel : Forall (fun i => ei_Eligible i = true) items -> Forall (fun i => ei_Eligible i = true) l).
  { rewrite !Forall_forall. intros He i Hi. destruct (Hl i Hi) as (id & item & -> & _ & Hit). exact (He item Hit). }
  assert (HR : forall t, ev_rely t w w1).
  { intros t. split_and!; [exact Hold|done|done|done|]. intros q k i Hq Hi [i' Hs].
    destruct (Hrows _ _ Hs) as [Ho|(item & Hz & _)]; [by eexists|].
    exfalso. apply elem_of_zip_l in Hz. by apply (Hids _ Hz q k i Hq Hi). }
  destruct H as [H1 H2 H3 H4 H5 H6 H7].
  split; [split; [|exact HR]|intros q ->; destruct Hx as [[= ->]|[e Hx]]; [|done]; exists l; apply Hpl; by left].
  split.
  - intros id i Hi. destruct (Hrows id i Hi) as [Ho|(item & Hz & ->)].
    + destruct (H1 id i Ho) as [Eid Hok]. split; [done|]. eapply row_ok_stable; [done|exact (HR 0%nat)].
    + split; [done|]. split_and!.
      * exists l, (stored_item p id item). split_and!; try done; [apply Hpl; by left|by apply stored_zip|by right].
      * unfold stored_item, evacuationItemInitialStatus. cbn. destruct (ei_Eligible item); unfold item_statuses; set_solver.
      * by left.
      * unfold stored_item, evacuationItemInitialStatus. cbn. by destruct (ei_Eligible item).
  - intros q k i q' k' i' Hq Hi Hq' Hi' E.
    apply Hpl in Hq as [[-> ->]|[Hq0 Hq]]; apply Hpl in Hq' as [[-> ->]|[Hq0' Hq']].
    + apply elem_of_lookup_zip_with in Hi as (n & id & item & -> & Hid & Hit), Hi' as (n' & id' & item' & -> & Hid' & Hit').
      cbn in E. subst id'. assert (n = n') as -> by (by eapply NoDup_lookup). congruence.
    + destruct (Hl i Hi) as (id & item & -> & Hid & _). destruct (Hids id Hid q' k' i' Hq' Hi'). by rewrite <- E.
    + destruct (Hl i' Hi') as (id & item & -> & Hid & _). destruct (Hids id Hid q k i Hq Hi). by rewrite E.
    + exact (H2 q k i q' k' i' Hq Hi Hq' Hi' E).
  - intros q k i Hq Hi. apply Hpl in Hq as [[-> ->]|[_ Hq]]; [|exact (H3 q k i Hq Hi)].
    by destruct (Hl i Hi) as (id & item & -> & _).
  - intros q row Hq. change (et_plans (vw_db w1)) with (et_plans db') in Hq. rewrite Epl in Hq.
    apply lookup_insert_Some in Hq as [[<- <-]|[Hne Hq]].
    + cbn [pw_Status]. split; [exists l; apply Hpl; by left|]. split_and!; [|done|].
      * intros Hst. split.
        -- intros Hin. change (p ∈ vw_claims w) in Hin. destruct (H6 p Hin) as (k & Hk & _). congruence.
        -- exists l. split; [apply Hpl; by left|]. apply Hel, Hpe, Hst.
      * intros Hst. exists l. split; [apply Hpl; by left|]. intros i Hi.
        destruct (Hl i Hi) as (id & item & _ & _ & Hit). rewrite (Hco Hst) in Hit. by apply elem_of_nil in Hit.
    + destruct (H4 q row Hq) as (K1 & K2 & K3 & K4). split; [|split_and!].
      * destruct K1 as [k Hk]. exists k. by apply Hold.
      * intros Hst. destruct (K2 Hst) as [Hn He]. split; [done|]. eapply all_eligible_stable; [done|exact (HR 0%nat)].
      * exact K3.
      * intros Hst. eapply all_moved_stable; [by apply K4|exact (HR 0%nat)].
  - done.
  - intros q Hq. eapply all_eligible_stable; [by apply H6|exact (HR 0%nat)].
  - intros c Hc. eapply creation_ok_stable; [by apply H7|exact (HR 0%nat)].
Qed.

(** Asking for a migration of an item of a claimed plan. *)
Lemma create_inv t0 p i x w w' :
  ev_inv w -> p ∈ vw_claims w -> row_of p i w -> ei_TargetNodeID i <> "" ->
  ev_step t0 _ (EvCreate (ei_ServerID i) (ei_SourceNodeID i) (ei_TargetNodeID i)) w x w' ->
  (ev_inv w' /\ forall t, ev_rely t w w') /\ (forall m, x = Got m -> has_migration m i w').
Proof using Type.
  intros H Hp (l & i0 & Hl & Hi & _ & _ & E1 & E2 & E3) Ht Hs. cbn [ev_step] in Hs. subst w'. split.
  - apply inv_change; try done; recs.
    + intros c Hc. apply elem_of_app. by left.
    + intros c [Hc|Hc]%elem_of_app; [by left|]. apply list_elem_of_singleton in Hc as ->. right.
      exists p, l, i0. split_and!; try done. cbn. by destruct E3.
    + intros id i' Hs. exists i'. split; [done|]. left. apply faded_refl.
    + intros q row' Hq. exists row'. split; [done|by left].
  - intros m ->. exists (ei_TargetNodeID i). recs. apply elem_of_app. right. by apply list_elem_of_singleton.
Qed.

(** Writing down what became of an item. *)
Lemma set_item_inv t0 i m status err x w w' :
  ev_inv w -> row_of (ei_PlanID i) i w -> status ∈ item_statuses -> m = "" \/ has_migration m i w ->
  (status = "completed" -> moved i w) ->
  ev_step t0 _ (EvSetItem (ei_ID i) m status err) w x w' -> ev_inv w' /\ forall t, ev_rely t w w'.
Proof using Type.
  intros H (l & i0 & Hl & Hi0 & _ & E0 & E1 & E2 & _) Hst Hm Hc Hs. cbn [ev_step] in Hs.
  destruct Hs as [[-> _]| ->]; [by apply inv_db|]. apply inv_change; try done; recs; [by left| |].
  - intros id i' Hs. unfold UpdateEvacuationItemExecution in Hs.
    destruct (et_items (vw_db w) !! ei_ID i) as [r|] eqn:Er; [|exists i'; split; [done|left; apply faded_refl]].
    cbn [et_items] in Hs. apply lookup_insert_Some in Hs as [[<- <-]|[Hne Hs]];
      [|exists i'; split; [done|left; apply faded_refl]].
    exists r. split; [done|]. right. destruct (iw_rows w H _ _ Er) as [Eid (Hrow & _)]. split; [exact Eid|].
    destruct Hrow as (k & r0 & Hk & Hr0 & _ & F0 & F1 & F2 & F3).
    assert (r0 = i0) as -> by (eapply (iw_same w H); [exact Hk|exact Hr0|exact Hl|exact Hi0|congruence]).
    assert (G1 : ei_ServerID r = ei_ServerID i) by congruence.
    assert (G2 : ei_SourceNodeID r = ei_SourceNodeID i) by congruence.
    assert (Hmig : forall n, has_migration n i w -> has_migration n
      (mkEvacuationItem (ei_ID r) (ei_PlanID r) (ei_ServerID r) (ei_SourceNodeID r) (ei_TargetNodeID r)
         (ei_Eligible r) (ei_Reason r) m status err) w).
    { intros n [target Hn]. exists target. cbn. by rewrite G1, G2. }
    split_and!; [by exists k, i0|done| |].
    + cbn. destruct Hm as [Hm|Hm]; [by left|right; by apply Hmig].
    + cbn. intros Hs. destruct (Hc Hs) as (n & Hn & He). exists n. split; [by apply Hmig|done].
  - intros q row' Hq. exists row'. split; [|by left]. unfold UpdateEvacuationItemExecution in Hq.
    by destruct (et_items (vw_db w) !! ei_ID i).
Qed.


(** *** The threads *)

Abbreviation wp_ := (wp ev_step ev_inv ev_rely).

(** Requests that change nothing a plan or an item stands for. *)
Definition calm (X : Type) (e : EvEff X) : Prop :=
  match e with
  | EvInsert _ _ _ | EvSetItem _ _ _ _ | EvCreate _ _ _ => False
  | EvSetPlan _ status => status = "failed"
  | _ => True
  end.

Lemma plan_calm_step t X (e : EvEff X) w x w' :
  calm X e -> ev_step t X e w x w' -> ev_inv w -> ev_inv w' /\ forall t', ev_rely t' w w'.
Proof using Type.
  intros Hc Hs H. destruct e; cbn [ev_step calm] in Hs, Hc; try done.
  all: try (first [subst w'|destruct Hs as [-> _]]; by apply inv_db).
  - exact (proj1 (claim_inv planID w x w' t H Hs)).
  - eapply change_plan_inv; [done| |exact Hs]. auto.
  - eapply change_plan_inv; [done| |exact Hs]. auto.
  - subst w'. apply inv_change; try done; recs.
    + intros y Hy. apply elem_of_app. by left.
    + by left.
    + intros id i' Hi. exists i'. split; [done|]. left. apply faded_refl.
    + intros q row' Hq. exists row'. split; [done|by left].
  - destruct Hs as [_ ->]. by apply inv_db.
Qed.

Lemma plan_wp_calm {A} t (p : E_ A) (P : EvWorld -> Prop) w :
  stable ev_rely t P -> only calm p -> P w -> wp_ t p (fun _ => P) w.
Proof using Type.
  intros HP Hp Hw. eapply (wp_only _ _ _ _ calm P); [done| |exact Hp|done].
  intros X e w1 x w2 He HP1 HI Hs. destruct (plan_calm_step t X e w1 x w2 He Hs HI) as [H1 H2].
  split_and!; [done|by intros|]. by eapply HP.
Qed.

Ltac calm_requests :=
  repeat first
    [ exact I | exact eq_refl
    | match goal with
      | |- only _ (pbind _ _) => apply only_bind; [|intros]
      | |- only _ (etry _ _) => apply only_bind; [|intros [?|?]]
      | |- only _ (request _) => apply only_request
      | |- only _ (Ret _) => exact I
      | |- only _ (match ?x with _ => _ end) => destruct x
      end ].

Lemma lift_calm {A} (p : prog Eff A) : only calm (lift p).
Proof using Type. induction p as [a|X e k IH]; [exact I|]. split; [exact I|exact IH]. Qed.

Lemma publish_calm s kind subject : only calm (publish s kind subject).
Proof using Type. apply lift_calm. Qed.

Lemma get_plan_calm p : only calm (GetEvacuationPlan p).
Proof using Type. unfold GetEvacuationPlan. calm_requests. Qed.

Lemma failPlan_calm s p : only calm (failPlan s p).
Proof using Type.
  unfold failPlan, UpdateEvacuationPlanStatus. apply only_bind.
  - apply only_bind; [apply only_request; exact eq_refl|]. intros [?|?]; [apply get_plan_calm|exact I].
  - intros r. apply only_bind; [apply publish_calm|]. intros _. destruct r; [apply get_plan_calm|exact I].
Qed.

(** The rule of a calm request with what its answer tells. *)
Lemma wp_read {A X} t (e : EvEff X) (k : X -> E_ A) (P : EvWorld -> Prop) (P' : X -> EvWorld -> Prop)
    (Q : A -> EvWorld -> Prop) w :
  stable ev_rely t P -> calm X e ->
  (forall w1 x w2, P w1 -> ev_inv w1 -> ev_inv w2 -> ev_rely t w1 w2 -> ev_step t X e w1 x w2 -> P' x w2) ->
  (forall x w2, P w2 -> P' x w2 -> wp_ t (k x) Q w2) -> P w -> wp_ t (pbind (request e) k) Q w.
Proof using Type.
  intros HP Hc Hl Hk Hw. apply (wp_request _ _ _ t e k P (fun x w => P w /\ P' x w)); [done| | |done].
  - intros w1 x w2 Hp HI Hs. destruct (plan_calm_step t X e w1 x w2 Hc Hs HI) as [H1 H2].
    split_and!; [done|by intros|by eapply HP|]. by eapply Hl.
  - intros x w2 [H1 H2]. by apply Hk.
Qed.

(** An item as it is known. *)
Definition usable (p : string) (i : EvacuationItem) (w : EvWorld) : Prop := ei_PlanID i = p /\ row_ok i w.

(** A plan as it was read: every item that is still there is among these. *)
Definition seen (p : string) (items : list EvacuationItem) (w : EvWorld) : Prop :=
  (forall i, i ∈ items -> usable p i w) /\
  exists l, vw_plans w !! p = Some l /\
    forall i0, i0 ∈ l -> is_Some (et_items (vw_db w) !! ei_ID i0) -> exists i, i ∈ items /\ ei_ID i = ei_ID i0.

Lemma seen_stable t p items : stable ev_rely t (seen p items).
Proof using Type.
  intros w w' (Hi & l & Hl & Hc) HR. split.
  - intros i Hin. destruct (Hi i Hin) as [E Hok]. split; [done|by eapply row_ok_stable].
  - destruct HR as (H1 & _ & _ & _ & H5). exists l. split; [by apply H1|]. intros i0 Hi0 Hs. apply Hc; [done|]. by eapply H5.
Qed.

Definition claimed (p : string) (w : EvWorld) : Prop := p ∈ vw_claims w.

Lemma claimed_stable t p : stable ev_rely t (claimed p).
Proof using Type. intros w w' H (_ & K & _). by apply K. Qed.

Definition known (p : string) (w : EvWorld) : Prop := is_Some (vw_plans w !! p).

Lemma known_stable t p : stable ev_rely t (known p).
Proof using Type. intros w w' [l H] (K & _). exists l. by apply K. Qed.

Lemma items_seen p w : ev_inv w -> known p w ->
  forall items, ListEvacuationItems p (vw_db w) = Got items -> seen p items w.
Proof using Type.
  intros H [l Hl] items [= <-]. unfold ListEvacuationItems.
  assert (Hin : forall i, i ∈ isort (fun a b => str_lt (ei_ID a) (ei_ID b))
      (filter (fun i => ei_PlanID i = p) (values (et_items (vw_db w)))) <->
      ei_PlanID i = p /\ exists k, et_items (vw_db w) !! k = Some i).
  { intros i. rewrite isort_perm, list_elem_of_filter, elem_of_values. done. }
  split.
  - intros i [Hp [k Hk]]%Hin. split; [done|]. by apply (iw_rows w H k).
  - exists l. split; [done|]. intros i0 Hi0 [i Hi]. exists i. destruct (iw_rows w H _ _ Hi) as [Eid Hok]. split; [|done].
    apply Hin. split; [|by eexists]. destruct Hok as ((l' & i1 & Hl' & Hi1 & _ & E & _) & _).
    assert (i1 = i0) as -> by (eapply (iw_same w H); [exact Hl'|exact Hi1|exact Hl|exact Hi0|congruence]).
    rewrite <- (iw_of w H _ _ _ Hl' Hi1). by rewrite (iw_of w H _ _ _ Hl Hi0).
Qed.

(** Reading a plan. *)
Lemma get_plan_wp {A} t p (k : answer EvacuationPlan -> E_ A) (P : EvWorld -> Prop) (Q : A -> EvWorld -> Prop) w :
  stable ev_rely t P ->
  (forall plan w', P w' -> ev_ID plan = p -> seen p (ev_Items plan) w' ->
     (ev_Status plan = "running" -> claimed p w') -> wp_ t (k (Got plan)) Q w') ->
  (forall e w', P w' -> wp_ t (k (Failed e)) Q w') ->
  P w -> wp_ t (pbind (GetEvacuationPlan p) k) Q w.
Proof using Type.
  intros HP Hg Hf Hw. unfold GetEvacuationPlan. apply wp_bind. unfold etry.
  apply (wp_read t _ _ P (fun (r : answer PlanRow) w => match r with
    | Got row => known p w /\ (pw_Status row = "running" -> claimed p w) | Failed _ => True end)); [done|exact I| | |done].
  - intros w1 x w2 _ HI _ HR [-> [->|[e ->]]]; [|done]. unfold plan_row.
    destruct (et_plans (vw_db w1) !! p) as [row|] eqn:E; [|done].
    destruct (iw_plans w1 HI p row E) as (K1 & _ & K3 & _). by split.
  - intros [row|e] w2 Hp2 Hr; [|by apply Hf]. destruct Hr as [Hk Hc].
    set (P2 := fun w => P w /\ known p w /\ (pw_Status row = "running" -> claimed p w)).
    assert (HP2 : stable ev_rely t P2).
    { intros a b (K1 & K2 & K3) HR. split_and!; [by eapply HP|by eapply known_stable|].
      intros Hst. eapply claimed_stable; [by apply K3|done]. }
    apply (wp_read t _ _ P2 (fun (r : answer (list EvacuationItem)) w => match r with
      | Got items => seen p items w | Failed _ => True end)); [done|exact I| | |by split_and!].
    + intros w1 x w3 (_ & Hkn & _) HI _ HR [-> [->|[e ->]]]; [|done].
      by apply items_seen.
    + intros [items|e] w3 (K1 & K2 & K3) Hs; [|by apply Hf]. by apply Hg.
Qed.

(** Writing to an item that is known. *)
Lemma wp_set_item {A} t p i m status err (k : error -> E_ A) (P : EvWorld -> Prop) (Q : A -> EvWorld -> Prop) w :
  stable ev_rely t P -> status ∈ item_statuses ->
  (forall w, P w -> usable p i w /\ (m = "" \/ has_migration m i w) /\ (status = "completed" -> moved i w)) ->
  (forall x w', P w' -> wp_ t (k x) Q w') -> P w ->
  wp_ t (pbind (request (EvSetItem (ei_ID i) m status err)) k) Q w.
Proof using Type.
  intros HP Hst Hknow Hk Hw. apply (wp_request _ _ _ t _ k P (fun _ => P)); [done| |exact Hk|done].
  intros w1 x w2 HP1 HI Hs. destruct (Hknow w1 HP1) as ((_ & Hok) & Hm & Hc).
  destruct (set_item_inv t i m status err x w1 w2 HI (proj1 Hok) Hst Hm Hc Hs) as [H1 H2].
  split_and!; [done|by intros|by eapply HP].
Qed.

(** The items an execution of a claimed plan goes through. *)
Definition executing (p : string) (items : list EvacuationItem) (w : EvWorld) : Prop :=
  claimed p w /\ forall i, i ∈ items -> usable p i w.

Lemma executing_stable t p items : stable ev_rely t (executing p items).
Proof using Type.
  intros w w' [Hc Hi] HR. split; [by eapply claimed_stable|]. intros i Hin. destruct (Hi i Hin) as [E Hok].
  split; [done|by eapply row_ok_stable].
Qed.

Lemma start_item_wp t p items i w :
  i ∈ items -> executing p items w ->
  wp_ t (start_item i) (fun r w => executing p items w /\
    match r with NotStarted m _ => m = "" \/ has_migration m i w | _ => True end) w.
Proof using Type.
  intros Hin Hw. unfold start_item. destruct (String.eqb_spec (ei_TargetNodeID i) "") as [|Ht].
  { split; [done|by left]. }
  apply (wp_request _ _ _ t _ _ (executing p items) (fun (x : answer string) w => executing p items w /\
    match x with Got m => has_migration m i w | Failed _ => True end)); [apply executing_stable| | |done].
  - intros w1 x w2 [Hc Hi] HI Hs. destruct (Hi i Hin) as [Ep [Hrow Hok]]. rewrite Ep in Hrow.
    destruct (create_inv t p i x w1 w2 HI Hc Hrow Ht Hs) as [[H1 H2] H3].
    split_and!; [done|by intros|exact (executing_stable t p items w1 w2 (conj Hc Hi) (H2 t))|]. destruct x; [by apply H3|done].
  - intros [m|e] w2 [He Hm]; [|split; [done|by left]].
    set (P := fun w => executing p items w /\ has_migration m i w).
    assert (HP : stable ev_rely t P).
    { intros a b [K1 K2] HR. split; [by eapply executing_stable|by eapply has_migration_stable]. }
    assert (Hk : forall w, P w -> usable p i w /\ (m = "" \/ has_migration m i w)).
    { intros a [[_ K] K2]. split; [by apply K|by right]. }
    apply (wp_set_item t p i m "preparing" None _ P); [done|unfold item_statuses; set_solver| | |by split].
    { intros a Ha. destruct (Hk a Ha). by split_and!. }
    intros [e|] w3 Hp3; [by destruct Hp3|].
    apply (wp_read t _ _ P (fun _ _ => True)); [done|exact I|done| |done].
    intros [e|] w4 Hp4 _; [split; [by destruct Hp4|right; by destruct Hp4]|].
    apply (wp_read t _ _ P (fun _ _ => True)); [done|exact I|done| |done].
    intros [e|] w5 Hp5 _; [split; [by destruct Hp5|right; by destruct Hp5]|].
    apply (wp_set_item t p i m "running" None _ P); [done|unfold item_statuses; set_solver| | |done].
    { intros a Ha. destruct (Hk a Ha). by split_and!. }
    intros [e|] w6 Hp6; by destruct Hp6.
Qed.

Lemma start_items_wp t p items todo n w :
  (forall i, i ∈ todo -> i ∈ items) -> executing p items w -> wp_ t (start_items n todo) (fun _ _ => True) w.
Proof using Type.
  revert n w. induction todo as [|i todo IH]; intros n w Hsub Hw; cbn [start_items]; [done|].
  destruct (maxConcurrentEvacuationMigrations <=? n); [done|].
  destruct (negb (ei_Eligible i) || _); [apply IH; [intros j Hj; apply Hsub; by right|done]|].
  apply wp_bind. eapply wp_mono; [|by apply start_item_wp; [apply Hsub; left|exact Hw]].
  intros r w1 [He Hr]. assert (Hs : forall j, j ∈ todo -> j ∈ items) by (intros j Hj; apply Hsub; by right).
  destruct r as [|m e|e]; [by apply IH| |done].
  apply (wp_set_item t p i m "failed" (Some e) _ (fun w => executing p items w /\ (m = "" \/ has_migration m i w))).
  - intros a b [K1 K2] HR. split; [by eapply executing_stable|]. destruct K2 as [K2|K2]; [by left|].
    right. by eapply has_migration_stable.
  - unfold item_statuses. set_solver.
  - intros a [[_ K1] K2]. split_and!; [apply K1, Hsub; left|done|done].
  - intros [x|] w2 [K1 _]; [done|by apply IH].
  - by split.
Qed.

Lemma startAvailable_wp executor t p plan w :
  claimed p w -> seen p (ev_Items plan) w -> wp_ t (startAvailableItems executor plan) (fun _ _ => True) w.
Proof using Type.
  intros Hc [Hi _]. unfold startAvailableItems. destruct executor; [|done]. cbn [negb].
  eapply (start_items_wp t p (ev_Items plan)); [done|by split].
Qed.

Lemma in_outcome status : evacuationMigrationOutcome status = "completed" -> status = "completed".
Proof using Type.
  unfold evacuationMigrationOutcome. destruct (String.eqb_spec status "completed") as [->|]; [done|]. by case_match.
Qed.

Lemma reconcile_items_wp t p items w :
  executing p items w -> wp_ t (reconcile_items items) (fun _ => claimed p) w.
Proof using Type.
  revert w. induction items as [|i items IH]; intros w Hw; cbn [reconcile_items]; [by destruct Hw|].
  set (P := executing p (i :: items)).
  assert (HP : stable ev_rely t P) by apply executing_stable.
  assert (Hrest : forall w, P w -> wp_ t (reconcile_items items) (fun _ => claimed p) w).
  { intros a [Hc Ha]. apply IH. split; [done|]. intros j Hj. apply Ha. by right. }
  destruct (negb (in_progress i) || _) eqn:Em; [by apply Hrest|]. apply orb_false_elim in Em as [_ Em].
  apply String.eqb_neq in Em.
  apply (wp_read t _ _ P (fun (r : answer string) w => match r with
    | Got status => (ei_MigrationID i, status) ∈ vw_ended w | Failed _ => True end)); [done|exact I| | |done].
  { intros w1 [status|e] w2 _ _ _ _ Hs; [|done]. cbn [ev_step] in Hs. subst w2. recs.
    apply elem_of_app. right. by apply list_elem_of_singleton. }
  intros [status|e] w2 Hp2 Hr; [|by apply Hrest]. cbv zeta.
  set (P2 := fun w => P w /\ (ei_MigrationID i, status) ∈ vw_ended w).
  assert (HP2 : stable ev_rely t P2).
  { intros a b [K1 K2] HR. split; [by eapply HP|]. destruct HR as (_ & _ & _ & K & _). by apply K. }
  assert (Hk : forall w, P2 w -> usable p i w /\ has_migration (ei_MigrationID i) i w).
  { intros a [[_ K1] _]. pose proof (K1 i ltac:(left)) as Hu. split; [exact Hu|].
    destruct Hu as (_ & _ & _ & [|Hm] & _); [done|exact Hm]. }
  assert (Hend : forall (r : error) w, P2 w ->
    wp_ t match r with Some e => Ret (Some e) | None => reconcile_items items end (fun _ => claimed p) w).
  { intros [e|] a [Ha _]; [by destruct Ha|by apply Hrest]. }
  destruct (String.eqb_spec (evacuationMigrationOutcome status) "completed") as [Ho|].
  - apply (wp_set_item t p i _ "completed" _ _ P2); [done|unfold item_statuses; set_solver| |exact Hend|by split].
    intros a Ha. destruct (Hk a Ha) as [K1 K2]. split_and!; [done|by right|]. intros _.
    exists (ei_MigrationID i). split; [done|]. destruct Ha as [_ Ha]. by rewrite (in_outcome _ Ho) in Ha.
  - destruct (_ =? "failed")%string; [|exact (Hend None w2 (conj Hp2 Hr))].
    apply (wp_set_item t p i _ "failed" _ _ P2); [done|unfold item_statuses; set_solver| |exact Hend|by split].
    intros a Ha. destruct (Hk a Ha) as [K1 K2]. split_and!; [done|by right|done].
Qed.

Lemma fail_wp s t p w : wp_ t (failPlan s p ;;^ Ret tt) (fun _ _ => True) w.
Proof using Type.
  apply (plan_wp_calm t _ (fun _ => True)); [done| |done]. apply only_bind; [apply failPlan_calm|done].
Qed.

(** A plan is complete when every item that was read is. *)
Lemma finished_item items i :
  evacuationPlanFinished items = true -> existsb (fun i => (ei_Status i =? "failed")%string) items = false ->
  i ∈ items -> ei_Status i ∈ item_statuses -> ei_Status i = "completed".
Proof using Type.
  intros Hf Ex Hin Hst. unfold evacuationPlanFinished in Hf. rewrite forallb_forall in Hf.
  specialize (Hf i ltac:(by apply list_elem_of_In)). unfold in_progress in Hf.
  assert (Hne : (ei_Status i =? "failed")%string = false).
  { destruct (ei_Status i =? "failed")%string eqn:E; [|done]. rewrite <- Ex. symmetry. apply existsb_exists.
    exists i. split; [by apply list_elem_of_In|done]. }
  unfold item_statuses in Hst. rewrite !elem_of_cons, elem_of_nil in Hst.
  destruct Hst as [E|[E|[E|[E|[E|[]]]]]]; rewrite E in Hf, Hne; done.
Qed.

Lemma completePlan_wp s t p plan w :
  ev_ID plan = p -> seen p (ev_Items plan) w -> evacuationPlanFinished (ev_Items plan) = true ->
  wp_ t (completePlan s plan) (fun _ _ => True) w.
Proof using Type.
  intros Hid Hs Hf. unfold completePlan. cbv zeta. rewrite Hid.
  assert (Hrest : forall b (x : answer EvacuationPlan) w,
    wp_ t match x with Failed _ => Ret tt | Got _ => publish s b p end (fun _ _ => True) w).
  { intros b [x|e] a; [|done]. apply (plan_wp_calm t _ (fun _ => True)); [done|apply publish_calm|done]. }
  unfold UpdateEvacuationPlanStatus, etry. apply wp_bind, wp_bind.
  assert (Hget : forall b (r : answer bool) w,
    wp_ t match r with Got _ => GetEvacuationPlan p | Failed e => Ret (Failed e) end
      (fun x w => wp_ t match x with Failed _ => Ret tt | Got _ => publish s b p end (fun _ _ => True) w) w).
  { intros b [r|e] a; [|done]. eapply wp_mono; [|apply (plan_wp_calm t _ (fun _ => True)); [done|apply get_plan_calm|done]].
    intros x a' _. apply Hrest. }
  destruct (existsb _ _) eqn:Ex.
  - apply (wp_read t (EvSetPlan p "failed") Ret (fun _ => True) (fun _ _ => True)); [done|exact eq_refl|done| |done].
    intros r w1 _ _. apply Hget.
  - assert (Hm : forall w, ev_inv w -> seen p (ev_Items plan) w -> all_moved p w).
    { intros a HI (Hi & l & Hl & Hc). exists l. split; [done|]. intros i0 Hi0 Hsome.
      destruct (Hc i0 Hi0 Hsome) as (i & Hin & Eid).
      destruct (Hi i Hin) as [Ep ((l' & i1 & Hl' & Hi1 & _ & E1 & E2 & E3 & _) & Hst & _ & Hmv)].
      assert (i1 = i0) as -> by (eapply (iw_same a HI); [exact Hl'|exact Hi1|exact Hl|exact Hi0|congruence]).
      destruct (Hmv (finished_item _ _ Hf Ex Hin Hst)) as (m & [target Hmig] & He).
      exists m. split; [|done]. exists target. by rewrite <- E2, <- E3. }
    apply (wp_request _ _ _ t (EvSetPlan p "completed") Ret (seen p (ev_Items plan)) (fun _ _ => True));
      [apply seen_stable| | |done].
    + intros w1 x w2 Hs1 HI Hstep. cbn [ev_step] in Hstep.
      destruct (change_plan_inv p (fun _ => true) "completed" w1 x w2 HI ltac:(auto 6) Hstep) as [H1 H2].
      by split_and!; [|intros|].
    + intros r w1 _. apply Hget.
Qed.

Lemma observePlan_wp s executor t ticks p w : wp_ t (observePlan s executor ticks p) (fun _ _ => True) w.
Proof using Type.
  assert (Hround : forall (rest : E_ unit), (forall w, wp_ t rest (fun _ _ => True) w) -> forall w,
    wp_ t (let^ r := GetEvacuationPlan p in
           match r with
           | Failed _ => Ret tt
           | Got plan =>
               if negb (ev_Status plan =? "running")%string then Ret tt
               else
                 let^ err := reconcileItems executor plan in
                 match err with
                 | Some _ => failPlan s p ;;^ Ret tt
                 | None =>
                     let^ r := GetEvacuationPlan p in
                     match r with
                     | Failed _ => Ret tt
                     | Got plan =>
                         if evacuationPlanFinished (ev_Items plan) then completePlan s plan
                         else
                           let^ err := startAvailableItems executor plan in
                           match err with Some _ => failPlan s p ;;^ Ret tt | None => rest end
                     end
                 end
           end) (fun _ _ => True) w).
  { intros rest Hrest w0. apply (get_plan_wp t p _ (fun _ => True)); [done| |by intros|done]. intros plan w1 _ Hid Hs Hc.
    destruct (String.eqb_spec (ev_Status plan) "running") as [Hrun|]; [|done]. cbn [negb]. specialize (Hc Hrun).
    apply wp_bind. apply (wp_mono ev_step ev_inv ev_rely t _ (fun _ => claimed p)).
    2:{ unfold reconcileItems. destruct executor; [|exact Hc]. apply (reconcile_items_wp t p). by split; [|apply Hs]. }
    intros [e|] w2 Hc2; [apply fail_wp|].
    apply (get_plan_wp t p _ (claimed p)); [apply claimed_stable| |by intros|done]. intros plan' w3 Hc3 Hid' Hs' _.
    destruct (evacuationPlanFinished _) eqn:Ef; [by eapply completePlan_wp|].
    apply wp_bind. eapply wp_mono; [|by eapply startAvailable_wp]. intros [e|] w4 _; [apply fail_wp|apply Hrest]. }
  revert w. induction ticks as [|ticks IH]; intros w; cbn [observePlan]; apply Hround; [done|exact IH].
Qed.

Lemma startObserver_calm p : only calm (startObserver p).
Proof using Type. unfold startObserver. calm_requests. Qed.

Lemma get_plans_calm ids : only calm (get_plans ids).
Proof using Type.
  induction ids as [|p ids IH]; [exact I|]. cbn [get_plans]. apply only_bind; [apply get_plan_calm|].
  intros [plan|e]; [|exact I]. apply only_bind; [exact IH|]. by intros [plans|e].
Qed.

Lemma resume_calm : only calm resumeRunningPlans.
Proof using Type.
  unfold resumeRunningPlans, ListEvacuationPlansByStatus. apply only_bind.
  - apply only_bind; [apply only_request; exact I|]. intros [ids|e]; [apply get_plans_calm|exact I].
  - intros [plans|e]; [|exact I]. induction plans as [|plan plans IH]; [exact I|]. cbn [start_observers].
    apply only_bind; [apply startObserver_calm|]. intros _. exact IH.
Qed.

Lemma cancel_calm executor p : only calm (CancelPlan executor p).
Proof using Type.
  unfold CancelPlan. destruct executor; [|exact I]. cbn [negb]. apply only_bind; [apply get_plan_calm|].
  intros [plan|e]; [|exact I]. destruct (negb _); [exact I|]. apply only_bind.
  - induction (ev_Items plan) as [|i items IH]; [exact I|]. cbn [cancel_items]. destruct (_ && _); [|exact IH].
    apply only_bind; [apply only_request; exact I|]. by intros [e|].
  - intros [u|e]; [|exact I]. unfold CancelEvacuationPlan. apply only_bind; [apply only_request; exact I|].
    intros [[]|e]; [apply get_plan_calm|exact I|exact I].
Qed.

Lemma ExecutePlan_wp s executor t p w : wp_ t (ExecutePlan s executor p) (fun _ _ => True) w.
Proof using Type.
  unfold ExecutePlan. destruct executor; [|done]. cbn [negb]. unfold StartEvacuationPlan, etry at 1.
  apply wp_bind. unfold etry at 1.
  apply (wp_read t (EvClaim p) _ (fun _ => True) (fun x w => x = Got true -> claimed p w)); [done|exact I| | |done].
  { intros w1 x w2 _ HI _ _ Hs. exact (proj2 (claim_inv p w1 x w2 t HI Hs)). }
  intros [c|e] w1 _ Hc; [|done]. unfold etry.
  apply (get_plan_wp t p _ (fun w => c = true -> claimed p w)); [| |by intros|intros ->; by apply Hc].
  { intros a b K HR Ec. eapply claimed_stable; [by apply K|done]. }
  intros plan w2 Hc2 Hid Hs _. cbn [fst snd]. destruct c; [|done]. cbn [negb].
  apply wp_bind. eapply wp_mono; [|exact (startAvailable_wp true t p plan w2 (Hc2 eq_refl) Hs)]. intros [e|] w3 _.
  - apply (plan_wp_calm t _ (fun _ => True)); [done|apply failPlan_calm|done].
  - apply (plan_wp_calm t _ (fun _ => True)); [done| |done]. apply only_bind; [apply startObserver_calm|].
    intros _. apply get_plan_calm.
Qed.

Lemma plan_storable items : storable (evacuationPlanStatus items) (planStoreItems items).
Proof using Type.
  unfold storable, evacuationPlanStatus. destruct items as [|i items]; [done|].
  destruct (forallb _ _) eqn:Ef; [|done]. split_and!; [|done|done]. intros _.
  rewrite forallb_forall in Ef. apply Forall_forall. intros j (x & -> & Hx)%list_elem_of_fmap.
  apply Ef. by apply list_elem_of_In.
Qed.

Lemma CreatePlan_wp s t nodeID w : wp_ t (CreatePlan s nodeID) (fun _ _ => True) w.
Proof using Type.
  unfold CreatePlan, etry at 1. apply wp_bind. eapply wp_mono; [|apply (plan_wp_calm t _ (fun _ => True)); [done|apply lift_calm|done]].
  intros [result|e] w1 _; [|done]. cbv zeta.
  set (status := evacuationPlanStatus _). set (items := planStoreItems _).
  assert (Hst : storable status items) by apply plan_storable. clearbody status items.
  unfold CreateEvacuationPlan, etry. apply wp_bind.
  apply (wp_request _ _ _ t (EvInsert nodeID status items) _ (fun _ => True) (fun _ _ => True)); [done| | |done].
  { intros a x b _ HI Hs. destruct (insert_inv t nodeID status items a x b HI Hst Hs) as [[H1 H2] _]. by split_and!; [|intros|]. }
  assert (Hrest : forall (r : answer EvacuationPlan) a,
    wp_ t match r with
          | Failed e => request (EvCtl (Count EvacuationValidationFailuresTotal)) ;;^ publish s "plan failed" nodeID ;;^ Ret (Failed e)
          | Got plan =>
              request (EvCtl (Count EvacuationPlansTotal)) ;;^
              publish s "plan created" (ev_ID plan) ;;^
              (if (status =? "failed")%string then publish s "plan failed" (ev_ID plan) else Ret tt) ;;^
              Ret (Got (mkPlanResult plan (pl_Items result) false))
          end (fun _ _ => True) a).
  { intros r a. apply (plan_wp_calm t _ (fun _ => True)); [done| |done]. destruct r as [plan|e].
    - apply only_bind; [by split|]. intros _. apply only_bind; [apply publish_calm|]. intros _.
      destruct (status =? "failed")%string; [apply only_bind; [apply publish_calm|done]|done].
    - apply only_bind; [by split|]. intros _. apply only_bind; [apply publish_calm|done]. }
  intros [p|e] w2 _; [|apply Hrest].
  eapply wp_mono; [|apply (plan_wp_calm t _ (fun _ => True)); [done|apply get_plan_calm|done]]. intros r w3 _. apply Hrest.
Qed.

Lemma caller_wp p t w : caller p -> wp_ t p (fun _ _ => True) w.
Proof using Type.
  intros (s & executor & Hp). destruct Hp as [[node ->]|[[id ->]|[[id ->]|[(ticks & id & ->)| ->]]]].
  - apply wp_bind. eapply wp_mono; [|apply CreatePlan_wp]. done.
  - apply wp_bind. eapply wp_mono; [|apply ExecutePlan_wp]. done.
  - apply (plan_wp_calm t _ (fun _ => True)); [done| |done]. apply only_bind; [apply cancel_calm|done].
  - unfold observer. apply wp_bind. eapply wp_mono; [|apply observePlan_wp]. intros _ w1 _.
    apply (plan_wp_calm t _ (fun _ => True)); [done|by split|done].
  - apply (plan_wp_calm t _ (fun _ => True)); [done|apply resume_calm|done].
Qed.

(** Nothing was planned yet. *)
Definition unplanned (w : EvWorld) : Prop :=
  et_plans (vw_db w) = ∅ /\ et_items (vw_db w) = ∅ /\ vw_plans w = ∅ /\ vw_claims w = [] /\ vw_created w = [] /\
  vw_ended w = [].

(** C12: Whatever calls, observers, processes and failures do at once: a plan
    is claimed by one execution, and only when every server of it can go; a
    migration is asked for only for a server of a claimed plan, from its node
    to the target the plan chose; and a plan is recorded as completed only
    when every server of it that still exists was taken off its node by a
    migration that was reported complete. *)
Theorem plan_runs_sound w ts c :
  unplanned w -> (forall t p, ts !! t = Some p -> caller p) ->
  rtc (pool_step ev_step ev_env caller stays) (mkPool w ts) c ->
  NoDup (vw_claims (shared c)) /\
  (forall p, p ∈ vw_claims (shared c) -> all_eligible p (shared c)) /\
  (forall r, r ∈ vw_created (shared c) -> creation_ok r (shared c)) /\
  (forall p row, et_plans (vw_db (shared c)) !! p = Some row -> pw_Status row = "completed" ->
     all_moved p (shared c)).
Proof using Type.
  intros (E1 & E2 & E3 & E4 & E5 & E6) Hts Hr.
  assert (Hs : safe ev_step ev_inv ev_rely (mkPool w ts)).
  { split; [|intros t p Hp; by eapply caller_wp, Hts].
    split; cbn [shared]; rewrite ?E1, ?E2, ?E3, ?E4, ?E5; try done; try (by intros ? []%elem_of_nil).
    by apply NoDup_nil_2. }
  assert (safe ev_step ev_inv ev_rely c) as [H _].
  { refine (pool_safe ev_step ev_env caller stays ev_inv ev_rely plan_inv_env _ _ _ c Hs Hr).
    - intros t w1 H1. split; [done|]. intros t' _. reflexivity.
    - intros p Hp t w1. by apply caller_wp. }
  split_and!; [by apply iw_claims|by apply iw_claimed|by apply iw_created|].
  intros p row Hp Hst. destruct (iw_plans _ H p row Hp) as (_ & _ & _ & K). by apply K.
Qed.
End Executions.

(** ** When no statement fails *)

Section Answers.
(** What the service of migrations answers; [status] is what it reports. *)
Context (create : string -> EvWorld -> answer string) (prepare execute : string -> error) (status : string -> string).

(** Strings of a length: longer than what is in use, they are new. *)
Fixpoint pad (n : nat) : string := match n with O => "" | S n => "x" ++ pad n end.

Definition lengths (l : list string) : nat := sum_list (map String.length l).
Definition used_plans (w : EvWorld) : list string := map fst (map_to_list (vw_plans w)).
Definition used_items (w : EvWorld) : list string := map ei_ID (concat (map snd (map_to_list (vw_plans w)))).

Definition ev_serve (process : nat -> nat) (t : nat) (X : Type) (e : EvEff X) (w : EvWorld) : X * EvWorld :=
  match e in EvEff X return X * EvWorld with
  | EvCtl e => (fst (example_serve _ e example_world), w)
  | EvInsert nodeID status items =>
      let p := pad (S (lengths (used_plans w))) in
      let ids := map (fun n => pad (S (lengths (used_items w)) + n)) (seq 0 (length items)) in
      match insert_plan p ids nodeID status items (vw_now w) (vw_db w) with
      | (Got tt, db') =>
          (Got p, w <| vw_db := db' |>
                    <| vw_plans := <[p := zip_with (stored_item p) ids items]> (vw_plans w) |>)
      | (Failed e, _) => (Failed e, w)
      end
  | EvPlanRow p => (plan_row p (vw_db w), w)
  | EvItems p => (ListEvacuationItems p (vw_db w), w)
  | EvPlanIDs status => (plan_ids status (vw_db w), w)
  | EvClaim p =>
      match claim_plan p (vw_db w) with
      | (Got true, db') => (Got true, w <| vw_db := db' |> <| vw_claims := vw_claims w ++ [p] |>)
      | (r, _) => (r, w)
      end
  | EvCancel p => let r := cancel_plan p (vw_db w) in (fst r, w <| vw_db := snd r |>)
  | EvSetPlan p status => let r := set_plan p status (vw_db w) in (fst r, w <| vw_db := snd r |>)
  | EvSetItem id m status err =>
      (None, w <| vw_db := UpdateEvacuationItemExecution id m status err (vw_db w) |>)
  | EvCreate server source target =>
      let x := create server w in (x, w <| vw_created := vw_created w ++ [mkCreation x server source target] |>)
  | EvPrepare m => (prepare m, w)
  | EvExecute m => (execute m, w)
  | EvCancelMigration m => (None, w)
  | EvStatus m => (Got (status m), w <| vw_ended := vw_ended w ++ [(m, status m)] |>)
  | EvObservers f =>
      let r := f (vw_observers w (process t)) in
      (fst r, w <| vw_observers := fun p => if (p =? process t)%nat then snd r else vw_observers w p |>)
  | EvGo _ => (tt, w)
  end.

Lemma pad_length n : String.length (pad n) = n.
Proof using Type. induction n as [|n IH]; [done|]. cbn [pad]. change (S (String.length (pad n)) = S n). by rewrite IH. Qed.

Lemma lengths_in x l : x ∈ l -> (String.length x <= lengths l)%nat.
Proof using Type.
  induction l as [|y l IH]; [by intros []%elem_of_nil|]. unfold lengths in *. cbn.
  intros [->|Hx]%elem_of_cons; [lia|]. specialize (IH Hx). lia.
Qed.

Lemma pad_new n l : pad (S (lengths l) + n) ∉ l.
Proof using Type. intros H%lengths_in. rewrite pad_length in H. lia. Qed.

Lemma ev_serve_step process t X (e : EvEff X) w :
  ev_step process t X e w (fst (ev_serve process t X e w)) (snd (ev_serve process t X e w)).
Proof using Type.
  assert (Hst : forall A (r : answer A * EvTables), stated r w (fst r) (w <| vw_db := snd r |>)).
  { intros A r. right. split; [by left|done]. }
  destruct e; cbn [ev_serve ev_step fst snd]; try done; try (by split; [|left]); try apply Hst.
  - right. exists (pad (S (lengths (used_plans w)))), (map (fun n => pad (S (lengths (used_items w)) + n)) (seq 0 (length items))).
    split_and!.
    + destruct (_ !! _) as [l|] eqn:E; [|done]. exfalso. apply elem_of_map_to_list in E.
      apply (pad_new 0 (used_plans w)). rewrite Nat.add_0_r. unfold used_plans. apply list_elem_of_fmap. by exists (pad (S (lengths (used_plans w))), l).
    + by rewrite length_map, length_seq.
    + apply (NoDup_fmap_2_strong _). { intros a b _ _ E. apply (f_equal String.length) in E. rewrite !pad_length in E. lia. }
      apply NoDup_seq.
    + intros id (n & -> & _)%list_elem_of_fmap p l i Hp Hi E. apply (pad_new n (used_items w)). rewrite <- E.
      unfold used_items. apply list_elem_of_fmap. exists i. split; [done|]. apply list_elem_of_In, in_concat.
      exists l. split; [|by apply list_elem_of_In]. apply list_elem_of_In, list_elem_of_fmap. exists (p, l).
      split; [done|]. by apply elem_of_map_to_list.
    + destruct (insert_plan _ _ _ _ _ _ _) as [[[]|e] db']; [split; [by left|done]|done].
  - destruct (claim_plan _ _) as [[[]|e] db']; [right; split; [by left|done]|split; [by left|done]..].
  - by right.
Qed.
End Answers.

(** A service that takes every server once, and whose migrations succeed. *)
Definition one_migration_each (server : string) (w : EvWorld) : answer string :=
  if existsb (fun c => (cr_Server c =? server)%string && match cr_Answer c with Got _ => true | Failed _ => false end)
       (vw_created w)
  then Failed (ErrText "server has an active migration") else Got ("migration of " ++ server)%string.

Definition serves : nat -> forall X, EvEff X -> EvWorld -> X * EvWorld :=
  ev_serve one_migration_each (fun _ => None) (fun _ => None) (fun _ => "completed") (fun _ => 0%nat).

Definition example_fences : gmap string Fence := {[ sv_ID example_server := mkFence 4 None ]}.
Definition example_empty : EvWorld :=
  mkEvWorld (mkEvTables example_fences ∅ ∅) 600 (fun _ => ∅) ∅ [] [] [].

(** A plan is made for node [a], executed, and observed. *)
Definition example_calls : gmap nat (E_ unit) :=
  {[ 0%nat := CreatePlan example_planner "a" ;;^ Ret tt;
     1%nat := ExecutePlan example_planner true "x" ;;^ Ret tt;
     2%nat := observer example_planner true 3 "x" ]}.

Definition example_moves : pool EvEff EvWorld :=
  run_schedule serves (repeat 0 40 ++ repeat 1 20 ++ repeat 2 20)%nat (mkPool example_empty example_calls).


Lemma plan_runs_sound_witness :
  map pw_Status (map snd (map_to_list (et_plans (vw_db (shared example_moves))))) = ["completed"] /\
  all_moved "x" (shared example_moves).
Proof.
  destruct (plan_runs_sound (fun _ => 0%nat) example_empty example_calls example_moves) as (_ & _ & _ & H).
  - by split_and!.
  - intros t p Hp. exists example_planner, true. unfold example_calls in Hp.
    apply lookup_insert_Some in Hp as [[_ <-]|[_ Hp]]; [left; by eexists|].
    apply lookup_insert_Some in Hp as [[_ <-]|[_ Hp]]; [right; left; by eexists|].
    apply lookup_singleton_Some in Hp as [_ <-]. do 3 right. left. by eexists _, _.
  - apply run_schedule_steps. intros. apply ev_serve_step.
  - split; [by vm_compute|]. apply (H "x" (mkPlanRow "a" "completed" 600)); by vm_compute.
Defined.

(** ** What the code does beyond what it says *)

Definition plan_status (p : string) (c : pool EvEff EvWorld) : option string :=
  pw_Status <$> et_plans (vw_db (shared c)) !! p.
Definition item_status (id : string) (c : pool EvEff EvWorld) : option string :=
  ei_Status <$> et_items (vw_db (shared c)) !! id.

(** Nothing keeps an execution that starts the first items and an observer of
    the loop of [Start] from starting the same item: the second is refused a
    migration and records the item, and then the plan, as failed while the
    migration of the first goes on. *)
Definition example_two : gmap nat (E_ unit) :=
  {[ 0%nat := CreatePlan example_planner "a" ;;^ Ret tt;
     1%nat := ExecutePlan example_planner true "x" ;;^ Ret tt;
     2%nat := observer example_planner true 3 "x";
     3%nat := CancelPlan true "x" ;;^ Ret tt ]}.

Definition example_run (turns : list nat) : pool EvEff EvWorld :=
  run_schedule serves (repeat 0%nat 40 ++ turns) (mkPool example_empty example_two).

Lemma two_starters_fail_a_running_item :
  let c := example_run (repeat 1 4 ++ repeat 2 4 ++ repeat 1 4 ++ repeat 2 8)%nat in
  plan_status "x" c = Some "failed" /\ item_status "x" c = Some "failed" /\
  map cr_Answer (vw_created (shared c)) =
    [Got "migration of s1"; Failed (ErrText "server has an active migration")] /\ vw_ended (shared c) = [].
Proof. by vm_compute. Qed.

(** A cancellation reads the plan, and then cancels the migrations it has
    read: one that is started in between goes on, and nobody watches it. *)
Lemma cancel_misses_a_migration :
  let c := example_run (repeat 1 3 ++ repeat 3 2 ++ repeat 1 5 ++ repeat 3 8 ++ repeat 2 8)%nat in
  plan_status "x" c = Some "cancelled" /\ item_status "x" c = Some "running" /\
  map cr_Answer (vw_created (shared c)) = [Got "migration of s1"] /\ vw_ended (shared c) = [].
Proof. by vm_compute. Qed.

(** The status of a plan is written without looking at it: a plan that was
    cancelled is completed by the observer. *)
Lemma cancelled_plan_is_completed :
  let c := example_run (repeat 1 12 ++ repeat 2 6 ++ repeat 3 6)%nat in
  plan_status "x" c = Some "cancelled" /\ plan_status "x" (run_schedule serves [2%nat] c) = Some "completed".
Proof. by vm_compute. Qed.

(** A process that stops after an item was marked as preparing leaves a
    migration that was never executed: however long observers look at the
    plan, the item stays where it is, and so does the plan. *)
Definition interrupted (ended : list (string * string)) : EvWorld :=
  mkEvWorld (mkEvTables example_fences {["x" := mkPlanRow "a" "running" 600]}
    {["x" := mkEvacuationItem "x" "x" "s1" "a" "b" true "candidate selected" "m" "preparing" None]})
    600 (fun _ => ∅) ∅ ["x"] [] ended.

Definition never_executed : nat -> forall X, EvEff X -> EvWorld -> X * EvWorld :=
  ev_serve one_migration_each (fun _ => None) (fun _ => None) (fun _ => "preparing") (fun _ => 0%nat).

Lemma interrupted_item_blocks_the_plan ticks ended :
  vw_db (world_alone (never_executed 0) (observePlan example_planner true ticks "x") (interrupted ended)) =
  vw_db (interrupted ended).
Proof.
  revert ended. induction ticks as [|ticks IH]; intros ended; [reflexivity|].
  etransitivity; [|exact (IH (ended ++ [("m", "preparing")]))]. cbn [observePlan]. set (rest := observePlan _ _ ticks _).
  clearbody rest. repeat (etransitivity; [eapply (f_equal vw_db); apply world_alone_vis|]).
  reflexivity.
Qed.

(** ** How many migrations run at once *)

Definition asked (ev : exchange EvEff) : list (string * string * string) :=
  match ev with
  | existT _ (e, x) => match e with EvCreate server source target => [(server, source, target)] | _ => [] end
  end.

Definition executed (ev : exchange EvEff) : Z :=
  match ev with
  | existT _ (e, x) =>
      match e in EvEff X return X -> Z with
      | EvExecute _ => fun err => match err with None => 1 | Some _ => 0 end | _ => fun _ => 0
      end x
  end.

Definition wanted (i : EvacuationItem) : bool :=
  ei_Eligible i && (ei_Status i =? "pending")%string && negb (ei_TargetNodeID i =? "")%string.

Definition move_of (i : EvacuationItem) : string * string * string :=
  (ei_ServerID i, ei_SourceNodeID i, ei_TargetNodeID i).

Definition moves (items : list EvacuationItem) : list (string * string * string) :=
  map move_of (filter (fun i => wanted i = true) items).

Ltac prun :=
  repeat match goal with
  | H : returns (Ret _) ?tr _ |- _ => destruct tr; [cbn in H; try subst|done]
  | H : returns (pbind (request _) _) _ _ |- _ => apply returns_request in H as (? & ? & -> & H)
  | H : returns (match ?x with _ => _ end) _ _ |- _ => destruct x eqn:?
  end.

Lemma start_item_run i tr r :
  returns (start_item i) tr r ->
  flat_map asked tr = (if (ei_TargetNodeID i =? "")%string then [] else [move_of i]) /\
  sum_by executed tr = match r with Running => 1 | NotStarted _ _ => 0 | Interrupted _ => sum_by executed tr end /\
  0 <= sum_by executed tr <= 1.
Proof.
  unfold start_item. intros H. destruct (ei_TargetNodeID i =? "")%string; [by prun|]. prun; repeat case_match; simplify_eq; unfold sum_by, answered; cbn; split_and!; done || lia.
Qed.

Lemma moves_cons i items : moves (i :: items) = (if wanted i then [move_of i] else []) ++ moves items.
Proof. unfold moves. rewrite filter_cons. destruct (wanted i); by case_decide. Qed.

Lemma start_items_run n items tr err :
  returns (start_items n items) tr err ->
  flat_map asked tr `sublist_of` moves items /\ 0 <= sum_by executed tr /\
  n + sum_by executed tr <= Z.max maxConcurrentEvacuationMigrations n /\
  (err = None -> flat_map asked tr = moves items \/ maxConcurrentEvacuationMigrations <= n + sum_by executed tr).
Proof.
  revert n tr. induction items as [|i items IH]; intros n tr H; cbn [start_items] in H.
  { prun. cbn. split_and!; [done|lia|lia|by left]. }
  destruct (Z.leb_spec maxConcurrentEvacuationMigrations n) as [Hn|Hn].
  { prun. cbn. split_and!; [apply sublist_nil_l|lia|lia|right; lia]. }
  rewrite moves_cons. destruct (negb (ei_Eligible i) || _) eqn:Ew.
  { assert (wanted i = false) as ->; [|by apply IH]. unfold wanted.
    destruct (ei_Eligible i), (ei_Status i =? "pending")%string; done. }
  assert (Hw : (if wanted i then [move_of i] else []) = if (ei_TargetNodeID i =? "")%string then [] else [move_of i]).
  { unfold wanted. apply orb_false_elim in Ew as [->%negb_false_iff ->%negb_false_iff]. cbn.
    by destruct (ei_TargetNodeID i =? "")%string. }
  rewrite Hw. clear Hw Ew. apply returns_bind in H as (r & tr1 & tr2 & -> & H1 & H2).
  apply start_item_run in H1 as (Ha & He & Hb). rewrite flat_map_app, sum_by_app, Ha.
  set (mine := if (ei_TargetNodeID i =? "")%string then [] else [move_of i]). clearbody mine. clear Ha.
  assert (Hgo : forall tr2 n', returns (start_items n' items) tr2 err -> n <= n' -> n' = n + sum_by executed tr1 ->
    n' <= maxConcurrentEvacuationMigrations ->
    mine ++ flat_map asked tr2 `sublist_of` mine ++ moves items /\ 0 <= sum_by executed tr1 + sum_by executed tr2 /\
    n + (sum_by executed tr1 + sum_by executed tr2) <= Z.max maxConcurrentEvacuationMigrations n /\
    (err = None -> mine ++ flat_map asked tr2 = mine ++ moves items \/
       maxConcurrentEvacuationMigrations <= n + (sum_by executed tr1 + sum_by executed tr2))).
  { intros tr n' Hr Hle Hn' Hmax. apply IH in Hr as (K1 & K2 & K3 & K4).
    split_and!; [by apply sublist_app|lia|lia|]. intros E. destruct (K4 E) as [K|K]; [left; by rewrite K|right; lia]. }
  destruct r as [|m e|e].
  - apply (Hgo tr2 (n + 1) H2); unfold maxConcurrentEvacuationMigrations in *; lia.
  - prun.
    + cbn. rewrite !app_nil_r. split_and!; [by apply sublist_inserts_r|lia|lia|done].
    + match goal with H : returns (start_items _ _) ?t _ |- _ => destruct (Hgo t n H) as (K1 & K2 & K3 & K4) end;
        [unfold maxConcurrentEvacuationMigrations in *; lia..|]. by split_and!.
  - prun. cbn. rewrite app_nil_r. unfold maxConcurrentEvacuationMigrations in *.
    split_and!; [by apply sublist_inserts_r|lia|lia|done].
Qed.

(** C36: In a call that fills the slots at most as many migrations are
    executed as there are slots free, whatever is answered; migrations are
    asked for in the order of the items, for pending items that can move and
    have a target, once each; and unless the call fails, every such item was
    asked for or all slots are taken. *)
Theorem startAvailableItems_bounded executor plan tr err :
  returns (startAvailableItems executor plan) tr err ->
  flat_map asked tr `sublist_of` moves (ev_Items plan) /\
  active (ev_Items plan) + sum_by executed tr <= Z.max maxConcurrentEvacuationMigrations (active (ev_Items plan)) /\
  (err = None -> flat_map asked tr = moves (ev_Items plan) \/
     maxConcurrentEvacuationMigrations <= active (ev_Items plan) + sum_by executed tr).
Proof.
  unfold startAvailableItems. intros H. destruct executor; cbn [negb] in H.
  - by apply start_items_run in H as (H1 & _ & H3 & H4).
  - prun. cbn. split_and!; [apply sublist_nil_l|lia|done].
Qed.

(** Three servers to move: two go first. *)
Definition three_items : list EvacuationItem :=
  map (fun n => mkEvacuationItem n "p" ("server " ++ n) "a" "b" true "" "" "pending" None) ["i1"; "i2"; "i3"].
Definition three_plan : EvacuationPlan := mkEvacuationPlan "p" "a" "running" three_items.

Lemma startAvailableItems_bounded_witness :
  let tr := trace_alone (serves 0) (startAvailableItems true three_plan) example_empty in
  flat_map asked tr = [("server i1", "a", "b"); ("server i2", "a", "b")] /\
  active three_items + sum_by executed tr <= 2.
Proof.
  cbv zeta. set (tr := trace_alone _ _ _). split; [by vm_compute|].
  pose proof (returns_alone (serves 0) (startAvailableItems true three_plan) example_empty) as H.
  exact (proj1 (proj2 (startAvailableItems_bounded true three_plan tr _ H))).
Defined.

(** ** A plan that is observed comes to its end *)

Section Settling.
Context (create : string -> EvWorld -> answer string) (prepare execute : string -> error) (status : string -> string).
Context (process : nat -> nat) (t : nat) (s : Planner) (p : string).
(** The service of migrations gives ids, and every migration ends. *)
Hypothesis (Hcreate : forall server w, create server w <> Got "").
Hypothesis (Hends : forall m, evacuationMigrationOutcome (status m) <> "pending").

#[local] Notation h := (ev_serve create prepare execute status process t).

(** What the tables hold of the plan makes sense. *)
Definition row_fine (i : EvacuationItem) : Prop :=
  ei_Status i ∈ item_statuses /\ (ei_Status i = "pending" -> ei_Eligible i = true) /\
  (in_progress i = true -> ei_MigrationID i <> "").

Definition rows_fine (w : EvWorld) : Prop :=
  forall id i, et_items (vw_db w) !! id = Some i -> ei_ID i = id /\ (ei_PlanID i = p -> row_fine i).

Definition waiting (e : string * EvacuationItem) : Prop := ei_PlanID e.2 = p /\ ei_Status e.2 = "pending".
#[local] Instance waiting_dec e : base.Decision (waiting e).
Proof. unfold waiting. apply _. Defined.

Definition pendings (w : EvWorld) : nat := size (filter waiting (et_items (vw_db w))).

(** An item of the plan is no longer pending. *)
Definition set_row (m st : string) (err : error) (i : EvacuationItem) : EvacuationItem :=
  mkEvacuationItem (ei_ID i) (ei_PlanID i) (ei_ServerID i) (ei_SourceNodeID i) (ei_TargetNodeID i) (ei_Eligible i)
    (ei_Reason i) m st err.

Definition marked (i : EvacuationItem) (ends : bool) (w w' : EvWorld) : Prop :=
  et_plans (vw_db w') = et_plans (vw_db w) /\
  exists m st err, st ∈ item_statuses /\ st <> "pending" /\
    (if ends then st = "completed" \/ st = "failed" else m <> "" \/ st = "failed") /\
    et_items (vw_db w') = <[ei_ID i := set_row m st err i]> (et_items (vw_db w)).

Lemma set_item_db id m st err db i :
  et_items db !! id = Some i ->
  UpdateEvacuationItemExecution id m st err db =
    mkEvTables (et_fences db) (et_plans db) (<[id := set_row m st err i]> (et_items db)).
Proof using Type. unfold UpdateEvacuationItemExecution. by intros ->. Qed.

Lemma marked_rows i ends w w' :
  et_items (vw_db w) !! ei_ID i = Some i -> ei_PlanID i = p -> rows_fine w -> marked i ends w w' ->
  rows_fine w' /\ (pendings w' <= pendings w)%nat /\
  (ei_Status i = "pending" -> (pendings w' < pendings w)%nat) /\
  (forall id, id <> ei_ID i -> et_items (vw_db w') !! id = et_items (vw_db w) !! id) /\
  (exists i', et_items (vw_db w') !! ei_ID i = Some i' /\ (ends = true -> in_progress i' = false)) /\
  et_plans (vw_db w') = et_plans (vw_db w).
Proof using Type.
  intros Hi Hp Hf (Ep & m & st & err & Hst & Hne & Hend & Ei).
  assert (Hfilter : filter waiting (et_items (vw_db w')) = delete (ei_ID i) (filter waiting (et_items (vw_db w)))).
  { rewrite Ei, map_filter_insert_False, map_filter_delete; [done|]. intros [_ H]. by cbn in H. }
  split_and!.
  - intros id j Hj. rewrite Ei in Hj. apply lookup_insert_Some in Hj as [[<- <-]|[_ Hj]]; [|by apply Hf].
    split; [done|]. intros _. split; [done|]. split; [by intros|]. intros Hpr. cbn in *.
    destruct ends; unfold in_progress in Hpr; cbn in Hpr; [destruct Hend as [-> | ->]; done|]. destruct Hend as [Hm| ->]; done.
  - unfold pendings. rewrite Hfilter, map_size_delete. destruct (filter waiting (et_items (vw_db w)) !! ei_ID i); unfold id; lia.
  - intros Hs. unfold pendings. rewrite Hfilter, map_size_delete.
    assert (E : filter waiting (et_items (vw_db w)) !! ei_ID i = Some i) by (by apply map_lookup_filter_Some).
    rewrite E. assert (size (filter waiting (et_items (vw_db w))) <> 0)%nat; [|cbn; lia].
    apply map_size_non_empty_iff. intros E0. by rewrite E0 in E.
  - intros id Hid. rewrite Ei. by apply lookup_insert_ne.
  - exists (set_row m st err i). split; [rewrite Ei; apply lookup_insert_eq|]. intros ->. unfold in_progress. cbn.
    by destruct Hend as [-> | ->].
  - done.
Qed.

(** The row of [i] was written, or nothing was. *)
Definition touched (i : EvacuationItem) (w w' : EvWorld) : Prop :=
  et_plans (vw_db w') = et_plans (vw_db w) /\
  (et_items (vw_db w') = et_items (vw_db w) \/
   exists m st err, et_items (vw_db w') = <[ei_ID i := set_row m st err i]> (et_items (vw_db w))).

Lemma set_item_marks i j ends m st err w w1 :
  et_items (vw_db w) !! ei_ID i = Some i -> touched i w w1 -> j = ei_ID i -> st ∈ item_statuses -> st <> "pending" ->
  (if ends : bool then st = "completed" \/ st = "failed" else m <> "" \/ st = "failed") ->
  marked i ends w (snd (h _ (EvSetItem j m st err) w1)).
Proof using Type.
  intros Hi [Ep Ht] -> Hst Hne Hend. cbn [ev_serve snd].
  assert (Hj : exists m0 st0 err0, et_items (vw_db w1) !! ei_ID i = Some (set_row m0 st0 err0 i) /\
    <[ei_ID i := set_row m st err i]> (et_items (vw_db w1)) = <[ei_ID i := set_row m st err i]> (et_items (vw_db w))).
  { destruct Ht as [->|(m0 & st0 & err0 & ->)].
    - exists (ei_MigrationID i), (ei_Status i), (ei_Error i). split; [|done]. rewrite Hi. by destruct i.
    - exists m0, st0, err0. split; [apply lookup_insert_eq|apply insert_insert_eq]. }
  destruct Hj as (m0 & st0 & err0 & Hj & Hins). split.
  - recs. by rewrite (set_item_db _ _ _ _ _ _ Hj).
  - exists m, st, err. split_and!; try done. recs. by rewrite (set_item_db _ _ _ _ _ _ Hj).
Qed.

Lemma start_item_alone i w :
  et_items (vw_db w) !! ei_ID i = Some i ->
  match answer_alone h (start_item i) w with
  | Running => marked i false w (world_alone h (start_item i) w)
  | NotStarted _ _ => touched i w (world_alone h (start_item i) w)
  | Interrupted _ => False
  end.
Proof using Hcreate Hends.
  intros Hi. unfold start_item. destruct (ei_TargetNodeID i =? "")%string; [split; auto|].
  rewrite !answer_alone_bind, !world_alone_bind.
  set (w1 := world_alone h (request (EvCreate _ _ _)) w).
  assert (E1 : vw_db w1 = vw_db w) by done.
  change (answer_alone h (request (EvCreate (ei_ServerID i) (ei_SourceNodeID i) (ei_TargetNodeID i))) w)
    with (create (ei_ServerID i) w). clearbody w1.
  assert (Ht : touched i w w1) by (split; rewrite E1; auto).
  destruct (create (ei_ServerID i) w) as [m|e] eqn:Ec; [|exact Ht].
  assert (Hm : m <> "") by (intros ->; by apply (Hcreate (ei_ServerID i) w)).
  assert (H2 : marked i false w (snd (h _ (EvSetItem (ei_ID i) m "preparing" None) w1))).
  { apply set_item_marks; try done; [unfold item_statuses; set_solver|by left]. }
  rewrite !answer_alone_bind, !world_alone_bind.
  change (answer_alone h (request (EvSetItem (ei_ID i) m "preparing" None)) w1) with (None : error).
  change (world_alone h (request (EvSetItem (ei_ID i) m "preparing" None)) w1)
    with (snd (h _ (EvSetItem (ei_ID i) m "preparing" None) w1)).
  set (w2 := snd _) in *. clearbody w2.
  assert (Ht2 : touched i w w2) by (destruct H2 as (K1 & a & b & c & _ & _ & _ & K2); split; eauto).
  cbv beta iota. rewrite !answer_alone_bind, !world_alone_bind.
  change (answer_alone h (request (EvPrepare m)) w2) with (prepare m).
  change (world_alone h (request (EvPrepare m)) w2) with w2.
  destruct (prepare m) as [e|]; [exact Ht2|]. rewrite !answer_alone_bind, !world_alone_bind.
  change (answer_alone h (request (EvExecute m)) w2) with (execute m).
  change (world_alone h (request (EvExecute m)) w2) with w2.
  destruct (execute m) as [e|]; [exact Ht2|]. rewrite !answer_alone_bind, !world_alone_bind.
  apply (set_item_marks i (ei_ID i) false m "running" None w w2); try done; [unfold item_statuses; set_solver|by left].
Qed.

(** Rows of the plan as they are in the tables. *)
Definition current (items : list EvacuationItem) (w : EvWorld) : Prop :=
  NoDup (map ei_ID items) /\
  forall i, i ∈ items -> et_items (vw_db w) !! ei_ID i = Some i /\ ei_PlanID i = p.

Lemma current_tail i items ends w w' :
  current (i :: items) w -> rows_fine w -> marked i ends w w' -> current items w'.
Proof using Type.
  intros [Hnd Hc] Hf Hm. cbn in Hnd. apply NoDup_cons in Hnd as [Hni Hnd]. split; [done|]. intros j Hj.
  destruct (Hc j ltac:(by right)) as [Ej Epj]. split; [|done].
  destruct (Hc i ltac:(left)) as [Ei Epi].
  destruct (marked_rows i ends w w' Ei Epi Hf Hm) as (_ & _ & _ & K & _). rewrite K; [done|].
  intros E. apply Hni. rewrite <- E. apply list_elem_of_fmap. by exists j.
Qed.

Lemma current_drop i items w : current (i :: items) w -> current items w.
Proof using Type.
  intros [Hnd Hc]. cbn in Hnd. apply NoDup_cons in Hnd as [_ Hnd]. split; [done|]. intros j Hj. apply Hc. by right.
Qed.

Lemma start_items_alone items n w :
  current items w -> rows_fine w ->
  answer_alone h (start_items n items) w = None /\
  let w' := world_alone h (start_items n items) w in
  et_plans (vw_db w') = et_plans (vw_db w) /\ rows_fine w' /\ (pendings w' <= pendings w)%nat /\
  (n < maxConcurrentEvacuationMigrations -> Exists (fun i => ei_Status i = "pending") items ->
   (pendings w' < pendings w)%nat).
Proof using Hcreate Hends.
  revert n w. induction items as [|i items IH]; intros n w Hc Hf; cbv zeta.
  { split_and!; try done. intros _ H. by inversion H. }
  pose proof (Hc) as [_ Hci]. destruct (Hci i ltac:(left)) as [Ei Ep]. clear Hci.
  cbn [start_items]. destruct (Z.leb_spec maxConcurrentEvacuationMigrations n) as [Hn|Hn].
  { split_and!; try done. intros. lia. }
  destruct (Hf _ _ Ei) as [_ Hrow]. specialize (Hrow Ep) as (_ & Hel & _).
  destruct (negb (ei_Eligible i) || _) eqn:Ew.
  { destruct (IH n w (current_drop _ _ _ Hc) Hf) as (H1 & H2 & H3 & H4 & H5). split_and!; try done.
    intros Hlt Hex. apply H5; [done|]. apply Exists_cons in Hex as [Hp|Hex]; [|done]. exfalso.
    rewrite Hp, (Hel Hp) in Ew. done. }
  apply orb_false_elim in Ew as [_ Es]. apply negb_false_iff, String.eqb_eq in Es.
  assert (Hend : forall n' w', marked i false w w' ->
    answer_alone h (start_items n' items) w' = None /\
    let w'' := world_alone h (start_items n' items) w' in
    et_plans (vw_db w'') = et_plans (vw_db w) /\ rows_fine w'' /\ (pendings w'' < pendings w)%nat).
  { intros n' w' Hm. destruct (marked_rows i false w w' Ei Ep Hf Hm) as (K1 & K2 & K3 & K4 & K5 & K6).
    destruct (IH n' w' (current_tail _ _ _ _ _ Hc Hf Hm) K1) as (H1 & H2 & H3 & H4 & H5).
    specialize (K3 Es). cbv zeta in *. split_and!; [done|congruence|done|lia]. }
  pose proof (start_item_alone i w Ei) as Hs. rewrite !answer_alone_bind, !world_alone_bind.
  destruct (answer_alone h (start_item i) w) as [|m e|e]; [| |done].
  - destruct (Hend (n + 1) _ Hs) as (H1 & H2 & H3 & H4). cbv zeta in *. split_and!; try done; intros; lia.
  - rewrite !answer_alone_bind, !world_alone_bind. set (w1 := world_alone h (start_item i) w) in *. clearbody w1.
    assert (Hm : marked i false w (snd (h _ (EvSetItem (ei_ID i) m "failed" (Some e)) w1))).
    { apply set_item_marks; try done; [unfold item_statuses; set_solver|by right]. }
    destruct (Hend n _ Hm) as (H1 & H2 & H3 & H4). cbv zeta in *. split_and!; try done; exact (Nat.lt_le_incl _ _ H4).
Qed.

Lemma outcome_ends m :
  evacuationMigrationOutcome (status m) = "completed" \/ evacuationMigrationOutcome (status m) = "failed".
Proof using Hcreate Hends.
  pose proof (Hends m) as H. unfold evacuationMigrationOutcome in *. repeat case_match; auto; done.
Qed.

(** An observer's look at the items that are under way. *)
Lemma reconcile_items_alone items w :
  current items w -> rows_fine w ->
  answer_alone h (reconcile_items items) w = None /\
  let w' := world_alone h (reconcile_items items) w in
  et_plans (vw_db w') = et_plans (vw_db w) /\ rows_fine w' /\ (pendings w' <= pendings w)%nat /\
  (forall id j, et_items (vw_db w') !! id = Some j -> in_progress j = true ->
     et_items (vw_db w) !! id = Some j /\ id ∉ map ei_ID items).
Proof using Hcreate Hends.
  revert w. induction items as [|i items IH]; intros w Hc Hf; cbv zeta.
  { split_and!; try done. intros id j Hj _. split; [exact Hj|]. apply not_elem_of_nil. }
  pose proof (Hc) as [Hnd Hci]. destruct (Hci i ltac:(left)) as [Ei Ep]. clear Hci.
  cbn in Hnd. apply NoDup_cons in Hnd as [Hni _].
  cbn [reconcile_items]. destruct (Hf _ _ Ei) as [_ Hrow]. specialize (Hrow Ep) as (_ & _ & Hmig).
  destruct (negb (in_progress i) || _) eqn:Ew.
  { destruct (IH w (current_drop _ _ _ Hc) Hf) as (H1 & H2 & H3 & H4 & H5). cbv zeta in *. split_and!; try done.
    intros id j Hj Hp. destruct (H5 id j Hj Hp) as [K1 K2]. split; [done|]. cbn. intros [->|Hin]%elem_of_cons; [|done].
    assert (j = i) as -> by congruence. apply orb_true_iff in Ew as [Ew|Ew]; [by rewrite Hp in Ew|].
    apply String.eqb_eq in Ew. by apply (Hmig Hp). }
  clear Ew.
  assert (Hend : forall w', marked i true w w' ->
    answer_alone h (reconcile_items items) w' = None /\
    let w'' := world_alone h (reconcile_items items) w' in
    et_plans (vw_db w'') = et_plans (vw_db w) /\ rows_fine w'' /\ (pendings w'' <= pendings w)%nat /\
    (forall id j, et_items (vw_db w'') !! id = Some j -> in_progress j = true ->
       et_items (vw_db w) !! id = Some j /\ id ∉ map ei_ID (i :: items))).
  { intros w' Hm. destruct (marked_rows i true w w' Ei Ep Hf Hm) as (K1 & K2 & _ & K4 & (i' & K5 & K5') & K6).
    destruct (IH w' (current_tail _ _ _ _ _ Hc Hf Hm) K1) as (H1 & H2 & H3 & H4 & H5). cbv zeta in *.
    split_and!; [done|congruence|done|lia|]. intros id j Hj Hp. destruct (H5 id j Hj Hp) as [L1 L2].
    assert (Hid : id <> ei_ID i). { intros ->. rewrite K5 in L1. injection L1 as <-. by rewrite K5' in Hp. }
    split; [by rewrite <- K4|]. cbn. by intros [|]%elem_of_cons. }
  rewrite !answer_alone_bind, !world_alone_bind.
  set (w1 := world_alone h (request (EvStatus (ei_MigrationID i))) w).
  change (answer_alone h (request (EvStatus (ei_MigrationID i))) w) with (Got (status (ei_MigrationID i))).
  assert (Ht : touched i w w1) by (split; auto). clearbody w1. cbv beta iota zeta.
  assert (Hmark : forall st err, st = "completed" \/ st = "failed" ->
    marked i true w (snd (h _ (EvSetItem (ei_ID i) (ei_MigrationID i) st err) w1))).
  { intros st err Hst. apply set_item_marks; try done; destruct Hst as [-> | ->]; unfold item_statuses; set_solver. }
  rewrite !answer_alone_bind, !world_alone_bind.
  destruct (outcome_ends (ei_MigrationID i)) as [-> | ->].
  - exact (Hend _ (Hmark "completed" None ltac:(by left))).
  - exact (Hend _ (Hmark "failed" _ ltac:(by right))).
Qed.

(** Reading a plan that is there. *)
Lemma get_plan_alone w row :
  et_plans (vw_db w) !! p = Some row -> rows_fine w ->
  exists items, answer_alone h (GetEvacuationPlan p) w = Got (mkEvacuationPlan p (pw_NodeID row) (pw_Status row) items) /\
    world_alone h (GetEvacuationPlan p) w = w /\ current items w /\
    (forall id i, et_items (vw_db w) !! id = Some i -> ei_PlanID i = p -> i ∈ items).
Proof using Type.
  intros Hp Hf.
  set (items := isort (fun a b => str_lt (ei_ID a) (ei_ID b)) (filter (fun i => ei_PlanID i = p) (values (et_items (vw_db w))))).
  assert (Hin : forall i, i ∈ items <-> ei_PlanID i = p /\ exists k, et_items (vw_db w) !! k = Some i).
  { intros i. unfold items. rewrite isort_perm, list_elem_of_filter, elem_of_values. done. }
  exists items. split_and!.
  - unfold GetEvacuationPlan, etry. rewrite answer_alone_bind.
    change (answer_alone h (request (EvPlanRow p)) w) with (plan_row p (vw_db w)). unfold plan_row. by rewrite Hp.
  - unfold GetEvacuationPlan, etry. rewrite world_alone_bind.
    change (answer_alone h (request (EvPlanRow p)) w) with (plan_row p (vw_db w)). unfold plan_row. by rewrite Hp.
  - split.
    + unfold items. rewrite isort_perm. 
      assert (Hnd : NoDup (map ei_ID (values (et_items (vw_db w))))).
      { unfold values. rewrite map_map. erewrite (map_ext_in _ fst); [apply NoDup_fst_map_to_list|].
        intros [k i] Hk. apply list_elem_of_In, elem_of_map_to_list in Hk. by destruct (Hf k i Hk). }
      clear Hin items. induction (values (et_items (vw_db w))) as [|i l IH]; [done|].
      cbn in Hnd. apply NoDup_cons in Hnd as [Hni Hnd]. rewrite filter_cons. case_decide; [|by apply IH].
      cbn. apply NoDup_cons. split; [|by apply IH]. intros (j & E & Hj)%list_elem_of_fmap. apply Hni.
      apply list_elem_of_filter in Hj as [_ Hj]. apply list_elem_of_fmap. by exists j.
    + intros i [Ep [k Hk]]%Hin. destruct (Hf k i Hk) as [Eid _]. split; [by rewrite Eid|done].
  - intros id i Hi Ep. apply Hin. split; [done|by eexists].
Qed.

(** Nothing of the plan is pending or under way. *)
Definition settled (w : EvWorld) : Prop :=
  forall id i, et_items (vw_db w) !! id = Some i -> ei_PlanID i = p -> ei_Status i = "completed" \/ ei_Status i = "failed".

Definition ended (w : EvWorld) : Prop :=
  (exists row, et_plans (vw_db w) !! p = Some row /\ (pw_Status row = "completed" \/ pw_Status row = "failed")) /\ settled w.

Lemma finished_settled items w :
  current items w -> rows_fine w -> (forall id i, et_items (vw_db w) !! id = Some i -> ei_PlanID i = p -> i ∈ items) ->
  evacuationPlanFinished items = true -> settled w.
Proof using Type.
  intros Hc Hf Hall Hfin id i Hi Hp. unfold evacuationPlanFinished in Hfin. rewrite forallb_forall in Hfin.
  specialize (Hfin i ltac:(apply list_elem_of_In; by eapply Hall)). destruct (Hf id i Hi) as [_ Hrow].
  destruct (Hrow Hp) as (Hst & _). unfold item_statuses in Hst. rewrite !elem_of_cons, elem_of_nil in Hst.
  unfold in_progress in Hfin. destruct Hst as [E|[E|[E|[E|[E|[]]]]]]; rewrite E in Hfin; auto; done.
Qed.

Lemma publish_alone kind subject w : vw_db (world_alone h (publish s kind subject) w) = vw_db w.
Proof using Type.
  unfold publish. generalize (publish_plan s kind subject). intros q. revert w.
  induction q as [a|X e k IH]; intros w; [done|]. cbn [lift]. rewrite world_alone_vis. by rewrite IH.
Qed.

Lemma completePlan_alone w row items :
  et_plans (vw_db w) !! p = Some row -> rows_fine w -> settled w ->
  ended (world_alone h (completePlan s (mkEvacuationPlan p (pw_NodeID row) (pw_Status row) items)) w).
Proof using Type.
  intros Hp Hf Hs. unfold completePlan. cbv zeta. cbn [ev_Items ev_ID].
  set (status' := if existsb _ items then "failed" else "completed").
  assert (Hst : status' = "completed" \/ status' = "failed") by (subst status'; case_match; auto). clearbody status'.
  rewrite world_alone_bind. unfold UpdateEvacuationPlanStatus, etry. rewrite !world_alone_bind, !answer_alone_bind.
  set (w1 := world_alone h (request (EvSetPlan p status')) w).
  assert (Ea : answer_alone h (request (EvSetPlan p status')) w = Got true /\
    vw_db w1 = mkEvTables (et_fences (vw_db w)) (<[p := mkPlanRow (pw_NodeID row) status' (pw_CreatedAt row)]> (et_plans (vw_db w)))
                 (et_items (vw_db w))).
  { change (answer_alone h (request (EvSetPlan p status')) w) with (fst (set_plan p status' (vw_db w))).
    change (vw_db w1) with (snd (set_plan p status' (vw_db w))). unfold set_plan, change_plan. rewrite Hp.
    by destruct Hst as [-> | ->]. }
  destruct Ea as [-> E1]. clearbody w1. cbv beta iota.
  assert (Hf1 : rows_fine w1) by (intros id i Hi; rewrite E1 in Hi; by apply Hf).
  destruct (get_plan_alone w1 (mkPlanRow (pw_NodeID row) status' (pw_CreatedAt row))) as (items' & -> & -> & _ & _);
    [rewrite E1; apply lookup_insert_eq|exact Hf1|].
  unfold ended, settled. rewrite publish_alone, E1. split; [|exact Hs].
  eexists. split; [apply lookup_insert_eq|exact Hst].
Qed.

Lemma none_in_progress items items1 w w1 :
  (forall id i, et_items (vw_db w) !! id = Some i -> ei_PlanID i = p -> i ∈ items) -> rows_fine w -> current items1 w1 ->
  (forall id j, et_items (vw_db w1) !! id = Some j -> in_progress j = true ->
     et_items (vw_db w) !! id = Some j /\ id ∉ map ei_ID items) ->
  forall i, i ∈ items1 -> in_progress i = false.
Proof using Type.
  intros Hall Hf [_ Hc] Hpr i Hi. destruct (in_progress i) eqn:E; [|done]. exfalso. destruct (Hc i Hi) as [Hl Hp].
  destruct (Hpr _ _ Hl E) as [Hl' Hni]. apply Hni. apply list_elem_of_fmap. exists i. split; [done|]. by eapply Hall.
Qed.

Lemma unfinished_pending items1 :
  (forall i, i ∈ items1 -> in_progress i = false) -> evacuationPlanFinished items1 = false ->
  Exists (fun i => ei_Status i = "pending") items1.
Proof using Type.
  intros Hn Hf. unfold evacuationPlanFinished in Hf. induction items1 as [|i l IH]; [done|]. cbn in Hf.
  rewrite (Hn i ltac:(left)) in Hf. apply Exists_cons. destruct (String.eqb_spec (ei_Status i) "pending") as [E|E]; [by left|].
  right. apply IH; [intros j Hj; apply Hn; by right|exact Hf].
Qed.

Lemma unfinished_active items1 : (forall i, i ∈ items1 -> in_progress i = false) -> active items1 = 0.
Proof using Type.
  intros Hn. unfold active. induction items1 as [|i l IH]; [done|]. rewrite filter_cons, (Hn i ltac:(left)).
  case_decide; [done|]. apply IH. intros j Hj. apply Hn. by right.
Qed.

(** Rounds until nothing is pending. *)
Lemma observePlan_ends ticks w row :
  et_plans (vw_db w) !! p = Some row -> pw_Status row = "running" -> rows_fine w -> (pendings w <= ticks)%nat ->
  ended (world_alone h (observePlan s true ticks p) w).
Proof using Hcreate Hends.
  revert w. induction ticks as [|ticks IH]; intros w Hp Hrun Hf Hle.
  all: destruct (get_plan_alone w row Hp Hf) as (items & Ea & Ew & Hc & Hall).
  all: destruct (reconcile_items_alone items w Hc Hf) as (Er & Ep1 & Hf1 & Hle1 & Hpr).
  all: cbv zeta in *; set (w1 := world_alone h (reconcile_items items) w) in *.
  all: destruct (get_plan_alone w1 row ltac:(by rewrite Ep1) Hf1) as (items1 & Ea1 & Ew1 & Hc1 & Hall1).
  all: cbn [observePlan]; rewrite world_alone_bind, Ea, Ew; cbn [ev_Status ev_Items]; rewrite Hrun; cbn [negb].
  all: rewrite String.eqb_refl; cbn [negb].
  all: rewrite world_alone_bind; unfold reconcileItems; cbn [negb ev_Items]; rewrite Er; fold w1.
  all: rewrite world_alone_bind, Ea1, Ew1; cbn [ev_Items].
  all: destruct (evacuationPlanFinished items1) eqn:Efin;
    [apply completePlan_alone; [by rewrite Ep1|done|by eapply finished_settled]|].
  all: pose proof (none_in_progress items items1 w w1 Hall Hf Hc1 Hpr) as Hnone.
  all: pose proof (unfinished_pending items1 Hnone Efin) as Hex.
  - exfalso. apply Exists_exists in Hex as (i & Hi & Hst). destruct Hc1 as [_ Hc1]. destruct (Hc1 i Hi) as [Hl Hpl].
    assert (pendings w1 <> 0)%nat; [|lia]. apply map_size_non_empty_iff. intros E.
    assert (Hf2 : filter waiting (et_items (vw_db w1)) !! ei_ID i = Some i) by (by apply map_lookup_filter_Some).
    by rewrite E in Hf2.
  - rewrite world_alone_bind. unfold startAvailableItems. cbn [negb ev_Items].
    rewrite (unfinished_active items1 Hnone).
    destruct (start_items_alone items1 0 w1 Hc1 Hf1) as (-> & Ep2 & Hf2 & _ & Hlt). cbv zeta in *.
    apply IH; [by rewrite Ep2, Ep1|done|done|].
    specialize (Hlt ltac:(done) Hex). lia.
Qed.

(** C35: A plan that is observed comes to its end: when every migration that
    is asked about has ended, no statement fails, and nobody else works on the
    plan, then after one round more than there are pending items the plan is
    completed or failed and every item of it is too, whatever the service of
    migrations refused in between. *)
Theorem observed_plan_ends ticks w row :
  et_plans (vw_db w) !! p = Some row -> pw_Status row = "running" -> rows_fine w -> (pendings w <= ticks)%nat ->
  let w' := world_alone h (observePlan s true ticks p) w in
  (exists row', et_plans (vw_db w') !! p = Some row' /\ pw_Status row' ∈ ["completed"; "failed"]) /\
  forall id i, et_items (vw_db w') !! id = Some i -> ei_PlanID i = p -> ei_Status i ∈ ["completed"; "failed"].
Proof using Hcreate Hends.
  intros Hp Hr Hf Hle w'. destruct (observePlan_ends ticks w row Hp Hr Hf Hle) as [(row' & E & Hst) Hs]. split.
  - exists row'. split; [exact E|]. set_solver.
  - intros id i Hi Hpi. destruct (Hs id i Hi Hpi); set_solver.
Qed.
End Settling.

(** Three servers, one of which cannot be prepared. *)
Definition three_running : EvWorld :=
  mkEvWorld (mkEvTables ∅ {["p" := mkPlanRow "a" "running" 600]} (list_to_map (map (fun i => (ei_ID i, i <| ei_PlanID := "p" |>)) three_items)))
    600 (fun _ => ∅) ∅ ["p"] [] [].

Definition second_fails : nat -> forall X, EvEff X -> EvWorld -> X * EvWorld :=
  ev_serve one_migration_each (fun m => if (m =? "migration of server i2")%string then Some "no space" else None)
    (fun _ => None) (fun _ => "completed") (fun _ => 0%nat).

Lemma observed_plan_ends_witness :
  let w' := world_alone (second_fails 0) (observePlan example_planner true 3 "p") three_running in
  (exists row', et_plans (vw_db w') !! "p" = Some row' /\ pw_Status row' ∈ ["completed"; "failed"]) /\
  map (fun id => ei_Status <$> et_items (vw_db w') !! id) ["i1"; "i2"; "i3"] =
    [Some "completed"; Some "failed"; Some "completed"].
Proof.
  cbv zeta. split; [|by vm_compute].
  refine (proj1 (observed_plan_ends one_migration_each _ (fun _ => None) (fun _ => "completed") (fun _ => 0%nat) 0%nat
    example_planner "p" _ _ 3%nat three_running (mkPlanRow "a" "running" 600) _ _ _ _)).
  - intros server w E. unfold one_migration_each in E. case_match; [done|]. injection E as E. done.
  - done.
  - by vm_compute.
  - done.
  - intros id i Hi. unfold three_running in Hi. cbn [vw_db et_items] in Hi. apply elem_of_list_to_map_2, list_elem_of_fmap in Hi as (j & [= -> ->] & Hj).
    split; [done|]. intros _. unfold three_items in Hj. cbn in Hj. rewrite !elem_of_cons, elem_of_nil in Hj.
    destruct Hj as [->|[->|[->|[]]]]; unfold row_fine, item_statuses; cbn; split_and!; set_solver || done.
  - vm_compute. lia.
Defined.
