(* ===== verification/Membership.v ===== *)
(** * Membership of the nodes

    [forge/api/internal/services/clustermembership/service.go]: nodes join,
    leave, are drained and put under maintenance; [services/drain] keeps a
    ledger of drains from the events of the others, and
    [services/fencing/fencing.go] raises the generation of the servers of a
    node that came back.

    A function is a program over [MbEff]; what it does under the service's
    mutex is one request ([MbMem]).  The planner of evacuations and the manager
    of traffic are behind [MbPlan], [MbExecute], [MbWithdraw] and
    [MbReinstate].  The goroutine of a drain is the program [drain_run], which
    [StartDrain] starts; a call of the planner may panic, which ends it there.
    Logging is left out. *)
From Stdlib Require Import ZArith Lia.
From stdpp Require Import base gmap strings list fin_maps relations.
From coqutil Require Import Datatypes.RecordSettersUsingExistingGetters.
From S2P Require Import Prelude GoStrings GoSort Programs Capacity PlanRun.
Import RecordSetNotations1.
#[local] Open Scope string_scope.
#[local] Open Scope list_scope.
#[local] Open Scope Z_scope.
#[local] Open Scope go_scope.

(** ** Nodes *)

(** The columns of a node that its life cycle changes, and its heartbeat. *)
Record NodeLife := mkNodeLife {
  nl_Draining : bool;
  nl_Maintenance : bool;
  nl_DesiredState : string;
  nl_Status : string;
  nl_MaintenanceMessage : string;
  nl_HeartbeatState : string
}.

(* go: store/store_nodes.go type:NodeLifecyclePatch *)
Record NodeLifecyclePatch := mkPatch {
  np_Draining : option bool;
  np_Maintenance : option bool;
  np_DesiredState : option string;
  np_Status : option string;
  np_MaintenanceMessage : option string
}.

Definition desired_states : list string := ["active"; "maintenance"; "draining"].

(** What is checked before the statement is made. *)
(* go: store/store_nodes.go L347-377 *)
Definition patch_error (nodeID : string) (patch : NodeLifecyclePatch) : error :=
  if (TrimSpace nodeID =? "")%string then Some "node id is required"
  else
    match np_DesiredState patch with
    | Some d => if slices_contains desired_states d then None else Some (cat ["invalid desired state "; quote d])
    | None =>
        match np_Draining patch, np_Maintenance patch, np_Status patch, np_MaintenanceMessage patch with
        | None, None, None, None => Some "no lifecycle fields to update"
        | _, _, _, _ => None
        end
    end.

(** The statement: only the columns of the patch change. *)
(* go: store/store_nodes.go L352-374 *)
Definition patched (patch : NodeLifecyclePatch) (n : NodeLife) : NodeLife :=
  mkNodeLife (default (nl_Draining n) (np_Draining patch)) (default (nl_Maintenance n) (np_Maintenance patch))
    (default (nl_DesiredState n) (np_DesiredState patch))
    (default (nl_Status n) (TrimSpace <$> np_Status patch))
    (default (nl_MaintenanceMessage n) (np_MaintenanceMessage patch)) (nl_HeartbeatState n).

(* go: store/store_nodes.go L378-385 *)
Definition update_node (nodeID : string) (patch : NodeLifecyclePatch) (nodes : gmap string NodeLife)
    : bool * gmap string NodeLife :=
  match nodes !! nodeID with
  | Some n => (true, <[nodeID := patched patch n]> nodes)
  | None => (false, nodes)
  end.

(** ** The service *)

(* go: services/clustermembership/service.go type:Metrics *)
Record MembershipMetrics := mkMembershipMetrics {
  mm_NodesJoinedTotal : Z;
  mm_NodesLeftTotal : Z;
  mm_DrainStartedTotal : Z;
  mm_DrainCompletedTotal : Z;
  mm_MaintStartedTotal : Z;
  mm_MaintEndedTotal : Z
}.

(** [ms_draining] has the tracker of a drain, [ms_closed] the trackers whose
    channel is closed, [ms_next] the number of the next one. *)
(* go: services/clustermembership/service.go type:Service *)
Record MembershipService := mkMembership {
  ms_evacuator : bool;
  ms_trafficMgr : bool;
  ms_metrics : MembershipMetrics;
  ms_draining : gmap string nat;
  ms_closed : gset nat;
  ms_next : nat
}.

Inductive MbEff : Type -> Type :=
| MbNode (nodeID : string) : MbEff (answer NodeLife)
| MbUpdate (nodeID : string) (patch : NodeLifecyclePatch) : MbEff (answer bool)
| MbAudit (nodeID : string) : MbEff error
| MbServers (nodeID : string) : MbEff (answer (list string))
| MbPlan (nodeID : string) : MbEff (outcome (answer (string * string)))
| MbExecute (planID : string) : MbEff (outcome error)
| MbWithdraw (nodeID : string) : MbEff error
| MbReinstate (nodeID : string) : MbEff error
| MbPublish (kind nodeID : string) : MbEff error
| MbMem {A} (f : MembershipService -> A * MembershipService) : MbEff A
| MbGo (nodeID : string) (tracker : nat) : MbEff unit.

Definition B_ (A : Type) : Type := prog MbEff A.

Definition btry {A B} (m : B_ (answer A)) (k : A -> B_ (answer B)) : B_ (answer B) :=
  pbind m (fun r => match r with Got a => k a | Failed e => Ret (Failed e) end).
Notation "'let?^' x := m 'in' k" := (btry m (fun x => k))
  (at level 200, x binder, m at level 200, k at level 200, only parsing) : go_scope.
Notation "m ;;^ k" := (pbind m (fun _ => k))
  (at level 100, k at level 200, right associativity, only parsing) : go_scope.

Definition wrapped {A} (what : string) (m : B_ (answer A)) : B_ (answer A) :=
  pbind m (fun r => Ret (match r with
                         | Got a => Got a
                         | Failed e => Failed (ErrText (cat [what; ": "; store_error_text e]))
                         end)).

Definition bfails {A} (msg : string) : B_ (answer A) := Ret (Failed (ErrText msg)).

(* go: store/store_nodes.go func:Store.PatchNodeLifecycle *)
Definition PatchNodeLifecycle (nodeID : string) (patch : NodeLifecyclePatch) : B_ (answer NodeLife) :=
  match patch_error nodeID patch with
  | Some e => bfails e
  | None =>
      let?^ found := request (MbUpdate nodeID patch) in
      if negb found then bfails "node not found"
      else request (MbAudit nodeID) ;;^ request (MbNode nodeID)
  end.

(* go: services/clustermembership/service.go func:Service.SetTrafficManager *)
Definition SetTrafficManager (tm : bool) : B_ unit := request (MbMem (fun s => (tt, s <| ms_trafficMgr := tm |>))).
(* go: services/clustermembership/service.go func:Service.SetEvacuationPlanner *)
Definition SetEvacuationPlanner (ep : bool) : B_ unit := request (MbMem (fun s => (tt, s <| ms_evacuator := ep |>))).
(* go: services/clustermembership/service.go func:Service.trafficManager *)
Definition trafficManager : B_ bool := request (MbMem (fun s => (ms_trafficMgr s, s))).
(* go: services/clustermembership/service.go func:Service.evacuationPlanner *)
Definition evacuationPlanner : B_ bool := request (MbMem (fun s => (ms_evacuator s, s))).
(* go: services/clustermembership/service.go func:Service.increment *)
Definition increment (update : MembershipMetrics -> MembershipMetrics) : B_ unit :=
  request (MbMem (fun s => (tt, s <| ms_metrics := update (ms_metrics s) |>))).

Section Service.
(** Whether there is a publisher. *)
Context (publisher : bool).

(* go: services/clustermembership/service.go func:Service.publish *)
Definition mpublish (kind nodeID : string) : B_ unit :=
  if publisher then request (MbPublish kind nodeID) ;;^ Ret tt else Ret tt.

(* go: services/clustermembership/service.go func:Service.Join *)
Definition Join (nodeID : string) : B_ (answer unit) :=
  let?^ node := wrapped "get node" (request (MbNode nodeID)) in
  if negb (nl_HeartbeatState node =? "offline")%string && negb (nl_DesiredState node =? "")%string
  then bfails "node is already active in the cluster"
  else
    let?^ _ := wrapped "activate node"
      (PatchNodeLifecycle nodeID (mkPatch None None (Some "active") (Some "online") None)) in
    increment (fun m => m <| mm_NodesJoinedTotal := mm_NodesJoinedTotal m + 1 |>) ;;^
    mpublish "NodeOnline" nodeID ;;^
    Ret (Got tt).

(* go: services/clustermembership/service.go func:Service.Leave *)
Definition Leave (nodeID : string) : B_ (answer unit) :=
  let?^ node := wrapped "get node" (request (MbNode nodeID)) in
  let?^ servers := wrapped "list servers" (request (MbServers nodeID)) in
  match servers with
  | _ :: _ => bfails (cat ["node has "; itoa (Z.of_nat (length servers)); " active workloads; drain before leaving"])
  | [] =>
      let?^ _ := wrapped "deactivate node"
        (PatchNodeLifecycle nodeID (mkPatch (Some false) (Some false) (Some "active") (Some "offline") None)) in
      increment (fun m => m <| mm_NodesLeftTotal := mm_NodesLeftTotal m + 1 |>) ;;^
      mpublish "NodeOffline" nodeID ;;^
      Ret (Got tt)
  end.

(* go: services/clustermembership/service.go func:resetDrainPatch *)
Definition resetDrainPatch : NodeLifecyclePatch := mkPatch (Some false) None (Some "active") None None.

(* go: services/clustermembership/service.go func:drainTracker.close *)
Definition close_tracker (t : nat) (s : MembershipService) : MembershipService :=
  s <| ms_closed := {[t]} ∪ ms_closed s |>.

(** The tracker of the node, whoever put it there, is closed and removed. *)
(* go: services/clustermembership/service.go L274-279 *)
Definition drop_tracker (nodeID : string) (s : MembershipService) : unit * MembershipService :=
  (tt, match ms_draining s !! nodeID with
       | Some t => (close_tracker t s) <| ms_draining := delete nodeID (ms_draining s) |>
       | None => s
       end).

(** [m] when there is a traffic manager; its error is logged. *)
Definition with_traffic (m : MbEff error) : B_ unit :=
  let^ tm := trafficManager in
  if tm : bool then request m ;;^ Ret tt else Ret tt.

(* go: services/clustermembership/service.go func:Service.completeDrain *)
Definition completeDrain (nodeID : string) : B_ unit :=
  request (MbMem (drop_tracker nodeID)) ;;^
  let^ r := PatchNodeLifecycle nodeID resetDrainPatch in
  (match r with Failed _ => Ret tt | Got _ => with_traffic (MbReinstate nodeID) end) ;;^
  increment (fun m => m <| mm_DrainCompletedTotal := mm_DrainCompletedTotal m + 1 |>) ;;^
  mpublish "NodeDrainingCompleted" nodeID.

Definition drain_failed (nodeID : string) : B_ unit :=
  mpublish "EvacuationPlanFailed" nodeID ;;^
  PatchNodeLifecycle nodeID resetDrainPatch ;;^ Ret tt.

(** The goroutine of a drain; it closes its own tracker in the end.  A planner
    that panics is recovered from, and only logged. *)
(* go: services/clustermembership/service.go L226-259 *)
Definition drain_run (nodeID : string) (tracker : nat) : B_ unit :=
  let^ r := request (MbPlan nodeID) in
  (match r with
   | Panics => Ret tt
   | Returns (Failed _) => drain_failed nodeID
   | Returns (Got (planID, status)) =>
       if (planID =? "")%string || (status =? "failed")%string then drain_failed nodeID
       else if (status =? "completed")%string then completeDrain nodeID
       else
         let^ err := request (MbExecute planID) in
         match err with
         | Panics => Ret tt
         | Returns (Some _) => drain_failed nodeID
         | Returns None => completeDrain nodeID
         end
   end) ;;^
  request (MbMem (fun s => (tt, close_tracker tracker s))).

Definition new_tracker (nodeID : string) (s : MembershipService) : nat * MembershipService :=
  (ms_next s, s <| ms_draining := <[nodeID := ms_next s]> (ms_draining s) |> <| ms_next := S (ms_next s) |>).

(* go: services/clustermembership/service.go func:Service.StartDrain *)
Definition StartDrain (nodeID : string) : B_ (answer unit) :=
  let?^ node := wrapped "get node" (request (MbNode nodeID)) in
  if nl_Draining node then bfails "node is already draining"
  else
    let^ ep := evacuationPlanner in
    if negb ep then bfails "evacuation planner unavailable"
    else
      let?^ _ := wrapped "set draining"
        (PatchNodeLifecycle nodeID (mkPatch (Some true) None (Some "draining") None None)) in
      with_traffic (MbWithdraw nodeID) ;;^
      let^ tracker := request (MbMem (new_tracker nodeID)) in
      increment (fun m => m <| mm_DrainStartedTotal := mm_DrainStartedTotal m + 1 |>) ;;^
      mpublish "NodeDrainingStarted" nodeID ;;^
      request (MbGo nodeID tracker) ;;^
      Ret (Got tt).

(* go: services/clustermembership/service.go func:Service.CancelDrain *)
Definition CancelDrain (nodeID : string) : B_ (answer unit) :=
  request (MbMem (drop_tracker nodeID)) ;;^
  with_traffic (MbReinstate nodeID) ;;^
  let?^ _ := wrapped "cancel drain" (PatchNodeLifecycle nodeID resetDrainPatch) in
  mpublish "ActualStateChanged" nodeID ;;^
  Ret (Got tt).

(* go: services/clustermembership/service.go func:Service.DrainStatus *)
Definition DrainStatus (nodeID : string) : B_ (answer string) :=
  let^ draining := request (MbMem (fun s => (bool_decide (is_Some (ms_draining s !! nodeID)), s))) in
  if draining : bool then Ret (Got "draining")
  else
    let?^ node := wrapped "get node" (request (MbNode nodeID)) in
    Ret (Got (if nl_Draining node then "draining_idle" else "idle")).

(* go: services/clustermembership/service.go func:Service.EnableMaintenance *)
Definition EnableMaintenance (nodeID message : string) : B_ (answer unit) :=
  let?^ node := wrapped "get node" (request (MbNode nodeID)) in
  if nl_Draining node then bfails "node is draining; wait for drain to complete"
  else
    let?^ _ := wrapped "enable maintenance"
      (PatchNodeLifecycle nodeID (mkPatch None (Some true) (Some "maintenance") None (Some message))) in
    increment (fun m => m <| mm_MaintStartedTotal := mm_MaintStartedTotal m + 1 |>) ;;^
    mpublish "NodeMaintenanceStarted" nodeID ;;^
    Ret (Got tt).

(* go: services/clustermembership/service.go func:Service.DisableMaintenance *)
Definition DisableMaintenance (nodeID : string) : B_ (answer unit) :=
  let?^ _ := wrapped "disable maintenance"
    (PatchNodeLifecycle nodeID (mkPatch None (Some false) (Some "active") None (Some ""))) in
  increment (fun m => m <| mm_MaintEndedTotal := mm_MaintEndedTotal m + 1 |>) ;;^
  mpublish "NodeMaintenanceEnded" nodeID ;;^
  Ret (Got tt).
End Service.

(** ** The ledger of drains *)

(* go: store/store_phase6_drain.go type:DrainProgressStep *)
Record DrainProgressStep := mkStep { st_Name : string; st_State : string }.

(* go: store/store_phase6_drain.go type:DrainProgress *)
Record DrainProgress := mkProgress {
  dp_State : string;
  dp_Total : Z;
  dp_Remaining : Z;
  dp_Current : string;
  dp_Steps : list DrainProgressStep
}.

(* go: store/store_phase6_drain.go type:DrainState *)
Record DrainState := mkDrainState {
  dr_NodeID : string;
  dr_PlanID : string;
  dr_Status : string;
  dr_DesiredFinal : bool;
  dr_StartedAt : Time;
  dr_CompletedAt : option Time;
  dr_Progress : DrainProgress;
  dr_UpdatedAt : Time
}.

(** The table, as statements that succeed leave it. *)
Abbreviation Ledger := (gmap string DrainState) (only parsing).

(* go: services/drain/service.go L16-21 *)
Definition StepTrafficWithdrawal : string := "traffic-withdrawal".
Definition StepEvacuationPlan : string := "evacuation-plan".
Definition StepMigrateServers : string := "migrate-servers".
Definition StepComplete : string := "complete".

(* go: services/drain/service.go L31-31 *)
Definition stepNames : list string :=
  [StepTrafficWithdrawal; StepEvacuationPlan; StepMigrateServers; StepComplete].

(** What is before the current step is done. *)
(* go: services/drain/service.go loop:newSteps *)
Fixpoint steps_from (seen : bool) (remaining : Z) (current : string) (names : list string) : list DrainProgressStep :=
  match names with
  | [] => []
  | name :: names =>
      let here := (name =? current)%string in
      let state := if here then if 0 <? remaining then "active" else "done" else "pending" in
      let state := if negb seen && negb here then "done" else state in
      let seen := seen || here in
      let state := if (name =? StepComplete)%string && (state =? "pending")%string && (remaining =? 0)
                   then "done" else state in
      mkStep name state :: steps_from seen remaining current names
  end.

(* go: services/drain/service.go func:newSteps *)
Definition newSteps (remaining : Z) (current : string) : list DrainProgressStep :=
  steps_from false remaining current stepNames.

(* go: store/store_phase6_drain.go func:Store.GetDrainState *)
Definition GetDrainState (nodeID : string) (l : Ledger) : answer DrainState :=
  match l !! nodeID with Some s => Got s | None => Failed ErrNoRows end.

(* go: store/store_phase6_drain.go func:Store.UpsertDrainState *)
Definition UpsertDrainState (s : DrainState) (now : Time) (l : Ledger) : answer DrainState * Ledger :=
  let s := s <| dr_UpdatedAt := now |> in
  (Got s, <[dr_NodeID s := s]> l).

(* go: store/store_phase6_drain.go func:Store.UpdateDrainProgress *)
Definition UpdateDrainProgress (nodeID : string) (progress : DrainProgress) (now : Time) (l : Ledger)
    : answer DrainState * Ledger :=
  match l !! nodeID with
  | Some s => let s := s <| dr_Progress := progress |> <| dr_UpdatedAt := now |> in (Got s, <[nodeID := s]> l)
  | None => (Failed ErrNoRows, l)
  end.

Definition newest_drain (a b : DrainState) : bool := dr_StartedAt b <? dr_StartedAt a.

(* go: store/store_phase6_drain.go func:Store.ListDrainStates *)
Definition ListDrainStates (l : Ledger) : list DrainState := isort newest_drain (values l).

(* go: services/drain/service.go func:Service.BeginDrain *)
Definition BeginDrain (nodeID : string) (desiredFinal : bool) (planID : string) (now : Time) (l : Ledger)
    : answer DrainState * Ledger :=
  UpsertDrainState (mkDrainState nodeID planID "draining" desiredFinal now None
    (mkProgress "draining" 0 0 StepTrafficWithdrawal (newSteps 0 StepTrafficWithdrawal)) zeroTime) now l.

(* go: services/drain/service.go func:Service.ProgressDrain *)
Definition ProgressDrain (nodeID stage : string) (remaining : Z) (now : Time) (l : Ledger) : answer DrainState * Ledger :=
  match GetDrainState nodeID l with
  | Failed e => (Failed e, l)
  | Got _ =>
      UpdateDrainProgress nodeID (mkProgress "draining" 0 remaining stage (newSteps remaining stage)) now l
  end.

(** The last of the steps is marked, if there is one. *)
Fixpoint finish_last (steps : list DrainProgressStep) : list DrainProgressStep :=
  match steps with
  | [] => []
  | [s] => [mkStep (st_Name s) "done"]
  | s :: steps => s :: finish_last steps
  end.

(* go: services/drain/service.go func:Service.EndDrain *)
Definition EndDrain (nodeID : string) (ok : bool) (now : Time) (l : Ledger) : answer DrainState * Ledger :=
  match GetDrainState nodeID l with
  | Failed e => (Failed e, l)
  | Got s =>
      let status := if ok then "drained" else "failed" in
      let steps := newSteps 0 StepComplete in
      UpsertDrainState (s <| dr_Status := status |> <| dr_CompletedAt := Some now |>
        <| dr_Progress := mkProgress status (dp_Total (dr_Progress s)) 0 StepComplete
                            (if ok then finish_last steps else steps) |>) now l
  end.

(* go: services/drain/service.go func:Service.CancelDrainState *)
Definition CancelDrainState (nodeID : string) (now : Time) (l : Ledger) : answer DrainState * Ledger :=
  match GetDrainState nodeID l with
  | Failed e => (Failed e, l)
  | Got s =>
      UpsertDrainState (s <| dr_Status := "cancelled" |> <| dr_CompletedAt := Some now |>
        <| dr_Progress := mkProgress "cancelled" (dp_Total (dr_Progress s)) 0 StepTrafficWithdrawal
                            (newSteps 0 StepTrafficWithdrawal) |>) now l
  end.

(** No row is a node that was never drained. *)
(* go: services/drain/service.go func:Service.Status *)
Definition drain_status (nodeID : string) (l : Ledger) : option DrainState := l !! nodeID.

(** Events as the ledger reads them: the resource, and what the payload has. *)
Inductive DrainEvent :=
| DrainingStarted (resource planID : string)
| PlanCreated (resource : string) (total items : Z)
| PlanFailed (resource : string)
| DrainingCompleted (resource : string)
| OtherEvent.

(* go: services/drain/service.go func:Service.Subscriber *)
Definition Subscriber (e : DrainEvent) (now : Time) (l : Ledger) : Ledger :=
  let on (nodeID : string) (l' : Ledger) := if (nodeID =? "")%string then l else l' in
  match e with
  | DrainingStarted nodeID planID =>
      on nodeID (match GetDrainState nodeID l with Got _ => l | Failed _ => snd (BeginDrain nodeID false planID now l) end)
  | PlanCreated nodeID total items =>
      on nodeID (snd (ProgressDrain nodeID StepEvacuationPlan (if total =? 0 then items else total) now l))
  | PlanFailed nodeID =>
      on nodeID (snd (EndDrain nodeID false now (snd (ProgressDrain nodeID StepEvacuationPlan 1 now l))))
  | DrainingCompleted nodeID => on nodeID (snd (EndDrain nodeID true now l))
  | OtherEvent => l
  end.

(** ** Fencing *)

Inductive FnEff : Type -> Type :=
| FnServers (nodeID : string) : FnEff (answer (list (string * Z)))
| FnClock : FnEff Time
| FnUpdate (serverID : string) (generation : Z) (leaseExpiry : option Time) : FnEff (answer unit)
| FnPublish (nodeID : string) (servers : Z) : FnEff error.

(* go: store/store_servers.go func:Store.UpdateServerGeneration *)
Definition UpdateServerGeneration (serverID : string) (generation : Z) (leaseExpiry : option Time)
    (fences : gmap string Fence) : answer unit * gmap string Fence :=
  match fences !! serverID with
  | None => (Failed (ErrText "server not found"), fences)
  | Some _ => (Got tt, <[serverID := mkFence generation leaseExpiry]> fences)
  end.

(** The servers as they were read, until a statement fails. *)
(* go: services/fencing/fencing.go loop:Service.FenceNode *)
Fixpoint fence_servers (expiry : Time) (servers : list (string * Z)) : prog FnEff error :=
  match servers with
  | [] => Ret None
  | (id, generation) :: servers =>
      pbind (request (FnUpdate id (iadd generation 1) (Some expiry))) (fun r =>
        match r with
        | Failed e => Ret (Some (store_error_text e))
        | Got _ => fence_servers expiry servers
        end)
  end.

(* go: services/fencing/fencing.go func:Service.FenceNode *)
Definition FenceNode (publisher : bool) (nodeID : string) : prog FnEff error :=
  pbind (request (FnServers nodeID)) (fun r =>
    match r with
    | Failed e => Ret (Some (store_error_text e))
    | Got servers =>
        pbind (request FnClock) (fun now =>
          pbind (fence_servers (now + 24 * Hour) servers) (fun err =>
            match err with
            | Some e => Ret (Some e)
            | None =>
                if publisher then pbind (request (FnPublish nodeID (Z.of_nat (length servers)))) (fun _ => Ret None)
                else Ret None
            end))
    end).

(* go: services/fencing/fencing.go func:Service.Handle *)
Definition HandleFence (publisher : bool) (type nodeID : string) : prog FnEff error :=
  if (type =? "NodeRecovered")%string then FenceNode publisher nodeID else Ret None.

(** ** What a drain leaves behind *)

Definition updates (ev : exchange MbEff) : list (string * NodeLifecyclePatch) :=
  match ev with
  | existT _ (e, x) => match e with MbUpdate nodeID patch => [(nodeID, patch)] | _ => [] end
  end.

Definition published (ev : exchange MbEff) : list (string * string) :=
  match ev with
  | existT _ (e, x) => match e with MbPublish kind nodeID => [(kind, nodeID)] | _ => [] end
  end.

Definition reinstated (ev : exchange MbEff) : list string :=
  match ev with
  | existT _ (e, x) => match e with MbReinstate nodeID => [nodeID] | _ => [] end
  end.

(** The plans that were executed, with what was answered. *)
Definition executions (ev : exchange MbEff) : list (string * outcome error) :=
  match ev with
  | existT _ (e, x) =>
      match e in MbEff X return X -> list (string * outcome error) with
      | MbExecute planID => fun err => [(planID, err)] | _ => fun _ => []
      end x
  end.

(** What there was to do, from the plan that was made. *)
Inductive DrainWork := PlannerPanicked | NoPlan | NothingToMove | ToExecute (planID : string).

Definition work_of (plan : outcome (answer (string * string))) : DrainWork :=
  match plan with
  | Panics => PlannerPanicked
  | Returns (Failed _) => NoPlan
  | Returns (Got (planID, status)) =>
      if (planID =? "")%string || (status =? "failed")%string then NoPlan
      else if (status =? "completed")%string then NothingToMove else ToExecute planID
  end.

(** The requests between the plan and the end of the drain: the execution,
    answered with [err], when there are servers to move. *)
Definition execution (work : DrainWork) (err : outcome error) : list (exchange MbEff) :=
  match work with ToExecute planID => [answered (MbExecute planID) err] | _ => [] end.

(** Whether the node was drained: there was nothing to move, or the execution
    was accepted.  [None]: a panic cut the drain short. *)
Definition drained (work : DrainWork) (err : outcome error) : option bool :=
  match work with
  | PlannerPanicked => None
  | NoPlan => Some false
  | NothingToMove => Some true
  | ToExecute _ =>
      match err with Panics => None | Returns (Some _) => Some false | Returns None => Some true end
  end.

Ltac mrun :=
  repeat match goal with
  | H : returns (Ret _) ?tr _ |- _ => destruct tr; [cbn in H; try subst|done]
  | H : returns (pbind (pbind _ _) _) _ _ |- _ => apply returns_bind in H as (? & ? & ? & -> & H & ?)
  | H : returns (pbind (request _) _) _ _ |- _ => apply returns_request in H as (? & ? & -> & H)
  | H : returns (request _) ?tr _ |- _ => destruct tr as [|? [|]]; [done| |by destruct H as (? & _ & ?)]; destruct H as (? & -> & H); cbn in H
  end.

(** A patch is one statement on the node, and asks for nothing else. *)
Lemma patch_run nodeID tr r :
  TrimSpace nodeID <> "" -> returns (PatchNodeLifecycle nodeID resetDrainPatch) tr r ->
  flat_map updates tr = [(nodeID, resetDrainPatch)] /\ flat_map published tr = [] /\ flat_map reinstated tr = [] /\
  flat_map executions tr = [].
Proof.
  intros Hn H. unfold PatchNodeLifecycle, patch_error in H. apply String.eqb_neq in Hn. rewrite Hn in H.
  cbn [np_DesiredState resetDrainPatch] in H. change (slices_contains desired_states "active") with true in H.
  unfold btry in H. apply returns_request in H as (x & tr' & -> & H). destruct x as [[]|]; cbn [negb] in H.
  - apply returns_request in H as (y & tr2 & -> & H). destruct tr2 as [|ev [|]]; [done| |by destruct H as (? & _ & ?)].
    by destruct H as (z & -> & H).
  - unfold bfails in H. by mrun.
  - by mrun.
Qed.

Lemma failed_run publisher nodeID tr :
  TrimSpace nodeID <> "" -> returns (drain_failed publisher nodeID) tr tt ->
  flat_map updates tr = [(nodeID, resetDrainPatch)] /\
  flat_map published tr = (if publisher then [("EvacuationPlanFailed", nodeID)] else []) /\
  flat_map reinstated tr = [] /\ flat_map executions tr = [].
Proof.
  intros Hn H. unfold drain_failed, mpublish in H. apply returns_bind in H as ([] & tr1 & tr2 & -> & H1 & H2).
  apply returns_bind in H2 as (r & tr3 & tr4 & -> & H2 & H3). destruct (patch_run nodeID tr3 r Hn H2) as (E1 & E2 & E3 & E4).
  assert (tr4 = []) as -> by (by destruct tr4).
  rewrite !flat_map_app, E1, E2, E3, E4. destruct publisher.
  - apply returns_request in H1 as (x & tr5 & -> & H1). by destruct tr5.
  - by destruct tr1.
Qed.

Lemma completed_run publisher nodeID tr :
  TrimSpace nodeID <> "" -> returns (completeDrain publisher nodeID) tr tt ->
  flat_map updates tr = [(nodeID, resetDrainPatch)] /\
  flat_map published tr = (if publisher then [("NodeDrainingCompleted", nodeID)] else []) /\
  flat_map executions tr = [].
Proof.
  intros Hn H. unfold completeDrain in H. apply returns_request in H as (x & tr1 & -> & H).
  apply returns_bind in H as (r & tr2 & tr3 & -> & H1 & H2). destruct (patch_run nodeID tr2 r Hn H1) as (E1 & E2 & _ & E4).
  apply returns_bind in H2 as ([] & tr4 & tr5 & -> & H2 & H3).
  assert (Ht : flat_map updates tr4 = [] /\ flat_map published tr4 = [] /\ flat_map executions tr4 = []).
  { destruct r as [n|e]; [|by destruct tr4]. unfold with_traffic, trafficManager in H2.
    apply returns_request in H2 as (tm & tr6 & -> & H2). destruct tm; [|by destruct tr6].
    apply returns_request in H2 as (err & tr7 & -> & H2). by destruct tr7. }
  destruct Ht as (F1 & F2 & F4). unfold increment, mpublish in H3. apply returns_request in H3 as (y & tr6 & -> & H3).
  cbn [flat_map]. rewrite !flat_map_app. cbn [flat_map]. rewrite E1, E2, E4, F1, F2, F4. cbn.
  destruct publisher; [|by destruct tr6]. apply returns_request in H3 as (z & tr7 & -> & H3). by destruct tr7.
Qed.

(** C37: What a drain does, in this order: it asks for the plan; it executes the
    plan, once, when there are servers to move, and nothing otherwise; then it
    says once how it ended, makes one attempt to give the node back, as active
    and not draining, and asks for traffic only if the node was drained; and it
    closes its tracker.  It says that the node is drained exactly when there was
    nothing to move or the execution of the plan was accepted.  When the planner
    panics, the drain stops there: the panic is recovered, nothing is said, the
    node stays draining, and only the tracker is closed.  (Panics of other calls
    are left out.) *)
Theorem drain_run_settles publisher nodeID tracker tr :
  TrimSpace nodeID <> "" -> returns (drain_run publisher nodeID tracker) tr tt ->
  exists plan err late,
    tr = answered (MbPlan nodeID) plan :: execution (work_of plan) err ++ late ++
         [answered (MbMem (fun s => (tt, close_tracker tracker s))) tt] /\
    match drained (work_of plan) err with
    | None => late = []
    | Some ok =>
        flat_map updates late = [(nodeID, resetDrainPatch)] /\
        flat_map published late =
          (if publisher then [((if ok then "NodeDrainingCompleted" else "EvacuationPlanFailed"), nodeID)] else []) /\
        flat_map executions late = [] /\ (flat_map reinstated late <> [] -> ok = true)
    end.
Proof.
  intros Hn H. unfold drain_run in H. apply returns_request in H as (plan & tr1 & -> & H).
  apply returns_bind in H as ([] & tr2 & tr3 & -> & H & Hc).
  destruct tr3 as [|ev [|]]; [done| |by destruct Hc as (? & _ & ?)]. destruct Hc as ([] & -> & _).
  assert (Hfail : forall t, returns (drain_failed publisher nodeID) t tt ->
    flat_map updates t = [(nodeID, resetDrainPatch)] /\
    flat_map published t = (if publisher then [("EvacuationPlanFailed", nodeID)] else []) /\
    flat_map executions t = [] /\ (flat_map reinstated t <> [] -> false = true)).
  { intros t Ht. apply failed_run in Ht as (E1 & E2 & E3 & E4); [|done]. by split_and!. }
  assert (Hdone : forall t, returns (completeDrain publisher nodeID) t tt ->
    flat_map updates t = [(nodeID, resetDrainPatch)] /\
    flat_map published t = (if publisher then [("NodeDrainingCompleted", nodeID)] else []) /\
    flat_map executions t = [] /\ (flat_map reinstated t <> [] -> true = true)).
  { intros t Ht. apply completed_run in Ht as (E1 & E2 & E4); [|done]. by split_and!. }
  destruct plan as [[[planID status]|e]|].
  - destruct (_ || _) eqn:E1; [|destruct (status =? "completed")%string eqn:E2].
    + exists (Returns (Got (planID, status))), Panics, tr2. cbn [work_of]. rewrite E1. split; [done|by apply Hfail].
    + exists (Returns (Got (planID, status))), Panics, tr2. cbn [work_of]. rewrite E1, E2. split; [done|by apply Hdone].
    + apply returns_request in H as (err & tr4 & -> & H). exists (Returns (Got (planID, status))), err, tr4.
      cbn [work_of]. rewrite E1, E2. split; [done|].
      destruct err as [[e|]|]; [by apply Hfail|by apply Hdone|by destruct tr4].
  - exists (Returns (Failed e)), Panics, tr2. split; [done|by apply Hfail].
  - exists Panics, Panics, tr2. split; [done|by destruct tr2].
Qed.

(** ** The ledger follows the events *)

(** [c] when there is something. *)
Definition put {A B} (c : A) (o : option B) : option A := match o with Some _ => Some c | None => None end.

(** Where a drain stands, from the events about its node. *)
Definition stands (nodeID : string) (before : option string) (e : DrainEvent) : option string :=
  match e with
  | DrainingStarted n _ =>
      if (n =? nodeID)%string then match before with None => Some "draining" | _ => before end else before
  | PlanFailed n => if (n =? nodeID)%string then put "failed" before else before
  | DrainingCompleted n => if (n =? nodeID)%string then put "drained" before else before
  | PlanCreated _ _ _ | OtherEvent => before
  end.

Fixpoint subscriber_run (events : list (DrainEvent * Time)) (l : Ledger) : Ledger :=
  match events with [] => l | (e, now) :: events => subscriber_run events (Subscriber e now l) end.

Definition keyed (l : Ledger) : Prop := forall k s, l !! k = Some s -> dr_NodeID s = k.

Lemma upsert_status k s now (l : Ledger) :
  dr_Status <$> (UpsertDrainState s now l).2 !! k =
  if (dr_NodeID s =? k)%string then Some (dr_Status s) else dr_Status <$> l !! k.
Proof.
  unfold UpsertDrainState. cbn [snd]. change (dr_NodeID (s <| dr_UpdatedAt := now |>)) with (dr_NodeID s).
  destruct (String.eqb_spec (dr_NodeID s) k) as [->|Hne]; [by rewrite lookup_insert_eq|by rewrite lookup_insert_ne].
Qed.

Lemma upsert_keyed s now (l : Ledger) : keyed l -> keyed (UpsertDrainState s now l).2.
Proof.
  intros Hl k x. unfold UpsertDrainState. cbn [snd]. intros [[<- <-]|[_ Hx]]%lookup_insert_Some; [reflexivity|exact (Hl _ _ Hx)].
Qed.

Lemma progress_status n stage r now k (l : Ledger) :
  dr_Status <$> (ProgressDrain n stage r now l).2 !! k = dr_Status <$> l !! k.
Proof.
  unfold ProgressDrain, GetDrainState, UpdateDrainProgress. destruct (l !! n) as [s|] eqn:E; [|done]. cbn [snd].
  destruct (decide (n = k)) as [->|Hne]; [by rewrite lookup_insert_eq, E|by rewrite lookup_insert_ne].
Qed.

Lemma progress_keyed n stage r now (l : Ledger) : keyed l -> keyed (ProgressDrain n stage r now l).2.
Proof.
  intros Hl. unfold ProgressDrain, GetDrainState, UpdateDrainProgress. destruct (l !! n) as [s|] eqn:E; [|done]. cbn [snd].
  intros k x [[<- <-]|[_ Hx]]%lookup_insert_Some; [exact (Hl _ _ E)|exact (Hl _ _ Hx)].
Qed.

Lemma end_status n ok now k (l : Ledger) :
  keyed l -> dr_Status <$> (EndDrain n ok now l).2 !! k =
  if (n =? k)%string then put (if ok : bool then "drained" else "failed") (l !! k) else dr_Status <$> l !! k.
Proof.
  intros Hl. unfold EndDrain, GetDrainState. destruct (l !! n) as [s|] eqn:E.
  - rewrite upsert_status. recs. rewrite (Hl n s E). destruct (String.eqb_spec n k) as [<-|]; [by rewrite E|done].
  - cbn [snd]. destruct (String.eqb_spec n k) as [<-|]; [by rewrite E|done].
Qed.

Lemma end_keyed n ok now (l : Ledger) : keyed l -> keyed (EndDrain n ok now l).2.
Proof.
  intros Hl. unfold EndDrain, GetDrainState. destruct (l !! n) as [s|]; [|done]. by apply upsert_keyed.
Qed.

Lemma status_const {A} (c : A) k (l l' : Ledger) :
  dr_Status <$> l !! k = dr_Status <$> l' !! k -> put c (l !! k) = put c (l' !! k).
Proof. by destruct (l !! k), (l' !! k). Qed.

Lemma const_status {A} (c : A) k (l : Ledger) : put c (dr_Status <$> l !! k) = put c (l !! k).
Proof. by destruct (l !! k). Qed.

(** The ledger records of a node what the events about it say: draining
    from the first start, failed or drained from the last end. *)
Lemma ledger_follows_events events nodeID (l : Ledger) :
  keyed l -> nodeID <> "" ->
  dr_Status <$> subscriber_run events l !! nodeID =
  foldl (stands nodeID) (dr_Status <$> l !! nodeID) (map fst events).
Proof.
  revert l. induction events as [|[e now] events IH]; intros l Hl Hn; [done|].
  cbn [subscriber_run map fst foldl].
  assert (H : keyed (Subscriber e now l) /\
    dr_Status <$> Subscriber e now l !! nodeID = stands nodeID (dr_Status <$> l !! nodeID) e).
  { destruct e as [n planID|n total items|n|n|]; cbn [Subscriber stands]; [| | | |done];
      (destruct (String.eqb_spec n "") as [->|Hne];
        [split; [exact Hl|]; try done; by destruct (String.eqb_spec "" nodeID) as [E|]; [destruct Hn|]|]).
    - unfold GetDrainState. destruct (l !! n) as [s|] eqn:E.
      + split; [exact Hl|]. destruct (String.eqb_spec n nodeID) as [<-|]; [by rewrite E|done].
      + split; [by apply upsert_keyed|]. unfold BeginDrain. rewrite upsert_status. cbn [dr_NodeID dr_Status].
        destruct (String.eqb_spec n nodeID) as [<-|]; [by rewrite E|done].
    - split; [by apply progress_keyed|]. apply progress_status.
    - split; [by apply end_keyed, progress_keyed|]. rewrite end_status by by apply progress_keyed.
      rewrite progress_status. destruct (n =? nodeID)%string; [|done]. rewrite const_status.
      apply status_const, progress_status.
    - split; [by apply end_keyed|]. rewrite end_status by done. by rewrite const_status. }
  destruct H as [Hk Hs]. rewrite IH by done. by rewrite Hs.
Qed.

(** ** Fencing a node *)

Record FnWorld := mkFnWorld { fn_fences : gmap string Fence; fn_on : list string; fn_now : Time }.

Definition fn_serve (X : Type) (e : FnEff X) (w : FnWorld) : X * FnWorld :=
  match e in FnEff X return X * FnWorld with
  | FnServers _ => (Got (map (fun id => (id, default 0 (fc_Generation <$> fn_fences w !! id))) (fn_on w)), w)
  | FnClock => (fn_now w, w)
  | FnUpdate id generation lease =>
      let r := UpdateServerGeneration id generation lease (fn_fences w) in
      (fst r, mkFnWorld (snd r) (fn_on w) (fn_now w))
  | FnPublish _ _ => (None, w)
  end.

Lemma fence_servers_alone expiry servers w :
  NoDup (map fst servers) -> (forall id g, (id, g) ∈ servers -> is_Some (fn_fences w !! id)) ->
  answer_alone fn_serve (fence_servers expiry servers) w = None /\
  forall id, fn_fences (world_alone fn_serve (fence_servers expiry servers) w) !! id =
    match list_find (fun s => s.1 = id) servers with
    | Some (_, (_, g)) => Some (mkFence (iadd g 1) (Some expiry))
    | None => fn_fences w !! id
    end.
Proof.
  revert w. induction servers as [|[k g] servers IH]; intros w Hnd Hin; [done|]. cbn [map fst] in Hnd.
  apply NoDup_cons in Hnd as [Hk Hnd]. destruct (Hin k g ltac:(left)) as [f Hf].
  cbn [fence_servers]. rewrite answer_alone_bind, world_alone_bind.
  set (w1 := world_alone fn_serve (request (FnUpdate k (iadd g 1) (Some expiry))) w).
  assert (E : answer_alone fn_serve (request (FnUpdate k (iadd g 1) (Some expiry))) w = Got tt /\
    fn_fences w1 = <[k := mkFence (iadd g 1) (Some expiry)]> (fn_fences w)).
  { change (answer_alone fn_serve (request (FnUpdate k (iadd g 1) (Some expiry))) w)
      with (fst (UpdateServerGeneration k (iadd g 1) (Some expiry) (fn_fences w))).
    change (fn_fences w1) with (snd (UpdateServerGeneration k (iadd g 1) (Some expiry) (fn_fences w))).
    unfold UpdateServerGeneration. by rewrite Hf. }
  destruct E as [-> E1]. clearbody w1.
  destruct (IH w1 Hnd) as [Ha Hw].
  { intros id g' Hg. rewrite E1, lookup_insert_is_Some'. right. by apply (Hin id g'); right. }
  split; [exact Ha|]. intros id. rewrite Hw. cbn [list_find].
  destruct (decide (k = id)) as [->|Hne].
  - rewrite decide_True by done. rewrite E1, lookup_insert_eq.
    destruct (list_find _ servers) as [[n [k' g']]|] eqn:El; [|done].
    apply list_find_Some in El as (Hl & Hk' & _). cbn in Hk'. subst k'. destruct Hk. apply list_elem_of_fmap.
    exists (id, g'). split; [done|by eapply list_elem_of_lookup_2].
  - rewrite decide_False by done. rewrite E1, lookup_insert_ne by done.
    by destruct (list_find _ servers) as [[n [k' g']]|].
Qed.

(** When nobody interferes, every server of the node gets the next generation
    for a day, and no other server changes. *)
Lemma FenceNode_raises publisher nodeID w :
  NoDup (fn_on w) -> (forall id, id ∈ fn_on w -> is_Some (fn_fences w !! id)) ->
  forall id f, fn_fences w !! id = Some f ->
  fn_fences (world_alone fn_serve (FenceNode publisher nodeID) w) !! id =
    Some (if bool_decide (id ∈ fn_on w) then mkFence (iadd (fc_Generation f) 1) (Some (fn_now w + 24 * Hour)) else f).
Proof.
  intros Hnd Hin id f Hf. unfold FenceNode. rewrite world_alone_bind.
  change (answer_alone fn_serve (request (FnServers nodeID)) w)
    with (Got (map (fun id => (id, default 0 (fc_Generation <$> fn_fences w !! id))) (fn_on w))).
  change (world_alone fn_serve (request (FnServers nodeID)) w) with w. set (servers := map _ (fn_on w)). cbv beta iota.
  rewrite world_alone_bind. change (answer_alone fn_serve (request FnClock) w) with (fn_now w).
  change (world_alone fn_serve (request FnClock) w) with w. rewrite world_alone_bind.
  destruct (fence_servers_alone (fn_now w + 24 * Hour) servers w) as [Ha Hw].
  { unfold servers. by rewrite map_map, map_id. }
  { intros k g (x & [= -> _] & Hx)%list_elem_of_fmap. by apply Hin. }
  rewrite Ha. assert (Hend : forall w1, fn_fences (world_alone fn_serve
      (if publisher then pbind (request (FnPublish nodeID (Z.of_nat (length servers)))) (fun _ => Ret (None : error)) else Ret None) w1)
      = fn_fences w1) by (by intros; destruct publisher).
  rewrite Hend, Hw. clear Hend Ha Hw.
  case_bool_decide as Hon.
  - destruct (list_find _ servers) as [[n [k g]]|] eqn:El.
    + apply list_find_Some in El as (Hl & Hk & _). cbn in Hk. subst k. apply list_elem_of_lookup_2 in Hl.
      apply list_elem_of_fmap in Hl as (x & [= <- ->] & _). by rewrite Hf.
    + apply list_find_None in El. rewrite Forall_forall in El. destruct (El (id, default 0 (fc_Generation <$> fn_fences w !! id))); [|done].
      apply list_elem_of_fmap. by exists id.
  - destruct (list_find _ servers) as [[n [k g]]|] eqn:El; [|done]. destruct Hon.
    apply list_find_Some in El as (Hl & Hk & _). cbn in Hk. subst k. apply list_elem_of_lookup_2 in Hl.
    by apply list_elem_of_fmap in Hl as (x & [= <- ->] & Hx).
Qed.

(** ** When no statement fails *)

Record MbWorld := mkMbWorld {
  mw_nodes : gmap string NodeLife;
  mw_service : MembershipService;
  mw_withdrawn : gset string;
  mw_published : list (string * string);
  mw_executed : list string;
  mw_started : list (string * nat)
}.

(** [plan] is what the planner answers. *)
Definition mb_serve (plan : outcome (answer (string * string))) (X : Type) (e : MbEff X) (w : MbWorld) : X * MbWorld :=
  match e in MbEff X return X * MbWorld with
  | MbNode id => (match mw_nodes w !! id with Some n => Got n | None => Failed ErrNoRows end, w)
  | MbUpdate id patch =>
      let r := update_node id patch (mw_nodes w) in (Got (fst r), w <| mw_nodes := snd r |>)
  | MbAudit _ => (None, w)
  | MbServers _ => (Got [], w)
  | MbPlan _ => (plan, w)
  | MbExecute p => (Returns None, w <| mw_executed := mw_executed w ++ [p] |>)
  | MbWithdraw id => (None, w <| mw_withdrawn := {[id]} ∪ mw_withdrawn w |>)
  | MbReinstate id => (None, w <| mw_withdrawn := mw_withdrawn w ∖ {[id]} |>)
  | MbPublish kind id => (None, w <| mw_published := mw_published w ++ [(kind, id)] |>)
  | MbMem f => let r := f (mw_service w) in (fst r, w <| mw_service := snd r |>)
  | MbGo id t => (tt, w <| mw_started := mw_started w ++ [(id, t)] |>)
  end.

(** The context is done: whatever asks the database or another service is
    refused. *)
Definition mb_cancelled (X : Type) (e : MbEff X) (w : MbWorld) : X * MbWorld :=
  let refused : StoreError := ErrText "context canceled" in
  match e in MbEff X return X * MbWorld with
  | MbNode _ => (Failed refused, w)
  | MbUpdate _ _ => (Failed refused, w)
  | MbAudit _ => (Some "context canceled", w)
  | MbServers _ => (Failed refused, w)
  | MbPlan _ => (Returns (Failed refused), w)
  | MbExecute _ => (Returns (Some "context canceled"), w)
  | MbWithdraw _ => (Some "context canceled", w)
  | MbReinstate _ => (Some "context canceled", w)
  | MbPublish _ _ => (Some "context canceled", w)
  | MbMem f => let r := f (mw_service w) in (fst r, w <| mw_service := snd r |>)
  | MbGo _ _ => (tt, w)
  end.

Definition example_membership : MbWorld :=
  mkMbWorld {["node-1" := mkNodeLife false false "active" "online" "" "healthy"]}
    (mkMembership true true (mkMembershipMetrics 0 0 0 0 0 0) ∅ ∅ 0) ∅ [] [] [].

Definition after {A} (h : forall X, MbEff X -> MbWorld -> X * MbWorld) (p : B_ A) (w : MbWorld) : MbWorld :=
  world_alone h p w.

(** The node, and what the service says of its drain. *)
Definition report (w : MbWorld) : option (bool * string) * bool * answer string :=
  ((fun n => (nl_Draining n, nl_DesiredState n)) <$> mw_nodes w !! "node-1",
   bool_decide ("node-1" ∈ mw_withdrawn w), answer_alone (mb_serve (Returns (Got ("", "")))) (DrainStatus "node-1") w).

Definition mb_good : forall X, MbEff X -> MbWorld -> X * MbWorld := mb_serve (Returns (Got ("plan", "pending"))).
Definition draining_world : MbWorld := after mb_good (StartDrain true "node-1") example_membership.

Definition planned (tr : list (exchange MbEff)) : option (outcome (answer (string * string))) :=
  match tr with
  | existT _ (e, x) :: _ =>
      match e in MbEff X return X -> option (outcome (answer (string * string))) with
      | MbPlan _ => fun plan => Some plan | _ => fun _ => None
      end x
  | [] => None
  end.

Lemma drain_run_settles_witness :
  let tr := trace_alone mb_good (drain_run true "node-1" 0) draining_world in
  flat_map published tr = [("NodeDrainingCompleted", "node-1")] /\
  flat_map updates tr = [("node-1", resetDrainPatch)].
Proof.
  cbv zeta. set (tr := trace_alone _ _ _). split; [by vm_compute|].
  assert (H : returns (drain_run true "node-1" 0) tr tt).
  { pose proof (returns_alone mb_good (drain_run true "node-1" 0) draining_world) as H.
    destruct (answer_alone mb_good (drain_run true "node-1" 0) draining_world). exact H. }
  assert (Hn : TrimSpace "node-1" <> "") by by vm_compute.
  destruct (drain_run_settles true "node-1" 0 tr Hn H) as (plan & err & late & E & Hend).
  assert (Ep : plan = Returns (Got ("plan", "pending"))).
  { assert (Eh : planned tr = Some plan) by (rewrite E; reflexivity). unfold tr in Eh. vm_compute in Eh. by injection Eh. }
  subst plan. assert (Ex : err = Returns None).
  { assert (Eh : exists l, flat_map executions tr = ("plan", err) :: l) by (rewrite E; by eexists).
    destruct Eh as [l Eh]. unfold tr in Eh. vm_compute in Eh. by injection Eh. }
  subst err. change (drained _ _) with (Some true) in Hend. destruct Hend as (Hu & _ & Hx & _).
  rewrite E. cbn [flat_map]. rewrite !flat_map_app, Hu. reflexivity.
Defined.

Lemma ledger_follows_events_witness :
  dr_Status <$> subscriber_run [(DrainingStarted "n" "", 1); (PlanFailed "n", 2)] ∅ !! "n" = Some "failed".
Proof.
  rewrite (ledger_follows_events [(DrainingStarted "n" "", 1); (PlanFailed "n", 2)] "n" ∅);
    [reflexivity|intros k s Hs; by rewrite lookup_empty in Hs|discriminate].
Defined.

(** ** What the code does beyond what it says *)

(** The goroutine of a drain runs with the context of the request that started
    it, which is cancelled as soon as that request is answered: no plan is
    made, the node cannot be given back, and it is draining from then on. *)
Lemma drain_of_a_request_is_stuck :
  report (after mb_cancelled (drain_run true "node-1" 0) draining_world) =
  (Some (true, "draining"), true, Got "draining").
Proof. by vm_compute. Qed.

(** When the planner panics, the node is draining from then on and nobody is
    told; the tracker is closed but kept. *)
Lemma panicked_drain_keeps_the_node :
  let w := after (mb_serve Panics) (drain_run true "node-1" 0) draining_world in
  report w = (Some (true, "draining"), true, Got "draining") /\ mw_published w = mw_published draining_world.
Proof. by vm_compute. Qed.

(** A drain that failed gives the node back without its traffic, and the
    service goes on saying that it is draining. *)
Lemma failed_drain_leaves_traces :
  report (after (mb_serve (Returns (Failed ErrNoRows))) (drain_run true "node-1" 0) draining_world) =
  (Some (false, "active"), true, Got "draining").
Proof. by vm_compute. Qed.

(** A drain is cancelled in the tables only: its goroutine goes on, executes
    the plan and announces that the node is drained. *)
Lemma cancelled_drain_goes_on :
  let w := after mb_good (drain_run true "node-1" 0) (after mb_good (CancelDrain true "node-1") draining_world) in
  mw_executed w = ["plan"] /\ last (mw_published w) = Some ("NodeDrainingCompleted", "node-1").
Proof. by vm_compute. Qed.

(** Ending the maintenance of a node that is draining makes it active while it
    drains. *)
Lemma maintenance_makes_a_draining_node_active :
  report (after mb_good (DisableMaintenance true "node-1") draining_world) =
  (Some (true, "active"), true, Got "draining").
Proof. by vm_compute. Qed.

(** An execution is accepted when its first migrations were started, which is
    when a drain announces that the node is drained. *)
Definition claimed_world : EvWorld :=
  three_running <| vw_db := mkEvTables ∅ {["p" := mkPlanRow "a" "pending" 600]} (et_items (vw_db three_running)) |>.

Lemma drained_before_the_servers_moved :
  match answer_alone (serves 0) (ExecutePlan EvacuationRules.example_planner true "p") claimed_world with
  | Got plan => Evacuation.ev_Status plan = "running" /\
      map Evacuation.ei_Status (Evacuation.ev_Items plan) = ["running"; "running"; "pending"]
  | Failed _ => False
  end.
Proof. by vm_compute. Qed.

(** A second drain of a node is not recorded as begun. *)
Lemma second_drain_is_not_recorded :
  dr_Status <$> subscriber_run [(DrainingStarted "n" "", 1); (DrainingCompleted "n", 2); (DrainingStarted "n" "", 3)] ∅ !! "n" =
  Some "drained".
Proof. by vm_compute. Qed.

(** The events of a plan name the plan, where the ledger expects the node. *)
Lemma plan_events_are_not_recorded :
  subscriber_run [(DrainingStarted "n" "", 1); (PlanCreated "plan-1" 3 0, 2)] ∅ = subscriber_run [(DrainingStarted "n" "", 1)] ∅.
Proof. by vm_compute. Qed.

(** The ledger of a drain that begins shows its first and last steps as done. *)
Lemma steps_are_done_at_the_start :
  map st_State (newSteps 0 StepTrafficWithdrawal) = ["done"; "pending"; "pending"; "done"].
Proof. reflexivity. Qed.

(** Fencing writes what it computed from what it read: when plans raise the
    generation in between, it is lowered. *)
Lemma fencing_lowers_a_generation :
  let fences : gmap string Fence := {["s1" := mkFence 5 None]} in
  let item := Evacuation.mkEvacuationItem "" "" "s1" "a" "b" true "" "" "" None in
  let between f := match fence_server item 0 f with Got f' => f' | Failed _ => f end in
  let raised := between (between fences) in
  fc_Generation <$> raised !! "s1" = Some 7 /\
  fc_Generation <$> (UpdateServerGeneration "s1" (iadd (default 0 (fc_Generation <$> fences !! "s1")) 1) None raised).2 !! "s1"
    = Some 6.
Proof. by vm_compute. Qed.
