(* ===== verification/Migration.v ===== *)
(** * The migration service

    [forge/api/internal/services/migration/service.go]: a server moves to
    another node.  A migration is validated and recorded with capacity for it;
    a worker then takes its run through the phases of the transfer, writes each
    phase down, and commits the change of owner; what fails is rolled back.
    A worker that stops is replaced: the next one resumes from the phase that
    was written.

    Every function is a program over [MEff]: the requests of the control plane,
    the statements on the migration tables, and the calls of the transfer
    protocol of a node.  [Migrations] says what the statements do, [Transfer]
    what the nodes do.

    Deadlines are not counted: a call that takes longer answers an error.  The
    configuration that is sent to a node, and logging, are left out. *)
From Stdlib Require Import ZArith Lia Ascii Init.Byte Floats.SpecFloat.
From stdpp Require Import base gmap strings list fin_maps.
From coqutil Require Import Datatypes.RecordSettersUsingExistingGetters.
From S2P Require Import Prelude GoStrings GoSort Constraints Strategy Programs Capacity Servers ControlPlane Reservations Scheduler ClusterManager Migrations Transfer Evacuation.
Import RecordSetNotations1.
#[local] Open Scope string_scope.
#[local] Open Scope list_scope.
#[local] Open Scope Z_scope.
#[local] Open Scope go_scope.

(** ** Requests *)

(* go: daemon/client.go type:TransferPushRequest *)
Record TransferPushRequest := mkTransferPush {
  tp_DestinationURL : string;
  tp_DestinationCredential : string;
  tp_IdempotencyKey : string
}.

(** The calls of the transfer protocol.  A registration carries the token of
    the node. *)
(* go: daemon/client.go L582-635 *)
Inductive TransferCall : Type -> Type :=
| RegisterTransferCredential (token : string) (reg : CredentialRegistration) : TransferCall unit
| PrepareTransferSource (id credential : string) : TransferCall Metadata
| PushTransferSource (id credential : string) (push : TransferPushRequest) : TransferCall Metadata
| RestoreTransferDestination (id credential : string) : TransferCall Metadata
| FinalizeTransferDestination (id credential : string) : TransferCall unit
| CleanupTransferSource (id credential : string) : TransferCall unit
| CancelTransfer (id credential : string) : TransferCall unit.

(** [Base] is a request of the other services.  [TransferTargets] joins the
    rows of both nodes with their credentials.  [TryReconcile] takes the lock
    of a pass if it is free; [StartRun], [CancelRunning] and [EndRun] act on
    the workers of this process, [StartCleanup] waits for a free slot and
    starts a goroutine. *)
Inductive MEff : Type -> Type :=
| Base {A} (e : Eff A) : MEff A
| Query {A} (q : Time -> Tables -> answer A) : MEff (answer A)
| InsertMigration (req : CreateMigrationRequest) : MEff (answer Migration)
| SetStatus (id status reason : string) : MEff (answer Migration)
| EnsureRun (id version : string) : MEff (answer MigrationRun)
| ClaimRun (id worker : string) (lease : Duration) : MEff (answer MigrationRun)
| AdvanceRun (id phase lastError : string) (size : Z) (checksum : string) : MEff (answer MigrationRun)
| SetHashes (id : string) : MEff (answer unit)
| CommitMove (id : string) : MEff (answer unit)
| CleanupDone (id : string) : MEff (answer unit)
| CancelRun (id : string) : MEff (answer unit)
| FailRun (id reason : string) : MEff (answer unit)
| TransferTargets (id : string) : MEff (answer (ServerProvisionTarget * ServerProvisionTarget))
| NewCredential : MEff (result string)
| OnTransfer {A} (url : string) (c : TransferCall A) : MEff (result A)
| TryReconcile : MEff bool
| EndReconcile : MEff unit
| StartRun (id : string) : MEff bool
| CancelRunning (id : string) : MEff unit
| EndRun (id : string) : MEff unit
| StartCleanup (id : string) : MEff unit
| WaitCleanups : MEff unit.

Abbreviation M := (prog MEff) (only parsing).

Fixpoint lift {A} (p : prog Eff A) : M A :=
  match p with Ret a => Ret a | Vis e k => Vis (Base e) (fun x => lift (k x)) end.

(* go: domain/domain.go type:ConstraintFailure *)
Record ConstraintFailure := mkConstraintFailure {
  cf_Constraint : string;
  cf_Required : string;
  cf_Available : string;
  cf_Message : string
}.

(* go: domain/domain.go type:TargetValidationError *)
Record TargetValidationError := mkTargetError {
  te_Code : string;
  te_Message : string;
  te_Reasons : list ConstraintFailure;
  te_EligibleTargets : list string
}.

(** The errors of this service. *)
Inductive MigrationError :=
| FromStore (e : StoreError)
| Ineligible (e : TargetValidationError)
| ExecutorUnavailable (operation migrationID : string).

(* go: services/migration/service.go L57-64 *)
Definition migration_error_text (e : MigrationError) : string :=
  match e with
  | FromStore e => store_error_text e
  | Ineligible e => te_Message e
  | ExecutorUnavailable operation _ =>
      cat [operation; " is unavailable because workload transfer runtime dependencies are missing"]
  end.

(** Early return on an error. *)
Inductive attempted (A : Type) : Type :=
| Got_ (a : A)
| Bad (e : MigrationError).
Arguments Got_ {A} a.
Arguments Bad {A} e.

Definition mtry {A B} (m : M (attempted A)) (k : A -> M (attempted B)) : M (attempted B) :=
  pbind m (fun r => match r with Got_ a => k a | Bad e => Ret (Bad e) end).

Definition from_answer {A} (r : answer A) : attempted A :=
  match r with Got a => Got_ a | Failed e => Bad (FromStore e) end.

(** A statement or a call of another service. *)
Definition asking {A} (m : M (answer A)) : M (attempted A) := pbind m (fun r => Ret (from_answer r)).

Definition bad_with {A} (msg : string) : M (attempted A) := Ret (Bad (FromStore (ErrText msg))).

Notation "'let!^' x := m 'in' k" := (mtry m (fun x => k))
  (at level 200, x binder, m at level 200, k at level 200, only parsing) : go_scope.

Definition mignore {A} (m : M A) : M unit := pbind m (fun _ => Ret tt).

(** ** The service *)

(** What may be absent: the planner, the reservations, the runtime, the
    publisher and the transfer client. *)
(* go: services/migration/service.go type:Service *)
Record MigrationService := mkMigrationService {
  ms_scheduler : Scheduler;
  ms_planner : option Planner;
  ms_reservations : option ReservationManager;
  ms_runtime : bool;
  ms_publisher : bool;
  ms_daemon : bool;
  ms_workerID : string
}.

(* go: services/migration/service.go const:maxConcurrentWorkers *)
Definition maxConcurrentWorkers : nat := 4.

Section Service.
Context (s : MigrationService).

(* go: services/migration/service.go func:Service.ExecutorAvailable *)
Definition ExecutorAvailable : bool := ms_daemon s && ms_runtime s.

(* go: services/migration/service.go func:Service.publish *)
Definition publish_migration (kind id : string) : M unit :=
  if ms_publisher s then request (Base (Publish (EventMigration kind id))) else Ret tt.

(* go: services/migration/service.go func:Service.increment *)
Definition count (m : Metric) : M unit := request (Base (Count m)).

(** ** Validation *)

(* go: services/migration/service.go func:Service.planTarget *)
Definition planTarget (server : ServerRow) (source : NodeRow) : M (attempted string) :=
  match ms_planner s with
  | None => bad_with "targetNodeId is required"
  | Some planner =>
      let!^ nodes := asking (lift ListNodes) in
      let^ r := lift (FindCandidates planner server source nodes) in
      match r with
      | (Some (selected, _), reason) =>
          if (nd_ID selected =? "")%string then bad_with reason else Ret (Got_ (nd_ID selected))
      | (None, reason) => bad_with reason
      end
  end.

Definition bool_text (b : bool) : string := if b then "true" else "false".
Definition shares (n : Z) : string := cat [itoa n; " shares"].
Definition mebibytes (n : Z) : string := cat [itoa n; " MiB"].

(* go: services/migration/service.go L774-789 *)
Definition state_failures (source target : NodeRow) : list ConstraintFailure :=
  (if negb (nd_ActualState target =? "online")%string || nd_Maintenance target || nd_Draining target
   then [mkConstraintFailure "node_state" "online, not draining, not maintenance"
           (cat [nd_ActualState target; " (draining="; bool_text (nd_Draining target); ", maintenance=";
                 bool_text (nd_Maintenance target); ")"])
           "The target node is not in a state that can receive workloads."]
   else []) ++
  match nd_RegionID source with
  | Some region =>
      if negb (bool_decide (nd_RegionID target = Some region))
      then [mkConstraintFailure "region" region (default "none" (nd_RegionID target))
              "The target node is not in the same region as the source node."]
      else []
  | None => []
  end.

(* go: services/migration/service.go L793-817 *)
Definition capacity_failures (server : ServerRow) (c : NodeCapacitySnapshot) : list ConstraintFailure :=
  (if (0 <? ns_TotalCPU c) && negb (HasCapacity (ns_TotalCPU c) (ns_AvailableCPU c) (sv_cpu_shares server))
   then [mkConstraintFailure "cpu" (shares (sv_cpu_shares server)) (shares (ns_AvailableCPU c))
           "The target node does not have enough available CPU."] else []) ++
  (if (0 <? ns_TotalMemory c) && negb (HasCapacity (ns_TotalMemory c) (ns_AvailableMemory c) (sv_memory_mb server))
   then [mkConstraintFailure "memory" (mebibytes (sv_memory_mb server)) (mebibytes (ns_AvailableMemory c))
           "The target node does not have enough available memory."] else []) ++
  (if (0 <? ns_TotalDisk c) && negb (HasCapacity (ns_TotalDisk c) (ns_AvailableDisk c) (sv_disk_mb server))
   then [mkConstraintFailure "disk" (mebibytes (sv_disk_mb server)) (mebibytes (ns_AvailableDisk c))
           "The target node does not have enough available disk."] else []).

(* go: services/migration/service.go L830-837 *)
Definition other_targets (source target : NodeRow) (nodes : list NodeRow) : list string :=
  map nd_ID (filter (fun n => nd_ID n <> nd_ID target /\ nd_ID n <> nd_ID source /\ nd_ActualState n = "online" /\
                              nd_Maintenance n = false /\ nd_Draining n = false) nodes).

Definition target_request (server : ServerRow) (source target : NodeRow) : PlacementRequest :=
  mkPlacementRequest "" (default "" (nd_RegionID source)) "" "" (nd_ID target) "" "" false "" "" []
    (sv_memory_mb server) 0 (sv_cpu_shares server) (sv_disk_mb server).

(* go: services/migration/service.go func:Service.validateTarget *)
Definition validateTarget (server : ServerRow) (source target : NodeRow) : M (attempted unit) :=
  let!^ filtered := asking (lift (FilterNodes (ms_scheduler s) (target_request server source target) [target])) in
  match filtered with
  | _ :: _ =>
      match ms_planner s with
      | Some planner => let!^ _ := asking (lift (ValidateCapacity (nd_ID target) server)) in Ret (Got_ tt)
      | None => Ret (Got_ tt)
      end
  | [] =>
      let^ snapshot := lift (ReadCapacity (nd_ID target)) in
      let failures := state_failures source target ++
        match snapshot with
        | Got c => capacity_failures server c
        | Failed e => [mkConstraintFailure "capacity_snapshot" "readable capacity data" (store_error_text e)
                         "Could not read capacity data for the target node."]
        end in
      let^ nodes := lift ListNodes in
      Ret (Bad (Ineligible (mkTargetError "migration_target_ineligible"
        "The selected target node cannot host this server." failures
        (match nodes with Got nodes => other_targets source target nodes | Failed _ => [] end))))
  end.

(* go: services/migration/service.go func:Service.ValidateMigration *)
Definition ValidateMigration (req : CreateMigrationRequest) : M (attempted CreateMigrationRequest) :=
  let serverID := TrimSpace (cm_ServerID req) in
  if (serverID =? "")%string then bad_with "serverId is required"
  else
    let!^ server := asking (lift (GetServer serverID)) in
    let sourceNodeID := TrimSpace (cm_SourceNodeID req) in
    let!^ sourceNodeID := (if (sourceNodeID =? "")%string
                           then asking (request (Query (fun _ => ServerNodeID serverID)))
                           else Ret (Got_ sourceNodeID)) in
    let!^ source := asking (lift (GetNode sourceNodeID)) in
    let targetNodeID := TrimSpace (cm_TargetNodeID req) in
    let!^ targetNodeID := (if (targetNodeID =? "")%string then planTarget server source
                           else Ret (Got_ targetNodeID)) in
    if (sourceNodeID =? targetNodeID)%string then bad_with "target node must be different from source node"
    else
      let!^ target := asking (lift (GetNode targetNodeID)) in
      let!^ _ := validateTarget server source target in
      Ret (Got_ (mkCreateMigrationRequest serverID sourceNodeID targetNodeID)).

(** ** Creation *)

(** Capacity is held for half an hour. *)
(* go: services/migration/service.go L162-172 *)
Definition migration_reservation (m : Migration) (server : ServerRow) (now : Time)
    : CreatePlacementReservationRequest :=
  mkReservationRequest (m_ServerID m) (m_TargetNodeID m) (m_ID m) "migration" "active" ""
    (sv_cpu_shares server) (sv_memory_mb server) (sv_disk_mb server) (time_add now (30 * Minute)).

(* go: services/migration/service.go func:Service.CreateMigration *)
Definition CreateMigration (req : CreateMigrationRequest) : M (attempted Migration) :=
  let!^ normalized := ValidateMigration req in
  let!^ migration := asking (request (InsertMigration normalized)) in
  let!^ _ :=
    match ms_reservations s with
    | None => Ret (Got_ tt)
    | Some mgr =>
        let^ r := lift (GetServer (cm_ServerID normalized)) in
        match r with
        | Failed e =>
            request (SetStatus (m_ID migration) "failed" "migration reservation server lookup failed") ;;^
            Ret (Bad (FromStore e))
        | Got server =>
            let^ now := request (Base Clock) in
            let^ r := lift (CreateReservation (Some mgr) (migration_reservation migration server now)) in
            match r with
            | Failed e =>
                request (SetStatus (m_ID migration) "failed" "migration reservation failed") ;;^
                Ret (Bad (FromStore e))
            | Got _ => Ret (Got_ tt)
            end
        end
    end in
  count MigrationTotal ;;^
  publish_migration "MigrationCreated" (m_ID migration) ;;^
  Ret (Got_ migration).

(* go: services/migration/service.go func:Service.GetMigration *)
Definition ReadMigration (id : string) : M (answer Migration) := request (Query (fun _ => GetMigration id)).

(* go: services/migration/service.go func:Service.ListMigrations *)
Definition ReadMigrations : M (answer (list Migration)) := request (Query (fun _ t => Got (ListMigrations t))).

(* go: services/migration/service.go func:Service.PrepareMigration *)
Definition PrepareMigration (id : string) : M (attempted Migration) :=
  if negb ExecutorAvailable then Ret (Bad (ExecutorUnavailable "migration preparation" id))
  else
    let!^ migration := asking (ReadMigration id) in
    if negb (slices_contains ["planned"; "preparing"] (m_Status migration))
    then bad_with "migration is not in a preparable state"
    else
      let!^ _ := asking (request (EnsureRun id ProtocolVersion)) in
      let!^ _ := (if (m_Status migration =? "planned")%string
                  then let!^ _ := asking (request (SetStatus id "preparing" "real transfer run prepared")) in
                       Ret (Got_ tt)
                  else Ret (Got_ tt)) in
      asking (ReadMigration id).

(** Whether the worker starts does not matter: a later pass starts it. *)
(* go: services/migration/service.go func:Service.ExecuteMigration *)
Definition ExecuteMigration (id : string) : M (attempted Migration) :=
  let!^ _ := PrepareMigration id in
  request (StartRun id) ;;^
  asking (ReadMigration id).

(** ** A worker *)

(** What [StartRun] does to the workers of the process. *)
(* go: services/migration/service.go func:Service.startRun *)
Definition startRun (id : string) (active : gset string) : bool * gset string :=
  if bool_decide (id ∈ active) || (maxConcurrentWorkers <=? size active)%nat then (false, active)
  else (true, {[id]} ∪ active).

(* go: services/migration/service.go func:phaseAtLeast *)
Definition phase_order (phase : string) : Z :=
  default 0 ((list_to_map [("planned", 0); ("credentials_registered", 1); ("source_archived", 2);
    ("destination_verified", 3); ("destination_restored", 4); ("destination_configured", 5);
    ("destination_created", 6); ("completed", 7)] : gmap string Z) !! phase).

Definition phaseAtLeast (current expected : string) : bool := phase_order expected <=? phase_order current.

(** Without the provider of the server: the node takes its default. *)
(* go: services/migration/service.go func:runtimeTarget *)
Definition migrationTarget (t : ServerProvisionTarget) : RuntimeTarget :=
  mkRuntimeTarget "" (pt_NodeURL t) (pt_NodeToken t) (pt_ServerID t) "".

(** No user, group and registry credential. *)
(* go: services/migration/service.go func:runtimeCreateRequest *)
Definition migrationCreateRequest (t : ServerProvisionTarget) : RuntimeCreateRequest :=
  let env := map (fun '(k, v) => cat [k; "="; v]) (isort by_key (map_to_list (server_environment t))) in
  mkRuntimeCreateRequest (pt_ServerID t) (pt_Name t) (pt_Image t)
    (if needs_eula (pt_Image t) then [] else ["/bin/sh"; "-lc"; pt_StartupCommand t])
    (if needs_eula (pt_Image t) then env ++ ["EULA=TRUE"] else env)
    (map runtime_port (pt_Allocations t)) (map runtime_mount (pt_Mounts t))
    (pt_MemoryMB t) (pt_SwapMB t) (pt_CPUShares t) (pt_CPULimit t) (pt_DiskMB t) (pt_IOWeight t)
    (pt_Threads t) (pt_OOMDisabled t) 0 0 None.

(** What a worker holds once it set up: both sides and their credentials. *)
Record Sides := mkSides {
  si_source : ServerProvisionTarget;
  si_target : ServerProvisionTarget;
  si_sourceCredential : string;
  si_destinationCredential : string
}.

(** The arguments of [fail]: the cause, what is known of the two sides, and
    whether the destination may hold a container.  An empty credential or
    address is not used. *)
Record Failure := mkFailure {
  fl_cause : string;
  fl_sides : option Sides;
  fl_created : bool
}.

(** A part of a worker: it goes on, or it hands over to [fail]. *)
Inductive progress (A : Type) : Type :=
| Went (a : A)
| Stopped (f : Failure).
#[global] Arguments Went {A} a.
#[global] Arguments Stopped {A} f.

Definition proceed {A B} (m : M (progress A)) (k : A -> M (progress B)) : M (progress B) :=
  pbind m (fun r => match r with Went a => k a | Stopped f => Ret (Stopped f) end).

Notation "'let>^' x := m 'in' k" := (proceed m (fun x => k))
  (at level 200, x binder, m at level 200, k at level 200, only parsing) : go_scope.

Definition stop_at {A} (sides : Sides) (created : bool) (what cause : string) : M (progress A) :=
  Ret (Stopped (mkFailure (cat [what; cause]) (Some sides) created)).

(** A call that must succeed. *)
Definition must {A} (sides : Sides) (what : string) (m : M (result A)) : M (progress A) :=
  pbind m (fun r => match r with Ok a => Ret (Went a) | Err e => stop_at sides false what e end).

Definition claims_for (m : Migration) (direction : string) (expires : Time) : CredentialClaims :=
  mkClaims ProtocolVersion (m_ID m) (m_ServerID m) (m_SourceNodeID m) (m_TargetNodeID m) direction expires.

Context {AR : Archives}.

(* go: services/migration/service.go func:credentialHash *)
Definition credentialHash (value : string) : string := digest (String.list_byte_of_string value).

(** Registers a credential of one direction on a node. *)
Definition register_on (t : ServerProvisionTarget) (m : Migration) (direction credential : string) (expires : Time)
    : M (result unit) :=
  request (OnTransfer (pt_NodeURL t) (RegisterTransferCredential (pt_NodeToken t)
    (mkRegistration (claims_for m direction expires) (credentialHash credential)))).

(** Every worker takes new credentials; the old ones end with the
    registration. *)
(* go: services/migration/service.go L439-476 *)
Definition set_up (id : string) : M (progress (Migration * Sides)) :=
  let unknown cause := Ret (Stopped (mkFailure cause None false)) in
  let^ r := ReadMigration id in
  match r with
  | Failed e => unknown (store_error_text e)
  | Got migration =>
      let^ r := request (TransferTargets id) in
      match r with
      | Failed e => unknown (store_error_text e)
      | Got (source, target) =>
          let^ r := request NewCredential in
          match r with
          | Err e => stop_at (mkSides source target "" "") false "generate source credential: " e
          | Ok sourceCredential =>
              let^ r := request NewCredential in
              match r with
              | Err e => stop_at (mkSides source target sourceCredential "") false "generate destination credential: " e
              | Ok destinationCredential =>
                  let sides := mkSides source target sourceCredential destinationCredential in
                  let^ now := request (Base Clock) in
                  let expires := time_add now (30 * Minute) in
                  let^ r := request (SetHashes id) in
                  match r with
                  | Failed e => stop_at sides false "" (store_error_text e)
                  | Got _ =>
                      let>^ _ := must sides "register source credential: "
                        (register_on source migration DirectionSourceControl sourceCredential expires) in
                      let>^ _ := must sides "register destination credential: "
                        (register_on target migration DirectionDestinationUpload destinationCredential expires) in
                      Ret (Went (migration, sides))
                  end
              end
          end
      end
  end.

(** The archive of the source, made now or by an earlier worker. *)
(* go: services/migration/service.go L484-499 *)
Definition archive_source (id : string) (run : MigrationRun) (sides : Sides) : M (progress (Z * string)) :=
  if phaseAtLeast (mr_Phase run) "source_archived" then Ret (Went (mr_ArchiveSize run, mr_ArchiveChecksum run))
  else
    let>^ archive := must sides "prepare source: "
      (request (OnTransfer (pt_NodeURL (si_source sides)) (PrepareTransferSource id (si_sourceCredential sides)))) in
    if negb (x_Phase archive =? "archived")%string || (x_ArchiveSize archive <=? 0) || (x_Checksum archive =? "")%string
    then stop_at sides false "source did not report a complete archive" ""
    else
      request (SetStatus id "transferring" "source stopped and archive created") ;;^
      request (AdvanceRun id "source_archived" "" (x_ArchiveSize archive) (x_Checksum archive)) ;;^
      Ret (Went (x_ArchiveSize archive, x_Checksum archive)).

(* go: services/migration/service.go L500-517 *)
Definition push_archive (id : string) (run : MigrationRun) (migration : Migration) (sides : Sides)
    (archive : Z * string) : M (progress unit) :=
  if phaseAtLeast (mr_Phase run) "destination_verified" then Ret (Went tt)
  else
    let>^ verified := must sides "transfer archive: "
      (request (OnTransfer (pt_NodeURL (si_source sides)) (PushTransferSource id (si_sourceCredential sides)
         (mkTransferPush (pt_NodeURL (si_target sides)) (si_destinationCredential sides)
            (cat [m_IdempotencyKey migration; ":upload"]))))) in
    if negb (x_Phase verified =? "verified")%string || negb (x_Offset verified =? fst archive) ||
       negb (EqualFold (x_Checksum verified) (snd archive))
    then stop_at sides false "destination verification report is inconsistent with source archive" ""
    else
      request (AdvanceRun id "destination_verified" "" (x_ArchiveSize verified) (x_Checksum verified)) ;;^
      request (SetStatus id "restoring" "destination checksum verified") ;;^
      Ret (Went tt).

(* go: services/migration/service.go L518-530 *)
Definition restore_destination (id : string) (run : MigrationRun) (sides : Sides) : M (progress unit) :=
  if phaseAtLeast (mr_Phase run) "destination_restored" then Ret (Went tt)
  else
    let>^ restored := must sides "restore destination: "
      (request (OnTransfer (pt_NodeURL (si_target sides))
         (RestoreTransferDestination id (si_destinationCredential sides)))) in
    if negb (x_Phase restored =? "restored")%string
    then stop_at sides false "restore destination: " "destination did not report restored"
    else request (AdvanceRun id "destination_restored" "" 0 "") ;;^ Ret (Went tt).

Definition on_target {A} (sides : Sides) (c : NodeCall A) : M (result A) :=
  request (Base (OnNode (migrationTarget (si_target sides)) c)).

(* go: services/migration/service.go L532-541 *)
Definition configure_destination (id : string) (run : MigrationRun) (sides : Sides) : M (progress unit) :=
  if phaseAtLeast (mr_Phase run) "destination_configured" then Ret (Went tt)
  else
    let>^ _ := must sides "sync destination configuration: " (on_target sides SyncConfiguration) in
    request (AdvanceRun id "destination_configured" "" 0 "") ;;^ Ret (Went tt).

(** An unreadable destination counts as empty: the creation is idempotent. *)
(* go: services/migration/service.go func:Service.destinationExists *)
Definition destinationExists (sides : Sides) : M bool :=
  let^ r := on_target sides InspectWorkload in
  Ret match r with Ok i => i_Exists i | Err _ => false end.

(** An unreadable destination counts as created: the deletion is harmless. *)
(* go: services/migration/service.go func:Service.destinationCreatedObserved *)
Definition destinationCreatedObserved (sides : Sides) : M bool :=
  let^ r := on_target sides InspectWorkload in
  Ret match r with Ok i => i_Exists i | Err _ => true end.

(* go: services/migration/service.go L545-573 *)
Definition create_destination (sides : Sides) : M (progress unit) :=
  let^ exists_ := destinationExists sides in
  if exists_ : bool then Ret (Went tt)
  else
    let^ created := on_target sides (CreateWorkload (migrationCreateRequest (si_target sides))) in
    let rejected cause :=
      let^ observed := destinationCreatedObserved sides in
      stop_at sides observed "create destination container: " cause in
    match created with
    | Err e => rejected e
    | Ok false => rejected "destination rejected container creation"
    | Ok true =>
        let^ r := on_target sides InspectWorkload in
        match r with
        | Err e => stop_at sides true "destination health check: " e
        | Ok i =>
            if i_Exists i then Ret (Went tt)
            else stop_at sides true "destination health check: "
                   "post-creation health check failed: server does not exist on destination"
        end
    end.

(** The commit.  What was set aside at the destination and the data of the
    source go only after it. *)
(* go: services/migration/service.go func:Service.finalize *)
Definition finalize (id : string) (sides : Sides) : M (progress unit) :=
  let^ r := request (CommitMove id) in
  match r with
  | Failed e => stop_at sides true "commit migration ownership: " (store_error_text e)
  | Got _ =>
      let^ finalized := request (OnTransfer (pt_NodeURL (si_target sides))
                                   (FinalizeTransferDestination id (si_destinationCredential sides))) in
      (match finalized with
       | Err _ => Ret tt
       | Ok _ =>
           let^ cleaned := request (OnTransfer (pt_NodeURL (si_source sides))
                                      (CleanupTransferSource id (si_sourceCredential sides))) in
           match cleaned with Err _ => Ret tt | Ok _ => mignore (request (CleanupDone id)) end
       end) ;;^
      (match ms_reservations s with
       | Some mgr => lift (CompleteMigrationReservations (Some mgr) id)
       | None => Ret tt end) ;;^
      count MigrationCompletedTotal ;;^
      publish_migration "MigrationCompleted" id ;;^
      Ret (Went tt)
  end.

(** A run from the phase that was written down to the commit. *)
(* go: services/migration/service.go L439-576 *)
Definition attempt (id : string) (run : MigrationRun) : M (progress unit) :=
  let>^ set := set_up id in
  let '(migration, sides) := set in
  (if negb (phaseAtLeast (mr_Phase run) "source_archived")
   then mignore (request (AdvanceRun id "credentials_registered" "" 0 "")) else Ret tt) ;;^
  if phaseAtLeast (mr_Phase run) "destination_created" then finalize id sides
  else
    let>^ archive := archive_source id run sides in
    let>^ _ := push_archive id run migration sides archive in
    let>^ _ := restore_destination id run sides in
    let>^ _ := configure_destination id run sides in
    let>^ _ := create_destination sides in
    request (AdvanceRun id "destination_created" "" 0 "") ;;^
    finalize id sides.

(* go: services/migration/service.go func:Service.MarkFailed *)
Definition MarkFailed (id reason : string) : M (answer Migration) :=
  let^ r := request (SetStatus id "failed" reason) in
  match r with
  | Failed e => Ret (Failed e)
  | Got migration =>
      (match ms_reservations s with
       | Some mgr => lift (CancelMigrationReservations (Some mgr) (m_ID migration))
       | None => Ret tt end) ;;^
      count MigrationFailedTotal ;;^
      publish_migration "MigrationFailed" (m_ID migration) ;;^
      Ret (Got migration)
  end.

Definition on_side {A} (url : string) (m : M A) : M unit :=
  if negb (url =? "")%string then mignore m else Ret tt.

(** The destination is undone, then the source starts again, then the run is
    closed. *)
(* go: services/migration/service.go func:Service.fail *)
Definition fail (id : string) (f : Failure) : M unit :=
  (match fl_sides f with
   | None => Ret tt
   | Some (mkSides source target sourceCredential destinationCredential) =>
       (if negb (destinationCredential =? "")%string
        then on_side (pt_NodeURL target)
               (request (OnTransfer (pt_NodeURL target) (CancelTransfer id destinationCredential)))
        else Ret tt) ;;^
       (if fl_created f
        then on_side (pt_NodeURL target) (request (Base (OnNode (migrationTarget target) DeleteWorkload)))
        else Ret tt) ;;^
       (if negb (sourceCredential =? "")%string
        then on_side (pt_NodeURL source)
               (request (OnTransfer (pt_NodeURL source) (CancelTransfer id sourceCredential)))
        else Ret tt) ;;^
       on_side (pt_NodeURL source) (request (Base (OnNode (migrationTarget source) StartWorkload)))
   end) ;;^
  request (FailRun id (fl_cause f)) ;;^
  mignore (MarkFailed id (fl_cause f)).

Definition work (id : string) (run : MigrationRun) : M unit :=
  let^ r := attempt id run in
  match r with Went _ => Ret tt | Stopped f => fail id f end.

(* go: services/migration/service.go func:Service.run *)
Definition run (id : string) : M unit :=
  (let^ r := request (ClaimRun id (ms_workerID s) (2 * Minute)) in
   match r with Failed _ => Ret tt | Got run => work id run end) ;;^
  request (EndRun id).

(** ** Passes *)

(* go: services/migration/service.go func:Service.cleanupMigration *)
Definition cleanupMigration (id : string) : M (answer unit) :=
  let calling {A} (m : M (result A)) (k : M (answer unit)) : M (answer unit) :=
    pbind m (fun r => match r with Ok _ => k | Err e => Ret (Failed (ErrText e)) end) in
  let^ r := ReadMigration id in
  match r with
  | Failed e => Ret (Failed e)
  | Got migration =>
      if negb (m_Status migration =? "completed")%string || negb (m_CleanupPending migration) then Ret (Got tt)
      else
        let^ r := request (TransferTargets id) in
        match r with
        | Failed e => Ret (Failed e)
        | Got (source, target) =>
            let^ now := request (Base Clock) in
            let expires := time_add now (5 * Minute) in
            let^ r := request NewCredential in
            match r with
            | Err e => Ret (Failed (ErrText e))
            | Ok sourceCredential =>
                let^ r := request NewCredential in
                match r with
                | Err e => Ret (Failed (ErrText e))
                | Ok destinationCredential =>
                    calling (register_on source migration DirectionSourceControl sourceCredential expires)
                    (calling (register_on target migration DirectionDestinationUpload destinationCredential expires)
                    (calling (request (OnTransfer (pt_NodeURL target)
                                (FinalizeTransferDestination id destinationCredential)))
                    (calling (request (OnTransfer (pt_NodeURL source) (CleanupTransferSource id sourceCredential)))
                    (request (CleanupDone id)))))
                end
            end
        end
  end.

(** The goroutine of a cleanup. *)
(* go: services/migration/service.go L373-382 *)
Definition cleanup_worker (id : string) : M unit :=
  let^ r := cleanupMigration id in
  match r with Got _ => count CleanupCompletedTotal | Failed _ => Ret tt end.

Fixpoint start_cleanups (ids : list string) : M unit :=
  match ids with
  | [] => Ret tt
  | id :: ids =>
      let^ err := request (Base ContextErr) in
      match err with
      | Some _ => Ret tt
      | None => request (StartCleanup id) ;;^ start_cleanups ids
      end
  end.

(* go: services/migration/service.go func:Service.cleanup *)
Definition cleanup : M (answer unit) :=
  let^ r := request (Query (fun _ t => Got (CleanupPendingMigrationIDs t))) in
  match r with
  | Failed e => Ret (Failed e)
  | Got ids => start_cleanups ids ;;^ request WaitCleanups ;;^ Ret (Got tt)
  end.

Fixpoint start_runs (ids : list string) : M unit :=
  match ids with [] => Ret tt | id :: ids => request (StartRun id) ;;^ start_runs ids end.

(* go: services/migration/service.go func:Service.reclaim *)
Definition reclaim : M (answer unit) :=
  let^ r := request (Query (fun now t => Got (ReclaimableMigrationIDs now t))) in
  match r with Failed e => Ret (Failed e) | Got ids => start_runs ids ;;^ Ret (Got tt) end.

(** A pass is left out while another one runs. *)
(* go: services/migration/service.go func:Service.RunOnce *)
Definition RunOnce : M unit :=
  if negb (ms_daemon s) then Ret tt
  else
    let^ locked := request TryReconcile in
    if negb locked then Ret tt
    else
      count ReconciliationTotal ;;^
      (if ms_runtime s
       then let^ r := reclaim in match r with Failed _ => count ReconciliationFailures | Got _ => Ret tt end
       else Ret tt) ;;^
      (let^ r := cleanup in match r with Failed _ => count ReconciliationFailures | Got _ => Ret tt end) ;;^
      request EndReconcile.

(** ** Cancellation *)

(** New credentials, so that a cancellation reaches the nodes also after a
    restart of this process; errors are not looked at. *)
(* go: services/migration/service.go L685-699 *)
Definition cancel_side (m : Migration) (t : ServerProvisionTarget) (direction : string) (expires : Time) : M unit :=
  let^ r := request NewCredential in
  match r with
  | Err _ => Ret tt
  | Ok credential =>
      let^ r := register_on t m direction credential expires in
      match r with
      | Err _ => Ret tt
      | Ok _ => mignore (request (OnTransfer (pt_NodeURL t) (CancelTransfer (m_ID m) credential)))
      end
  end.

(* go: services/migration/service.go func:Service.CancelMigration *)
Definition CancelMigration (id : string) : M (answer Migration) :=
  let^ r := ReadMigration id in
  match r with
  | Failed e => Ret (Failed e)
  | Got migration =>
      if terminal_phase (m_Status migration) then Ret (Failed (ErrText "terminal migration cannot be cancelled"))
      else
        request (CancelRunning id) ;;^
        (if ms_daemon s then
           let^ r := request (TransferTargets id) in
           match r with
           | Failed _ => Ret tt
           | Got (source, target) =>
               let^ now := request (Base Clock) in
               let expires := time_add now (5 * Minute) in
               cancel_side migration source DirectionSourceControl expires ;;^
               cancel_side migration target DirectionDestinationUpload expires
           end
         else Ret tt) ;;^
        request (CancelRun id) ;;^
        let^ r := request (SetStatus id "cancelled" "migration cancelled") in
        match r with
        | Failed e => Ret (Failed e)
        | Got migration =>
            (match ms_reservations s with
             | Some mgr => lift (CancelMigrationReservations (Some mgr) (m_ID migration))
             | None => Ret tt end) ;;^
            publish_migration "MigrationCancelled" (m_ID migration) ;;^
            Ret (Got migration)
        end
  end.
End Service.
