(* ===== verification/Network.v ===== *)
(** * Control plane and nodes together

    The requests of [Migration] and of [Transfer] with what answers them: the
    tables, and a machine per node with the directories of its transfers, the
    data and the containers of its servers.

    [perform] is what a machine does when nothing goes wrong, [fault] what may
    go wrong instead: errors before or after the effect, files written in part.
    A call of a node runs the node's handler there; the handler may stop
    anywhere, and its answer may be lost.  Between two requests the rest of the
    system moves ([env]): the workload of the server writes its data, stops,
    and is started again once its migration is over.

    Assumed: nobody starts the server, or changes its data other than by its
    workload, while its migration is under way; one handler of a migration runs
    on a node at a time.  The outcome of a statement that closes a run or
    commits a move may be lost; [marked_step] keeps a mark of it. *)
From Stdlib Require Import ZArith Lia Ascii Init.Byte Floats.SpecFloat.
From stdpp Require Import base gmap strings list fin_maps relations.
From coqutil Require Import Datatypes.RecordSettersUsingExistingGetters.
From S2P Require Import Prelude GoStrings Strategy Programs Capacity Servers ControlPlane Migrations Transfer Migration.
Import RecordSetNotations1.
#[local] Open Scope string_scope.
#[local] Open Scope list_scope.
#[local] Open Scope Z_scope.
#[local] Open Scope go_scope.

(** What a configuration does to the files of a server. *)
Class Configures (AR : Archives) := {
  configure : Tree -> Tree;
  patch : Tree -> Tree -> Prop;
  patch_configure t : patch t (configure t)
}.

Section Machine.
Context {AR : Archives} {CF : Configures AR}.

(** ** A machine *)

(** The directory of a transfer; [td_meta] is by direction. *)
Record TransferDir := mkDir {
  td_meta : gmap string Metadata;
  td_archive : option Bytes;
  td_incoming : option Bytes;
  td_staging : option Tree;
  td_previous : option Tree;
  td_discarded : option Tree
}.

(** [mc_containers] says of a container whether it runs; [mc_active] are the
    transfers with a running operation. *)
Record Machine := mkMachine {
  mc_now : Time;
  mc_dirs : gmap string TransferDir;
  mc_data : gmap string Tree;
  mc_containers : gmap string bool;
  mc_active : gset string
}.

Definition no_dir : TransferDir := mkDir ∅ None None None None None.
#[global] Instance dir_inhabited : Inhabited TransferDir := populate no_dir.
#[global] Instance machine_inhabited : Inhabited Machine := populate (mkMachine 0 ∅ ∅ ∅ ∅).

Definition dir (id : string) (m : Machine) : TransferDir := mc_dirs m !!! id.
Definition set_dir (id : string) (d : TransferDir) (m : Machine) : Machine :=
  m <| mc_dirs := <[id := d]> (mc_dirs m) |>.
Definition set_data (server : string) (t : option Tree) (m : Machine) : Machine :=
  m <| mc_data := partial_alter (fun _ => t) server (mc_data m) |>.
Definition set_container (server : string) (c : option bool) (m : Machine) : Machine :=
  m <| mc_containers := partial_alter (fun _ => c) server (mc_containers m) |>.

Definition write_at (offset : nat) (data old : Bytes) : Bytes :=
  take offset old ++ data ++ drop (offset + length data) old.

Definition ok_if (b : bool) : error := if b then None else Some "no such file".

(** What a machine does by itself; the requests to another node are not here. *)
Definition perform (X : Type) (e : NodeEff X) (m : Machine) : X * Machine :=
  match e in NodeEff X return X * Machine with
  | Now => (mc_now m, m)
  | CtxErr => (None, m)
  | LoadMeta id direction => (Ok (td_meta (dir id m) !! direction), m)
  | SaveMeta meta =>
      let d := dir (x_MigrationID meta) m in
      (None, set_dir (x_MigrationID meta) (d <| td_meta := <[x_Direction meta := meta]> (td_meta d) |>) m)
  | IsActive id => (bool_decide (id ∈ mc_active m), m)
  | SetActive id b =>
      (tt, m <| mc_active := if b : bool then {[id]} ∪ mc_active m else mc_active m ∖ {[id]} |>)
  | MakeArchive id server =>
      match mc_data m !! server with
      | None => (Err "no such directory", m)
      | Some t =>
          match pack t with
          | Err e => (Err e, m)
          | Ok b => (Ok (digest b, Z.of_nat (length b)), set_dir id ((dir id m) <| td_archive := Some b |>) m)
          end
      end
  | OpenArchive id offset =>
      match td_archive (dir id m) with
      | Some b => (Ok (drop (Z.to_nat offset) b), m)
      | None => (Err "no such file", m)
      end
  | OpenIncoming id =>
      let b := default [] (td_incoming (dir id m)) in
      (Ok (Z.of_nat (length b)), set_dir id ((dir id m) <| td_incoming := Some b |>) m)
  | WriteIncoming id offset data =>
      (Z.of_nat (length data), None,
       set_dir id ((dir id m) <| td_incoming :=
         Some (write_at (Z.to_nat offset) data (default [] (td_incoming (dir id m)))) |>) m)
  | IncomingChecksum id =>
      (match td_incoming (dir id m) with Some b => Ok (digest b) | None => Err "no such file" end, m)
  | StagingExists id => (Ok (bool_decide (is_Some (td_staging (dir id m)))), m)
  | MakeStaging id => (None, set_dir id ((dir id m) <| td_staging := Some empty_tree |>) m)
  | Extract id =>
      match td_incoming (dir id m) with
      | None => (Some "no such file", m)
      | Some b =>
          match unpack b with
          | Err e => (Some e, m)
          | Ok t => (None, set_dir id ((dir id m) <| td_staging := Some t |>) m)
          end
      end
  | PreviousExists id => (Ok (bool_decide (is_Some (td_previous (dir id m)))), m)
  | ServerExists server => (Ok (bool_decide (is_Some (mc_data m !! server))), m)
  | SetAside server id =>
      match mc_data m !! server with
      | Some t => (None, set_data server None (set_dir id ((dir id m) <| td_previous := Some t |>) m))
      | None => (Some "no such file", m)
      end
  | Activate server id =>
      match td_staging (dir id m), mc_data m !! server with
      | Some t, None => (None, set_data server (Some t) (set_dir id ((dir id m) <| td_staging := None |>) m))
      | _, _ => (Some "rename", m)
      end
  | PutBack server id =>
      match td_previous (dir id m), mc_data m !! server with
      | Some t, None => (None, set_data server (Some t) (set_dir id ((dir id m) <| td_previous := None |>) m))
      | _, _ => (Some "rename", m)
      end
  | Discard server id =>
      match mc_data m !! server with
      | Some t => (Ok true, set_data server None (set_dir id ((dir id m) <| td_discarded := Some t |>) m))
      | None => (Ok false, m)
      end
  | UndoDiscard server id =>
      match td_discarded (dir id m), mc_data m !! server with
      | Some t, None => (None, set_data server (Some t) (set_dir id ((dir id m) <| td_discarded := None |>) m))
      | _, _ => (Some "rename", m)
      end
  | RemoveDiscarded id => (tt, set_dir id ((dir id m) <| td_discarded := None |>) m)
  | RemoveIncoming id => (tt, set_dir id ((dir id m) <| td_incoming := None |>) m)
  | RemoveLeftovers id =>
      (tt, set_dir id ((dir id m) <| td_incoming := None |> <| td_staging := None |> <| td_previous := None |>) m)
  | RemoveTransfer id => (tt, set_dir id no_dir m)
  | RemoveServerData server => (None, set_data server None m)
  | MakeServerDir server => (None, set_data server (Some (default empty_tree (mc_data m !! server))) m)
  | ApplyConfiguration server => (None, set_data server (configure <$> mc_data m !! server) m)
  | InspectContainer server =>
      (Ok (bool_decide (is_Some (mc_containers m !! server)), default false (mc_containers m !! server)), m)
  | StopContainer server => (None, set_container server ((fun _ => false) <$> mc_containers m !! server) m)
  | StartContainer server =>
      (ok_if (bool_decide (is_Some (mc_containers m !! server))),
       set_container server ((fun _ => true) <$> mc_containers m !! server) m)
  | CreateContainer server => (None, set_container server (Some (default false (mc_containers m !! server))) m)
  | DeleteContainer server => (None, set_container server None m)
  | RemoveBackups _ => (None, m)
  | HeadOffset _ _ _ => (NoReply "no route", m)
  | PatchArchive _ _ _ => (NoReply "no route", m)
  end.

(** What is left of a directory that is being removed. *)
Definition remains (d d' : TransferDir) : Prop :=
  td_meta d' ⊆ td_meta d /\ (td_archive d' = None \/ td_archive d' = td_archive d) /\
  (td_incoming d' = None \/ td_incoming d' = td_incoming d).

(** An error, before or after the effect. *)
Definition lost (m after : Machine) (x : error) (m' : Machine) : Prop :=
  (exists msg, x = Some msg) /\ (m' = m \/ m' = after).

Definition unread {A} (m : Machine) (x : result A) (m' : Machine) : Prop := (exists msg, x = Err msg) /\ m' = m.

Definition fault (X : Type) (e : NodeEff X) (m : Machine) : X -> Machine -> Prop :=
  match e in NodeEff X return X -> Machine -> Prop with
  | Now => fun _ m' => m' = m
  | CtxErr => fun _ m' => m' = m
  | LoadMeta _ _ => unread m
  | IsActive _ | SetActive _ _ => fun _ _ => False
  | MakeArchive id _ => fun x m' =>
      (exists msg, x = Err msg) /\ exists o, m' = set_dir id ((dir id m) <| td_archive := o |>) m
  | OpenArchive _ _ => unread m
  | OpenIncoming id => fun x m' =>
      (exists msg, x = Err msg) /\ (m' = m \/ m' = snd (perform _ (OpenIncoming id) m))
  | WriteIncoming id offset data => fun x m' =>
      exists n msg, x = (Z.of_nat (length (take n data)), Some msg) /\
        m' = snd (perform _ (WriteIncoming id offset (take n data)) m)
  | IncomingChecksum _ => unread m
  | StagingExists _ | PreviousExists _ => unread m
  | ServerExists _ => unread m
  | Extract id => fun x m' =>
      (exists msg, x = Some msg) /\ exists t, m' = set_dir id ((dir id m) <| td_staging := t |>) m
  | RemoveDiscarded id => fun _ m' => exists t, m' = set_dir id ((dir id m) <| td_discarded := t |>) m
  | RemoveIncoming id => fun _ m' => m' = m
  | RemoveLeftovers id | RemoveTransfer id => fun _ m' =>
      exists d, remains (dir id m) d /\ m' = set_dir id d m
  | RemoveServerData server => fun x m' => (exists msg, x = Some msg) /\ exists t, m' = set_data server t m
  | ApplyConfiguration server => fun x m' =>
      exists t, match mc_data m !! server, t with Some a, Some b => patch a b | None, _ => True | _, None => False end /\
                m' = set_data server t m
  | InspectContainer _ => unread m
  | HeadOffset _ _ _ | PatchArchive _ _ _ => fun x m' => (exists msg, x = NoReply msg) /\ m' = m
  | SaveMeta meta => lost m (snd (perform _ (SaveMeta meta) m))
  | MakeStaging id => lost m (snd (perform _ (MakeStaging id) m))
  | SetAside server id => lost m (snd (perform _ (SetAside server id) m))
  | Activate server id => lost m (snd (perform _ (Activate server id) m))
  | PutBack server id => lost m (snd (perform _ (PutBack server id) m))
  | Discard server id => fun x m' =>
      (exists msg, x = Err msg) /\ (m' = m \/ m' = snd (perform _ (Discard server id) m))
  | UndoDiscard server id => lost m (snd (perform _ (UndoDiscard server id) m))
  | MakeServerDir server => lost m (snd (perform _ (MakeServerDir server) m))
  | StopContainer server => lost m (snd (perform _ (StopContainer server) m))
  | StartContainer server => lost m (snd (perform _ (StartContainer server) m))
  | CreateContainer server => lost m (snd (perform _ (CreateContainer server) m))
  | DeleteContainer server => lost m (snd (perform _ (DeleteContainer server) m))
  | RemoveBackups server => lost m m
  end.

Definition may (X : Type) (e : NodeEff X) (m : Machine) (x : X) (m' : Machine) : Prop :=
  (x, m') = perform X e m \/ fault X e m x m'.

(** ** The system *)

(** [nt_latest] is what the workload of the server wrote last. *)
Record Net := mkNet {
  nt_tables : Tables;
  nt_now : Time;
  nt_machines : gmap string Machine;
  nt_latest : Tree
}.

Definition machine (url : string) (w : Net) : Machine := nt_machines w !!! url.
Definition set_machine (url : string) (m : Machine) (w : Net) : Net :=
  w <| nt_machines := <[url := m]> (nt_machines w) |>.

(** What a node is asked, and what runs there. *)
Context (valid_destination : string -> bool).

Definition handle {A} (c : TransferCall A) : N (reply A) :=
  match c with
  | RegisterTransferCredential _ reg => registerTransferCredential reg
  | PrepareTransferSource id credential => prepareTransferSource id credential
  | PushTransferSource id credential push =>
      pushTransferSource valid_destination id credential
        (mkPushRequest (tp_DestinationURL push) (tp_DestinationCredential push) (tp_IdempotencyKey push))
  | RestoreTransferDestination id credential => restoreTransferDestination id credential
  | FinalizeTransferDestination id credential => finalizeTransferDestination id credential
  | CleanupTransferSource id credential => cleanupTransferSource id credential
  | CancelTransfer id credential => cancelProtocolTransfer id credential
  end.

Definition rmap {A B} (f : A -> B) (m : N (reply A)) : N (reply B) :=
  pbind m (fun r => Ret match r with Done a => Done (f a) | Refused e => Refused e end).

Definition accepted (server signal : string) : PowerResponse := mkPowerResponse server signal true "docker".

(** The calls of a workload that a migration makes. *)
Definition workload {A} (server : string) (c : NodeCall A) : N (reply A) :=
  match c in NodeCall A return N (reply A) with
  | SyncConfiguration => syncWorkload server
  | CreateWorkload _ => rmap (fun _ => true) (createWorkload server)
  | DeleteWorkload => rmap (fun _ => accepted server "delete") (deleteWorkload server)
  | StartWorkload => rmap (fun _ => accepted server "start") (startWorkload server)
  | InspectWorkload =>
      rmap (fun b => mkInspection server b "docker" false "" 0 true) (inspectWorkload server)
  | _ => refuse_with "not a call of a migration"
  end.

(** The migration [id] of the server [server]. *)
Context (node_url : string -> string) (id server : string).

Definition run_of (w : Net) : option MigrationRun := tb_runs (nt_tables w) !! id.
Definition phase_of (w : Net) : string := from_option mr_Phase "" (run_of w).
Definition owner_of (w : Net) : option string := sv_NodeID <$> db_servers (tb_db (nt_tables w)) !! server.
Definition over (w : Net) : Prop := terminal_phase (phase_of w) = true.

(** What has nothing to do with the migration and its server. *)
Definition elsewhere (w w' : Net) : Prop :=
  tb_migrations (nt_tables w') !! id = tb_migrations (nt_tables w) !! id /\
  run_of w' = run_of w /\ owner_of w' = owner_of w /\ nt_latest w' = nt_latest w /\
  forall url, dir id (machine url w') = dir id (machine url w) /\
              mc_data (machine url w') !! server = mc_data (machine url w) !! server /\
              mc_containers (machine url w') !! server = mc_containers (machine url w) !! server.

Inductive env : Net -> Net -> Prop :=
| env_write url t w :
    mc_containers (machine url w) !! server = Some true ->
    env w ((set_machine url (set_data server (Some t) (machine url w)) w) <| nt_latest := t |>)
| env_stop url w :
    mc_containers (machine url w) !! server = Some true ->
    env w (set_machine url (set_container server (Some false) (machine url w)) w)
| env_start w owner b :
    over w -> owner_of w = Some owner ->
    mc_containers (machine (node_url owner) w) !! server = Some b ->
    env w (set_machine (node_url owner) (set_container server (Some true) (machine (node_url owner) w)) w)
| env_elsewhere w w' : elsewhere w w' -> env w w'.

(** A request on the machine at [url], after the rest moved. *)
Definition local_step (url : string) (X : Type) (e : NodeEff X) (w : Net) (x : X) (w' : Net) : Prop :=
  exists w0 m', rtc env w w0 /\ may X e (machine url w0) x m' /\ w' = set_machine url m' w0.

(** What comes through of a body. *)
Definition arrives (body : Bytes) (b : Body) : Prop :=
  exists n, bd_bytes b = take n body /\ (bd_err b = None -> (length body <= n)%nat).

(** The handler of the other side may stop, and its answer may be lost. *)
Definition answers_http {A} (o : option (reply A)) (x : http A) : Prop :=
  (exists r, o = Some r /\ x = as_http r) \/ exists msg, x = NoReply msg.

Definition node_step (url : string) (X : Type) (e : NodeEff X) : Net -> X -> Net -> Prop :=
  match e in NodeEff X return Net -> X -> Net -> Prop with
  | HeadOffset to credential id => fun w x w' =>
      exists w0 o, rtc env w w0 /\ runs (local_step to) (destinationTransferOffset id credential) w0 o w' /\ answers_http o x
  | PatchArchive to u body => fun w x w' =>
      exists w0 o b, rtc env w w0 /\ arrives body b /\
        runs (local_step to) (receiveTransferChunk u b) w0 o w' /\ answers_http o x
  | e => local_step url _ e
  end.

(** A call of a node: an answer that does not come is an error. *)
Definition calls {A} (url : string) (p : N (reply A)) (w : Net) (x : result A) (w' : Net) : Prop :=
  exists o, runs (node_step url) p w o w' /\
    ((exists a, o = Some (Done a) /\ x = Ok a) \/ exists msg, x = Err msg).

Definition with_tables (w : Net) (t : Tables) : Net := w <| nt_tables := t |>.

(** A statement: its answer may be lost, and it may fail. *)
Definition states {A} (f : Time -> Tables -> answer A * Tables) (w : Net) (x : answer A) (w' : Net) : Prop :=
  let r := f (nt_now w) (nt_tables w) in
  (x = fst r /\ w' = with_tables w (snd r)) \/
  (exists e, x = Failed e) /\ (w' = w \/ w' = with_tables w (snd r)).

(** A statement whose failure means that it did nothing. *)
Definition states_truly {A} (f : Time -> Tables -> answer A * Tables) (w : Net) (x : answer A) (w' : Net) : Prop :=
  let r := f (nt_now w) (nt_tables w) in
  (x = fst r /\ w' = with_tables w (snd r)) \/ (exists e, x = Failed e) /\ w' = w.

(** A statement that is carried out. *)
Definition states_surely {A} (f : Time -> Tables -> answer A * Tables) (w : Net) (x : answer A) (w' : Net) : Prop :=
  let r := f (nt_now w) (nt_tables w) in x = fst r /\ w' = with_tables w (snd r).

(** The two sides of a migration: the node of the server as it is now, and the
    target. *)
Definition sides_of (m : string) (w : Net) (p : ServerProvisionTarget * ServerProvisionTarget) : Prop :=
  exists row s, tb_migrations (nt_tables w) !! m = Some row /\
    db_servers (tb_db (nt_tables w)) !! mg_ServerID row = Some s /\
    pt_ServerID p.1 = mg_ServerID row /\ pt_ServerID p.2 = mg_ServerID row /\
    pt_NodeURL p.1 = node_url (sv_NodeID s) /\ pt_NodeURL p.2 = node_url (mg_TargetNodeID row).

(** The requests of the other services a worker makes; for the rest only
    their answers matter. *)
Definition base_step (X : Type) (e : Eff X) (w : Net) : X -> Net -> Prop :=
  match e in Eff X return X -> Net -> Prop with
  | Clock => fun x w' => x = nt_now w /\ w' = w
  | CloseForMigration m status => states (fun now t =>
      let r := UpdatePlacementReservationsForMigration m status now (tb_db t) in
      (fst r, t <| tb_db := snd r |>)) w
  | @OnNode A t c => calls (t_NodeURL t) (workload (t_ServerID t) c) w
  | _ => fun _ w' => w' = w
  end.

(** A request of the control plane whose outcome is known: the statements that
    close a run or commit a move take effect as they report. *)
Definition sure_step (X : Type) (e : MEff X) (w : Net) : X -> Net -> Prop :=
  match e in MEff X return X -> Net -> Prop with
  | Base e => base_step _ e w
  | Query q => fun x w' => (x = q (nt_now w) (nt_tables w) \/ exists e, x = Failed e) /\ w' = w
  | InsertMigration req => fun x w' => exists new, states (fun now t => Migrations.CreateMigration req new now t) w x w'
  | SetStatus m status reason => states (fun _ => UpdateMigrationStatus m status reason) w
  | EnsureRun m version => fun x w' => exists key locked, states (EnsureMigrationRun m version key locked) w x w'
  | ClaimRun m worker lease => states (ClaimMigrationRun m worker lease) w
  | AdvanceRun m phase lastError size checksum => states (UpdateMigrationRun m phase lastError size checksum) w
  | SetHashes m => states (SetMigrationCredentialHashes m) w
  | CommitMove m => states_truly (FinalizeMigration m) w
  | CleanupDone m => states (MarkMigrationCleanupComplete m) w
  | CancelRun m => states_surely (CancelMigrationRun m) w
  | FailRun m reason => states_surely (FailMigrationRun m reason) w
  | TransferTargets m => fun x w' => ((exists p, x = Got p /\ sides_of m w p) \/ exists e, x = Failed e) /\ w' = w
  | NewCredential => fun _ w' => w' = w
  | OnTransfer url c => calls url (handle c) w
  | TryReconcile => fun _ w' => w' = w
  | EndReconcile => fun _ w' => w' = w
  | StartRun _ => fun _ w' => w' = w
  | CancelRunning _ => fun _ w' => w' = w
  | EndRun _ => fun _ w' => w' = w
  | StartCleanup _ => fun _ w' => w' = w
  | WaitCleanups => fun _ w' => w' = w
  end.

(** A statement that fails, with or without its effect. *)
Definition fails {A} (f : Time -> Tables -> answer A * Tables) (w : Net) (x : answer A) (w' : Net) : Prop :=
  (exists e, x = Failed e) /\ (w' = w \/ w' = with_tables w (snd (f (nt_now w) (nt_tables w)))).

(** The statements whose outcome a worker does not learn, or that do not close
    the run: [fail] and [CancelMigration] of the service ignore their errors. *)
Definition lost_step (X : Type) (e : MEff X) (w : Net) : X -> Net -> Prop :=
  match e in MEff X return X -> Net -> Prop with
  | CommitMove m => fails (FinalizeMigration m) w
  | CancelRun m => fails (CancelMigrationRun m) w
  | FailRun m reason => fails (FailMigrationRun m reason) w
  | _ => fun _ _ => False
  end.

Definition system_step (X : Type) (e : MEff X) (w : Net) (x : X) (w' : Net) : Prop :=
  sure_step X e w x w' \/ lost_step X e w x w'.

(** A request of the control plane, after the rest moved. *)
Definition control_step (X : Type) (e : MEff X) (w : Net) (x : X) (w' : Net) : Prop :=
  exists w0, rtc env w w0 /\ sure_step X e w0 x w'.

(** With a mark that tells whether the outcome of a closing statement was
    lost so far. *)
Definition marked_step (X : Type) (e : MEff X) (w : Net * bool) (x : X) (w' : Net * bool) : Prop :=
  exists w0, rtc env w.1 w0 /\
    (sure_step X e w0 x w'.1 /\ w'.2 = w.2 \/ lost_step X e w0 x w'.1 /\ w'.2 = true).

(** The marks leave nothing out. *)
Lemma marked_covers X (e : MEff X) w b x w' :
  (exists w0, rtc env w w0 /\ system_step X e w0 x w') <-> exists b', marked_step X e (w, b) x (w', b').
Proof.
  split.
  - intros (w0 & H0 & [H|H]); [exists b|exists true]; exists w0; (split; [exact H0|]); [left|right]; by split.
  - intros (b' & w0 & H0 & [[H _]|[H _]]); exists w0; (split; [exact H0|]); [by left|by right].
Qed.

Lemma marked_stays {A} (p : prog MEff A) w o w' : runs marked_step p w o w' -> w.2 = true -> w'.2 = true.
Proof.
  revert w. induction p as [a|X e k IH]; intros w H Hb; cbn [runs] in H.
  - by destruct H as [[_ ->]|[_ ->]].
  - destruct H as [[_ ->]|(x & w1 & (w0 & _ & [[_ E]|[_ E]]) & H)]; [done| |]; apply (IH _ _ H); congruence.
Qed.

(** A run that loses no outcome. *)
Lemma marked_sure {A} (p : prog MEff A) w o w' : runs marked_step p w o w' -> w'.2 = false ->
  w.2 = false /\ runs control_step p w.1 o w'.1.
Proof.
  revert w. induction p as [a|X e k IH]; intros w H Hb; cbn [runs] in H |- *.
  - destruct H as [[-> ->]|[-> ->]]; (split; [exact Hb|]); [by left|by right].
  - destruct H as [[-> ->]|(x & w1 & (w0 & H0 & Hs) & H)]; [split; [exact Hb|by left]|].
    destruct (IH _ _ H Hb) as [E1 H1]. destruct Hs as [[Hs E]|[_ E]]; [|congruence].
    split; [congruence|]. right. exists x, w1.1. split; [by exists w0|exact H1].
Qed.

Lemma sure_marked {A} (p : prog MEff A) w o w' :
  runs control_step p w o w' -> runs marked_step p (w, false) o (w', false).
Proof.
  revert w. induction p as [a|X e k IH]; intros w H; cbn [runs] in H |- *.
  - destruct H as [[-> ->]|[-> ->]]; [by left|by right].
  - destruct H as [[-> ->]|(x & w1 & (w0 & H0 & Hs) & H)]; [by left|]. right. exists x, (w1, false).
    split; [exists w0; split; [exact H0|by left]|by apply IH].
Qed.

(** ** When nothing goes wrong

    Nothing else moves, every call is answered, nothing is lost. *)
Definition serve_local (url : string) (X : Type) (e : NodeEff X) (w : Net) : X * Net :=
  let r := perform X e (machine url w) in (fst r, set_machine url (snd r) w).

Definition serve_node (url : string) (X : Type) (e : NodeEff X) : Net -> X * Net :=
  match e in NodeEff X return Net -> X * Net with
  | HeadOffset to credential id => fun w =>
      let p := destinationTransferOffset id credential in
      (as_http (answer_alone (serve_local to) p w), world_alone (serve_local to) p w)
  | PatchArchive to u body => fun w =>
      let p := receiveTransferChunk u (mkBody body None) in
      (as_http (answer_alone (serve_local to) p w), world_alone (serve_local to) p w)
  | e => serve_local url _ e
  end.

Definition serve_call {A} (url : string) (p : N (reply A)) (w : Net) : result A * Net :=
  (match answer_alone (serve_node url) p w with Done a => Ok a | Refused e => Err (transfer_error_text e) end,
   world_alone (serve_node url) p w).

(** What is known of a server on a node. *)
Context (target_on : string -> string -> ServerProvisionTarget)
        (target_on_url : forall node s, pt_NodeURL (target_on node s) = node_url node)
        (target_on_id : forall node s, pt_ServerID (target_on node s) = s)
        (credential : string).

Definition serve_sides (m : string) (t : Tables) : answer (ServerProvisionTarget * ServerProvisionTarget) :=
  match tb_migrations t !! m with
  | Some row =>
      match db_servers (tb_db t) !! mg_ServerID row with
      | Some s => Got (target_on (sv_NodeID s) (mg_ServerID row), target_on (mg_TargetNodeID row) (mg_ServerID row))
      | None => Failed ErrNoRows
      end
  | None => Failed ErrNoRows
  end.

Definition serve_states {A} (f : Time -> Tables -> answer A * Tables) (w : Net) : answer A * Net :=
  let r := f (nt_now w) (nt_tables w) in (fst r, with_tables w (snd r)).

(** Requests no worker makes are answered with an error. *)
Definition serve_base (X : Type) (e : Eff X) (w : Net) : X * Net :=
  match e in Eff X return X * Net with
  | Clock => (nt_now w, w)
  | CloseForMigration m status => serve_states (fun now t =>
      let r := UpdatePlacementReservationsForMigration m status now (tb_db t) in (fst r, t <| tb_db := snd r |>)) w
  | @OnNode A t c => serve_call (t_NodeURL t) (workload (t_ServerID t) c) w
  | ContextErr => (None, w)
  | Compute m => (fst (m (Strategy.mkWorld None 0 [])), w)
  | Predict _ => (Ok None, w)
  | Count _ => (tt, w)
  | Publish _ => (tt, w)
  | Read q => (q (nt_now w) (tb_db (nt_tables w)), w)
  | Reserve _ | CloseReservation _ _ | ExpireAll | InsertServer _ | SetServer _ _ | ChangeServer _ _ | RemoveServer _ _
  | ResetServers _ | ControlTarget _ | ProvisionTarget _ | MountsOf _ => (Failed (ErrText "not here"), w)
  end.

Definition serve_system (X : Type) (e : MEff X) (w : Net) : X * Net :=
  match e in MEff X return X * Net with
  | Base e => serve_base _ e w
  | Query q => (q (nt_now w) (nt_tables w), w)
  | InsertMigration req => serve_states (Migrations.CreateMigration req "new") w
  | SetStatus m status reason => serve_states (fun _ => UpdateMigrationStatus m status reason) w
  | EnsureRun m version => serve_states (EnsureMigrationRun m version "key" ∅) w
  | ClaimRun m worker lease => serve_states (ClaimMigrationRun m worker lease) w
  | AdvanceRun m phase lastError size checksum => serve_states (UpdateMigrationRun m phase lastError size checksum) w
  | SetHashes m => serve_states (SetMigrationCredentialHashes m) w
  | CommitMove m => serve_states (FinalizeMigration m) w
  | CleanupDone m => serve_states (MarkMigrationCleanupComplete m) w
  | CancelRun m => serve_states (CancelMigrationRun m) w
  | FailRun m reason => serve_states (FailMigrationRun m reason) w
  | TransferTargets m => (serve_sides m (nt_tables w), w)
  | NewCredential => (Ok credential, w)
  | OnTransfer url c => serve_call url (handle c) w
  | TryReconcile => (true, w)
  | StartRun _ => (true, w)
  | EndReconcile | CancelRunning _ | EndRun _ | StartCleanup _ | WaitCleanups => (tt, w)
  end.

Lemma serve_local_step url X e w : local_step url X e w (fst (serve_local url X e w)) (snd (serve_local url X e w)).
Proof.
  exists w, (snd (perform X e (machine url w))). split_and!; [done| |done]. left. cbn. by destruct (perform X e _).
Qed.

Lemma serve_node_step url X e w : node_step url X e w (fst (serve_node url X e w)) (snd (serve_node url X e w)).
Proof.
  destruct e; try apply serve_local_step; cbn [serve_node node_step fst snd].
  - exists w. eexists. split_and!; [done|apply (runs_alone _ (serve_local url0)); intros; apply serve_local_step|].
    left. by eexists.
  - exists w. eexists. exists (mkBody body None).
    split_and!; [done| |apply (runs_alone _ (serve_local url0)); intros; apply serve_local_step|left; by eexists].
    exists (length body). split; [by rewrite firstn_all|done].
Qed.

Lemma serve_call_step {A} url (p : N (reply A)) w : calls url p w (fst (serve_call url p w)) (snd (serve_call url p w)).
Proof.
  eexists. split; [apply (runs_alone _ (serve_node url)); intros; apply serve_node_step|].
  cbn [serve_call fst]. destruct (answer_alone _ p w) as [a|e]; [left|right]; by eexists.
Qed.

Lemma serve_states_step {A} (f : Time -> Tables -> answer A * Tables) w :
  states f w (fst (serve_states f w)) (snd (serve_states f w)).
Proof. by left. Qed.

Lemma serve_sides_step m w : match serve_sides m (nt_tables w) with Got p => sides_of m w p | Failed _ => True end.
Proof using target_on_url target_on_id.
  unfold serve_sides, sides_of. destruct (tb_migrations (nt_tables w) !! m) as [row|] eqn:Em; [|done].
  destruct (db_servers _ !! _) as [s|] eqn:Es; [|done]. exists row, s. cbn [fst snd].
  by rewrite !target_on_url, !target_on_id.
Qed.

Lemma serve_base_step X e w : base_step X e w (fst (serve_base X e w)) (snd (serve_base X e w)).
Proof. destruct e; cbn [serve_base base_step]; try done; [apply serve_states_step|apply serve_call_step]. Qed.

Lemma serve_system_step X e w : control_step X e w (fst (serve_system X e w)) (snd (serve_system X e w)).
Proof using target_on_url target_on_id.
  exists w. split; [done|]. destruct e; cbn [serve_system sure_step]; try done; try apply serve_states_step.
  - apply serve_base_step.
  - split; [by left|done].
  - exists "new". apply serve_states_step.
  - exists "key", ∅. apply serve_states_step.
  - by left.
  - split; [|done]. cbn [fst]. pose proof (serve_sides_step id0 w) as H. destruct (serve_sides _ _) as [p|e]; [left; by eexists|right; by eexists].
  - apply serve_call_step.
Qed.
End Machine.
