(* ===== verification/ToyArchives.v ===== *)
(** * Archives on a small example

    An instance of [Archives] and [Configures] that computes, with the nodes
    and credentials the examples of the other files use. *)
From Stdlib Require Import ZArith Ascii Init.Byte.
From stdpp Require Import base gmap strings list fin_maps.
From S2P Require Import Prelude GoStrings ControlPlane Transfer Network.
#[local] Open Scope string_scope.
#[local] Open Scope list_scope.
#[local] Open Scope Z_scope.

(** ** Archives of bytes

    The files of a server are a list of bytes, an archive is the list behind a
    header byte, the digest of a list its hexadecimal digits.  A configuration
    adds a byte. *)
Definition hex_digit (n : BinNums.N) : ascii := ascii_of_N (if (n <? 10)%N then 48 + n else 87 + n).

Fixpoint toy_digest (b : list byte) : string :=
  match b with
  | [] => EmptyString
  | x :: b => String (hex_digit (Byte.to_N x / 16)) (String (hex_digit (Byte.to_N x mod 16)) (toy_digest b))
  end.

#[local] Instance toy_archives : Archives := {
  Tree := list byte;
  empty_tree := [];
  pack t := Ok (x01 :: t);
  unpack b := match b with x01 :: t => Ok t | _ => Err "not an archive" end;
  digest := toy_digest
}.

Lemma byte_digits x y : hex_digit (Byte.to_N x / 16) = hex_digit (Byte.to_N y / 16) ->
  hex_digit (Byte.to_N x mod 16) = hex_digit (Byte.to_N y mod 16) -> x = y.
Proof.
  set (back c := let n := N_of_ascii c in if (n <? 58)%N then (n - 48)%N else (n - 87)%N).
  assert (H : forall z, Byte.of_N (back (hex_digit (Byte.to_N z / 16)) * 16 + back (hex_digit (Byte.to_N z mod 16)))%N = Some z)
    by (by intros []). intros E1 E2. specialize (H x) as Hx. rewrite E1, E2, (H y) in Hx. by injection Hx.
Qed.

Lemma lower_digits x : lower_ascii (hex_digit (Byte.to_N x / 16)) = hex_digit (Byte.to_N x / 16) /\
  lower_ascii (hex_digit (Byte.to_N x mod 16)) = hex_digit (Byte.to_N x mod 16).
Proof. by destruct x. Qed.

#[local] Instance toy_archives_ok : ArchivesOk toy_archives.
Proof.
  refine {| carried := fun t : @Tree toy_archives => t |}.
  - by intros t b [= <-].
  - intros b. cbn. induction b as [|x b IH]; [done|]. cbn. destruct (lower_digits x) as [-> ->]. by rewrite IH.
  - intros b. cbn. induction b as [|x b IH]; intros [|y b']; cbn; [done..|]. intros [= H1 H2 H3].
    f_equal; [by apply byte_digits|by apply IH].
Defined.

#[local] Instance toy_configures : Configures toy_archives.
Proof. refine {| configure := fun t : @Tree toy_archives => t ++ [x2e]; patch := fun t t' => t' = t ++ [x2e] |}. done. Defined.

Definition toy_url (node : string) : string := cat ["https://"; node].
Definition toy_credential : string := "0123456789abcdef0123456789abcdef".
Definition toy_target (node server : string) : ServerProvisionTarget :=
  mkServerProvisionTarget server "egg" "" (toy_url node) "token" "" "image:1" "run" "" "" "" "" "" ∅ [] 0 0 0 0 0 0 ""
    false 0 0 "" 0 [] false false "" false ∅ None.
