(* ===== verification/MigrationRun.v ===== *)
(** * A migration keeps the data of its server

    [Migration], [Transfer] and [Migrations] composed by [Network].  Workers
    that stop anywhere before their rollback, one after the other, machines that
    fail and answers that are lost do not cost the server its data: the node
    that the tables name as its owner always holds what its workload wrote last,
    and a migration whose worker is not stopped ends with the commit or undone.
    Both as long as the outcome of every statement that commits the move or
    closes the run is known: the code ignores the errors of the latter, and a
    mark beside the network tells when one was lost, or a rollback cut short. *)
From Stdlib Require Import ZArith Lia Ascii Init.Byte Floats.SpecFloat.
From stdpp Require Import base gmap strings list fin_maps relations.
From coqutil Require Import Datatypes.RecordSettersUsingExistingGetters.
From S2P Require Import Prelude GoStrings GoSort Strategy Programs Capacity Servers ControlPlane Reservations Scheduler Migrations Transfer TransferRequests Migration Network ToyArchives.
Import RecordSetNotations1.
#[local] Open Scope string_scope.
#[local] Open Scope list_scope.
#[local] Open Scope Z_scope.
#[local] Open Scope go_scope.

Section Run.
Context {AR : Archives} {OK : ArchivesOk AR} {CF : Configures AR}.
Context (valid_destination : string -> bool) (node_url : string -> string).

(** The migration [id] takes [server] from the node [source] to [target]. *)
Context (id server source target : string).
Context (urls_differ : node_url source <> node_url target).

Notation S_url := (node_url source).
Notation T_url := (node_url target).
Notation env := (env node_url id server).
Notation run_of := (run_of id).
Notation phase_of := (phase_of id).
Notation owner_of := (owner_of server).
Notation over := (over id).

Definition dir_at (url : string) (w : Net) : TransferDir := dir id (machine url w).
Definition data_at (url : string) (w : Net) : option Tree := mc_data (machine url w) !! server.
Definition stopped (url : string) (w : Net) : Prop := mc_containers (machine url w) !! server <> Some true.
Definition source_meta (w : Net) : option Metadata := td_meta (dir_at S_url w) !! DirectionSourceControl.

(** ** What holds on the way *)

(** The archive [a] of what the workload wrote last is on the source, and the
    workload is stopped. *)
Record archived (w : Net) (a : Bytes) : Prop := {
  ar_meta : exists ms, source_meta w = Some ms /\ x_Phase ms = "archived" /\ x_Checksum ms = digest a;
  ar_file : td_archive (dir_at S_url w) = Some a;
  ar_pack : pack (nt_latest w) = Ok a;
  ar_stopped : stopped S_url w
}.

(** [t] is what was carried over, and configured. *)
Definition arrived (w : Net) (t : option Tree) : Prop :=
  (exists a, archived w a) /\ exists t0, t = Some t0 /\ rtc patch (carried (nt_latest w)) t0.

(** A metadata file says which transfer it is of. *)
Definition bound (d : TransferDir) : Prop :=
  forall direction m, td_meta d !! direction = Some m ->
    x_MigrationID m = id /\ x_Direction m = direction /\ x_ServerID m = server.

(** The row of the migration. *)
Definition recorded (w : Net) : Prop :=
  exists m, tb_migrations (nt_tables w) !! id = Some m /\
    mg_ServerID m = server /\ mg_SourceNodeID m = source /\ mg_TargetNodeID m = target.

(** Until the commit the source owns the server and has its data. *)
Record before (w : Net) : Prop := {
  bf_row : recorded w;
  bf_run : exists r, run_of w = Some r /\ mr_Phase r <> "completed";
  bf_owner : owner_of w = Some source;
  bf_data : data_at S_url w = Some (nt_latest w);
  bf_bound : bound (dir_at S_url w);
  bf_source : td_meta (dir_at S_url w) !! DirectionDestinationUpload = None;
  bf_stopped url : url <> S_url -> stopped url w
}.

(** What the metadata of the destination and the phase of the run promise. *)
Record fits (w : Net) (d : TransferDir) (t : option Tree) : Prop := {
  ft_bound : bound d;
  ft_checksum md : td_meta d !! DirectionDestinationUpload = Some md -> x_Checksum md <> "" ->
    exists a, archived w a /\ x_Checksum md = digest a;
  ft_verified md : td_meta d !! DirectionDestinationUpload = Some md -> x_Phase md = "verified" ->
    exists a, archived w a /\ td_incoming d = Some a;
  ft_restored md : td_meta d !! DirectionDestinationUpload = Some md -> x_Phase md = "restored" -> arrived w t;
  ft_phase : 4 <= phase_order (phase_of w) -> arrived w t
}.

Record live (w : Net) : Prop := {
  lv_before : before w;
  lv_open : terminal_phase (phase_of w) = false;
  lv_source ms : source_meta w = Some ms -> x_Phase ms = "archived" -> exists a, archived w a;
  lv_phases ms : source_meta w = Some ms -> x_Phase ms <> "uploading" /\ x_Phase ms <> "uploaded";
  lv_fits : fits w (dir_at T_url w) (data_at T_url w)
}.

(** After it the target does. *)
Record committed (w : Net) : Prop := {
  cm_row : exists m, tb_migrations (nt_tables w) !! id = Some m /\ mg_Status m = "completed";
  cm_run : exists r, run_of w = Some r /\ mr_Phase r = "completed";
  cm_owner : owner_of w = Some target;
  cm_stopped url : url <> T_url -> stopped url w;
  cm_data : exists t, data_at T_url w = Some t /\
            (t = nt_latest w \/ rtc patch (carried (nt_latest w)) t)
}.

(** ** The rest of the system *)

(** What does not happen by itself while the migration is under way. *)
Record still (w w' : Net) : Prop := {
  st_row : tb_migrations (nt_tables w') !! id = tb_migrations (nt_tables w) !! id;
  st_run : run_of w' = run_of w;
  st_owner : owner_of w' = owner_of w;
  st_dir : dir_at S_url w' = dir_at S_url w;
  st_stopped : stopped S_url w -> stopped S_url w' /\ nt_latest w' = nt_latest w /\ data_at S_url w' = data_at S_url w
}.

#[local] Instance still_pre : PreOrder still.
Proof using Type.
  split; [intros w; by split|]. intros w1 w2 w3 [] []. split; [congruence..|]. intros Hs.
  destruct (st_stopped0 Hs) as (H1 & H2 & H3). destruct (st_stopped1 H1) as (H4 & H5 & H6).
  split_and!; [done|congruence|congruence].
Qed.

Lemma archived_still w w' a : still w w' -> archived w a -> archived w' a.
Proof using Type.
  intros [Hr Hn Ho Hd Hs] [Hm Hf Hp Hst]. destruct (Hs Hst) as (H1 & H2 & H3). unfold source_meta in *.
  split; [|by rewrite Hd|by rewrite H2|done]. by unfold source_meta; rewrite Hd.
Qed.

Lemma arrived_still w w' t : still w w' -> arrived w t -> arrived w' t.
Proof using Type.
  intros Hs [[a Ha] Ht]. split; [exists a; by eapply archived_still|].
  destruct (st_stopped _ _ Hs (ar_stopped _ _ Ha)) as (_ & -> & _). exact Ht.
Qed.

Lemma phase_still w w' : still w w' -> phase_of w' = phase_of w.
Proof using Type. intros H. unfold Network.phase_of. by rewrite (st_run _ _ H). Qed.

Lemma fits_still w w' d t : still w w' -> fits w d t -> fits w' d t.
Proof using Type.
  intros Hs [H1 H2 H3 H4 H5]. split; [done| | | |].
  - intros md Hm Hc. destruct (H2 md Hm Hc) as (a & Ha & He). exists a. split; [by eapply archived_still|done].
  - intros md Hm Hc. destruct (H3 md Hm Hc) as (a & Ha & He). exists a. split; [by eapply archived_still|done].
  - intros md Hm Hc. eapply arrived_still; eauto.
  - rewrite (phase_still _ _ Hs). intros Ho. eapply arrived_still; eauto.
Qed.

(** A change of the machine at one address. *)
Lemma machine_set url m w : machine url (set_machine url m w) = m.
Proof using Type. unfold machine, set_machine. cbn. apply lookup_total_insert_eq. Qed.

Lemma machine_set_ne url url' m w : url <> url' -> machine url' (set_machine url m w) = machine url' w.
Proof using Type. intros H. unfold machine, set_machine. cbn. by apply lookup_total_insert_ne. Qed.

Lemma dir_set_dir d m : dir id (set_dir id d m) = d.
Proof using Type. unfold dir, set_dir. cbn. apply lookup_total_insert_eq. Qed.

Lemma data_set_dir d m : mc_data (set_dir id d m) = mc_data m.
Proof using Type. done. Qed.

Lemma containers_set_dir d m : mc_containers (set_dir id d m) = mc_containers m.
Proof using Type. done. Qed.

Lemma data_set_data t m : mc_data (set_data server t m) !! server = t.
Proof using Type. apply lookup_partial_alter_eq. Qed.

Lemma container_set_container c m : mc_containers (set_container server c m) !! server = c.
Proof using Type. apply lookup_partial_alter_eq. Qed.

Lemma elsewhere_same w w' : elsewhere id server w w' ->
  recorded w' = recorded w /\ run_of w' = run_of w /\ owner_of w' = owner_of w /\ nt_latest w' = nt_latest w /\
  (forall url, dir_at url w' = dir_at url w) /\ (forall url, data_at url w' = data_at url w) /\
  (forall url, stopped url w' = stopped url w).
Proof using Type.
  intros (Hr & H1 & H2 & H3 & H4). unfold recorded, dir_at, data_at, stopped. rewrite Hr.
  split_and!; try done; intros url; destruct (H4 url) as (? & ? & Hc); by rewrite ?Hc.
Qed.

(** A step of the workload leaves the rows, the transfers and the other
    machines alone. *)
Lemma workload_step w w' : env w w' -> elsewhere id server w w' \/
  exists url, nt_tables w' = nt_tables w /\ (forall u, dir_at u w' = dir_at u w) /\
    (forall u, u <> url -> machine u w' = machine u w) /\
    ((~ stopped url w /\ data_at url w' = Some (nt_latest w')) \/
     (~ stopped url w /\ stopped url w' /\ nt_latest w' = nt_latest w /\ data_at url w' = data_at url w) \/
     (over w /\ (exists owner, owner_of w = Some owner /\ url = node_url owner) /\
      nt_latest w' = nt_latest w /\ data_at url w' = data_at url w)).
Proof using Type.
  assert (Hd : forall url m u w, dir_at u (set_machine url m w) = if decide (url = u) then dir id m else dir_at u w).
  { intros url m u w0. unfold dir_at. case_decide as E; [subst; by rewrite machine_set|by rewrite machine_set_ne]. }
  intros [url t w0 Hc|url w0 Hc|w0 owner b Ho Hw Hc|w0 w1 H]; [| | |by left]; right.
  - exists url. split_and!; [done| | |left; split; [by intros []|]].
    + intros u. change (dir_at u (set_machine url (set_data server (Some t) (machine url w0)) w0) = dir_at u w0).
      rewrite Hd. case_decide; by subst.
    + intros u Hu. by apply machine_set_ne.
    + change (data_at url (set_machine url (set_data server (Some t) (machine url w0)) w0) = Some t).
      unfold data_at. rewrite machine_set. apply data_set_data.
  - exists url. split_and!; [done| | |right; left; split_and!; [by intros []| |done|]].
    + intros u. rewrite Hd. case_decide; by subst.
    + intros u Hu. by apply machine_set_ne.
    + unfold stopped. rewrite machine_set. by rewrite container_set_container.
    + unfold data_at. by rewrite machine_set.
  - exists (node_url owner). split_and!; [done| | |right; right; split_and!; [done|by exists owner|done|]].
    + intros u. rewrite Hd. case_decide; by subst.
    + intros u Hu. by apply machine_set_ne.
    + unfold data_at. by rewrite machine_set.
Qed.

Lemma same_at u w w' : machine u w' = machine u w -> (stopped u w <-> stopped u w') /\ data_at u w' = data_at u w.
Proof using Type. intros H. unfold stopped, data_at. by rewrite H. Qed.

Lemma before_env w w' : before w -> env w w' ->
  before w' /\ (~ over w -> still w w' /\ dir_at T_url w' = dir_at T_url w /\ data_at T_url w' = data_at T_url w).
Proof using urls_differ.
  intros [H1 H2 H3 H4 H5 H6 H7] He. destruct (workload_step _ _ He) as [Hw|(url & Ht & Hd & Hm & Hc)].
  - destruct (elsewhere_same _ _ Hw) as (E1 & E2 & E3 & E4 & E5 & E6 & E7). destruct Hw as (E0 & _). split.
    + split; rewrite ?E1, ?E2, ?E3, ?E4, ?E5, ?E6; try done. intros url Hu. rewrite E7. by apply H7.
    + intros _. rewrite E5, E6. split_and!; [|done..]. split; [done..|by rewrite E5|].
      by rewrite E7, E4, E6.
  - assert (Hu : url = S_url).
    { destruct (decide (url = S_url)) as [E|E]; [done|]. exfalso. pose proof (H7 url E) as Hs.
      destruct Hc as [[Hn _]|[[Hn _]|(_ & (owner & Ho & ->) & _)]]; [by apply Hn..|]. rewrite H3 in Ho.
      injection Ho as <-. by apply E. }
    subst url. assert (E2 : run_of w' = run_of w) by (unfold Network.run_of; by rewrite Ht).
    assert (E3 : owner_of w' = owner_of w) by (unfold Network.owner_of; by rewrite Ht). split.
    + split; [|by rewrite E2|by rewrite E3| |by rewrite Hd|by rewrite Hd|].
      * unfold recorded. by rewrite Ht.
      * destruct Hc as [[_ Hc]|[(_ & _ & El & Hc)|(_ & _ & El & Hc)]]; [done| |]; by rewrite Hc, El.
      * intros u Hu. apply (same_at u w w'); [by apply Hm|by apply H7].
    + intros Ho. split; [|split; [by rewrite Hd|by apply same_at, Hm]].
      split; [by rewrite Ht|by rewrite E2|by rewrite E3|by rewrite Hd|].
      intros Hst. destruct Hc as [[Hn _]|[[Hn _]|[Hov _]]]; [by destruct (Hn Hst)..|by destruct (Ho Hov)].
Qed.

Lemma before_envs w w' : before w -> rtc env w w' -> before w'.
Proof using urls_differ. intros Hb H. induction H; [done|]. apply IHrtc. by apply before_env with x. Qed.

Lemma live_env w w' : live w -> env w w' ->
  live w' /\ still w w' /\ dir_at T_url w' = dir_at T_url w /\ data_at T_url w' = data_at T_url w.
Proof using urls_differ.
  intros [Hb Ho Hs Hp Hf] He. destruct (before_env w w' Hb He) as [Hb' Hst].
  destruct Hst as (Hst & Hd & Ht); [unfold Network.over; by rewrite Ho|]. split; [|done].
  assert (Hm : source_meta w' = source_meta w) by (unfold source_meta; by rewrite (st_dir _ _ Hst)).
  split; [done|by rewrite (phase_still _ _ Hst)| |by rewrite Hm|rewrite Hd, Ht; by eapply fits_still].
  intros ms Hms Hph. rewrite Hm in Hms. destruct (Hs ms Hms Hph) as [a Ha]. exists a. by eapply archived_still.
Qed.

Lemma live_envs w w' : live w -> rtc env w w' ->
  live w' /\ still w w' /\ dir_at T_url w' = dir_at T_url w /\ data_at T_url w' = data_at T_url w.
Proof using urls_differ.
  intros Hl H. induction H as [w|w w1 w2 H1 _ IH]; [by split_and!|].
  destruct (live_env w w1 Hl H1) as (Hl1 & Hs1 & Hd1 & Ht1). destruct (IH Hl1) as (Hl2 & Hs2 & Hd2 & Ht2).
  split_and!; [done|by transitivity w1|congruence|congruence].
Qed.

Lemma committed_env w w' : committed w -> env w w' -> committed w'.
Proof using urls_differ.
  intros [H1 H2 H3 H4 H5] He. destruct (workload_step _ _ He) as [Hw|(url & Ht & Hd & Hm & Hc)].
  - destruct (elsewhere_same _ _ Hw) as (E1 & E2 & E3 & E4 & E5 & E6 & E7). destruct Hw as (E0 & _).
    split; rewrite ?E0, ?E2, ?E3, ?E4, ?E6; try done. intros u Hu. rewrite E7. by apply H4.
  - assert (Hu : url = T_url).
    { destruct (decide (url = T_url)) as [E|E]; [done|]. exfalso. pose proof (H4 url E) as Hs.
      destruct Hc as [[Hn _]|[[Hn _]|(_ & (owner & Ho & ->) & _)]]; [by apply Hn..|]. rewrite H3 in Ho.
      injection Ho as <-. by apply E. }
    subst url. split; [by rewrite Ht|by unfold Network.run_of; rewrite Ht|by unfold Network.owner_of; rewrite Ht| |].
    + intros u Hu. apply (same_at u w w'); [by apply Hm|by apply H4].
    + destruct Hc as [[_ Hc]|[(_ & _ & El & Hc)|(_ & _ & El & Hc)]].
      * exists (nt_latest w'). by split; [|left].
      * rewrite Hc, El. exact H5.
      * rewrite Hc, El. exact H5.
Qed.

Lemma committed_envs w w' : committed w -> rtc env w w' -> committed w'.
Proof using urls_differ. intros Hb H. induction H; [done|]. apply IHrtc. by apply committed_env with x. Qed.

(** ** What the destination does *)

(** On the way of a handler that started in [w0]: the transfer's directory is
    [d], the server's data [t]. *)
Definition on_T (w0 : Net) (d : TransferDir) (t : option Tree) (w : Net) : Prop :=
  live w /\ still w0 w /\ dir_at T_url w = d /\ data_at T_url w = t.

Lemma live_T w m : live w -> mc_containers m !! server <> Some true -> fits w (dir id m) (mc_data m !! server) ->
  on_T w (dir id m) (mc_data m !! server) (set_machine T_url m w).
Proof using urls_differ.
  intros [[H1 H2 H3 H4 H5 H6 H7] Ho Hs Hp Hf] Hc Hm. set (w1 := set_machine T_url m w).
  assert (ES : machine S_url w1 = machine S_url w) by (by apply machine_set_ne).
  assert (Hst : still w w1). { split; try done; unfold dir_at, stopped, data_at; by rewrite ES. }
  split; [|split; [done|unfold dir_at, data_at, w1; by rewrite machine_set]]. split.
  - split; [done..| | | |].
    + unfold data_at. by rewrite ES.
    + unfold dir_at. by rewrite ES.
    + unfold dir_at. by rewrite ES.
    + intros url Hu. unfold stopped, w1. destruct (decide (url = T_url)) as [->|Hn]; [by rewrite machine_set|].
      rewrite machine_set_ne by done. by apply H7.
  - done.
  - intros ms Hms Hph. unfold source_meta, dir_at in Hms. rewrite ES in Hms. destruct (Hs ms Hms Hph) as [a Ha].
    exists a. by eapply archived_still.
  - intros ms Hms. unfold source_meta, dir_at in Hms. rewrite ES in Hms. by apply Hp.
  - unfold dir_at, data_at, w1. rewrite machine_set. by eapply fits_still.
Qed.

Notation on_local := (holds (local_step node_url id server T_url) live).

(** A request at the destination, with the directory and the data it leaves. *)
Lemma T_step {X A} (e : NodeEff X) (k : X -> N A) (Q : A -> Net -> Prop) w0 d t w :
  on_T w0 d t w ->
  (forall m x m', dir id m = d -> mc_data m !! server = t -> may X e m x m' ->
     (mc_containers m !! server <> Some true -> mc_containers m' !! server <> Some true) /\
     (forall w', live w' -> still w0 w' -> fits w' d t -> fits w' (dir id m') (mc_data m' !! server)) /\
     forall w1, on_T w0 (dir id m') (mc_data m' !! server) w1 -> on_local (k x) Q w1) ->
  on_local (Vis e k) Q w.
Proof using urls_differ.
  intros (Hl & Hs & Hd & Ht) H x w1 (wa & m' & He & Hm & ->).
  destruct (live_envs _ _ Hl He) as (Hla & Hsa & Hda & Hta).
  assert (Hsta : still w0 wa) by (by transitivity w).
  destruct (H _ _ _ (eq_trans Hda Hd) (eq_trans Hta Ht) Hm) as (Hc & Hf & Hk).
  destruct (live_T wa m' Hla) as (H1 & H2 & H3 & H4).
  { apply Hc. by apply (bf_stopped _ (lv_before _ Hla)). }
  { apply Hf; [done..|]. rewrite <- Hd, <- Ht, <- Hda, <- Hta. apply (lv_fits _ Hla). }
  split; [done|]. apply Hk. split_and!; [done|by transitivity wa|done|done].
Qed.

(** Requests that look, or touch only what runs. *)
Definition looks (X : Type) (e : NodeEff X) : Prop :=
  match e with
  | Now | CtxErr | LoadMeta _ _ | IsActive _ | SetActive _ _ | OpenArchive _ _ | IncomingChecksum _
  | StagingExists _ | PreviousExists _ | ServerExists _ | InspectContainer _ | HeadOffset _ _ _ | PatchArchive _ _ _
  | RemoveBackups _ => True
  | _ => False
  end.

Lemma looks_keeps X (e : NodeEff X) m x m' : looks X e -> may X e m x m' ->
  dir id m' = dir id m /\ mc_data m' = mc_data m /\ mc_containers m' = mc_containers m.
Proof using Type.
  intros Hl [Hp|Hf]; destruct e; try done; cbn in *;
    repeat match goal with
    | H : context [match ?o with Some _ => _ | None => _ end] |- _ => destruct o
    | H : (_, _) = (_, _) |- _ => injection H as -> ->
    | H : unread _ _ _ |- _ => destruct H as [_ ->]
    | H : _ /\ _ |- _ => destruct H
    | H : lost _ _ _ _ |- _ => destruct H as [_ [->| ->]]
    end; subst; try done.
Qed.

Lemma T_look {X A} (e : NodeEff X) (k : X -> N A) (Q : A -> Net -> Prop) w0 d t w :
  on_T w0 d t w -> looks X e ->
  (forall m x m' w1, dir id m = d -> mc_data m !! server = t -> may X e m x m' -> on_T w0 d t w1 -> on_local (k x) Q w1) ->
  on_local (Vis e k) Q w.
Proof using urls_differ.
  intros Hw Hl H. apply (T_step e k Q w0 d t w Hw). intros m x m' Hd Ht Hm.
  destruct (looks_keeps X e m x m' Hl Hm) as (E1 & E2 & E3).
  rewrite E1, E2, E3, Hd, Ht. split_and!; [done|done|]. intros w1. by eapply H.
Qed.

(** Saving: the new metadata are there, or an error is answered. *)
Lemma T_save {A} (meta : Metadata) (k : error -> N A) (Q : A -> Net -> Prop) w0 d t w :
  on_T w0 d t w -> x_MigrationID meta = id -> x_Direction meta = DirectionDestinationUpload ->
  let d' := d <| td_meta := <[DirectionDestinationUpload := meta]> (td_meta d) |> in
  (forall w', live w' -> still w0 w' -> fits w' d t -> fits w' d' t) ->
  (forall w1, on_T w0 d' t w1 -> on_local (k None) Q w1) ->
  (forall msg d1 w1, d1 = d \/ d1 = d' -> on_T w0 d1 t w1 -> on_local (k (Some msg)) Q w1) ->
  on_local (pbind (save meta) k) Q w.
Proof using urls_differ.
  intros Hw Hid Hdir d' Hf Hk1 Hk2. unfold save.
  destruct (safeID (x_MigrationID meta) && validDirection (x_Direction meta)); cbn [negb pbind];
    [|apply (Hk2 _ d); [by left|done]].
  destruct (validateMetadata meta) as [e|]; cbn [pbind]; [apply (Hk2 _ d); [by left|done]|].
  apply (T_step _ _ _ w0 d t w Hw). intros m x m' Hd Ht [[= -> ->]|([msg ->] & [->| ->])].
  - rewrite Hid, Hdir, dir_set_dir, Hd, data_set_dir, containers_set_dir, Ht. by split_and!.
  - rewrite Hd, Ht. split_and!; [done|done|]. intros w1 Hw1. apply (Hk2 _ d); [by left|done].
  - cbn [perform snd]. rewrite Hid, Hdir, dir_set_dir, Hd, data_set_dir, containers_set_dir, Ht. split_and!; [done|done|].
    intros w1 Hw1. apply (Hk2 _ d'); [by right|done].
Qed.

Ltac look Hw := eapply T_look; [exact Hw|exact I|].

Lemma T_authorize {A} credential (k : reply Metadata -> N A) (Q : A -> Net -> Prop) w0 d t w :
  on_T w0 d t w ->
  (forall meta w1, on_T w0 d t w1 -> td_meta d !! DirectionDestinationUpload = Some meta -> on_local (k (Done meta)) Q w1) ->
  (forall e w1, on_T w0 d t w1 -> on_local (k (Refused e)) Q w1) ->
  on_local (pbind (authorizeLocked id DirectionDestinationUpload credential) k) Q w.
Proof using urls_differ.
  intros Hw Hk Hr. unfold authorizeLocked, load.
  destruct (safeID id && validDirection DirectionDestinationUpload); cbn [negb pbind]; [|by apply Hr].
  look Hw. intros m x m' w1 Hd Ht Hm Hw1. cbn beta.
  destruct x as [[meta|]|e]; cbn [pbind]; [|by apply Hr..].
  destruct (validateMetadata meta); cbn [pbind]; [by apply Hr|].
  destruct (negb _); cbn [pbind]; [by apply Hr|].
  destruct (x_ConsumedAt meta); cbn [pbind]; [by apply Hr|].
  look Hw1. intros m1 now m2 w2 _ _ _ Hw2.
  destruct (negb _); cbn [pbind]; [by apply Hr|]. destruct (negb _); cbn [pbind]; [by apply Hr|].
  apply Hk; [done|]. destruct Hm as [[= Hm ->]|[[msg Hx] _]]; [|done]. by rewrite <- Hd, Hm.
Qed.

Lemma td_meta_set d ms : td_meta (d <| td_meta := ms |>) = ms.
Proof using Type. done. Qed.

Lemma td_incoming_set_meta d ms : td_incoming (d <| td_meta := ms |>) = td_incoming d.
Proof using Type. done. Qed.

(** New metadata that promise no more than the old ones did. *)
Lemma fits_meta w d t meta : fits w d t ->
  x_MigrationID meta = id -> x_Direction meta = DirectionDestinationUpload -> x_ServerID meta = server ->
  (x_Checksum meta <> "" -> exists a, archived w a /\ x_Checksum meta = digest a) ->
  (x_Phase meta = "verified" -> exists a, archived w a /\ td_incoming d = Some a) ->
  (x_Phase meta = "restored" -> arrived w t) ->
  fits w (d <| td_meta := <[DirectionDestinationUpload := meta]> (td_meta d) |>) t.
Proof using Type.
  intros [H1 H2 H3 H4 H5] E1 E2 E3 Hc Hv Hr.
  split; unfold bound; rewrite ?td_meta_set, ?td_incoming_set_meta; [| | | |done].
  - intros direction m [[<- <-]|[_ Hm]]%lookup_insert_Some; [done|by apply H1].
  - intros md Hm. rewrite lookup_insert_eq in Hm. injection Hm as <-. exact Hc.
  - intros md Hm. rewrite lookup_insert_eq in Hm. injection Hm as <-. exact Hv.
  - intros md Hm. rewrite lookup_insert_eq in Hm. injection Hm as <-. exact Hr.
Qed.

Lemma fits_known w d t meta : fits w d t -> td_meta d !! DirectionDestinationUpload = Some meta ->
  x_MigrationID meta = id /\ x_Direction meta = DirectionDestinationUpload /\ x_ServerID meta = server /\
  (x_Checksum meta <> "" -> exists a, archived w a /\ x_Checksum meta = digest a) /\
  (x_Phase meta = "verified" -> exists a, archived w a /\ td_incoming d = Some a) /\
  (x_Phase meta = "restored" -> arrived w t).
Proof using Type.
  intros H Hm. destruct (ft_bound _ _ _ H _ _ Hm) as (E1 & E2 & E3). split_and!; [done..| | |].
  - by apply (ft_checksum _ _ _ H). - by apply (ft_verified _ _ _ H). - by apply (ft_restored _ _ _ H).
Qed.

Lemma on_T_fits w0 d t w : on_T w0 d t w -> fits w d t.
Proof using Type. intros (Hl & _ & <- & <-). apply (lv_fits _ Hl). Qed.

(** A registration keeps what the transfer has reached. *)
Definition claims_of (c : CredentialClaims) (direction : string) : Prop :=
  cc_MigrationID c = id /\ cc_ServerID c = server /\ cc_Direction c = direction.

Lemma register_T reg w : live w -> claims_of (rg_Claims reg) DirectionDestinationUpload ->
  on_local (registerTransferCredential reg) (fun _ w' => live w' /\ still w w') w.
Proof using urls_differ.
  intros Hl (E1 & E2 & E3). set (d := dir_at T_url w). set (t := data_at T_url w).
  assert (Hw : on_T w d t w) by (by split_and!).
  assert (Hend : forall d' w1 (r : reply unit), on_T w d' t w1 -> on_local (Ret r) (fun _ w' => live w' /\ still w w') w1).
  { intros d' w1 r (H1 & H2 & _). by split. }
  unfold registerTransferCredential, Register. destruct (validateClaims (rg_Claims reg)); [by eapply Hend|].
  look Hw. intros m now m' w1 _ _ _ Hw1. cbn beta.
  destruct (Before _ now); [by eapply Hend|]. destruct (negb _); [by eapply Hend|].
  unfold value, load. rewrite E1, E3. destruct (negb _); cbn [pbind]; [by eapply Hend|].
  look Hw1. intros m1 x m2 w2 Hd Ht Hm Hw2. cbn beta.
  destruct x as [[meta|]|e]; [| |by eapply Hend].
  - destruct (negb _); [by eapply Hend|].
    assert (Hmeta : td_meta d !! DirectionDestinationUpload = Some meta).
    { destruct Hm as [[= Hm ->]|[[msg Hx] _]]; [|done]. by rewrite <- Hd, Hm. }
    look Hw2. intros m3 now' m4 w3 _ _ _ Hw3. cbn beta.
    destruct (fits_known _ _ _ _ (on_T_fits _ _ _ _ Hw3) Hmeta) as (F1 & F2 & F3 & F4 & F5 & F6).
    unfold guard. eapply T_save; [exact Hw3|exact F1|exact F2| |intros; by eapply Hend|intros; by eapply Hend].
    intros w' _ _ Hf. destruct (fits_known _ _ _ _ Hf Hmeta) as (G1 & G2 & G3 & G4 & G5 & G6). by apply fits_meta.
  - look Hw2. intros m3 now' m4 w3 _ _ _ Hw3. cbn beta.
    unfold guard. eapply T_save; [exact Hw3|done..| |intros; by eapply Hend|intros; by eapply Hend].
    intros w' _ _ Hf. by apply fits_meta.
Qed.

Lemma fits_incoming w d t o md : fits w d t -> td_meta d !! DirectionDestinationUpload = Some md ->
  x_Phase md <> "verified" -> fits w (d <| td_incoming := o |>) t.
Proof using Type.
  intros [H1 H2 H3 H4 H5] Hm Hp. split; [exact H1|exact H2| |exact H4|exact H5].
  intros md' Hm' Hp'. change (td_meta d !! DirectionDestinationUpload = Some md') in Hm'. congruence.
Qed.

Lemma on_T_end {A} w0 d t w (a : A) : on_T w0 d t w -> on_local (Ret a) (fun _ w' => live w' /\ still w0 w') w.
Proof using Type. intros (H1 & H2 & _). by split. Qed.

Lemma on_T_archived w0 d t w a : on_T w0 d t w -> archived w0 a -> archived w a.
Proof using Type. intros (_ & Hs & _). by apply archived_still. Qed.

(** Metadata of an upload of the archive [a]. *)
Definition uploads (a : Bytes) (m : Metadata) : Prop :=
  x_MigrationID m = id /\ x_Direction m = DirectionDestinationUpload /\ x_ServerID m = server /\
  (x_Checksum m <> "" -> x_Checksum m = digest a).

Lemma fits_uploads w0 w d t a m : still w0 w -> archived w0 a -> uploads a m ->
  (x_Phase m = "verified" -> td_incoming d = Some a) -> x_Phase m <> "restored" -> fits w d t ->
  fits w (d <| td_meta := <[DirectionDestinationUpload := m]> (td_meta d) |>) t.
Proof using Type.
  intros Hs Ha (E1 & E2 & E3 & E4) Hv Hr Hf. assert (Ha' : archived w a) by (by eapply archived_still).
  apply fits_meta; try done; [intros Hc; exists a; by split; [|apply E4]|intros Hp; exists a; split; [done|by apply Hv]].
Qed.

Lemma save_upload {A} w0 d t w a m (k : error -> N A) : on_T w0 d t w -> archived w0 a -> uploads a m ->
  (x_Phase m = "verified" -> td_incoming d = Some a) -> x_Phase m <> "restored" ->
  (forall e d1 w1, on_T w0 d1 t w1 ->
     (e = None -> d1 = d <| td_meta := <[DirectionDestinationUpload := m]> (td_meta d) |>) ->
     on_local (k e) (fun _ w' => live w' /\ still w0 w') w1) ->
  on_local (pbind (save m) k) (fun _ w' => live w' /\ still w0 w') w.
Proof using urls_differ.
  intros Hw Ha Hm Hv Hr Hk. eapply T_save; [exact Hw|apply Hm..| | |].
  - intros w' _ Hs. by eapply fits_uploads.
  - intros w1 H1. by eapply Hk.
  - intros msg d1 w1 _ H1. by eapply Hk.
Qed.

Lemma finish_append_T w0 d t w a checksum offset total written err m :
  on_T w0 d t w -> archived w0 a -> checksum = digest a -> uploads a m -> x_Phase m = "uploading" ->
  on_local (finish_append id checksum offset total written err m) (fun _ w' => live w' /\ still w0 w') w.
Proof using urls_differ OK.
  intros Hw Ha -> Hm Hp. unfold finish_append. look Hw. intros m1 [] m2 w1 _ _ _ Hw1. cbn beta.
  look Hw1. intros m3 now m4 w2 _ _ _ Hw2. cbn beta.
  set (m' := m <| x_Offset := offset +i written |> <| x_UpdatedAt := now |>).
  assert (Hm' : uploads a m') by exact Hm. assert (Hp' : x_Phase m' = "uploading") by exact Hp.
  assert (Hlost : forall (m'' : Metadata) r d3 w3, on_T w0 d3 t w3 -> uploads a m'' -> x_Phase m'' <> "verified" -> x_Phase m'' <> "restored" ->
    on_local (pbind (save m'') (fun _ => Ret r)) (fun (_ : reply Metadata) w' => live w' /\ still w0 w') w3).
  { intros m'' r d3 w3 H3 Hu H4 H5. eapply save_upload; [done..| |done|]; [by intros|].
    intros e d4 w4 H6 _. by eapply on_T_end. }
  assert (Hoff : forall phase, phase <> "uploading" -> x_Phase m <> phase) by (intros ? H H'; congruence).
  destruct (_ || _); [by apply (Hlost _ _ d); [exact Hw2|exact Hm|apply Hoff|apply Hoff]|].
  destruct (_ <? _); [by apply (Hlost _ _ d); [exact Hw2|exact Hm|apply Hoff|apply Hoff]|].
  look Hw2. intros m5 actual m6 w3 Hd Ht Hi Hw3. cbn beta. destruct actual as [actual|e].
  - destruct (negb (EqualFold actual (digest a))) eqn:Ee; [by apply (Hlost _ _ d)|].
    eapply save_upload; [exact Hw3|exact Ha|exact Hm'| |done|intros; by eapply on_T_end].
    intros _. destruct Hi as [Hi|[[msg Hi] _]]; [|done]. cbn [perform] in Hi. rewrite Hd in Hi.
    destruct (td_incoming d) as [b|]; [|done]. injection Hi as -> _. f_equal. apply negb_false_iff in Ee.
    unfold EqualFold in Ee. rewrite !digest_lower in Ee. by apply String.eqb_eq, digest_inj in Ee.
  - by apply (Hlost _ _ d); [exact Hw3|exact Hm|apply Hoff|apply Hoff].
Qed.

(** The outer condition of a program. *)
Ltac branch := match goal with
  | |- holds _ _ (if ?b then _ else _) _ _ => destruct b eqn:?
  | |- holds _ _ (pbind (if ?b then _ else _) _) _ _ => destruct b eqn:?; cbn [pbind]
  end.

Lemma set_incoming_T w0 d t w a md : on_T w0 d t w -> td_meta d !! DirectionDestinationUpload = Some md ->
  uploads a md -> x_Phase md = "uploading" -> forall o w', fits w' d t -> fits w' (d <| td_incoming := o |>) t.
Proof using Type. intros Hw Hm Hu Hp o w' Hf. eapply fits_incoming; [exact Hf|exact Hm|by rewrite Hp]. Qed.

Lemma receive_T u b a w : live w -> archived w a -> up_MigrationID u = id -> up_Checksum u = digest a ->
  on_local (receiveTransferChunk u b) (fun _ w' => live w' /\ still w w') w.
Proof using urls_differ OK.
  intros Hl Ha Hid Hck. set (d := dir_at T_url w). set (t := data_at T_url w).
  assert (Hw : on_T w d t w) by (by split_and!). unfold receiveTransferChunk, with_id, AppendDestination.
  rewrite Hid, Hck. do 4 (branch; [by eapply on_T_end|]).
  unfold rbind. eapply T_authorize; [exact Hw| |intros; by eapply on_T_end].
  intros meta w1 Hw1 Hmeta. destruct (append_refused _ _ _ meta); [by eapply on_T_end|].
  look Hw1. intros m1 act m2 w2 _ _ _ Hw2. cbn beta. destruct act; [by eapply on_T_end|].
  look Hw2. intros m3 now m4 w3 _ _ _ Hw3. cbn beta.
  destruct (fits_known _ _ _ _ (on_T_fits _ _ _ _ Hw3) Hmeta) as (F1 & F2 & F3 & _).
  set (m' := meta <| x_ArchiveSize := up_Length u |> <| x_Checksum := ToLower (digest a) |>
                  <| x_Phase := "uploading" |> <| x_UpdatedAt := now |>).
  assert (Hm' : uploads a m') by (split_and!; [done..|]; intros _; apply digest_lower).
  unfold guard. eapply save_upload; [exact Hw3|exact Ha|exact Hm'|done|done|].
  intros e d1 w4 Hw4 Hd1. destruct e as [msg|]; [by eapply on_T_end|]. specialize (Hd1 eq_refl).
  assert (Hmd : td_meta d1 !! DirectionDestinationUpload = Some m').
  { subst d1. rewrite td_meta_set. apply lookup_insert_eq. }
  pose proof (set_incoming_T _ _ _ _ _ _ Hw4 Hmd Hm' eq_refl) as Hin.
  unfold value. eapply T_step; [exact Hw4|]. intros m5 x m6 Hd Ht Hm. cbn beta.
  assert (Hres : exists o, dir id m6 = d1 <| td_incoming := o |> /\ mc_data m6 !! server = t /\ mc_containers m6 = mc_containers m5).
  { destruct Hm as [[= -> ->]|([msg ->] & [->| ->])].
    - eexists. by rewrite dir_set_dir, Hd.
    - exists (td_incoming d1). split; [|done]. rewrite Hd. by destruct d1.
    - cbn [perform snd]. eexists. by rewrite dir_set_dir, Hd. }
  destruct Hres as (o & E1 & E2 & E3). rewrite E1, E2, E3. split_and!; [done|by intros; apply Hin|].
  intros w5 Hw5. assert (Hmd5 : td_meta (d1 <| td_incoming := o |>) !! DirectionDestinationUpload = Some m') by exact Hmd.
  destruct x as [size|e]; cbv beta iota; [|by eapply on_T_end]. branch; [by eapply on_T_end|].
  look Hw5. intros m7 [] m8 w6 _ _ _ Hw6. cbn beta. destruct (limited _ b) as [data readErr].
  pose proof (set_incoming_T _ _ _ _ _ _ Hw6 Hmd5 Hm' eq_refl) as Hin6.
  eapply T_step; [exact Hw6|]. intros m9 r m10 Hd9 Ht9 Hm9. cbn beta.
  assert (Hres : exists o, dir id m10 = d1 <| td_incoming := o |> /\ mc_data m10 !! server = t /\ mc_containers m10 = mc_containers m9).
  { destruct Hm9 as [Hm9|(n & msg & Hr & ->)].
    - injection Hm9 as -> ->. eexists. by rewrite dir_set_dir, Hd9.
    - cbn [perform snd]. eexists. by rewrite dir_set_dir, Hd9. }
  destruct Hres as (o' & E4 & E5 & E6). rewrite E4, E5, E6. split_and!; [done|intros; by apply Hin6|].
  intros w7 Hw7. destruct r as [written writeErr]. by eapply finish_append_T.
Qed.

Lemma offset_T credential w : live w ->
  on_local (destinationTransferOffset id credential) (fun _ w' => live w' /\ still w w') w.
Proof using urls_differ.
  intros Hl. assert (Hw : on_T w (dir_at T_url w) (data_at T_url w) w) by (by split_and!).
  unfold destinationTransferOffset, with_id, DestinationOffset, rbind. do 2 (branch; [by eapply on_T_end|]).
  eapply T_authorize; [exact Hw|intros; by eapply on_T_end|intros; by eapply on_T_end].
Qed.

Lemma dir_set_data t m : dir id (set_data server t m) = dir id m.
Proof using Type. done. Qed.

(** While a restoration is under way the server's data promise nothing. *)
Record restoring (w0 : Net) (d : TransferDir) : Prop := {
  rs_early : phase_order (phase_of w0) < 4;
  rs_meta : exists md, td_meta d !! DirectionDestinationUpload = Some md /\ x_Phase md <> "restored"
}.

Lemma fits_restoring w0 w d t d' t' : restoring w0 d -> still w0 w -> fits w d t ->
  td_meta d' = td_meta d -> td_incoming d' = td_incoming d -> fits w d' t'.
Proof using Type.
  intros [He (md & Hm & Hp)] Hs [H1 H2 H3 H4 H5] Ed Ei. split; unfold bound; rewrite ?Ed, ?Ei; try done.
  - intros md' Hm' Hp'. congruence.
  - rewrite (phase_still _ _ Hs). lia.
Qed.

Lemma restoring_same w0 d d' : restoring w0 d -> td_meta d' = td_meta d -> restoring w0 d'.
Proof using Type. intros [H1 H2] E. split; [done|]. by rewrite E. Qed.

(** The requests that move the trees around, and what they leave. *)
Definition moves (X : Type) (e : NodeEff X) : Prop :=
  match e with
  | SetAside s i | Activate s i | PutBack s i => s = server /\ i = id
  | Extract i | MakeStaging i => i = id
  | _ => False
  end.

Lemma moves_keeps X (e : NodeEff X) m x m' : moves X e -> may X e m x m' ->
  td_meta (dir id m') = td_meta (dir id m) /\ td_incoming (dir id m') = td_incoming (dir id m) /\
  mc_containers m' = mc_containers m.
Proof using Type.
  intros Hl [Hp|Hf]; destruct e; try done; cbn in Hl; first [rewrite Hl in *; clear Hl|destruct Hl as [-> ->]]; cbn in *;
    repeat match goal with
    | H : context [match ?o with Some _ => _ | None => _ end] |- _ => destruct o eqn:?
    | H : context [match ?o with Ok _ => _ | Err _ => _ end] |- _ => destruct o eqn:?
    | H : (_, _) = (_, _) |- _ => injection H as -> ->
    | H : _ /\ _ |- _ => destruct H
    | H : exists _, _ |- _ => destruct H
    | H : lost _ _ _ _ |- _ => destruct H as [_ [->| ->]]
    | H : _ \/ _ |- _ => destruct H
    end; subst; cbn [snd]; rewrite ?dir_set_data, ?dir_set_dir; done.
Qed.

Lemma T_move {X A} (e : NodeEff X) (k : X -> N A) (Q : A -> Net -> Prop) w0 d t w :
  on_T w0 d t w -> moves X e -> restoring w0 d ->
  (forall m x m' w1, dir id m = d -> mc_data m !! server = t -> may X e m x m' ->
     on_T w0 (dir id m') (mc_data m' !! server) w1 -> restoring w0 (dir id m') -> on_local (k x) Q w1) ->
  on_local (Vis e k) Q w.
Proof using urls_differ.
  intros Hw He Hr H. eapply T_step; [exact Hw|]. intros m x m' Hd Ht Hm.
  destruct (moves_keeps X e m x m' He Hm) as (E1 & E3 & E2). rewrite Hd in E1, E3. rewrite E2.
  split_and!; [done| |].
  - intros w' _ Hs Hf. by eapply fits_restoring.
  - intros w1 Hw1. eapply H; [done..|]. by eapply restoring_same.
Qed.

Ltac shift Hw Hr := eapply T_move; [exact Hw|done|exact Hr|].

(** The staged tree becomes the server's data, or an error is answered. *)
Lemma activate_T {A} (k : error -> N A) (Q : A -> Net -> Prop) w0 d t t0 w :
  on_T w0 d t w -> restoring w0 d -> td_staging d = Some t0 ->
  (forall e d1 t1 w1, on_T w0 d1 t1 w1 -> restoring w0 d1 -> (e = None -> t1 = Some t0) -> on_local (k e) Q w1) ->
  on_local (pbind (activateWithRollback server id) k) Q w.
Proof using urls_differ.
  intros Hw Hr Hst Hk. unfold activateWithRollback. branch; [by eapply Hk|].
  look Hw. intros m1 r m2 w1 _ _ _ Hw1. destruct r as [[|]|e]; [by eapply Hk| |by eapply Hk].
  look Hw1. intros m3 r m4 w2 Hd Ht Hm Hw2. destruct r as [had|e]; [|by eapply Hk].
  assert (Htail : forall d1 t1 w3, on_T w0 d1 t1 w3 -> restoring w0 d1 -> td_staging d1 = Some t0 ->
    on_local (pbind (pbind (request (Activate server id)) (fun e => match e with
       | Some e => if had then pbind (request (PutBack server id)) (fun _ => Ret (Some e)) else Ret (Some e)
       | None => Ret None end)) k) Q w3).
  { intros d1 t1 w3 Hw3 Hr3 Hs3. shift Hw3 Hr3. intros m5 e m6 w4 Hd5 Ht5 Hm5 Hw4 Hr4. destruct e as [e|].
    - destruct had; [|by eapply Hk]. shift Hw4 Hr4. intros m7 e' m8 w5 _ _ _ Hw5 Hr5. by eapply Hk.
    - eapply Hk; [exact Hw4|exact Hr4|]. intros _. destruct Hm5 as [Hm5|[[? ?] _]]; [|done].
      cbn [perform] in Hm5. rewrite Hd5, Hs3 in Hm5. destruct (mc_data m5 !! server); [done|].
      injection Hm5 as ->. apply data_set_data. }
  destruct had; cbn [pbind]; [|by eapply Htail].
  shift Hw2 Hr. intros m5 e m6 w3 Hd5 Ht5 Hm5 Hw3 Hr3. destruct e as [e|]; [by eapply Hk|].
  eapply Htail; [exact Hw3|exact Hr3|]. destruct Hm5 as [Hm5|[[? ?] _]]; [|done]. cbn [perform] in Hm5.
  destruct (mc_data m5 !! server); [|done]. injection Hm5 as ->. rewrite dir_set_data, dir_set_dir, Hd5. exact Hst.
Qed.

(** What is restored is what the source had. *)
Definition restored_reply (w : Net) (r : reply Metadata) : Prop :=
  match r with Done m => x_Phase m = "restored" -> arrived w (data_at T_url w) | Refused _ => True end.

Lemma on_T_arrived w0 d t w : on_T w0 d t w -> arrived w0 t -> arrived w (data_at T_url w).
Proof using Type. intros (_ & Hs & _ & ->). by apply arrived_still. Qed.

Lemma meta_end w0 d t w r : on_T w0 d t w -> restored_reply w r ->
  on_local (Ret r) (fun r w' => live w' /\ still w0 w' /\ restored_reply w' r) w.
Proof using Type. intros (H1 & H2 & _) H. by split_and!. Qed.

(** The end of a restoration: the outcome is written down. *)
Definition end_restore (meta : Metadata) (e : error) : N (reply Metadata) :=
  request (SetActive id false) ;;/
  let^ now := request Now in
  match e with
  | Some msg => save_and_refuse (at_phase "failed" msg now meta) (ErrOther msg)
  | None =>
      let meta := at_phase "restored" "" now meta in
      guard (save meta) (request (RemoveIncoming id) ;;/ done meta)
  end.

Lemma end_restore_T w0 d t w a meta e : on_T w0 d t w -> restoring w0 d -> archived w0 a -> uploads a meta ->
  (e = None -> arrived w0 t) ->
  on_local (end_restore meta e) (fun r w' => live w' /\ still w0 w' /\ restored_reply w' r) w.
Proof using urls_differ.
  intros Hw Hr Ha Hm Harr. unfold end_restore. look Hw. intros m1 [] m2 w1 _ _ _ Hw1. cbn beta.
  look Hw1. intros m3 now m4 w2 _ _ _ Hw2. cbn beta. assert (Hm' := Hm). destruct Hm' as (E1 & E2 & E3 & E4).
  destruct e as [msg|].
  - eapply T_save; [exact Hw2|exact E1|exact E2| | |]; [|intros; by eapply meta_end..].
    intros w' _ Hs Hf. by eapply fits_uploads.
  - specialize (Harr eq_refl). unfold guard. eapply T_save; [exact Hw2|exact E1|exact E2| | |].
    + intros w' _ Hs Hf. apply fits_meta; try done.
      * intros Hc. exists a. split; [by eapply archived_still|by apply E4]. * intros _. by eapply arrived_still.
    + intros w3 Hw3. assert (Harr' := on_T_arrived _ _ _ _ Hw3 Harr). cbv beta iota.
      set (d3 := d <| td_meta := _ |>) in Hw3. eapply T_step; [exact Hw3|]. intros m5 x m6 Hd Ht Hm5. cbn beta.
      assert (Hres : exists o, dir id m6 = d3 <| td_incoming := o |> /\ mc_data m6 !! server = t /\ mc_containers m6 = mc_containers m5).
      { destruct Hm5 as [[= -> ->]| ->].
        - eexists. by rewrite dir_set_dir, Hd.
        - exists (td_incoming d3). rewrite Hd. by destruct d3. }
      destruct Hres as (o & -> & -> & ->). split_and!; [done| |].
      * intros w' _ Hs Hf. eapply fits_incoming; [exact Hf|apply lookup_insert_eq|done].
      * intros w4 Hw4. eapply meta_end; [exact Hw4|]. intros _. by eapply on_T_arrived.
    + intros msg d1 w3 _ Hw3. by eapply meta_end.
Qed.

Lemma extract_T w0 d t w a meta : on_T w0 d t w -> td_incoming d = Some a -> restoring w0 d -> archived w0 a ->
  uploads a meta ->
  on_local (pbind (request (Extract id)) (fun extracted =>
    pbind (match extracted with None => activateWithRollback (x_ServerID meta) id | Some msg => Ret (Some msg) end)
      (end_restore meta))) (fun r w' => live w' /\ still w0 w' /\ restored_reply w' r) w.
Proof using urls_differ OK.
  intros Hw Hin Hr Ha Hu. shift Hw Hr. intros m1 x m2 w1 Hd Ht Hm Hw1 Hr1. cbn beta.
  destruct x as [msg|]; cbv beta iota; cbn [pbind]; [by eapply end_restore_T|].
  assert (E3 : x_ServerID meta = server) by apply Hu. rewrite E3.
  assert (Hsta : td_staging (dir id m2) = Some (carried (nt_latest w0))).
  { destruct Hm as [Hm|[[? ?] _]]; [|done]. cbn [perform] in Hm. rewrite Hd, Hin in Hm.
    rewrite (unpack_pack _ _ (ar_pack _ _ Ha)) in Hm. injection Hm as ->. by rewrite dir_set_dir. }
  eapply activate_T; [exact Hw1|exact Hr1|exact Hsta|]. intros e d2 t2 w2 Hw2 Hr2 He.
  eapply end_restore_T; [done..|]. intros Hn. rewrite (He Hn). split; [by exists a|]. eexists. split; [done|].
  apply rtc_refl.
Qed.

Lemma restore_T credential w : live w -> phase_order (phase_of w) < 4 ->
  on_local (restoreTransferDestination id credential)
    (fun r w' => live w' /\ still w w' /\ restored_reply w' r) w.
Proof using urls_differ OK.
  intros Hl He. set (d := dir_at T_url w). set (t := data_at T_url w).
  assert (Hw : on_T w d t w) by (by split_and!).
  unfold restoreTransferDestination, with_id, RestoreDestination, rbind.
  do 2 (branch; [by eapply meta_end|]).
  eapply T_authorize; [exact Hw| |intros; by eapply meta_end]. intros meta w1 Hw1 Hmeta. cbv beta iota.
  destruct (fits_known _ _ _ _ (on_T_fits _ _ _ _ Hw1) Hmeta) as (F1 & F2 & F3 & F4 & F5 & F6).
  branch; [eapply meta_end; [exact Hw1|]; intros Hp; destruct Hw1 as (_ & _ & _ & ->); by apply F6|].
  branch; [by eapply meta_end|].
  look Hw1. intros m1 act m2 w2 _ _ _ Hw2. cbn beta. branch; [by eapply meta_end|]. unfold value.
  look Hw2. intros m3 staged m4 w3 _ _ _ Hw3. destruct staged as [staged|e]; cbv beta iota; [|by eapply meta_end].
  branch; [by eapply meta_end|]. unfold guard.
  eapply T_step; [exact Hw3|]. intros m5 e m6 Hd Ht Hm5. cbn beta.
  assert (Hres : exists o, dir id m6 = d <| td_staging := o |> /\ mc_data m6 !! server = t /\ mc_containers m6 = mc_containers m5).
  { destruct Hm5 as [[= -> ->]|([msg ->] & [->| ->])].
    - eexists. by rewrite dir_set_dir, Hd.
    - exists (td_staging d). rewrite Hd. by destruct d.
    - cbn [perform snd]. eexists. by rewrite dir_set_dir, Hd. }
  destruct Hres as (o & -> & -> & ->). split_and!; [done|intros w' _ _ Hf; by destruct Hf|].
  intros w4 Hw4. set (d4 := d <| td_staging := o |>) in Hw4. destruct e as [msg|]; cbv beta iota; [by eapply meta_end|].
  look Hw4. intros m7 [] m8 w5 _ _ _ Hw5. cbn beta. look Hw5. intros m9 now m10 w6 _ _ _ Hw6. cbn beta.
  assert (Hmeta4 : td_meta d4 !! DirectionDestinationUpload = Some meta) by exact Hmeta.
  apply negb_false_iff, String.eqb_eq in Heqb2.
  destruct (fits_known _ _ _ _ (on_T_fits _ _ _ _ Hw6) Hmeta4) as (_ & _ & _ & G4 & G5 & _).
  destruct (G5 Heqb2) as (a & Ha & Hin).
  set (meta' := meta <| x_Phase := "restoring" |> <| x_UpdatedAt := now |>).
  assert (Hu : uploads a meta').
  { split_and!; [done..|]. intros Hc. change (x_Checksum meta = digest a). destruct (G4 Hc) as (a' & Ha' & ->). f_equal.
    pose proof (ar_file _ _ Ha). pose proof (ar_file _ _ Ha'). congruence. }
  assert (Hearly : phase_order (phase_of w6) < 4) by (destruct Hw6 as (_ & Hs & _); by rewrite (phase_still _ _ Hs)).
  assert (Hs6 : still w w6) by apply Hw6. assert (Hb : on_T w6 d4 t w6) by (destruct Hw6 as (H1 & _ & H2 & H3); by split_and!).
  eapply holds_post with (Q := fun r w' => live w' /\ still w6 w' /\ restored_reply w' r);
    [|intros r w' (H1 & H2 & H3); split_and!; [done|by transitivity w6|done]].
  clear Hw6 Hw5 Hw4 Hw3 Hw2 Hw1 Hw.
  assert (Hrs' : restoring w6 d4) by (split; [done|exists meta; split; [done|by rewrite Heqb2]]).
  assert (Hrs : restoring w6 (d4 <| td_meta := <[DirectionDestinationUpload := meta']> (td_meta d4) |>)).
  { split; [done|]. exists meta'. split; [apply lookup_insert_eq|done]. }
  eapply T_save; [exact Hb|done|done| | |].
  - intros w' _ Hs Hf. by eapply fits_uploads.
  - intros w7 Hw7. by eapply extract_T.
  - intros msg d5 w7 [-> | ->] Hw7; by eapply extract_T.
Qed.

(** *** The workload on the destination *)

Lemma fits_arrived w d t t' : fits w d t -> arrived w t' -> fits w d t'.
Proof using Type. intros [H1 H2 H3 H4 H5] H. split; auto. Qed.

(** The data arrived, and stays. *)
Definition holds_data (w0 : Net) (w : Net) : Prop := live w /\ still w0 w /\ arrived w (data_at T_url w).

Definition patches_only (X : Type) (e : NodeEff X) : Prop := forall m x m' l,
  mc_data m !! server = Some l -> may X e m x m' ->
  dir id m' = dir id m /\ (mc_containers m !! server <> Some true -> mc_containers m' !! server <> Some true) /\
  exists l', mc_data m' !! server = Some l' /\ rtc patch l l'.

Notation on_data w0 := (holds (local_step node_url id server T_url) (holds_data w0)).

Lemma T_workload {X A} (e : NodeEff X) (k : X -> N A) w0 w :
  holds_data w0 w -> patches_only X e ->
  (forall x w1, holds_data w0 w1 -> on_data w0 (k x) (fun _ => holds_data w0) w1) ->
  on_data w0 (Vis e k) (fun _ => holds_data w0) w.
Proof using urls_differ.
  intros (Hl & Hs & Ha) He Hk x w1 (wa & m' & Henv & Hm & ->).
  destruct (live_envs _ _ Hl Henv) as (Hla & Hsa & Hda & Hta).
  assert (Haa : arrived wa (data_at T_url wa)) by (rewrite Hta; by eapply arrived_still).
  destruct Haa as (Har & l & El & Hp). destruct (He _ _ _ l El Hm) as (E1 & E2 & l' & E3 & Hl').
  assert (Harr : arrived wa (Some l')) by (split; [done|]; exists l'; split; [done|by transitivity l]).
  assert (Hw1 : holds_data w0 (set_machine T_url m' wa)).
  { destruct (live_T wa m' Hla) as (H1 & H2 & H3 & H4).
    - apply E2. by apply (bf_stopped _ (lv_before _ Hla)).
    - rewrite E1, E3. eapply fits_arrived; [apply (lv_fits _ Hla)|done].
    - split_and!; [done|by transitivity wa; [transitivity w|]|]. rewrite H4, E3. by eapply arrived_still. }
  split; [exact Hw1|by apply Hk].
Qed.

Lemma patches_make : patches_only _ (MakeServerDir server).
Proof using Type.
  intros m x m' l Hl Hm.
  assert (E : m' = m \/ m' = set_data server (Some l) m).
  { destruct Hm as [Hm|([msg ->] & [->| ->])]; [|by left|]; cbn in *; rewrite ?Hl in *; [injection Hm as _ ->|]; by right. }
  destruct E as [->| ->]; [by split_and!; [| |exists l]|].
  split_and!; [done..|]. exists l. by rewrite data_set_data.
Qed.

Lemma patches_create : patches_only _ (CreateContainer server).
Proof using Type.
  intros m x m' l Hl Hm.
  assert (E : m' = m \/ m' = set_container server (Some (default false (mc_containers m !! server))) m).
  { destruct Hm as [[= _ ->]|([msg ->] & [->| ->])]; by auto. }
  destruct E as [->| ->]; [by split_and!; [| |exists l]|].
  split_and!; [done| |by exists l]. rewrite container_set_container.
  by destruct (mc_containers m !! server) as [[|]|].
Qed.

Lemma patches_apply : patches_only _ (ApplyConfiguration server).
Proof using Type.
  intros m x m' l Hl Hm. destruct Hm as [[= _ ->]|(t & Ht & ->)]; rewrite Hl in *; (split_and!; [done..|]).
  - exists (configure l). rewrite data_set_data. split; [done|]. apply rtc_once, patch_configure.
  - destruct t as [l'|]; [|done]. exists l'. rewrite data_set_data. split; [done|by apply rtc_once].
Qed.

Lemma patches_inspect : patches_only _ (InspectContainer server).
Proof using Type.
  intros m x m' l Hl Hm. destruct (looks_keeps _ (InspectContainer server) m x m' I Hm) as (-> & -> & ->).
  split_and!; [done..|by exists l].
Qed.

Lemma guard_workload {B} (e : NodeEff error) (k : N (reply B)) w0 w : holds_data w0 w -> patches_only _ e ->
  (forall w1, holds_data w0 w1 -> on_data w0 k (fun _ => holds_data w0) w1) ->
  on_data w0 (guard (request e) k) (fun _ => holds_data w0) w.
Proof using urls_differ.
  intros Hw He Hk. unfold guard. apply T_workload; [done|done|]. intros [msg|] w1 Hw1; [exact Hw1|by apply Hk].
Qed.

Lemma create_T w0 w : holds_data w0 w -> on_data w0 (createWorkload server) (fun _ => holds_data w0) w.
Proof using urls_differ.
  intros Hw. unfold createWorkload. apply guard_workload; [done|apply patches_make|]. intros w1 Hw1.
  by apply guard_workload; [|apply patches_create|].
Qed.

Lemma sync_T w0 w : holds_data w0 w -> on_data w0 (syncWorkload server) (fun _ => holds_data w0) w.
Proof using urls_differ. intros Hw. by apply guard_workload; [|apply patches_apply|]. Qed.

Lemma inspect_T w0 w : holds_data w0 w -> on_data w0 (inspectWorkload server) (fun _ => holds_data w0) w.
Proof using urls_differ.
  intros Hw. unfold inspectWorkload, value. apply T_workload; [done|apply patches_inspect|].
  intros [x|e] w1 Hw1; exact Hw1.
Qed.

(** ** Handlers by their requests *)

Notation node_at := (node_step node_url id server).
Notation local_at := (local_step node_url id server).

Lemma holds_own {A} url I (p : N A) Q w : only own p -> holds (local_at url) I p Q w -> holds (node_at url) I p Q w.
Proof using Type.
  revert w. induction p as [a|X e k IH]; intros w Ho H; [exact H|]. destruct Ho as [He Ho].
  intros x w1 Hs. destruct (H x w1) as [H1 H2]; [by destruct e|]. split; [exact H1|]. by apply IH.
Qed.

Lemma set_container_keeps s c m : (c = Some true -> mc_containers m !! s = Some true) ->
  mc_containers m !! server <> Some true -> mc_containers (set_container s c m) !! server <> Some true.
Proof using Type.
  intros H Hn. destruct (decide (s = server)) as [->|Hs]; intros E.
  - rewrite container_set_container in E. by apply Hn, H.
  - apply Hn. rewrite <- E. symmetry. by apply lookup_partial_alter_ne.
Qed.

Lemma unstarted_keeps X (e : NodeEff X) m x m' : unstarted X e -> may X e m x m' ->
  mc_containers m !! server <> Some true -> mc_containers m' !! server <> Some true.
Proof using Type.
  intros Hl [Hp|Hf] Hn; destruct e; try done; cbn in *;
    repeat match goal with
    | H : context [match ?o with Some _ => _ | None => _ end] |- _ => destruct o eqn:?
    | H : context [match ?o with Ok _ => _ | Err _ => _ end] |- _ => destruct o eqn:?
    | H : (_, _) = (_, _) |- _ => injection H as -> ->
    | H : unread _ _ _ |- _ => destruct H as [_ ->]
    | H : _ /\ _ |- _ => destruct H
    | H : exists _, _ |- _ => destruct H
    | H : lost _ _ _ _ |- _ => destruct H as [_ [->| ->]]
    | H : _ \/ _ |- _ => destruct H
    end; subst; try done; apply set_container_keeps; try exact Hn;
    match goal with |- _ -> ?o = _ => by destruct o as [[|]|] end.
Qed.

(** *** Until the commit, without the promises of the transfer *)

Lemma node_local url X (e : NodeEff X) w x w' : own X e -> node_at url X e w x w' -> local_at url X e w x w'.
Proof using Type. by destruct e. Qed.

Lemma before_T w m : before w -> mc_containers m !! server <> Some true -> before (set_machine T_url m w).
Proof using urls_differ.
  intros [H1 H2 H3 H4 H5 H6 H7] Hc. assert (ES : machine S_url (set_machine T_url m w) = machine S_url w) by (by apply machine_set_ne).
  split; [done..| | | |]; unfold data_at, dir_at; rewrite ?ES; [done..|].
  intros url Hu. unfold stopped. destruct (decide (url = T_url)) as [->|Hn]; [by rewrite machine_set|].
  rewrite machine_set_ne by done. by apply H7.
Qed.

Lemma T_unstarted {A} (p : N A) w : only unstarted p -> before w -> holds (node_at T_url) before p (fun _ => before) w.
Proof using urls_differ.
  apply holds_only. intros X e w1 x w2 He Hb Hs. apply node_local in Hs; [|by apply unstarted_own].
  destruct Hs as (wa & m' & Henv & Hm & ->). assert (Hba := before_envs _ _ Hb Henv).
  apply before_T; [done|]. eapply unstarted_keeps; [exact He|exact Hm|]. by apply (bf_stopped _ Hba).
Qed.

Lemma before_S w m : before w -> mc_data m !! server = Some (nt_latest w) -> bound (dir id m) ->
  td_meta (dir id m) !! DirectionDestinationUpload = None -> before (set_machine S_url m w).
Proof using urls_differ.
  intros [H1 H2 H3 H4 H5 H6 H7] Hd Hb Hn. split; [done..| | | |]; unfold data_at, dir_at; rewrite ?machine_set; [done..|].
  intros url Hu. unfold stopped. rewrite machine_set_ne by done. by apply H7.
Qed.

(** A request at the source that leaves the data alone. *)
Lemma S_step {X A} (e : NodeEff X) (k : X -> N A) (Q : A -> Net -> Prop) w :
  before w -> own X e ->
  (forall m x m', bound (dir id m) -> td_meta (dir id m) !! DirectionDestinationUpload = None -> may X e m x m' ->
     mc_data m' !! server = mc_data m !! server /\ bound (dir id m') /\
     td_meta (dir id m') !! DirectionDestinationUpload = None /\
     forall w1, before w1 -> holds (node_at S_url) before (k x) Q w1) ->
  holds (node_at S_url) before (Vis e k) Q w.
Proof using urls_differ.
  intros Hb He H x w1 Hs. apply node_local in Hs; [|done]. destruct Hs as (wa & m' & Henv & Hm & ->).
  assert (Hba := before_envs _ _ Hb Henv).
  destruct (H _ _ _ (bf_bound _ Hba) (bf_source _ Hba) Hm) as (H1 & H2 & H3 & H4).
  assert (before (set_machine S_url m' wa)); [|by split; [|apply H4]].
  apply before_S; [done| |done|done]. rewrite H1. apply (bf_data _ Hba).
Qed.

Lemma S_look {X A} (e : NodeEff X) (k : X -> N A) (Q : A -> Net -> Prop) w :
  before w -> own X e -> looks X e ->
  (forall m x m' w1, bound (dir id m) -> td_meta (dir id m) !! DirectionDestinationUpload = None -> may X e m x m' ->
     before w1 -> holds (node_at S_url) before (k x) Q w1) ->
  holds (node_at S_url) before (Vis e k) Q w.
Proof using urls_differ.
  intros Hb He Hl H. apply S_step; [done|done|]. intros m x m' H1 H2 Hm.
  destruct (looks_keeps X e m x m' Hl Hm) as (E1 & E2 & _). rewrite E1, E2. split_and!; [done..|]. intros w1. by eapply H.
Qed.

Ltac peek Hb := eapply S_look; [exact Hb|exact I|exact I|].

(** Metadata of the source. *)
Definition of_source (m : Metadata) : Prop :=
  x_MigrationID m = id /\ x_Direction m = DirectionSourceControl /\ x_ServerID m = server.

Lemma bound_meta d m : bound d -> of_source m -> td_meta d !! DirectionDestinationUpload = None ->
  let d' := d <| td_meta := <[DirectionSourceControl := m]> (td_meta d) |> in
  bound d' /\ td_meta d' !! DirectionDestinationUpload = None.
Proof using Type.
  intros Hb (E1 & E2 & E3) Hn. unfold bound. rewrite td_meta_set. split.
  - intros direction m' [[<- <-]|[_ Hm]]%lookup_insert_Some; [done|by apply Hb].
  - by rewrite lookup_insert_ne.
Qed.

Lemma S_save {A} (m : Metadata) (k : error -> N A) (Q : A -> Net -> Prop) w : before w -> of_source m ->
  (forall e w1, before w1 -> holds (node_at S_url) before (k e) Q w1) ->
  holds (node_at S_url) before (pbind (save m) k) Q w.
Proof using urls_differ.
  intros Hb Hm Hk. unfold save. branch; [by apply Hk|]. destruct (validateMetadata m); cbn [pbind]; [by apply Hk|].
  apply S_step; [done|done|]. intros mm x m' H1 H2 Hs.
  assert (E : m' = mm \/ m' = set_dir id ((dir id mm) <| td_meta := <[DirectionSourceControl := m]> (td_meta (dir id mm)) |>) mm).
  { destruct Hm as (E1 & E2 & _). destruct Hs as [[= -> ->]|([msg ->] & [->| ->])]; cbn [perform snd];
      rewrite ?E1, ?E2; by auto. }
  destruct E as [->| ->]; [by split_and!; auto|]. rewrite data_set_dir, dir_set_dir.
  destruct (bound_meta _ m H1 Hm H2). by split_and!; auto.
Qed.

Lemma S_load {A} (k : result (option Metadata) -> N A) direction (Q : A -> Net -> Prop) w : before w ->
  (forall r w1, before w1 ->
     match r with Ok (Some m) => direction = DirectionSourceControl -> of_source m | _ => True end ->
     (direction = DirectionDestinationUpload -> match r with Ok (Some _) => False | _ => True end) ->
     holds (node_at S_url) before (k r) Q w1) ->
  holds (node_at S_url) before (pbind (load id direction) k) Q w.
Proof using urls_differ.
  intros Hb Hk. unfold load. branch; [by apply Hk|]. peek Hb. intros m x m' w1 H1 H2 Hm Hb1.
  apply Hk; [done| |].
  - destruct x as [[meta|]|]; try done. intros ->. destruct Hm as [[= Hm _]|[[? ?] _]]; [|done].
    by destruct (H1 _ _ (eq_sym Hm)) as (? & ? & ?).
  - intros ->. destruct x as [[meta|]|]; try done. destruct Hm as [[= Hm _]|[[? ?] _]]; [|done]. congruence.
Qed.

Ltac fork := match goal with |- context [if negb ?b then _ else _] => destruct (negb b) end.

Lemma S_authorize {A} credential direction (k : reply Metadata -> N A) (Q : A -> Net -> Prop) w : before w ->
  (forall r w1, before w1 -> holds (node_at S_url) before (k r) Q w1) ->
  holds (node_at S_url) before (pbind (authorizeLocked id direction credential) k) Q w.
Proof using urls_differ.
  intros Hb Hk. unfold authorizeLocked, load. fork; [cbn [pbind]; by apply Hk|].
  peek Hb. intros m x m' w1 H1 H2 Hm Hb1. cbv beta.
  destruct x as [[meta|]|e]; cbv beta iota; [|cbn [pbind]; by apply Hk..].
  destruct (validateMetadata meta); cbv beta iota; [cbn [pbind]; by apply Hk|].
  fork; [cbn [pbind]; by apply Hk|].
  destruct (x_ConsumedAt meta); cbv beta iota; [cbn [pbind]; by apply Hk|].
  peek Hb1. intros m1 now m2 w2 _ _ _ Hb2. cbv beta.
  fork; [cbn [pbind]; by apply Hk|]. fork; cbn [pbind]; by apply Hk.
Qed.

Lemma cancel_direction_S direction w : before w -> validDirection direction = true ->
  holds (node_at S_url) before (cancel_direction id direction)
    (fun r w1 => before w1 /\ (direction = DirectionDestinationUpload -> r = None)) w.
Proof using urls_differ.
  intros Hb Hv. unfold cancel_direction. apply S_load; [done|]. intros r w1 Hb1 Hsrc Hdst.
  destruct r as [[meta|]|e]; [|done..].
  branch; [|done]. peek Hb1. intros m now m' w2 _ _ _ Hb2. cbv beta.
  apply orb_true_iff in Hv as [Hd|Hd]; apply String.eqb_eq in Hd; [|by destruct (Hdst Hd)].
  eapply S_save; [done|by apply (Hsrc Hd)|]. intros e w3 Hb3. split; [done|]. by rewrite Hd.
Qed.

Lemma remove_transfer_S w : before w -> holds (node_at S_url) before (request (RemoveTransfer id)) (fun _ => before) w.
Proof using urls_differ.
  intros Hb. apply S_step; [done|done|]. intros m1 x m2 H1 H2 Hm.
  assert (E : exists d, m2 = set_dir id d m1 /\ td_meta d ⊆ td_meta (dir id m1)).
  { destruct Hm as [[= _ ->]|(d & [Hd _] & ->)]; [exists no_dir|by exists d]. split; [done|]. apply map_empty_subseteq. }
  destruct E as (d & -> & Hd). rewrite data_set_dir, dir_set_dir. split_and!; [done| | |by intros w5].
  - intros direction md Hmd. apply H1. by eapply lookup_weaken.
  - destruct (td_meta d !! DirectionDestinationUpload) eqn:E; [|done]. by rewrite (lookup_weaken _ _ _ _ E Hd) in H2.
Qed.

Lemma engine_cancel_S w : before w -> holds (node_at S_url) before (Cancel id) (fun _ => before) w.
Proof using urls_differ.
  intros Hb. unfold Cancel. branch; [done|]. peek Hb. intros m [] m' w2 _ _ _ Hb2. cbv beta.
  apply holds_bind. eapply holds_post; [by apply cancel_direction_S|]. intros r w3 [Hb3 _].
  apply holds_bind. eapply holds_post; [by apply cancel_direction_S|]. intros r' w4 [Hb4 Hr]. rewrite Hr by done.
  unfold rbind. cbn [roll_back pbind done]. apply holds_bind. eapply holds_post; [by apply remove_transfer_S|done].
Qed.

Lemma cancel_S credential w : before w ->
  holds (node_at S_url) before (cancelProtocolTransfer id credential) (fun _ => before) w.
Proof using urls_differ.
  intros Hb. unfold cancelProtocolTransfer, with_id, Authorize. branch; [done|].
  assert (Hc : forall w1, before w1 -> holds (node_at S_url) before (Cancel id ;;/ done tt) (fun _ => before) w1).
  { intros w1 Hb1. apply holds_bind. eapply holds_post; [by apply engine_cancel_S|done]. }
  apply S_authorize; [done|]. intros [meta|e] w1 Hb1; [by apply Hc|].
  apply S_authorize; [done|]. intros [meta|e'] w2 Hb2; [by apply Hc|done].
Qed.

Lemma start_S w : before w -> holds (node_at S_url) before (startWorkload server) (fun _ => before) w.
Proof using urls_differ.
  intros Hb. unfold startWorkload, guard. apply S_step; [done|done|]. intros m x m' H1 H2 Hm.
  assert (E : exists c, m' = set_container server c m).
  { destruct Hm as [[= _ ->]|([msg _] & [->| ->])]; [by eexists| |by eexists].
    exists (mc_containers m !! server). destruct m as [n ds dt cs ac]. unfold set_container. cbn.
    f_equal. by rewrite partial_alter_self. }
  destruct E as [c ->]. split_and!; [done..|]. intros w1 Hb1. by destruct x.
Qed.

Lemma register_S reg w : before w -> claims_of (rg_Claims reg) DirectionSourceControl ->
  holds (node_at S_url) before (registerTransferCredential reg) (fun _ => before) w.
Proof using urls_differ.
  intros Hb (E1 & E2 & E3). unfold registerTransferCredential, Register, value, guard.
  destruct (validateClaims (rg_Claims reg)); [done|]. peek Hb. intros m now m' w1 _ _ _ Hb1. cbv beta.
  do 2 (branch; [done|]). rewrite E1, E3. apply S_load; [done|]. intros r w2 Hb2 Hsrc _.
  destruct r as [[meta|]|e]; [| |done].
  - branch; [done|]. peek Hb2. intros m1 now' m2 w3 _ _ _ Hb3. cbv beta.
    eapply S_save; [done|by apply Hsrc|]. intros [e|] w4 Hb4; done.
  - peek Hb2. intros m1 now' m2 w3 _ _ _ Hb3. cbv beta.
    eapply S_save; [done|by split_and!|]. intros [e|] w4 Hb4; done.
Qed.

Lemma register_T_before reg w : before w ->
  holds (node_at T_url) before (registerTransferCredential reg) (fun _ => before) w.
Proof using urls_differ.
  apply T_unstarted. eapply only_mono; [exact files_unstarted|apply register_requests].
Qed.

(** *** After the commit *)

Lemma committed_S {A} (p : N A) w : only unstarted p -> committed w ->
  holds (node_at S_url) committed p (fun _ => committed) w.
Proof using urls_differ.
  apply holds_only. intros X e w1 x w2 He Hc Hs. apply node_local in Hs; [|by apply unstarted_own].
  destruct Hs as (wa & m' & Henv & Hm & ->). destruct (committed_envs _ _ Hc Henv) as [H1 H2 H3 H4 H5].
  split; [done..| |].
  - intros url Hu. unfold stopped. destruct (decide (S_url = url)) as [<-|Hn].
    + rewrite machine_set. eapply unstarted_keeps; [exact He|exact Hm|by apply H4].
    + rewrite machine_set_ne by done. by apply H4.
  - unfold data_at. by rewrite machine_set_ne.
Qed.

Lemma files_keep X (e : NodeEff X) m x m' : files_only X e -> may X e m x m' ->
  mc_data m' = mc_data m /\ mc_containers m' = mc_containers m.
Proof using Type.
  intros Hl [Hp|Hf]; destruct e; try done; cbn in *;
    repeat match goal with
    | H : (_, _) = (_, _) |- _ => injection H as -> ->
    | H : unread _ _ _ |- _ => destruct H as [_ ->]
    | H : _ /\ _ |- _ => destruct H
    | H : exists _, _ |- _ => destruct H
    | H : lost _ _ _ _ |- _ => destruct H as [_ [->| ->]]
    end; subst; done.
Qed.

Lemma committed_T {A} (p : N A) w : only files_only p -> committed w ->
  holds (node_at T_url) committed p (fun _ => committed) w.
Proof using urls_differ.
  apply holds_only. intros X e w1 x w2 He Hc Hs. apply node_local in Hs; [|by apply files_own].
  destruct Hs as (wa & m' & Henv & Hm & ->). destruct (committed_envs _ _ Hc Henv) as [H1 H2 H3 H4 H5].
  destruct (files_keep X e _ _ _ He Hm) as [E1 E2]. split; [done..| |].
  - intros url Hu. unfold stopped. rewrite machine_set_ne by done. by apply H4.
  - unfold data_at. by rewrite machine_set, E1.
Qed.

(** ** What the source does *)

(** On the way of a handler at the source: the transfer's directory is [d];
    with [l] the workload is stopped and has written [l] last. *)
Definition on_S (w0 : Net) (d : TransferDir) (l : option Tree) (w : Net) : Prop :=
  live w /\ run_of w = run_of w0 /\ dir_at S_url w = d /\
  match l with Some l => stopped S_url w /\ nt_latest w = l | None => True end.

Lemma fits_imp w w' d t : run_of w' = run_of w ->
  (forall a, archived w a -> archived w' a /\ nt_latest w' = nt_latest w) -> fits w d t -> fits w' d t.
Proof using Type.
  intros Hr Hi [H1 H2 H3 H4 H5].
  assert (Harr : forall t, arrived w t -> arrived w' t).
  { intros t0 [[a Ha] Ht]. destruct (Hi a Ha) as [Ha' El]. split; [by exists a|by rewrite El]. }
  split; [done| | | |].
  - intros md Hm Hc. destruct (H2 md Hm Hc) as (a & Ha & E). exists a. split; [by apply Hi|done].
  - intros md Hm Hc. destruct (H3 md Hm Hc) as (a & Ha & E). exists a. split; [by apply Hi|done].
  - intros md Hm Hc. by eapply Harr, H4.
  - unfold Network.phase_of. rewrite Hr. intros Ho. by apply Harr, H5.
Qed.

Definition meta_of (d : TransferDir) : option Metadata := td_meta d !! DirectionSourceControl.

Lemma live_S w m : live w -> mc_data m !! server = mc_data (machine S_url w) !! server ->
  bound (dir id m) -> td_meta (dir id m) !! DirectionDestinationUpload = None ->
  (forall ms, meta_of (dir id m) = Some ms -> x_Phase ms <> "uploading" /\ x_Phase ms <> "uploaded") ->
  (forall a, archived w a -> archived (set_machine S_url m w) a) ->
  (forall ms, meta_of (dir id m) = Some ms -> x_Phase ms = "archived" -> exists a, archived (set_machine S_url m w) a) ->
  live (set_machine S_url m w).
Proof using urls_differ.
  intros [Hb Ho Hs Hp Hf] Hd Hbd Hn Hph Ha Har. split.
  - apply before_S; [done| |done|done]. rewrite Hd. apply (bf_data _ Hb).
  - done.
  - intros ms. unfold source_meta, dir_at. rewrite machine_set. apply Har.
  - intros ms. unfold source_meta, dir_at. rewrite machine_set. apply Hph.
  - unfold dir_at, data_at. rewrite machine_set_ne by done.
    eapply (fits_imp w); [done|by intros a H; split; [apply Ha|]|done].
Qed.

Lemma on_S_envs w0 d l w w' : on_S w0 d l w -> rtc env w w' -> on_S w0 d l w'.
Proof using urls_differ.
  intros (Hl & Hr & Hd & Hst) H. destruct (live_envs _ _ Hl H) as (Hl' & Hs & _). split_and!; [done| | |].
  - by rewrite (st_run _ _ Hs).
  - by rewrite (st_dir _ _ Hs).
  - destruct l as [l|]; [|done]. destruct Hst as [H1 H2]. destruct (st_stopped _ _ Hs H1) as (H3 & H4 & _).
    by rewrite H4.
Qed.

Definition same_run (w0 : Net) (w : Net) : Prop := live w /\ run_of w = run_of w0.

Notation on_source w0 := (holds (node_at S_url) (same_run w0)).

Lemma on_S_run w0 d l w : on_S w0 d l w -> same_run w0 w.
Proof using Type. intros (H1 & H2 & _). by split. Qed.

Lemma onS_step {X A} (e : NodeEff X) (k : X -> N A) (Q : A -> Net -> Prop) w0 d l w : on_S w0 d l w -> own X e ->
  (forall wa x m', on_S w0 d l wa -> may X e (machine S_url wa) x m' ->
     same_run w0 (set_machine S_url m' wa) /\ on_source w0 (k x) Q (set_machine S_url m' wa)) ->
  on_source w0 (Vis e k) Q w.
Proof using urls_differ.
  intros Hw He H x w1 Hs. apply node_local in Hs; [|done]. destruct Hs as (wa & m' & Henv & Hm & ->).
  apply H; [by eapply on_S_envs|done].
Qed.

(** What the files of the source say when the workload wrote [l]. *)
Record archive_in (d : TransferDir) (l : Tree) (a : Bytes) : Prop := {
  ai_meta : exists ms, meta_of d = Some ms /\ x_Phase ms = "archived" /\ x_Checksum ms = digest a;
  ai_file : td_archive d = Some a;
  ai_pack : pack l = Ok a
}.

Lemma archived_in w a : archived w a <-> archive_in (dir_at S_url w) (nt_latest w) a /\ stopped S_url w.
Proof using Type. split; [by intros []; split|]. intros [[] ?]. by split. Qed.

(** A change of the source that keeps the data. *)
Lemma onS_change w0 d l w m d' :
  on_S w0 d l w -> mc_data m !! server = mc_data (machine S_url w) !! server ->
  (mc_containers (machine S_url w) !! server <> Some true -> mc_containers m !! server <> Some true) ->
  dir id m = d' -> bound d' -> td_meta d' !! DirectionDestinationUpload = None ->
  (forall ms, meta_of d' = Some ms -> x_Phase ms <> "uploading" /\ x_Phase ms <> "uploaded") ->
  (forall l a, archive_in d l a -> archive_in d' l a) ->
  (forall ms, meta_of d' = Some ms -> x_Phase ms = "archived" ->
     (exists a, archived w a) \/ exists l' a, l = Some l' /\ archive_in d' l' a) ->
  on_S w0 d' l (set_machine S_url m w).
Proof using urls_differ.
  intros (Hl & Hr & Hd & Hst) Hdata Hc Hd' Hb Hn Hph Hk Ha. set (w1 := set_machine S_url m w).
  assert (Hs1 : stopped S_url w -> stopped S_url w1) by (unfold stopped, w1; rewrite machine_set; exact Hc).
  assert (Hin : forall a, archived w a -> archived w1 a).
  { intros a [H1 H2]%archived_in. apply archived_in. split; [|by apply Hs1]. unfold dir_at, w1.
    rewrite machine_set, Hd'. apply Hk. by rewrite <- Hd. }
  split_and!; [|done|unfold dir_at, w1; by rewrite machine_set|].
  - apply live_S; rewrite ?Hd'; try done. intros ms Hm Hp. destruct (Ha ms Hm Hp) as [[a Har]|(l' & a & -> & Hai)].
    + exists a. by apply Hin.
    + destruct Hst as [Hst El]. exists a. apply archived_in. split; [|by apply Hs1]. unfold dir_at, w1.
      rewrite machine_set, Hd'. change (nt_latest (set_machine S_url m w)) with (nt_latest w). by rewrite El.
  - destruct l as [l|]; [|done]. destruct Hst as [Hst El]. split; [by apply Hs1|done].
Qed.

Lemma on_S_files w0 d l w : on_S w0 d l w -> bound d /\ td_meta d !! DirectionDestinationUpload = None /\
  (forall ms, meta_of d = Some ms -> x_Phase ms <> "uploading" /\ x_Phase ms <> "uploaded") /\
  (forall ms, meta_of d = Some ms -> x_Phase ms = "archived" -> exists a, archived w a).
Proof using Type.
  intros ([Hb _ Hs Hp _] & _ & <- & _). split_and!; [apply (bf_bound _ Hb)|apply (bf_source _ Hb)|exact Hp|exact Hs].
Qed.

Lemma onS_same w0 d l w m : on_S w0 d l w -> mc_data m !! server = mc_data (machine S_url w) !! server ->
  (mc_containers (machine S_url w) !! server <> Some true -> mc_containers m !! server <> Some true) ->
  dir id m = d -> on_S w0 d l (set_machine S_url m w).
Proof using urls_differ.
  intros Hw Hdata Hc Hd. destruct (on_S_files _ _ _ _ Hw) as (H1 & H2 & H3 & H4).
  eapply onS_change; try done. intros ms Hm Hp. left. by eapply H4.
Qed.

Lemma onS_look {X A} (e : NodeEff X) (k : X -> N A) (Q : A -> Net -> Prop) w0 d l w :
  on_S w0 d l w -> own X e -> looks X e ->
  (forall wa x m', on_S w0 d l wa -> may X e (machine S_url wa) x m' -> on_S w0 d l (set_machine S_url m' wa) ->
     on_source w0 (k x) Q (set_machine S_url m' wa)) ->
  on_source w0 (Vis e k) Q w.
Proof using urls_differ.
  intros Hw He Hl H. eapply onS_step; [exact Hw|done|]. intros wa x m' Hwa Hm.
  destruct (looks_keeps X e _ x m' Hl Hm) as (E1 & E2 & E3).
  assert (Hw1 : on_S w0 d l (set_machine S_url m' wa)).
  { apply onS_same; [done|by rewrite E2|by rewrite E3|]. rewrite E1. apply Hwa. }
  split; [by eapply on_S_run|by eapply H].
Qed.

Ltac watch Hw := eapply onS_look; [exact Hw|exact I|exact I|].

Lemma onS_save {A} (m : Metadata) (k : error -> N A) (Q : A -> Net -> Prop) w0 d l w :
  on_S w0 d l w -> of_source m -> x_Phase m <> "uploading" -> x_Phase m <> "uploaded" ->
  let d' := d <| td_meta := <[DirectionSourceControl := m]> (td_meta d) |> in
  (forall l a, archive_in d l a -> archive_in d' l a) ->
  (x_Phase m = "archived" -> (exists ms, meta_of d = Some ms /\ x_Phase ms = "archived") \/
                             exists l' a, l = Some l' /\ archive_in d' l' a) ->
  (forall e d1 w1, on_S w0 d1 l w1 -> (e = None -> d1 = d') -> d1 = d \/ d1 = d' -> on_source w0 (k e) Q w1) ->
  on_source w0 (pbind (save m) k) Q w.
Proof using urls_differ.
  intros Hw Hm Hp1 Hp2 d' Hk Ha Hc. unfold save.
  destruct (negb _); cbn [pbind]; [apply (Hc _ d); [done|done|by left]|].
  destruct (validateMetadata m); cbn [pbind]; [apply (Hc _ d); [done|done|by left]|].
  eapply onS_step; [exact Hw|done|]. intros wa x m' Hwa Hs.
  destruct (on_S_files _ _ _ _ Hwa) as (H1 & H2 & H3 & H4).
  assert (Hd : dir id (machine S_url wa) = d) by apply Hwa.
  assert (E : (m' = machine S_url wa /\ x <> None) \/ m' = set_dir id d' (machine S_url wa)).
  { destruct Hm as (E1 & E2 & _). destruct Hs as [[= -> ->]|([msg ->] & [->| ->])]; cbn [perform snd];
      rewrite ?E1, ?E2, ?Hd; by auto. }
  assert (Hnew : on_S w0 d' l (set_machine S_url (set_dir id d' (machine S_url wa)) wa)).
  { destruct (bound_meta d m H1 Hm H2) as [Hb Hn].
    eapply onS_change; [exact Hwa|by rewrite data_set_dir|by rewrite containers_set_dir|by apply dir_set_dir|done|done| |done|].
    - unfold meta_of, d'. rewrite td_meta_set. intros ms Hms. rewrite lookup_insert_eq in Hms. by injection Hms as <-.
    - unfold meta_of at 1, d' at 1. rewrite td_meta_set. intros ms Hms Hp. rewrite lookup_insert_eq in Hms. injection Hms as <-.
      destruct (Ha Hp) as [(ms & Hms & Hp')|H]; [left; by eapply H4|by right]. }
  destruct E as [[-> Hx]| ->].
  - assert (Hsame : on_S w0 d l (set_machine S_url (machine S_url wa) wa)) by (by apply onS_same).
    split; [by eapply on_S_run|]. apply (Hc _ d); [done|done|by left].
  - split; [by eapply on_S_run|]. apply (Hc _ d'); [done|done|by right].
Qed.

Lemma onS_end {A} w0 d l w (a : A) : on_S w0 d l w -> on_source w0 (Ret a) (fun _ => same_run w0) w.
Proof using Type. intros (H1 & H2 & _). by split. Qed.

Lemma onS_authorize {A} credential (k : reply Metadata -> N A) (Q : A -> Net -> Prop) w0 d l w :
  on_S w0 d l w ->
  (forall meta w1, on_S w0 d l w1 -> meta_of d = Some meta -> of_source meta -> on_source w0 (k (Done meta)) Q w1) ->
  (forall e w1, on_S w0 d l w1 -> on_source w0 (k (Refused e)) Q w1) ->
  on_source w0 (pbind (authorizeLocked id DirectionSourceControl credential) k) Q w.
Proof using urls_differ.
  intros Hw Hk Hr. unfold authorizeLocked, load.
  destruct (safeID id && validDirection DirectionSourceControl); cbn [negb pbind]; [|by apply Hr].
  watch Hw. intros wa x m' Hwa Hm Hw1. cbn beta.
  destruct x as [[meta|]|e]; cbn [pbind]; [|by apply Hr..].
  destruct (validateMetadata meta); cbn [pbind]; [by apply Hr|].
  destruct (negb _); cbn [pbind]; [by apply Hr|].
  destruct (x_ConsumedAt meta); cbn [pbind]; [by apply Hr|].
  watch Hw1. intros wb now m2 _ _ Hw2.
  destruct (negb _); cbn [pbind]; [by apply Hr|]. destruct (negb _); cbn [pbind]; [by apply Hr|].
  assert (Hmeta : meta_of d = Some meta).
  { destruct Hwa as (_ & _ & Hd & _). destruct Hm as [[= Hm _]|[[? ?] _]]; [|done]. by rewrite <- Hd. }
  apply Hk; [done|done|]. destruct (on_S_files _ _ _ _ Hw2) as (Hb & _). exact (Hb _ _ Hmeta).
Qed.

(** New metadata of an archive that was not there. *)
Lemma no_archive d d' l a meta : meta_of d = Some meta -> x_Phase meta <> "archived" -> archive_in d l a -> archive_in d' l a.
Proof using Type. intros Hm Hp [(ms & Hms & Hp' & _) _ _]. congruence. Qed.

Definition end_archive (meta : Metadata) (r : result (string * Z)) : N (reply Metadata) :=
  request (SetActive id false) ;;/
  let^ now := request Now in
  match r with
  | Err msg => save_and_refuse (at_phase "failed" msg now meta) (ErrOther msg)
  | Ok (checksum, size) =>
      let meta := at_phase "archived" "" now meta <| x_Checksum := checksum |>
                    <| x_ArchiveSize := size |> <| x_Offset := 0 |> in
      guard (save meta) (done meta)
  end.

Lemma end_archive_S w0 d l w meta r : on_S w0 d (Some l) w -> of_source meta ->
  (exists m, meta_of d = Some m /\ x_Phase m <> "archived") ->
  match r with Ok (checksum, _) => exists a, td_archive d = Some a /\ pack l = Ok a /\ checksum = digest a | Err _ => True end ->
  on_source w0 (end_archive meta r) (fun _ => same_run w0) w.
Proof using urls_differ.
  intros Hw Hm (m0 & Hm0 & Hp0) Hr. unfold end_archive. watch Hw. intros wa [] m1 _ _ Hw1. cbn beta.
  watch Hw1. intros wb now m2 _ _ Hw2. cbn beta. destruct r as [[checksum size]|msg].
  - destruct Hr as (a & Ha & Hp & ->). unfold guard.
    eapply onS_save; [exact Hw2|exact Hm|done|done|intros l' a'; by eapply no_archive| |].
    + intros _. right. exists l, a. split; [done|]. split; [|done..]. eexists. unfold meta_of. rewrite td_meta_set, lookup_insert_eq.
      by split_and!.
    + intros [e|] d1 w3 Hw3 _ _; by eapply onS_end.
  - unfold save_and_refuse. eapply onS_save; [exact Hw2|exact Hm|done|done|intros l' a'; by eapply no_archive|done|].
    intros e d1 w3 Hw3 _ _. by eapply onS_end.
Qed.

(** The archive is what the workload, stopped, has written. *)
Lemma archive_S w0 d l w meta : on_S w0 d (Some l) w -> of_source meta ->
  (exists m, meta_of d = Some m /\ x_Phase m <> "archived") ->
  on_source w0 (pbind (request (MakeArchive id server)) (end_archive meta)) (fun _ => same_run w0) w.
Proof using urls_differ.
  intros Hw Hm (m0 & Hm0 & Hp0). eapply onS_step; [exact Hw|done|]. intros wa x m' Hwa Hs.
  assert (Hd : dir id (machine S_url wa) = d) by apply Hwa.
  assert (Hdata : mc_data (machine S_url wa) !! server = Some l).
  { destruct Hwa as (Hl & _ & _ & _ & <-). apply (bf_data _ (lv_before _ Hl)). }
  assert (E : exists o, dir id m' = d <| td_archive := o |> /\ mc_data m' = mc_data (machine S_url wa) /\
     mc_containers m' = mc_containers (machine S_url wa) /\
     match x with Ok (checksum, _) => exists a, o = Some a /\ pack l = Ok a /\ checksum = digest a | Err _ => True end).
  { destruct Hs as [Hs|([msg ->] & o & ->)]; [|by exists o; rewrite dir_set_dir, Hd]. cbn in Hs. rewrite Hdata, Hd in Hs.
    destruct (pack l) as [a|e] eqn:Ep; injection Hs as -> ->.
    - exists (Some a). rewrite dir_set_dir. split_and!; [done..|]. by exists a.
    - exists (td_archive d). rewrite Hd. split_and!; [by destruct d|done..]. }
  destruct E as (o & E1 & E2 & E3 & E4). destruct (on_S_files _ _ _ _ Hwa) as (H1 & H2 & H3 & H4).
  assert (Hw1 : on_S w0 (d <| td_archive := o |>) (Some l) (set_machine S_url m' wa)).
  { eapply onS_change; [exact Hwa|by rewrite E2|by rewrite E3|exact E1|exact H1|exact H2|exact H3| |].
    - intros l' a'. by eapply no_archive.
    - intros ms Hms Hp. change (meta_of d = Some ms) in Hms. congruence. }
  split; [by eapply on_S_run|]. eapply end_archive_S; [exact Hw1|exact Hm|by exists m0|].
  destruct x as [[checksum size]|]; [|done]. destruct E4 as (a & -> & Hp & Hc). by exists a.
Qed.

Lemma prepare_source_S credential w0 d l w : on_S w0 d (Some l) w ->
  on_source w0 (PrepareSource id credential) (fun _ => same_run w0) w.
Proof using urls_differ.
  intros Hw. unfold PrepareSource, rbind. branch; [by eapply onS_end|].
  eapply onS_authorize; [exact Hw| |intros; by eapply onS_end]. intros meta w1 Hw1 Hmeta Hm. cbv beta iota.
  destruct (on_S_files _ _ _ _ Hw1) as (_ & _ & H3 & _). branch; [by eapply onS_end|].
  apply orb_false_iff in Heqb0 as [Hp%String.eqb_neq _].
  watch Hw1. intros wa act m1 _ _ Hw2. cbn beta. destruct act; [by eapply onS_end|].
  watch Hw2. intros wb [] m2 _ _ Hw3. cbn beta. watch Hw3. intros wc now m3 _ _ Hw4. cbn beta.
  set (meta' := meta <| x_Phase := "archiving" |> <| x_UpdatedAt := now |>).
  eapply onS_save; [exact Hw4|exact Hm|done|done|intros l' a'; by eapply no_archive|done|].
  intros e d1 w5 Hw5 _ Hd1.
  assert (Hno : exists m, meta_of d1 = Some m /\ x_Phase m <> "archived").
  { destruct Hd1 as [->| ->]; [by exists meta|]. exists meta'. unfold meta_of. by rewrite td_meta_set, lookup_insert_eq. }
  destruct e as [msg|].
  - watch Hw5. intros wd [] m4 _ _ Hw6. by eapply onS_end.
  - branch; [by eapply onS_end|]. change (x_ServerID meta') with (x_ServerID meta).
    destruct Hm as (E1 & E2 & E3). rewrite E3. by eapply archive_S.
Qed.

Lemma onS_stopped w0 d w : on_S w0 d None w -> stopped S_url w -> on_S w0 d (Some (nt_latest w)) w.
Proof using Type. intros (H1 & H2 & H3 & _) Hs. by split_and!. Qed.

Lemma prepare_S credential w : live w ->
  on_source w (prepareTransferSource id credential) (fun _ => same_run w) w.
Proof using urls_differ.
  intros Hl. assert (Hw : on_S w (dir_at S_url w) None w) by (by split_and!).
  unfold prepareTransferSource, with_id, rbind, Authorize. branch; [by eapply onS_end|].
  eapply onS_authorize; [exact Hw| |intros; by eapply onS_end]. intros meta w1 Hw1 Hmeta (E1 & E2 & E3). cbv beta iota.
  branch; [by eapply onS_end|]. rewrite E3.
  watch Hw1. intros wa r m1 Hwa Hm Hw2. cbn beta. destruct r as [[ex running]|e]; [|by eapply onS_end].
  destruct ((ex : bool) && running) eqn:Er.
  - eapply onS_step; [exact Hw2|done|]. intros wb e m2 Hwb Hs.
    assert (E : m2 = machine S_url wb /\ e <> None \/
      m2 = set_container server ((fun _ => false) <$> mc_containers (machine S_url wb) !! server) (machine S_url wb)).
    { destruct Hs as [[= -> ->]|([msg ->] & [->| ->])]; [by right|by left|by right]. }
    assert (Hw3 : on_S w (dir_at S_url w) None (set_machine S_url m2 wb)).
    { apply onS_same; [done| | |].
      - by destruct E as [[-> _]| ->].
      - destruct E as [[-> _]| ->]; [done|]. apply set_container_keeps. by destruct (mc_containers _ !! server).
      - destruct E as [[-> _]| ->]; apply Hwb. }
    split; [by eapply on_S_run|]. destruct e as [msg|]; [by eapply onS_end|].
    eapply prepare_source_S, onS_stopped; [exact Hw3|]. destruct E as [[_ He]| ->]; [done|].
    unfold stopped. rewrite machine_set, container_set_container. by destruct (mc_containers _ !! server).
  - eapply prepare_source_S, onS_stopped; [exact Hw2|]. unfold stopped. rewrite machine_set.
    destruct Hm as [Hm|[[? ?] _]]; [|done]. injection Hm as -> -> ->. intros Hc. by rewrite Hc in Er.
Qed.

Lemma register_live_S reg w : live w -> claims_of (rg_Claims reg) DirectionSourceControl ->
  on_source w (registerTransferCredential reg) (fun _ => same_run w) w.
Proof using urls_differ.
  intros Hl (E1 & E2 & E3). assert (Hw : on_S w (dir_at S_url w) None w) by (by split_and!).
  set (d := dir_at S_url w) in *. unfold registerTransferCredential, Register, value, guard.
  destruct (validateClaims (rg_Claims reg)); [by eapply onS_end|]. watch Hw. intros wa now m1 _ _ Hw1. cbn beta.
  do 2 (branch; [by eapply onS_end|]). unfold load. rewrite E1, E3.
  branch; [by eapply onS_end|].
  watch Hw1. intros wb r m2 Hwb Hm Hw2. cbn beta.
  assert (Hr : match r with Ok o => o = meta_of d | Err _ => True end).
  { destruct Hwb as (_ & _ & Hd & _). destruct Hm as [[= -> _]|[[? ->] _]]; [|done]. by rewrite <- Hd. }
  destruct (on_S_files _ _ _ _ Hw2) as (Hb & _ & Hph & _). destruct r as [[meta|]|e]; [| |by eapply onS_end].
  - branch; [by eapply onS_end|]. watch Hw2. intros wc now' m3 _ _ Hw3. cbn beta. symmetry in Hr.
    eapply onS_save; [exact Hw3|exact (Hb _ _ Hr)|by apply (Hph _ Hr)..| | |].
    + intros l a [(ms & Hms & Hp & Hc) Hf Hpk]. split; [|done..]. unfold meta_of. rewrite td_meta_set, lookup_insert_eq.
      eexists. split; [done|]. rewrite Hr in Hms. by injection Hms as <-.
    + intros Hp. left. by exists meta.
    + intros [e|] d1 w4 Hw4 _ _; by eapply onS_end.
  - watch Hw2. intros wc now' m3 _ _ Hw3. cbn beta.
    eapply onS_save; [exact Hw3|by split_and!|done|done| |done|].
    + intros l a [(ms & Hms & _) _ _]. by rewrite <- Hr in Hms.
    + intros [e|] d1 w4 Hw4 _ _; by eapply onS_end.
Qed.

(** What the destination does during an upload. *)
Lemma on_S_still w0 d w w' : on_S w0 d None w -> live w' -> still w w' -> on_S w0 d None w'.
Proof using Type.
  intros (_ & Hr & Hd & _) Hl Hs. split_and!; [done| | |done].
  - by rewrite (st_run _ _ Hs). - by rewrite (st_dir _ _ Hs).
Qed.

Lemma T_runs {A} (p : N A) Q w o w' : live w -> holds (local_at T_url) live p Q w -> runs (local_at T_url) p w o w' ->
  live w' /\ still w w' /\ forall a, o = Some a -> Q a w'.
Proof using urls_differ.
  revert w. induction p as [a|X e k IH]; intros w Hl H Hr; cbn [runs] in Hr.
  - destruct Hr as [[-> ->]|[-> ->]]; (split_and!; [done|reflexivity|]); [done|]. by intros ? [= <-].
  - destruct Hr as [[-> ->]|(x & w1 & Hs & Hr)]; [by split_and!|]. destruct (H x w1 Hs) as [H1 H2].
    destruct (IH x w1 H1 H2 Hr) as (H3 & H4 & H5). split_and!; [done| |done]. transitivity w1; [|done].
    destruct Hs as (wa & m' & Henv & _ & ->). destruct (live_envs _ _ Hl Henv) as (_ & Hst & _).
    transitivity wa; [done|]. assert (ES : machine S_url (set_machine T_url m' wa) = machine S_url wa) by (by apply machine_set_ne).
    split; try done; unfold dir_at, stopped, data_at; by rewrite ES.
Qed.

Lemma head_S credential w0 d w x w' : on_S w0 d None w ->
  node_at S_url _ (HeadOffset T_url credential id) w x w' -> on_S w0 d None w'.
Proof using urls_differ.
  intros Hw (wa & o & Henv & Hr & _). assert (Hwa := on_S_envs _ _ _ _ _ Hw Henv). assert (Hla : live wa) by apply Hwa.
  destruct (T_runs _ _ _ _ _ Hla (offset_T credential wa Hla) Hr) as (H1 & H2 & _). by eapply on_S_still.
Qed.

Lemma patch_S u body w0 d meta w x w' : on_S w0 d None w -> meta_of d = Some meta -> x_Phase meta = "archived" ->
  up_MigrationID u = id -> up_Checksum u = x_Checksum meta ->
  node_at S_url _ (PatchArchive T_url u body) w x w' -> on_S w0 d None w'.
Proof using urls_differ OK.
  intros Hw Hm Hp Hid Hc (wa & o & b & Henv & _ & Hr & _). assert (Hwa := on_S_envs _ _ _ _ _ Hw Henv).
  assert (Hla : live wa) by apply Hwa. destruct (on_S_files _ _ _ _ Hwa) as (_ & _ & _ & Ha).
  destruct (Ha _ Hm Hp) as [a Har]. assert (Hck : x_Checksum meta = digest a).
  { destruct Har as [(ms & Hms & _ & E) _ _ _]. destruct Hwa as (_ & _ & <- & _). unfold meta_of in Hm.
    unfold source_meta in Hms. congruence. }
  destruct (T_runs _ _ _ _ _ Hla (receive_T u b a wa Hla Har Hid (eq_trans Hc Hck)) Hr) as (H1 & H2 & _).
  by eapply on_S_still.
Qed.

Lemma onS_call {X A} (e : NodeEff X) (k : X -> N A) (Q : A -> Net -> Prop) w0 d w :
  (forall x w', node_at S_url X e w x w' -> on_S w0 d None w') ->
  (forall x w', on_S w0 d None w' -> on_source w0 (k x) Q w') ->
  on_source w0 (Vis e k) Q w.
Proof using Type. intros He Hk x w1 Hs. assert (Hw := He x w1 Hs). split; [by eapply on_S_run|by apply Hk]. Qed.

Lemma push_once_S credential req w0 d w : on_S w0 d None w -> sp_DestinationURL req = T_url ->
  on_source w0 (push_once id credential req) (fun _ => on_S w0 d None) w.
Proof using urls_differ OK.
  intros Hw Hu. unfold push_once. rewrite Hu. eapply onS_call; [intros x w'; by eapply head_S|].
  intros [e| |status|offset] w1 Hw1; cbv beta iota; [done..|]. branch; [done|].
  unfold SourceArchive, rbind. destruct (negb _); cbn [pbind]; [done|]. apply holds_bind.
  eapply onS_authorize; [exact Hw1| |by intros]. intros meta w2 Hw2 Hmeta Hm. cbv beta iota.
  destruct (on_S_files _ _ _ _ Hw2) as (_ & _ & Hph & _). destruct (Hph _ Hmeta) as [Hp1 Hp2].
  destruct (slices_contains ["archived"; "uploading"; "uploaded"] (x_Phase meta)) eqn:Ep; cbn [negb]; [|done].
  assert (Hp : x_Phase meta = "archived").
  { apply slices_contains_spec in Ep. by apply elem_of_cons in Ep as [?|[?|[?|[]%elem_of_nil]%elem_of_cons]%elem_of_cons]. }
  branch; [done|]. unfold value. watch Hw2. intros wa body m1 _ _ Hw3. cbv beta.
  destruct body as [body|e]; [|done]. cbn [pbind holds done].
  eapply onS_call; [intros x w'; by eapply patch_S|].
  intros [e| |status|destination] w4 Hw4; cbv beta iota; [|done|done|by branch].
  watch Hw4. intros wb err m2 _ _ Hw5. cbv beta. by destruct err.
Qed.

Lemma push_attempts_S n credential req w0 d w : on_S w0 d None w -> sp_DestinationURL req = T_url ->
  on_source w0 (push_attempts n id credential req) (fun _ => same_run w0) w.
Proof using urls_differ OK.
  intros Hw Hu. revert w Hw. induction n as [|n IH]; intros w Hw; cbn [push_attempts]; [by eapply onS_end|].
  apply holds_bind. eapply holds_post; [by apply push_once_S|]. intros [r|] w1 Hw1; [by eapply onS_end|by apply IH].
Qed.

Lemma push_S credential req w : live w -> sp_DestinationURL req = T_url ->
  on_source w (pushTransferSource valid_destination id credential req) (fun _ => same_run w) w.
Proof using urls_differ OK valid_destination.
  intros Hl Hu. assert (Hw : on_S w (dir_at S_url w) None w) by (by split_and!).
  unfold pushTransferSource, with_id, pushArchive. repeat (branch; [by eapply onS_end|]). by eapply push_attempts_S.
Qed.

(** ** What the control plane does *)

Notation control := (control_step valid_destination node_url id server).
Notation system := (sure_step valid_destination node_url id server).
Notation calls := (Network.calls node_url id server).

Lemma runs_own {A} url (p : N A) w o w' : only own p -> runs (node_at url) p w o w' -> runs (local_at url) p w o w'.
Proof using Type.
  revert w. induction p as [a|X e k IH]; intros w Ho H; [done|]. destruct Ho as [He Ho].
  destruct H as [H|(x & w1 & Hs & H)]; [by left|]. right. exists x, w1. split; [by apply node_local|by apply IH].
Qed.

Lemma call_T {A} (p : N (reply A)) Q w x w' : live w -> only own p -> holds (local_at T_url) live p Q w ->
  calls T_url p w x w' -> live w' /\ still w w' /\ forall a, x = Ok a -> Q (Done a) w'.
Proof using urls_differ.
  intros Hl Ho Hp (o & Hr & Hx). destruct (T_runs _ _ _ _ _ Hl Hp (runs_own _ _ _ _ _ Ho Hr)) as (H1 & H2 & H3).
  split_and!; [done..|]. intros a ->. destruct Hx as [(a' & -> & [= ->])|[msg Hx]]; [by apply H3|done].
Qed.

Lemma call_I {A} url I (p : N (reply A)) Q w x w' : I w -> holds (node_at url) I p Q w -> calls url p w x w' ->
  I w' /\ forall a, x = Ok a -> Q (Done a) w'.
Proof using Type.
  intros HI Hp (o & Hr & Hx). destruct (runs_holds _ _ _ _ _ _ _ HI Hp Hr) as [H1 H2]. split; [done|].
  intros a ->. destruct Hx as [(a' & -> & [= ->])|[msg Hx]]; [by apply H2|done].
Qed.

(** *** The tables *)

(** A change of the tables that leaves the migration, the server's node and,
    up to [f], the run of the migration. *)
Record tables_step (f : MigrationRun -> MigrationRun) (t t' : Tables) : Prop := {
  ts_row m : tb_migrations t !! id = Some m -> exists m', tb_migrations t' !! id = Some m' /\
    mg_ServerID m' = mg_ServerID m /\ mg_SourceNodeID m' = mg_SourceNodeID m /\ mg_TargetNodeID m' = mg_TargetNodeID m;
  ts_run : tb_runs t' !! id = f <$> tb_runs t !! id;
  ts_owner : sv_NodeID <$> db_servers (tb_db t') !! server = sv_NodeID <$> db_servers (tb_db t) !! server
}.

Lemma with_tables_at w t u : machine u (with_tables w t) = machine u w.
Proof using Type. done. Qed.

Lemma recorded_step f w t : tables_step f (nt_tables w) t -> recorded w -> recorded (with_tables w t).
Proof using Type.
  intros H (m & Hm & E1 & E2 & E3). destruct (ts_row _ _ _ H m Hm) as (m' & Hm' & F1 & F2 & F3).
  exists m'. split_and!; [done|congruence..].
Qed.

Lemma run_tables f w t r : tables_step f (nt_tables w) t -> run_of w = Some r -> run_of (with_tables w t) = Some (f r).
Proof using Type. intros Ht Hr. pose proof (ts_run _ _ _ Ht) as E. unfold Network.run_of in Hr. rewrite Hr in E. exact E. Qed.

Lemma before_tables f w t : before w -> tables_step f (nt_tables w) t ->
  (forall r, run_of w = Some r -> mr_Phase (f r) <> "completed") -> before (with_tables w t).
Proof using Type.
  intros [H1 (r & Hr & Hp) H3 H4 H5 H6 H7] Ht Hf. split; try done.
  - by eapply recorded_step.
  - exists (f r). split; [by apply run_tables|by apply Hf].
  - exact (eq_trans (ts_owner _ _ _ Ht) H3).
Qed.

Lemma phase_tables f w t r : tables_step f (nt_tables w) t -> run_of w = Some r -> phase_of (with_tables w t) = mr_Phase (f r).
Proof using Type. intros Ht Hr. unfold Network.phase_of. by rewrite (run_tables _ _ _ _ Ht Hr). Qed.

Lemma live_tables f w t : live w -> tables_step f (nt_tables w) t ->
  (forall r, run_of w = Some r -> terminal_phase (mr_Phase (f r)) = false /\
     (4 <= phase_order (mr_Phase (f r)) -> arrived w (data_at T_url w))) -> live (with_tables w t).
Proof using Type.
  intros [Hb Ho Hs Hp [F1 F2 F3 F4 F5]] Ht Hf. destruct (bf_run _ Hb) as (r & Hr & _).
  destruct (Hf r Hr) as [Hf1 Hf2]. assert (Har : forall a, archived w a -> archived (with_tables w t) a) by (by intros a []; split).
  assert (Harr : forall d, arrived w d -> arrived (with_tables w t) d).
  { intros d [[a Ha] H]. split; [|exact H]. exists a. by apply Har. }
  split; [| |intros ms Hm Hph; destruct (Hs ms Hm Hph) as [a Ha]; exists a; by apply Har|done|split; [done| | | |]].
  - eapply before_tables; [done..|]. intros r' Hr' Hc. destruct (Hf r' Hr') as [Hx _]. by rewrite Hc in Hx.
  - by rewrite (phase_tables _ _ _ _ Ht Hr).
  - intros md Hm Hc. destruct (F2 md Hm Hc) as (a & Ha & E). exists a. split; [by apply Har|done].
  - intros md Hm Hc. destruct (F3 md Hm Hc) as (a & Ha & E). exists a. split; [by apply Har|done].
  - intros md Hm Hc. by eapply Harr, F4.
  - rewrite (phase_tables _ _ _ _ Ht Hr). intros H4. by apply Harr, Hf2.
Qed.

Lemma committed_tables f w t : committed w -> tables_step f (nt_tables w) t ->
  tb_migrations t = tb_migrations (nt_tables w) -> (forall r, run_of w = Some r -> mr_Phase (f r) = mr_Phase r) ->
  committed (with_tables w t).
Proof using Type.
  intros [H1 (r & Hr & Hp) H3 H4 H5] Ht Hm Hf. split; try done.
  - change (nt_tables (with_tables w t)) with t. by rewrite Hm.
  - exists (f r). split; [by apply run_tables|by rewrite Hf].
  - exact (eq_trans (ts_owner _ _ _ Ht) H3).
Qed.

Lemma step_same t : tables_step (fun r => r) t t.
Proof using Type. split; [intros m Hm; by exists m| |done]. by destruct (tb_runs t !! id). Qed.

Lemma step_status m status reason t : tables_step (fun r => r) t (snd (UpdateMigrationStatus m status reason t)).
Proof using Type.
  unfold UpdateMigrationStatus. destruct (tb_migrations t !! m) as [row|] eqn:Em; [|apply step_same].
  destruct (negb _); [apply step_same|]. split; [|by destruct (tb_runs t !! id) eqn:E|done].
  intros m0 Hm0. cbn [snd]. unfold record_history. destruct (decide (m = id)) as [->|Hn].
  - rewrite Em in Hm0. injection Hm0 as ->. eexists. split; [apply lookup_insert_eq|done].
  - exists m0. split; [|done]. exact (eq_trans (lookup_insert_ne _ _ _ _ Hn) Hm0).
Qed.

Lemma step_set_run f t : tables_step f t (set_run id f t).
Proof using Type. split; [intros m0 Hm0; by exists m0| |done]. apply lookup_alter_eq. Qed.

Lemma step_release m f t t' : tables_step f t t' -> tables_step f t (release_held m t').
Proof using Type. intros [H1 H2 H3]. by split. Qed.

Lemma step_release_first m f t t' : tables_step f (release_held m t) t' -> tables_step f t t'.
Proof using Type. intros [H1 H2 H3]. by split. Qed.

Lemma step_advance p err size ck now t : exists f, tables_step f t (snd (UpdateMigrationRun id p err size ck now t)) /\
  forall r, mr_Phase (f r) = p.
Proof using Type. eexists. split; [apply step_set_run|done]. Qed.

Lemma step_hashes now t : exists f, tables_step f t (snd (SetMigrationCredentialHashes id now t)) /\
  forall r, mr_Phase (f r) = mr_Phase r.
Proof using Type. eexists. split; [apply step_set_run|done]. Qed.

Lemma step_cleanup now t : exists f, tables_step f t (snd (MarkMigrationCleanupComplete id now t)) /\
  tb_migrations (snd (MarkMigrationCleanupComplete id now t)) = tb_migrations t /\
  forall r, mr_Phase (f r) = mr_Phase r.
Proof using Type. eexists. split; [apply step_set_run|]. split; [done|]. intros r. cbv beta. by destruct (_ =? _)%string. Qed.

Lemma step_close phase now f t : exists g, tables_step g t (close_run id phase now f t) /\
  forall r, mr_Phase r <> "completed" -> mr_Phase (g r) = phase.
Proof using Type.
  eexists. split; [eapply step_release_first, step_set_run|]. intros r Hr. cbv beta. apply String.eqb_neq in Hr. by rewrite Hr.
Qed.

Lemma step_reservations m status now t :
  tables_step (fun r => r) t (t <| tb_db := snd (UpdatePlacementReservationsForMigration m status now (tb_db t)) |>).
Proof using Type.
  split; [intros m0 Hm0; by exists m0|by destruct (tb_runs t !! id) eqn:E|].
  unfold UpdatePlacementReservationsForMigration. by destruct (negb _).
Qed.

Lemma step_claim worker lease now t : exists f, tables_step f t (snd (ClaimMigrationRun id worker lease now t)) /\
  (forall r, mr_Phase (f r) = mr_Phase r) /\
  forall r, fst (ClaimMigrationRun id worker lease now t) = Got r ->
    exists r0, tb_runs t !! id = Some r0 /\ mr_Phase r = mr_Phase r0 /\ terminal_phase (mr_Phase r0) = false.
Proof using Type.
  unfold ClaimMigrationRun. destruct (tb_runs t !! id) as [r0|] eqn:Er; [|by exists (fun r => r); split_and!; [apply step_same| |]].
  destruct (claimable worker now r0) eqn:Ec; cbn [negb]; [|by exists (fun r => r); split_and!; [apply step_same| |]].
  destruct (negb _); [by exists (fun r => r); split_and!; [apply step_same| |]|].
  cbn [fst snd]. eexists. split; [apply step_set_run|]. split; [done|].
  intros r Hr. exists r0. unfold GetMigrationRun, set_run in Hr.
  change (tb_runs (t <| tb_runs := ?m |>)) with m in Hr. rewrite lookup_alter_eq, Er in Hr. injection Hr as <-.
  split_and!; [done..|]. apply andb_true_iff in Ec as [Ec _]. by apply negb_true_iff.
Qed.

(** The commit: the target owns the server, or nothing happened. *)
Lemma step_finalize now w t x : live w -> (x, t) = FinalizeMigration id now (nt_tables w) ->
  (x <> Got tt /\ t = nt_tables w) \/ (x = Got tt /\ committed (with_tables w t)).
Proof using urls_differ.
  intros Hl H. destruct (lv_before _ Hl) as [(m & Hm & E1 & E2 & E3) (r & Hr & Hp) Ho Hd _ _ Hst].
  unfold FinalizeMigration in H. unfold Network.run_of in Hr. rewrite Hm, Hr in H.
  destruct (mr_TargetAllocationID r) as [al|]; [|injection H as -> ->; by left].
  apply String.eqb_neq in Hp. rewrite Hp in H.
  destruct (mr_Phase r =? "destination_created")%string eqn:Ephase; cbn [negb] in H; [|injection H as -> ->; by left].
  rewrite E1 in H. unfold Network.owner_of in Ho.
  destruct (db_servers (tb_db (nt_tables w)) !! server) as [s|] eqn:Es; [|done]. injection Ho as Ho.
  destruct (negb _); [injection H as -> ->; by left|].
  match type of H with _ = (if ?c then _ else _) => destruct c end; injection H as -> ->; [by left|]. right. split; [done|].
  assert (Harr : arrived w (data_at T_url w)).
  { apply (ft_phase _ _ _ (lv_fits _ Hl)). unfold Network.phase_of, Network.run_of. rewrite Hr. cbn [from_option].
    apply String.eqb_eq in Ephase. rewrite Ephase. by vm_compute. }
  destruct Harr as [[a Ha] (l & El & Hl')]. split.
  - eexists. split; [apply lookup_insert_eq|done].
  - eexists. split; [exact (eq_trans (lookup_alter_eq _ _ _) (f_equal (fmap _) Hr))|done].
  - refine (eq_trans (f_equal (fmap sv_NodeID) (eq_trans (lookup_alter_eq _ _ _) (f_equal (fmap _) Es))) _).
    cbn. by rewrite E3.
  - intros url Hu. destruct (decide (url = S_url)) as [->|Hn]; [apply (ar_stopped _ _ Ha)|by apply Hst].
  - exists l. split; [exact El|by right].
Qed.

(** *** A worker *)

Definition early (w : Net) : Prop := live w /\ phase_order (phase_of w) < 4.
Definition ready (w : Net) : Prop := live w /\ arrived w (data_at T_url w).

(** Where a worker stands that took over at phase [p]. *)
Definition stage (p : string) (w : Net) : Prop := if phaseAtLeast p "destination_restored" then ready w else early w.

(** Between the requests of a worker, before [fail]. *)
Definition between (w : Net) : Prop := live w \/ committed w.

Record good_sides (si : Sides) : Prop := {
  gs_source : pt_NodeURL (si_source si) = S_url;
  gs_target : pt_NodeURL (si_target si) = T_url;
  gs_source_id : pt_ServerID (si_source si) = server;
  gs_target_id : pt_ServerID (si_target si) = server
}.

Definition post {A} (K : Net -> Prop) (r : progress A) (w : Net) : Prop :=
  match r with Went _ => K w | Stopped f => live w /\ forall si, fl_sides f = Some si -> good_sides si end.

Notation working := (holds control between).

Lemma C_step {X A} I (K : Net -> Prop) (e : MEff X) (k : X -> M A) (Q : A -> Net -> Prop) w :
  (forall w w', K w -> rtc env w w' -> K w') -> K w ->
  (forall w0 x w1, K w0 -> system X e w0 x w1 -> I w1 /\ holds control I (k x) Q w1) ->
  holds control I (Vis e k) Q w.
Proof using Type. intros Hs Hw H x w1 (w0 & Henv & He). eapply H; [by eapply Hs|done]. Qed.

Lemma C_proceed {A B} I (K K' : Net -> Prop) (m : M (progress A)) (k : A -> M (progress B)) w :
  holds control I m (post K) w -> (forall a w', K w' -> holds control I (k a) (post K') w') ->
  holds control I (proceed m k) (post K') w.
Proof using Type.
  intros Hm Hk. apply holds_bind. eapply holds_post; [exact Hm|]. intros [a|f] w' H; [by apply Hk|exact H].
Qed.

Lemma early_envs w w' : early w -> rtc env w w' -> early w'.
Proof using urls_differ.
  intros [Hl Hp] H. destruct (live_envs _ _ Hl H) as (H1 & H2 & _). split; [done|by rewrite (phase_still _ _ H2)].
Qed.

Lemma ready_envs w w' : ready w -> rtc env w w' -> ready w'.
Proof using urls_differ.
  intros [Hl Ha] H. destruct (live_envs _ _ Hl H) as (H1 & H2 & _ & H3). split; [done|]. rewrite H3. by eapply arrived_still.
Qed.

Lemma stage_envs p w w' : stage p w -> rtc env w w' -> stage p w'.
Proof using urls_differ. unfold stage. destruct (phaseAtLeast _ _); [apply ready_envs|apply early_envs]. Qed.

Lemma stage_live p w : stage p w -> live w.
Proof using Type. unfold stage. by destruct (phaseAtLeast _ _); intros [? _]. Qed.

Lemma live_rtc w w' : live w -> rtc env w w' -> live w'.
Proof using urls_differ. intros Hl H. by destruct (live_envs _ _ Hl H). Qed.

(** Statements that leave the phase of the run. *)
Definition same_phase (f : MigrationRun -> MigrationRun) : Prop := forall r, mr_Phase (f r) = mr_Phase r.

Lemma phase_run w r : run_of w = Some r -> mr_Phase r = phase_of w.
Proof using Type. intros H. unfold Network.phase_of. by rewrite H. Qed.

Lemma live_same f w t : live w -> tables_step f (nt_tables w) t -> same_phase f -> live (with_tables w t).
Proof using Type.
  intros Hl Ht Hf. eapply live_tables; [done..|]. intros r Hr. rewrite Hf, (phase_run _ _ Hr).
  split; [apply (lv_open _ Hl)|apply (ft_phase _ _ _ (lv_fits _ Hl))].
Qed.

Lemma arrived_tables w t d : arrived w d -> arrived (with_tables w t) d.
Proof using Type. intros [[a Ha] H]. split; [|exact H]. exists a. by destruct Ha; split. Qed.

Lemma stage_same p f w t : stage p w -> tables_step f (nt_tables w) t -> same_phase f -> stage p (with_tables w t).
Proof using Type.
  intros Hs Ht Hf. unfold stage in *. assert (Hl : live w) by (destruct (phaseAtLeast _ _); apply Hs).
  pose proof (live_same _ _ _ Hl Ht Hf) as Hl'. destruct (phaseAtLeast _ _); destruct Hs as [_ Hs].
  - split; [done|]. by apply arrived_tables.
  - split; [done|]. destruct (bf_run _ (lv_before _ Hl)) as (r & Hr & _).
    rewrite (phase_tables _ _ _ _ Ht Hr), Hf. by rewrite (phase_run _ _ Hr).
Qed.

(** The outcome of a statement, whatever is answered. *)
Lemma states_cases {A} (f : Time -> Tables -> answer A * Tables) w x w' : states f w x w' ->
  w' = w \/ w' = with_tables w (snd (f (nt_now w) (nt_tables w))).
Proof using Type. intros [[_ ->]|[_ [->| ->]]]; by auto. Qed.

Lemma stage_states {A} p (f : Time -> Tables -> answer A * Tables) g w x w' : stage p w -> states f w x w' ->
  tables_step g (nt_tables w) (snd (f (nt_now w) (nt_tables w))) -> same_phase g -> stage p w'.
Proof using Type.
  intros Hs Hst Ht Hg. destruct (states_cases _ _ _ _ Hst) as [->| ->]; [done|by eapply stage_same].
Qed.

Lemma stage_advance {A} p (f : Time -> Tables -> answer A * Tables) g p' w x w' :
  stage p w -> states f w x w' -> tables_step g (nt_tables w) (snd (f (nt_now w) (nt_tables w))) ->
  (forall r, mr_Phase (g r) = p') -> terminal_phase p' = false ->
  (phaseAtLeast p "destination_restored" = false -> phase_order p' < 4) -> stage p w'.
Proof using Type.
  intros Hs Hst Ht Hg Hp' Ho. destruct (states_cases _ _ _ _ Hst) as [->| ->]; [done|].
  unfold stage in *. destruct (phaseAtLeast p _); destruct Hs as [Hl Hs].
  - split; [|by apply arrived_tables]. eapply live_tables; [done..|]. intros r _. rewrite Hg. by split.
  - specialize (Ho eq_refl). destruct (bf_run _ (lv_before _ Hl)) as (r & Hr & _). split.
    + eapply live_tables; [done..|]. intros r' _. rewrite Hg. split; [done|lia].
    + by rewrite (phase_tables _ _ _ _ Ht Hr), Hg.
Qed.

Lemma stage_call_S {A} (p0 : N (reply A)) p w x w' : stage p w -> phaseAtLeast p "destination_restored" = false ->
  holds (node_at S_url) (same_run w) p0 (fun _ => same_run w) w -> calls S_url p0 w x w' -> stage p w'.
Proof using Type.
  unfold stage. intros Hs Hp Hh Hc. rewrite Hp in *. destruct Hs as [Hl Ho].
  destruct (call_I _ _ _ _ _ _ _ (conj Hl eq_refl) Hh Hc) as [[H1 H2] _]. split; [done|].
  unfold Network.phase_of in *. by rewrite H2.
Qed.

(** A worker that has just taken over. *)
Definition standing (p : string) (w : Net) : Prop := live w /\ phase_of w = p.

Lemma standing_stage p w : standing p w -> stage p w.
Proof using Type.
  intros [Hl Hp]. unfold stage, phaseAtLeast. destruct (_ <=? _) eqn:E.
  - apply Z.leb_le in E. split; [done|]. apply (ft_phase _ _ _ (lv_fits _ Hl)). by rewrite Hp.
  - apply Z.leb_gt in E. split; [done|]. by rewrite Hp.
Qed.

Lemma standing_envs p w w' : standing p w -> rtc env w w' -> standing p w'.
Proof using urls_differ.
  intros [Hl Hp] H. destruct (live_envs _ _ Hl H) as (H1 & H2 & _). split; [done|by rewrite (phase_still _ _ H2)].
Qed.

Lemma standing_states {A} p (f : Time -> Tables -> answer A * Tables) g w x w' : standing p w -> states f w x w' ->
  tables_step g (nt_tables w) (snd (f (nt_now w) (nt_tables w))) -> same_phase g -> standing p w'.
Proof using Type.
  intros [Hl Hp] Hst Ht Hg. destruct (states_cases _ _ _ _ Hst) as [->| ->]; [done|].
  destruct (bf_run _ (lv_before _ Hl)) as (r & Hr & _).
  split; [by eapply live_same|]. by rewrite (phase_tables _ _ _ _ Ht Hr), Hg, (phase_run _ _ Hr).
Qed.

Lemma standing_register_S p reg w x w' : standing p w -> claims_of (rg_Claims reg) DirectionSourceControl ->
  calls S_url (registerTransferCredential reg) w x w' -> standing p w'.
Proof using urls_differ.
  intros [Hl Hp] Hc Hcall.
  destruct (call_I _ _ _ _ _ _ _ (conj Hl eq_refl) (register_live_S reg w Hl Hc) Hcall) as [[H1 H2] _].
  split; [done|]. unfold Network.phase_of in *. by rewrite H2.
Qed.

Lemma standing_register_T p reg w x w' : standing p w -> claims_of (rg_Claims reg) DirectionDestinationUpload ->
  calls T_url (registerTransferCredential reg) w x w' -> standing p w'.
Proof using urls_differ.
  intros [Hl Hp] Hc Hcall.
  assert (Ho : only own (registerTransferCredential reg)) by (eapply only_mono; [exact files_own|apply register_requests]).
  destruct (call_T _ _ _ _ _ Hl Ho (register_T reg w Hl Hc) Hcall) as (H1 & H2 & _).
  split; [done|]. by rewrite (phase_still _ _ H2).
Qed.

(** What a worker reads of its migration. *)
Lemma read_migration w x : recorded w -> x = GetMigration id (nt_tables w) \/ (exists e, x = Failed e) ->
  forall m, x = Got m -> m_ID m = id /\ m_ServerID m = server.
Proof using Type.
  intros (row & Hrow & E & _) Hx m ->. destruct Hx as [Hx|[e Hx]]; [|done]. unfold GetMigration in Hx.
  rewrite Hrow in Hx. injection Hx as ->. by split.
Qed.

Lemma read_sides w p : before w -> sides_of node_url id w p ->
  pt_NodeURL p.1 = S_url /\ pt_NodeURL p.2 = T_url /\ pt_ServerID p.1 = server /\ pt_ServerID p.2 = server.
Proof using Type.
  intros Hb (row & s & Hrow & Hs & E1 & E2 & E3 & E4). destruct (bf_row _ Hb) as (row' & Hrow' & F1 & F2 & F3).
  rewrite Hrow in Hrow'. injection Hrow' as <-. rewrite F1 in *. rewrite F3 in E4.
  pose proof (bf_owner _ Hb) as Ho. unfold Network.owner_of in Ho. rewrite Hs in Ho. injection Ho as Ho.
  rewrite Ho in E3. by split_and!.
Qed.

Section Worker.
Context (s : MigrationService).

Ltac control_step Hw Hst := eapply C_step; [exact Hst|exact Hw|].

Definition set_up_post (p : string) (r : progress (Migration * Sides)) (w : Net) : Prop :=
  match r with
  | Went (_, si) => standing p w /\ good_sides si
  | Stopped f => live w /\ forall si, fl_sides f = Some si -> good_sides si
  end.

Lemma set_up_stops p w si cause created : live w -> good_sides si ->
  between w /\ working (Ret (Stopped (mkFailure cause (Some si) created))) (set_up_post p) w.
Proof using Type. intros Hl Hg. split; [by left|]. split; [done|]. by intros ? [= <-]. Qed.

(** Both credentials are registered, and nothing else changed. *)
Lemma register_both_C p w m si expires : standing p w -> m_ID m = id -> m_ServerID m = server -> good_sides si ->
  working (proceed (must si "register source credential: "
            (register_on (si_source si) m DirectionSourceControl (si_sourceCredential si) expires)) (fun _ =>
          proceed (must si "register destination credential: "
            (register_on (si_target si) m DirectionDestinationUpload (si_destinationCredential si) expires)) (fun _ =>
          Ret (Went (m, si))))) (set_up_post p) w.
Proof using urls_differ.
  intros Hw E1 E2 Hg. assert (Hst := standing_envs p). unfold register_on. rewrite (gs_source _ Hg), (gs_target _ Hg).
  control_step Hw Hst. intros w0 x w1 Hw0 Hc.
  assert (Hw1 : standing p w1) by (eapply standing_register_S; [exact Hw0| |exact Hc]; by split_and!).
  destruct x as [[]|e]; [|apply set_up_stops; [apply Hw1|done]]. split; [left; apply Hw1|].
  control_step Hw1 Hst. intros w2 x w3 Hw2 Hc2.
  assert (Hw3 : standing p w3) by (eapply standing_register_T; [exact Hw2| |exact Hc2]; by split_and!).
  destruct x as [[]|e]; [|apply set_up_stops; [apply Hw3|done]]. split; [left; apply Hw3|]. by split.
Qed.

Lemma set_up_C p w : standing p w -> working (set_up id) (set_up_post p) w.
Proof using urls_differ.
  intros Hw. assert (Hst := standing_envs p). unfold set_up, ReadMigration.
  assert (Hend : forall w cause, standing p w -> between w /\ working (Ret (Stopped (mkFailure cause None false))) (set_up_post p) w).
  { intros w1 cause [Hl _]. split; [by left|]. by split. }
  control_step Hw Hst. intros w0 x w1 Hw0 [Hx ->]. destruct x as [m|e]; [|by apply Hend]. split; [left; apply Hw0|].
  destruct (read_migration _ _ (bf_row _ (lv_before _ (proj1 Hw0))) Hx m eq_refl) as [Em1 Em2].
  control_step Hw0 Hst. intros w2 x w3 Hw2 [Hx2 ->]. destruct x as [[src tgt]|e]; [|by apply Hend]. split; [left; apply Hw2|].
  assert (Hg : forall c1 c2, good_sides (mkSides src tgt c1 c2)).
  { intros c1 c2. destruct Hx2 as [(pr & [= <-] & Hp)|[e Hx2]]; [|done].
    destruct (read_sides _ _ (lv_before _ (proj1 Hw2)) Hp) as (? & ? & ? & ?). by split. }
  control_step Hw2 Hst. intros w4 x w5 Hw4 ->. destruct x as [c1|e]; [|apply set_up_stops; [apply Hw4|done]].
  split; [left; apply Hw4|].
  control_step Hw4 Hst. intros w6 x w7 Hw6 ->. destruct x as [c2|e]; [|apply set_up_stops; [apply Hw6|done]].
  split; [left; apply Hw6|].
  control_step Hw6 Hst. intros w8 now w9 Hw8 [_ ->]. split; [left; apply Hw8|].
  control_step Hw8 Hst. intros w10 x w11 Hw10 Hs.
  assert (Hw11 : standing p w11).
  { destruct (step_hashes (nt_now w10) (nt_tables w10)) as (f & Hf & Hp). by eapply standing_states. }
  destruct x as [[]|e]; [|apply set_up_stops; [apply Hw11|done]]. split; [left; apply Hw11|].
  by apply (register_both_C p w11 m (mkSides src tgt c1 c2)).
Qed.

(** The statements of a worker on the way. *)
Lemma C_status {B} p status reason (k : answer Migration -> M B) Q w : stage p w ->
  (forall x w1, stage p w1 -> working (k x) Q w1) -> working (pbind (request (SetStatus id status reason)) k) Q w.
Proof using urls_differ.
  intros Hw Hk. assert (Hst := stage_envs p). control_step Hw Hst. intros w0 x w1 Hw0 Hs.
  assert (Hw1 : stage p w1) by (eapply stage_states; [exact Hw0|exact Hs|apply step_status|done]).
  split; [left; by eapply stage_live|by apply Hk].
Qed.

Lemma C_advance {B} p p' err size ck (k : answer MigrationRun -> M B) Q w : stage p w ->
  terminal_phase p' = false -> (phaseAtLeast p "destination_restored" = false -> phase_order p' < 4) ->
  (forall x w1, stage p w1 -> working (k x) Q w1) -> working (pbind (request (AdvanceRun id p' err size ck)) k) Q w.
Proof using urls_differ.
  intros Hw Hp Ho Hk. assert (Hst := stage_envs p). control_step Hw Hst. intros w0 x w1 Hw0 Hs.
  destruct (step_advance p' err size ck (nt_now w0) (nt_tables w0)) as (f & Hf & Hfp).
  assert (Hw1 : stage p w1) by (eapply stage_advance; [exact Hw0|exact Hs|exact Hf|exact Hfp|exact Hp|exact Ho]).
  split; [left; by eapply stage_live|by apply Hk].
Qed.

Lemma stopped_post {A} K w si created cause : live w -> good_sides si ->
  post (A := A) K (Stopped (mkFailure cause (Some si) created)) w.
Proof using Type. intros Hl Hg. split; [done|]. by intros ? [= <-]. Qed.

(** A call of the source by a worker before the restoration. *)
Lemma C_source {A B} p si (c : TransferCall A) (k : result A -> M B) Q w : stage p w ->
  phaseAtLeast p "destination_restored" = false -> good_sides si ->
  (forall w, live w -> holds (node_at S_url) (same_run w) (handle valid_destination c) (fun _ => same_run w) w) ->
  (forall x w1, stage p w1 -> working (k x) Q w1) ->
  working (pbind (request (OnTransfer (pt_NodeURL (si_source si)) c)) k) Q w.
Proof using urls_differ.
  intros Hw Hp Hg Hc Hk. assert (Hst := stage_envs p). control_step Hw Hst. intros w0 x w1 Hw0 Hs.
  rewrite (gs_source _ Hg) in Hs.
  assert (Hw1 : stage p w1) by (eapply stage_call_S; [exact Hw0|exact Hp| |exact Hs]; apply Hc; by eapply stage_live).
  split; [left; by eapply stage_live|by apply Hk].
Qed.

Lemma phase_mono p a b : phaseAtLeast p a = false -> phase_order a <= phase_order b -> phaseAtLeast p b = false.
Proof using Type. unfold phaseAtLeast. rewrite !Z.leb_gt. lia. Qed.

Lemma archive_C p run si w : stage p w -> mr_Phase run = p -> good_sides si ->
  working (archive_source id run si) (post (stage p)) w.
Proof using urls_differ.
  intros Hw Hp Hg. unfold archive_source. rewrite Hp. destruct (phaseAtLeast p "source_archived") eqn:Ep; [exact Hw|].
  assert (Hp' := phase_mono _ _ "destination_restored" Ep ltac:(by vm_compute)).
  unfold must, proceed. apply holds_bind.
  eapply C_source; [exact Hw|exact Hp'|exact Hg|intros w0 Hl; by apply prepare_S|].
  intros [archive|e] w1 Hw1; cbv beta iota; [|by apply stopped_post; [eapply stage_live|]].
  cbn [holds]. destruct (_ || _); [by apply stopped_post; [eapply stage_live|]|].
  eapply C_status; [exact Hw1|]. intros _ w2 Hw2.
  eapply C_advance; [exact Hw2|done|by intros _; vm_compute|]. intros _ w3 Hw3. exact Hw3.
Qed.

Lemma push_C p run m si archive w : stage p w -> mr_Phase run = p -> good_sides si ->
  working (push_archive id run m si archive) (post (stage p)) w.
Proof using urls_differ OK.
  intros Hw Hp Hg. unfold push_archive. rewrite Hp. destruct (phaseAtLeast p "destination_verified") eqn:Ep; [exact Hw|].
  assert (Hp' := phase_mono _ _ "destination_restored" Ep ltac:(by vm_compute)).
  unfold must, proceed. apply holds_bind.
  eapply C_source; [exact Hw|exact Hp'|exact Hg|intros w0 Hl; apply push_S; [done|apply (gs_target _ Hg)]|].
  intros [verified|e] w1 Hw1; cbv beta iota; [|by apply stopped_post; [eapply stage_live|]].
  cbn [holds]. destruct (_ || _); [by apply stopped_post; [eapply stage_live|]|].
  eapply C_advance; [exact Hw1|done|by intros _; vm_compute|]. intros _ w2 Hw2.
  eapply C_status; [exact Hw2|]. intros _ w3 Hw3. exact Hw3.
Qed.

Lemma ready_stage w : stage "destination_restored" w = ready w.
Proof using Type. unfold stage. by vm_compute phaseAtLeast. Qed.

Lemma stage_ready p w : phaseAtLeast p "destination_restored" = true -> stage p w -> ready w.
Proof using Type. unfold stage. by intros ->. Qed.

(** After the restoration the data are there. *)
Lemma restore_C p run si w : stage p w -> mr_Phase run = p -> good_sides si ->
  working (restore_destination id run si) (post ready) w.
Proof using urls_differ OK.
  intros Hw Hp Hg. unfold restore_destination. rewrite Hp.
  destruct (phaseAtLeast p "destination_restored") eqn:Ep; [by eapply stage_ready|].
  unfold must, proceed. apply holds_bind. assert (Hst := stage_envs p). control_step Hw Hst. intros w0 x w1 Hw0 Hs.
  rewrite (gs_target _ Hg) in Hs. unfold stage in Hw0. rewrite Ep in Hw0. destruct Hw0 as [Hl Ho].
  destruct (call_T _ _ _ _ _ Hl (restore_requests _ _) (restore_T _ _ Hl Ho) Hs) as (H1 & H2 & H3).
  split; [by left|]. destruct x as [restored|e]; [|by apply stopped_post].
  destruct (H3 _ eq_refl) as (_ & _ & Har). cbn [pbind holds]. cbn [restored_reply] in Har.
  destruct (x_Phase restored =? "restored")%string eqn:Er; cbn [negb]; [|by apply stopped_post].
  apply String.eqb_eq in Er. assert (Hw1 : stage "destination_restored" w1) by (rewrite ready_stage; split; [done|by apply Har]).
  eapply C_advance; [exact Hw1|done|by vm_compute|]. intros _ w2 Hw2. cbn [holds post]. by rewrite <- ready_stage.
Qed.

(** *** The workload of the target *)

Lemma rmap_own {A B} (f : A -> B) (p : N (reply A)) : only own p -> only own (rmap f p).
Proof using Type. intros H. apply only_bind; [exact H|by intros]. Qed.

Lemma workload_own {A} (c : NodeCall A) : only own (workload server c).
Proof using Type.
  destruct c; cbn [workload]; try exact I; try (by apply rmap_own; handler_requests).
  all: try (apply rmap_own; first [apply create_requests|apply start_requests|apply inspect_requests]).
  - apply sync_requests.
  - apply rmap_own. eapply only_mono; [exact unstarted_own|apply delete_requests].
Qed.

(** Calls that keep what arrived. *)
Definition keeps_data {A} (c : NodeCall A) : Prop :=
  match c with SyncConfiguration | CreateWorkload _ | InspectWorkload => True | _ => False end.

Lemma workload_data {A} (c : NodeCall A) w : keeps_data c -> ready w ->
  holds (local_at T_url) (holds_data w) (workload server c) (fun _ => holds_data w) w.
Proof using urls_differ.
  intros Hc [Hl Ha]. assert (Hw : holds_data w w) by (by split_and!).
  destruct c; try done; cbn [workload]; [by apply sync_T|..]; apply holds_bind;
    (eapply holds_post; [first [by apply create_T|by apply inspect_T]|]); intros r w1 Hw1; exact Hw1.
Qed.

Lemma C_target {A B} si (c : NodeCall A) (k : result A -> M B) Q w : ready w -> good_sides si -> keeps_data c ->
  (forall x w1, ready w1 -> working (k x) Q w1) -> working (pbind (on_target si c) k) Q w.
Proof using urls_differ.
  intros Hw Hg Hc Hk. assert (Hst := ready_envs). control_step Hw Hst. intros w0 x w1 Hw0 Hs.
  change (calls (pt_NodeURL (si_target si)) (workload (pt_ServerID (si_target si)) c) w0 x w1) in Hs.
  rewrite (gs_target _ Hg), (gs_target_id _ Hg) in Hs. destruct Hs as (o & Hr & _).
  destruct (runs_holds _ _ _ _ _ _ _ (conj (proj1 Hw0) (conj (reflexivity w0) (proj2 Hw0)))
              (workload_data c w0 Hc Hw0) (runs_own _ _ _ _ _ (workload_own c) Hr)) as [(H1 & _ & H3) _].
  assert (Hw1 : ready w1) by done. split; [left; apply H1|by apply Hk].
Qed.

Lemma ready_stops {A} (K : Net -> Prop) si created what cause w : ready w -> good_sides si ->
  working (stop_at si created what cause : M (progress A)) (post K) w.
Proof using Type. intros [Hl _] Hg. by apply stopped_post. Qed.

Lemma configure_C run si w : ready w -> good_sides si -> working (configure_destination id run si) (post ready) w.
Proof using urls_differ.
  intros Hw Hg. unfold configure_destination. destruct (phaseAtLeast _ _); [exact Hw|].
  unfold must, proceed. apply holds_bind. eapply C_target; [exact Hw|exact Hg|exact I|].
  intros [[]|e] w1 Hw1; [|by apply ready_stops]. rewrite <- ready_stage in Hw1.
  eapply C_advance; [exact Hw1|done|by vm_compute|]. intros _ w2 Hw2. cbn [holds post]. by rewrite <- ready_stage.
Qed.

Lemma create_C si w : ready w -> good_sides si -> working (create_destination si) (post ready) w.
Proof using urls_differ.
  intros Hw Hg. unfold create_destination, destinationExists. apply holds_bind.
  eapply C_target; [exact Hw|exact Hg|exact I|]. intros i w1 Hw1. cbn [holds].
  destruct (match i with Ok i => i_Exists i | Err _ => false end); [exact Hw1|].
  assert (Hrej : forall cause w, ready w -> working (pbind (destinationCreatedObserved si)
     (fun observed => stop_at si observed "create destination container: " cause : M (progress unit))) (post ready) w).
  { intros cause w2 Hw2. unfold destinationCreatedObserved. apply holds_bind.
    eapply C_target; [exact Hw2|exact Hg|exact I|]. intros o w3 Hw3. by apply ready_stops. }
  eapply C_target; [exact Hw1|exact Hg|exact I|]. intros [[|]|e] w2 Hw2; [|by apply Hrej..].
  eapply C_target; [exact Hw2|exact Hg|exact I|]. intros [j|e] w3 Hw3; [|by apply ready_stops].
  destruct (i_Exists j); [exact Hw3|by apply ready_stops].
Qed.

(** *** The commit *)

Lemma C_committed {X A} (e : MEff X) (k : X -> M A) Q w : committed w ->
  (forall w0 x w1, committed w0 -> system X e w0 x w1 -> committed w1) ->
  (forall x w1, committed w1 -> working (k x) Q w1) -> working (Vis e k) Q w.
Proof using urls_differ.
  intros Hw He Hk. assert (Hst := committed_envs). control_step Hw Hst. intros w0 x w1 Hw0 Hs.
  assert (Hw1 : committed w1) by (by eapply He). split; [by right|by apply Hk].
Qed.

Lemma committed_states {A} (f : Time -> Tables -> answer A * Tables) g w x w' : committed w -> states f w x w' ->
  tables_step g (nt_tables w) (snd (f (nt_now w) (nt_tables w))) ->
  tb_migrations (snd (f (nt_now w) (nt_tables w))) = tb_migrations (nt_tables w) -> same_phase g -> committed w'.
Proof using Type.
  intros Hw Hst Ht Hm Hg. destruct (states_cases _ _ _ _ Hst) as [->| ->]; [done|].
  eapply committed_tables; [done..|]. intros r _. apply Hg.
Qed.

(** Requests that report, and close reservations. *)
Definition light (X : Type) (e : MEff X) : Prop :=
  match e with
  | Base (Count _) | Base (Publish _) | Base (CloseForMigration _ _) | EndRun _ => True
  | _ => False
  end.

Lemma C_only {A} (ok : forall X, MEff X -> Prop) (K : Net -> Prop) (p : M A) w :
  (forall w w', K w -> rtc env w w' -> K w') ->
  (forall X e w x w', ok X e -> K w -> system X e w x w' -> K w') -> only ok p -> K w ->
  holds control K p (fun _ => K) w.
Proof using Type.
  intros Hst Hs. apply holds_only. intros X e w0 x w' He Hw (w1 & Henv & H1). eapply Hs; [exact He|by eapply Hst|exact H1].
Qed.

Lemma light_states X (e : MEff X) w x w' : light X e -> system X e w x w' ->
  w' = w \/ exists t, w' = with_tables w t /\ tables_step (fun r => r) (nt_tables w) t /\ tb_migrations t = tb_migrations (nt_tables w).
Proof using Type.
  intros He Hs. destruct e as [A0 e| | | | | | | | | | | | | | | | | | | | |]; try done; [|by left].
  destruct e; try done; try (by left).
  destruct (states_cases _ _ _ _ Hs) as [->| ->]; [by left|]. right. eexists. split; [done|].
  split; [apply step_reservations|done].
Qed.

Lemma light_committed X (e : MEff X) w x w' : light X e -> committed w -> system X e w x w' -> committed w'.
Proof using Type.
  intros He Hw Hs. destruct (light_states _ _ _ _ _ He Hs) as [->|(t & -> & Ht & Hm)]; [done|].
  by eapply committed_tables.
Qed.

Lemma light_before X (e : MEff X) w x w' : light X e -> before w -> system X e w x w' ->
  before w' /\ phase_of w' = phase_of w.
Proof using Type.
  intros He Hw Hs. destruct (light_states _ _ _ _ _ He Hs) as [->|(t & -> & Ht & Hm)]; [done|].
  destruct (bf_run _ Hw) as (r & Hr & Hp). split.
  - eapply before_tables; [done..|]. intros r' Hr'. rewrite Hr in Hr'. by injection Hr' as <-.
  - by rewrite (phase_tables _ _ _ _ Ht Hr), (phase_run _ _ Hr).
Qed.

Lemma only_lift {A} (p : prog Eff A) : only (fun X e => light X (Base e)) p -> only light (lift p).
Proof using Type. induction p as [a|X e k IH]; [done|]. intros [He Hk]. split; [exact He|]. intros x. by apply IH. Qed.

Lemma update_reservations_light m i status kind : only light (lift (updateMigrationReservations m i status kind)).
Proof using Type.
  apply only_lift. unfold updateMigrationReservations. destruct (reservationStore m); [|exact I].
  destruct (_ =? _)%string; [exact I|]. apply only_bind; [by apply only_request|]. intros [l|e]; [|exact I].
  apply for_each_only. intros b. unfold publish_reservation. destruct m as [mgr|]; [|exact I]. by destruct (rm_publisher mgr).
Qed.

Lemma publish_light kind i : only light (publish_migration s kind i).
Proof using Type. unfold publish_migration. by destruct (ms_publisher s). Qed.

Lemma count_light c : only light (count c).
Proof using Type. by split. Qed.

Lemma light_C {A} (p : M A) (k : A -> M (progress unit)) w : only light p -> committed w ->
  (forall a w1, committed w1 -> working (k a) (post committed) w1) -> working (pbind p k) (post committed) w.
Proof using urls_differ.
  intros Hp Hw Hk. apply holds_bind. eapply holds_mono; [intros ? H; right; exact H|apply Hk|].
  eapply C_only; [exact committed_envs|exact light_committed|exact Hp|exact Hw].
Qed.

(** From the commit on the target owns the server, whatever fails. *)
Lemma finalize_C si w : ready w -> good_sides si -> working (finalize s id si) (post committed) w.
Proof using urls_differ.
  intros Hw Hg. unfold finalize. assert (Hst := ready_envs). control_step Hw Hst. intros w0 x w1 Hw0 Hs.
  assert (Hc : (exists e, x = Failed e /\ w1 = w0) \/ (x = Got tt /\ committed w1)).
  { destruct Hs as [[Hx ->]|([e ->] & ->)]; [|by left; exists e].
    destruct (step_finalize (nt_now w0) w0 (snd (FinalizeMigration id (nt_now w0) (nt_tables w0))) x (proj1 Hw0)) as [[Hn E]|H].
    - rewrite Hx. by destruct (FinalizeMigration _ _ _).
    - left. rewrite E. destruct x as [[]|e]; [done|]. exists e. by destruct w0.
    - by right. }
  destruct Hc as [(e & -> & ->)|[-> Hc]]; [split; [left; apply Hw0|]; by apply stopped_post; [apply Hw0|]|].
  split; [by right|].
  assert (Htail : forall w2, committed w2 -> working (
    pbind (match ms_reservations s with
           | Some mgr => lift (CompleteMigrationReservations (Some mgr) id) | None => Ret tt end) (fun _ =>
    pbind (count MigrationCompletedTotal) (fun _ =>
    pbind (publish_migration s "MigrationCompleted" id) (fun _ => Ret (Went tt))))) (post committed) w2).
  { intros w2 Hw2. apply light_C; [destruct (ms_reservations s); [apply update_reservations_light|exact I]|done|].
    intros _ w3 Hw3. apply light_C; [apply count_light|done|]. intros _ w4 Hw4.
    by apply light_C; [apply publish_light|done|]. }
  rewrite (gs_target _ Hg), (gs_source _ Hg).
  apply C_committed; [done| |].
  { intros w2 x w3 Hw2 Hcall. destruct (call_I _ committed _ _ _ _ _ Hw2 (committed_T _ _ (finalize_requests _ _) Hw2) Hcall); done. }
  intros x w2 Hw2. apply holds_bind. destruct x as [[]|e]; [|by apply Htail].
  apply C_committed; [done| |].
  { intros w3 x w4 Hw3 Hcall. destruct (call_I _ committed _ _ _ _ _ Hw3 (committed_S _ _ (cleanup_requests _ _) Hw3) Hcall); done. }
  intros x w3 Hw3. destruct x as [[]|e]; [|by apply Htail].
  apply C_committed; [done| |intros x w4 Hw4; by apply Htail].
  intros w4 x w5 Hw4 Hst'. destruct (step_cleanup (nt_now w4) (nt_tables w4)) as (f & Hf & Hm & Hp).
  by eapply committed_states.
Qed.

Lemma attempt_C p run w : standing p w -> mr_Phase run = p -> working (attempt s id run) (post committed) w.
Proof using urls_differ OK.
  intros Hw Hp. unfold attempt. unfold proceed at 1. apply holds_bind. eapply holds_post; [by apply set_up_C|].
  intros [[m si]|f] w1 H1; [|exact H1]. destruct H1 as [Hw1 Hg]. apply standing_stage in Hw1. cbv beta iota.
  assert (Hmain : forall w, stage p w -> working (if phaseAtLeast (mr_Phase run) "destination_created" then finalize s id si
     else proceed (archive_source id run si) (fun archive =>
          proceed (push_archive id run m si archive) (fun _ =>
          proceed (restore_destination id run si) (fun _ =>
          proceed (configure_destination id run si) (fun _ =>
          proceed (create_destination si) (fun _ =>
          request (AdvanceRun id "destination_created" "" 0 "") ;;^ finalize s id si)))))) (post committed) w).
  { intros w2 Hw2. rewrite Hp. destruct (phaseAtLeast p "destination_created") eqn:Ep.
    - apply finalize_C; [|done]. eapply stage_ready; [|exact Hw2]. unfold phaseAtLeast in *.
      apply Z.leb_le in Ep. apply Z.leb_le. etransitivity; [|exact Ep]. by vm_compute.
    - eapply C_proceed; [by apply archive_C|]. intros archive w3 Hw3. eapply C_proceed; [by apply push_C|]. intros _ w4 Hw4.
      eapply C_proceed; [by apply (restore_C p)|]. intros _ w5 Hw5. eapply C_proceed; [by apply configure_C|]. intros _ w6 Hw6.
      eapply C_proceed; [by apply create_C|]. intros _ w7 Hw7. rewrite <- ready_stage in Hw7.
      eapply C_advance; [exact Hw7|done|by vm_compute|]. intros _ w8 Hw8. rewrite ready_stage in Hw8. by apply finalize_C. }
  destruct (phaseAtLeast (mr_Phase run) "source_archived") eqn:Ep; cbn [negb]; [by apply Hmain|].
  apply holds_bind. eapply C_advance; [exact Hw1|done|by intros _; vm_compute|]. intros _ w2 Hw2. by apply Hmain.
Qed.

(** *** Rollback *)

(** The migration ended without a move. *)
Definition closed (w : Net) : Prop := before w /\ over w.

Lemma envs_run w w' : rtc env w w' -> run_of w' = run_of w.
Proof using source target.
  intros H. induction H as [|w w1 w2 H1 _ IH]; [done|]. rewrite IH.
  destruct (workload_step _ _ H1) as [Hw|(url & Ht & _)]; [by destruct (elsewhere_same _ _ Hw) as (_ & E & _)|].
  unfold Network.run_of. by rewrite Ht.
Qed.

Lemma closed_envs w w' : closed w -> rtc env w w' -> closed w'.
Proof using urls_differ.
  intros [Hb Ho] H. split; [by eapply before_envs|]. unfold Network.over, Network.phase_of in *. by rewrite (envs_run _ _ H).
Qed.

Notation undoing := (holds control before).

Lemma C_undo {X A} (e : MEff X) (k : X -> M A) Q w : before w ->
  (forall w0 x w1, before w0 -> system X e w0 x w1 -> before w1) ->
  (forall x w1, before w1 -> undoing (k x) Q w1) -> undoing (Vis e k) Q w.
Proof using urls_differ.
  intros Hw He Hk. assert (Hst := before_envs). control_step Hw Hst. intros w0 x w1 Hw0 Hs.
  assert (Hw1 : before w1) by (by eapply He). split; [exact Hw1|by apply Hk].
Qed.

Lemma side_last {X} url (e : MEff X) (Q : unit -> Net -> Prop) w : before w ->
  (forall w0 x w1, before w0 -> system X e w0 x w1 -> before w1) ->
  (forall w1, before w1 -> Q tt w1) -> undoing (on_side url (request e)) Q w.
Proof using urls_differ.
  intros Hw He Hk. unfold on_side, mignore. destruct (negb _); [|by apply Hk].
  apply C_undo; [done|done|]. intros x w1 Hw1. by apply Hk.
Qed.

(** One side of a rollback, when its address is known. *)
Lemma side_C {X B} url (e : MEff X) (k : unit -> M B) Q w : before w ->
  (forall w0 x w1, before w0 -> system X e w0 x w1 -> before w1) ->
  (forall w1, before w1 -> undoing (k tt) Q w1) -> undoing (pbind (on_side url (request e)) k) Q w.
Proof using urls_differ.
  intros Hw He Hk. unfold on_side, mignore. destruct (negb _); [|by apply Hk].
  apply C_undo; [done|done|]. intros x w1 Hw1. by apply Hk.
Qed.

Lemma call_before {A} url (p : N (reply A)) w x w' : before w ->
  (forall w, before w -> holds (node_at url) before p (fun _ => before) w) -> calls url p w x w' -> before w'.
Proof using Type. intros Hw Hp Hc. by destruct (call_I _ before _ _ _ _ _ Hw (Hp w Hw) Hc). Qed.

Lemma rmap_before {A B} url (f : A -> B) (p : N (reply A)) w :
  holds (node_at url) before p (fun _ => before) w -> holds (node_at url) before (rmap f p) (fun _ => before) w.
Proof using Type. intros H. apply holds_bind. by eapply holds_post. Qed.

Lemma undo_sides_C {B} f si (k : unit -> M B) Q w : before w -> good_sides si ->
  (forall w1, before w1 -> undoing (k tt) Q w1) ->
  undoing (pbind (let 'mkSides source target sourceCredential destinationCredential := si in
       (if negb (destinationCredential =? "")%string
        then on_side (pt_NodeURL target)
               (request (OnTransfer (pt_NodeURL target) (CancelTransfer id destinationCredential)))
        else Ret tt) ;;^
       (if fl_created f
        then on_side (pt_NodeURL target) (request (Base (OnNode (migrationTarget target) DeleteWorkload)))
        else Ret tt) ;;^
       (if negb (sourceCredential =? "")%string
        then on_side (pt_NodeURL source)
               (request (OnTransfer (pt_NodeURL source) (CancelTransfer id sourceCredential)))
        else Ret tt) ;;^
       on_side (pt_NodeURL source) (request (Base (OnNode (migrationTarget source) StartWorkload)))) k) Q w.
Proof using urls_differ.
  destruct si as [src tgt c1 c2]. intros Hw [E1 E2 E3 E4] Hk. cbn in E1, E2, E3, E4. rewrite E1, E2.
  apply holds_bind.
  assert (Hskip : forall (b : bool) (p : M unit) (k' : unit -> M unit) Q' w0, before w0 ->
     (forall w1, before w1 -> undoing (k' tt) Q' w1) ->
     (forall w1, before w1 -> undoing (pbind p k') Q' w1) -> undoing (pbind (if b then p else Ret tt) k') Q' w0).
  { intros b p k' Q' w0 H0 H1 H2. destruct b; [by apply H2|by apply H1]. }
  assert (Hc2 : forall w0 x w1, before w0 -> system _ (OnTransfer T_url (CancelTransfer id c2)) w0 x w1 -> before w1).
  { intros w0 x w1 H0 Hc. eapply call_before; [exact H0| |exact Hc]. intros w2. apply T_unstarted, cancel_requests. }
  assert (Hd : forall w0 x w1, before w0 -> system _ (Base (OnNode (migrationTarget tgt) DeleteWorkload)) w0 x w1 -> before w1).
  { intros w0 x w1 H0 Hc. change (calls (pt_NodeURL tgt) (workload (pt_ServerID tgt) DeleteWorkload) w0 x w1) in Hc.
    rewrite E2 in Hc. eapply call_before; [exact H0| |exact Hc]. intros w2 H2. apply rmap_before, T_unstarted; [apply delete_requests|done]. }
  assert (Hc1 : forall w0 x w1, before w0 -> system _ (OnTransfer S_url (CancelTransfer id c1)) w0 x w1 -> before w1).
  { intros w0 x w1 H0 Hc. eapply call_before; [exact H0| |exact Hc]. intros w2 H2. by apply cancel_S. }
  assert (Hs : forall w0 x w1, before w0 -> system _ (Base (OnNode (migrationTarget src) StartWorkload)) w0 x w1 -> before w1).
  { intros w0 x w1 H0 Hc. change (calls (pt_NodeURL src) (workload (pt_ServerID src) StartWorkload) w0 x w1) in Hc.
    rewrite E1, E3 in Hc. eapply call_before; [exact H0| |exact Hc]. intros w2 H2. by apply rmap_before, start_S. }
  assert (H4 : forall w0, before w0 -> undoing (on_side S_url (request (Base (OnNode (migrationTarget src) StartWorkload))))
     (fun a w' => undoing (k a) Q w') w0) by (intros w0 H0; by apply side_last).
  assert (H3 : forall w0, before w0 -> undoing (pbind (if negb (c1 =? "")%string
        then on_side S_url (request (OnTransfer S_url (CancelTransfer id c1))) else Ret tt)
     (fun _ => on_side S_url (request (Base (OnNode (migrationTarget src) StartWorkload)))))
     (fun a w' => undoing (k a) Q w') w0) by (intros w0 H0; apply Hskip; [done|by apply H4|intros w1 H1; by apply side_C]).
  assert (H2 : forall w0, before w0 -> undoing (pbind (if fl_created f
        then on_side T_url (request (Base (OnNode (migrationTarget tgt) DeleteWorkload))) else Ret tt)
     (fun _ => pbind (if negb (c1 =? "")%string
        then on_side S_url (request (OnTransfer S_url (CancelTransfer id c1))) else Ret tt)
     (fun _ => on_side S_url (request (Base (OnNode (migrationTarget src) StartWorkload))))))
     (fun a w' => undoing (k a) Q w') w0) by (intros w0 H0; apply Hskip; [done|by apply H3|intros w1 H1; by apply side_C]).
  apply Hskip; [done|by apply H2|intros w1 H1; by apply side_C].
Qed.

Lemma closed_states {A} (f : Time -> Tables -> answer A * Tables) w x w' : closed w -> states f w x w' ->
  tables_step (fun r => r) (nt_tables w) (snd (f (nt_now w) (nt_tables w))) -> closed w'.
Proof using Type.
  intros [Hb Ho] Hst Ht. destruct (states_cases _ _ _ _ Hst) as [->| ->]; [done|].
  destruct (bf_run _ Hb) as (r & Hr & Hp). split.
  - eapply before_tables; [done..|]. intros r' Hr'. rewrite Hr in Hr'. by injection Hr' as <-.
  - unfold Network.over in *. by rewrite (phase_tables _ _ _ _ Ht Hr), (phase_run _ _ Hr).
Qed.

Lemma light_closed X (e : MEff X) w x w' : light X e -> closed w -> system X e w x w' -> closed w'.
Proof using Type.
  intros He [Hb Ho] Hs. destruct (light_before _ _ _ _ _ He Hb Hs) as [H1 H2]. split; [done|].
  unfold Network.over in *. by rewrite H2.
Qed.

(** A statement that closes the run. *)
Lemma close_C w phase now f : before w -> terminal_phase phase = true -> phase <> "completed" ->
  closed (with_tables w (close_run id phase now f (nt_tables w))).
Proof using Type.
  intros Hb Ht Hn. destruct (step_close phase now f (nt_tables w)) as (g & Hg & Hp).
  destruct (bf_run _ Hb) as (r & Hr & Hc). split.
  - eapply before_tables; [done..|]. intros r' Hr'. rewrite Hr in Hr'. injection Hr' as <-. by rewrite Hp.
  - unfold Network.over. by rewrite (phase_tables _ _ _ _ Hg Hr), Hp.
Qed.

Lemma closed_before {A} (p : M A) Q w : holds control closed p Q w -> undoing p Q w.
Proof using Type. intros H. eapply holds_mono with (I := closed); [intros ? Hx; apply Hx| |exact H]. done. Qed.

Lemma mark_failed_C reason w : closed w -> holds control closed (MarkFailed s id reason) (fun _ => closed) w.
Proof using urls_differ.
  intros Hw. unfold MarkFailed. assert (Hst := closed_envs). control_step Hw Hst. intros w0 x w1 Hw0 Hs.
  assert (Hw1 : closed w1) by (eapply closed_states; [exact Hw0|exact Hs|apply step_status]).
  split; [done|]. destruct x as [m|e]; [|exact Hw1].
  eapply (C_only light); [exact closed_envs|exact light_closed| |exact Hw1].
  apply only_bind; [destruct (ms_reservations s); [apply update_reservations_light|exact I]|intros _].
  apply only_bind; [apply count_light|intros _]. apply only_bind; [apply publish_light|done].
Qed.

(** A rollback that runs to its end leaves the server where it was. *)
Lemma fail_C f w : before w -> (forall si, fl_sides f = Some si -> good_sides si) ->
  undoing (fail s id f) (fun _ => closed) w.
Proof using urls_differ.
  intros Hw Hg. unfold fail.
  assert (Htail : forall w1, before w1 -> undoing (pbind (request (FailRun id (fl_cause f)))
     (fun _ => mignore (MarkFailed s id (fl_cause f)))) (fun _ => closed) w1).
  { intros w1 H1. assert (Hst := before_envs). control_step H1 Hst. intros w2 x w3 H2 [_ ->].
    assert (H3 : closed (with_tables w2 (snd (FailMigrationRun id (fl_cause f) (nt_now w2) (nt_tables w2))))) by (by apply close_C).
    split; [apply H3|]. apply closed_before. apply holds_bind. eapply holds_post; [by apply mark_failed_C|done]. }
  destruct (fl_sides f) as [si|] eqn:Es; [|by apply Htail]. by apply undo_sides_C; [|apply Hg|].
Qed.

Lemma work_C p run w : standing p w -> mr_Phase run = p ->
  holds control (fun w => before w \/ committed w) (work s id run) (fun _ w' => closed w' \/ committed w') w.
Proof using urls_differ OK.
  intros Hw Hp. unfold work. apply holds_bind. eapply holds_mono; [| |by eapply attempt_C].
  - intros w1 [[Hl _ _ _ _]|Hc]; [by left|by right].
  - intros [[]|f] w1 H1; [by right|]. destruct H1 as [Hl Hg].
    eapply holds_mono with (I := before) (Q := fun _ => closed); [by left|by left|].
    apply fail_C; [apply (lv_before _ Hl)|exact Hg].
Qed.

(** *** Cancellation *)

Lemma cancel_side_C m t direction url expires w : before w ->
  m_ID m = id -> m_ServerID m = server -> pt_NodeURL t = url ->
  (forall reg w, before w -> claims_of (rg_Claims reg) direction ->
     holds (node_at url) before (registerTransferCredential reg) (fun _ => before) w) ->
  (forall c w, before w -> holds (node_at url) before (cancelProtocolTransfer id c) (fun _ => before) w) ->
  undoing (cancel_side m t direction expires) (fun _ => before) w.
Proof using urls_differ.
  intros Hw E1 E2 E3 Hreg Hcan. unfold cancel_side, register_on, mignore. rewrite E3.
  apply C_undo; [done|by intros w0 x w1 H0 ->|]. intros [c|e] w1 H1; [|done].
  apply C_undo; [done| |].
  { intros w2 x w3 H2 Hc. eapply call_before; [exact H2| |exact Hc]. intros w4 H4. by apply Hreg. }
  intros [[]|e] w2 H2; [|done]. rewrite E1.
  apply C_undo; [done| |by intros x w3 H3].
  intros w3 x w4 H3 Hc. eapply call_before; [exact H3| |exact Hc]. intros w5 H5. by apply Hcan.
Qed.

Lemma cancel_end_C w : before w -> undoing (
   request (CancelRun id) ;;^
   let^ r := request (SetStatus id "cancelled" "migration cancelled") in
   match r with
   | Failed e => Ret (Failed e)
   | Got migration =>
       (match ms_reservations s with
        | Some mgr => lift (CancelMigrationReservations (Some mgr) (m_ID migration)) | None => Ret tt end) ;;^
       publish_migration s "MigrationCancelled" (m_ID migration) ;;^
       Ret (Got migration)
   end) (fun _ => closed) w.
Proof using urls_differ.
  intros Hw. assert (Hst := before_envs). control_step Hw Hst. intros w0 x w1 Hw0 [_ ->].
  assert (H1 : closed (with_tables w0 (snd (CancelMigrationRun id (nt_now w0) (nt_tables w0))))) by (by apply close_C).
  split; [apply H1|]. apply closed_before. assert (Hst' := closed_envs). control_step H1 Hst'. intros w2 y w3 Hw2 Hs.
  assert (H3 : closed w3) by (eapply closed_states; [exact Hw2|exact Hs|apply step_status]). split; [done|].
  destruct y as [m|e]; [|exact H3]. eapply (C_only light); [exact closed_envs|exact light_closed| |exact H3].
  apply only_bind; [destruct (ms_reservations s); [apply update_reservations_light|exact I]|intros _].
  apply only_bind; [apply publish_light|done].
Qed.

(** The three states a migration can be found in. *)
Definition kept (w : Net) : Prop := live w \/ closed w \/ committed w.

Lemma kept_envs w w' : kept w -> rtc env w w' -> kept w'.
Proof using urls_differ.
  intros [H|[H|H]] Hr; [left; by eapply live_rtc|right; left; by eapply closed_envs|right; right; by eapply committed_envs].
Qed.

Lemma kept_before w : kept w -> before w \/ committed w.
Proof using Type. intros [H|[H|H]]; [left; by apply lv_before|left; apply H|by right]. Qed.

Lemma cancel_C w : kept w ->
  holds control (fun w => before w \/ committed w) (CancelMigration s id) (fun _ => kept) w.
Proof using urls_differ.
  intros Hw. unfold CancelMigration, ReadMigration. assert (Hst := kept_envs). control_step Hw Hst. intros w0 x w1 Hw0 [Hx ->].
  split; [by apply kept_before|]. destruct x as [m|e]; [|exact Hw0].
  destruct (terminal_phase (m_Status m)) eqn:Et; [exact Hw0|].
  assert (Hb : before w0).
  { destruct Hw0 as [H|[H|H]]; [by apply lv_before|apply H|]. exfalso. destruct (cm_row _ H) as (row & Hrow & Hs).
    destruct Hx as [Hx|[e Hx]]; [|done]. unfold GetMigration in Hx. rewrite Hrow in Hx. injection Hx as ->.
    cbn in Et. by rewrite Hs in Et. }
  destruct (read_migration _ _ (bf_row _ Hb) Hx m eq_refl) as [E1 E2].
  eapply holds_mono with (I := before) (Q := fun _ => closed); [by left|by right; left|].
  apply C_undo; [done|by intros w2 y w3 H2 ->|]. intros _ w2 H2.
  destruct (ms_daemon s); [|by apply cancel_end_C]. apply holds_bind.
  assert (Hst' := before_envs). control_step H2 Hst'. intros w3 y w4 H3 [Hy ->]. split; [done|].
  destruct y as [[src tgt]|e]; [|by apply cancel_end_C].
  destruct Hy as [(p & [= <-] & Hp)|[e Hy]]; [|done]. destruct (read_sides _ _ H3 Hp) as (F1 & F2 & F3 & F4). cbn in F1, F2.
  apply C_undo; [done|by intros w5 z w6 H5 [_ ->]|]. intros now w5 H5.
  apply holds_bind. eapply holds_post.
  { apply (cancel_side_C m src DirectionSourceControl S_url); [done..| |].
    - intros reg w6 H6 Hr. by apply register_S.
    - intros c w6 H6. by apply cancel_S. }
  intros a w6 H6. eapply holds_post.
  { apply (cancel_side_C m tgt DirectionDestinationUpload T_url); [done..| |].
    - intros reg w7 H7 _. by apply register_T_before.
    - intros c w7 H7. apply T_unstarted; [apply cancel_requests|done]. }
  intros a7 w7 H7. by apply cancel_end_C.
Qed.
End Worker.

(** ** A migration over time *)

(** A worker before its rollback. *)
Definition take_over (s : MigrationService) : M unit :=
  let^ r := request (ClaimRun id (ms_workerID s) (2 * Minute)) in
  match r with Failed _ => Ret tt | Got run => mignore (attempt s id run) end.

(** One thing after the other: the rest of the system moves; a worker is
    stopped anywhere before its rollback; a worker runs to its end, through its
    rollback if there is one; the migration is cancelled. *)
Inductive advances : Net -> Net -> Prop :=
| ev_rest w w' : env w w' -> advances w w'
| ev_stopped s w o w' : runs control (take_over s) w o w' -> advances w w'
| ev_worker s w w' : runs control (Migration.run s id) w (Some tt) w' -> advances w w'
| ev_cancel s w x w' : runs control (CancelMigration s id) w (Some x) w' -> advances w w'.

Notation marked := (marked_step valid_destination node_url id server).

(** The same with the mark: besides losing the outcome of a statement, a worker
    or a cancellation that is stopped in its rollback sets it. *)
Inductive evolves : Net * bool -> Net * bool -> Prop :=
| em_rest w w' b : env w w' -> evolves (w, b) (w', b)
| em_stopped s w o w' : runs marked (take_over s) w o w' -> evolves w w'
| em_worker s w w' : runs marked (Migration.run s id) w (Some tt) w' -> evolves w w'
| em_cancel s w x w' : runs marked (CancelMigration s id) w (Some x) w' -> evolves w w'
| em_cut s w o w' b : runs marked (Migration.run s id) w o (w', b) -> evolves w (w', true)
| em_cut_cancel s w o w' b : runs marked (CancelMigration s id) w o (w', b) -> evolves w (w', true).

Lemma evolves_sure w w' : evolves w w' -> w'.2 = false -> w.2 = false /\ advances w.1 w'.1.
Proof using Type.
  intros H Hb. destruct H as [w w' b He|s w o w' Hr|s w w' Hr|s w x w' Hr|s w o w' b Hr|s w o w' b Hr]; try done.
  - split; [exact Hb|by apply ev_rest].
  - destruct (marked_sure _ _ _ _ _ _ _ _ Hr Hb) as [E H]. split; [exact E|by eapply ev_stopped].
  - destruct (marked_sure _ _ _ _ _ _ _ _ Hr Hb) as [E H]. split; [exact E|by eapply ev_worker].
  - destruct (marked_sure _ _ _ _ _ _ _ _ Hr Hb) as [E H]. split; [exact E|by eapply ev_cancel].
Qed.

Lemma evolves_path w w' : rtc evolves w w' -> w'.2 = false -> w.2 = false /\ rtc advances w.1 w'.1.
Proof using Type.
  induction 1 as [w|w1 w2 w3 H _ IH]; intros Hb; [by split|]. destruct (IH Hb) as [E2 H2].
  destruct (evolves_sure _ _ H E2) as [E1 H1]. split; [exact E1|by eapply rtc_l].
Qed.

(** Before the first worker: the source has the server, the nodes have no
    transfer of this migration, the server runs nowhere else. *)
Record prepared (w : Net) : Prop := {
  pp_row : recorded w;
  pp_run : exists r, run_of w = Some r /\ mr_Phase r = "planned";
  pp_owner : owner_of w = Some source;
  pp_data : data_at S_url w = Some (nt_latest w);
  pp_source : dir_at S_url w = no_dir;
  pp_target : dir_at T_url w = no_dir;
  pp_stopped url : url <> S_url -> stopped url w
}.

(** The node the tables name has what the workload wrote last, or what was
    carried over of it, configured. *)
Definition owner_has_data (w : Net) : Prop :=
  exists node t, owner_of w = Some node /\ data_at (node_url node) w = Some t /\
    (t = nt_latest w \/ rtc patch (carried (nt_latest w)) t).

Lemma prepared_live w : prepared w -> live w.
Proof using Type.
  intros [H1 (r & Hr & Hp) H3 H4 H5 H6 H7]. assert (Hno : forall d, td_meta no_dir !! d = None) by done.
  assert (Hph : phase_of w = "planned") by (by rewrite <- (phase_run _ _ Hr)). split.
  - split; try done.
    + exists r. by rewrite Hp.
    + rewrite H5. by intros d m Hm; rewrite Hno in Hm.
    + by rewrite H5.
  - by rewrite Hph.
  - unfold source_meta. rewrite H5. intros ms Hms. by rewrite Hno in Hms.
  - unfold source_meta. rewrite H5. intros ms Hms. by rewrite Hno in Hms.
  - rewrite H6. split; [by intros d m Hm; rewrite Hno in Hm|by intros md Hm; rewrite Hno in Hm..|].
    rewrite Hph. by vm_compute.
Qed.

Lemma before_data w : before w -> owner_has_data w.
Proof using Type. intros H. exists source, (nt_latest w). split; [apply (bf_owner _ H)|]. split; [apply (bf_data _ H)|by left]. Qed.

Lemma committed_data w : committed w -> owner_has_data w.
Proof using Type. intros [_ _ H _ (t & H1 & H2)]. by exists target, t. Qed.

Lemma sound_data w : before w \/ committed w -> owner_has_data w.
Proof using Type. intros [H|H]; [by apply before_data|by apply committed_data]. Qed.

(** A worker that claims the run knows its phase. *)
Lemma claim_step w worker lease x w' : kept w -> sure_step valid_destination node_url id server _ (ClaimRun id worker lease) w x w' ->
  kept w' /\ forall r, x = Got r -> standing (mr_Phase r) w'.
Proof using Type.
  intros Hw Hs. destruct (step_claim worker lease (nt_now w) (nt_tables w)) as (f & Hf & Hph & Hgot).
  assert (Hk : kept w').
  { destruct (states_cases _ _ _ _ Hs) as [->| ->]; [done|]. destruct Hw as [H|[[Hb Ho]|H]].
    - left. by eapply live_same.
    - right; left. destruct (bf_run _ Hb) as (r & Hr & Hp). split.
      + eapply before_tables; [done..|]. intros r' Hr'. rewrite Hph. rewrite Hr in Hr'. by injection Hr' as <-.
      + unfold Network.over in *. by rewrite (phase_tables _ _ _ _ Hf Hr), Hph, (phase_run _ _ Hr).
    - right; right. eapply committed_tables; [done..| |intros r _; apply Hph].
      unfold ClaimMigrationRun. destruct (tb_runs _ !! id); [|done]. destruct (negb _); [done|]. by destruct (negb _). }
  split; [exact Hk|]. intros r ->. destruct Hs as [[Hx ->]|[[e He] _]]; [|done]. symmetry in Hx.
  destruct (Hgot r Hx) as (r0 & Hr0 & E & Hopen). rewrite E.
  assert (Hp : phase_of (with_tables w (snd (ClaimMigrationRun id worker lease (nt_now w) (nt_tables w)))) = mr_Phase r0).
  { rewrite (phase_tables _ _ _ _ Hf Hr0). apply Hph. }
  split; [|exact Hp]. destruct Hk as [H|[[_ H]|H]]; [done| |].
  - unfold Network.over in H. rewrite Hp in H. congruence.
  - destruct (cm_run _ H) as (rc & Hrc & Hc). rewrite <- (phase_run _ _ Hrc), Hc in Hp. by rewrite <- Hp in Hopen.
Qed.

Lemma claim_C {A} (I : Net -> Prop) s (k : MigrationRun -> M A) (stop : M A) Q w :
  (forall w, kept w -> I w) -> kept w -> (forall w, kept w -> holds control I stop Q w) ->
  (forall r w, standing (mr_Phase r) w -> holds control I (k r) Q w) ->
  holds control I
    (pbind (request (ClaimRun id (ms_workerID s) (2 * Minute))) (fun r => match r with Failed _ => stop | Got run => k run end)) Q w.
Proof using urls_differ.
  intros HI Hw Hstop Hk. eapply C_step; [exact kept_envs|exact Hw|]. intros w0 x w1 Hw0 Hs.
  destruct (claim_step _ _ _ _ _ Hw0 Hs) as [H1 H2]. split; [by apply HI|].
  destruct x as [r|e]; [by apply Hk, H2|by apply Hstop].
Qed.

Lemma take_over_C s w : kept w -> holds control kept (take_over s) (fun _ => kept) w.
Proof using urls_differ OK.
  intros Hw. unfold take_over. apply (claim_C kept s (fun run => mignore (attempt s id run))); [done|done|by intros|].
  intros r w1 H1. unfold mignore. apply holds_bind. eapply holds_mono; [| |by eapply attempt_C].
  - intros w2 [H|H]; [left; exact H|right; right; exact H].
  - intros [[]|f] w2 H2; [right; right; exact H2|left; apply H2].
Qed.

Lemma run_C s w : kept w ->
  holds control (fun w => before w \/ committed w) (Migration.run s id) (fun _ => kept) w.
Proof using urls_differ OK.
  intros Hw. unfold Migration.run. apply holds_bind. apply (claim_C _ s (work s id)); [exact kept_before|done| |].
  - intros w1 H1. eapply C_step; [exact kept_envs|exact H1|]. intros w2 x w3 H2 ->. split; [by apply kept_before|done].
  - intros r w1 H1. eapply holds_post; [by eapply work_C|]. intros a w2 H2. assert (Hk : kept w2) by (by right).
    eapply C_step; [exact kept_envs|exact Hk|]. intros w3 x w4 H3 ->. split; [by apply kept_before|done].
Qed.

Lemma advances_kept w w' : kept w -> advances w w' -> kept w'.
Proof using urls_differ OK.
  intros Hw H. revert Hw. destruct H as [w1 w2 He|s w1 o w2 Hr|s w1 w2 Hr|s w1 x w2 Hr]; intros Hw.
  - eapply kept_envs; [exact Hw|by apply rtc_once].
  - by destruct (runs_holds _ _ _ _ _ _ _ Hw (take_over_C s w1 Hw) Hr).
  - destruct (runs_holds _ _ _ _ _ _ _ (kept_before _ Hw) (run_C s w1 Hw) Hr) as [_ H]. by apply (H tt).
  - destruct (runs_holds _ _ _ _ _ _ _ (kept_before _ Hw) (cancel_C s w1 Hw) Hr) as [_ H]. by apply (H x).
Qed.

Lemma reached_kept w0 w : prepared w0 -> rtc advances w0 w -> kept w.
Proof using urls_differ OK.
  intros Hp H. assert (Hk : kept w0) by (left; by apply prepared_live). clear Hp.
  induction H as [|w1 w2 w3 H1 _ IH]; [done|]. by apply IH, (advances_kept w1).
Qed.

(** C2: The data of the server are not lost: whatever workers stop before their
    rollback, machines fail, statements fail and answers get lost, at every
    moment of a worker, of its rollback or of a cancellation the node that the
    tables name as the owner of the server has its data (what the workload wrote
    last or, on the target, what was carried over of it) - as long as every
    rollback so far ended, the statement that closes the run took effect, and
    the commit reported truthfully; the code ignores the errors of the closing
    statements, and nothing is claimed once one was lost.  Workers and
    cancellations follow one another, only the workload changes the data and the
    server is not started from outside while the migration is open; the cleanup
    that a later pass repeats is not covered (it can delete the data of the new
    owner). *)
Theorem owner_keeps_data s w0 w b o w1 b1 : prepared w0 -> rtc evolves (w0, false) (w, b) ->
  runs marked (Migration.run s id) (w, b) o (w1, b1) \/
  (exists o', runs marked (CancelMigration s id) (w, b) o' (w1, b1)) ->
  b1 = false -> owner_has_data w1.
Proof using urls_differ OK.
  intros Hp Hr H Hb. apply sound_data. destruct H as [H|[o' H]].
  - destruct (marked_sure _ _ _ _ _ _ _ _ H Hb) as [E H1]. destruct (evolves_path _ _ Hr E) as [_ Hr1].
    assert (Hk := reached_kept _ _ Hp Hr1). by destruct (runs_holds _ _ _ _ _ _ _ (kept_before _ Hk) (run_C s w Hk) H1).
  - destruct (marked_sure _ _ _ _ _ _ _ _ H Hb) as [E H1]. destruct (evolves_path _ _ Hr E) as [_ Hr1].
    assert (Hk := reached_kept _ _ Hp Hr1). by destruct (runs_holds _ _ _ _ _ _ _ (kept_before _ Hk) (cancel_C s w Hk) H1).
Qed.

(** ** A migration ends *)

Context (target_on : string -> string -> ServerProvisionTarget)
        (target_on_url : forall node s, pt_NodeURL (target_on node s) = node_url node)
        (target_on_id : forall node s, pt_ServerID (target_on node s) = s).

(** Requests are always answered somehow. *)
Lemma control_total X (e : MEff X) w : exists x w', control X e w x w'.
Proof using target_on_url target_on_id.
  exists (fst (serve_system valid_destination target_on "" X e w)), (snd (serve_system valid_destination target_on "" X e w)).
  by apply serve_system_step.
Qed.

(** C7: After any history in which every rollback ended and the outcome of every
    statement that commits the move or closes the run was known, a run that is
    open and whose lease has expired is found by the next pass, which can claim
    it.  The worker that claimed it, if nobody stops it, has a run to its end;
    and every run to its end leaves the migration committed or closed with the
    data at the owner, unless the outcome of one of these statements is lost on
    the way (their errors are ignored by the code: the run can then stay open).
    The other assumptions are those of the previous property. *)
Theorem migration_settles s w0 w r : prepared w0 -> rtc evolves (w0, false) (w, false) -> run_of w = Some r ->
  ~ over w -> (forall e, mr_lease_expires_at r = Some e -> Before e (nt_now w) = true) -> int4 (mr_Attempt r + 1) = true ->
  In id (ReclaimableMigrationIDs (nt_now w) (nt_tables w)) /\
  (exists r', fst (ClaimMigrationRun id (ms_workerID s) (2 * Minute) (nt_now w) (nt_tables w)) = Got r' /\
     let w1 := with_tables w (snd (ClaimMigrationRun id (ms_workerID s) (2 * Minute) (nt_now w) (nt_tables w))) in
     (exists w2, runs marked (work s id r') (w1, false) (Some tt) (w2, false)) /\
     forall w2 lost, runs marked (work s id r') (w1, false) (Some tt) (w2, lost) ->
       lost = true \/ over w2 /\ owner_has_data w2).
Proof using urls_differ OK target_on_url target_on_id.
  intros Hp Hr Hrun Hopen Hlease Hint. destruct (evolves_path _ _ Hr eq_refl) as [_ Hr1]. assert (Hk := reached_kept _ _ Hp Hr1).
  assert (Hph : terminal_phase (mr_Phase r) = false).
  { unfold Network.over, Network.phase_of in Hopen. rewrite Hrun in Hopen. by apply not_true_is_false. }
  assert (Hc : claimable (ms_workerID s) (nt_now w) r = true).
  { unfold claimable. rewrite Hph. cbn [negb andb]. destruct (mr_lease_expires_at r) as [e|]; [|done]. by rewrite Hlease. }
  set (x := ClaimMigrationRun _ _ _ _ _).
  assert (Hs : sure_step valid_destination node_url id server _ (ClaimRun id (ms_workerID s) (2 * Minute)) w (fst x) (with_tables w (snd x))) by (by left).
  assert (Hgot : exists r', fst x = Got r').
  { unfold x, ClaimMigrationRun. unfold Network.run_of in Hrun. rewrite Hrun, Hc, Hint. cbn [negb fst]. unfold GetMigrationRun.
    unfold set_run. change (tb_runs (?t <| tb_runs := ?m |>)) with m. rewrite lookup_alter_eq, Hrun. by eexists. }
  destruct Hgot as [r' Hr']. destruct (claim_step _ _ _ _ _ Hk Hs) as [_ Hst]. specialize (Hst r' Hr'). split.
  - unfold ReclaimableMigrationIDs, run_ids. apply list_elem_of_In, list_elem_of_fmap. exists (id, r). split; [done|].
    rewrite (isort_perm _ _). apply list_elem_of_filter. split; [|by apply elem_of_map_to_list].
    cbn [snd]. rewrite Hph. cbn [negb andb]. destruct (mr_lease_expires_at r) as [e|]; [|done]. by apply Hlease.
  - exists r'. split; [exact Hr'|]. split.
    + destruct (runs_total control (work s id r') (with_tables w (snd x)) control_total) as ([] & w2 & H).
      exists w2. by apply sure_marked.
    + intros w2 [] Hm; [by left|right]. destruct (marked_sure _ _ _ _ _ _ _ _ Hm eq_refl) as [_ H]. cbn [fst] in H. assert (Hb : before (with_tables w (snd x)) \/ committed (with_tables w (snd x))) by (left; apply lv_before, Hst).
      destruct (runs_holds _ _ _ _ _ _ _ Hb (work_C s _ r' _ Hst eq_refl) H) as [H1 H2].
      split; [|by apply sound_data]. destruct (H2 tt eq_refl) as [[_ Ho]|Hcm]; [exact Ho|].
      destruct (cm_run _ Hcm) as (rc & Hrc & E). unfold Network.over. by rewrite <- (phase_run _ _ Hrc), E.
Qed.
End Run.

(** ** A migration that nothing disturbs

    On the archives of [ToyArchives]. *)
#[local] Existing Instances toy_archives toy_archives_ok toy_configures.

(** The server [s1] of [example_db] is to go from the node [a] to [b]. *)
Definition toy_tables : Tables :=
  let t := mkTables example_db ∅ ∅ ∅ [] in
  snd (EnsureMigrationRun "m1" ProtocolVersion "key" ∅ 600
        (snd (Migrations.CreateMigration (mkCreateMigrationRequest "s1" "a" "b") "m1" 600 t))).

Definition toy_net : Net :=
  mkNet toy_tables 600 {[toy_url "a" := mkMachine 600 ∅ {["s1" := [x61; x62]]} {["s1" := true]} ∅]} [x61; x62].

Definition toy_service : MigrationService := mkMigrationService example_scheduler None None true false true "worker".

Definition toy_serve := serve_system (fun _ => true) toy_target toy_credential.
Definition toy_worker : prog MEff unit := Migration.run toy_service "m1".
Definition toy_end : Net := world_alone toy_serve toy_worker toy_net.

Lemma toy_runs : runs (control_step (fun _ => true) toy_url "m1" "s1") toy_worker toy_net (Some tt) toy_end.
Proof.
  assert (H := runs_alone (control_step (fun _ => true) toy_url "m1" "s1") toy_serve toy_worker toy_net).
  destruct (answer_alone toy_serve toy_worker toy_net). apply H. intros X e w.
  by apply serve_system_step.
Qed.

Lemma toy_urls_differ : toy_url "a" <> toy_url "b".
Proof. done. Qed.

Lemma toy_prepared : prepared toy_url "m1" "s1" "a" "b" toy_net.
Proof.
  split; [|eexists; split; [vm_compute; reflexivity|done]|vm_compute; reflexivity..|].
  - eexists. split; [vm_compute; reflexivity|done].
  - intros url H. unfold stopped, machine, toy_net. cbn [nt_machines]. by rewrite lookup_total_singleton_ne.
Qed.

(** The worker carries the data over, configures it, commits the move and
    cleans the source. *)
Lemma owner_keeps_data_witness :
  owner_of "s1" toy_end = Some "b" /\ data_at "s1" (toy_url "b") toy_end = Some [x61; x62; x2e] /\
  data_at "s1" (toy_url "a") toy_end = None /\ owner_has_data toy_url "s1" toy_end.
Proof.
  split; [by vm_compute|]. split; [by vm_compute|]. split; [by vm_compute|].
  exact (owner_keeps_data (fun _ => true) toy_url "m1" "s1" "a" "b" toy_urls_differ toy_service toy_net toy_net
           false (Some tt) toy_end false toy_prepared (rtc_refl _ _) (or_introl (sure_marked _ _ _ _ _ _ _ _ toy_runs)) eq_refl).
Defined.

(** Before the first worker the run is free; the worker that takes it over
    ends. *)
Lemma migration_settles_witness :
  In "m1" (ReclaimableMigrationIDs (nt_now toy_net) (nt_tables toy_net)) /\
  exists r', fst (ClaimMigrationRun "m1" "worker" (2 * Minute) (nt_now toy_net) (nt_tables toy_net)) = Got r' /\
    exists w2, runs (marked_step (fun _ => true) toy_url "m1" "s1") (work toy_service "m1" r')
                 (with_tables toy_net (snd (ClaimMigrationRun "m1" "worker" (2 * Minute) (nt_now toy_net) (nt_tables toy_net))), false)
                 (Some tt) (w2, false) /\ over "m1" w2 /\ owner_has_data toy_url "s1" w2.
Proof.
  destruct (migration_settles (fun _ => true) toy_url "m1" "s1" "a" "b" toy_urls_differ toy_target
    ltac:(done) ltac:(done) toy_service toy_net toy_net (mkMigrationRun ProtocolVersion "planned" "key" 0 None None (Some "p3") 0 "" false "" 600)
    toy_prepared (rtc_refl _ _) ltac:(by vm_compute) ltac:(by vm_compute) ltac:(done) ltac:(by vm_compute)) as [H1 (r' & H2 & (w2 & H3) & H4)].
  split; [exact H1|]. exists r'. split; [exact H2|]. exists w2. split; [exact H3|].
  destruct (H4 w2 false H3) as [E|H]; [discriminate|exact H].
Defined.

(** ** The repeated cleanup

    When the destination does not hear of the commit, the data of the source
    and the container wait for the next pass.  It looks up the node of the
    server, which is the target by now, registers itself there as the source,
    and deletes what the server runs on. *)
Definition unheard (X : Type) (e : MEff X) (w : Net) : X * Net :=
  match e in MEff X return X * Net with
  | OnTransfer url c =>
      match c in TransferCall A return result A * Net with
      | FinalizeTransferDestination _ _ => (Err "timeout", w)
      | c => toy_serve _ (OnTransfer url c) w
      end
  | e => toy_serve _ e w
  end.

Lemma cleanup_deletes_the_new_owner :
  let w := world_alone unheard toy_worker toy_net in
  let w' := world_alone toy_serve (cleanupMigration "m1") w in
  owner_of "s1" w = Some "b" /\ data_at "s1" (toy_url "b") w = Some [x61; x62; x2e] /\
  answer_alone toy_serve (cleanupMigration "m1") w = Got tt /\
  owner_of "s1" w' = Some "b" /\ data_at "s1" (toy_url "b") w' = None.
Proof. by vm_compute. Qed.
