(* ===== verification/TransferRules.v ===== *)
(** * What the transfer protocol refuses

    The handlers of [Transfer] on their own.  Whatever a machine answers, a
    handler touches nothing on it before it has read a credential that is
    registered for the transfer, unexpired and not consumed.
    [Delivery] says what it delivers. *)
From Stdlib Require Import ZArith Lia Ascii Init.Byte.
From stdpp Require Import base gmap strings list fin_maps.
From coqutil Require Import Datatypes.RecordSettersUsingExistingGetters.
From S2P Require Import Prelude GoStrings Programs Transfer Network ToyArchives.
Import RecordSetNotations1.
#[local] Open Scope string_scope.
#[local] Open Scope list_scope.
#[local] Open Scope Z_scope.
#[local] Open Scope go_scope.

(** ** Requests in their order

    [lawful allowed p past]: after the exchanges [past], every request of [p]
    is one that what came before allows. *)
Section Lawful.
Context {E : Type -> Type} (allowed : list (exchange E) -> forall X, E X -> Prop).

Fixpoint lawful {A} (p : prog E A) (past : list (exchange E)) : Prop :=
  match p with
  | Ret _ => True
  | Vis e k => allowed past _ e /\ forall x, lawful (k x) (past ++ [answered e x])
  end.

Lemma lawful_bind {A B} (m : prog E A) (k : A -> prog E B) past :
  lawful m past -> (forall tr a, returns m tr a -> lawful (k a) (past ++ tr)) -> lawful (pbind m k) past.
Proof.
  revert past. induction m as [a|X e k' IH]; intros past Hm Hk; cbn [pbind].
  - specialize (Hk [] a eq_refl). by rewrite app_nil_r in Hk.
  - destruct Hm as [He Hm]. split; [exact He|]. intros x. apply IH; [apply Hm|]. intros tr a Hr.
    rewrite <- app_assoc. apply Hk. cbn. by exists x.
Qed.

Lemma lawful_request {X B} (e : E X) (k : X -> prog E B) past :
  allowed past X e -> (forall x, lawful (k x) (past ++ [answered e x])) -> lawful (pbind (request e) k) past.
Proof. by split. Qed.

Lemma lawful_only {A} (ok : forall X, E X -> Prop) (p : prog E A) past :
  (forall past X e, ok X e -> allowed past X e) -> only ok p -> lawful p past.
Proof.
  intros H. revert past. induction p as [a|X e k IH]; intros past Hp; [done|]. destruct Hp as [He Hk].
  split; [by apply H|]. intros x. by apply IH.
Qed.

(** Once [open] holds, it goes on holding, and allows everything. *)
Lemma lawful_open {A} (open : list (exchange E) -> Prop) (p : prog E A) past :
  (forall past ev, open past -> open (past ++ [ev])) -> (forall past X e, open past -> allowed past X e) ->
  open past -> lawful p past.
Proof.
  intros Hmono Hall. revert past. induction p as [a|X e k IH]; intros past Ho; [done|].
  split; [by apply Hall|]. intros x. by apply IH, Hmono.
Qed.

Lemma lawful_happened {A} (p : prog E A) past tr a tr1 X (e : E X) x tr2 :
  lawful p past -> returns p tr a -> tr = tr1 ++ answered e x :: tr2 -> allowed (past ++ tr1) X e.
Proof.
  revert past tr tr1. induction p as [b|Y e' k IH]; intros past tr tr1 Hl Hr ->; [by destruct tr1|].
  destruct Hl as [He Hl]. destruct tr1 as [|ev tr1]; cbn in Hr; destruct Hr as (y & Hev & Hr).
  - rewrite app_nil_r. change (allowed past _ (fst (projT2 (answered e x)))). by rewrite Hev.
  - subst ev. specialize (IH y (past ++ [answered e' y]) _ tr1 (Hl y) Hr eq_refl). by rewrite <- app_assoc in IH.
Qed.
End Lawful.

(** ** Nothing without a credential *)

Section Rules.
Context {AR : Archives}.

(** Reading the clock, the metadata, the table of running operations, and
    asking the other side how much it has. *)
Definition looks (X : Type) (e : NodeEff X) : Prop :=
  match e with
  | Now | CtxErr | LoadMeta _ _ | IsActive _ | HeadOffset _ _ _ => True
  | _ => False
  end.

(** Before [past] ended, a metadata file of the transfer was read whose
    credential is this one, not consumed, and then a time before it expires. *)
Definition authorised (id credential : string) (past : list (exchange NodeEff)) : Prop :=
  exists direction m now past1 past2 past3,
    past = past1 ++ answered (LoadMeta id direction) (Ok (Some m)) :: past2 ++ answered Now now :: past3 /\
    x_MigrationID m = id /\ x_Direction m = direction /\ x_CredentialHash m = HashCredential credential /\
    x_ConsumedAt m = None /\ Before now (x_ExpiresAt m) = true.

Definition permitted (id credential : string) (past : list (exchange NodeEff)) (X : Type) (e : NodeEff X) : Prop :=
  looks X e \/ authorised id credential past.

(** The requests a node answers to whoever holds a credential. *)
Inductive protected (valid_destination : string -> bool) (id credential : string) : forall A, N (reply A) -> Prop :=
| pr_prepare : protected valid_destination id credential _ (prepareTransferSource id credential)
| pr_push push : protected valid_destination id credential _ (pushTransferSource valid_destination id credential push)
| pr_offset : protected valid_destination id credential _ (destinationTransferOffset id credential)
| pr_receive offset length checksum body :
    protected valid_destination id credential _ (receiveTransferChunk (mkUpload credential id offset length checksum) body)
| pr_restore : protected valid_destination id credential _ (restoreTransferDestination id credential)
| pr_finalize : protected valid_destination id credential _ (finalizeTransferDestination id credential)
| pr_cleanup : protected valid_destination id credential _ (cleanupTransferSource id credential)
| pr_cancel : protected valid_destination id credential _ (cancelProtocolTransfer id credential).

Section Credential.
Context (id credential : string).
Notation lawful := (lawful (permitted id credential)).

Lemma authorised_more past tr : authorised id credential past -> authorised id credential (past ++ tr).
Proof using Type.
  intros (d & m & now & p1 & p2 & p3 & -> & H). exists d, m, now, p1, p2, (p3 ++ tr). split; [|exact H].
  by rewrite <- app_assoc, <- app_comm_cons, <- app_assoc, <- app_comm_cons.
Qed.

Lemma lawful_if {A} (b : bool) (p q : N A) past : lawful p past -> lawful q past -> lawful (if b then p else q) past.
Proof using Type. by destruct b. Qed.

Lemma lawful_authorised {A} (p : N A) past : authorised id credential past -> lawful p past.
Proof using Type.
  intros H. apply (lawful_open _ (authorised id credential)); [| |exact H].
  - intros past' ev H'. by apply authorised_more.
  - intros past' X e H'. by right.
Qed.

Lemma lawful_looks {A} (p : N A) past : only looks p -> lawful p past.
Proof using Type. apply lawful_only. intros; by left. Qed.

Lemma authorize_looks direction : only looks (authorizeLocked id direction credential).
Proof using Type.
  unfold authorizeLocked, load. destruct (negb (_ && _)); [done|]. split; [done|]. intros [[m|]|e]; [|done..].
  cbn [pbind]. destruct (validateMetadata m); [done|]. destruct (negb _); [done|]. destruct (x_ConsumedAt m); [done|].
  split; [done|]. intros now. cbn [pbind]. by repeat case_match.
Qed.

(** Who is let in holds a credential. *)
Lemma authorize_authorised direction tr m past :
  returns (authorizeLocked id direction credential) tr (Done m) -> authorised id credential (past ++ tr).
Proof using Type.
  unfold authorizeLocked, load. case_match; [by destruct tr as [|? []]|].
  intros H1. apply returns_request in H1 as (r & tr' & -> & H1).
  destruct r as [[meta|]|]; [|by destruct tr' as [|? []]..].
  destruct (validateMetadata meta); [by destruct tr' as [|? []]|].
  destruct (negb ((x_Version meta =? _) && _ && _)%string) eqn:Eb; [by destruct tr' as [|? []]|].
  destruct (x_ConsumedAt meta) eqn:Ec; [by destruct tr' as [|? []]|].
  apply returns_request in H1 as (now & tr2 & -> & H1).
  destruct (negb (Before _ _)) eqn:Et; [by destruct tr2|]. destruct (negb (HashCredential _ =? _)%string) eqn:Eh; [by destruct tr2|].
  destruct tr2; [|done]. apply negb_false_iff in Eb, Et, Eh. apply andb_prop in Eb as [Eb Ed]. apply andb_prop in Eb as [_ Ei].
  seqb. injection H1 as <-. exists direction, meta, now, past, [], []. by split_and!.
Qed.

Lemma lawful_rbind {A B} (p : N (reply A)) (k : A -> N (reply B)) past :
  only looks p -> (forall tr a, returns p tr (Done a) -> authorised id credential (past ++ tr)) ->
  lawful (rbind p k) past.
Proof using Type.
  intros Hp H. apply lawful_bind; [by apply lawful_looks|]. intros tr [a|e] Hr; [|done]. apply lawful_authorised, (H tr a), Hr.
Qed.

Lemma lawful_authorize {B} direction (k : Metadata -> N (reply B)) past :
  lawful (rbind (authorizeLocked id direction credential) k) past.
Proof using Type.
  apply lawful_rbind; [apply authorize_looks|]. intros tr m. apply authorize_authorised.
Qed.

(** [SourceArchive] authorises by itself. *)
Lemma lawful_source_archive {B} offset (k : reply (Bytes * Metadata) -> N B) past :
  (forall e past, lawful (k (Refused e)) past) -> lawful (pbind (SourceArchive id credential offset) k) past.
Proof using Type.
  intros Hk. unfold SourceArchive. destruct (negb (safeID id)); [apply Hk|].
  apply lawful_bind; [apply lawful_authorize|]. intros tr r Hr. apply returns_bind in Hr as (a & tr1 & tr2 & -> & H1 & H2).
  destruct a as [m|e].
  - apply lawful_authorised. rewrite app_assoc. apply authorised_more, (authorize_authorised _ _ _ _ H1).
  - destruct tr2; [|done]. rewrite <- H2. apply Hk.
Qed.

Lemma lawful_push_once req past : lawful (push_once id credential req) past.
Proof using Type.
  apply lawful_request; [by left|]. intros [e| |e|offset]; try done. destruct (offset <? 0); [done|].
  by apply lawful_source_archive.
Qed.

Lemma lawful_push valid_destination push past : lawful (pushTransferSource valid_destination id credential push) past.
Proof using Type.
  unfold pushTransferSource, with_id, pushArchive.
  repeat (match goal with |- lawful (if ?b then _ else _) _ => destruct b; [done|] end).
  generalize 4%nat as n. intros n. revert past. induction n as [|n IH]; intros past; [done|].
  apply lawful_bind; [apply lawful_push_once|]. intros tr [r|] _; [done|apply IH].
Qed.

Lemma protected_lawful valid_destination A (p : N (reply A)) : protected valid_destination id credential A p -> lawful p [].
Proof using Type.
  intros []; [|apply lawful_push|..]; unfold prepareTransferSource, destinationTransferOffset, receiveTransferChunk, restoreTransferDestination,
    finalizeTransferDestination, cleanupTransferSource, cancelProtocolTransfer, with_id, Authorize, DestinationOffset,
    AppendDestination, RestoreDestination, FinalizeDestination; cbn [up_MigrationID up_Credential up_Checksum up_Offset up_Length];
    repeat (apply lawful_if; [done|]); try apply lawful_authorize.
  - apply lawful_rbind; [by destruct (negb _); [|apply authorize_looks]|]. intros tr m. destruct (negb _); [by destruct tr|].
    apply authorize_authorised.
  - apply lawful_bind; [apply lawful_looks, authorize_looks|]. intros tr [m|e] Hr.
    + apply lawful_authorised, (authorize_authorised _ _ _ _ Hr).
    + apply lawful_bind; [apply lawful_looks, authorize_looks|]. intros tr' [m|e'] Hr'; [|done].
      apply lawful_authorised, (authorize_authorised _ _ _ _ Hr').
Qed.
(** An answer is only given under a credential. *)
Definition earns {A} (p : N (reply A)) : Prop :=
  forall past tr a, returns p tr (Done a) -> authorised id credential (past ++ tr).

Lemma earns_refuse {A} e : earns (refuse e : N (reply A)).
Proof using Type. by intros past [|? []] a. Qed.

Lemma earns_if {A} (b : bool) (p q : N (reply A)) : earns p -> earns q -> earns (if b then p else q).
Proof using Type. by destruct b. Qed.

Lemma earns_authorize {B} direction (k : Metadata -> N (reply B)) : earns (rbind (authorizeLocked id direction credential) k).
Proof using Type.
  intros past tr b Hr. apply returns_bind in Hr as ([m|e] & tr1 & tr2 & -> & H1 & H2); [|by destruct tr2].
  rewrite app_assoc. apply authorised_more, (authorize_authorised _ _ _ _ H1).
Qed.

Lemma earns_source offset : earns (SourceArchive id credential offset).
Proof using Type. unfold SourceArchive. destruct (negb (safeID id)); [apply earns_refuse|apply earns_authorize]. Qed.

Lemma earns_offset : earns (DestinationOffset id credential).
Proof using Type.
  unfold DestinationOffset. destruct (negb (safeID id)); [apply earns_refuse|]. intros past tr m. apply authorize_authorised.
Qed.

Lemma push_once_authorised req past tr m :
  returns (push_once id credential req) tr (Some (Done m)) -> authorised id credential (past ++ tr).
Proof using Type.
  intros H. apply returns_request in H as ([e| |e|offset] & tr1 & -> & H); [by destruct tr1|by destruct tr1..|].
  destruct (offset <? 0); [by destruct tr1|]. apply returns_bind in H as ([[body ms]|e] & tr2 & tr3 & -> & H & Hr);
    [|by destruct tr3]. rewrite app_comm_cons, app_assoc. apply authorised_more.
  rewrite cons_middle, app_assoc. revert H. apply earns_source.
Qed.

Lemma earns_push valid_destination push : earns (pushTransferSource valid_destination id credential push).
Proof using Type.
  unfold pushTransferSource, with_id, pushArchive.
  repeat (match goal with |- earns (if ?b then _ else _) => destruct b; [apply earns_refuse|] end).
  generalize 4%nat as n. intros n. induction n as [|n IH]; [apply earns_refuse|].
  intros past tr a Hr. apply returns_bind in Hr as ([r|] & tr1 & tr2 & -> & H1 & H2).
  - destruct tr2; [|done]. cbn in H2. subst r. rewrite app_nil_r. by eapply push_once_authorised.
  - rewrite app_assoc. by eapply IH.
Qed.

Lemma protected_done valid_destination A (p : N (reply A)) : protected valid_destination id credential A p -> earns p.
Proof using Type.
  intros []; [|apply earns_push|..]; unfold prepareTransferSource, destinationTransferOffset, receiveTransferChunk, restoreTransferDestination,
    finalizeTransferDestination, cleanupTransferSource, cancelProtocolTransfer, with_id, Authorize, AppendDestination,
    RestoreDestination, FinalizeDestination, CleanupSource; cbn [up_MigrationID up_Credential up_Checksum up_Offset up_Length];
    repeat (apply earns_if; [apply earns_refuse|]); try apply earns_authorize.
  - intros past tr a Hr. apply returns_bind in Hr as ([m|e] & tr1 & tr2 & -> & H1 & H2); [|by destruct tr2].
    rewrite app_assoc. apply authorised_more. revert H1. apply earns_offset.
  - intros past tr a Hr. apply returns_bind in Hr as ([m|e] & tr1 & tr2 & -> & H1 & H2); rewrite app_assoc.
    + apply authorised_more, (authorize_authorised _ _ _ _ H1).
    + apply returns_bind in H2 as ([m|e'] & tr3 & tr4 & -> & H3 & H4); [|by destruct tr4].
      rewrite app_assoc. apply authorised_more, (authorize_authorised _ _ _ _ H3).
Qed.
End Credential.

(** C8: Whatever a machine answers, and whatever else happens on it, a handler
    of the transfer protocol touches no file, container or archive, and sends
    no archive, before it has read a credential file of this transfer with this
    credential, not consumed, and then a time before it expires; an answer other
    than a refusal is given under the same condition. *)
Theorem effects_are_authorised valid_destination id credential A (p : N (reply A)) tr r :
  protected valid_destination id credential A p -> returns p tr r ->
  (forall tr1 X (e : NodeEff X) x tr2, tr = tr1 ++ answered e x :: tr2 -> looks X e \/ authorised id credential tr1) /\
  (forall a, r = Done a -> authorised id credential tr).
Proof using Type.
  intros Hp Hr. split.
  - intros tr1 X e x tr2 ->. exact (lawful_happened _ _ [] _ _ tr1 _ e x tr2 (protected_lawful _ _ _ _ _ Hp) Hr eq_refl).
  - intros a ->. exact (protected_done _ _ _ _ _ Hp [] _ _ Hr).
Qed.
End Rules.

(** ** A finalization alone *)
#[local] Existing Instances toy_archives toy_configures.

Definition toy_restored : Machine :=
  mkMachine 600 {["m1" := mkDir {[DirectionDestinationUpload :=
    mkMetadata ProtocolVersion "m1" "s1" "a" "b" DirectionDestinationUpload "restored" (HashCredential "secret") 900 None 3 3 "" "" 600]}
    None None None None None]} ∅ ∅ ∅.

Lemma effects_are_authorised_witness :
  let p := finalizeTransferDestination "m1" "secret" in
  answer_alone perform p toy_restored = Done tt /\ authorised "m1" "secret" (trace_alone perform p toy_restored) /\
  td_meta (dir "m1" (world_alone perform p toy_restored)) <> td_meta (dir "m1" toy_restored).
Proof.
  split; [reflexivity|]. split; [|by intros [= H]].
  exact (proj2 (effects_are_authorised (fun _ => true) "m1" "secret" unit _ (trace_alone perform _ toy_restored) (Done tt)
    (pr_finalize _ _ _) (returns_alone perform _ toy_restored)) tt eq_refl).
Defined.
