(* ===== verification/Delivery.v ===== *)
(** * What the transfer protocol delivers

    The handlers of [Transfer] on the machines of [Network], when nothing goes
    wrong: an upload that was cut short anywhere is completed, and what is
    restored is what was archived. *)
From Stdlib Require Import ZArith Lia Ascii Init.Byte.
From stdpp Require Import base gmap strings list fin_maps.
From coqutil Require Import Datatypes.RecordSettersUsingExistingGetters.
From S2P Require Import Prelude GoStrings Programs Capacity Servers Migrations Transfer TransferRequests Network ToyArchives.
Import RecordSetNotations1.
#[local] Open Scope string_scope.
#[local] Open Scope list_scope.
#[local] Open Scope Z_scope.
#[local] Open Scope go_scope.

(** ** Evaluation

    [evaluates h p w a w']: alone, [p] returns [a] and leaves [w']. *)
Section Evaluation.
Context {E : Type -> Type} {W : Type} (h : forall X, E X -> W -> X * W).

Definition evaluates {A} (p : prog E A) (w : W) (a : A) (w' : W) : Prop :=
  answer_alone h p w = a /\ world_alone h p w = w'.

Lemma ev_ret {A} (a : A) w : evaluates (Ret a) w a w.
Proof. done. Qed.

Lemma ev_bind {A B} (m : prog E A) (k : A -> prog E B) w a w1 b w2 :
  evaluates m w a w1 -> evaluates (k a) w1 b w2 -> evaluates (pbind m k) w b w2.
Proof. intros [<- <-] [<- <-]. split; [apply answer_alone_bind|apply world_alone_bind]. Qed.

Lemma ev_request {X B} (e : E X) (k : X -> prog E B) w x w1 b w2 :
  h X e w = (x, w1) -> evaluates (k x) w1 b w2 -> evaluates (pbind (request e) k) w b w2.
Proof. intros H. apply ev_bind. split; [exact (f_equal fst H)|exact (f_equal snd H)]. Qed.
End Evaluation.

Section Delivery.
Context {AR : Archives} {OK : ArchivesOk AR} {CF : Configures AR}.

(** The credential of a direction is registered and good. *)
Record good_credential (id direction credential : string) (now : Time) (m : Metadata) : Prop := {
  gc_valid : validateMetadata m = None;
  gc_version : x_Version m = ProtocolVersion;
  gc_id : x_MigrationID m = id;
  gc_direction : x_Direction m = direction;
  gc_fresh : x_ConsumedAt m = None;
  gc_time : Before now (x_ExpiresAt m) = true;
  gc_hash : x_CredentialHash m = HashCredential credential
}.

Lemma good_id id direction credential now m : good_credential id direction credential now m ->
  safeID id = true /\ safeID (x_ServerID m) = true /\ validDirection direction = true.
Proof using Type.
  intros [H _ <- <- _ _ _]. unfold validateMetadata, validateClaims in H. cbn in H.
  repeat match type of H with (if ?b then _ else _) = _ => destruct b eqn:?; [done|] end.
  rewrite ?negb_false_iff in *. repeat match goal with H : (_ && _)%bool = true |- _ => apply andb_prop in H as [? ?] end. done.
Qed.

(** ** One machine *)
Section OneMachine.
Context (now : Time) (dirs : gmap string TransferDir) (conts : gmap string bool) (id : string).

(** A machine whose directory of the transfer is [d]. *)
Definition at_dir (d : TransferDir) (data : gmap string Tree) (active : gset string) : Machine :=
  mkMachine now (<[id := d]> dirs) data conts active.

Lemma dir_at d data active : dir id (at_dir d data active) = d.
Proof using Type. unfold dir, at_dir. cbn [mc_dirs]. apply lookup_total_insert_eq. Qed.

Lemma set_dir_at d' d data active : set_dir id d' (at_dir d data active) = at_dir d' data active.
Proof using Type. unfold set_dir, at_dir. cbn. by rewrite insert_insert_eq. Qed.

Lemma set_active_at d data active :
  perform _ (SetActive id true) (at_dir d data active) = (tt, at_dir d data ({[id]} ∪ active)).
Proof using Type. done. Qed.

Lemma set_inactive d data active : id ∉ active ->
  perform _ (SetActive id false) (at_dir d data ({[id]} ∪ active)) = (tt, at_dir d data active).
Proof using Type. intros H. cbn. unfold at_dir. cbn. by replace (({[id]} ∪ active) ∖ {[id]}) with active by set_solver. Qed.

Lemma authorize_ev direction credential d data active m : td_meta d !! direction = Some m ->
  good_credential id direction credential now m ->
  evaluates perform (authorizeLocked id direction credential) (at_dir d data active) (Done m) (at_dir d data active).
Proof using Type.
  intros Hm Hg. destruct (good_id _ _ _ _ _ Hg) as (Hi & _ & Hd). destruct Hg as [H1 H2 H3 H4 H5 H6 H7].
  unfold authorizeLocked, load. rewrite Hi, Hd. cbn [andb negb].
  eapply ev_request; [cbn [perform]; rewrite dir_at, Hm; reflexivity|]. cbv beta iota.
  rewrite H1, H2, H3, H4, H5, !String.eqb_refl. cbn [andb negb].
  eapply ev_request; [reflexivity|]. cbn [at_dir mc_now]. by rewrite H6, H7, String.eqb_refl.
Qed.

Lemma save_ev m d data active : validateMetadata m = None -> x_MigrationID m = id -> validDirection (x_Direction m) = true ->
  safeID id = true ->
  evaluates perform (save m) (at_dir d data active) None (at_dir (d <| td_meta := <[x_Direction m := m]> (td_meta d) |>) data active).
Proof using Type.
  intros H1 H2 H3 H4. unfold save. rewrite H2, H4, H3, H1. split; [done|]. cbn. by rewrite H2, dir_at, set_dir_at.
Qed.

(** ** The offset and the archive *)

Lemma offset_ev credential d data active m : td_meta d !! DirectionDestinationUpload = Some m ->
  good_credential id DirectionDestinationUpload credential now m ->
  evaluates perform (destinationTransferOffset id credential) (at_dir d data active) (Done (x_Offset m)) (at_dir d data active).
Proof using Type.
  intros Hm Hg. destruct (good_id _ _ _ _ _ Hg) as (Hi & _ & _).
  unfold destinationTransferOffset, with_id, isSafeMigrationID, DestinationOffset. rewrite Hi. cbn [negb].
  eapply ev_bind; [by apply authorize_ev|]. apply ev_ret.
Qed.

Lemma archive_ev credential d data active m a offset : td_meta d !! DirectionSourceControl = Some m ->
  good_credential id DirectionSourceControl credential now m -> x_Phase m = "archived" ->
  td_archive d = Some a -> x_ArchiveSize m = Z.of_nat (length a) -> 0 <= offset <= Z.of_nat (length a) ->
  evaluates perform (SourceArchive id credential offset) (at_dir d data active)
    (Done (drop (Z.to_nat offset) a, m)) (at_dir d data active).
Proof using Type.
  intros Hm Hg Hp Ha Hs Ho. destruct (good_id _ _ _ _ _ Hg) as (Hi & _ & _).
  unfold SourceArchive. rewrite Hi. cbn [negb].
  eapply ev_bind; [by apply authorize_ev|]. cbv beta iota. rewrite Hp, Hs. cbn [slices_contains existsb String.eqb negb orb].
  replace ((offset <? 0) || (Z.of_nat (length a) <? offset)) with false by lia.
  eapply ev_request; [cbn [perform]; rewrite dir_at, Ha; reflexivity|]. apply ev_ret.
Qed.

(** ** The upload *)

(** What of [a] has arrived, and what the metadata says of it. *)
Record partial (a : Bytes) (n : nat) (d : TransferDir) (m : Metadata) : Prop := {
  pa_phase : x_Phase m <> "restored" /\ x_Phase m <> "activated";
  pa_offset : x_Offset m = Z.of_nat n;
  pa_upto : (n <= length a)%nat;
  pa_file : default [] (td_incoming d) = take n a;
  pa_size : x_ArchiveSize m = 0 \/ x_ArchiveSize m = Z.of_nat (length a);
  pa_checksum : x_Checksum m = "" \/ x_Checksum m = digest a
}.

(** The metadata of a complete upload. *)
Definition verified_meta (a : Bytes) (m : Metadata) : Metadata :=
  m <| x_ArchiveSize := Z.of_nat (length a) |> <| x_Checksum := digest a |> <| x_Phase := "verified" |>
    <| x_Offset := Z.of_nat (length a) |> <| x_Error := "" |> <| x_UpdatedAt := now |>.

Lemma not_refused a n d m : partial a n d m -> 0 < Z.of_nat (length a) <= maxArchive ->
  append_refused (Z.of_nat n) (Z.of_nat (length a)) (digest a) m = None.
Proof using Type.
  intros [[H1 H2] H3 H4 _ H5 H6] Hl. unfold append_refused.
  destruct ((x_Phase m =? "restored") || (x_Phase m =? "activated"))%string eqn:E;
    [apply orb_true_iff in E as [E|E]; seqb; congruence|].
  rewrite H3. replace (_ || _ || _ || _ || _) with false by (rewrite Z.eqb_refl; cbn [negb]; lia).
  replace (negb (x_ArchiveSize m =? 0) && _) with false by lia.
  replace (negb _ && negb _) with false; [done|].
  destruct H6 as [->| ->]; [done|]. unfold EqualFold. by rewrite String.eqb_refl, andb_false_r.
Qed.

Lemma write_rest (a : Bytes) n : (n <= length a)%nat -> write_at n (drop n a) (take n a) = a.
Proof using Type.
  intros H. unfold write_at. rewrite take_take, Nat.min_id, (drop_ge (take n a)), app_nil_r, take_drop; [done|].
  rewrite length_take. lia.
Qed.

Lemma limited_rest (a : Bytes) n : (n <= length a)%nat ->
  limited (Z.of_nat (length a) - Z.of_nat n) (mkBody (drop n a) None) = (drop n a, None).
Proof using Type.
  intros H. unfold limited. cbn [bd_bytes bd_err]. rewrite take_ge by (rewrite length_drop; lia). by destruct (_ <=? _).
Qed.

Lemma no_more (a : Bytes) n : (n <= length a)%nat ->
  (Z.of_nat (length a) - Z.of_nat n <? Z.of_nat (length (drop n a))) = false.
Proof using Type. intros H. rewrite length_drop, Nat2Z.inj_sub by done. apply Z.ltb_irrefl. Qed.

(** After the last byte. *)
Lemma finish_ev d data active m a n : (n <= length a)%nat -> Z.of_nat (length a) <= maxArchive ->
  id ∉ active -> td_incoming d = Some a ->
  validateMetadata m = None -> x_MigrationID m = id -> x_Direction m = DirectionDestinationUpload -> safeID id = true ->
  x_ArchiveSize m = Z.of_nat (length a) -> x_Checksum m = digest a ->
  evaluates perform (finish_append id (digest a) (Z.of_nat n) (Z.of_nat (length a)) (Z.of_nat (length (drop n a))) None m)
    (at_dir d data ({[id]} ∪ active)) (Done (verified_meta a m))
    (at_dir (d <| td_meta := <[DirectionDestinationUpload := verified_meta a m]> (td_meta d) |>) data active).
Proof using OK.
  intros Hn Hl Hactive Hin Hv Hi Hd Hs Hsize Hck. unfold finish_append.
  eapply ev_request; [apply set_inactive, Hactive|].
  eapply ev_request; [reflexivity|]. change (mc_now (at_dir d data active)) with now.
  replace (Z.of_nat n +i Z.of_nat (length (drop n a))) with (Z.of_nat (length a)).
  2: { rewrite iadd_exact; rewrite length_drop; [lia|]. unfold in64, min64, max64, maxArchive in *. lia. }
  rewrite bool_decide_false by (by intros []). replace (_ - _ <? _) with false by (rewrite no_more; done).
  cbn [orb]. cbv zeta. replace (x_Offset _ <? _) with false by (symmetry; apply Z.ltb_irrefl).
  eapply ev_request; [cbn [perform]; rewrite dir_at, Hin; reflexivity|]. cbv beta iota.
  unfold EqualFold. rewrite String.eqb_refl. cbn [negb].
  assert (E : (m <| x_Offset := Z.of_nat (length a) |> <| x_UpdatedAt := now |>) <| x_Phase := "verified" |> <| x_Error := "" |> =
              verified_meta a m) by (destruct m; cbn in *; by subst). 
  eapply ev_bind; [|rewrite E; apply ev_ret].
  rewrite E. replace DirectionDestinationUpload with (x_Direction (verified_meta a m)) by (by rewrite <- Hd).
  apply save_ev; [exact Hv|exact Hi|cbn; by rewrite Hd|exact Hs].
Qed.

(** The directory once [a] arrived. *)
Definition received (a : Bytes) (d : TransferDir) (m : Metadata) (d' : TransferDir) : Prop :=
  td_meta d' !! DirectionDestinationUpload = Some (verified_meta a m) /\ td_incoming d' = Some a /\
  td_staging d' = td_staging d /\ td_previous d' = td_previous d.

Definition uploading_meta (a : Bytes) (m : Metadata) : Metadata :=
  m <| x_ArchiveSize := Z.of_nat (length a) |> <| x_Checksum := digest a |> <| x_Phase := "uploading" |>
    <| x_UpdatedAt := now |>.

(** The directory after the copy, before the last write of the metadata. *)
Definition copied (a : Bytes) (d : TransferDir) (m : Metadata) : TransferDir :=
  d <| td_meta := <[DirectionDestinationUpload := uploading_meta a m]> (td_meta d) |> <| td_incoming := Some a |>.

Lemma append_ev credential d data active m a n : td_meta d !! DirectionDestinationUpload = Some m ->
  good_credential id DirectionDestinationUpload credential now m -> partial a n d m ->
  0 < Z.of_nat (length a) <= maxArchive -> id ∉ active -> has_byte zero (digest a) = false ->
  evaluates perform
    (AppendDestination id credential (Z.of_nat n) (Z.of_nat (length a)) (digest a) (mkBody (drop n a) None))
    (at_dir d data active) (Done (verified_meta a m))
    (at_dir ((copied a d m) <| td_meta := <[DirectionDestinationUpload := verified_meta a m]> (td_meta (copied a d m)) |>) data active).
Proof using OK.
  intros Hm Hg Hp Hl Hactive Hz. destruct (good_id _ _ _ _ _ Hg) as (Hi & _ & Hd).
  assert (Hlen : length (take n a) = n) by (rewrite length_take; pose proof (pa_upto _ _ _ _ Hp); lia).
  unfold AppendDestination. rewrite Hi, Hz. cbn [negb].
  eapply ev_bind; [by apply authorize_ev|]. cbv beta iota. rewrite (not_refused a n d m Hp Hl).
  eapply ev_request; [reflexivity|]. rewrite bool_decide_false by exact Hactive.
  eapply ev_request; [reflexivity|]. change (mc_now (at_dir d data active)) with now. cbv zeta. rewrite digest_lower.
  fold (uploading_meta a m). unfold guard, value.
  eapply ev_bind; [apply save_ev; [exact (gc_valid _ _ _ _ _ Hg)|apply Hg| |done]|].
  { cbn. by rewrite (gc_direction _ _ _ _ _ Hg). }
  cbv beta iota. change (x_Direction (uploading_meta a m)) with (x_Direction m). rewrite (gc_direction _ _ _ _ _ Hg).
  eapply ev_request; [cbn [perform]; rewrite dir_at, set_dir_at; reflexivity|]. cbv beta iota.
  replace (default [] (td_incoming _)) with (take n a) by (symmetry; apply (pa_file _ _ _ _ Hp)).
  rewrite Hlen, Z.eqb_refl. cbn [negb].
  eapply ev_request; [apply set_active_at|]. rewrite limited_rest by apply Hp.
  eapply ev_request; [cbn [perform]; rewrite dir_at, set_dir_at; reflexivity|]. cbv beta iota.
  replace (write_at _ _ _) with a by (symmetry; rewrite Nat2Z.id; apply write_rest, Hp).
  change (verified_meta a m) with (verified_meta a (uploading_meta a m)). apply (finish_ev (copied a d m)); try done;
    [apply Hp|lia|apply Hg..].
Qed.

Lemma receive_ev credential d data active m a n : td_meta d !! DirectionDestinationUpload = Some m ->
  good_credential id DirectionDestinationUpload credential now m -> partial a n d m ->
  0 < Z.of_nat (length a) <= maxArchive -> id ∉ active -> digest a <> "" -> has_byte zero (digest a) = false ->
  exists d', received a d m d' /\
    evaluates perform
      (receiveTransferChunk (mkUpload credential id (Z.of_nat n) (Z.of_nat (length a)) (digest a)) (mkBody (drop n a) None))
      (at_dir d data active) (Done (verified_meta a m)) (at_dir d' data active).
Proof using OK.
  intros Hm Hg Hp Hl Hactive Hne Hz. destruct (good_id _ _ _ _ _ Hg) as (Hi & _ & _).
  exists ((copied a d m) <| td_meta := <[DirectionDestinationUpload := verified_meta a m]> (td_meta (copied a d m)) |>).
  split; [by split_and!; [apply lookup_insert_eq|..]|].
  unfold receiveTransferChunk, with_id, isSafeMigrationID. cbn [up_MigrationID up_Checksum up_Credential up_Offset up_Length].
  rewrite Hi, Hz, (proj2 (String.eqb_neq _ _) Hne). cbn [negb orb]. by apply append_ev.
Qed.

(** ** The restoration *)

Definition restored_meta (m : Metadata) : Metadata :=
  m <| x_Phase := "restored" |> <| x_Error := "" |> <| x_UpdatedAt := now |>.

Lemma set_data_at server o d data active :
  set_data server o (at_dir d data active) = at_dir d (partial_alter (fun _ => o) server data) active.
Proof using Type. done. Qed.

Lemma set_aside_at server old d data active : data !! server = Some old ->
  perform _ (SetAside server id) (at_dir d data active) =
  (None, at_dir (d <| td_previous := Some old |>) (delete server data) active).
Proof using Type.
  intros H. cbn [perform]. change (mc_data (at_dir d data active)) with data. by rewrite H, dir_at, set_dir_at, set_data_at.
Qed.

Lemma activate_at server t d data active : data !! server = None -> td_staging d = Some t ->
  perform _ (Activate server id) (at_dir d data active) =
  (None, at_dir (d <| td_staging := None |>) (<[server := t]> data) active).
Proof using Type.
  intros H Ht. cbn [perform]. change (mc_data (at_dir d data active)) with data. by rewrite dir_at, H, Ht, set_dir_at, set_data_at.
Qed.

Lemma activate_ev d data active server t : safeID server = true -> safeID id = true ->
  td_staging d = Some t -> td_previous d = None ->
  exists d', td_meta d' = td_meta d /\
    evaluates perform (activateWithRollback server id) (at_dir d data active) None (at_dir d' (<[server := t]> data) active).
Proof using Type.
  intros Hs Hi Ht Hp. unfold activateWithRollback. rewrite Hs, Hi. cbn [andb negb].
  eapply (ex_intro _ (match data !! server with
    | Some old => (d <| td_previous := Some old |>) <| td_staging := None |> | None => d <| td_staging := None |> end)).
  split; [by destruct (data !! server)|].
  eapply ev_request; [cbn [perform]; rewrite dir_at, Hp; reflexivity|]. cbv beta iota.
  eapply ev_request; [reflexivity|]. change (mc_data (at_dir d data active)) with data. cbv beta iota.
  destruct (data !! server) as [old|] eqn:Eo.
  - eapply ev_request; [by apply set_aside_at|]. cbv beta iota.
    eapply ev_request; [by apply activate_at; [apply lookup_delete_eq|]|]. cbv beta iota. rewrite insert_delete_eq. apply ev_ret.
  - eapply ev_bind; [apply ev_ret|]. cbv beta iota.
    eapply ev_request; [by apply activate_at|]. apply ev_ret.
Qed.

Lemma extract_at a t d data active : td_incoming d = Some a -> unpack a = Ok t ->
  perform _ (Extract id) (at_dir d data active) = (None, at_dir (d <| td_staging := Some t |>) data active).
Proof using Type. intros Ha Ht. cbn [perform]. by rewrite dir_at, Ha, Ht, set_dir_at. Qed.

Lemma restore_ev credential d data active m a t : td_meta d !! DirectionDestinationUpload = Some m ->
  good_credential id DirectionDestinationUpload credential now m -> x_Phase m = "verified" ->
  td_incoming d = Some a -> unpack a = Ok t -> td_staging d = None -> td_previous d = None -> id ∉ active ->
  exists d' r, x_Phase r = "restored" /\
    evaluates perform (restoreTransferDestination id credential) (at_dir d data active) (Done r)
      (at_dir d' (<[x_ServerID m := t]> data) active).
Proof using Type.
  intros Hm Hg Hv Hin Hu Hst Hpr Hactive. destruct (good_id _ _ _ _ _ Hg) as (Hi & Hs & Hd).
  set (m1 := m <| x_Phase := "restoring" |> <| x_UpdatedAt := now |>).
  set (d1 := (d <| td_staging := Some empty_tree |>) <| td_meta := <[DirectionDestinationUpload := m1]> (td_meta d) |> <| td_staging := Some t |>).
  destruct (activate_ev d1 data ({[id]} ∪ active) (x_ServerID m) t Hs Hi eq_refl Hpr) as (d2 & Hm2 & H2).
  assert (Hdir : validDirection (x_Direction m) = true) by (by rewrite (gc_direction _ _ _ _ _ Hg)).
  eexists. exists (restored_meta m1). split; [done|].
  unfold restoreTransferDestination, with_id, isSafeMigrationID, RestoreDestination. rewrite Hi. cbn [negb].
  eapply ev_bind; [by apply authorize_ev|]. cbv beta iota. rewrite Hv. cbn [String.eqb negb]. unfold value, guard.
  eapply ev_request; [reflexivity|]. rewrite bool_decide_false by exact Hactive.
  eapply ev_request; [cbn [perform]; rewrite dir_at, Hst; reflexivity|]. cbv beta iota.
  eapply ev_request; [cbn [perform]; rewrite dir_at, set_dir_at; reflexivity|]. cbv beta iota.
  eapply ev_request; [apply set_active_at|]. eapply ev_request; [reflexivity|]. change (mc_now (at_dir _ _ _)) with now.
  cbv zeta. fold m1.
  eapply ev_bind; [apply save_ev; [exact (gc_valid _ _ _ _ _ Hg)|apply Hg|exact Hdir|exact Hi]|].
  change (x_Direction m1) with (x_Direction m). rewrite (gc_direction _ _ _ _ _ Hg).
  eapply ev_request; [by eapply extract_at|]. cbv beta iota. eapply ev_bind; [exact H2|].
  eapply ev_request; [apply set_inactive, Hactive|]. eapply ev_request; [reflexivity|]. cbv beta iota.
  change (mc_now (at_dir _ _ _)) with now. change (at_phase "restored" "" now m1) with (restored_meta m1).
  eapply ev_bind; [apply save_ev; [exact (gc_valid _ _ _ _ _ Hg)|apply Hg|exact Hdir|exact Hi]|]. cbv beta iota.
  eapply ev_request; [cbn [perform]; rewrite dir_at, set_dir_at; reflexivity|]. apply ev_ret.
Qed.
End OneMachine.

(** ** Two machines *)

Lemma set_machine_eq url m w :
  set_machine url m w = mkNet (nt_tables w) (nt_now w) (<[url := m]> (nt_machines w)) (nt_latest w).
Proof using Type. done. Qed.

Lemma set_machine_id url m w : nt_machines w !! url = Some m -> set_machine url m w = w.
Proof using Type. intros H. rewrite set_machine_eq, insert_id by done. by destruct w. Qed.

Lemma set_machine_twice url m m' w : set_machine url m (set_machine url m' w) = set_machine url m w.
Proof using Type. rewrite !set_machine_eq. cbn. by rewrite insert_insert_eq. Qed.

Lemma serve_own url X (e : NodeEff X) m w : own X e -> nt_machines w !! url = Some m ->
  serve_node url X e w = (fst (perform X e m), set_machine url (snd (perform X e m)) w).
Proof using Type.
  intros He Hm. transitivity (serve_local url X e w); [by destruct e|].
  unfold serve_local, machine. by rewrite (lookup_total_correct _ _ _ Hm).
Qed.

Lemma run_here {A} (h : forall X, NodeEff X -> Net -> X * Net) url (p : N A) m w a m' :
  (forall X (e : NodeEff X) m w, own X e -> nt_machines w !! url = Some m ->
     h X e w = (fst (perform X e m), set_machine url (snd (perform X e m)) w)) ->
  only own p -> nt_machines w !! url = Some m -> evaluates perform p m a m' -> evaluates h p w a (set_machine url m' w).
Proof using Type.
  intros Hh. revert m w. induction p as [b|X e k IH]; intros m w Ho Hm [<- <-].
  - cbn. rewrite set_machine_id by done. by split.
  - destruct Ho as [He Ho]. apply (ev_request h e k _ (fst (perform X e m)) (set_machine url (snd (perform X e m)) w));
      [by apply Hh|].
    set (w1 := set_machine url _ w). rewrite <- (set_machine_twice url _ (snd (perform X e m)) w). fold w1.
    apply (IH (fst (perform X e m)) (snd (perform X e m)) w1); [apply Ho|unfold w1; rewrite set_machine_eq; apply lookup_insert_eq|].
    split; [symmetry; apply (answer_alone_bind perform (request e) k)|symmetry; apply (world_alone_bind perform (request e) k)].
Qed.

Lemma run_node {A} url (p : N A) m w a m' : only own p -> nt_machines w !! url = Some m ->
  evaluates perform p m a m' -> evaluates (serve_node url) p w a (set_machine url m' w).
Proof using Type. intros Ho Hm H. eapply run_here; [intros; by apply serve_own|done..]. Qed.

Lemma run_local {A} url (p : N A) m w a m' : only own p -> nt_machines w !! url = Some m ->
  evaluates perform p m a m' -> evaluates (serve_local url) p w a (set_machine url m' w).
Proof using Type.
  intros Ho Hm H. eapply run_here; [|done..]. intros X e m1 w1 _ H1.
  unfold serve_local, machine. by rewrite (lookup_total_correct _ _ _ H1).
Qed.

(** ** The source and the destination *)

Section Between.
Context (valid_destination : string -> bool).
Context (us ut id cs cd idempotency : string) (a : Bytes).

(** The archive [a] is ready at the source [us]. *)
Record holds_archive (w : Net) (s : Metadata) : Prop := {
  ha_machine : exists m d, nt_machines w !! us = Some m /\ mc_dirs m !! id = Some d /\
    td_meta d !! DirectionSourceControl = Some s /\ td_archive d = Some a /\
    good_credential id DirectionSourceControl cs (mc_now m) s;
  ha_phase : x_Phase s = "archived";
  ha_size : x_ArchiveSize s = Z.of_nat (length a);
  ha_checksum : x_Checksum s = digest a
}.

(** The first [n] bytes of it arrived at the destination [ut]. *)
Record holds_part (n : nat) (w : Net) (d : Metadata) : Prop := {
  hp_machine : exists m dir, nt_machines w !! ut = Some m /\ mc_dirs m !! id = Some dir /\
    td_meta dir !! DirectionDestinationUpload = Some d /\ partial a n dir d /\
    td_staging dir = None /\ td_previous dir = None /\ id ∉ mc_active m /\
    good_credential id DirectionDestinationUpload cd (mc_now m) d
}.

(** The request for the upload is well formed. *)
Record pushable : Prop := {
  pu_size : 0 < Z.of_nat (length a) <= maxArchive;
  pu_digest : digest a <> "" /\ has_byte zero (digest a) = false;
  pu_url : ut <> "" /\ has_byte zero ut = false /\ valid_destination ut = true;
  pu_credential : cd <> "" /\ has_byte zero cd = false;
  pu_key : has_byte zero idempotency = false;
  pu_apart : us <> ut
}.

Lemma at_dir_of m d : mc_dirs m !! id = Some d ->
  m = at_dir (mc_now m) (mc_dirs m) (mc_containers m) id d (mc_data m) (mc_active m).
Proof using Type. intros H. unfold at_dir. rewrite insert_id by done. by destruct m. Qed.

Lemma offset_on m dir d : mc_dirs m !! id = Some dir -> td_meta dir !! DirectionDestinationUpload = Some d ->
  good_credential id DirectionDestinationUpload cd (mc_now m) d ->
  evaluates perform (destinationTransferOffset id cd) m (Done (x_Offset d)) m.
Proof using Type.
  intros Hm Hd Hg. pose proof (offset_ev (mc_now m) (mc_dirs m) (mc_containers m) id cd dir (mc_data m) (mc_active m) d Hd Hg) as H.
  by rewrite <- (at_dir_of m dir Hm) in H.
Qed.

Lemma archive_on m dir s offset : mc_dirs m !! id = Some dir -> td_meta dir !! DirectionSourceControl = Some s ->
  good_credential id DirectionSourceControl cs (mc_now m) s -> x_Phase s = "archived" -> td_archive dir = Some a ->
  x_ArchiveSize s = Z.of_nat (length a) -> 0 <= offset <= Z.of_nat (length a) ->
  evaluates perform (SourceArchive id cs offset) m (Done (drop (Z.to_nat offset) a, s)) m.
Proof using Type.
  intros Hm Hs Hg Hp Ha Hsz Ho. pose proof (archive_ev (mc_now m) (mc_dirs m) (mc_containers m) id cs dir (mc_data m)
    (mc_active m) s a offset Hs Hg Hp Ha Hsz Ho) as H. by rewrite <- (at_dir_of m dir Hm) in H.
Qed.

(** The destination once the archive is there, as it was but for the directory
    of the transfer. *)
Definition arrived (m m' : Machine) (d : Metadata) : Prop :=
  exists dir', m' = at_dir (mc_now m) (mc_dirs m) (mc_containers m) id dir' (mc_data m) (mc_active m) /\
    td_meta dir' !! DirectionDestinationUpload = Some (verified_meta (mc_now m) a d) /\ td_incoming dir' = Some a /\
    td_staging dir' = None /\ td_previous dir' = None.

(** ** One round of the upload *)
Lemma push_once_ev n w s d : pushable -> holds_archive w s -> holds_part n w d ->
  exists m m', nt_machines w !! ut = Some m /\ arrived m m' d /\
    evaluates (serve_node us) (push_once id cs (mkPushRequest ut cd idempotency)) w
      (Some (Done (verified_meta (mc_now m) a d))) (set_machine ut m' w).
Proof using OK.
  intros [Hsize [Hd0 Hd1] _ _ _ Hne] [(ms & ds & Hms & Hds & Hs & Har & Hgs) Hph Hsz Hck] [(mt & dt & Hmt & Hdt & Hd & Hp & Hst & Hpr & Hact & Hgd)].
  destruct (receive_ev (mc_now mt) (mc_dirs mt) (mc_containers mt) id cd dt (mc_data mt) (mc_active mt) d a n Hd Hgd Hp Hsize Hact Hd0 Hd1)
    as (dt' & (H1 & H2 & H3 & H4) & Hev). rewrite <- (at_dir_of mt dt Hdt) in Hev.
  exists mt. eexists. split; [done|]. split; [exists dt'; split_and!; [reflexivity|done..|by rewrite H3|by rewrite H4]|].
  unfold push_once. cbn [sp_DestinationURL sp_DestinationCredential].
  destruct (run_local ut _ mt w _ _ (offset_requests id cd) Hmt (offset_on mt dt d Hdt Hd Hgd)) as [E1 E2].
  eapply ev_request; [cbn [serve_node]; rewrite E1, E2, set_machine_id by done; reflexivity|].
  cbn [as_http]. rewrite (pa_offset _ _ _ _ Hp), (proj2 (Z.ltb_ge _ _) (Zle_0_nat n)).
  assert (Ho : 0 <= Z.of_nat n <= Z.of_nat (length a)) by (pose proof (pa_upto _ _ _ _ Hp); clear -H; lia).
  eapply ev_bind.
  { apply (run_node us _ ms _ _ ms (archive_requests id cs _) Hms). by eapply archive_on. }
  cbv beta iota. rewrite set_machine_id, Nat2Z.id, Hsz, Hck by done.
  destruct (run_local ut _ mt w _ _ (receive_requests _ _) Hmt Hev) as [E3 E4].
  eapply ev_request; [cbn [serve_node]; rewrite E3, E4; reflexivity|].
  apply ev_ret.
Qed.

Lemma push_ev n w s d : pushable -> holds_archive w s -> holds_part n w d ->
  exists m m', nt_machines w !! ut = Some m /\ arrived m m' d /\
    evaluates (serve_node us) (pushTransferSource valid_destination id cs (mkPushRequest ut cd idempotency)) w
      (Done (verified_meta (mc_now m) a d)) (set_machine ut m' w).
Proof using OK.
  intros Hpush Hs Hd. destruct (push_once_ev n w s d Hpush Hs Hd) as (m & m' & Hm & Ha & Hev).
  exists m, m'. split; [done|]. split; [done|]. destruct Hpush as [_ _ (U1 & U2 & U3) [C1 C2] K _].
  assert (Hi : safeID id = true) by (destruct Hs as [(? & ? & _ & _ & _ & _ & Hg) _ _ _]; apply (good_id _ _ _ _ _ Hg)).
  unfold pushTransferSource, with_id, pushArchive, isSafeMigrationID. cbn [sp_DestinationURL sp_DestinationCredential sp_IdempotencyKey].
  rewrite U2, U3, C2, K, Hi, (proj2 (String.eqb_neq _ _) U1), (proj2 (String.eqb_neq _ _) C1). cbn [negb orb push_attempts].
  eapply ev_bind; [exact Hev|]. apply ev_ret.
Qed.

(** C9: When nothing goes wrong, an upload that was cut short after any number
    of bytes is completed by one request to the source, and what the
    destination then restores is what the archive was made of; the source is
    left as it was. *)
Theorem interrupted_upload_delivers n w s d t : pushable -> holds_archive w s -> holds_part n w d -> pack t = Ok a ->
  let pushed := serve_call us (pushTransferSource valid_destination id cs (mkPushRequest ut cd idempotency)) w in
  let restored := serve_call ut (restoreTransferDestination id cd) (snd pushed) in
  (exists v, fst pushed = Ok v /\ x_Phase v = "verified" /\ x_Offset v = Z.of_nat (length a)) /\
  (exists r, fst restored = Ok r /\ x_Phase r = "restored") /\
  mc_data (machine ut (snd restored)) !! x_ServerID d = Some (carried t) /\
  machine us (snd restored) = machine us w.
Proof using OK.
  intros Hpush Hs Hd Ht. destruct (push_ev n w s d Hpush Hs Hd) as (m & m' & Hm & (dir & -> & D1 & D2 & D3 & D4) & [E1 E2]).
  destruct Hd as [(m0 & dir0 & Hm0 & _ & _ & _ & _ & _ & Hact & Hg)]. rewrite Hm in Hm0. injection Hm0 as <-.
  assert (Hg' : good_credential id DirectionDestinationUpload cd (mc_now m) (verified_meta (mc_now m) a d)) by (by destruct Hg).
  destruct (restore_ev (mc_now m) (mc_dirs m) (mc_containers m) id cd dir (mc_data m) (mc_active m) (verified_meta (mc_now m) a d)
    a (carried t) D1 Hg' eq_refl D2 (unpack_pack t a Ht) D3 D4 Hact) as (dir2 & r & Hr & Hev).
  cbv zeta. unfold serve_call. cbn [fst snd]. rewrite E1, E2.
  set (w1 := set_machine ut _ w). assert (Hm1 : nt_machines w1 !! ut = Some (at_dir (mc_now m) (mc_dirs m) (mc_containers m) id dir (mc_data m) (mc_active m)))
    by (unfold w1; rewrite set_machine_eq; apply lookup_insert_eq).
  destruct (run_node ut _ _ w1 _ _ (restore_requests id cd) Hm1 Hev) as [E3 E4]. rewrite E3, E4.
  split; [by eexists|]. split; [by eexists|]. unfold w1. rewrite set_machine_twice.
  destruct Hpush as [_ _ _ _ _ Hne]. rewrite set_machine_eq. unfold machine. cbn [nt_machines]. split.
  - rewrite lookup_total_insert_eq. apply lookup_insert_eq.
  - by rewrite lookup_total_insert_ne.
Qed.
End Between.
End Delivery.

(** ** An upload cut short after one byte *)
#[local] Existing Instances toy_archives toy_archives_ok toy_configures.

Definition toy_archive : Bytes := [x01; x61; x62].
Definition toy_meta (direction phase credential : string) (size offset : Z) (checksum : string) : Metadata :=
  mkMetadata ProtocolVersion "m1" "s1" "a" "b" direction phase (HashCredential credential) 900 None size offset checksum "" 600.
Definition toy_source_meta : Metadata := toy_meta DirectionSourceControl "archived" "secret-a" 3 0 (digest toy_archive).
Definition toy_upload_meta : Metadata := toy_meta DirectionDestinationUpload "uploading" "secret-b" 3 1 (digest toy_archive).
Definition toy_upload : Net :=
  mkNet (mkTables example_db ∅ ∅ ∅ []) 600
    (list_to_map [
      ("https://a", mkMachine 600 {["m1" := mkDir {[DirectionSourceControl := toy_source_meta]} (Some toy_archive) None None None None]}
         {["s1" := [x61; x62]]} {["s1" := false]} ∅);
      ("https://b", mkMachine 600 {["m1" := mkDir {[DirectionDestinationUpload := toy_upload_meta]} None (Some [x01]) None None None]}
         ∅ ∅ ∅)]) [x61; x62].

Lemma interrupted_upload_delivers_witness :
  let pushed := serve_call "https://a" (pushTransferSource (fun _ => true) "m1" "secret-a" (mkPushRequest "https://b" "secret-b" "key")) toy_upload in
  let restored := serve_call "https://b" (restoreTransferDestination "m1" "secret-b") (snd pushed) in
  (exists v, fst pushed = Ok v /\ x_Phase v = "verified" /\ x_Offset v = 3) /\
  mc_data (machine "https://b" (snd restored)) !! "s1" = Some [x61; x62].
Proof.
  destruct (interrupted_upload_delivers (fun _ => true) "https://a" "https://b" "m1" "secret-a" "secret-b" "key" toy_archive
    1 toy_upload toy_source_meta toy_upload_meta [x61; x62]) as (H1 & _ & H2 & _).
  - by split; [vm_compute| | | | |].
  - split; [|reflexivity..]. eexists _, _. do 4 (split; [reflexivity|]). by split.
  - split. eexists _, _. do 3 (split; [reflexivity|]). split; [split; try reflexivity; [done|cbn; lia|by right|by right]|].
    do 2 (split; [reflexivity|]). split; [set_solver|by split].
  - reflexivity.
  - split; [exact H1|exact H2].
Defined.
