(* ===== verification/Heartbeat.v ===== *)
(** * The heartbeat monitor

    [forge/api/internal/services/heartbeatmonitor/service.go]: nodes report to
    the control plane; a node that stops is suspected, then unreachable, then
    offline, and one that comes back has to earn its place.  With it the
    statements a report makes ([store/store_nodes.go],
    [store/store_observability.go]) and those of a classification
    ([store/store_heartbeat.go]).

    The monitor is a program over [HEff].  A sweep runs every
    [cfg_Interval], and every report is followed by an evaluation of its node
    ([http/server.go]).  The goroutine that repeats the sweep, and logging, are
    left out. *)
From Stdlib Require Import ZArith Lia Floats.SpecFloat Sorting.Sorted.
From stdpp Require Import base gmap strings list fin_maps sorting.
From coqutil Require Import Datatypes.RecordSettersUsingExistingGetters.
From S2P Require Import Prelude GoStrings GoFloat GoSort Programs Capacity.
Import RecordSetNotations1.
#[local] Open Scope string_scope.
#[local] Open Scope list_scope.
#[local] Open Scope Z_scope.
#[local] Open Scope go_scope.

(** ** Rows *)

(* go: store/store.go L1854-1861 *)
Inductive NodeHeartbeatState := Healthy | Suspected | Unreachable | Offline | Recovering | Reconciling.

(* go: store/store.go L2245-2250 *)
Inductive NodeActualState := ActualOnline | ActualDegraded | ActualOffline | ActualReconciling.

#[export] Instance heartbeat_state_eq_dec : EqDecision NodeHeartbeatState.
Proof. solve_decision. Defined.
#[export] Instance actual_state_eq_dec : EqDecision NodeActualState.
Proof. solve_decision. Defined.

Definition heartbeat_state_text (s : NodeHeartbeatState) : string :=
  match s with
  | Healthy => "healthy" | Suspected => "suspected" | Unreachable => "unreachable"
  | Offline => "offline" | Recovering => "recovering" | Reconciling => "reconciling"
  end.

Definition actual_state_text (s : NodeActualState) : string :=
  match s with
  | ActualOnline => "online" | ActualDegraded => "degraded"
  | ActualOffline => "offline" | ActualReconciling => "reconciling"
  end.

(** What a node reports. *)
(* go: store/store.go type:NodeHeartbeatRequest *)
Record NodeHeartbeatRequest := mkNodeHeartbeatRequest {
  hr_Version : string;
  hr_OS : string;
  hr_Architecture : string;
  hr_CPUThreads : Z;
  hr_MemoryMB : Z;
  hr_DiskMB : Z;
  hr_DockerStatus : string;
  hr_RuntimeStatus : string;
  hr_RuntimeProvider : string;
  hr_Error : string;
  hr_LoadAverage : float;
  hr_Uptime : Z
}.

(** The columns of [nodes] that reports and classifications write. *)
Record Vitals := mkVitals {
  vi_ID : string;
  vi_HeartbeatState : NodeHeartbeatState;
  vi_StateChangedAt : Time;
  vi_RecoveryCount : Z;
  vi_ActualState : NodeActualState;
  vi_DesiredState : string;
  vi_Status : string;
  vi_LastSeenAt : option Time;
  vi_Version : option string;
  vi_OS : option string;
  vi_Architecture : option string;
  vi_CPUThreads : option Z;
  vi_MemoryMB : option Z;
  vi_DiskMB : option Z;
  vi_DockerStatus : option string;
  vi_RuntimeStatus : option string;
  vi_RuntimeProvider : option string;
  vi_HeartbeatError : option string;
  vi_LoadAverage : float;
  vi_UptimeSeconds : Z
}.

(* go: store/store.go type:NodeHeartbeatHistory *)
Record NodeHeartbeatHistory := mkHeartbeatHistory {
  hh_ID : string;
  hh_NodeID : string;
  hh_ObservedAt : Time;
  hh_PreviousSeenAt : option Time;
  hh_GapSeconds : option Z;
  hh_Success : bool;
  hh_FailureReason : string;
  hh_Version : string;
  hh_OS : string;
  hh_Architecture : string;
  hh_CPUThreads : Z;
  hh_MemoryMB : Z;
  hh_DiskMB : Z;
  hh_RuntimeStatus : string
}.

(** A row of [state_transitions] about a node. *)
Record Transition := mkTransition {
  tr_node : string;
  tr_field : string;
  tr_from : string;
  tr_to : string;
  tr_reason : string
}.

Record HbTables := mkHbTables {
  hb_nodes : gmap string Vitals;
  hb_history : list NodeHeartbeatHistory;
  hb_transitions : list Transition
}.

(** ** The statements *)

(** [NULLIF(x, '')] and [NULLIF(n, 0)]. *)
Definition nullif (s : string) : option string := if (s =? "")%string then None else Some s.
Definition nullif0 (z : Z) : option Z := if z =? 0 then None else Some z.

(** [int(d.Seconds())]. *)
Definition seconds (d : Duration) : Z :=
  to_int64 oor_amd64
    (fadd (of_int (Z.quot d Second)) (fdiv (of_int (Z.rem d Second)) (of_int 1000000000))).

Definition reports_trouble (req : NodeHeartbeatRequest) : bool :=
  negb (TrimSpace (hr_Error req) =? "")%string ||
  (ToLower (TrimSpace (hr_DockerStatus req)) =? "error")%string ||
  (ToLower (TrimSpace (hr_RuntimeStatus req)) =? "error")%string.

(* go: store/store_nodes.go func:Store.UpdateNodeHeartbeat *)
Definition UpdateNodeHeartbeat (nodeID : string) (req : NodeHeartbeatRequest) (now : Time) (db : HbTables)
    : answer Vitals * HbTables :=
  match hb_nodes db !! nodeID with
  | None => (Failed (ErrText "node not found"), db)
  | Some n =>
      let n' := mkVitals (vi_ID n) (vi_HeartbeatState n) (vi_StateChangedAt n) (vi_RecoveryCount n)
        (vi_ActualState n) (vi_DesiredState n)
        (if reports_trouble req then "degraded" else "online")
        (Some now)
        (nullif (hr_Version req)) (nullif (hr_OS req)) (nullif (hr_Architecture req))
        (nullif0 (hr_CPUThreads req)) (nullif0 (hr_MemoryMB req)) (nullif0 (hr_DiskMB req))
        (nullif (hr_DockerStatus req)) (nullif (hr_RuntimeStatus req)) (nullif (hr_RuntimeProvider req))
        (nullif (hr_Error req))
        (if flt f0 (hr_LoadAverage req) then hr_LoadAverage req else vi_LoadAverage n)
        (if 0 <? hr_Uptime req then hr_Uptime req else vi_UptimeSeconds n) in
      (Got n', db <| hb_nodes := <[nodeID := n']> (hb_nodes db) |>)
  end.

(* go: store/store_observability.go func:normalizeTimelineLimit *)
Definition normalizeTimelineLimit (limit : Z) : Z :=
  if limit <=? 0 then 100 else if 500 <? limit then 500 else limit.

(** [ORDER BY observed_at DESC, id DESC]. *)
Definition newest (a b : NodeHeartbeatHistory) : bool :=
  (hh_ObservedAt b <? hh_ObservedAt a) ||
  ((hh_ObservedAt a =? hh_ObservedAt b) && str_lt (hh_ID b) (hh_ID a)).

(* go: store/store_observability.go func:Store.ListNodeHeartbeatHistory *)
Definition ListNodeHeartbeatHistory (nodeID : string) (limit : Z) (db : HbTables)
    : answer (list NodeHeartbeatHistory) :=
  Got (take (Z.to_nat (normalizeTimelineLimit limit))
         (isort newest (filter (fun h => hh_NodeID h = nodeID) (hb_history db)))).

(** [now] is the clock of the process that records. *)
(* go: store/store_observability.go func:Store.CreateNodeHeartbeatHistory *)
Definition CreateNodeHeartbeatHistory (nodeID : string) (req : NodeHeartbeatRequest) (success : bool)
    (id : string) (now : Time) (db : HbTables) : answer unit * HbTables :=
  let previous := match ListNodeHeartbeatHistory nodeID 1 db with
                  | Got (h :: _) => Some (hh_ObservedAt h) | _ => None end in
  let gap := (fun p => Z.max 0 (seconds (time_sub now p))) <$> previous in
  if bool_decide (is_Some (hb_nodes db !! nodeID)) then
    if existsb (fun h => hh_ID h =? id)%string (hb_history db) then (Failed ErrUnique, db)
    else
      (Got tt, db <| hb_history := hb_history db ++
        [mkHeartbeatHistory id nodeID now previous gap success (hr_Error req) (hr_Version req) (hr_OS req)
           (hr_Architecture req) (hr_CPUThreads req) (hr_MemoryMB req) (hr_DiskMB req)
           (hr_DockerStatus req)] |>)
  else (Failed ErrForeignKey, db).

(** What [RecordNodeHeartbeat] writes for a report. *)
(* go: services/observability/service.go func:Service.RecordNodeHeartbeat *)
Definition RecordNodeHeartbeat (nodeID : string) (req : NodeHeartbeatRequest) (id : string) (now : Time)
    (db : HbTables) : HbTables :=
  if (TrimSpace nodeID =? "")%string then db
  else snd (CreateNodeHeartbeatHistory nodeID req (TrimSpace (hr_Error req) =? "")%string id now db).

(** The update of [SetNodeHeartbeatClassification]. *)
(* go: store/store_heartbeat.go L14-21 *)
Definition classify_row (state : NodeHeartbeatState) (actual : NodeActualState) (recovery : Z) (now : Time)
    (n : Vitals) : Vitals :=
  n <| vi_HeartbeatState := state |>
    <| vi_StateChangedAt := if decide (vi_HeartbeatState n = state) then vi_StateChangedAt n else now |>
    <| vi_RecoveryCount := recovery |>
    <| vi_ActualState := actual |>
    <| vi_Status := if (vi_DesiredState n =? "active")%string then actual_state_text actual
                    else vi_DesiredState n |>.

(** ** The monitor *)

(* go: services/heartbeatmonitor/service.go type:Config *)
Record Config := mkConfig {
  cfg_WarningThreshold : Duration;
  cfg_OfflineThreshold : Duration;
  cfg_UnavailableAfter : Duration;
  cfg_RecoveryThreshold : Z;
  cfg_Interval : Duration
}.

(* go: services/heartbeatmonitor/service.go func:DefaultConfig *)
Definition DefaultConfig : Config := mkConfig (30 * Second) (90 * Second) (300 * Second) 2 (30 * Second).

(* go: services/heartbeatmonitor/service.go func:normalizeConfig *)
Definition normalizeConfig (c : Config) : Config :=
  let warning := positive_or (cfg_WarningThreshold DefaultConfig) (cfg_WarningThreshold c) in
  let offline := positive_or (cfg_OfflineThreshold DefaultConfig) (cfg_OfflineThreshold c) in
  let offline := if offline <? warning then warning else offline in
  let unavailable := positive_or (cfg_UnavailableAfter DefaultConfig) (cfg_UnavailableAfter c) in
  let unavailable := if unavailable <? offline then offline else unavailable in
  mkConfig warning offline unavailable
    (positive_or (cfg_RecoveryThreshold DefaultConfig) (cfg_RecoveryThreshold c))
    (positive_or (cfg_Interval DefaultConfig) (cfg_Interval c)).

(* go: services/heartbeatmonitor/service.go type:Evaluation *)
Record Evaluation := mkEvaluation {
  ev_Node : Vitals;
  ev_PreviousState : NodeHeartbeatState;
  ev_State : NodeHeartbeatState;
  ev_PreviousActualState : NodeActualState;
  ev_ActualState : NodeActualState;
  ev_Changed : bool;
  ev_LastSeenAt : option Time;
  ev_AgeSeconds : Z;
  ev_SuccessfulHeartbeats : Z;
  ev_Reason : string;
  ev_Thresholds : Config
}.

(* go: services/heartbeatmonitor/service.go type:Metrics *)
Inductive HbMetric :=
| HeartbeatEvaluationsTotal | NodesSuspectedTotal | NodesUnreachableTotal | NodesOfflineTotal
| NodesRecoveredTotal | NodesReconcilingTotal | NodesUnavailableTotal | EventPublishErrorsTotal.

Inductive HbEventType :=
| EventNodeSuspected | EventNodeUnreachable | EventNodeOffline | EventNodeRecovered
| EventNodeReconciling | EventActualStateChanged.

(** What a transition event says of the node. *)
(* go: services/heartbeatmonitor/service.go func:Service.transitionPayload *)
Record TransitionPayload := mkTransitionPayload {
  tp_previousHeartbeatState : NodeHeartbeatState;
  tp_heartbeatState : NodeHeartbeatState;
  tp_previousActualState : NodeActualState;
  tp_actualState : NodeActualState;
  tp_reason : string;
  tp_lastSeenAt : option Time;
  tp_lastHeartbeatAgeSeconds : Z;
  tp_successfulHeartbeats : Z
}.

(** What the monitor asks. *)
(* go: services/heartbeatmonitor/service.go type:heartbeatStore *)
Inductive HEff : Type -> Type :=
| HNodes : HEff (answer (list Vitals))
| HNode (id : string) : HEff (answer Vitals)
| HHistory (id : string) (limit : Z) : HEff (answer (list NodeHeartbeatHistory))
| HUpdate (id : string) (state : NodeHeartbeatState) (actual : NodeActualState) (recovery : Z) : HEff (answer bool)
| HTransition (t : Transition) : HEff (answer unit)
| HNow : HEff Time
| HCount (m : HbMetric) : HEff unit
| HPublish (e : HbEventType) (node : string) (p : TransitionPayload) : HEff error.

Definition H_ (A : Type) : Type := prog HEff A.

Definition htry {A B} (m : H_ (answer A)) (k : A -> H_ (answer B)) : H_ (answer B) :=
  pbind m (fun r => match r with Got a => k a | Failed e => Ret (Failed e) end).
Notation "'let?^' x := m 'in' k" := (htry m (fun x => k))
  (at level 200, x binder, m at level 200, k at level 200, only parsing) : go_scope.
Notation "m ;;^ k" := (pbind m (fun _ => k))
  (at level 100, k at level 200, right associativity, only parsing) : go_scope.

(** The rows that differ are recorded; the update and the records are
    separate statements. *)
(* go: store/store_heartbeat.go func:Store.SetNodeHeartbeatClassification *)
Definition SetNodeHeartbeatClassification (nodeID : string) (state : NodeHeartbeatState)
    (actual : NodeActualState) (recovery : Z) (reason : string) : H_ (answer (Vitals * Vitals)) :=
  let record (changed : bool) (t : Transition) : H_ (answer unit) :=
    if changed then request (HTransition t) else Ret (Got tt) in
  let?^ previous := request (HNode nodeID) in
  let?^ found := request (HUpdate nodeID state actual recovery) in
  if negb found then Ret (Failed (ErrText "node not found"))
  else
    let?^ _ := record (bool_decide (vi_HeartbeatState previous <> state))
      (mkTransition nodeID "heartbeat" (heartbeat_state_text (vi_HeartbeatState previous))
         (heartbeat_state_text state) reason) in
    let?^ _ := record (bool_decide (vi_ActualState previous <> actual))
      (mkTransition nodeID "actual" (actual_state_text (vi_ActualState previous))
         (actual_state_text actual) reason) in
    let?^ updated := request (HNode nodeID) in
    Ret (Got (previous, updated)).

(* go: services/heartbeatmonitor/service.go func:consecutiveSuccessfulHeartbeats *)
Fixpoint consecutiveSuccessfulHeartbeats (history : list NodeHeartbeatHistory) : Z :=
  match history with
  | [] => 0
  | item :: rest => if hh_Success item then 1 + consecutiveSuccessfulHeartbeats rest else 0
  end.

Record Verdict := mkVerdict {
  vd_State : NodeHeartbeatState;
  vd_ActualState : NodeActualState;
  vd_Recovery : Z;
  vd_AgeSeconds : Z;
  vd_Reason : string
}.

Definition failed_last (history : list NodeHeartbeatHistory) : bool :=
  match history with h :: _ => negb (hh_Success h) | [] => false end.

Definition one_of_states (l : list NodeHeartbeatState) (s : NodeHeartbeatState) : bool := bool_decide (s ∈ l).

(** [-age] wraps at the least duration, and is negative then. *)
(* go: services/heartbeatmonitor/service.go func:Service.classify *)
Definition classify (cfg : Config) (node : Vitals) (history : list NodeHeartbeatHistory) (now : Time) : Verdict :=
  let successes := consecutiveSuccessfulHeartbeats history in
  match vi_LastSeenAt node with
  | None => mkVerdict Offline ActualOffline 0 (-1) "node has never reported heartbeat"
  | Some seen =>
      let age := time_sub now seen in
      if (age <? 0) && (30 * Second <? isub 0 age)
      then mkVerdict Suspected ActualDegraded 0 0 "heartbeat timestamp is too far in the future"
      else
        let age := if age <? 0 then 0 else age in
        let ageSeconds := seconds age in
        if failed_last history && (age <? cfg_OfflineThreshold cfg)
        then mkVerdict Suspected ActualDegraded 0 ageSeconds "latest heartbeat reported failure"
        else if cfg_UnavailableAfter cfg <=? age
        then mkVerdict Offline ActualOffline 0 ageSeconds "heartbeat expired beyond unavailable threshold"
        else if cfg_OfflineThreshold cfg <=? age
        then
          if one_of_states [Unreachable; Offline] (vi_HeartbeatState node)
          then mkVerdict Offline ActualOffline 0 ageSeconds "heartbeat remained unreachable"
          else mkVerdict Unreachable ActualDegraded 0 ageSeconds "heartbeat exceeded offline threshold"
        else if cfg_WarningThreshold cfg <=? age
        then mkVerdict Suspected ActualDegraded 0 ageSeconds "heartbeat exceeded warning threshold"
        else if one_of_states [Offline; Unreachable; Suspected; Recovering] (vi_HeartbeatState node)
        then
          if cfg_RecoveryThreshold cfg <=? successes
          then mkVerdict Reconciling ActualReconciling successes ageSeconds
                 (if decide (vi_HeartbeatState node = Recovering)
                  then "recovery threshold met; entering reconciliation"
                  else "fast recovery; entering reconciliation")
          else mkVerdict Recovering ActualDegraded successes ageSeconds
                 "successful heartbeat observed but recovery threshold not met"
        else
          mkVerdict Healthy ActualOnline successes ageSeconds
            (if decide (vi_HeartbeatState node = Reconciling)
             then "reconciliation complete" else "heartbeat healthy")
  end.

Section Monitor.
Context (cfg : Config) (publisher : bool).

(* go: services/heartbeatmonitor/service.go func:Service.increment *)
Definition hincrement (m : HbMetric) : H_ unit := request (HCount m).

(* go: services/heartbeatmonitor/service.go func:Service.publish *)
Definition hpublish (e : HbEventType) (nodeID : string) (p : TransitionPayload) : H_ unit :=
  if publisher then
    let^ err := request (HPublish e nodeID p) in
    match err with Some _ => hincrement EventPublishErrorsTotal | None => Ret tt end
  else Ret tt.

Definition transitionPayload (previous updated : Vitals) (ev : Evaluation) : TransitionPayload :=
  mkTransitionPayload (vi_HeartbeatState previous) (vi_HeartbeatState updated)
    (vi_ActualState previous) (vi_ActualState updated) (ev_Reason ev) (ev_LastSeenAt ev)
    (ev_AgeSeconds ev) (ev_SuccessfulHeartbeats ev).

(* go: services/heartbeatmonitor/service.go func:Service.publishActualStateChanged *)
Definition publishActualStateChanged (previous updated : Vitals) (ev : Evaluation) : H_ unit :=
  if negb publisher || bool_decide (vi_ActualState previous = vi_ActualState updated) then Ret tt
  else hpublish EventActualStateChanged (vi_ID updated) (transitionPayload previous updated ev).

(** The event of a new state, and its counter. *)
Definition transition_event (s : NodeHeartbeatState) : HbEventType * option HbMetric :=
  match s with
  | Suspected => (EventNodeSuspected, Some NodesSuspectedTotal)
  | Unreachable => (EventNodeUnreachable, Some NodesUnreachableTotal)
  | Offline => (EventNodeOffline, Some NodesOfflineTotal)
  | Healthy => (EventNodeRecovered, Some NodesRecoveredTotal)
  | Reconciling => (EventNodeReconciling, Some NodesReconcilingTotal)
  | Recovering => (EventActualStateChanged, None)
  end.

(* go: services/heartbeatmonitor/service.go func:Service.publishTransitions *)
Definition publishTransitions (previous updated : Vitals) (ev : Evaluation) : H_ unit :=
  if negb publisher || bool_decide (vi_HeartbeatState previous = vi_HeartbeatState updated)
  then publishActualStateChanged previous updated ev
  else
    let '(eventType, metric) := transition_event (vi_HeartbeatState updated) in
    (match metric with Some m => hincrement m | None => Ret tt end) ;;^
    hpublish eventType (vi_ID updated) (transitionPayload previous updated ev) ;;^
    publishActualStateChanged previous updated ev.

(** The most recent first; equal times keep their order. *)
Definition more_recent (a b : NodeHeartbeatHistory) : bool := After (hh_ObservedAt a) (hh_ObservedAt b).

Definition changed_by (prev : Vitals) (v : Verdict) : bool :=
  bool_decide (vi_HeartbeatState prev <> vd_State v) || bool_decide (vi_ActualState prev <> vd_ActualState v).

Definition evaluation_of (node prev : Vitals) (seen : option Time) (v : Verdict) : Evaluation :=
  mkEvaluation node (vi_HeartbeatState prev) (vd_State v) (vi_ActualState prev) (vd_ActualState v)
    (changed_by prev v) seen (vd_AgeSeconds v) (vd_Recovery v) (vd_Reason v) cfg.

(* go: services/heartbeatmonitor/service.go func:Service.evaluate *)
Definition evaluate (node : Vitals) (persist : bool) : H_ (answer Evaluation) :=
  let?^ history := request (HHistory (vi_ID node) (iadd (cfg_RecoveryThreshold cfg) 3)) in
  let^ now := request HNow in
  let v := classify cfg node (isort more_recent history) now in
  if negb persist then Ret (Got (evaluation_of node node (vi_LastSeenAt node) v))
  else
    let?^ rows := SetNodeHeartbeatClassification (vi_ID node) (vd_State v) (vd_ActualState v)
                    (vd_Recovery v) (vd_Reason v) in
    let '(previous, updated) := rows in
    let ev := evaluation_of updated previous (vi_LastSeenAt node) v in
    hincrement HeartbeatEvaluationsTotal ;;^
    (if ev_Changed ev then publishTransitions previous updated ev else Ret tt) ;;^
    (if ev_Changed ev && bool_decide (ev_State ev = Offline) &&
        (seconds (cfg_UnavailableAfter cfg) <? vd_AgeSeconds v)
     then hincrement NodesUnavailableTotal else Ret tt) ;;^
    Ret (Got ev).

(* go: services/heartbeatmonitor/service.go func:Service.EvaluateNode *)
Definition EvaluateNode (nodeID : string) : H_ (answer Evaluation) :=
  let?^ node := request (HNode nodeID) in evaluate node true.

(* go: services/heartbeatmonitor/service.go func:Service.InspectNode *)
Definition InspectNode (nodeID : string) : H_ (answer Evaluation) :=
  let?^ node := request (HNode nodeID) in evaluate node false.

(* go: services/heartbeatmonitor/service.go loop:Service.EvaluateAll *)
Fixpoint evaluate_each (nodes : list Vitals) : H_ (list string) :=
  match nodes with
  | [] => Ret []
  | node :: rest =>
      let^ r := evaluate node true in
      let^ errs := evaluate_each rest in
      Ret (match r with
           | Got _ => errs
           | Failed e => cat ["node "; vi_ID node; ": "; store_error_text e] :: errs end)
  end.

Definition newline : string := String (Ascii.ascii_of_nat 10) "".

(* go: services/heartbeatmonitor/service.go func:Service.EvaluateAll *)
Definition EvaluateAll : H_ error :=
  let^ r := request HNodes in
  match r with
  | Failed e => Ret (Some (cat ["heartbeat monitor: list nodes: "; store_error_text e]))
  | Got nodes =>
      let^ errs := evaluate_each nodes in
      Ret (if bool_decide (errs = []) then None
           else Some (cat ["heartbeat monitor: "; itoa (Z.of_nat (length errs)); " of ";
                           itoa (Z.of_nat (length nodes)); " node evaluations failed: ";
                           Join errs newline]))
  end.
End Monitor.

(** ** A control plane and its nodes *)

(** A classification that reached the tables: what it was made of. *)
Record Judgement := mkJudgement {
  ju_node : string;
  ju_state : NodeHeartbeatState;
  ju_tables : HbTables;
  ju_time : Time
}.

(** [hw_judged] remembers the classifications. *)
Record HbWorld := mkHbWorld {
  hw_tables : HbTables;
  hw_now : Time;
  hw_judged : list Judgement
}.

Definition set_nodes (f : gmap string Vitals -> gmap string Vitals) (w : HbWorld) : HbWorld :=
  w <| hw_tables := ((hw_tables w) <| hb_nodes := f (hb_nodes (hw_tables w)) |>) |>.

(** The answer of a statement that did [a], or an error although it did. *)
Definition tells {A} (a : A) (x : answer A) : Prop := x = Got a \/ exists msg, x = Failed msg.

(** What answers a request.  A statement may fail, before or after it took
    effect; the clock moves on. *)
Definition hb_answer (X : Type) (e : HEff X) : HbWorld -> X -> HbWorld -> Prop :=
  match e in HEff X return HbWorld -> X -> HbWorld -> Prop with
  | HNodes => fun w x w' => w' = w /\ tells (values (hb_nodes (hw_tables w))) x
  | HNode id => fun w x w' => w' = w /\
      match hb_nodes (hw_tables w) !! id with Some n => tells n x | None => exists msg, x = Failed msg end
  | HHistory id limit => fun w x w' => w' = w /\
      exists l, ListNodeHeartbeatHistory id limit (hw_tables w) = Got l /\ tells l x
  | HUpdate id s a r => fun w x w' =>
      (w' = w /\ exists msg, x = Failed msg) \/
      match hb_nodes (hw_tables w) !! id with
      | Some n =>
          tells true x /\
          w' = set_nodes <[id := classify_row s a r (hw_now w) n]> w
                 <| hw_judged := hw_judged w ++ [mkJudgement id s (hw_tables w) (hw_now w)] |>
      | None => tells false x /\ w' = w
      end
  | HTransition t => fun w x w' =>
      (w' = w /\ exists msg, x = Failed msg) \/
      (tells tt x /\
       w' = w <| hw_tables := ((hw_tables w) <| hb_transitions := hb_transitions (hw_tables w) ++ [t] |>) |>)
  | HNow => fun w t w' => hw_now w <= t /\ w' = w <| hw_now := t |>
  | HCount _ => fun w _ w' => w' = w
  | HPublish _ _ _ => fun w _ w' => w' = w
  end.

(** Reports, records of reports, edits of administrators, evaluations of a node
    and sweeps over all nodes by any process, one after the other.  An
    evaluation or a sweep may stop anywhere. *)
Inductive hb_step (cfg : Config) : HbWorld -> HbWorld -> Prop :=
| hb_report w id req now :
    hb_step cfg w (w <| hw_tables := snd (UpdateNodeHeartbeat id req now (hw_tables w)) |>)
| hb_record w id req hid now :
    hb_step cfg w (w <| hw_tables := RecordNodeHeartbeat id req hid now (hw_tables w) |>)
| hb_edit w id f :
    (forall n, vi_ID (f n) = vi_ID n /\ vi_HeartbeatState (f n) = vi_HeartbeatState n) ->
    hb_step cfg w (set_nodes (alter f id) w)
| hb_time w t : hw_now w <= t -> hb_step cfg w (w <| hw_now := t |>)
| hb_evaluate w publisher id o w' :
    runs hb_answer (EvaluateNode cfg publisher id) w o w' -> hb_step cfg w w'
| hb_sweep w publisher o w' :
    runs hb_answer (EvaluateAll cfg publisher) w o w' -> hb_step cfg w w'.

(** ** The automaton of a node *)

(** The records of a node, the newest first. *)
Definition records_of (id : string) (db : HbTables) : list NodeHeartbeatHistory :=
  isort newest (filter (fun h => hh_NodeID h = id) (hb_history db)).

(** The last [k] reports were successes. *)
Definition successes_in_a_row (k : Z) (id : string) (db : HbTables) : Prop :=
  k <= Z.of_nat (length (records_of id db)) /\ Forall (fun h => hh_Success h = true) (take (Z.to_nat k) (records_of id db)).

(** The node was heard of less than [d] ago. *)
Definition heard_within (d : Duration) (id : string) (db : HbTables) (now : Time) : Prop :=
  exists n seen, hb_nodes db !! id = Some n /\ vi_LastSeenAt n = Some seen /\ now - seen < d.

Definition silent_for (d : Duration) (id : string) (db : HbTables) (now : Time) : Prop :=
  exists n, hb_nodes db !! id = Some n /\
    match vi_LastSeenAt n with Some seen => d <= now - seen | None => True end.

Definition down : list NodeHeartbeatState := [Offline; Unreachable; Suspected; Recovering].

(** What a node may become, and when. *)
Definition legal (cfg : Config) (s : NodeHeartbeatState) (j : Judgement) : Prop :=
  let '(mkJudgement id s' db t) := j in
  match s' with
  | Healthy => s ∉ down /\ heard_within (cfg_WarningThreshold cfg) id db t
  | Reconciling =>
      s ∈ down /\ heard_within (cfg_WarningThreshold cfg) id db t /\
      successes_in_a_row (cfg_RecoveryThreshold cfg) id db
  | Recovering => s ∈ down /\ heard_within (cfg_WarningThreshold cfg) id db t
  | Suspected => True
  | Unreachable => s ∉ [Unreachable; Offline] /\ silent_for (cfg_OfflineThreshold cfg) id db t
  | Offline =>
      silent_for (cfg_UnavailableAfter cfg) id db t \/
      (s ∈ [Unreachable; Offline] /\ silent_for (cfg_OfflineThreshold cfg) id db t)
  end.

Fixpoint path (cfg : Config) (s : NodeHeartbeatState) (l : list Judgement) : Prop :=
  match l with [] => True | j :: rest => legal cfg s j /\ path cfg (ju_state j) rest end.

Definition judgements (id : string) (w : HbWorld) : list Judgement :=
  filter (fun j => ju_node j = id) (hw_judged w).

Definition last_state (s : NodeHeartbeatState) (l : list Judgement) : NodeHeartbeatState :=
  default s (ju_state <$> last l).

(** ** The automaton holds *)

Record config_ok (cfg : Config) : Prop := {
  ok_warning : 0 < cfg_WarningThreshold cfg;
  ok_offline : cfg_WarningThreshold cfg <= cfg_OfflineThreshold cfg;
  ok_unavailable : cfg_OfflineThreshold cfg <= cfg_UnavailableAfter cfg <= max64;
  ok_recovery : 1 <= cfg_RecoveryThreshold cfg <= max64 - 3
}.

(** A configuration whose fields are machine integers is made sound. *)
Lemma normalizeConfig_ok c :
  in64 (cfg_WarningThreshold c) -> in64 (cfg_OfflineThreshold c) -> in64 (cfg_UnavailableAfter c) ->
  cfg_RecoveryThreshold c <= max64 - 3 -> config_ok (normalizeConfig c).
Proof.
  intros Hw Ho Hu Hr. unfold in64, min64, max64 in *.
  destruct c as [w o u r i]. cbn in *. unfold normalizeConfig, positive_or, DefaultConfig, Second. cbn.
  split; cbn; unfold max64; repeat case_match; zb; lia.
Qed.

Lemma consecutive_take k l :
  k <= consecutiveSuccessfulHeartbeats l -> 0 <= k ->
  k <= Z.of_nat (length l) /\ Forall (fun h => hh_Success h = true) (take (Z.to_nat k) l).
Proof.
  revert k. induction l as [|h l IH]; intros k Hk H0; cbn in *.
  - assert (k = 0) as -> by lia. split; [lia|constructor].
  - destruct (hh_Success h) eqn:Es.
    + destruct (decide (k = 0)) as [->|Hne]; [split; [lia|constructor]|].
      destruct (IH (k - 1)) as [H1 H2]; [lia..|]. split; [lia|].
      replace (Z.to_nat k) with (S (Z.to_nat (k - 1))) by lia. by constructor.
    + assert (k = 0) as -> by lia. split; [lia|constructor].
Qed.

Lemma StronglySorted_mono {A} (R R' : A -> A -> Prop) l :
  (forall a b, R a b -> R' a b) -> StronglySorted R l -> StronglySorted R' l.
Proof. intros H. induction 1 as [|x l _ IH Hx]; [constructor|]; constructor; [done|]; eapply Forall_impl; [exact Hx|apply H]. Qed.

Lemma StronglySorted_take {A} (R : A -> A -> Prop) n l : StronglySorted R l -> StronglySorted R (take n l).
Proof.
  intros H. revert n. induction H as [|x l _ IH Hx]; intros [|n]; cbn; try constructor; [apply IH|].
  by apply Forall_take.
Qed.

Lemma records_sorted id db : StronglySorted (in_order newest) (records_of id db).
Proof.
  apply (isort_sorted newest (fun _ => True)).
  - intros a b _ _. unfold newest. intros H.
    apply orb_true_iff in H as [H|[H1 H2]%andb_true_iff]; zb; apply orb_false_iff;
      (split; [apply Z.ltb_ge; lia|]); [replace (hh_ObservedAt b =? hh_ObservedAt a) with false; [done|]|].
    + symmetry. apply Z.eqb_neq. lia.
    + by rewrite (str_lt_asym _ _ H2), andb_false_r.
  - intros a b c _ _ _. unfold newest. intros H1 H2.
    apply orb_false_iff in H1 as [H1 H1'], H2 as [H2 H2']. apply orb_false_iff.
    zb. split; [apply Z.ltb_ge; lia|].
    apply andb_false_iff in H1', H2'. apply andb_false_iff.
    destruct (Z.eq_dec (hh_ObservedAt c) (hh_ObservedAt a)) as [E|E]; [|left; by apply Z.eqb_neq].
    right. destruct H1' as [H1'|H1']; [zb; lia|]. destruct H2' as [H2'|H2']; [zb; lia|].
    by eapply str_lt_ntrans.
  - by apply Forall_forall.
Qed.

(** The records arrive sorted: sorting them again changes nothing. *)
Lemma sorted_again lim id db :
  isort more_recent (take lim (records_of id db)) = take lim (records_of id db).
Proof.
  apply isort_id, (StronglySorted_mono (in_order newest)); [|apply StronglySorted_take, records_sorted].
  intros a b H. unfold in_order, newest, more_recent, After in *. by apply orb_false_iff in H as [H _].
Qed.

Lemma not_down s : s ∉ down <-> s = Healthy \/ s = Reconciling.
Proof. unfold down. destruct s; set_solver. Qed.

(** The verdict on a node is a move of the automaton. *)
Lemma classify_legal cfg id n lim db t :
  config_ok cfg -> hb_nodes db !! id = Some n ->
  legal cfg (vi_HeartbeatState n)
    (mkJudgement id (vd_State (classify cfg n (take lim (records_of id db)) t)) db t).
Proof.
  intros [Hw Ho Hu Hr] Hn. unfold classify, Second.
  destruct (vi_LastSeenAt n) as [seen|] eqn:Es.
  2: { left. exists n. by rewrite Es. }
  assert (Hheard : forall d, 0 < d <= max64 -> time_sub t seen < d -> heard_within d id db t).
  { intros d Hd H. exists n, seen. split_and!; [done..|]. unfold time_sub, min64, max64 in *. lia. }
  assert (Hsilent : forall d, 0 < d -> d <= time_sub t seen -> silent_for d id db t).
  { intros d Hd H. exists n. rewrite Es. split; [done|]. unfold time_sub, min64, max64 in *. lia. }
  set (age := time_sub t seen) in *.
  destruct ((age <? 0) && _); [done|].
  set (age' := if age <? 0 then 0 else age).
  assert (Hlt : forall d, 0 < d <= max64 -> age' < d -> heard_within d id db t).
  { intros d Hd H. apply Hheard; [done|]. unfold age' in H. destruct (age <? 0) eqn:E; zb; lia. }
  assert (Hge : forall d, 0 < d -> d <= age' -> silent_for d id db t).
  { intros d Hd H. apply Hsilent; [done|]. unfold age' in H. destruct (age <? 0) eqn:E; zb; lia. }
  destruct (_ && _); [done|].
  destruct (cfg_UnavailableAfter cfg <=? age') eqn:E1; zb; [left; apply Hge; lia|].
  destruct (cfg_OfflineThreshold cfg <=? age') eqn:E2; zb.
  { unfold one_of_states. case_bool_decide; cbn; [right|]; (split; [done|]); apply Hge; lia. }
  destruct (cfg_WarningThreshold cfg <=? age') eqn:E3; zb; [done|].
  assert (heard_within (cfg_WarningThreshold cfg) id db t) by (apply Hlt; lia).
  unfold one_of_states. case_bool_decide as Hd; cbn [vd_State legal]; [|done].
  destruct (cfg_RecoveryThreshold cfg <=? _) eqn:E4; cbn [vd_State legal]; zb; [|done].
  split_and!; [done..|].
  destruct (consecutive_take _ _ E4) as [H1 H2]; [lia|]. rewrite length_take in H1.
  split; [lia|]. rewrite take_take in H2. by replace (Nat.min _ _) with (Z.to_nat (cfg_RecoveryThreshold cfg)) in H2 by lia.
Qed.

Lemma path_snoc cfg s l j : path cfg s (l ++ [j]) <-> path cfg s l /\ legal cfg (last_state s l) j.
Proof.
  revert s. induction l as [|i l IH]; intros s; cbn; [tauto|]. rewrite IH.
  replace (last_state s (i :: l)) with (last_state (ju_state i) l); [tauto|].
  unfold last_state. destruct l as [|k l]; [done|]. change (last (i :: k :: l)) with (last (k :: l)).
  destruct (last (k :: l)) eqn:E; [done|]. by apply last_None in E.
Qed.

(** Requests that leave nodes and judgements alone. *)
Definition hb_quiet (X : Type) (e : HEff X) : Prop :=
  match e with HUpdate _ _ _ _ => False | _ => True end.

(** Goes through a program whose requests are quiet. *)
Ltac hquiet :=
  repeat first
    [ exact I
    | match goal with
      | |- only _ (pbind _ _) => apply only_bind; [|intros]
      | |- only _ (htry _ _) => unfold htry
      | |- only _ (request _) => apply only_request; exact I
      | |- only _ (Ret _) => exact I
      | |- only _ (match ?x with _ => _ end) => destruct x
      | |- only _ (let '(_, _) := ?x in _) => destruct x
      end ].

(** *** Reachable worlds *)

Section Reachable.
Context (cfg : Config) (Hcfg : config_ok cfg) (start : gmap string NodeHeartbeatState).

(** Every node went through the automaton to where it is. *)
Definition follows (w : HbWorld) : Prop :=
  forall id n, hb_nodes (hw_tables w) !! id = Some n -> vi_ID n = id /\
    exists s, start !! id = Some s /\ path cfg s (judgements id w) /\
              vi_HeartbeatState n = last_state s (judgements id w).

Definition same_nodes (w w' : HbWorld) : Prop :=
  hb_nodes (hw_tables w') = hb_nodes (hw_tables w) /\ hw_judged w' = hw_judged w.

Lemma quiet_step X (e : HEff X) w x w' : hb_quiet X e -> hb_answer X e w x w' -> same_nodes w w'.
Proof. intros Hq H. destruct e; cbn in H; try done; destruct_and?; by destruct_or?; destruct_and?; simplify_eq. Qed.

Lemma follows_same w w' : same_nodes w w' -> follows w -> follows w'.
Proof. intros (E1 & E3) H id n. unfold judgements. rewrite E1, E3. apply H. Qed.

Lemma quiet_holds {A} (p : H_ A) w : only hb_quiet p -> follows w -> holds hb_answer follows p (fun _ => follows) w.
Proof. intros. eapply (holds_only _ hb_quiet); [|done..]. intros. eapply follows_same; [by eapply quiet_step|done]. Qed.

Lemma publishTransitions_quiet publisher p u ev : only hb_quiet (publishTransitions publisher p u ev).
Proof. unfold publishTransitions, publishActualStateChanged, hpublish, hincrement. hquiet. Qed.

Lemma follows_update id s a r n w :
  follows w -> hb_nodes (hw_tables w) !! id = Some n ->
  legal cfg (vi_HeartbeatState n) (mkJudgement id s (hw_tables w) (hw_now w)) ->
  follows (set_nodes <[id := classify_row s a r (hw_now w) n]> w
             <| hw_judged := hw_judged w ++ [mkJudgement id s (hw_tables w) (hw_now w)] |>).
Proof using Type.
  intros H Hn Hl id' n'. unfold judgements, set_nodes. recs. rewrite filter_app.
  destruct (decide (id' = id)) as [->|Hne].
  - rewrite lookup_insert_eq. intros [= <-]. destruct (H id n Hn) as (Hid & s0 & Hs & Hp & Hst).
    split; [exact Hid|]. exists s0. rewrite filter_cons_True, filter_nil by done. split; [done|].
    split; [|unfold last_state; by rewrite last_snoc]. apply path_snoc. split; [exact Hp|]. unfold judgements in Hst. by rewrite <- Hst.
  - rewrite lookup_insert_ne by done. intros Hn'. rewrite filter_cons_False by (cbn; congruence).
    rewrite filter_nil, app_nil_r. by apply H.
Qed.

Lemma classification_holds id s a r reason w :
  follows w ->
  (forall n, hb_nodes (hw_tables w) !! id = Some n ->
     legal cfg (vi_HeartbeatState n) (mkJudgement id s (hw_tables w) (hw_now w))) ->
  holds hb_answer follows (SetNodeHeartbeatClassification id s a r reason) (fun _ => follows) w.
Proof using Type.
  intros H Hl. unfold SetNodeHeartbeatClassification.
  intros x w1 [-> _]. split; [done|]. destruct x as [previous|e]; [|exact H].
  intros x w1 Hs. assert (Hf : follows w1).
  { destruct Hs as [[-> _]|Hs]; [done|]. destruct (_ !! id) as [n|] eqn:En; destruct Hs as [_ ->]; [|done].
    apply follows_update; [done..|]. by apply Hl. }
  split; [done|]. destruct x as [[]|e]; cbn [pbind negb]; [|exact Hf..].
  apply quiet_holds; [|done]. hquiet.
Qed.

Lemma evaluate_holds publisher node w :
  follows w -> hb_nodes (hw_tables w) !! vi_ID node = Some node ->
  holds hb_answer follows (evaluate cfg publisher node true) (fun _ => follows) w.
Proof using Hcfg.
  intros H Hn x w1 [-> (l & Hl & Hx)]. split; [done|].
  destruct Hx as [->|[msg ->]]; [|exact H]. unfold ListNodeHeartbeatHistory in Hl. injection Hl as <-.
  cbn [pbind]. fold (records_of (vi_ID node) (hw_tables w)). rewrite sorted_again.
  intros now w1 [_ ->]. assert (Hf : follows (w <| hw_now := now |>)) by (by apply (follows_same w)).
  split; [exact Hf|]. cbn [pbind negb]. apply holds_bind. eapply holds_post.
  - apply classification_holds; [exact Hf|]. intros n. recs. rewrite Hn. intros [= <-].
    by apply classify_legal.
  - intros [[previous updated]|e] w2 H2; [|exact H2]. cbv beta iota.
    apply quiet_holds; [|exact H2]. unfold hincrement. hquiet; apply publishTransitions_quiet.
Qed.

(** A classification changes one row, so a sweep finds the others as its list
    has them. *)
Definition touches (id : string) (X : Type) (e : HEff X) : Prop :=
  match e with HUpdate id' _ _ _ => id' = id | _ => True end.

Definition others (id : string) (w0 w : HbWorld) : Prop :=
  forall k, k <> id -> hb_nodes (hw_tables w) !! k = hb_nodes (hw_tables w0) !! k.

Lemma touches_step id w0 X (e : HEff X) w x w' : touches id X e -> others id w0 w -> hb_answer X e w x w' -> others id w0 w'.
Proof.
  intros Ht Ho H. destruct e; cbn in H, Ht; try (by destruct_and?; destruct_or?; destruct_and?; simplify_eq).
  subst. destruct H as [[-> _]|H]; [done|]. destruct (_ !! _) as [n|]; destruct H as [_ ->]; [|done].
  intros k Hk. unfold set_nodes. recs. rewrite lookup_insert_ne by done. by apply Ho.
Qed.

Lemma quiet_touches id X (e : HEff X) : hb_quiet X e -> touches id X e.
Proof. by destruct e. Qed.

Lemma evaluate_touches publisher node : only (touches (vi_ID node)) (evaluate cfg publisher node true).
Proof.
  unfold evaluate, SetNodeHeartbeatClassification, hincrement. hquiet;
    try (apply (only_mono _ _ _ (quiet_touches _)), publishTransitions_quiet).
  by apply only_request.
Qed.

Lemma each_holds publisher nodes w :
  follows w -> NoDup (vi_ID <$> nodes) -> Forall (fun n => hb_nodes (hw_tables w) !! vi_ID n = Some n) nodes ->
  holds hb_answer follows (evaluate_each cfg publisher nodes) (fun _ => follows) w.
Proof using Hcfg.
  revert w. induction nodes as [|n nodes IH]; intros w Hf Hnd Hall; [exact Hf|].
  apply NoDup_cons in Hnd as [Hn Hnd]. apply Forall_cons in Hall as [Hw Hall]. cbn [evaluate_each]. apply holds_bind.
  assert (He : holds hb_answer (fun w1 => follows w1 /\ others (vi_ID n) w w1) (evaluate cfg publisher n true)
    (fun _ w1 => follows w1 /\ others (vi_ID n) w w1) w).
  { apply holds_and; [by apply evaluate_holds|].
    apply (holds_only _ (touches (vi_ID n))); [by intros; eapply touches_step|apply evaluate_touches|by intros k]. }
  eapply holds_mono; [| |exact He]; [by intros w1 [H _]|].
  intros r w1 [H1 H2]. apply holds_bind. eapply holds_post; [apply (IH w1 H1 Hnd)|by intros].
  apply Forall_forall. intros n' Hn'. rewrite H2; [by apply (proj1 (Forall_forall _ _) Hall)|].
  intros E. apply Hn. rewrite <- E. by apply list_elem_of_fmap_2.
Qed.

Lemma listed_nodes w : follows w -> NoDup (vi_ID <$> values (hb_nodes (hw_tables w))) /\
  Forall (fun n => hb_nodes (hw_tables w) !! vi_ID n = Some n) (values (hb_nodes (hw_tables w))).
Proof using Type.
  intros H. split.
  - unfold values. change (map snd ?l) with (snd <$> l). rewrite <- list_fmap_compose.
    rewrite (list_fmap_ext _ fst); [apply NoDup_fst_map_to_list|].
    intros i [k n] Hi. apply list_elem_of_lookup_2, elem_of_map_to_list in Hi. by destruct (H k n Hi).
  - apply Forall_forall. intros n [k Hk]%elem_of_values. destruct (H k n Hk) as [E _]. by rewrite E.
Qed.

Lemma step_follows w w' : hb_step cfg w w' -> follows w -> follows w'.
Proof using Hcfg.
  intros Hs H. destruct Hs as [w id req now|w id req hid now|w id f Hf|w t Ht|w publisher id o w' Hr|w publisher o w' Hr].
  - intros id' n'. unfold UpdateNodeHeartbeat. destruct (hb_nodes (hw_tables w) !! id) as [n|] eqn:En; recs.
    + destruct (decide (id' = id)) as [->|Hne];
        [rewrite lookup_insert_eq; intros [= <-]; by apply (H id n)|].
      rewrite lookup_insert_ne by done. apply H.
    + apply H.
  - apply (follows_same w); [|exact H]. unfold RecordNodeHeartbeat, CreateNodeHeartbeatHistory.
    split_and!; repeat case_match; done.
  - intros id' n'. unfold set_nodes. recs. destruct (decide (id' = id)) as [->|Hne].
    + rewrite lookup_alter_eq. destruct (hb_nodes (hw_tables w) !! id) as [n|] eqn:En; [|done].
      intros [= <-]. destruct (Hf n) as [-> ->]. by apply H.
    + rewrite lookup_alter_ne by done. apply H.
  - by apply (follows_same w).
  - refine (proj1 (runs_holds hb_answer follows _ (fun _ => follows) w o w' H _ Hr)).
    intros x w1 [-> Hx]. split; [done|]. destruct (_ !! id) as [n|] eqn:En.
    + destruct Hx as [->|[msg ->]]; [|exact H]. apply evaluate_holds; [done|].
      by destruct (H id n En) as [-> _].
    + destruct Hx as [msg ->]. exact H.
  - refine (proj1 (runs_holds hb_answer follows _ (fun _ => follows) w o w' H _ Hr)).
    intros x w1 [-> Hx]. split; [done|]. destruct (listed_nodes w H) as [H1 H2].
    destruct Hx as [->|[msg ->]]; [|exact H]. cbn [pbind]. apply holds_bind.
    eapply holds_post; [by apply each_holds|by intros].
Qed.

End Reachable.

Lemma reachable_follows cfg start w w' :
  config_ok cfg -> rtc (hb_step cfg) w w' -> follows cfg start w -> follows cfg start w'.
Proof. intros Hc H. induction H as [|w w1 w2 Hs _ IH]; [done|]. intros Hf. by eapply IH, step_follows. Qed.

(** Where the automaton starts in a world. *)
Definition states_of (w : HbWorld) : gmap string NodeHeartbeatState :=
  vi_HeartbeatState <$> hb_nodes (hw_tables w).

Lemma path_to_healthy cfg s l :
  path cfg s l -> s ∈ down -> last_state s l = Healthy ->
  exists l1 db t l2 id, l = l1 ++ mkJudgement id Reconciling db t :: l2 /\
    legal cfg (last_state s l1) (mkJudgement id Reconciling db t).
Proof.
  intros Hp Hs Hl. induction l as [|j l IH] using rev_ind.
  { unfold last_state in Hl. cbn in Hl. subst s. by unfold down in Hs; set_solver. }
  apply path_snoc in Hp as [Hp Hj]. unfold last_state in Hl. rewrite last_snoc in Hl. cbn in Hl.
  destruct j as [id s' db t]. cbn in Hl. subst s'. destruct Hj as [Hd _]. apply not_down in Hd as [Hd|Hd].
  - destruct (IH Hp Hd) as (l1 & db' & t' & l2 & id' & -> & Hl1).
    exists l1, db', t', (l2 ++ [mkJudgement id Healthy db t]), id'. by rewrite <- app_assoc.
  - destruct l as [|j' l _] using rev_ind; [unfold last_state in Hd; cbn in Hd; subst s; unfold down in Hs; set_solver|].
    apply path_snoc in Hp as [Hp Hj']. unfold last_state in Hd. rewrite last_snoc in Hd. cbn in Hd.
    destruct j' as [id' s' db' t']. cbn in Hd. subst s'.
    exists l, db', t', [mkJudgement id Healthy db t], id'. by rewrite <- app_assoc.
Qed.

(** C20: A node that was found down (suspected, unreachable, offline or still
    recovering) is healthy again only after a classification that found, in
    the tables, the last [cfg_RecoveryThreshold] reports of the node to be
    successes and the node heard of within the warning threshold.  Whatever
    reports, records, edits, evaluations of a node and sweeps over all nodes
    came in between, in any order, with statements that failed and evaluations
    and sweeps that stopped anywhere.  They follow one another: a sweep that
    another evaluation overtakes works on a list that is out of date, and can
    pass over the recovery. *)
Theorem recovery_is_earned cfg w w' id n n' :
  config_ok cfg -> hw_judged w = [] -> (forall k v, hb_nodes (hw_tables w) !! k = Some v -> vi_ID v = k) ->
  rtc (hb_step cfg) w w' ->
  hb_nodes (hw_tables w) !! id = Some n -> vi_HeartbeatState n ∈ down ->
  hb_nodes (hw_tables w') !! id = Some n' -> vi_HeartbeatState n' = Healthy ->
  exists db t, mkJudgement id Reconciling db t ∈ hw_judged w' /\
    successes_in_a_row (cfg_RecoveryThreshold cfg) id db /\
    heard_within (cfg_WarningThreshold cfg) id db t.
Proof.
  intros Hc Hj Hids Hr Hn Hd Hn' Hh.
  assert (Hf : follows cfg (states_of w) w').
  { eapply reachable_follows; [done..|]. intros k v Hv. split; [by apply Hids|].
    exists (vi_HeartbeatState v). unfold states_of, judgements. rewrite lookup_fmap, Hv, Hj. done. }
  destruct (Hf id n' Hn') as (_ & s & Hs & Hp & Hl). unfold states_of in Hs.
  rewrite lookup_fmap, Hn in Hs. injection Hs as <-. rewrite Hh in Hl. symmetry in Hl.
  destruct (path_to_healthy cfg _ _ Hp Hd Hl) as (l1 & db & t & l2 & id' & E & _ & Hw & Hrow).
  assert (Hin : mkJudgement id' Reconciling db t ∈ judgements id w') by (rewrite E; set_solver).
  apply list_elem_of_filter in Hin as [Hid Hin]. cbn in Hid. subst id'. by exists db, t.
Qed.

(** ** When nothing fails *)

Definition hb_serve (X : Type) (e : HEff X) (w : HbWorld) : X * HbWorld :=
  match e in HEff X return X * HbWorld with
  | HNodes => (Got (values (hb_nodes (hw_tables w))), w)
  | HNode id => (match hb_nodes (hw_tables w) !! id with Some n => Got n | None => Failed ErrNoRows end, w)
  | HHistory id limit => (ListNodeHeartbeatHistory id limit (hw_tables w), w)
  | HUpdate id s a r =>
      match hb_nodes (hw_tables w) !! id with
      | Some n =>
          (Got true, set_nodes <[id := classify_row s a r (hw_now w) n]> w
             <| hw_judged := hw_judged w ++ [mkJudgement id s (hw_tables w) (hw_now w)] |>)
      | None => (Got false, w)
      end
  | HTransition t =>
      (Got tt, w <| hw_tables := ((hw_tables w) <| hb_transitions := hb_transitions (hw_tables w) ++ [t] |>) |>)
  | HNow => (hw_now w, w)
  | HCount _ => (tt, w)
  | HPublish _ _ _ => (None, w)
  end.

Lemma serve_answers X (e : HEff X) w : hb_answer X e w (fst (hb_serve X e w)) (snd (hb_serve X e w)).
Proof.
  destruct e; cbn [hb_serve hb_answer fst snd]; try done.
  - split; [done|]. by left.
  - split; [done|]. destruct (_ !! _); [by left|by eexists].
  - split; [done|]. unfold ListNodeHeartbeatHistory. eexists. split; [done|by left].
  - right. destruct (_ !! _); (split; [by left|done]).
  - right. split; [by left|done].
  - split; [lia|]. by destruct w.
Qed.

(** A node of the examples, its report and the configuration. *)
Definition example_vitals (s : NodeHeartbeatState) (seen : option Time) : Vitals :=
  mkVitals "node-1" s 0 0 ActualOffline "active" "offline" seen None None None None None None None None None None f0 0.

Definition example_report : NodeHeartbeatRequest :=
  mkNodeHeartbeatRequest "1.0" "linux" "amd64" 8 16384 100000 "ok" "ok" "docker" "" f0 10.

Definition example_hb : HbWorld :=
  mkHbWorld (mkHbTables {[ "node-1" := example_vitals Offline (Some 0) ]} [] []) (1000 * Second) [].

(** A report that arrived and was evaluated at [bt_Time]. *)
Record Beat := mkBeat { bt_ID : string; bt_Report : NodeHeartbeatRequest; bt_Time : Time }.

Definition reported (id : string) (b : Beat) (w : HbWorld) : HbWorld :=
  let w1 := w <| hw_now := bt_Time b |> in
  let w2 := w1 <| hw_tables := snd (UpdateNodeHeartbeat id (bt_Report b) (bt_Time b) (hw_tables w1)) |> in
  w2 <| hw_tables := RecordNodeHeartbeat id (bt_Report b) (bt_ID b) (bt_Time b) (hw_tables w2) |>.

Definition report (cfg : Config) (publisher : bool) (id : string) (b : Beat) (w : HbWorld) : HbWorld :=
  world_alone hb_serve (EvaluateNode cfg publisher id) (reported id b w).

Definition reports (cfg : Config) (publisher : bool) (id : string) (bs : list Beat) (w : HbWorld) : HbWorld :=
  foldl (fun w b => report cfg publisher id b w) w bs.

Lemma report_steps cfg publisher id b w :
  hw_now w <= bt_Time b -> rtc (hb_step cfg) w (report cfg publisher id b w).
Proof.
  intros Ht. unfold report, reported. eapply rtc_l; [by apply hb_time|].
  eapply rtc_l; [apply hb_report|]. eapply rtc_l; [apply hb_record|]. apply rtc_once.
  eapply hb_evaluate, runs_alone. apply serve_answers.
Qed.

Definition example_beats : list Beat :=
  [mkBeat "h1" example_report (1005 * Second); mkBeat "h2" example_report (1010 * Second);
   mkBeat "h3" example_report (1020 * Second)].

Definition example_recovered : HbWorld := reports DefaultConfig true "node-1" example_beats example_hb.

Lemma recovery_is_earned_witness :
  exists db t, mkJudgement "node-1" Reconciling db t ∈ hw_judged example_recovered /\
    successes_in_a_row 2 "node-1" db /\ heard_within (30 * Second) "node-1" db t.
Proof.
  assert (config_ok DefaultConfig) as Hc by (by split; vm_compute).
  assert (rtc (hb_step DefaultConfig) example_hb example_recovered) as Hr.
  { unfold example_recovered, reports, example_beats. cbn [foldl].
    etransitivity; [|apply report_steps; by vm_compute].
    etransitivity; [|apply report_steps; by vm_compute]. apply report_steps; by vm_compute. }
  assert (exists n', hb_nodes (hw_tables example_recovered) !! "node-1" = Some n' /\ vi_HeartbeatState n' = Healthy)
    as (n' & Hn' & Hh) by (vm_compute; eexists; split; reflexivity).
  refine (recovery_is_earned DefaultConfig example_hb example_recovered "node-1"
            (example_vitals Offline (Some 0)) n' Hc eq_refl _ Hr _ _ Hn' Hh).
  - intros k v Hk. unfold example_hb in Hk. cbn [hw_tables hb_nodes] in Hk. apply lookup_singleton_Some in Hk as [<- <-]. reflexivity.
  - apply lookup_singleton_eq.
  - unfold down. left.
Defined.

(** *** What an evaluation does *)

Definition same_history (w w' : HbWorld) : Prop :=
  hb_history (hw_tables w') = hb_history (hw_tables w) /\ hw_now w' = hw_now w.
#[local] Instance same_history_pre : PreOrder same_history.
Proof. split; [done|]. intros a b c [H1 H2] [H3 H4]. split; congruence. Qed.
#[local] Instance same_nodes_pre : PreOrder same_nodes.
Proof. split; [done|]. intros a b c [H1 H2] [H3 H4]. split; congruence. Qed.

Lemma serve_history X (e : HEff X) w : same_history w (snd (hb_serve X e w)).
Proof. destruct e; try done. cbn [hb_serve]. by destruct (_ !! _). Qed.

Lemma alone_history {A} (p : H_ A) w : same_history w (world_alone hb_serve p w).
Proof.
  apply (alone_only hb_serve (fun _ _ => True) same_history); [intros; apply serve_history|].
  induction p as [a|X e k IH]; [exact I|]. by split.
Qed.

Lemma alone_quiet {A} (p : H_ A) w : only hb_quiet p -> same_nodes w (world_alone hb_serve p w).
Proof.
  apply (alone_only hb_serve hb_quiet same_nodes). intros X e w' He. eapply quiet_step; [exact He|]. apply serve_answers.
Qed.

(** The history an evaluation of [id] reads. *)
Definition read_records (cfg : Config) (id : string) (db : HbTables) : list NodeHeartbeatHistory :=
  take (Z.to_nat (normalizeTimelineLimit (iadd (cfg_RecoveryThreshold cfg) 3))) (records_of id db).

Definition verdict_on (cfg : Config) (n : Vitals) (w : HbWorld) : Verdict :=
  classify cfg n (read_records cfg (vi_ID n) (hw_tables w)) (hw_now w).

Lemma alone_request {X A} (e : HEff X) (k : X -> H_ A) w :
  world_alone hb_serve (pbind (request e) k) w =
    world_alone hb_serve (k (fst (hb_serve X e w))) (snd (hb_serve X e w)).
Proof. by rewrite world_alone_bind. Qed.

Lemma classification_alone id s a r reason n w :
  hb_nodes (hw_tables w) !! id = Some n ->
  hb_nodes (hw_tables (world_alone hb_serve (SetNodeHeartbeatClassification id s a r reason) w)) =
    <[id := classify_row s a r (hw_now w) n]> (hb_nodes (hw_tables w)).
Proof.
  intros Hn. unfold SetNodeHeartbeatClassification, htry. rewrite alone_request. cbn [hb_serve fst snd]. rewrite Hn.
  rewrite alone_request. cbn [hb_serve]. rewrite Hn. cbn [fst snd negb].
  etransitivity; [apply alone_quiet; hquiet|]. done.
Qed.

Lemma evaluate_node_alone cfg publisher id n w :
  hb_nodes (hw_tables w) !! id = Some n -> vi_ID n = id ->
  let v := verdict_on cfg n w in
  hb_nodes (hw_tables (world_alone hb_serve (EvaluateNode cfg publisher id) w)) =
    <[id := classify_row (vd_State v) (vd_ActualState v) (vd_Recovery v) (hw_now w) n]> (hb_nodes (hw_tables w)).
Proof.
  intros Hn Hid v. unfold EvaluateNode, htry. rewrite alone_request. cbn [hb_serve fst snd]. rewrite Hn.
  unfold evaluate, htry. rewrite alone_request. cbn [hb_serve fst snd]. unfold ListNodeHeartbeatHistory at 1.
  rewrite alone_request. cbn [hb_serve fst snd negb]. fold (records_of (vi_ID n) (hw_tables w)).
  rewrite sorted_again. fold (read_records cfg (vi_ID n) (hw_tables w)). fold (verdict_on cfg n w). fold v.
  rewrite world_alone_bind. rewrite Hid.
  etransitivity; [|by apply (classification_alone id _ _ _ (vd_Reason v))].
  destruct (answer_alone _ _ _) as [[previous updated]|e]; [|done].
  apply alone_quiet. unfold hincrement. hquiet. apply publishTransitions_quiet.
Qed.

(** ** A node that reports again recovers *)

Lemma isort_snoc h l : Forall (fun x => newest h x = true) l -> isort newest (l ++ [h]) = h :: isort newest l.
Proof.
  induction 1 as [|x l Hx _ IH]; [done|]. cbn [app isort foldr]. fold (isort newest (l ++ [h])). rewrite IH.
  cbn [insert_sorted]. by rewrite Hx.
Qed.

Lemma consecutive_rows k lim l :
  (k <= length l)%nat -> Forall (fun h => hh_Success h = true) (take k l) ->
  Z.min (Z.of_nat k) (Z.of_nat lim) <= consecutiveSuccessfulHeartbeats (take lim l).
Proof.
  revert k lim. induction l as [|h l IH]; intros k lim Hk Hl.
  - cbn in Hk. assert (k = 0%nat) as -> by lia. rewrite take_nil. cbn. lia.
  - destruct k as [|k]; [clear|]. { destruct lim; cbn; [lia|]. destruct (hh_Success h); [|lia].
      assert (0 <= consecutiveSuccessfulHeartbeats (take lim l)); [|lia].
      generalize (take lim l). clear. intros l. induction l as [|h l IH]; cbn; [lia|]. destruct (hh_Success h); lia. }
    destruct lim as [|lim]; [cbn; lia|]. cbn [take] in *. apply Forall_cons in Hl as [Hh Hl].
    cbn [consecutiveSuccessfulHeartbeats]. rewrite Hh. specialize (IH k lim ltac:(cbn in Hk; lia) Hl). lia.
Qed.

(** The verdict on a node that just reported. *)
Lemma verdict_of_report cfg n l t :
  config_ok cfg -> vi_LastSeenAt n = Some t -> failed_last l = false ->
  let v := classify cfg n l t in
  vd_State v = (if decide (vi_HeartbeatState n ∈ down)
                then if cfg_RecoveryThreshold cfg <=? consecutiveSuccessfulHeartbeats l
                     then Reconciling else Recovering
                else Healthy) /\
  (vd_State v = Healthy -> vd_ActualState v = ActualOnline).
Proof.
  intros [Hw Ho Hu Hr] Hseen Hl. unfold classify. rewrite Hseen.
  assert (time_sub t t = 0) as -> by (unfold time_sub, min64, max64; lia). rewrite Hl.
  change (0 <? 0) with false. cbn [andb].
  replace (cfg_UnavailableAfter cfg <=? 0) with false by (symmetry; apply Z.leb_gt; lia).
  replace (cfg_OfflineThreshold cfg <=? 0) with false by (symmetry; apply Z.leb_gt; lia).
  replace (cfg_WarningThreshold cfg <=? 0) with false by (symmetry; apply Z.leb_gt; lia).
  unfold one_of_states. fold down. destruct (decide (vi_HeartbeatState n ∈ down)) as [Hd|Hd].
  - rewrite bool_decide_eq_true_2 by done. by destruct (_ <=? _).
  - by rewrite bool_decide_eq_false_2.
Qed.

(** A node in the tables, and how many of its last reports were successes. *)
Definition standing (id : string) (n : Vitals) (k : nat) (w : HbWorld) : Prop :=
  hb_nodes (hw_tables w) !! id = Some n /\ vi_ID n = id /\
  (k <= length (records_of id (hw_tables w)))%nat /\
  Forall (fun h => hh_Success h = true) (take k (records_of id (hw_tables w))).

(** A report that is new to the tables, later than the others of its node,
    and without an error. *)
Definition clean (id : string) (b : Beat) (db : HbTables) : Prop :=
  TrimSpace (hr_Error (bt_Report b)) = "" /\
  Forall (fun h => hh_ID h <> bt_ID b /\ (hh_NodeID h = id -> hh_ObservedAt h < bt_Time b)) (hb_history db).

Lemma records_snoc id db db' h :
  hb_history db' = hb_history db ++ [h] -> hh_NodeID h = id ->
  Forall (fun x => hh_NodeID x = id -> hh_ObservedAt x < hh_ObservedAt h) (hb_history db) ->
  records_of id db' = h :: records_of id db.
Proof.
  intros E Hid Hf. unfold records_of. rewrite E, filter_app, filter_cons_True, filter_nil by done.
  apply isort_snoc, Forall_forall. intros x [Hx Hin]%list_elem_of_filter. rewrite Forall_forall in Hf.
  apply orb_true_iff. left. by apply Z.ltb_lt, Hf.
Qed.

(** What the tables hold of a report when it is evaluated. *)
Lemma reported_row id b n k w :
  TrimSpace id <> "" -> standing id n k w -> clean id b (hw_tables w) ->
  exists n2 h, standing id n2 (S k) (reported id b w) /\
    hb_history (hw_tables (reported id b w)) = hb_history (hw_tables w) ++ [h] /\
    hh_ID h = bt_ID b /\ hh_ObservedAt h = bt_Time b /\ hw_now (reported id b w) = bt_Time b /\
    vi_HeartbeatState n2 = vi_HeartbeatState n /\ vi_LastSeenAt n2 = Some (bt_Time b).
Proof.
  intros Hid (Hn & Hi & Hk & Hs) [He Hf]. unfold reported, UpdateNodeHeartbeat. recs. rewrite Hn. recs.
  unfold RecordNodeHeartbeat, CreateNodeHeartbeatHistory. recs.
  destruct (TrimSpace id =? "")%string eqn:E1; [seqb; done|].
  rewrite lookup_insert_eq. rewrite bool_decide_eq_true_2 by (by eexists).
  assert (existsb (fun h => hh_ID h =? bt_ID b)%string (hb_history (hw_tables w)) = false) as ->.
  { apply not_true_iff_false. intros (h & Hh & E)%existsb_exists. seqb. rewrite Forall_forall in Hf.
    by apply list_elem_of_In, Hf in Hh as [Hh _]. }
  rewrite He. match goal with |- context [<[id := ?m]> _] => exists m end.
  match goal with |- context [hb_history (hw_tables w) ++ [?h]] => exists h; set (h0 := h) end.
  split_and!; try reflexivity. unfold standing. split; [apply lookup_insert_eq|]. split; [exact Hi|].
  match goal with |- context [records_of id (hw_tables ?W)] =>
    rewrite (records_snoc id (hw_tables w) (hw_tables W) h0 eq_refl eq_refl) end.
  2: { eapply Forall_impl; [exact Hf|]. by intros x [_ Hx]. }
  split; [cbn; lia|by constructor].
Qed.

(** One report: a node that is up stays up, one that is down recovers, and is
    reconciled once enough reports were successes. *)
Lemma report_standing cfg publisher id b n k w :
  config_ok cfg -> cfg_RecoveryThreshold cfg <= 500 -> TrimSpace id <> "" ->
  standing id n k w -> clean id b (hw_tables w) ->
  let w' := report cfg publisher id b w in
  exists n' h, standing id n' (S k) w' /\ hb_history (hw_tables w') = hb_history (hw_tables w) ++ [h] /\
    hh_ID h = bt_ID b /\ hh_ObservedAt h = bt_Time b /\
    (vi_HeartbeatState n ∉ down -> vi_HeartbeatState n' = Healthy /\ vi_ActualState n' = ActualOnline) /\
    (vi_HeartbeatState n ∈ down -> vi_HeartbeatState n' ∈ Reconciling :: down) /\
    (vi_HeartbeatState n ∈ down -> cfg_RecoveryThreshold cfg <= Z.of_nat (S k) ->
       vi_HeartbeatState n' = Reconciling).
Proof.
  intros Hc H500 Hid Hst Hcl. cbv zeta.
  destruct (reported_row id b n k w Hid Hst Hcl) as (n2 & h & (Hn2 & Hi2 & Hk2 & Hs2) & Hh & Hhid & Hht & Hnow & Hst2 & Hseen).
  destruct (alone_history (EvaluateNode cfg publisher id) (reported id b w)) as [Hh' _].
  fold (report cfg publisher id b w) in Hh'.
  pose proof (evaluate_node_alone cfg publisher id n2 (reported id b w) Hn2 Hi2) as Hnodes. cbv zeta in Hnodes.
  fold (report cfg publisher id b w) in Hnodes.
  set (v := verdict_on cfg n2 (reported id b w)) in *.
  exists (classify_row (vd_State v) (vd_ActualState v) (vd_Recovery v) (hw_now (reported id b w)) n2), h.
  assert (Hrow : Z.min (Z.of_nat (S k)) (cfg_RecoveryThreshold cfg) <=
                 consecutiveSuccessfulHeartbeats (read_records cfg id (hw_tables (reported id b w)))).
  { pose proof (consecutive_rows (S k) (Z.to_nat (normalizeTimelineLimit (iadd (cfg_RecoveryThreshold cfg) 3)))
      (records_of id (hw_tables (reported id b w))) Hk2 Hs2) as H.
    fold (read_records cfg id (hw_tables (reported id b w))) in H.
    destruct Hc as [_ _ _ Hr]. rewrite iadd_exact in H by (unfold in64, min64, max64 in *; lia).
    unfold normalizeTimelineLimit in H. repeat case_match; zb; lia. }
  destruct (verdict_of_report cfg n2 (read_records cfg id (hw_tables (reported id b w))) (bt_Time b) Hc Hseen) as [Hv Hva].
  { unfold read_records. destruct (records_of id _) as [|r l] eqn:E; [by rewrite take_nil|].
    cbn in Hs2. apply Forall_cons in Hs2 as [Hr _]. destruct (Z.to_nat _); cbn; [done|]. by rewrite Hr. }
  assert (v = classify cfg n2 (read_records cfg id (hw_tables (reported id b w))) (bt_Time b)) as Ev.
  { unfold v, verdict_on. by rewrite Hi2, Hnow. }
  rewrite <- Ev in Hv, Hva. rewrite Hst2 in Hv.
  split_and!.
  - unfold standing, records_of. rewrite Hnodes, Hh', lookup_insert_eq. split_and!; [done|exact Hi2|exact Hk2|exact Hs2].
  - by rewrite Hh'.
  - exact Hhid.
  - exact Hht.
  - intros Hu. rewrite decide_False in Hv by done. split; [exact Hv|]. by apply Hva.
  - intros Hd. rewrite decide_True in Hv by done. change (vd_State v ∈ Reconciling :: down). rewrite Hv.
    destruct (_ <=? _); unfold down; set_solver.
  - intros Hd Hthr. rewrite decide_True in Hv by done. change (vd_State v = Reconciling). rewrite Hv.
    by replace (_ <=? _) with true by (symmetry; apply Z.leb_le; lia).
Qed.

Lemma clean_later id a b h db db' :
  clean id b db -> hb_history db' = hb_history db ++ [h] -> hh_ID h = bt_ID a -> hh_ObservedAt h = bt_Time a ->
  bt_ID a <> bt_ID b -> bt_Time a < bt_Time b -> clean id b db'.
Proof.
  intros [He Hf] E Hi Ht Hne Hlt. split; [exact He|]. rewrite E. apply Forall_app. split; [exact Hf|].
  constructor; [|done]. rewrite Hi, Ht. done.
Qed.

(** Reports that bring a node back, from the number of successes on record. *)
Lemma reports_recover cfg publisher id bs n k w :
  config_ok cfg -> cfg_RecoveryThreshold cfg <= 500 -> TrimSpace id <> "" -> standing id n k w ->
  Forall (fun b => clean id b (hw_tables w)) bs ->
  StronglySorted (fun a b => bt_ID a <> bt_ID b /\ bt_Time a < bt_Time b) bs ->
  (vi_HeartbeatState n ∉ down /\ bs <> [] \/
   (2 <= length bs)%nat /\ cfg_RecoveryThreshold cfg < Z.of_nat (k + length bs)) ->
  exists n', hb_nodes (hw_tables (reports cfg publisher id bs w)) !! id = Some n' /\
    vi_HeartbeatState n' = Healthy /\ vi_ActualState n' = ActualOnline.
Proof.
  intros Hc H500 Hid. revert n k w. induction bs as [|b bs IH]; intros n k w Hst Hcl Hs Hor.
  { destruct Hor as [[_ []]|[Hl _]]; [done|cbn in Hl; lia]. }
  apply Forall_cons in Hcl as [Hb Hcl]. apply StronglySorted_inv in Hs as [Hs Hlt].
  destruct (report_standing cfg publisher id b n k w Hc H500 Hid Hst Hb)
    as (n1 & h & Hst1 & Hh & Hhid & Hht & Hup & Hdown & Hrec).
  cbn [reports foldl]. fold (reports cfg publisher id bs (report cfg publisher id b w)).
  assert (Hcl1 : Forall (fun b => clean id b (hw_tables (report cfg publisher id b w))) bs -> True) by done.
  assert (Hcl' : Forall (fun c => clean id c (hw_tables (report cfg publisher id b w))) bs).
  { rewrite Forall_forall in Hcl, Hlt |- *. intros c Hin. destruct (Hlt c Hin). by eapply clean_later; [apply Hcl|..]. }
  clear Hcl1. destruct (decide (vi_HeartbeatState n ∈ down)) as [Hd|Hd].
  - destruct Hor as [[Hn _]|[Hl Hthr]]; [done|]. cbn in Hl, Hthr.
    apply (IH n1 (S k)); [done..|].
    destruct (decide (cfg_RecoveryThreshold cfg <= Z.of_nat (S k))) as [Hle|Hgt].
    + left. rewrite (Hrec Hd Hle). split; [unfold down; set_solver|]. destruct bs; [cbn in Hl; lia|done].
    + destruct (decide (vi_HeartbeatState n1 ∈ down)) as [Hd1|Hd1]; [right; lia|].
      left. split; [done|]. destruct bs; [cbn in Hl; lia|done].
  - destruct (Hup Hd) as [H1 H2]. destruct bs as [|b' bs].
    + exists n1. destruct Hst1 as [Hn1 _]. done.
    + apply (IH n1 (S k)); [done..|]. left. rewrite H1. split; [unfold down; set_solver|done].
Qed.

(** C32: A node recovers whatever it was found to be: more reports than the
    recovery threshold, each without an error and evaluated when it arrives,
    make it healthy and online. *)
Theorem returning_node_recovers cfg publisher id bs n w :
  config_ok cfg -> cfg_RecoveryThreshold cfg <= 500 -> TrimSpace id <> "" ->
  hb_nodes (hw_tables w) !! id = Some n -> vi_ID n = id ->
  Forall (fun b => clean id b (hw_tables w)) bs ->
  StronglySorted (fun a b => bt_ID a <> bt_ID b /\ bt_Time a < bt_Time b) bs ->
  cfg_RecoveryThreshold cfg < Z.of_nat (length bs) ->
  exists n', hb_nodes (hw_tables (reports cfg publisher id bs w)) !! id = Some n' /\
    vi_HeartbeatState n' = Healthy /\ vi_ActualState n' = ActualOnline.
Proof.
  intros Hc H500 Hid Hn Hi Hcl Hs Hl. destruct (ok_recovery _ Hc).
  apply (reports_recover cfg publisher id bs n 0 w); [done..| |done|done|right; lia].
  unfold standing. split_and!; [done..|lia|constructor].
Qed.

Lemma returning_node_recovers_witness :
  exists n', hb_nodes (hw_tables (reports DefaultConfig true "node-1" example_beats example_hb)) !! "node-1" = Some n' /\
    vi_HeartbeatState n' = Healthy /\ vi_ActualState n' = ActualOnline.
Proof.
  refine (returning_node_recovers DefaultConfig true "node-1" example_beats (example_vitals Offline (Some 0))
            example_hb _ _ _ _ _ _ _ _).
  - by split; vm_compute.
  - by vm_compute.
  - by vm_compute.
  - reflexivity.
  - reflexivity.
  - repeat (constructor; [split; [reflexivity|constructor]|]). constructor.
  - repeat constructor; by vm_compute.
  - by vm_compute.
Defined.

Lemma silent_for_seen d id n db t seen :
  hb_nodes db !! id = Some n -> vi_LastSeenAt n = Some seen -> (silent_for d id db t <-> d <= t - seen).
Proof.
  intros Hn Hs. unfold silent_for. rewrite Hn. split; [|intros H; exists n; by rewrite Hs].
  intros (n' & [= <-] & H). by rewrite Hs in H.
Qed.

Lemma classify_offline cfg id n l db t :
  config_ok cfg -> hb_nodes db !! id = Some n ->
  (vd_State (classify cfg n l t) = Offline <->
     silent_for (cfg_UnavailableAfter cfg) id db t \/
     vi_HeartbeatState n ∈ [Unreachable; Offline] /\ silent_for (cfg_OfflineThreshold cfg) id db t) /\
  (vd_State (classify cfg n l t) = Offline <-> vd_ActualState (classify cfg n l t) = ActualOffline).
Proof.
  intros [Hw Ho Hu Hr] Hn. unfold classify, Second.
  destruct (vi_LastSeenAt n) as [seen|] eqn:Es.
  2: { cbn. split; [|done]. split; [|done]. intros _. left. exists n. by rewrite Es. }
  rewrite !(silent_for_seen _ id n db t seen) by done.
  set (age := time_sub t seen).
  assert (Hage : forall d, 0 < d <= max64 -> d <= (if age <? 0 then 0 else age) <-> d <= t - seen).
  { intros d Hd. unfold age, time_sub, min64, max64 in *. case_match; zb; lia. }
  pose proof (Hage (cfg_UnavailableAfter cfg) ltac:(lia)) as HU.
  pose proof (Hage (cfg_OfflineThreshold cfg) ltac:(lia)) as HO.
  destruct ((age <? 0) && _) eqn:Ef.
  { apply andb_true_iff in Ef as [Ef _]. rewrite Ef in HU, HO. zb. cbn. split; [|done]. split; [done|]. lia. }
  set (age' := if age <? 0 then 0 else age) in *.
  destruct (failed_last l && _) eqn:El.
  { apply andb_true_iff in El as [_ El]. zb. cbn. split; [|done]. split; [done|]. lia. }
  destruct (cfg_UnavailableAfter cfg <=? age') eqn:E1; zb.
  { cbn. split; [|done]. split; [|done]. intros _. left. by apply HU. }
  destruct (cfg_OfflineThreshold cfg <=? age') eqn:E2; zb.
  { unfold one_of_states. case_bool_decide; cbn; (split; [|done]); split; try done.
    - intros _. right. split; [done|]. by apply HO.
    - intros [H1|[H1 _]]; [|done]. apply HU in H1. lia. }
  assert (Hno : ~ (cfg_UnavailableAfter cfg <= t - seen \/
     vi_HeartbeatState n ∈ [Unreachable; Offline] /\ cfg_OfflineThreshold cfg <= t - seen)) by lia.
  repeat case_match; cbn; (split; [|done]); (split; [done|]); intros Hyes; by destruct Hno.
Qed.

(** An evaluation declares a node offline exactly when it was silent for
    the unavailable threshold, or had been found unreachable or offline before
    and was silent for the offline threshold; a node that never reported
    counts as silent. *)
Lemma offline_exactly_when_silent cfg publisher id n w :
  config_ok cfg -> hb_nodes (hw_tables w) !! id = Some n -> vi_ID n = id ->
  exists n', hb_nodes (hw_tables (world_alone hb_serve (EvaluateNode cfg publisher id) w)) !! id = Some n' /\
    (vi_HeartbeatState n' = Offline <->
       silent_for (cfg_UnavailableAfter cfg) id (hw_tables w) (hw_now w) \/
       vi_HeartbeatState n ∈ [Unreachable; Offline] /\
         silent_for (cfg_OfflineThreshold cfg) id (hw_tables w) (hw_now w)) /\
    (vi_HeartbeatState n' = Offline <-> vi_ActualState n' = ActualOffline).
Proof.
  intros Hc Hn Hi. pose proof (evaluate_node_alone cfg publisher id n w Hn Hi) as E. cbv zeta in E.
  eexists. rewrite E, lookup_insert_eq. split; [done|]. by apply classify_offline.
Qed.

Lemma offline_exactly_when_silent_witness :
  exists n', hb_nodes (hw_tables (world_alone hb_serve (EvaluateNode DefaultConfig true "node-1") example_hb)) !! "node-1" = Some n' /\
    (vi_HeartbeatState n' = Offline <->
       silent_for (300 * Second) "node-1" (hw_tables example_hb) (1000 * Second) \/
       Offline ∈ [Unreachable; Offline] /\ silent_for (90 * Second) "node-1" (hw_tables example_hb) (1000 * Second)) /\
    (vi_HeartbeatState n' = Offline <-> vi_ActualState n' = ActualOffline).
Proof.
  refine (offline_exactly_when_silent DefaultConfig true "node-1" (example_vitals Offline (Some 0)) example_hb _ _ _).
  - by split; vm_compute.
  - reflexivity.
  - reflexivity.
Defined.

(** ** What the code does beyond what it says *)

(** The records an evaluation reads are at most 500: a larger threshold is
    never reached, and a node that was down stays down. *)
Lemma threshold_out_of_reach cfg n db t :
  500 < cfg_RecoveryThreshold cfg ->
  vd_State (classify cfg n (read_records cfg (vi_ID n) db) t) <> Reconciling.
Proof.
  intros H. assert (consecutiveSuccessfulHeartbeats (read_records cfg (vi_ID n) db) < cfg_RecoveryThreshold cfg).
  { assert (Hl : forall l, consecutiveSuccessfulHeartbeats l <= Z.of_nat (length l)).
    { induction l as [|h l IH]; cbn; [lia|]. destruct (hh_Success h); lia. }
    specialize (Hl (read_records cfg (vi_ID n) db)). unfold read_records in *. rewrite length_take in Hl.
    assert (normalizeTimelineLimit (iadd (cfg_RecoveryThreshold cfg) 3) <= 500); [|lia].
    unfold normalizeTimelineLimit. repeat case_match; zb; lia. }
  unfold classify. repeat case_match; try done; zb; lia.
Qed.

(** A report without an error text that says its Docker is broken counts as a
    success: the row says degraded, and the evaluation that follows says
    online. *)
Lemma broken_docker_is_healthy :
  let req := mkNodeHeartbeatRequest "1.0" "linux" "amd64" 8 16384 100000 "error" "ok" "docker" "" f0 10 in
  let w := mkHbWorld (mkHbTables {[ "node-1" := example_vitals Healthy (Some 0) ]} [] []) 0 [] in
  let b := mkBeat "h1" req (10 * Second) in
  (vi_Status <$> hb_nodes (hw_tables (reported "node-1" b w)) !! "node-1") = Some "degraded" /\
  (vi_Status <$> hb_nodes (hw_tables (report DefaultConfig true "node-1" b w)) !! "node-1") = Some "online".
Proof. by vm_compute. Qed.

(** A sweep lists the nodes once and evaluates them one by one: a node that
    was suspected after the list was read is judged as the healthy node of the
    list, and skips its recovery. *)
Lemma stale_sweep_skips_recovery :
  let healthy := example_vitals Healthy (Some (100 * Second)) in
  let w := mkHbWorld (mkHbTables {[ "node-1" := example_vitals Suspected (Some (100 * Second)) ]} [] []) (110 * Second) [] in
  (vi_HeartbeatState <$> hb_nodes (hw_tables (world_alone hb_serve (evaluate DefaultConfig true healthy true) w)) !! "node-1")
  = Some Healthy.
Proof. by vm_compute. Qed.
