(* ===== verification/Failover.v ===== *)
(** * Automatic failover

    [forge/api/internal/services/failover/service.go]: when the heartbeat
    monitor declares a node offline, the failover service decides what happens
    to its workloads.  Policies of the operators decide, or the classifier of
    workloads, or a default; an incident in the database ([store/store_failover.go])
    keeps other deliveries of the event, and other API processes, from acting on
    the same failure.

    A function is a program over [FEff]; what it does under the service's mutex
    is one request ([FMem]).  The executor, which evacuates or restarts, and the
    classifier are set from outside ([cmd/api/main.go]) and answer what they
    like.  The goroutine of [loop] repeats [forget_old]; logging is left out. *)
From Stdlib Require Import ZArith Lia.
From stdpp Require Import base gmap strings list fin_maps.
From coqutil Require Import Datatypes.RecordSettersUsingExistingGetters.
From S2P Require Import Prelude GoStrings GoSort Programs Capacity.
Import RecordSetNotations1.
#[local] Open Scope string_scope.
#[local] Open Scope list_scope.
#[local] Open Scope Z_scope.
#[local] Open Scope go_scope.

(** ** Policies, events and actions *)

(* go: services/failover/service.go const:FailoverActionEvacuate *)
Definition FailoverActionEvacuate : string := "evacuate".
(* go: services/failover/service.go const:FailoverActionRestart *)
Definition FailoverActionRestart : string := "restart".
(* go: services/failover/service.go const:FailoverActionNotify *)
Definition FailoverActionNotify : string := "notify".

(* go: services/failover/service.go L35-39 *)
Inductive FailoverEventType := NodeFailure | ServerCrash | HealthCheckFailure.

Definition event_type_text (t : FailoverEventType) : string :=
  match t with
  | NodeFailure => "node_failure" | ServerCrash => "server_crash" | HealthCheckFailure => "health_check_failure"
  end.

(** [Policy] of the service and [FailoverPolicy] of the store have the same
    fields; [toStorePolicy] and [fromStorePolicy] copy them. *)
(* go: store/store_failover.go type:FailoverPolicy *)
Record Policy := mkPolicy {
  fp_ID : string;
  fp_Name : string;
  fp_NodeID : string;
  fp_Enabled : bool;
  fp_MaxFailures : Z;
  fp_FailureWindowSec : Z;
  fp_CooldownSec : Z;
  fp_Action : string;
  fp_HealthCheckPath : string;
  fp_HealthCheckPort : Z;
  fp_CreatedAt : Time;
  fp_UpdatedAt : Time
}.

(* go: store/store_failover.go type:FailoverEvent *)
Record FailoverEvent := mkFailoverEvent {
  fe_ID : string;
  fe_PolicyID : string;
  fe_NodeID : string;
  fe_ServerID : string;
  fe_EventType : string;
  fe_Action : string;
  fe_Status : string;
  fe_Message : string;
  fe_CreatedAt : Time
}.

(* go: services/failover/service.go const:activeIncidentWindow *)
Definition activeIncidentWindow : Duration := 10 * Minute.
(* go: services/failover/service.go const:defaultFailureWindowSec *)
Definition defaultFailureWindowSec : Z := 300.
(* go: services/failover/service.go const:defaultCooldownSec *)
Definition defaultCooldownSec : Z := 600.

(* go: services/failover/service.go func:DetermineFailoverAction *)
Definition DetermineFailoverAction (locality : string) (hasVerifiedBackup isReplicated : bool) : string :=
  if isReplicated && negb (locality =? "local_only")%string then FailoverActionEvacuate
  else if (locality =? "shared")%string || (locality =? "replicated")%string then FailoverActionEvacuate
  else if hasVerifiedBackup then FailoverActionEvacuate
  else FailoverActionNotify.

(* go: services/failover/service.go func:failoverActionPrecedence *)
Definition failoverActionPrecedence (action : string) : Z :=
  if (action =? FailoverActionEvacuate)%string then 3
  else if (action =? FailoverActionRestart)%string then 2
  else if (action =? FailoverActionNotify)%string then 1
  else 0.

(** Does [a] win over [b]? *)
(* go: services/failover/service.go L266-270 *)
Definition wins (a b : Policy) : bool :=
  let ra := failoverActionPrecedence (fp_Action a) in
  let rb := failoverActionPrecedence (fp_Action b) in
  (rb <? ra) ||
  ((ra =? rb) && (Before (fp_CreatedAt a) (fp_CreatedAt b) ||
                  ((fp_CreatedAt a =? fp_CreatedAt b) && str_lt (fp_ID a) (fp_ID b)))).

(* go: services/failover/service.go loop:selectFailoverPolicy *)
Fixpoint select_loop (policies : list Policy) (best : option Policy) : option Policy :=
  match policies with
  | [] => best
  | p :: rest =>
      if negb (fp_Enabled p) then select_loop rest best
      else match best with
           | None => select_loop rest (Some p)
           | Some b => select_loop rest (if wins p b then Some p else Some b)
           end
  end.

(* go: services/failover/service.go func:selectFailoverPolicy *)
Definition selectFailoverPolicy (policies : list Policy) : option Policy := select_loop policies None.

(** A pointer to a policy may be nil. *)
(* go: services/failover/service.go func:applyPolicyDefaults *)
Definition applyPolicyDefaults (p : Policy) : Policy :=
  let p := if fp_MaxFailures p =? 0 then p <| fp_MaxFailures := 3 |> else p in
  let p := if fp_FailureWindowSec p =? 0 then p <| fp_FailureWindowSec := defaultFailureWindowSec |> else p in
  let p := if fp_CooldownSec p =? 0 then p <| fp_CooldownSec := defaultCooldownSec |> else p in
  if (fp_Action p =? "")%string then p <| fp_Action := FailoverActionEvacuate |> else p.

(* go: services/failover/service.go func:validatePolicy *)
Definition validatePolicy (p : option Policy) : error :=
  match p with
  | None => Some "policy is required"
  | Some p =>
      if (fp_ID p =? "")%string then Some "policy id is required"
      else if (fp_NodeID p =? "")%string then Some "nodeId is required"
      else if fp_MaxFailures p <? 0 then Some "maxFailures must not be negative"
      else if fp_FailureWindowSec p <? 0 then Some "failureWindowSec must not be negative"
      else if fp_CooldownSec p <? 0 then Some "cooldownSec must not be negative"
      else if slices_contains [""; FailoverActionEvacuate; FailoverActionRestart; FailoverActionNotify] (fp_Action p)
      then None
      else Some "invalid failover action"
  end.

(** ** The statements *)

Record FailoverTables := mkFailoverTables {
  fo_nodes : gset string;
  fo_policies : gmap string Policy;
  fo_events : list FailoverEvent
}.

(** The columns are four-byte integers. *)
Definition policy_columns (p : Policy) : bool :=
  int4 (fp_MaxFailures p) && int4 (fp_FailureWindowSec p) && int4 (fp_CooldownSec p) && int4 (fp_HealthCheckPort p).

(* go: store/store_failover.go func:Store.CreateFailoverPolicy *)
Definition CreateFailoverPolicy (p : Policy) (id : string) (now : Time) (db : FailoverTables)
    : answer Policy * FailoverTables :=
  let p := p <| fp_ID := id |> <| fp_CreatedAt := now |> <| fp_UpdatedAt := now |> in
  if negb (policy_columns p) then (Failed ErrRange, db)
  else if negb (bool_decide (fp_NodeID p ∈ fo_nodes db)) then (Failed ErrForeignKey, db)
  else if bool_decide (is_Some (fo_policies db !! id)) then (Failed ErrUnique, db)
  else (Got p, db <| fo_policies := <[id := p]> (fo_policies db) |>).

(* go: store/store_failover.go func:Store.GetFailoverPolicy *)
Definition GetFailoverPolicy (id : string) (db : FailoverTables) : answer Policy :=
  match fo_policies db !! id with Some p => Got p | None => Failed ErrNoRows end.

Definition oldest_policy (a b : Policy) : bool :=
  (fp_CreatedAt a <? fp_CreatedAt b) || ((fp_CreatedAt a =? fp_CreatedAt b) && str_lt (fp_ID a) (fp_ID b)).

(* go: store/store_failover.go func:Store.ListFailoverPolicies *)
Definition ListFailoverPolicies (db : FailoverTables) : answer (list Policy) :=
  Got (isort oldest_policy (values (fo_policies db))).

(* go: store/store_failover.go func:Store.ListFailoverPoliciesByNode *)
Definition ListFailoverPoliciesByNode (nodeID : string) (db : FailoverTables) : answer (list Policy) :=
  Got (isort oldest_policy (filter (fun p => fp_NodeID p = nodeID) (values (fo_policies db)))).

(* go: store/store_failover.go func:Store.UpdateFailoverPolicy *)
Definition UpdateFailoverPolicy (p : Policy) (now : Time) (db : FailoverTables) : answer Time * FailoverTables :=
  match fo_policies db !! fp_ID p with
  | None => (Got now, db)
  | Some old =>
      if negb (policy_columns p) then (Failed ErrRange, db)
      else if negb (bool_decide (fp_NodeID p ∈ fo_nodes db)) then (Failed ErrForeignKey, db)
      else (Got now, db <| fo_policies :=
              <[fp_ID p := p <| fp_CreatedAt := fp_CreatedAt old |> <| fp_UpdatedAt := now |>]> (fo_policies db) |>)
  end.

(** The events of a policy that is deleted keep no policy. *)
(* go: store/store_failover.go func:Store.DeleteFailoverPolicy *)
Definition DeleteFailoverPolicy (id : string) (db : FailoverTables) : answer unit * FailoverTables :=
  (Got tt, db <| fo_policies := delete id (fo_policies db) |>
             <| fo_events := map (fun e => if (fe_PolicyID e =? id)%string then e <| fe_PolicyID := "" |> else e)
                               (fo_events db) |>).

Definition insert_event (e : FailoverEvent) (db : FailoverTables) : answer FailoverEvent * FailoverTables :=
  if negb (fe_PolicyID e =? "")%string && negb (bool_decide (is_Some (fo_policies db !! fe_PolicyID e)))
  then (Failed ErrForeignKey, db)
  else if existsb (fun x => fe_ID x =? fe_ID e)%string (fo_events db) then (Failed ErrUnique, db)
  else (Got e, db <| fo_events := fo_events db ++ [e] |>).

(* go: store/store_failover.go func:Store.CreateFailoverEvent *)
Definition CreateFailoverEvent (e : FailoverEvent) (id : string) (now : Time) (db : FailoverTables)
    : answer FailoverEvent * FailoverTables :=
  insert_event (e <| fe_ID := id |> <| fe_CreatedAt := now |>) db.

Definition active_statuses : list string := ["detected"; "evacuating"; "restarting"].

(** An event of the node that is under way and younger than [window]. *)
Definition active_incident (nodeID : string) (window : Duration) (now : Time) (db : FailoverTables) : bool :=
  existsb (fun e => (fe_NodeID e =? nodeID)%string && slices_contains active_statuses (fe_Status e) &&
                    (now - window <? fe_CreatedAt e)) (fo_events db).

(** One transaction under a lock of the node.  [now] is the clock of the
    database, [wall] that of the process. *)
(* go: store/store_failover.go func:Store.CreateFailoverIncident *)
Definition CreateFailoverIncident (e : FailoverEvent) (window : Duration) (id : string) (now wall : Time)
    (db : FailoverTables) : answer (option string) * FailoverTables :=
  if active_incident (fe_NodeID e) window now db then (Got None, db)
  else match insert_event (e <| fe_ID := id |> <| fe_CreatedAt := wall |>) db with
       | (Got e', db') => (Got (Some (fe_ID e')), db')
       | (Failed err, _) => (Failed err, db)
       end.

Definition latest_event (a b : FailoverEvent) : bool := fe_CreatedAt b <? fe_CreatedAt a.

(* go: store/store_failover.go func:Store.ListFailoverEvents *)
Definition ListFailoverEvents (policyID : string) (limit : nat) (db : FailoverTables) : answer (list FailoverEvent) :=
  Got (take limit (isort latest_event (filter (fun e => fe_PolicyID e = policyID) (fo_events db)))).

(* go: store/store_failover.go func:Store.ListRecentFailoverEvents *)
Definition ListRecentFailoverEvents (nodeID : string) (limit : nat) (db : FailoverTables) : answer (list FailoverEvent) :=
  Got (take limit (isort latest_event (filter (fun e => fe_NodeID e = nodeID) (fo_events db)))).

(** ** The service *)

(* go: services/failover/service.go type:Metrics *)
Record FailoverMetrics := mkFailoverMetrics {
  fm_FailuresDetected : Z;
  fm_EvacuationsTriggered : Z;
  fm_RestartsTriggered : Z;
  fm_NotificationsSent : Z
}.

(** What the mutex protects.  [sv_executor] and [sv_classifier] say whether the
    callbacks are set. *)
(* go: services/failover/service.go type:Service *)
Record Service := mkService {
  sv_failures : gmap string (list Time);
  sv_lastAction : gmap string Time;
  sv_executor : bool;
  sv_classifier : bool;
  sv_metrics : FailoverMetrics;
  sv_started : bool
}.

(* go: services/failover/service.go type:Event *)
Record Event := mkEvent {
  ev_ID : string;
  ev_PolicyID : string;
  ev_NodeID : string;
  ev_ServerID : string;
  ev_EventType : FailoverEventType;
  ev_Action : string;
  ev_Status : string;
  ev_Message : string;
  ev_Timestamp : Time
}.

(* go: services/failover/service.go func:toStoreEvent *)
Definition toStoreEvent (e : Event) : FailoverEvent :=
  mkFailoverEvent "" (ev_PolicyID e) (ev_NodeID e) (ev_ServerID e) (event_type_text (ev_EventType e))
    (ev_Action e) (ev_Status e) (ev_Message e) zeroTime.

(** What the service asks.  The callbacks are [FClassify] and [FExecute]. *)
Inductive FEff : Type -> Type :=
| FRead {A} (q : FailoverTables -> answer A) : FEff (answer A)
| FCreatePolicy (p : Policy) : FEff (answer Policy)
| FUpdatePolicy (p : Policy) : FEff (answer Time)
| FDeletePolicy (id : string) : FEff (answer unit)
| FIncident (e : FailoverEvent) (window : Duration) : FEff (answer (option string))
| FEvent (e : FailoverEvent) : FEff (answer FailoverEvent)
| FClassify (nodeID : string) : FEff (answer string)
| FExecute (e : Event) : FEff error
| FPublish (kind resource : string) : FEff error
| FClock : FEff Time
| FMem {A} (f : Time -> Service -> A * Service) : FEff A.

Definition F_ (A : Type) : Type := prog FEff A.

Definition ftry {A B} (m : F_ (answer A)) (k : A -> F_ (answer B)) : F_ (answer B) :=
  pbind m (fun r => match r with Got a => k a | Failed e => Ret (Failed e) end).
Notation "'let?^' x := m 'in' k" := (ftry m (fun x => k))
  (at level 200, x binder, m at level 200, k at level 200, only parsing) : go_scope.
Notation "m ;;^ k" := (pbind m (fun _ => k))
  (at level 100, k at level 200, right associativity, only parsing) : go_scope.

Definition ffails {A} (msg : string) : F_ (answer A) := Ret (Failed (ErrText msg)).

(** [failures[nodeID]]: a missing key is an empty list. *)
Definition failures_of (nodeID : string) (s : Service) : list Time := default [] (sv_failures s !! nodeID).

(* go: services/failover/service.go func:Service.SetActionExecutor *)
Definition SetActionExecutor (executor : bool) : F_ unit :=
  request (FMem (fun _ s => (tt, s <| sv_executor := executor |>))).

(* go: services/failover/service.go func:Service.SetWorkloadClassifier *)
Definition SetWorkloadClassifier (classifier : bool) : F_ unit :=
  request (FMem (fun _ s => (tt, s <| sv_classifier := classifier |>))).

Section Service.
Context (publisher : bool).

Definition fpublish (kind resource : string) : F_ unit :=
  if publisher then let^ _ := request (FPublish kind resource) in Ret tt else Ret tt.

(* go: services/failover/service.go func:Service.ensurePolicyPersisted *)
Definition ensurePolicyPersisted (nodeID : string) (policy : option Policy) : F_ (answer Policy) :=
  match policy with
  | None => ffails "failover policy is required"
  | Some p =>
      if negb (fp_ID p =? "")%string then Ret (Got p)
      else
        let stored := mkPolicy "" (cat ["auto-failover-"; nodeID]) nodeID true
          (if fp_MaxFailures p =? 0 then 1 else fp_MaxFailures p)
          (if fp_FailureWindowSec p =? 0 then defaultFailureWindowSec else fp_FailureWindowSec p)
          (if fp_CooldownSec p =? 0 then defaultCooldownSec else fp_CooldownSec p)
          (if (fp_Action p =? "")%string then FailoverActionEvacuate else fp_Action p)
          "" 0 zeroTime zeroTime in
        let^ r := request (FCreatePolicy stored) in
        match r with
        | Failed e => ffails (cat ["persist synthesized failover policy: "; store_error_text e])
        | Got stored => Ret (Got stored)
        end
  end.

(* go: services/failover/service.go func:Service.createIncident *)
Definition createIncident (nodeID policyID reason : string) : F_ (answer (option string)) :=
  request (FIncident (mkFailoverEvent "" policyID nodeID "" (event_type_text NodeFailure) "incident" "detected"
                        reason zeroTime) activeIncidentWindow).

(** The cooldown is claimed before the action runs: false when the last action
    of the policy is too recent. *)
(* go: services/failover/service.go L513-528 *)
Definition claim_action (policy : Policy) (nodeID : string) (now : Time) (s : Service) : option bool * Service :=
  let actionKey := if (fp_ID policy =? "")%string then cat ["node:"; nodeID] else fp_ID policy in
  let last := default zeroTime (sv_lastAction s !! actionKey) in
  if negb (last =? zeroTime) && (time_sub now last <? imul (fp_CooldownSec policy) Second)
  then (None, s)
  else (Some (sv_executor s),
        s <| sv_lastAction := <[actionKey := now]> (sv_lastAction s) |>
          <| sv_failures := <[nodeID := []]> (sv_failures s) |>).

(** The status, the event and the counter of an action. *)
Definition action_kind (action : string) : option (string * string * (FailoverMetrics -> FailoverMetrics)) :=
  if (action =? FailoverActionEvacuate)%string then
    Some ("evacuating", "node_evacuation_triggered",
          fun m => m <| fm_EvacuationsTriggered := fm_EvacuationsTriggered m + 1 |>)
  else if (action =? FailoverActionRestart)%string then
    Some ("restarting", "node_restart_triggered", fun m => m <| fm_RestartsTriggered := fm_RestartsTriggered m + 1 |>)
  else if (action =? FailoverActionNotify)%string then
    Some ("notified", "node_failure_notified", fun m => m <| fm_NotificationsSent := fm_NotificationsSent m + 1 |>)
  else None.

(** An event that was recorded, with its id. *)
Definition record_event (e : Event) : F_ (option Event) :=
  let^ r := request (FEvent (toStoreEvent e)) in
  Ret (match r with
       | Got stored => Some (e <| ev_ID := fe_ID stored |> <| ev_Timestamp := fe_CreatedAt stored |>)
       | Failed _ => Some e
       end).

(** An event with an error is returned as such. *)
(* go: services/failover/service.go func:Service.executeAction *)
Definition executeAction (policy : Policy) (eventType : FailoverEventType) (nodeID serverID message : string)
    : F_ (option Event * error) :=
  let^ claim := request (FMem (claim_action policy nodeID)) in
  match claim with
  | None => Ret (None, None)
  | Some executor =>
      let^ now := request FClock in
      let event := mkEvent "" (fp_ID policy) nodeID serverID eventType (fp_Action policy) "detected" message now in
      let^ event :=
        match action_kind (fp_Action policy) with
        | Some (status, kind, counter) =>
            fpublish kind nodeID ;;^
            request (FMem (fun _ s => (tt, s <| sv_metrics := counter (sv_metrics s) |>))) ;;^
            Ret (event <| ev_Status := status |>)
        | None => Ret event
        end in
      let^ failed :=
        if executor && negb (fp_Action policy =? FailoverActionNotify)%string
        then request (FExecute event) else Ret None in
      match failed with
      | Some err =>
          let event := event <| ev_Status := "failed" |> <| ev_Message := cat [message; ": "; err] |> in
          let^ _ := request (FEvent (toStoreEvent event)) in
          Ret (Some event, Some err)
      | None =>
          let^ event := record_event (event <| ev_Status := "completed" |>) in
          Ret (event, None)
      end
  end.

Definition asks_nothing (action : string) : bool :=
  (action =? FailoverActionNotify)%string || (action =? "")%string.

Definition synthesized (action : string) : Policy :=
  mkPolicy "" "" "" false 1 0 defaultCooldownSec action "" 0 zeroTime zeroTime.

Definition with_action (action : string) (policy : option Policy) : Policy :=
  match policy with None => synthesized action | Some p => p <| fp_Action := action |> end.

Definition undecided (p : option Policy) : bool :=
  match p with None => true | Some p => asks_nothing (fp_Action p) end.

(** The policy that decides about a node that went offline: the operators'
    one, else the classifier, else evacuation. *)
(* go: services/failover/service.go L172-206 *)
Definition deciding_policy (nodeID : string) (policies : list Policy) : F_ Policy :=
  let matching := selectFailoverPolicy policies in
  let^ matching :=
    if undecided matching then
      let^ classifier := request (FMem (fun _ s => (sv_classifier s, s))) in
      let^ matching :=
        if classifier : bool then
          let^ r := request (FClassify nodeID) in
          Ret (match r with
               | Got action => if (action =? FailoverActionNotify)%string then matching
                               else Some (with_action action matching)
               | Failed _ => matching
               end)
        else Ret matching in
      Ret (if undecided matching then Some (with_action FailoverActionEvacuate matching) else matching)
    else Ret matching in
  Ret (default (synthesized FailoverActionEvacuate) matching).

(** [payload["reason"]], when it is a string. *)
(* go: services/failover/service.go func:Service.HandleNodeOffline *)
Definition HandleNodeOffline (nodeID : string) (payload : option string) : F_ error :=
  if (nodeID =? "")%string then Ret (Some "nodeId is required")
  else
    let^ r := request (FRead (ListFailoverPoliciesByNode nodeID)) in
    match r with
    | Failed e => Ret (Some (store_error_text e))
    | Got policies =>
        let^ matching := deciding_policy nodeID policies in
        let reason := match payload with
                      | Some r => if (r =? "")%string then "node heartbeat classified offline" else r
                      | None => "node heartbeat classified offline"
                      end in
        let^ r := ensurePolicyPersisted nodeID (Some matching) in
        match r with
        | Failed e => Ret (Some (store_error_text e))
        | Got policy =>
            let^ r := createIncident nodeID (fp_ID policy) reason in
            match r with
            | Failed e => Ret (Some (store_error_text e))
            | Got None => Ret None
            | Got (Some incident) =>
                let^ result := executeAction policy NodeFailure nodeID ""
                                 (cat ["node "; nodeID; " offline incident "; incident; ": "; reason]) in
                Ret (snd result)
            end
        end
    end.

(** Only the definitive event counts. *)
(* go: services/failover/service.go func:Service.Handle *)
Definition Handle (type : string) (resourceID : string) (payload : option string) : F_ error :=
  if (type =? "NodeOffline")%string then HandleNodeOffline resourceID payload else Ret None.

(* go: services/failover/service.go L475-487 *)
Definition record_failure (nodeID : string) (policy : Policy) (now : Time) (s : Service) : Z * Service :=
  let windowStart := time_add now (isub 0 (imul (fp_FailureWindowSec policy) Second)) in
  let recent := filter (fun t => After t windowStart = true) (failures_of nodeID s ++ [now]) in
  (Z.of_nat (length recent),
   s <| sv_failures := <[nodeID := recent]> (sv_failures s) |>
     <| sv_metrics := (sv_metrics s) <| fm_FailuresDetected := fm_FailuresDetected (sv_metrics s) + 1 |> |>).

(* go: services/failover/service.go func:Service.RecordFailure *)
Definition RecordFailure (nodeID : string) : F_ (option Event * error) :=
  if (nodeID =? "")%string then Ret (None, Some "nodeId is required")
  else
    let^ r := request (FRead (ListFailoverPoliciesByNode nodeID)) in
    match r with
    | Failed e => Ret (None, Some (store_error_text e))
    | Got policies =>
        match selectFailoverPolicy policies with
        | None => Ret (None, None)
        | Some policy =>
            let^ count := request (FMem (record_failure nodeID policy)) in
            if count <? fp_MaxFailures policy then Ret (None, None)
            else executeAction policy NodeFailure nodeID ""
                   (cat ["node "; nodeID; " failed "; itoa count; " times"])
        end
    end.

(* go: services/failover/service.go func:Service.HandleServerCrash *)
Definition HandleServerCrash (serverID nodeID : string) : F_ (option Event * error) :=
  let^ r := request (FRead (ListFailoverPoliciesByNode nodeID)) in
  match r with
  | Failed e => Ret (None, Some (store_error_text e))
  | Got policies =>
      match selectFailoverPolicy policies with
      | None => Ret (None, None)
      | Some policy => executeAction policy ServerCrash nodeID serverID (cat ["server "; serverID; " crashed"])
      end
  end.

(* go: services/failover/service.go func:Service.CreatePolicy *)
Definition CreatePolicy (policy : Policy) : F_ (answer Policy) :=
  let policy := applyPolicyDefaults policy in
  match validatePolicy (Some policy) with
  | Some err => ffails err
  | None =>
      let?^ stored := request (FCreatePolicy policy) in
      fpublish "failover_policy_created" (fp_ID stored) ;;^ Ret (Got stored)
  end.

(* go: services/failover/service.go func:Service.UpdatePolicy *)
Definition UpdatePolicy (policy : Policy) : F_ (answer Policy) :=
  let policy := applyPolicyDefaults policy in
  match validatePolicy (Some policy) with
  | Some err => ffails err
  | None =>
      let?^ updatedAt := request (FUpdatePolicy policy) in
      let?^ updated := request (FRead (GetFailoverPolicy (fp_ID policy))) in
      Ret (Got (policy <| fp_UpdatedAt := updatedAt |> <| fp_CreatedAt := fp_CreatedAt updated |>))
  end.

Definition ErrPolicyNotFound : string := "failover policy not found".

(** Any error of the read counts as a policy that is not there. *)
(* go: services/failover/service.go func:Service.DeletePolicy *)
Definition DeletePolicy (policyID : string) : F_ (answer unit) :=
  let^ r := request (FRead (GetFailoverPolicy policyID)) in
  match r with
  | Failed _ => ffails ErrPolicyNotFound
  | Got _ => request (FDeletePolicy policyID)
  end.

(* go: services/failover/service.go func:Service.GetPolicy *)
Definition GetPolicy (policyID : string) : F_ (answer Policy) :=
  let^ r := request (FRead (GetFailoverPolicy policyID)) in
  match r with Failed _ => ffails ErrPolicyNotFound | Got p => Ret (Got p) end.

(* go: services/failover/service.go func:Service.ListPolicies *)
Definition ListPolicies : F_ (answer (list Policy)) := request (FRead ListFailoverPolicies).

(* go: services/failover/service.go func:Service.ListPoliciesByNode *)
Definition ListPoliciesByNode (nodeID : string) : F_ (answer (list Policy)) :=
  request (FRead (ListFailoverPoliciesByNode nodeID)).

(** One tick of the loop. *)
(* go: services/failover/service.go L632-645 *)
Definition forget_old (now : Time) (s : Service) : unit * Service :=
  let windowStart := time_add now (isub 0 (imul defaultFailureWindowSec Second)) in
  (tt, s <| sv_failures := filter (fun t => After t windowStart = true) <$> sv_failures s |>).

(* go: services/failover/service.go func:Service.Start *)
Definition Start (s : Service) : Service := if sv_started s then s else s <| sv_started := true |>.
(* go: services/failover/service.go func:Service.Stop *)
Definition Stop (s : Service) : Service := if sv_started s then s <| sv_started := false |> else s.
End Service.

(** ** The order of policies *)

(** [wins] is a strict order on policies that differ in their ids. *)
Lemma wins_asym a b : wins a b = true -> wins b a = false.
Proof.
  unfold wins, Before. intros H. apply not_true_iff_false. intros H'.
  rewrite !orb_true_iff, !andb_true_iff, !orb_true_iff, !andb_true_iff in *.
  destruct H as [H|[H1 [H2|[H2 H3]]]], H' as [H'|[H1' [H2'|[H2' H3']]]]; zb; try lia.
  apply str_lt_asym in H3. congruence.
Qed.

Lemma wins_total a b : fp_ID a <> fp_ID b -> wins a b = false -> wins b a = true.
Proof.
  unfold wins, Before. intros Hne H. rewrite !orb_true_iff, !andb_true_iff, !orb_true_iff, !andb_true_iff.
  apply orb_false_iff in H as [H1 H2]. zb.
  destruct (Z.eq_dec (failoverActionPrecedence (fp_Action a)) (failoverActionPrecedence (fp_Action b))) as [E|E];
    [|left; apply Z.ltb_lt; lia].
  right. split; [by apply Z.eqb_eq|]. rewrite E, Z.eqb_refl in H2. cbn [andb] in H2.
  apply orb_false_iff in H2 as [H2 H3]. zb.
  destruct (Z.eq_dec (fp_CreatedAt a) (fp_CreatedAt b)) as [E'|E']; [|left; apply Z.ltb_lt; lia].
  right. split; [by apply Z.eqb_eq|]. rewrite E', Z.eqb_refl in H3. cbn [andb] in H3.
  destruct (str_lt (fp_ID b) (fp_ID a)) eqn:El; [done|]. by destruct Hne, (str_lt_total _ _ H3 El).
Qed.

Lemma wins_trans a b c : wins a b = true -> wins b c = true -> wins a c = true.
Proof.
  unfold wins, Before. rewrite !orb_true_iff, !andb_true_iff, !orb_true_iff, !andb_true_iff.
  intros [H|[H1 [H2|[H2 H3]]]] [H'|[H1' [H2'|[H2' H3']]]]; zb;
    try (left; apply Z.ltb_lt; lia);
    (right; split; [apply Z.eqb_eq; lia|]); try (left; apply Z.ltb_lt; lia).
  right. split; [apply Z.eqb_eq; lia|]. by eapply str_lt_trans.
Qed.

(** The policies the loop still has to choose from. *)
Definition candidate (policies : list Policy) (best : option Policy) (q : Policy) : Prop :=
  best = Some q \/ (q ∈ policies /\ fp_Enabled q = true).

Definition ids_unique (P : Policy -> Prop) : Prop := forall a b, P a -> P b -> fp_ID a = fp_ID b -> a = b.

Lemma select_loop_spec policies best p :
  ids_unique (candidate policies best) -> select_loop policies best = Some p ->
  candidate policies best p /\ forall q, candidate policies best q -> q = p \/ wins p q = true.
Proof.
  revert best. induction policies as [|a l IH]; intros best Hu Hs; cbn [select_loop] in Hs.
  { split; [by left|]. intros q [Hq|[Hq _]]; [left; congruence|by apply elem_of_nil in Hq]. }
  destruct (fp_Enabled a) eqn:Ea; cbn [negb] in Hs.
  2: { assert (Hc : forall q, candidate (a :: l) best q <-> candidate l best q).
       { intros q. unfold candidate. rewrite elem_of_cons. split; [|naive_solver].
         intros [H|[[->|H] He]]; [by left|congruence|by right]. }
       destruct (IH best) as [H1 H2]; [|done|].
       - intros x y Hx Hy. apply Hu; by apply Hc.
       - split; [by apply Hc|]. intros q Hq. by apply H2, Hc. }
  set (b' := match best with Some b => if wins a b then a else b | None => a end).
  assert (Hl : select_loop l (Some b') = Some p) by (unfold b'; destruct best as [b|]; [by destruct (wins a b)|done]).
  assert (Hb : candidate (a :: l) best b').
  { unfold b', candidate. destruct best as [b|]; [destruct (wins a b); [|by left]|]; right; (split; [left|done]). }
  assert (Hin : forall q, candidate l (Some b') q -> candidate (a :: l) best q).
  { intros q [[= <-]|[Hq He]]; [done|]. right. split; [by right|done]. }
  assert (Hout : forall q, candidate (a :: l) best q -> candidate l (Some b') q \/ wins b' q = true).
  { intros q [->|[[->|Hq]%elem_of_cons He]].
    - unfold b'. destruct (wins a q) eqn:Ew; [by right|by left; left].
    - unfold b'. destruct best as [b|]; [|by left; left]. destruct (wins a b) eqn:Ew; [by left; left|].
      destruct (decide (fp_ID a = fp_ID b)) as [E|E].
      + left. left. f_equal. symmetry. apply Hu; [right; split; [left|done]|by left|done].
      + right. by apply wins_total.
    - left. by right. }
  destruct (IH (Some b')) as [H1 H2]; [|done|].
  { intros x y Hx Hy. apply Hu; by apply Hin. }
  split; [by apply Hin|]. intros q Hq. destruct (Hout q Hq) as [Hq'|Hw]; [by apply H2|].
  destruct (H2 b' ltac:(by left)) as [->|Hw']; [by right|]. right. by eapply wins_trans.
Qed.

Lemma select_loop_none policies best :
  select_loop policies best = None <-> forall q, ~ candidate policies best q.
Proof.
  revert best. induction policies as [|a l IH]; intros best; cbn [select_loop].
  - split; [intros -> q [H|[H _]]; [done|by apply elem_of_nil in H]|].
    intros H. destruct best as [b|]; [|done]. by destruct (H b); left.
  - destruct (fp_Enabled a) eqn:Ea; cbn [negb].
    + split; [|intros H; destruct (H a); right; split; [left|done]].
      assert (forall b, select_loop l (Some b) = None -> False) as Hno.
      { intros b Hb. apply IH with (q := b) in Hb. apply Hb. by left. }
      destruct best as [b|]; [destruct (wins a b)|]; intros H; by apply Hno in H.
    + rewrite IH. unfold candidate. split; intros H q Hq; apply (H q).
      * destruct Hq as [Hq|[[->|Hq]%elem_of_cons He]]; [by left|congruence|by right].
      * destruct Hq as [Hq|[Hq He]]; [by left|]. right. split; [by right|done].
Qed.

(** The policy that decides is the enabled one that comes first by
    precedence of its action, then age, then id, whatever order the policies
    are listed in; there is none only when no policy is enabled. *)
Lemma selectFailoverPolicy_best policies :
  NoDup (map fp_ID policies) ->
  match selectFailoverPolicy policies with
  | Some p => p ∈ policies /\ fp_Enabled p = true /\
      forall q, q ∈ policies -> fp_Enabled q = true -> q = p \/ wins p q = true
  | None => forall q, q ∈ policies -> fp_Enabled q = false
  end /\
  forall policies', policies' ≡ₚ policies -> selectFailoverPolicy policies' = selectFailoverPolicy policies.
Proof.
  intros Hn. unfold selectFailoverPolicy.
  assert (Hu : forall l, l ≡ₚ policies -> ids_unique (candidate l None)).
  { intros l Hl a b [H|[Ha _]] [H'|[Hb _]] E; try done. eapply (NoDup_map_inj fp_ID); [exact Hn| | |exact E];
      by rewrite <- Hl. }
  split.
  - destruct (select_loop policies None) as [p|] eqn:E.
    + destruct (select_loop_spec _ _ _ (Hu _ (Permutation_refl _)) E) as [[H|[H1 H2]] H3]; [done|].
      split_and!; [done..|]. intros q Hq He. apply H3. by right.
    + intros q Hq. rewrite select_loop_none in E. destruct (fp_Enabled q) eqn:He; [|done].
      by destruct (E q); right.
  - intros l Hl. assert (Hc : forall q, candidate l None q <-> candidate policies None q).
    { intros q. unfold candidate. by rewrite Hl. }
    destruct (select_loop l None) as [p|] eqn:E1, (select_loop policies None) as [p'|] eqn:E2; try done.
    + destruct (select_loop_spec _ _ _ (Hu _ Hl) E1) as [H1 H2].
      destruct (select_loop_spec _ _ _ (Hu _ (Permutation_refl _)) E2) as [H3 H4].
      destruct (H4 p) as [->|Hw]; [by apply Hc|done|]. destruct (H2 p') as [->|Hw']; [by apply Hc|done|].
      apply wins_asym in Hw. congruence.
    + destruct (select_loop_spec _ _ _ (Hu _ Hl) E1) as [H1 _]. rewrite select_loop_none in E2.
      exfalso. by apply (E2 p), Hc.
    + destruct (select_loop_spec _ _ _ (Hu _ (Permutation_refl _)) E2) as [H1 _]. rewrite select_loop_none in E1.
      exfalso. by apply (E1 p'), Hc.
Qed.

Definition example_policy (id action : string) (at_ : Time) : Policy :=
  mkPolicy id "policy" "node-1" true 3 300 600 action "" 0 at_ at_.

Lemma selectFailoverPolicy_best_witness :
  let l := [example_policy "p1" "notify" 1; example_policy "p2" "evacuate" 3; example_policy "p3" "evacuate" 2] in
  NoDup (map fp_ID l) /\ selectFailoverPolicy l = Some (example_policy "p3" "evacuate" 2) /\
  forall l', l' ≡ₚ l -> selectFailoverPolicy l' = selectFailoverPolicy l.
Proof.
  cbv zeta. assert (NoDup (map fp_ID [example_policy "p1" "notify" 1; example_policy "p2" "evacuate" 3;
    example_policy "p3" "evacuate" 2])) as Hn by (apply (bool_decide_unpack _); vm_compute; exact I).
  split; [exact Hn|]. split; [reflexivity|]. exact (proj2 (selectFailoverPolicy_best _ Hn)).
Defined.

(** ** Processes that hear of an offline node at once

    The same event may be delivered again, and to several API processes; each
    delivery is one thread of a pool.  The tables are shared, the service of a
    process by its threads. *)

(** An incident that reached the tables, and the time of the database then. *)
Record Incident := mkIncident { ii_ID : string; ii_Node : string; ii_Time : Time }.

(** [fw_mine] holds the incident a thread created and has not acted on;
    [fw_done] the calls of the executor, with that incident. *)
Record FoWorld := mkFoWorld {
  fw_db : FailoverTables;
  fw_now : Time;
  fw_service : nat -> Service;
  fw_incidents : list Incident;
  fw_mine : gmap nat string;
  fw_done : list (option string * Event)
}.

Section Deliveries.
(** [process]: where a thread runs.  The clock of a process differs from the
    clock of the database by at most [skew]. *)
Context (process : nat -> nat) (skew : Duration).

(** An answer that tells what happened, or an error. *)
Definition told {A} (a x : answer A) : Prop := x = a \/ exists msg, x = Failed msg.

(** A statement that does [r], or fails. *)
Definition stated {A} (r : answer A * FailoverTables) (w : FoWorld) (x : answer A) (w' : FoWorld) : Prop :=
  (w' = w /\ exists msg, x = Failed msg) \/ (told (fst r) x /\ w' = w <| fw_db := snd r |>).

Definition fo_step (t : nat) (X : Type) (e : FEff X) : FoWorld -> X -> FoWorld -> Prop :=
  match e in FEff X return FoWorld -> X -> FoWorld -> Prop with
  | FRead q => fun w x w' => w' = w /\ told (q (fw_db w)) x
  | FCreatePolicy p => fun w x w' => exists id wall, stated (CreateFailoverPolicy p id wall (fw_db w)) w x w'
  | FUpdatePolicy p => fun w x w' => exists wall, stated (UpdateFailoverPolicy p wall (fw_db w)) w x w'
  | FDeletePolicy id => fun w x w' => stated (DeleteFailoverPolicy id (fw_db w)) w x w'
  | FEvent e => fun w x w' => exists id wall, stated (CreateFailoverEvent e id wall (fw_db w)) w x w'
  | FIncident e window => fun w x w' =>
      (w' = w /\ exists msg, x = Failed msg) \/
      exists id wall, (forall i, i ∈ fw_incidents w -> ii_ID i <> id) /\ Z.abs (wall - fw_now w) <= skew /\
        match CreateFailoverIncident e window id (fw_now w) wall (fw_db w) with
        | (Got (Some id'), db') =>
            exists m, (x = Got (Some id') /\ m = <[t := id']> (fw_mine w) \/
                       (exists msg, x = Failed msg) /\ m = fw_mine w) /\
            w' = w <| fw_db := db' |> <| fw_mine := m |>
                   <| fw_incidents := fw_incidents w ++ [mkIncident id' (fe_NodeID e) (fw_now w)] |>
        | (r, db') => told r x /\ w' = w <| fw_db := db' |>
        end
  | FClassify _ => fun w _ w' => w' = w
  | FExecute e => fun w _ w' =>
      w' = w <| fw_done := fw_done w ++ [(fw_mine w !! t, e)] |> <| fw_mine := delete t (fw_mine w) |>
  | FPublish _ _ => fun w _ w' => w' = w
  | FClock => fun w _ w' => w' = w
  | FMem f => fun w x w' => exists wall,
      let r := f wall (fw_service w (process t)) in
      x = fst r /\ w' = w <| fw_service := fun p => if (p =? process t)%nat then snd r else fw_service w p |>
  end.

(** What else happens: time passes, operators change policies, other functions
    of the services record events, and nothing removes one. *)
Definition rows_kept (l l' : list FailoverEvent) : Prop :=
  forall e, e ∈ l -> exists e', e' ∈ l' /\ fe_ID e' = fe_ID e /\ fe_NodeID e' = fe_NodeID e /\
    fe_Status e' = fe_Status e /\ fe_CreatedAt e' = fe_CreatedAt e.

Definition fo_env (w w' : FoWorld) : Prop :=
  fw_now w <= fw_now w' /\ rows_kept (fo_events (fw_db w)) (fo_events (fw_db w')) /\
  fw_incidents w' = fw_incidents w /\ fw_mine w' = fw_mine w /\ fw_done w' = fw_done w.

(** A delivery of the event, to any process. *)
Definition delivery (p : F_ unit) : Prop :=
  exists publisher nodeID payload, p = (HandleNodeOffline publisher nodeID payload ;;^ Ret tt).

Definition leaves (t : nat) (w : FoWorld) : FoWorld := w <| fw_mine := delete t (fw_mine w) |>.

(** *** The invariant *)

Record fo_inv (w : FoWorld) : Prop := {
  iv_rows : forall i, i ∈ fw_incidents w -> ii_Time i <= fw_now w /\
    exists e, e ∈ fo_events (fw_db w) /\ fe_ID e = ii_ID i /\ fe_NodeID e = ii_Node i /\
      fe_Status e = "detected" /\ ii_Time i - skew <= fe_CreatedAt e;
  iv_spaced : forall i j, i ∈ fw_incidents w -> j ∈ fw_incidents w -> ii_Node i = ii_Node j ->
    ii_ID i <> ii_ID j -> activeIncidentWindow - skew <= Z.abs (ii_Time i - ii_Time j);
  iv_done : forall o e, (o, e) ∈ fw_done w -> exists i, i ∈ fw_incidents w /\ o = Some (ii_ID i) /\
    ii_Node i = ev_NodeID e;
  iv_once : NoDup (map fst (fw_done w));
  iv_mine : forall t id, fw_mine w !! t = Some id -> (exists i, i ∈ fw_incidents w /\ ii_ID i = id) /\
    Some id ∉ map fst (fw_done w) /\ forall t', fw_mine w !! t' = Some id -> t' = t
}.

(** What thread [t] relies on. *)
Definition fo_rely (t : nat) (w w' : FoWorld) : Prop :=
  fw_mine w' !! t = fw_mine w !! t /\ forall i, i ∈ fw_incidents w -> i ∈ fw_incidents w'.

#[local] Instance fo_rely_pre t : PreOrder (fo_rely t).
Proof. split; [by split|]. intros a b c [H1 H2] [H3 H4]. split; [congruence|auto]. Qed.

(** Requests that create no incident and act on none. *)
Definition calm (X : Type) (e : FEff X) : Prop :=
  match e with FIncident _ _ | FExecute _ => False | _ => True end.

Lemma rows_kept_refl l : rows_kept l l.
Proof. intros e He. by exists e. Qed.

Lemma inv_rows w w' :
  fw_now w <= fw_now w' -> rows_kept (fo_events (fw_db w)) (fo_events (fw_db w')) ->
  fw_incidents w' = fw_incidents w -> fw_mine w' = fw_mine w -> fw_done w' = fw_done w ->
  fo_inv w -> fo_inv w'.
Proof.
  intros Hn Hk Ei Em Ed [H1 H2 H3 H4 H5]. split; rewrite ?Ei, ?Em, ?Ed; try done.
  intros i Hi. destruct (H1 i Hi) as (Ht & e & He & E1 & E2 & E3 & E4). split; [lia|].
  destruct (Hk e He) as (e' & He' & K1 & K2 & K3 & K4). exists e'. split_and!; congruence || lia || done.
Qed.

Lemma inv_env w w' : fo_inv w -> fo_env w w' -> fo_inv w' /\ forall t, fo_rely t w w'.
Proof.
  intros H (Hn & Hk & Ei & Em & Ed). split; [by eapply inv_rows|]. intros t. split; by rewrite ?Em, ?Ei.
Qed.

Lemma insert_event_rows e db : rows_kept (fo_events db) (fo_events (snd (insert_event e db))).
Proof.
  unfold insert_event. repeat case_match; try apply rows_kept_refl. recs. intros x Hx. exists x.
  split_and!; [apply elem_of_app; by left|done..].
Qed.

Lemma delete_policy_rows id db : rows_kept (fo_events db) (fo_events (snd (DeleteFailoverPolicy id db))).
Proof.
  intros e He. exists (if (fe_PolicyID e =? id)%string then e <| fe_PolicyID := "" |> else e). split.
  - unfold DeleteFailoverPolicy. recs. apply list_elem_of_fmap. by exists e.
  - by case_match.
Qed.

Lemma calm_step t X (e : FEff X) w x w' :
  calm X e -> fo_step t X e w x w' -> fo_inv w -> fo_inv w' /\ forall t', fo_rely t' w w'.
Proof.
  intros Hc Hs H. apply inv_env; [done|].
  assert (Hst : forall A (r : answer A * FailoverTables) y, rows_kept (fo_events (fw_db w)) (fo_events (snd r)) ->
    stated r w y w' -> fo_env w w').
  { intros A r y Hr [[-> _]|[_ ->]]; (split; [recs; lia|]); split_and!; try done. apply rows_kept_refl. }
  assert (Hid : w' = w -> fo_env w w').
  { intros ->. split; [lia|]. split_and!; try done. apply rows_kept_refl. }
  destruct e; cbn [fo_step] in Hs; try done; try (by apply Hid).
  - apply Hid. by destruct Hs.
  - destruct Hs as (id & wall & Hs). eapply Hst; [|exact Hs]. unfold CreateFailoverPolicy.
    repeat case_match; apply rows_kept_refl.
  - destruct Hs as (wall & Hs). eapply Hst; [|exact Hs]. unfold UpdateFailoverPolicy.
    repeat case_match; apply rows_kept_refl.
  - eapply Hst; [|exact Hs]. apply delete_policy_rows.
  - destruct Hs as (id & wall & Hs). eapply Hst; [|exact Hs]. apply insert_event_rows.
  - destruct Hs as (wall & _ & ->). split; [recs; lia|]. split_and!; try done. apply rows_kept_refl.
Qed.

(** Programs that call the executor once at most, for [node]. *)
Fixpoint once {A} (node : string) (p : F_ A) : Prop :=
  match p with
  | Ret _ => True
  | Vis e k =>
      (calm _ e /\ forall x, once node (k x)) \/
      (match e with FExecute ev => ev_NodeID ev = node | _ => False end /\ forall x, only calm (k x))
  end.

Lemma once_calm {A} node (p : F_ A) : only calm p -> once node p.
Proof using Type. induction p as [a|X e k IH]; [done|]. intros [He Hk]. left. split; [done|]. intros x. by apply IH. Qed.

Lemma once_bind {A B} node (m : F_ A) (k : A -> F_ B) :
  only calm m -> (forall a, once node (k a)) -> once node (pbind m k).
Proof using Type.
  intros Hm Hk. induction m as [a|X e k' IH]; [apply Hk|]. destruct Hm as [He Hm]. left. split; [done|].
  intros x. by apply IH.
Qed.

Lemma once_bind_yields {A B} node (F : A -> Prop) (m : F_ A) (k : A -> F_ B) :
  only calm m -> yields F m -> (forall a, F a -> once node (k a)) -> once node (pbind m k).
Proof using Type.
  intros Hm Hy Hk. induction m as [a|X e k' IH]; [by apply Hk|]. destruct Hm as [He Hm]. left. split; [done|].
  intros x. apply IH; [apply Hm|apply Hy].
Qed.

Lemma once_execute {B} node ev (k : error -> F_ B) :
  ev_NodeID ev = node -> (forall x, only calm (k x)) -> once node (pbind (request (FExecute ev)) k).
Proof using Type. intros He Hk. right. split; [done|exact Hk]. Qed.

Ltac calm_requests :=
  repeat first
    [ exact I
    | match goal with
      | |- only _ (pbind _ _) => apply only_bind; [|intros]
      | |- only _ (request _) => apply only_request; exact I
      | |- only _ (Ret _) => exact I
      | |- only _ (match ?x with _ => _ end) => destruct x
      end ].

Lemma executeAction_once publisher policy type node server msg :
  once node (executeAction publisher policy type node server msg).
Proof using Type.
  unfold executeAction. apply once_bind; [exact (conj I (fun _ => I))|]. intros [executor|]; [|done].
  apply once_bind; [exact (conj I (fun _ => I))|]. intros now. cbv zeta.
  set (event := mkEvent _ _ _ _ _ _ _ _ _).
  assert (H : forall ev, ev_NodeID ev = node -> once node
    (let^ failed := if executor && negb (fp_Action policy =? FailoverActionNotify)%string
                    then request (FExecute ev) else Ret None in
     match failed with
     | Some err =>
         let event := ev <| ev_Status := "failed" |> <| ev_Message := cat [msg; ": "; err] |> in
         let^ _ := request (FEvent (toStoreEvent event)) in Ret (Some event, Some err)
     | None => let^ event := record_event (ev <| ev_Status := "completed" |>) in Ret (event, None)
     end)).
  { intros ev Hev. assert (Hrest : forall failed : error, only calm
      match failed with
      | Some err =>
          let event := ev <| ev_Status := "failed" |> <| ev_Message := cat [msg; ": "; err] |> in
          let^ _ := request (FEvent (toStoreEvent event)) in Ret (Some event, Some err)
      | None => let^ event := record_event (ev <| ev_Status := "completed" |>) in Ret (event, None)
      end) by (intros failed; unfold record_event; calm_requests).
    destruct (_ && _); [by apply once_execute|]. apply once_bind; [exact I|]. intros; apply once_calm, Hrest. }
  apply (once_bind_yields _ (fun ev => ev_NodeID ev = node)); [| |exact H].
  - unfold fpublish. calm_requests.
  - destruct (action_kind _) as [[[status kind] counter]|]; [|exact eq_refl].
    apply (yields_bind (fun _ => True)); [apply yields_any|]. intros _ _.
    apply (yields_bind (fun _ => True)); [apply yields_any|]. intros _ _. exact eq_refl.
Qed.

Abbreviation wp_ := (wp fo_step fo_inv fo_rely).

(** A thread that holds an incident of [node]. *)
Definition holds_incident (t : nat) (node : string) (w : FoWorld) : Prop :=
  exists i, i ∈ fw_incidents w /\ fw_mine w !! t = Some (ii_ID i) /\ ii_Node i = node.

Lemma holds_incident_stable t node : stable fo_rely t (holds_incident t node).
Proof using Type. intros w w' (i & Hi & Hm & Hn) [E Hk]. exists i. split_and!; [by apply Hk|by rewrite E|done]. Qed.

Lemma wp_calm {A} t (p : F_ A) w : only calm p -> wp_ t p (fun _ _ => True) w.
Proof using Type.
  intros Hp. eapply (wp_only _ _ _ _ calm (fun _ => True)); [done| |exact Hp|done].
  intros X e w1 x w2 He _ HI Hs. destruct (calm_step t X e w1 x w2 He Hs HI) as [H1 H2]. by split_and!.
Qed.

Lemma execute_step t node ev w x w' :
  holds_incident t node w -> ev_NodeID ev = node -> fo_step t _ (FExecute ev) w x w' -> fo_inv w ->
  fo_inv w' /\ forall t', t' <> t -> fo_rely t' w w'.
Proof using Type.
  intros (i & Hi & Hm & Hn) Hev Hs [H1 H2 H3 H4 H5]. cbn [fo_step] in Hs. subst w'. split.
  - destruct (H5 t _ Hm) as (_ & Hnew & Hinj). split; recs; [done|done|..].
    + intros o e [Hin|Hin]%elem_of_app; [by apply H3|]. apply list_elem_of_singleton in Hin. injection Hin as -> ->.
      exists i. by rewrite Hm, Hn.
    + rewrite map_app. apply NoDup_app. split; [done|]. cbn. rewrite Hm. split; [|apply NoDup_singleton].
      intros o Ho. intros ->%list_elem_of_singleton. done.
    + intros t' id [Hne Ht']%lookup_delete_Some. destruct (H5 t' id Ht') as (Hex & Hn' & Hinj'). split_and!; [done| |].
      * rewrite map_app. intros [?|Hin]%elem_of_app; [done|]. cbn in Hin. rewrite Hm in Hin.
        apply list_elem_of_singleton in Hin. injection Hin as ->. by apply Hne, Hinj'.
      * intros t'' [_ Ht'']%lookup_delete_Some. by apply Hinj'.
  - intros t' Hne. split; [by apply lookup_delete_ne|done].
Qed.

Lemma wp_once {A} t node (p : F_ A) w :
  once node p -> holds_incident t node w -> wp_ t p (fun _ _ => True) w.
Proof using Type.
  revert w. induction p as [a|X e k IH]; intros w Ho Hh; [done|].
  intros w1 x w2 HR HI Hs. assert (Hh1 : holds_incident t node w1) by (by eapply holds_incident_stable).
  destruct Ho as [[He Hk]|[He Hk]].
  - destruct (calm_step t X e w1 x w2 He Hs HI) as [H1 H2]. split_and!; [done|by intros|].
    apply IH; [apply Hk|]. by eapply holds_incident_stable.
  - destruct e; try done. destruct (execute_step t node e w1 x w2 Hh1 He Hs HI) as [H1 H2].
    split_and!; [done|done|]. apply wp_calm, Hk.
Qed.

(** Creating an incident: none of the node is younger than the window. *)
Lemma no_active_incident nodeID window now db e :
  active_incident nodeID window now db = false -> e ∈ fo_events db -> fe_NodeID e = nodeID ->
  fe_Status e = "detected" -> fe_CreatedAt e <= now - window.
Proof using Type.
  intros Ha He Hn Hs. unfold active_incident in Ha. apply not_true_iff_false in Ha.
  destruct (Z_le_gt_dec (fe_CreatedAt e) (now - window)) as [H|H]; [done|]. destruct Ha.
  apply existsb_exists. exists e. split; [by apply list_elem_of_In|]. rewrite Hn, Hs, String.eqb_refl. cbn.
  apply Z.ltb_lt. lia.
Qed.

Lemma incident_step t e x w w' :
  fo_inv w -> fe_Status e = "detected" -> fo_step t _ (FIncident e activeIncidentWindow) w x w' ->
  fo_inv w' /\ (forall t', t' <> t -> fo_rely t' w w') /\
  forall id, x = Got (Some id) -> holds_incident t (fe_NodeID e) w'.
Proof using Type.
  intros H Hst Hs. cbn [fo_step] in Hs. destruct Hs as [[-> [msg ->]]|(id & wall & Hfresh & Hskew & Hs)]; [done|].
  assert (Hsame : forall (r : answer (option string)) db', fo_events db' = fo_events (fw_db w) -> told r x ->
    (forall i, r <> Got (Some i)) -> w' = w <| fw_db := db' |> ->
    fo_inv w' /\ (forall t', t' <> t -> fo_rely t' w w') /\ forall id, x = Got (Some id) -> holds_incident t (fe_NodeID e) w').
  { intros r db' Edb Hx Hr ->. destruct (inv_env w (w <| fw_db := db' |>) H) as [H1 H2].
    - split; [recs; lia|]. split_and!; try done. recs. rewrite Edb. apply rows_kept_refl.
    - split_and!; [done|by intros|]. intros i ->. destruct Hx as [<-|[msg Hx]]; [by destruct (Hr i)|done]. }
  unfold CreateFailoverIncident in Hs. destruct (active_incident _ _ _ _) eqn:Ea.
  { destruct Hs as [Hx Hw]. by eapply (Hsame (Got None)). }
  unfold insert_event in Hs. destruct (_ && _); [destruct Hs as [Hx Hw]; by eapply (Hsame (Failed _))|].
  destruct (existsb _ _); [destruct Hs as [Hx Hw]; by eapply (Hsame (Failed _))|].
  cbv beta iota in Hs. change (fe_ID (e <| fe_ID := id |> <| fe_CreatedAt := wall |>)) with id in Hs.
  destruct Hs as (m & Hm & Hw). clear Hsame. set (i0 := mkIncident id (fe_NodeID e) (fw_now w)) in *.
  set (e0 := e <| fe_ID := id |> <| fe_CreatedAt := wall |>) in *.
  assert (w' = mkFoWorld (mkFailoverTables (fo_nodes (fw_db w)) (fo_policies (fw_db w)) (fo_events (fw_db w) ++ [e0]))
                 (fw_now w) (fw_service w) (fw_incidents w ++ [i0]) m (fw_done w)) as -> by exact Hw.
  clear Hw.
  destruct H as [H1 H2 H3 H4 H5].
  assert (Hgap : forall j, j ∈ fw_incidents w -> ii_Node j = fe_NodeID e ->
    activeIncidentWindow - skew <= fw_now w - ii_Time j).
  { intros j Hj Hn. destruct (H1 j Hj) as (_ & ev & Hev & _ & E2 & E3 & E4).
    pose proof (no_active_incident _ _ _ _ _ Ea Hev ltac:(congruence) E3). lia. }
  assert (Hmine : forall t' i, m !! t' = Some i -> (t' = t /\ i = id) \/ fw_mine w !! t' = Some i).
  { intros t' i Hi. destruct Hm as [[_ ->]|[_ ->]]; [|by right].
    apply lookup_insert_Some in Hi as [[<- <-]|[_ Hi]]; [by left|by right]. }
  split_and!.
  - split; cbn [fw_db fw_now fw_incidents fw_mine fw_done fo_events].
    + intros i [Hi|Hi]%elem_of_app.
      * destruct (H1 i Hi) as (Ht & ev & Hev & Hrest). split; [done|]. exists ev. split; [|done].
        apply elem_of_app. by left.
      * apply list_elem_of_singleton in Hi as ->. split; [cbn; lia|].
        exists e0. split; [apply elem_of_app; right; by apply list_elem_of_singleton|]. split_and!; [done..|].
        change (fw_now w - skew <= wall). lia.
    + intros i j [Hi|Hi]%elem_of_app [Hj|Hj]%elem_of_app Hn Hne.
      * by apply H2.
      * apply list_elem_of_singleton in Hj as ->. cbn in Hn. specialize (Hgap i Hi Hn). cbn. lia.
      * apply list_elem_of_singleton in Hi as ->. cbn in Hn. specialize (Hgap j Hj (eq_sym Hn)). cbn. lia.
      * apply list_elem_of_singleton in Hi as ->, Hj as ->. done.
    + intros o ev Ho. destruct (H3 o ev Ho) as (i & Hi & Hrest). exists i. split; [|done].
      apply elem_of_app. by left.
    + done.
    + assert (Hnew : Some id ∉ map fst (fw_done w)).
      { intros ([o ev] & E & Hin)%list_elem_of_fmap. destruct (H3 o ev Hin) as (i & Hi & -> & _).
        cbn in E. injection E as E. by apply (Hfresh i Hi). }
      assert (Hold : forall t', fw_mine w !! t' <> Some id).
      { intros t' Ht'. destruct (H5 t' id Ht') as ((i & Hi & E) & _). by apply (Hfresh i Hi). }
      intros t' i Ht'.
      destruct (Hmine t' i Ht') as [[-> ->]|Ht0].
      * split_and!; [exists i0; split; [apply elem_of_app; right; by apply list_elem_of_singleton|done]|done|].
        intros t'' Ht''. destruct (Hmine t'' id Ht'') as [[-> _]|Hbad]; [done|by destruct (Hold t'')].
      * destruct (H5 t' i Ht0) as ((j & Hj & E) & Hd & Hinj).
        split_and!; [exists j; split; [apply elem_of_app; by left|done]|done|].
        intros t'' Ht''. destruct (Hmine t'' i Ht'') as [[-> ->]|Ht3]; [by destruct (Hold t')|by apply Hinj].
  - intros t' Hne. split; cbn [fw_mine fw_incidents]; [|intros i Hi; apply elem_of_app; by left].
    destruct Hm as [[_ ->]|[_ ->]]; [|done]. by apply lookup_insert_ne.
  - intros i ->. destruct Hm as [[[= ->] ->]|[[msg Hbad] _]]; [|done]. exists i0.
    split_and!; [apply elem_of_app; right; by apply list_elem_of_singleton|by apply lookup_insert_eq|done].
Qed.

Lemma deciding_calm nodeID policies : only calm (deciding_policy nodeID policies).
Proof using Type. unfold deciding_policy. calm_requests. Qed.

Lemma delivery_wp p t w : delivery p -> wp_ t p (fun _ _ => True) w.
Proof using Type.
  intros (publisher & nodeID & payload & ->). apply wp_bind.
  apply (wp_mono fo_step fo_inv fo_rely t _ (fun _ _ => True)); [done|].
  unfold HandleNodeOffline. destruct (nodeID =? "")%string; [done|].
  apply wp_bind. eapply wp_mono; [|by apply (wp_calm t); split]. intros [policies|e] w1 _; [|done].
  apply wp_bind. eapply wp_mono; [|apply wp_calm, deciding_calm]. intros matching w2 _. cbv zeta.
  set (reason := match payload with Some _ => _ | None => _ end). clearbody reason.
  apply wp_bind. eapply wp_mono; [|apply wp_calm; unfold ensurePolicyPersisted, ffails; calm_requests].
  intros [policy|e] w3 _; [|done].
  unfold createIncident.
  eapply (wp_request _ _ _ t _ _ (fun _ => True)
    (fun (x : answer (option string)) w => match x with Got (Some _) => holds_incident t nodeID w | _ => True end)); [done| | |done].
  - intros w4 x w5 _ HI Hs. pose proof (fun E => incident_step t _ x w4 w5 HI E Hs) as K.
    destruct (K eq_refl) as (K1 & K2 & K3).
    split_and!; [done|done|]. destruct x as [[id|]|e]; [|done..]. by apply (K3 id).
  - intros [[id|]|e] w4 H4; [|done..]. apply wp_bind. eapply wp_mono; [|eapply wp_once, H4; apply executeAction_once].
    by intros.
Qed.

(** C21: However often, and by however many API processes, the failure of a
    node is delivered, and in whatever order their requests are answered, the
    executor runs at most once per incident; it runs for the node of its
    incident; and two incidents of one node are [activeIncidentWindow] apart,
    less the difference of the clocks. *)
Theorem one_action_per_incident w ts c :
  fw_incidents w = [] -> fw_mine w = ∅ -> fw_done w = [] ->
  (forall t p, ts !! t = Some p -> delivery p) ->
  rtc (pool_step fo_step fo_env delivery leaves) (mkPool w ts) c ->
  NoDup (map fst (fw_done (shared c))) /\
  (forall o e, (o, e) ∈ fw_done (shared c) -> exists i, i ∈ fw_incidents (shared c) /\ o = Some (ii_ID i) /\
     ii_Node i = ev_NodeID e) /\
  (forall i j, i ∈ fw_incidents (shared c) -> j ∈ fw_incidents (shared c) -> ii_Node i = ii_Node j ->
     ii_ID i <> ii_ID j -> activeIncidentWindow - skew <= Z.abs (ii_Time i - ii_Time j)).
Proof using Type.
  intros Hi Hm Hd Hts Hr.
  assert (Hs : safe fo_step fo_inv fo_rely (mkPool w ts)).
  { split; [|intros t p Hp; by eapply delivery_wp, Hts].
    split; cbn [shared]; rewrite ?Hi, ?Hm, ?Hd; try set_solver.
    by apply NoDup_nil_2. }
  assert (safe fo_step fo_inv fo_rely c) as [[_ H2 H3 H4 _] _]; [|done].
  refine (pool_safe fo_step fo_env delivery leaves fo_inv fo_rely inv_env _ _ _ c Hs Hr).
  - intros t w1 [H1 H2 H3 H4 H5]. split.
    + split; try done. intros t' id Ht'. change (delete t (fw_mine w1) !! t' = Some id) in Ht'.
      apply lookup_delete_Some in Ht' as [_ Ht']. destruct (H5 t' id Ht') as (K1 & K2 & K3).
      split_and!; [done..|]. intros t'' Ht''. change (delete t (fw_mine w1) !! t'' = Some id) in Ht''.
      apply lookup_delete_Some in Ht'' as [_ Ht'']. by apply K3.
    + intros t' Hne. split; [by apply lookup_delete_ne|done].
  - intros p Hp t w1. by apply delivery_wp.
Qed.
End Deliveries.

(** ** When nothing fails *)

(** Longer than every id in use. *)
Definition fresh_incident (l : list Incident) : string := foldr (fun i s => (ii_ID i ++ s)%string) "x" l.

Lemma fresh_incident_new l i : i ∈ l -> ii_ID i <> fresh_incident l.
Proof.
  assert (Hlen : forall s t, String.length (s ++ t)%string = (String.length s + String.length t)%nat).
  { intros s t. induction s as [|c s IH]; [done|]. change (S (String.length (s ++ t)) = S (String.length s) + String.length t)%nat. lia. }
  intros Hi E. assert (H : (String.length (ii_ID i) < String.length (fresh_incident l))%nat); [|rewrite E in H; lia].
  clear E. induction l as [|j l IH]; [by apply elem_of_nil in Hi|].
  cbn [fresh_incident foldr]. rewrite Hlen. apply elem_of_cons in Hi as [->|Hi].
  - assert (H : forall k, (1 <= String.length (foldr (fun i s => (ii_ID i ++ s)%string) "x" k))%nat); [|specialize (H l); lia].
    induction k as [|a k IHk]; [done|]. cbn [foldr]. rewrite Hlen. lia.
  - specialize (IH Hi). unfold fresh_incident in IH. lia.
Qed.

(** Answers without failures; the classifier finds workloads that are not safe
    to move, and answers [notify]. *)
Definition fo_serve (process : nat -> nat) (t : nat) (X : Type) (e : FEff X) (w : FoWorld) : X * FoWorld :=
  match e in FEff X return X * FoWorld with
  | FRead q => (q (fw_db w), w)
  | FCreatePolicy p =>
      let r := CreateFailoverPolicy p (fresh_incident (map (fun q => mkIncident q.1 "" 0) (map_to_list (fo_policies (fw_db w)))))
                 (fw_now w) (fw_db w) in
      (fst r, w <| fw_db := snd r |>)
  | FUpdatePolicy p => let r := UpdateFailoverPolicy p (fw_now w) (fw_db w) in (fst r, w <| fw_db := snd r |>)
  | FDeletePolicy id => let r := DeleteFailoverPolicy id (fw_db w) in (fst r, w <| fw_db := snd r |>)
  | FEvent e =>
      let r := CreateFailoverEvent e (fresh_incident (map (fun q => mkIncident (fe_ID q) "" 0) (fo_events (fw_db w))))
                 (fw_now w) (fw_db w) in
      (fst r, w <| fw_db := snd r |>)
  | FIncident e window =>
      match CreateFailoverIncident e window
              (fresh_incident (fw_incidents w ++ map (fun q => mkIncident (fe_ID q) "" 0) (fo_events (fw_db w))))
              (fw_now w) (fw_now w) (fw_db w) with
      | (Got (Some id), db') =>
          (Got (Some id), w <| fw_db := db' |> <| fw_mine := <[t := id]> (fw_mine w) |>
             <| fw_incidents := fw_incidents w ++ [mkIncident id (fe_NodeID e) (fw_now w)] |>)
      | (r, db') => (r, w <| fw_db := db' |>)
      end
  | FClassify _ => (Got FailoverActionNotify, w)
  | FExecute e => (None, w <| fw_done := fw_done w ++ [(fw_mine w !! t, e)] |> <| fw_mine := delete t (fw_mine w) |>)
  | FPublish _ _ => (None, w)
  | FClock => (fw_now w, w)
  | FMem f =>
      let r := f (fw_now w) (fw_service w (process t)) in
      (fst r, w <| fw_service := fun p => if (p =? process t)%nat then snd r else fw_service w p |>)
  end.

Lemma fo_serve_step process skew t X (e : FEff X) w :
  0 <= skew -> fo_step process skew t X e w (fst (fo_serve process t X e w)) (snd (fo_serve process t X e w)).
Proof.
  intros Hk.
  assert (Hst : forall A (r : answer A * FailoverTables), stated r w (fst r) (w <| fw_db := snd r |>)).
  { intros A r. right. split; [by left|done]. }
  destruct e; cbn [fo_serve fo_step fst snd]; try done.
  - split; [done|by left].
  - eexists _, _. apply Hst.
  - eexists. apply Hst.
  - right. eexists _, (fw_now w). split; [|split; [|]].
    + intros i Hi. apply (fresh_incident_new (fw_incidents w ++ map (fun q => mkIncident (fe_ID q) "" 0) (fo_events (fw_db w)))).
      apply elem_of_app. by left.
    + lia.
    + destruct (CreateFailoverIncident _ _ _ _ _ _) as [[[id|]|err] db']; cbn [fst snd].
      * eexists. split; [by left|done].
      * split; [by left|done].
      * split; [by left|done].
  - eexists _, _. apply Hst.
  - by eexists.
Qed.

Definition example_service : Service := mkService ∅ ∅ true true (mkFailoverMetrics 0 0 0 0) false.

Definition example_failover (policies : list Policy) : FoWorld :=
  mkFoWorld (mkFailoverTables {["node-1"]} (list_to_map (map (fun p => (fp_ID p, p)) policies)) [])
    (1000000 * Second) (fun _ => example_service) [] ∅ [].

(** Three deliveries to two processes. *)
Definition example_threads : gmap nat (F_ unit) :=
  list_to_map (map (fun t => (t, HandleNodeOffline false "node-1" None ;;^ Ret tt)) [0; 1; 2]%nat).

Definition example_turns : list nat := concat (repeat [0; 1; 2]%nat 12).

Definition two_processes (t : nat) : nat := Nat.modulo t 2.

Definition example_failover_end : pool FEff FoWorld :=
  run_schedule (fo_serve two_processes) example_turns
    (mkPool (example_failover [example_policy "p1" "evacuate" 1]) example_threads).

Lemma one_action_per_incident_witness :
  map (fun d => (fst d, ev_Action (snd d))) (fw_done (shared example_failover_end)) = [(Some "x", "evacuate")] /\
  NoDup (map fst (fw_done (shared example_failover_end))).
Proof.
  split; [by vm_compute|].
  refine (proj1 (one_action_per_incident two_processes 0 (example_failover [example_policy "p1" "evacuate" 1])
    example_threads example_failover_end eq_refl eq_refl eq_refl _ _)).
  - intros t p Hp. apply elem_of_list_to_map_2, list_elem_of_fmap in Hp as (t' & [= -> ->] & _).
    by exists false, "node-1", None.
  - apply run_schedule_steps. intros. by apply fo_serve_step.
Defined.

(** ** What the code does beyond what it says *)

(** An operator's policy that only notifies is turned into an evacuation when
    the node goes offline, also when the classifier, asked whether it is safe,
    answers [notify]. *)
Lemma notify_policy_evacuates :
  let w := example_failover [example_policy "p1" "notify" 1] in
  let p := HandleNodeOffline false "node-1" None in
  map (fun d => ev_Action (snd d)) (fw_done (world_alone (fo_serve two_processes 0) p w)) = ["evacuate"].
Proof. by vm_compute. Qed.

(** The incident stays under way for ever: nothing closes it, and only the
    window ends it. *)
Lemma incident_is_never_closed :
  let w := example_failover [example_policy "p1" "evacuate" 1] in
  let w' := world_alone (fo_serve two_processes 0) (HandleNodeOffline false "node-1" None) w in
  map (fun e => (fe_Action e, fe_Status e)) (fo_events (fw_db w')) = [("incident", "detected"); ("evacuate", "completed")].
Proof. by vm_compute. Qed.

(** A failure of the executor consumes the cooldown: the next delivery after
    the incident's window does nothing while the cooldown lasts. *)
Lemma failed_action_is_not_retried policy nodeID now s executor s' now' :
  claim_action policy nodeID now s = (Some executor, s') -> now <> zeroTime ->
  time_sub now' now < imul (fp_CooldownSec policy) Second -> fst (claim_action policy nodeID now' s') = None.
Proof.
  unfold claim_action. set (key := if (fp_ID policy =? "")%string then _ else _).
  destruct (_ && _) eqn:E; [done|]. intros [= <- <-] Hz Hlt. recs. rewrite lookup_insert_eq.
  change (default zeroTime (Some now)) with now.
  assert ((now =? zeroTime) = false) as -> by (by apply Z.eqb_neq).
  by assert ((time_sub now' now <? imul (fp_CooldownSec policy) Second) = true) as -> by (by apply Z.ltb_lt).
Qed.
