(* ===== verification/JobQueue.v ===== *)
(** * The durable job queue

    [forge/api/internal/services/queue]: work the API accepted is written to
    the table [job_queue] and run by the workers of any API process
    ([queue.go]).  A worker claims a job for a lease that it renews while the
    handler runs; a job whose worker died is claimed again when the lease has
    run out; a job that fails is retried a few times.  [store.go] has the
    statements, which keep an operation, its step and its attempts beside the
    job; [periodic.go] dispatches jobs by the clock.

    A statement is a function of the tables.  What happens in the system is the
    relation [queue_step]: dispatches, claims, renewals, ends of handlers,
    cancellations and crashes of any workers, in any order.  [prompt] is the
    regime where no worker goes on after its lease has run out.  Encoding of
    payloads, logging and the polling of the workers are left out; the UUIDs
    that are computed from a name are the argument [name_uuid]. *)
From Stdlib Require Import ZArith Lia.
From stdpp Require Import base gmap strings list fin_maps.
From coqutil Require Import Datatypes.RecordSettersUsingExistingGetters.
From S2P Require Import Prelude GoStrings GoSort Capacity.
Import RecordSetNotations1.
#[local] Open Scope string_scope.
#[local] Open Scope list_scope.
#[local] Open Scope Z_scope.
#[local] Open Scope go_scope.

(** ** Rows *)

(* go: services/queue/queue.go L42-48 *)
Inductive JobStatus := JobPending | JobRunning | JobCompleted | JobFailed | JobCancelled.

#[export] Instance job_status_eq_dec : EqDecision JobStatus.
Proof. solve_decision. Defined.

(** The row of a job; columns that may be null are options. *)
(* go: services/queue/queue.go type:Job *)
Record Job := mkJob {
  j_ID : string;
  j_Type : string;
  j_Status : JobStatus;
  j_ServerID : option string;
  j_NodeID : option string;
  j_Payload : string;
  j_Error : string;
  j_Priority : Z;
  j_MaxRetries : Z;
  j_RetryCount : Z;
  j_IdempotencyKey : option string;
  j_AvailableAt : Time;
  j_LockedBy : option string;
  j_LockedUntil : option Time;
  j_CreatedAt : Time;
  j_StartedAt : option Time;
  j_CompletedAt : option Time
}.

Record OperationRow := mkOperationRow {
  op_Kind : string;
  op_ResourceID : string;
  op_Status : string;
  op_Key : option string;
  op_Error : string
}.

Record StepRow := mkStepRow { os_ID : string; os_Status : string; os_MaxAttempts : Z }.

Record AttemptRow := mkAttemptRow { oa_Status : string; oa_WorkerID : string; oa_Error : string }.

(** Steps are those of position 0, by their operation; attempts by step and
    number. *)
Record QueueTables := mkQueueTables {
  q_jobs : gmap string Job;
  q_operations : gmap string OperationRow;
  q_steps : gmap string StepRow;
  q_attempts : gmap (string * Z) AttemptRow
}.

Definition active (s : JobStatus) : bool := bool_decide (s = JobPending \/ s = JobRunning).

(** The unique indexes of [job_queue]: the id, the idempotency key, and the
    type, server and node of a job that is pending or running. *)
Definition same_work (a b : Job) : bool :=
  (j_Type a =? j_Type b)%string && bool_decide (j_ServerID a = j_ServerID b) && bool_decide (j_NodeID a = j_NodeID b).

Definition job_conflict (a b : Job) : bool :=
  (j_ID a =? j_ID b)%string ||
  match j_IdempotencyKey a, j_IdempotencyKey b with Some k, Some k' => (k =? k')%string | _, _ => false end ||
  (active (j_Status a) && active (j_Status b) && same_work a b).

Definition conflicting (job : Job) (db : QueueTables) : bool :=
  existsb (job_conflict job) (values (q_jobs db)).

(** ** The statements *)

Section Statements.
Context (name_uuid : string -> string).

Definition step_id (jobID : string) : string := name_uuid (cat ["forge-operation-step:"; jobID]).

(** [ON CONFLICT DO NOTHING]. *)
Definition insert_job (job : Job) (db : QueueTables) : QueueTables :=
  if conflicting job db then db else db <| q_jobs := <[j_ID job := job]> (q_jobs db) |>.

(** One transaction; [positive] is the check on [max_attempts]. *)
(* go: services/queue/store.go func:PostgresStore.Enqueue *)
Definition Enqueue (job : Job) (db : QueueTables) : answer unit * QueueTables :=
  let id := j_ID job in
  let db1 := insert_job job db in
  let db2 := if bool_decide (is_Some (q_operations db1 !! id)) then db1
             else db1 <| q_operations := <[id := mkOperationRow (j_Type job) (default "" (j_ServerID job)) "queued"
                                                   (j_IdempotencyKey job) ""]> (q_operations db1) |> in
  if j_MaxRetries job <=? 0 then (Failed ErrCheck, db)
  else
    (Got tt,
     if bool_decide (is_Some (q_steps db2 !! id)) then db2
     else db2 <| q_steps := <[id := mkStepRow (step_id id) "queued" (j_MaxRetries job)]> (q_steps db2) |>).

(** Jobs that may be claimed. *)
Definition runnable (now : Time) (nodeID : string) (j : Job) : bool :=
  (bool_decide (j_Status j = JobPending) && (j_AvailableAt j <=? now) ||
   bool_decide (j_Status j = JobRunning) && match j_LockedUntil j with Some u => u <? now | None => false end) &&
  ((nodeID =? "")%string || bool_decide (j_NodeID j = Some nodeID)).

(** [ORDER BY priority DESC, available_at ASC, created_at ASC]. *)
Definition served_first (a b : Job) : bool :=
  (j_Priority b <? j_Priority a) ||
  ((j_Priority a =? j_Priority b) &&
   ((j_AvailableAt a <? j_AvailableAt b) ||
    ((j_AvailableAt a =? j_AvailableAt b) && (j_CreatedAt a <? j_CreatedAt b)))).

(** [skip]: the rows another statement has locked. *)
(* go: services/queue/store.go L58-62 *)
Definition candidate (now : Time) (nodeID : string) (skip : gset string) (db : QueueTables) : option Job :=
  head (isort served_first
          (filter (fun j => runnable now nodeID j = true /\ j_ID j ∉ skip) (values (q_jobs db)))).

(* go: services/queue/store.go L63-64 *)
Definition claimed (workerID : string) (lease : Duration) (now : Time) (j : Job) : Job :=
  j <| j_Status := JobRunning |> <| j_StartedAt := Some (default now (j_StartedAt j)) |>
    <| j_LockedBy := Some workerID |> <| j_LockedUntil := Some (now + lease) |>.

Definition set_job (id : string) (f : Job -> Job) (db : QueueTables) : QueueTables :=
  db <| q_jobs := alter f id (q_jobs db) |>.
Definition set_operation (id : string) (f : OperationRow -> OperationRow) (db : QueueTables) : QueueTables :=
  db <| q_operations := alter f id (q_operations db) |>.
Definition set_step (id : string) (f : StepRow -> StepRow) (db : QueueTables) : QueueTables :=
  db <| q_steps := alter f id (q_steps db) |>.

(** The records of a claim. *)
Definition claim_records (workerID : string) (j : Job) : list (QueueTables -> QueueTables) :=
  [set_operation (j_ID j) (fun o => o <| op_Status := "running" |>);
   set_step (j_ID j) (fun s => s <| os_Status := "running" |>);
   fun db =>
     let key := (step_id (j_ID j), iadd (j_RetryCount j) 1) in
     if bool_decide (is_Some (q_attempts db !! key)) then db
     else match q_steps db !! j_ID j with
          | Some s => if (os_ID s =? step_id (j_ID j))%string && (0 <? key.2)
                      then db <| q_attempts := <[key := mkAttemptRow "running" workerID ""]> (q_attempts db) |>
                      else db
          | None => db
          end].

(** Nobody looks at the errors of the records: [oks] says which ones the
    database takes. *)
Fixpoint recorded_of (oks : list bool) (l : list (QueueTables -> QueueTables)) (db : QueueTables) : QueueTables :=
  match oks, l with
  | ok :: oks, f :: l => recorded_of oks l (if ok then f db else db)
  | _, _ => db
  end.

(** What the worker gets is the row without its error and its end. *)
(* go: services/queue/store.go func:PostgresStore.Dequeue *)
Definition Dequeue (nodeID workerID : string) (lease : Duration) (skip : gset string) (oks : list bool)
    (now : Time) (db : QueueTables) : answer (option Job) * QueueTables :=
  match candidate now nodeID skip db with
  | None => (Got None, db)
  | Some j =>
      let job := claimed workerID lease now j in
      (Got (Some (job <| j_Error := "" |> <| j_CompletedAt := None |>)),
       recorded_of oks (claim_records workerID job) (set_job (j_ID j) (fun _ => job) db))
  end.

(** Attempts that are under way end with the step. *)
Definition close_attempts (jobID status error : string) (db : QueueTables) : QueueTables :=
  match q_steps db !! jobID with
  | None => db
  | Some s =>
      db <| q_attempts := map_imap (fun key a =>
              Some (if (key.1 =? os_ID s)%string && (oa_Status a =? "running")%string
                    then mkAttemptRow status (oa_WorkerID a) error else a)) (q_attempts db) |>
  end.

(** A job that becomes pending again must not meet another one of its work. *)
Definition reactivate (id : string) (f : Job -> Job) (db : QueueTables) : option QueueTables :=
  match q_jobs db !! id with
  | None => Some db
  | Some j =>
      if existsb (fun k => negb (j_ID k =? id)%string && job_conflict (f j) k) (values (q_jobs db))
      then None else Some (db <| q_jobs := <[id := f j]> (q_jobs db) |>)
  end.

(** The statements of the three endings, in order; the first error ends them. *)
(* go: services/queue/store.go func:PostgresStore.Acknowledge *)
Definition Acknowledge (id : string) (now : Time) : list (QueueTables -> option QueueTables) :=
  [fun db => Some (set_job id (fun j => j <| j_Status := JobCompleted |> <| j_CompletedAt := Some now |>
                                          <| j_LockedBy := None |> <| j_LockedUntil := None |>) db);
   fun db => Some (set_operation id (fun o => o <| op_Status := "succeeded" |>) db);
   fun db => Some (set_step id (fun s => s <| os_Status := "succeeded" |>) db);
   fun db => Some (close_attempts id "succeeded" "" db)].

(* go: services/queue/store.go func:PostgresStore.Fail *)
Definition Fail_ (id msg : string) (now : Time) : list (QueueTables -> option QueueTables) :=
  [fun db => Some (set_job id (fun j => j <| j_Status := JobFailed |> <| j_Error := msg |> <| j_CompletedAt := Some now |>
                                          <| j_LockedBy := None |> <| j_LockedUntil := None |>) db);
   fun db => Some (set_operation id (fun o => o <| op_Status := "failed" |> <| op_Error := msg |>) db);
   fun db => Some (set_step id (fun s => s <| os_Status := "failed" |>) db);
   fun db => Some (close_attempts id "failed" msg db)].

(* go: services/queue/store.go func:PostgresStore.Retry *)
Definition Retry (id msg : string) (availableAt : Time) : list (QueueTables -> option QueueTables) :=
  [reactivate id (fun j => j <| j_Status := JobPending |> <| j_RetryCount := j_RetryCount j + 1 |> <| j_Error := msg |>
                             <| j_AvailableAt := availableAt |> <| j_LockedBy := None |> <| j_LockedUntil := None |>);
   fun db => Some (set_operation id (fun o => o <| op_Status := "retrying" |> <| op_Error := msg |>) db);
   fun db => Some (set_step id (fun s => s <| os_Status := "retrying" |>) db);
   fun db => Some (close_attempts id "failed" msg db)].

(** [n]: how many statements the database answers before it fails. *)
Fixpoint statements (n : nat) (l : list (QueueTables -> option QueueTables)) (db : QueueTables) : QueueTables :=
  match n, l with
  | S n, f :: l => match f db with Some db' => statements n l db' | None => db end
  | _, _ => db
  end.

(* go: services/queue/store.go func:PostgresStore.Heartbeat *)
Definition Heartbeat (id workerID : string) (lease : Duration) (now : Time) (db : QueueTables) : QueueTables :=
  set_job id (fun j =>
    if bool_decide (j_Status j = JobRunning) && bool_decide (j_LockedBy j = Some workerID)
    then j <| j_LockedUntil := Some (now + lease) |> else j) db.

(* go: services/queue/store.go func:PostgresStore.ListPending *)
Definition ListPending (nodeID : string) (db : QueueTables) : answer (list Job) :=
  Got (isort served_first (filter (fun j =>
         j_Status j = JobPending /\ ((nodeID =? "")%string = true \/ j_NodeID j = Some nodeID)) (values (q_jobs db)))).

(* go: services/queue/store.go func:PostgresStore.GetJob *)
Definition GetJob (id : string) (db : QueueTables) : answer (option Job) := Got (q_jobs db !! id).

(** ** The service *)

(* go: services/queue/queue.go const:ErrNoJobHandler *)
Definition ErrNoJobHandler : string := "no handler registered for job type".

Definition job_lease : Duration := 30 * Second.

(** [handlers]: the job types a process has a handler for.  [payload] is the
    encoded payload, or the error of its encoding; [id] a new UUID. *)
(* go: services/queue/queue.go func:Service.DispatchIdempotent *)
Definition DispatchIdempotent (handlers : gset string) (idempotencyKey jobType serverID nodeID : string)
    (payload : result string) (priority : Z) (id : string) (now : Time) (db : QueueTables)
    : answer Job * QueueTables :=
  if negb (bool_decide (jobType ∈ handlers)) then (Failed (ErrText ErrNoJobHandler), db)
  else
    match payload with
    | Err e => (Failed (ErrText e), db)
    | Ok data =>
        let id := if (idempotencyKey =? "")%string then id
                  else name_uuid (cat ["forge-job:"; idempotencyKey]) in
        let job := mkJob id jobType JobPending (nullable serverID) (nullable nodeID) data "" priority 3 0
                     (nullable idempotencyKey) now None None now None None in
        match Enqueue job db with
        | (Got _, db') => (Got job, db')
        | (Failed e, db') => (Failed e, db')
        end
    end.

(* go: services/queue/queue.go func:Service.Dispatch *)
Definition Dispatch (handlers : gset string) := DispatchIdempotent handlers "".

(** How a handler ends. *)
Inductive Outcome := Finished | HandlerError (msg : string) | HandlerPanic (msg : string) | NoHandler.

(** [1<<min(retry, 6)] seconds. *)
Definition backoff (retryCount : Z) : Duration := Z.shiftl 1 (Z.min retryCount 6) * Second.

(* go: services/queue/queue.go L209-214 *)
Definition after_error (job : Job) (err : string) (now : Time) : list (QueueTables -> option QueueTables) :=
  if j_MaxRetries job <=? iadd (j_RetryCount job) 1 then Fail_ (j_ID job) err now
  else Retry (j_ID job) err (now + backoff (j_RetryCount job)).

(** [job] is the row the worker claimed. *)
(* go: services/queue/queue.go func:Service.process *)
Definition process (job : Job) (o : Outcome) (now : Time) : list (QueueTables -> option QueueTables) :=
  match o with
  | Finished => Acknowledge (j_ID job) now
  | HandlerError err => after_error job err now
  | HandlerPanic err => after_error job (cat ["panic in job "; j_ID job; ": "; err]) now
  | NoHandler => Fail_ (j_ID job) (cat ["no handler registered for job type "; j_Type job]) now
  end.

(** The handler of the job is interrupted too. *)
(* go: services/queue/queue.go func:Service.Cancel *)
Definition Cancel (id : string) (now : Time) : list (QueueTables -> option QueueTables) := Fail_ id "job cancelled" now.
End Statements.

(** ** Periodic jobs *)

(** [schedule.Next] and the jobs a tick dispatches, with the time they were
    scheduled for. *)
(* go: services/queue/periodic.go type:PeriodicJob *)
Record PeriodicJob := mkPeriodicJob {
  pj_id : string;
  pj_schedule : Time -> Time;
  pj_runOnStart : bool;
  pj_nextRun : Time
}.

(* go: services/queue/periodic.go func:PeriodicInterval *)
Definition PeriodicInterval (d : Duration) : Time -> Time := fun t => t + d.

(* go: services/queue/periodic.go func:NewPeriodicJob *)
Definition NewPeriodicJob (schedule : Time -> Time) (opts : option (string * bool)) : PeriodicJob :=
  match opts with
  | Some (id, runOnStart) => mkPeriodicJob id schedule runOnStart zeroTime
  | None => mkPeriodicJob "" schedule false zeroTime
  end.

(* go: services/queue/periodic.go func:PeriodicJobScheduler.Add *)
Definition Add (now : Time) (job : PeriodicJob) (jobs : list PeriodicJob) : list PeriodicJob :=
  jobs ++ [job <| pj_nextRun := pj_schedule job now |>].

(* go: services/queue/periodic.go loop:PeriodicJobScheduler.tick *)
Definition tick_job (now : Time) (j : PeriodicJob) : PeriodicJob * list (string * Time) :=
  let next := if pj_nextRun j =? zeroTime
              then (if pj_runOnStart j then now else pj_schedule j now) else pj_nextRun j in
  if negb (now <? next)
  then (j <| pj_nextRun := pj_schedule j now |>, [(pj_id j, next)])
  else (j <| pj_nextRun := next |>, []).

(* go: services/queue/periodic.go func:PeriodicJobScheduler.tick *)
Definition periodic_tick (now : Time) (jobs : list PeriodicJob) : list PeriodicJob * list (string * Time) :=
  (map (fun j => (tick_job now j).1) jobs, concat (map (fun j => (tick_job now j).2) jobs)).

(** ** The system *)

(** A worker, and the job it runs: [ho_until] is the end of its lease as it
    last renewed it. *)
Record Holder := mkHolder { ho_job : Job; ho_until : Time }.

(** [qw_ends]: how many runs of a job came to an end that was recorded. *)
Record World := mkWorld {
  qw_db : QueueTables;
  qw_now : Time;
  qw_held : gmap nat Holder;
  qw_ends : gmap string Z
}.

Definition empty_tables : QueueTables := mkQueueTables ∅ ∅ ∅ ∅.
Definition empty_queue (now : Time) : World := mkWorld empty_tables now ∅ ∅.

Definition ends_of (id : string) (w : World) : Z := default 0 (qw_ends w !! id).

(** The first [n] statements of an ending, whose first one is about the job. *)
Definition recorded (n : nat) (l : list (QueueTables -> option QueueTables)) (db : QueueTables) : bool :=
  match n, l with
  | S _, f :: _ => bool_decide (is_Some (f db))
  | _, _ => false
  end.

Section System.
Context (name_uuid : string -> string) (handlers : gset string) (worker : nat -> string).

(** What happens: dispatches, claims, renewals, ends and deaths of the
    workers, cancellations; [n] statements of an ending succeed.  When
    [prompt], no worker outlives the lease it holds. *)
Inductive queue_step (prompt : bool) : World -> World -> Prop :=
| step_dispatch w key kind serverID nodeID payload priority id :
    queue_step prompt w
      (mkWorld (DispatchIdempotent name_uuid handlers key kind serverID nodeID payload priority id
                  (qw_now w) (qw_db w)).2 (qw_now w) (qw_held w) (qw_ends w))
| step_dequeue w g nodeID skip oks job db' :
    qw_held w !! g = None ->
    Dequeue name_uuid nodeID (worker g) job_lease skip oks (qw_now w) (qw_db w) = (Got (Some job), db') ->
    queue_step prompt w
      (mkWorld db' (qw_now w) (<[g := mkHolder job (qw_now w + job_lease)]> (qw_held w)) (qw_ends w))
| step_beat w g h :
    qw_held w !! g = Some h ->
    queue_step prompt w
      (mkWorld (Heartbeat (j_ID (ho_job h)) (worker g) job_lease (qw_now w) (qw_db w)) (qw_now w)
         (<[g := mkHolder (ho_job h) (qw_now w + job_lease)]> (qw_held w)) (qw_ends w))
| step_finish w g h o n :
    qw_held w !! g = Some h ->
    queue_step prompt w
      (mkWorld (statements n (process (ho_job h) o (qw_now w)) (qw_db w)) (qw_now w) (delete g (qw_held w))
         (if recorded n (process (ho_job h) o (qw_now w)) (qw_db w)
          then <[j_ID (ho_job h) := ends_of (j_ID (ho_job h)) w + 1]> (qw_ends w) else qw_ends w))
| step_crash w g :
    queue_step prompt w (mkWorld (qw_db w) (qw_now w) (delete g (qw_held w)) (qw_ends w))
| step_cancel w id n :
    queue_step prompt w (mkWorld (statements n (Cancel id (qw_now w)) (qw_db w)) (qw_now w) (qw_held w) (qw_ends w))
| step_tick w t :
    qw_now w <= t ->
    (prompt = true -> forall g h, qw_held w !! g = Some h -> t <= ho_until h) ->
    queue_step prompt w (mkWorld (qw_db w) t (qw_held w) (qw_ends w)).

(** ** Lemmas *)

Definition queue_reachable (prompt : bool) (now : Time) (w : World) : Prop :=
  rtc (queue_step prompt) (empty_queue now) w.

Lemma recorded_of_jobs oks w j db : q_jobs (recorded_of oks (claim_records name_uuid w j) db) = q_jobs db.
Proof.
  assert (Hl : Forall (fun f => forall d, q_jobs (f d) = q_jobs d) (claim_records name_uuid w j)).
  { repeat constructor; intros d; cbn; try done. repeat case_match; done. }
  revert Hl db. generalize (claim_records name_uuid w j) as l. induction oks as [|ok oks IH]; intros [|f l] Hl db;
    cbn [recorded_of]; try done. apply Forall_cons in Hl as [Hf Hl]. rewrite IH by done. destruct ok; [apply Hf|done].
Qed.

(** Only the first statement of an ending is about the job. *)
Lemma statements_jobs n f l db :
  Forall (fun g => forall d d', g d = Some d' -> q_jobs d' = q_jobs d) l ->
  q_jobs (statements n (f :: l) db) =
  match n with O => q_jobs db | S _ => match f db with Some db' => q_jobs db' | None => q_jobs db end end.
Proof.
  intros Hl. destruct n as [|n]; cbn [statements]; [done|]. destruct (f db) as [d|]; [|done]. clear f db.
  revert n d. induction Hl as [|g l Hg Hl IH]; intros [|n] d; cbn [statements]; try done.
  destruct (g d) as [d'|] eqn:E; [|done]. rewrite IH. by apply Hg.
Qed.

Lemma close_attempts_jobs id s e db : q_jobs (close_attempts id s e db) = q_jobs db.
Proof. unfold close_attempts. by case_match. Qed.

Lemma records_jobs (id a b c : string) f g :
  Forall (fun g => forall d d', g d = Some d' -> q_jobs d' = q_jobs d)
    [fun db => Some (set_operation id f db); fun db => Some (set_step id g db);
     fun db => Some (close_attempts a b c db)].
Proof. repeat constructor; intros d d' [= <-]; try done. apply close_attempts_jobs. Qed.

(** What an ending that was recorded leaves of the row [j]. *)
Definition ended_row (job j j' : Job) : Prop :=
  j_ID j' = j_ID j /\ j_MaxRetries j' = j_MaxRetries j /\
  ((j_Status j' = JobPending /\ j_RetryCount j' = j_RetryCount j + 1 /\
    iadd (j_RetryCount job) 1 < j_MaxRetries job) \/
   ((j_Status j' = JobCompleted \/ j_Status j' = JobFailed) /\ j_RetryCount j' = j_RetryCount j)).

Definition alter_if (b : bool) (f : Job -> Job) (id : string) (m : gmap string Job) : gmap string Job :=
  if b then alter f id m else m.

Lemma alter_if_lookup b f id m k :
  alter_if b f id m !! k = if b && bool_decide (k = id) then f <$> m !! k else m !! k.
Proof.
  unfold alter_if. destruct b; cbn [andb]; [|done]. case_bool_decide as E; [subst; apply lookup_alter_eq|].
  by apply lookup_alter_ne.
Qed.

Lemma Fail_jobs n id msg now db :
  q_jobs (statements n (Fail_ id msg now) db) =
  alter_if (recorded n (Fail_ id msg now) db)
    (fun j => j <| j_Status := JobFailed |> <| j_Error := msg |> <| j_CompletedAt := Some now |>
                <| j_LockedBy := None |> <| j_LockedUntil := None |>) id (q_jobs db).
Proof. unfold Fail_. rewrite (statements_jobs _ _ _ _ (records_jobs _ _ _ _ _ _)). by destruct n. Qed.

Lemma reactivate_jobs id f db db' : reactivate id f db = Some db' -> q_jobs db' = alter f id (q_jobs db).
Proof.
  unfold reactivate. destruct (q_jobs db !! id) as [j|] eqn:E; [|intros [= <-]; symmetry; apply alter_id; congruence].
  case_match; [done|]. intros [= <-]. apply map_eq. intros k. change (<[id := f j]> (q_jobs db) !! k = alter f id (q_jobs db) !! k). destruct (decide (k = id)) as [->|].
  - by rewrite lookup_insert_eq, lookup_alter_eq, E.
  - by rewrite lookup_insert_ne, lookup_alter_ne by done.
Qed.

Lemma process_jobs n job o now db :
  exists f, q_jobs (statements n (process job o now) db) =
              alter_if (recorded n (process job o now) db) f (j_ID job) (q_jobs db) /\
            forall j, ended_row job j (f j).
Proof.
  assert (Hfail : forall msg, exists f,
    q_jobs (statements n (Fail_ (j_ID job) msg now) db) =
      alter_if (recorded n (Fail_ (j_ID job) msg now) db) f (j_ID job) (q_jobs db) /\ forall j, ended_row job j (f j)).
  { intros msg. eexists. split; [apply Fail_jobs|]. intros j. repeat split; right; split; auto. }
  assert (Herr : forall msg, exists f,
    q_jobs (statements n (after_error job msg now) db) =
      alter_if (recorded n (after_error job msg now) db) f (j_ID job) (q_jobs db) /\ forall j, ended_row job j (f j)).
  { intros msg. unfold after_error. destruct (_ <=? _) eqn:E; [apply Hfail|]. apply Z.leb_gt in E.
    eexists. split.
    - unfold Retry. rewrite (statements_jobs _ _ _ _ (records_jobs _ _ _ _ _ _)). destruct n; cbn [recorded]; [done|].
      match goal with |- context [reactivate ?i ?f db] => destruct (reactivate i f db) eqn:R end.
      + by apply reactivate_jobs.
      + done.
    - intros j. repeat split; left; auto. }
  destruct o; cbn [process]; auto.
  eexists. split.
  - unfold Acknowledge. rewrite (statements_jobs _ _ _ _ (records_jobs _ _ _ _ _ _)). destruct n; cbn; [done|]. done.
  - intros j. repeat split; right; auto.
Qed.

Lemma dispatch_jobs key kind serverID nodeID payload priority id now db :
  q_jobs (DispatchIdempotent name_uuid handlers key kind serverID nodeID payload priority id now db).2 = q_jobs db \/
  exists k job, (forall j, j ∈ values (q_jobs db) -> j_ID j <> k) /\ j_ID job = k /\ j_Status job = JobPending /\
    j_MaxRetries job = 3 /\ j_RetryCount job = 0 /\
    q_jobs (DispatchIdempotent name_uuid handlers key kind serverID nodeID payload priority id now db).2 =
      <[k := job]> (q_jobs db).
Proof.
  unfold DispatchIdempotent. destruct (negb _); [by left|]. destruct payload as [data|e]; [|by left].
  match goal with |- context [Enqueue _ ?j db] => set (job := j) end.
  assert (E : (match Enqueue name_uuid job db with (Got _, db') => (Got job, db') | (Failed e, db') => (Failed e, db') end).2
              = (Enqueue name_uuid job db).2) by (by destruct (Enqueue name_uuid job db) as [[|] ?]).
  rewrite E. clear E.
  assert (E : q_jobs (Enqueue name_uuid job db).2 = q_jobs (insert_job job db)).
  { unfold Enqueue. change (j_MaxRetries job <=? 0) with false. cbn [snd].
    match goal with |- q_jobs (if ?c then _ else _) = _ => destruct c end; cbn; case_match; done. }
  rewrite E. clear E. unfold insert_job. destruct (conflicting job db) eqn:Ec; [by left|]. right.
  exists (j_ID job), job. repeat split; try done. intros j Hj Hid.
  apply (f_equal negb) in Ec. apply negb_true_iff in Ec. apply not_true_iff_false in Ec. apply Ec.
  apply existsb_exists. exists j. split; [by apply list_elem_of_In|]. unfold job_conflict. rewrite Hid, String.eqb_refl. done.
Qed.

Lemma dequeue_jobs nodeID workerID skip oks now db job db' :
  Dequeue name_uuid nodeID workerID job_lease skip oks now db = (Got (Some job), db') ->
  exists j, j ∈ values (q_jobs db) /\ runnable now nodeID j = true /\
    q_jobs db' = alter (fun _ => claimed workerID job_lease now j) (j_ID j) (q_jobs db) /\
    j_ID job = j_ID j /\ j_MaxRetries job = j_MaxRetries j /\ j_RetryCount job = j_RetryCount j.
Proof.
  unfold Dequeue. destruct (candidate now nodeID skip db) as [j|] eqn:E; [|done]. intros [= <- <-]. exists j.
  unfold candidate in E. apply head_Some_elem_of in E. rewrite isort_perm, list_elem_of_filter in E.
  destruct E as [[Hr _] Hj]. repeat split; try done. by rewrite recorded_of_jobs.
Qed.

(** ** The rows of every reachable state *)

Definition row_ok (id : string) (j : Job) : Prop :=
  j_ID j = id /\ j_MaxRetries j = 3 /\ (j_Status j = JobRunning -> is_Some (j_LockedUntil j)).

Definition rows_ok (db : QueueTables) : Prop := forall id j, q_jobs db !! id = Some j -> row_ok id j.

Lemma rows_ok_key db j : rows_ok db -> j ∈ values (q_jobs db) -> q_jobs db !! j_ID j = Some j.
Proof. intros Hr [k Hk]%elem_of_values. by destruct (Hr _ _ Hk) as [-> _]. Qed.

(** A change of one row keeps them well formed. *)
Lemma rows_ok_alter db db' b f id :
  q_jobs db' = alter_if b f id (q_jobs db) ->
  (forall j, row_ok id j -> row_ok id (f j)) -> rows_ok db -> rows_ok db'.
Proof.
  intros E Hf Hr k j. rewrite E, alter_if_lookup. case_bool_decide as Ek; [|rewrite andb_false_r; apply Hr].
  subst k. destruct b; cbn [andb]; [|apply Hr]. rewrite fmap_Some. intros (j0 & Hj0 & ->). apply Hf, Hr, Hj0.
Qed.

Lemma ended_row_ok job j j' id : ended_row job j j' -> row_ok id j -> row_ok id j'.
Proof. intros (Hi & Hm & Hs) (Hi' & Hm' & _). repeat split; try congruence. intros E. destruct Hs as [[Hs _]|[[Hs|Hs] _]]; congruence. Qed.

Lemma failed_row_ok id j msg now :
  row_ok id j ->
  row_ok id (j <| j_Status := JobFailed |> <| j_Error := msg |> <| j_CompletedAt := Some now |>
               <| j_LockedBy := None |> <| j_LockedUntil := None |>).
Proof. intros (Hi & Hm & _). repeat split; [exact Hi|exact Hm|done]. Qed.

Lemma rows_ok_step prompt w w' : queue_step prompt w w' -> rows_ok (qw_db w) -> rows_ok (qw_db w').
Proof.
  intros Hs Hr. destruct Hs as [w key kind sid nid pl pr id|w g nid skip oks job db' Hg Hd|w g h Hg|w g h o n Hg
                               |w g|w id n|w t Ht Hp]; cbn [qw_db]; try done.
  - destruct (dispatch_jobs key kind sid nid pl pr id (qw_now w) (qw_db w)) as [E|(k & job & _ & Hi & Hs & Hm & _ & E)];
      intros k' j; rewrite E; [apply Hr|]. intros [[<- <-]|[_ Hj]]%lookup_insert_Some; [|by apply Hr].
    repeat split; [done..|]. by rewrite Hs.
  - apply dequeue_jobs in Hd as (j & Hj & _ & E & _). apply (rows_ok_alter _ _ true _ _ E); [|done].
    intros _ _. destruct (Hr _ _ (rows_ok_key _ _ Hr Hj)) as (_ & Hm & _). repeat split; [exact Hm|]. by eexists.
  - eapply (rows_ok_alter _ _ true); [reflexivity| |done]. intros j (Hi & Hm & Hl). case_match; [|done].
    repeat split; [exact Hi|exact Hm|]. by eexists.
  - destruct (process_jobs n (ho_job h) o (qw_now w) (qw_db w)) as (f & E & Hf).
    eapply rows_ok_alter; [exact E| |done]. intros j Hj. eapply ended_row_ok; [apply Hf|done].
  - eapply rows_ok_alter; [apply Fail_jobs| |done]. intros j. apply failed_row_ok.
Qed.

Lemma rows_ok_reachable prompt now w : queue_reachable prompt now w -> rows_ok (qw_db w).
Proof.
  unfold queue_reachable. intros H. remember (empty_queue now) as w0 eqn:E0.
  assert (H0 : rows_ok (qw_db w0)) by (subst; intros id j Hj; cbn in Hj; by rewrite lookup_empty in Hj).
  clear E0. induction H as [|w w1 w2 Hs H IH]; [done|]. eapply IH, rows_ok_step; eauto.
Qed.

(** ** Prompt workers *)

Definition jobs_of (w : World) : gmap string Job := q_jobs (qw_db w).

Definition count_ok (oj : option Job) (ends : Z) : Prop :=
  match oj with
  | None => ends = 0
  | Some j => 0 <= j_RetryCount j < 3 /\ 0 <= ends <= j_RetryCount j + 1 /\
              (active (j_Status j) = true -> ends = j_RetryCount j)
  end.

(** The row of a job that is run. *)
Definition held_ok (oj : option Job) (now : Time) (ends : Z) (g : nat) (h : Holder) : Prop :=
  exists j, oj = Some j /\ j_MaxRetries (ho_job h) = 3 /\
    j_RetryCount (ho_job h) = j_RetryCount j /\ ends = j_RetryCount j /\ now <= ho_until h /\
    (j_Status j = JobRunning /\ j_LockedBy j = Some (worker g) /\ j_LockedUntil j = Some (ho_until h) \/
     j_Status j = JobFailed).

Definition one_holder (held : gmap nat Holder) : Prop :=
  forall g g' h h', held !! g = Some h -> held !! g' = Some h' -> j_ID (ho_job h) = j_ID (ho_job h') -> g = g'.

Definition held_ok_in (w : World) (g : nat) (h : Holder) : Prop :=
  held_ok (jobs_of w !! j_ID (ho_job h)) (qw_now w) (ends_of (j_ID (ho_job h)) w) g h.

Definition sound (w : World) : Prop :=
  rows_ok (qw_db w) /\ (forall id, count_ok (jobs_of w !! id) (ends_of id w)) /\
  (forall g h, qw_held w !! g = Some h -> held_ok_in w g h) /\ one_holder (qw_held w).

(** A step that changes at most the job [id]. *)
Lemma sound_at id w w' :
  sound w -> rows_ok (qw_db w') -> qw_now w' = qw_now w ->
  (forall k, k <> id -> jobs_of w' !! k = jobs_of w !! k /\ ends_of k w' = ends_of k w) ->
  count_ok (jobs_of w' !! id) (ends_of id w') ->
  (forall g h, qw_held w' !! g = Some h ->
     qw_held w !! g = Some h /\ j_ID (ho_job h) <> id \/ j_ID (ho_job h) = id /\ held_ok_in w' g h) ->
  one_holder (qw_held w') -> sound w'.
Proof.
  intros (_ & Hc & Hh & _) Hr Hnow Hk Hid Hheld Ho. split; [done|split; [|split; [|done]]].
  - intros k. destruct (decide (k = id)) as [->|Nk]; [done|]. destruct (Hk k Nk) as [-> ->]. apply Hc.
  - intros g h Hg. destruct (Hheld g h Hg) as [[Hg0 N]|[_ H]]; [|done].
    unfold held_ok_in. rewrite Hnow. destruct (Hk _ N) as [-> ->]. by apply Hh.
Qed.

Lemma one_holder_insert held g h :
  one_holder held -> (forall g' h', g' <> g -> held !! g' = Some h' -> j_ID (ho_job h') <> j_ID (ho_job h)) ->
  one_holder (<[g := h]> held).
Proof.
  intros Ho Hn g1 g2 h1 h2 [[<- <-]|[N1 H1]]%lookup_insert_Some [[<- <-]|[N2 H2]]%lookup_insert_Some E.
  - done.
  - exfalso. by eapply Hn.
  - exfalso. by eapply Hn.
  - by eapply Ho.
Qed.

Lemma one_holder_delete held g : one_holder held -> one_holder (delete g held).
Proof. intros Ho g1 g2 h1 h2 [_ H1]%lookup_delete_Some [_ H2]%lookup_delete_Some. by eapply Ho. Qed.

Lemma sound_dispatch w key kind sid nid pl pr id :
  sound w ->
  sound (mkWorld (DispatchIdempotent name_uuid handlers key kind sid nid pl pr id (qw_now w) (qw_db w)).2
           (qw_now w) (qw_held w) (qw_ends w)).
Proof.
  intros Hw. assert (Hr : rows_ok (qw_db w)) by apply Hw. pose proof Hw as (_ & Hc & Hh & Ho).
  set (w' := mkWorld _ _ _ _). assert (Hr' : rows_ok (qw_db w')) by (eapply (rows_ok_step true), Hr; constructor).
  destruct (dispatch_jobs key kind sid nid pl pr id (qw_now w) (qw_db w)) as [E|(k & job & Hn & Hi & Hs & Hm & Hz & E)];
    fold (jobs_of w) in E; change (jobs_of w' = jobs_of w) in E || change (jobs_of w' = <[k := job]> (jobs_of w)) in E.
  { split; [done|split; [|split; [|done]]].
    - intros k. rewrite E. apply Hc.
    - intros g h Hg. unfold held_ok_in. rewrite E. by apply Hh. }
  assert (Hk : jobs_of w !! k = None).
  { destruct (jobs_of w !! k) as [j|] eqn:Ej; [|done]. exfalso. apply (Hn j); [apply elem_of_values; eauto|].
    apply (Hr _ _ Ej). }
  apply (sound_at k w); try done.
  - intros k' Nk. by rewrite E, lookup_insert_ne.
  - rewrite E, lookup_insert_eq. specialize (Hc k). rewrite Hk in Hc. cbn in Hc.
    change (ends_of k w') with (ends_of k w). rewrite Hc. cbn. rewrite Hz. lia.
  - intros g h Hg. left. split; [done|]. intros Eg. destruct (Hh g h Hg) as (j & Hj & _). congruence.
Qed.

Lemma runnable_unheld w g h j nodeID :
  sound w -> qw_held w !! g = Some h -> jobs_of w !! j_ID (ho_job h) = Some j ->
  runnable (qw_now w) nodeID j = true -> False.
Proof.
  intros (_ & _ & Hh & _) Hg Hj Hr. destruct (Hh g h Hg) as (j' & Hj' & _ & _ & _ & Hn & Hs).
  assert (j' = j) as -> by congruence. unfold runnable in Hr. apply andb_prop in Hr as [Hr _].
  destruct Hs as [(E & _ & Hl)|E]; rewrite E in Hr; [|done]. rewrite Hl in Hr. cbn in Hr.
  apply Z.ltb_lt in Hr. lia.
Qed.

Lemma sound_dequeue w g nodeID skip oks job db' :
  sound w -> qw_held w !! g = None ->
  Dequeue name_uuid nodeID (worker g) job_lease skip oks (qw_now w) (qw_db w) = (Got (Some job), db') ->
  sound (mkWorld db' (qw_now w) (<[g := mkHolder job (qw_now w + job_lease)]> (qw_held w)) (qw_ends w)).
Proof.
  intros Hw Hg Hd. assert (Hr : rows_ok (qw_db w)) by apply Hw. pose proof Hw as (_ & Hc & Hh & Ho).
  set (w' := mkWorld _ _ _ _).
  assert (Hr' : rows_ok (qw_db w')) by (eapply (rows_ok_step true), Hr; econstructor; eassumption).
  apply dequeue_jobs in Hd as (j & Hj & Hrun & E & Hi & Hm & Hrc). pose proof (rows_ok_key _ _ Hr Hj) as Hrow.
  change (jobs_of w !! j_ID j = Some j) in Hrow.
  change (jobs_of w' = alter (fun _ => claimed (worker g) job_lease (qw_now w) j) (j_ID j) (jobs_of w)) in E.
  assert (Hnew : jobs_of w' !! j_ID j = Some (claimed (worker g) job_lease (qw_now w) j)).
  { by rewrite E, lookup_alter_eq, Hrow. }
  assert (Hfree : forall g' h', qw_held w !! g' = Some h' -> j_ID (ho_job h') <> j_ID j).
  { intros g' h' Hg' Ei. eapply runnable_unheld; [exact Hw|exact Hg'| |exact Hrun]. by rewrite Ei. }
  assert (Hends : ends_of (j_ID j) w = j_RetryCount j).
  { specialize (Hc (j_ID j)). rewrite Hrow in Hc. apply Hc. unfold runnable in Hrun. apply andb_prop in Hrun as [Hrun _].
    unfold active. apply bool_decide_eq_true. apply orb_prop in Hrun as [H|H]; apply andb_prop in H as [H _];
      apply bool_decide_eq_true in H; auto. }
  apply (sound_at (j_ID j) w); try done.
  - intros k Nk. by rewrite E, lookup_alter_ne.
  - rewrite Hnew. specialize (Hc (j_ID j)). rewrite Hrow in Hc. destruct Hc as (H1 & H2 & H3). cbn.
    change (ends_of (j_ID j) w') with (ends_of (j_ID j) w). rewrite Hends. repeat split; lia.
  - intros g' h' Hg'. apply (lookup_insert_Some (qw_held w)) in Hg' as [[<- <-]|[N Hg']];
      [right|left; split; [done|by eapply Hfree]].
    split; [done|]. unfold held_ok_in. cbn [ho_job]. rewrite Hi, Hnew. eexists. split; [done|].
    change (ends_of (j_ID j) w') with (ends_of (j_ID j) w). cbn. destruct (Hr _ _ Hrow) as (_ & Hm3 & _).
    repeat split; try congruence; [unfold job_lease, Second; lia|left; by repeat split].
  - apply one_holder_insert; [done|]. intros g' h' _ Hg' Ei. eapply Hfree; [exact Hg'|]. cbn in Ei. congruence.
Qed.

Lemma sound_beat w g h :
  sound w -> qw_held w !! g = Some h ->
  sound (mkWorld (Heartbeat (j_ID (ho_job h)) (worker g) job_lease (qw_now w) (qw_db w)) (qw_now w)
           (<[g := mkHolder (ho_job h) (qw_now w + job_lease)]> (qw_held w)) (qw_ends w)).
Proof.
  intros Hw Hg. assert (Hr : rows_ok (qw_db w)) by apply Hw. pose proof Hw as (_ & Hc & Hh & Ho).
  set (w' := mkWorld _ _ _ _).
  assert (Hr' : rows_ok (qw_db w')) by (eapply (rows_ok_step true), Hr; by constructor).
  destruct (Hh g h Hg) as (j & Hj & Hm & Hrc & He & Hn & Hs). set (id := j_ID (ho_job h)) in *.
  assert (E : exists f, jobs_of w' = alter f id (jobs_of w) /\
    f j = (if bool_decide (j_Status j = JobRunning) && bool_decide (j_LockedBy j = Some (worker g))
           then j <| j_LockedUntil := Some (qw_now w + job_lease) |> else j)) by (eexists; split; reflexivity).
  destruct E as (f & E & Ef).
  assert (Hnew : jobs_of w' !! id = Some (f j)) by (by rewrite E, lookup_alter_eq, Hj).
  assert (Hsame : j_RetryCount (f j) = j_RetryCount j /\ j_Status (f j) = j_Status j).
  { rewrite Ef. by case_match. }
  destruct Hsame as [Hrc' Hst'].
  apply (sound_at id w); try done.
  - intros k Nk. by rewrite E, lookup_alter_ne.
  - rewrite Hnew. specialize (Hc id). rewrite Hj in Hc. unfold count_ok in *. by rewrite Hrc', Hst'.
  - intros g' h' Hg'. apply (lookup_insert_Some (qw_held w)) in Hg' as [[<- <-]|[N Hg']]; [right|left].
    + split; [done|]. exists (f j). split; [exact Hnew|]. rewrite Hrc', Hst'. repeat split; try done.
      * cbn. unfold job_lease, Second. lia.
      * destruct Hs as [(Hs & Hb & Hl)|Hs]; [left|by right]. rewrite Ef, Hs, Hb, !bool_decide_true by done. done.
    + split; [done|]. intros Ei. apply N. by eapply Ho.
  - apply one_holder_insert; [done|]. intros g' h' N Hg' Ei. apply N. by eapply Ho.
Qed.

Lemma sound_finish w g h o n :
  sound w -> qw_held w !! g = Some h ->
  sound (mkWorld (statements n (process (ho_job h) o (qw_now w)) (qw_db w)) (qw_now w) (delete g (qw_held w))
           (if recorded n (process (ho_job h) o (qw_now w)) (qw_db w)
            then <[j_ID (ho_job h) := ends_of (j_ID (ho_job h)) w + 1]> (qw_ends w) else qw_ends w)).
Proof.
  intros Hw Hg. assert (Hr : rows_ok (qw_db w)) by apply Hw. pose proof Hw as (_ & Hc & Hh & Ho).
  set (w' := mkWorld _ _ _ _).
  assert (Hr' : rows_ok (qw_db w')) by (eapply (rows_ok_step true), Hr; by constructor).
  destruct (Hh g h Hg) as (j & Hj & Hm & Hrc & He & Hn & Hs).
  destruct (process_jobs n (ho_job h) o (qw_now w) (qw_db w)) as (f & E & Hf). set (id := j_ID (ho_job h)) in *.
  change (jobs_of w' = alter_if (recorded n (process (ho_job h) o (qw_now w)) (qw_db w)) f id (jobs_of w)) in E.
  assert (Hends : forall k, ends_of k w' =
    if recorded n (process (ho_job h) o (qw_now w)) (qw_db w) && bool_decide (k = id)
    then ends_of id w + 1 else ends_of k w).
  { intros k. unfold ends_of, w' at 1. cbn [qw_ends]. destruct (recorded _ _ _); cbn [andb]; [|done].
    case_bool_decide as Ek; [by rewrite Ek, lookup_insert_eq|by rewrite lookup_insert_ne by congruence]. }
  apply (sound_at id w); try done.
  - intros k Nk. by rewrite E, alter_if_lookup, Hends, bool_decide_false, andb_false_r by done.
  - rewrite E, alter_if_lookup, Hends, bool_decide_true, andb_true_r, Hj by done. specialize (Hc id). rewrite Hj in Hc.
    destruct (recorded _ _ _); [|exact Hc]. destruct Hc as (H1 & H2 & H3). destruct (Hf j) as (_ & _ & Hfj).
    cbn [fmap option_fmap option_map count_ok]. rewrite He. rewrite Hrc, Hm in Hfj.
    destruct Hfj as [(Hst & -> & Hlt)|(Hst & ->)].
    + rewrite iadd_exact in Hlt by (unfold in64, min64, max64; lia). repeat split; lia.
    + repeat split; try lia. intros Ha. apply bool_decide_eq_true in Ha. by destruct Hst as [Hst|Hst], Ha as [Ha|Ha]; rewrite Hst in Ha.
  - intros g' h' Hg'. apply (lookup_delete_Some (qw_held w)) in Hg' as [N Hg']. left. split; [done|].
    intros Ei. apply N. by eapply Ho.
  - by apply one_holder_delete.
Qed.

Lemma sound_cancel w id n :
  sound w -> sound (mkWorld (statements n (Cancel id (qw_now w)) (qw_db w)) (qw_now w) (qw_held w) (qw_ends w)).
Proof.
  intros Hw. assert (Hr : rows_ok (qw_db w)) by apply Hw. pose proof Hw as (_ & Hc & Hh & Ho).
  set (w' := mkWorld _ _ _ _).
  assert (Hr' : rows_ok (qw_db w')) by (eapply (rows_ok_step true), Hr; by constructor).
  pose proof (Fail_jobs n id "job cancelled" (qw_now w) (qw_db w)) as E.
  match type of E with _ = alter_if ?b ?f _ _ => set (rec := b) in E; set (fl := f) in E end.
  change (jobs_of w' = alter_if rec fl id (jobs_of w)) in E.
  apply (sound_at id w); try done.
  - intros k Nk. by rewrite E, alter_if_lookup, bool_decide_false, andb_false_r by done.
  - rewrite E, alter_if_lookup, bool_decide_true, andb_true_r by done. specialize (Hc id).
    change (ends_of id w') with (ends_of id w). destruct rec; [|done]. destruct (jobs_of w !! id) as [j|]; [|done].
    destruct Hc as (H1 & H2 & H3). split; [exact H1|split; [exact H2|]]. by intros Ha%bool_decide_eq_true; destruct Ha.
  - intros g h Hg. destruct (decide (j_ID (ho_job h) = id)) as [Ei|Ei]; [right|by left]. split; [done|].
    destruct (Hh g h Hg) as (j & Hj & Hm & Hrc & He & Hn & Hs). unfold held_ok_in.
    rewrite E, alter_if_lookup, Ei, bool_decide_true, andb_true_r by done. rewrite Ei in Hj, He. rewrite Hj.
    destruct rec.
    + exists (fl j). repeat split; try done. by right.
    + exists j. by repeat split.
Qed.

Lemma sound_step w w' : queue_step true w w' -> sound w -> sound w'.
Proof.
  intros Hs Hw. destruct Hs as [w key kind sid nid pl pr id|w g nid skip oks job db' Hg Hd|w g h Hg|w g h o n Hg
                               |w g|w id n|w t Ht Hp].
  - by apply sound_dispatch.
  - by eapply sound_dequeue.
  - by apply sound_beat.
  - by apply sound_finish.
  - destruct Hw as (Hr & Hc & Hh & Ho). split; [done|split; [done|split]]; [|by apply one_holder_delete].
    intros g' h' Hg'. apply (lookup_delete_Some (qw_held w)) in Hg' as [_ Hg']. by apply (Hh g' h').
  - by apply sound_cancel.
  - destruct Hw as (Hr & Hc & Hh & Ho). split; [done|split; [done|split; [|done]]].
    intros g h Hg. destruct (Hh g h Hg) as (j & H1 & H2 & H3 & H4 & _ & H6). exists j.
    repeat split; try done. by eapply Hp.
Qed.

Lemma sound_empty now : sound (empty_queue now).
Proof.
  repeat split; try done; intros *; unfold jobs_of; cbn; try (by rewrite lookup_empty); by rewrite ?lookup_empty.
Qed.

Lemma sound_reachable now w : queue_reachable true now w -> sound w.
Proof.
  unfold queue_reachable. intros H. remember (empty_queue now) as w0 eqn:E0.
  assert (H0 : sound w0) by (subst; apply sound_empty). clear E0.
  induction H as [|w w1 w2 Hs H IH]; [done|]. eapply IH, sound_step; eauto.
Qed.
End System.

Lemma served_first_asym a b : served_first a b = true -> served_first b a = false.
Proof. unfold served_first. lia. Qed.

Lemma served_first_ntrans a b c : served_first b a = false -> served_first c b = false -> served_first c a = false.
Proof. unfold served_first. lia. Qed.

Lemma candidate_some now nodeID skip db j :
  candidate now nodeID skip db = Some j ->
  j ∈ values (q_jobs db) /\ runnable now nodeID j = true /\ j_ID j ∉ skip /\
  forall k, k ∈ values (q_jobs db) -> runnable now nodeID k = true -> j_ID k ∉ skip -> served_first k j = false.
Proof.
  unfold candidate. set (l := filter _ _). intros Hc. destruct l as [|x l'] eqn:El; [done|].
  destruct (isort_head served_first (fun _ => True)) with (x := x) (l := l') as (h & t & l1 & l2 & E & Hl & H1 & H2).
  { intros a b _ _. apply served_first_asym. }
  { intros a b c _ _ _. apply served_first_ntrans. }
  { by apply Forall_forall. }
  rewrite E in Hc. cbn in Hc. injection Hc as ->.
  assert (Hin : forall k, k ∈ l <-> (runnable now nodeID k = true /\ j_ID k ∉ skip) /\ k ∈ values (q_jobs db))
    by (intros k; unfold l; by rewrite list_elem_of_filter).
  rewrite El in Hin. assert (Hj : j ∈ x :: l') by (rewrite Hl; set_solver). apply Hin in Hj as [[Hr Hs] Hj].
  repeat split; try done. intros k Hk Hkr Hks. assert (Hkl : k ∈ x :: l') by (by apply Hin).
  rewrite Hl in Hkl. apply elem_of_app in Hkl as [Hk1|[->|Hk2]%elem_of_cons]; [by apply served_first_asym, H1| |by apply H2].
  unfold served_first. lia.
Qed.

Lemma candidate_none now nodeID skip db :
  candidate now nodeID skip db = None ->
  forall k, k ∈ values (q_jobs db) -> runnable now nodeID k = true -> j_ID k ∈ skip.
Proof.
  unfold candidate. intros Hc k Hk Hr. destruct (decide (j_ID k ∈ skip)) as [|N]; [done|]. exfalso.
  set (l := filter _ _) in Hc. assert (Hkl : k ∈ isort served_first l).
  { rewrite isort_perm. by apply list_elem_of_filter. }
  destruct (isort served_first l); [by apply elem_of_nil in Hkl|done].
Qed.

(** ** The theorems *)

Section Correctness.
Context (name_uuid : string -> string) (handlers : gset string) (worker : nat -> string).

(** C22: While no worker outlives the lease it holds, a job is run by at most
    one worker at a time, whatever jobs are dispatched and cancelled, whichever
    workers die and whichever statements fail; and of its runs at most three come
    to an end that the tables record (a run that dies, or whose closing
    statement fails, is not counted by the code either: its job runs again once
    the lease has expired, any number of times).  A job that is run is leased to
    its worker, unless it was cancelled. *)
Theorem one_run_at_a_time now w :
  queue_reachable name_uuid handlers worker true now w ->
  (forall g g' h h', qw_held w !! g = Some h -> qw_held w !! g' = Some h' ->
     j_ID (ho_job h) = j_ID (ho_job h') -> g = g') /\
  (forall id, ends_of id w <= 3) /\
  (forall g h, qw_held w !! g = Some h ->
     exists j, q_jobs (qw_db w) !! j_ID (ho_job h) = Some j /\ qw_now w <= ho_until h /\
       (j_Status j = JobRunning /\ j_LockedBy j = Some (worker g) /\ j_LockedUntil j = Some (ho_until h) \/
        j_Status j = JobFailed)).
Proof.
  intros H. destruct (sound_reachable _ _ _ _ _ H) as (_ & Hc & Hh & Ho). split_and!; [exact Ho| |].
  - intros id. specialize (Hc id). unfold count_ok in Hc. case_match; lia.
  - intros g h Hg. destruct (Hh g h Hg) as (j & Hj & _ & _ & _ & Hn & Hs). eauto.
Qed.

(** C31: No job is stuck: whatever happened, crashes and failed statements
    included, a job that is pending or running becomes runnable at some time,
    if its row is left alone; from then on a worker that asks, with nobody else
    at the tables, gets a job, and it is this one unless the one it gets comes no
    later in the order of the queue. *)
Theorem no_job_is_stuck prompt now w id j :
  queue_reachable name_uuid handlers worker prompt now w ->
  q_jobs (qw_db w) !! id = Some j -> active (j_Status j) = true ->
  exists t0, forall t workerID oks, t0 <= t ->
    runnable t "" j = true /\
    exists job db' k, Dequeue name_uuid "" workerID job_lease ∅ oks t (qw_db w) = (Got (Some job), db') /\
      q_jobs (qw_db w) !! j_ID job = Some k /\ runnable t "" k = true /\ served_first j k = false.
Proof.
  intros Hw Hj Ha. assert (Hr : rows_ok (qw_db w)) by (eapply rows_ok_reachable; eauto).
  assert (E : exists t0, forall t, t0 <= t -> runnable t "" j = true).
  { destruct (Hr id j Hj) as (_ & _ & Hl). apply bool_decide_eq_true in Ha as [Ha|Ha].
    - exists (j_AvailableAt j). intros t Ht. unfold runnable. rewrite Ha. cbn. rewrite andb_true_r, orb_false_r.
      by apply Z.leb_le.
    - destruct (Hl Ha) as [u Hu]. exists (u + 1). intros t Ht. unfold runnable. rewrite Ha, Hu. cbn.
      rewrite andb_true_r. apply Z.ltb_lt. lia. }
  destruct E as [t0 Ht0]. exists t0. intros t workerID oks Ht. split; [by apply Ht0|].
  assert (Hjv : j ∈ values (q_jobs (qw_db w))) by (apply elem_of_values; eauto).
  destruct (candidate t "" ∅ (qw_db w)) as [k|] eqn:Ec.
  - pose proof (candidate_some _ _ _ _ _ Ec) as (Hk & Hkr & _ & Hbest). unfold Dequeue. rewrite Ec.
    eexists _, _, k. split; [reflexivity|]. split_and!; [exact (rows_ok_key _ _ Hr Hk)|done|].
    apply Hbest; [done|by apply Ht0|set_solver].
  - exfalso. pose proof (candidate_none _ _ _ _ Ec j Hjv (Ht0 t Ht)). set_solver.
Qed.
End Correctness.

(** ** Examples, and what goes wrong *)

Definition example_handlers : gset string := {["compose.deploy"]}.
Definition deploy (id payload : string) (now : Time) (db : QueueTables) : answer Job * QueueTables :=
  Dispatch (fun s => s) example_handlers "compose.deploy" "" "" (Ok payload) 0 id now db.
Definition ask (now : Time) (db : QueueTables) : answer (option Job) * QueueTables :=
  Dequeue (fun s => s) "" "worker" job_lease ∅ [true; true; true] now db.

Definition queue_db1 : QueueTables := (deploy "job-1" "app" 0 empty_tables).2.
Definition queue_job1 : Job := match (ask 1 queue_db1).1 with Got (Some j) => j | _ => mkJob "" "" JobFailed None None "" "" 0 0 0 None 0 None None 0 None None end.
Definition queue_db2 : QueueTables := (ask 1 queue_db1).2.
Definition queue_w2 : World := mkWorld queue_db2 1 {[0%nat := mkHolder queue_job1 (1 + job_lease)]} ∅.

Lemma queue_w2_reachable : queue_reachable (fun s => s) example_handlers (fun _ => "worker") true 0 queue_w2.
Proof.
  eapply rtc_l; [apply (step_dispatch _ _ _ _ (empty_queue 0) "" "compose.deploy" "" "" (Ok "app") 0 "job-1")|].
  eapply rtc_l; [apply step_tick with (t := 1); [done|]; intros _ g h Hg; cbn in Hg; by rewrite lookup_empty in Hg|].
  apply rtc_once. eapply (step_dequeue _ _ _ _ (mkWorld queue_db1 1 ∅ ∅) 0%nat "" ∅ [true; true; true]); [done|].
  by vm_compute.
Qed.

Lemma one_run_at_a_time_witness : ends_of "job-1" queue_w2 <= 3.
Proof. apply (one_run_at_a_time _ _ _ 0 queue_w2 queue_w2_reachable). Defined.

Lemma no_job_is_stuck_witness :
  exists t0, forall t, t0 <= t -> runnable t "" (claimed "worker" job_lease 1 (default queue_job1 (q_jobs queue_db1 !! "job-1"))) = true.
Proof.
  destruct (no_job_is_stuck _ _ _ true 0 queue_w2 "job-1" (default queue_job1 (q_jobs queue_db2 !! "job-1"))
              queue_w2_reachable) as [t0 Ht0]; [by vm_compute..|].
  exists t0. intros t Ht. by destruct (Ht0 t "worker" [] Ht) as [H _].
Defined.

(** A job that was cancelled while it ran is retried: the interrupted handler
    returns an error. *)
Lemma cancelled_job_runs_again :
  let db3 := statements 4 (Cancel "job-1" 2) queue_db2 in
  let db4 := statements 4 (process queue_job1 (HandlerError "context canceled") 3) db3 in
  option_map j_Status (q_jobs db3 !! "job-1") = Some JobFailed /\
  exists job, (ask (10 * Second) db4).1 = Got (Some job) /\ j_ID job = "job-1".
Proof. vm_compute. split; [done|]. by eexists. Qed.

(** A job of the same type, server and node as one that waits is dropped,
    while its caller gets an id and its operation is queued for good. *)
Lemma dropped_job_is_accepted :
  exists job db, deploy "job-2" "other app" 0 queue_db1 = (Got job, db) /\ j_ID job = "job-2" /\
    GetJob "job-2" db = Got None /\ option_map op_Status (q_operations db !! "job-2") = Some "queued".
Proof. eexists _, _. split; [by vm_compute|]. by vm_compute. Qed.

(** A job that is done is failed by a cancellation. *)
Lemma cancel_fails_a_completed_job :
  let db3 := statements 4 (process queue_job1 Finished 2) queue_db2 in
  option_map j_Status (q_jobs db3 !! "job-1") = Some JobCompleted /\
  option_map j_Status (q_jobs (statements 4 (Cancel "job-1" 3) db3) !! "job-1") = Some JobFailed.
Proof. by vm_compute. Qed.

(** A worker that was late ends the run of the worker that took over. *)
Lemma late_worker_releases_the_job :
  let later := 1 + job_lease + 1 in
  exists job db3, ask later queue_db2 = (Got (Some job), db3) /\ j_ID job = "job-1" /\
    let db4 := statements 4 (process queue_job1 (HandlerError "timeout") later) db3 in
    option_map j_LockedUntil (q_jobs db4 !! "job-1") = Some None /\
    option_map j_Status (q_jobs db4 !! "job-1") = Some JobPending.
Proof. eexists _, _. split; [by vm_compute|]. by vm_compute. Qed.

(** A periodic job that should run at the start waits for its schedule: [Add]
    has set its next run. *)
Lemma run_on_start_is_ignored :
  let job := NewPeriodicJob (PeriodicInterval (3600 * Second)) (Some ("sweep", true)) in
  (periodic_tick (1001 * Second) (Add (1000 * Second) job [])).2 = [].
Proof. by vm_compute. Qed.
