(* ===== verification/ReplicaManager.v ===== *)
(** * The replica manager

    [forge/api/internal/services/replicamanager] ([service.go],
    [commands.go], the service's part of [blocked_eval.go]) and the replica
    operations of the scheduler ([services/scheduler/service.go]:
    [PlaceReplicas], [ScaleReplicas], [ReplaceFailedInstance]).  An application
    is a number of instances on the nodes: the scheduler says where they go
    (with the placement engine of [Replica]), the manager reserves the
    capacity, records each instance and has its node start it.

    The statements are those of [Capacity]; the programs are over the requests
    of [ControlPlane] ([RCtl]), the statements about applications and instances
    ([RStore]), and the commands to the nodes.  A replica command goes to the
    node's client ([RBeacon]) or to a dispatcher ([RStart], [RStop]).  Logging,
    the counters of requests and the locks that keep two operations on one
    application apart are left out. *)
From Stdlib Require Import ZArith Lia Floats.SpecFloat.
From stdpp Require Import base gmap strings list fin_maps.
From coqutil Require Import Datatypes.RecordSettersUsingExistingGetters.
From S2P Require Import Prelude GoStrings GoFloat GoSort Constraints Strategy Engine Replica Reschedule BlockedEvals Programs Capacity Servers ControlPlane Reservations Scheduler.
Import RecordSetNotations1.
#[local] Open Scope string_scope.
#[local] Open Scope list_scope.
#[local] Open Scope Z_scope.
#[local] Open Scope go_scope.

(** ** Requests and commands *)

(* go: domain/domain.go type:PlaceReplicasRequest *)
Record PlaceReplicasRequest := mkPlaceReplicasRequest {
  pl_AppID : string;
  pl_ReplicaCount : Z;
  pl_CPU : Z;
  pl_MemoryMB : Z;
  pl_DiskMB : Z;
  pl_RegionID : string;
  pl_RequiredNode : string;
  pl_PreferredNode : string;
  pl_RuntimeFilter : string;
  pl_StorageLocality : string;
  pl_Constraints : list PlacementConstraint
}.

(* go: domain/domain.go type:ScaleRequest *)
Record ScaleRequest := mkScaleRequest {
  sr_AppID : string;
  sr_ReplicaCount : Z;
  sr_RegionID : string;
  sr_StorageLocality : string;
  sr_Constraints : list PlacementConstraint
}.

(* go: domain/domain.go type:PlacementReason *)
Record PlacementReason := mkPlacementReason {
  re_InstanceID : string;
  re_NodeID : string;
  re_Index : Z;
  re_Score : float;
  re_Accepted : bool;
  re_Reasons : list string
}.

(* go: services/replicamanager/commands.go type:InstanceCommandType *)
Inductive InstanceCommandType := StartInstanceCommand | StopInstanceCommand.

Definition command_text (c : InstanceCommandType) : string :=
  match c with StartInstanceCommand => "start_replica" | StopInstanceCommand => "stop_replica" end.

(* go: services/replicamanager/commands.go const:AppDeploymentStatusDeploying *)
Definition AppDeploymentStatusDeploying := "deploying".
(* go: services/replicamanager/commands.go const:AppDeploymentStatusRunning *)
Definition AppDeploymentStatusRunning := "running".
(* go: services/replicamanager/commands.go const:AppDeploymentStatusDegraded *)
Definition AppDeploymentStatusDegraded := "degraded".
(* go: services/replicamanager/commands.go const:AppDeploymentStatusFailed *)
Definition AppDeploymentStatusFailed := "failed".

(** The payload of a start command has the same fields. *)
(* go: services/replicamanager/commands.go type:StartInstanceRequest *)
Record StartInstanceRequest := mkStartInstanceRequest {
  si_AppID : string;
  si_InstanceID : string;
  si_NodeID : string;
  si_Index : Z;
  si_CPU : Z;
  si_MemoryMB : Z;
  si_DiskMB : Z;
  si_RuntimeProvider : string;
  si_CommandID : string;
  si_OperationID : string;
  si_Generation : Z;
  si_Image : string
}.

(* go: services/replicamanager/commands.go type:StopInstanceRequest *)
Record StopInstanceRequest := mkStopInstanceRequest {
  st_InstanceID : string;
  st_NodeID : string;
  st_CommandID : string;
  st_OperationID : string
}.

(* go: services/replicamanager/commands.go func:instanceCommandID *)
Definition instanceCommandID (instanceID : string) (typ : InstanceCommandType) (generation : Z)
    (operationID : string) : string :=
  cat [instanceID; "-"; command_text typ; "-"; itoa generation; "-"; operationID].

(* go: services/replicamanager/service.go type:CreateAppRequest *)
Record CreateAppRequest := mkCreateAppRequest {
  cr_Name : string;
  cr_Replicas : Z;
  cr_CPU : Z;
  cr_MemoryMB : Z;
  cr_DiskMB : Z;
  cr_RuntimeProvider : string;
  cr_Image : string
}.

(* go: services/replicamanager/service.go type:Metrics *)
Inductive ReplicaMetric :=
| CreateAppTotal | DeleteAppTotal | ScaleUpTotal | ScaleDownTotal | ReplacementTotal | ReservationErrors
| DispatchErrors | ReconcileTotal | NoDoubleReservation | NoDuplicateAlloc
| ReplicasPlacedTotal (n : Z) | SchedulerScaleUpTotal | SchedulerScaleDownTotal | FailedReplacementsTotal.

(** A statement; the string is a fresh id. *)
Definition Stmt (A : Type) : Type := string -> Time -> Db -> answer A * Db.

(** [RQueue] is an operation on the queue of blocked placements. *)
Inductive REff : Type -> Type :=
| RCtl {A} (e : Eff A) : REff A
| RStore {A} (q : Stmt A) : REff (answer A)
| RBegin : REff (answer unit)
| RBeacon (nodeID commandID : string) (c : InstanceCommandType) (payload : StartInstanceRequest) : REff error
| RStart (req : StartInstanceRequest) : REff error
| RStop (req : StopInstanceRequest) : REff error
| RVerify (nodeID instanceID : string) : REff error
| RLog (commandID operationID nodeID serverID : string) (c : InstanceCommandType) : REff unit
| RNewID : REff string
| RPublish (kind resource : string) : REff unit
| RCount (m : ReplicaMetric) : REff unit
| RPace : REff error
| RQueue {A} (f : Time -> BlockedEvalQueue -> A * BlockedEvalQueue) : REff A.

Definition R_ (A : Type) : Type := prog REff A.

Fixpoint lift {A} (p : prog Eff A) : prog REff A :=
  match p with Ret a => Ret a | Vis e k => Vis (RCtl e) (fun x => lift (k x)) end.

Definition rtry {A B} (m : R_ (answer A)) (k : A -> R_ (answer B)) : R_ (answer B) :=
  pbind m (fun r => match r with Got a => k a | Failed e => Ret (Failed e) end).
Notation "'let?^' x := m 'in' k" := (rtry m (fun x => k))
  (at level 200, x binder, m at level 200, k at level 200, only parsing) : go_scope.
Notation "m ;;^ k" := (pbind m (fun _ => k))
  (at level 100, k at level 200, right associativity, only parsing) : go_scope.

(** [fmt.Errorf("...: %w", err)]. *)
Definition wrapped {A} (what : string) (m : R_ (answer A)) : R_ (answer A) :=
  let^ r := m in Ret match r with Got a => Got a | Failed e => Failed (ErrText (cat [what; store_error_text e])) end.

Definition rfails {A} (msg : string) : R_ (answer A) := Ret (Failed (ErrText msg)).

(** The statements as requests. *)
Definition stmt {A} (q : Time -> Db -> answer A * Db) : REff (answer A) := RStore (fun _ => q).
Definition select {A} (q : Db -> answer A) : REff (answer A) := stmt (fun _ db => (q db, db)).
Definition query {A} (q : Db -> answer A) : R_ (answer A) := request (select q).
Definition statement {A} (q : Time -> Db -> answer A * Db) : R_ (answer A) := request (stmt q).
Definition get_app (id : string) := query (GetReplicaApp id).
Definition get_instance (id : string) := query (GetInstance id).
Definition instances_of (appID : string) := query (ListInstancesByApp appID).
Definition set_app_status (appID status : string) := statement (UpdateReplicaAppStatus appID status).
Definition set_instance_status (id status : string) := statement (UpdateInstanceStatus id status).
Definition set_instance_node (id node : string) := statement (UpdateInstanceNode id node).
Definition next_generation (appID : string) := statement (IncrementReplicaAppGeneration appID).
Definition count (m : ReplicaMetric) : R_ unit := request (RCount m).

(** ** The scheduler's part *)

(** The instances that count. *)
(* go: services/scheduler/service.go L405-405 *)
Definition counts (i : Instance) : bool :=
  negb (in_Status i =? "removing")%string && negb (in_Status i =? "failed")%string.

(* go: services/scheduler/service.go L402-413 *)
Fixpoint existing_use (l : list Instance) (nodes : gmap string Z) (usage : gmap string ResourceUsage)
    : gmap string Z * gmap string ResourceUsage :=
  match l with
  | [] => (nodes, usage)
  | i :: l =>
      if counts i then
        let u := default (mkResourceUsage 0 0 0) (usage !! in_NodeID i) in
        existing_use l (<[in_NodeID i := iadd (zget nodes (in_NodeID i)) 1]> nodes)
          (<[in_NodeID i := mkResourceUsage (iadd (u_CPU u) (in_CPU i)) (iadd (u_MemoryMB u) (in_MemoryMB i))
                              (iadd (u_DiskMB u) (in_DiskMB i))]> usage)
      else existing_use l nodes usage
  end.

(** The replicas that are asked for, with the context looked at before each. *)
(* go: services/scheduler/service.go L437-453 *)
Fixpoint replica_specs (what : string) (n : nat) (index cpu memoryMB diskMB : Z) (provider : string)
    : R_ (answer (list ReplicaSpec)) :=
  match n with
  | O => Ret (Got [])
  | S n =>
      let^ err := request (RCtl ContextErr) in
      match err with
      | Some e => rfails (cat [what; e])
      | None =>
          let?^ rest := replica_specs what n (index + 1) cpu memoryMB diskMB provider in
          Ret (Got (mkReplicaSpec index cpu memoryMB diskMB provider :: rest))
      end
  end.

Definition placement_reasons (result : ReplicaPlacementResult) : list PlacementReason :=
  map (fun p => mkPlacementReason "" (Replica.p_NodeID p) (Replica.p_Index p) (Replica.p_Score p) true (Replica.p_Reasons p)) (res_Placements result) ++
  map (fun f => mkPlacementReason "" "" (f_Index f) f0 false [f_Reason f]) (res_Failures result).

Section ReplicaScheduler.
Context (s : Scheduler).

(** What the filter is asked. *)
Definition filter_request (region required locality : string) (constraints : list PlacementConstraint)
    (cpu memoryMB diskMB : Z) : PlacementRequest :=
  mkPlacementRequest "" region "" "" required "" "" false locality "" constraints memoryMB 0 cpu diskMB.

(** A call of the engine: a result comes with the error, or without. *)
Definition place_replicas (candidates : list Candidate) (req : ReplicaPlacementRequest)
    : R_ (answer ReplicaPlacementResult) :=
  let^ r := request (RCtl (Compute (Replica.PlaceReplicas (sc_placementV2 s) (sc_engine s) candidates req))) in
  Ret match r with
      | (_, Some err) => Failed (ErrText err)
      | (Some result, None) => Got result
      | (None, None) => Got (mkReplicaPlacementResult [] [])
      end.

(* go: services/scheduler/service.go func:Scheduler.PlaceReplicas *)
Definition PlaceReplicas (req : PlaceReplicasRequest) : R_ (answer (list PlacementReason)) :=
  let region := TrimSpace (pl_RegionID req) in
  let locality := canonicalStorageLocality (TrimSpace (pl_StorageLocality req)) in
  let constraints := normalizePlacementConstraints (pl_Constraints req) in
  let?^ app := wrapped "app not found: " (get_app (pl_AppID req)) in
  let?^ nodes := lift ListNodes in
  let?^ filtered := lift (FilterNodes s (filter_request region (pl_RequiredNode req) locality constraints
                                           (pl_CPU req) (pl_MemoryMB req) (pl_DiskMB req)) nodes) in
  let filtered := if (pl_RuntimeFilter req =? "")%string then filtered
                  else filterByRuntimeProvider filtered (pl_RuntimeFilter req) in
  let?^ existing := instances_of (pl_AppID req) in
  let '(nodeMap, usage) := existing_use existing ∅ ∅ in
  let^ ctx := lift constraint_context in
  let?^ read := lift (read_candidates "replica placement cancelled: " filtered) in
  let?^ replicas := replica_specs "replica placement cancelled: " (Z.to_nat (pl_ReplicaCount req)) 0
                      (pl_CPU req) (pl_MemoryMB req) (pl_DiskMB req)
                      (if (pl_RuntimeFilter req =? "")%string then ra_RuntimeProvider app else pl_RuntimeFilter req) in
  let?^ result := place_replicas (map snd (fst read))
    (mkReplicaPlacementRequest (pl_AppID req) replicas region (pl_RequiredNode req) (pl_PreferredNode req)
       (pl_RuntimeFilter req) locality (toPlacementConstraints constraints) ctx nodeMap usage) in
  count (ReplicasPlacedTotal (Z.of_nat (length (res_Placements result)))) ;;^
  Ret (Got (placement_reasons result)).

Definition active_count (l : list Instance) : Z := Z.of_nat (length (filter (fun i => counts i = true) l)).

(** The instances a smaller application gives up: the last ones. *)
(* go: services/scheduler/service.go L642-648 *)
Definition to_remove (n : Z) (current : list Instance) : list Instance :=
  take (Z.to_nat n) (filter (fun i => counts i = true) (rev current)).

(* go: services/scheduler/service.go L649-672 *)
Fixpoint mark_removing (l : list Instance) : R_ (list PlacementReason * list string) :=
  match l with
  | [] => Ret ([], [])
  | i :: l =>
      let^ r := set_instance_status (in_ID i) "removing" in
      let^ rest := mark_removing l in
      Ret match r with
          | Failed e =>
              (mkPlacementReason (in_ID i) (in_NodeID i) 0 f0 false
                 [cat ["mark instance removing: "; store_error_text e]] :: rest.1,
               cat [in_ID i; ": "; store_error_text e] :: rest.2)
          | Got _ =>
              (mkPlacementReason (in_ID i) (in_NodeID i) 0 f0 true ["scale down - removed instance"] :: rest.1, rest.2)
          end
  end.

(* go: services/scheduler/service.go func:Scheduler.ScaleReplicas *)
Definition ScaleReplicas (req : ScaleRequest) : R_ (answer (list PlacementReason)) :=
  let region := TrimSpace (sr_RegionID req) in
  let locality := canonicalStorageLocality (TrimSpace (sr_StorageLocality req)) in
  let constraints := normalizePlacementConstraints (sr_Constraints req) in
  let?^ app := wrapped "app not found: " (get_app (sr_AppID req)) in
  let?^ current := instances_of (sr_AppID req) in
  let active := active_count current in
  let record := wrapped (cat ["record desired replicas for app "; sr_AppID req; ": "])
                  (statement (UpdateReplicaAppReplicas (sr_AppID req) (sr_ReplicaCount req))) in
  if sr_ReplicaCount req =? active then Ret (Got [])
  else if active <? sr_ReplicaCount req then
    count SchedulerScaleUpTotal ;;^
    let?^ nodes := lift ListNodes in
    let?^ filtered := lift (FilterNodes s (filter_request region "" locality constraints
                                             (ra_CPU app) (ra_MemoryMB app) (ra_DiskMB app)) nodes) in
    let '(nodeMap, usage) := existing_use current ∅ ∅ in
    let^ ctx := lift constraint_context in
    let?^ read := lift (read_candidates "replica scale-up cancelled: " filtered) in
    let?^ replicas := replica_specs "replica scale-up cancelled: " (Z.to_nat (sr_ReplicaCount req - active)) active
                        (ra_CPU app) (ra_MemoryMB app) (ra_DiskMB app) (ra_RuntimeProvider app) in
    let?^ result := place_replicas (map snd (fst read))
      (mkReplicaPlacementRequest (sr_AppID req) replicas region "" "" "" locality
         (toPlacementConstraints constraints) ctx nodeMap usage) in
    let?^ _ := record in
    Ret (Got (placement_reasons result))
  else
    count SchedulerScaleDownTotal ;;^
    let^ removed := mark_removing (to_remove (active - sr_ReplicaCount req) current) in
    let?^ _ := record in
    match removed.2 with
    | [] => Ret (Got removed.1)
    | failed => rfails (cat ["scale down incomplete: "; Join failed "; "])
    end.

(* go: services/scheduler/service.go func:restoreInstance *)
Definition restoreInstance (instanceID : string) : R_ unit :=
  if (instanceID =? "")%string then Ret tt
  else let^ _ := set_instance_status instanceID "failed" in Ret tt.

(** A step whose error puts the instance back. *)
Definition or_restore {A} (instanceID : string) (m : R_ (answer A)) : R_ (answer A) :=
  let^ r := m in
  match r with
  | Got a => Ret (Got a)
  | Failed e => restoreInstance instanceID ;;^ Ret (Failed e)
  end.

(* go: services/scheduler/service.go func:Scheduler.ReplaceFailedInstance *)
Definition ReplaceFailedInstance (instanceID : string) : R_ (answer PlacementReason) :=
  let?^ inst := wrapped "instance not found: " (get_instance instanceID) in
  let?^ app := get_app (in_AppID inst) in
  let?^ _ := wrapped (cat ["mark instance "; in_ID inst; " removing: "]) (set_instance_status (in_ID inst) "removing") in
  let?^ nodes := lift ListNodes in
  let?^ filtered := wrapped "filter replacement candidates: "
    (lift (FilterNodes s (filter_request "" "" "" [] (ra_CPU app) (ra_MemoryMB app) (ra_DiskMB app)) nodes)) in
  let?^ existing := wrapped (cat ["list instances of app "; ra_ID app; " for placement: "]) (instances_of (ra_ID app)) in
  let '(nodeMap, usage) := existing_use existing ∅ ∅ in
  let^ ctx := lift constraint_context in
  let?^ read := or_restore (in_ID inst) (lift (read_candidates "replacement placement cancelled: " filtered)) in
  let?^ _ := or_restore (in_ID inst)
    match read with
    | ([], (_ :: _) as unreadable) =>
        rfails (cat ["node capacity is unknown for all "; itoa (Z.of_nat (length unreadable));
                     " candidate node(s): "; Join unreadable "; "])
    | _ => Ret (Got tt)
    end in
  let?^ result := or_restore (in_ID inst)
    (place_replicas (map snd (fst read))
       (mkReplicaPlacementRequest (ra_ID app)
          [mkReplicaSpec (in_Idx inst) (ra_CPU app) (ra_MemoryMB app) (ra_DiskMB app) (ra_RuntimeProvider app)]
          "" "" "" "" "" [] ctx nodeMap usage)) in
  match res_Placements result with
  | [] =>
      restoreInstance (in_ID inst) ;;^
      count FailedReplacementsTotal ;;^
      Ret (Got (mkPlacementReason (in_ID inst) "" 0 f0 false ["no replacement node found"]))
  | p :: _ =>
      let?^ _ := or_restore (in_ID inst)
        (wrapped (cat ["assign instance "; in_ID inst; " to node "; Replica.p_NodeID p; ": "])
           (set_instance_node (in_ID inst) (Replica.p_NodeID p))) in
      let?^ _ := wrapped (cat ["mark instance "; in_ID inst; " pending on node "; Replica.p_NodeID p; ": "])
                   (set_instance_status (in_ID inst) "pending") in
      Ret (Got (mkPlacementReason (in_ID inst) (Replica.p_NodeID p) 0 (Replica.p_Score p) true
                  (Replica.p_Reasons p ++ ["replaced failed instance"])))
  end.
End ReplicaScheduler.

(** ** The manager *)

(** The client of the nodes may be absent, and may or may not verify
    instances; commands then go to the dispatcher. *)
(* go: services/replicamanager/service.go type:Manager *)
Record Manager := mkManager {
  mg_scheduler : Scheduler;
  mg_reservations : option ReservationManager;
  mg_beaconClient : bool;
  mg_verifier : bool;
  mg_publisher : bool;
  mg_policy : option ReschedulePolicy
}.

(** What became of a replica. *)
Inductive Deployed := DeployedReplica | FailedReplica.

Section ReplicaManager.
Context (m : Manager) (oor : float -> Z).

(* go: services/replicamanager/service.go func:Manager.publish *)
Definition publish (kind resource : string) : R_ unit :=
  if mg_publisher m then request (RPublish kind resource) else Ret tt.

Definition cancel_reservation (id : string) : R_ unit :=
  let^ _ := lift (CancelReservation (mg_reservations m) id) in Ret tt.

(* go: services/replicamanager/service.go func:Manager.CreateApp *)
Definition CreateApp (req : CreateAppRequest) : R_ (answer ReplicaApplication) :=
  let replicas := if cr_Replicas req <? 1 then 1 else cr_Replicas req in
  if 100 <? replicas then rfails "replicas must not exceed 100"
  else
    let?^ app := request (RStore (fun id => CreateReplicaApp
      (mkCreateReplicaAppRequest (cr_Name req) replicas (positive_or 1024 (cr_CPU req)) (positive_or 2048 (cr_MemoryMB req))
         (positive_or 10240 (cr_DiskMB req))
         (if (cr_RuntimeProvider req =? "")%string then "docker" else cr_RuntimeProvider req) (cr_Image req)) id)) in
    count CreateAppTotal ;;^
    publish "AppCreated" (ra_ID app) ;;^
    Ret (Got app).

(* go: services/replicamanager/service.go func:Manager.dispatchBeaconCommand *)
Definition dispatchBeaconCommand (commandID operationID nodeID serverID : string) (c : InstanceCommandType)
    (payload : StartInstanceRequest) : R_ error :=
  let^ err := if mg_beaconClient m then request (RBeacon nodeID commandID c payload) else Ret None in
  match err with
  | Some e => Ret (Some e)
  | None => request (RLog commandID operationID nodeID serverID c) ;;^ Ret None
  end.

(** The client is the one way to the node, else the dispatcher is. *)
Definition start_on_node (req : StartInstanceRequest) : R_ error :=
  if mg_beaconClient m then Ret None else request (RStart req).

Definition start_request (app : ReplicaApplication) (instanceID nodeID : string) (index generation : Z)
    (operationID : string) : StartInstanceRequest :=
  mkStartInstanceRequest (ra_ID app) instanceID nodeID index (ra_CPU app) (ra_MemoryMB app) (ra_DiskMB app)
    (ra_RuntimeProvider app) (instanceCommandID instanceID StartInstanceCommand generation operationID)
    operationID generation (ra_Image app).

Definition dispatch_failed (reservationID instanceID : string) : R_ Deployed :=
  count DispatchErrors ;;^
  cancel_reservation reservationID ;;^
  let^ _ := set_instance_status instanceID "failed" in
  Ret FailedReplica.

(** The transaction of a new instance: its row is there for the others when
    it commits. *)
Definition create_instance (app : ReplicaApplication) (nodeID : string) (index : Z) : R_ (answer Instance) :=
  let?^ _ := request RBegin in
  let^ placementID := request RNewID in
  request (RStore (fun id now db => CreateInstance (ra_ID app) nodeID index (ra_CPU app) (ra_MemoryMB app)
                                      (ra_DiskMB app) (ra_RuntimeProvider app) id placementID now db)).

(** A replica the scheduler accepted on a node. *)
(* go: services/replicamanager/service.go L222-359 *)
Definition deploy_replica (app : ReplicaApplication) (reason : PlacementReason) (generation : Z)
    (operationID : string) : R_ Deployed :=
  let^ r := lift (CreateReservation (mg_reservations m)
    (mkReservationRequest (ra_ID app) (re_NodeID reason) "" "placement" "" "" (ra_CPU app) (ra_MemoryMB app)
       (ra_DiskMB app) zeroTime)) in
  match r with
  | Failed _ => count ReservationErrors ;;^ Ret FailedReplica
  | Got reservation =>
      let^ i := create_instance app (re_NodeID reason) (re_Index reason) in
      match i with
      | Failed _ => cancel_reservation (pr_ID reservation) ;;^ Ret FailedReplica
      | Got inst =>
          let^ _ := statement (AssignInstanceReservation (in_ID inst) (pr_ID reservation)) in
          let req := start_request app (in_ID inst) (re_NodeID reason) (re_Index reason) generation operationID in
          let^ err := dispatchBeaconCommand (si_CommandID req) operationID (re_NodeID reason) (in_ID inst)
                        StartInstanceCommand req in
          match err with
          | Some _ => dispatch_failed (pr_ID reservation) (in_ID inst)
          | None =>
              let^ err := start_on_node req in
              match err with
              | Some _ => dispatch_failed (pr_ID reservation) (in_ID inst)
              | None =>
                  let^ _ := set_instance_status (in_ID inst) "provisioning" in
                  let^ _ := request (RStore (fun id => CreatePlacementDecision (in_ID inst) (re_NodeID reason) (ra_ID app)
                    (re_Index reason) (re_Score reason) true (re_Reasons reason) (ra_RuntimeProvider app) id)) in
                  let^ _ := lift (ConfirmReservation (mg_reservations m) (pr_ID reservation)) in
                  Ret DeployedReplica
              end
          end
      end
  end.

(** An application that was running when it was read deploys nothing. *)
(* go: services/replicamanager/service.go func:Manager.deployReplicas *)
Fixpoint deployReplicas (app : ReplicaApplication) (reasons : list PlacementReason) (generation : Z)
    (operationID : string) (deployed failed : Z) : R_ (Z * Z) :=
  match reasons with
  | [] => Ret (deployed, failed)
  | reason :: reasons =>
      if negb (re_Accepted reason) || (re_NodeID reason =? "")%string
      then deployReplicas app reasons generation operationID deployed (iadd failed 1)
      else if (ra_Status app =? AppDeploymentStatusRunning)%string
      then count NoDoubleReservation ;;^ Ret (deployed, failed)
      else
        let^ d := deploy_replica app reason generation operationID in
        match d with
        | FailedReplica => deployReplicas app reasons generation operationID deployed (iadd failed 1)
        | DeployedReplica => deployReplicas app reasons generation operationID (iadd deployed 1) failed
        end
  end.

Definition status_of (n desired : Z) : string :=
  if n =? 0 then AppDeploymentStatusFailed
  else if desired <=? n then AppDeploymentStatusRunning else AppDeploymentStatusDegraded.

(* go: services/replicamanager/service.go func:Manager.updateAppStatus *)
Definition updateAppStatus (appID : string) (deployed desired : Z) : R_ unit :=
  let^ _ := set_app_status appID (status_of deployed desired) in Ret tt.

(* go: services/replicamanager/service.go func:Manager.computeAppStatus *)
Definition computeAppStatus (running desired : Z) : string := status_of running desired.

(* go: services/replicamanager/service.go func:Manager.DeployApp *)
Definition DeployApp (appID : string) : R_ (answer unit) :=
  let?^ app := get_app appID in
  let?^ _ := wrapped "mark app deploying: " (set_app_status appID AppDeploymentStatusDeploying) in
  let?^ gen := wrapped "increment generation: " (next_generation appID) in
  let^ r := PlaceReplicas (mg_scheduler m)
    (mkPlaceReplicasRequest (ra_ID app) (ra_Replicas app) (ra_CPU app) (ra_MemoryMB app) (ra_DiskMB app) "" "" "" "" "" []) in
  match r with
  | Failed e =>
      let^ _ := set_app_status appID AppDeploymentStatusFailed in
      publish "AppFailed" appID ;;^
      Ret (Failed e)
  | Got reasons =>
      let^ operationID := request RNewID in
      let^ counts := deployReplicas app reasons gen operationID 0 0 in
      let '(deployed, failed) := counts in
      updateAppStatus appID deployed (ra_Replicas app) ;;^
      if (0 <? failed) && (deployed =? 0) then
        publish "AppFailed" appID ;;^
        rfails (cat ["all "; itoa failed; " replicas failed to deploy"])
      else
        publish "AppDeploying" appID ;;^
        Ret (Got tt)
  end.

(** The status "stopping" is outside the check of the table. *)
(* go: services/replicamanager/service.go func:Manager.safeStopReplicas *)
Fixpoint stop_replicas (generation : Z) (reasons : list PlacementReason) (operationID : string) (stopped failed : Z)
    : R_ (Z * Z) :=
  match reasons with
  | [] => Ret (stopped, failed)
  | reason :: reasons =>
      if negb (re_Accepted reason) || (re_InstanceID reason =? "")%string
      then stop_replicas generation reasons operationID stopped failed
      else
        let^ i := get_instance (re_InstanceID reason) in
        match i with
        | Failed _ => stop_replicas generation reasons operationID stopped (iadd failed 1)
        | Got inst =>
            let^ _ := set_instance_status (in_ID inst) "stopping" in
            let commandID := instanceCommandID (in_ID inst) StopInstanceCommand generation operationID in
            request (RLog commandID operationID (in_NodeID inst) (in_ID inst) StopInstanceCommand) ;;^
            let^ err := request (RStop (mkStopInstanceRequest (in_ID inst) (in_NodeID inst) commandID operationID)) in
            match err with
            | Some _ =>
                count DispatchErrors ;;^
                let^ _ := set_instance_status (in_ID inst) "failed" in
                stop_replicas generation reasons operationID stopped (iadd failed 1)
            | None =>
                match in_ReservationID inst with Some id => cancel_reservation id | None => Ret tt end ;;^
                let^ _ := statement (fun _ => DeleteInstance (in_ID inst)) in
                stop_replicas generation reasons operationID (iadd stopped 1) failed
            end
        end
  end.

(* go: services/replicamanager/service.go L449-453 *)
Definition safeStopReplicas (app : ReplicaApplication) (reasons : list PlacementReason) (operationID : string)
    : R_ (Z * Z) :=
  let^ current := get_app (ra_ID app) in
  let generation := match current with Got a => ra_Generation a | Failed _ => ra_Generation app end in
  stop_replicas generation reasons operationID 0 0.

Definition up (i : Instance) : bool := (in_Status i =? "running")%string || (in_Status i =? "provisioning")%string.

(* go: services/replicamanager/service.go func:Manager.ScaleApp *)
Definition ScaleApp (appID : string) (targetReplicas : Z) : R_ (answer unit) :=
  let?^ app := get_app appID in
  let?^ current := instances_of appID in
  let active := active_count current in
  if targetReplicas <? 0 then rfails "target replicas must be non-negative"
  else if targetReplicas =? active then Ret (Got tt)
  else
    let?^ reasons := ScaleReplicas (mg_scheduler m) (mkScaleRequest appID targetReplicas "" "" []) in
    if active <? targetReplicas then
      count ScaleUpTotal ;;^
      let?^ gen := wrapped "increment generation: " (next_generation appID) in
      let^ operationID := request RNewID in
      let^ counts := deployReplicas app reasons gen operationID 0 0 in
      let '(deployed, failed) := counts in
      updateAppStatus appID deployed targetReplicas ;;^
      if (0 <? failed) && (deployed =? 0)
      then rfails (cat ["all "; itoa failed; " scale-up replicas failed"])
      else publish "AppScaledUp" appID ;;^ Ret (Got tt)
    else
      count ScaleDownTotal ;;^
      let^ operationID := request RNewID in
      let^ _ := safeStopReplicas app reasons operationID in
      let^ after := instances_of appID in
      let running := match after with
                     | Got l => Z.of_nat (length (filter (fun i => up i = true) l)) | Failed _ => 0 end in
      let^ _ := set_app_status appID (computeAppStatus running targetReplicas) in
      publish "AppScaledDown" appID ;;^
      Ret (Got tt).

(* go: services/replicamanager/service.go loop:Manager.DeleteApp *)
Fixpoint delete_instances (generation : Z) (operationID : string) (l : list Instance) : R_ unit :=
  match l with
  | [] => Ret tt
  | inst :: l =>
      (if counts inst then
         let^ _ := set_instance_status (in_ID inst) "stopping" in
         let commandID := instanceCommandID (in_ID inst) StopInstanceCommand generation operationID in
         request (RLog commandID operationID (in_NodeID inst) (in_ID inst) StopInstanceCommand) ;;^
         let^ _ := request (RStop (mkStopInstanceRequest (in_ID inst) (in_NodeID inst) commandID operationID)) in
         Ret tt
       else Ret tt) ;;^
      match in_ReservationID inst with Some id => cancel_reservation id | None => Ret tt end ;;^
      let^ _ := statement (fun _ => DeleteInstance (in_ID inst)) in
      delete_instances generation operationID l
  end.

(* go: services/replicamanager/service.go func:Manager.DeleteApp *)
Definition DeleteApp (appID : string) : R_ (answer unit) :=
  let?^ instances := instances_of appID in
  let?^ app := get_app appID in
  let^ operationID := request RNewID in
  delete_instances (ra_Generation app) operationID instances ;;^
  let?^ _ := statement (fun _ => DeleteReplicaApp appID) in
  count DeleteAppTotal ;;^
  publish "AppDeleted" appID ;;^
  Ret (Got tt).

(** The start of the instance on its new node; every error of it is dropped. *)
(* go: services/replicamanager/service.go L583-648 *)
Definition start_replacement (inst : Instance) (nodeID : string) : R_ unit :=
  let^ a := get_app (in_AppID inst) in
  match a with
  | Failed _ => Ret tt
  | Got app =>
      let^ g := next_generation (ra_ID app) in
      match g with
      | Failed _ => Ret tt
      | Got gen =>
          let^ operationID := request RNewID in
          let req := start_request app (in_ID inst) nodeID (in_Idx inst) gen operationID in
          let^ err := dispatchBeaconCommand (si_CommandID req) operationID nodeID (in_ID inst) StartInstanceCommand req in
          match err with
          | Some _ =>
              count DispatchErrors ;;^
              let^ _ := set_instance_status (in_ID inst) "failed" in Ret tt
          | None =>
              if mg_beaconClient m then Ret tt
              else
                let^ err := request (RStart req) in
                match err with
                | Some _ =>
                    count DispatchErrors ;;^
                    let^ _ := set_instance_status (in_ID inst) "failed" in Ret tt
                | None => let^ _ := set_instance_status (in_ID inst) "provisioning" in Ret tt
                end
          end
      end
  end.

(* go: services/replicamanager/service.go func:Manager.ReplaceInstance *)
Definition ReplaceInstance (instanceID : string) : R_ (answer PlacementReason) :=
  let?^ inst := get_instance instanceID in
  let?^ reason := ReplaceFailedInstance (mg_scheduler m) instanceID in
  count ReplacementTotal ;;^
  (if re_Accepted reason then
     start_replacement inst (re_NodeID reason) ;;^
     publish "InstanceReplaced" instanceID
   else Ret tt) ;;^
  Ret (Got reason).

(* go: services/replicamanager/service.go func:Manager.Status *)
Definition Status (appID : string) : R_ (answer (ReplicaApplication * list Instance * list PlacementDecision)) :=
  let?^ app := get_app appID in
  let?^ instances := instances_of appID in
  let?^ decisions := query (ListLatestPlacementPerInstance appID) in
  Ret (Got (app, instances, decisions)).

(* go: services/replicamanager/service.go loop:Manager.VerifyNoDuplicates *)
Fixpoint verify_loop (seen : gmap Z string) (l : list Instance) : R_ error :=
  match l with
  | [] => Ret None
  | inst :: l =>
      match seen !! in_Idx inst with
      | Some prev =>
          count NoDuplicateAlloc ;;^
          Ret (Some (cat ["duplicate instance index "; itoa (in_Idx inst); ": instances "; prev; " and "; in_ID inst]))
      | None =>
          match in_ReservationID inst with
          | Some id =>
              let^ r := lift (GetReservation (mg_reservations m) id) in
              match r with
              | Got res => if (pr_Status res =? "active")%string then count NoDoubleReservation else Ret tt
              | Failed _ => Ret tt
              end
          | None => Ret tt
          end ;;^
          verify_loop (<[in_Idx inst := in_ID inst]> seen) l
      end
  end.

(* go: services/replicamanager/service.go func:Manager.VerifyNoDuplicates *)
Definition VerifyNoDuplicates (appID : string) : R_ (answer unit) :=
  let?^ instances := instances_of appID in
  let^ err := verify_loop ∅ instances in
  match err with Some e => rfails e | None => Ret (Got tt) end.

(* go: services/replicamanager/service.go func:Manager.Health *)
Definition Health : R_ (answer unit) :=
  let?^ _ := query ListReplicaApps in Ret (Got tt).

(** The failed instances of one application. *)
(* go: services/replicamanager/service.go L918-944 *)
Fixpoint retry_instances (l : list Instance) (retried : Z) (errs : list string) : R_ (Z * list string) :=
  match l with
  | [] => Ret (retried, errs)
  | inst :: l =>
      if negb (in_Status inst =? "failed")%string then retry_instances l retried errs
      else
        let^ err := request (RCtl ContextErr) in
        match err with
        | Some e => Ret (retried, errs ++ [cat ["retry cancelled: "; e]])
        | None =>
            let^ r := ReplaceInstance (in_ID inst) in
            match r with
            | Failed e =>
                retry_instances l retried (errs ++ [cat ["replace instance "; in_ID inst; ": "; store_error_text e]])
            | Got reason =>
                let retried := if re_Accepted reason then iadd retried 1 else retried in
                let errs := if re_Accepted reason then errs
                            else errs ++ [cat ["replace instance "; in_ID inst; ": no replacement node found"]] in
                let^ paced := request RPace in
                retry_instances l retried
                  match paced with Some e => errs ++ [cat ["retry cancelled: "; e]] | None => errs end
            end
        end
  end.

(* go: services/replicamanager/service.go loop:Manager.RetryFailedPlacements *)
Fixpoint retry_apps (apps : list ReplicaApplication) (retried : Z) (errs : list string) : R_ (Z * list string) :=
  match apps with
  | [] => Ret (retried, errs)
  | app :: apps =>
      let^ err := request (RCtl ContextErr) in
      match err with
      | Some e => Ret (retried, errs ++ [cat ["retry cancelled: "; e]])
      | None =>
          let^ r := instances_of (ra_ID app) in
          match r with
          | Failed e =>
              retry_apps apps retried
                (errs ++ [cat ["list instances for app "; ra_ID app; ": "; store_error_text e]])
          | Got l =>
              let^ x := retry_instances l retried errs in retry_apps apps x.1 x.2
          end
      end
  end.

(** How many were replaced, and the errors that are joined. *)
(* go: services/replicamanager/service.go func:Manager.RetryFailedPlacements *)
Definition RetryFailedPlacements : R_ (answer (Z * list string)) :=
  let?^ apps := query ListReplicaApps in
  let^ r := retry_apps apps 0 [] in
  Ret (Got r).

(** An instance that runs is verified; the status it is counted with. *)
(* go: services/replicamanager/service.go L760-778 *)
Definition observe (inst : Instance) : R_ string :=
  if (in_Status inst =? "running")%string && mg_verifier m then
    let^ err := request (RVerify (in_NodeID inst) (in_ID inst)) in
    match err with
    | None => Ret (in_Status inst)
    | Some _ =>
        let^ r := set_instance_status (in_ID inst) "failed" in
        Ret match r with Got _ => "failed" | Failed _ => in_Status inst end
    end
  else Ret (in_Status inst).

(** Running, failed, and whether any is on its way. *)
(* go: services/replicamanager/service.go L755-787 *)
Fixpoint tally (l : list Instance) (running failed : Z) (provisioning : bool) : R_ (Z * Z * bool) :=
  match l with
  | [] => Ret (running, failed, provisioning)
  | inst :: l =>
      let^ status := observe inst in
      if (status =? "running")%string then tally l (iadd running 1) failed provisioning
      else if (status =? "failed")%string then tally l running (iadd failed 1) provisioning
      else if (status =? "provisioning")%string || (status =? "pending")%string then tally l running failed true
      else tally l running failed provisioning
  end.

(** The status an application gets, when it changes. *)
(* go: services/replicamanager/service.go L793-814 *)
Definition next_status (app : ReplicaApplication) (running failed : Z) (provisioning : bool) : option (string * string) :=
  if negb provisioning && (running =? ra_Replicas app) && negb (ra_Status app =? AppDeploymentStatusRunning)%string
  then Some (AppDeploymentStatusRunning, "AppRunning")
  else if (0 <? running) && (running <? ra_Replicas app) && negb (ra_Status app =? AppDeploymentStatusDegraded)%string
  then Some (AppDeploymentStatusDegraded, "AppDegraded")
  else if (running =? 0) && (0 <? failed) && negb provisioning && negb (ra_Status app =? AppDeploymentStatusFailed)%string
  then Some (AppDeploymentStatusFailed, "AppFailed")
  else None.

(* go: services/replicamanager/service.go loop:Manager.reconcile *)
Fixpoint reconcile_apps (apps : list ReplicaApplication) (anyFailed : bool) : R_ bool :=
  match apps with
  | [] => Ret anyFailed
  | app :: apps =>
      let^ r := instances_of (ra_ID app) in
      match r with
      | Failed _ => reconcile_apps apps anyFailed
      | Got l =>
          let^ x := tally l 0 0 false in
          let '(running, failed, provisioning) := x in
          match next_status app running failed provisioning with
          | Some (status, kind) =>
              let^ _ := set_app_status (ra_ID app) status in
              publish kind (ra_ID app)
          | None => Ret tt
          end ;;^
          reconcile_apps apps (anyFailed || (0 <? failed))
      end
  end.

(* go: services/replicamanager/service.go func:Manager.reconcile *)
Definition reconcile : R_ unit :=
  count ReconcileTotal ;;^
  let^ r := query ListReplicaApps in
  match r with
  | Failed _ => Ret tt
  | Got apps =>
      let^ anyFailed := reconcile_apps apps false in
      if anyFailed then let^ _ := RetryFailedPlacements in Ret tt else Ret tt
  end.

(** ** Blocked placements *)

Definition errNoPlacement : string := "no placement".
Definition errExcludedNodeSelected : string := "placement selected excluded node".

(* go: services/replicamanager/blocked_eval.go func:Manager.replaceInstanceExcluding *)
Definition replaceInstanceExcluding (instanceID excludeNodeID : string) : R_ (answer unit) :=
  if (excludeNodeID =? "")%string
  then let?^ _ := ReplaceInstance instanceID in Ret (Got tt)
  else
    let?^ before := get_instance instanceID in
    let?^ reason := ReplaceInstance instanceID in
    if negb (re_Accepted reason) then rfails errNoPlacement
    else if (re_NodeID reason =? excludeNodeID)%string then
      let^ _ := set_instance_node instanceID (in_NodeID before) in
      let^ _ := set_instance_status instanceID "failed" in
      rfails errExcludedNodeSelected
    else Ret (Got tt).

Definition queue_step (f : Time -> BlockedEvalQueue -> outcome BlockedEvalQueue) : R_ (outcome unit) :=
  request (RQueue (fun now q => match f now q with
                                | Returns q => (Returns tt, q) | Panics => (Panics, q) end)).

Definition attempts_of (r : answer Z) : Z := match r with Got n => n | Failed _ => 0 end.

(* go: services/replicamanager/blocked_eval.go loop:Manager.processBlockedEvals *)
Fixpoint retry_blocked (now : Time) (ready : list pendingPlacement) (retried : Z) : R_ Z :=
  match ready with
  | [] => Ret retried
  | p :: ready =>
      let^ a := query (GetInstanceReplacementAttempts (pp_InstanceID p)) in
      let attempts := attempts_of a in
      let^ i := get_instance (pp_InstanceID p) in
      match i with
      | Failed _ => retry_blocked now ready retried
      | Got inst =>
          let eligible := match mg_policy m with
                          | Some _ => (ShouldRetry oor (mg_policy m) attempts (in_UpdatedAt inst) now).1.1
                          | None => true end in
          if negb eligible then
            let delay := NextDelay oor (mg_policy m) (iadd attempts 1) in
            let nextRetry := in_UpdatedAt inst + delay in
            let nextRetry := if Before nextRetry now then now + delay else nextRetry in
            let^ _ := queue_step (fun t => Enqueue (pp_AppID p) (pp_InstanceID p) (pp_LastNodeID p) attempts nextRetry t) in
            retry_blocked now ready retried
          else
            let^ r := replaceInstanceExcluding (pp_InstanceID p) (pp_LastNodeID p) in
            match r with
            | Failed _ =>
                let^ n := statement (IncrementInstanceReplacementAttempts (pp_InstanceID p)) in
                let delay := match mg_policy m with
                             | Some _ => NextDelay oor (mg_policy m) (attempts_of n) | None => 30 * Second end in
                let^ _ := queue_step (fun t => Enqueue (pp_AppID p) (pp_InstanceID p) (in_NodeID inst) (attempts_of n)
                                                 (now + delay) t) in
                retry_blocked now ready retried
            | Got _ =>
                let^ _ := statement (ResetInstanceReplacementAttempts (pp_InstanceID p)) in
                let^ _ := queue_step (fun _ q => Returns (Trigger q)) in
                retry_blocked now ready (iadd retried 1)
            end
      end
  end.

(* go: services/replicamanager/blocked_eval.go func:Manager.processBlockedEvals *)
Definition processBlockedEvals : R_ Z :=
  let^ now := request (RCtl Clock) in
  let^ ready := request (RQueue (fun _ q => match PopReady now q with
                                            | Returns (l, q) => (Returns l, q) | Panics => (Panics, q) end)) in
  match ready with Returns l => retry_blocked now l 0 | Panics => Ret 0 end.
End ReplicaManager.

(** ** Runs *)

Lemma returns_rtry {A B} (m : R_ (answer A)) (k : A -> R_ (answer B)) tr b :
  returns (rtry m k) tr (Got b) ->
  exists a tr1 tr2, tr = tr1 ++ tr2 /\ returns m tr1 (Got a) /\ returns (k a) tr2 (Got b).
Proof.
  intros (r & tr1 & tr2 & -> & H1 & H2)%returns_bind. destruct r as [a|e]; [|by apply returns_ret in H2 as [_ H2]].
  by exists a, tr1, tr2.
Qed.

Lemma returns_wrapped {A} what (m : R_ (answer A)) tr a :
  returns (wrapped what m) tr (Got a) -> returns m tr (Got a).
Proof.
  intros (r & tr1 & tr2 & -> & H1 & H2)%returns_bind. apply returns_ret in H2 as [-> H2]. rewrite app_nil_r.
  destruct r; [by injection H2 as ->|done].
Qed.

Definition lift_exchange (ev : exchange Eff) : exchange REff :=
  match ev with existT X (e, x) => answered (RCtl e) x end.

Lemma returns_lift {A} (p : prog Eff A) tr a :
  returns (lift p) tr a -> exists tr', tr = map lift_exchange tr' /\ returns p tr' a.
Proof.
  revert tr. induction p as [b|X e k IH]; intros tr H.
  - destruct tr; [by exists []|done].
  - destruct tr as [|ev tr]; [done|]. destruct H as (x & -> & H). apply IH in H as (tr' & -> & H).
    exists (answered e x :: tr'). split; [done|]. by exists x.
Qed.

Lemma lifted {X} (e : Eff X) (x : X) tr : happened e x tr -> answered (RCtl e) x ∈ map lift_exchange tr.
Proof. intros H. apply (list_elem_of_fmap_2 lift_exchange _ _ H). Qed.

Lemma returns_or_restore {A} id (m : R_ (answer A)) tr a :
  returns (or_restore id m) tr (Got a) -> returns m tr (Got a).
Proof.
  intros (r & tr1 & tr2 & -> & H1 & H2)%returns_bind. destruct r as [b|e].
  - apply returns_ret in H2 as [-> [= ->]]. by rewrite app_nil_r.
  - apply returns_bind in H2 as (? & ? & ? & -> & _ & H2). by apply returns_ret in H2 as [_ H2].
Qed.

(** Takes a run apart. *)
Ltac rrun :=
  repeat match goal with
  | H : returns (rtry _ _) _ (Got _) |- _ => apply returns_rtry in H as (? & ? & ? & -> & ? & ?)
  | H : returns (wrapped _ _) _ (Got _) |- _ => apply returns_wrapped in H
  | H : returns (or_restore _ _) _ (Got _) |- _ => apply returns_or_restore in H
  | H : returns (pbind (request _) _) _ _ |- _ => apply returns_request in H as (? & ? & -> & ?)
  | H : returns (pbind _ _) _ _ |- _ => apply returns_bind in H as (? & ? & ? & -> & ? & ?)
  | H : returns (rfails _) _ _ |- _ => apply returns_ret in H as [-> ?]
  | H : returns (Ret _) _ _ |- _ => apply returns_ret in H as [-> ?]
  | H : returns (request _) _ _ |- _ => apply returns_one in H as ->
  | H : ?x = Got _ |- _ => is_var x; subst x
  | H : Got _ = Got _ |- _ => injection H; clear H; intros; subst
  | H : Failed _ = Got _ |- _ => discriminate H
  | H : Got _ = Failed _ |- _ => discriminate H
  end; subst.

(** The engine answers with what it computes in some world. *)
Definition engine_answer (ev : exchange REff) : Prop :=
  match ev with existT _ (e, x) =>
    match e in REff X return X -> Prop with
    | @RCtl A c => match c in Eff A return A -> Prop with
                   | Compute f => fun x => exists w, x = (f w).1
                   | _ => fun _ => True
                   end
    | _ => fun _ => True
    end x end.

Definition engine_answers (tr : list (exchange REff)) : Prop := forall ev, ev ∈ tr -> engine_answer ev.

Lemma read_candidates_ids what nodes tr l u :
  returns (read_candidates what nodes) tr (Got (l, u)) -> forall x, x ∈ l -> c_NodeID x.2 = nd_ID x.1.
Proof.
  revert tr l u. induction nodes as [|n nodes IH]; intros tr l u H x Hx; cbn [read_candidates] in H;
    unfold ReadCapacity, recordPlacementRejection in H; run.
  { by apply elem_of_nil in Hx. }
  match goal with H : returns (match ?o with Some _ => _ | None => _ end) _ _ |- _ =>
    destruct o as [e|]; run end.
  match goal with H : returns (match ?o with Got _ => _ | Failed _ => _ end) _ _ |- _ =>
    destruct o as [c|e]; run end;
  match goal with Hf : returns (read_candidates _ _) _ (Got ?r) |- _ => destruct r as [l' u'] end; cbn [fst snd] in *.
  - apply elem_of_cons in Hx as [->|Hx]; [done|]. by eapply IH.
  - by eapply IH.
Qed.

Section Placements.
Context (s : Scheduler) `{HC : !CapacityChecked (e_scorer (sc_engine s))}.

(** Each replica is placed or not, and the node it is placed on is that of a
    candidate. *)
Lemma place_replicas_run cands req tr result :
  returns (place_replicas s cands req) tr (Got result) -> engine_answers tr ->
  (forall p, p ∈ res_Placements result -> exists c, c ∈ cands /\ c_NodeID c = Replica.p_NodeID p) /\
  map Replica.p_Index (res_Placements result) ++ map f_Index (res_Failures result) ≡ₚ map rs_Index (rq_Replicas req) /\
  (rq_Replicas req <> [] -> res_Placements result <> []).
Proof using HC.
  unfold place_replicas. intros H Heng. rrun.
  match goal with H : _ = Got result |- _ => rename H into Hres end.
  match type of Hres with (let '(_, _) := ?y in _) = _ => rename y into ans end.
  destruct (Heng _ (list_elem_of_here _ _)) as [w Hw].
  destruct (Replica.PlaceReplicas _ _ _ _ w) as [[o err] w'] eqn:E. cbn in Hw. subst ans.
  destruct err as [err|]; [by destruct o|]. destruct o as [res|].
  - injection Hres as ->. apply PlaceReplicas_run in E as (st0 & handled & rest & st' & Hprep & Hreq & Hrun & Herr); [|done].
    destruct (Herr eq_refl) as [-> Hpl]. rewrite app_nil_r in Hreq.
    pose proof (run_indices _ _ _ _ _ Hrun) as Hidx. rewrite Hreq. split_and!; [|exact Hidx|].
    + intros p Hp. destruct (run_placements _ _ _ _ _ _ _ Hprep Hrun Hp) as (_ & c & _ & Hc & _ & _ & Hn & _). eauto.
    + intros Hne Hnil. destruct Hpl as [Hf|Hp]; [|done]. rewrite Hnil, Hf in Hidx.
      apply Permutation_nil_l, eq_sym, map_eq_nil in Hidx. by subst handled.
  - exfalso. unfold Replica.PlaceReplicas in E. destruct (prepareReplicaPlacement _ _); [|done].
    unfold bind in E. destruct (place_loop _ _ _ _ _ _ w) as [[res1 [|]] w1]; [done|].
    by destruct (res_Placements res1), (res_Failures res1).
Qed.
End Placements.

(** ** Nodes for the replicas *)

(** A node that was read in the run, with room for the request when its
    capacity was read, and suitable for it. *)
Definition good_node (q : PlacementRequest) (tr : list (exchange REff)) (node : string) : Prop :=
  exists n nodes regions c,
    answered (RCtl nodes_read) (Got nodes) ∈ tr /\ n ∈ nodes /\ nd_ID n = node /\
    answered (RCtl regions_read) (Got regions) ∈ tr /\ suitable q regions n /\
    answered (RCtl (capacity_read node)) (Got c) ∈ tr /\ fits q c.

Lemma good_node_mono q tr tr' node : tr ⊆ tr' -> good_node q tr node -> good_node q tr' node.
Proof.
  intros Hs (n & nodes & regions & c & H1 & H2 & H3 & H4 & H5 & H6 & H7).
  exists n, nodes, regions, c. split_and!; auto.
Qed.

Lemma candidate_good s req nodes filtered filtered' what t1 t2 t3 read c :
  returns (lift ListNodes) t1 (Got nodes) -> returns (lift (FilterNodes s req nodes)) t2 (Got filtered) ->
  filtered' ⊆ filtered -> returns (lift (read_candidates what filtered')) t3 (Got read) -> c ∈ map snd read.1 ->
  good_node (normalizeRequest req) (t1 ++ t2) (c_NodeID c).
Proof.
  intros H1 H2 Hsub H3 Hc. apply returns_lift in H1 as (t1' & -> & H1), H2 as (t2' & -> & H2), H3 as (t3' & -> & H3).
  destruct read as [l u]. cbn [fst] in Hc. apply list_elem_of_fmap in Hc as (x & -> & Hx).
  rewrite (read_candidates_ids _ _ _ _ _ H3 _ Hx). pose proof (read_candidates_nodes _ _ _ _ _ H3 _ Hx) as Hn.
  destruct (filter_nodes _ _ _ _ _ _ H2 (Hsub _ Hn)) as (Hin & (regions & Hreg & Hsu) & (snap & Hsnap & Hfit) & _).
  unfold ListNodes in H1. apply returns_one in H1 as ->. exists x.1, nodes, regions, snap.
  split_and!; try done; apply elem_of_app; [left; left|right; by apply lifted..].
Qed.

Lemma replica_specs_indices what n i cpu mem disk provider tr l :
  returns (replica_specs what n i cpu mem disk provider) tr (Got l) ->
  map rs_Index l = seqZ i (Z.of_nat n) /\
  Forall (fun r => rs_CPU r = cpu /\ rs_MemoryMB r = mem /\ rs_DiskMB r = disk) l.
Proof.
  revert i tr l. induction n as [|n IH]; intros i tr l H; cbn [replica_specs] in H; rrun; [by split|].
  match goal with H : returns (match ?o with Some _ => _ | None => _ end) _ _ |- _ => destruct o; rrun end.
  match goal with H : returns (replica_specs _ _ _ _ _ _ _) _ _ |- _ => apply IH in H as [E F] end.
  split; [|by constructor]. cbn [map rs_Index]. rewrite E. rewrite (seqZ_cons i (Z.of_nat (S n))) by lia.
  do 2 f_equal; lia.
Qed.

Lemma placement_reasons_indices result :
  map re_Index (placement_reasons result) =
  map Replica.p_Index (res_Placements result) ++ map f_Index (res_Failures result).
Proof. unfold placement_reasons. rewrite map_app, !map_map. done. Qed.

Lemma accepted_reason result r :
  r ∈ placement_reasons result -> re_Accepted r = true ->
  exists p, p ∈ res_Placements result /\ re_NodeID r = Replica.p_NodeID p.
Proof.
  unfold placement_reasons. rewrite elem_of_app, !list_elem_of_fmap.
  intros [(p & -> & Hp)|(f & -> & _)]; [|done]. by exists p.
Qed.

Lemma filterByRuntimeProvider_subset nodes provider : filterByRuntimeProvider nodes provider ⊆ nodes.
Proof. unfold filterByRuntimeProvider. case_match; [done|]. intros n Hn. by apply list_elem_of_filter in Hn as [_ Hn]. Qed.

(** The node of a candidate of the run is good. *)
Ltac good_candidate Hc :=
  match goal with H1 : returns (lift ListNodes) ?t1 _, H2 : returns (lift (FilterNodes _ _ _)) ?t2 _,
                  H3 : returns (lift (read_candidates _ _)) _ _ |- _ =>
    eapply (good_node_mono _ (t1 ++ t2));
      [intros ev Hev; rewrite !elem_of_app in *; destruct Hev; auto 20
      |eapply (candidate_good _ _ _ _ _ _ _ _ _ _ _ H1 H2); [|exact H3|exact Hc]] end.

(** Every replica the scheduler is asked to place is answered for once,
    and one it accepts goes to a node that was up, wanted, in an enabled region
    (the one asked for) and had room for the replica when its capacity was
    read, whatever changes while the placement is made. *)
Lemma PlaceReplicas_sound s req tr reasons
    (Hscorer : CapacityChecked (e_scorer (sc_engine s)))
    (H : returns (PlaceReplicas s req) tr (Got reasons)) (Heng : engine_answers tr) :
  map re_Index reasons ≡ₚ seqZ 0 (pl_ReplicaCount req) /\
  forall r, r ∈ reasons -> re_Accepted r = true ->
    good_node (normalizeRequest
      (filter_request (TrimSpace (pl_RegionID req)) (pl_RequiredNode req)
         (canonicalStorageLocality (TrimSpace (pl_StorageLocality req)))
         (normalizePlacementConstraints (pl_Constraints req)) (pl_CPU req) (pl_MemoryMB req) (pl_DiskMB req)))
      tr (re_NodeID r).
Proof.
  unfold PlaceReplicas in H. cbv zeta in H. rrun.
  destruct (existing_use _ _ _) as [nodeMap usage]. rrun.
  match goal with H : returns (place_replicas _ _ _) ?t (Got ?res) |- _ =>
    rename res into result, t into tp; destruct (place_replicas_run s _ _ _ _ H) as (Hon & Hidx & _) end.
  { intros ev Hev. apply Heng. rewrite !elem_of_app. auto 20. }
  match goal with H : returns (replica_specs _ _ _ _ _ _ _) _ _ |- _ => apply replica_specs_indices in H as [Hspec _] end.
  cbn [rq_Replicas] in Hidx. rewrite Hspec in Hidx. split.
  - rewrite placement_reasons_indices, Hidx. destruct (Z.le_gt_cases 0 (pl_ReplicaCount req)).
    + by rewrite Z2Nat.id by lia.
    + replace (Z.of_nat (Z.to_nat (pl_ReplicaCount req))) with 0 by lia. by rewrite !seqZ_nil by lia.
  - intros r Hr Ha. destruct (accepted_reason _ _ Hr Ha) as (p & Hp & ->). destruct (Hon p Hp) as (c & Hc & <-).
    good_candidate Hc. case_match; [done|apply filterByRuntimeProvider_subset].
Qed.

(** A failed instance that is replaced goes to a node that was up and had
    room for it when its capacity was read, whatever changes meanwhile, and
    becomes pending there as the last thing that happens; no other answer than
    an error tells that no node was found. *)
Lemma ReplaceFailedInstance_sound s id tr reason
    (Hscorer : CapacityChecked (e_scorer (sc_engine s)))
    (H : returns (ReplaceFailedInstance s id) tr (Got reason)) (Heng : engine_answers tr) :
  exists inst app tr0 x y,
    answered (select (GetInstance id)) (Got inst) ∈ tr /\
    answered (select (GetReplicaApp (in_AppID inst))) (Got app) ∈ tr /\
    re_Accepted reason = true /\ re_InstanceID reason = in_ID inst /\
    good_node (normalizeRequest (filter_request "" "" "" [] (ra_CPU app) (ra_MemoryMB app) (ra_DiskMB app)))
      tr (re_NodeID reason) /\
    tr = tr0 ++ [answered (stmt (UpdateInstanceNode (in_ID inst) (re_NodeID reason))) (Got x);
                 answered (stmt (UpdateInstanceStatus (in_ID inst) "pending")) (Got y)].
Proof.
  unfold ReplaceFailedInstance in H. cbv zeta in H. rrun.
  destruct (existing_use _ _ _) as [nodeMap usage]. rrun.
  match goal with H : returns (place_replicas _ _ _) ?t (Got ?res) |- _ =>
    rename res into result, t into tp; destruct (place_replicas_run s _ _ _ _ H) as (Hon & _ & Hne) end.
  { intros ev Hev. apply Heng. rewrite !elem_of_app. auto 30. }
  destruct (res_Placements result) as [|p ps] eqn:Ep; [by destruct (Hne ltac:(done))|].
  unfold set_instance_node, set_instance_status, statement in *. rrun.
  match goal with H1 : returns (get_instance _) ?t1 (Got ?i), H2 : returns (get_app _) _ (Got ?a) |- _ =>
    rename i into inst, a into app; unfold get_instance, get_app, query in H1, H2; rrun end.
  eexists inst, app, _, _, _. cbn [re_Accepted re_InstanceID re_NodeID].
  split; [left|split; [right; left|split; [done|split; [done|split]]]].
  - destruct (Hon p (list_elem_of_here _ _)) as (c & Hc & <-). by good_candidate Hc.
  - rewrite !app_assoc, app_nil_r. rewrite <- app_assoc. reflexivity.
Qed.

(** ** Reservations and start commands of a deployment *)

(** What was reserved, what was asked to be closed and how, and the instances
    that were started by the client of the nodes and by the dispatcher. *)
Definition granted_by (ev : exchange REff) : list string :=
  match ev with existT _ (e, x) =>
    match e in REff X return X -> list string with
    | @RCtl A c => match c in Eff A return A -> list string with
                   | Reserve _ => fun r => match r with Got r => [pr_ID r] | Failed _ => [] end
                   | _ => fun _ => []
                   end
    | _ => fun _ => []
    end x end.

Definition asked_by (ev : exchange REff) : list (string * string) :=
  match ev with existT _ (e, _) =>
    match e with RCtl (CloseReservation id status) => [(id, status)] | _ => [] end end.

(** What became of that: the answers are ignored, so what is refused stays open
    until it expires. *)
Definition closed_by (ev : exchange REff) : list (string * string) :=
  match ev with existT _ (e, x) =>
    match e in REff X return X -> list (string * string) with
    | @RCtl A c => match c in Eff A return A -> list (string * string) with
                   | CloseReservation id status => fun r => match r with Got _ => [(id, status)] | Failed _ => [] end
                   | _ => fun _ => []
                   end
    | _ => fun _ => []
    end x end.

Definition refused_by (ev : exchange REff) : list (string * string) :=
  match ev with existT _ (e, x) =>
    match e in REff X return X -> list (string * string) with
    | @RCtl A c => match c in Eff A return A -> list (string * string) with
                   | CloseReservation id status => fun r => match r with Got _ => [] | Failed _ => [(id, status)] end
                   | _ => fun _ => []
                   end
    | _ => fun _ => []
    end x end.

Definition started_by (ev : exchange REff) : list (bool * string) :=
  match ev with existT _ (e, _) =>
    match e with
    | RBeacon _ _ StartInstanceCommand req => [(true, si_InstanceID req)]
    | RStart req => [(false, si_InstanceID req)]
    | _ => []
    end end.

Notation granted := (flat_map granted_by).
Notation asked := (flat_map asked_by).
Notation started := (flat_map started_by).

Lemma asked_answered tr : asked tr ≡ₚ flat_map closed_by tr ++ flat_map refused_by tr.
Proof.
  induction tr as [|[X [e x]] tr IH]; [done|]. cbn [flat_map].
  destruct e as [A c| | | | | | | | | | | |]; try exact IH. destruct c; try exact IH. cbn [asked_by closed_by refused_by app].
  destruct x as [r|e]; cbn [app]; rewrite IH; [done|]. apply Permutation_middle.
Qed.

Definition nonblank (id : string) : Prop := TrimSpace id <> "".

Lemma closing_run mgr id status kind tr r :
  rm_store mgr = true -> returns (lift (transitionReservation (Some mgr) id status kind)) tr r ->
  granted tr = [] /\ started tr = [] /\ (nonblank id -> asked tr = [(id, status)]).
Proof.
  intros Hst (tr' & -> & H)%returns_lift. unfold transitionReservation, reservationStore in H. rewrite Hst in H.
  destruct (String.eqb_spec (TrimSpace id) ""); unfold ptry in H; run; [done|]. destruct x; run; [|done].
  unfold publish_reservation in *. destruct (rm_publisher mgr); run; done.
Qed.

Lemma reserving_run mgr req tr r :
  returns (lift (CreateReservation (Some mgr) req)) tr r ->
  granted tr = match r with Got p => [pr_ID p] | Failed _ => [] end /\ asked tr = [] /\ started tr = [].
Proof.
  intros (tr' & -> & H)%returns_lift. unfold CreateReservation, reservationStore, publish_reservation, increment in H. run.
  destruct (ValidateReservationRequest _ _); run; [done|]. destruct (rm_store mgr); run; [|done].
  match goal with H : returns (match ?x with Got _ => _ | Failed _ => _ end) _ _ |- _ => destruct x end.
  - destruct (rm_publisher mgr); run; done.
  - destruct (IsConflict _); run; done.
Qed.

Section Deployment.
Context (m : Manager) (mgr : ReservationManager).
Hypothesis Hmgr : mg_reservations m = Some mgr.
Hypothesis Hstore : rm_store mgr = true.

(** How a replica's reservation is closed. *)
Definition closing_status (d : Deployed) : string :=
  match d with DeployedReplica => "completed" | FailedReplica => "cancelled" end.

Definition settled (tr : list (exchange REff)) (d : Deployed) : Prop :=
  granted tr = [] /\ asked tr = [] /\ started tr = [] /\ d = FailedReplica \/
  exists id, granted tr = [id] /\ (nonblank id -> asked tr = [(id, closing_status d)]) /\
    (forall x, x ∈ started tr -> x.1 = mg_beaconClient m) /\ (length (started tr) <= 1)%nat /\
    (d = DeployedReplica -> length (started tr) = 1%nat).

(** Splits what a run reserved, closed and started. *)
Ltac effects :=
  repeat (progress (rewrite ?flat_map_app; cbn [flat_map granted_by asked_by started_by answered app])).

Lemma cancelling_run id tr r :
  returns (cancel_reservation m id) tr r ->
  granted tr = [] /\ started tr = [] /\ (nonblank id -> asked tr = [(id, "cancelled")]).
Proof using Hmgr Hstore.
  unfold cancel_reservation, CancelReservation. intros H. rewrite Hmgr in H. rrun. effects. rewrite !app_nil_r.
  eapply closing_run; eauto.
Qed.

Lemma create_instance_run app node index tr r :
  returns (create_instance app node index) tr r -> granted tr = [] /\ asked tr = [] /\ started tr = [].
Proof.
  unfold create_instance, rtry. intros H. rrun.
  match goal with H : returns (match ?x with Got _ => _ | Failed _ => _ end) _ _ |- _ => destruct x end; rrun; done.
Qed.

Lemma dispatch_run commandID op node server req tr err :
  returns (dispatchBeaconCommand m commandID op node server StartInstanceCommand req) tr err ->
  granted tr = [] /\ asked tr = [] /\ started tr = if mg_beaconClient m then [(true, si_InstanceID req)] else [].
Proof.
  unfold dispatchBeaconCommand. intros H. destruct (mg_beaconClient m); [|cbn [pbind] in H]; rrun; [|done].
  match goal with H : returns (match ?x with Some _ => _ | None => _ end) _ _ |- _ => destruct x end; rrun; done.
Qed.

Lemma start_run req tr err :
  returns (start_on_node m req) tr err ->
  granted tr = [] /\ asked tr = [] /\ started tr = if mg_beaconClient m then [] else [(false, si_InstanceID req)].
Proof. unfold start_on_node. intros H. destruct (mg_beaconClient m); rrun; done. Qed.

Lemma dispatch_failed_run id inst tr d :
  returns (dispatch_failed m id inst) tr d ->
  d = FailedReplica /\ granted tr = [] /\ started tr = [] /\ (nonblank id -> asked tr = [(id, "cancelled")]).
Proof using Hmgr Hstore.
  unfold dispatch_failed, count, set_instance_status, statement. intros H. rrun.
  match goal with H : returns (cancel_reservation _ _) _ _ |- _ => apply cancelling_run in H as (G & S & C) end.
  effects. rewrite G, S. split_and!; [done..|]. intros Hid. by rewrite (C Hid).
Qed.

Lemma deploy_replica_settled app reason generation op tr d :
  returns (deploy_replica m app reason generation op) tr d -> settled tr d.
Proof using Hmgr Hstore.
  unfold deploy_replica. rewrite Hmgr. intros H. apply returns_bind in H as (r & t1 & t2 & -> & H1 & H).
  apply reserving_run in H1 as (G1 & C1 & S1). destruct r as [p|e].
  2: { unfold count in H. rrun. left. effects. by rewrite G1, C1, S1. }
  apply returns_bind in H as (i & t3 & t4 & -> & H3 & H). apply create_instance_run in H3 as (G3 & C3 & S3).
  right. exists (pr_ID p). destruct i as [inst|e].
  2: { apply returns_bind in H as (u & t5 & t6 & -> & H5 & H). apply cancelling_run in H5 as (G5 & S5 & C5). rrun.
       effects. rewrite G1, C1, S1, G3, C3, S3, G5, S5. cbn. rewrite !app_nil_r. split_and!; [done|done|set_solver|lia|done]. }
  unfold statement at 1 in H. apply returns_request in H as (x & t5 & -> & H). cbv zeta in H.
  apply returns_bind in H as (err & t6 & t7 & -> & H6 & H). apply dispatch_run in H6 as (G6 & C6 & S6).
  destruct err as [err|].
  { apply dispatch_failed_run in H as (-> & G7 & S7 & C7). effects. rewrite G1, C1, S1, G3, C3, S3, G6, C6, S6, G7, S7. cbn.
    rewrite !app_nil_r. destruct (mg_beaconClient m); split_and!; try done; cbn; set_solver || lia. }
  apply returns_bind in H as (err & t8 & t9 & -> & H8 & H). apply start_run in H8 as (G8 & C8 & S8).
  destruct err as [err|].
  { apply dispatch_failed_run in H as (-> & G7 & S7 & C7). effects.
    rewrite G1, C1, S1, G3, C3, S3, G6, C6, S6, G8, C8, S8, G7, S7. cbn.
    rewrite !app_nil_r. destruct (mg_beaconClient m); split_and!; try done; cbn; set_solver || lia. }
  unfold set_instance_status, statement, ConfirmReservation in H. rrun.
  match goal with H : returns (lift _) _ _ |- _ => eapply closing_run in H as (G7 & S7 & C7); [|done] end.
  effects. rewrite G1, C1, S1, G3, C3, S3, G6, C6, S6, G8, C8, S8, G7, S7. cbn. rewrite !app_nil_r.
  destruct (mg_beaconClient m); split_and!; try done; cbn; set_solver || lia.
Qed.

Definition completed (tr : list (exchange REff)) : Z :=
  Z.of_nat (length (filter (fun c => c.2 = "completed") (asked tr))).

Definition accounts (app : ReplicaApplication) (n : Z) (tr : list (exchange REff)) (d f : Z) : Prop :=
  (asked tr).*1 = granted tr /\
  (forall c, c ∈ asked tr -> c.2 = "completed" \/ c.2 = "cancelled") /\
  d = completed tr /\
  (forall x, x ∈ started tr -> x.1 = mg_beaconClient m) /\
  d <= Z.of_nat (length (started tr)) <= Z.of_nat (length (granted tr)) /\
  (ra_Status app <> AppDeploymentStatusRunning -> d + f = n) /\
  (ra_Status app = AppDeploymentStatusRunning -> d = 0 /\ granted tr = []).

Lemma settled_accounts app n tr1 tr2 x d f :
  settled tr1 x -> Forall nonblank (granted tr1) -> ra_Status app <> AppDeploymentStatusRunning ->
  accounts app n tr2 d f ->
  accounts app (n + 1) (tr1 ++ tr2) (match x with DeployedReplica => d + 1 | FailedReplica => d end)
    (match x with DeployedReplica => f | FailedReplica => f + 1 end).
Proof using Type.
  intros Hx Hid Hrun (H1 & H2 & H3 & H4 & H5 & H6 & H7). unfold accounts, completed in *. rewrite !flat_map_app.
  destruct Hx as [(G & C & S & ->)|(id & G & C & Sb & Sl & Sd)].
  - rewrite G, C, S. cbn [Datatypes.app]. split_and!; try done; try lia. intros E. specialize (H6 E). lia.
  - rewrite G in *. apply Forall_cons in Hid as [Hid _]. rewrite (C Hid). split_and!.
    + cbn. by rewrite H1.
    + intros c [->|Hc]%elem_of_cons; [|by apply H2]. destruct x; auto.
    + rewrite filter_app, length_app, H3, filter_cons. destruct x; cbn [closing_status snd];
        [rewrite decide_True by done|rewrite decide_False by done]; cbn [length]; change (filter _ []) with (@nil (string * string)); cbn [length]; lia.
    + intros y [Hy|Hy]%elem_of_app; auto.
    + rewrite length_app. destruct x; [rewrite (Sd eq_refl)|]; cbn [length]; lia.
    + rewrite length_app. cbn [length Datatypes.app]. destruct x; [rewrite (Sd eq_refl)|]; lia.
    + intros E. specialize (H6 E). destruct x; lia.
    + done.
Qed.

Lemma deployReplicas_accounts app reasons generation op d0 f0 tr d f :
  returns (deployReplicas m app reasons generation op d0 f0) tr (d, f) -> Forall nonblank (granted tr) ->
  0 <= d0 -> 0 <= f0 -> d0 + f0 + Z.of_nat (length reasons) <= max64 ->
  accounts app (Z.of_nat (length reasons)) tr (d - d0) (f - f0).
Proof using Hmgr Hstore.
  revert d0 f0 tr. induction reasons as [|r reasons IH]; intros d0 f0 tr H Hid Hd Hf Hlen; cbn [deployReplicas length] in *.
  { apply returns_ret in H as [-> [= <- <-]]. unfold accounts, completed. cbn. rewrite !Z.sub_diag.
    split_and!; try done; try lia; set_solver. }
  rewrite Nat2Z.inj_succ in *. unfold Z.succ in *. destruct (negb _ || _).
  { rewrite iadd_exact in H by (unfold in64, min64 in *; lia). apply IH in H; [|done|lia..].
    destruct H as (H1 & H2 & H3 & H4 & H5 & H6 & H7). unfold accounts. split_and!; try done; try lia. intros E. specialize (H6 E). lia. }
  destruct (String.eqb_spec (ra_Status app) AppDeploymentStatusRunning) as [E|E].
  { unfold count in H. rrun. unfold accounts, completed. cbn.
    match goal with H : _ = _ |- _ => injection H as <- <- end. rewrite !Z.sub_diag. split_and!; try done; try lia; set_solver. }
  apply returns_bind in H as (x & t1 & t2 & -> & H1 & H). apply deploy_replica_settled in H1.
  rewrite flat_map_app in Hid. apply Forall_app in Hid as [Hid1 Hid2].
  destruct x; (rewrite iadd_exact in H by (unfold in64, min64 in *; lia)); (apply IH in H; [|done|lia..]);
    pose proof (settled_accounts _ _ _ _ _ _ _ H1 Hid1 E H) as Ha; cbn in Ha.
  - by replace (d - (d0 + 1) + 1) with (d - d0) in Ha by lia.
  - by replace (f - (f0 + 1) + 1) with (f - f0) in Ha by lia.
Qed.
End Deployment.

(** C19: In a deployment exactly one statement that closes it is issued for every
    reservation that is made, in the order they were made: completed for the
    replicas that count as deployed, cancelled for the others, whatever else
    fails.  So a reservation that is not closed afterwards is one whose closing
    statement failed (the code ignores that; it holds its amounts until it
    expires).  A replica is started at most once and through one channel, the
    client of the nodes when there is one and the dispatcher otherwise.  Every
    replica counts as deployed or failed, unless the application was running,
    which deploys nothing.  The reservation manager is set, with its store, and
    the ids it gives out are not blank. *)
Theorem deployReplicas_settles m mgr app reasons generation op tr d f
    (Hmgr : mg_reservations m = Some mgr) (Hstore : rm_store mgr = true)
    (H : returns (deployReplicas m app reasons generation op 0 0) tr (d, f))
    (Hid : Forall nonblank (granted tr)) (Hlen : Z.of_nat (length reasons) <= max64) :
  accounts m app (Z.of_nat (length reasons)) tr d f /\
  granted tr ≡ₚ (flat_map closed_by tr).*1 ++ (flat_map refused_by tr).*1.
Proof.
  pose proof (deployReplicas_accounts m mgr Hmgr Hstore _ _ _ _ _ _ _ _ _ H Hid) as Ha.
  rewrite !Z.sub_0_r in Ha. specialize (Ha ltac:(lia) ltac:(lia) ltac:(lia)). split; [exact Ha|].
  destruct Ha as [<- _]. by rewrite <- fmap_app, <- asked_answered.
Qed.

(** ** Examples *)

(** Every node and every command answers; the queue of blocked placements is
    empty. *)
Definition rserve (X : Type) (e : REff X) : World -> X * World :=
  match e in REff X return World -> X * World with
  | @RCtl A c => example_serve A c
  | RStore q => fun w =>
      let r := q (fresh_id (w_ids w)) (w_now w) (w_db w) in (r.1, w <| w_db := r.2 |> <| w_ids := S (w_ids w) |>)
  | RBegin => fun w => (Got tt, w)
  | RBeacon _ _ _ _ => fun w => (None, w)
  | RStart _ => fun w => (None, w)
  | RStop _ => fun w => (None, w)
  | RVerify _ _ => fun w => (None, w)
  | RLog _ _ _ _ _ => fun w => (tt, w)
  | RNewID => fun w => (fresh_id (w_ids w), w <| w_ids := S (w_ids w) |>)
  | RPublish _ _ => fun w => (tt, w)
  | RCount _ => fun w => (tt, w)
  | RPace => fun w => (None, w)
  | RQueue f => fun w => ((f (w_now w) (mkQueue ∅ (mkHeap ∅ []) false)).1, w)
  end.

Lemma rserve_engine {A} (p : R_ A) w : engine_answers (trace_alone rserve p w).
Proof.
  unfold trace_alone. revert w. induction p as [a|X e k IH]; intros w ev Hev; cbn [run_alone] in Hev.
  - by apply elem_of_nil in Hev.
  - specialize (IH (rserve X e w).1 (rserve X e w).2). destruct (run_alone _ _ _) as [[tr a] w'] eqn:E. cbn in Hev, IH.
    apply elem_of_cons in Hev as [->|Hev]; [|by apply IH]. destruct e; try done. destruct e; try done. by exists (w_engine w).
Qed.

Definition example_app (id status : string) (replicas : Z) : ReplicaApplication :=
  mkReplicaApplication id "web" replicas 256 512 1000 "docker" "nginx" status 0 0 0.
Definition example_instance (id app : string) (idx : Z) (node status : string) : Instance :=
  mkInstance id app idx node status 256 512 1000 None "p" None "docker" 0 0 0.

Definition app_world (apps : list ReplicaApplication) (instances : list Instance) : World :=
  ControlPlane.mkWorld
    (example_db <| db_apps := list_to_map (map (fun a => (ra_ID a, a)) apps) |>
                <| db_instances := list_to_map (map (fun i => (in_ID i, i)) instances) |>)
    600 (Strategy.mkWorld None 0 []) 0.

Definition example_manager : Manager :=
  mkManager (mkScheduler (NewEngine (LeastLoadedScorer "")) false false None (Some (mkReservationManager true true)) "")
    (Some (mkReservationManager true true)) true true true (Some DefaultReschedulePolicy).

Definition example_place : PlaceReplicasRequest := mkPlaceReplicasRequest "web" 2 256 512 1000 "" "" "" "" "" [].
Definition web_world : World := app_world [example_app "web" "pending" 2] [].

Lemma PlaceReplicas_sound_witness :
  exists reasons tr, returns (PlaceReplicas (mg_scheduler example_manager) example_place) tr (Got reasons) /\
    map re_Accepted reasons = [true; true] /\ map re_Index reasons ≡ₚ seqZ 0 2.
Proof.
  pose proof (returns_alone rserve (PlaceReplicas (mg_scheduler example_manager) example_place) web_world) as H.
  pose proof (rserve_engine (PlaceReplicas (mg_scheduler example_manager) example_place) web_world) as He.
  set (tr := trace_alone _ _ _) in *. clearbody tr.
  destruct (answer_alone rserve (PlaceReplicas (mg_scheduler example_manager) example_place) web_world) as [l|e] eqn:E;
    [|vm_compute in E; discriminate E].
  exists l, tr. split; [done|]. split; [vm_compute in E; by injection E as <-|].
  exact (proj1 (PlaceReplicas_sound _ _ _ _ _ H He)).
Defined.

Definition broken_world : World :=
  app_world [example_app "web" "running" 2] [example_instance "i0" "web" 0 "a" "failed"; example_instance "i1" "web" 1 "b" "running"].

Lemma ReplaceFailedInstance_sound_witness :
  exists reason tr, returns (ReplaceFailedInstance (mg_scheduler example_manager) "i0") tr (Got reason) /\
    re_Accepted reason = true.
Proof.
  pose proof (returns_alone rserve (ReplaceFailedInstance (mg_scheduler example_manager) "i0") broken_world) as H.
  pose proof (rserve_engine (ReplaceFailedInstance (mg_scheduler example_manager) "i0") broken_world) as He.
  set (tr := trace_alone _ _ _) in *. clearbody tr.
  destruct (answer_alone rserve (ReplaceFailedInstance (mg_scheduler example_manager) "i0") broken_world) as [r|e] eqn:E;
    [|vm_compute in E; discriminate E].
  destruct (ReplaceFailedInstance_sound _ _ _ _ _ H He) as (inst & app & tr0 & x & y & _ & _ & Ha & _).
  exists r, tr. by split.
Defined.

(** A deployment of an application that has the id of a server. *)
Definition server_app : ReplicaApplication := example_app "s1" "pending" 2.
Definition server_app_reasons : list PlacementReason :=
  [mkPlacementReason "" "b" 0 f0 true []; mkPlacementReason "" "" 1 f0 false ["no room"]].
Definition server_app_run : R_ (Z * Z) := deployReplicas example_manager server_app server_app_reasons 1 "op" 0 0.
Definition server_app_world : World := app_world [server_app] [].

Lemma deployReplicas_settles_witness :
  exists tr, returns server_app_run tr (1, 1) /\ granted tr = ["id-0"] /\
    accounts example_manager server_app 2 tr 1 1.
Proof.
  pose proof (returns_alone rserve server_app_run server_app_world) as H.
  assert (E : answer_alone rserve server_app_run server_app_world = (1, 1)) by (vm_compute; reflexivity).
  assert (G : granted (trace_alone rserve server_app_run server_app_world) = ["id-0"]) by (vm_compute; reflexivity).
  rewrite E in H. set (tr := trace_alone _ _ _) in *. clearbody tr. exists tr. split; [done|]. split; [done|].
  apply (deployReplicas_settles example_manager (mkReservationManager true true) server_app server_app_reasons 1 "op" tr 1 1);
    [done|done|exact H| |done].
  rewrite G. constructor; [|constructor]. intros E'. by vm_compute in E'.
Defined.

(** ** What goes wrong *)

(** A reservation names the application as its server, which the foreign key
    of the table refuses: no replica is ever deployed. *)
Lemma replica_reservation_refused req id wall now between db :
  rr_ServerID req <> "" -> db_servers (between (expire_overdue now db)) !! rr_ServerID req = None ->
  exists e db', CreatePlacementReservation req id wall now between db = (Failed e, db').
Proof.
  intros Hne Hno. destruct (CreatePlacementReservation req id wall now between db) as [[res|e] db'] eqn:E; [|eauto].
  exfalso. apply create_got in E as (req' & cap & row & Hreq & _ & Hrest). cbv zeta in Hrest.
  destruct Hrest as (_ & _ & Hins & _). apply insert_reservation_got in Hins as (_ & _ & _ & _ & _ & Hs & _).
  assert (Hid : pr_ServerID (new_reservation req' id now) = Some (rr_ServerID req)).
  { apply reservation_request_got in Hreq as (_ & Hsv & _). rewrite <- Hsv in Hne |- *.
    unfold new_reservation, nullable. cbn. by destruct (String.eqb_spec (rr_ServerID req') ""). }
  apply Hs in Hid as [s Hs']. congruence.
Qed.

Lemma replicas_are_not_deployed :
  answer_alone rserve (DeployApp example_manager "web") web_world =
    Failed (ErrText "all 2 replicas failed to deploy") /\
  option_map ra_Status (db_apps (w_db (world_alone rserve (DeployApp example_manager "web") web_world)) !! "web") = Some "failed".
Proof. by vm_compute. Qed.

(** A running application that is deployed again, or made larger, is marked
    failed, and nothing is deployed. *)
Lemma running_app_is_marked_failed :
  let w := world_alone rserve (ScaleApp example_manager "web" 3) broken_world in
  answer_alone rserve (ScaleApp example_manager "web" 3) broken_world = Got tt /\
  option_map ra_Status (db_apps (w_db w) !! "web") = Some "failed" /\
  size (db_instances (w_db w)) = 2%nat.
Proof. by vm_compute. Qed.

(** The indices of new replicas start at the number of live ones, which may be
    the index of one of them. *)
Lemma scale_up_reuses_an_index :
  match answer_alone rserve (ScaleReplicas (mg_scheduler example_manager) (mkScaleRequest "web" 2 "" "" [])) broken_world with
  | Got l => map re_Index l = [1] /\ map re_Accepted l = [true]
  | Failed _ => False
  end /\ option_map in_Idx (db_instances (w_db broken_world) !! "i1") = Some 1.
Proof. by vm_compute. Qed.

(** An instance whose replacement stops at the list of the nodes stays
    "removing", although an abandoned replacement should put it back. *)
Lemma replacement_strands_an_instance s :
  returns (ReplaceFailedInstance s "i0")
    [answered (select (GetInstance "i0")) (Got (example_instance "i0" "web" 0 "a" "failed"));
     answered (select (GetReplicaApp "web")) (Got (example_app "web" "running" 2));
     answered (stmt (UpdateInstanceStatus "i0" "removing")) (Got (example_instance "i0" "web" 0 "a" "removing"));
     answered (RCtl nodes_read) (Failed (ErrText "timeout"))]
    (Failed (ErrText "timeout")).
Proof. repeat (eexists; split; [reflexivity|]). reflexivity. Qed.

(** An application that is scaled to nothing has failed. *)
Lemma scaled_to_zero_is_failed : computeAppStatus 0 0 = AppDeploymentStatusFailed.
Proof. done. Qed.

(** The status of an instance that is being stopped is outside the check. *)
Lemma stopping_is_refused id i now db :
  db_instances db !! id = Some i -> UpdateInstanceStatus id "stopping" now db = (Failed ErrCheck, db).
Proof. intros E. unfold UpdateInstanceStatus. rewrite E. done. Qed.
