(* ===== verification/BeaconClient.v ===== *)
(** * The client of the nodes for replica commands

    [forge/api/internal/services/replicamanager/beacon_client.go] and
    [remote_dispatcher.go]: the two ways a replica command of [ReplicaManager]
    reaches the beacon of a node.  [BeaconHTTPClient] looks at the node's
    heartbeat, keeps a circuit breaker per node and checks the version of the
    beacon before it sends; [RemoteCommandDispatcher] just sends.

    A call is a program over [BEff]; what it does under the client's mutex is
    one request ([BMem]) on the map of circuits.  The row of the node and its
    credential come from the database, the HTTP calls are answered by the node.
    Logging, and the times inside the error texts, are left out. *)
From Stdlib Require Import ZArith Lia Ascii Floats.SpecFloat.
From stdpp Require Import base gmap strings list fin_maps.
From coqutil Require Import Datatypes.RecordSettersUsingExistingGetters.
From S2P Require Import Prelude GoStrings GoFloat Programs Capacity ReplicaManager.
Import RecordSetNotations1.
#[local] Open Scope string_scope.
#[local] Open Scope list_scope.
#[local] Open Scope Z_scope.
#[local] Open Scope go_scope.

(** ** Versions *)

(** [strings.Cut] and [strings.SplitN] with a separator of one byte. *)
Fixpoint cut (c : ascii) (s : string) : option (string * string) :=
  match s with
  | EmptyString => None
  | String a r =>
      if Ascii.eqb a c then Some (EmptyString, r)
      else match cut c r with Some (x, y) => Some (String a x, y) | None => None end
  end.

Fixpoint SplitN (c : ascii) (n : nat) (s : string) : list string :=
  match n with
  | O => []
  | 1%nat => [s]
  | S n => match cut c s with Some (x, y) => x :: SplitN c n y | None => [s] end
  end.

Definition TrimPrefix (s p : string) : string := if HasPrefix s p then str_drop (String.length p) s else s.

(* go: services/replicamanager/beacon_client.go func:requireCompatibleBeacon *)
Definition requireCompatibleBeacon (version : string) : error :=
  let invalid := Some (cat ["Beacon returned invalid version "; quote version]) in
  match SplitN "." 3 (TrimPrefix (TrimSpace version) "v") with
  | [p0; p1; p2] =>
      match Atoi p0, Atoi p1, Atoi (hd "" (SplitN "-" 2 p2)) with
      | Some major, Some minor, Some patch =>
          if (major <? 0) || (minor <? 0) || (patch <? 0) then invalid
          else if negb (major =? 0) || (minor <? 1)
          then Some (cat ["Beacon version "; quote version; " is incompatible; supported range is >=0.1.0 <1.0.0"])
          else None
      | _, _, _ => invalid
      end
  | _ => invalid
  end.

Example versions :
  map requireCompatibleBeacon ["0.1.0"; " v0.4.2-rc.1 "; "0.9.10"] = [None; None; None] /\
  Forall (fun v => requireCompatibleBeacon v <> None) ["0.0.9"; "1.0.0"; "0.1"; "0.1.x"; "0.-1.0"; ""].
Proof. split; [vm_compute; reflexivity|]. repeat constructor; vm_compute; discriminate. Qed.

(** ** Payloads *)

(** The values of a decoded payload the client looks at. *)
Inductive PayloadValue := VInt (z : Z) | VInt64 (z : Z) | VFloat64 (x : float) | VNumber (s : string) | VString (s : string) | VOther.

(** [oor] answers conversions that do not fit. *)
(* go: services/replicamanager/beacon_client.go func:extractInt *)
Definition extractInt (oor : float -> Z) (m : gmap string PayloadValue) (key : string) : option Z :=
  match m !! key with
  | Some (VInt z) | Some (VInt64 z) => Some z
  | Some (VFloat64 x) => Some (to_int64 oor x)
  | Some (VNumber s) => Atoi s
  | _ => None
  end.

Definition text_of (m : gmap string PayloadValue) (key : string) : string :=
  match m !! key with Some (VString s) => s | _ => "" end.

(** The payload the manager builds. *)
Definition start_payload (r : StartInstanceRequest) : gmap string PayloadValue :=
  list_to_map [("appId", VString (si_AppID r)); ("instanceId", VString (si_InstanceID r));
               ("nodeId", VString (si_NodeID r)); ("index", VInt (si_Index r)); ("cpu", VInt (si_CPU r));
               ("memoryMb", VInt (si_MemoryMB r)); ("diskMb", VInt (si_DiskMB r));
               ("runtimeProvider", VString (si_RuntimeProvider r)); ("generation", VInt (si_Generation r));
               ("image", VString (si_Image r))].

(** The fields of [daemon.CreateRequest] a replica has. *)
Record ReplicaCreateRequest := mkReplicaCreateRequest {
  rc_ServerID : string;
  rc_MemoryMB : Z;
  rc_CPUShares : Z;
  rc_DiskMB : Z;
  rc_Provider : string;
  rc_NetworkName : string;
  rc_Image : string
}.

(** ** The circuits *)

(* go: services/replicamanager/beacon_client.go type:nodeCircuitState *)
Record nodeCircuitState := mkCircuit {
  cs_failures : Z;
  cs_openUntil : Time;
  cs_lastHealthy : Time;
  cs_version : string;
  cs_preflightCacheHits : Z
}.

Definition closed_circuit : nodeCircuitState := mkCircuit 0 zeroTime zeroTime "" 0.

Notation Circuits := (gmap string nodeCircuitState).
Definition circuit_of (nodeID : string) (c : Circuits) : nodeCircuitState := default closed_circuit (c !! nodeID).

(* go: services/replicamanager/beacon_client.go const:preflightHealthyTTL *)
Definition preflightHealthyTTL : Duration := 10 * Second.

(* go: services/replicamanager/beacon_client.go func:BeaconHTTPClient.recordFailure *)
Definition recordFailure (nodeID : string) (now : Time) (c : Circuits) : unit * Circuits :=
  let s := circuit_of nodeID c in
  let failures := iadd (cs_failures s) 1 in
  (tt, <[nodeID := mkCircuit failures (if 3 <=? failures then now + 30 * Second else cs_openUntil s) zeroTime
                     (cs_version s) (cs_preflightCacheHits s)]> c).

(* go: services/replicamanager/beacon_client.go func:BeaconHTTPClient.recordSuccess *)
Definition recordSuccess (nodeID : string) (now : Time) (c : Circuits) : unit * Circuits :=
  let s := circuit_of nodeID c in
  (tt, <[nodeID := mkCircuit 0 zeroTime now (cs_version s) (cs_preflightCacheHits s)]> c).

(** What the circuit says before a call. *)
Inductive Gate := CircuitOpen | HealthCached | MustCheck.

(* go: services/replicamanager/beacon_client.go L189-202 *)
Definition gate (nodeID : string) (at_ : Time) (c : Circuits) : Gate * Circuits :=
  let s := circuit_of nodeID c in
  if Before at_ (cs_openUntil s) then (CircuitOpen, c)
  else if (time_sub at_ (cs_lastHealthy s) <? preflightHealthyTTL) && negb (cs_version s =? "")%string
  then (HealthCached,
        <[nodeID := s <| cs_preflightCacheHits := cs_preflightCacheHits s + 1 |>]> c)
  else (MustCheck, c).

(* go: services/replicamanager/beacon_client.go L213-220 *)
Definition note_healthy (nodeID version : string) (at_ : Time) (c : Circuits) : unit * Circuits :=
  (tt, <[nodeID := mkCircuit 0 zeroTime at_ version (cs_preflightCacheHits (circuit_of nodeID c))]> c).

(* go: services/replicamanager/beacon_client.go func:BeaconHTTPClient.PreflightCacheHits *)
Definition PreflightCacheHits (c : Circuits) : gmap string Z :=
  omap (fun s => if 0 <? cs_preflightCacheHits s then Some (cs_preflightCacheHits s) else None) c.

(** ** Programs *)

(** What the client reads of a node. *)
Record ReplicaNode := mkReplicaNode {
  rn_HeartbeatState : string;
  rn_HeartbeatInterval : Z;
  rn_LastHeartbeatAt : Time;
  rn_BaseURL : string
}.

(** [daemon.ContainerStateResponse], or that the node has no such route. *)
Inductive ContainerState := StateOf (exists_ running : bool) (status : string) | StateUnsupported | StateError (e : string).

Inductive BEff : Type -> Type :=
| BNode (nodeID : string) : BEff (answer ReplicaNode)
| BCredential (nodeID : string) : BEff (answer string)
| BClock : BEff Time
| BMem {A} (f : Time -> Circuits -> A * Circuits) : BEff A
| BCapabilities (url token : string) : BEff (result string)
| BCreate (url token commandID : string) (req : ReplicaCreateRequest) : BEff error
| BDelete (url token commandID instanceID : string) : BEff error
| BState (url token instanceID : string) : BEff ContainerState
| BStats (url token instanceID : string) : BEff error.

Definition B_ (A : Type) : Type := prog BEff A.

Notation "m ;;^ k" := (pbind m (fun _ => k))
  (at level 100, k at level 200, right associativity, only parsing) : go_scope.

Definition refuse (msg : string) : B_ error := Ret (Some msg).

(** [daemonClient]: whether there is one. *)
Section Client.
Context (daemonClient : bool) (oor : float -> Z).

Definition failing (nodeID msg : string) : B_ error :=
  request (BMem (recordFailure nodeID)) ;;^ refuse msg.
Definition succeeding (nodeID : string) (err : error) : B_ error :=
  request (BMem (recordSuccess nodeID)) ;;^ Ret err.

(* go: services/replicamanager/beacon_client.go func:BeaconHTTPClient.preflight *)
Definition preflight (nodeID baseURL token : string) : B_ error :=
  let^ now := request BClock in
  let^ g := request (BMem (fun _ => gate nodeID now)) in
  match g with
  | CircuitOpen => refuse "circuit is open"
  | HealthCached => Ret None
  | MustCheck =>
      let^ capabilities := request (BCapabilities baseURL token) in
      match capabilities with
      | Err e => refuse (cat ["health/capability check failed: "; e])
      | Ok version =>
          match requireCompatibleBeacon version with
          | Some e => refuse e
          | None => request (BMem (fun _ => note_healthy nodeID version now)) ;;^ Ret None
          end
      end
  end.

(** How old a heartbeat may be. *)
Definition staleAfter (n : ReplicaNode) : Duration :=
  let d := imul (imul (rn_HeartbeatInterval n) 3) Second in
  if (0 <? rn_HeartbeatInterval n) && (Minute <? d) then d else Minute.

(** The request of a start command, or the field that is missing. *)
(* go: services/replicamanager/beacon_client.go L123-148 *)
Definition create_request (payload : gmap string PayloadValue) : result ReplicaCreateRequest :=
  let missing key := Err (cat ["start command payload is missing required field "; quote key]) in
  match extractInt oor payload "memoryMb" with
  | None => missing "memoryMb"
  | Some memoryMb =>
      match extractInt oor payload "cpu" with
      | None => missing "cpu"
      | Some cpu =>
          match extractInt oor payload "diskMb" with
          | None => missing "diskMb"
          | Some diskMb =>
              Ok (mkReplicaCreateRequest (text_of payload "instanceId") memoryMb cpu diskMb
                    (text_of payload "runtimeProvider") "gamepanel" (text_of payload "image"))
          end
      end
  end.

(** A node that cannot take commands, by its row. *)
(* go: services/replicamanager/beacon_client.go L79-98 *)
Definition unfit (nodeID : string) (n : ReplicaNode) (now : Time) : error :=
  if EqualFold (rn_HeartbeatState n) "offline" then Some (cat ["Beacon node "; nodeID; " is offline"])
  else if rn_LastHeartbeatAt n =? zeroTime then Some (cat ["Beacon node "; nodeID; " has never reported a heartbeat"])
  else if staleAfter n <? time_sub now (rn_LastHeartbeatAt n)
  then Some (cat ["Beacon node "; nodeID; " heartbeat is stale or offline"])
  else None.

(* go: services/replicamanager/beacon_client.go func:BeaconHTTPClient.DispatchCommand *)
Definition DispatchCommand (nodeID commandID : string) (c : InstanceCommandType)
    (payload : gmap string PayloadValue) : B_ error :=
  if negb daemonClient then refuse "daemon client is nil"
  else
    let^ r := request (BNode nodeID) in
    match r with
    | Failed e => refuse (cat ["failed to get node "; nodeID; ": "; store_error_text e])
    | Got node =>
        let^ now := request BClock in
        match unfit nodeID node now with
        | Some msg => failing nodeID msg
        | None =>
            let^ t := request (BCredential nodeID) in
            match t with
            | Failed e => refuse (cat ["failed to get node credentials for "; nodeID; ": "; store_error_text e])
            | Got token =>
                let^ err := preflight nodeID (rn_BaseURL node) token in
                match err with
                | Some e => failing nodeID (cat ["Beacon node "; nodeID; " is not ready: "; e])
                | None =>
                    match c with
                    | StartInstanceCommand =>
                        match create_request payload with
                        | Err e => refuse e
                        | Ok req =>
                            let^ err := request (BCreate (rn_BaseURL node) token commandID req) in
                            match err with
                            | Some e => failing nodeID (cat ["failed to dispatch start command to node "; nodeID; ": "; e])
                            | None => succeeding nodeID None
                            end
                        end
                    | StopInstanceCommand =>
                        let^ err := request (BDelete (rn_BaseURL node) token commandID (text_of payload "instanceId")) in
                        match err with
                        | Some e => failing nodeID (cat ["failed to dispatch stop command to node "; nodeID; ": "; e])
                        | None => succeeding nodeID None
                        end
                    end
                end
            end
        end
    end.

(* go: services/replicamanager/beacon_client.go func:BeaconHTTPClient.VerifyInstance *)
Definition VerifyInstance (nodeID instanceID : string) : B_ error :=
  if negb daemonClient then refuse "daemon client is nil"
  else
    let^ r := request (BNode nodeID) in
    match r with
    | Failed e => refuse (store_error_text e)
    | Got node =>
        let^ t := request (BCredential nodeID) in
        match t with
        | Failed e => refuse (store_error_text e)
        | Got token =>
            let^ err := preflight nodeID (rn_BaseURL node) token in
            match err with
            | Some e => failing nodeID e
            | None =>
                let^ s := request (BState (rn_BaseURL node) token instanceID) in
                match s with
                | StateUnsupported =>
                    let^ err := request (BStats (rn_BaseURL node) token instanceID) in
                    succeeding nodeID
                      (match err with
                       | Some e => Some (cat ["beacon exposes no container lifecycle state and instance stats failed: "; e])
                       | None => None end)
                | StateError e => failing nodeID (cat ["query Beacon instance state: "; e])
                | StateOf exists_ running status =>
                    succeeding nodeID
                      (if negb exists_ then Some (cat ["instance "; instanceID; " is not present on node "; nodeID])
                       else if negb running then
                         Some (cat ["instance "; instanceID; " is "; if (status =? "")%string then "not running" else status;
                                    " on node "; nodeID])
                       else None)
                end
            end
        end
    end.
End Client.

(** ** The dispatcher *)

(** Both of its commands find the node and its credential first. *)
Definition to_node (nodeID : string) (call : string -> string -> BEff error) : B_ error :=
  let^ r := request (BNode nodeID) in
  match r with
  | Failed e => refuse (store_error_text e)
  | Got node =>
      let^ t := request (BCredential nodeID) in
      match t with
      | Failed e => refuse (store_error_text e)
      | Got token => request (call (rn_BaseURL node) token)
      end
  end.

(* go: services/replicamanager/remote_dispatcher.go func:RemoteCommandDispatcher.StartInstance *)
Definition StartInstance (r : StartInstanceRequest) : B_ error :=
  to_node (si_NodeID r) (fun url token => BCreate url token (si_CommandID r)
    (mkReplicaCreateRequest (si_InstanceID r) (si_MemoryMB r) (si_CPU r) (si_DiskMB r) (si_RuntimeProvider r)
       "gamepanel" (si_Image r))).

(* go: services/replicamanager/remote_dispatcher.go func:RemoteCommandDispatcher.StopInstance *)
Definition StopInstance (r : StopInstanceRequest) : B_ error :=
  to_node (st_NodeID r) (fun url token => BDelete url token (st_CommandID r) (st_InstanceID r)).

(** Without a dispatcher every command is refused. *)
(* go: services/replicamanager/commands.go const:ErrDispatcherNotConfigured *)
Definition ErrDispatcherNotConfigured : string := "beacon command dispatcher is not configured".
(* go: services/replicamanager/commands.go func:UnavailableCommandDispatcher.StartInstance *)
Definition unavailable_start (r : StartInstanceRequest) : B_ error :=
  refuse (cat ["start replica "; si_InstanceID r; " on node "; si_NodeID r; ": "; ErrDispatcherNotConfigured]).
(* go: services/replicamanager/commands.go func:UnavailableCommandDispatcher.StopInstance *)
Definition unavailable_stop (r : StopInstanceRequest) : B_ error :=
  refuse (cat ["stop replica "; st_InstanceID r; " on node "; st_NodeID r; ": "; ErrDispatcherNotConfigured]).

(** ** The circuit is its history *)

(** The critical sections that change circuits, with their times. *)
Inductive CircuitOp :=
| OpFailure (nodeID : string) (now : Time)
| OpSuccess (nodeID : string) (now : Time)
| OpHealthy (nodeID version : string) (at_ : Time)
| OpGate (nodeID : string) (at_ : Time).

Definition circuit_step (c : Circuits) (o : CircuitOp) : Circuits :=
  match o with
  | OpFailure n now => (recordFailure n now c).2
  | OpSuccess n now => (recordSuccess n now c).2
  | OpHealthy n v at_ => (note_healthy n v at_ c).2
  | OpGate n at_ => (gate n at_ c).2
  end.

Definition circuits_after (ops : list CircuitOp) : Circuits := foldl circuit_step ∅ ops.

(** The failures of a node since its last success: how many, and the time of
    the last one. *)
Definition history_step (nodeID : string) (h : Z * Time) (o : CircuitOp) : Z * Time :=
  match o with
  | OpFailure n now => if (n =? nodeID)%string then (h.1 + 1, now) else h
  | OpSuccess n _ | OpHealthy n _ _ => if (n =? nodeID)%string then (0, zeroTime) else h
  | OpGate _ _ => h
  end.

Definition history (nodeID : string) (ops : list CircuitOp) : Z * Time := foldl (history_step nodeID) (0, zeroTime) ops.

Lemma circuit_of_insert n k s c : circuit_of n (<[k := s]> c) = if (n =? k)%string then s else circuit_of n c.
Proof.
  unfold circuit_of. destruct (String.eqb_spec n k) as [->|N]; [by rewrite lookup_insert_eq|by rewrite lookup_insert_ne].
Qed.

Lemma gate_circuit n k at_ c :
  cs_failures (circuit_of n (gate k at_ c).2) = cs_failures (circuit_of n c) /\
  cs_openUntil (circuit_of n (gate k at_ c).2) = cs_openUntil (circuit_of n c).
Proof.
  unfold gate. destruct (Before _ _); [done|]. destruct (_ && _); [|done]. cbn [snd]. rewrite circuit_of_insert.
  by destruct (String.eqb_spec n k) as [->|].
Qed.

(** What the history says the circuit is. *)
Definition as_history (s : nodeCircuitState) (h : Z * Time) : Prop :=
  cs_failures s = h.1 /\ cs_openUntil s = if 3 <=? h.1 then h.2 + 30 * Second else zeroTime.

Lemma circuit_step_history n ops c h :
  as_history (circuit_of n c) h -> 0 <= h.1 -> h.1 + Z.of_nat (length ops) <= max64 ->
  as_history (circuit_of n (foldl circuit_step c ops)) (foldl (history_step n) h ops).
Proof.
  revert c h. induction ops as [|o ops IH]; intros c h Hh Hpos Hlen; [done|]. cbn [foldl length] in *.
  rewrite Nat2Z.inj_succ in Hlen.
  assert (Hstep : as_history (circuit_of n (circuit_step c o)) (history_step n h o) /\
                  0 <= (history_step n h o).1 <= h.1 + 1).
  { destruct Hh as [Hf Ho]. destruct o as [k now|k now|k v at_|k at_]; cbn [circuit_step history_step recordFailure recordSuccess note_healthy snd];
      [rewrite circuit_of_insert, String.eqb_sym; destruct (String.eqb_spec k n) as [->|N]; (split; [|cbn; lia])..|].
    - split; cbn; rewrite Hf, iadd_exact by (unfold in64, min64 in *; lia); [done|].
      destruct (3 <=? h.1 + 1) eqn:E; [done|]. rewrite Ho. destruct (3 <=? h.1) eqn:E'; [lia|done].
    - by split.
    - by split.
    - by split.
    - by split.
    - by split.
    - destruct (gate_circuit n k at_ c) as [E1 E2]. split; [|lia]. by split; rewrite ?E1, ?E2. }
  destruct Hstep as [Hs Hb]. apply IH; [done|lia|lia].
Qed.

(** C34: A circuit is what happened to its node: it holds the number of failures
    since the last success, and the client is turned away at the gate exactly
    when there were three or more and the last one is less than 30 seconds
    old; other nodes have no part in it. *)
Theorem circuit_is_history ops n at_ (Hlen : Z.of_nat (length ops) <= max64) (Hat : zeroTime <= at_) :
  cs_failures (circuit_of n (circuits_after ops)) = (history n ops).1 /\
  ((gate n at_ (circuits_after ops)).1 = CircuitOpen <->
   3 <= (history n ops).1 /\ at_ < (history n ops).2 + 30 * Second).
Proof.
  assert (H : as_history (circuit_of n (circuits_after ops)) (history n ops)).
  { apply circuit_step_history; [by split|done|cbn; lia]. }
  destruct H as [Hf Ho]. split; [done|]. unfold gate. rewrite Ho. unfold Before.
  destruct (Z.leb_spec 3 (history n ops).1).
  - destruct (Z.ltb_spec at_ ((history n ops).2 + 30 * Second)); [cbn; naive_solver|].
    destruct (_ && _); cbn; (split; [done|lia]).
  - destruct (Z.ltb_spec at_ zeroTime); [lia|]. destruct (_ && _); cbn; (split; [done|lia]).
Qed.

Definition example_ops : list CircuitOp :=
  [OpFailure "n" 0; OpSuccess "n" 1; OpFailure "n" 2; OpFailure "m" 3; OpFailure "n" 4; OpGate "n" 5; OpFailure "n" 6].

Lemma circuit_is_history_witness :
  cs_failures (circuit_of "n" (circuits_after example_ops)) = 3 /\
  (gate "n" (6 + 30 * Second) (circuits_after example_ops)).1 <> CircuitOpen.
Proof.
  assert (Z0 : zeroTime <= 6 + 30 * Second) by (vm_compute; discriminate).
  destruct (circuit_is_history example_ops "n" (6 + 30 * Second) ltac:(vm_compute; discriminate) Z0) as [Hf Hg].
  split; [rewrite Hf; vm_compute; reflexivity|]. intros E. apply Hg in E as [_ E]. cbn in E. lia.
Defined.

(** ** What reaches a node *)

Definition command_sent (c : InstanceCommandType) (url token commandID : string) (payload : gmap string PayloadValue)
    (oor : float -> Z) (ev : exchange BEff) : Prop :=
  match c with
  | StartInstanceCommand => exists req, create_request oor payload = Ok req /\ ev = answered (BCreate url token commandID req) None
  | StopInstanceCommand => ev = answered (BDelete url token commandID (text_of payload "instanceId")) None
  end.

(** The requests of a run that are HTTP calls. *)
Definition reaches_node (ev : exchange BEff) : bool :=
  match ev with existT _ (e, _) =>
    match e with
    | BCapabilities _ _ | BCreate _ _ _ _ | BDelete _ _ _ _ | BState _ _ _ | BStats _ _ _ => true
    | _ => false
    end end.

Ltac brun :=
  repeat match goal with
  | H : returns (pbind (request _) _) _ _ |- _ => apply returns_request in H as (? & ? & -> & ?)
  | H : returns (pbind _ _) _ _ |- _ => apply returns_bind in H as (? & ? & ? & -> & ? & ?)
  | H : returns (refuse _) _ _ |- _ => apply ControlPlane.returns_ret in H as [-> ?]
  | H : returns (Ret _) _ _ |- _ => apply ControlPlane.returns_ret in H as [-> ?]
  | H : returns (request _) _ _ |- _ => apply ControlPlane.returns_one in H as ->
  | H : Some _ = None |- _ => discriminate H
  end; subst.

Lemma preflight_run nodeID url token tr err :
  returns (preflight nodeID url token) tr err ->
  exists now g tr', tr = answered BClock now :: answered (BMem (fun _ => gate nodeID now)) g :: tr' /\
    (g = CircuitOpen -> err <> None /\ tr' = []) /\
    (g = HealthCached -> err = None /\ tr' = []) /\
    (g = MustCheck -> err = None -> exists version, requireCompatibleBeacon version = None /\
       tr' = [answered (BCapabilities url token) (Ok version);
              answered (BMem (fun _ => note_healthy nodeID version now)) tt]).
Proof.
  unfold preflight. intros H. brun. match goal with g : Gate |- _ => destruct g end; brun.
  - eexists _, _, _. split; [done|]. by split_and!.
  - eexists _, _, _. split; [done|]. by split_and!.
  - eexists _, _, _. split; [done|]. split_and!; [done|done|]. intros _ ->.
    match goal with H : returns (match ?r with Ok _ => _ | Err _ => _ end) _ _ |- _ => destruct r as [v|e] end; brun; try done.
    destruct (requireCompatibleBeacon v) eqn:E; brun; try done. exists v. split; [done|].
    match goal with u : unit |- _ => destruct u end. done.
Qed.

(** *** The versions on record

    A version is only noted after it was found to be supported; successes and
    failures keep it. *)
Definition supported_versions (c : Circuits) : Prop :=
  forall n, cs_version (circuit_of n c) = "" \/ requireCompatibleBeacon (cs_version (circuit_of n c)) = None.

Definition keeps_supported (X : Type) (e : BEff X) : Prop :=
  match e with
  | BMem f => forall now c, supported_versions c -> supported_versions (f now c).2
  | _ => True
  end.

Lemma supported_insert k s c : supported_versions c -> cs_version s = "" \/ requireCompatibleBeacon (cs_version s) = None ->
  supported_versions (<[k := s]> c).
Proof. intros H Hs n. rewrite circuit_of_insert. destruct (n =? k)%string; [exact Hs|apply H]. Qed.

Lemma failure_supported nodeID : keeps_supported _ (BMem (recordFailure nodeID)).
Proof. intros now c H. apply supported_insert; [done|apply H]. Qed.

Lemma success_supported nodeID : keeps_supported _ (BMem (recordSuccess nodeID)).
Proof. intros now c H. apply supported_insert; [done|apply H]. Qed.

Lemma gate_supported nodeID at_ : keeps_supported _ (BMem (fun _ => gate nodeID at_)).
Proof. intros now c H. unfold gate. destruct (Before _ _); [done|]. destruct (_ && _); [|done]. apply supported_insert; [done|apply H]. Qed.

Lemma noted_supported nodeID version at_ : requireCompatibleBeacon version = None ->
  keeps_supported _ (BMem (fun _ => note_healthy nodeID version at_)).
Proof. intros Hv now c H. apply supported_insert; [done|by right]. Qed.

#[local] Hint Resolve failure_supported success_supported gate_supported noted_supported : core.

(** Goes through a program of the client. *)
Ltac bkeeps :=
  repeat first
    [ progress unfold refuse, failing, succeeding
    | match goal with
      | |- only _ (pbind _ _) => apply only_bind; [|intros]
      | |- only _ (request _) => apply only_request; first [exact I | solve [auto]]
      | |- only _ (Ret _) => exact I
      | |- only _ (if ?b then _ else _) => destruct b
      | |- only _ (match ?x with _ => _ end) => destruct x eqn:?
      end ].

Lemma preflight_supported nodeID url token : only keeps_supported (preflight nodeID url token).
Proof. unfold preflight. bkeeps. Qed.

Lemma dispatch_supported client oor nodeID commandID c payload :
  only keeps_supported (DispatchCommand client oor nodeID commandID c payload).
Proof. unfold DispatchCommand. bkeeps; apply preflight_supported. Qed.

Lemma verify_supported client nodeID instanceID : only keeps_supported (VerifyInstance client nodeID instanceID).
Proof. unfold VerifyInstance. bkeeps; apply preflight_supported. Qed.

(** What lets a call through without a check. *)
Lemma cached_supported nodeID at_ c : (gate nodeID at_ c).1 = HealthCached ->
  cs_openUntil (circuit_of nodeID c) <= at_ /\ time_sub at_ (cs_lastHealthy (circuit_of nodeID c)) < preflightHealthyTTL /\
  (supported_versions c -> requireCompatibleBeacon (cs_version (circuit_of nodeID c)) = None).
Proof.
  unfold gate, Before. destruct (Z.ltb_spec at_ (cs_openUntil (circuit_of nodeID c))); [done|].
  destruct (_ && _) eqn:E; [|done]. intros _. apply andb_true_iff in E as [E1 E2]. zb. split_and!; [done|done|].
  intros Hs. destruct (Hs nodeID) as [Hv|Hv]; [|done]. by rewrite Hv in E2.
Qed.

(** C33: A command counts as delivered only when it was: the node was not
    reported offline, its last heartbeat was fresh when the command was sent,
    its circuit was not open, and the node accepted that very command, once,
    and nothing else was sent.  The version of its beacon was checked now and is
    supported, unless the client knows the node as healthy: then a check or a
    call of the node succeeded within the last ten seconds (some earlier check
    put the version on record, and nothing is asked now).  No step of a dispatch
    puts a version on record that was not found to be supported. *)
Theorem DispatchCommand_delivers client oor nodeID commandID c payload tr
    (H : returns (DispatchCommand client oor nodeID commandID c payload) tr None) :
  only keeps_supported (DispatchCommand client oor nodeID commandID c payload) /\
  exists node now token at_ g checks sent,
    tr = answered (BNode nodeID) (Got node) :: answered BClock now :: answered (BCredential nodeID) (Got token) ::
         answered BClock at_ :: answered (BMem (fun _ => gate nodeID at_)) g :: checks ++
         [sent; answered (BMem (recordSuccess nodeID)) tt] /\
    unfit nodeID node now = None /\ g <> CircuitOpen /\
    (g = HealthCached -> checks = [] /\ forall circuits, (gate nodeID at_ circuits).1 = g ->
       time_sub at_ (cs_lastHealthy (circuit_of nodeID circuits)) < preflightHealthyTTL /\
       (supported_versions circuits -> requireCompatibleBeacon (cs_version (circuit_of nodeID circuits)) = None)) /\
    (g = MustCheck -> exists version, requireCompatibleBeacon version = None /\
       checks = [answered (BCapabilities (rn_BaseURL node) token) (Ok version);
                 answered (BMem (fun _ => note_healthy nodeID version at_)) tt]) /\
    command_sent c (rn_BaseURL node) token commandID payload oor sent.
Proof.
  split; [apply dispatch_supported|].
  unfold DispatchCommand, failing, succeeding in H. destruct client; cbn [negb] in H; brun; try done.
  match goal with H : returns (match ?r with Got _ => _ | Failed _ => _ end) _ _ |- _ => destruct r as [node|e] end; brun; try done.
  destruct (unfit nodeID node _) as [msg|] eqn:Eu; brun; try done.
  match goal with H : returns (match ?r with Got _ => _ | Failed _ => _ end) _ _ |- _ => destruct r as [token|e] end; brun; try done.
  match goal with H : returns (preflight _ _ _) _ ?e |- _ =>
    destruct (preflight_run _ _ _ _ _ H) as (at_ & g & checks & -> & Ho & Hc & Hm); destruct e as [e|]; brun; try done end.
  assert (Hg : g <> CircuitOpen) by (intros ->; by destruct (Ho eq_refl)).
  assert (Hcache : g = HealthCached -> checks = [] /\ forall circuits, (gate nodeID at_ circuits).1 = g ->
       time_sub at_ (cs_lastHealthy (circuit_of nodeID circuits)) < preflightHealthyTTL /\
       (supported_versions circuits -> requireCompatibleBeacon (cs_version (circuit_of nodeID circuits)) = None)).
  { intros E. split; [by apply Hc|]. intros circuits Ec. rewrite E in Ec. by apply cached_supported in Ec as (_ & ? & ?). }
  destruct c.
  - destruct (create_request oor payload) as [req|e] eqn:Er; brun; try done.
    match goal with H : returns (match ?r with Some _ => _ | None => _ end) _ _ |- _ => destruct r as [e|] end; brun; try done.
    match goal with u : unit |- _ => destruct u end.
    eexists node, _, token, at_, g, checks, _. split_and!; [done|done|done|exact Hcache|by intros E; apply Hm|by exists req].
  - brun. match goal with H : returns (match ?r with Some _ => _ | None => _ end) _ _ |- _ => destruct r as [e|] end; brun; try done.
    match goal with u : unit |- _ => destruct u end.
    eexists node, _, token, at_, g, checks, _. split_and!; [done|done|done|exact Hcache|by intros E; apply Hm|done].
Qed.

(** ** A healthy node behind an open circuit *)

Record ClientWorld := mkClientWorld { bw_circuits : Circuits; bw_now : Time }.

(** The node is fine: it reports, and answers everything. *)
Definition bserve (X : Type) (e : BEff X) (w : ClientWorld) : X * ClientWorld :=
  match e in BEff X return X * ClientWorld with
  | BNode _ => (Got (mkReplicaNode "healthy" 15 (bw_now w) "http://node"), w)
  | BCredential _ => (Got "token", w)
  | BClock => (bw_now w, w)
  | BMem f => let r := f (bw_now w) (bw_circuits w) in (r.1, mkClientWorld r.2 (bw_now w))
  | BCapabilities _ _ => (Ok "0.4.0", w)
  | BCreate _ _ _ _ => (None, w)
  | BDelete _ _ _ _ => (None, w)
  | BState _ _ _ => (StateOf true true "running", w)
  | BStats _ _ _ => (None, w)
  end.

Definition example_start : gmap string PayloadValue :=
  start_payload (mkStartInstanceRequest "app" "i0" "n" 0 256 512 1000 "docker" "cmd" "op" 1 "nginx").
Definition example_dispatch : B_ error := DispatchCommand true (fun _ => 0) "n" "cmd" StartInstanceCommand example_start.

Lemma DispatchCommand_delivers_witness :
  exists tr, returns example_dispatch tr None /\ length tr = 9%nat.
Proof.
  pose proof (returns_alone bserve example_dispatch (mkClientWorld ∅ (100 * Second))) as H.
  assert (E : answer_alone bserve example_dispatch (mkClientWorld ∅ (100 * Second)) = None) by (vm_compute; reflexivity).
  rewrite E in H. set (tr := trace_alone _ _ _) in *. exists tr. split; [exact H|].
  destruct (DispatchCommand_delivers _ _ _ _ _ _ _ H) as (_ & node & now & token & at_ & g & checks & sent & _).
  subst tr. vm_compute. reflexivity.
Defined.

(** A call that the open circuit turns away is charged to the node: it opens
    the circuit for another 30 seconds.  Called more often than that, a node
    that has become healthy is never tried again. *)
Lemma rejected_call_reopens w :
  3 <= cs_failures (circuit_of "n" (bw_circuits w)) < max64 ->
  bw_now w < cs_openUntil (circuit_of "n" (bw_circuits w)) -> bw_now w <> zeroTime ->
  let w' := world_alone bserve example_dispatch w in
  answer_alone bserve example_dispatch w <> None /\ bw_now w' = bw_now w /\
  cs_failures (circuit_of "n" (bw_circuits w')) = cs_failures (circuit_of "n" (bw_circuits w)) + 1 /\
  cs_openUntil (circuit_of "n" (bw_circuits w')) = bw_now w + 30 * Second.
Proof.
  destruct w as [c now]. cbn [bw_circuits bw_now]. intros Hf Ho Hz.
  assert (Eg : gate "n" now c = (CircuitOpen, c)).
  { unfold gate, Before. by rewrite (proj2 (Z.ltb_lt _ _) Ho). }
  assert (Eu : unfit "n" (mkReplicaNode "healthy" 15 now "http://node") now = None).
  { unfold unfit. cbn [rn_HeartbeatState rn_LastHeartbeatAt]. rewrite (proj2 (Z.eqb_neq now zeroTime) Hz).
    unfold time_sub. rewrite Z.sub_diag. by vm_compute. }
  assert (Er : run_alone bserve example_dispatch (mkClientWorld c now) =
               (trace_alone bserve example_dispatch (mkClientWorld c now),
                Some "Beacon node n is not ready: circuit is open", mkClientWorld (recordFailure "n" now c).2 now)).
  { unfold trace_alone, example_dispatch, DispatchCommand, preflight, failing, refuse.
    cbn [negb pbind request run_alone bserve fst snd bw_now bw_circuits]. rewrite Eu.
    cbn [pbind request run_alone bserve fst snd bw_now bw_circuits]. rewrite Eg.
    cbn [pbind request run_alone bserve fst snd bw_now bw_circuits]. reflexivity. }
  unfold world_alone, answer_alone. rewrite Er. cbn [fst snd bw_circuits bw_now recordFailure].
  rewrite circuit_of_insert. cbn. rewrite iadd_exact by (unfold in64, min64; lia).
  split_and!; [done|done|done|]. destruct (Z.leb_spec 3 (cs_failures (circuit_of "n" c) + 1)); [done|lia].
Qed.

Fixpoint calls (times : list Time) (w : ClientWorld) : list error * ClientWorld :=
  match times with
  | [] => ([], w)
  | t :: times =>
      let w := mkClientWorld (bw_circuits w) t in
      let r := calls times (world_alone bserve example_dispatch w) in
      (answer_alone bserve example_dispatch w :: r.1, r.2)
  end.

(** Each of the times is within 30 seconds of the one before. *)
Fixpoint frequent (last : Time) (times : list Time) : Prop :=
  match times with [] => True | t :: times => zeroTime < t < last + 30 * Second /\ frequent t times end.

Lemma frequent_calls_keep_the_circuit_open times last w :
  3 <= cs_failures (circuit_of "n" (bw_circuits w)) ->
  cs_failures (circuit_of "n" (bw_circuits w)) + Z.of_nat (length times) < max64 ->
  cs_openUntil (circuit_of "n" (bw_circuits w)) = last + 30 * Second -> frequent last times ->
  Forall (fun r => r <> None) (calls times w).1.
Proof.
  revert last w. induction times as [|t times IH]; intros last w Hf Hlen Ho Hq; cbn [calls fst]; [constructor|].
  destruct Hq as [Ht Hq]. cbn [length] in Hlen. rewrite Nat2Z.inj_succ in Hlen.
  destruct (rejected_call_reopens (mkClientWorld (bw_circuits w) t)) as (Ha & _ & Hf' & Ho'); cbn [bw_circuits bw_now]; [lia|lia|lia|].
  constructor; [exact Ha|]. eapply IH; [| |exact Ho'|exact Hq]; rewrite Hf'; cbn [bw_circuits]; lia.
Qed.
