(* ===== verification/ReconcilerService.v ===== *)
(** * The reconciler

    [forge/api/internal/services/reconciler/service.go] and [trigger.go], on
    [store/store_reconcile.go]: a pass compares what servers should do with
    what they do, acts on the difference and writes the plan of it down.  The
    differences are those of [Reconciler].

    A function is a program over [RcEff].  The cluster manager is behind
    [RcRefresh] and [RcPower], the service of compose stacks behind [RcDrift],
    [RcPull] and [RcRedeploy]; a column of JSON holds its value.  Correlation
    ids, logging and the payloads of events are left out, and the functions
    that hand a listing of the store through. *)
From Stdlib Require Import ZArith Lia Sorting.Sorted.
From stdpp Require Import base gmap strings list fin_maps relations.
From coqutil Require Import Datatypes.RecordSettersUsingExistingGetters.
From S2P Require Import Prelude GoStrings GoSort Reconciler Programs Capacity.
Import RecordSetNotations1.
#[local] Open Scope string_scope.
#[local] Open Scope list_scope.
#[local] Open Scope Z_scope.
#[local] Open Scope go_scope.

(** ** Plans in the database *)

(* go: store/store_reconcile.go type:ReconcilePlanRow *)
Record ReconcilePlanRow := mkReconcileRow {
  rr_ID : string;
  rr_ResourceID : string;
  rr_ResourceKind : string;
  rr_State : string;
  rr_Destructive : bool;
  rr_Confirmed : bool;
  rr_DiffCount : Z;
  rr_DriftCount : Z;
  rr_DiffData : list ReconcileDiff;
  rr_DriftData : list DriftRecord;
  rr_Error : string;
  rr_CreatedAt : Time;
  rr_ExecutedAt : option Time
}.

(* go: store/store_reconcile.go type:ReconcileEventRow *)
Record ReconcileEventRow := mkReconcileEvent {
  re_PlanID : string;
  re_ResourceID : string;
  re_ResourceKind : string;
  re_EventType : string;
  re_Summary : string
}.

Record RcTables := mkRcTables {
  rt_plans : gmap string ReconcilePlanRow;
  rt_events : list ReconcileEventRow
}.

(** The states [migrations/131_reconcile_plans.sql] allows. *)
Definition plan_states : list string :=
  ["pending"; "confirmed"; "executing"; "succeeded"; "failed"; "cancelled"].

(** A statement that leaves a row in another state does nothing. *)
Definition constrained {A} (a : A) (plans : gmap string ReconcilePlanRow) (t : RcTables) : answer A * RcTables :=
  if forallb (fun row => slices_contains plan_states (rr_State row)) (map snd (map_to_list plans))
  then (Got a, t <| rt_plans := plans |>) else (Failed ErrCheck, t).

(* go: store/store_reconcile.go func:Store.CreateReconcilePlan *)
Definition CreateReconcilePlan (now : Time) (plan : ReconcilePlanRow) (t : RcTables) : answer unit * RcTables :=
  match rt_plans t !! rr_ID plan with
  | Some _ => (Failed ErrUnique, t)
  | None => constrained tt (<[rr_ID plan := plan <| rr_CreatedAt := now |>]> (rt_plans t)) t
  end.

(** No row is no error. *)
(* go: store/store_reconcile.go func:Store.GetReconcilePlan *)
Definition GetReconcilePlan (id : string) (t : RcTables) : answer (option ReconcilePlanRow) :=
  Got (rt_plans t !! id).

Definition newer (a b : ReconcilePlanRow) : bool := rr_CreatedAt b <? rr_CreatedAt a.

(* go: store/store_reconcile.go func:Store.ListReconcilePlansByResource *)
Definition ListReconcilePlansByResource (resourceID resourceKind : string) (t : RcTables)
    : answer (list ReconcilePlanRow) :=
  Got (take 100 (isort newer (filter (fun row => rr_ResourceID row = resourceID /\
    (resourceKind = "" \/ rr_ResourceKind row = resourceKind)) (map snd (map_to_list (rt_plans t)))))).

(* go: store/store_reconcile.go func:Store.UpdateReconcilePlanState *)
Definition UpdateReconcilePlanState (now : Time) (id state execError : string) (t : RcTables)
    : answer unit * RcTables :=
  constrained tt (alter (fun row =>
    let row := (row <| rr_State := state |>) <| rr_Error := execError |> in
    if (state =? "succeeded")%string || (state =? "failed")%string
    then row <| rr_ExecutedAt := Some now |> else row) id (rt_plans t)) t.

(* go: store/store_reconcile.go func:Store.ConfirmReconcilePlan *)
Definition ConfirmReconcilePlan (id : string) (t : RcTables) : answer unit * RcTables :=
  constrained tt (alter (fun row => (row <| rr_Confirmed := true |>) <| rr_State := "confirmed" |>) id (rt_plans t)) t.

Definition waiting (row : ReconcilePlanRow) : bool :=
  slices_contains ["pending"; "confirmed"; "queued"] (rr_State row).

(** The rows that wait for longer than a time. *)
Definition overdue (olderThan : Duration) (now : Time) (row : ReconcilePlanRow) : bool :=
  waiting row && (rr_CreatedAt row <? now - olderThan).

(* go: store/store_reconcile.go func:Store.ExpireStaleReconcilePlans *)
Definition ExpireStaleReconcilePlans (olderThan : Duration) (now : Time) (t : RcTables) : answer Z * RcTables :=
  constrained (sum_by (fun row => if overdue olderThan now row then 1 else 0) (map snd (map_to_list (rt_plans t))))
    ((fun row => if overdue olderThan now row
      then ((row <| rr_State := "expired" |>) <| rr_Error := "plan expired after TTL" |>) <| rr_ExecutedAt := Some now |>
      else row) <$> rt_plans t) t.

(* go: store/store_reconcile.go func:Store.RecordReconcileEvent *)
Definition RecordReconcileEvent (ev : ReconcileEventRow) (t : RcTables) : RcTables :=
  t <| rt_events := rt_events t ++ [ev] |>.

(** ** Data *)

(** What the reconciler reads of a server. *)
Record Srv := mkSrv {
  sr_Row : ServerRow;
  sr_DockerImage : string;
  sr_StartupCommand : string;
  sr_WorkloadLeaseExpiry : option Time
}.

Record ComposeStack := mkStack { sk_ID : string; sk_ComposeYAML : string; sk_ComposeHash : string; sk_Status : string }.

(* go: services/reconciler/service.go type:HealthCheckTarget *)
Record HealthCheckTarget := mkTarget { ht_TargetID : string; ht_ServerID : string; ht_Status : string; ht_FailureCount : Z }.

(* go: services/reconciler/service.go type:MetricsSnapshot *)
Inductive RcMetric :=
| ReconciliationCount | ReconciliationFailures | NodeRefreshFailures | ServerSyncFailures
| ServerReconciliationTotal | NodeReconciliationTotal | HealthRecoveryAttempts | HealthRecoveryFailures
| DriftsDetected | PlansGenerated | AutoReconcileRuns.

(* go: services/reconciler/snapshot.go type:ReconcileResult *)
Record ReconcileResult := mkResult {
  rz_PlanID : string;
  rz_ResourceID : string;
  rz_State : string;
  rz_OperationCount : Z;
  rz_Error : string;
  rz_StartedAt : Time;
  rz_CompletedAt : option Time
}.

(* go: services/reconciler/service.go L25-37 *)
Definition MaxRestartAttempts : Z := 3.
Definition RestartCooldown : Duration := 15 * Minute.
Definition PlanDedupeWindow : Duration := 30 * Minute.
Definition PlanTTL : Duration := 60 * Minute.

(* go: services/reconciler/snapshot.go L118-123 *)
Definition PlanPending : string := "pending".
Definition PlanConfirmed : string := "confirmed".
Definition PlanExecuting : string := "executing".
Definition PlanSucceeded : string := "succeeded".
Definition PlanFailed : string := "failed".

Inductive power := PowerStart | PowerStop | PowerRestart.
#[export] Instance power_eq_dec : EqDecision power.
Proof. solve_decision. Defined.

(** What pulling a stack answers: there may be nothing new. *)
Inductive pulled := PullDone | PullNothing | PullFailed (msg : string).

(** What is hashed. *)
Inductive hashed :=
| HashServer (memoryMb cpuShares diskMb : Z) (dockerImage startupCommand : string) (suspended : bool)
| HashStack (composeYaml composeHash status : string)
| HashDiffs (diffs : list ReconcileDiff).

(** [RcRestarts] and [RcRemember] read and write what the service remembers of
    the restarts of a server: how many, and when the next one may be. *)
Inductive RcEff : Type -> Type :=
| RcServers : RcEff (answer (list Srv))
| RcServersOf (nodeID : string) : RcEff (answer (list Srv))
| RcServer (id : string) : RcEff (answer Srv)
| RcNode (id : string) : RcEff (answer NodeRow)
| RcNodes : RcEff (answer (list NodeRow))
| RcCapacity (nodeID : string) : RcEff error
| RcClassifyHealthy (nodeID : string) (stale : Z) : RcEff error
| RcRefresh (serverID : string) : RcEff (answer string)
| RcPower (p : power) (serverID : string) : RcEff error
| RcDispatch (job : string) (serverID : string) : RcEff unit
| RcInsert (row : ReconcilePlanRow) : RcEff (answer unit)
| RcPlan (id : string) : RcEff (answer (option ReconcilePlanRow))
| RcPlansOf (resourceID resourceKind : string) : RcEff (answer (list ReconcilePlanRow))
| RcSetState (id state execError : string) : RcEff (answer unit)
| RcConfirm (id : string) : RcEff (answer unit)
| RcExpire (olderThan : Duration) : RcEff (answer Z)
| RcRecord (ev : ReconcileEventRow) : RcEff error
| RcStacks : RcEff (answer (list ComposeStack))
| RcStack (id : string) : RcEff (answer ComposeStack)
| RcDrift (stackID : string) : RcEff (answer bool)
| RcPull (stackID : string) : RcEff pulled
| RcRedeploy (stackID : string) : RcEff error
| RcUnhealthy : RcEff (list HealthCheckTarget)
| RcNow : RcEff Time
| RcNewID : RcEff string
| RcPublish (kind resourceType resourceID : string) : RcEff error
| RcIncrement (by_ : list (RcMetric * Z)) : RcEff unit
| RcRestarts (serverID : string) : RcEff (Z * Time)
| RcRemember (serverID : string) (attempts : Z) (until : Time) : RcEff unit.

Definition R_ (A : Type) : Type := prog RcEff A.

Definition rtry {A B} (m : R_ (answer A)) (k : A -> R_ (answer B)) : R_ (answer B) :=
  pbind m (fun r => match r with Got a => k a | Failed e => Ret (Failed e) end).
Notation "'let?^' x := m 'in' k" := (rtry m (fun x => k))
  (at level 200, x binder, m at level 200, k at level 200, only parsing) : go_scope.
Notation "m ;;^ k" := (pbind m (fun _ => k))
  (at level 100, k at level 200, right associativity, only parsing) : go_scope.

Definition rfails {A} (msg : string) : R_ (answer A) := Ret (Failed (ErrText msg)).

Definition rwrapped {A} (what : string) (m : R_ (answer A)) : R_ (answer A) :=
  pbind m (fun r => Ret (match r with
                         | Got a => Got a
                         | Failed e => Failed (ErrText (cat [what; ": "; store_error_text e]))
                         end)).

(** [for _, x := range l]: the body has no result. *)
Fixpoint each {A} (l : list A) (body : A -> R_ unit) : R_ unit :=
  match l with [] => Ret tt | x :: l => body x ;;^ each l body end.

Definition count_ (l : list (RcMetric * Z)) : R_ unit := request (RcIncrement l).

Section Service.
(** The parts that may be absent, the setting, and the first eight bytes of a
    SHA-256 over JSON in hexadecimal. *)
Context (publisher queueService gitOpsService healthChecker autoReconcile : bool)
        (snapshotHash : hashed -> string).

(* go: services/reconciler/service.go func:Service.publish *)
Definition rpublish (kind resourceType resourceID : string) : R_ unit :=
  if publisher then request (RcPublish kind resourceType resourceID) ;;^ Ret tt else Ret tt.

(** ** Snapshots *)

(* go: services/reconciler/diff.go func:collectServerConfigHash *)
Definition collectServerConfigHash (server : Srv) : string :=
  let row := sr_Row server in
  snapshotHash (HashServer (sv_memory_mb row) (sv_cpu_shares row) (sv_disk_mb row) (sr_DockerImage server)
    (sr_StartupCommand server) (sv_Suspended row)).

(* go: services/reconciler/diff.go func:collectComposeStackConfigHash *)
Definition collectComposeStackConfigHash (stack : ComposeDesiredState) : string :=
  snapshotHash (HashStack (cd_ComposeYAML stack) (cd_ComposeHash stack) (cd_Status stack)).

(* go: services/reconciler/trigger.go func:Service.captureServerSnapshots *)
Definition captureServerSnapshots (serverID : string) : R_ (answer (DesiredStateSnapshot * ObservedStateSnapshot)) :=
  let?^ server := rwrapped "get server" (request (RcServer serverID)) in
  let^ t1 := request RcNow in
  let desired := mkDesired (sv_ID (sr_Row server)) ResourceKindServer (Some (sv_DesiredState (sr_Row server)))
    None None (collectServerConfigHash server) 0 t1 in
  let^ r := request (RcRefresh serverID) in
  let^ t2 := request RcNow in
  Ret (Got (desired,
    match r with
    | Failed _ => mkObserved serverID ResourceKindServer None None None "" 0 t2
    | Got actual => mkObserved serverID ResourceKindServer (Some actual) None None (collectServerConfigHash server) 0 t2
    end)).

(* go: services/reconciler/trigger.go func:Service.captureNodeSnapshots *)
Definition captureNodeSnapshots (nodeID : string) : R_ (answer (DesiredStateSnapshot * ObservedStateSnapshot)) :=
  let?^ node := rwrapped "get node" (request (RcNode nodeID)) in
  let^ t1 := request RcNow in
  let^ t2 := request RcNow in
  Ret (Got (mkDesired (nd_ID node) ResourceKindNode None (Some (nd_DesiredState node)) None "" 0 t1,
            mkObserved nodeID ResourceKindNode None (Some (nd_ActualState node)) None "" 0 t2)).

(* go: services/reconciler/trigger.go func:Service.captureComposeSnapshots *)
Definition captureComposeSnapshots (stackID : string) : R_ (answer (DesiredStateSnapshot * ObservedStateSnapshot)) :=
  let?^ stack := rwrapped "get compose stack" (request (RcStack stackID)) in
  let composeState := mkComposeDesired (sk_ComposeYAML stack) (sk_ComposeHash stack) (sk_Status stack) in
  let configHash := collectComposeStackConfigHash composeState in
  let^ t1 := request RcNow in
  let^ t2 := request RcNow in
  let^ drift :=
    if gitOpsService then
      let^ r := request (RcDrift stackID) in
      Ret (match r with Got d => d | Failed _ => false end)
    else Ret false in
  Ret (Got (mkDesired (sk_ID stack) ResourceKindComposeStack None None (Some composeState) configHash 0 t1,
            mkObserved stackID ResourceKindComposeStack None None
              (Some (mkComposeObserved (if drift : bool then "drift_detected" else sk_Status stack) []))
              (if drift : bool then (sk_ComposeHash stack ++ ":drift")%string else configHash) 0 t2)).

(* go: services/reconciler/trigger.go func:Service.captureSnapshots *)
Definition captureSnapshots (resourceID resourceKind : string)
    : R_ (answer (DesiredStateSnapshot * ObservedStateSnapshot)) :=
  if (resourceKind =? ResourceKindServer)%string then captureServerSnapshots resourceID
  else if (resourceKind =? ResourceKindNode)%string then captureNodeSnapshots resourceID
  else if (resourceKind =? ResourceKindComposeStack)%string then captureComposeSnapshots resourceID
  else rfails (cat ["unknown resource kind: "; resourceKind]).

(** ** Execution of a plan *)

(** The error of starting or stopping a server is answered with a job, or not
    at all. *)
Definition power_or_job (p : power) (job serverID : string) : R_ unit :=
  let^ e := request (RcPower p serverID) in
  match e with
  | Some _ => if queueService then request (RcDispatch job serverID) else Ret tt
  | None => Ret tt
  end.

(* go: services/reconciler/trigger.go func:Service.executeServerDiff *)
Definition executeServerDiff (diff : ReconcileDiff) : R_ error :=
  let ty := df_DiffType diff in
  if (ty =? DiffCreate)%string then Ret (Some "server creation not supported via reconcile")
  else if (ty =? DiffUpdate)%string then
    (let desiredState := as_string (detail_at (df_Details diff) "desiredState") in
     if (desiredState =? "running")%string then power_or_job PowerStart "server.start" (df_ResourceID diff)
     else if (desiredState =? "stopped")%string then power_or_job PowerStop "server.stop" (df_ResourceID diff)
     else Ret tt) ;;^ Ret None
  else if (ty =? DiffDelete)%string then Ret (Some "server deletion not supported via reconcile")
  else Ret None.

(* go: services/reconciler/trigger.go func:Service.executeNodeDiff *)
Definition executeNodeDiff (diff : ReconcileDiff) : R_ error :=
  if (df_DiffType diff =? DiffDelete)%string then Ret (Some "node deletion not supported via reconcile")
  else Ret None.

(* go: services/reconciler/trigger.go func:Service.executeComposeDiff *)
Definition executeComposeDiff (diff : ReconcileDiff) : R_ error :=
  if negb gitOpsService then Ret (Some "gitops service not available for compose reconciliation")
  else
    let ty := df_DiffType diff in
    if (ty =? DiffUpdate)%string then
      let^ r := request (RcPull (df_ResourceID diff)) in
      match r with
      | PullDone => Ret None
      | PullNothing => request (RcRedeploy (df_ResourceID diff))
      | PullFailed msg => Ret (Some msg)
      end
    else if (ty =? DiffDelete)%string then Ret (Some "compose stack deletion not supported via reconcile")
    else if (ty =? DiffCreate)%string then Ret (Some "compose stack creation not supported via reconcile")
    else Ret None.

(* go: services/reconciler/trigger.go func:Service.executeDiff *)
Definition executeDiff (diff : ReconcileDiff) : R_ error :=
  let kind := df_ResourceKind diff in
  if (kind =? ResourceKindServer)%string then executeServerDiff diff
  else if (kind =? ResourceKindNode)%string then executeNodeDiff diff
  else if (kind =? ResourceKindComposeStack)%string then executeComposeDiff diff
  else Ret (Some (cat ["unsupported resource kind: "; kind])).

(** The loop over the differences: how many were carried out, and why it
    stopped. *)
(* go: services/reconciler/trigger.go L206-228 *)
Fixpoint execute_diffs (row : ReconcilePlanRow) (planID : string) (diffs : list ReconcileDiff) (n : Z)
    : R_ (Z * error) :=
  match diffs with
  | [] => Ret (n, None)
  | diff :: diffs =>
      if (df_DiffType diff =? DiffNoOp)%string then execute_diffs row planID diffs n
      else if (df_DiffType diff =? DiffDelete)%string && negb (rr_Confirmed row)
      then Ret (n, Some (cat ["destructive plan "; planID; " not confirmed"]))
      else
        let^ e := executeDiff diff in
        match e with
        | Some msg =>
            let msg := cat ["execute diff "; df_ResourceKind diff; "/"; df_ResourceID diff; ": "; msg] in
            request (RcRecord (mkReconcileEvent planID (rr_ResourceID row) (rr_ResourceKind row)
              "execution_failed" msg)) ;;^
            Ret (n, Some msg)
        | None => execute_diffs row planID diffs (n + 1)
        end
  end.

(* go: services/reconciler/trigger.go func:Service.ExecuteReconcilePlan *)
Definition ExecuteReconcilePlan (planID : string) : R_ (answer ReconcileResult) :=
  let?^ found := rwrapped "plan not found" (request (RcPlan planID)) in
  match found with
  | None => rfails "plan not found: %!w(<nil>)"
  | Some row =>
      if negb (rr_State row =? PlanConfirmed)%string && negb (rr_State row =? PlanPending)%string
      then rfails (cat ["plan "; planID; " is in state "; rr_State row; ", cannot execute"])
      else
        let?^ _ := rwrapped "update state" (request (RcSetState planID PlanExecuting "")) in
        let^ startedAt := request RcNow in
        let^ r := execute_diffs row planID (rr_DiffData row) 0 in
        let '(operations, execErr) := r in
        let^ completedAt := request RcNow in
        let state := match execErr with Some _ => PlanFailed | None => PlanSucceeded end in
        let msg := default "" execErr in
        request (RcSetState planID state msg) ;;^
        request (RcRecord (mkReconcileEvent planID (rr_ResourceID row) (rr_ResourceKind row) state
          (cat ["reconciliation "; state; ": "; itoa operations; " operations"]))) ;;^
        count_ (match execErr with Some _ => [(ReconciliationFailures, 1)] | None => [] end) ;;^
        Ret (Got (mkResult planID (rr_ResourceID row) state operations msg startedAt (Some completedAt)))
  end.

(** ** Plans *)

(* go: services/reconciler/trigger.go func:Service.planToRow *)
Definition planToRow (plan : ReconcilePlan) : ReconcilePlanRow :=
  mkReconcileRow (pl_ID plan) (pl_ResourceID plan) (pl_ResourceKind plan) PlanPending (pl_Destructive plan)
    (pl_Confirmed plan) (Z.of_nat (length (pl_Diffs plan))) (Z.of_nat (length (pl_Drifts plan)))
    (pl_Diffs plan) (pl_Drifts plan) "" (pl_CreatedAt plan) None.

(** The plan of two snapshots, with its identifier. *)
(* go: services/reconciler/trigger.go L30-35 *)
Definition make_plan (resourceID resourceKind : string) (diffs : list ReconcileDiff) : R_ ReconcilePlan :=
  let^ t1 := request RcNow in
  let drifts := detectDrift t1 diffs in
  let plan := generatePlan resourceID resourceKind diffs drifts in
  let^ id := request RcNewID in
  let^ t2 := request RcNow in
  Ret (mkPlan id (pl_ResourceID plan) (pl_ResourceKind plan) (sortDiffsByType (pl_Diffs plan)) (pl_Drifts plan)
    (pl_Destructive plan) (pl_Confirmed plan) t2 (pl_ExecutedAt plan)).

(** A plan of the resource that waits, is no older than the window and has the
    same differences. *)
(* go: services/reconciler/service.go L650-663 *)
Definition duplicate_of (plan : ReconcilePlan) (cutoff : Time) (row : ReconcilePlanRow) : bool :=
  waiting row && negb (rr_CreatedAt row <? cutoff) &&
  (snapshotHash (HashDiffs (rr_DiffData row)) =? snapshotHash (HashDiffs (pl_Diffs plan)))%string.

(* go: services/reconciler/service.go func:Service.hasPendingDuplicatePlan *)
Definition hasPendingDuplicatePlan (plan : ReconcilePlan) : R_ bool :=
  let^ existing := request (RcPlansOf (pl_ResourceID plan) (pl_ResourceKind plan)) in
  match existing with
  | Failed _ => Ret false
  | Got rows =>
      let^ t := request RcNow in
      Ret (existsb (duplicate_of plan (t - PlanDedupeWindow)) rows)
  end.

(* go: services/reconciler/trigger.go func:Service.TriggerReconcile *)
Definition TriggerReconcile (resourceID resourceKind : string) : R_ (answer ReconcilePlan) :=
  let^ plans := request (RcPlansOf resourceID resourceKind) in
  if negb (ensureNoDuplicateReconcile
             (match plans with Got rows => Ok (map rr_State rows) | Failed e => Err (store_error_text e) end))
  then rfails (cat ["reconcile already in progress for "; resourceKind; "/"; resourceID])
  else
    let?^ snapshots := rwrapped "capture snapshots" (captureSnapshots resourceID resourceKind) in
    let diffs := computeDiffs (fst snapshots) (snd snapshots) in
    let^ plan := make_plan resourceID resourceKind diffs in
    rpublish "DesiredStateChanged" resourceKind resourceID ;;^
    let?^ _ := rwrapped "persist plan" (request (RcInsert (planToRow plan))) in
    count_ [(ReconciliationCount, 1)] ;;^
    Ret (Got plan).

(* go: services/reconciler/trigger.go func:Service.ReconcileResource *)
Definition ReconcileResource (resourceID resourceKind : string) : R_ (answer ReconcileResult) :=
  let?^ plan := TriggerReconcile resourceID resourceKind in
  if negb (pl_Destructive plan) then ExecuteReconcilePlan (pl_ID plan)
  else
    let^ t := request RcNow in
    Ret (Got (mkResult (pl_ID plan) resourceID PlanPending 0 "" t None)).

(* go: services/reconciler/trigger.go func:Service.ConfirmAndExecute *)
Definition ConfirmAndExecute (planID : string) : R_ (answer ReconcileResult) :=
  let?^ _ := rwrapped "confirm plan" (request (RcConfirm planID)) in
  ExecuteReconcilePlan planID.

(** Every identifier once. *)
Fixpoint unseen (seen : gset string) (ids : list string) : list string :=
  match ids with
  | [] => []
  | id :: ids => if decide (id ∈ seen) then unseen seen ids else id :: unseen ({[id]} ∪ seen) ids
  end.

(** The results of the resources whose reconciliation was not refused. *)
Fixpoint reconcile_each (kind : string) (ids : list string) : R_ (list ReconcileResult) :=
  match ids with
  | [] => Ret []
  | id :: ids =>
      let^ r := ReconcileResource id kind in
      let^ rs := reconcile_each kind ids in
      Ret (match r with Got a => a :: rs | Failed _ => rs end)
  end.

(* go: services/reconciler/trigger.go func:Service.ReconcileAllResources *)
Definition ReconcileAllResources : R_ (answer (list ReconcileResult)) :=
  let?^ servers := rwrapped "list servers" (request RcServers) in
  let^ rs := reconcile_each ResourceKindServer (unseen ∅ (map (fun s => sv_ID (sr_Row s)) servers)) in
  Ret (Got rs).

(* go: services/reconciler/trigger.go func:Service.ReconcileAllComposeStacks *)
Definition ReconcileAllComposeStacks : R_ (answer (list ReconcileResult)) :=
  let?^ stacks := rwrapped "list compose stacks" (request RcStacks) in
  let^ rs := reconcile_each ResourceKindComposeStack (map sk_ID stacks) in
  Ret (Got rs).

(* go: services/reconciler/trigger.go func:Service.ReconcileNodes *)
Definition ReconcileNodes : R_ (answer (list ReconcileResult)) :=
  let?^ nodes := rwrapped "list nodes" (request RcNodes) in
  let^ rs := reconcile_each ResourceKindNode (map nd_ID nodes) in
  Ret (Got rs).

(** ** A pass *)

(** One resource: the plan of its difference is stored and, unless something
    is deleted, executed. *)
(* go: services/reconciler/service.go L263-317 *)
Definition auto_reconcile (resourceKind resourceID : string) : R_ unit :=
  let^ r := captureSnapshots resourceID resourceKind in
  match r with
  | Failed _ => Ret tt
  | Got snapshots =>
      let diffs := computeDiffs (fst snapshots) (snd snapshots) in
      if negb (existsb (fun diff => negb (df_DiffType diff =? DiffNoOp)%string) diffs) then Ret tt
      else
        let^ plan := make_plan resourceID resourceKind diffs in
        let^ duplicate := hasPendingDuplicatePlan plan in
        if duplicate : bool then Ret tt
        else
          let^ stored := request (RcInsert (planToRow plan)) in
          match stored with
          | Failed _ => Ret tt
          | Got _ =>
              count_ [(PlansGenerated, 1); (AutoReconcileRuns, 1); (DriftsDetected, Z.of_nat (length (pl_Drifts plan)))] ;;^
              (if pl_Destructive plan then Ret tt else ExecuteReconcilePlan (pl_ID plan) ;;^ Ret tt) ;;^
              rpublish "DesiredStateChanged" resourceKind resourceID
          end
  end.

(* go: services/reconciler/service.go func:Service.autoReconcileDrifts *)
Definition autoReconcileDrifts : R_ unit :=
  let^ servers := request RcServers in
  match servers with
  | Failed _ => Ret tt
  | Got servers => each servers (fun s => auto_reconcile ResourceKindServer (sv_ID (sr_Row s)))
  end.

(* go: services/reconciler/service.go func:Service.autoReconcileComposeStacks *)
Definition autoReconcileComposeStacks : R_ unit :=
  if negb gitOpsService then Ret tt
  else
    let^ stacks := request RcStacks in
    match stacks with
    | Failed _ => Ret tt
    | Got stacks => each stacks (fun sk => auto_reconcile ResourceKindComposeStack (sk_ID sk))
    end.

(* go: services/reconciler/service.go func:Service.isNodeOperable *)
Definition isNodeOperable (nodeID : string) : R_ bool :=
  let^ node := request (RcNode nodeID) in
  Ret (match node with
       | Failed _ => false
       | Got node =>
           negb (nd_ActualState node =? "reconciling")%string &&
           ((nd_ActualState node =? "online")%string || (nd_ActualState node =? "degraded")%string) &&
           negb ((nd_HeartbeatState node =? "offline")%string || (nd_HeartbeatState node =? "unreachable")%string)
       end).

(* go: services/reconciler/service.go func:Service.reconcileNode *)
Definition reconcileNode (node : NodeRow) : R_ unit :=
  if (nd_DesiredState node =? "maintenance")%string || (nd_DesiredState node =? "draining")%string
  then rpublish "DesiredStateChanged" "node" (nd_ID node)
  else Ret tt.

(* go: services/reconciler/service.go func:Service.reconcileServer *)
Definition reconcileServer (server : Srv) : R_ error :=
  let id := sv_ID (sr_Row server) in
  rpublish "DesiredStateChanged" "server" id ;;^
  let^ refreshed := request (RcRefresh id) in
  match refreshed with
  | Failed e => Ret (Some (store_error_text e))
  | Got actual =>
      let^ r := request (RcServer id) in
      match r with
      | Failed e => Ret (Some (store_error_text e))
      | Got current =>
          rpublish "ActualStateChanged" "server" id ;;^
          if (sv_NodeID (sr_Row current) =? "")%string then Ret None
          else
            let^ operable := isNodeOperable (sv_NodeID (sr_Row current)) in
            if negb operable then Ret None
            else
              let desired := sv_DesiredState (sr_Row current) in
              if (desired =? "running")%string && (actual =? "stopped")%string then request (RcPower PowerStart id)
              else if (desired =? "stopped")%string && (actual =? "running")%string then request (RcPower PowerStop id)
              else if (desired =? "running")%string && (actual =? "crashed")%string then request (RcPower PowerRestart id)
              else Ret None
      end
  end.

(* go: services/reconciler/service.go func:Service.refreshNodes *)
Definition refreshNodes : R_ error :=
  let^ nodes := request RcNodes in
  match nodes with
  | Failed e => Ret (Some (store_error_text e))
  | Got nodes =>
      each nodes (fun node =>
        let^ e := request (RcCapacity (nd_ID node)) in
        match e with
        | Some _ => count_ [(NodeRefreshFailures, 1)]
        | None => count_ [(NodeReconciliationTotal, 1)] ;;^ reconcileNode node
        end) ;;^
      Ret None
  end.

(* go: services/reconciler/service.go func:Service.refreshServers *)
Definition refreshServers : R_ error :=
  let^ servers := request RcServers in
  match servers with
  | Failed e => Ret (Some (store_error_text e))
  | Got servers =>
      each servers (fun server =>
        count_ [(ServerReconciliationTotal, 1)] ;;^
        let^ e := reconcileServer server in
        match e with
        | Some _ => count_ [(ServerSyncFailures, 1); (ReconciliationFailures, 1)]
        | None => Ret tt
        end) ;;^
      Ret None
  end.

(* go: services/reconciler/service.go func:Service.ReconcileReconnectingNode *)
Definition ReconcileReconnectingNode (nodeID : string) : R_ error :=
  let^ r := request (RcNode nodeID) in
  match r with
  | Failed e => Ret (Some (store_error_text e))
  | Got node =>
      if negb (nd_HeartbeatState node =? "reconciling")%string then Ret None
      else
        let^ servers := request (RcServersOf nodeID) in
        match servers with
        | Failed e => Ret (Some (store_error_text e))
        | Got servers =>
            let^ now := request RcNow in
            let stale server := match sr_WorkloadLeaseExpiry server with Some t => t <? now | None => false end in
            request (RcClassifyHealthy nodeID (sum_by (fun s => if stale s then 1 else 0) servers)) ;;^
            Ret None
        end
  end.

(** One target of an unhealthy server, whose restarts are counted. *)
(* go: services/reconciler/service.go L568-637 *)
Definition recover_target (now : Time) (target : HealthCheckTarget) : R_ unit :=
  let^ r := request (RcServer (ht_ServerID target)) in
  match r with
  | Failed _ => count_ [(HealthRecoveryFailures, 1)]
  | Got server =>
      let id := sv_ID (sr_Row server) in
      if negb (sv_DesiredState (sr_Row server) =? "running")%string then Ret tt
      else if sv_Suspended (sr_Row server) then Ret tt
      else
        let^ operable := isNodeOperable (sv_NodeID (sr_Row server)) in
        if negb operable then Ret tt
        else
          let^ known := request (RcRestarts id) in
          let '(attempts, cooldownUntil) := known in
          if negb (cooldownUntil =? zeroTime) && (now <? cooldownUntil) then Ret tt
          else if MaxRestartAttempts <=? attempts then rpublish "TargetHealthChanged" "server" id
          else
            count_ [(HealthRecoveryAttempts, 1)] ;;^
            rpublish "TargetHealthChanged" "server" id ;;^
            let^ e := request (RcPower PowerRestart id) in
            (match e with Some _ => count_ [(HealthRecoveryFailures, 1)] | None => Ret tt end) ;;^
            request (RcRemember id (attempts + 1) (now + RestartCooldown))
  end.

(** A server is looked at once, whatever the number of its targets. *)
Fixpoint recover_targets (now : Time) (seen : gset string) (targets : list HealthCheckTarget) : R_ unit :=
  match targets with
  | [] => Ret tt
  | target :: targets =>
      if decide (ht_ServerID target ∈ seen) then recover_targets now seen targets
      else
        recover_target now target ;;^
        recover_targets now ({[ht_ServerID target]} ∪ seen) targets
  end.

(* go: services/reconciler/service.go func:Service.recoverUnhealthyTargets *)
Definition recoverUnhealthyTargets : R_ unit :=
  if negb healthChecker then Ret tt
  else
    let^ unhealthy := request RcUnhealthy in
    match unhealthy with
    | [] => Ret tt
    | _ =>
        let^ now := request RcNow in
        recover_targets now ∅ unhealthy
    end.

(* go: services/reconciler/service.go func:Service.RunOnce *)
Definition RunOnce : R_ unit :=
  count_ [(ReconciliationCount, 1)] ;;^
  request (RcExpire PlanTTL) ;;^
  let^ e := refreshNodes in
  (match e with Some _ => count_ [(NodeRefreshFailures, 1); (ReconciliationFailures, 1)] | None => Ret tt end) ;;^
  let^ e := refreshServers in
  (match e with Some _ => count_ [(ServerSyncFailures, 1); (ReconciliationFailures, 1)] | None => Ret tt end) ;;^
  (if autoReconcile then autoReconcileDrifts ;;^ autoReconcileComposeStacks else Ret tt) ;;^
  recoverUnhealthyTargets ;;^
  let^ nodes := request RcNodes in
  match nodes with
  | Failed _ => Ret tt
  | Got nodes =>
      each nodes (fun node =>
        if (nd_HeartbeatState node =? "reconciling")%string
        then ReconcileReconnectingNode (nd_ID node) ;;^ Ret tt else Ret tt)
  end.

End Service.

(** ** A fleet where nothing fails

    An ideal fleet: every query and statement is answered, the state of a
    server can be read and a command takes effect at once, wherever the server
    is.  It serves to say what the passes aim at; the limit of restarts below is
    proved against any answers. *)

(** [rw_done] are the power commands of servers that reached the nodes, with
    the last reading of the clock; the stacks are outside. *)
Record RcWorld := mkRcWorld {
  rw_db : RcTables;
  rw_servers : gmap string Srv;
  rw_nodes : gmap string NodeRow;
  rw_now : Time;
  rw_restarts : gmap string (Z * Time);
  rw_done : list (power * string * Time)
}.

Definition with_actual (actual : string) (s : Srv) : Srv :=
  s <| sr_Row := (sr_Row s) <| sv_ActualState := actual |> |>.

Definition power_state (p : power) : string :=
  match p with PowerStart | PowerRestart => "running" | PowerStop => "stopped" end.

Definition commanded (p : power) (id : string) (w : RcWorld) : RcWorld :=
  w <| rw_servers := alter (with_actual (power_state p)) id (rw_servers w) |>
    <| rw_done := rw_done w ++ [(p, id, rw_now w)] |>.

(** An identifier no row has: it is longer than each. *)
Definition new_id (t : RcTables) : string :=
  foldr String.append "x" (map fst (map_to_list (rt_plans t))).

Definition statement {A} (r : answer A * RcTables) (w : RcWorld) : answer A * RcWorld :=
  (fst r, w <| rw_db := snd r |>).

Definition found {A} (o : option A) : answer A :=
  match o with Some a => Got a | None => Failed ErrNoRows end.

Section Fleet.
(** The targets that are not healthy, the stacks and what happens to them. *)
Context (unhealthy : RcWorld -> list HealthCheckTarget) (stacks : gmap string ComposeStack)
        (drifted : string -> bool) (pull : string -> pulled) (redeploy : string -> error).

Definition rc_serve (X : Type) (e : RcEff X) (w : RcWorld) : X * RcWorld :=
  match e in RcEff X return X * RcWorld with
  | RcServers => (Got (map snd (map_to_list (rw_servers w))), w)
  | RcServersOf n => (Got (filter (fun s => sv_NodeID (sr_Row s) = n) (map snd (map_to_list (rw_servers w)))), w)
  | RcServer id => (found (rw_servers w !! id), w)
  | RcNode id => (found (rw_nodes w !! id), w)
  | RcNodes => (Got (map snd (map_to_list (rw_nodes w))), w)
  | RcCapacity _ => (None, w)
  | RcClassifyHealthy n _ => (None, w <| rw_nodes := alter (fun row =>
      (row <| nd_HeartbeatState := "healthy" |>) <| nd_ActualState := "online" |>) n (rw_nodes w) |>)
  | RcRefresh id => (found ((fun s => sv_ActualState (sr_Row s)) <$> rw_servers w !! id), w)
  | RcPower p id => (None, commanded p id w)
  | RcDispatch _ _ => (tt, w)
  | RcInsert row => statement (CreateReconcilePlan (rw_now w) row (rw_db w)) w
  | RcPlan id => (GetReconcilePlan id (rw_db w), w)
  | RcPlansOf id kind => (ListReconcilePlansByResource id kind (rw_db w), w)
  | RcSetState id st err => statement (UpdateReconcilePlanState (rw_now w) id st err (rw_db w)) w
  | RcConfirm id => statement (ConfirmReconcilePlan id (rw_db w)) w
  | RcExpire ttl => statement (ExpireStaleReconcilePlans ttl (rw_now w) (rw_db w)) w
  | RcRecord ev => (None, w <| rw_db := RecordReconcileEvent ev (rw_db w) |>)
  | RcStacks => (Got (map snd (map_to_list stacks)), w)
  | RcStack id => (found (stacks !! id), w)
  | RcDrift id => (Got (drifted id), w)
  | RcPull id => (pull id, w)
  | RcRedeploy id => (redeploy id, w)
  | RcUnhealthy => (unhealthy w, w)
  | RcNow => (rw_now w, w)
  | RcNewID => (new_id (rw_db w), w)
  | RcPublish _ _ _ => (None, w)
  | RcIncrement _ => (tt, w)
  | RcRestarts id => (default (0, zeroTime) (rw_restarts w !! id), w)
  | RcRemember id n t => (tt, w <| rw_restarts := <[id := (n, t)]> (rw_restarts w) |>)
  end.

End Fleet.

(** The rows are in states the constraint allows. *)
Definition states_ok (plans : gmap string ReconcilePlanRow) : Prop :=
  map_Forall (fun _ row => rr_State row ∈ plan_states) plans.

Lemma constrained_ok {A} (a : A) plans t :
  states_ok plans -> constrained a plans t = (Got a, t <| rt_plans := plans |>).
Proof.
  intros H. unfold constrained. rewrite (proj2 (forallb_forall _ _)); [done|].
  intros row Hin. apply list_elem_of_In, list_elem_of_fmap in Hin as ([id r] & -> & Hin).
  apply slices_contains_spec. cbn. apply (H id), elem_of_map_to_list, Hin.
Qed.

Lemma states_ok_insert id row plans :
  rr_State row ∈ plan_states -> states_ok plans -> states_ok (<[id := row]> plans).
Proof. intros. by apply map_Forall_insert_2. Qed.

Lemma set_state_ok now id state msg row t :
  states_ok (rt_plans t) -> state ∈ plan_states -> rt_plans t !! id = Some row ->
  exists row', rr_State row' = state /\
    UpdateReconcilePlanState now id state msg t = (Got tt, t <| rt_plans := <[id := row']> (rt_plans t) |>).
Proof.
  intros Ht Hs Hrow. unfold UpdateReconcilePlanState.
  match goal with |- context [alter ?f id _] => set (g := f) end.
  assert (Hg : rr_State (g row) = state) by (unfold g; cbn; by destruct (_ || _)).
  assert (Ha : alter g id (rt_plans t) = <[id := g row]> (rt_plans t)).
  { apply map_eq. intros i. destruct (decide (i = id)) as [-> | Hne].
    - by rewrite lookup_alter_eq, lookup_insert_eq, Hrow.
    - by rewrite lookup_alter_ne, lookup_insert_ne by done. }
  exists (g row). split; [done|]. rewrite Ha. apply constrained_ok, states_ok_insert; [by rewrite Hg|done].
Qed.

Lemma string_length_append (s t : string) : String.length (s ++ t)%string = (String.length s + String.length t)%nat.
Proof. induction s as [|c s IH]; [done|]. change (S (String.length (s ++ t)) = S (String.length s) + String.length t)%nat. lia. Qed.

Lemma new_id_fresh t : rt_plans t !! new_id t = None.
Proof.
  destruct (rt_plans t !! new_id t) as [row|] eqn:E; [|done]. exfalso.
  apply elem_of_map_to_list in E. apply (list_elem_of_fmap_2 fst) in E. cbn [fst] in E.
  assert (Hlen : forall l (k : string), k ∈ l -> (String.length k < String.length (foldr String.append "x" l))%nat).
  { induction l as [|a l IH]; intros k Hk; [by apply elem_of_nil in Hk|]. cbn [foldr].
    rewrite string_length_append. apply elem_of_cons in Hk as [-> | Hk]; [|specialize (IH k Hk); lia].
    enough (0 < String.length (foldr String.append "x" l))%nat by lia.
    clear. induction l as [|b l IH]; cbn [foldr]; [cbn; lia|]. rewrite string_length_append. lia. }
  exact (Nat.lt_irrefl _ (Hlen _ _ E)).
Qed.

Section Convergence.
Context (publisher queueService gitOpsService healthChecker : bool) (snapshotHash : hashed -> string)
        (unhealthy : RcWorld -> list HealthCheckTarget) (stacks : gmap string ComposeStack)
        (drifted : string -> bool) (pull : string -> pulled) (redeploy : string -> error).

Notation h := (rc_serve unhealthy stacks drifted pull redeploy).
Notation "'⟨' p '⟩' w" := (world_alone h p w) (at level 20, p at level 200, w at level 9).

(** The rows of the fleet are in order, and no plan waits. *)
Record fine (w : RcWorld) : Prop := {
  fn_servers : forall id s, rw_servers w !! id = Some s -> sv_ID (sr_Row s) = id;
  fn_plans : forall id row, rt_plans (rw_db w) !! id = Some row ->
    rr_State row ∈ ["executing"; "succeeded"; "failed"; "cancelled"]
}.

Lemma alone_after {X A} (e : RcEff X) (k : X -> R_ A) w :
  world_alone h (pbind (request e) k) w = world_alone h (k (fst (h _ e w))) (snd (h _ e w)).
Proof. apply world_alone_vis. Qed.

Lemma answer_request {X A} (e : RcEff X) (k : X -> R_ A) w :
  answer_alone h (pbind (request e) k) w = answer_alone h (k (fst (h _ e w))) (snd (h _ e w)).
Proof. apply answer_alone_vis. Qed.

Lemma alone_ret {A} (a : A) w : world_alone h (Ret a) w = w.
Proof. done. Qed.

Lemma answer_ret {A} (a : A) w : answer_alone h (Ret a) w = a.
Proof. done. Qed.

Lemma alone_single {X} (e : RcEff X) w : world_alone h (request e) w = snd (h _ e w).
Proof. apply (world_alone_vis h e Ret). Qed.

Lemma answer_single {X} (e : RcEff X) w : answer_alone h (request e) w = fst (h _ e w).
Proof. apply (answer_alone_vis h e Ret). Qed.

Lemma alone_each {A} (l : list A) (body : A -> R_ unit) w :
  world_alone h (each l body) w = foldl (fun w x => world_alone h (body x) w) w l.
Proof.
  revert w. induction l as [|x l IH]; intros w; [done|]. cbn [each foldl]. rewrite world_alone_bind. apply IH.
Qed.

Lemma alone_publish kind ty id w : world_alone h (rpublish publisher kind ty id) w = w.
Proof. unfold rpublish. destruct publisher; [|done]. by rewrite alone_after. Qed.

Lemma alone_count l w : world_alone h (count_ l) w = w.
Proof. unfold count_. by rewrite alone_single. Qed.


(** A plan with one update is carried out and recorded as succeeded. *)
Definition obeyed (desired id : string) (w : RcWorld) : RcWorld :=
  if (desired =? "running")%string then commanded PowerStart id w
  else if (desired =? "stopped")%string then commanded PowerStop id w
  else w.

Lemma fine_states w : fine w -> states_ok (rt_plans (rw_db w)).
Proof. intros [_ H] id row Hr. specialize (H id row Hr). set_solver. Qed.

Ltac srun := repeat (first [rewrite alone_after | rewrite world_alone_bind | rewrite answer_request
  | rewrite alone_single | rewrite answer_single | rewrite answer_alone_bind | rewrite alone_count
  | rewrite alone_publish | rewrite alone_ret | rewrite answer_ret]; cbn [fst snd rc_serve]).

Notation execute := (ExecuteReconcilePlan queueService gitOpsService).
Notation diffs_of := (execute_diffs queueService gitOpsService).

Lemma execute_alone w pid row :
  states_ok (rt_plans (rw_db w)) -> rt_plans (rw_db w) !! pid = Some row -> rr_State row = "pending" ->
  exists row1, rr_State row1 = "executing" /\
    let w1 := w <| rw_db := (rw_db w) <| rt_plans := <[pid := row1]> (rt_plans (rw_db w)) |> |> in
    let w2 := world_alone h (diffs_of row pid (rr_DiffData row) 0) w1 in
    rt_plans (rw_db w2) = rt_plans (rw_db w1) ->
    exists row2 events, rr_State row2 ∈ ["succeeded"; "failed"] /\
      world_alone h (execute pid) w = w2 <| rw_db := mkRcTables (<[pid := row2]> (rt_plans (rw_db w))) events |>.
Proof.
  intros Hok Hrow Hst. destruct (set_state_ok (rw_now w) pid "executing" "" row (rw_db w) Hok) as (row1 & Hs1 & E1);
    [set_solver|done|]. exists row1. split; [done|]. cbv zeta. intros Hkeep.
  unfold ExecuteReconcilePlan, rtry at 1, rwrapped at 1. srun. unfold GetReconcilePlan. rewrite Hrow. cbv beta iota.
  rewrite Hst. change (if negb _ && negb _ then ?a else ?b) with b. unfold rtry, rwrapped. srun.
  change PlanExecuting with "executing". rewrite E1. cbn [fst snd statement]. srun.
  match goal with |- context [world_alone h (diffs_of row pid _ _) ?w'] => set (w1 := w') in * end.
  destruct (answer_alone h (diffs_of row pid (rr_DiffData row) 0) w1) as [n e]. srun.
  set (w2 := world_alone h (diffs_of row pid (rr_DiffData row) 0) w1) in *.
  set (st := match e with Some _ => PlanFailed | None => PlanSucceeded end).
  assert (Hst2 : st ∈ ["succeeded"; "failed"]) by (unfold st; destruct e; set_solver).
  destruct (set_state_ok (rw_now w2) pid st (default "" e) row1 (rw_db w2)) as (row2 & Hs2 & E2).
  { rewrite Hkeep. apply states_ok_insert; [rewrite Hs1|done]; set_solver. }
  { set_solver. }
  { rewrite Hkeep. apply (lookup_insert_eq (rt_plans (rw_db w))). }
  rewrite E2. exists row2. eexists. split; [by rewrite Hs2|]. cbn [fst snd statement]. 
  unfold RecordReconcileEvent. cbn. rewrite Hkeep. cbn. unfold const.
  rewrite (insert_insert_eq (rt_plans (rw_db w))). reflexivity.
Qed.

(** What an execution does to a server. *)
Definition ordered (s : Srv) : bool :=
  ((sv_DesiredState (sr_Row s) =? "running")%string || (sv_DesiredState (sr_Row s) =? "stopped")%string) &&
  negb (sv_ActualState (sr_Row s) =? sv_DesiredState (sr_Row s))%string.

Definition reconciled (id : string) (w : RcWorld) : RcWorld :=
  match rw_servers w !! id with
  | Some s => if ordered s then obeyed (sv_DesiredState (sr_Row s)) id w else w
  | None => w
  end.

Lemma capture_server id s w :
  rw_servers w !! id = Some s -> sv_ID (sr_Row s) = id ->
  world_alone h (captureSnapshots gitOpsService snapshotHash id ResourceKindServer) w = w /\
  answer_alone h (captureSnapshots gitOpsService snapshotHash id ResourceKindServer) w =
    Got (mkDesired id ResourceKindServer (Some (sv_DesiredState (sr_Row s))) None None
           (collectServerConfigHash snapshotHash s) 0 (rw_now w),
         mkObserved id ResourceKindServer (Some (sv_ActualState (sr_Row s))) None None
           (collectServerConfigHash snapshotHash s) 0 (rw_now w)).
Proof.
  intros Hs Hid. change (captureSnapshots gitOpsService snapshotHash id ResourceKindServer)
    with (captureServerSnapshots snapshotHash id). unfold captureServerSnapshots, rtry, rwrapped.
  split.
  - srun. rewrite Hs. cbn [found]. srun. done.
  - srun. rewrite Hs. cbn [found]. srun. cbn. rewrite Hs. cbn. by rewrite Hid.
Qed.

(** The plan of a difference, in the state before it is looked at. *)
Lemma make_plan_alone id kind diffs w :
  world_alone h (make_plan id kind diffs) w = w /\
  answer_alone h (make_plan id kind diffs) w =
    mkPlan (new_id (rw_db w)) id kind (sortDiffsByType diffs) (detectDrift (rw_now w) diffs)
      (existsb (fun diff => df_DiffType diff =? DiffDelete)%string diffs) false (rw_now w) None.
Proof. unfold make_plan. split; srun; done. Qed.

Lemma no_duplicate w plan :
  fine w -> answer_alone h (hasPendingDuplicatePlan snapshotHash plan) w = false /\
  world_alone h (hasPendingDuplicatePlan snapshotHash plan) w = w.
Proof.
  intros [_ Hp]. unfold hasPendingDuplicatePlan. split; srun; [|done].
  unfold ListReconcilePlansByResource. cbv iota. srun.
  match goal with |- existsb _ ?l = false => destruct (existsb _ l) eqn:E; [|done] end. exfalso.
  apply existsb_exists in E as (row & Hin & Hd). apply list_elem_of_In in Hin.
  apply elem_of_take in Hin as (i & Hi & _). apply list_elem_of_lookup_2 in Hi.
  rewrite (isort_perm newer) in Hi. apply list_elem_of_filter in Hi as [_ Hi].
  apply list_elem_of_fmap in Hi as ([k r] & -> & Hi). apply elem_of_map_to_list in Hi. cbn [snd] in Hd.
  specialize (Hp k r Hi). unfold duplicate_of, waiting in Hd.
  apply andb_prop in Hd as [Hd _]. apply andb_prop in Hd as [Hd _].
  apply slices_contains_spec in Hd. set_unfold. intuition congruence.
Qed.

(** The difference of a server that exists. *)
Lemma server_differs id s t1 t2 hash :
  let diffs := computeDiffs
    (mkDesired id ResourceKindServer (Some (sv_DesiredState (sr_Row s))) None None hash 0 t1)
    (mkObserved id ResourceKindServer (Some (sv_ActualState (sr_Row s))) None None hash 0 t2) in
  if (sv_ActualState (sr_Row s) =? sv_DesiredState (sr_Row s))%string
  then exists d, diffs = [d] /\ df_DiffType d = DiffNoOp
  else exists d, diffs = [d] /\ df_DiffType d = DiffUpdate /\ df_ResourceKind d = ResourceKindServer /\
    df_ResourceID d = id /\ as_string (detail_at (df_Details d) "desiredState") = sv_DesiredState (sr_Row s).
Proof.
  cbv zeta. unfold computeDiffs. cbn. rewrite String.eqb_sym.
  destruct (_ =? _)%string; cbn [negb]; rewrite ?String.eqb_refl; cbn; eexists; split_and!; try done.
Qed.

Notation auto kind id := (auto_reconcile publisher queueService gitOpsService snapshotHash kind id).

(** What a resource whose difference is one update comes to: [act] is what the
    update does. *)
Lemma auto_update kind id w snapshots d (act : RcWorld -> RcWorld) :
  fine w ->
  world_alone h (captureSnapshots gitOpsService snapshotHash id kind) w = w ->
  answer_alone h (captureSnapshots gitOpsService snapshotHash id kind) w = Got snapshots ->
  computeDiffs (fst snapshots) (snd snapshots) = [d] -> df_DiffType d = DiffUpdate ->
  (forall row pid db, exists events, world_alone h (diffs_of row pid [d] 0) (w <| rw_db := db |>) =
     (act w) <| rw_db := mkRcTables (rt_plans db) events |>) ->
  exists db, world_alone h (auto kind id) w = (act w) <| rw_db := db |> /\
    forall k row, rt_plans db !! k = Some row ->
      rt_plans (rw_db w) !! k = Some row \/ rr_State row ∈ ["succeeded"; "failed"].
Proof.
  intros Hf Hw Ha Hd Ht Hact. unfold auto_reconcile. srun. rewrite Hw, Ha, Hd. cbn [existsb]. rewrite Ht.
  change (DiffUpdate =? DiffNoOp)%string with false. cbn [negb orb].
  destruct (make_plan_alone id kind [d] w) as [Hmw Hma]. srun. rewrite Hmw, Hma.
  match goal with |- context [hasPendingDuplicatePlan _ ?p] => set (plan := p) end.
  destruct (no_duplicate w plan Hf) as [Hda Hdw]. srun. rewrite Hda, Hdw. cbv iota. srun.
  unfold CreateReconcilePlan. change (rr_ID (planToRow plan)) with (new_id (rw_db w)).
  rewrite new_id_fresh, constrained_ok by (apply states_ok_insert; [cbn; set_solver|by apply fine_states]).
  cbn [fst snd statement]. srun.
  change (pl_Destructive plan) with ((df_DiffType d =? DiffDelete)%string || false). rewrite Ht.
  change ((DiffUpdate =? DiffDelete)%string || false) with false. cbv iota. srun.
  match goal with |- context [world_alone h _ ?w'] => set (w1 := w') end.
  destruct (execute_alone w1 (pl_ID plan) ((planToRow plan) <| rr_CreatedAt := rw_now w |>)) as (row1 & Hr1 & Hex).
  { cbn. apply states_ok_insert; [cbn; set_solver|by apply fine_states]. }
  { apply (lookup_insert_eq (rt_plans (rw_db w))). }
  { done. }
  cbv zeta in Hex. match type of Hex with context [diffs_of ?r ?p _ _] =>
    destruct (Hact r p ((rw_db w1) <| rt_plans := <[pl_ID plan := row1]> (rt_plans (rw_db w1)) |>)) as [ev Hev] end.
  match type of Hex with context [world_alone h ?p ?x] => match type of Hev with _ = ?r =>
    assert (Hev' : world_alone h p x = r) by exact Hev end end.
  rewrite Hev' in Hex. clear Hev Hev'. destruct Hex as (row2 & events & Hr2 & E); [done|]. rewrite E.
  exists (mkRcTables (<[pl_ID plan := row2]> (rt_plans (rw_db w1))) events). split; [done|].
  intros k r Hk2. cbn [rt_plans] in Hk2. apply lookup_insert_Some in Hk2 as [[_ <-] | [Hne Hk2]]; [by right|].
  apply (lookup_insert_Some (rt_plans (rw_db w))) in Hk2 as [[<- _] | [_ Hk2]]; [done|]. by left.
Qed.

(** Resources whose difference is no action. *)
Lemma auto_noop kind id w snapshots d :
  world_alone h (captureSnapshots gitOpsService snapshotHash id kind) w = w ->
  answer_alone h (captureSnapshots gitOpsService snapshotHash id kind) w = Got snapshots ->
  computeDiffs (fst snapshots) (snd snapshots) = [d] -> df_DiffType d = DiffNoOp ->
  world_alone h (auto kind id) w = w.
Proof.
  intros Hw Ha Hd Ht. unfold auto_reconcile. srun. rewrite Hw, Ha, Hd. cbn [existsb]. by rewrite Ht.
Qed.

Lemma server_update_alone d row pid w :
  df_DiffType d = DiffUpdate -> df_ResourceKind d = ResourceKindServer ->
  world_alone h (diffs_of row pid [d] 0) w =
    obeyed (as_string (detail_at (df_Details d) "desiredState")) (df_ResourceID d) w.
Proof.
  intros Ht Hk. cbn [execute_diffs]. rewrite Ht.
  change (DiffUpdate =? DiffNoOp)%string with false. change (DiffUpdate =? DiffDelete)%string with false.
  cbv iota. cbn [andb]. unfold executeDiff. rewrite Hk.
  change (ResourceKindServer =? ResourceKindServer)%string with true. cbv iota.
  unfold executeServerDiff. rewrite Ht. change (DiffUpdate =? DiffCreate)%string with false.
  change (DiffUpdate =? DiffUpdate)%string with true. cbv iota. unfold obeyed, power_or_job.
  destruct (_ =? "running")%string; srun; [done|]. destruct (_ =? "stopped")%string; srun; done.
Qed.

Lemma obeyed_db x id w db : obeyed x id (w <| rw_db := db |>) = (obeyed x id w) <| rw_db := db |>.
Proof. unfold obeyed. destruct (_ =? _)%string; [done|]. by destruct (_ =? _)%string. Qed.

Lemma auto_server id s w :
  fine w -> rw_servers w !! id = Some s ->
  exists db, world_alone h (auto ResourceKindServer id) w = (reconciled id w) <| rw_db := db |> /\
    forall k row, rt_plans db !! k = Some row ->
      rt_plans (rw_db w) !! k = Some row \/ rr_State row ∈ ["succeeded"; "failed"].
Proof.
  intros Hf Hs. pose proof (fn_servers w Hf id s Hs) as Hid.
  destruct (capture_server id s w Hs Hid) as [Hw Ha].
  pose proof (server_differs id s (rw_now w) (rw_now w) (collectServerConfigHash snapshotHash s)) as Hd.
  unfold reconciled. rewrite Hs. unfold ordered. destruct (_ =? sv_DesiredState _)%string eqn:Heq.
  - destruct Hd as (d & Hd & Ht). rewrite (auto_noop _ _ _ _ d Hw Ha Hd Ht), andb_false_r.
    exists (rw_db w). split; [by destruct w|]. by left.
  - destruct Hd as (d & Hd & Ht & Hk & Hdi & Hds). rewrite andb_true_r.
    destruct (auto_update _ id w _ d (obeyed (sv_DesiredState (sr_Row s)) id) Hf Hw Ha Hd Ht) as (db & E & Hdb).
    { intros row pid db. exists (rt_events db). rewrite (server_update_alone d row pid _ Ht Hk), Hds, Hdi, obeyed_db.
      by destruct db. }
    exists db. split; [|done]. rewrite E. unfold obeyed.
    destruct (_ =? "running")%string; [done|]. by destruct (_ =? "stopped")%string.
Qed.

Lemma stack_differs id w snapshots :
  answer_alone h (captureSnapshots gitOpsService snapshotHash id ResourceKindComposeStack) w = Got snapshots ->
  exists d, computeDiffs (fst snapshots) (snd snapshots) = [d] /\
    (df_DiffType d = DiffNoOp \/ df_DiffType d = DiffUpdate /\ df_ResourceKind d = ResourceKindComposeStack).
Proof.
  change (captureSnapshots gitOpsService snapshotHash id ResourceKindComposeStack)
    with (captureComposeSnapshots gitOpsService snapshotHash id). unfold captureComposeSnapshots, rtry, rwrapped.
  srun. destruct (stacks !! id) as [sk|]; cbn [found]; srun; [|done].
  match goal with |- context [answer_alone h ?p ?x] => destruct (answer_alone h p x) end; intros [= <-];
    unfold computeDiffs; cbn; destruct (_ || _); eexists; (split; [done|]); cbn; auto.
Qed.

Lemma stack_update_alone d row pid w :
  gitOpsService = true -> df_DiffType d = DiffUpdate -> df_ResourceKind d = ResourceKindComposeStack ->
  exists events, world_alone h (diffs_of row pid [d] 0) w = w <| rw_db := mkRcTables (rt_plans (rw_db w)) events |>.
Proof.
  intros Hg Ht Hk. cbn [execute_diffs]. rewrite Ht.
  change (DiffUpdate =? DiffNoOp)%string with false. change (DiffUpdate =? DiffDelete)%string with false.
  cbv iota. cbn [andb]. unfold executeDiff. rewrite Hk.
  change (ResourceKindComposeStack =? ResourceKindServer)%string with false.
  change (ResourceKindComposeStack =? ResourceKindNode)%string with false.
  change (ResourceKindComposeStack =? ResourceKindComposeStack)%string with true. cbv iota.
  unfold executeComposeDiff. rewrite Hg, Ht. cbn [negb]. change (DiffUpdate =? DiffUpdate)%string with true. cbv iota. srun.
  destruct (pull (df_ResourceID d)); srun; [|destruct (redeploy (df_ResourceID d)); srun|]; first [by eexists | exists (rt_events (rw_db w)); by destruct w as [[]]].
Qed.

(** A stack never reaches a server. *)
Lemma auto_stack id w :
  fine w -> gitOpsService = true -> 
  exists db, world_alone h (auto ResourceKindComposeStack id) w = w <| rw_db := db |> /\
    forall k row, rt_plans db !! k = Some row ->
      rt_plans (rw_db w) !! k = Some row \/ rr_State row ∈ ["succeeded"; "failed"].
Proof.
  intros Hf Hg.
  assert (Hw : world_alone h (captureSnapshots gitOpsService snapshotHash id ResourceKindComposeStack) w = w).
  { change (captureSnapshots gitOpsService snapshotHash id ResourceKindComposeStack)
      with (captureComposeSnapshots gitOpsService snapshotHash id). unfold captureComposeSnapshots, rtry, rwrapped.
    srun. destruct (stacks !! id); cbn [found]; srun; [|done]. rewrite Hg. by srun. }
  destruct (answer_alone h (captureSnapshots gitOpsService snapshotHash id ResourceKindComposeStack) w) as [snapshots|e] eqn:Ha.
  - destruct (stack_differs _ _ _ Ha) as (d & Hd & [Ht | [Ht Hk]]).
    + rewrite (auto_noop _ _ _ _ d Hw Ha Hd Ht). exists (rw_db w). split; [by destruct w|]. by left.
    + apply (auto_update _ id w _ d (fun w => w) Hf Hw Ha Hd Ht). intros row pid db.
      destruct (stack_update_alone d row pid (w <| rw_db := db |>) Hg Ht Hk) as [ev E]. exists ev. exact E.
  - exists (rw_db w). split; [|by left]. unfold auto_reconcile. srun. rewrite Hw, Ha. by destruct w.
Qed.

(** ** The servers of the fleet *)

(** A server that does what it should, as far as it can be told to. *)
Definition settle (s : Srv) : Srv :=
  if ordered s then with_actual (sv_DesiredState (sr_Row s)) s else s.

Lemma settle_settled s : ordered (settle s) = false.
Proof.
  unfold settle. destruct (ordered s) eqn:E; [|done]. unfold ordered, with_actual. cbn.
  by rewrite String.eqb_refl, andb_false_r.
Qed.

Lemma settle_id s : ordered s = false -> settle s = s.
Proof. intros E. unfold settle. by rewrite E. Qed.

Definition at_rest (w : RcWorld) : Prop := forall id s, rw_servers w !! id = Some s -> ordered s = false.

Lemma commanded_servers p id w k :
  rw_servers (commanded p id w) !! k =
    if decide (k = id) then with_actual (power_state p) <$> rw_servers w !! k else rw_servers w !! k.
Proof.
  change (rw_servers (commanded p id w)) with (alter (with_actual (power_state p)) id (rw_servers w)).
  destruct (decide (k = id)) as [-> | Hne]; [by rewrite lookup_alter_eq|by rewrite lookup_alter_ne].
Qed.

Lemma reconciled_servers id w k :
  rw_servers (reconciled id w) !! k = if decide (k = id) then settle <$> rw_servers w !! k else rw_servers w !! k.
Proof.
  unfold reconciled. destruct (rw_servers w !! id) as [s|] eqn:E; [|by destruct (decide (k = id)) as [-> |]; rewrite ?E].
  destruct (ordered s) eqn:Ho.
  - unfold obeyed. destruct (String.eqb_spec (sv_DesiredState (sr_Row s)) "running") as [Hd|Hn].
    { rewrite commanded_servers. destruct (decide (k = id)) as [-> |]; [|done]. rewrite E. unfold settle. cbn.
      by rewrite Ho, Hd. }
    destruct (String.eqb_spec (sv_DesiredState (sr_Row s)) "stopped") as [Hd|Hn'].
    { rewrite commanded_servers. destruct (decide (k = id)) as [-> |]; [|done]. rewrite E. unfold settle. cbn.
      by rewrite Ho, Hd. }
    unfold ordered in Ho. apply String.eqb_neq in Hn, Hn'. by rewrite Hn, Hn' in Ho.
  - destruct (decide (k = id)) as [-> |]; [|done]. rewrite E. cbn. by rewrite settle_id.
Qed.

Lemma reconciled_at_rest id w : at_rest w -> reconciled id w = w.
Proof.
  intros H. unfold reconciled. destruct (rw_servers w !! id) as [s|] eqn:E; [|done]. by rewrite (H id s E).
Qed.

Lemma fine_after w w' :
  fine w ->
  (forall k, exists f, rw_servers w' !! k = f <$> rw_servers w !! k /\ forall s, sv_ID (sr_Row (f s)) = sv_ID (sr_Row s)) ->
  (forall k row, rt_plans (rw_db w') !! k = Some row ->
     rt_plans (rw_db w) !! k = Some row \/ rr_State row ∈ ["succeeded"; "failed"]) -> fine w'.
Proof.
  intros [H1 H2] Hs Hp. split.
  - intros id s' E. destruct (Hs id) as (f & Ef & Hf). rewrite Ef in E.
    destruct (rw_servers w !! id) as [s|] eqn:Es; [|done]. injection E as <-. rewrite Hf. by apply H1.
  - intros id row E. destruct (Hp id row E) as [E'|E']; [by eapply H2|]. set_solver.
Qed.

Lemma settle_ID s : sv_ID (sr_Row (settle s)) = sv_ID (sr_Row s).
Proof. unfold settle. by destruct (ordered s). Qed.

Lemma drifts_loop l w :
  fine w -> (forall s, s ∈ l -> is_Some (rw_servers w !! sv_ID (sr_Row s))) ->
  let w' := foldl (fun w s => world_alone h (auto ResourceKindServer (sv_ID (sr_Row s))) w) w l in
  fine w' /\
  (forall k, rw_servers w' !! k =
     if decide (k ∈ map (fun s => sv_ID (sr_Row s)) l) then settle <$> rw_servers w !! k else rw_servers w !! k) /\
  (at_rest w -> rw_done w' = rw_done w).
Proof.
  revert w. induction l as [|s l IH]; intros w Hf Hl; cbn [foldl map].
  { by split_and!. }
  destruct (Hl s) as [s0 Hs0]; [left|]. destruct (auto_server _ _ w Hf Hs0) as (db & E & Hdb).
  set (id := sv_ID (sr_Row s)) in *. rewrite E. set (w1 := (reconciled id w) <| rw_db := db |>).
  assert (Hk : forall k, rw_servers w1 !! k = if decide (k = id) then settle <$> rw_servers w !! k else rw_servers w !! k)
    by apply reconciled_servers.
  assert (Hf1 : fine w1).
  { apply (fine_after w); [done| |done]. intros k. exists (if decide (k = id) then settle else (fun s => s)).
    rewrite Hk. destruct (decide _); (split; [|intros; apply settle_ID || done]); [done|]. by destruct (rw_servers w !! k). }
  destruct (IH w1 Hf1) as (F & S & D).
  { intros s' Hs'. rewrite Hk. specialize (Hl s' (list_elem_of_further _ _ _ Hs')).
    destruct (decide _); [by rewrite fmap_is_Some|done]. }
  split_and!; [done| |].
  - intros k. rewrite S, Hk. destruct (decide (k = id)) as [-> | Hne].
    + rewrite (decide_True (P := id ∈ id :: _)) by left. destruct (decide _); [|done].
      destruct (rw_servers w !! id) as [s1|]; [|done]. cbn. by rewrite (settle_id (settle s1) (settle_settled s1)).
    + destruct (decide (k ∈ map _ l)) as [Hin|Hin].
      * by rewrite decide_True by (by right).
      * rewrite decide_False; [done|]. rewrite elem_of_cons. naive_solver.
  - intros Hr. rewrite D; [unfold w1; by rewrite (reconciled_at_rest id w Hr)|].
    unfold w1. rewrite (reconciled_at_rest id w Hr). exact Hr.
Qed.

Lemma stacks_loop l w :
  fine w -> gitOpsService = true ->
  let w' := foldl (fun w sk => world_alone h (auto ResourceKindComposeStack (sk_ID sk)) w) w l in
  fine w' /\ rw_servers w' = rw_servers w /\ rw_done w' = rw_done w.
Proof.
  intros Hf Hg. revert w Hf. induction l as [|sk l IH]; intros w Hf; cbn [foldl]; [done|].
  destruct (auto_stack (sk_ID sk) w Hf Hg) as (db & E & Hdb). rewrite E.
  destruct (IH (w <| rw_db := db |>)) as (F & S & D); [|done].
  apply (fine_after w); [done| |done]. intros k. exists (fun s => s). split; [|done]. cbn.
  by destruct (rw_servers w !! k).
Qed.

Lemma stacks_alone w :
  fine w ->
  let w' := world_alone h (autoReconcileComposeStacks publisher queueService gitOpsService snapshotHash) w in
  fine w' /\ rw_servers w' = rw_servers w /\ rw_done w' = rw_done w.
Proof.
  intros Hf. unfold autoReconcileComposeStacks. destruct gitOpsService eqn:Hg; cbn [negb]; [|by srun].
  rewrite <- Hg. srun. rewrite alone_each. by apply stacks_loop.
Qed.

Lemma drifts_alone w :
  fine w ->
  let w' := world_alone h (autoReconcileDrifts publisher queueService gitOpsService snapshotHash) w in
  fine w' /\ (forall k, rw_servers w' !! k = settle <$> rw_servers w !! k) /\ (at_rest w -> rw_done w' = rw_done w).
Proof.
  intros Hf. unfold autoReconcileDrifts. srun. rewrite alone_each.
  destruct (drifts_loop (map snd (map_to_list (rw_servers w))) w Hf) as (F & S & D).
  - intros s Hs. apply list_elem_of_fmap in Hs as ([k s'] & -> & Hs). apply elem_of_map_to_list in Hs.
    cbn. by rewrite (fn_servers w Hf k s' Hs), Hs.
  - split_and!; [done| |done]. intros k. rewrite S. destruct (decide _) as [|Hn]; [done|].
    destruct (rw_servers w !! k) as [s|] eqn:E; [|done]. exfalso. apply Hn.
    apply list_elem_of_fmap. exists s. split; [by rewrite (fn_servers w Hf k s E)|].
    apply list_elem_of_fmap. exists (k, s). split; [done|]. by apply elem_of_map_to_list.
Qed.

(** What may change when commands are given: what servers do. *)
Definition commanded_only (w w' : RcWorld) : Prop :=
  rt_plans (rw_db w') = rt_plans (rw_db w) /\
  forall k, exists f, rw_servers w' !! k = f <$> rw_servers w !! k /\
    forall s, exists actual, f s = with_actual actual s.

Lemma with_actual_id s : with_actual (sv_ActualState (sr_Row s)) s = s.
Proof. by destruct s as [[]]. Qed.

Lemma commanded_only_same w w' :
  rw_servers w' = rw_servers w -> rt_plans (rw_db w') = rt_plans (rw_db w) -> commanded_only w w'.
Proof.
  intros E P. split; [done|]. intros k. exists (fun s => s). rewrite E.
  split; [by destruct (rw_servers w !! k)|].
    intros s. exists (sv_ActualState (sr_Row s)). by rewrite with_actual_id.
Qed.

#[local] Instance commanded_only_preorder : PreOrder commanded_only.
Proof.
  split.
  - intros w. by apply commanded_only_same.
  - intros w1 w2 w3 [P1 S1] [P2 S2]. split; [congruence|]. intros k.
    destruct (S1 k) as (f & Ef & Hf), (S2 k) as (g & Eg & Hg). exists (fun s => g (f s)). split.
    + rewrite Eg, Ef. by destruct (rw_servers w1 !! k).
    + intros s. destruct (Hf s) as [a Ha], (Hg (f s)) as [b Hb]. exists b. by rewrite Hb, Ha.
Qed.

Lemma commanded_only_fine w w' : commanded_only w w' -> fine w -> fine w'.
Proof.
  intros [P S] Hf. apply (fine_after w); [done| |rewrite P; by left]. intros k. destruct (S k) as (f & Ef & Hf').
  exists f. split; [done|]. intros s. by destruct (Hf' s) as [a ->].
Qed.

(** The requests of the parts that store no plan. *)
Definition plain (X : Type) (e : RcEff X) : Prop :=
  match e with RcInsert _ | RcSetState _ _ _ | RcConfirm _ | RcExpire _ => False | _ => True end.

Lemma plain_step X (e : RcEff X) w : plain X e -> commanded_only w (snd (h X e w)).
Proof.
  intros He. destruct e; try done; try (by apply commanded_only_same).
  split; [done|]. intros k. cbn [rc_serve snd]. rewrite commanded_servers. destruct (decide (k = serverID)).
  - exists (with_actual (power_state p)). split; [done|]. intros s. by eexists.
  - exists (fun s => s). split; [by destruct (rw_servers w !! k)|].
    intros s. exists (sv_ActualState (sr_Row s)). by rewrite with_actual_id.
Qed.

Lemma plain_commanded {A} (p : R_ A) w : only plain p -> commanded_only w (world_alone h p w).
Proof. intros Hp. apply (alone_only h plain commanded_only); [|done]. intros X e w' He. by apply plain_step. Qed.

Ltac plain_requests := repeat first
  [ progress cbv zeta | apply only_bind; [|intros] | apply only_request; done | done
  | match goal with |- only _ (match ?x with _ => _ end) => destruct x end ].

Lemma only_each {A} (l : list A) body : (forall x, only plain (body x)) -> only plain (each l body).
Proof. intros H. induction l as [|x l IH]; [done|]. cbn [each]. apply only_bind; [apply H|done]. Qed.

Lemma publish_plain kind ty id : only plain (rpublish publisher kind ty id).
Proof. unfold rpublish. plain_requests. Qed.

Lemma operable_plain id : only plain (isNodeOperable id).
Proof. unfold isNodeOperable. plain_requests. Qed.

Lemma reconcileServer_plain server : only plain (reconcileServer publisher server).
Proof.
  unfold reconcileServer. plain_requests; try apply publish_plain; try apply operable_plain.
Qed.

Lemma refreshServers_plain : only plain (refreshServers publisher).
Proof.
  unfold refreshServers, count_. apply only_bind; [by apply only_request|]. intros [l|e]; [|done].
  apply only_bind; [|done]. apply only_each. intros s. apply only_bind; [by apply only_request|]. intros _.
  apply only_bind; [apply reconcileServer_plain|]. intros [e|]; plain_requests.
Qed.

Lemma each_same {A} (l : list A) body w :
  (forall x, x ∈ l -> world_alone h (body x) w = w) -> world_alone h (each l body) w = w.
Proof.
  intros H. rewrite alone_each. induction l as [|x l IH]; [done|]. cbn [foldl]. rewrite (H x) by left.
  apply IH. intros y Hy. apply H. by right.
Qed.

Lemma refreshNodes_alone w : world_alone h (refreshNodes publisher) w = w.
Proof.
  unfold refreshNodes. srun. apply each_same. intros node _. srun. unfold reconcileNode.
  destruct (_ || _); [apply alone_publish|done].
Qed.

Lemma expire_alone w ttl : fine w -> snd (h _ (RcExpire ttl) w) = w.
Proof.
  intros [_ Hp]. cbn [rc_serve snd statement]. unfold statement, ExpireStaleReconcilePlans.
  assert (E : (fun row => if overdue ttl (rw_now w) row
      then ((row <| rr_State := "expired" |>) <| rr_Error := "plan expired after TTL" |>) <| rr_ExecutedAt := Some (rw_now w) |>
      else row) <$> rt_plans (rw_db w) = rt_plans (rw_db w)).
  { apply map_eq. intros k. rewrite lookup_fmap. destruct (rt_plans (rw_db w) !! k) as [row|] eqn:Hk; [|done].
    cbn. specialize (Hp k row Hk). unfold overdue, waiting.
    replace (slices_contains ["pending"; "confirmed"; "queued"] (rr_State row)) with false; [done|].
    symmetry. apply slices_contains_false. intros H. set_unfold. intuition congruence. }
  rewrite E, constrained_ok.
  - destruct w as [[]]. done.
  - intros k row Hk. specialize (Hp k row Hk). set_solver.
Qed.

(** A server at rest is given no command. *)
Lemma reconcileServer_rest s w :
  at_rest w -> world_alone h (reconcileServer publisher s) w = w.
Proof.
  intros Hr. unfold reconcileServer. srun. destruct (rw_servers w !! sv_ID (sr_Row s)) as [s0|] eqn:E; [|done].
  cbn [found fmap option_fmap option_map]. srun. rewrite ?E. cbn [found]. srun. destruct (_ =? "")%string; [done|]. unfold isNodeOperable. srun.
  match goal with |- context [if negb ?b then _ else _] => destruct b end; cbn [negb]; [|done].
  specialize (Hr _ _ E). unfold ordered in Hr.
  destruct (String.eqb_spec (sv_DesiredState (sr_Row s0)) "running") as [Hd|Hd].
  - rewrite Hd in Hr. rewrite ?Hd. cbn in Hr. apply negb_false_iff, String.eqb_eq in Hr. by rewrite Hr.
  - cbn [andb]. destruct (String.eqb_spec (sv_DesiredState (sr_Row s0)) "stopped") as [Hd'|Hd']; [|done].
    rewrite Hd' in Hr. cbn in Hr. apply negb_false_iff, String.eqb_eq in Hr. by rewrite Hr.
Qed.

Lemma refreshServers_rest w : at_rest w -> world_alone h (refreshServers publisher) w = w.
Proof.
  intros Hr. unfold refreshServers. srun. apply each_same. intros s _. srun. rewrite reconcileServer_rest by done.
  destruct (answer_alone _ _ _); srun; done.
Qed.

Lemma recover_target_rest now target w :
  fine w -> at_rest w ->
  let w' := world_alone h (recover_target publisher now target) w in commanded_only w w' /\ at_rest w'.
Proof.
  intros Hf Hr. cbv zeta. assert (H : commanded_only w (world_alone h (recover_target publisher now target) w)).
  { apply plain_commanded. unfold recover_target, count_.
    plain_requests; try apply publish_plain; try apply operable_plain. }
  split; [done|]. clear H. unfold recover_target. srun.
  destruct (rw_servers w !! ht_ServerID target) as [s|] eqn:E; cbn [found]; srun; [|done].
  destruct (String.eqb_spec (sv_DesiredState (sr_Row s)) "running") as [Hd|]; cbn [negb]; [|done].
  destruct (sv_Suspended _); [done|]. unfold isNodeOperable. srun.
  match goal with |- context [if negb ?b then _ else _] => destruct b end; cbn [negb]; [|done]. srun.
  destruct (default _ _) as [attempts until]. destruct (_ && _); [done|].
  destruct (_ <=? _); srun; [done|]. intros k s' Hk.
  match type of Hk with rw_servers ?w' !! _ = _ => change (rw_servers w') with (rw_servers (commanded PowerRestart (sv_ID (sr_Row s)) w)) in Hk end.
  rewrite commanded_servers in Hk. destruct (decide _) as [-> |]; [|by apply (Hr k)].
  rewrite (fn_servers w Hf _ _ E), E in Hk. injection Hk as <-. unfold ordered. cbn. rewrite Hd.
  by rewrite andb_false_r.
Qed.

Lemma recover_targets_rest now seen targets w :
  fine w -> at_rest w ->
  let w' := world_alone h (recover_targets publisher now seen targets) w in commanded_only w w' /\ at_rest w'.
Proof.
  revert seen w. induction targets as [|t l IH]; intros seen w Hf Hr; cbn [recover_targets]; [by split; [reflexivity|]|].
  destruct (decide _); [by apply IH|]. cbv zeta. rewrite world_alone_bind.
  destruct (recover_target_rest now t w Hf Hr) as [C R].
  destruct (IH ({[ht_ServerID t]} ∪ seen) _ (commanded_only_fine _ _ C Hf) R) as [C' R'].
  split; [by etransitivity|done].
Qed.

Lemma recover_rest w :
  fine w -> at_rest w ->
  let w' := world_alone h (recoverUnhealthyTargets publisher healthChecker) w in
  commanded_only w w' /\ at_rest w' /\ (unhealthy w = [] -> w' = w).
Proof.
  intros Hf Hr. unfold recoverUnhealthyTargets. destruct healthChecker; cbn [negb]; [|by split_and!]. srun.
  destruct (unhealthy w) as [|t l]; [by split_and!|]. srun.
  destruct (recover_targets_rest (rw_now w) ∅ (t :: l) w Hf Hr). by split_and!.
Qed.

(** Nothing but nodes and counters changes. *)
Definition nodes_only (w w' : RcWorld) : Prop :=
  rw_servers w' = rw_servers w /\ rw_done w' = rw_done w /\ rw_db w' = rw_db w.

#[local] Instance nodes_only_preorder : PreOrder nodes_only.
Proof. split; [by intros w|]. intros w1 w2 w3 (?&?&?) (?&?&?). split_and!; congruence. Qed.

Lemma reconnecting_alone id w : nodes_only w (world_alone h (ReconcileReconnectingNode id) w).
Proof.
  unfold ReconcileReconnectingNode. srun. destruct (found _); [|done]. destruct (negb _); [done|]. by srun.
Qed.

Lemma reconnect_all_alone nodes w :
  nodes_only w (world_alone h (each nodes (fun node =>
    if (nd_HeartbeatState node =? "reconciling")%string
    then ReconcileReconnectingNode (nd_ID node) ;;^ Ret tt else Ret tt)) w).
Proof.
  rewrite alone_each. revert w. induction nodes as [|n l IH]; intros w; cbn [foldl]; [done|].
  etransitivity; [|apply IH]. destruct (_ =? _)%string; [|done]. srun. apply reconnecting_alone.
Qed.

Notation pass := (RunOnce publisher queueService gitOpsService healthChecker true snapshotHash).

Lemma pass_alone w :
  fine w ->
  let w' := world_alone h pass w in
  fine w' /\ at_rest w' /\
  (forall k, exists f, rw_servers w' !! k = f <$> rw_servers w !! k /\
     forall s, exists actual, f s = with_actual actual s) /\
  (at_rest w -> (forall w1, at_rest w1 -> unhealthy w1 = []) -> rw_done w' = rw_done w).
Proof.
  intros Hf. cbv zeta. unfold RunOnce. rewrite world_alone_bind, alone_count, alone_after, expire_alone by done.
  rewrite world_alone_bind, refreshNodes_alone. rewrite world_alone_bind.
  match goal with |- context [world_alone h ?p w] => replace (world_alone h p w) with w
    by (destruct (answer_alone h (refreshNodes publisher) w); by rewrite ?alone_count) end.
  rewrite world_alone_bind. set (w1 := world_alone h (refreshServers publisher) w).
  assert (C1 : commanded_only w w1) by apply plain_commanded, refreshServers_plain.
  assert (Hrest1 : at_rest w -> w1 = w) by apply refreshServers_rest.
  rewrite world_alone_bind.
  match goal with |- context [world_alone h ?p w1] => replace (world_alone h p w1) with w1
    by (destruct (answer_alone h (refreshServers publisher) w); by rewrite ?alone_count) end.
  pose proof (commanded_only_fine _ _ C1 Hf) as Hf1. rewrite !world_alone_bind.
  destruct (drifts_alone w1 Hf1) as (Hf2 & S2 & D2). cbv zeta in *.
  set (w2 := world_alone h (autoReconcileDrifts _ _ _ _) w1) in *.
  destruct (stacks_alone w2 Hf2) as (Hf3 & S3 & D3). cbv zeta in *.
  set (w3 := world_alone h (autoReconcileComposeStacks _ _ _ _) w2) in *.
  assert (R3 : at_rest w3).
  { intros k s Hk. rewrite S3, S2 in Hk. destruct (rw_servers w1 !! k); [|done]. injection Hk as <-.
    apply settle_settled. }
  destruct (recover_rest w3 Hf3 R3) as (C4 & R4 & D4). cbv zeta in *.
  set (w4 := world_alone h (recoverUnhealthyTargets _ _) w3) in *. srun.
  match goal with |- context [world_alone h ?p w4] => set (w5 := world_alone h p w4) end.
  assert (nodes_only w4 w5) as (S5 & D5 & P5) by apply reconnect_all_alone.
  pose proof (commanded_only_fine _ _ C4 Hf3) as Hf4. split_and!.
  - apply (fine_after w4); [done| |rewrite P5; by left]. intros k. exists (fun s => s). rewrite S5.
    by destruct (rw_servers w4 !! k).
  - intros k s Hk. rewrite S5 in Hk. by apply (R4 k).
  - intros k. rewrite S5. destruct C1 as [_ C1], C4 as [_ C4]. destruct (C1 k) as (f & Ef & Hf'), (C4 k) as (g & Eg & Hg).
    exists (fun s => g (settle (f s))). rewrite Eg, S3, S2, Ef. split; [by destruct (rw_servers w !! k)|].
    intros s. destruct (Hf' s) as [a Ha], (Hg (settle (f s))) as [b Hb]. exists b. rewrite Hb. unfold settle.
    destruct (ordered (f s)); by rewrite Ha.
  - intros Hr Hun. rewrite D5, (D4 (Hun _ R3)), D3, D2; rewrite Hrest1 by done; done.
Qed.

(** C38: In a fleet where nothing fails (the states of the servers can be read,
    a command takes effect at once, wherever the server is), where nobody else
    acts and no stored plan is pending or confirmed (such a plan keeps
    the pass from making another one for its resource), one pass brings every
    server that should run or be stopped to that state, whatever state it was
    in, and changes nothing else of it.  This includes servers on nodes that the
    reconciler takes for inoperable: its first loop leaves them alone, but the
    plans it makes later in the pass do not look at the node.  Once the servers
    that do what they should count as healthy, no later pass gives a server
    another command (stacks may be redeployed). *)
Theorem RunOnce_converges w n :
  fine w -> (forall w1, at_rest w1 -> unhealthy w1 = []) ->
  let w1 := world_alone h pass w in
  (forall id s, rw_servers w !! id = Some s ->
     exists actual, rw_servers w1 !! id = Some (with_actual actual s) /\
       (sv_DesiredState (sr_Row s) ∈ ["running"; "stopped"] -> actual = sv_DesiredState (sr_Row s))) /\
  rw_done (Nat.iter n (world_alone h pass) w1) = rw_done w1.
Proof.
  intros Hf Hun w1. destruct (pass_alone w Hf) as (F & R & S & _). fold w1 in F, R, S. split.
  - intros id s Hs. destruct (S id) as (f & Ef & Hf'). rewrite Hs in Ef. cbn in Ef.
    destruct (Hf' s) as [a Ha]. exists a. rewrite Ef, Ha. split; [done|]. intros Hd.
    specialize (R id (f s) Ef). rewrite Ha in R.
    change (((sv_DesiredState (sr_Row s) =? "running")%string || (sv_DesiredState (sr_Row s) =? "stopped")%string) &&
      negb (a =? sv_DesiredState (sr_Row s))%string = false) in R.
    apply slices_contains_spec in Hd. cbn in Hd. rewrite orb_false_r in Hd. rewrite Hd in R.
    cbn [andb] in R. by apply negb_false_iff, String.eqb_eq in R.
  - enough (H : forall n, fine (Nat.iter n (world_alone h pass) w1) /\ at_rest (Nat.iter n (world_alone h pass) w1) /\
      rw_done (Nat.iter n (world_alone h pass) w1) = rw_done w1) by apply H.
    clear n. intros n. induction n as [|n (Fn & Rn & Dn)]; [done|]. cbn [Nat.iter nat_rect].
    destruct (pass_alone _ Fn) as (F' & R' & _ & D'). split_and!; [done|done|]. rewrite <- Dn. by apply D'.
Qed.
End Convergence.

(** ** The restarts of recovery *)

(** What the limit of restarts depends on: the clock, what the service
    remembers, and the restarts that were asked for, the last one first, with
    the last reading of the clock. *)
Record RecoveryWorld := mkRecovery {
  rv_now : Time;
  rv_known : gmap string (Z * Time);
  rv_log : list (string * Time)
}.

(** Any answer, from a clock that does not go back. *)
Definition recovery_step (X : Type) (e : RcEff X) : RecoveryWorld -> X -> RecoveryWorld -> Prop :=
  match e in RcEff X return RecoveryWorld -> X -> RecoveryWorld -> Prop with
  | RcNow => fun w x w' => rv_now w <= x /\ w' = w <| rv_now := x |>
  | RcRestarts id => fun w x w' => x = default (0, zeroTime) (rv_known w !! id) /\ w' = w
  | RcRemember id n t => fun w _ w' => w' = w <| rv_known := <[id := (n, t)]> (rv_known w) |>
  | RcPower PowerRestart id => fun w _ w' => w' = w <| rv_log := (id, rv_now w) :: rv_log w |>
  | _ => fun w _ w' => w' = w
  end.

Definition restarts_of (id : string) (w : RecoveryWorld) : list Time :=
  map snd (filter (fun r => r.1 = id) (rv_log w)).

Definition spaced : list Time -> Prop := Sorted (fun later earlier => earlier + RestartCooldown <= later).

Definition limited (w : RecoveryWorld) : Prop :=
  forall id, (length (restarts_of id w) <= 3)%nat /\ spaced (restarts_of id w).

(** What is remembered is what happened. *)
Definition tracked (w : RecoveryWorld) : Prop :=
  0 <= rv_now w /\ limited w /\
  forall id, match rv_known w !! id with
    | None => restarts_of id w = []
    | Some (n, until) => n = Z.of_nat (length (restarts_of id w)) /\
        exists t ts, restarts_of id w = t :: ts /\ until = t + RestartCooldown /\ 0 <= t
    end.

Section Recovery.
Context (publisher healthChecker : bool).

Lemma restarts_of_cons id id' t w :
  restarts_of id (w <| rv_log := (id', t) :: rv_log w |>) =
    if decide (id' = id) then t :: restarts_of id w else restarts_of id w.
Proof.
  change (map snd (filter (fun r => r.1 = id) ((id', t) :: rv_log w)) = if decide (id' = id) then t :: restarts_of id w else restarts_of id w).
  rewrite filter_cons. cbn [fst]. by destruct (decide (id' = id)).
Qed.

Notation held := (holds recovery_step limited).

(** Requests that leave the recovery as it is. *)
Definition calm (X : Type) (e : RcEff X) : Prop :=
  match e with RcNow | RcRemember _ _ _ | RcPower _ _ => False | _ => True end.

Lemma calm_held {A} (p : R_ A) w : only calm p -> tracked w -> held p (fun _ w' => w' = w) w.
Proof.
  induction p as [a|X e k IH]; intros Ho Hw; [done|]. destruct Ho as [He Ho]. intros x w1 Hs.
  assert (w1 = w) as -> by (destruct e; try done; by destruct Hs). split; [apply Hw|]. by apply IH.
Qed.

Lemma rpublish_calm kind ty id : only calm (rpublish publisher kind ty id).
Proof. unfold rpublish. destruct publisher; [|done]. apply only_bind; [by apply only_request|done]. Qed.

Lemma restart_tracked id attempts until now w :
  tracked w -> rv_now w = now -> default (0, zeroTime) (rv_known w !! id) = (attempts, until) ->
  negb (until =? zeroTime) && (now <? until) = false -> attempts < MaxRestartAttempts ->
  let w1 := w <| rv_log := (id, now) :: rv_log w |> in
  limited w1 /\ tracked (w1 <| rv_known := <[id := (attempts + 1, now + RestartCooldown)]> (rv_known w) |>).
Proof.
  intros (H0 & Hl & Hk) Hn Hknown Hcool Hmax w1. subst now.
  assert (Hid : Z.of_nat (length (restarts_of id w)) = attempts /\ spaced (rv_now w :: restarts_of id w)).
  { specialize (Hk id). destruct (Hl id) as [_ Hs]. destruct (rv_known w !! id) as [[n u]|]; cbn [default] in Hknown.
    - injection Hknown as -> ->. destruct Hk as (-> & t & ts & E & -> & Ht). split; [done|].
      constructor; [done|]. rewrite E. constructor. unfold RestartCooldown, zeroTime, Minute, Second in *. lia.
    - injection Hknown as <- <-. rewrite Hk. split; [done|]. repeat constructor. }
  assert (Hl1 : limited w1).
  { intros i. unfold w1. rewrite restarts_of_cons. destruct (decide (id = i)) as [<- |]; [|apply Hl].
    split; [|apply Hid]. cbn. unfold MaxRestartAttempts in Hmax. lia. }
  split; [done|]. split_and!; [done|done|]. intros i.
  set (known := <[id := (attempts + 1, rv_now w + RestartCooldown)]> (rv_known w)).
  change (rv_known (w1 <| rv_known := known |>)) with known.
  change (restarts_of i (w1 <| rv_known := known |>)) with (restarts_of i w1).
  unfold w1, known. rewrite restarts_of_cons.
  destruct (decide (id = i)) as [<- | Hne].
  - rewrite lookup_insert_eq. split; [cbn [length]; lia|]. by exists (rv_now w), (restarts_of id w).
  - rewrite lookup_insert_ne by done. apply Hk.
Qed.

Lemma held_request {X A} (e : RcEff X) (k : X -> R_ A) Q w :
  (forall x w1, recovery_step X e w x w1 -> limited w1 /\ held (k x) Q w1) -> held (pbind (request e) k) Q w.
Proof. exact (fun H => H). Qed.

(** A request that changes nothing. *)
Lemma held_calm {X A} (e : RcEff X) (k : X -> R_ A) Q w :
  calm X e -> tracked w -> (forall x, recovery_step X e w x w -> held (k x) Q w) -> held (pbind (request e) k) Q w.
Proof.
  intros He Hw H. apply held_request. intros x w1 Hs.
  assert (w1 = w) as -> by (destruct e; try done; by destruct Hs). split; [apply Hw|]. by apply H.
Qed.

Lemma held_bind_calm {A B} (p : R_ A) (k : A -> R_ B) Q w :
  only calm p -> tracked w -> (forall a, held (k a) Q w) -> held (pbind p k) Q w.
Proof.
  intros Hp Hw H. apply holds_bind. eapply holds_post; [by apply calm_held|]. by intros a ? ->.
Qed.

Lemma recover_target_held now target w :
  tracked w -> rv_now w = now -> held (recover_target publisher now target) (fun _ w' => tracked w' /\ rv_now w' = now) w.
Proof.
  intros Hw Hn. assert (Hret : held (Ret tt) (fun _ w' => tracked w' /\ rv_now w' = now) w) by done.
  unfold recover_target, count_. apply held_calm; [done..|]. intros [s|e] _; [|by apply (held_calm _ Ret)].
  destruct (negb _); [done|]. destruct (sv_Suspended _); [done|].
  apply held_bind_calm; [|done|]; [apply only_bind; [by apply only_request|done]|].
  intros operable. destruct (negb operable); [done|]. apply held_calm; [done..|]. intros [attempts until] [Hx _].
  destruct (negb (until =? zeroTime) && _) eqn:Hcool; [done|].
  destruct (MaxRestartAttempts <=? attempts) eqn:Hmax.
  { eapply holds_post; [apply calm_held; [apply rpublish_calm|done]|]. by intros _ ? ->. }
  apply held_calm; [done..|]. intros _ _. apply held_bind_calm; [apply rpublish_calm|done|]. intros _.
  apply held_request. intros e ? ->.
  destruct (restart_tracked (sv_ID (sr_Row s)) attempts until now w Hw Hn (eq_sym Hx) Hcool) as [Hl Ht]; [lia|].
  rewrite Hn. split; [done|].
  destruct e; [intros ? ? ->; split; [done|]|]; intros ? ? ->; (split; [apply Ht|]); (split; [apply Ht|done]).
Qed.

Lemma recover_targets_held now seen targets w :
  tracked w -> rv_now w = now -> held (recover_targets publisher now seen targets) (fun _ => tracked) w.
Proof.
  revert seen w. induction targets as [|t l IH]; intros seen w Hw Hn; cbn [recover_targets]; [done|].
  destruct (decide _); [by apply IH|]. apply holds_bind. eapply holds_post; [by apply recover_target_held|].
  intros _ w' [Hw' Hn']. by apply IH.
Qed.

Lemma recover_held w : tracked w -> held (recoverUnhealthyTargets publisher healthChecker) (fun _ => tracked) w.
Proof.
  intros Hw. unfold recoverUnhealthyTargets. destruct healthChecker; cbn [negb]; [|done].
  apply held_calm; [done..|]. intros unhealthy _. destruct unhealthy as [|t l]; [done|].
  apply held_request. intros now w1 [Hle ->]. assert (tracked (w <| rv_now := now |>)).
  { destruct Hw as (H0 & Hl & Hk). split_and!; [change (0 <= now); lia|done|done]. }
  split; [apply Hw|]. by apply recover_targets_held.
Qed.

(** Passes of recovery, one after the other. *)
Fixpoint passes (n : nat) : R_ unit :=
  match n with O => Ret tt | S n => recoverUnhealthyTargets publisher healthChecker ;;^ passes n end.

End Recovery.

(** ** Examples *)

Definition example_server (id node desired actual : string) : Srv :=
  mkSrv (mkServerRow id node "" 100 512 1000 desired actual false "" true false 0 0 0) "image" "run" None.

Definition example_node (id heartbeat actual : string) : NodeRow :=
  mkNodeRow id id None None None None None None actual "active" false false "docker" heartbeat.

(** Node [m] cannot be reached. *)
Definition example_fleet (plans : gmap string ReconcilePlanRow) : RcWorld :=
  mkRcWorld (mkRcTables plans [])
    {["a" := example_server "a" "n" "running" "stopped";
      "b" := example_server "b" "n" "stopped" "running";
      "c" := example_server "c" "n" "running" "crashed";
      "d" := example_server "d" "m" "running" "stopped";
      "e" := example_server "e" "n" "terminated" "stopped"]}
    {["n" := example_node "n" "healthy" "online"; "m" := example_node "m" "offline" "offline"]} (1000 * Minute) ∅ [].

Definition example_serve : forall X, RcEff X -> RcWorld -> X * RcWorld :=
  rc_serve (fun _ => []) ∅ (fun _ => false) (fun _ => PullDone) (fun _ => None).
Definition example_pass : R_ unit := RunOnce true false true true true (fun _ => "hash").

Definition states_of (w : RcWorld) : list (string * string) :=
  map (fun s => (sv_ID (sr_Row s), sv_ActualState (sr_Row s))) (map snd (map_to_list (rw_servers w))).

Lemma RunOnce_converges_witness :
  let w1 := world_alone example_serve example_pass (example_fleet ∅) in
  map fst (rw_done w1) = [(PowerRestart, "c"); (PowerStart, "a"); (PowerStop, "b"); (PowerStart, "d")] /\
  rw_done (Nat.iter 5 (world_alone example_serve example_pass) w1) = rw_done w1.
Proof.
  split; [by vm_compute|].
  refine (proj2 (RunOnce_converges true false true true (fun _ => "hash") (fun _ => []) ∅ (fun _ => false)
    (fun _ => PullDone) (fun _ => None) (example_fleet ∅) 5 _ _)); [|done].
  split; [|done]. enough (H : map_Forall (fun id s => sv_ID (sr_Row s) = id) (rw_servers (example_fleet ∅))) by exact H.
  apply (bool_decide_unpack _). by vm_compute.
Defined.

(** A server whose target is never healthy; a pass reads the clock every
    twenty minutes. *)
Definition recovery_serve (X : Type) (e : RcEff X) (w : RecoveryWorld) : X * RecoveryWorld :=
  match e in RcEff X return X * RecoveryWorld with
  | RcNow => (rv_now w + 20 * Minute, w <| rv_now := rv_now w + 20 * Minute |>)
  | RcRestarts id => (default (0, zeroTime) (rv_known w !! id), w)
  | RcRemember id n t => (tt, w <| rv_known := <[id := (n, t)]> (rv_known w) |>)
  | RcPower PowerRestart id => (None, w <| rv_log := (id, rv_now w) :: rv_log w |>)
  | RcPower _ _ => (None, w)
  | RcUnhealthy => ([mkTarget "t" "a" "unhealthy" 9], w)
  | RcServer id => (Got (example_server id "n" "running" "running"), w)
  | RcNode id => (Got (example_node id "healthy" "online"), w)
  | RcServers => (Got [], w) | RcServersOf _ => (Got [], w) | RcNodes => (Got [], w)
  | RcCapacity _ => (None, w) | RcClassifyHealthy _ _ => (None, w)
  | RcRefresh _ => (Got "running", w) | RcDispatch _ _ => (tt, w)
  | RcInsert _ => (Got tt, w) | RcPlan _ => (Got None, w) | RcPlansOf _ _ => (Got [], w)
  | RcSetState _ _ _ => (Got tt, w) | RcConfirm _ => (Got tt, w) | RcExpire _ => (Got 0, w)
  | RcRecord _ => (None, w) | RcStacks => (Got [], w) | RcStack _ => (Failed ErrNoRows, w)
  | RcDrift _ => (Got false, w) | RcPull _ => (PullDone, w) | RcRedeploy _ => (None, w)
  | RcNewID => ("x", w) | RcPublish _ _ _ => (None, w) | RcIncrement _ => (tt, w)
  end.

Lemma recovery_serve_step X (e : RcEff X) w :
  recovery_step X e w (fst (recovery_serve X e w)) (snd (recovery_serve X e w)).
Proof. destruct e; try done; [by destruct p|]. cbn. split; [unfold Minute, Second; lia|done]. Qed.

Definition recovery_start : RecoveryWorld := mkRecovery 0 ∅ [].


(** ** What the code does beyond what it says *)

Definition stored (id resource state : string) (created : Time) : ReconcilePlanRow :=
  mkReconcileRow id resource ResourceKindServer state false false 0 0 [] [] "" created None.

Definition state_of (id : string) (w : RcWorld) : option string := rr_State <$> rt_plans (rw_db w) !! id.

Definition trigger (id : string) (w : RcWorld) : answer ReconcilePlan :=
  answer_alone example_serve (TriggerReconcile true false (fun _ => "hash") id ResourceKindServer) w.

(** The state of an expired plan is not one the table allows: the statement
    that expires plans fails as soon as there is one to expire. *)
Lemma stale_plan_never_expires ttl now t id row :
  rt_plans t !! id = Some row -> overdue ttl now row = true ->
  ExpireStaleReconcilePlans ttl now t = (Failed ErrCheck, t).
Proof.
  intros Hrow Hod. unfold ExpireStaleReconcilePlans, constrained.
  match goal with |- (if ?b then _ else _) = _ => destruct b eqn:E; [exfalso|done] end.
  rewrite forallb_forall in E.
  match type of E with context [?f <$> rt_plans t] => set (g := f) in E end.
  specialize (E (g row)). assert (Hin : In (g row) (map snd (map_to_list (g <$> rt_plans t)))).
  { apply list_elem_of_In, list_elem_of_fmap. exists (id, g row). split; [done|].
    apply elem_of_map_to_list. by rewrite lookup_fmap, Hrow. }
  specialize (E Hin). unfold g in E. rewrite Hod in E. by vm_compute in E.
Qed.

(** So a plan whose execution never began stops its resource from being
    reconciled by hand, as does one whose execution was interrupted. *)
Lemma waiting_plan_blocks :
  let w1 := world_alone example_serve example_pass (example_fleet {["p" := stored "p" "a" "pending" 0]}) in
  state_of "p" w1 = Some "pending" /\
  trigger "a" w1 = Failed (ErrText "reconcile already in progress for server/a").
Proof. by vm_compute. Qed.

Lemma interrupted_plan_blocks :
  let w1 := world_alone example_serve example_pass (example_fleet {["p" := stored "p" "a" "executing" 0]}) in
  state_of "p" w1 = Some "executing" /\
  trigger "a" w1 = Failed (ErrText "reconcile already in progress for server/a").
Proof. by vm_compute. Qed.

(** The plan of a server starts it whatever its node, although a server is
    otherwise left alone while its node is not operable. *)
Lemma plan_ignores_the_node :
  answer_alone example_serve (isNodeOperable "m") (example_fleet ∅) = false /\
  rw_done (world_alone example_serve (reconcileServer true (example_server "d" "m" "running" "stopped")) (example_fleet ∅)) = [] /\
  (PowerStart, "d", 1000 * Minute) ∈ rw_done (world_alone example_serve example_pass (example_fleet ∅)).
Proof. split_and!; [by vm_compute|by vm_compute|]. apply (bool_decide_unpack _). by vm_compute. Qed.

(** Only plans that wait count as duplicates, and a plan is executed at once:
    a difference that no command removes gives a plan in every pass, which is
    recorded as an operation that succeeded. *)
Lemma executed_plans_repeat :
  let plans n := map (fun row => (rr_ResourceID row, rr_State row)) (map snd (map_to_list
    (rt_plans (rw_db (Nat.iter n (world_alone example_serve example_pass) (example_fleet ∅)))))) in
  plans 1%nat = [("d", "succeeded"); ("e", "succeeded")] /\
  plans 3%nat = [("e", "succeeded"); ("e", "succeeded"); ("d", "succeeded"); ("e", "succeeded")].
Proof. by vm_compute. Qed.

(** A command that fails is not an error of its plan. *)
Definition powerless (X : Type) (e : RcEff X) (w : RcWorld) : X * RcWorld :=
  match e in RcEff X return (X * RcWorld -> X * RcWorld) with
  | RcPower _ _ => fun _ => (Some "node is down", w)
  | _ => fun r => r
  end (example_serve X e w).

Lemma failed_command_succeeds :
  match answer_alone powerless (ReconcileResource true false false (fun _ => "hash") "a" ResourceKindServer)
          (example_fleet ∅) with
  | Got r => rz_State r = "succeeded" /\ rz_OperationCount r = 1 /\ rz_Error r = ""
  | Failed _ => False
  end.
Proof. by vm_compute. Qed.

(** A plan that was executed is confirmed and executed again. *)
Lemma executed_plan_runs_again :
  let w1 := world_alone example_serve (ReconcileResource true false false (fun _ => "hash") "a" ResourceKindServer)
    (example_fleet ∅) in
  state_of "x" w1 = Some "succeeded" /\
  map fst (rw_done (world_alone example_serve (ConfirmAndExecute false false "x") w1)) =
    [(PowerStart, "a"); (PowerStart, "a")].
Proof. by vm_compute. Qed.

(** Recovery does not look at the number of failures of a target: one that has
    none, being new, has its server restarted. *)
Lemma new_target_restarts_its_server :
  restarts_of "a" (world_alone recovery_serve (recover_target true 0 (mkTarget "t" "a" "suspected" 0)) recovery_start) = [0].
Proof. by vm_compute. Qed.

(** Each restart succeeds, weeks go by, and the limit of consecutive restarts
    is reached. *)
Definition weekly (X : Type) (e : RcEff X) (w : RecoveryWorld) : X * RecoveryWorld :=
  match e in RcEff X return (X * RecoveryWorld -> X * RecoveryWorld) with
  | RcNow => fun _ => (rv_now w + 10080 * Minute, w <| rv_now := rv_now w + 10080 * Minute |>)
  | _ => fun r => r
  end (recovery_serve X e w).

Lemma restarts_are_never_forgotten :
  length (restarts_of "a" (world_alone weekly (passes true true 3) recovery_start)) = 3%nat /\
  length (restarts_of "a" (world_alone weekly (passes true true 50) recovery_start)) = 3%nat.
Proof. by vm_compute. Qed.
