(* ===== verification/HealthRunner.v ===== *)
(** * Health checks of targets

    [forge/api/internal/services/healthcheckrunner/service.go] and
    [adapter.go], with the summary of [store/store_health_check_history.go]:
    targets are probed, and how they answered decides what they count as.

    A function is a program over [HcEff]; what it does under the service's or a
    target's mutex is one request ([HcMem]), and a goroutine a program that
    [HcGo] starts.  [ParseIP] and [IP.String] of Go's [net] are arguments; an
    address is its sixteen bytes.  Counters are unbounded: they count checks
    that are seconds apart. *)
From Stdlib Require Import ZArith Lia Ascii.
From stdpp Require Import base gmap strings list fin_maps relations.
From coqutil Require Import Datatypes.RecordSettersUsingExistingGetters.
From S2P Require Import Prelude GoStrings Programs Capacity ReconcilerService.
Import RecordSetNotations1.
#[local] Open Scope string_scope.
#[local] Open Scope list_scope.
#[local] Open Scope Z_scope.
#[local] Open Scope go_scope.

(** ** Data *)

(* go: services/healthcheckrunner/service.go type:TargetStatus *)
Inductive TargetStatus := StatusHealthy | StatusSuspected | StatusUnhealthy.
#[export] Instance target_status_eq_dec : EqDecision TargetStatus.
Proof. solve_decision. Defined.

(* go: services/healthcheckrunner/service.go L24-28 *)
Definition target_status_text (s : TargetStatus) : string :=
  match s with StatusHealthy => "healthy" | StatusSuspected => "suspected" | StatusUnhealthy => "unhealthy" end.

(* go: services/healthcheckrunner/service.go type:HealthCheckConfig *)
Record HealthCheckConfig := mkHealthCheckConfig {
  hc_Path : string;
  hc_Port : Z;
  hc_IntervalSeconds : Z;
  hc_TimeoutSeconds : Z;
  hc_HealthyThreshold : Z;
  hc_UnhealthyThreshold : Z
}.

(* go: services/healthcheckrunner/service.go type:TargetHealthState *)
Record TargetHealthState := mkHealthState {
  hs_ID : string;
  hs_GroupID : string;
  hs_ServerID : string;
  hs_Status : TargetStatus;
  hs_ConsecutiveFailures : Z;
  hs_ConsecutiveSuccesses : Z;
  hs_SuspectedSince : option Time;
  hs_LastCheckAt : Time;
  hs_LastSuccessAt : option Time;
  hs_LastFailureAt : option Time;
  hs_HealthyThreshold : Z;
  hs_UnhealthyThreshold : Z
}.

(* go: services/healthcheckrunner/service.go type:CheckResult *)
Record CheckResult := mkCheckResult {
  cr_TargetID : string;
  cr_GroupID : string;
  cr_ServerID : string;
  cr_HTTP : bool;
  cr_Status : TargetStatus;
  cr_LatencyMs : Z;
  cr_StatusCode : Z;
  cr_ErrorMessage : string;
  cr_CheckedAt : Time
}.

(* go: store/store_target_groups.go type:TargetRow *)
Record TargetRow := mkTargetRow {
  tr_ID : string; tr_ServerID : string; tr_NodeID : string; tr_IP : string; tr_Port : Z; tr_Status : string
}.

(** The column of the configuration: absent, not decodable, or its value. *)
Inductive raw_config := NoConfig | BadConfig | Config (hc : HealthCheckConfig).

Record GroupRow := mkGroupRow { gr_ID : string; gr_Protocol : string; gr_HealthCheck : raw_config }.

(** The service: what it knows of the targets, and when it last pruned. *)
(* go: services/healthcheckrunner/service.go type:Service *)
Record Runner := mkRunner {
  hr_states : gmap string TargetHealthState;
  hr_lastGroupPoll : Time;
  hr_lastGroups : list GroupRow;
  hr_lastPrune : Time
}.

(* go: services/healthcheckrunner/service.go type:Config *)
Record RunnerConfig := mkRunnerConfig { rc_Interval : Duration; rc_HistoryRetention : Duration }.

(* go: services/healthcheckrunner/service.go func:DefaultConfig *)
Definition DefaultConfig : RunnerConfig := mkRunnerConfig (15 * Second) (7 * 24 * 60 * Minute).

(** The configuration that [New] keeps. *)
(* go: services/healthcheckrunner/service.go func:New *)
Definition new_config (c : RunnerConfig) : RunnerConfig :=
  let c := if rc_Interval c <=? 0 then c <| rc_Interval := 15 * Second |> else c in
  if rc_HistoryRetention c <=? 0 then c <| rc_HistoryRetention := 7 * 24 * 60 * Minute |> else c.

(** What the history says of a target, the last check first. *)
(* go: store/store_health_check_history.go func:Store.GetTargetHealthSummary *)
Fixpoint GetTargetHealthSummary (statuses : list string) (failures successes : Z) : Z * Z :=
  match statuses with
  | [] => (failures, successes)
  | st :: statuses =>
      if (st =? "unhealthy")%string || (st =? "suspected")%string
      then GetTargetHealthSummary statuses (if successes =? 0 then failures + 1 else failures) successes
      else GetTargetHealthSummary statuses failures (if failures =? 0 then successes + 1 else successes)
  end.

(** ** What a check does to a state *)

(** A threshold that is not set is three. *)
Definition threshold (n : Z) : Z := if n <=? 0 then 3 else n.

(** The state after a check, the status to write to the table, and whether the
    listener is told. *)
(* go: services/healthcheckrunner/service.go L406-473 *)
Definition apply_result (healthyThreshold unhealthyThreshold : Z) (healthy : bool) (checkedAt now : Time)
    (state : TargetHealthState) : TargetHealthState * option string * bool :=
  let state := state <| hs_LastCheckAt := checkedAt |> in
  let previousStatus := hs_Status state in
  if healthy then
    let state := ((state <| hs_ConsecutiveFailures := 0 |>)
                   <| hs_ConsecutiveSuccesses := hs_ConsecutiveSuccesses state + 1 |>)
                   <| hs_LastSuccessAt := Some checkedAt |> in
    if negb (bool_decide (previousStatus = StatusHealthy)) && (healthyThreshold <=? hs_ConsecutiveSuccesses state)
    then ((state <| hs_Status := StatusHealthy |>) <| hs_SuspectedSince := None |>, Some "healthy", false)
    else (state, None, false)
  else
    let state := ((state <| hs_ConsecutiveSuccesses := 0 |>)
                   <| hs_ConsecutiveFailures := hs_ConsecutiveFailures state + 1 |>)
                   <| hs_LastFailureAt := Some checkedAt |> in
    let failures := hs_ConsecutiveFailures state in
    match previousStatus with
    | StatusHealthy =>
        if (unhealthyThreshold ÷ 2 <=? failures) && (failures <? unhealthyThreshold)
        then ((state <| hs_Status := StatusSuspected |>) <| hs_SuspectedSince := Some now |>, Some "draining", false)
        else if unhealthyThreshold <=? failures
        then ((state <| hs_Status := StatusUnhealthy |>)
                <| hs_SuspectedSince := match hs_SuspectedSince state with Some t => Some t | None => Some now end |>,
              Some "unhealthy", true)
        else (state, None, false)
    | StatusSuspected =>
        if unhealthyThreshold <=? failures
        then (state <| hs_Status := StatusUnhealthy |>, Some "unhealthy", true)
        else (state, None, false)
    | StatusUnhealthy => (state, None, false)
    end.

(** ** Addresses *)

(** [net.IP]: the four bytes of an address that is one of IPv4. *)
Definition To4 (ip : list Z) : option (list Z) :=
  if bool_decide (take 12 ip = repeat 0 10 ++ [255; 255]) then Some (drop 12 ip) else None.

Definition byte_at (ip : list Z) (n : nat) : Z := default 0 (ip !! n).

Definition IsUnspecified (ip : list Z) : bool :=
  bool_decide (ip = repeat 0 16) || bool_decide (To4 ip = Some [0; 0; 0; 0]).
Definition IsMulticast (ip : list Z) : bool :=
  match To4 ip with
  | Some ip4 => Z.land (byte_at ip4 0) 240 =? 224
  | None => byte_at ip 0 =? 255
  end.
Definition IsLinkLocalMulticast (ip : list Z) : bool :=
  match To4 ip with
  | Some ip4 => (byte_at ip4 0 =? 224) && (byte_at ip4 1 =? 0) && (byte_at ip4 2 =? 0)
  | None => (byte_at ip 0 =? 255) && (Z.land (byte_at ip 1) 15 =? 2)
  end.
Definition IsLinkLocalUnicast (ip : list Z) : bool :=
  match To4 ip with
  | Some ip4 => (byte_at ip4 0 =? 169) && (byte_at ip4 1 =? 254)
  | None => (byte_at ip 0 =? 254) && (Z.land (byte_at ip 1) 192 =? 128)
  end.

(** [net.JoinHostPort]. *)
Definition JoinHostPort (host port : string) : string :=
  if existsb (Ascii.eqb ":"%char) (String.list_ascii_of_string host) then cat ["["; host; "]:"; port]
  else cat [host; ":"; port].

(** ** Requests *)

Inductive HcEff : Type -> Type :=
| HcGroups : HcEff (answer (list GroupRow))
| HcTargets (groupID : string) : HcEff (answer (list TargetRow))
| HcSummary (targetID : string) : HcEff (answer (Z * Z))
| HcHistory (r : CheckResult) : HcEff error
| HcSetStatus (targetID status : string) : HcEff error
| HcPrune (before : Time) : HcEff unit
| HcDial (address : string) (timeout : Duration) : HcEff (Z * error)
| HcGet (host path : string) (timeout : Duration) : HcEff (Z * (string + Z))
| HcTell (serverID targetID : string) (failures : Z) : HcEff unit
| HcNow : HcEff Time
| HcMem {A} (f : Runner -> A * Runner) : HcEff A
| HcGo (target : TargetRow) (groupID : string) (hc : HealthCheckConfig) (protocol : string) : HcEff bool
| HcWait : HcEff unit.

Definition C_ (A : Type) : Type := prog HcEff A.

Notation "m ;;^ k" := (pbind m (fun _ => k))
  (at level 100, k at level 200, right associativity, only parsing) : go_scope.

Section Runs.
(** [net.ParseIP] and [IP.String], whether somebody listens, and the
    configuration. *)
Context (ParseIP : string -> option (list Z)) (ip_string : list Z -> string)
        (onUnhealthy : bool) (config : RunnerConfig).

(** ** Probes *)

(** An address that a check may ask. *)
Definition routable (ip : string) : option (list Z) :=
  a ← ParseIP (TrimSpace ip);
  if IsUnspecified a || IsLinkLocalUnicast a || IsLinkLocalMulticast a || IsMulticast a then None else Some a.

Definition path_ok (path : string) : bool :=
  HasPrefix path "/" && negb (HasPrefix path "//") &&
  negb (existsb (fun c => Ascii.eqb c "010"%char || Ascii.eqb c "013"%char) (String.list_ascii_of_string path)).

(** A redirect is followed when it stays with the target, three times. *)
(* go: services/healthcheckrunner/service.go L528-533 *)
Definition CheckRedirect (targetHost reqHost : string) (via : Z) : error :=
  if (3 <=? via) || negb (reqHost =? targetHost)%string
  then Some "health check redirect escaped configured target" else None.

Definition seconds_or (d : Duration) (n : Z) : Duration := if n * Second <=? 0 then d else n * Second.

(* go: services/healthcheckrunner/service.go func:Service.getGroupID *)
Definition getGroupID (targetID : string) : C_ string :=
  request (HcMem (fun s =>
    (match filter (fun kv => hs_ID kv.2 = targetID) (map_to_list (hr_states s)) with
     | (_, st) :: _ => hs_GroupID st
     | [] => ""
     end, s))).

(* go: services/healthcheckrunner/service.go func:Service.runHTTPCheck *)
Definition runHTTPCheck (target : TargetRow) (port : Z) (hc : HealthCheckConfig) : C_ CheckResult :=
  let^ groupID := getGroupID (tr_ID target) in
  let result st latency code msg :=
    mkCheckResult (tr_ID target) groupID (tr_ServerID target) true st latency code msg zeroTime in
  match routable (tr_IP target) with
  | None => Ret (result StatusUnhealthy 0 0 "health check target must be a routable configured IP address")
  | Some ip =>
      if (port <? 1) || (65535 <? port) then Ret (result StatusUnhealthy 0 0 "health check port is invalid")
      else
        let path := if (hc_Path hc =? "")%string then "/" else hc_Path hc in
        if negb (path_ok path) then Ret (result StatusUnhealthy 0 0 "health check path is invalid")
        else
          let^ r := request (HcGet (JoinHostPort (ip_string ip) (itoa port)) path (seconds_or (5 * Second) (hc_TimeoutSeconds hc))) in
          Ret (match r with
               | (latency, inl e) => result StatusUnhealthy latency 0 e
               | (latency, inr code) =>
                   if (200 <=? code) && (code <? 400) then result StatusHealthy latency code ""
                   else result StatusUnhealthy latency code (cat ["HTTP "; itoa code])
               end)
  end.

(* go: services/healthcheckrunner/service.go func:Service.runTCPCheck *)
Definition runTCPCheck (target : TargetRow) (port : Z) (hc : HealthCheckConfig) : C_ CheckResult :=
  let^ groupID := getGroupID (tr_ID target) in
  let address := JoinHostPort (if (tr_IP target =? "")%string then "127.0.0.1" else tr_IP target) (itoa port) in
  let^ r := request (HcDial address (seconds_or (5 * Second) (hc_TimeoutSeconds hc))) in
  Ret (match r with
       | (latency, Some e) =>
           mkCheckResult (tr_ID target) groupID (tr_ServerID target) false StatusUnhealthy latency 0 e zeroTime
       | (latency, None) =>
           mkCheckResult (tr_ID target) groupID (tr_ServerID target) false StatusHealthy latency 0 "" zeroTime
       end).

(** ** A check *)

(** The state of a target that was not seen before. *)
(* go: services/healthcheckrunner/service.go L353-363 *)
Definition first_state (target : TargetRow) (groupID : string) (hc : HealthCheckConfig) (now : Time)
    : TargetHealthState :=
  mkHealthState (tr_ID target) groupID (tr_ServerID target) StatusSuspected 0 0 (Some now) zeroTime None None
    (hc_HealthyThreshold hc) (hc_UnhealthyThreshold hc).

(** What the check does to the states: a state that is known is changed where
    it is; a new one is kept unless the target became known meanwhile. *)
Definition recorded (known : option TargetHealthState) (fresh : TargetHealthState) (id : string)
    (healthyThreshold unhealthyThreshold : Z) (healthy : bool) (checkedAt now : Time) (s : Runner)
    : (option string * bool * Z) * Runner :=
  match known with
  | Some st0 =>
      let st := default st0 (hr_states s !! id) in
      let '(st', persist, told) := apply_result healthyThreshold unhealthyThreshold healthy checkedAt now st in
      ((persist, told, hs_ConsecutiveFailures st'), s <| hr_states := <[id := st']> (hr_states s) |>)
  | None =>
      let '(st', persist, told) := apply_result healthyThreshold unhealthyThreshold healthy checkedAt now fresh in
      ((persist, told, hs_ConsecutiveFailures st'),
       match hr_states s !! id with
       | Some _ => s
       | None => s <| hr_states := <[id := st']> (hr_states s) |>
       end)
  end.

(** The thresholds are those of the state. *)
(* go: services/healthcheckrunner/service.go func:Service.checkTarget *)
Definition checkTarget (target : TargetRow) (groupID : string) (hc : HealthCheckConfig) (protocol : string) : C_ unit :=
  let port := if 0 <? hc_Port hc then hc_Port hc else tr_Port target in
  let^ known := request (HcMem (fun s => (hr_states s !! tr_ID target, s))) in
  let^ t0 := request HcNow in
  let fresh := first_state target groupID hc t0 in
  let state := default fresh known in
  let healthyThreshold := threshold (hs_HealthyThreshold state) in
  let unhealthyThreshold := threshold (hs_UnhealthyThreshold state) in
  let^ result :=
    if (protocol =? "http")%string || (protocol =? "https")%string || negb (hc_Path hc =? "")%string
    then runHTTPCheck target port hc else runTCPCheck target port hc in
  let^ checkedAt := request HcNow in
  request (HcHistory (result <| cr_CheckedAt := checkedAt |>)) ;;^
  let^ now := request HcNow in
  let^ r := request (HcMem (recorded known fresh (tr_ID target) healthyThreshold unhealthyThreshold
    (bool_decide (cr_Status result = StatusHealthy)) checkedAt now)) in
  let '(persist, told, failures) := r in
  (match persist with Some st => request (HcSetStatus (tr_ID target) st) ;;^ Ret tt | None => Ret tt end) ;;^
  (if told && onUnhealthy then request (HcTell (tr_ServerID target) (tr_ID target) failures) else Ret tt).

(** ** A pass *)

(** The settings of a group, with what is not set. *)
(* go: services/healthcheckrunner/service.go L299-310 *)
Definition with_defaults (hc : HealthCheckConfig) : HealthCheckConfig :=
  mkHealthCheckConfig (hc_Path hc) (hc_Port hc) (if hc_IntervalSeconds hc <=? 0 then 15 else hc_IntervalSeconds hc)
    (if hc_TimeoutSeconds hc <=? 0 then 5 else hc_TimeoutSeconds hc)
    (threshold (hc_HealthyThreshold hc)) (threshold (hc_UnhealthyThreshold hc)).

(** A check per target is started; [false] says that the time is over. *)
Fixpoint start_checks (targets : list TargetRow) (groupID : string) (hc : HealthCheckConfig) (protocol : string) : C_ bool :=
  match targets with
  | [] => Ret true
  | t :: targets =>
      let^ started := request (HcGo t groupID hc protocol) in
      if started : bool then start_checks targets groupID hc protocol else Ret false
  end.

Fixpoint check_groups (groups : list GroupRow) : C_ bool :=
  match groups with
  | [] => Ret true
  | g :: groups =>
      match gr_HealthCheck g with
      | Config hc =>
          let^ targets := request (HcTargets (gr_ID g)) in
          match targets with
          | Failed _ => check_groups groups
          | Got targets =>
              let^ on := start_checks targets (gr_ID g) (with_defaults hc) (gr_Protocol g) in
              if on : bool then check_groups groups else Ret false
          end
      | _ => check_groups groups
      end
  end.

(* go: services/healthcheckrunner/service.go func:Service.runOnce *)
Definition runOnce : C_ unit :=
  let^ groups := request HcGroups in
  match groups with
  | Failed _ => Ret tt
  | Got groups =>
      let^ t := request HcNow in
      request (HcMem (fun s => (tt, (s <| hr_lastGroupPoll := t |>) <| hr_lastGroups := groups |>))) ;;^
      let^ on := check_groups groups in
      request HcWait ;;^
      if negb on then Ret tt
      else
        let^ t := request HcNow in
        let^ last := request (HcMem (fun s => (hr_lastPrune s, s))) in
        if 60 * Minute <? t - last then
          request (HcPrune (t - rc_HistoryRetention config)) ;;^
          let^ t := request HcNow in
          request (HcMem (fun s => (tt, s <| hr_lastPrune := t |>)))
        else Ret tt
  end.

(** The state a target starts with. *)
(* go: services/healthcheckrunner/service.go L211-264 *)
Definition loaded (g : GroupRow) (hc : HealthCheckConfig) (t : TargetRow) (failures successes : Z) (now : Time)
    : TargetHealthState :=
  let healthyThreshold := threshold (hc_HealthyThreshold hc) in
  let '(status, since) :=
    if (tr_Status t =? "unhealthy")%string then (StatusUnhealthy, None)
    else if (tr_Status t =? "draining")%string then (StatusUnhealthy, Some now)
    else if 0 <? failures then (StatusSuspected, Some now)
    else if successes <? healthyThreshold then (StatusSuspected, Some now)
    else (StatusHealthy, None) in
  mkHealthState (tr_ID t) (gr_ID g) (tr_ServerID t) status failures successes since now None None
    healthyThreshold (threshold (hc_UnhealthyThreshold hc)).

Fixpoint load_targets (g : GroupRow) (targets : list TargetRow) : C_ unit :=
  match targets with
  | [] => Ret tt
  | t :: targets =>
      let^ r := request (HcSummary (tr_ID t)) in
      (match r, gr_HealthCheck g with
       | Failed _, _ | _, BadConfig => Ret tt
       | Got (failures, successes), c =>
           let hc := match c with Config hc => hc | _ => mkHealthCheckConfig "" 0 0 0 0 0 end in
           let^ now := request HcNow in
           request (HcMem (fun s => (tt, s <| hr_states := <[tr_ID t := loaded g hc t failures successes now]> (hr_states s) |>)))
       end) ;;^
      load_targets g targets
  end.

Fixpoint load_groups (groups : list GroupRow) : C_ unit :=
  match groups with
  | [] => Ret tt
  | g :: groups =>
      let^ targets := request (HcTargets (gr_ID g)) in
      (match targets with Got targets => load_targets g targets | Failed _ => Ret tt end) ;;^
      load_groups groups
  end.

(* go: services/healthcheckrunner/service.go func:Service.loadExistingStates *)
Definition loadExistingStates : C_ unit :=
  let^ groups := request HcGroups in
  match groups with Got groups => load_groups groups | Failed _ => Ret tt end.

End Runs.

(** ** What others see *)

(* go: services/healthcheckrunner/service.go func:Service.GetTargetState *)
Definition GetTargetState (targetID : string) (s : Runner) : option TargetHealthState := hr_states s !! targetID.

(* go: services/healthcheckrunner/service.go func:Service.ListUnhealthyTargets *)
Definition ListUnhealthyTargets (s : Runner) : list TargetHealthState :=
  filter (fun st => hs_Status st <> StatusHealthy) (map snd (map_to_list (hr_states s))).

(* go: services/healthcheckrunner/service.go func:Service.Metrics *)
Definition runner_metrics (s : Runner) : Z * Z * Z * Z :=
  let states := map snd (map_to_list (hr_states s)) in
  let count st := sum_by (fun x => if decide (hs_Status x = st) then 1 else 0) states in
  (Z.of_nat (length states), count StatusHealthy, count StatusSuspected, count StatusUnhealthy).

(** The list the reconciler gets. *)
(* go: services/healthcheckrunner/adapter.go func:reconcilerAdapter.ListUnhealthyTargets *)
Definition reconciler_targets (s : Runner) : list HealthCheckTarget :=
  map (fun st => mkTarget (hs_ID st) (hs_ServerID st) (target_status_text (hs_Status st)) (hs_ConsecutiveFailures st))
    (ListUnhealthyTargets s).

(** ** What a target counts as

    [run b rs]: how many of the last results in a row are [b]; the last result
    is first.  [since P Q rs]: [P] held once, and [Q] ever after. *)
Fixpoint run (b : bool) (rs : list bool) : Z :=
  match rs with [] => 0 | r :: rs => if Bool.eqb r b then run b rs + 1 else 0 end.

Definition since (P Q : list bool -> Prop) (rs : list bool) : Prop :=
  exists newer older, rs = newer ++ older /\ P older /\
    forall i, (i < length newer)%nat -> Q (drop i rs).

Lemma since_cons P Q r rs : since P Q (r :: rs) <-> P (r :: rs) \/ (Q (r :: rs) /\ since P Q rs).
Proof.
  split.
  - intros (newer & older & E & HP & HQ). destruct newer as [|x newer]; [left; by rewrite E|right].
    injection E as -> ->. split; [apply (HQ 0%nat); cbn; lia|]. exists newer, older.
    split_and!; [done|done|]. intros i Hi. apply (HQ (S i)). cbn. lia.
  - intros [HP|(HQ & newer & older & -> & HP & HQ')]; [by exists [], (r :: rs); split_and!; [..|cbn; lia]|].
    exists (r :: newer), older. split_and!; [done|done|]. intros [|i] Hi; [done|]. apply HQ'. cbn in Hi. lia.
Qed.

Lemma since_nil P Q : since P Q [] <-> P [].
Proof.
  split; [|by exists [], []; split_and!; [..|cbn; lia]].
  intros (newer & older & E & HP & _). symmetry in E. apply app_eq_nil in E as [-> ->]. done.
Qed.

Section Status.
Context (healthyThreshold unhealthyThreshold : Z).

(** A run of successes certified the target, and no run of failures that is
    half of the threshold followed. *)
Definition certified : list bool -> Prop :=
  since (fun rs => healthyThreshold <= run true rs) (fun rs => run false rs < Z.max 1 (unhealthyThreshold ÷ 2)).

(** A run of failures condemned it, and it was not certified again. *)
Definition condemned : list bool -> Prop :=
  since (fun rs => unhealthyThreshold <= run false rs) (fun rs => run true rs < healthyThreshold).

Record follows (st : TargetHealthState) (rs : list bool) : Prop := {
  fo_failures : hs_ConsecutiveFailures st = run false rs;
  fo_successes : hs_ConsecutiveSuccesses st = run true rs;
  fo_healthy : hs_Status st = StatusHealthy <-> certified rs;
  fo_unhealthy : hs_Status st = StatusUnhealthy <-> condemned rs
}.

Lemma run_nonneg b l : 0 <= run b l.
Proof. induction l as [|x l IH]; cbn; [lia|]. destruct (Bool.eqb x b); lia. Qed.

Lemma certified_cons r rs :
  certified (r :: rs) <-> healthyThreshold <= run true (r :: rs) \/
    (run false (r :: rs) < Z.max 1 (unhealthyThreshold ÷ 2) /\ certified rs).
Proof. apply since_cons. Qed.

Lemma condemned_cons r rs :
  condemned (r :: rs) <-> unhealthyThreshold <= run false (r :: rs) \/
    (run true (r :: rs) < healthyThreshold /\ condemned rs).
Proof. apply since_cons. Qed.

Lemma observe_follows st rs healthy checkedAt now :
  0 < healthyThreshold -> 0 < unhealthyThreshold -> follows st rs ->
  follows (fst (fst (apply_result healthyThreshold unhealthyThreshold healthy checkedAt now st))) (healthy :: rs).
Proof.
  intros Hh Hu [Hf Hs H U]. assert (Hq : 0 <= unhealthyThreshold ÷ 2 <= unhealthyThreshold).
  { rewrite Z.quot_div_nonneg by lia. split; [apply Z.div_pos; lia|]. apply Z.div_le_upper_bound; lia. }
  pose proof (run_nonneg true rs). pose proof (run_nonneg false rs).
  destruct st as [i g sv st f s si lc ls lf ht ut].
  cbn [hs_ConsecutiveFailures hs_ConsecutiveSuccesses hs_Status] in *. subst f s.
  assert (Hne : (StatusHealthy = StatusUnhealthy <-> False) /\ (StatusSuspected = StatusHealthy <-> False) /\
    (StatusSuspected = StatusUnhealthy <-> False) /\ (StatusUnhealthy = StatusHealthy <-> False)) by (split_and!; done).
  destruct Hne as (N1 & N2 & N3 & N4).
  pose proof (certified_cons healthy rs) as HC. pose proof (condemned_cons healthy rs) as UC.
  set (q := unhealthyThreshold ÷ 2) in *. unfold apply_result. fold q.
  destruct healthy, st; cbn [run Bool.eqb] in HC, UC; cbn; unfold const;
    repeat match goal with |- context [bool_decide (?a = ?b)] =>
      let v := eval vm_compute in (bool_decide (a = b)) in change (bool_decide (a = b)) with v end; cbn [negb andb];
    repeat match goal with |- context [if ?b then _ else _] => destruct b eqn:? end;
    (split; cbn; [done|done|rewrite HC|rewrite UC]); clear HC UC; unfold const; intuition lia.
Qed.
End Status.

(** The table says what the state says. *)
Definition says (st : TargetHealthState) (written : option string) : Prop :=
  (written = Some "healthy" <-> hs_Status st = StatusHealthy) /\
  (written = Some "unhealthy" <-> hs_Status st = StatusUnhealthy).

Lemma observe_says hT uT healthy checkedAt now st written :
  says st written ->
  let '(st', persist, _) := apply_result hT uT healthy checkedAt now st in
  says st' (match persist with Some s => Some s | None => written end).
Proof.
  unfold says, apply_result. destruct st as [i g sv st f s si lc ls lf ht ut]. cbn [hs_Status]. intros [H U].
  destruct healthy, st; cbn; unfold const;
    repeat match goal with |- context [bool_decide (?a = ?b)] =>
      let v := eval vm_compute in (bool_decide (a = b)) in change (bool_decide (a = b)) with v end; cbn [negb andb];
    repeat match goal with |- context [if ?b then _ else _] => destruct b eqn:? end; cbn; unfold const;
    (split; [clear U|clear H]); split; congruence || intuition congruence.
Qed.

Lemma observe_thresholds hT uT healthy checkedAt now st :
  let st' := fst (fst (apply_result hT uT healthy checkedAt now st)) in
  hs_HealthyThreshold st' = hs_HealthyThreshold st /\ hs_UnhealthyThreshold st' = hs_UnhealthyThreshold st.
Proof.
  unfold apply_result. cbv zeta. repeat match goal with |- context [if ?b then _ else _] => destruct b end; try done;
    destruct (hs_Status _); try done; repeat match goal with |- context [if ?b then _ else _] => destruct b end; done.
Qed.

(** ** Checks of one target

    Whatever the probes answer, and whatever happens to other targets between
    two requests.  [hw_results] are the results of the checks, the last one
    first; [hw_asked] is the status that the table was last asked to take, and
    [hw_written] the one that it took: the statement may fail, which nobody
    looks at. *)
Record HcWorld := mkHcWorld {
  hw_runner : Runner;
  hw_results : list bool;
  hw_asked : option string;
  hw_written : option string
}.

Definition hc_step (id : string) (X : Type) (e : HcEff X) : HcWorld -> X -> HcWorld -> Prop :=
  match e in HcEff X return HcWorld -> X -> HcWorld -> Prop with
  | HcMem f => fun w x w' => exists s, hr_states s !! id = hr_states (hw_runner w) !! id /\
      x = fst (f s) /\ w' = w <| hw_runner := snd (f s) |>
  | HcHistory r => fun w _ w' =>
      w' = w <| hw_results := bool_decide (cr_Status r = StatusHealthy) :: hw_results w |>
  | HcSetStatus _ st => fun w _ w' => exists v, (v = Some st \/ v = hw_written w) /\
      w' = w <| hw_asked := Some st |> <| hw_written := v |>
  | _ => fun w _ w' => w' = w
  end.

Section OneTarget.
Context (ParseIP : string -> option (list Z)) (ip_string : list Z -> string) (onUnhealthy : bool)
        (id : string) (hT uT : Z).

(** The row and the settings of the group as a pass reads them. *)
Record Round := mkRound { ro_target : TargetRow; ro_group : string; ro_hc : HealthCheckConfig; ro_protocol : string }.

Definition check (r : Round) : C_ unit :=
  checkTarget ParseIP ip_string onUnhealthy (ro_target r) (ro_group r) (ro_hc r) (ro_protocol r).

Notation held := (holds (hc_step id) (fun _ => True)).

Fixpoint checks (l : list Round) : C_ unit := match l with [] => Ret tt | r :: l => check r ;;^ checks l end.

Definition known_as (w : HcWorld) : option TargetHealthState := hr_states (hw_runner w) !! id.

(** Nothing of the target changed. *)
Definition same_target (w w' : HcWorld) : Prop :=
  known_as w' = known_as w /\ hw_results w' = hw_results w /\ hw_asked w' = hw_asked w.

#[local] Instance same_target_preorder : PreOrder same_target.
Proof. split; [by intros w|]. intros w1 w2 w3 (?&?&?) (?&?&?). split_and!; congruence. Qed.

Definition looks (X : Type) (e : HcEff X) : Prop :=
  match e with
  | HcMem f => forall s, hr_states (snd (f s)) = hr_states s
  | HcHistory _ | HcSetStatus _ _ => False
  | _ => True
  end.

Lemma looks_step X (e : HcEff X) w x w' : looks X e -> hc_step id X e w x w' -> same_target w w'.
Proof.
  destruct e; intros He Hs; try done; try (cbn in Hs; subst w'; reflexivity).
  destruct Hs as (s & Hid & _ & ->). split; [|done]. unfold known_as. cbn. unfold const. by rewrite He.
Qed.

Lemma looks_held {A B} (p : C_ A) (k : A -> C_ B) Q w :
  only looks p -> (forall a w', same_target w w' -> held (k a) Q w') -> held (pbind p k) Q w.
Proof.
  revert w. induction p as [a|X e k' IH]; intros w Ho H; [by apply H|]. destruct Ho as [He Ho].
  intros x w1 Hs. split; [done|]. apply looks_step in Hs; [|done]. apply IH; [done|].
  intros a w' Hw'. apply H. by etransitivity.
Qed.

Lemma probe_looks target port hc protocol :
  only looks (if (protocol =? "http")%string || (protocol =? "https")%string || negb (hc_Path hc =? "")%string
              then runHTTPCheck ParseIP ip_string target port hc else runTCPCheck target port hc).
Proof.
  assert (Hg : forall t, only looks (getGroupID t)) by (intros t; by apply only_request).
  destruct (_ || _).
  - unfold runHTTPCheck. apply only_bind; [apply Hg|]. intros g. destruct (routable _ _); [|done].
    destruct (_ || _); [done|]. cbv zeta. destruct (negb _); [done|]. apply only_bind; [by apply only_request|].
    intros [lat [e|code]]; [done|]. by destruct (_ && _).
  - unfold runTCPCheck. apply only_bind; [apply Hg|]. intros g. cbv zeta. apply only_bind; [by apply only_request|].
    by intros [lat [e|]].
Qed.

(** The thresholds of the settings at the first check; the state keeps them. *)
Notation h := (threshold hT).
Notation u := (threshold uT).

(** The state of the target between two checks. *)
Definition up_to_date (w : HcWorld) : Prop :=
  match known_as w with
  | None => hw_results w = [] /\ hw_asked w = None
  | Some st => hs_HealthyThreshold st = hT /\ hs_UnhealthyThreshold st = uT /\
      follows h u st (hw_results w) /\ says st (hw_asked w)
  end.

(** A check of this target; the first one sets the thresholds. *)
Definition fits (w : HcWorld) (r : Round) : Prop :=
  tr_ID (ro_target r) = id /\
  (known_as w = None -> hc_HealthyThreshold (ro_hc r) = hT /\ hc_UnhealthyThreshold (ro_hc r) = uT).

Lemma threshold_pos n : 0 < threshold n.
Proof. unfold threshold. destruct (n <=? 0) eqn:E; lia. Qed.

Lemma first_follows r now : follows h u (first_state (ro_target r) (ro_group r) (ro_hc r) now) [].
Proof.
  pose proof (threshold_pos hT). pose proof (threshold_pos uT).
  split; [done|done| |]; unfold certified, condemned; rewrite since_nil; cbn; (split; [done|lia]).
Qed.

(** What is recorded of a check, as one step. *)
Lemma recorded_up_to_date r w s healthy checkedAt t0 now known v :
  fits w r -> up_to_date w -> known = known_as w -> hr_states s !! id = known ->
  let fresh := first_state (ro_target r) (ro_group r) (ro_hc r) t0 in
  let '((persist, _, _), s') := recorded known fresh id h u healthy checkedAt now s in
  up_to_date (mkHcWorld s' (healthy :: hw_results w) (match persist with Some st => Some st | None => hw_asked w end) v).
Proof.
  intros [Hid Hfirst] Hw -> Hs fresh. unfold up_to_date in Hw.
  pose proof (threshold_pos hT) as Hh. pose proof (threshold_pos uT) as Hu.
  unfold recorded. destruct (known_as w) as [st0|] eqn:E.
  - rewrite Hs. change (default st0 (Some st0)) with st0. destruct Hw as (H1 & H2 & F & S).
    pose proof (observe_follows h u st0 (hw_results w) healthy checkedAt now Hh Hu F) as F'.
    pose proof (observe_says h u healthy checkedAt now st0 _ S) as S'.
    destruct (observe_thresholds h u healthy checkedAt now st0) as [T1 T2].
    destruct (apply_result h u healthy checkedAt now st0) as [[st' persist] told]. cbn [fst] in *.
    unfold up_to_date, known_as. cbn [hw_runner hw_results hw_asked].
    change (hr_states (s <| hr_states := <[id := st']> (hr_states s) |>)) with (<[id := st']> (hr_states s)).
    rewrite lookup_insert_eq. split_and!; [congruence|congruence|done|done].
  - rewrite Hs. destruct Hw as [-> Hwr]. destruct (Hfirst eq_refl) as [E1 E2].
    pose proof (observe_follows h u fresh [] healthy checkedAt now Hh Hu (first_follows r t0)) as F'.
    assert (S : says fresh (hw_asked w)) by (rewrite Hwr; by split).
    pose proof (observe_says h u healthy checkedAt now fresh _ S) as S'.
    destruct (observe_thresholds h u healthy checkedAt now fresh) as [T1 T2].
    destruct (apply_result h u healthy checkedAt now fresh) as [[st' persist] told]. cbn [fst] in *.
    unfold up_to_date, known_as. cbn [hw_runner hw_results hw_asked].
    change (hr_states (s <| hr_states := <[id := st']> (hr_states s) |>)) with (<[id := st']> (hr_states s)).
    rewrite lookup_insert_eq. split_and!; [by rewrite T1|by rewrite T2|done|done].
Qed.

Lemma up_to_date_same w w' : same_target w w' -> up_to_date w -> up_to_date w'.
Proof. unfold up_to_date. by intros (-> & -> & ->). Qed.

Lemma state_thresholds r w t0 : fits w r -> up_to_date w ->
  let st := default (first_state (ro_target r) (ro_group r) (ro_hc r) t0) (known_as w) in
  threshold (hs_HealthyThreshold st) = h /\ threshold (hs_UnhealthyThreshold st) = u.
Proof.
  intros [_ Hf]. unfold up_to_date. destruct (known_as w) as [st|].
  - by intros (H1 & H2 & _); cbn; rewrite H1, H2.
  - destruct (Hf eq_refl) as [H1 H2]. intros _. cbn. by rewrite H1, H2.
Qed.

Lemma held_ask {X A} (e : HcEff X) (k : X -> C_ A) Q w :
  (forall x w1, hc_step id X e w x w1 -> held (k x) Q w1) -> held (pbind (request e) k) Q w.
Proof. intros H x w1 Hs. split; [done|]. by apply H. Qed.

Lemma check_held r w : fits w r -> up_to_date w ->
  held (check r) (fun _ w' => up_to_date w' /\ length (hw_results w') = S (length (hw_results w))) w.
Proof.
  intros Hr Hw. unfold check, checkTarget. cbv zeta. rewrite (proj1 Hr).
  apply held_ask. intros known w1 (s & Hs & Hk & E1).
  assert (Hw1 : same_target w w1) by (rewrite E1; by split).
  assert (Hk1 : known = known_as w1) by (rewrite Hk, E1; done). clear E1 Hk Hs.
  apply held_ask. intros t0 ? ->. apply looks_held; [apply probe_looks|]. intros result w2 Hw2.
  apply held_ask. intros checkedAt ? ->. apply held_ask. intros e w3 ->. apply held_ask. intros now ? ->.
  assert (H02 : same_target w w2) by (by etransitivity). pose proof (up_to_date_same _ _ H02 Hw) as Hu2.
  assert (Hk2 : known = known_as w2) by (rewrite Hk1; symmetry; apply Hw2).
  assert (Hr2 : fits w2 r) by (unfold fits; destruct H02 as [-> _]; exact Hr).
  destruct (state_thresholds r w2 t0 Hr2 Hu2) as [T1 T2]. rewrite <- Hk2 in T1, T2. rewrite T1, T2.
  apply held_ask. intros x w4 (s2 & Hs2 & Hx & ->).
  pose proof (fun v => recorded_up_to_date r w2 s2 (bool_decide (cr_Status result = StatusHealthy)) checkedAt t0 now known v Hr2 Hu2 Hk2
    (eq_trans Hs2 (eq_sym Hk2))) as R. cbv zeta in R.
  destruct (recorded _ _ _ _ _ _ _ _ s2) as [[[persist told] failures] s3] eqn:Eo. cbn [fst snd] in Hx |- *. subst x.
  assert (Hlen : length (hw_results w2) = length (hw_results w)) by (by destruct H02 as (_ & -> & _)).
  assert (Htell : forall w5, up_to_date w5 /\ length (hw_results w5) = S (length (hw_results w)) ->
    held (if told && onUnhealthy then request (HcTell (tr_ServerID (ro_target r)) id failures) else Ret tt)
      (fun _ w' => up_to_date w' /\ length (hw_results w') = S (length (hw_results w))) w5).
  { intros w5 H5. destruct (told && onUnhealthy); [|done]. by intros ? ? ->. }
  apply holds_bind. destruct persist as [st|].
  - apply held_ask. intros ? w5 (v & _ & ->). apply Htell. split; [exact (R v)|]. cbn. by rewrite <- Hlen.
  - apply Htell. split; [exact (R _)|]. cbn. by rewrite <- Hlen.
Qed.

(** The target is known after a check. *)
Lemma known_after w : up_to_date w -> hw_results w <> [] -> known_as w <> None.
Proof. unfold up_to_date. intros H Hne. by destruct (known_as w); [|destruct H]. Qed.

Lemma checks_held l w :
  Forall (fun r => tr_ID (ro_target r) = id) l -> match l with [] => True | r :: _ => fits w r end -> up_to_date w ->
  held (checks l) (fun _ w' => up_to_date w' /\ length (hw_results w') = (length l + length (hw_results w))%nat) w.
Proof.
  revert w. induction l as [|r l IH]; intros w Hl Hr Hw; [done|]. apply Forall_cons in Hl as [_ Hl].
  cbn [checks]. apply holds_bind. eapply holds_post; [by apply check_held|]. intros _ w1 [H1 L1].
  eapply holds_post; [apply IH; [exact Hl| |exact H1]|].
  - destruct l as [|r2 l]; [done|]. apply Forall_cons in Hl as [H2 _]. split; [exact H2|].
    intros E. by destruct (known_after w1 H1); [intros E0; rewrite E0 in L1|].
  - intros _ w2 [H2 L2]. split; [done|]. cbn [length]. lia.
Qed.
End OneTarget.

(** C40: Whatever the probes answer, after its checks a target that the process
    had not seen before counts as healthy exactly when enough of them in a row
    succeeded once and no run of failures of half the threshold followed, and as
    unhealthy exactly when enough in a row failed and it was not certified
    since; and the last status that the table was asked to take says so (the
    statement may fail, which nobody looks at).  The thresholds are those of the
    settings at the first check, whatever the group is set to later.  The checks
    of a target follow one another; other targets do as they like. *)
Theorem status_follows_results ParseIP ip_string onUnhealthy first rest w w' :
  let id := tr_ID (ro_target first) in
  let h := threshold (hc_HealthyThreshold (ro_hc first)) in
  let u := threshold (hc_UnhealthyThreshold (ro_hc first)) in
  Forall (fun r => tr_ID (ro_target r) = id) rest ->
  known_as id w = None -> hw_results w = [] -> hw_asked w = None ->
  runs (hc_step id) (checks ParseIP ip_string onUnhealthy (first :: rest)) w (Some tt) w' ->
  length (hw_results w') = S (length rest) /\
  exists st, GetTargetState id (hw_runner w') = Some st /\
    (hs_Status st = StatusHealthy <-> certified h u (hw_results w')) /\
    (hs_Status st = StatusUnhealthy <-> condemned h u (hw_results w')) /\
    says st (hw_asked w').
Proof.
  intros id h u Hrest Hk Hr Hwr Hrun.
  assert (Hw : up_to_date id (hc_HealthyThreshold (ro_hc first)) (hc_UnhealthyThreshold (ro_hc first)) w)
    by (unfold up_to_date; by rewrite Hk).
  pose proof (checks_held ParseIP ip_string onUnhealthy id (hc_HealthyThreshold (ro_hc first))
    (hc_UnhealthyThreshold (ro_hc first)) (first :: rest) w) as Hc.
  specialize (Hc ltac:(by constructor) ltac:(by split) Hw).
  destruct (runs_holds _ _ _ _ _ _ _ I Hc Hrun) as [_ H]. destruct (H tt eq_refl) as [U L].
  rewrite Hr in L. cbn [length] in L. rewrite Nat.add_0_r in L. split; [done|].
  unfold up_to_date in U. destruct (known_as id w') as [st|] eqn:E.
  - destruct U as (_ & _ & [_ _ F1 F2] & S). by exists st.
  - destruct U as [U _]. by rewrite U in L.
Qed.

(** ** Examples *)

(** The n-th probe answers as the list says. *)
Definition hc_serve (id : string) (outcomes : list bool) (X : Type) (e : HcEff X) (w : HcWorld) : X * HcWorld :=
  match e in HcEff X return X * HcWorld with
  | HcMem f => (fst (f (hw_runner w)), w <| hw_runner := snd (f (hw_runner w)) |>)
  | HcHistory r => (None, w <| hw_results := bool_decide (cr_Status r = StatusHealthy) :: hw_results w |>)
  | HcSetStatus _ st => (None, w <| hw_asked := Some st |> <| hw_written := Some st |>)
  | HcDial _ _ => ((1, if nth (length (hw_results w)) outcomes true then None else Some "refused"), w)
  | HcGet _ _ _ => ((1, inr 200), w)
  | HcGroups => (Got [], w) | HcTargets _ => (Got [], w) | HcSummary _ => (Got (0, 0), w)
  | HcPrune _ => (tt, w) | HcTell _ _ _ => (tt, w) | HcNow => (0, w) | HcGo _ _ _ _ => (true, w) | HcWait => (tt, w)
  end.

Lemma hc_serve_step id outcomes X (e : HcEff X) w :
  hc_step id X e w (fst (hc_serve id outcomes X e w)) (snd (hc_serve id outcomes X e w)).
Proof. destruct e; try done; [eexists; split; [by left|done]|by exists (hw_runner w)]. Qed.

Definition example_target : TargetRow := mkTargetRow "t" "a" "n" "10.0.0.1" 80 "healthy".
Definition example_hc (hT uT : Z) : HealthCheckConfig := mkHealthCheckConfig "" 0 15 5 hT uT.
Definition no_targets : HcWorld := mkHcWorld (mkRunner ∅ 0 [] 0) [] None None.

Definition example_round (hT uT : Z) : Round := mkRound example_target "g" (example_hc hT uT) "tcp".

(** Checks of a target, with thresholds two and four. *)
Definition example_checks (n : nat) : C_ unit :=
  checks (fun _ => None) (fun _ => "") true (replicate n (example_round 2 4)).

Definition checked (outcomes : list bool) : HcWorld :=
  world_alone (hc_serve "t" outcomes) (example_checks (length outcomes)) no_targets.

Lemma checked_runs outcomes :
  runs (hc_step "t") (example_checks (length outcomes)) no_targets (Some tt) (checked outcomes).
Proof.
  pose proof (runs_alone (hc_step "t") (hc_serve "t" outcomes) (example_checks (length outcomes)) no_targets
    (hc_serve_step "t" outcomes)) as H. by destruct (answer_alone _ _ _).
Qed.

Definition status_of (w : HcWorld) : option TargetStatus := hs_Status <$> hr_states (hw_runner w) !! "t".

Lemma status_follows_results_witness :
  status_of (checked [true; true; false]) = Some StatusHealthy /\
  status_of (checked [true; true; false; false]) = Some StatusSuspected /\
  length (hw_results (checked [true; true; false; false; false; false; true])) = 7%nat /\
  exists st, GetTargetState "t" (hw_runner (checked [true; true; false; false; false; false; true])) = Some st /\
    (hs_Status st = StatusHealthy <-> certified 2 4 [true; false; false; false; false; true; true]) /\
    (hs_Status st = StatusUnhealthy <-> condemned 2 4 [true; false; false; false; false; true; true]) /\
    says st (hw_asked (checked [true; true; false; false; false; false; true])).
Proof.
  split; [by vm_compute|]. split; [by vm_compute|].
  set (outcomes := [true; true; false; false; false; false; true]).
  change [true; false; false; false; false; true; true] with (hw_results (checked outcomes)).
  exact (status_follows_results (fun _ => None) (fun _ => "") true (example_round 2 4) (replicate 6 (example_round 2 4)) no_targets
    (checked outcomes) ltac:(repeat constructor) eq_refl eq_refl eq_refl (checked_runs outcomes)).
Defined.

(** ** What the code does beyond what it says *)

(** A target that was seen for the first time, and answered, is on the list of
    the unhealthy ones; the reconciler restarts its server. *)
Lemma answering_target_restarts_its_server :
  reconciler_targets (hw_runner (checked [true])) = [mkTarget "t" "a" "suspected" 0] /\
  restarts_of "a" (world_alone recovery_serve
    (recover_targets true 0 ∅ (reconciler_targets (hw_runner (checked [true])))) recovery_start) = [0].
Proof. by vm_compute. Qed.

(** The failures of the summary need not be consecutive. *)
Lemma summary_counts_all_failures :
  GetTargetHealthSummary ["unhealthy"; "healthy"; "healthy"; "unhealthy"; "unhealthy"] 0 0 = (3, 0).
Proof. by vm_compute. Qed.

(** A target that is suspected is written to the table as draining, and a
    process that starts again takes it for unhealthy. *)
Lemma suspicion_grows_at_restart :
  hw_written (checked [true; true; false; false]) = Some "draining" /\
  hs_Status (loaded (mkGroupRow "g" "tcp" NoConfig) (example_hc 2 4) (mkTargetRow "t" "a" "n" "10.0.0.1" 80 "draining") 2 0 0)
    = StatusUnhealthy.
Proof. by vm_compute. Qed.

(** The thresholds are those of the first check, whatever the group says
    later. *)
Lemma thresholds_are_kept :
  let again := world_alone (hc_serve "t" [])
    (checks (fun _ => None) (fun _ => "") true [example_round 9 9]) (checked [true]) in
  status_of again = Some StatusHealthy /\
  (hs_HealthyThreshold <$> hr_states (hw_runner again) !! "t") = Some 2.
Proof. by vm_compute. Qed.
